(* ===== verification/_CoqProject ===== *)
-Q . S2P
Prelude.v
Crc.v
Packet.v
Section.v
PacketReader.v
Psi.v
Tables.v
Calendar.v
Eit.v
Descriptors.v
Dsmcc.v
Carousel.v
Demux.v
StreamDemux.v
Tsmf.v
PacketQueue.v
Fanout.v
JobManager.v
JobResources.v
JobScheduling.v
Detect.v
Tlv.v
IpFlow.v
Mmtp.v
MmtSi.v
MmtTables.v
MmtDescriptors.v
TlvTransport.v
AgentHub.v
AgentQuarantine.v
TunerPool.v
TunerSharing.v
Sessions.v
TunerDevice.v
Broadcast.v
Routes.v
ScheduleTracker.v
Epg.v
ScheduleCollector.v
EventPeers.v
EventHub.v
MultiWriter.v
ProgramStore.v
ProgramManager.v
PresentFollowing.v
ProgramStream.v
AribTables.v
AribText.v
ModuleCache.v
TextDescriptors.v
Totality.v
LogoPng.v
EpgTopology.v
