(* ===== verification/Prelude.v ===== *)
(** * Mahiron: a verification of the broadcast core

    Mahiron is a tuner server for Japanese digital television.  A tuner (or a
    remote server) delivers one MPEG-2 transport stream, or one TLV stream of
    ISDB-S3; the program splits it into packets, assembles the PSI/SI sections,
    keeps the tables that describe the services, and fans the stream out to any number of subscribers, each of
    which sees the whole channel or one service.  Sections are parsed into
    tables and descriptors, feed the EPG and the data carousels, and background
    jobs scan, gather and update.

    ** The parts and where they are modelled

    - [Prelude]: Go values, outcomes and loops; the [wp] calculus; tactics.
    - [Crc] (ts/section.go, [crc32MPEG2]): the table-driven checksum.
    - [Packet] (ts/packet.go, the accessors of [Packet]).
    - [Section] (ts/section.go, [packetizeSection] of ts/demux.go): assembling
      sections from packets and cutting sections into packets.
    - [PacketReader] (ts/packet.go, [PacketReader]): finding packets of 188, 192
      or 204 bytes in a byte stream, with resynchronization.
    - [Psi], [Tables], [Calendar], [Eit] (ts/section_header.go, descriptors.go,
      pat.go, pmt.go, sdt.go, nit.go, bit.go, tot.go, eit.go): headers, the
      tables and their builders, and the calendar of [parseMJDTime].
    - [Descriptors] (ts/descriptors.go, parental.go, ...), [Dsmcc]
      (ts/logo_common.go, dsmcc_*.go): descriptors and DSM-CC messages.
    - [Carousel] (ts/dsmcc_carousel.go): the module cache with its budgets.
    - [Demux] (ts/demux.go): the demultiplexer: tables from sections, programs,
      and the rewritten PAT of a service view.
    - [StreamDemux] (internal/stream/demux/demuxer.go): the service filter and
      the continuity monitor.
    - [Tsmf] (ts/tsmf.go): extracting one relative TS from multiple frames.
    - [PacketQueue], [Fanout] (internal/stream/fanout): a subscriber's queue, and
      the engine that serves all subscribers of a source.  [Fanout.Transport] is
      the interface the engine is proved against, [Fanout.tsLaws] its instance
      for MPEG-2 TS.
    - [JobManager], [JobResources], [JobScheduling] (internal/job): the job
      manager, what running jobs hold, and its scheduling.
    - [Detect] (packet/packet.go, ts/detector.go, mmt/detector.go): telling TS
      from TLV before a byte of the stream is delivered.
    - [Tlv], [IpFlow], [Mmtp] (mmt/tlv.go, ip.go, flow.go, mmtp.go): TLV packets,
      the datagrams they carry, MMTP packets and the messages assembled from
      them; the builders of mmt/mmttest are the other side of the round trips.
    - [MmtSi], [MmtTables], [MmtDescriptors] (the other files of mmt/): sections,
      messages, the tables and the descriptors of MMT-SI and TLV-SI.
    - [TextDescriptors] (ts/sdt.go, logo.go, descriptors.go, bit.go): the TS
      descriptors that carry text.
    - [Totality]: the parsers of ts and mmt, gathered.
    - [TlvTransport] (internal/stream/tlv/transport.go): the TLV side of the
      engine, the second instance of [Fanout.Transport].
    - [AgentHub], [AgentQuarantine] (internal/agent): tuners on other machines:
      the hub their agents dial in to, the agents' side, and what the hub
      promises to the pool ([AgentQuarantine.announces]).
    - [TunerPool], [TunerSharing] (internal/tuner): the pool of tuners, and the
      requests that compete for them.
    - [TunerDevice] (internal/tuner/device.go): the process behind a tuner.
    - [Broadcast], [Routes] (internal/stream/source): the broadcast that shares a
      tuner, and the routes by which a channel is reached.
    - [Sessions] (internal/stream/session_registry.go, manager.go): the sessions
      that viewers of a channel share.
    - [ScheduleTracker] (internal/isdb/schedule.go): which sections of the
      schedule tables have been seen and which are missing.
    - [Epg] (internal/model, internal/stream/schedule): events and how the
      sections that describe them are merged.
    - [ScheduleCollector] (internal/stream/schedule): the collector that turns
      sections into updates of the guide.
    - [EventPeers] (internal/epggather/program_merge.go): events that several
      services share, filled from one another.
    - [EpgTopology] (internal/epggather/topology.go): the stored services in
      groups that are gathered together.
    - [EventHub] (internal/event/hub.go): the log of events and its subscribers.
    - [MultiWriter] (internal/util/dynamicmultiwriter.go): one writer to many,
      with reference-counted chunks from a pool.
    - [ProgramStore], [ProgramManager] (internal/program): the rows of the
      program table, and the manager in front of it.
    - [PresentFollowing], [ProgramStream] (internal/stream/presentfollowing,
      programstream): the present and the following event of every service, and
      the stream of one event.
    - [AribTables], [AribText] (ts/aribstr): the character tables and the decoder
      of ARIB texts.
    - [ModuleCache] (internal/bml): the cache of completed carousel modules.
    - [LogoPng] (internal/isdb/logo_png.go): logo images, completed with the
      colours every receiver knows.

    A packet flows through [PacketReader] into [Fanout.runTurn], which asks the
    continuity monitor, feeds [Demux.FeedWithPID] and dispatches the packet and
    its sections; every subscriber's filter asks its view of the same
    demultiplexer; queued bytes leave through [PacketQueue.takeLocked].  A TLV
    packet flows through [Tlv.TLVNext] into the same engine, which feeds
    [TlvTransport.tlvFeed]: the datagram, its flow, the MMTP packet, the message
    assembler and the tables of the message, one after the other.  A viewer's
    request runs [Sessions.acquireStage]; the request that creates a session
    runs [Routes.selectTurn] over the channel's routes: a route of this machine
    joins its [Broadcast] or runs [TunerPool.acquireDeviceTurn] until a tuner,
    of this machine or of an agent, is reserved, and the session's engine reads
    from it.  Its EIT sections go to [ScheduleCollector.observeSchedule] and
    [PresentFollowing.ObservePF]; the updates are stored through
    [ProgramManager.upsertPrograms], whose changes are published on the
    [EventHub]; a [ProgramStream] copies packets while its event is present.

    ** How code becomes definitions

    Every definition keeps the name of the Go function or type it models, as
    far as names can be kept apart.  Bytes and unsigned integers are [Z] in
    their range, with [u8] ... [u64] written where a conversion or an addition
    may wrap; [int] is 64 bits wide and is a plain [Z] where sizes bound it.
    Slices are lists.  A function that may return an error, index out of range
    or loop is a [go] computation; a [for] loop is [loop] over a body, with fuel
    that the theorems prove to be enough: one more than the length of what the
    loop consumes.  [Diverge] stands for exhausted fuel and is excluded by every
    theorem that says [returns], [safe] or [wp].  Structs are records, maps are
    [gmap], sets are maps to [true]; where Go visits a map in any order, the
    order is a parameter [range] with [range m ≡ₚ map_to_list m].  Pointers that
    are shared are ids into a store ([Fanout.roster], [JobManager.m_jobs]), and
    a slice that is changed while it is ranged over is modelled with its array
    ([JobManager.standbyTurn]).  A goroutine is a function per turn under its
    lock; interleavings are step relations ([PacketQueue.steps], [Fanout.step],
    [JobScheduling.step], [Demux.run], [AgentQuarantine.hubStep],
    [TunerSharing.worldStep], [Sessions.streamStep], [TunerDevice.deviceStep],
    [Broadcast.sharedStep], [Routes.routingStep], [ScheduleCollector.collectorStep],
    [EventHub.eventStep], [MultiWriter.mwStep], [ProgramManager.managerStep],
    [ProgramStream.programStep], [ModuleCache.cacheStep]).  A channel that is closed
    and replaced on every change is the number of changes, and waiting on it
    is remembering that number.

    Code outside the repository is a parameter with its documented behaviour as
    hypotheses: the JIS decoder of golang.org/x/text ([jisTransform] in
    [AribText]), failures of the database ([fault] in [ProgramManager]).
    Searches over an index use fuel equal to the size of the interval
    ([AribText.searchFuel]), eviction loops two more than the number of entries;
    the theorems prove both to be enough.

    ** What the theorems show

    - Codecs: the checksum is serial polynomial division; sealed sections pass
      and damaged ones do not; PAT, PMT, SDT, NIT and EIT, and MH-EIT and
      MH-SDT, survive being built and parsed; times are exact, and the two
      implementations of them, of ts and of mmt, agree.
    - Streams: sections survive being cut into packets and reassembled; only
      valid sections come out; the packet reader returns slices of its input and
      reads a clean stream exactly; a TSMF reader delivers its target's packets.
      A checking reader passes a matching stream unchanged and nothing of any
      other; the TLV reader splits a stream into its packets; fragmented
      messages are rejoined, and never across a gap; a section sent over MMT
      arrives through all layers, once and unchanged.
    - Totality: the parsers of ts and mmt return or report an error on every
      input, those that trust a descriptor's length byte on every descriptor
      that a descriptor loop yields.
    - State: the carousel accounts for its bytes and evicts the oldest; the
      demultiplexer's programs follow the PAT and its service views emit
      continuous, current PATs and pass exactly their service's packets; the
      TLV filter follows the latest PLT and MPTs; the monitor is one machine per
      PID.
    - Concurrency: the queue is a list within its budget, no wakeup is lost;
      the engine never gets stuck, serves subscribers independently and ends
      when deserted; jobs exclude each other, runnable jobs do not wait, every
      call returns and shutting down ends what is pending.
    - Sharing: no tuner is held twice, the tuner a request gets and the one it
      takes away are the right ones, no release or reconnection goes
      unnoticed, and asking first gives the answer that trying would give; a
      remote tuner whose receiver may still run is not handed out, and comes
      back when its agent has cleaned up; the viewers of a channel share one
      session, every request for one ends, and a shutdown waits for the
      sessions being created; a route has one tuner and one broadcast, which is
      stopped once, when its last subscriber has gone, and the best route that
      works is the one taken.
    - Guide: the tracker's coverage is exactly the sections seen, a full cycle
      completes it and its diagnosis names what is missing; the updates of the
      collector describe its state, its events are the newest of those received,
      and a replaced version does not come back; shared events are filled from
      their peers; the groups to gather from hold exactly their services, each
      once.
    - Programs: the events enqueued mirror the store and each is published once,
      in order unless two flushes overlap; late tables move nothing, stored
      programs read back as they were; snapshots of the present and
      following event are complete, and a program stream follows its event.
    - Texts: every byte string decodes to a valid text, lookups agree with the
      tables they search, plain ASCII comes back unchanged.
    - Buffers: a chunk of the multi writer is never reused while a writer holds
      it; subscribers of the event hub see events in order; the cache of modules
      keeps the most recently used ones within its bytes; a logo is completed
      exactly, and images that are not valid are refused.

    Some lemmas state what the code does not do: [Section.Feed_ignores_packet_while_pending],
    [Carousel.invalidate_overruns_in_flight_budget], [Demux.samePAT_confuses_missing_services],
    [JobScheduling.abort_strands_dependent_job], [JobScheduling.shutdown_skips_waiting_job],
    [JobScheduling.crossed_writers_block_each_other], [Detect.leading_sync_byte_is_accepted],
    [Tlv.overlong_header_hides_packets], [TunerSharing.removed_user_wakes_nobody],
    [Sessions.late_stop_evicts_successor], [TunerDevice.stop_of_a_starting_device_hangs],
    [TunerDevice.grabbed_device_can_still_start], [ScheduleTracker.stray_table_blocks_completion],
    [ProgramManager.overlapping_flushes_reorder], [ProgramManager.replacing_by_nil_panics]
    and [ProgramStream.frequent_sections_keep_the_stream_open].

    ** What is not modelled

    Input and output around this core: the HTTP API and its generated code, the
    web interface, the database with its generated queries and migrations,
    the HTTP clients of remote servers, reading configuration files, the tuner
    processes and DVB devices themselves, metrics and the wiring of the
    application.  The observers of a session (internal/stream/channel,
    internal/stream/tlv/session.go) register callbacks with the engine that is
    modelled and hand its sections to the collectors that are modelled; they
    keep no state of their own beyond channels.  The service store and the
    module store on disk are SQL statements.  When to scan and which channel to
    gather from is policy over jobs, sessions and the database.  Of the modelled
    parts, log lines, metrics and timestamps are left out: no decision depends
    on them. *)

From Stdlib Require Export ZArith Lia.
From stdpp Require Export base tactics numbers option list gmap sorting.

#[global] Open Scope Z_scope.

(** ** Go values

    A [byte], [uint16], [uint32], ... is a [Z] in the range of its width; Go's
    [int] is 64 bits wide and is a [Z].  Slices are lists; [len] is the Go
    builtin. *)

Abbreviation bytes := (list Z).
Abbreviation len l := (Z.of_nat (length l)).

Definition u8 (x : Z) : Z := x mod 2 ^ 8.
Definition u16 (x : Z) : Z := x mod 2 ^ 16.
Definition u32 (x : Z) : Z := x mod 2 ^ 32.
Definition u64 (x : Z) : Z := x mod 2 ^ 64.

Definition byte_ok (b : Z) : Prop := 0 <= b < 256.
Definition bytes_ok (l : bytes) : Prop := Forall byte_ok l.

(** ** Outcomes

    A Go function that may return an error, panic on an index or slice
    expression, or loop, is a computation of type [go A].  [Diverge] is the
    answer of a loop whose fuel ran out: the theorems show that it never
    occurs. *)

Inductive error : Set :=
  | ErrInvalidSection
  | ErrUnexpectedTag
  | ErrInvalidPMTPID
  | ErrShortBuffer
  | ErrEOF
  | ErrServiceNotFound
  | ErrOther (code : Z)
  | ErrDSMCCCarouselBudgetExceeded
  | ErrStopped
  | ErrSubscriberOverflow
  | ErrCanceled
  | ErrClosedPipe
  | ErrShortWrite
  | ErrDefinitionNotFound
  | ErrInvalidDefinition
  | ErrJobNotFound
  | ErrJobNotRunning
  | ErrJobNotRerunnable
  | ErrJobAlreadyRunning
  | ErrManagerShutdown
  | ErrBufferFull
  | ErrInvalidPacket
  | ErrNotUDP
  | ErrNotTLVStream
  | ErrTunerNotFound
  | ErrUnsupportedTuner
  | ErrTunerUnavailable
  | ErrChannelNotFound
  | ErrStreamManagerShutdown
  | ErrSessionAcquireFailed
  | ErrBroadcastStopped
  | ErrAgentUnavailable
  | ErrAgentConflict
  | ErrUnknownSession
  | ErrSessionUsed
  | ErrNoProgress
  | ErrCleanup.

#[export] Instance error_eq_dec : EqDecision error.
Proof. solve_decision. Defined.

Inductive go (A : Type) : Type :=
  | Ret (a : A)
  | Err (e : error)
  | Panic
  | Diverge.
Arguments Ret {A} _.
Arguments Err {A} _.
Arguments Panic {A}.
Arguments Diverge {A}.

#[export] Instance go_ret : MRet go := @Ret.
#[export] Instance go_bind : MBind go := fun A B f c =>
  match c with
  | Ret a => f a
  | Err e => Err e
  | Panic => Panic
  | Diverge => Diverge
  end.
#[export] Instance go_fmap : FMap go := fun A B f c =>
  match c with
  | Ret a => Ret (f a)
  | Err e => Err e
  | Panic => Panic
  | Diverge => Diverge
  end.

(** [a || b] and [a && b] with Go's short-circuit evaluation. *)
Definition goor (a b : go bool) : go bool := x ← a; if (x : bool) then Ret true else b.
Definition goand (a b : go bool) : go bool := x ← a; if (x : bool) then b else Ret false.
Infix "||!" := goor (at level 50, left associativity).
Infix "&&!" := goand (at level 40, left associativity).

(** [x, err := c; if err != nil { h }; k]: an error the caller handles. *)
Definition orElse {A B} (c : go A) (h : error -> go B) (k : A -> go B) : go B :=
  match c with
  | Ret a => k a
  | Err e => h e
  | Panic => Panic
  | Diverge => Diverge
  end.

(** [l[i]] and [l[a:b]].  A slice expression may extend a slice up to its
    capacity in Go; the model panics beyond the length, so what is proved not
    to panic here does not read beyond the length either. *)
Definition idx {A} (l : list A) (i : Z) : go A :=
  if 0 <=? i then
    match l !! Z.to_nat i with Some b => Ret b | None => Panic end
  else Panic.

Definition slice {A} (l : list A) (a b : Z) : go (list A) :=
  if (0 <=? a) && (a <=? b) && (b <=? len l)
  then Ret (take (Z.to_nat (b - a)) (drop (Z.to_nat a) l))
  else Panic.

Definition sliceFrom {A} (l : list A) (a : Z) : go (list A) := slice l a (len l).
Definition sliceTo {A} (l : list A) (b : Z) : go (list A) := slice l 0 b.

(** [uint16(l[i]&mask)<<8 | uint16(l[i+1])], the big-endian reads of the
    parsers ([mask] 0xff, 0x1f and 0x0f). *)
Definition be (hi lo : Z) : Z := Z.lor (Z.shiftl hi 8) lo.
Definition readMasked (mask : Z) (l : bytes) (i : Z) : go Z :=
  hi ← idx l i; lo ← idx l (i + 1); Ret (be (Z.land hi mask) lo).
Definition read16 (l : bytes) (i : Z) : go Z :=
  hi ← idx l i; lo ← idx l (i + 1); Ret (be hi lo).
Definition read13 := readMasked 0x1f.
Definition read12 := readMasked 0x0f.
Definition read32 (l : bytes) (i : Z) : go Z :=
  hi ← read16 l i; lo ← read16 l (i + 2); Ret (Z.lor (Z.shiftl hi 16) lo).

(** [x & (1 << n) != 0] *)
Definition flag (x mask : Z) : bool := negb (Z.land x mask =? 0).

(** A [for] loop: the body either continues with a new state or leaves the
    loop. *)
Inductive iteration (S R : Type) : Type :=
  | Continue (s : S)
  | Break (r : R).
Arguments Continue {S R} _.
Arguments Break {S R} _.

Fixpoint loop {S R} (fuel : nat) (body : S -> go (iteration S R)) (s : S) : go R :=
  match fuel with
  | O => Diverge
  | Datatypes.S fuel =>
      x ← body s;
      match x with
      | Continue s' => loop fuel body s'
      | Break r => Ret r
      end
  end.

(** ** Total correctness

    [wp c Q]: the computation neither panics nor diverges, and if it returns
    a value the value satisfies [Q]. *)
Definition wp {A} (c : go A) (Q : A -> Prop) : Prop :=
  match c with
  | Ret a => Q a
  | Err _ => True
  | Panic | Diverge => False
  end.

(** The computation returns or reports an error on every input. *)
Definition safe {A} (c : go A) : Prop := wp c (fun _ => True).

(** The computation returns a value, and it satisfies [Q]. *)
Definition returns {A} (c : go A) (Q : A -> Prop) : Prop := exists a, c = Ret a /\ Q a.

(** A function without an error result. *)
Definition errorless {A} (c : go A) : Prop := forall e, c <> Err e.

(** The byte at an offset known to be in range. *)
Definition byteAt (l : bytes) (i : Z) : Z := default 0 (l !! Z.to_nat i).

Create HintDb bytes.

Lemma wp_mono {A} (c : go A) (P Q : A -> Prop) :
  wp c P -> (forall a, P a -> Q a) -> wp c Q.
Proof. destruct c; simpl; auto. Qed.

Lemma wp_ret {A} (a : A) (Q : A -> Prop) : Q a -> wp (Ret a) Q.
Proof. done. Qed.

Lemma wp_err {A} e (Q : A -> Prop) : wp (Err e) Q.
Proof. exact I. Qed.

Lemma wp_bind {A B} (c : go A) (f : A -> go B) (Q : B -> Prop) :
  wp c (fun a => wp (f a) Q) -> wp (c ≫= f) Q.
Proof. destruct c; simpl; auto. Qed.

Lemma wp_fmap {A B} (c : go A) (f : A -> B) (Q : B -> Prop) :
  wp c (fun a => Q (f a)) -> wp (f <$> c) Q.
Proof. destruct c; simpl; auto. Qed.

Lemma wp_if {A} (b : bool) (c1 c2 : go A) (Q : A -> Prop) :
  (b = true -> wp c1 Q) -> (b = false -> wp c2 Q) -> wp (if b then c1 else c2) Q.
Proof. destruct b; auto. Qed.

Lemma wp_orElse {A B} (c : go A) (h : error -> go B) (k : A -> go B) (P : A -> Prop) (Q : B -> Prop) :
  wp c P -> (forall e, wp (h e) Q) -> (forall a, P a -> wp (k a) Q) -> wp (orElse c h k) Q.
Proof. destruct c; simpl; auto. Qed.

Lemma wp_goor (a b : go bool) (Q : bool -> Prop) :
  wp a (fun x => if x then Q true else wp b Q) -> wp (a ||! b) Q.
Proof. destruct a as [[]| | |]; simpl; auto. Qed.

Lemma wp_goand (a b : go bool) (Q : bool -> Prop) :
  wp a (fun x => if x then wp b Q else Q false) -> wp (a &&! b) Q.
Proof. destruct a as [[]| | |]; simpl; auto. Qed.

Lemma goor_Ret a b : Ret a ||! Ret b = Ret (a || b).
Proof. by destruct a. Qed.

Lemma goand_Ret a b : Ret a &&! Ret b = Ret (a && b).
Proof. by destruct a. Qed.

Lemma wp_and {A} (c : go A) (P Q : A -> Prop) :
  wp c P -> wp c Q -> wp c (fun a => P a /\ Q a).
Proof. destruct c; simpl; auto. Qed.

Lemma wp_Ret_inv {A} (c : go A) (Q : A -> Prop) a : wp c Q -> c = Ret a -> Q a.
Proof. by intros H ->. Qed.

Lemma wp_safe {A} (c : go A) (Q : A -> Prop) : wp c Q -> safe c.
Proof. intros H. eapply wp_mono; [exact H|done]. Qed.

(** The loop rule: an invariant and a measure below the fuel. *)
Lemma wp_loop {S R} (Inv : S -> Prop) (m : S -> Z) (body : S -> go (iteration S R))
    (Q : R -> Prop) :
  (forall s, Inv s -> wp (body s) (fun x =>
     match x with
     | Continue s' => Inv s' /\ 0 <= m s' < m s
     | Break r => Q r
     end)) ->
  forall fuel s, Inv s -> m s < Z.of_nat fuel -> 0 <= m s -> wp (loop fuel body s) Q.
Proof.
  intros Hbody fuel. induction fuel as [|fuel IH]; intros s HI Hm H0; [lia|].
  simpl. apply wp_bind. eapply wp_mono; [by apply Hbody|].
  intros [s'|r]; [|done]. intros [HI' Hm']. apply IH; [done|lia..].
Qed.

Lemma returns_wp {A} (c : go A) (Q : A -> Prop) : errorless c -> wp c Q -> returns c Q.
Proof. intros He HQ. destruct c as [a|e| |]; [by exists a|by destruct (He e)|done..]. Qed.

Lemma wp_returns {A} (c : go A) (Q : A -> Prop) : returns c Q -> wp c Q.
Proof. by intros (a & -> & ?). Qed.

Lemma errorless_bind {A B} (c : go A) (f : A -> go B) :
  errorless c -> (forall a, errorless (f a)) -> errorless (c ≫= f).
Proof. intros Hc Hf e. destruct c as [a|e'| |]; simpl; [apply Hf| |done..]. by destruct (Hc e'). Qed.

Lemma errorless_fmap {A B} (c : go A) (f : A -> B) : errorless c -> errorless (f <$> c).
Proof. intros Hc e. destruct c as [a|e'| |]; simpl; try done. by destruct (Hc e'). Qed.

Lemma errorless_idx {A} (l : list A) i : errorless (idx l i).
Proof. intros e. unfold idx. repeat case_match; done. Qed.

Lemma errorless_slice {A} (l : list A) a b : errorless (slice l a b).
Proof. intros e. unfold slice. by case_match. Qed.

Lemma errorless_loop {S R} n (body : S -> go (iteration S R)) :
  (forall s, errorless (body s)) -> forall s, errorless (loop n body s).
Proof.
  intros Hb. induction n as [|n IH]; intros s; [done|]. simpl.
  apply errorless_bind; [done|]. by intros [s'|r].
Qed.

Lemma errorless_orElse {A B} (c : go A) (h : error -> go B) (k : A -> go B) :
  (forall e, errorless (h e)) -> (forall a, errorless (k a)) -> errorless (orElse c h k).
Proof. intros Hh Hk. destruct c as [a|e| |]; [apply Hk|apply Hh|done..]. Qed.

Create HintDb errorless.
#[export] Hint Resolve errorless_idx errorless_slice : errorless.

(** Proves [errorless] of a computation built from errorless parts. *)
Ltac errorless :=
  repeat first
    [ solve [auto with errorless] | progress cbv zeta
    | match goal with
      | |- errorless (_ ≫= _) => apply errorless_bind
      | |- errorless (_ <$> _) => apply errorless_fmap
      | |- errorless (loop _ _ _) => apply errorless_loop
      | |- errorless (orElse _ _ _) => apply errorless_orElse
      | |- forall _, _ => intros ?
      | |- errorless (Ret _) => done
      | |- errorless Panic => done
      | |- errorless Diverge => done
      | |- errorless (match ?x with _ => _ end) => destruct x
      | |- errorless (_ ||! _) => unfold goor
      | |- errorless (_ &&! _) => unfold goand
      | |- errorless (sliceFrom _ _) => unfold sliceFrom
      | |- errorless (sliceTo _ _) => unfold sliceTo
      end ].

(** ** Bytes and slices *)

Lemma idx_lookup {A} (l : list A) i x :
  0 <= i -> l !! Z.to_nat i = Some x -> idx l i = Ret x.
Proof. intros Hi Hx. unfold idx. by rewrite (proj2 (Z.leb_le 0 i) Hi), Hx. Qed.

Lemma idx_Ret_inv {A} (l : list A) i x :
  idx l i = Ret x -> 0 <= i < len l /\ l !! Z.to_nat i = Some x.
Proof.
  unfold idx. destruct (Z.leb_spec 0 i); [|done].
  destruct (l !! Z.to_nat i) as [y|] eqn:E; [|done]. intros [= ->].
  apply lookup_lt_Some in E as ?. split; [lia|done].
Qed.

Lemma wp_idx {A} (l : list A) i (Q : A -> Prop) :
  0 <= i < len l -> (forall x, l !! Z.to_nat i = Some x -> Q x) -> wp (idx l i) Q.
Proof.
  intros Hi HQ. destruct (lookup_lt_is_Some_2 l (Z.to_nat i)) as [x Hx]; [lia|].
  rewrite (idx_lookup _ _ x) by (done || lia). by apply HQ.
Qed.

Lemma bytes_ok_lookup l i b : bytes_ok l -> l !! i = Some b -> byte_ok b.
Proof. intros H. by apply Forall_lookup_1. Qed.

Lemma wp_idx_byte l i (Q : Z -> Prop) :
  bytes_ok l -> 0 <= i < len l -> (forall b, 0 <= b < 256 -> Q b) -> wp (idx l i) Q.
Proof.
  intros Hl Hi HQ. apply wp_idx; [done|]. intros b Hb.
  apply HQ. by eapply bytes_ok_lookup.
Qed.

Lemma wp_slice {A} (l : list A) a b (Q : list A -> Prop) :
  0 <= a -> a <= b -> b <= len l ->
  Q (take (Z.to_nat (b - a)) (drop (Z.to_nat a) l)) -> wp (slice l a b) Q.
Proof.
  intros Ha Hab Hb HQ. unfold slice.
  rewrite (proj2 (Z.leb_le _ _) Ha), (proj2 (Z.leb_le _ _) Hab),
    (proj2 (Z.leb_le _ _) Hb). done.
Qed.

Lemma slice_Ret_inv {A} (l : list A) a b r :
  slice l a b = Ret r ->
  0 <= a /\ a <= b /\ b <= len l /\ r = take (Z.to_nat (b - a)) (drop (Z.to_nat a) l).
Proof.
  unfold slice. destruct ((0 <=? a) && (a <=? b) && (b <=? len l)) eqn:E; [|done].
  intros [= <-]. rewrite !andb_true_iff, !Z.leb_le in E. tauto.
Qed.

Lemma bytes_ok_take n l : bytes_ok l -> bytes_ok (take n l).
Proof. apply Forall_take. Qed.

Lemma bytes_ok_drop n l : bytes_ok l -> bytes_ok (drop n l).
Proof. apply Forall_drop. Qed.

Lemma bytes_ok_app l1 l2 : bytes_ok l1 -> bytes_ok l2 -> bytes_ok (l1 ++ l2).
Proof. by apply Forall_app_2. Qed.

Lemma bytes_ok_nil : bytes_ok [].
Proof. constructor. Qed.

Lemma bytes_ok_cons b l : byte_ok b -> bytes_ok l -> bytes_ok (b :: l).
Proof. by constructor. Qed.

Lemma bytes_ok_replicate n b : byte_ok b -> bytes_ok (replicate n b).
Proof. intros. by apply Forall_replicate. Qed.

Lemma idx_byteAt (p : bytes) i : 0 <= i < len p -> idx p i = Ret (byteAt p i).
Proof.
  intros Hi. destruct (lookup_lt_is_Some_2 p (Z.to_nat i)) as [x Hx]; [lia|].
  rewrite (idx_lookup p i x) by (done || lia). unfold byteAt. by rewrite Hx.
Qed.

Lemma byteAt_range (p : bytes) i : bytes_ok p -> 0 <= byteAt p i < 256.
Proof.
  intros Hp. unfold byteAt. destruct (p !! Z.to_nat i) as [x|] eqn:E; simpl; [|lia].
  by eapply bytes_ok_lookup.
Qed.

Lemma read12_at l i :
  0 <= i -> i + 1 < len l -> read12 l i = Ret (be (Z.land (byteAt l i) 0x0f) (byteAt l (i + 1))).
Proof. intros. unfold read12, readMasked. by rewrite !idx_byteAt by lia. Qed.

Lemma byteAt_take l n i : 0 <= i < Z.of_nat n -> byteAt (take n l) i = byteAt l i.
Proof. intros. unfold byteAt. by rewrite lookup_take_lt by lia. Qed.

Lemma byteAt_app l1 l2 i : 0 <= i < len l1 -> byteAt (l1 ++ l2) i = byteAt l1 i.
Proof. intros. unfold byteAt. by rewrite lookup_app_l by lia. Qed.

Lemma slice_0 {A} (l : list A) n : 0 <= n <= len l -> sliceTo l n = Ret (take (Z.to_nat n) l).
Proof.
  intros. unfold sliceTo, slice.
  rewrite (proj2 (Z.leb_le 0 n)), (proj2 (Z.leb_le n _)) by lia. simpl. by rewrite Z.sub_0_r.
Qed.

Lemma slice_from {A} (l : list A) n : 0 <= n <= len l -> sliceFrom l n = Ret (drop (Z.to_nat n) l).
Proof.
  intros. unfold sliceFrom, slice.
  rewrite (proj2 (Z.leb_le 0 n)), (proj2 (Z.leb_le n _)), Z.leb_refl by lia. simpl.
  f_equal. apply take_ge. rewrite length_drop. lia.
Qed.

Lemma loop_S {S R} n (body : S -> go (iteration S R)) s :
  loop (Datatypes.S n) body s =
    (x ← body s; match x with Continue s' => loop n body s' | Break r => Ret r end).
Proof. done. Qed.

Lemma wp_loop_S {S R} n (body : S -> go (iteration S R)) s (Q : R -> Prop) :
  wp (body s) (fun x => match x with Continue s' => wp (loop n body s') Q | Break r => Q r end) ->
  wp (loop (Datatypes.S n) body s) Q.
Proof. intros H. rewrite loop_S. apply wp_bind. eapply wp_mono; [exact H|]. by intros []. Qed.

(** [copy(dst, src)] *)
Definition gocopy {A} (dst src : list A) : list A :=
  take (length dst) src ++ drop (length src) dst.

Lemma gocopy_full {A} (dst src : list A) : length dst = length src -> gocopy dst src = src.
Proof.
  intros E. unfold gocopy. rewrite E, take_ge, <- E, drop_ge by done. apply app_nil_r.
Qed.

#[export] Hint Resolve bytes_ok_take bytes_ok_drop bytes_ok_app bytes_ok_nil
  bytes_ok_cons bytes_ok_replicate : bytes.

(** A decidable fact about a small range, checked by evaluation. *)
Lemma range_forallb (P : Z -> bool) n :
  forallb P (seqZ 0 n) = true -> forall x, 0 <= x < n -> P x = true.
Proof.
  intros H x Hx. rewrite forallb_forall in H. apply H, list_elem_of_In, elem_of_seqZ. lia.
Qed.

(** ** Widths and big-endian pairs *)

Lemma u8_range x : 0 <= u8 x < 256.
Proof. apply Z.mod_pos_bound. lia. Qed.

Lemma u16_range x : 0 <= u16 x < 65536.
Proof. apply Z.mod_pos_bound. lia. Qed.

Lemma u32_range x : 0 <= u32 x < 2 ^ 32.
Proof. apply Z.mod_pos_bound. lia. Qed.

Lemma u8_small x : 0 <= x < 256 -> u8 x = x.
Proof. apply Z.mod_small. Qed.

Lemma u16_small x : 0 <= x < 65536 -> u16 x = x.
Proof. apply Z.mod_small. Qed.

Lemma u32_small x : 0 <= x < 2 ^ 32 -> u32 x = x.
Proof. apply Z.mod_small. Qed.

Lemma testbit_mod_pow2 x k i :
  0 <= k -> 0 <= i -> Z.testbit (x mod 2 ^ k) i = (i <? k) && Z.testbit x i.
Proof.
  intros Hk Hi. destruct (Z.ltb_spec i k).
  - by rewrite Z.mod_pow2_bits_low by lia.
  - by rewrite Z.mod_pow2_bits_high by lia.
Qed.

Lemma testbit_above x k i : 0 <= k -> 0 <= x < 2 ^ k -> k <= i -> Z.testbit x i = false.
Proof.
  intros Hk Hx Hi. rewrite <- (Z.mod_small x (2 ^ k)) by done.
  by apply Z.mod_pow2_bits_high.
Qed.

Lemma land_mask x k : 0 <= k -> Z.land x (Z.ones k) = x mod 2 ^ k.
Proof. apply Z.land_ones. Qed.

Lemma land_0f x : Z.land x 0x0f = x mod 16.
Proof. by apply (land_mask x 4). Qed.

Lemma land_1f x : Z.land x 0x1f = x mod 32.
Proof. by apply (land_mask x 5). Qed.

Lemma land_ff x : Z.land x 0xff = x mod 256.
Proof. by apply (land_mask x 8). Qed.

Lemma lor_disjoint hi lo k :
  0 <= k -> 0 <= lo < 2 ^ k -> Z.lor (Z.shiftl hi k) lo = hi * 2 ^ k + lo.
Proof.
  intros Hk Hlo. rewrite <- Z.shiftl_mul_pow2 by done.
  assert (Z.land (Z.shiftl hi k) lo = 0) as H0.
  { apply Z.bits_inj'. intros i Hi. rewrite Z.land_spec, Z.bits_0.
    destruct (Z.ltb_spec i k).
    - by rewrite Z.shiftl_spec_low by done.
    - rewrite (testbit_above lo k i) by done. apply andb_false_r. }
  by rewrite <- Z.lxor_lor, <- Z.add_nocarry_lxor.
Qed.

Lemma be_add hi lo : 0 <= lo < 256 -> be hi lo = hi * 256 + lo.
Proof. intros. unfold be. by rewrite lor_disjoint by done. Qed.

Lemma be_shift x : 0 <= x -> be (Z.shiftr x 8) (u8 x) = x.
Proof.
  intros Hx. rewrite be_add by apply u8_range. rewrite Z.shiftr_div_pow2 by done.
  unfold u8. pose proof (Z.div_mod x (2 ^ 8)). lia.
Qed.

Lemma shiftr_range x k n : 0 <= k -> 0 <= x < n * 2 ^ k -> 0 <= Z.shiftr x k < n.
Proof.
  intros Hk Hx. rewrite Z.shiftr_div_pow2 by done.
  assert (0 < 2 ^ k) by (by apply Z.pow_pos_nonneg).
  split; [apply Z.div_pos; lia|apply Z.div_lt_upper_bound; lia].
Qed.

(** A big-endian field under fixed upper bits, as the builders write it and
    the parsers read it. *)
Definition hiByte (x : Z) : Z := u8 (Z.shiftr x 8).

Lemma byte_ok_u8 x : byte_ok (u8 x).
Proof. apply u8_range. Qed.

Lemma byte_ok_lor a b : byte_ok a -> byte_ok b -> byte_ok (Z.lor a b).
Proof.
  unfold byte_ok. intros Ha Hb. split; [apply Z.lor_nonneg; lia|].
  destruct (Z.eq_dec (Z.lor a b) 0) as [->|Hne]; [lia|].
  assert (0 <= Z.lor a b) by (apply Z.lor_nonneg; lia).
  apply (Z.log2_lt_pow2 _ 8); [lia|]. rewrite Z.log2_lor by lia.
  assert (forall x, 0 <= x < 256 -> Z.log2 x < 8) as H8.
  { intros x Hx. destruct (Z.eq_dec x 0) as [->|]; [done|]. by apply (Z.log2_lt_pow2 x 8); lia. }
  apply Z.max_lub_lt; by apply H8.
Qed.

Lemma masked_field h x k m :
  m = Z.ones k -> 0 <= k <= 8 -> Z.land h m = 0 -> 0 <= x < 2 ^ k * 256 ->
  be (Z.land (Z.lor h (hiByte x)) m) (u8 x) = x.
Proof.
  intros -> Hk Hh Hx. assert (0 <= Z.shiftr x 8 < 2 ^ k) as Hs by (apply shiftr_range; lia).
  assert (2 ^ k <= 2 ^ 8) by (apply Z.pow_le_mono_r; lia).
  unfold hiByte. rewrite u8_small by lia.
  rewrite Z.land_lor_distr_l, Hh, Z.lor_0_l, land_mask, Z.mod_small by lia. apply be_shift. lia.
Qed.

Lemma field13 h x : Z.land h 0x1f = 0 -> 0 <= x < 8192 ->
  be (Z.land (Z.lor h (hiByte x)) 0x1f) (u8 x) = x.
Proof. intros. by apply (masked_field h x 5). Qed.

Lemma field12 h x : Z.land h 0x0f = 0 -> 0 <= x < 4096 ->
  be (Z.land (Z.lor h (hiByte x)) 0x0f) (u8 x) = x.
Proof. intros. by apply (masked_field h x 4). Qed.

Lemma field16 x : 0 <= x < 65536 -> be (hiByte x) (u8 x) = x.
Proof.
  intros Hx. assert (0 <= Z.shiftr x 8 < 256) by (apply shiftr_range; lia).
  unfold hiByte. rewrite (u8_small (Z.shiftr x 8)) by lia. apply be_shift. lia.
Qed.

Lemma wp_readMasked m l i k (Q : Z -> Prop) :
  m = Z.ones k -> 0 <= k <= 8 -> bytes_ok l -> 0 <= i -> i + 1 < len l ->
  (forall x, 0 <= x < 2 ^ k * 256 -> Q x) -> wp (readMasked m l i) Q.
Proof.
  intros -> Hk Hl Hi Hi' HQ. unfold readMasked.
  apply wp_bind, wp_idx_byte; [done|lia|]. intros hi Hhi.
  apply wp_bind, wp_idx_byte; [done|lia|]. intros lo Hlo. simpl.
  apply HQ. rewrite be_add by done. rewrite land_mask by lia.
  pose proof (Z.mod_pos_bound hi (2 ^ k)). lia.
Qed.

Lemma wp_read12 l i (Q : Z -> Prop) :
  bytes_ok l -> 0 <= i -> i + 1 < len l -> (forall x, 0 <= x < 4096 -> Q x) ->
  wp (read12 l i) Q.
Proof. intros. by apply (wp_readMasked _ _ _ 4). Qed.

Lemma wp_read13 l i (Q : Z -> Prop) :
  bytes_ok l -> 0 <= i -> i + 1 < len l -> (forall x, 0 <= x < 8192 -> Q x) ->
  wp (read13 l i) Q.
Proof. intros. by apply (wp_readMasked _ _ _ 5). Qed.

Lemma wp_read16 l i (Q : Z -> Prop) :
  bytes_ok l -> 0 <= i -> i + 1 < len l -> (forall x, 0 <= x < 65536 -> Q x) ->
  wp (read16 l i) Q.
Proof.
  intros Hl Hi Hi' HQ. unfold read16.
  apply wp_bind, wp_idx_byte; [done|lia|]. intros hi Hhi.
  apply wp_bind, wp_idx_byte; [done|lia|]. intros lo Hlo.
  apply wp_ret, HQ. rewrite be_add by done. lia.
Qed.

Lemma wp_read32 l i (Q : Z -> Prop) :
  bytes_ok l -> 0 <= i -> i + 3 < len l -> (forall x, 0 <= x < 2 ^ 32 -> Q x) ->
  wp (read32 l i) Q.
Proof.
  intros Hl Hi Hi' HQ. unfold read32.
  apply wp_bind, wp_read16; [done|lia..|]. intros hi Hhi.
  apply wp_bind, wp_read16; [done|lia..|]. intros lo Hlo.
  apply wp_ret, HQ. rewrite lor_disjoint by (done || lia). lia.
Qed.

Lemma read16_at l i :
  0 <= i -> i + 1 < len l -> read16 l i = Ret (be (byteAt l i) (byteAt l (i + 1))).
Proof. intros. unfold read16. by rewrite !idx_byteAt by lia. Qed.

Lemma be_range hi lo : byte_ok hi -> byte_ok lo -> 0 <= be hi lo < 65536.
Proof. unfold byte_ok. intros. rewrite be_add by lia. lia. Qed.

#[export] Hint Resolve byte_ok_u8 byte_ok_lor : bytes.
#[export] Hint Extern 1 (byte_ok _) => (unfold byte_ok; lia) : bytes.

(** ** Automation

    [go] runs a computation symbolically against the [wp] rules, leaving the
    arithmetic of index bounds to [lia] and the byte ranges to the [bytes]
    database. *)

Ltac bools :=
  repeat match goal with
  | H : _ && _ = true |- _ => apply andb_true_iff in H as [? ?]
  | H : _ || _ = false |- _ => apply orb_false_iff in H as [? ?]
  | H : negb _ = true |- _ => apply negb_true_iff in H
  | H : negb _ = false |- _ => apply negb_false_iff in H
  | H : (_ =? _) = true |- _ => apply Z.eqb_eq in H
  | H : (_ =? _) = false |- _ => apply Z.eqb_neq in H
  | H : (_ <? _) = true |- _ => apply Z.ltb_lt in H
  | H : (_ <? _) = false |- _ => apply Z.ltb_ge in H
  | H : (_ <=? _) = true |- _ => apply Z.leb_le in H
  | H : (_ <=? _) = false |- _ => apply Z.leb_gt in H
  end.

Ltac blia :=
  bools; rewrite ?length_app, ?length_take, ?length_drop, ?length_replicate in *; lia.

Ltac go_step :=
  match goal with
  | |- wp (_ ≫= _) _ => apply wp_bind
  | |- wp (_ <$> _) _ => apply wp_fmap
  | |- wp (mret _) _ => apply wp_ret
  | |- wp (Ret _) _ => apply wp_ret
  | |- wp (Err _) _ => apply wp_err
  | |- wp (_ ||! _) _ => apply wp_goor
  | |- wp (_ &&! _) _ => apply wp_goand
  | |- wp (if _ then _ else _) _ => apply wp_if; intros ?; bools
  | |- wp (read12 _ _) _ => apply wp_read12; [auto with bytes|blia|blia|intros ? ?]
  | |- wp (read13 _ _) _ => apply wp_read13; [auto with bytes|blia|blia|intros ? ?]
  | |- wp (read16 _ _) _ => apply wp_read16; [auto with bytes|blia|blia|intros ? ?]
  | |- wp (read32 _ _) _ => apply wp_read32; [auto with bytes|blia|blia|intros ? ?]
  | |- wp (idx _ _) _ => apply wp_idx_byte; [auto with bytes|blia|intros ? ?]
  | |- wp (sliceFrom _ _) _ => apply wp_slice; [blia|blia|blia|]
  | |- wp (sliceTo _ _) _ => apply wp_slice; [blia|blia|blia|]
  | |- wp (slice _ _ _) _ => apply wp_slice; [blia|blia|blia|]
  end; cbv beta.

Ltac go_run := repeat go_step.

(** Splits the conjunctions of the goal without unfolding anything. *)
Ltac conjs := repeat match goal with |- _ /\ _ => split end.

(** [lia] with division and remainder by constants. *)
Ltac dmlia := Z.to_euclidean_division_equations; lia.

(** Decides the condition a computation starts with. *)
Ltac wp_case H := match goal with |- wp (if ?b then _ else _) _ => destruct b eqn:H end.

(** ** [sort.SliceStable] by a number: an element goes before the first one
    that is greater *)

Section StableSort.
Context {A : Type} (key : A -> Z).

Fixpoint insertStable (a : A) (l : list A) : list A :=
  match l with
  | [] => [a]
  | x :: l => if key a <? key x then a :: x :: l else x :: insertStable a l
  end.

Definition sortStable (l : list A) : list A := foldl (fun sorted a => insertStable a sorted) [] l.

Definition byKey (a b : A) : Prop := key a <= key b.

Lemma insertStable_perm a l : insertStable a l ≡ₚ a :: l.
Proof. induction l as [|x l IH]; [done|]. cbn. destruct (_ <? _); [done|]. rewrite IH. constructor. Qed.

Lemma insertStable_sorted a l : StronglySorted byKey l -> StronglySorted byKey (insertStable a l).
Proof.
  induction 1 as [|x l Hl IH Hx]; [repeat constructor|]. cbn. destruct (Z.ltb_spec (key a) (key x)).
  - constructor; [by constructor|]. constructor; [unfold byKey; lia|]. eapply Forall_impl; [exact Hx|]. unfold byKey. intros. lia.
  - constructor; [done|]. rewrite insertStable_perm. constructor; [done|exact Hx].
Qed.

(** Elements with the same key keep their order. *)
Lemma insertStable_stable a l k : StronglySorted byKey l ->
  filter (fun x => key x = k) (insertStable a l) = filter (fun x => key x = k) l ++ filter (fun x => key x = k) [a].
Proof.
  induction 1 as [|x l Hl IH Hx]; [done|]. cbn [insertStable]. destruct (Z.ltb_spec (key a) (key x)).
  - rewrite (filter_cons _ a), (filter_cons _ a []). destruct (decide (key a = k)) as [Ha|]; [|by rewrite app_nil_r].
    rewrite filter_nil. assert (filter (fun x => key x = k) (x :: l) = []) as ->; [|done].
    destruct (filter _ (x :: l)) as [|y ys] eqn:E; [done|].
    assert (y ∈ filter (fun x => key x = k) (x :: l)) as [Hy Hin]%list_elem_of_filter by (rewrite E; left).
    exfalso. apply elem_of_cons in Hin as [-> |Hin]; [lia|]. rewrite Forall_forall in Hx. specialize (Hx y Hin). unfold byKey in Hx. lia.
  - rewrite !(filter_cons _ x), IH. by destruct (decide (key x = k)).
Qed.

Lemma sortStable_spec l :
  sortStable l ≡ₚ l /\ StronglySorted byKey (sortStable l)
  /\ forall k, filter (fun x => key x = k) (sortStable l) = filter (fun x => key x = k) l.
Proof.
  unfold sortStable. enough (forall acc, StronglySorted byKey acc ->
    let sorted := foldl (fun sorted a => insertStable a sorted) acc l in
    sorted ≡ₚ acc ++ l /\ StronglySorted byKey sorted
    /\ forall k, filter (fun x => key x = k) sorted = filter (fun x => key x = k) acc ++ filter (fun x => key x = k) l) as H
    by (apply (H []); constructor).
  induction l as [|a l IH]; intros acc Hacc; cbv zeta; cbn [foldl].
  { rewrite !app_nil_r. conjs; try done. intros k. by rewrite filter_nil, app_nil_r. }
  specialize (IH _ (insertStable_sorted a acc Hacc)). cbv zeta in IH. destruct IH as (H1 & H2 & H3). conjs; [|done|].
  - rewrite H1, insertStable_perm. rewrite <- Permutation_middle. done.
  - intros k. rewrite H3, (insertStable_stable a acc k Hacc), <- app_assoc, <- filter_app. done.
Qed.

(** With distinct keys the result does not depend on the order given. *)
Lemma sortStable_unique l l' : NoDup (map key l) -> l ≡ₚ l' -> sortStable l = sortStable l'.
Proof.
  intros Hnd Hp. destruct (sortStable_spec l) as (P1 & S1 & _). destruct (sortStable_spec l') as (P2 & S2 & _).
  apply (StronglySorted_unique_strong byKey); [|done|done|by rewrite P1, P2].
  intros x y Hx Hy Hxy Hyx. rewrite P1 in Hx. rewrite P2, <- Hp in Hy.
  apply list_elem_of_lookup in Hx as [i Hi]. apply list_elem_of_lookup in Hy as [j Hj].
  assert (i = j) as ->; [|congruence]. apply (NoDup_lookup _ i j (key x) Hnd);
    rewrite list_lookup_fmap; [by rewrite Hi|]. rewrite Hj. cbn. f_equal. unfold byKey in *. lia.
Qed.
End StableSort.
