(* ===== verification/Crc.v ===== *)
(** * CRC-32/MPEG-2 (ts/section.go)

    The table-driven checksum of PSI/SI sections, the bit-serial division it
    implements, and what a zero residue guarantees. *)

From S2P Require Import Prelude.

(** ** The code *)

(** One round of the inner loop of [makeCRC32MPEG2Table]. *)
Definition tableRound (crc : Z) : Z :=
  if flag crc 0x80000000
  then Z.lxor (u32 (Z.shiftl crc 1)) 0x04c11db7
  else u32 (Z.shiftl crc 1).

Definition makeCRC32MPEG2Table : list Z :=
  (fun i => Nat.iter 8 tableRound (Z.shiftl i 24)) <$> seqZ 0 256.

Definition crc32MPEG2Table : list Z := Eval vm_compute in makeCRC32MPEG2Table.

(** The body of the loop of [crc32MPEG2]. *)
Definition crcStep (crc b : Z) : Z :=
  Z.lxor (u32 (Z.shiftl crc 8))
    (default 0 (crc32MPEG2Table !! Z.to_nat (Z.lxor (u8 (Z.shiftr crc 24)) b))).

Definition crc32MPEG2 (data : bytes) : Z := foldl crcStep 0xffffffff data.

(** ** The reference: bit-serial division by x^32 + 0x04c11db7 *)

Definition word_ok (x : Z) : Prop := 0 <= x < 2 ^ 32.

(** Shift the remainder one bit to the left and reduce. *)
Definition bitStep (x : Z) : Z :=
  Z.lxor (u32 (Z.shiftl x 1)) (if Z.testbit x 31 then 0x04c11db7 else 0).

Definition serialByte (crc b : Z) : Z := Nat.iter 8 bitStep (Z.lxor crc (Z.shiftl b 24)).
Definition crcSerial (data : bytes) : Z := foldl serialByte 0xffffffff data.

(** The four bytes of a checksum as the encoder writes them. *)
Definition be32 (crc : Z) : bytes :=
  [u8 (Z.shiftr crc 24); u8 (Z.shiftr crc 16); u8 (Z.shiftr crc 8); u8 crc].

(** ** Words *)

Lemma word_testbit x i : word_ok x -> 32 <= i -> Z.testbit x i = false.
Proof. intros. by apply (testbit_above x 32). Qed.

Lemma word_ext x y :
  word_ok x -> word_ok y ->
  (forall i, 0 <= i < 32 -> Z.testbit x i = Z.testbit y i) -> x = y.
Proof.
  intros Hx Hy H. apply Z.bits_inj'. intros i Hi. destruct (decide (i < 32)).
  - apply H. lia.
  - by rewrite !word_testbit by (done || lia).
Qed.

Lemma word_of_bits x :
  0 <= x -> (forall i, 32 <= i -> Z.testbit x i = false) -> word_ok x.
Proof.
  intros Hx H. split; [done|]. destruct (decide (x = 0)) as [->|]; [lia|].
  apply Z.log2_lt_pow2; [lia|]. apply Z.nle_gt. intros Hl.
  specialize (H _ Hl). rewrite Z.bit_log2 in H by lia. done.
Qed.

Lemma word_lxor x y : word_ok x -> word_ok y -> word_ok (Z.lxor x y).
Proof.
  intros Hx Hy. apply word_of_bits.
  - apply Z.lxor_nonneg. unfold word_ok in *. lia.
  - intros i Hi. by rewrite Z.lxor_spec, !word_testbit.
Qed.

Lemma word_u32 x : word_ok (u32 x).
Proof. apply u32_range. Qed.

Lemma u32_testbit x i : 0 <= i -> Z.testbit (u32 x) i = (i <? 32) && Z.testbit x i.
Proof. intros. by apply testbit_mod_pow2. Qed.

Lemma word_bitStep x : word_ok (bitStep x).
Proof. apply word_lxor; [apply word_u32|]. by destruct (Z.testbit x 31). Qed.

Lemma word_byte_shift b k :
  0 <= b < 256 -> 0 <= k <= 24 -> word_ok (Z.shiftl b k).
Proof.
  intros Hb Hk. unfold word_ok. rewrite Z.shiftl_mul_pow2 by lia.
  pose proof (Z.pow_le_mono_r 2 k 24). nia.
Qed.

#[local] Hint Resolve word_lxor word_u32 word_bitStep : bytes.

Lemma word_iter n x : word_ok x -> word_ok (Nat.iter n bitStep x).
Proof. destruct n; simpl; [done|]. intros _. apply word_bitStep. Qed.

(** ** The division is linear and injective *)

Lemma bitStep_lxor x y : bitStep (Z.lxor x y) = Z.lxor (bitStep x) (bitStep y).
Proof.
  unfold bitStep. rewrite Z.lxor_spec.
  assert (u32 (Z.shiftl (Z.lxor x y) 1)
    = Z.lxor (u32 (Z.shiftl x 1)) (u32 (Z.shiftl y 1))) as ->.
  { apply Z.bits_inj'. intros i Hi.
    rewrite Z.lxor_spec, !u32_testbit by done. rewrite Z.shiftl_lxor, Z.lxor_spec.
    by destruct (i <? 32). }
  destruct (Z.testbit x 31), (Z.testbit y 31); simpl;
    apply Z.bits_inj'; intros i Hi; rewrite !Z.lxor_spec, ?Z.bits_0;
    repeat match goal with |- context [Z.testbit ?a ?b] => destruct (Z.testbit a b) end;
    done.
Qed.

Lemma iter_lxor n x y :
  Nat.iter n bitStep (Z.lxor x y) = Z.lxor (Nat.iter n bitStep x) (Nat.iter n bitStep y).
Proof. induction n as [|n IH]; simpl; [done|]. by rewrite IH, bitStep_lxor. Qed.

Lemma bitStep_low x : 0 <= x < 2 ^ 31 -> bitStep x = Z.shiftl x 1.
Proof.
  intros Hx. unfold bitStep. rewrite (testbit_above x 31 31) by (done || lia).
  rewrite Z.lxor_0_r. apply u32_small. rewrite Z.shiftl_mul_pow2 by done. lia.
Qed.

Lemma iter_low n x k :
  0 <= k -> Z.of_nat n + k <= 32 -> 0 <= x < 2 ^ k ->
  Nat.iter n bitStep x = Z.shiftl x (Z.of_nat n).
Proof.
  intros Hk Hn Hx. induction n as [|n IH]; [by rewrite Z.shiftl_0_r|].
  change (Nat.iter (S n) bitStep x) with (bitStep (Nat.iter n bitStep x)).
  rewrite IH by lia. rewrite bitStep_low.
  - rewrite Z.shiftl_shiftl by lia. f_equal. lia.
  - rewrite Z.shiftl_mul_pow2 by lia.
    assert (2 ^ k * 2 ^ Z.of_nat n <= 2 ^ 31).
    { rewrite <- Z.pow_add_r by lia. apply Z.pow_le_mono_r; lia. }
    pose proof (Z.pow_pos_nonneg 2 (Z.of_nat n)). nia.
Qed.

Lemma bitStep_kernel x : word_ok x -> bitStep x = 0 -> x = 0.
Proof.
  intros Hx H.
  assert (forall i, 0 <= i -> Z.testbit (bitStep x) i = false) as Hb.
  { intros. rewrite H. apply Z.bits_0. }
  unfold bitStep in Hb.
  assert (Z.testbit x 31 = false) as H31.
  { specialize (Hb 0 ltac:(lia)). rewrite Z.lxor_spec, u32_testbit in Hb by done.
    rewrite Z.shiftl_spec_low in Hb by lia. by destruct (Z.testbit x 31). }
  apply word_ext; [done|done|]. intros i Hi. rewrite Z.bits_0.
  destruct (decide (i = 31)) as [->|]; [done|].
  specialize (Hb (i + 1) ltac:(lia)).
  rewrite H31, Z.lxor_0_r, u32_testbit, Z.shiftl_spec in Hb by lia.
  rewrite (proj2 (Z.ltb_lt _ _)) in Hb by lia.
  by replace (i + 1 - 1) with i in Hb by lia.
Qed.

Lemma bitStep_inj x y : word_ok x -> word_ok y -> bitStep x = bitStep y -> x = y.
Proof.
  intros Hx Hy H. apply Z.lxor_eq. apply bitStep_kernel; [auto with bytes|].
  rewrite bitStep_lxor, H. apply Z.lxor_nilpotent.
Qed.

Lemma iter_inj n x y :
  word_ok x -> word_ok y -> Nat.iter n bitStep x = Nat.iter n bitStep y -> x = y.
Proof.
  intros Hx Hy. induction n as [|n IH]; [done|]. intros H. apply IH.
  by apply bitStep_inj in H; [|apply word_iter..].
Qed.

(** ** The table computes eight divisions at once *)

Lemma tableRound_bitStep x : tableRound x = bitStep x.
Proof.
  unfold tableRound, bitStep, flag.
  assert ((Z.land x 0x80000000 =? 0) = negb (Z.testbit x 31)) as ->.
  { change 0x80000000 with (2 ^ 31). destruct (Z.testbit x 31) eqn:E; simpl.
    - apply Z.eqb_neq. intros H. apply (f_equal (fun z => Z.testbit z 31)) in H.
      rewrite Z.land_spec, E, Z.bits_0, Z.pow2_bits_true in H by done. done.
    - apply Z.eqb_eq, Z.bits_inj'. intros i Hi. rewrite Z.land_spec, Z.bits_0.
      rewrite Z.pow2_bits_eqb by done.
      destruct (Z.eqb_spec 31 i) as [<-|]; [by rewrite E|apply andb_false_r]. }
  rewrite negb_involutive. destruct (Z.testbit x 31); [done|].
  by rewrite Z.lxor_0_r.
Qed.

Lemma table_lookup i :
  0 <= i < 256 ->
  default 0 (crc32MPEG2Table !! Z.to_nat i) = Nat.iter 8 bitStep (Z.shiftl i 24).
Proof.
  intros Hi. change crc32MPEG2Table with makeCRC32MPEG2Table.
  unfold makeCRC32MPEG2Table. rewrite list_lookup_fmap, lookup_seqZ_lt by lia.
  simpl. rewrite Z2Nat.id, !tableRound_bitStep by lia. done.
Qed.

Lemma crc_split crc b :
  word_ok crc -> 0 <= b < 256 ->
  Z.lxor crc (Z.shiftl b 24)
    = Z.lxor (crc mod 2 ^ 24) (Z.shiftl (Z.lxor (u8 (Z.shiftr crc 24)) b) 24).
Proof.
  intros Hc Hb. apply Z.bits_inj'. intros i Hi.
  rewrite !Z.lxor_spec, testbit_mod_pow2 by lia. destruct (Z.ltb_spec i 24).
  - by rewrite !(Z.shiftl_spec_low _ 24 i) by done.
  - rewrite !(Z.shiftl_spec_high _ 24 i), Z.lxor_spec by lia.
    unfold u8. rewrite testbit_mod_pow2, Z.shiftr_spec by lia.
    replace (i - 24 + 24) with i by lia. destruct (Z.ltb_spec (i - 24) 8); simpl; [done|].
    rewrite (word_testbit crc i), (testbit_above b 8 (i - 24)) by (done || lia). done.
Qed.

Lemma lxor_byte a b : 0 <= a < 256 -> 0 <= b < 256 -> 0 <= Z.lxor a b < 256.
Proof.
  intros Ha Hb. split; [apply Z.lxor_nonneg; lia|].
  destruct (decide (Z.lxor a b = 0)) as [->|]; [lia|].
  pose proof (proj2 (Z.lxor_nonneg a b) ltac:(lia)).
  change 256 with (2 ^ 8). apply Z.log2_lt_pow2; [lia|].
  assert (forall z, 0 <= z < 256 -> Z.log2 z < 8) as Hl.
  { intros z Hz. destruct (decide (z = 0)) as [->|]; [done|].
    apply Z.log2_lt_pow2; lia. }
  pose proof (Z.log2_lxor a b). pose proof (Hl a Ha). pose proof (Hl b Hb). lia.
Qed.

Lemma crcStep_serial crc b :
  word_ok crc -> 0 <= b < 256 -> crcStep crc b = serialByte crc b.
Proof.
  intros Hc Hb. unfold crcStep, serialByte.
  rewrite table_lookup by (apply lxor_byte; [apply u8_range|done]).
  rewrite crc_split, iter_lxor by done. f_equal.
  rewrite (iter_low 8 _ 24) by (try apply Z.mod_pos_bound; lia).
  apply Z.bits_inj'. intros i Hi. rewrite u32_testbit by done.
  destruct (decide (i < 8)).
  { rewrite !Z.shiftl_spec_low by lia. apply andb_false_r. }
  rewrite !Z.shiftl_spec_high, testbit_mod_pow2 by lia.
  by destruct (Z.ltb_spec i 32), (Z.ltb_spec (i - Z.of_nat 8) 24); try lia.
Qed.

Lemma word_serialByte crc b : word_ok (serialByte crc b).
Proof. unfold serialByte. simpl. apply word_bitStep. Qed.

Lemma word_crc_fold data crc :
  word_ok crc -> bytes_ok data -> word_ok (foldl crcStep crc data).
Proof.
  revert crc. induction data as [|b data IH]; intros crc Hc Hd; [done|].
  inversion Hd; subst. simpl. apply IH; [|done].
  rewrite crcStep_serial by done. apply word_serialByte.
Qed.

Lemma crc_fold_serial data crc :
  word_ok crc -> bytes_ok data -> foldl crcStep crc data = foldl serialByte crc data.
Proof.
  revert crc. induction data as [|b data IH]; intros crc Hc Hd; [done|].
  inversion Hd; subst. simpl. rewrite crcStep_serial by done.
  apply IH; [apply word_serialByte|done].
Qed.

Lemma word_crc data : bytes_ok data -> word_ok (crc32MPEG2 data).
Proof. by apply word_crc_fold. Qed.

Lemma crc_app l1 l2 : crc32MPEG2 (l1 ++ l2) = foldl crcStep (crc32MPEG2 l1) l2.
Proof. apply foldl_app. Qed.

(** ** Bursts of at most four bytes change the checksum *)

(** The bytes of [l] at the top of a word. *)
Fixpoint topWord (k : Z) (l : bytes) : Z :=
  match l with
  | [] => 0
  | b :: l => Z.lxor (Z.shiftl b k) (topWord (k - 8) l)
  end.

Lemma lxor_disjoint hi lo k :
  0 <= k -> 0 <= lo < 2 ^ k -> Z.lxor (Z.shiftl hi k) lo = hi * 2 ^ k + lo.
Proof.
  intros Hk Hlo. rewrite <- lor_disjoint by done. apply Z.lxor_lor, Z.bits_inj'.
  intros i Hi. rewrite Z.land_spec, Z.bits_0. destruct (Z.ltb_spec i k).
  - by rewrite Z.shiftl_spec_low.
  - rewrite (testbit_above lo k i) by done. apply andb_false_r.
Qed.

Lemma topWord_range l k :
  bytes_ok l -> 8 * len l <= k + 8 -> 0 <= topWord k l < 2 ^ (k + 8).
Proof.
  revert k. induction l as [|b l IH]; intros k Hl Hk; simpl in *.
  { split; [done|]. apply Z.pow_pos_nonneg; lia. }
  inversion Hl as [|?? Hb Hl']; subst. red in Hb. specialize (IH (k - 8) Hl' ltac:(lia)).
  replace (k - 8 + 8) with k in IH by lia.
  rewrite lxor_disjoint by lia. rewrite (Z.pow_add_r 2 k 8) by lia. nia.
Qed.

Lemma topWord_cons b l k :
  bytes_ok l -> 8 * len l <= k ->
  topWord k (b :: l) = b * 2 ^ k + topWord (k - 8) l /\ 0 <= topWord (k - 8) l < 2 ^ k.
Proof.
  intros Hl Hk. pose proof (topWord_range l (k - 8) Hl ltac:(lia)) as H.
  replace (k - 8 + 8) with k in H by lia. simpl. by rewrite lxor_disjoint by lia.
Qed.

Lemma topWord_inj l l' k :
  bytes_ok l -> bytes_ok l' -> length l = length l' -> 8 * len l <= k + 8 ->
  topWord k l = topWord k l' -> l = l'.
Proof.
  revert l' k. induction l as [|b l IH]; intros [|b' l'] k Hl Hl' Hlen Hk H;
    try done; simpl in Hlen, Hk.
  apply Forall_cons in Hl as [Hb Hl], Hl' as [Hb' Hl'].
  destruct (topWord_cons b l k) as [E R]; [done|lia|].
  destruct (topWord_cons b' l' k) as [E' R']; [done|lia|].
  rewrite E, E' in H. assert (b = b') as -> by nia.
  f_equal. apply (IH l' (k - 8)); [done|done|lia..].
Qed.

Lemma word_topWord l k :
  bytes_ok l -> k <= 24 -> 8 * len l <= k + 8 -> word_ok (topWord k l).
Proof.
  revert k. induction l as [|b l IH]; intros k Hl Hk Hlen; [done|].
  inversion Hl; subst. simpl in *. apply word_lxor.
  - apply word_byte_shift; [done|lia].
  - apply IH; [done|lia..].
Qed.

Lemma topWord_snoc l k b :
  topWord k (l ++ [b]) = Z.lxor (topWord k l) (Z.shiftl b (k - 8 * len l)).
Proof.
  revert k. induction l as [|a l IH]; intros k; simpl.
  - rewrite Z.lxor_0_r, Z.lxor_0_l. f_equal. lia.
  - rewrite IH, Z.lxor_assoc. do 3 f_equal. lia.
Qed.

(** Feeding at most four bytes is one division of the state with the bytes
    added at its top. *)
Lemma serial_fold_iter crc l :
  word_ok crc -> bytes_ok l -> (length l <= 4)%nat ->
  foldl serialByte crc l = Nat.iter (8 * length l) bitStep (Z.lxor crc (topWord 24 l)).
Proof.
  intros Hc. induction l as [|b l IH] using rev_ind; intros Hl Hlen.
  { simpl. by rewrite Z.lxor_0_r. }
  apply Forall_app in Hl as [Hl Hb]. inversion Hb as [|?? Hb' _]; subst.
  rewrite length_app in *. simpl in Hlen.
  rewrite foldl_app, IH by (done || lia). cbn [foldl length].
  replace (8 * (length l + 1))%nat with (8 + 8 * length l)%nat by lia.
  rewrite Nat.iter_add. unfold serialByte. f_equal.
  rewrite topWord_snoc, <- Z.lxor_assoc, (iter_lxor _ (Z.lxor crc _)). f_equal.
  rewrite (iter_low _ _ (32 - 8 * len l)).
  - rewrite Z.shiftl_shiftl by lia. f_equal. lia.
  - lia.
  - lia.
  - rewrite Z.shiftl_mul_pow2 by lia. red in Hb'.
    replace (32 - 8 * len l) with (8 + (24 - 8 * len l)) by lia.
    rewrite Z.pow_add_r by lia. pose proof (Z.pow_pos_nonneg 2 (24 - 8 * len l)). nia.
Qed.


Lemma serial_fold_inj crc l l' :
  word_ok crc -> bytes_ok l -> bytes_ok l' -> length l = length l' -> (length l <= 4)%nat ->
  foldl serialByte crc l = foldl serialByte crc l' -> l = l'.
Proof.
  intros Hc Hl Hl' Hlen H4 H.
  rewrite !serial_fold_iter in H by (done || lia). rewrite <- Hlen in H.
  assert (word_ok (topWord 24 l)) by (apply word_topWord; (done || lia)).
  assert (word_ok (topWord 24 l')) by (apply word_topWord; (done || lia)).
  apply iter_inj in H; [|by apply word_lxor..].
  apply (topWord_inj l l' 24); [done|done|done|lia|].
  apply (f_equal (Z.lxor crc)) in H.
  by rewrite <- !Z.lxor_assoc, Z.lxor_nilpotent, !Z.lxor_0_l in H.
Qed.

Lemma lxor_inj x y z : Z.lxor x z = Z.lxor y z -> x = y.
Proof.
  intros H. apply (f_equal (fun a => Z.lxor a z)) in H.
  by rewrite !Z.lxor_assoc, Z.lxor_nilpotent, !Z.lxor_0_r in H.
Qed.

Lemma serialByte_iter c b : serialByte c b = Nat.iter 8 bitStep (Z.lxor c (Z.shiftl b 24)).
Proof. reflexivity. Qed.

Lemma serialByte_inj c c' b :
  word_ok c -> word_ok c' -> 0 <= b < 256 -> serialByte c b = serialByte c' b -> c = c'.
Proof.
  intros Hc Hc' Hb H. rewrite !serialByte_iter in H.
  pose proof (word_byte_shift b 24 Hb ltac:(lia)) as Hs.
  apply (lxor_inj _ _ (Z.shiftl b 24)).
  apply (iter_inj 8); [by apply word_lxor..|exact H].
Qed.

Lemma crcStep_inj c c' b :
  word_ok c -> word_ok c' -> 0 <= b < 256 -> crcStep c b = crcStep c' b -> c = c'.
Proof.
  intros Hc Hc' Hb H. rewrite (crcStep_serial c b Hc Hb), (crcStep_serial c' b Hc' Hb) in H.
  exact (serialByte_inj _ _ _ Hc Hc' Hb H).
Qed.

Lemma crc_fold_inj data c c' :
  word_ok c -> word_ok c' -> bytes_ok data ->
  foldl crcStep c data = foldl crcStep c' data -> c = c'.
Proof.
  revert c c'. induction data as [|b data IH]; intros c c' Hc Hc' Hd H; [done|].
  apply Forall_cons in Hd as [Hb Hd]. simpl in H.
  apply IH in H; [|by rewrite crcStep_serial by done; apply word_serialByte..|done].
  by apply crcStep_inj in H.
Qed.

Lemma crc_burst p w w' q :
  bytes_ok p -> bytes_ok w -> bytes_ok w' -> bytes_ok q ->
  length w = length w' -> (length w <= 4)%nat ->
  crc32MPEG2 (p ++ w ++ q) = crc32MPEG2 (p ++ w' ++ q) -> w = w'.
Proof.
  intros Hp Hw Hw' Hq Hlen H4 H. rewrite !app_assoc, !(crc_app (p ++ _)) in H.
  assert (word_ok (crc32MPEG2 p)) by by apply word_crc.
  apply crc_fold_inj in H; [|apply word_crc; auto with bytes..|done].
  rewrite !crc_app, !crc_fold_serial in H by done.
  by apply serial_fold_inj in H.
Qed.

(** ** The residue of a checked message *)

Lemma bytes_ok_be32 crc : bytes_ok (be32 crc).
Proof. repeat constructor; apply u8_range. Qed.

Lemma topWord_be32 crc : word_ok crc -> topWord 24 (be32 crc) = crc.
Proof.
  intros Hc. apply word_ext; [apply word_topWord; [apply bytes_ok_be32|done|done]|done|].
  intros i Hi. unfold be32, u8. cbn [topWord]. rewrite Z.lxor_0_r, !Z.lxor_spec.
  assert (forall x k, 0 <= k -> Z.testbit (Z.shiftl (Z.shiftr x k mod 2 ^ 8) k) i
    = (k <=? i) && (i <? k + 8) && Z.testbit x i) as Hb.
  { intros x k Hk. destruct (Z.leb_spec k i); simpl.
    - rewrite Z.shiftl_spec_high, testbit_mod_pow2, Z.shiftr_spec by lia.
      replace (i - k + k) with i by lia.
      by destruct (Z.ltb_spec (i - k) 8), (Z.ltb_spec i (k + 8)); try lia.
    - by rewrite Z.shiftl_spec_low by lia. }
  rewrite !Hb by done.
  replace (24 - 8 - 8 - 8) with 0 by lia. rewrite Z.shiftl_0_r, testbit_mod_pow2 by lia.
  change (24 - 8) with 16. change (16 - 8) with 8.
  destruct (Z.leb_spec 24 i), (Z.ltb_spec i (24 + 8)), (Z.leb_spec 16 i),
    (Z.ltb_spec i (16 + 8)), (Z.leb_spec 8 i), (Z.ltb_spec i (8 + 8)),
    (Z.ltb_spec i 8); try lia; simpl; by destruct (Z.testbit crc i).
Qed.

Lemma crc_residue_fold crc : word_ok crc -> foldl crcStep crc (be32 crc) = 0.
Proof.
  intros Hc. rewrite crc_fold_serial by (done || apply bytes_ok_be32).
  rewrite serial_fold_iter by (done || apply bytes_ok_be32).
  by rewrite topWord_be32, Z.lxor_nilpotent.
Qed.

Lemma crc_residue data : bytes_ok data -> crc32MPEG2 (data ++ be32 (crc32MPEG2 data)) = 0.
Proof. intros Hd. rewrite crc_app. by apply crc_residue_fold, word_crc. Qed.

(** ** Properties *)

(** C39: for every message, the table-driven checksum of [crc32MPEG2] is the
    remainder of bit-serial division by the generator 0x04c11db7 (MSB first,
    initial value 0xffffffff, no final inversion): the 256-entry table that
    [makeCRC32MPEG2Table] builds performs eight division steps at once. *)
Theorem crc32MPEG2_is_serial_division (data : bytes) (Hdata : bytes_ok data) :
  crc32MPEG2 data = crcSerial data.
Proof. by apply crc_fold_serial. Qed.

Lemma crc32MPEG2_is_serial_division_witness :
  crc32MPEG2 [0x31; 0x32; 0x33; 0x34; 0x35; 0x36; 0x37; 0x38; 0x39]
    = crcSerial [0x31; 0x32; 0x33; 0x34; 0x35; 0x36; 0x37; 0x38; 0x39]
  /\ crc32MPEG2 [0x31; 0x32; 0x33; 0x34; 0x35; 0x36; 0x37; 0x38; 0x39] = 0x0376e6e7.
Proof.
  split; [|reflexivity].
  apply crc32MPEG2_is_serial_division. repeat constructor; unfold byte_ok; lia.
Defined.
