(* ===== verification/Packet.v ===== *)
(** * Transport stream packets (ts/packet.go, the [Packet] type)

    The header accessors of a 188-byte MPEG-2 transport stream packet.  An
    accessor indexes the slice it is given, so it panics on a short slice; the
    lemmas show that none of them does on a packet of [PacketSize] bytes. *)

From S2P Require Import Prelude.

Definition PacketSize : Z := 188.
Definition packetSizeWithTimestamp : Z := 192.
Definition packetSizeWithParity : Z := 204.
Definition SyncByte : Z := 0x47.

Abbreviation Packet := bytes (only parsing).

Definition TransportErrorIndicator (p : Packet) : go bool :=
  b ← idx p 1; Ret (flag b 0x80).

Definition PayloadUnitStartIndicator (p : Packet) : go bool :=
  b ← idx p 1; Ret (flag b 0x40).

Definition Priority (p : Packet) : go bool :=
  b ← idx p 1; Ret (flag b 0x20).

Definition PID (p : Packet) : go Z := read13 p 1.

(** [(p[3]>>4)&0x03], adaptation_field_control. *)
Definition adaptationFieldControl (p : Packet) : go Z :=
  b ← idx p 3; Ret (Z.land (Z.shiftr b 4) 0x03).

Definition HasAdaptationField (p : Packet) : go bool :=
  c ← adaptationFieldControl p; Ret (2 <=? c).

Definition HasPayload (p : Packet) : go bool :=
  c ← adaptationFieldControl p; Ret ((c =? 1) || (c =? 3)).

Definition ContinuityCounter (p : Packet) : go Z :=
  b ← idx p 3; Ret (Z.land b 0x0f).

Definition AdaptationFieldLength (p : Packet) : go Z :=
  none ← Ret (len p <? PacketSize) ||! (negb <$> HasAdaptationField p);
  if (none : bool) then Ret 0 else idx p 4.

Definition DiscontinuityIndicator (p : Packet) : go bool :=
  Ret (PacketSize <=? len p) &&! HasAdaptationField p
    &&! (n ← AdaptationFieldLength p; Ret (1 <=? n))
    &&! (b ← idx p 5; Ret (flag b 0x80)).

Definition PayloadOffset (p : Packet) : go Z :=
  af ← HasAdaptationField p;
  if (af : bool) then n ← AdaptationFieldLength p; Ret (5 + n) else Ret 4.

Definition ValidPayloadOffset (p : Packet) : go bool :=
  if len p <? PacketSize then Ret false
  else
    beyond ← HasAdaptationField p &&! (off ← PayloadOffset p; Ret (PacketSize <? off));
    Ret (negb beyond).

Definition Payload (p : Packet) : go bytes :=
  none ← (negb <$> HasPayload p) ||! (negb <$> ValidPayloadOffset p);
  if (none : bool) then Ret []
  else off ← PayloadOffset p; sliceFrom p off.

Definition IsNull (p : Packet) : go bool := pid ← PID p; Ret (pid =? 0x1fff).

(** [(base, extension, ok)]. *)
Definition ProgramClockReference (p : Packet) : go (Z * Z * bool) :=
  none ← Ret (len p <? PacketSize) ||! (negb <$> HasAdaptationField p)
    ||! (n ← AdaptationFieldLength p; Ret (n <? 7))
    ||! (b ← idx p 5; Ret (Z.land b 0x10 =? 0));
  if (none : bool) then Ret (0, 0, false)
  else
    b6 ← idx p 6; b7 ← idx p 7; b8 ← idx p 8; b9 ← idx p 9; b10 ← idx p 10;
    b11 ← idx p 11;
    Ret (Z.lor (Z.lor (Z.lor (Z.lor (Z.shiftl b6 25) (Z.shiftl b7 17)) (Z.shiftl b8 9))
           (Z.shiftl b9 1)) (Z.shiftr b10 7),
         be (Z.land b10 1) b11, true).

(** ** Accessors on a whole packet *)

Definition packet_ok (p : Packet) : Prop := len p = PacketSize /\ bytes_ok p.

Lemma packet_len p : packet_ok p -> len p = 188.
Proof. by intros []. Qed.

Lemma packet_bytes p : packet_ok p -> bytes_ok p.
Proof. by intros []. Qed.

#[export] Hint Resolve packet_bytes : bytes.

(** ** Accessors on a whole packet, as functions of its bytes *)

Definition teiOf (p : Packet) : bool := flag (byteAt p 1) 0x80.
Definition pusiOf (p : Packet) : bool := flag (byteAt p 1) 0x40.
Definition pidOf (p : Packet) : Z := be (Z.land (byteAt p 1) 0x1f) (byteAt p 2).
Definition afcOf (p : Packet) : Z := Z.land (Z.shiftr (byteAt p 3) 4) 0x03.
Definition counterOf (p : Packet) : Z := Z.land (byteAt p 3) 0x0f.
Definition offsetOf (p : Packet) : Z := if 2 <=? afcOf p then 5 + byteAt p 4 else 4.
Definition hasPayloadOf (p : Packet) : bool := (afcOf p =? 1) || (afcOf p =? 3).
Definition payloadOf (p : Packet) : bytes :=
  if hasPayloadOf p && (offsetOf p <=? 188) then drop (Z.to_nat (offsetOf p)) p else [].

Section accessors.
Context (p : Packet) (Hp : len p = PacketSize).

#[local] Ltac ix := rewrite ?idx_byteAt by (rewrite Hp; unfold PacketSize; lia); simpl.

Lemma TransportErrorIndicator_eq : TransportErrorIndicator p = Ret (teiOf p).
Proof. unfold TransportErrorIndicator. by ix. Qed.

Lemma PayloadUnitStartIndicator_eq : PayloadUnitStartIndicator p = Ret (pusiOf p).
Proof. unfold PayloadUnitStartIndicator. by ix. Qed.

Lemma PID_eq : PID p = Ret (pidOf p).
Proof. unfold PID, read13, readMasked. by ix. Qed.

Lemma IsNull_eq : IsNull p = Ret (pidOf p =? 0x1fff).
Proof. unfold IsNull. by rewrite PID_eq. Qed.

Lemma HasAdaptationField_eq : HasAdaptationField p = Ret (2 <=? afcOf p).
Proof. unfold HasAdaptationField, adaptationFieldControl. by ix. Qed.

Lemma HasPayload_eq : HasPayload p = Ret (hasPayloadOf p).
Proof. unfold HasPayload, adaptationFieldControl. by ix. Qed.

Lemma ContinuityCounter_eq : ContinuityCounter p = Ret (counterOf p).
Proof. unfold ContinuityCounter. by ix. Qed.

Lemma AdaptationFieldLength_eq :
  AdaptationFieldLength p = Ret (if 2 <=? afcOf p then byteAt p 4 else 0).
Proof.
  unfold AdaptationFieldLength. rewrite Hp, Z.ltb_irrefl, HasAdaptationField_eq. simpl.
  destruct (2 <=? afcOf p); by ix.
Qed.

Lemma PayloadOffset_eq : PayloadOffset p = Ret (offsetOf p).
Proof.
  unfold PayloadOffset. rewrite HasAdaptationField_eq, AdaptationFieldLength_eq.
  unfold offsetOf. by destruct (2 <=? afcOf p).
Qed.

Lemma ValidPayloadOffset_eq : ValidPayloadOffset p = Ret (offsetOf p <=? 188).
Proof.
  unfold ValidPayloadOffset. rewrite Hp, Z.ltb_irrefl, HasAdaptationField_eq.
  rewrite PayloadOffset_eq. simpl. unfold offsetOf. destruct (2 <=? afcOf p); simpl; [|done].
  by rewrite Z.leb_antisym.
Qed.

Lemma offset_range : bytes_ok p -> 4 <= offsetOf p < 261.
Proof.
  intros Hb. unfold offsetOf. pose proof (byteAt_range p 4 Hb).
  destruct (2 <=? afcOf p); lia.
Qed.

Lemma Payload_eq : bytes_ok p -> Payload p = Ret (payloadOf p).
Proof.
  intros Hb. unfold Payload, payloadOf.
  rewrite HasPayload_eq, ValidPayloadOffset_eq, PayloadOffset_eq. simpl.
  destruct (hasPayloadOf p); simpl; [|done].
  destruct (Z.leb_spec (offsetOf p) 188); simpl; [|done].
  pose proof (offset_range Hb). unfold sliceFrom, slice. rewrite Hp.
  rewrite (proj2 (Z.leb_le 0 _)), (proj2 (Z.leb_le _ PacketSize)), (proj2 (Z.leb_le _ PacketSize))
    by (unfold PacketSize; lia).
  simpl. f_equal. apply take_ge. rewrite length_drop. unfold PacketSize in *. lia.
Qed.

Lemma pid_range : bytes_ok p -> 0 <= pidOf p < 8192.
Proof.
  intros Hb. unfold pidOf. pose proof (byteAt_range p 2 Hb). rewrite be_add, land_1f by done.
  pose proof (Z.mod_pos_bound (byteAt p 1) 32). lia.
Qed.

Lemma counter_range : 0 <= counterOf p < 16.
Proof. unfold counterOf. rewrite land_0f. by apply Z.mod_pos_bound. Qed.

Lemma DiscontinuityIndicator_safe : bytes_ok p -> safe (DiscontinuityIndicator p).
Proof.
  intros Hb. unfold DiscontinuityIndicator, safe.
  rewrite Hp, Z.leb_refl, HasAdaptationField_eq, AdaptationFieldLength_eq.
  rewrite (idx_byteAt p 5) by (rewrite Hp; done). simpl.
  destruct (2 <=? afcOf p); simpl; [|done]. by destruct (1 <=? byteAt p 4).
Qed.

Lemma wp_ProgramClockReference :
  bytes_ok p ->
  wp (ProgramClockReference p) (fun '(base, ext, ok) => 0 <= base < 2 ^ 33 /\ 0 <= ext < 512).
Proof.
  intros Hb. unfold ProgramClockReference.
  rewrite Hp, Z.ltb_irrefl, HasAdaptationField_eq, AdaptationFieldLength_eq.
  rewrite !idx_byteAt by (rewrite Hp; unfold PacketSize; lia). simpl.
  destruct (2 <=? afcOf p); simpl; [|lia].
  destruct (byteAt p 4 <? 7); simpl; [lia|].
  destruct (Z.land (byteAt p 5) 16 =? 0); simpl; [lia|].
  pose proof (byteAt_range p 6 Hb). pose proof (byteAt_range p 7 Hb). pose proof (byteAt_range p 8 Hb).
  pose proof (byteAt_range p 9 Hb). pose proof (byteAt_range p 10 Hb). pose proof (byteAt_range p 11 Hb).
  split.
  - assert (0 <= Z.shiftr (byteAt p 10) 7 < 2 ^ 1) by (apply shiftr_range; lia).
    rewrite <- !Z.lor_assoc.
    rewrite (lor_disjoint (byteAt p 9) _ 1) by lia.
    rewrite (lor_disjoint (byteAt p 8) _ 9) by lia.
    rewrite (lor_disjoint (byteAt p 7) _ 17) by lia.
    rewrite (lor_disjoint (byteAt p 6) _ 25) by lia. lia.
  - rewrite be_add by done. rewrite (land_mask _ 1) by lia.
    pose proof (Z.mod_pos_bound (byteAt p 10) (2 ^ 1)). lia.
Qed.
End accessors.

Create Rewrite HintDb packet.
#[export] Hint Rewrite TransportErrorIndicator_eq PayloadUnitStartIndicator_eq PID_eq
  IsNull_eq HasPayload_eq ContinuityCounter_eq PayloadOffset_eq ValidPayloadOffset_eq
  using done : packet.

(** A packet without adaptation field: four header bytes and 184 of payload. *)
Lemma payload_plain h0 h1 h2 h3 body :
  length body = 184%nat -> Z.land (Z.shiftr h3 4) 0x03 = 1 ->
  payloadOf (h0 :: h1 :: h2 :: h3 :: body) = body.
Proof.
  intros Hlen Hc. unfold payloadOf, hasPayloadOf, offsetOf, afcOf, byteAt. simpl. by rewrite Hc.
Qed.

Lemma payload_suffix p :
  bytes_ok p -> len p = PacketSize -> exists h, p = h ++ payloadOf p /\ (4 <= length h)%nat.
Proof.
  intros Hb Hp. unfold payloadOf. pose proof (offset_range p Hb).
  destruct (hasPayloadOf p && (offsetOf p <=? 188)) eqn:E; bools.
  - exists (take (Z.to_nat (offsetOf p)) p). rewrite take_drop. split; [done|].
    rewrite length_take. unfold PacketSize in *. lia.
  - exists p. rewrite app_nil_r. unfold PacketSize in *. split; [done|lia].
Qed.

Lemma payload_bytes_ok p : bytes_ok p -> bytes_ok (payloadOf p).
Proof. intros. unfold payloadOf. destruct (_ && _); auto with bytes. Qed.

(** ** Properties *)

(** On every 188-byte packet, whatever its bytes, no accessor panics; the
    PID is a 13-bit value, the continuity counter a 4-bit value, the clock
    reference a 33-bit base with a 9-bit extension, and the payload is a
    suffix of the packet behind its four header bytes, empty when the
    adaptation field claims more than the packet holds. *)
Theorem packet_accessors_in_bounds (p : Packet) (Hp : packet_ok p) :
  wp (PID p) (fun pid => 0 <= pid < 8192)
  /\ wp (ContinuityCounter p) (fun c => 0 <= c < 16)
  /\ wp (ProgramClockReference p) (fun '(base, ext, ok) => 0 <= base < 2 ^ 33 /\ 0 <= ext < 512)
  /\ safe (DiscontinuityIndicator p)
  /\ wp (Payload p) (fun payload => exists h, p = h ++ payload /\ (4 <= length h)%nat)
  /\ (188 < offsetOf p -> Payload p = Ret []).
Proof.
  destruct Hp as [Hp Hb]. rewrite PID_eq, ContinuityCounter_eq, Payload_eq by done.
  split_and!.
  - by apply pid_range.
  - apply counter_range.
  - by apply wp_ProgramClockReference.
  - by apply DiscontinuityIndicator_safe.
  - by apply payload_suffix.
  - intros H. unfold payloadOf. rewrite (proj2 (Z.leb_gt _ _)) by done. by rewrite andb_false_r.
Qed.

(** A packet whose adaptation field of 200 bytes points beyond its end. *)
Lemma packet_accessors_in_bounds_witness :
  Payload (0x47 :: 0x01 :: 0x00 :: 0x30 :: 200 :: replicate 183 0xff) = Ret [].
Proof.
  apply (packet_accessors_in_bounds (0x47 :: 0x01 :: 0x00 :: 0x30 :: 200 :: replicate 183 0xff)).
  - split; [reflexivity|]. repeat constructor; unfold byte_ok; lia.
  - vm_compute. reflexivity.
Defined.
