(* ===== verification/Section.v ===== *)
(** * Section reassembly (ts/section.go) and packetizing (ts/demux.go)

    [Section] accessors, the [SectionAssembler] that rebuilds PSI/SI sections
    from the packets of one PID, and [packetizeSection], which cuts a section
    into packets.  The theorems: whatever packets are fed, only sections of
    the announced length with a zero checksum residue come out; and packets
    cut from valid sections give back exactly those sections, from any state
    of the assembler. *)

From S2P Require Import Prelude Crc Packet.

(** ** Sections *)

Abbreviation Section_ := bytes (only parsing).

Definition TableID (s : Section_) : go Z := idx s 0.

Definition SectionSyntaxIndicator (s : Section_) : go bool :=
  b ← idx s 1; Ret (flag b 0x80).

Definition SectionLength (s : Section_) : go Z := read12 s 1.

Definition TotalLength (s : Section_) : go Z := n ← SectionLength s; Ret (3 + n).

Definition ValidateCRC (s : Section_) : go bool :=
  short ← Ret (len s <? 4) ||! (n ← TotalLength s; Ret (len s <? n));
  if (short : bool) then Ret false
  else n ← TotalLength s; data ← sliceTo s n; Ret (crc32MPEG2 data =? 0).

(** ** The assembler *)

Record SectionAssembler := mkSectionAssembler {
  sa_pid : Z;
  sa_buffer : bytes;
  sa_lastCounter : Z;
  sa_expecting : bool;
  sa_pending : list Section_;
}.

Definition NewSectionAssembler (pid : Z) : SectionAssembler :=
  mkSectionAssembler pid [] 0 false [].

Definition withBuffer (sa : SectionAssembler) (buffer : bytes) : SectionAssembler :=
  mkSectionAssembler (sa_pid sa) buffer (sa_lastCounter sa) (sa_expecting sa) (sa_pending sa).
Definition withCounter (sa : SectionAssembler) (c : Z) : SectionAssembler :=
  mkSectionAssembler (sa_pid sa) (sa_buffer sa) c (sa_expecting sa) (sa_pending sa).
Definition withExpecting (sa : SectionAssembler) (b : bool) : SectionAssembler :=
  mkSectionAssembler (sa_pid sa) (sa_buffer sa) (sa_lastCounter sa) b (sa_pending sa).
Definition withPending (sa : SectionAssembler) (l : list Section_) : SectionAssembler :=
  mkSectionAssembler (sa_pid sa) (sa_buffer sa) (sa_lastCounter sa) (sa_expecting sa) l.
(** [sa.buffer = nil; sa.expecting = false] *)
Definition discard (sa : SectionAssembler) : SectionAssembler :=
  withExpecting (withBuffer sa []) false.

Definition consumePayload (sa : SectionAssembler) (payload : bytes) :
    go (SectionAssembler * list Section_) :=
  loop (S (length payload))
    (fun '(payload, sections) =>
      more ← Ret (3 <=? len payload) &&! (b ← idx payload 0; Ret (negb (b =? 0xff)));
      if negb more then Ret (Break (sa, sections))
      else
        n ← read12 payload 1;
        let total := 3 + n in
        if total <? 3 then Ret (Break (sa, sections))
        else if len payload <? total
        then Ret (Break (withExpecting (withBuffer sa payload) true, sections))
        else
          section ← sliceTo payload total;
          ok ← ValidateCRC section;
          payload ← sliceFrom payload total;
          Ret (Continue (payload, if (ok : bool) then sections ++ [section] else sections)))
    (payload, []).

(** The end of [completeSections], after its loop. *)
Definition completed (sa : SectionAssembler) : SectionAssembler :=
  if len (sa_buffer sa) =? 0 then withExpecting sa false else sa.

Definition completeSections (keepRemainder : bool) (sa : SectionAssembler) :
    go (SectionAssembler * list Section_) :=
  loop (S (length (sa_buffer sa)))
    (fun '(sa, sections) =>
      if len (sa_buffer sa) <? 3 then Ret (Break (completed sa, sections))
      else
        n ← read12 (sa_buffer sa) 1;
        let total := 3 + n in
        if len (sa_buffer sa) <? total
        then Ret (Break (withExpecting sa true, sections))
        else
          section ← sliceTo (sa_buffer sa) total;
          ok ← ValidateCRC section;
          let sections := if (ok : bool) then sections ++ [section] else sections in
          rest ← sliceFrom (sa_buffer sa) total;
          let sa := withBuffer sa rest in
          if negb keepRemainder && (len rest =? 0)
          then Ret (Break (completed sa, sections))
          else Ret (Continue (sa, sections)))
    (sa, []).

(** The branch of [FeedAll] for a packet that starts a section. *)
Definition feedStart (sa : SectionAssembler) (payload : bytes) :
    go (SectionAssembler * list Section_) :=
  pointer ← idx payload 0;
  payload ← sliceFrom payload 1;
  if len payload <? pointer then Ret (discard sa, [])
  else
    '(sa, sections) ←
      (if (0 <? len (sa_buffer sa)) && (0 <? pointer) then
         head ← sliceTo payload pointer;
         completeSections false (withBuffer sa (sa_buffer sa ++ head))
       else Ret (sa, []));
    rest ← sliceFrom payload pointer;
    '(sa, more) ← consumePayload (discard sa) rest;
    Ret (sa, sections ++ more).

Definition FeedAll (sa : SectionAssembler) (p : Packet) :
    go (SectionAssembler * list Section_) :=
  skip ← (pid ← PID p; Ret (negb (pid =? sa_pid sa))) ||! TransportErrorIndicator p
    ||! (negb <$> HasPayload p);
  if (skip : bool) then Ret (sa, [])
  else
    payload ← Payload p;
    if len payload =? 0 then Ret (sa, [])
    else
      counter ← ContinuityCounter p;
      let sa :=
        if sa_expecting sa && negb (counter =? Z.land (u8 (sa_lastCounter sa + 1)) 0x0f)
        then discard sa else sa in
      let sa := withCounter sa counter in
      start ← PayloadUnitStartIndicator p;
      if (start : bool) then feedStart sa payload
      else if negb (sa_expecting sa) then Ret (sa, [])
      else completeSections false (withBuffer sa (sa_buffer sa ++ payload)).

Definition Feed (sa : SectionAssembler) (p : Packet) :
    go (SectionAssembler * option Section_) :=
  match sa_pending sa with
  | section :: rest => Ret (withPending sa rest, Some section)
  | [] =>
      '(sa, sections) ← FeedAll sa p;
      match sections with
      | [] => Ret (sa, None)
      | section :: rest => Ret (withPending sa (sa_pending sa ++ rest), Some section)
      end
  end.

(** A run of packets through [FeedAll]. *)
Fixpoint feedPackets (sa : SectionAssembler) (ps : list Packet) :
    go (SectionAssembler * list Section_) :=
  match ps with
  | [] => Ret (sa, [])
  | p :: ps =>
      '(sa, sections) ← FeedAll sa p;
      '(sa, more) ← feedPackets sa ps;
      Ret (sa, sections ++ more)
  end.

(** ** Packetizing *)

(** One packet of [packetizeSection]: the header, the pointer field of the
    first packet, as much of the section as fits, stuffing up to 188 bytes. *)
Definition sectionPacket (pid counter : Z) (first : bool) (remaining : bytes) : Packet :=
  let body := (if first then [0] else []) ++
              take (if first then 183 else 184) remaining in
  [SyncByte;
   (if first then Z.lor (u8 (Z.shiftr pid 8)) 0x40 else u8 (Z.shiftr pid 8));
   u8 pid;
   Z.lor 0x10 (Z.land counter 0x0f)] ++ body ++ replicate (184 - length body) 0xff.

Definition packetizeSection (pid : Z) (section : Section_) (counter : Z) :
    go (list Packet * Z) :=
  loop (2 + length section)
    (fun '(first, remaining, counter, packets) =>
      if negb ((first : bool) || (0 <? len remaining))
      then Ret (Break (packets, counter))
      else
        let n := if first then 183%nat else 184%nat in
        Ret (Continue (false, drop n remaining, Z.land (u8 (counter + 1)) 0x0f,
          packets ++ [sectionPacket pid counter first remaining])))
    (true, section, counter, []).

(** The sections of a stream of one PID, cut one after the other. *)
Fixpoint packetizeSections (pid : Z) (sections : list Section_) (counter : Z) :
    go (list Packet * Z) :=
  match sections with
  | [] => Ret ([], counter)
  | s :: sections =>
      '(ps, counter) ← packetizeSection pid s counter;
      '(qs, counter) ← packetizeSections pid sections counter;
      Ret (ps ++ qs, counter)
  end.

(** ** Sections on the wire *)

Definition totalOf (s : bytes) : Z := 3 + be (Z.land (byteAt s 1) 0x0f) (byteAt s 2).

(** What the assembler promises of a section it emits: the length its header
    announces and a zero checksum residue. *)
Definition valid_section (s : Section_) : Prop :=
  bytes_ok s /\ 4 <= len s /\ len s = totalOf s /\ crc32MPEG2 s = 0.

Lemma total_range s : bytes_ok s -> 3 <= totalOf s < 4099.
Proof.
  intros Hs. unfold totalOf. pose proof (byteAt_range s 2 Hs).
  rewrite be_add, land_0f by done. pose proof (Z.mod_pos_bound (byteAt s 1) 16). lia.
Qed.

(** The length field of a section header. *)
Lemma read_header l :
  3 <= len l -> read12 l 1 = Ret (be (Z.land (byteAt l 1) 0x0f) (byteAt l 2)).
Proof. intros. by rewrite read12_at by lia. Qed.

Lemma TotalLength_eq s : 3 <= len s -> TotalLength s = Ret (totalOf s).
Proof. intros. unfold TotalLength, SectionLength. by rewrite read_header by lia. Qed.

Lemma totalOf_take l n : (3 <= n)%nat -> totalOf (take n l) = totalOf l.
Proof. intros. unfold totalOf. by rewrite !byteAt_take by lia. Qed.

Lemma totalOf_app l1 l2 : 3 <= len l1 -> totalOf (l1 ++ l2) = totalOf l1.
Proof. intros. unfold totalOf. by rewrite !byteAt_app by lia. Qed.

(** The residue test, on a section cut to its announced length. *)
Lemma ValidateCRC_exact s :
  3 <= len s -> len s = totalOf s ->
  ValidateCRC s = Ret ((4 <=? len s) && (crc32MPEG2 s =? 0)).
Proof.
  intros H3 Ht. unfold ValidateCRC. rewrite TotalLength_eq by done. cbn -[Z.ltb].
  rewrite <- Ht, Z.ltb_irrefl, (Z.leb_antisym (len s) 4).
  destruct (len s <? 4) eqn:E; simpl; [done|].
  rewrite slice_0 by lia. simpl. by rewrite Nat2Z.id, take_ge by done.
Qed.

Lemma ValidateCRC_valid s : valid_section s -> ValidateCRC s = Ret true.
Proof.
  intros (Hb & H4 & Ht & Hc). rewrite ValidateCRC_exact by (done || lia).
  rewrite Hc. by rewrite (proj2 (Z.leb_le _ _) H4).
Qed.

Lemma ValidateCRC_cut l n :
  bytes_ok l -> n = totalOf l -> n <= len l ->
  ValidateCRC (take (Z.to_nat n) l) = Ret true -> valid_section (take (Z.to_nat n) l).
Proof.
  intros Hl -> Hn H. pose proof (total_range l Hl).
  assert (len (take (Z.to_nat (totalOf l)) l) = totalOf l) as E.
  { rewrite length_take. lia. }
  rewrite ValidateCRC_exact in H by (rewrite ?E, ?totalOf_take; lia).
  injection H as H. bools. split_and!; [auto with bytes|done|rewrite totalOf_take; lia|done].
Qed.

Lemma ValidateCRC_cut_safe l n :
  bytes_ok l -> n = totalOf l -> n <= len l -> exists ok,
  ValidateCRC (take (Z.to_nat n) l) = Ret ok.
Proof.
  intros Hl -> Hn. pose proof (total_range l Hl).
  assert (len (take (Z.to_nat (totalOf l)) l) = totalOf l) as E.
  { rewrite length_take. lia. }
  rewrite ValidateCRC_exact by (rewrite ?E, ?totalOf_take; lia). eauto.
Qed.

(** ** Soundness of the assembler *)

Definition assembler_ok (sa : SectionAssembler) : Prop :=
  bytes_ok (sa_buffer sa) /\ 0 <= sa_lastCounter sa < 16.

Definition feeds (sa : SectionAssembler) (r : SectionAssembler * list Section_) : Prop :=
  assembler_ok r.1 /\ sa_pid r.1 = sa_pid sa /\ Forall valid_section r.2.

Lemma Forall_emit (ok : bool) (sections : list Section_) s :
  (ok = true -> valid_section s) -> Forall valid_section sections ->
  Forall valid_section (if ok then sections ++ [s] else sections).
Proof. intros Hs Hl. destruct ok; [|done]. apply Forall_app. auto. Qed.

Lemma consumePayload_sound sa payload :
  assembler_ok sa -> bytes_ok payload ->
  wp (consumePayload sa payload) (feeds sa).
Proof.
  intros Hsa Hp. unfold consumePayload.
  apply (wp_loop (fun '(payload, sections) => bytes_ok payload /\ Forall valid_section sections)
    (fun '(payload, _) => len payload)); [|by auto with bytes|lia|lia].
  clear payload Hp. intros [l secs] [Hl Hs]. apply wp_bind.
  destruct (Z.leb_spec 3 (len l)) as [H3|]; simpl; [|by split_and!].
  rewrite idx_byteAt by lia. simpl. destruct (byteAt l 0 =? 0xff); simpl; [by split_and!|].
  rewrite read_header by lia. simpl. fold (totalOf l). pose proof (total_range l Hl).
  rewrite (proj2 (Z.ltb_ge _ _)) by lia.
  destruct (Z.ltb_spec (len l) (totalOf l)).
  { destruct Hsa as [? ?]. by split_and!. }
  rewrite slice_0 by lia. simpl.
  destruct (ValidateCRC_cut_safe l (totalOf l)) as [ok Hok]; [done..|].
  rewrite Hok. simpl. rewrite slice_from by lia. simpl. rewrite length_drop.
  split_and!; [auto with bytes| |lia..].
  apply Forall_emit; [|done]. intros ->. by apply ValidateCRC_cut.
Qed.

Lemma completed_ok sa : assembler_ok sa -> assembler_ok (completed sa).
Proof. unfold completed. by destruct (_ =? 0). Qed.

Lemma completed_pid sa : sa_pid (completed sa) = sa_pid sa.
Proof. unfold completed. by destruct (_ =? 0). Qed.

Lemma completeSections_sound keep sa :
  assembler_ok sa -> wp (completeSections keep sa) (feeds sa).
Proof.
  intros Hsa. unfold completeSections.
  apply (wp_loop (fun '(sa', sections) => assembler_ok sa' /\ sa_pid sa' = sa_pid sa
      /\ Forall valid_section sections)
    (fun '(sa', _) => len (sa_buffer sa'))); [|by auto with bytes|lia|lia].
  intros [sa' secs] ([Hl Hc] & Hpid & Hs). set (l := sa_buffer sa') in *.
  destruct (Z.ltb_spec (len l) 3); simpl.
  { split_and!; [by apply completed_ok|unfold fst; by rewrite completed_pid|done]. }
  rewrite read_header by lia. simpl. fold (totalOf l). pose proof (total_range l Hl).
  destruct (Z.ltb_spec (len l) (totalOf l)); [by split_and!|].
  rewrite slice_0 by lia. simpl.
  destruct (ValidateCRC_cut_safe l (totalOf l)) as [ok Hok]; [done..|].
  rewrite Hok. simpl. rewrite slice_from by lia. simpl.
  assert (Forall valid_section
    (if ok then secs ++ [take (Z.to_nat (totalOf l)) l] else secs)).
  { apply Forall_emit; [|done]. intros ->. by apply ValidateCRC_cut. }
  assert (assembler_ok (withBuffer sa' (drop (Z.to_nat (totalOf l)) l))).
  { split; simpl; auto with bytes. }
  destruct (_ && _); simpl.
  - split_and!; [by apply completed_ok|unfold fst; by rewrite completed_pid|done].
  - rewrite length_drop. split_and!; [done|done|done|lia..].
Qed.

Lemma discard_ok sa : assembler_ok sa -> assembler_ok (discard sa).
Proof. intros [? ?]. split; simpl; auto with bytes. Qed.

Lemma append_ok sa l :
  assembler_ok sa -> bytes_ok l -> assembler_ok (withBuffer sa (sa_buffer sa ++ l)).
Proof. intros [? ?] ?. split; simpl; auto with bytes. Qed.

#[local] Hint Resolve discard_ok append_ok : bytes.

Lemma feedStart_sound sa payload :
  assembler_ok sa -> bytes_ok payload -> 0 < len payload ->
  wp (feedStart sa payload) (feeds sa).
Proof.
  intros Hsa Hp Hlen. unfold feedStart. rewrite idx_byteAt, slice_from by lia. simpl.
  pose proof (byteAt_range payload 0 Hp). set (l := drop (Z.to_nat 1) payload).
  assert (bytes_ok l) by (unfold l; auto with bytes).
  destruct (Z.ltb_spec (len l) (byteAt payload 0)).
  { split_and!; [by apply discard_ok|done|done]. }
  apply wp_bind. apply wp_mono with (P := feeds sa).
  - destruct (_ && _); [|by split_and!].
    rewrite slice_0 by lia. simpl. apply (completeSections_sound false (withBuffer sa _)).
    auto with bytes.
  - intros [sa' secs] (Hsa' & Hpid & Hsecs). simpl in *.
    rewrite slice_from by lia. simpl. apply wp_bind. eapply wp_mono.
    + apply consumePayload_sound; auto with bytes.
    + intros [sa'' more] (? & ? & ?). split_and!; simpl in *; [done|congruence|].
      by apply Forall_app.
Qed.

(** The state in which [FeedAll] handles a packet it does not skip: a
    continuity break drops the section in progress. *)
Definition resumed (sa : SectionAssembler) (counter : Z) : SectionAssembler :=
  withCounter
    (if sa_expecting sa && negb (counter =? Z.land (u8 (sa_lastCounter sa + 1)) 0x0f)
     then discard sa else sa) counter.

Lemma FeedAll_eq sa p :
  packet_ok p ->
  FeedAll sa p =
    if negb (pidOf p =? sa_pid sa) || teiOf p || negb (hasPayloadOf p)
       || (len (payloadOf p) =? 0)
    then Ret (sa, [])
    else
      let sa := resumed sa (counterOf p) in
      if pusiOf p then feedStart sa (payloadOf p)
      else if negb (sa_expecting sa) then Ret (sa, [])
      else completeSections false (withBuffer sa (sa_buffer sa ++ payloadOf p)).
Proof.
  intros [Hp Hb]. unfold FeedAll. autorewrite with packet. rewrite Payload_eq by done.
  cbn [mbind go_bind fmap go_fmap]. rewrite !goor_Ret. cbn [mbind go_bind].
  destruct (_ || _ || _); simpl; [done|]. by destruct (_ =? 0).
Qed.

Lemma resumed_ok sa c :
  assembler_ok sa -> 0 <= c < 16 -> assembler_ok (resumed sa c) /\ sa_pid (resumed sa c) = sa_pid sa.
Proof.
  intros [? ?] Hc. unfold resumed. destruct (_ && _); split; try done; split; simpl;
    auto with bytes.
Qed.

Lemma FeedAll_sound sa p :
  assembler_ok sa -> packet_ok p -> wp (FeedAll sa p) (feeds sa).
Proof.
  intros Hsa Hp. rewrite FeedAll_eq by done. destruct Hp as [Hp Hb].
  destruct (_ || _) eqn:E; [by split_and!|]. bools.
  destruct (resumed_ok sa (counterOf p)) as [Hr Hpid]; [done|apply counter_range|].
  unfold feeds. rewrite <- Hpid. pose proof (payload_bytes_ok p Hb). cbv zeta.
  destruct (pusiOf p); [apply feedStart_sound; [done..|lia]|].
  destruct (negb _); [by split_and!|].
  eapply wp_mono; [apply completeSections_sound; auto with bytes|]. by intros r (? & ? & ?).
Qed.

Lemma feedPackets_sound sa ps :
  assembler_ok sa -> Forall packet_ok ps -> wp (feedPackets sa ps) (feeds sa).
Proof.
  intros Hsa Hps. revert sa Hsa. induction Hps as [|p ps Hp _ IH]; intros sa Hsa; [by split_and!|].
  simpl. apply wp_bind. eapply wp_mono; [by apply FeedAll_sound|].
  intros [sa' secs] (Hsa' & Hpid & Hsecs). apply wp_bind. eapply wp_mono; [by apply IH|].
  intros [sa'' more] (? & ? & ?). simpl in *. split_and!; simpl; [done|congruence|].
  by apply Forall_app.
Qed.

(** ** One section and its stuffing *)

Lemma totalOf_stuffing m : (3 <= m)%nat -> totalOf (replicate m 0xff) = 4098.
Proof. intros. unfold totalOf, byteAt. by rewrite !lookup_replicate_2 by lia. Qed.

Lemma cut_section s l :
  valid_section s ->
  take (Z.to_nat (totalOf s)) (s ++ l) = s /\ drop (Z.to_nat (totalOf s)) (s ++ l) = l.
Proof. intros (_ & _ & <- & _). by rewrite Nat2Z.id, take_app_length, drop_app_length. Qed.

Lemma completeSections_short sa :
  3 <= len (sa_buffer sa) < totalOf (sa_buffer sa) ->
  completeSections false sa = Ret (withExpecting sa true, []).
Proof.
  intros H. unfold completeSections. rewrite loop_S.
  rewrite (proj2 (Z.ltb_ge _ _)), read_header by lia. simpl.
  fold (totalOf (sa_buffer sa)). by rewrite (proj2 (Z.ltb_lt _ _)) by lia.
Qed.

Lemma completeSections_one sa s m :
  valid_section s -> (m < 4098)%nat -> sa_buffer sa = s ++ replicate m 0xff ->
  exists sa', completeSections false sa = Ret (sa', [s]) /\ sa_pid sa' = sa_pid sa
    /\ sa_pending sa' = sa_pending sa.
Proof.
  intros Hs Hm Hb. destruct (cut_section s (replicate m 0xff) Hs) as [Ht Hd].
  pose proof Hs as (_ & H4 & Hl & _).
  unfold completeSections. rewrite loop_S, Hb.
  rewrite (proj2 (Z.ltb_ge _ _)), read_header by (rewrite length_app; lia).
  cbn [mbind go_bind]. fold (totalOf (s ++ replicate m 0xff)).
  rewrite totalOf_app, (proj2 (Z.ltb_ge _ _)), slice_0 by (rewrite ?length_app; lia).
  cbn [mbind go_bind]. rewrite Ht, ValidateCRC_valid by done. cbn [mbind go_bind].
  rewrite slice_from by (rewrite ?length_app; lia). cbn [mbind go_bind]. rewrite Hd.
  rewrite length_replicate. destruct m as [|m].
  { simpl. eexists. split; [done|]. unfold completed. by case_match. }
  cbn [andb negb]. rewrite (proj2 (Z.eqb_neq _ _)) by lia.
  cbn [mbind go_bind]. rewrite length_app, length_replicate, Nat.add_succ_r, loop_S.
  cbn [sa_buffer withBuffer app]. rewrite length_replicate.
  destruct (Z.ltb_spec (Z.of_nat (S m)) 3).
  { eexists. split; [done|]. unfold completed. by case_match. }
  rewrite read_header by (rewrite length_replicate; lia). cbn [mbind go_bind].
  fold (totalOf (replicate (S m) 0xff)). rewrite totalOf_stuffing by lia.
  rewrite (proj2 (Z.ltb_lt _ _)) by lia. by eexists.
Qed.

Lemma consumePayload_short sa l :
  3 <= len l < totalOf l -> byteAt l 0 <> 0xff ->
  consumePayload sa l = Ret (withExpecting (withBuffer sa l) true, []).
Proof.
  intros H Hff. unfold consumePayload. rewrite loop_S.
  rewrite (proj2 (Z.leb_le _ _)), idx_byteAt by lia.
  cbn [goand mbind go_bind]. rewrite (proj2 (Z.eqb_neq _ _) Hff).
  cbn [negb]. rewrite read_header by lia. cbn [mbind go_bind]. fold (totalOf l).
  by rewrite (proj2 (Z.ltb_ge _ 3)), (proj2 (Z.ltb_lt _ _)) by lia.
Qed.

Lemma consumePayload_one sa s m :
  valid_section s -> byteAt s 0 <> 0xff ->
  consumePayload sa (s ++ replicate m 0xff) = Ret (sa, [s]).
Proof.
  intros Hs Hff. destruct (cut_section s (replicate m 0xff) Hs) as [Ht Hd].
  pose proof Hs as (_ & H4 & Hl & _). unfold consumePayload. rewrite loop_S.
  rewrite (proj2 (Z.leb_le _ _)), idx_byteAt, byteAt_app by (rewrite ?length_app; lia).
  cbn [goand mbind go_bind]. rewrite (proj2 (Z.eqb_neq _ _) Hff). cbn [negb].
  rewrite read_header by (rewrite length_app; lia). cbn [mbind go_bind].
  fold (totalOf (s ++ replicate m 0xff)). rewrite totalOf_app by lia.
  rewrite (proj2 (Z.ltb_ge _ 3)), (proj2 (Z.ltb_ge _ _)), slice_0
    by (rewrite ?length_app; lia).
  cbn [mbind go_bind]. rewrite Ht, ValidateCRC_valid by done. cbn [mbind go_bind].
  rewrite slice_from by (rewrite ?length_app; lia). cbn [mbind go_bind]. rewrite Hd.
  rewrite length_app. destruct s as [|b s]; [simpl in H4; lia|]. cbn [length Nat.add].
  rewrite loop_S, length_replicate. destruct (Z.leb_spec 3 (Z.of_nat m)); [|done].
  destruct m; [lia|]. done.
Qed.

(** ** Packets cut from sections *)

Lemma start_header h :
  0 <= h < 32 ->
  flag (Z.lor h 0x40) 0x80 = false /\ flag (Z.lor h 0x40) 0x40 = true
  /\ Z.land (Z.lor h 0x40) 0x1f = h /\ Z.lor h 0x40 < 256
  /\ flag h 0x80 = false /\ flag h 0x40 = false /\ Z.land h 0x1f = h.
Proof.
  intros Hh. pose proof (range_forallb (fun h => negb (flag (Z.lor h 0x40) 0x80)
    && flag (Z.lor h 0x40) 0x40 && (Z.land (Z.lor h 0x40) 0x1f =? h) && (Z.lor h 0x40 <? 256)
    && negb (flag h 0x80) && negb (flag h 0x40) && (Z.land h 0x1f =? h)) 32
    ltac:(vm_compute; reflexivity) h Hh) as H.
  simpl in H. bools. by split_and!.
Qed.

Lemma counter_header c :
  0 <= c < 16 ->
  Z.land (Z.shiftr (Z.lor 0x10 (Z.land c 0x0f)) 4) 0x03 = 1
  /\ Z.land (Z.lor 0x10 (Z.land c 0x0f)) 0x0f = c /\ 0 <= Z.lor 0x10 (Z.land c 0x0f) < 256
  /\ 0 <= Z.land (u8 (c + 1)) 0x0f < 16.
Proof.
  intros Hc. pose proof (range_forallb (fun c =>
    (Z.land (Z.shiftr (Z.lor 0x10 (Z.land c 0x0f)) 4) 0x03 =? 1)
    && (Z.land (Z.lor 0x10 (Z.land c 0x0f)) 0x0f =? c)
    && (0 <=? Z.lor 0x10 (Z.land c 0x0f)) && (Z.lor 0x10 (Z.land c 0x0f) <? 256)
    && (0 <=? Z.land (u8 (c + 1)) 0x0f) && (Z.land (u8 (c + 1)) 0x0f <? 16)) 16
    ltac:(vm_compute; reflexivity) c Hc) as H.
  simpl in H. bools. by split_and!.
Qed.

Section packets.
Context (pid : Z) (Hpid : 0 <= pid < 8192).

(** The payload of a packet of a section: the pointer field, the bytes of the
    section that fit, and stuffing. *)
Definition packetBody (first : bool) (remaining : bytes) : bytes :=
  let body := (if first then [0] else []) ++ take (if first then 183 else 184) remaining in
  body ++ replicate (184 - length body) 0xff.

Lemma packetBody_length first remaining : length (packetBody first remaining) = 184%nat.
Proof.
  unfold packetBody. destruct first; simpl; rewrite ?length_app, length_replicate, length_take; lia.
Qed.

Lemma packetBody_ok first remaining : bytes_ok remaining -> bytes_ok (packetBody first remaining).
Proof.
  intros. unfold packetBody. apply bytes_ok_app; [|apply bytes_ok_replicate; red; lia].
  apply bytes_ok_app; [|auto with bytes].
  destruct first; [|constructor]. constructor; [red; lia|constructor].
Qed.

Lemma pid_high : 0 <= u8 (Z.shiftr pid 8) < 32 /\ be (u8 (Z.shiftr pid 8)) (u8 pid) = pid.
Proof.
  assert (0 <= Z.shiftr pid 8 < 32) by (apply shiftr_range; lia).
  rewrite u8_small, be_shift by lia. done.
Qed.

Lemma sectionPacket_view c first remaining :
  0 <= c < 16 -> bytes_ok remaining ->
  let p := sectionPacket pid c first remaining in
  packet_ok p /\ pidOf p = pid /\ teiOf p = false /\ pusiOf p = first
  /\ hasPayloadOf p = true /\ counterOf p = c /\ payloadOf p = packetBody first remaining.
Proof.
  intros Hc Hr p. destruct pid_high as [Hh Hbe].
  destruct (start_header _ Hh) as (S1 & S2 & S3 & S4 & S5 & S6 & S7).
  destruct (counter_header c Hc) as (C1 & C2 & C3 & _). pose proof (u8_range pid).
  assert (p = SyncByte :: (if first then Z.lor (u8 (Z.shiftr pid 8)) 0x40
    else u8 (Z.shiftr pid 8)) :: u8 pid :: Z.lor 0x10 (Z.land c 0x0f)
    :: packetBody first remaining) as -> by done.
  set (h1 := if first then _ else _).
  assert (Z.land h1 0x1f = u8 (Z.shiftr pid 8) /\ flag h1 0x80 = false
    /\ flag h1 0x40 = first /\ 0 <= h1 < 256) as (E1 & E2 & E3 & E4).
  { unfold h1. destruct first; split_and!; try done; try lia.
    apply Z.lor_nonneg; lia. }
  split_and!.
  - split; [simpl; rewrite packetBody_length; done|].
    repeat (constructor; [red; unfold SyncByte; lia|]). by apply packetBody_ok.
  - unfold pidOf, byteAt. simpl. by rewrite E1.
  - unfold teiOf, byteAt. by simpl.
  - unfold pusiOf, byteAt. by simpl.
  - unfold hasPayloadOf, afcOf, byteAt. simpl. by rewrite C1.
  - unfold counterOf, byteAt. by simpl.
  - apply payload_plain; [apply packetBody_length|done].
Qed.

(** The packets of [packetizeSection] after the first one. *)
Inductive continued : Z -> bytes -> list Packet -> Prop :=
  | continued_nil c : continued c [] []
  | continued_cons c remaining ps :
      remaining <> [] -> continued (Z.land (u8 (c + 1)) 0x0f) (drop 184 remaining) ps ->
      continued c remaining (sectionPacket pid c false remaining :: ps).

Lemma packetize_continued n c rem acc :
  0 <= c < 16 -> (length rem < n)%nat -> exists ps c',
  loop n (fun '(first, remaining, counter, packets) =>
      if negb ((first : bool) || (0 <? len remaining))
      then Ret (Break (packets, counter))
      else
        let n := if first then 183%nat else 184%nat in
        Ret (Continue (false, drop n remaining, Z.land (u8 (counter + 1)) 0x0f,
          packets ++ [sectionPacket pid counter first remaining])))
    (false, rem, c, acc) = Ret (acc ++ ps, c') /\ 0 <= c' < 16 /\ continued c rem ps.
Proof.
  revert c rem acc. induction n as [|n IH]; intros c rem acc Hc Hn; [lia|].
  rewrite loop_S. destruct rem as [|b rem].
  { exists [], c. rewrite app_nil_r. split_and!; [done|lia|lia|constructor]. }
  destruct (counter_header c Hc) as (_ & _ & _ & Hc').
  destruct (IH _ (drop 184 (b :: rem)) (acc ++ [sectionPacket pid c false (b :: rem)]) Hc')
    as (ps & c' & E & Hr & Hps).
  { rewrite length_drop. simpl in *. lia. }
  exists (sectionPacket pid c false (b :: rem) :: ps), c'.
  cbn [orb negb mbind go_bind] in *. rewrite (proj2 (Z.ltb_lt _ _)) by (simpl; lia).
  cbn [negb mbind go_bind]. rewrite E, <- app_assoc. split_and!; [done|lia|lia|by constructor].
Qed.

Lemma packetizeSection_shape s c :
  0 <= c < 16 -> exists ps c',
  packetizeSection pid s c = Ret (sectionPacket pid c true s :: ps, c') /\ 0 <= c' < 16
  /\ continued (Z.land (u8 (c + 1)) 0x0f) (drop 183 s) ps.
Proof.
  intros Hc. destruct (counter_header c Hc) as (_ & _ & _ & Hc').
  destruct (packetize_continued (1 + length s) _ (drop 183 s) [sectionPacket pid c true s] Hc')
    as (ps & c' & E & Hr & Hps); [rewrite length_drop; lia|].
  exists ps, c'. split_and!; [|lia|lia|done].
  unfold packetizeSection. cbn [Nat.add]. rewrite loop_S. exact E.
Qed.

(** Feeding the packets that follow the first one of a section. *)
Lemma feed_continued s c rem ps :
  continued c rem ps -> valid_section s -> 0 <= c < 16 -> rem <> [] ->
  forall sa, sa_pid sa = pid -> sa_expecting sa = true ->
    Z.land (u8 (sa_lastCounter sa + 1)) 0x0f = c ->
    3 <= len (sa_buffer sa) -> sa_buffer sa ++ rem = s ->
  exists sa', feedPackets sa ps = Ret (sa', [s]) /\ sa_pid sa' = pid.
Proof.
  intros Hps Hs. induction Hps as [c|c rem ps Hne Hps IH]; intros Hc Hrem sa Hsa He Hcnt H3 Heq;
    [done|].
  pose proof Hs as (Hb & H4 & Ht & _).
  assert (bytes_ok rem) as Hrok by (rewrite <- Heq in Hb; by apply Forall_app in Hb as [??]).
  destruct (sectionPacket_view c false rem Hc Hrok) as (V0 & V1 & V2 & V3 & V4 & V5 & V6).
  destruct (counter_header c Hc) as (_ & _ & _ & Hc').
  assert (totalOf (sa_buffer sa) = len s) as Htot.
  { rewrite Ht, <- Heq, totalOf_app by done. done. }
  assert (len s = len (sa_buffer sa) + len rem) as Hlen by (rewrite <- Heq, length_app; lia).
  cbn [feedPackets]. rewrite FeedAll_eq, V1, V2, V3, V4, V5, V6, packetBody_length by done.
  change (Z.of_nat 184 =? 0) with false. rewrite Hsa, Z.eqb_refl. cbn [negb orb]. unfold resumed.
  rewrite He, Hcnt, Z.eqb_refl. cbn [negb andb sa_expecting withCounter sa_buffer].
  rewrite He. cbn [negb]. unfold packetBody. cbn [app].
  destruct (decide (length rem <= 184)%nat) as [Hle|Hgt].
  - rewrite take_ge, app_assoc, Heq by done.
    destruct (completeSections_one (withBuffer (withCounter sa c)
        (s ++ replicate (184 - length rem) 255)) s (184 - length rem)) as (sa' & -> & Hp & _);
      [done|lia|done|].
    rewrite drop_ge in Hps by done. inversion Hps; subst; [|done].
    exists sa'. split; [done|]. simpl in Hp. congruence.
  - rewrite length_take, Nat.min_l, Nat.sub_diag, app_nil_r by lia.
    rewrite completeSections_short; cbn [sa_buffer withBuffer];
      [|rewrite totalOf_app, Htot, length_app, length_take; lia].
    cbn [mbind go_bind].
    destruct (IH Hc') with (sa := withExpecting (withBuffer (withCounter sa c)
      (sa_buffer sa ++ take 184 rem)) true) as (sa' & -> & Hp).
    + intros Hnil. apply (f_equal length) in Hnil. rewrite length_drop in Hnil. simpl in Hnil. lia.
    + done.
    + done.
    + done.
    + simpl. rewrite length_app. lia.
    + simpl. by rewrite <- app_assoc, take_drop.
    + by exists sa'.
Qed.

(** The packets of one section, fed in any state of the assembler. *)
Lemma feed_section sa s c ps c' :
  sa_pid sa = pid -> valid_section s -> byteAt s 0 <> 0xff -> 0 <= c < 16 ->
  packetizeSection pid s c = Ret (ps, c') ->
  0 <= c' < 16 /\ exists sa', feedPackets sa ps = Ret (sa', [s]) /\ sa_pid sa' = pid.
Proof.
  intros Hsa Hs Hff Hc Hps. destruct (packetizeSection_shape s c Hc) as (qs & c1 & E & Hc1 & Hqs).
  rewrite Hps in E. injection E as -> ->. split; [done|].
  pose proof Hs as (Hb & H4 & Ht & _).
  destruct (sectionPacket_view c true s Hc Hb) as (V0 & V1 & V2 & V3 & V4 & V5 & V6).
  destruct (counter_header c Hc) as (_ & _ & _ & Hc').
  cbn [feedPackets]. rewrite FeedAll_eq, V1, V2, V3, V4, V5, V6, packetBody_length by done.
  change (Z.of_nat 184 =? 0) with false. rewrite Hsa, Z.eqb_refl. cbn [negb orb]. unfold packetBody. cbn [app length].
  set (sa0 := resumed sa c). assert (sa_pid sa0 = pid) as Hsa0.
  { unfold sa0, resumed. by destruct (_ && _). }
  unfold feedStart. rewrite idx_byteAt, slice_from by (simpl; lia). cbn [mbind go_bind].
  change (byteAt (0 :: _) 0) with 0. rewrite andb_false_r. cbn [drop Z.to_nat Pos.to_nat].
  rewrite (proj2 (Z.ltb_ge _ 0)) by lia. cbn [mbind go_bind].
  rewrite slice_from by lia. cbn [mbind go_bind].
  change (drop (Z.to_nat 0) (drop (Z.to_nat 1) (0 :: ?l))) with l.
  destruct (decide (length s <= 183)%nat) as [Hle|Hgt].
  - rewrite take_ge by done. rewrite consumePayload_one by done. cbn [mbind go_bind].
    rewrite drop_ge in Hqs by done. inversion Hqs; subst; [|done].
    by exists (discard sa0).
  - rewrite length_take, Nat.min_l, Nat.sub_diag, app_nil_r by lia.
    rewrite consumePayload_short.
    2: { rewrite totalOf_take, length_take by lia. lia. }
    2: { by rewrite byteAt_take by lia. }
    cbn [mbind go_bind].
    destruct (feed_continued s _ _ _ Hqs Hs Hc') with
      (sa := withExpecting (withBuffer (discard sa0) (take 183 s)) true) as (sa' & -> & Hp).
    + intros Hnil. apply (f_equal length) in Hnil. rewrite length_drop in Hnil. simpl in Hnil. lia.
    + done.
    + done.
    + unfold sa0, resumed. by destruct (_ && _).
    + simpl. rewrite length_take. lia.
    + simpl. apply take_drop.
    + by exists sa'.
Qed.
End packets.

Lemma feedPackets_app sa ps qs :
  feedPackets sa (ps ++ qs) =
    ('(sa, l) ← feedPackets sa ps; '(sa, m) ← feedPackets sa qs; Ret (sa, l ++ m)).
Proof.
  revert sa. induction ps as [|p ps IH]; intros sa; cbn [app feedPackets].
  { cbn. by destruct (feedPackets sa qs) as [[? ?]| | |]. }
  destruct (FeedAll sa p) as [[sa1 l1]| | |]; cbn [mbind go_bind]; try done.
  rewrite IH. destruct (feedPackets sa1 ps) as [[sa2 l2]| | |]; cbn [mbind go_bind]; try done.
  destruct (feedPackets sa2 qs) as [[sa3 l3]| | |]; cbn [mbind go_bind]; try done.
  by rewrite app_assoc.
Qed.

(** A section that can travel: valid, and with a table_id that is not the
    stuffing byte. *)
Definition sendable (s : Section_) : Prop := valid_section s /\ byteAt s 0 <> 0xff.

Lemma feed_sections pid sections c sa :
  0 <= pid < 8192 -> 0 <= c < 16 -> Forall sendable sections -> sa_pid sa = pid ->
  exists ps c' sa', packetizeSections pid sections c = Ret (ps, c')
    /\ feedPackets sa ps = Ret (sa', sections).
Proof.
  intros Hpid Hc Hs. revert c sa Hc.
  induction Hs as [|s sections [Hs Hff] _ IH]; intros c sa Hc Hsa.
  { by exists [], c, sa. }
  destruct (packetizeSection_shape pid s c Hc) as (ps & c1 & E & _ & _).
  destruct (feed_section pid Hpid sa s c _ c1 Hsa Hs Hff Hc E) as (Hc1 & sa1 & Hf & Hsa1).
  destruct (IH c1 sa1 Hc1 Hsa1) as (qs & c2 & sa2 & E2 & Hf2).
  eexists _, c2, sa2. cbn [packetizeSections]. rewrite E. cbn [mbind go_bind]. rewrite E2.
  split; [done|]. rewrite feedPackets_app, Hf. cbn [mbind go_bind]. by rewrite Hf2.
Qed.

(** A body with its checksum appended, as the encoder seals a section. *)
Definition seal (body : bytes) : Section_ := body ++ be32 (crc32MPEG2 body).

Lemma seal_valid body :
  bytes_ok body -> 3 <= len body -> totalOf body = len body + 4 -> valid_section (seal body).
Proof.
  intros Hb H3 Ht. unfold seal. split_and!.
  - apply bytes_ok_app; [done|apply bytes_ok_be32].
  - rewrite length_app. cbn [be32 length]. lia.
  - rewrite totalOf_app, length_app by done. cbn [be32 length]. lia.
  - by apply crc_residue.
Qed.

(** ** Properties *)

(** A body sealed with its own big-endian CRC-32/MPEG-2 passes
    [ValidateCRC], whatever its bytes, when its length field counts the body
    and the checksum. *)
Theorem sealed_section_validates (body : bytes) (Hbody : bytes_ok body)
    (H3 : 3 <= len body) (Htotal : totalOf body = len body + 4) :
  ValidateCRC (body ++ be32 (crc32MPEG2 body)) = Ret true.
Proof. by apply ValidateCRC_valid, seal_valid. Qed.

Lemma sealed_section_validates_witness :
  ValidateCRC ([0x02; 0xb0; 0x05; 0xaa] ++ be32 (crc32MPEG2 [0x02; 0xb0; 0x05; 0xaa]))
    = Ret true.
Proof.
  apply sealed_section_validates; [|vm_compute; discriminate|reflexivity].
  repeat constructor; unfold byte_ok; lia.
Defined.

(** C28: Damage confined to four consecutive bytes is always detected: a valid
    section in which a burst of at most four bytes is replaced by other bytes,
    its announced length unchanged, fails [ValidateCRC]. *)
Theorem damaged_section_rejected (p w w' q : bytes)
    (Hs : valid_section (p ++ w ++ q)) (Hw' : bytes_ok w')
    (Hlen : length w' = length w) (Hburst : (length w <= 4)%nat) (Hdiff : w' <> w)
    (Htotal : totalOf (p ++ w' ++ q) = totalOf (p ++ w ++ q)) :
  ValidateCRC (p ++ w' ++ q) = Ret false.
Proof.
  pose proof Hs as (Hb & H4 & Ht & Hc).
  apply Forall_app in Hb as [Hp Hb]. apply Forall_app in Hb as [Hw Hq].
  assert (len (p ++ w' ++ q) = len (p ++ w ++ q)) as E by (rewrite !length_app; lia).
  rewrite ValidateCRC_exact by lia. f_equal. apply andb_false_intro2, Z.eqb_neq. intros H0.
  apply Hdiff. symmetry. apply (crc_burst p w w' q); auto. congruence.
Qed.

Lemma damaged_section_rejected_witness :
  ValidateCRC ([0x02; 0xb0; 0x05] ++ [0xab]
    ++ be32 (crc32MPEG2 [0x02; 0xb0; 0x05; 0xaa])) = Ret false.
Proof.
  apply (damaged_section_rejected [0x02; 0xb0; 0x05] [0xaa] [0xab]).
  - apply (seal_valid [0x02; 0xb0; 0x05; 0xaa]);
      [repeat constructor; unfold byte_ok; lia|vm_compute; discriminate|reflexivity].
  - repeat constructor; unfold byte_ok; lia.
  - reflexivity.
  - vm_compute. lia.
  - discriminate.
  - reflexivity.
Defined.

(** Whatever packets an assembler is fed, from a new assembler on, it
    neither panics nor loops, and every section it returns has exactly the
    length its header announces, at least four bytes and a zero checksum
    residue. *)
Theorem assembler_emits_only_valid_sections (pid : Z) (ps : list Packet)
    (Hps : Forall packet_ok ps) :
  wp (feedPackets (NewSectionAssembler pid) ps) (fun '(sa, sections) =>
    Forall valid_section sections).
Proof.
  eapply wp_mono; [apply feedPackets_sound; [|done]|by intros [sa l] (? & ? & ?)].
  split; simpl; auto with bytes. lia.
Qed.

Lemma assembler_emits_only_valid_sections_witness :
  wp (feedPackets (NewSectionAssembler 0x11)
        [0x47 :: 0x40 :: 0x11 :: 0x10 :: 0 :: replicate 183 0x42])
    (fun '(sa, sections) => Forall valid_section sections).
Proof.
  apply assembler_emits_only_valid_sections.
  repeat constructor; unfold byte_ok; try lia.
Defined.

(** C27: cutting any list of valid sections (no table_id 0xff) into the packets
    of a PID, with the continuity counter running on, terminates, and feeding
    those packets returns exactly those sections in order, whatever the
    assembler had received before: a stale partial section or a continuity
    break never costs a later complete section. *)
Theorem sections_survive_packetizing (pid c : Z) (sections : list Section_)
    (sa : SectionAssembler) (Hpid : 0 <= pid < 8192) (Hc : 0 <= c < 16)
    (Hs : Forall sendable sections) (Hsa : sa_pid sa = pid) :
  exists ps c' sa', packetizeSections pid sections c = Ret (ps, c')
    /\ feedPackets sa ps = Ret (sa', sections).
Proof. by apply feed_sections. Qed.

(** A 300-byte section needs two packets; the assembler starts in the middle
    of another one. *)
Lemma sections_survive_packetizing_witness :
  let s := seal ([0x42; 0xb1; 0x29] ++ replicate 293 7) in
  exists ps c' sa', packetizeSections 0x11 [s; s] 15 = Ret (ps, c')
    /\ feedPackets (mkSectionAssembler 0x11 [1; 2; 3; 4] 3 true []) ps = Ret (sa', [s; s]).
Proof.
  intros s. apply sections_survive_packetizing; [lia|lia| |reflexivity].
  assert (sendable s) as Hs.
  { split; [|vm_compute; discriminate]. apply seal_valid.
    - apply bytes_ok_app; [repeat constructor; unfold byte_ok; lia|].
      apply bytes_ok_replicate. unfold byte_ok. lia.
    - vm_compute. discriminate.
    - reflexivity. }
  apply Forall_cons; split; [assumption|]. apply Forall_cons; split; [assumption|constructor].
Defined.

(** The single-section interface loses input: while sections wait in
    [pending], [Feed] returns the oldest one and ignores the packet it is
    given, whatever that packet carries. *)
Theorem Feed_ignores_packet_while_pending (sa : SectionAssembler) (section : Section_)
    (rest : list Section_) (p q : Packet) (Hpending : sa_pending sa = section :: rest) :
  Feed sa p = Ret (withPending sa rest, Some section) /\ Feed sa q = Feed sa p.
Proof. unfold Feed. by rewrite Hpending. Qed.

Lemma Feed_ignores_packet_while_pending_witness :
  Feed (mkSectionAssembler 0x11 [] 0 false [[1]; [2]]) []
    = Ret (withPending (mkSectionAssembler 0x11 [] 0 false [[1]; [2]]) [[2]], Some [1])
  /\ Feed (mkSectionAssembler 0x11 [] 0 false [[1]; [2]]) [3]
    = Feed (mkSectionAssembler 0x11 [] 0 false [[1]; [2]]) [].
Proof. apply Feed_ignores_packet_while_pending. reflexivity. Defined.
