(* ===== verification/PacketReader.v ===== *)
(** * Packet reader (ts/packet.go, [PacketReader])

    Reads packets from an [io.Reader], recovering synchronisation and the
    packet stride (188, 192 or 204 bytes).  The reader is the script of the
    results its [Read] calls return, of any length; once the script is used up
    every [Read] returns [io.EOF].  Theorems: on every script the reader
    returns (no panic, no endless loop), what it returns is a slice of the
    input that starts with the sync byte and the rest of the input stays
    available; on a clean stream it returns exactly the packets written,
    however the input is cut into reads. *)

From S2P Require Import Prelude Packet.

(** One [Read]: the bytes put in the buffer and the error returned with them. *)
Abbreviation reader := (list (bytes * option error)).

Record PacketReader := mkPacketReader {
  pr_r : reader;
  pr_buf : bytes;
  pr_stride : Z;
  pr_syncLosses : Z;
  pr_readErr : option error
}.

(** The length of [pr.tmp]. *)
Definition tmpSize : Z := 4096.

Definition NewPacketReader (r : reader) : PacketReader := mkPacketReader r [] 0 0 None.

Definition withBuf (pr : PacketReader) (buf : bytes) : PacketReader :=
  mkPacketReader (pr_r pr) buf (pr_stride pr) (pr_syncLosses pr) (pr_readErr pr).
Definition withStride (pr : PacketReader) (stride : Z) : PacketReader :=
  mkPacketReader (pr_r pr) (pr_buf pr) stride (pr_syncLosses pr) (pr_readErr pr).

Definition loseSync (pr : PacketReader) : PacketReader :=
  mkPacketReader (pr_r pr) (pr_buf pr) 0 (u64 (pr_syncLosses pr + 1)) (pr_readErr pr).

Definition minDetectBytes : Z := 4 * packetSizeWithParity.

(** The loop of [fill] while [pr.readErr == nil]; [pr.tmp[:n]] panics on an
    [io.Reader] that claims more bytes than it was given room for. *)
Fixpoint fillLoop (r : reader) (buf : bytes) (min : Z) : go (reader * bytes * option error) :=
  if len buf <? min then
    match r with
    | [] => Ret ([], buf, Some ErrEOF)
    | (chunk, err) :: r =>
        if tmpSize <? len chunk then Panic
        else
          let buf := if 0 <? len chunk then buf ++ chunk else buf in
          match err with
          | Some e => Ret (r, buf, Some e)
          | None => if len chunk =? 0 then Ret (r, buf, None) else fillLoop r buf min
          end
    end
  else Ret (r, buf, None).

Definition fill (pr : PacketReader) (min : Z) : go (PacketReader * option error) :=
  pr ← match pr_readErr pr with
       | Some _ => Ret pr
       | None =>
           '(r, buf, e) ← fillLoop (pr_r pr) (pr_buf pr) min;
           Ret (mkPacketReader r buf (pr_stride pr) (pr_syncLosses pr) e)
       end;
  if len (pr_buf pr) =? 0 then Ret (pr, pr_readErr pr) else Ret (pr, None).

Definition isErr {A} (o : option A) : bool := match o with Some _ => true | None => false end.

(** The sync bytes of up to three following packets. *)
Definition syncTurn (pr : PacketReader) (stride : Z) (s : Z * Z) : go (iteration (Z * Z) bool) :=
  let '(next, checks) := s in
  if (next <? len (pr_buf pr)) && (checks <? 3) then
    b ← idx (pr_buf pr) next;
    if negb (b =? SyncByte) then Ret (Break false)
    else Ret (Continue (next + stride, checks + 1))
  else Ret (Break ((0 <? checks) || isErr (pr_readErr pr))).

Definition checkSync (pr : PacketReader) (stride next : Z) : go bool :=
  loop 4 (syncTurn pr stride) (next, 0).

Definition packetReadyAt (pr : PacketReader) (pos stride : Z) : go (PacketReader * bool) :=
  let syncOffset := if stride =? packetSizeWithTimestamp then 4 else 0 in
  unsynced ← Ret (len (pr_buf pr) <=? pos + syncOffset)
    ||! (b ← idx (pr_buf pr) (pos + syncOffset); Ret (negb (b =? SyncByte)));
  if (unsynced : bool) then Ret (pr, false)
  else
    pr ← (if len (pr_buf pr) - pos <? stride
          then match pr_readErr pr with
               | None => '(pr, _) ← fill pr (pos + stride); Ret pr
               | Some _ => Ret pr
               end
          else Ret pr);
    if len (pr_buf pr) - pos <? stride then Ret (pr, false)
    else
      ok ← checkSync pr stride (pos + stride + syncOffset);
      Ret (pr, ok).

(** The loop over the strides at one position. *)
Fixpoint detectStride (pr : PacketReader) (pos : Z) (strides : list Z) :
    go (PacketReader * option Z) :=
  match strides with
  | [] => Ret (pr, None)
  | stride :: strides =>
      '(pr, ok) ← packetReadyAt pr pos stride;
      if (ok : bool) then Ret (pr, Some stride) else detectStride pr pos strides
  end.

Definition strides : list Z := [PacketSize; packetSizeWithTimestamp; packetSizeWithParity].

(** Everything the reader will ever deliver: reading stops at the first error. *)
Fixpoint scriptBytes (r : reader) : bytes :=
  match r with
  | [] => []
  | (chunk, Some _) :: _ => chunk
  | (chunk, None) :: r => chunk ++ scriptBytes r
  end.

Definition stream (pr : PacketReader) : bytes :=
  pr_buf pr ++ match pr_readErr pr with Some _ => [] | None => scriptBytes (pr_r pr) end.

(** [detectPacket]: the position and stride of the first packet.  The loop runs
    at most once per byte the input still holds. *)
Definition detectPacket (pr : PacketReader) : go (PacketReader * option (Z * Z)) :=
  loop (S (length (stream pr)))
    (fun '(pr, pos) =>
      if pos <? len (pr_buf pr) then
        '(pr, found) ← detectStride pr pos strides;
        match found with
        | Some stride => Ret (Break (pr, Some (pos, stride)))
        | None => Ret (Continue (pr, pos + 1))
        end
      else Ret (Break (pr, None)))
    (pr, 0).

Definition consumePacketInto (pr : PacketReader) (dst : bytes) (pos stride : Z) :
    go (PacketReader * Packet) :=
  let start := if stride =? packetSizeWithTimestamp then pos + 4 else pos in
  let end_ := if stride =? packetSizeWithParity then pos + PacketSize else pos + stride in
  packet ← sliceTo dst PacketSize;
  src ← slice (pr_buf pr) start end_;
  remaining ← sliceFrom (pr_buf pr) (pos + stride);
  Ret (withBuf pr remaining, gocopy packet src).

(** [bytes.LastIndexByte] *)
Fixpoint lastIndexByte (l : bytes) (c : Z) : Z :=
  match l with
  | [] => -1
  | b :: l =>
      let i := lastIndexByte l c in
      if 0 <=? i then i + 1 else if b =? c then 0 else -1
  end.

Definition dropGarbage (pr : PacketReader) : go PacketReader :=
  let i := lastIndexByte (pr_buf pr) SyncByte in
  if 0 <? i then buf ← sliceFrom (pr_buf pr) i; Ret (withBuf pr buf) else Ret pr.

(** One turn of the loop of [NextInto]; [inl] is the error returned. *)
Definition nextTurn (dst : bytes) (pr : PacketReader) :
    go (iteration PacketReader (PacketReader * (error + Packet))) :=
  '(pr, err) ← fill pr minDetectBytes;
  match err with
  | Some e => Ret (Break (pr, inl e))
  | None =>
      if len (pr_buf pr) =? 0 then Ret (Break (pr, inl ErrEOF))
      else
        '(pr, ready) ← (if negb (pr_stride pr =? 0)
                        then packetReadyAt pr 0 (pr_stride pr)
                        else Ret (pr, false));
        if (ready : bool) then
          '(pr, p) ← consumePacketInto pr dst 0 (pr_stride pr);
          Ret (Break (pr, inr p))
        else
          let pr := if negb (pr_stride pr =? 0) then loseSync pr else pr in
          '(pr, found) ← detectPacket pr;
          match found with
          | Some (pos, stride) =>
              '(pr, p) ← consumePacketInto (withStride pr stride) dst pos stride;
              Ret (Break (pr, inr p))
          | None =>
              match pr_readErr pr with
              | Some e => Ret (Break (pr, inl e))
              | None =>
                  pr ← dropGarbage pr;
                  '(pr, err) ← fill pr (len (pr_buf pr) + minDetectBytes);
                  match err with
                  | Some e => Ret (Break (pr, inl e))
                  | None => Ret (Continue pr)
                  end
              end
          end
  end.

(** A turn that continues has read from the input, so the turns are bounded by
    the script's length. *)
Definition NextInto (pr : PacketReader) (dst : bytes) : go (PacketReader * (error + Packet)) :=
  if len dst <? PacketSize then Ret (pr, inl ErrShortBuffer)
  else loop (2 + length (pr_r pr)) (nextTurn dst) pr.

Definition Next (pr : PacketReader) : go (PacketReader * (error + Packet)) :=
  NextInto pr (replicate 188 0).

(** Up to [n] packets in a row, until the first error. *)
Fixpoint nextN (n : nat) (pr : PacketReader) : go (PacketReader * list Packet * option error) :=
  match n with
  | O => Ret (pr, [], None)
  | S n =>
      '(pr, x) ← Next pr;
      match x with
      | inl e => Ret (pr, [], Some e)
      | inr p => '(pr, ps, e) ← nextN n pr; Ret (pr, p :: ps, e)
      end
  end.

Definition SyncLosses (pr : PacketReader) : Z := pr_syncLosses pr.
Definition PacketStride (pr : PacketReader) : Z := pr_stride pr.

(** Errors are values here: no function stops with one. *)
Lemma fillLoop_errorless r : forall buf min, errorless (fillLoop r buf min).
Proof. induction r as [|[c e] r IH]; intros; simpl; errorless. Qed.

#[local] Hint Resolve fillLoop_errorless : errorless.

Lemma fill_errorless pr min : errorless (fill pr min).
Proof. unfold fill. errorless. Qed.

#[local] Hint Resolve fill_errorless : errorless.

Lemma packetReadyAt_errorless pr pos stride : errorless (packetReadyAt pr pos stride).
Proof. unfold packetReadyAt, checkSync, syncTurn. errorless. Qed.

#[local] Hint Resolve packetReadyAt_errorless : errorless.

Lemma detectStride_errorless l pos : forall pr, errorless (detectStride pr pos l).
Proof. induction l as [|st l IH]; intros; simpl; errorless. Qed.

#[local] Hint Resolve detectStride_errorless : errorless.

Lemma NextInto_errorless pr dst : errorless (NextInto pr dst).
Proof. unfold NextInto, nextTurn, detectPacket, dropGarbage, consumePacketInto. errorless. Qed.

(** ** What reading preserves *)

(** The contract of [io.Reader]: no [Read] returns more than it was given room
    for, and what it returns are bytes. *)
Definition reader_ok (r : reader) : Prop :=
  Forall (fun '(chunk, _) => len chunk <= tmpSize) r.

Definition stride_ok (stride : Z) : Prop := stride = 188 \/ stride = 192 \/ stride = 204.

Definition pr_ok (pr : PacketReader) : Prop :=
  reader_ok (pr_r pr) /\ bytes_ok (stream pr) /\ (pr_stride pr = 0 \/ stride_ok (pr_stride pr)).

(** [Read] calls that can still happen. *)
Definition reads (pr : PacketReader) : Z :=
  match pr_readErr pr with Some _ => 0 | None => 1 + len (pr_r pr) end.

(** [pr'] is [pr] after some reads: nothing of the input is lost. *)
Definition reading (pr pr' : PacketReader) : Prop :=
  pr_ok pr' /\ stream pr' = stream pr /\ (exists more, pr_buf pr' = pr_buf pr ++ more)
  /\ pr_stride pr' = pr_stride pr /\ pr_syncLosses pr' = pr_syncLosses pr
  /\ reads pr' <= reads pr.

Lemma reading_refl pr : pr_ok pr -> reading pr pr.
Proof. intros. split_and!; try done. exists []. by rewrite app_nil_r. Qed.

Lemma reading_trans pr1 pr2 pr3 : reading pr1 pr2 -> reading pr2 pr3 -> reading pr1 pr3.
Proof.
  intros (? & ? & [m ?] & ? & ? & ?) (? & ? & [m' ?] & ? & ? & ?).
  split_and!; [done|congruence| |congruence..|lia].
  exists (m ++ m'). rewrite app_assoc. congruence.
Qed.

Lemma reading_len pr pr' : reading pr pr' -> len (pr_buf pr) <= len (pr_buf pr').
Proof. intros (_ & _ & [m ->] & _). rewrite length_app. lia. Qed.

Lemma buf_ok pr : pr_ok pr -> bytes_ok (pr_buf pr).
Proof. intros (_ & H & _). by apply Forall_app in H as [? _]. Qed.

Lemma buf_len pr : len (pr_buf pr) <= len (stream pr).
Proof. unfold stream. rewrite length_app. lia. Qed.

Lemma reading_byteAt pr pr' i :
  reading pr pr' -> 0 <= i < len (pr_buf pr) -> byteAt (pr_buf pr') i = byteAt (pr_buf pr) i.
Proof. intros (_ & _ & [m ->] & _) Hi. by apply byteAt_app. Qed.

#[local] Hint Resolve reading_refl buf_ok : bytes.

(** What [fillLoop] does to the script: it takes a prefix off it, appends it to
    the buffer, and stops at the first error. *)
Lemma fillLoop_spec r min : reader_ok r -> forall buf,
  wp (fillLoop r buf min) (fun '(r', buf', e) =>
    reader_ok r' /\ (exists more, buf' = buf ++ more)
    /\ buf ++ scriptBytes r = buf' ++ match e with Some _ => [] | None => scriptBytes r' end
    /\ match e with
       | Some _ => True
       | None => len r' <= len r /\ (len buf < min -> len r' < len r)
                 /\ (Forall (fun '(c, _) => c <> []) r -> min <= len buf')
       end).
Proof.
  induction 1 as [|[chunk err] r Hc Hr IH]; intros buf; simpl;
    (destruct (Z.ltb_spec (len buf) min); simpl;
     [|split_and!; [done || by constructor|exists []; by rewrite app_nil_r|done|lia..]]).
  { split_and!; [constructor|exists []; by rewrite app_nil_r|done|done]. }
  destruct (Z.ltb_spec tmpSize (len chunk)); [lia|].
  replace (if 0 <? len chunk then buf ++ chunk else buf) with (buf ++ chunk).
  2:{ destruct chunk; simpl; [apply app_nil_r|done]. }
  destruct err as [e|]; simpl.
  { split_and!; [done|by exists chunk|by rewrite app_nil_r|done]. }
  destruct (Z.eqb_spec (len chunk) 0) as [E|E]; simpl.
  - destruct chunk; [|done]. rewrite !app_nil_r. split_and!; [done|exists []; by rewrite app_nil_r|done|lia..|].
    intros Hne. by inversion_clear Hne.
  - eapply wp_mono; [apply IH|]. intros [[r' buf'] e] (Hr' & [more ->] & Hs & He).
    rewrite <- app_assoc in Hs. split_and!; [done|exists (chunk ++ more); by rewrite app_assoc|done|].
    destruct e; [done|]. destruct He as (? & ? & Hmin). split_and!; [lia|lia|].
    intros Hne. inversion_clear Hne. auto.
Qed.

Lemma fill_spec pr min :
  pr_ok pr ->
  wp (fill pr min) (fun '(pr', e) =>
    reading pr pr' /\ (e = if len (pr_buf pr') =? 0 then pr_readErr pr' else None)
    /\ (pr_readErr pr = None -> len (pr_buf pr) < min -> reads pr' < reads pr)
    /\ (Forall (fun '(c, _) => c <> []) (pr_r pr) -> pr_readErr pr' = None ->
        min <= len (pr_buf pr'))).
Proof.
  intros Hok. pose proof Hok as (Hr & Hs & Hst). unfold fill.
  destruct (pr_readErr pr) as [e|] eqn:Ee; apply wp_bind.
  - apply wp_ret. cbv beta. destruct (_ =? 0) eqn:E0; simpl; rewrite E0; (conjs; [by apply reading_refl|done|done|congruence]).
  - apply wp_bind. eapply wp_mono; [by apply fillLoop_spec|].
    intros [[r' buf'] e] (Hr' & [more Hb] & Hstr & He). apply wp_ret.
    assert (reading pr (mkPacketReader r' buf' (pr_stride pr) (pr_syncLosses pr) e)) as Hrd.
    { assert (stream (mkPacketReader r' buf' (pr_stride pr) (pr_syncLosses pr) e) = stream pr) as Es.
      { unfold stream. simpl. by rewrite Ee. }
      split_and!; [|done|by exists more|done..|].
      - split_and!; [done|by rewrite Es|done].
      - unfold reads. rewrite Ee. simpl. destruct e; lia. }
    unfold reads. rewrite Ee. simpl.
    destruct (_ =? 0) eqn:E0; simpl; rewrite E0; (conjs; [done|done|destruct e; lia|]);
      intros Hne ->; destruct He as (_ & _ & He); auto.
Qed.

Lemma checkSync_safe pr stride next :
  bytes_ok (pr_buf pr) -> 0 <= next -> 0 < stride -> safe (checkSync pr stride next).
Proof.
  intros Hb Hn Hs. unfold checkSync.
  apply (wp_loop (fun '(next, checks) => 0 <= next /\ 0 <= checks <= 3) (fun '(_, checks) => 3 - checks));
    [|lia..]. intros [n c] [Hn' Hc]. unfold syncTurn. go_run; try done; lia.
Qed.

(** A packet is reported at [pos] only when the buffer holds its whole stride
    and its sync byte. *)
Definition syncOffset (stride : Z) : Z := if stride =? packetSizeWithTimestamp then 4 else 0.

Lemma syncOffset_stride stride : stride_ok stride ->
  0 <= syncOffset stride /\ syncOffset stride + 188 <= stride
  /\ stride <= syncOffset stride + 204.
Proof. unfold syncOffset. by intros [->|[->| ->]]. Qed.

Definition packetAt (pr : PacketReader) (pos stride : Z) : Prop :=
  0 <= pos /\ pos + stride <= len (pr_buf pr)
  /\ byteAt (pr_buf pr) (pos + syncOffset stride) = SyncByte.

Lemma packetReadyAt_spec pr pos stride :
  pr_ok pr -> 0 <= pos -> stride_ok stride ->
  wp (packetReadyAt pr pos stride) (fun '(pr', ok) =>
    reading pr pr' /\ (ok = true -> packetAt pr' pos stride)).
Proof.
  intros Hok Hpos Hst. unfold packetReadyAt. fold (syncOffset stride).
  destruct (syncOffset_stride stride Hst) as (Ho & Ho' & _).
  apply wp_bind, wp_goor, wp_ret. cbv beta.
  destruct (Z.leb_spec (len (pr_buf pr)) (pos + syncOffset stride)).
  { simpl. split; [by apply reading_refl|done]. }
  rewrite idx_byteAt by lia. cbn [mbind go_bind wp].
  destruct (negb _) eqn:Esync; simpl; [split; [by apply reading_refl|done]|]. bools.
  apply wp_bind. apply (wp_mono _ (reading pr)).
  { destruct (_ <? _); [|by apply reading_refl].
    destruct (pr_readErr pr); [by apply reading_refl|].
    apply wp_bind. eapply wp_mono; [by apply fill_spec|]. by intros [? ?] [? _]. }
  intros pr' Hrd. destruct (Z.ltb_spec (len (pr_buf pr') - pos) stride); [by split|].
  apply wp_bind. eapply wp_mono; [apply checkSync_safe|].
  - destruct Hrd as [? _]. by apply buf_ok.
  - lia.
  - lia.
  - intros ok _. split; [done|]. intros _. split_and!; [lia..|].
    rewrite (reading_byteAt pr pr'); [done..|lia].
Qed.

Lemma detectStride_spec pos l : Forall stride_ok l -> 0 <= pos -> forall pr, pr_ok pr ->
  wp (detectStride pr pos l) (fun '(pr', found) =>
    reading pr pr' /\ match found with
                      | Some stride => stride_ok stride /\ packetAt pr' pos stride
                      | None => True
                      end).
Proof.
  intros Hl Hpos. induction Hl as [|stride l Hst _ IH]; intros pr Hok; simpl.
  { split; [by apply reading_refl|done]. }
  apply wp_bind. eapply wp_mono; [by apply packetReadyAt_spec|].
  intros [pr' ok] [Hrd Hp]. destruct ok; simpl; [auto|].
  eapply wp_mono; [apply IH; by destruct Hrd|]. intros [pr'' found] [Hrd' Hf].
  split; [by eapply reading_trans|done].
Qed.

Lemma strides_ok : Forall stride_ok strides.
Proof. unfold strides, stride_ok. repeat (apply Forall_cons; split; [tauto|]). constructor. Qed.

Lemma detectPacket_spec pr :
  pr_ok pr ->
  wp (detectPacket pr) (fun '(pr', found) =>
    reading pr pr' /\ match found with
                      | Some (pos, stride) => stride_ok stride /\ packetAt pr' pos stride
                      | None => True
                      end).
Proof.
  intros Hok. unfold detectPacket.
  apply (wp_loop (fun '(pr', pos) => reading pr pr' /\ 0 <= pos <= len (pr_buf pr'))
    (fun '(_, pos) => len (stream pr) - pos)).
  - intros [pr' pos] [Hrd Hpos]. destruct (Z.ltb_spec pos (len (pr_buf pr'))); [|by split].
    apply wp_bind. eapply wp_mono.
    { apply detectStride_spec; [apply strides_ok|lia|by destruct Hrd]. }
    intros [pr'' found] [Hrd' Hf]. pose proof (reading_trans _ _ _ Hrd Hrd') as Hrd''.
    destruct found as [stride|]; simpl; [done|].
    pose proof (reading_len _ _ Hrd'). pose proof (buf_len pr'').
    destruct Hrd'' as (? & Es & ?). rewrite Es in *. conjs; try done; lia.
  - split; [by apply reading_refl|lia].
  - lia.
  - lia.
Qed.

(** Taking the packet: the input is what was skipped, the packet, what follows
    it inside its stride, and the rest. *)
Definition taken (pr pr' : PacketReader) (p : Packet) : Prop :=
  packet_ok p /\ byteAt p 0 = SyncByte
  /\ exists skipped trailer, stream pr = skipped ++ p ++ trailer ++ stream pr'
     /\ len trailer <= 16.

Lemma consumePacketInto_spec pr dst pos stride :
  pr_ok pr -> PacketSize <= len dst -> stride_ok stride -> packetAt pr pos stride ->
  wp (consumePacketInto pr dst pos stride) (fun '(pr', p) =>
    taken pr pr' p /\ pr_r pr' = pr_r pr /\ pr_stride pr' = pr_stride pr
    /\ p = take 188 (drop (Z.to_nat (pos + syncOffset stride)) (pr_buf pr))
    /\ pr_buf pr' = drop (Z.to_nat (pos + stride)) (pr_buf pr)
    /\ pr_readErr pr' = pr_readErr pr /\ pr_syncLosses pr' = pr_syncLosses pr).
Proof.
  intros Hok Hdst Hst (Hpos & Hlen & Hsync). unfold consumePacketInto.
  destruct (syncOffset_stride stride Hst) as (Ho & Ho' & Ho'').
  set (start := pos + syncOffset stride).
  assert (slice (pr_buf pr) (if stride =? packetSizeWithTimestamp then pos + 4 else pos)
    (if stride =? packetSizeWithParity then pos + PacketSize else pos + stride)
    = Ret (take 188 (drop (Z.to_nat start) (pr_buf pr)))) as E.
  { assert (forall a b, b = a + 188 -> a = start -> slice (pr_buf pr) a b
      = Ret (take 188 (drop (Z.to_nat start) (pr_buf pr)))) as Hsl.
    { intros a b -> ->. unfold slice.
      rewrite (proj2 (Z.leb_le 0 _)), (proj2 (Z.leb_le start _)), (proj2 (Z.leb_le _ (len _)))
        by (subst start; lia). simpl. f_equal. f_equal. lia. }
    apply Hsl; subst start; unfold syncOffset; destruct Hst as [->|[->| ->]];
      vm_compute (188 =? _); vm_compute (192 =? _); vm_compute (204 =? _); unfold PacketSize; lia. }
  apply wp_bind. rewrite (slice_0 dst) by (unfold PacketSize in *; lia).
  apply wp_ret. apply wp_bind. rewrite E. apply wp_ret. apply wp_bind.
  rewrite slice_from by lia. apply wp_ret, wp_ret.
  assert (length (take 188 (drop (Z.to_nat start) (pr_buf pr))) = 188%nat) as E188.
  { rewrite length_take, length_drop. subst start. lia. }
  rewrite gocopy_full by (rewrite E188, length_take; unfold PacketSize in *; lia).
  conjs; try done. pose proof (buf_ok pr Hok) as Hb. split_and!.
  - split; [by rewrite E188|auto with bytes].
  - rewrite byteAt_take by lia. unfold byteAt. rewrite lookup_drop.
    rewrite <- Hsync. unfold byteAt. do 2 f_equal. lia.
  - exists (take (Z.to_nat start) (pr_buf pr)),
      (take (Z.to_nat (pos + stride - (start + 188))) (drop (Z.to_nat (start + 188)) (pr_buf pr))).
    split; [|rewrite length_take, length_drop; subst start; lia].
    unfold stream. simpl. rewrite !app_assoc. f_equal.
    rewrite <- (take_drop (Z.to_nat start) (pr_buf pr)) at 1. rewrite <- !app_assoc. f_equal.
    rewrite <- (take_drop 188 (drop (Z.to_nat start) (pr_buf pr))) at 1. f_equal.
    rewrite !drop_drop. replace (Z.to_nat start + 188)%nat with (Z.to_nat (start + 188)) by lia.
    rewrite <- (take_drop (Z.to_nat (pos + stride - (start + 188))) (drop (Z.to_nat (start + 188)) (pr_buf pr))) at 1.
    f_equal. rewrite drop_drop. f_equal. lia.
Qed.

(** [pr'] is [pr] after skipping input and reading. *)
Definition skipping (pr pr' : PacketReader) : Prop :=
  pr_ok pr' /\ (exists skipped, stream pr = skipped ++ stream pr') /\ reads pr' <= reads pr.

Lemma reading_skipping pr pr' : reading pr pr' -> skipping pr pr'.
Proof. intros (? & E & _ & _ & _ & ?). split_and!; [done|by exists []|lia]. Qed.

Lemma skipping_trans pr1 pr2 pr3 : skipping pr1 pr2 -> skipping pr2 pr3 -> skipping pr1 pr3.
Proof.
  intros (? & [a Ea] & ?) (? & [b Eb] & ?). split_and!; [done| |lia].
  exists (a ++ b). rewrite Ea, Eb. by rewrite app_assoc.
Qed.

Lemma taken_skipping pr1 pr2 pr3 p : skipping pr1 pr2 -> taken pr2 pr3 p -> taken pr1 pr3 p.
Proof.
  intros (_ & [a Ea] & _) (? & ? & b & t & Eb & ?). split_and!; [done..|].
  exists (a ++ b), t. split; [|done]. rewrite Ea, Eb. by rewrite <- app_assoc.
Qed.

Lemma loseSync_skipping pr :
  pr_ok pr -> skipping pr (if negb (pr_stride pr =? 0) then loseSync pr else pr).
Proof.
  intros Hok. destruct (negb _); [|by apply reading_skipping, reading_refl].
  destruct Hok as (? & ? & ?). split_and!; [split_and!; auto|by exists []|unfold reads; simpl; lia].
Qed.

Lemma lastIndexByte_range l c : -1 <= lastIndexByte l c < len l \/ l = [].
Proof.
  induction l as [|b l IH]; [by right|]. left. simpl.
  destruct (Z.leb_spec 0 (lastIndexByte l c)), IH as [IH| ->]; simpl in *; try lia;
    destruct (b =? c); lia.
Qed.

Lemma dropGarbage_spec pr : pr_ok pr -> wp (dropGarbage pr) (fun pr' =>
  skipping pr pr' /\ pr_readErr pr' = pr_readErr pr /\ reads pr' = reads pr).
Proof.
  intros Hok. unfold dropGarbage. destruct (Z.ltb_spec 0 (lastIndexByte (pr_buf pr) SyncByte)).
  2:{ apply wp_ret. conjs; try done. by apply reading_skipping, reading_refl. }
  destruct (lastIndexByte_range (pr_buf pr) SyncByte) as [Hr|E]; [|rewrite E in H; simpl in H; lia].
  apply wp_bind. rewrite slice_from by lia. apply wp_ret, wp_ret. conjs; try done.
  set (n := Z.to_nat _).
  assert (stream pr = take n (pr_buf pr) ++ stream (withBuf pr (drop n (pr_buf pr)))) as E.
  { unfold stream. simpl. by rewrite app_assoc, take_drop. }
  destruct Hok as (? & Hb & ?). split_and!; [split_and!; try done| |unfold reads; simpl; lia].
  - rewrite E in Hb. by apply Forall_app in Hb as [_ ?].
  - by eexists.
Qed.

(** The outcome of a turn. *)
Definition turned (pr : PacketReader) (x : iteration PacketReader (PacketReader * (error + Packet))) : Prop :=
  match x with
  | Continue pr' => skipping pr pr' /\ 0 <= reads pr' < reads pr
  | Break (pr', inl _) => skipping pr pr'
  | Break (pr', inr p) => pr_ok pr' /\ taken pr pr' p
  end.

Lemma consumed_ok pr pr' p :
  pr_ok pr -> taken pr pr' p -> pr_r pr' = pr_r pr -> pr_stride pr' = pr_stride pr -> pr_ok pr'.
Proof.
  intros (Hr & Hb & Hst) (_ & _ & a & t & E & _) Er Es. unfold pr_ok. rewrite Er, Es.
  conjs; [done| |done].
  rewrite E in Hb. by do 3 (apply Forall_app in Hb as [_ Hb]).
Qed.

Lemma consume_turn pr0 pr dst pos stride :
  skipping pr0 pr -> PacketSize <= len dst -> stride_ok stride -> packetAt pr pos stride ->
  wp ('(pr, p) ← consumePacketInto (withStride pr stride) dst pos stride;
      Ret (Break (pr, inr p))) (turned pr0).
Proof.
  intros Hsk Hdst Hst Hp. apply wp_bind.
  assert (pr_ok (withStride pr stride)) as Hok'.
  { destruct Hsk as ((? & ? & _) & _). split_and!; auto. }
  eapply wp_mono; [by apply consumePacketInto_spec|].
  intros [pr' p] (Ht & Hr & Hs' & _). split; [by eapply consumed_ok|].
  by apply (taken_skipping pr0 pr).
Qed.

Lemma nextTurn_spec pr dst : pr_ok pr -> PacketSize <= len dst -> wp (nextTurn dst pr) (turned pr).
Proof.
  intros Hok Hdst. unfold nextTurn. apply wp_bind.
  eapply wp_mono; [by apply fill_spec|]. intros [pr1 e1] (Hrd1 & _).
  destruct e1 as [e|]; [by apply reading_skipping|].
  destruct (_ =? 0); [by apply reading_skipping|]. apply wp_bind.
  apply (wp_mono _ (fun '(pr2, ready) => reading pr pr2 /\
    (ready = true -> stride_ok (pr_stride pr2) /\ packetAt pr2 0 (pr_stride pr2)))).
  { pose proof Hrd1 as ((Hr1 & Hb1 & Hst1) & _).
    destruct (Z.eqb_spec (pr_stride pr1) 0) as [E|E]; simpl; [done|].
    destruct Hst1 as [?|Hst1]; [done|].
    eapply wp_mono; [apply packetReadyAt_spec; [by destruct Hrd1|lia|done]|]. intros [pr2 ok] [Hrd2 Hp].
    split; [by eapply reading_trans|]. destruct Hrd2 as (_ & _ & _ & -> & _). auto. }
  intros [pr2 ready] [Hrd2 Hp]. pose proof Hrd2 as (Hok2 & _). destruct ready.
  { destruct Hp as [Hst Hp]; [done|].
    replace pr2 with (withStride pr2 (pr_stride pr2)) at 1 by (by destruct pr2).
    apply consume_turn; [by apply reading_skipping|done..]. }
  cbv zeta. set (pr3 := if negb _ then _ else _).
  assert (skipping pr pr3) as Hsk3.
  { eapply skipping_trans; [by apply reading_skipping|by apply loseSync_skipping]. }
  apply wp_bind. eapply wp_mono; [apply detectPacket_spec; by destruct Hsk3|].
  intros [pr4 found] [Hrd4 Hf].
  assert (skipping pr pr4) as Hsk4 by (eapply skipping_trans; [done|by apply reading_skipping]).
  destruct found as [[pos stride]|]; [by destruct Hf; apply consume_turn|].
  destruct (pr_readErr pr4) as [e|] eqn:E4; [done|].
  apply wp_bind. eapply wp_mono; [apply dropGarbage_spec; by destruct Hsk4|].
  intros pr5 (Hsk5 & E5 & Hreads5). pose proof Hsk5 as (Hok5 & _).
  apply wp_bind. eapply wp_mono; [by apply fill_spec|].
  intros [pr6 e6] (Hrd6 & _ & Hless & _).
  pose proof (skipping_trans _ _ _ Hsk4 (skipping_trans _ _ _ Hsk5 (reading_skipping _ _ Hrd6))) as Hsk6.
  destruct e6 as [e|]; [done|]. split; [done|]. destruct Hsk4 as (_ & _ & Hr4).
  assert (reads pr6 < reads pr5) by (apply Hless; [congruence|unfold minDetectBytes, packetSizeWithParity; lia]).
  split; [|lia]. unfold reads. destruct (pr_readErr pr6); lia.
Qed.

Lemma NextInto_spec pr dst : pr_ok pr -> PacketSize <= len dst ->
  wp (NextInto pr dst) (fun '(pr', x) =>
    match x with
    | inl _ => skipping pr pr'
    | inr p => pr_ok pr' /\ taken pr pr' p
    end).
Proof.
  intros Hok Hdst. unfold NextInto. rewrite (proj2 (Z.ltb_ge _ _)) by done.
  apply (wp_loop (skipping pr) reads).
  - intros pr1 Hsk. eapply wp_mono; [apply nextTurn_spec; [by destruct Hsk|done]|].
    intros [pr'|[pr' [e|p]]]; simpl.
    + intros [? ?]. split; [by eapply skipping_trans|done].
    + intros ?. by eapply skipping_trans.
    + intros [? ?]. split; [done|by eapply taken_skipping].
  - by apply reading_skipping, reading_refl.
  - unfold reads. destruct (pr_readErr pr); lia.
  - unfold reads. destruct (pr_readErr pr); lia.
Qed.

(** ** A stream of packets and nothing else *)

Definition synced (p : Packet) : Prop := len p = 188 /\ byteAt p 0 = SyncByte.

(** Every [Read] delivers something and the stream ends in [io.EOF]. *)
Definition steady (r : reader) : Prop := Forall (fun '(c, e) => c <> [] /\ e = None) r.

Definition clean (pr : PacketReader) (ps : list Packet) : Prop :=
  pr_ok pr /\ stream pr = concat ps /\ steady (pr_r pr)
  /\ (pr_readErr pr = None \/ pr_readErr pr = Some ErrEOF)
  /\ (pr_stride pr = 0 \/ pr_stride pr = 188) /\ pr_syncLosses pr = 0.

Lemma fillLoop_steady r min : reader_ok r -> steady r -> forall buf,
  wp (fillLoop r buf min) (fun '(r', _, e) => steady r' /\ (e = None \/ e = Some ErrEOF)).
Proof.
  intros Hok. induction 1 as [|[c e] r [Hc ->] Hr IH]; intros buf; simpl.
  { case_match; (split; [constructor|auto]). }
  inversion_clear Hok as [|? ? Hlen Hok']. specialize (IH Hok').
  case_match; [|simpl; split; [by constructor|auto]].
  rewrite (proj2 (Z.ltb_ge _ _)) by done.
  destruct c; [done|]. simpl. apply IH.
Qed.

Lemma fill_steady pr min : pr_ok pr -> steady (pr_r pr) ->
  (pr_readErr pr = None \/ pr_readErr pr = Some ErrEOF) ->
  wp (fill pr min) (fun '(pr', _) => steady (pr_r pr')
    /\ (pr_readErr pr' = None \/ pr_readErr pr' = Some ErrEOF)).
Proof.
  intros (Hok & _) Hs He. unfold fill. apply wp_bind.
  apply (wp_mono _ (fun pr' => steady (pr_r pr')
    /\ (pr_readErr pr' = None \/ pr_readErr pr' = Some ErrEOF))).
  - destruct (pr_readErr pr) eqn:Ee; [apply wp_ret; by rewrite Ee|].
    apply wp_bind. eapply wp_mono; [by apply fillLoop_steady|]. by intros [[r b] e].
  - intros pr' H. by case_match.
Qed.

Lemma fill_clean pr ps min : clean pr ps ->
  returns (fill pr min) (fun '(pr', e) => clean pr' ps
    /\ (e = if len (pr_buf pr') =? 0 then pr_readErr pr' else None)
    /\ (pr_readErr pr' = None -> min <= len (pr_buf pr'))
    /\ pr_stride pr' = pr_stride pr).
Proof.
  intros (Hok & Es & Hst & He & Hstr & Hl). apply returns_wp; [apply fill_errorless|].
  eapply wp_mono; [apply wp_and; [by apply fill_spec|by apply fill_steady]|].
  intros [pr' e] [((Hok' & Es' & _ & Hst' & Hl' & _) & -> & _ & Hmin) [Hs' He']].
  conjs; [unfold clean; conjs; [done|congruence|done|done|by rewrite Hst'|congruence]|done| |done].
  apply Hmin. eapply Forall_impl; [exact Hst|]. by intros [c e] [? _].
Qed.

(** The sync bytes of a clean buffer. *)
Lemma concat_sync ps k : Forall synced ps -> 0 <= k -> 188 * k < len (concat ps) ->
  byteAt (concat ps) (188 * k) = SyncByte.
Proof.
  intros Hps. revert k. induction Hps as [|p ps [Hl Hs] _ IH]; intros k Hk Hlt; simpl in *; [lia|].
  rewrite length_app in Hlt. destruct (Z.eq_dec k 0) as [->|].
  { by rewrite byteAt_app by lia. }
  rewrite <- (IH (k - 1)) by lia. unfold byteAt. rewrite lookup_app_r by lia.
  do 2 f_equal. lia.
Qed.

Lemma checkSync_true pr stride next :
  0 <= next -> 0 < stride ->
  (forall k, 0 <= k -> next + k * stride < len (pr_buf pr) ->
     byteAt (pr_buf pr) (next + k * stride) = SyncByte) ->
  checkSync pr stride next = Ret ((next <? len (pr_buf pr)) || isErr (pr_readErr pr)).
Proof.
  intros Hn Hs Hsync. unfold checkSync.
  assert (forall n k, Z.of_nat n = 4 - k -> 0 <= k <= 3 ->
    loop n (syncTurn pr stride) (next + k * stride, k)
    = Ret ((0 <? k) || (next + k * stride <? len (pr_buf pr)) || isErr (pr_readErr pr))) as H.
  { induction n as [|n IH]; intros k Hk Hk3; [lia|]. rewrite loop_S. cbn [syncTurn].
    destruct (Z.ltb_spec (next + k * stride) (len (pr_buf pr))) as [Hlt|Hge]; cbn [andb mbind go_bind].
    2:{ by rewrite orb_false_r. }
    destruct (Z.ltb_spec k 3); cbn [mbind go_bind]; [|by rewrite (proj2 (Z.ltb_lt 0 k)) by lia].
    rewrite idx_byteAt, Hsync by lia. cbn [mbind go_bind]. rewrite Z.eqb_refl. cbn [negb mbind go_bind].
    replace (next + k * stride + stride) with (next + (k + 1) * stride) by lia.
    rewrite IH by lia. rewrite (proj2 (Z.ltb_lt 0 (k + 1))) by lia. by rewrite orb_true_r. }
  specialize (H 4%nat 0 eq_refl ltac:(lia)). by rewrite Z.mul_0_l, Z.add_0_r in H.
Qed.

(** The buffer of a clean reader holds a packet, and it is recognised. *)
Lemma clean_ready pr p ps : clean pr (p :: ps) -> Forall synced (p :: ps) ->
  (pr_readErr pr = None -> minDetectBytes <= len (pr_buf pr)) ->
  packetReadyAt pr 0 188 = Ret (pr, true) /\ packetAt pr 0 188
  /\ take 188 (pr_buf pr) = p.
Proof.
  intros (Hok & Es & _ & He & _) Hps Hmin.
  assert (188 <= len (pr_buf pr) /\ (188 < len (pr_buf pr) \/ isErr (pr_readErr pr) = true)) as [H1 H2].
  { destruct (pr_readErr pr) as [e|] eqn:Ee.
    - unfold stream in Es. rewrite Ee, app_nil_r in Es. rewrite Es. simpl.
      inversion_clear Hps as [|? ? [Hl _] _]. rewrite length_app. split; [lia|by right].
    - specialize (Hmin eq_refl). unfold minDetectBytes, packetSizeWithParity in Hmin. split; [lia|left; lia]. }
  assert (forall k, 0 <= k -> 188 * k < len (pr_buf pr) -> byteAt (pr_buf pr) (188 * k) = SyncByte) as Hsync.
  { intros k Hk Hlt. rewrite <- (concat_sync _ k Hps) by (rewrite <- ?Es; pose proof (buf_len pr); lia).
    rewrite <- Es. unfold stream. by rewrite byteAt_app by lia. }
  pose proof (Hsync 0 ltac:(lia) ltac:(lia)) as Hsync0. rewrite Z.mul_0_r in Hsync0.
  conjs.
  - unfold packetReadyAt. change (188 =? packetSizeWithTimestamp) with false. cbn [Z.add].
    rewrite (proj2 (Z.leb_gt _ _)) by lia. cbn [goor mbind go_bind]. rewrite idx_byteAt by lia.
    cbn [mbind go_bind]. change (0 + 0) with 0. rewrite Hsync0, Z.eqb_refl. cbn [negb mbind go_bind].
    rewrite (proj2 (Z.ltb_ge _ _)) by lia. cbn [mbind go_bind].
    rewrite (proj2 (Z.ltb_ge _ _)) by lia. rewrite checkSync_true; [|lia..|].
    + cbn [mbind go_bind]. do 2 f_equal. destruct H2 as [H2|H2]; [|by rewrite H2, orb_true_r].
      by rewrite (proj2 (Z.ltb_lt _ _)) by lia.
    + intros k Hk Hlt. rewrite <- (Hsync (k + 1)) by lia. f_equal. lia.
  - unfold packetAt, syncOffset. simpl. conjs; [lia|lia|done].
  - inversion_clear Hps as [|? ? [Hl _] _].
    replace (take 188 (pr_buf pr)) with (take 188 (stream pr)) by (unfold stream; rewrite take_app_le by lia; done).
    rewrite Es. simpl. rewrite take_app_le, take_ge by lia. done.
Qed.

Lemma detect_clean pr p ps : clean pr (p :: ps) -> Forall synced (p :: ps) ->
  (pr_readErr pr = None -> minDetectBytes <= len (pr_buf pr)) ->
  detectPacket pr = Ret (pr, Some (0, 188)).
Proof.
  intros Hc Hps Hmin. destruct (clean_ready pr p ps Hc Hps Hmin) as (Hr & (_ & Hlen & _) & _).
  unfold detectPacket. rewrite loop_S. rewrite (proj2 (Z.ltb_lt _ _)) by lia.
  unfold strides, PacketSize. cbn [detectStride]. rewrite Hr. done.
Qed.

Lemma consume_clean pr dst p ps : clean pr (p :: ps) -> Forall synced (p :: ps) ->
  PacketSize <= len dst -> packetAt pr 0 188 -> take 188 (pr_buf pr) = p ->
  returns (consumePacketInto (withStride pr 188) dst 0 188) (fun '(pr', q) => q = p /\ clean pr' ps).
Proof.
  intros Hc Hps Hdst Hp Ht. destruct Hc as (Hok & Es & Hst & He & Hstr & Hl).
  assert (pr_ok (withStride pr 188)) as Hok'.
  { destruct Hok as (? & ? & _). unfold pr_ok, stride_ok. auto. }
  apply returns_wp; [unfold consumePacketInto; errorless|].
  eapply wp_mono; [apply consumePacketInto_spec; [done..|by left|done]|].
  intros [pr' q] (Htk & Hr & Hs' & Hq & Hb & He' & Hl'). simpl in *.
  assert (q = p) as -> by (subst q; done). split; [done|]. unfold clean. conjs.
  - eapply (consumed_ok (withStride pr 188)); done.
  - unfold stream. rewrite He', Hr, Hb. unfold stream in Es. simpl in Es.
    apply (app_inv_head p). rewrite <- Es, <- Ht at 1. by rewrite app_assoc, (take_drop 188).
  - by rewrite Hr.
  - by rewrite He'.
  - right. done.
  - congruence.
Qed.

Lemma nextTurn_clean pr p ps : clean pr (p :: ps) -> Forall synced (p :: ps) ->
  exists pr', nextTurn (replicate 188 0) pr = Ret (Break (pr', inr p)) /\ clean pr' ps.
Proof.
  intros Hc Hps. unfold nextTurn.
  destruct (fill_clean pr _ minDetectBytes Hc) as ([pr1 e] & -> & Hc1 & -> & Hmin & Hst).
  cbn [mbind go_bind].
  destruct (clean_ready pr1 p ps Hc1 Hps Hmin) as (Hr & Hp & Ht). pose proof Hp as (_ & Hlen & _).
  rewrite (proj2 (Z.eqb_neq (len (pr_buf pr1)) 0)) by lia.
  pose proof (detect_clean pr1 p ps Hc1 Hps Hmin) as Hd.
  destruct (consume_clean pr1 (replicate 188 0) p ps) as ([pr2 q] & Hcons & -> & Hc2);
    [done..|by rewrite length_replicate|done|done|].
  pose proof Hc1 as (_ & _ & _ & _ & [E0|E0] & _); rewrite E0; cbn [negb Z.eqb mbind go_bind].
  - rewrite E0. cbn [negb Z.eqb]. rewrite Hd. cbn [mbind go_bind]. rewrite Hcons. simpl. eauto.
  - rewrite Hr. cbn [mbind go_bind]. rewrite E0.
    assert (withStride pr1 188 = pr1) as Ew by (rewrite <- E0; by destruct pr1).
    rewrite Ew in Hcons. rewrite Hcons. simpl. eauto.
Qed.

Lemma nextTurn_clean_end pr : clean pr [] ->
  exists pr', nextTurn (replicate 188 0) pr = Ret (Break (pr', inl ErrEOF)) /\ clean pr' [].
Proof.
  intros Hc. unfold nextTurn.
  destruct (fill_clean pr _ minDetectBytes Hc) as ([pr1 e] & -> & Hc1 & -> & Hmin & Hst).
  cbn [mbind go_bind]. pose proof Hc1 as (_ & Es & _ & He & _).
  apply app_eq_nil in Es as [Eb _]. rewrite Eb in *. simpl.
  destruct He as [He|He]; rewrite He; [|simpl; eauto].
  specialize (Hmin He). unfold minDetectBytes, packetSizeWithParity in Hmin. simpl in Hmin. lia.
Qed.

Lemma Next_turn pr r : nextTurn (replicate 188 0) pr = Ret (Break r) -> Next pr = Ret r.
Proof.
  intros E. unfold Next, NextInto.
  rewrite (proj2 (Z.ltb_ge _ _)) by (by rewrite length_replicate).
  cbn [Nat.add]. by rewrite loop_S, E.
Qed.

Lemma nextN_clean ps : Forall synced ps -> forall pr, clean pr ps ->
  exists pr', nextN (S (length ps)) pr = Ret (pr', ps, Some ErrEOF) /\ clean pr' [].
Proof.
  induction 1 as [|p ps Hp Hps IH]; intros pr Hc.
  - destruct (nextTurn_clean_end pr Hc) as (pr' & E%Next_turn & Hc'). simpl. rewrite E. simpl. eauto.
  - destruct (nextTurn_clean pr p ps Hc) as (pr1 & E%Next_turn & Hc1); [by constructor|].
    destruct (IH pr1 Hc1) as (pr' & E' & Hc'). exists pr'.
    change (nextN (S (length (p :: ps))) pr) with
      ('(pr, x) ← Next pr;
       match x with
       | inl e => Ret (pr, [], Some e)
       | inr p => '(pr, qs, e) ← nextN (S (length ps)) pr; Ret (pr, p :: qs, e)
       end).
    rewrite E. cbn [mbind go_bind]. by rewrite E'.
Qed.

Lemma scriptBytes_steady r : steady r -> scriptBytes r = concat (fst <$> r).
Proof. induction 1 as [|[c e] r [_ ->] _ IH]; [done|]. simpl. by rewrite IH. Qed.

(** From every state and on every input, however damaged and however cut
    into reads, [NextInto] returns: either a packet of 188 bytes that starts
    with the sync byte and is a slice of the input with at most 16 bytes of
    its stride behind it, everything after that still to be read, or an error
    with a suffix of the input left.  It never panics and never loops. *)
Theorem NextInto_returns_input_slice (pr : PacketReader) (dst : bytes)
    (Hok : pr_ok pr) (Hdst : PacketSize <= len dst) :
  returns (NextInto pr dst) (fun '(pr', x) =>
    pr_ok pr' /\
    match x with
    | inr p => packet_ok p /\ byteAt p 0 = SyncByte
        /\ exists skipped trailer,
             stream pr = skipped ++ p ++ trailer ++ stream pr' /\ len trailer <= 16
    | inl _ => exists skipped, stream pr = skipped ++ stream pr'
    end).
Proof.
  apply returns_wp; [apply NextInto_errorless|].
  eapply wp_mono; [by apply NextInto_spec|]. intros [pr' [e|p]].
  - by intros (? & ? & _).
  - done.
Qed.

(** Garbage, a packet and a broken one, in two reads. *)
Lemma NextInto_returns_input_slice_witness :
  returns (NextInto (NewPacketReader [([0; 0x47; 1], None); (replicate 300 0x47, Some ErrShortBuffer)])
      (replicate 188 0))
    (fun '(pr', x) =>
      pr_ok pr' /\
      match x with
      | inr p => packet_ok p /\ byteAt p 0 = SyncByte
          /\ exists skipped trailer,
               stream (NewPacketReader [([0; 0x47; 1], None); (replicate 300 0x47, Some ErrShortBuffer)])
                 = skipped ++ p ++ trailer ++ stream pr' /\ len trailer <= 16
      | inl _ => exists skipped,
          stream (NewPacketReader [([0; 0x47; 1], None); (replicate 300 0x47, Some ErrShortBuffer)])
            = skipped ++ stream pr'
      end).
Proof.
  apply NextInto_returns_input_slice.
  - split; [|split].
    + repeat (apply Forall_cons; split; [vm_compute; discriminate|]). constructor.
    + apply bytes_ok_app; [constructor|]. apply bytes_ok_app.
      * repeat constructor; unfold byte_ok; lia.
      * apply bytes_ok_replicate. unfold byte_ok. lia.
    + left. reflexivity.
  - vm_compute. discriminate.
Defined.

(** A stream that consists of packets is returned packet by packet,
    complete and in order, and then [io.EOF], without a loss of
    synchronisation, however the input is cut into non-empty reads. *)
Theorem clean_stream_read_exactly (r : reader) (ps : list Packet)
    (Hps : Forall (fun p => packet_ok p /\ byteAt p 0 = SyncByte) ps)
    (Hok : reader_ok r) (Hr : Forall (fun '(c, e) => c <> [] /\ e = None) r)
    (Hcut : concat (fst <$> r) = concat ps) :
  exists pr', nextN (S (length ps)) (NewPacketReader r) = Ret (pr', ps, Some ErrEOF)
    /\ SyncLosses pr' = 0.
Proof.
  assert (Forall synced ps) as Hsy.
  { eapply Forall_impl; [exact Hps|]. by intros p [[? _] ?]. }
  destruct (nextN_clean ps Hsy (NewPacketReader r)) as (pr' & E & Hc).
  { assert (stream (NewPacketReader r) = concat ps) as Es.
    { unfold stream. simpl. by rewrite scriptBytes_steady. }
    unfold clean. conjs; try done; [|by left|by left].
    unfold pr_ok. conjs; [done| |by left]. rewrite Es.
    apply Forall_concat. eapply Forall_impl; [exact Hps|]. by intros p [[_ ?] _]. }
  exists pr'. split; [done|]. apply Hc.
Qed.

(** Three packets whose bodies are full of sync bytes, read 188, 1 and 375
    bytes at a time. *)
Lemma clean_stream_read_exactly_witness :
  exists pr', nextN 4 (NewPacketReader [(replicate 188 0x47, None); ([0x47], None); (replicate 375 0x47, None)])
      = Ret (pr', replicate 3 (replicate 188 0x47), Some ErrEOF)
    /\ SyncLosses pr' = 0.
Proof.
  apply (clean_stream_read_exactly _ (replicate 3 (replicate 188 0x47))).
  - apply Forall_replicate. split; [split; [reflexivity|]|reflexivity].
    apply bytes_ok_replicate. unfold byte_ok. lia.
  - repeat (apply Forall_cons; split; [vm_compute; discriminate|]). constructor.
  - repeat (apply Forall_cons; split; [split; [discriminate|reflexivity]|]). constructor.
  - reflexivity.
Defined.
