(* ===== verification/Psi.v ===== *)
(** * PSI common helpers and descriptors (ts/psi.go, ts/descriptors.go,
      parseDescriptorsStrict of ts/nit.go, descriptorsLength of ts/bit.go)

    The long section header, descriptor loops (lenient and strict) and the
    entry loop all table parsers share: a fixed header that ends in a 12-bit
    length, then that many bytes. *)

From S2P Require Import Prelude Crc Packet Section.

(** ** Table identifiers (ts/psi.go) *)

Definition TableIDPAT : Z := 0x00.
Definition TableIDCAT : Z := 0x01.
Definition TableIDPMT : Z := 0x02.
Definition TableIDSDT0 : Z := 0x42.
Definition TableIDSDT1 : Z := 0x46.
Definition TableIDEITPF0 : Z := 0x4e.
Definition TableIDEITPF1 : Z := 0x4f.
Definition TableIDEITSStart : Z := 0x50.
Definition TableIDEITSEnd : Z := 0x5f.
Definition TableIDEITSOtherStart : Z := 0x60.
Definition TableIDEITSOtherEnd : Z := 0x6f.
Definition TableIDTOT : Z := 0x73.
Definition TableIDSDTT : Z := 0xc3.
Definition TableIDCDT : Z := 0xc8.
Definition TableIDBIT : Z := 0xc4.
Definition TableIDDSMCCDII : Z := 0x3b.
Definition TableIDDSMCCDDB : Z := 0x3c.
Definition TableIDDSMCCStream : Z := 0x3d.
Definition TableIDNIT0 : Z := 0x40.
Definition TableIDNIT1 : Z := 0x41.

Definition IsEITPF (tableID : Z) : bool :=
  (tableID =? TableIDEITPF0) || (tableID =? TableIDEITPF1).

Definition IsEITS (tableID : Z) : bool :=
  ((TableIDEITSStart <=? tableID) && (tableID <=? TableIDEITSEnd))
  || ((TableIDEITSOtherStart <=? tableID) && (tableID <=? TableIDEITSOtherEnd)).

(** ** The section header *)

Record SectionHeader := mkSectionHeader {
  sh_TableID : Z;
  sh_SectionSyntaxIndicator : bool;
  sh_SectionLength : Z;
  sh_TransportStreamID : Z;
  sh_OriginalNetworkID : Z;
  sh_ServiceID : Z;
  sh_VersionNumber : Z;
  sh_CurrentNextIndicator : bool;
  sh_SectionNumber : Z;
  sh_LastSectionNumber : Z
}.

Definition ParseSectionHeader (s : Section_) : go SectionHeader :=
  bad ← Ret (len s <? 8) ||! (total ← TotalLength s; Ret (len s <? total));
  if (bad : bool) then Err ErrInvalidSection
  else
    tableID ← TableID s;
    syntax ← SectionSyntaxIndicator s;
    length ← SectionLength s;
    id ← read16 s 3;
    b5 ← idx s 5;
    number ← idx s 6;
    last ← idx s 7;
    Ret (mkSectionHeader tableID syntax length id id id
           (Z.land (Z.shiftr b5 1) 0x1f) (flag b5 0x01) number last).

(** The guard every table parser opens with: length, table_id, announced
    length and checksum, in this order. *)
Definition guardSection (min : Z) (ids : list Z) (s : Section_) : go bool :=
  Ret (len s <? min)
    ||! (tableID ← TableID s; Ret (negb (existsb (Z.eqb tableID) ids)))
    ||! (total ← TotalLength s; Ret (len s <? total))
    ||! (negb <$> ValidateCRC s).

(** ** Descriptors (ts/descriptors.go) *)

Abbreviation Descriptor := bytes (only parsing).

Definition Tag (d : Descriptor) : go Z := idx d 0.
Definition Length (d : Descriptor) : go Z := idx d 1.
Definition Data (d : Descriptor) : go bytes := n ← Length d; slice d 2 (2 + n).

Definition descriptorTurn (st : bytes * list Descriptor) :
    go (iteration (bytes * list Descriptor) (list Descriptor)) :=
  let '(b, descriptors) := st in
  if 2 <=? len b then
    length ← idx b 1;
    if len b <? 2 + length then Ret (Break descriptors)
    else
      d ← sliceTo b (2 + length);
      rest ← sliceFrom b (2 + length);
      Ret (Continue (rest, descriptors ++ [d]))
  else Ret (Break descriptors).

Definition ParseDescriptors (b : bytes) : go (list Descriptor) :=
  loop (S (length b)) descriptorTurn (b, []).

Definition strictTurn (st : bytes * list Descriptor) :
    go (iteration (bytes * list Descriptor) (list Descriptor)) :=
  let '(b, descriptors) := st in
  if 0 <? len b then
    if len b <? 2 then Err ErrInvalidSection
    else
      length ← idx b 1;
      if len b <? 2 + length then Err ErrInvalidSection
      else
        d ← sliceTo b (2 + length);
        rest ← sliceFrom b (2 + length);
        Ret (Continue (rest, descriptors ++ [d]))
  else Ret (Break descriptors).

Definition parseDescriptorsStrict (b : bytes) : go (list Descriptor) :=
  loop (S (length b)) strictTurn (b, []).

Definition descriptorsLength (descriptors : list Descriptor) : Z :=
  foldl (fun n d => n + len d) 0 descriptors.

(** ** The entry loop

    [for off+h <= end { n := 12 bits at off+h-2; stop := off+h+n; if stop > end
    return ErrInvalidSection; ... s[off+h:stop] ...; off = stop }]: the loop of
    the PMT, SDT, NIT, BIT and EIT parsers.  [entry] reads one entry, given
    its offset and the bytes behind its header; the final offset is returned
    with the entries. *)
Definition entryTurn {A} (h : Z) (entry : bytes -> Z -> bytes -> go A) (s : bytes) (end_ : Z)
    (st : Z * list A) : go (iteration (Z * list A) (list A * Z)) :=
  let '(off, acc) := st in
  if off + h <=? end_ then
    n ← read12 s (off + h - 2);
    let stop := off + h + n in
    if end_ <? stop then Err ErrInvalidSection
    else
      data ← slice s (off + h) stop;
      x ← entry s off data;
      Ret (Continue (stop, acc ++ [x]))
  else Ret (Break (acc, off)).

Definition entries {A} (h : Z) (entry : bytes -> Z -> bytes -> go A) (s : bytes) (off end_ : Z) :
    go (list A * Z) :=
  loop (S (length s)) (entryTurn h entry s end_) (off, []).

(** ** Lemmas *)

(** A well-formed descriptor: its length byte counts what follows it. *)
Definition descriptor_ok (d : Descriptor) : Prop :=
  bytes_ok d /\ 2 <= len d /\ byteAt d 1 = len d - 2.

Lemma descriptor_data d : descriptor_ok d -> Data d = Ret (drop 2 d).
Proof.
  intros (_ & H2 & Hl). unfold Data, Length. rewrite idx_byteAt by lia. cbn [mbind go_bind].
  unfold slice. rewrite Hl. rewrite (proj2 (Z.leb_le 2 _)), (proj2 (Z.leb_le _ (len d))) by lia.
  simpl. rewrite take_ge by (rewrite length_drop; lia). done.
Qed.

Lemma cut_descriptor b :
  bytes_ok b -> 2 <= len b -> 2 + byteAt b 1 <= len b ->
  descriptor_ok (take (Z.to_nat (2 + byteAt b 1)) b).
Proof.
  intros Hb H2 Hl. pose proof (byteAt_range b 1 Hb). unfold descriptor_ok.
  rewrite byteAt_take, length_take by lia. conjs; [auto with bytes|lia|lia].
Qed.

(** What no descriptor can be cut from. *)
Definition ragged (rest : bytes) : Prop := len rest < 2 \/ len rest < 2 + byteAt rest 1.

(** Both loops cut the same descriptors; they differ in what they do with a
    ragged rest. *)
Lemma descriptor_loops n : forall b acc, bytes_ok b -> (length b < n)%nat ->
  exists ds rest, b = concat ds ++ rest /\ Forall descriptor_ok ds /\ ragged rest
    /\ loop n descriptorTurn (b, acc) = Ret (acc ++ ds)
    /\ loop n strictTurn (b, acc) =
         if decide (rest = []) then Ret (acc ++ ds) else Err ErrInvalidSection.
Proof.
  induction n as [|n IH]; intros b acc Hb Hn; [lia|]. rewrite !loop_S. cbn [descriptorTurn strictTurn].
  destruct (decide (ragged b)) as [Hr|Hr].
  - exists [], b. rewrite app_nil_r. conjs; [done|constructor|done| |].
    + destruct (Z.leb_spec 2 (len b)); [|done]. rewrite idx_byteAt by lia. cbn [mbind go_bind].
      destruct Hr; [lia|]. by rewrite (proj2 (Z.ltb_lt _ _)) by lia.
    + destruct (decide (b = [])) as [->|Hne]; [done|].
      assert (0 < len b) by (destruct b; [done|simpl; lia]).
      rewrite (proj2 (Z.ltb_lt 0 _)) by lia. destruct (Z.ltb_spec (len b) 2); [done|].
      rewrite idx_byteAt by lia. cbn [mbind go_bind]. destruct Hr; [lia|].
      by rewrite (proj2 (Z.ltb_lt _ _)) by lia.
  - unfold ragged in Hr. pose proof (byteAt_range b 1 Hb).
    set (m := 2 + byteAt b 1). assert (2 <= m <= len b) as Hm by (subst m; lia).
    destruct (IH (drop (Z.to_nat m) b) (acc ++ [take (Z.to_nat m) b]))
      as (ds & rest & E & Hds & Hrest & H1 & H2); [auto with bytes|rewrite length_drop; lia|].
    exists (take (Z.to_nat m) b :: ds), rest. cbn [concat]. rewrite <- app_assoc, <- E, take_drop.
    rewrite (proj2 (Z.leb_le 2 _)), (proj2 (Z.ltb_lt 0 _)), (proj2 (Z.ltb_ge (len b) 2)) by lia.
    rewrite idx_byteAt by lia. cbn [mbind go_bind]. fold m.
    rewrite (proj2 (Z.ltb_ge (len b) m)), slice_0, slice_from by lia. cbn [mbind go_bind].
    rewrite H1, H2, <- app_assoc. conjs; [done| |done..].
    constructor; [|done]. apply cut_descriptor; [done|lia..].
Qed.

Lemma ParseDescriptors_cut b : bytes_ok b ->
  exists ds rest, b = concat ds ++ rest /\ Forall descriptor_ok ds /\ ragged rest
    /\ ParseDescriptors b = Ret ds
    /\ parseDescriptorsStrict b = if decide (rest = []) then Ret ds else Err ErrInvalidSection.
Proof. intros Hb. apply (descriptor_loops (S (length b)) b []); [done|lia]. Qed.

(** Cutting is unique: well-formed descriptors are read back as they are. *)
Lemma cut_unique ds ds' rest rest' :
  Forall descriptor_ok ds -> Forall descriptor_ok ds' -> ragged rest -> ragged rest' ->
  concat ds ++ rest = concat ds' ++ rest' -> ds = ds' /\ rest = rest'.
Proof.
  intros Hds. revert ds'. induction Hds as [|d ds (Hb & H2 & Hl) _ IH]; intros ds' Hds' Hr Hr' E.
  - destruct Hds' as [|d' ds' (Hb' & H2' & Hl')]; [done|]. exfalso. simpl in E. subst rest.
    destruct Hr as [Hr|Hr]; rewrite ?length_app in Hr; [lia|].
    rewrite <- app_assoc, byteAt_app in Hr by lia. rewrite ?length_app in Hr. lia.
  - destruct Hds' as [|d' ds' (Hb' & H2' & Hl') Hds'].
    + exfalso. simpl in E. subst rest'. destruct Hr' as [Hr'|Hr']; rewrite ?length_app in Hr'; [lia|].
      rewrite <- app_assoc, byteAt_app in Hr' by lia. rewrite ?length_app in Hr'. lia.
    + simpl in E. rewrite <- !app_assoc in E.
      assert (len d = len d') as Hlen.
      { assert (byteAt (d ++ concat ds ++ rest) 1 = byteAt (d' ++ concat ds' ++ rest') 1) as E1 by (by rewrite E).
        rewrite !byteAt_app in E1 by lia. lia. }
      apply app_inj_1 in E as [-> E]; [|lia]. destruct (IH ds' Hds' Hr Hr' E) as [-> ->]. done.
Qed.

Lemma ragged_nil : ragged [].
Proof. left. simpl. lia. Qed.

Lemma ParseDescriptors_concat ds :
  Forall descriptor_ok ds -> ParseDescriptors (concat ds) = Ret ds
    /\ parseDescriptorsStrict (concat ds) = Ret ds.
Proof.
  intros Hds. destruct (ParseDescriptors_cut (concat ds)) as (ds' & rest & E & Hds' & Hr & H1 & H2).
  { apply Forall_concat. eapply Forall_impl; [exact Hds|]. by intros d (? & _). }
  destruct (cut_unique ds ds' [] rest) as [<- <-]; [done..|apply ragged_nil|done|by rewrite app_nil_r|].
  done.
Qed.

Lemma wp_ParseDescriptors b (Q : list Descriptor -> Prop) :
  bytes_ok b -> (forall ds, Forall descriptor_ok ds -> Q ds) -> wp (ParseDescriptors b) Q.
Proof.
  intros Hb HQ. destruct (ParseDescriptors_cut b Hb) as (ds & rest & _ & Hds & _ & -> & _). by apply HQ.
Qed.

Lemma wp_parseDescriptorsStrict b (Q : list Descriptor -> Prop) :
  bytes_ok b -> (forall ds, Forall descriptor_ok ds -> Q ds) -> wp (parseDescriptorsStrict b) Q.
Proof.
  intros Hb HQ. destruct (ParseDescriptors_cut b Hb) as (ds & rest & _ & Hds & _ & _ & ->).
  case_decide; [by apply HQ|done].
Qed.

Lemma descriptorsLength_acc (ds : list Descriptor) n :
  foldl (fun n d => n + len d) n ds = n + len (concat ds).
Proof.
  revert n. induction ds as [|d ds IH]; intros n; simpl; [lia|].
  rewrite IH, length_app. lia.
Qed.

Lemma descriptorsLength_concat ds : descriptorsLength ds = len (concat ds).
Proof. unfold descriptorsLength. rewrite descriptorsLength_acc. lia. Qed.

(** ** The guards *)

Lemma ValidateCRC_eq s : bytes_ok s -> 4 <= len s -> totalOf s <= len s ->
  ValidateCRC s = Ret (crc32MPEG2 (take (Z.to_nat (totalOf s)) s) =? 0).
Proof.
  intros Hs H4 Ht. unfold ValidateCRC. rewrite TotalLength_eq by lia. cbn [mbind go_bind].
  rewrite (proj2 (Z.ltb_ge (len s) 4)) by lia. cbn [goor mbind go_bind].
  rewrite (proj2 (Z.ltb_ge (len s) (totalOf s))) by lia. cbn [mbind go_bind].
  pose proof (total_range s Hs). by rewrite slice_0 by lia.
Qed.

Lemma wp_guardSection min ids s (Q : bool -> Prop) :
  bytes_ok s -> 4 <= min ->
  Q true ->
  (min <= len s -> existsb (Z.eqb (byteAt s 0)) ids = true -> totalOf s <= len s ->
   ValidateCRC s = Ret true -> Q false) ->
  wp (guardSection min ids s) Q.
Proof.
  intros Hs Hmin Ht Hf. unfold guardSection.
  destruct (Z.ltb_spec (len s) min); [done|]. cbn [goor mbind go_bind].
  unfold TableID. rewrite idx_byteAt, TotalLength_eq by lia. cbn [mbind go_bind].
  destruct (existsb _ ids) eqn:E; [|done]. cbn [negb mbind go_bind].
  destruct (Z.ltb_spec (len s) (totalOf s)); [done|].
  unfold goor. cbn [mbind go_bind]. apply wp_fmap.
  pose proof (ValidateCRC_eq s Hs ltac:(lia) ltac:(lia)) as EV.
  rewrite EV in *. simpl. destruct (_ =? 0); simpl; auto.
Qed.

Lemma wp_ParseSectionHeader s (Q : SectionHeader -> Prop) :
  bytes_ok s -> (forall h, 0 <= sh_SectionNumber h < 256 -> 0 <= sh_LastSectionNumber h < 256 -> Q h) ->
  wp (ParseSectionHeader s) Q.
Proof.
  intros Hs HQ. unfold ParseSectionHeader, TableID, SectionSyntaxIndicator, SectionLength.
  destruct (Z.ltb_spec (len s) 8); [done|]. rewrite TotalLength_eq by lia.
  cbn [goor mbind go_bind]. destruct (Z.ltb_spec (len s) (totalOf s)); [done|].
  go_run. by apply HQ.
Qed.

(** The header as a function of the section's bytes. *)
Definition headerOf (s : Section_) : SectionHeader :=
  let id := be (byteAt s 3) (byteAt s 4) in
  mkSectionHeader (byteAt s 0) (flag (byteAt s 1) 0x80) (totalOf s - 3) id id id
    (Z.land (Z.shiftr (byteAt s 5) 1) 0x1f) (flag (byteAt s 5) 0x01) (byteAt s 6) (byteAt s 7).

Lemma ParseSectionHeader_eq s :
  ParseSectionHeader s =
    if (len s <? 8) || (len s <? totalOf s) then Err ErrInvalidSection else Ret (headerOf s).
Proof.
  unfold ParseSectionHeader. destruct (Z.ltb_spec (len s) 8); [done|].
  rewrite TotalLength_eq by lia. cbn [goor mbind go_bind orb].
  destruct (len s <? totalOf s); [done|].
  unfold TableID, SectionSyntaxIndicator, SectionLength, read16.
  rewrite read12_at, !idx_byteAt by lia. cbn [mbind go_bind]. unfold headerOf, totalOf.
  do 2 f_equal. change (1 + 1) with 2. lia.
Qed.

Lemma headerOf_range s : bytes_ok s ->
  0 <= sh_TransportStreamID (headerOf s) < 65536 /\ 0 <= sh_VersionNumber (headerOf s) < 32
  /\ 0 <= sh_SectionNumber (headerOf s) < 256 /\ 0 <= sh_LastSectionNumber (headerOf s) < 256.
Proof.
  intros Hs. simpl. pose proof (byteAt_range s 3 Hs). pose proof (byteAt_range s 4 Hs).
  pose proof (byteAt_range s 6 Hs). pose proof (byteAt_range s 7 Hs).
  rewrite be_add, land_1f by done. conjs; try lia; try (apply Z.mod_pos_bound; lia).
Qed.

Lemma wp_entries {A} h (entry : bytes -> Z -> bytes -> go A) s off end_ (P : A -> Prop)
    (Q : list A * Z -> Prop) :
  bytes_ok s -> 2 <= h -> 0 <= off -> end_ <= len s ->
  (forall o d, 0 <= o -> o + h <= end_ -> bytes_ok d -> wp (entry s o d) P) ->
  (forall xs o, Forall P xs -> off <= o -> Q (xs, o)) ->
  wp (entries h entry s off end_) Q.
Proof.
  intros Hs Hh Ho He Hentry HQ. unfold entries.
  destruct (Z.leb_spec off end_).
  - apply (wp_loop (fun '(o, acc) => off <= o <= end_ /\ Forall P acc)
      (fun '(o, _) => end_ - o)).
    + intros [o acc] [Ho' Hacc]. unfold entryTurn. go_run; [|apply HQ; [done|lia]].
      eapply wp_mono; [apply Hentry; [lia|lia|auto with bytes]|]. intros y Hy. simpl.
      split; [|lia]. split; [lia|]. apply Forall_app; auto.
    + split; [lia|constructor].
    + lia.
    + lia.
  - rewrite loop_S. cbn [entryTurn]. rewrite (proj2 (Z.leb_gt _ _)) by lia.
    simpl. apply HQ; [constructor|lia].
Qed.

(** ** Reading entries back

    An entry written as a header of [h] bytes that ends in the length of its
    data, and read by [entry] wherever it stands. *)
Record entry_codec {A} (h : Z) (entry : bytes -> Z -> bytes -> go A)
    (header data : A -> bytes) (x : A) : Prop := {
  codec_header : len (header x) = h;
  codec_length : be (Z.land (byteAt (header x) (h - 2)) 0x0f) (byteAt (header x) (h - 1)) = len (data x);
  codec_entry : forall pre post,
    entry (pre ++ (header x ++ data x) ++ post) (len pre) (data x) = Ret x
}.

Lemma byteAt_app_r l1 l2 i : len l1 <= i -> byteAt (l1 ++ l2) i = byteAt l2 (i - len l1).
Proof. intros. unfold byteAt. rewrite lookup_app_r by lia. do 2 f_equal. lia. Qed.

Lemma slice_mid {A} (l1 l2 l3 : list A) a b :
  a = len l1 -> b = len l1 + len l2 -> slice (l1 ++ l2 ++ l3) a b = Ret l2.
Proof.
  intros -> ->. unfold slice. rewrite !length_app.
  rewrite (proj2 (Z.leb_le 0 _)), (proj2 (Z.leb_le (len l1) _)), (proj2 (Z.leb_le (_ + _) _)) by lia.
  simpl. rewrite Nat2Z.id, drop_app_length.
  replace (Z.to_nat (len l1 + len l2 - len l1)) with (length l2) by lia.
  by rewrite take_app_length.
Qed.

Section reading.
Context {A : Type} (h : Z) (entry : bytes -> Z -> bytes -> go A) (header data : A -> bytes).
Context (Hh : 2 <= h).

Definition encodeEntries (xs : list A) : bytes := concat ((fun x => header x ++ data x) <$> xs).

Lemma entries_loop xs : Forall (entry_codec h entry header data) xs ->
  forall n pre post acc s, s = pre ++ encodeEntries xs ++ post -> (length xs < n)%nat ->
  loop n (entryTurn h entry s (len pre + len (encodeEntries xs))) (len pre, acc)
  = Ret (acc ++ xs, len pre + len (encodeEntries xs)).
Proof.
  induction 1 as [|x xs Hx _ IH]; intros n pre post acc s Es Hn; (destruct n as [|n]; [lia|]);
    rewrite loop_S; cbn [entryTurn].
  - rewrite (proj2 (Z.leb_gt _ _)) by (simpl; lia). rewrite app_nil_r. simpl. by rewrite Z.add_0_r.
  - destruct Hx as [Eh El Ee]. simpl in Hn. unfold encodeEntries in *. cbn [fmap list_fmap concat] in *.
    set (rest := concat ((fun x => header x ++ data x) <$> xs)) in *.
    rewrite !length_app. rewrite (proj2 (Z.leb_le _ _)) by lia.
    assert (s = pre ++ (header x ++ data x) ++ rest ++ post) as Es'.
    { rewrite Es, <- !app_assoc. done. }
    assert (read12 s (len pre + h - 2) = Ret (len (data x))) as Er.
    { rewrite read12_at by (rewrite ?Es', ?length_app; lia). rewrite <- El. f_equal. rewrite Es'.
      rewrite (byteAt_app_r pre _ (len pre + h - 2)), (byteAt_app_r pre _ (len pre + h - 2 + 1)) by lia. rewrite <- !app_assoc.
      f_equal; [f_equal|]; rewrite byteAt_app by lia; f_equal; lia. }
    rewrite Er. cbn [mbind go_bind]. rewrite (proj2 (Z.ltb_ge _ _)) by lia.
    assert (slice s (len pre + h) (len pre + h + len (data x)) = Ret (data x)) as Esl.
    { rewrite Es'. replace (pre ++ (header x ++ data x) ++ rest ++ post)
        with ((pre ++ header x) ++ data x ++ (rest ++ post)) by (by rewrite <- !app_assoc).
      apply slice_mid; rewrite length_app; lia. }
    rewrite Esl. cbn [mbind go_bind]. rewrite Es' at 1. rewrite Ee. cbn [mbind go_bind].
    replace (len pre + h + len (data x)) with (len (pre ++ header x ++ data x))
      by (rewrite !length_app; lia).
    specialize (IH n (pre ++ header x ++ data x) post (acc ++ [x]) s).
    rewrite !length_app in *. rewrite <- app_assoc in IH.
    replace (len pre + Z.of_nat (length (header x) + length (data x) + length rest))
      with (Z.of_nat (length pre + (length (header x) + length (data x))) + len rest) by lia.
    rewrite IH; [by rewrite <- app_assoc|done|lia].
Qed.

Lemma encodeEntries_length xs : Forall (entry_codec h entry header data) xs ->
  (length xs <= length (encodeEntries xs))%nat.
Proof.
  induction 1 as [|x xs [Eh _ _] _ IH]; [done|]. unfold encodeEntries in *. cbn [fmap list_fmap concat length].
  rewrite !length_app. lia.
Qed.

Lemma entries_encoded xs pre post off end_ s : Forall (entry_codec h entry header data) xs ->
  s = pre ++ encodeEntries xs ++ post -> off = len pre -> end_ = len pre + len (encodeEntries xs) ->
  entries h entry s off end_ = Ret (xs, end_).
Proof.
  intros Hxs -> -> ->. unfold entries. apply (entries_loop xs Hxs _ pre post []); [done|].
  pose proof (encodeEntries_length xs Hxs). rewrite !length_app. lia.
Qed.

End reading.

(** ** Long-syntax sections as a multiplexer writes them *)

Definition longSection (tableID ext version number last : Z) (payload : bytes) : Section_ :=
  let n := 9 + len payload in
  seal ([tableID; Z.lor 0xb0 (hiByte n); u8 n; hiByte ext; u8 ext;
         Z.lor 0xc1 (Z.shiftl version 1); number; last] ++ payload).

(** The header fields in range, and a section short enough for its length
    field. *)
Record long_ok (tableID ext version number last : Z) (payload : bytes) : Prop := {
  long_tableID : byte_ok tableID;
  long_ext : 0 <= ext < 65536;
  long_version : 0 <= version < 32;
  long_number : byte_ok number;
  long_last : byte_ok last;
  long_bytes : bytes_ok payload;
  long_length : len payload <= 4086
}.

Lemma version_byte v : 0 <= v < 32 ->
  byte_ok (Z.lor 0xc1 (Z.shiftl v 1)) /\ Z.land (Z.shiftr (Z.lor 0xc1 (Z.shiftl v 1)) 1) 0x1f = v
  /\ flag (Z.lor 0xc1 (Z.shiftl v 1)) 0x01 = true.
Proof.
  intros Hv. pose proof (range_forallb (fun v => (0 <=? Z.lor 0xc1 (Z.shiftl v 1))
    && (Z.lor 0xc1 (Z.shiftl v 1) <? 256)
    && (Z.land (Z.shiftr (Z.lor 0xc1 (Z.shiftl v 1)) 1) 0x1f =? v)
    && flag (Z.lor 0xc1 (Z.shiftl v 1)) 0x01) 32 ltac:(vm_compute; reflexivity) v Hv) as H.
  simpl in H. bools. unfold byte_ok. conjs; [lia..|done].
Qed.

Section long.
Context (tableID ext version number last : Z) (payload : bytes).
Context (Hok : long_ok tableID ext version number last payload).
Let s : Section_ := longSection tableID ext version number last payload.

Lemma long_valid : valid_section s.
Proof.
  destruct Hok as [H1 H2 H3 H4 H5 H6 H7]. destruct (version_byte version H3) as (Hv & _).
  apply seal_valid.
  - apply bytes_ok_app; [|done]. unfold hiByte. auto 20 with bytes.
  - rewrite length_app. simpl. lia.
  - rewrite totalOf_app by (simpl; lia). unfold totalOf, byteAt. simpl.
    rewrite field12 by (done || lia). lia.
Qed.

Lemma long_total : totalOf s = 12 + len payload.
Proof.
  destruct long_valid as (_ & _ & <- & _). unfold s, longSection, seal.
  rewrite !length_app. simpl. lia.
Qed.

Lemma long_len : len s = 12 + len payload.
Proof. destruct long_valid as (_ & _ & E & _). rewrite E. apply long_total. Qed.

Lemma long_TotalLength : TotalLength s = Ret (12 + len payload).
Proof. rewrite TotalLength_eq, long_total; [done|]. rewrite long_len. lia. Qed.

Lemma long_guard min ids : min <= 12 + len payload -> existsb (Z.eqb tableID) ids = true ->
  guardSection min ids s = Ret false.
Proof.
  intros Hmin Hid. unfold guardSection, TableID. rewrite long_TotalLength, long_len.
  rewrite (proj2 (Z.ltb_ge _ _)) by lia. cbn [goor mbind go_bind].
  rewrite idx_byteAt by (rewrite long_len; lia). cbn [mbind go_bind].
  change (byteAt s 0) with tableID. rewrite Hid, Z.ltb_irrefl. cbn [negb mbind go_bind goor].
  by rewrite ValidateCRC_valid by apply long_valid.
Qed.

Lemma long_header :
  ParseSectionHeader s = Ret (mkSectionHeader tableID true (9 + len payload) ext ext ext version true
    number last).
Proof.
  destruct Hok as [H1 H2 H3 H4 H5 H6 H7]. destruct (version_byte version H3) as (_ & Hv & Hc).
  unfold ParseSectionHeader. rewrite long_TotalLength, long_len.
  rewrite (proj2 (Z.ltb_ge _ 8)) by lia. cbn [goor mbind go_bind]. rewrite Z.ltb_irrefl.
  cbn [mbind go_bind].
  assert (SectionLength s = Ret (9 + len payload)) as ->.
  { unfold SectionLength. rewrite read_header by (rewrite long_len; lia). f_equal.
    pose proof long_total as E. unfold totalOf in E. lia. }
  unfold TableID, SectionSyntaxIndicator, read16.
  rewrite !idx_byteAt by (rewrite long_len; lia). cbn [mbind go_bind].
  change (byteAt s 0) with tableID. change (byteAt s 3) with (hiByte ext).
  change (byteAt s (3 + 1)) with (u8 ext). change (byteAt s 6) with number.
  change (byteAt s 7) with last. change (byteAt s 5) with (Z.lor 0xc1 (Z.shiftl version 1)).
  change (byteAt s 1) with (Z.lor 0xb0 (hiByte (9 + len payload))).
  rewrite field16, Hv, Hc by done.
  replace (flag _ 128) with true; [done|]. symmetry. unfold flag.
  rewrite Z.land_lor_distr_l. apply negb_true_iff, Z.eqb_neq. intros E%Z.lor_eq_0_iff. by destruct E.
Qed.

End long.

(** ** Properties *)

(** The lenient descriptor loop followed by a length check, as the BIT
    parser does it, accepts exactly what the strict loop of the NIT parser
    accepts and returns the same descriptors; anything else is
    [ErrInvalidSection] in both, and neither panics.  What is returned
    concatenates to the input, every descriptor well formed. *)
Theorem strict_descriptors_are_complete (b : bytes) (Hb : bytes_ok b) :
  parseDescriptorsStrict b =
    (ds ← ParseDescriptors b;
     if descriptorsLength ds =? len b then Ret ds else Err ErrInvalidSection)
  /\ returns (ParseDescriptors b) (fun ds =>
       Forall descriptor_ok ds /\ (exists rest, b = concat ds ++ rest)
       /\ (descriptorsLength ds = len b -> b = concat ds)).
Proof.
  destruct (ParseDescriptors_cut b Hb) as (ds & rest & E & Hds & _ & -> & ->).
  cbn [mbind go_bind]. rewrite descriptorsLength_concat. split.
  - rewrite E, length_app. case_decide as Hr.
    + subst rest. simpl. by rewrite Nat.add_0_r, Z.eqb_refl.
    + rewrite (proj2 (Z.eqb_neq _ _)); [done|]. destruct rest; [done|simpl; lia].
  - exists ds. conjs; [done|done|by exists rest|]. intros Hl. rewrite descriptorsLength_concat in Hl.
    rewrite E in Hl. rewrite length_app in Hl. destruct rest; [by rewrite app_nil_r in E|simpl in Hl; lia].
Qed.
