(* ===== verification/Tables.v ===== *)
(** * PSI/SI tables: PAT, PMT, SDT, NIT and BIT
      (ts/pat.go, ts/pmt.go, ts/sdt.go, ts/nit.go, ts/bit.go)

    One parser per table, and the PAT builder.  Theorems: every parser returns
    or reports an error on every byte string, and each table's entries, written
    the way the standard lays them out, are read back exactly. *)

From S2P Require Import Prelude Crc Packet Section Psi.

(** ** PAT *)

Record PAT := mkPAT {
  pat_TransportStreamID : Z;
  pat_VersionNumber : Z;
  pat_NetworkPID : Z;
  pat_Programs : gmap Z Z
}.

Definition patTurn (s : Section_) (end_ : Z) (st : Z * PAT) : go (iteration (Z * PAT) PAT) :=
  let '(off, pat) := st in
  if off + 4 <=? end_ then
    program ← read16 s off;
    pid ← read13 s (off + 2);
    let pat :=
      if program =? 0
      then mkPAT (pat_TransportStreamID pat) (pat_VersionNumber pat) pid (pat_Programs pat)
      else mkPAT (pat_TransportStreamID pat) (pat_VersionNumber pat) (pat_NetworkPID pat)
             (<[program := pid]> (pat_Programs pat)) in
    Ret (Continue (off + 4, pat))
  else Ret (Break pat).

Definition ParsePAT (s : Section_) : go PAT :=
  bad ← guardSection 12 [TableIDPAT] s;
  if (bad : bool) then Err ErrInvalidSection
  else
    header ← ParseSectionHeader s;
    total ← TotalLength s;
    loop (S (length s)) (patTurn s (total - 4))
      (8, mkPAT (sh_TransportStreamID header) (sh_VersionNumber header) 0 ∅).

(** The section before its checksum is filled in: [s[:len(s)-4]]. *)
Definition patBody (transportStreamID serviceID pmtPID version : Z) : bytes :=
  let sectionLength := 5 + 4 + 4 in
  [TableIDPAT;
   Z.lor 0xb0 (u8 (Z.shiftr sectionLength 8));
   u8 sectionLength;
   u8 (Z.shiftr transportStreamID 8); u8 transportStreamID;
   Z.lor 0xc1 (u8 (Z.shiftl (Z.land version 0x1f) 1));
   0; 0;
   u8 (Z.shiftr serviceID 8); u8 serviceID;
   Z.lor 0xe0 (u8 (Z.shiftr pmtPID 8)); u8 pmtPID].

Definition BuildPATSection (transportStreamID serviceID pmtPID version : Z) : go Section_ :=
  if 0x1fff <? pmtPID then Err ErrInvalidPMTPID
  else
    let body := patBody transportStreamID serviceID pmtPID version in
    let crc := crc32MPEG2 body in
    Ret (body ++ [u8 (Z.shiftr crc 24); u8 (Z.shiftr crc 16); u8 (Z.shiftr crc 8); u8 crc]).

(** ** PMT *)

Record PMTElement := mkPMTElement {
  pe_StreamType : Z;
  pe_ElementaryPID : Z;
  pe_ESInfo : bytes;
  pe_Descriptors : list Descriptor
}.

Record PMT := mkPMT {
  pmt_ProgramNumber : Z;
  pmt_VersionNumber : Z;
  pmt_PCRPID : Z;
  pmt_ProgramInfo : bytes;
  pmt_Descriptors : list Descriptor;
  pmt_Elements : list PMTElement
}.

Definition pmtElement (s : bytes) (off : Z) (esInfo : bytes) : go PMTElement :=
  streamType ← idx s off;
  pid ← read13 s (off + 1);
  descriptors ← ParseDescriptors esInfo;
  Ret (mkPMTElement streamType pid esInfo descriptors).

Definition ParsePMT (s : Section_) : go PMT :=
  bad ← guardSection 16 [TableIDPMT] s;
  if (bad : bool) then Err ErrInvalidSection
  else
    header ← ParseSectionHeader s;
    programInfoLen ← read12 s 10;
    let infoStart := 12 in
    let infoEnd := infoStart + programInfoLen in
    total ← TotalLength s;
    let sectionEnd := total - 4 in
    if sectionEnd <? infoEnd then Err ErrInvalidSection
    else
      pcrPID ← read13 s 8;
      programInfo ← slice s infoStart infoEnd;
      descriptors ← ParseDescriptors programInfo;
      '(elements, _) ← entries 5 pmtElement s infoEnd sectionEnd;
      Ret (mkPMT (sh_ServiceID header) (sh_VersionNumber header) pcrPID programInfo
             descriptors elements).

(** ** SDT *)

Record SDTService := mkSDTService {
  ss_ServiceID : Z;
  ss_EITScheduleFlag : bool;
  ss_EITPresentFollowing : bool;
  ss_RunningStatus : Z;
  ss_FreeCAMode : bool;
  ss_Descriptors : list Descriptor
}.

Record SDT := mkSDT {
  sdt_TransportStreamID : Z;
  sdt_OriginalNetworkID : Z;
  sdt_VersionNumber : Z;
  sdt_Services : list SDTService
}.

Definition sdtService (s : bytes) (off : Z) (descriptors : bytes) : go SDTService :=
  id ← read16 s off;
  b2 ← idx s (off + 2);
  b3 ← idx s (off + 3);
  ds ← ParseDescriptors descriptors;
  Ret (mkSDTService id (flag b2 0x02) (flag b2 0x01) (Z.land (Z.shiftr b3 5) 0x07)
         (flag b3 0x10) ds).

Definition ParseSDT (s : Section_) : go SDT :=
  bad ← guardSection 15 [TableIDSDT0; TableIDSDT1] s;
  if (bad : bool) then Err ErrInvalidSection
  else
    header ← ParseSectionHeader s;
    total ← TotalLength s;
    let sectionEnd := total - 4 in
    onid ← read16 s 8;
    '(services, _) ← entries 5 sdtService s 11 sectionEnd;
    Ret (mkSDT (sh_TransportStreamID header) onid (sh_VersionNumber header) services).

(** ** NIT *)

Record NITTransportStream := mkNITTransportStream {
  nts_TransportStreamID : Z;
  nts_OriginalNetworkID : Z;
  nts_Descriptors : list Descriptor
}.

Record NIT := mkNIT {
  nit_NetworkID : Z;
  nit_TableID : Z;
  nit_VersionNumber : Z;
  nit_SectionNumber : Z;
  nit_LastSectionNumber : Z;
  nit_NetworkDescriptors : list Descriptor;
  nit_TransportStreams : list NITTransportStream
}.

Definition nitTransportStream (s : bytes) (off : Z) (data : bytes) : go NITTransportStream :=
  descriptors ← parseDescriptorsStrict data;
  tsid ← read16 s off;
  onid ← read16 s (off + 2);
  Ret (mkNITTransportStream tsid onid descriptors).

Definition ParseNIT (s : Section_) : go NIT :=
  bad ← guardSection 16 [TableIDNIT0; TableIDNIT1] s;
  if (bad : bool) then Err ErrInvalidSection
  else
    header ← ParseSectionHeader s;
    total ← TotalLength s;
    let sectionEnd := total - 4 in
    networkDescriptorsLen ← read12 s 8;
    let descStart := 10 in
    let descEnd := descStart + networkDescriptorsLen in
    if sectionEnd <? descEnd + 2 then Err ErrInvalidSection
    else
      raw ← slice s descStart descEnd;
      networkDescriptors ← parseDescriptorsStrict raw;
      let off := descEnd in
      transportStreamLoopLen ← read12 s off;
      let off := off + 2 in
      let loopEnd := off + transportStreamLoopLen in
      if negb (loopEnd =? sectionEnd) then Err ErrInvalidSection
      else
        networkID ← read16 s 3;
        '(streams, off) ← entries 6 nitTransportStream s off loopEnd;
        if negb (off =? loopEnd) then Err ErrInvalidSection
        else Ret (mkNIT networkID (sh_TableID header) (sh_VersionNumber header)
               (sh_SectionNumber header) (sh_LastSectionNumber header) networkDescriptors streams).

(** ** BIT *)

Record BITBroadcaster := mkBITBroadcaster {
  bb_BroadcasterID : Z;
  bb_Descriptors : list Descriptor
}.

Record BIT := mkBIT {
  bit_OriginalNetworkID : Z;
  bit_VersionNumber : Z;
  bit_CurrentNext : bool;
  bit_SectionNumber : Z;
  bit_LastSectionNumber : Z;
  bit_BroadcastViewPropriety : bool;
  bit_FirstDescriptors : list Descriptor;
  bit_Broadcasters : list BITBroadcaster
}.

Definition bitBroadcaster (s : bytes) (off : Z) (data : bytes) : go BITBroadcaster :=
  descriptors ← ParseDescriptors data;
  if negb (descriptorsLength descriptors =? len data) then Err ErrInvalidSection
  else id ← idx s off; Ret (mkBITBroadcaster id descriptors).

(** The loop runs while [off < end]; leaving it early with fewer than three
    bytes left is the error case. *)
Definition ParseBIT (s : Section_) : go BIT :=
  bad ← Ret (len s <? 14)
    ||! (tableID ← TableID s; Ret (negb (tableID =? TableIDBIT)))
    ||! (negb <$> SectionSyntaxIndicator s)
    ||! (total ← TotalLength s; Ret (len s <? total))
    ||! (negb <$> ValidateCRC s);
  if (bad : bool) then Err ErrInvalidSection
  else
    total ← TotalLength s;
    let end_ := total - 4 in
    firstLen ← read12 s 8;
    let firstEnd := 10 + firstLen in
    if end_ <? firstEnd then Err ErrInvalidSection
    else
      onid ← read16 s 3;
      b5 ← idx s 5; number ← idx s 6; last ← idx s 7; b8 ← idx s 8;
      first ← slice s 10 firstEnd;
      firstDescriptors ← ParseDescriptors first;
      if negb (descriptorsLength firstDescriptors =? firstLen) then Err ErrInvalidSection
      else
        '(broadcasters, off) ← entries 3 bitBroadcaster s firstEnd end_;
        if off <? end_ then Err ErrInvalidSection
        else Ret (mkBIT onid (Z.land (Z.shiftr b5 1) 0x1f) (flag b5 1) number last
               (flag b8 0x10) firstDescriptors broadcasters).

(** ** PAT: what is built is read back *)

Definition patPayload (serviceID pmtPID : Z) : bytes :=
  [hiByte serviceID; u8 serviceID; Z.lor 0xe0 (hiByte pmtPID); u8 pmtPID].

Lemma BuildPATSection_long tsid sid pid v : 0 <= v < 32 -> pid <= 0x1fff ->
  BuildPATSection tsid sid pid v = Ret (longSection TableIDPAT tsid v 0 0 (patPayload sid pid)).
Proof.
  intros Hv Hpid. unfold BuildPATSection. rewrite (proj2 (Z.ltb_ge _ _)) by lia.
  replace (patBody tsid sid pid v) with
    ([TableIDPAT; Z.lor 0xb0 (hiByte 13); u8 13; hiByte tsid; u8 tsid;
      Z.lor 0xc1 (Z.shiftl v 1); 0; 0] ++ patPayload sid pid); [done|].
  unfold patBody, patPayload. cbn [app]. do 5 f_equal. f_equal.
  assert (0 <= Z.shiftl v 1 < 256) by (rewrite Z.shiftl_mul_pow2 by lia; lia).
  rewrite land_1f, Z.mod_small by lia. by rewrite u8_small by lia.
Qed.

Lemma patPayload_ok tsid sid pid v : 0 <= tsid < 65536 -> 0 <= v < 32 ->
  long_ok TableIDPAT tsid v 0 0 (patPayload sid pid).
Proof.
  intros. constructor; try done; try (unfold byte_ok, TableIDPAT; lia).
  unfold patPayload, hiByte. auto 20 with bytes.
Qed.

Lemma ParsePAT_long tsid sid pid v :
  0 <= tsid < 65536 -> 0 < sid < 65536 -> 0 <= pid < 8192 -> 0 <= v < 32 ->
  ParsePAT (longSection TableIDPAT tsid v 0 0 (patPayload sid pid))
  = Ret (mkPAT tsid v 0 {[sid := pid]}).
Proof.
  intros Ht Hs Hp Hv. pose proof (patPayload_ok tsid sid pid v Ht Hv) as Hok.
  unfold ParsePAT. rewrite long_guard by (done || simpl; lia). cbn [mbind go_bind].
  rewrite long_header, long_TotalLength by done. cbn [mbind go_bind].
  change (12 + len (patPayload sid pid) - 4) with 12.
  set (s := longSection _ _ _ _ _ _).
  assert (len s = 16) as Hlen by (unfold s; by rewrite long_len).
  rewrite loop_S. cbn [patTurn]. unfold read16, read13, readMasked.
  change (8 + 4 <=? 12) with true. rewrite !idx_byteAt by (rewrite Hlen; lia). cbn [mbind go_bind].
  change (byteAt s 8) with (hiByte sid). change (byteAt s (8 + 1)) with (u8 sid).
  change (byteAt s (8 + 2)) with (Z.lor 0xe0 (hiByte pid)).
  change (byteAt s (8 + 2 + 1)) with (u8 pid).
  rewrite field16, field13 by (done || lia). rewrite (proj2 (Z.eqb_neq sid 0)) by lia.
  change (length s) with 16%nat. rewrite loop_S. done.
Qed.

(** ** Entry codecs *)

(** [byteAt] inside an entry that stands anywhere in a section. *)
Lemma byteAt_mid pre l post i : 0 <= i < len l -> byteAt (pre ++ l ++ post) (len pre + i) = byteAt l i.
Proof.
  intros Hi. rewrite byteAt_app_r by lia. rewrite byteAt_app by lia. f_equal. lia.
Qed.

Lemma idx_mid pre l post i : 0 <= i < len l -> idx (pre ++ l ++ post) (len pre + i) = Ret (byteAt l i).
Proof.
  intros Hi. rewrite idx_byteAt by (rewrite !length_app; lia). by rewrite byteAt_mid.
Qed.

Lemma read16_mid pre l post i : 0 <= i -> i + 1 < len l ->
  read16 (pre ++ l ++ post) (len pre + i) = Ret (be (byteAt l i) (byteAt l (i + 1))).
Proof.
  intros. unfold read16. rewrite <- Z.add_assoc, !idx_mid by lia. done.
Qed.

Lemma read13_mid pre l post i : 0 <= i -> i + 1 < len l ->
  read13 (pre ++ l ++ post) (len pre + i) = Ret (be (Z.land (byteAt l i) 0x1f) (byteAt l (i + 1))).
Proof.
  intros. unfold read13, readMasked. rewrite <- Z.add_assoc, !idx_mid by lia. done.
Qed.

(** A descriptor loop that fits a 12-bit length. *)
Definition loop_ok (ds : list Descriptor) : Prop := Forall descriptor_ok ds /\ len (concat ds) < 4096.

Lemma loop_bytes ds : loop_ok ds -> bytes_ok (concat ds).
Proof. intros [H _]. apply Forall_concat. eapply Forall_impl; [exact H|]. by intros d (? & _). Qed.

Definition elementHeader (e : PMTElement) : bytes :=
  [pe_StreamType e; Z.lor 0xe0 (hiByte (pe_ElementaryPID e)); u8 (pe_ElementaryPID e);
   Z.lor 0xf0 (hiByte (len (pe_ESInfo e))); u8 (len (pe_ESInfo e))].

Definition element_ok (e : PMTElement) : Prop :=
  byte_ok (pe_StreamType e) /\ 0 <= pe_ElementaryPID e < 8192
  /\ loop_ok (pe_Descriptors e) /\ pe_ESInfo e = concat (pe_Descriptors e).

Lemma element_codec e : element_ok e -> entry_codec 5 pmtElement elementHeader pe_ESInfo e.
Proof.
  intros (Hst & Hpid & [Hds Hlen] & Hinfo). rewrite <- Hinfo in Hlen. constructor.
  - done.
  - change (be (Z.land (Z.lor 0xf0 (hiByte (len (pe_ESInfo e)))) 0x0f) (u8 (len (pe_ESInfo e))) = len (pe_ESInfo e)).
    apply field12; [done|lia].
  - intros pre post. unfold pmtElement.
    rewrite <- (Z.add_0_r (len pre)) at 1. rewrite idx_mid by (rewrite length_app; simpl; lia).
    cbn [mbind go_bind]. rewrite read13_mid by (rewrite ?length_app; simpl; lia). cbn [mbind go_bind].
    assert (ParseDescriptors (pe_ESInfo e) = Ret (pe_Descriptors e)) as ->.
    { rewrite Hinfo. by apply ParseDescriptors_concat. }
    cbn [mbind go_bind].
    change (byteAt (elementHeader e ++ pe_ESInfo e) 0) with (pe_StreamType e).
    change (byteAt (elementHeader e ++ pe_ESInfo e) 1) with (Z.lor 0xe0 (hiByte (pe_ElementaryPID e))).
    change (byteAt (elementHeader e ++ pe_ESInfo e) (1 + 1)) with (u8 (pe_ElementaryPID e)).
    rewrite field13 by (done || lia). by destruct e.
Qed.

Definition pmtPayload (p : PMT) : bytes :=
  [Z.lor 0xe0 (hiByte (pmt_PCRPID p)); u8 (pmt_PCRPID p);
   Z.lor 0xf0 (hiByte (len (pmt_ProgramInfo p))); u8 (len (pmt_ProgramInfo p))]
  ++ pmt_ProgramInfo p ++ encodeEntries elementHeader pe_ESInfo (pmt_Elements p).

Definition encodePMT (p : PMT) : Section_ :=
  longSection TableIDPMT (pmt_ProgramNumber p) (pmt_VersionNumber p) 0 0 (pmtPayload p).

(** A PMT that fits one section, its raw fields the bytes of its descriptors. *)
Definition pmt_ok (p : PMT) : Prop :=
  0 <= pmt_ProgramNumber p < 65536 /\ 0 <= pmt_VersionNumber p < 32 /\ 0 <= pmt_PCRPID p < 8192
  /\ loop_ok (pmt_Descriptors p) /\ pmt_ProgramInfo p = concat (pmt_Descriptors p)
  /\ Forall element_ok (pmt_Elements p) /\ len (pmtPayload p) <= 4086.

Lemma encodeEntries_bytes {A} (header data : A -> bytes) xs :
  Forall (fun x => bytes_ok (header x) /\ bytes_ok (data x)) xs -> bytes_ok (encodeEntries header data xs).
Proof.
  induction 1 as [|x xs [? ?] _ IH]; [constructor|]. unfold encodeEntries in *. simpl.
  auto with bytes.
Qed.

Lemma pmtPayload_long p : pmt_ok p ->
  long_ok TableIDPMT (pmt_ProgramNumber p) (pmt_VersionNumber p) 0 0 (pmtPayload p).
Proof.
  intros (H1 & H2 & H3 & H4 & H5 & H6 & H7).
  constructor; try done; try (unfold byte_ok, TableIDPMT; lia).
  unfold pmtPayload. apply bytes_ok_app; [unfold hiByte; auto 20 with bytes|].
  apply bytes_ok_app; [rewrite H5; by apply loop_bytes|]. apply encodeEntries_bytes.
  eapply Forall_impl; [exact H6|]. intros e (? & ? & Hl & ->). split; [|by apply loop_bytes].
  unfold elementHeader, hiByte. auto 20 with bytes.
Qed.

Lemma ParsePMT_encode p : pmt_ok p -> ParsePMT (encodePMT p) = Ret p.
Proof.
  intros Hp. pose proof (pmtPayload_long p Hp) as Hok.
  destruct Hp as (H1 & H2 & H3 & [H4 H4'] & H5 & H6 & H7). rewrite <- H5 in H4'.
  unfold ParsePMT, encodePMT.
  assert (4 <= len (pmtPayload p)) as Hmin.
  { unfold pmtPayload. rewrite length_app. simpl. lia. }
  rewrite long_guard by (done || lia). cbn [mbind go_bind].
  rewrite long_header, long_TotalLength by done. cbn [mbind go_bind sh_ServiceID sh_VersionNumber].
  pose proof (long_len _ _ _ _ _ _ Hok) as Hlen. set (s := longSection _ _ _ _ _ _) in *.
  rewrite read12_at by lia. cbn [mbind go_bind].
  change (byteAt s 10) with (Z.lor 0xf0 (hiByte (len (pmt_ProgramInfo p)))).
  change (byteAt s (10 + 1)) with (u8 (len (pmt_ProgramInfo p))).
  rewrite field12 by (done || lia).
  assert (len (pmtPayload p) = 4 + len (pmt_ProgramInfo p)
    + len (encodeEntries elementHeader pe_ESInfo (pmt_Elements p))) as Hpl.
  { unfold pmtPayload. rewrite !length_app. simpl. lia. }
  rewrite (proj2 (Z.ltb_ge _ _)) by lia. unfold read13, readMasked.
  rewrite !idx_byteAt by lia. cbn [mbind go_bind].
  change (byteAt s 8) with (Z.lor 0xe0 (hiByte (pmt_PCRPID p))).
  change (byteAt s (8 + 1)) with (u8 (pmt_PCRPID p)). rewrite field13 by (done || lia).
  set (pre := take 12 s). set (crc := be32 (crc32MPEG2 (take 8 s ++ pmtPayload p))).
  assert (s = pre ++ pmt_ProgramInfo p ++ encodeEntries elementHeader pe_ESInfo (pmt_Elements p) ++ crc) as Es.
  { unfold crc, pre, s, longSection, seal, pmtPayload. cbn [app take]. by rewrite <- !app_assoc. }
  assert (len pre = 12) as Epre by (unfold pre; rewrite length_take; lia).
  assert (slice s 12 (12 + len (pmt_ProgramInfo p)) = Ret (pmt_ProgramInfo p)) as ->.
  { rewrite Es. apply slice_mid; lia. }
  cbn [mbind go_bind].
  assert (ParseDescriptors (pmt_ProgramInfo p) = Ret (pmt_Descriptors p)) as ->.
  { rewrite H5. by apply ParseDescriptors_concat. }
  cbn [mbind go_bind].
  rewrite (entries_encoded 5 pmtElement elementHeader pe_ESInfo ltac:(lia) (pmt_Elements p)
    (pre ++ pmt_ProgramInfo p) crc); [by destruct p| |by rewrite <- app_assoc|rewrite length_app; lia..].
  eapply Forall_impl; [exact H6|]. apply element_codec.
Qed.

(** ** A PAT of any programs *)

(** The entries of a PAT, program number and PID; number 0 gives the network
    PID. *)
Definition patEntries (es : list (Z * Z)) : bytes := concat ((fun e => patPayload (fst e) (snd e)) <$> es).

Definition encodePAT (tsid version number last : Z) (es : list (Z * Z)) : Section_ :=
  longSection TableIDPAT tsid version number last (patEntries es).

Definition patEntry_ok (e : Z * Z) : Prop := 0 <= fst e < 65536 /\ 0 <= snd e < 8192.

(** What a list of entries says: for each number the last entry counts. *)
Definition patOf (tsid version : Z) (es : list (Z * Z)) : PAT :=
  mkPAT tsid version (default 0 (last (snd <$> filter (fun e => fst e = 0) es)))
    (list_to_map (reverse (filter (fun e => fst e <> 0) es))).

Lemma len_patEntries es : len (patEntries es) = 4 * len es.
Proof. unfold patEntries. induction es as [|e es IH]; [done|]. rewrite fmap_cons. cbn [concat]. rewrite length_app. simpl in *. lia. Qed.

Lemma patEntries_snoc es e : patEntries (es ++ [e]) = patEntries es ++ patPayload (fst e) (snd e).
Proof. unfold patEntries. rewrite fmap_app, concat_app. simpl. done. Qed.

Lemma patOf_snoc tsid v es program pid :
  patOf tsid v (es ++ [(program, pid)])
  = let pat := patOf tsid v es in
    if program =? 0 then mkPAT tsid v pid (pat_Programs pat)
    else mkPAT tsid v (pat_NetworkPID pat) (<[program := pid]> (pat_Programs pat)).
Proof.
  unfold patOf. rewrite !filter_app. cbn [pat_Programs pat_NetworkPID]. destruct (Z.eqb_spec program 0) as [->|Hne].
  - rewrite (filter_cons_True _ (0, pid)), filter_nil by done. rewrite (filter_cons_False _ (0, pid)), filter_nil by (simpl; lia).
    rewrite fmap_app, app_nil_r. simpl. by rewrite last_snoc.
  - rewrite (filter_cons_False _ (program, pid)), filter_nil by done. rewrite (filter_cons_True _ (program, pid)), filter_nil by done.
    by rewrite app_nil_r, reverse_snoc.
Qed.

Lemma patTurns s tsid v pre rest : forall es done_ fuel, Forall patEntry_ok es -> s = pre ++ patEntries (done_ ++ es) ++ rest ->
  (length es < fuel)%nat ->
  loop fuel (patTurn s (len pre + len (patEntries (done_ ++ es)))) (len pre + len (patEntries done_), patOf tsid v done_)
  = Ret (patOf tsid v (done_ ++ es)).
Proof.
  induction es as [|[program pid] es IH]; intros done_ fuel Hes Es Hfuel; (destruct fuel as [|fuel]; [lia|]); rewrite loop_S; cbn [patTurn].
  - rewrite app_nil_r, (proj2 (Z.leb_gt _ _)) by lia. done.
  - inversion_clear Hes as [|? ? [Hp Hq] Hes']. cbn [fst snd] in *. specialize (IH (done_ ++ [(program, pid)]) fuel).
    rewrite <- app_assoc in IH. cbn [app] in IH. specialize (IH Hes' Es ltac:(simpl in Hfuel; lia)).
    rewrite (proj2 (Z.leb_le _ _)) by (rewrite !len_patEntries, length_app; simpl; lia).
    assert (s = (pre ++ patEntries done_) ++ patPayload program pid ++ (patEntries es ++ rest)) as Em.
    { rewrite Es. change ((program, pid) :: es) with ([(program, pid)] ++ es). rewrite app_assoc. unfold patEntries. rewrite !fmap_app, !concat_app. simpl. by rewrite <- !app_assoc. }
    assert (read16 s (len pre + len (patEntries done_)) = Ret program) as ->.
    { rewrite Em. replace (len pre + len (patEntries done_)) with (len (pre ++ patEntries done_) + 0) by (rewrite length_app; lia).
      rewrite read16_mid by (simpl; lia). change (byteAt (patPayload program pid) 0) with (hiByte program). change (byteAt (patPayload program pid) (0 + 1)) with (u8 program). by rewrite field16. }
    assert (read13 s (len pre + len (patEntries done_) + 2) = Ret pid) as ->.
    { rewrite Em. replace (len pre + len (patEntries done_) + 2) with (len (pre ++ patEntries done_) + 2) by (rewrite length_app; lia).
      rewrite read13_mid by (simpl; lia). change (byteAt (patPayload program pid) 2) with (Z.lor 0xe0 (hiByte pid)). change (byteAt (patPayload program pid) (2 + 1)) with (u8 pid). by rewrite field13 by (done || lia). }
    cbn [mbind go_bind]. rewrite <- IH. rewrite patOf_snoc, patEntries_snoc, length_app. cbv zeta. cbn [fst snd].
    replace (len pre + Z.of_nat (length (patEntries done_) + length (patPayload program pid))) with (len pre + len (patEntries done_) + 4) by (simpl; lia). done.
Qed.

Lemma ParsePAT_encode tsid v number last es : 0 <= tsid < 65536 -> 0 <= v < 32 -> byte_ok number -> byte_ok last ->
  Forall patEntry_ok es -> len es <= 1021 -> ParsePAT (encodePAT tsid v number last es) = Ret (patOf tsid v es).
Proof.
  intros Ht Hv Hn Hl Hes Hlen. pose proof (len_patEntries es) as Hle. assert (long_ok TableIDPAT tsid v number last (patEntries es)) as Hok.
  { constructor; try done; try (unfold byte_ok, TableIDPAT; lia). unfold patEntries. apply Forall_concat, Forall_fmap, Forall_forall. intros e _. unfold patPayload, hiByte. simpl. auto 20 with bytes. }
  unfold ParsePAT, encodePAT. rewrite long_guard by (done || lia). cbn [mbind go_bind].
  rewrite long_header, long_TotalLength by done. cbn [mbind go_bind sh_TransportStreamID sh_VersionNumber].
  set (s := longSection _ _ _ _ _ _). set (rest := be32 (crc32MPEG2 (take 8 s ++ patEntries es))).
  replace (12 + len (patEntries es) - 4) with (len (take 8 s) + len (patEntries ([] ++ es))) by (simpl; lia).
  apply (patTurns s tsid v (take 8 s) rest es []); [done|done|]. pose proof (long_len _ _ _ _ _ _ Hok). fold s in H. lia.
Qed.

(** ** SDT and NIT *)

(** The byte that carries running_status, free_CA_mode and the upper bits of a
    descriptor loop's length. *)
Definition statusByte (status : Z) (ca : bool) (n : Z) : Z :=
  status * 32 + (if ca then 16 else 0) + Z.shiftr n 8.

Lemma statusByte_fields status ca n : 0 <= status < 8 -> 0 <= n < 4096 ->
  let b := statusByte status ca n in
  byte_ok b /\ be (Z.land b 0x0f) (u8 n) = n /\ Z.land (Z.shiftr b 5) 0x07 = status /\ flag b 0x10 = ca.
Proof.
  intros Hs Hn b. assert (0 <= Z.shiftr n 8 < 16) as Hh by (apply shiftr_range; lia).
  assert (byte_ok b) as Hb by (unfold b, statusByte, byte_ok; destruct ca; lia).
  pose proof (range_forallb (fun x => (Z.land (Z.shiftr x 5) 7 =? x / 32)
    && Bool.eqb (flag x 0x10) (x / 16 mod 2 =? 1)) 256 ltac:(vm_compute; reflexivity) b Hb) as H.
  cbv beta in H. apply andb_true_iff in H as [E1 E2]. apply Z.eqb_eq in E1. apply eqb_prop in E2.
  conjs; [done| | |].
  - rewrite land_0f. replace (b mod 16) with (Z.shiftr n 8); [apply be_shift; lia|].
    unfold b, statusByte. destruct ca; dmlia.
  - rewrite E1. unfold b, statusByte. destruct ca; dmlia.
  - rewrite E2. unfold b, statusByte.
    destruct ca; [apply Z.eqb_eq|apply Z.eqb_neq]; dmlia.
Qed.

Definition serviceHeader (x : SDTService) : bytes :=
  let n := len (concat (ss_Descriptors x)) in
  [hiByte (ss_ServiceID x); u8 (ss_ServiceID x);
   0xfc + (if ss_EITScheduleFlag x then 2 else 0) + (if ss_EITPresentFollowing x then 1 else 0);
   statusByte (ss_RunningStatus x) (ss_FreeCAMode x) n; u8 n].

Definition serviceData (x : SDTService) : bytes := concat (ss_Descriptors x).

Definition service_ok (x : SDTService) : Prop :=
  0 <= ss_ServiceID x < 65536 /\ 0 <= ss_RunningStatus x < 8 /\ loop_ok (ss_Descriptors x).

Lemma service_codec x : service_ok x -> entry_codec 5 sdtService serviceHeader serviceData x.
Proof.
  intros (Hid & Hrs & Hds & Hlen).
  destruct (statusByte_fields (ss_RunningStatus x) (ss_FreeCAMode x) (len (serviceData x)))
    as (_ & E1 & E2 & E3); [done|unfold serviceData; lia|]. constructor.
  - done.
  - exact E1.
  - intros pre post. unfold sdtService.
    rewrite <- (Z.add_0_r (len pre)) at 1. rewrite read16_mid by (rewrite ?length_app; simpl; lia).
    cbn [mbind go_bind]. rewrite !idx_mid by (rewrite length_app; simpl; lia). cbn [mbind go_bind].
    rewrite (proj1 (ParseDescriptors_concat _ Hds) : ParseDescriptors (serviceData x) = _).
    cbn [mbind go_bind].
    set (l := serviceHeader x ++ serviceData x).
    change (byteAt l 0) with (hiByte (ss_ServiceID x)). change (byteAt l (0 + 1)) with (u8 (ss_ServiceID x)).
    change (byteAt l 3) with (statusByte (ss_RunningStatus x) (ss_FreeCAMode x) (len (serviceData x))).
    rewrite field16, E2, E3 by done.
    change (byteAt l 2) with (0xfc + (if ss_EITScheduleFlag x then 2 else 0)
      + (if ss_EITPresentFollowing x then 1 else 0)).
    by destruct x as [? [] [] ? ? ?].
Qed.

Definition sdtPayload (t : SDT) : bytes :=
  [hiByte (sdt_OriginalNetworkID t); u8 (sdt_OriginalNetworkID t); 0xff]
  ++ encodeEntries serviceHeader serviceData (sdt_Services t).

Definition encodeSDT (tableID : Z) (t : SDT) : Section_ :=
  longSection tableID (sdt_TransportStreamID t) (sdt_VersionNumber t) 0 0 (sdtPayload t).

Definition sdt_ok (t : SDT) : Prop :=
  0 <= sdt_TransportStreamID t < 65536 /\ 0 <= sdt_OriginalNetworkID t < 65536
  /\ 0 <= sdt_VersionNumber t < 32 /\ Forall service_ok (sdt_Services t)
  /\ len (sdtPayload t) <= 4086.

Lemma sdtPayload_long tableID t : tableID = TableIDSDT0 \/ tableID = TableIDSDT1 -> sdt_ok t ->
  long_ok tableID (sdt_TransportStreamID t) (sdt_VersionNumber t) 0 0 (sdtPayload t).
Proof.
  intros Hid (H1 & H2 & H3 & H4 & H5).
  constructor; try done; try (unfold byte_ok; lia).
  { unfold byte_ok. destruct Hid as [-> | ->]; unfold TableIDSDT0, TableIDSDT1; lia. }
  unfold sdtPayload. apply bytes_ok_app; [unfold hiByte; auto 20 with bytes|].
  apply encodeEntries_bytes. eapply Forall_impl; [exact H4|]. intros x (Hi & Hrs & Hl).
  split; [|by apply loop_bytes]. unfold serviceHeader, hiByte. destruct Hl as [_ Hl].
  destruct (statusByte_fields (ss_RunningStatus x) (ss_FreeCAMode x)
    (len (concat (ss_Descriptors x)))) as (Hb & _); [done|lia|].
  assert (byte_ok (0xfc + (if ss_EITScheduleFlag x then 2 else 0)
    + (if ss_EITPresentFollowing x then 1 else 0))).
  { unfold byte_ok. destruct (ss_EITScheduleFlag x), (ss_EITPresentFollowing x); lia. }
  auto 20 with bytes.
Qed.

Lemma ParseSDT_encode tableID t : tableID = TableIDSDT0 \/ tableID = TableIDSDT1 -> sdt_ok t ->
  ParseSDT (encodeSDT tableID t) = Ret t.
Proof.
  intros Hid Ht. pose proof (sdtPayload_long tableID t Hid Ht) as Hok.
  destruct Ht as (H1 & H2 & H3 & H4 & H5).
  assert (len (sdtPayload t) = 3 + len (encodeEntries serviceHeader serviceData (sdt_Services t))) as Hpl.
  { unfold sdtPayload. rewrite length_app. simpl. lia. }
  unfold ParseSDT, encodeSDT.
  rewrite long_guard by (done || (by destruct Hid as [-> | ->]) || lia). cbn [mbind go_bind].
  rewrite long_header, long_TotalLength by done.
  cbn [mbind go_bind sh_TransportStreamID sh_VersionNumber].
  pose proof (long_len _ _ _ _ _ _ Hok) as Hlen. set (s := longSection _ _ _ _ _ _) in *.
  unfold read16. rewrite !idx_byteAt by lia. cbn [mbind go_bind].
  change (byteAt s 8) with (hiByte (sdt_OriginalNetworkID t)).
  change (byteAt s (8 + 1)) with (u8 (sdt_OriginalNetworkID t)). rewrite field16 by done.
  set (pre := take 11 s). set (crc := be32 (crc32MPEG2 (take 8 s ++ sdtPayload t))).
  assert (s = pre ++ encodeEntries serviceHeader serviceData (sdt_Services t) ++ crc) as Es.
  { unfold crc, pre, s, longSection, seal, sdtPayload. cbn [app take]. done. }
  assert (len pre = 11) as Epre by (unfold pre; rewrite length_take; lia).
  rewrite (entries_encoded 5 sdtService serviceHeader serviceData ltac:(lia) (sdt_Services t) pre crc);
    [by destruct t| |done|lia..].
  eapply Forall_impl; [exact H4|]. apply service_codec.
Qed.

Definition streamHeader (x : NITTransportStream) : bytes :=
  let n := len (concat (nts_Descriptors x)) in
  [hiByte (nts_TransportStreamID x); u8 (nts_TransportStreamID x);
   hiByte (nts_OriginalNetworkID x); u8 (nts_OriginalNetworkID x);
   Z.lor 0xf0 (hiByte n); u8 n].

Definition streamData (x : NITTransportStream) : bytes := concat (nts_Descriptors x).

Definition stream_ok (x : NITTransportStream) : Prop :=
  0 <= nts_TransportStreamID x < 65536 /\ 0 <= nts_OriginalNetworkID x < 65536
  /\ loop_ok (nts_Descriptors x).

Lemma stream_codec x : stream_ok x -> entry_codec 6 nitTransportStream streamHeader streamData x.
Proof.
  intros (Ht & Ho & Hds & Hlen). constructor.
  - done.
  - change (be (Z.land (Z.lor 0xf0 (hiByte (len (streamData x)))) 0x0f) (u8 (len (streamData x)))
      = len (streamData x)). unfold streamData. apply field12; [done|lia].
  - intros pre post. unfold nitTransportStream.
    rewrite (proj2 (ParseDescriptors_concat _ Hds) : parseDescriptorsStrict (streamData x) = _). cbn [mbind go_bind].
    rewrite <- (Z.add_0_r (len pre)) at 1.
    rewrite !read16_mid by (rewrite ?length_app; simpl; lia). cbn [mbind go_bind].
    set (l := streamHeader x ++ streamData x).
    change (byteAt l 0) with (hiByte (nts_TransportStreamID x)).
    change (byteAt l (0 + 1)) with (u8 (nts_TransportStreamID x)).
    change (byteAt l 2) with (hiByte (nts_OriginalNetworkID x)).
    change (byteAt l (2 + 1)) with (u8 (nts_OriginalNetworkID x)).
    rewrite !field16 by done. by destruct x.
Qed.

Definition nitStreams (t : NIT) : bytes := encodeEntries streamHeader streamData (nit_TransportStreams t).

Definition nitPayload (t : NIT) : bytes :=
  let n := len (concat (nit_NetworkDescriptors t)) in
  [Z.lor 0xf0 (hiByte n); u8 n] ++ concat (nit_NetworkDescriptors t)
  ++ [Z.lor 0xf0 (hiByte (len (nitStreams t))); u8 (len (nitStreams t))] ++ nitStreams t.

Definition encodeNIT (t : NIT) : Section_ :=
  longSection (nit_TableID t) (nit_NetworkID t) (nit_VersionNumber t) (nit_SectionNumber t)
    (nit_LastSectionNumber t) (nitPayload t).

Definition nit_ok (t : NIT) : Prop :=
  (nit_TableID t = TableIDNIT0 \/ nit_TableID t = TableIDNIT1)
  /\ 0 <= nit_NetworkID t < 65536 /\ 0 <= nit_VersionNumber t < 32
  /\ byte_ok (nit_SectionNumber t) /\ byte_ok (nit_LastSectionNumber t)
  /\ loop_ok (nit_NetworkDescriptors t) /\ Forall stream_ok (nit_TransportStreams t)
  /\ len (nitPayload t) <= 4086.

Lemma nitPayload_long t : nit_ok t ->
  long_ok (nit_TableID t) (nit_NetworkID t) (nit_VersionNumber t) (nit_SectionNumber t)
    (nit_LastSectionNumber t) (nitPayload t).
Proof.
  intros (H0 & H1 & H2 & H3 & H4 & H5 & H6 & H7). constructor; try done.
  { unfold byte_ok. destruct H0 as [-> | ->]; unfold TableIDNIT0, TableIDNIT1; lia. }
  unfold nitPayload, hiByte. pose proof (loop_bytes _ H5).
  assert (bytes_ok (nitStreams t)).
  { apply encodeEntries_bytes. eapply Forall_impl; [exact H6|]. intros x (? & ? & Hl).
    split; [|by apply loop_bytes]. unfold streamHeader, hiByte. auto 20 with bytes. }
  auto 20 with bytes.
Qed.

Lemma ParseNIT_encode t : nit_ok t -> ParseNIT (encodeNIT t) = Ret t.
Proof.
  intros Ht. pose proof (nitPayload_long t Ht) as Hok.
  destruct Ht as (H0 & H1 & H2 & H3 & H4 & [H5 H5'] & H6 & H7).
  set (D := concat (nit_NetworkDescriptors t)) in *.
  assert (len (nitPayload t) = 4 + len D + len (nitStreams t)) as Hpl.
  { unfold nitPayload. fold D. rewrite !length_app. simpl. lia. }
  unfold ParseNIT, encodeNIT.
  rewrite long_guard by (done || (by destruct H0 as [-> | ->]) || lia). cbn [mbind go_bind].
  rewrite long_header, long_TotalLength by done. cbn [mbind go_bind].
  pose proof (long_len _ _ _ _ _ _ Hok) as Hlen. set (s := longSection _ _ _ _ _ _) in *.
  rewrite (read12_at s 8) by lia. cbn [mbind go_bind].
  change (byteAt s 8) with (Z.lor 0xf0 (hiByte (len D))). change (byteAt s (8 + 1)) with (u8 (len D)).
  rewrite field12 by (done || lia). rewrite (proj2 (Z.ltb_ge _ _)) by lia.
  set (pre := take 10 s). set (crc := be32 (crc32MPEG2 (take 8 s ++ nitPayload t))).
  set (mid := [Z.lor 0xf0 (hiByte (len (nitStreams t))); u8 (len (nitStreams t))]).
  assert (s = pre ++ D ++ mid ++ nitStreams t ++ crc) as Es.
  { unfold crc, pre, s, longSection, seal, nitPayload. fold D mid. cbn [app take].
    by rewrite <- !app_assoc. }
  assert (len pre = 10) as Epre by (unfold pre; rewrite length_take; lia).
  assert (slice s 10 (10 + len D) = Ret D) as -> by (rewrite Es; apply slice_mid; lia).
  cbn [mbind go_bind].
  rewrite (proj2 (ParseDescriptors_concat _ H5) : parseDescriptorsStrict D = _). cbn [mbind go_bind].
  assert (read12 s (10 + len D) = Ret (len (nitStreams t))) as ->.
  { rewrite read12_at by lia. rewrite Es, app_assoc.
    assert (len (pre ++ D) = 10 + len D) as <- by (rewrite length_app; lia).
    rewrite byteAt_mid by (simpl; lia).
    rewrite <- (Z.add_0_r (len (pre ++ D))) at 1. rewrite byteAt_mid by (simpl; lia). cbn [mid].
    change (byteAt mid 0) with (Z.lor 0xf0 (hiByte (len (nitStreams t)))).
    change (byteAt mid 1) with (u8 (len (nitStreams t))). by rewrite field12 by (done || lia). }
  cbn [mbind go_bind]. rewrite (proj2 (Z.eqb_eq _ _)) by lia. cbn [negb].
  unfold read16. rewrite !idx_byteAt by lia. cbn [mbind go_bind].
  change (byteAt s 3) with (hiByte (nit_NetworkID t)). change (byteAt s (3 + 1)) with (u8 (nit_NetworkID t)).
  rewrite field16 by done.
  assert (len mid = 2) as Emid by done.
  rewrite (entries_encoded 6 nitTransportStream streamHeader streamData ltac:(lia)
    (nit_TransportStreams t) (pre ++ D ++ mid) crc).
  - cbn [mbind go_bind]. rewrite Z.eqb_refl. by destruct t.
  - eapply Forall_impl; [exact H6|]. apply stream_codec.
  - rewrite Es. by rewrite <- !app_assoc.
  - rewrite !length_app. lia.
  - rewrite !length_app. unfold nitStreams. lia.
Qed.

(** ** Every parser on every input *)

Lemma wp_TotalLength s (Q : Z -> Prop) : bytes_ok s -> 3 <= len s ->
  Q (totalOf s) -> wp (TotalLength s) Q.
Proof. intros Hs H3 HQ. by rewrite TotalLength_eq. Qed.

(** Runs a parser: the guard leaves the facts it established, the entry loop
    its bounds. *)
Ltac parse_step :=
  match goal with
  | |- wp (guardSection _ _ _) _ => apply wp_guardSection; [auto with bytes|lia|exact I|intros ? ? ? ?]
  | |- wp (ParseSectionHeader _) _ => apply wp_ParseSectionHeader; [auto with bytes|intros ? ? ?]
  | |- wp (TotalLength _) _ => apply wp_TotalLength; [auto with bytes|lia|]
  | |- wp (ParseDescriptors _) _ => apply wp_ParseDescriptors; [auto with bytes|intros ? ?]
  | |- wp (parseDescriptorsStrict _) _ => apply wp_parseDescriptorsStrict; [auto with bytes|intros ? ?]
  | |- wp (let _ := _ in _) _ => cbv zeta
  | |- safe _ => unfold safe
  | |- _ => go_step
  end.

Ltac parse_run := repeat parse_step; try exact I.

Lemma ParsePAT_safe s : bytes_ok s -> safe (ParsePAT s).
Proof.
  intros Hs. unfold ParsePAT. parse_run.
  destruct (Z.leb_spec (totalOf s - 4) 8).
  - rewrite loop_S. cbn [patTurn]. rewrite (proj2 (Z.leb_gt _ _)) by lia. done.
  - apply (wp_loop (fun '(off, _) => 8 <= off <= totalOf s - 1) (fun '(off, _) => len s - off)); [|lia..].
    intros [off pat] Hoff. unfold patTurn. parse_run. lia.
Qed.

Lemma ParsePMT_safe s : bytes_ok s -> safe (ParsePMT s).
Proof.
  intros Hs. unfold ParsePMT. parse_run.
  apply (wp_entries _ _ _ _ _ (fun _ => True)); [done|lia|lia|lia| |done].
  intros o d Ho He Hd. unfold pmtElement. parse_run.
Qed.

Lemma ParseSDT_safe s : bytes_ok s -> safe (ParseSDT s).
Proof.
  intros Hs. unfold ParseSDT. parse_run.
  apply (wp_entries _ _ _ _ _ (fun _ => True)); [done|lia|lia|lia| |done].
  intros o d Ho He Hd. unfold sdtService. parse_run.
Qed.

Lemma ParseNIT_safe s : bytes_ok s -> safe (ParseNIT s).
Proof.
  intros Hs. unfold ParseNIT. parse_run.
  apply (wp_entries _ _ _ _ _ (fun _ => True)); [done|lia|lia|lia| |].
  - intros o d Ho He Hd. unfold nitTransportStream. parse_run.
  - intros xs o _ _. by case_match.
Qed.

Lemma ParseBIT_safe s : bytes_ok s -> safe (ParseBIT s).
Proof.
  intros Hs. unfold ParseBIT. unfold safe. apply wp_bind.
  apply (wp_mono _ (fun bad => bad = false -> 14 <= len s /\ totalOf s <= len s)).
  { destruct (Z.ltb_spec (len s) 14); [done|]. unfold TableID, SectionSyntaxIndicator.
    rewrite !idx_byteAt, TotalLength_eq by lia. cbn [goor mbind go_bind fmap go_fmap].
    destruct (negb _); [done|]. cbn [goor mbind go_bind]. destruct (negb _); [done|].
    cbn [goor mbind go_bind]. destruct (Z.ltb_spec (len s) (totalOf s)); [done|].
    unfold goor. cbn [mbind go_bind]. rewrite ValidateCRC_eq by (done || lia). simpl. auto. }
  intros [] Hbad; [done|]. destruct Hbad; [done|]. parse_run.
  apply (wp_entries _ _ _ _ _ (fun _ => True)); [done|lia|lia|lia| |].
  - intros o d Ho He Hd. unfold bitBroadcaster. parse_run.
  - intros xs o _ _. by case_match.
Qed.

(** ** Properties *)

(** A PMT PID beyond 13 bits is refused, any other makes a PAT. *)
Lemma BuildPATSection_parses (tsid sid pid version : Z) (Ht : 0 <= tsid < 65536)
    (Hs : 0 < sid < 65536) (Hp : 0 <= pid) (Hv : 0 <= version < 32) :
  if pid <=? 0x1fff
  then returns (BuildPATSection tsid sid pid version) (fun s =>
         valid_section s /\ ParsePAT s = Ret (mkPAT tsid version 0 {[sid := pid]}))
  else BuildPATSection tsid sid pid version = Err ErrInvalidPMTPID.
Proof.
  destruct (Z.leb_spec pid 0x1fff).
  - eexists. split; [by apply BuildPATSection_long|]. split.
    + by apply long_valid, patPayload_ok.
    + apply ParsePAT_long; lia.
  - unfold BuildPATSection. by rewrite (proj2 (Z.ltb_lt _ _)) by lia.
Qed.

(** C40: tables written as sections in the layout of the standard are parsed
    back exactly.  A PAT of any entries that fit a section keeps its transport
    stream, version, every program with its PMT PID, and the network PID, the
    last entry counting where a number occurs twice; the PAT built for one
    service is a valid section that lists that one program under its PMT PID (a
    PMT PID beyond 13 bits is refused); a PMT keeps its program number, version, PCR PID, program descriptors and, in
    order, every elementary stream; an SDT and a NIT keep their services and
    transport streams in order, with their flags and descriptors. *)
Theorem ts_tables_roundtrip (tsid sid pid version tableID number last : Z) (programs : list (Z * Z)) (pmt : PMT) (sdt : SDT) (nit : NIT)
    (Ht : 0 <= tsid < 65536) (Hs : 0 < sid < 65536) (Hp : 0 <= pid) (Hv : 0 <= version < 32)
    (Hn : byte_ok number) (Hl : byte_ok last) (Hpat : Forall patEntry_ok programs) (Hfit : len programs <= 1021)
    (Hpmt : pmt_ok pmt) (Hid : tableID = TableIDSDT0 \/ tableID = TableIDSDT1) (Hsdt : sdt_ok sdt) (Hnit : nit_ok nit) :
  (if pid <=? 0x1fff
   then returns (BuildPATSection tsid sid pid version) (fun s =>
          valid_section s /\ ParsePAT s = Ret (mkPAT tsid version 0 {[sid := pid]}))
   else BuildPATSection tsid sid pid version = Err ErrInvalidPMTPID)
  /\ ParsePAT (encodePAT tsid version number last programs) = Ret (patOf tsid version programs)
  /\ ParsePMT (encodePMT pmt) = Ret pmt
  /\ ParseSDT (encodeSDT tableID sdt) = Ret sdt
  /\ ParseNIT (encodeNIT nit) = Ret nit.
Proof.
  conjs; [by apply BuildPATSection_parses|by apply ParsePAT_encode|by apply ParsePMT_encode|by apply ParseSDT_encode|by apply ParseNIT_encode].
Qed.

Lemma ts_tables_roundtrip_witness :
  let pmt := mkPMT 1024 3 0x100 [0x09; 4; 0; 5; 0xe1; 1] [[0x09; 4; 0; 5; 0xe1; 1]]
             [mkPMTElement 2 0x111 [0x52; 1; 0] [[0x52; 1; 0]]; mkPMTElement 0x0d 0x140 [] []] in
  let sdt := mkSDT 0x7fe1 4 1 [mkSDTService 1024 true false 4 true [[0x48; 1; 1]]] in
  let nit := mkNIT 4 0x40 1 0 0 [] [mkNITTransportStream 0x7fe1 4 []] in
  (if 0x1fc8 <=? 0x1fff
   then returns (BuildPATSection 0x7fe1 1024 0x1fc8 3) (fun s =>
          valid_section s /\ ParsePAT s = Ret (mkPAT 0x7fe1 3 0 {[1024 := 0x1fc8]}))
   else BuildPATSection 0x7fe1 1024 0x1fc8 3 = Err ErrInvalidPMTPID)
  /\ ParsePAT (encodePAT 0x7fe1 3 0 0 [(0, 0x10); (1024, 0x1f0); (1025, 0x1f1)])
     = Ret (mkPAT 0x7fe1 3 0x10 {[1025 := 0x1f1; 1024 := 0x1f0]})
  /\ ParsePMT (encodePMT pmt) = Ret pmt
  /\ ParseSDT (encodeSDT TableIDSDT0 sdt) = Ret sdt
  /\ ParseNIT (encodeNIT nit) = Ret nit.
Proof.
  intros pmt sdt nit. apply (ts_tables_roundtrip 0x7fe1 1024 0x1fc8 3 TableIDSDT0 0 0 [(0, 0x10); (1024, 0x1f0); (1025, 0x1f1)]); [lia|lia|lia|lia|unfold byte_ok; lia|unfold byte_ok; lia|repeat constructor; simpl; lia|simpl; lia| |left; reflexivity| |].
  - assert (forall d, bytes_ok d -> 2 <= len d -> byteAt d 1 = len d - 2 -> len d < 4096 -> loop_ok [d]) as Hd.
    { intros d H1 H2 H3 H4. split; [|simpl; rewrite app_nil_r; exact H4].
      apply Forall_cons; split; [split; [exact H1|split; assumption]|constructor]. }
    split; [simpl; lia|]. split; [simpl; lia|]. split; [simpl; lia|]. split.
    { apply Hd; [repeat constructor; unfold byte_ok; lia|vm_compute; discriminate|reflexivity|reflexivity]. }
    split; [reflexivity|]. split; [|vm_compute; discriminate].
    apply Forall_cons; split; [|apply Forall_cons; split; [|constructor]].
    * split; [simpl; unfold byte_ok; lia|]. split; [simpl; lia|]. split; [|reflexivity].
      apply Hd; [repeat constructor; unfold byte_ok; lia|vm_compute; discriminate|reflexivity|reflexivity].
    * split; [simpl; unfold byte_ok; lia|]. split; [simpl; lia|]. split; [|reflexivity].
      split; [constructor|reflexivity].
  - split; [simpl; lia|]. split; [simpl; lia|]. split; [simpl; lia|]. split; [|vm_compute; discriminate].
    apply Forall_cons; split; [|constructor]. split; [simpl; lia|]. split; [simpl; lia|].
    split; [|reflexivity]. apply Forall_cons; split; [|constructor].
    split; [repeat constructor; unfold byte_ok; lia|]. split; [vm_compute; discriminate|reflexivity].
  - split; [left; reflexivity|]. split; [simpl; lia|]. split; [simpl; lia|].
    split; [unfold byte_ok; simpl; lia|]. split; [unfold byte_ok; simpl; lia|].
    split; [split; [constructor|reflexivity]|]. split; [|vm_compute; discriminate].
    apply Forall_cons; split; [|constructor]. split; [simpl; lia|]. split; [simpl; lia|].
    split; [constructor|reflexivity].
Defined.
