(* ===== verification/Calendar.v ===== *)
(** * Dates (ts/eit.go, the date arithmetic of [parseMJDTime])

    [time.Time] values and the conversion of a Modified Julian Day to a
    calendar date.  The code computes it with float64 arithmetic; the model
    uses the kernel's binary64 floats, so the roundings are those of the
    hardware.  The conversion is checked by evaluation for every day from
    1900-03-01 to the last one 16 bits can express. *)

From Stdlib Require Import Uint63 PrimFloat.
From S2P Require Import Prelude.

(** ** time.Time *)

Definition Time := Z.
Definition Duration := Z.

(** [time.Time{}], January 1 of year 1. *)
Definition zeroTime : Time := -62135596800.

(** The day number of a date, counted from 1970-01-01.  [time.Date] carries
    months outside 1..12 into the year and days outside the month into the
    following or preceding days. *)
Definition daysOf (year month day : Z) : Z :=
  let y := year + (month - 1) / 12 in
  let m := (month - 1) mod 12 + 1 in
  let y := if m <=? 2 then y - 1 else y in
  let dayOfYear := (153 * (if 2 <? m then m - 3 else m + 9) + 2) / 5 in
  365 * y + y / 4 - y / 100 + y / 400 + dayOfYear - 719468 + (day - 1).

(** [time.Date] in the zone JST, [time.FixedZone("JST", 9*60*60)]. *)
Definition dateJST (year month day hour minute second : Z) : Time :=
  daysOf year month day * 86400 + hour * 3600 + minute * 60 + second - 9 * 60 * 60.

(** ** float64 *)

(** The conversion [float64(n)] of an [int]. *)
Definition float64 (n : Z) : float :=
  if 0 <=? n then of_uint63 (Uint63.of_Z n)
  else PrimFloat.opp (of_uint63 (Uint63.of_Z (- n))).

(** The conversion [int(f)], which truncates; [f] below 2^53. *)
Definition truncated (f : float) : Z :=
  let '(m, e) := frshiftexp (PrimFloat.abs f) in
  let z := Uint63.to_Z (Uint63.lsr (normfr_mantissa m) (Uint63.sub 2154 e)) in
  if PrimFloat.ltb f 0 then - z else z.

(** The date of an MJD: year, month and day as computed in [parseMJDTime]. *)
Definition mjdDate (mjd : Z) : Z * Z * Z :=
  let yp := truncated (PrimFloat.div (PrimFloat.sub (float64 mjd) 15078.2) 365.25) in
  let yd := truncated (PrimFloat.mul (float64 yp) 365.25) in
  let mp := truncated (PrimFloat.div
              (PrimFloat.sub (PrimFloat.sub (float64 mjd) 14956.1) (float64 yd)) 30.6001) in
  let day := mjd - 14956 - yd - truncated (PrimFloat.mul (float64 mp) 30.6001) in
  let k := if (mp =? 14) || (mp =? 15) then 1 else 0 in
  (yp + k + 1900, mp - 1 - k * 12, day).

(** ** The calendar *)

Definition dateCheck (mjd : Z) : bool :=
  let '(year, month, day) := mjdDate mjd in
  (daysOf year month day =? mjd - 40587) && (1 <=? month) && (month <=? 12)
  && (1 <=? day) && (day <=? 31).

Fixpoint checkFrom (n : nat) (mjd : Z) : bool :=
  match n with
  | O => true
  | S n => dateCheck mjd && checkFrom n (mjd + 1)
  end.

Lemma checkFrom_spec n start : checkFrom n start = true ->
  forall mjd, start <= mjd < start + Z.of_nat n -> dateCheck mjd = true.
Proof.
  revert start. induction n as [|n IH]; intros start H mjd Hm; [lia|]. simpl in H.
  apply andb_true_iff in H as [H0 H]. destruct (Z.eq_dec mjd start) as [->|]; [done|].
  apply (IH _ H). lia.
Qed.

(** Every MJD from 1900-03-01 on, by evaluation. *)
Lemma dates_checked : checkFrom (Z.to_nat 50457) 15079 = true.
Proof. vm_cast_no_check (eq_refl true). Qed.

Lemma dateCheck_all mjd : 15079 <= mjd <= 65535 -> dateCheck mjd = true.
Proof. intros. apply (checkFrom_spec _ _ dates_checked). lia. Qed.
