(* ===== verification/Eit.v ===== *)
(** * EIT and TOT (ts/eit.go, ts/tot.go)

    Event information and time offset sections.  A [time.Time] is its Unix
    time in seconds, a [time.Duration] its nanoseconds.  Theorems: the
    broadcast time is converted exactly, EIT sections round-trip, and no table
    parser panics or loops on any input. *)

From S2P Require Import Prelude Crc Packet Section Psi Tables Calendar.

Definition allBytes (b : bytes) (want : Z) : bool := forallb (Z.eqb want) b.

Definition decodeBCDByte (b : Z) : Z * bool :=
  let high := Z.shiftr b 4 in
  let low := Z.land b 0x0f in
  if (9 <? high) || (9 <? low) then (0, false) else (high * 10 + low, true).

(** A BCD digit pair with an upper bound: [!ok || v > max] is an error. *)
Definition bcdUpTo (b max : Z) : go Z :=
  let '(v, ok) := decodeBCDByte b in
  if negb ok || (max <? v) then Err ErrInvalidSection else Ret v.

Definition parseMJDTime (b : bytes) : go Time :=
  if negb (len b =? 5) then Err ErrInvalidSection
  else if allBytes b 0xff then Ret zeroTime
  else
    mjd ← read16 b 0;
    b2 ← idx b 2; hour ← bcdUpTo b2 23;
    b3 ← idx b 3; minute ← bcdUpTo b3 59;
    b4 ← idx b 4; second ← bcdUpTo b4 59;
    let '(year, month, day) := mjdDate mjd in
    Ret (dateJST year month day hour minute second).

Definition parseBCDDuration (b : bytes) : go Duration :=
  if negb (len b =? 3) then Err ErrInvalidSection
  else if allBytes b 0xff then Ret 0
  else
    b0 ← idx b 0;
    let '(hour, ok) := decodeBCDByte b0 in
    if negb ok then Err ErrInvalidSection
    else
      b1 ← idx b 1; minute ← bcdUpTo b1 59;
      b2 ← idx b 2; second ← bcdUpTo b2 59;
      Ret (hour * 3600000000000 + minute * 60000000000 + second * 1000000000).

(** ** EIT *)

Record EITEvent := mkEITEvent {
  ev_EventID : Z;
  ev_StartTime : Time;
  ev_Duration : Duration;
  ev_RunningStatus : Z;
  ev_FreeCAMode : bool;
  ev_Descriptors : list Descriptor
}.

Record EIT := mkEIT {
  eit_ServiceID : Z;
  eit_TransportStreamID : Z;
  eit_OriginalNetworkID : Z;
  eit_TableID : Z;
  eit_VersionNumber : Z;
  eit_SectionNumber : Z;
  eit_LastSectionNumber : Z;
  eit_SegmentLastSectionNumber : Z;
  eit_LastTableID : Z;
  eit_Events : list EITEvent
}.

(** One event.  The code parses the times before it checks the length of the
    descriptor loop; every failure is the same [ErrInvalidSection]. *)
Definition eitEvent (s : bytes) (off : Z) (descriptors : bytes) : go EITEvent :=
  startBytes ← slice s (off + 2) (off + 7);
  start ← parseMJDTime startBytes;
  durationBytes ← slice s (off + 7) (off + 10);
  duration ← parseBCDDuration durationBytes;
  id ← read16 s off;
  b10 ← idx s (off + 10);
  ds ← ParseDescriptors descriptors;
  Ret (mkEITEvent id start duration (Z.land (Z.shiftr b10 5) 0x07) (flag b10 0x10) ds).

Definition ParseEIT (s : Section_) : go EIT :=
  bad ← Ret (len s <? 18)
    ||! (tableID ← TableID s; Ret (negb (IsEITPF tableID) && negb (IsEITS tableID)))
    ||! (total ← TotalLength s; Ret (len s <? total))
    ||! (negb <$> ValidateCRC s);
  if (bad : bool) then Err ErrInvalidSection
  else
    header ← ParseSectionHeader s;
    total ← TotalLength s;
    let sectionEnd := total - 4 in
    tsid ← read16 s 8;
    onid ← read16 s 10;
    segmentLast ← idx s 12;
    lastTable ← idx s 13;
    '(events, off) ← entries 12 eitEvent s 14 sectionEnd;
    if negb (off =? sectionEnd) then Err ErrInvalidSection
    else Ret (mkEIT (sh_ServiceID header) tsid onid (sh_TableID header) (sh_VersionNumber header)
           (sh_SectionNumber header) (sh_LastSectionNumber header) segmentLast lastTable events).

(** ** TOT *)

Record TOT := mkTOT {
  tot_JSTTime : Time;
  tot_Descriptors : list Descriptor
}.

Definition ParseTOT (s : Section_) : go TOT :=
  bad ← Ret (len s <? 14)
    ||! (tableID ← TableID s; Ret (negb (tableID =? TableIDTOT)))
    ||! SectionSyntaxIndicator s
    ||! (total ← TotalLength s; Ret (len s <? total))
    ||! (negb <$> ValidateCRC s);
  if (bad : bool) then Err ErrInvalidSection
  else
    total ← TotalLength s;
    let sectionEnd := total - 4 in
    timeBytes ← slice s 3 8;
    jstTime ← orElse (parseMJDTime timeBytes) (fun _ => Err ErrInvalidSection) (fun t =>
                if t =? zeroTime then Err ErrInvalidSection else Ret t);
    descriptorsLoopLen ← read12 s 8;
    let descStart := 10 in
    let descEnd := descStart + descriptorsLoopLen in
    if negb (descEnd =? sectionEnd) then Err ErrInvalidSection
    else
      raw ← slice s descStart descEnd;
      ds ← ParseDescriptors raw;
      Ret (mkTOT jstTime ds).

(** ** Times *)

Definition bcd (n : Z) : Z := n / 10 * 16 + n mod 10.

Lemma bcd_decode n : 0 <= n < 100 -> decodeBCDByte (bcd n) = (n, true) /\ 0 <= bcd n < 154.
Proof.
  intros Hn. pose proof (range_forallb (fun n => let '(v, ok) := decodeBCDByte (bcd n) in
    (v =? n) && ok && (0 <=? bcd n) && (bcd n <? 154)) 100 ltac:(vm_compute; reflexivity) n Hn) as H.
  cbv beta in H. destruct (decodeBCDByte (bcd n)) as [v ok]. bools. subst v.
  split; [|lia]. by destruct ok.
Qed.

Lemma bcdUpTo_bcd n max : 0 <= n < 100 -> n <= max -> bcdUpTo (bcd n) max = Ret n.
Proof.
  intros Hn Hm. unfold bcdUpTo. rewrite (proj1 (bcd_decode n Hn)). simpl.
  by rewrite (proj2 (Z.ltb_ge _ _)) by lia.
Qed.

Lemma bcdUpTo_safe b max (Q : Z -> Prop) : (forall v, Q v) -> wp (bcdUpTo b max) Q.
Proof. intros HQ. unfold bcdUpTo. destruct (decodeBCDByte b). case_match; simpl; auto. Qed.

Lemma parseMJDTime_exact mjd h m s :
  15079 <= mjd <= 65535 -> 0 <= h < 24 -> 0 <= m < 60 -> 0 <= s < 60 ->
  parseMJDTime [hiByte mjd; u8 mjd; bcd h; bcd m; bcd s]
  = Ret ((mjd - 40587) * 86400 + h * 3600 + m * 60 + s - 9 * 3600).
Proof.
  intros Hd Hh Hm Hs. unfold parseMJDTime. cbn [length Z.of_nat].
  change (negb (5 =? 5)) with false. cbv iota.
  destruct (bcd_decode s) as [_ Hbs]; [lia|].
  replace (allBytes _ 0xff) with false.
  2:{ unfold allBytes. cbn [forallb]. rewrite (proj2 (Z.eqb_neq 255 (bcd s))) by lia.
      simpl. by rewrite !andb_false_r. }
  change (read16 _ 0) with (Ret (be (hiByte mjd) (u8 mjd))). cbn [mbind go_bind].
  rewrite field16 by lia.
  change (idx _ 2) with (Ret (bcd h)). change (idx _ 3) with (Ret (bcd m)).
  change (idx _ 4) with (Ret (bcd s)). cbn [mbind go_bind].
  rewrite !bcdUpTo_bcd by lia. cbn [mbind go_bind].
  pose proof (dateCheck_all mjd Hd) as Hc. unfold dateCheck in Hc.
  destruct (mjdDate mjd) as [[year month] day]. bools. unfold dateJST. f_equal. lia.
Qed.

Definition encodeTime (t : Time) : bytes :=
  if t =? zeroTime then replicate 5 0xff
  else
    let u := t + 9 * 3600 in
    let r := u mod 86400 in
    let mjd := u / 86400 + 40587 in
    [hiByte mjd; u8 mjd; bcd (r / 3600); bcd (r mod 3600 / 60); bcd (r mod 60)].

(** Unspecified, or from 1900-03-01 on as far as 16 bits reach. *)
Definition time_ok (t : Time) : Prop :=
  t = zeroTime \/ 15079 <= (t + 9 * 3600) / 86400 + 40587 <= 65535.

Lemma parseMJDTime_encode t : time_ok t -> parseMJDTime (encodeTime t) = Ret t.
Proof.
  intros Ht. unfold encodeTime. destruct (Z.eqb_spec t zeroTime) as [->|Hne]; [done|].
  destruct Ht as [?|Ht]; [done|]. cbv zeta. rewrite parseMJDTime_exact by dmlia.
  f_equal. dmlia.
Qed.

Lemma encodeTime_ok t : bytes_ok (encodeTime t) /\ length (encodeTime t) = 5%nat.
Proof.
  unfold encodeTime. destruct (_ =? _); [split; [|done]; repeat constructor; unfold byte_ok; lia|].
  cbv zeta. split; [|done]. set (u := t + 9 * 3600).
  assert (forall n, 0 <= n < 100 -> byte_ok (bcd n)) as Hb.
  { intros n Hn. destruct (bcd_decode n Hn). unfold byte_ok. lia. }
  repeat apply bytes_ok_cons; unfold hiByte; auto with bytes; apply Hb; dmlia.
Qed.

(** Hours, minutes and seconds, at most 99:59:59. *)
Definition duration_ok (d : Duration) : Prop :=
  0 <= d < 360000 * 1000000000 /\ d mod 1000000000 = 0.

Definition encodeDuration (d : Duration) : bytes :=
  let s := d / 1000000000 in [bcd (s / 3600); bcd (s mod 3600 / 60); bcd (s mod 60)].

Lemma encodeDuration_ok d : duration_ok d ->
  bytes_ok (encodeDuration d) /\ length (encodeDuration d) = 3%nat.
Proof.
  intros [Hd Hm]. split; [|done].
  assert (forall n, 0 <= n < 100 -> byte_ok (bcd n)) as Hb.
  { intros n Hn. destruct (bcd_decode n Hn). unfold byte_ok. lia. }
  unfold encodeDuration. cbv zeta. repeat apply bytes_ok_cons; auto with bytes; apply Hb; dmlia.
Qed.

Lemma parseBCDDuration_encode d : duration_ok d -> parseBCDDuration (encodeDuration d) = Ret d.
Proof.
  intros [Hd Hm]. unfold encodeDuration. set (s := d / 1000000000).
  assert (0 <= s < 360000 /\ d = s * 1000000000) as [Hs Ed] by (subst s; dmlia). clearbody s.
  unfold parseBCDDuration. cbn [length Z.of_nat]. change (negb (3 =? 3)) with false. cbv iota.
  destruct (bcd_decode (s mod 60)) as [_ Hbs]; [dmlia|].
  replace (allBytes _ 0xff) with false.
  2:{ unfold allBytes. cbn [forallb]. rewrite (proj2 (Z.eqb_neq 255 (bcd (s mod 60)))) by lia.
      simpl. by rewrite !andb_false_r. }
  change (idx _ 0) with (Ret (bcd (s / 3600))). change (idx _ 1) with (Ret (bcd (s mod 3600 / 60))).
  change (idx _ 2) with (Ret (bcd (s mod 60))). cbn [mbind go_bind].
  rewrite (proj1 (bcd_decode (s / 3600) ltac:(dmlia))). cbn [negb].
  rewrite !bcdUpTo_bcd by dmlia. cbn [mbind go_bind].
  f_equal. dmlia.
Qed.

Lemma wp_parseMJDTime b (Q : Time -> Prop) : bytes_ok b -> (forall t, Q t) -> wp (parseMJDTime b) Q.
Proof.
  intros Hb HQ. unfold parseMJDTime. destruct (Z.eqb_spec (len b) 5); [|done]. simpl negb. cbv iota.
  destruct (allBytes _ _); [by apply HQ|]. go_run.
  apply bcdUpTo_safe; intros hour; go_run. apply bcdUpTo_safe; intros minute; go_run.
  apply bcdUpTo_safe; intros second. destruct (mjdDate _) as [[? ?] ?]. by apply HQ.
Qed.

Lemma wp_parseBCDDuration b (Q : Duration -> Prop) :
  bytes_ok b -> (forall d, Q d) -> wp (parseBCDDuration b) Q.
Proof.
  intros Hb HQ. unfold parseBCDDuration. destruct (Z.eqb_spec (len b) 3); [|done]. simpl negb. cbv iota.
  destruct (allBytes _ _); [by apply HQ|]. go_run.
  destruct (decodeBCDByte _) as [? []]; simpl; [|done]. go_run.
  apply bcdUpTo_safe; intros minute; go_run. apply bcdUpTo_safe; intros second. by apply HQ.
Qed.

(** ** EIT sections *)

Definition eventHeader (x : EITEvent) : bytes :=
  let n := len (concat (ev_Descriptors x)) in
  [hiByte (ev_EventID x); u8 (ev_EventID x)] ++ encodeTime (ev_StartTime x)
  ++ encodeDuration (ev_Duration x)
  ++ [statusByte (ev_RunningStatus x) (ev_FreeCAMode x) n; u8 n].

Definition eventData (x : EITEvent) : bytes := concat (ev_Descriptors x).

Definition event_ok (x : EITEvent) : Prop :=
  0 <= ev_EventID x < 65536 /\ time_ok (ev_StartTime x) /\ duration_ok (ev_Duration x)
  /\ 0 <= ev_RunningStatus x < 8 /\ loop_ok (ev_Descriptors x).

Lemma eventHeader_len x : event_ok x -> len (eventHeader x) = 12.
Proof.
  intros (_ & _ & Hd & _). unfold eventHeader. rewrite !length_app.
  rewrite (proj2 (encodeTime_ok _)), (proj2 (encodeDuration_ok _ Hd)). done.
Qed.

Lemma eventHeader_tail x i : event_ok x -> 10 <= i < 12 ->
  byteAt (eventHeader x) i = byteAt [statusByte (ev_RunningStatus x) (ev_FreeCAMode x) (len (eventData x));
    u8 (len (eventData x))] (i - 10).
Proof.
  intros (_ & _ & Hd & _) Hi. unfold eventHeader.
  pose proof (proj2 (encodeTime_ok (ev_StartTime x))) as H5.
  pose proof (proj2 (encodeDuration_ok _ Hd)) as H3.
  rewrite !app_assoc, byteAt_app_r by (rewrite !length_app, H5, H3; simpl; lia).
  rewrite !length_app, H5, H3. done.
Qed.

Lemma event_codec x : event_ok x -> entry_codec 12 eitEvent eventHeader eventData x.
Proof.
  intros Hx. pose proof Hx as (Hid & Ht & Hd & Hrs & Hds & Hlen).
  destruct (statusByte_fields (ev_RunningStatus x) (ev_FreeCAMode x) (len (eventData x)))
    as (_ & E1 & E2 & E3); [done|unfold eventData; lia|].
  pose proof (proj2 (encodeTime_ok (ev_StartTime x))) as H5.
  pose proof (proj2 (encodeDuration_ok _ Hd)) as H3.
  pose proof (eventHeader_len x Hx) as Hl. constructor.
  - done.
  - change (12 - 2) with 10. change (12 - 1) with 11. rewrite !eventHeader_tail by (done || lia).
    exact E1.
  - intros pre post. unfold eitEvent. set (s := pre ++ _ ++ post).
    set (tail := [statusByte (ev_RunningStatus x) (ev_FreeCAMode x) (len (eventData x));
      u8 (len (eventData x))]).
    set (id2 := [hiByte (ev_EventID x); u8 (ev_EventID x)]). assert (length id2 = 2%nat) as H2 by done.
    assert (s = (pre ++ id2) ++ encodeTime (ev_StartTime x) ++ (encodeDuration (ev_Duration x)
      ++ tail ++ eventData x ++ post)) as Es1.
    { unfold s, eventHeader. fold id2. rewrite <- !app_assoc. done. }
    assert (slice s (len pre + 2) (len pre + 7) = Ret (encodeTime (ev_StartTime x))) as ->.
    { rewrite Es1. apply slice_mid; rewrite ?length_app, ?H5, ?H2; lia. }
    assert (slice s (len pre + 7) (len pre + 10) = Ret (encodeDuration (ev_Duration x))) as ->.
    { rewrite Es1, app_assoc. apply slice_mid; rewrite ?length_app, ?H5, ?H3, ?H2; lia. }
    cbn [mbind go_bind]. rewrite parseMJDTime_encode by done. cbn [mbind go_bind].
    rewrite parseBCDDuration_encode by done. cbn [mbind go_bind].
    assert (read16 s (len pre) = Ret (ev_EventID x)) as ->.
    { unfold s. rewrite <- (Z.add_0_r (len pre)) at 1.
      rewrite read16_mid by (rewrite ?length_app; lia).
      change (byteAt (eventHeader x ++ eventData x) 0) with (hiByte (ev_EventID x)).
      change (byteAt (eventHeader x ++ eventData x) (0 + 1)) with (u8 (ev_EventID x)).
      by rewrite field16. }
    cbn [mbind go_bind].
    assert (idx s (len pre + 10) = Ret (statusByte (ev_RunningStatus x) (ev_FreeCAMode x) (len (eventData x)))) as ->.
    { unfold s. rewrite idx_mid by (rewrite ?length_app; lia).
      rewrite byteAt_app, eventHeader_tail by (done || lia). done. }
    cbn [mbind go_bind].
    rewrite (proj1 (ParseDescriptors_concat _ Hds) : ParseDescriptors (eventData x) = _).
    cbn [mbind go_bind]. rewrite E2, E3. by destruct x.
Qed.

Definition eitPayload (t : EIT) : bytes :=
  [hiByte (eit_TransportStreamID t); u8 (eit_TransportStreamID t);
   hiByte (eit_OriginalNetworkID t); u8 (eit_OriginalNetworkID t);
   eit_SegmentLastSectionNumber t; eit_LastTableID t]
  ++ encodeEntries eventHeader eventData (eit_Events t).

Definition encodeEIT (t : EIT) : Section_ :=
  longSection (eit_TableID t) (eit_ServiceID t) (eit_VersionNumber t) (eit_SectionNumber t)
    (eit_LastSectionNumber t) (eitPayload t).

Definition eit_ok (t : EIT) : Prop :=
  IsEITPF (eit_TableID t) || IsEITS (eit_TableID t) = true
  /\ 0 <= eit_ServiceID t < 65536 /\ 0 <= eit_TransportStreamID t < 65536
  /\ 0 <= eit_OriginalNetworkID t < 65536 /\ 0 <= eit_VersionNumber t < 32
  /\ byte_ok (eit_SectionNumber t) /\ byte_ok (eit_LastSectionNumber t)
  /\ byte_ok (eit_SegmentLastSectionNumber t) /\ byte_ok (eit_LastTableID t)
  /\ Forall event_ok (eit_Events t) /\ len (eitPayload t) <= 4086.

Lemma eit_tableID tableID : IsEITPF tableID || IsEITS tableID = true -> byte_ok tableID.
Proof.
  unfold IsEITPF, IsEITS, byte_ok, TableIDEITPF0, TableIDEITPF1, TableIDEITSStart, TableIDEITSEnd,
    TableIDEITSOtherStart, TableIDEITSOtherEnd. lia.
Qed.

Lemma eitPayload_long t : eit_ok t ->
  long_ok (eit_TableID t) (eit_ServiceID t) (eit_VersionNumber t) (eit_SectionNumber t)
    (eit_LastSectionNumber t) (eitPayload t).
Proof.
  intros (H0 & H1 & H2 & H3 & H4 & H5 & H6 & H7 & H8 & H9 & H10).
  constructor; try done; [by apply eit_tableID|].
  unfold eitPayload. apply bytes_ok_app; [unfold hiByte; auto 20 with bytes|].
  apply encodeEntries_bytes. eapply Forall_impl; [exact H9|]. intros x (? & ? & Hd & Hrs & Hl).
  split; [|by apply loop_bytes]. unfold eventHeader, hiByte.
  pose proof (proj1 (encodeTime_ok (ev_StartTime x))). pose proof (proj1 (encodeDuration_ok _ Hd)).
  destruct Hl as [_ Hl].
  destruct (statusByte_fields (ev_RunningStatus x) (ev_FreeCAMode x)
    (len (concat (ev_Descriptors x)))) as (Hb & _); [done|lia|].
  auto 20 with bytes.
Qed.

(** The guard of [ParseEIT] on a section of a valid table. *)
Lemma ParseEIT_guard t : eit_ok t ->
  (Ret (len (encodeEIT t) <? 18)
    ||! (tableID ← TableID (encodeEIT t); Ret (negb (IsEITPF tableID) && negb (IsEITS tableID)))
    ||! (total ← TotalLength (encodeEIT t); Ret (len (encodeEIT t) <? total))
    ||! (negb <$> ValidateCRC (encodeEIT t))) = Ret false.
Proof.
  intros Ht. pose proof (eitPayload_long t Ht) as Hok. destruct Ht as (H0 & _).
  unfold encodeEIT, TableID. rewrite long_len, long_TotalLength by done.
  assert (6 <= len (eitPayload t)) by (unfold eitPayload; rewrite length_app; simpl; lia).
  rewrite (proj2 (Z.ltb_ge _ 18)) by lia. cbn [goor mbind go_bind].
  rewrite idx_byteAt by (rewrite long_len by done; lia). cbn [mbind go_bind].
  change (byteAt _ 0) with (eit_TableID t). rewrite <- negb_orb, H0, Z.ltb_irrefl.
  cbn [negb mbind go_bind goor]. by rewrite ValidateCRC_valid by (by apply long_valid).
Qed.

Lemma ParseEIT_encode t : eit_ok t -> ParseEIT (encodeEIT t) = Ret t.
Proof.
  intros Ht. pose proof (eitPayload_long t Ht) as Hok.
  unfold ParseEIT. rewrite ParseEIT_guard by done. unfold encodeEIT.
  destruct Ht as (H0 & H1 & H2 & H3 & H4 & H5 & H6 & H7 & H8 & H9 & H10).
  assert (len (eitPayload t) = 6 + len (encodeEntries eventHeader eventData (eit_Events t))) as Hpl.
  { unfold eitPayload. rewrite length_app. simpl. lia. }
  cbn [mbind go_bind]. rewrite long_header, long_TotalLength by done. cbn [mbind go_bind].
  pose proof (long_len _ _ _ _ _ _ Hok) as Hlen. set (s := longSection _ _ _ _ _ _) in *.
  unfold read16. rewrite !idx_byteAt by lia. cbn [mbind go_bind].
  change (byteAt s 8) with (hiByte (eit_TransportStreamID t)).
  change (byteAt s (8 + 1)) with (u8 (eit_TransportStreamID t)).
  change (byteAt s 10) with (hiByte (eit_OriginalNetworkID t)).
  change (byteAt s (10 + 1)) with (u8 (eit_OriginalNetworkID t)).
  change (byteAt s 12) with (eit_SegmentLastSectionNumber t).
  change (byteAt s 13) with (eit_LastTableID t). rewrite !field16 by done.
  set (pre := take 14 s). set (crc := be32 (crc32MPEG2 (take 8 s ++ eitPayload t))).
  assert (s = pre ++ encodeEntries eventHeader eventData (eit_Events t) ++ crc) as Es.
  { unfold crc, pre, s, longSection, seal, eitPayload. done. }
  assert (len pre = 14) as Epre by (unfold pre; rewrite length_take; lia).
  rewrite (entries_encoded 12 eitEvent eventHeader eventData ltac:(lia) (eit_Events t) pre crc);
    [|by eapply Forall_impl; [exact H9|apply event_codec]|done|lia..].
  cbn [mbind go_bind]. rewrite Z.eqb_refl. by destruct t.
Qed.

(** ** Safety *)

Lemma ParseEIT_safe s : bytes_ok s -> safe (ParseEIT s).
Proof.
  intros Hs. unfold ParseEIT, safe. apply wp_bind.
  apply (wp_mono _ (fun bad => bad = false -> 18 <= len s /\ totalOf s <= len s)).
  { destruct (Z.ltb_spec (len s) 18); [done|]. unfold TableID.
    rewrite !idx_byteAt, TotalLength_eq by lia. cbn [goor mbind go_bind fmap go_fmap].
    destruct (negb _ && negb _); [done|]. cbn [goor mbind go_bind].
    destruct (Z.ltb_spec (len s) (totalOf s)); [done|].
    unfold goor. cbn [mbind go_bind]. rewrite ValidateCRC_eq by (done || lia). simpl. auto. }
  intros [] Hbad; [done|]. destruct Hbad; [done|]. parse_run.
  apply (wp_entries _ _ _ _ _ (fun _ => True)); [done|lia|lia|lia| |].
  - intros o d Ho He Hd. unfold eitEvent. parse_run.
    apply wp_parseMJDTime; [auto with bytes|]. intros t. parse_run.
    apply wp_parseBCDDuration; [auto with bytes|]. intros dur. parse_run.
  - intros xs o _ _. by case_match.
Qed.

Lemma ParseTOT_safe s : bytes_ok s -> safe (ParseTOT s).
Proof.
  intros Hs. unfold ParseTOT, safe. apply wp_bind.
  apply (wp_mono _ (fun bad => bad = false -> 14 <= len s /\ totalOf s <= len s)).
  { destruct (Z.ltb_spec (len s) 14); [done|]. unfold TableID, SectionSyntaxIndicator.
    rewrite !idx_byteAt, TotalLength_eq by lia. cbn [goor mbind go_bind fmap go_fmap].
    destruct (negb _); [done|]. cbn [goor mbind go_bind]. destruct (flag _ _); [done|].
    cbn [goor mbind go_bind]. destruct (Z.ltb_spec (len s) (totalOf s)); [done|].
    unfold goor. cbn [mbind go_bind]. rewrite ValidateCRC_eq by (done || lia). simpl. auto. }
  intros [] Hbad; [done|]. destruct Hbad; [done|]. parse_run.
  apply (wp_orElse _ _ _ (fun _ => True)); [apply wp_parseMJDTime; auto with bytes|done|].
  intros t _. parse_run.
Qed.

(** ** Properties *)

(** Broadcast times are converted exactly: for every Modified Julian Day
    from 15079 (1900-03-01) to 65535 and every time of day, the float64
    formula of [parseMJDTime] gives the instant that lies that many days after
    the MJD of the Unix epoch, in Japan Standard Time. *)
Theorem mjd_time_is_exact (mjd hour minute second : Z) (Hmjd : 15079 <= mjd <= 65535)
    (Hh : 0 <= hour < 24) (Hm : 0 <= minute < 60) (Hs : 0 <= second < 60) :
  parseMJDTime [hiByte mjd; u8 mjd; bcd hour; bcd minute; bcd second]
  = Ret ((mjd - 40587) * 86400 + hour * 3600 + minute * 60 + second - 9 * 3600).
Proof. by apply parseMJDTime_exact. Qed.

Lemma mjd_time_is_exact_witness :
  parseMJDTime [hiByte 60000; u8 60000; bcd 23; bcd 59; bcd 7]
  = Ret ((60000 - 40587) * 86400 + 23 * 3600 + 59 * 60 + 7 - 9 * 3600).
Proof. apply mjd_time_is_exact; lia. Defined.

(** An EIT section written in the layout of the standard is parsed back
    exactly: identifiers, section numbers and, in order, every event with its
    start time, duration, status and descriptors. *)
Theorem eit_roundtrip (t : EIT) (Ht : eit_ok t) : ParseEIT (encodeEIT t) = Ret t.
Proof. by apply ParseEIT_encode. Qed.

Lemma eit_roundtrip_witness :
  let t := mkEIT 1024 0x7fe1 4 0x50 5 8 24 8 0x57
             [mkEITEvent 7 1700000000 5400000000000 0 false [[0x4d; 1; 0]];
              mkEITEvent 8 zeroTime 0 4 true []] in
  ParseEIT (encodeEIT t) = Ret t.
Proof.
  intros t. apply eit_roundtrip. split; [reflexivity|].
  split; [simpl; lia|]. split; [simpl; lia|]. split; [simpl; lia|]. split; [simpl; lia|].
  split; [unfold byte_ok; simpl; lia|]. split; [unfold byte_ok; simpl; lia|].
  split; [unfold byte_ok; simpl; lia|]. split; [unfold byte_ok; simpl; lia|].
  split; [|vm_compute; discriminate].
  apply Forall_cons; split; [|apply Forall_cons; split; [|constructor]].
  - split; [simpl; lia|]. split; [right; vm_compute; split; discriminate|].
    split; [vm_compute; split; [split; [discriminate|reflexivity]|reflexivity]|].
    split; [simpl; lia|]. split; [|reflexivity]. apply Forall_cons; split; [|constructor].
    split; [repeat constructor; unfold byte_ok; lia|]. split; [vm_compute; discriminate|reflexivity].
  - split; [simpl; lia|]. split; [left; reflexivity|].
    split; [vm_compute; split; [split; [discriminate|reflexivity]|reflexivity]|].
    split; [simpl; lia|]. split; [constructor|reflexivity].
Defined.

(** No table parser panics or loops, whatever bytes it is given: the PAT,
    PMT, SDT, NIT, BIT, EIT and TOT parsers return a table or an error. *)
Theorem table_parsers_total (s : Section_) (Hs : bytes_ok s) :
  safe (ParsePAT s) /\ safe (ParsePMT s) /\ safe (ParseSDT s) /\ safe (ParseNIT s)
  /\ safe (ParseBIT s) /\ safe (ParseEIT s) /\ safe (ParseTOT s).
Proof.
  conjs; [by apply ParsePAT_safe|by apply ParsePMT_safe|by apply ParseSDT_safe|by apply ParseNIT_safe
    |by apply ParseBIT_safe|by apply ParseEIT_safe|by apply ParseTOT_safe].
Qed.
