(* ===== verification/Descriptors.v ===== *)
(** * Descriptor parsers (ts/descriptors.go, ts/parental.go, the extended
      broadcaster descriptor of ts/bit.go, ts/dsmcc_module_info.go,
      ts/dsmcc_stream.go)

    Each parser on a raw descriptor.  Theorem: none panics or loops, on any
    bytes; the ones that take a descriptor without checking its length do not
    panic on what the descriptor loops return. *)

From S2P Require Import Prelude Crc Packet Section Psi Tables.

Definition DescriptorTagDataComponent : Z := 0xfd.
Definition DescriptorTagServiceList : Z := 0x41.
Definition DescriptorTagTerrestrialDeliverySystem : Z := 0xfa.
Definition DescriptorTagExtendedBroadcaster : Z := 0xce.
Definition DescriptorTagParentalRating : Z := 0x55.
Definition DescriptorTagCA : Z := 0x09.

(** [len(d) < 2 || len(d) < 2+d.Length()] *)
Definition truncatedDescriptor (d : Descriptor) : go bool :=
  Ret (len d <? 2) ||! (n ← Length d; Ret (len d <? 2 + n)).

(** ** Data component *)

Record DataComponentDescriptor := mkDataComponentDescriptor {
  dc_DataComponentID : Z;
  dc_AdditionalDataComponentInfo : bytes
}.

Definition ParseDataComponentDescriptor (d : Descriptor) : go DataComponentDescriptor :=
  bad ← truncatedDescriptor d;
  if (bad : bool) then Err ErrInvalidSection
  else
    bad ← (tag ← Tag d; Ret (negb (tag =? DescriptorTagDataComponent)))
      ||! (data ← Data d; Ret (len data <? 2));
    if (bad : bool) then Err ErrInvalidSection
    else
      data ← Data d;
      id ← read16 data 0;
      info ← sliceFrom data 2;
      Ret (mkDataComponentDescriptor id info).

Record AdditionalAribBXMLEntryPointInfo := mkEntryPointInfo {
  ep_AutoStartFlag : bool;
  ep_DocumentResolution : Z;
  ep_UseXML : bool;
  ep_DefaultVersionFlag : bool;
  ep_IndependentFlag : bool;
  ep_StyleForTVFlag : bool;
  ep_BMLMajorVersion : Z;
  ep_BMLMinorVersion : Z;
  ep_BXMLMajorVersion : option Z;
  ep_BXMLMinorVersion : option Z
}.

Record AdditionalAribCarouselInfo := mkCarouselInfo {
  ci_DataEventID : Z;
  ci_EventSectionFlag : bool;
  ci_OnDemandRetrievalFlag : bool;
  ci_FileStorableFlag : bool;
  ci_StartPriority : Z
}.

Record AdditionalAribBXMLInfo := mkBXMLInfo {
  bx_TransmissionFormat : Z;
  bx_EntryPointFlag : bool;
  bx_EntryPointInfo : option AdditionalAribBXMLEntryPointInfo;
  bx_AdditionalAribCarouselInfo : option AdditionalAribCarouselInfo
}.

(** The entry point information that starts at offset 1, and the offset behind
    it. *)
Definition entryPointInfo (data : bytes) (b0 : Z) : go (AdditionalAribBXMLEntryPointInfo * Z) :=
  if len data <? 1 + 1 then Err ErrInvalidSection
  else
    b1 ← idx data 1;
    let entry := mkEntryPointInfo (flag b0 0x10) (Z.land b0 0x0f) (flag b1 0x80) (flag b1 0x40)
                   (flag b1 0x20) (flag b1 0x10) in
    if flag b1 0x40 then Ret (entry 1 0 None None, 2)
    else if len data <? 2 + 4 then Err ErrInvalidSection
    else
      bmlMajor ← read16 data 2;
      bmlMinor ← read16 data 4;
      if flag b1 0x80 then
        if len data <? 6 + 4 then Err ErrInvalidSection
        else
          major ← read16 data 6;
          minor ← read16 data 8;
          Ret (entry bmlMajor bmlMinor (Some major) (Some minor), 10)
      else Ret (entry bmlMajor bmlMinor None None, 6).

Definition ParseAdditionalAribBXMLInfo (data : bytes) : go AdditionalAribBXMLInfo :=
  if len data <? 3 then Err ErrInvalidSection
  else
    b0 ← idx data 0;
    let format := Z.land (Z.shiftr b0 6) 0x03 in
    let entryFlag := flag b0 0x20 in
    '(entry, off) ← (if entryFlag then '(e, off) ← entryPointInfo data b0; Ret (Some e, off)
                     else Ret (None, 1));
    if format =? 0 then
      if len data <? off + 2 then Err ErrInvalidSection
      else
        c0 ← idx data off;
        c1 ← idx data (off + 1);
        Ret (mkBXMLInfo format entryFlag entry
               (Some (mkCarouselInfo (Z.shiftr c0 4) (flag c0 0x08) (flag c1 0x80) (flag c1 0x40)
                        (Z.land (Z.shiftr c1 5) 0x01))))
    else Ret (mkBXMLInfo format entryFlag entry None).

(** ** Service list and terrestrial delivery system *)

Record ServiceListEntry := mkServiceListEntry { sl_ServiceID : Z; sl_ServiceType : Z }.

Definition serviceListTurn (data : bytes) (st : Z * list ServiceListEntry) :
    go (iteration (Z * list ServiceListEntry) (list ServiceListEntry)) :=
  let '(off, services) := st in
  if off <? len data then
    id ← read16 data off;
    kind ← idx data (off + 2);
    Ret (Continue (off + 3, services ++ [mkServiceListEntry id kind]))
  else Ret (Break services).

Definition ParseServiceListDescriptor (d : Descriptor) : go (list ServiceListEntry) :=
  bad ← truncatedDescriptor d;
  if (bad : bool) then Err ErrInvalidSection
  else
    tag ← Tag d;
    if negb (tag =? DescriptorTagServiceList) then Err ErrUnexpectedTag
    else
      data ← Data d;
      if negb (len data mod 3 =? 0) then Err ErrInvalidSection
      else loop (S (length data)) (serviceListTurn data) (0, []).

Record TerrestrialDeliverySystemDescriptor := mkTerrestrialDeliverySystemDescriptor {
  td_AreaCode : Z;
  td_GuardInterval : Z;
  td_TransmissionMode : Z;
  td_Frequencies : list Z
}.

Definition frequencyTurn (data : bytes) (st : Z * list Z) : go (iteration (Z * list Z) (list Z)) :=
  let '(off, frequencies) := st in
  if off <? len data then
    f ← read16 data off;
    Ret (Continue (off + 2, frequencies ++ [f]))
  else Ret (Break frequencies).

Definition ParseTerrestrialDeliverySystemDescriptor (d : Descriptor) :
    go TerrestrialDeliverySystemDescriptor :=
  bad ← truncatedDescriptor d;
  if (bad : bool) then Err ErrInvalidSection
  else
    tag ← Tag d;
    if negb (tag =? DescriptorTagTerrestrialDeliverySystem) then Err ErrUnexpectedTag
    else
      data ← Data d;
      bad ← Ret (len data <? 2) ||! (rest ← sliceFrom data 2; Ret (negb (len rest mod 2 =? 0)));
      if (bad : bool) then Err ErrInvalidSection
      else
        b0 ← idx data 0;
        b1 ← idx data 1;
        frequencies ← loop (S (length data)) (frequencyTurn data) (2, []);
        Ret (mkTerrestrialDeliverySystemDescriptor
               (Z.lor (Z.shiftl b0 4) (Z.shiftr b1 4)) (Z.land (Z.shiftr b1 2) 0x03)
               (Z.land b1 0x03) frequencies).

(** ** Extended broadcaster (ts/bit.go) *)

Record AffiliatedBroadcaster := mkAffiliatedBroadcaster { ab_OriginalNetworkID : Z; ab_BroadcasterID : Z }.

Record ExtendedBroadcasterDescriptor := mkExtendedBroadcasterDescriptor {
  eb_BroadcasterType : Z;
  eb_TerrestrialBroadcasterID : Z;
  eb_AffiliationIDs : bytes;
  eb_Broadcasters : list AffiliatedBroadcaster;
  eb_PrivateData : bytes
}.

(** [for range n]: the broadcasters from [off] on. *)
Fixpoint affiliated (data : bytes) (n : nat) (off : Z) : go (list AffiliatedBroadcaster * Z) :=
  match n with
  | O => Ret ([], off)
  | S n =>
      onid ← read16 data off;
      id ← idx data (off + 2);
      '(rest, off) ← affiliated data n (off + 3);
      Ret (mkAffiliatedBroadcaster onid id :: rest, off)
  end.

Definition ParseExtendedBroadcasterDescriptor (d : Descriptor) : go ExtendedBroadcasterDescriptor :=
  bad ← truncatedDescriptor d ||! (tag ← Tag d; Ret (negb (tag =? DescriptorTagExtendedBroadcaster)));
  if (bad : bool) then Err ErrInvalidSection
  else
    data ← Data d;
    if len data <? 1 then Err ErrInvalidSection
    else
      b0 ← idx data 0;
      let kind := Z.shiftr b0 4 in
      if negb (kind =? 1) && negb (kind =? 2) then
        private ← sliceFrom data 1;
        Ret (mkExtendedBroadcasterDescriptor kind 0 [] [] private)
      else if len data <? 4 then Err ErrInvalidSection
      else
        terrestrialID ← read16 data 1;
        b3 ← idx data 3;
        let affiliationCount := Z.shiftr b3 4 in
        let broadcasterCount := Z.land b3 0x0f in
        if len data <? 4 + affiliationCount + broadcasterCount * 3 then Err ErrInvalidSection
        else
          affiliations ← slice data 4 (4 + affiliationCount);
          '(broadcasters, off) ← affiliated data (Z.to_nat broadcasterCount) (4 + affiliationCount);
          private ← sliceFrom data off;
          Ret (mkExtendedBroadcasterDescriptor kind terrestrialID affiliations broadcasters private).

(** ** Parental rating (ts/parental.go) *)

Record ParentalRating := mkParentalRating { pr_Country : bytes; pr_Rating : Z }.

Definition parentalTurn (data : bytes) (st : Z * list ParentalRating) :
    go (iteration (Z * list ParentalRating) (list ParentalRating)) :=
  let '(i, out) := st in
  if i + 4 <=? len data then
    country ← slice data i (i + 3);
    rating ← idx data (i + 3);
    Ret (Continue (i + 4, out ++ [mkParentalRating country rating]))
  else Ret (Break out).

Definition ParseParentalRatings (d : Descriptor) : go (list ParentalRating) :=
  tag ← Tag d;
  if negb (tag =? DescriptorTagParentalRating) then Ret []
  else
    data ← Data d;
    if (len data =? 0) || negb (len data mod 4 =? 0) then Ret []
    else loop (S (length data)) (parentalTurn data) (0, []).

(** ** Conditional access PID (ts/demux.go, [caPID]) *)

Definition caPID (desc : Descriptor) : go (option Z) :=
  data ← Data desc;
  if len data <? 4 then Ret None else pid ← read13 data 2; Ret (Some pid).

(** ** Safety *)

Lemma wp_Data d (Q : bytes -> Prop) : bytes_ok d -> 2 <= len d -> 2 + byteAt d 1 <= len d ->
  (forall data, bytes_ok data -> len data = byteAt d 1 -> Q data) -> wp (Data d) Q.
Proof.
  intros Hd H2 Hl HQ. unfold Data, Length. rewrite idx_byteAt by lia. cbn [mbind go_bind].
  pose proof (byteAt_range d 1 Hd).
  apply wp_slice; [lia..|]. apply HQ; [auto with bytes|]. rewrite length_take, length_drop. lia.
Qed.

(** After the guard, the descriptor holds its data. *)
Lemma wp_truncatedDescriptor d (Q : bool -> Prop) : bytes_ok d -> Q true ->
  (2 <= len d -> 2 + byteAt d 1 <= len d -> Q false) -> wp (truncatedDescriptor d) Q.
Proof.
  intros Hd Ht Hf. unfold truncatedDescriptor, Length.
  destruct (Z.ltb_spec (len d) 2); [done|]. cbn [goor mbind go_bind].
  rewrite idx_byteAt by lia. cbn [mbind go_bind].
  destruct (Z.ltb_spec (len d) (2 + byteAt d 1)); simpl; auto.
Qed.

Lemma wp_Tag d (Q : Z -> Prop) : 0 < len d -> Q (byteAt d 0) -> wp (Tag d) Q.
Proof. intros. unfold Tag. by rewrite idx_byteAt by lia. Qed.

Ltac descriptor_step :=
  match goal with
  | |- wp (truncatedDescriptor _) _ =>
      apply wp_truncatedDescriptor; [auto with bytes|cbv beta; try exact I|intros ? ?; cbv beta]
  | |- wp (Data _) _ => apply wp_Data; [auto with bytes|lia|lia|intros ? ? ?]
  | |- wp (Tag _) _ => apply wp_Tag; [lia|]
  | |- wp (let '(_, _) := ?x in _) _ => destruct x
  | |- if ?b then _ else _ => destruct b eqn:?; bools
  | |- True => exact I
  | |- _ => parse_step
  end.

Ltac descriptor_run := repeat descriptor_step.

Lemma ParseDataComponentDescriptor_safe d : bytes_ok d -> safe (ParseDataComponentDescriptor d).
Proof. intros Hd. unfold ParseDataComponentDescriptor, safe. descriptor_run. Qed.

Lemma entryPointInfo_spec data b0 : bytes_ok data -> 3 <= len data ->
  wp (entryPointInfo data b0) (fun '(_, off) => 2 <= off).
Proof. intros Hd H3. unfold entryPointInfo. descriptor_run; lia. Qed.

Lemma ParseAdditionalAribBXMLInfo_safe data : bytes_ok data -> safe (ParseAdditionalAribBXMLInfo data).
Proof.
  intros Hd. unfold ParseAdditionalAribBXMLInfo, safe. descriptor_run.
  eapply wp_mono; [apply entryPointInfo_spec; [done|lia]|]. intros [e off] Hoff. descriptor_run.
Qed.

Lemma ParseServiceListDescriptor_safe d : bytes_ok d -> safe (ParseServiceListDescriptor d).
Proof.
  intros Hd. unfold ParseServiceListDescriptor, safe. descriptor_run.
  apply (wp_loop (fun '(off, _) => 0 <= off <= len data /\ off mod 3 = 0) (fun '(off, _) => len data - off));
    [|split; [lia|done]|lia..].
  intros [off acc] [Ho Hm]. unfold serviceListTurn.
  assert (off < len data -> off + 3 <= len data) by (intros; dmlia).
  descriptor_run. split; [|lia]. split; [lia|]. dmlia.
Qed.

Lemma ParseTerrestrialDeliverySystemDescriptor_safe d :
  bytes_ok d -> safe (ParseTerrestrialDeliverySystemDescriptor d).
Proof.
  intros Hd. unfold ParseTerrestrialDeliverySystemDescriptor, safe. descriptor_run.
  rewrite length_take, length_drop in *.
  apply (wp_loop (fun '(off, _) => 2 <= off <= len data /\ off mod 2 = 0) (fun '(off, _) => len data - off));
    [|split; [lia|done]|lia..].
  intros [off acc] [Ho Hm]. unfold frequencyTurn.
  assert (off < len data -> off + 2 <= len data) by (intros; dmlia).
  descriptor_run. split; [|lia]. split; [lia|]. dmlia.
Qed.

Lemma affiliated_spec data n off : bytes_ok data -> 0 <= off -> off + 3 * Z.of_nat n <= len data ->
  wp (affiliated data n off) (fun '(_, off') => off' = off + 3 * Z.of_nat n).
Proof.
  intros Hd. revert off. induction n as [|n IH]; intros off Ho Hl; [simpl; lia|].
  cbn [affiliated]. descriptor_run. eapply wp_mono; [apply IH; lia|].
  intros [rest off'] ->. apply wp_ret. lia.
Qed.

Lemma nibbles b : 0 <= b < 256 -> 0 <= Z.shiftr b 4 < 16 /\ 0 <= Z.land b 0x0f < 16.
Proof.
  intros Hb. split; [apply shiftr_range; lia|]. rewrite land_0f. apply Z.mod_pos_bound. lia.
Qed.

Lemma ParseExtendedBroadcasterDescriptor_safe d :
  bytes_ok d -> safe (ParseExtendedBroadcasterDescriptor d).
Proof.
  intros Hd. unfold ParseExtendedBroadcasterDescriptor, safe. descriptor_run.
  all: destruct (nibbles b0) as [? ?]; [done|]; descriptor_run.
  eapply wp_mono; [apply affiliated_spec; [done|lia|lia]|].
  intros [rest off] ->. descriptor_run.
Qed.

Lemma ParseParentalRatings_safe d : descriptor_ok d -> safe (ParseParentalRatings d).
Proof.
  intros (Hd & H2 & Hl). unfold ParseParentalRatings, safe. descriptor_run.
  apply (wp_loop (fun '(i, _) => 0 <= i <= len data) (fun '(i, _) => len data - i)); [|lia..].
  intros [i acc] Hi. unfold parentalTurn. descriptor_run. lia.
Qed.

Lemma wp_caPID d (Q : option Z -> Prop) : descriptor_ok d ->
  Q None -> (forall pid, 0 <= pid < 8192 -> Q (Some pid)) -> wp (caPID d) Q.
Proof. intros (Hd & H2 & Hl) HN HS. unfold caPID. descriptor_run; [done|]. by apply HS. Qed.

(** ** Properties *)

(** No descriptor parser panics or loops.  The ones that check the length
    byte themselves return on any bytes; the parental rating and CA parsers,
    which do not, return on every descriptor the descriptor loops produce. *)
Theorem descriptor_parsers_total (d : Descriptor) (Hd : bytes_ok d) :
  safe (ParseDataComponentDescriptor d) /\ safe (ParseAdditionalAribBXMLInfo d)
  /\ safe (ParseServiceListDescriptor d) /\ safe (ParseTerrestrialDeliverySystemDescriptor d)
  /\ safe (ParseExtendedBroadcasterDescriptor d)
  /\ (forall b ds, bytes_ok b -> ParseDescriptors b = Ret ds ->
       Forall (fun d => safe (ParseParentalRatings d) /\ safe (caPID d)) ds).
Proof.
  conjs; [by apply ParseDataComponentDescriptor_safe|by apply ParseAdditionalAribBXMLInfo_safe
    |by apply ParseServiceListDescriptor_safe|by apply ParseTerrestrialDeliverySystemDescriptor_safe
    |by apply ParseExtendedBroadcasterDescriptor_safe|].
  intros b ds Hb E. destruct (ParseDescriptors_cut b Hb) as (ds' & rest & _ & Hds & _ & E' & _).
  assert (ds = ds') as -> by congruence. eapply Forall_impl; [exact Hds|].
  intros x Hx. split; [by apply ParseParentalRatings_safe|by apply wp_caPID].
Qed.
