(* ===== verification/Dsmcc.v ===== *)
(** * DSM-CC, CDT and SDTT messages (ts/logo_common.go, ts/logo.go,
      ts/dsmcc_module_info.go, ts/dsmcc_stream.go)

    The data carousel messages (DII, DDB), module metadata, stream event
    descriptors, the common data table with its logo images and the software
    download trigger table.  Theorem: none of the parsers panics or loops on
    any input. *)

From S2P Require Import Prelude Crc Packet Section Psi Tables Descriptors.

(** ** Download messages *)

Record DSMCCModuleInfo := mkDSMCCModuleInfo {
  mi_ModuleID : Z;
  mi_ModuleSize : Z;
  mi_Version : Z;
  mi_Info : bytes
}.

Record DSMCCDII := mkDSMCCDII {
  dii_DownloadID : Z;
  dii_BlockSize : Z;
  dii_Modules : list DSMCCModuleInfo;
  dii_PrivateData : bytes
}.

Record DSMCCDDB := mkDSMCCDDB {
  ddb_DownloadID : Z;
  ddb_ModuleID : Z;
  ddb_ModuleVersion : Z;
  ddb_BlockNumber : Z;
  ddb_Data : bytes
}.

Definition dsmccMessageBody (s : Section_) (messageID : Z) : go bytes :=
  total ← TotalLength s;
  let end_ := total - 4 in
  if end_ <? 20 then Err ErrInvalidSection
  else
    message ← slice s 8 end_;
    bad ← Ret (len message <? 12)
      ||! (b ← idx message 0; Ret (negb (b =? 0x11)))
      ||! (b ← idx message 1; Ret (negb (b =? 0x03)))
      ||! (id ← read16 message 2; Ret (negb (id =? messageID)));
    if (bad : bool) then Err ErrInvalidSection
    else
      adaptationLen ← idx message 9;
      messageLen ← read16 message 10;
      let off := 12 + adaptationLen in
      if (len message <? off) || (len message <? off + messageLen) then Err ErrInvalidSection
      else slice message off (off + messageLen).

(** The module loop of the DII: [n] modules from [off] on. *)
Fixpoint diiModules (body : bytes) (n : nat) (off : Z) : go (list DSMCCModuleInfo * Z) :=
  match n with
  | O => Ret ([], off)
  | S n =>
      if len body <? off + 8 then Err ErrInvalidSection
      else
        id ← read16 body off;
        size ← read32 body (off + 2);
        version ← idx body (off + 6);
        infoLen ← idx body (off + 7);
        let off := off + 8 in
        if len body <? off + infoLen then Err ErrInvalidSection
        else
          info ← slice body off (off + infoLen);
          '(rest, off) ← diiModules body n (off + infoLen);
          Ret (mkDSMCCModuleInfo id size version info :: rest, off)
  end.

(** The optional private data behind the modules; a length that does not fit
    leaves it empty. *)
Definition diiPrivateData (body : bytes) (off : Z) : go bytes :=
  if (off =? len body) || (len body <? off + 2) then Ret []
  else
    privateLen ← read16 body off;
    let off := off + 2 in
    if len body <? off + privateLen then Ret [] else slice body off (off + privateLen).

Definition ParseDSMCCDII (s : Section_) : go DSMCCDII :=
  bad ← guardSection 23 [TableIDDSMCCDII] s;
  if (bad : bool) then Err ErrInvalidSection
  else
    body ← dsmccMessageBody s 0x1002;
    if len body <? 18 then Err ErrInvalidSection
    else
      downloadID ← read32 body 0;
      blockSize ← read16 body 4;
      compatLen ← read16 body 16;
      let off := 18 + compatLen in
      if off =? len body then Ret (mkDSMCCDII downloadID blockSize [] [])
      else if len body <? off + 2 then Err ErrInvalidSection
      else
        moduleCount ← read16 body off;
        '(modules, off) ← diiModules body (Z.to_nat moduleCount) (off + 2);
        private ← diiPrivateData body off;
        Ret (mkDSMCCDII downloadID blockSize modules private).

Definition ParseDSMCCDDB (s : Section_) : go DSMCCDDB :=
  bad ← guardSection 25 [TableIDDSMCCDDB] s;
  if (bad : bool) then Err ErrInvalidSection
  else
    body ← dsmccMessageBody s 0x1003;
    if len body <? 6 then Err ErrInvalidSection
    else
      downloadID ← read32 s 12;
      moduleID ← read16 body 0;
      version ← idx body 2;
      blockNumber ← read16 body 4;
      data ← sliceFrom body 6;
      Ret (mkDSMCCDDB downloadID moduleID version blockNumber data).

(** ** Module metadata (ts/dsmcc_module_info.go) *)

Record DSMCCModuleMetadata := mkDSMCCModuleMetadata {
  md_Type : bytes;
  md_Name : bytes;
  md_CRC32 : option Z;
  md_EstimatedDownloadSeconds : option Z;
  md_CachingPriority : option Z;
  md_ExpireMode : option Z;
  md_ExpireData : bytes;
  md_ActivationMode : option Z;
  md_ActivationData : bytes;
  md_CompressionType : option Z;
  md_OriginalSize : option Z
}.

Definition emptyMetadata : DSMCCModuleMetadata :=
  mkDSMCCModuleMetadata [] [] None None None None [] None [] None None.

(** One case of the [switch] on the descriptor tag. *)
Definition metadataDescriptor (m : DSMCCModuleMetadata) (tag : Z) (data : bytes) :
    go DSMCCModuleMetadata :=
  let '(mkDSMCCModuleMetadata ty name crc est prio em ed am ad ct os) := m in
  if tag =? 0x01 then Ret (mkDSMCCModuleMetadata data name crc est prio em ed am ad ct os)
  else if tag =? 0x02 then Ret (mkDSMCCModuleMetadata ty data crc est prio em ed am ad ct os)
  else if tag =? 0x05 then
    if len data =? 4 then
      v ← read32 data 0; Ret (mkDSMCCModuleMetadata ty name (Some v) est prio em ed am ad ct os)
    else Ret m
  else if tag =? 0x07 then
    if len data =? 4 then
      v ← read32 data 0; Ret (mkDSMCCModuleMetadata ty name crc (Some v) prio em ed am ad ct os)
    else Ret m
  else if tag =? 0x71 then
    if 1 <=? len data then
      v ← idx data 0; Ret (mkDSMCCModuleMetadata ty name crc est (Some v) em ed am ad ct os)
    else Ret m
  else if tag =? 0xc0 then
    if 1 <=? len data then
      v ← idx data 0; rest ← sliceFrom data 1;
      Ret (mkDSMCCModuleMetadata ty name crc est prio (Some v) rest am ad ct os)
    else Ret m
  else if tag =? 0xc1 then
    if 1 <=? len data then
      v ← idx data 0; rest ← sliceFrom data 1;
      Ret (mkDSMCCModuleMetadata ty name crc est prio em ed (Some v) rest ct os)
    else Ret m
  else if tag =? 0xc2 then
    if len data =? 5 then
      v ← idx data 0; size ← read32 data 1;
      Ret (mkDSMCCModuleMetadata ty name crc est prio em ed am ad (Some v) (Some size))
    else Ret m
  else Ret m.

(** [None] is the [ok == false] result. *)
Definition metadataTurn (info : bytes) (st : Z * DSMCCModuleMetadata) :
    go (iteration (Z * DSMCCModuleMetadata) (option DSMCCModuleMetadata)) :=
  let '(off, m) := st in
  if off <? len info then
    if len info <? off + 2 then Ret (Break None)
    else
      tag ← idx info off;
      size ← idx info (off + 1);
      let off := off + 2 in
      if len info <? off + size then Ret (Break None)
      else
        data ← slice info off (off + size);
        m ← metadataDescriptor m tag data;
        Ret (Continue (off + size, m))
  else Ret (Break (Some m)).

Definition Metadata (m : DSMCCModuleInfo) : go (option DSMCCModuleMetadata) :=
  loop (S (length (mi_Info m))) (metadataTurn (mi_Info m)) (0, emptyMetadata).

(** ** Stream descriptors (ts/dsmcc_stream.go) *)

Record DSMCCStream := mkDSMCCStream {
  ds_DataEventID : Z;
  ds_EventMessageGroupID : Z;
  ds_VersionNumber : Z;
  ds_CurrentNext : bool;
  ds_SectionNumber : Z;
  ds_LastSectionNumber : Z;
  ds_Descriptors : list Descriptor
}.

Definition streamTurn (s : Section_) (end_ : Z) (st : Z * list Descriptor) :
    go (iteration (Z * list Descriptor) (list Descriptor)) :=
  let '(off, ds) := st in
  if off <? end_ then
    bad ← Ret (end_ <? off + 2) ||! (n ← idx s (off + 1); Ret (end_ <? off + 2 + n));
    if (bad : bool) then Err ErrInvalidSection
    else
      n ← idx s (off + 1);
      d ← slice s off (off + 2 + n);
      Ret (Continue (off + len d, ds ++ [d]))
  else Ret (Break ds).

Definition ParseDSMCCStream (s : Section_) : go DSMCCStream :=
  bad ← Ret (len s <? 12)
    ||! (tableID ← TableID s; Ret (negb (tableID =? TableIDDSMCCStream)))
    ||! (negb <$> SectionSyntaxIndicator s)
    ||! (b ← idx s 1; Ret (flag b 0x40))
    ||! (total ← TotalLength s; Ret (len s <? total))
    ||! (negb <$> ValidateCRC s);
  if (bad : bool) then Err ErrInvalidSection
  else
    total ← TotalLength s;
    let end_ := total - 4 in
    b3 ← idx s 3; group ← read12 s 3; b5 ← idx s 5; number ← idx s 6; last ← idx s 7;
    ds ← loop (S (length s)) (streamTurn s end_) (8, []);
    Ret (mkDSMCCStream (Z.shiftr b3 4) group (Z.land (Z.shiftr b5 1) 0x1f) (flag b5 1) number last ds).

Record DSMCCGeneralEvent := mkDSMCCGeneralEvent {
  ge_EventMessageGroupID : Z;
  ge_TimeMode : Z;
  ge_TimeValue : bytes;
  ge_EventMessageType : Z;
  ge_EventMessageID : Z;
  ge_PrivateData : bytes
}.

Definition ParseDSMCCGeneralEvent (d : Descriptor) : go (option DSMCCGeneralEvent) :=
  data ← Data d;
  tag ← Tag d;
  if negb (tag =? 0x40) || (len data <? 6) then Ret None
  else
    b0 ← idx data 0; b1 ← idx data 1; timeMode ← idx data 2;
    let group := Z.lor (Z.shiftl b0 4) (Z.shiftr b1 4) in
    let timed := existsb (Z.eqb timeMode) [0x00; 0x01; 0x02; 0x03; 0x05] in
    if timed && (len data <? 3 + 8) then Ret None
    else
      timeValue ← (if timed then slice data 3 (3 + 5) else Ret []);
      let off := if timed then 8 else 3 in
      kind ← idx data off;
      id ← read16 data (off + 1);
      private ← sliceFrom data (off + 3);
      Ret (Some (mkDSMCCGeneralEvent group timeMode timeValue kind id private)).

Definition i16 (x : Z) : Z := if x <? 2 ^ 15 then x else x - 2 ^ 16.

Record DSMCCNPTReference := mkDSMCCNPTReference {
  npt_PostDiscontinuityIndicator : bool;
  npt_DSMContentID : Z;
  npt_STCReference : Z;
  npt_NPTReference : Z;
  npt_ScaleNumerator : Z;
  npt_ScaleDenominator : Z
}.

(** [uint64(data[i]&1)<<32 | uint64(Uint32(data[i+1:i+5]))], with the low word
    at [j]. *)
Definition read33 (data : bytes) (i j : Z) : go Z :=
  hi ← idx data i; lo ← read32 data j; Ret (Z.lor (Z.shiftl (Z.land hi 1) 32) lo).

Definition ParseDSMCCNPTReference (d : Descriptor) : go (option DSMCCNPTReference) :=
  data ← Data d;
  tag ← Tag d;
  if negb (tag =? 0x17) || (len data <? 18) then Ret None
  else
    b0 ← idx data 0;
    stc ← read33 data 1 2;
    npt ← read33 data 9 10;
    num ← read16 data 14;
    den ← read16 data 16;
    Ret (Some (mkDSMCCNPTReference (flag b0 0x80) (Z.land b0 0x7f) stc npt (i16 num) (i16 den))).

Definition EventMessageNPT (e : DSMCCGeneralEvent) : go (option Z) :=
  if negb (ge_TimeMode e =? 0x02) || negb (len (ge_TimeValue e) =? 5) then Ret None
  else v ← read33 (ge_TimeValue e) 0 1; Ret (Some v).

(** ** Common data table (ts/logo.go) *)

Record CDT := mkCDT {
  cdt_DownloadDataID : Z;
  cdt_VersionNumber : Z;
  cdt_SectionNumber : Z;
  cdt_LastSectionNumber : Z;
  cdt_OriginalNetworkID : Z;
  cdt_DataType : Z;
  cdt_Descriptors : list Descriptor;
  cdt_DataModule : bytes
}.

Definition ParseCDT (s : Section_) : go CDT :=
  bad ← guardSection 17 [TableIDCDT] s;
  if (bad : bool) then Err ErrInvalidSection
  else
    total ← TotalLength s;
    let sectionEnd := total - 4 in
    descriptorsLoopLen ← read12 s 11;
    let descEnd := 13 + descriptorsLoopLen in
    if sectionEnd <? descEnd then Err ErrInvalidSection
    else
      id ← read16 s 3; b5 ← idx s 5; number ← idx s 6; last ← idx s 7;
      onid ← read16 s 8; kind ← idx s 10;
      raw ← slice s 13 descEnd;
      ds ← ParseDescriptors raw;
      module_ ← slice s descEnd sectionEnd;
      Ret (mkCDT id (Z.land (Z.shiftr b5 1) 0x1f) number last onid kind ds module_).

Definition pngSignature : bytes := [0x89; 0x50; 0x4e; 0x47; 0x0d; 0x0a; 0x1a; 0x0a].

Definition hasPrefix (l prefix : bytes) : bool := bool_decide (take (length prefix) l = prefix).

Record LogoImage := mkLogoImage {
  li_OriginalNetworkID : Z;
  li_LogoID : Z;
  li_LogoVersion : Z;
  li_DownloadDataID : Z;
  li_LogoType : Z;
  li_Data : bytes;
  li_IsDeleted : bool
}.

Definition ParseCDTLogoImage (cdt : CDT) : go LogoImage :=
  let data := cdt_DataModule cdt in
  if len data <? 7 then Err ErrInvalidSection
  else
    size ← read16 data 5;
    if len data <? 7 + size then Err ErrInvalidSection
    else
      image ← slice data 7 (7 + size);
      if (0 <? size) && negb (hasPrefix image pngSignature) then Err ErrInvalidSection
      else
        id ← readMasked 0x01 data 1;
        version ← read12 data 3;
        kind ← idx data 0;
        Ret (mkLogoImage (cdt_OriginalNetworkID cdt) id version (cdt_DownloadDataID cdt) kind image
               (size =? 0)).

(** ** Logo data modules (ts/logo_common.go) *)

Record CommonLogoService := mkCommonLogoService {
  ls_OriginalNetworkID : Z;
  ls_TransportStreamID : Z;
  ls_ServiceID : Z
}.

Record CommonLogoImage := mkCommonLogoImage {
  cl_LogoID : Z;
  cl_LogoType : Z;
  cl_LogoVersion : Z;
  cl_DownloadID : Z;
  cl_Services : list CommonLogoService;
  cl_Data : bytes;
  cl_IsDeleted : bool;
  cl_IsNetwork : bool;
  cl_SourceLabel : bytes
}.

Definition NetworkLogoTransportStreamWildcard : Z := 0xffff.
Definition NetworkLogoServiceWildcard : Z := 0xffff.

Definition isNetworkService (x : CommonLogoService) : bool :=
  (ls_TransportStreamID x =? NetworkLogoTransportStreamWildcard)
  && (ls_ServiceID x =? NetworkLogoServiceWildcard).

(** The service loop of one logo: [n] services from [off] on. *)
Fixpoint logoServices (module_ : bytes) (n : nat) (off : Z) : go (list CommonLogoService * Z) :=
  match n with
  | O => Ret ([], off)
  | S n =>
      if len module_ <? off + 6 then Err ErrInvalidSection
      else
        onid ← read16 module_ off;
        tsid ← read16 module_ (off + 2);
        sid ← read16 module_ (off + 4);
        '(rest, off) ← logoServices module_ n (off + 6);
        Ret (mkCommonLogoService onid tsid sid :: rest, off)
  end.

(** One logo from [off] on. *)
Definition logoEntry (module_ : bytes) (logoType off : Z) : go (CommonLogoImage * Z) :=
  if len module_ <? off + 3 then Err ErrInvalidSection
  else
    logoID ← read16 module_ off;
    serviceCount ← idx module_ (off + 2);
    '(services, off) ← logoServices module_ (Z.to_nat serviceCount) (off + 3);
    if len module_ <? off + 2 then Err ErrInvalidSection
    else
      size ← read16 module_ off;
      let off := off + 2 in
      if len module_ <? off + size then Err ErrInvalidSection
      else
        data ← slice module_ off (off + size);
        if (0 <? size) && negb (hasPrefix data pngSignature) then Err ErrInvalidSection
        else Ret (mkCommonLogoImage (Z.land logoID 0x01ff) logoType 0 0 services data (size =? 0)
               (existsb isNetworkService services) [], off + size).

Fixpoint logoEntries (module_ : bytes) (logoType : Z) (n : nat) (off : Z) :
    go (list CommonLogoImage * Z) :=
  match n with
  | O => Ret ([], off)
  | S n =>
      '(image, off) ← logoEntry module_ logoType off;
      '(rest, off) ← logoEntries module_ logoType n off;
      Ret (image :: rest, off)
  end.

Definition ParseLogoDataModule (module_ : bytes) : go (list CommonLogoImage) :=
  if len module_ <? 3 then Err ErrInvalidSection
  else
    logoType ← idx module_ 0;
    loops ← read16 module_ 1;
    '(images, off) ← logoEntries module_ logoType (Z.to_nat loops) 3;
    if negb (off =? len module_) then Err ErrInvalidSection else Ret images.

(** ** The logo carousel *)

(** "LOGO-0" *)
Definition logoPrefix : bytes := [0x4c; 0x4f; 0x47; 0x4f; 0x2d; 0x30].

(** [bytes.Index] *)
Fixpoint indexOf (l sep : bytes) : Z :=
  if hasPrefix l sep then 0
  else
    match l with
    | [] => -1
    | _ :: l => let i := indexOf l sep in if i <? 0 then -1 else i + 1
    end.

(** [bytes.Contains] is [bytes.Index] not negative. *)
Definition IsLogoModule (m : DSMCCModuleInfo) : bool := 0 <=? indexOf (mi_Info m) logoPrefix.

Definition LogoType (m : DSMCCModuleInfo) : go (option Z) :=
  let i := indexOf (mi_Info m) logoPrefix in
  if (i <? 0) || (len (mi_Info m) <? i + 7) then Ret None
  else
    n ← idx (mi_Info m) (i + 6);
    if (n <? 0x30) || (0x35 <? n) then Ret None else Ret (Some (n - 0x30)).

Record dsmccLogoModuleState := mkLogoState {
  lm_info : DSMCCModuleInfo;
  lm_downloadID : Z;
  lm_blockSize : Z;
  lm_blocks : gmap Z bytes;
  lm_emitted : bool
}.

Definition DSMCCLogoCarousel := gmap Z dsmccLogoModuleState.

Definition NewDSMCCLogoCarousel : DSMCCLogoCarousel := ∅.

Definition observeLogoModule (dii : DSMCCDII) (c : DSMCCLogoCarousel) (m : DSMCCModuleInfo) :
    DSMCCLogoCarousel :=
  if negb (IsLogoModule m) then c
  else
    let fresh := mkLogoState m (dii_DownloadID dii) (dii_BlockSize dii) ∅ false in
    match c !! mi_ModuleID m with
    | Some current =>
        if negb (lm_downloadID current =? dii_DownloadID dii)
           || negb (mi_Version (lm_info current) =? mi_Version m)
           || negb (mi_ModuleSize (lm_info current) =? mi_ModuleSize m)
        then <[mi_ModuleID m := fresh]> c else c
    | None => <[mi_ModuleID m := fresh]> c
    end.

Definition observeDII (c : DSMCCLogoCarousel) (dii : DSMCCDII) : DSMCCLogoCarousel * bool :=
  (foldl (observeLogoModule dii) c (dii_Modules dii), existsb IsLogoModule (dii_Modules dii)).

Definition AcceptsSection (c : DSMCCLogoCarousel) (section : Section_) :
    go (DSMCCLogoCarousel * bool) :=
  tableID ← TableID section;
  if tableID =? TableIDDSMCCDII then
    orElse (ParseDSMCCDII section) (fun _ => Ret (c, false)) (fun dii => Ret (observeDII c dii))
  else if tableID =? TableIDDSMCCDDB then
    orElse (ParseDSMCCDDB section) (fun _ => Ret (c, false)) (fun ddb =>
      Ret (c, match c !! ddb_ModuleID ddb with
              | Some m => (lm_downloadID m =? ddb_DownloadID ddb)
                          && (mi_Version (lm_info m) =? ddb_ModuleVersion ddb)
              | None => false
              end))
  else Ret (c, false).

(** [int((size + uint32(blockSize) - 1) / uint32(blockSize))]: the sum wraps at
    32 bits. *)
Definition blockCount (size blockSize : Z) : Z := u32 (size + blockSize - 1) / blockSize.

(** The blocks [i], [i+1], ... in a row; [None] when one is missing.  The key
    is [uint16(i)]. *)
Fixpoint joinBlocks (blocks : gmap Z bytes) (n : nat) (i : Z) : option bytes :=
  match n with
  | O => Some []
  | S n =>
      match blocks !! u16 i with
      | Some block => app block <$> joinBlocks blocks n (i + 1)
      | None => None
      end
  end.

Definition assemble (m : dsmccLogoModuleState) : go (option bytes) :=
  if lm_blockSize m =? 0 then Ret None
  else
    let count := blockCount (mi_ModuleSize (lm_info m)) (lm_blockSize m) in
    if Z.of_nat (size (lm_blocks m)) <? count then Ret None
    else
      match joinBlocks (lm_blocks m) (Z.to_nat count) 0 with
      | None => Ret None
      | Some data =>
          if u32 (len data) <? mi_ModuleSize (lm_info m) then Ret None
          else data ← sliceTo data (mi_ModuleSize (lm_info m)); Ret (Some data)
      end.

Definition labelLogo (m : dsmccLogoModuleState) (logoType : Z) (x : CommonLogoImage) : CommonLogoImage :=
  mkCommonLogoImage (cl_LogoID x) logoType (mi_Version (lm_info m)) (u16 (lm_downloadID m))
    (cl_Services x) (cl_Data x) (cl_IsDeleted x) (cl_IsNetwork x) (mi_Info (lm_info m)).

(** A parse error is returned with the module kept as it is. *)
Definition ObserveLogoDDB (c : DSMCCLogoCarousel) (ddb : DSMCCDDB) :
    go (DSMCCLogoCarousel * (error + list CommonLogoImage)) :=
  match c !! ddb_ModuleID ddb with
  | None => Ret (c, inr [])
  | Some m =>
      if lm_emitted m || negb (lm_downloadID m =? ddb_DownloadID ddb)
         || negb (mi_Version (lm_info m) =? ddb_ModuleVersion ddb)
      then Ret (c, inr [])
      else
        let m := mkLogoState (lm_info m) (lm_downloadID m) (lm_blockSize m)
                   (<[ddb_BlockNumber ddb := ddb_Data ddb]> (lm_blocks m)) (lm_emitted m) in
        let c := <[ddb_ModuleID ddb := m]> c in
        data ← assemble m;
        match data with
        | None => Ret (c, inr [])
        | Some data =>
            orElse (ParseLogoDataModule data) (fun e => Ret (c, inl e)) (fun images =>
              logoType ← LogoType (lm_info m);
              let images := match logoType with
                            | Some t => labelLogo m t <$> images
                            | None => images
                            end in
              Ret (<[ddb_ModuleID ddb :=
                     mkLogoState (lm_info m) (lm_downloadID m) (lm_blockSize m) (lm_blocks m) true]> c,
                   inr images))
        end
  end.

(** ** Software download trigger table *)

Record CommonDataAnnouncement := mkCommonDataAnnouncement {
  ca_OriginalNetworkID : Z;
  ca_TransportStreamID : Z;
  ca_ServiceID : Z;
  ca_DownloadID : Z;
  ca_VersionID : Z
}.

Definition isSatelliteCommonDataTableIDExt (x : Z) : bool := (x =? 0xfffe) || (x =? 0xfffc).

Definition IsSatelliteOriginalNetworkID (x : Z) : bool := (x =? 0x0004) || (x =? 0x0006) || (x =? 0x0007).

Definition DefaultCommonDataAnnouncement : CommonDataAnnouncement :=
  mkCommonDataAnnouncement 0x0004 0x40f1 929 0 0.

(** The module information of a download content descriptor: [n] entries from
    [pos] on. *)
Fixpoint downloadModules (data : bytes) (n : nat) (pos : Z) : go Z :=
  match n with
  | O => Ret pos
  | S n =>
      if len data <? pos + 7 then Err ErrInvalidSection
      else
        infoLen ← idx data (pos + 6);
        let pos := pos + 7 + infoLen in
        if len data <? pos then Err ErrInvalidSection else downloadModules data n pos
  end.

(** A download content descriptor's [download_id], after checking that all its
    parts fit. *)
Definition downloadContentID (data : bytes) : go Z :=
  if len data <? 18 then Err ErrInvalidSection
  else
    flags ← idx data 0;
    downloadID ← read32 data 5;
    pos ← (if flag flags 0x20 then
             if len data <? 18 + 2 then Err ErrInvalidSection
             else
               n ← read16 data 18;
               let pos := 18 + 2 + n in
               if len data <? pos then Err ErrInvalidSection else Ret pos
           else Ret 18);
    pos ← (if flag flags 0x10 then
             if len data <? pos + 1 then Err ErrInvalidSection
             else n ← idx data pos; downloadModules data (Z.to_nat n) (pos + 1)
           else Ret pos);
    if len data <? pos + 1 then Err ErrInvalidSection
    else
      privateLen ← idx data pos;
      let pos := pos + 1 + privateLen in
      if len data <? pos then Err ErrInvalidSection
      else if flag flags 0x08 then
        if len data <? pos + 4 then Err ErrInvalidSection
        else
          textLen ← idx data (pos + 3);
          if len data <? pos + 4 + textLen then Err ErrInvalidSection else Ret downloadID
      else Ret downloadID.

Definition contentTurn (descriptors : bytes) (off : Z) : go (iteration Z (option Z)) :=
  if off <? len descriptors then
    if len descriptors <? off + 2 then Err ErrInvalidSection
    else
      tag ← idx descriptors off;
      n ← idx descriptors (off + 1);
      let off := off + 2 in
      if len descriptors <? off + n then Err ErrInvalidSection
      else
        data ← slice descriptors off (off + n);
        if negb (tag =? 0xc9) then Ret (Continue (off + n))
        else id ← downloadContentID data; Ret (Break (Some id))
  else Ret (Break None).

Definition sdttDownloadContentID (descriptors : bytes) : go (option Z) :=
  loop (S (length descriptors)) (contentTurn descriptors) 0.

(** [n] contents from [off] on. *)
Fixpoint sdttContents (s : Section_) (end_ onid tsid sid : Z) (n : nat) (off : Z) :
    go (list CommonDataAnnouncement) :=
  match n with
  | O => Ret []
  | S n =>
      if end_ <? off + 8 then Err ErrInvalidSection
      else
        b2 ← idx s (off + 2); b3 ← idx s (off + 3); b4 ← idx s (off + 4);
        b5 ← idx s (off + 5); b6 ← idx s (off + 6); b7 ← idx s (off + 7);
        let versionID := Z.lor (Z.shiftl b2 4) (Z.shiftr b3 4) in
        let contentLen := Z.lor (Z.shiftl b4 4) (Z.shiftr b5 4) in
        let scheduleLen := Z.lor (Z.shiftl b6 4) (Z.shiftr b7 4) in
        let descriptorOff := off + 8 + scheduleLen in
        let contentEnd := off + 8 + contentLen in
        if end_ <? contentEnd then Err ErrInvalidSection
        else if contentEnd <? descriptorOff then Err ErrInvalidSection
        else
          raw ← slice s descriptorOff contentEnd;
          id ← sdttDownloadContentID raw;
          rest ← sdttContents s end_ onid tsid sid n contentEnd;
          Ret (match id with
               | Some downloadID =>
                   if (scheduleLen =? 0) && negb (sid =? 0) && negb (sid =? 0xffff)
                   then mkCommonDataAnnouncement onid tsid sid downloadID versionID :: rest
                   else rest
               | None => rest
               end)
  end.

Definition ParseSDTTCommonDataAnnouncements (s : Section_) : go (list CommonDataAnnouncement) :=
  bad ← guardSection 12 [TableIDSDTT] s;
  if (bad : bool) then Err ErrInvalidSection
  else
    header ← ParseSectionHeader s;
    if negb (sh_CurrentNextIndicator header) || negb (sh_SectionNumber header =? 0)
       || negb (sh_TableID header =? TableIDSDTT)
    then Ret []
    else
      ext ← read16 s 3;
      if negb (isSatelliteCommonDataTableIDExt ext) then Ret []
      else
        total ← TotalLength s;
        let end_ := total - 4 in
        if end_ <? 17 then Err ErrInvalidSection
        else
          tsid ← read16 s 8; onid ← read16 s 10; sid ← read16 s 12;
          if negb (IsSatelliteOriginalNetworkID onid) then Ret []
          else
            contentCount ← idx s 14;
            sdttContents s end_ onid tsid sid (Z.to_nat contentCount) 15.

(** ** Safety *)

Lemma wp_dsmccMessageBody s id (Q : bytes -> Prop) : bytes_ok s -> 4 <= len s -> totalOf s <= len s ->
  (forall body, bytes_ok body -> 24 <= totalOf s -> Q body) -> wp (dsmccMessageBody s id) Q.
Proof.
  intros Hs H4 Ht HQ. unfold dsmccMessageBody. descriptor_run;
    try (apply HQ; [auto with bytes|lia]).
Qed.

Lemma wp_diiModules body n (Q : list DSMCCModuleInfo * Z -> Prop) : bytes_ok body -> forall off,
  0 <= off -> (forall ms o, 0 <= o -> Q (ms, o)) -> wp (diiModules body n off) Q.
Proof.
  intros Hb. revert Q. induction n as [|n IH]; intros Q off Ho HQ; cbn [diiModules]; [by apply HQ|].
  descriptor_run. apply IH; [lia|]. intros ms o Ho'. apply wp_ret. by apply HQ.
Qed.

Lemma ParseDSMCCDII_safe s : bytes_ok s -> safe (ParseDSMCCDII s).
Proof.
  intros Hs. unfold ParseDSMCCDII, safe. descriptor_run.
  apply wp_dsmccMessageBody; [done|lia|done|]. intros body Hb _. descriptor_run.
  apply wp_diiModules; [done|lia|]. intros ms o Ho. unfold diiPrivateData. descriptor_run.
Qed.

Lemma ParseDSMCCDDB_safe s : bytes_ok s -> safe (ParseDSMCCDDB s).
Proof.
  intros Hs. unfold ParseDSMCCDDB, safe. descriptor_run.
  apply wp_dsmccMessageBody; [done|lia|done|]. intros body Hb H20. descriptor_run.
Qed.

Lemma Metadata_safe m : bytes_ok (mi_Info m) -> safe (Metadata m).
Proof.
  intros Hm. unfold Metadata, safe.
  apply (wp_loop (fun '(off, _) => 0 <= off <= len (mi_Info m)) (fun '(off, _) => len (mi_Info m) - off));
    [|lia..].
  intros [off md] Ho. unfold metadataTurn. descriptor_run.
  apply (wp_mono _ (fun _ => True)); [|intros; apply wp_ret; lia].
  unfold metadataDescriptor. destruct md. descriptor_run.
Qed.

Lemma ParseDSMCCStream_safe s : bytes_ok s -> safe (ParseDSMCCStream s).
Proof.
  intros Hs. unfold ParseDSMCCStream, safe. apply wp_bind.
  apply (wp_mono _ (fun bad => bad = false -> 12 <= len s /\ totalOf s <= len s)).
  { destruct (Z.ltb_spec (len s) 12); [done|]. unfold TableID, SectionSyntaxIndicator.
    rewrite !idx_byteAt, TotalLength_eq by lia. cbn [goor mbind go_bind fmap go_fmap].
    repeat (destruct (negb _); [done|]; cbn [goor mbind go_bind]). destruct (flag _ 64); [done|].
    cbn [goor mbind go_bind]. destruct (Z.ltb_spec (len s) (totalOf s)); [done|].
    unfold goor. cbn [mbind go_bind]. rewrite ValidateCRC_eq by (done || lia). simpl. auto. }
  intros [] Hbad; [done|]. destruct Hbad; [done|]. parse_run.
  destruct (Z.leb_spec (totalOf s - 4) 8).
  - rewrite loop_S. cbn [streamTurn]. rewrite (proj2 (Z.ltb_ge _ _)) by lia. done.
  - apply (wp_loop (fun '(off, _) => 8 <= off <= totalOf s - 4) (fun '(off, _) => len s - off)); [|lia..].
    intros [off ds] Ho. unfold streamTurn.
    destruct (Z.ltb_spec off (totalOf s - 4)); [|done]. apply wp_bind.
    destruct (Z.ltb_spec (totalOf s - 4) (off + 2)); [done|]. cbn [goor mbind go_bind].
    rewrite !idx_byteAt by lia. cbn [mbind go_bind]. pose proof (byteAt_range s (off + 1) Hs).
    destruct (Z.ltb_spec (totalOf s - 4) (off + 2 + byteAt s (off + 1))); [done|].
    apply wp_ret, wp_bind, wp_slice; [lia..|]. apply wp_ret.
    rewrite length_take, length_drop. lia.
Qed.

Lemma wp_read33 data i j (Q : Z -> Prop) : bytes_ok data -> 0 <= i < len data -> 0 <= j ->
  j + 3 < len data -> (forall x, Q x) -> wp (read33 data i j) Q.
Proof. intros. unfold read33. descriptor_run. auto. Qed.

Lemma ParseDSMCCGeneralEvent_safe d : descriptor_ok d -> safe (ParseDSMCCGeneralEvent d).
Proof.
  intros (Hd & H2 & Hl). unfold ParseDSMCCGeneralEvent, safe.
  apply wp_bind, wp_Data; [done|lia..|]. intros data Hdata Hlen. descriptor_run.
  all: match goal with |- context [existsb ?f ?l] => destruct (existsb f l) eqn:Htimed end;
    simpl in *; descriptor_run.
Qed.

Lemma ParseDSMCCNPTReference_safe d : descriptor_ok d -> safe (ParseDSMCCNPTReference d).
Proof.
  intros (Hd & H2 & Hl). unfold ParseDSMCCNPTReference, safe.
  apply wp_bind, wp_Data; [done|lia..|]. intros data Hdata Hlen. descriptor_run.
  apply wp_read33; [done|lia..|]. intros stc. descriptor_run.
  apply wp_read33; [done|lia..|]. intros npt. descriptor_run.
Qed.

Lemma ParseCDT_safe s : bytes_ok s -> safe (ParseCDT s).
Proof. intros Hs. unfold ParseCDT, safe. descriptor_run. Qed.

Lemma ParseCDTLogoImage_safe cdt : bytes_ok (cdt_DataModule cdt) -> safe (ParseCDTLogoImage cdt).
Proof.
  intros Hd. unfold ParseCDTLogoImage, safe. descriptor_run.
  apply (wp_readMasked 0x01 _ _ 1); [done|lia|done|lia|lia|]. intros id Hid. descriptor_run.
Qed.

Lemma wp_logoServices m n (Q : list CommonLogoService * Z -> Prop) : bytes_ok m -> forall off,
  0 <= off -> (forall l o, off <= o -> Q (l, o)) -> wp (logoServices m n off) Q.
Proof.
  intros Hm. revert Q. induction n as [|n IH]; intros Q off Ho HQ; cbn [logoServices]; [by apply HQ|].
  descriptor_run. apply IH; [lia|]. intros l o Ho'. apply wp_ret. apply HQ. lia.
Qed.

Lemma wp_logoEntry m t off (Q : CommonLogoImage * Z -> Prop) : bytes_ok m -> 0 <= off ->
  (forall x o, off <= o -> Q (x, o)) -> wp (logoEntry m t off) Q.
Proof.
  intros Hm Ho HQ. unfold logoEntry. descriptor_run.
  apply wp_logoServices; [done|lia|]. intros l o Ho'. descriptor_run. apply HQ. lia.
Qed.

Lemma wp_logoEntries m t n (Q : list CommonLogoImage * Z -> Prop) : bytes_ok m -> forall off,
  0 <= off -> (forall l o, Q (l, o)) -> wp (logoEntries m t n off) Q.
Proof.
  intros Hm. revert Q. induction n as [|n IH]; intros Q off Ho HQ; cbn [logoEntries]; [by apply HQ|].
  apply wp_bind, wp_logoEntry; [done|done|]. intros x o Ho'. apply wp_bind.
  apply IH; [lia|]. intros l o'. apply wp_ret, HQ.
Qed.

Lemma ParseLogoDataModule_safe m : bytes_ok m -> safe (ParseLogoDataModule m).
Proof.
  intros Hm. unfold ParseLogoDataModule, safe. descriptor_run.
  apply wp_logoEntries; [done|lia|]. intros l o. descriptor_run.
Qed.

Lemma wp_downloadModules data n (Q : Z -> Prop) : bytes_ok data -> forall pos, 0 <= pos ->
  (forall p, 0 <= p -> Q p) -> wp (downloadModules data n pos) Q.
Proof.
  intros Hd. induction n as [|n IH]; intros pos Hp HQ; cbn [downloadModules]; [by apply HQ|].
  descriptor_run. apply IH; [lia|done].
Qed.

Lemma downloadContentID_safe data : bytes_ok data -> safe (downloadContentID data).
Proof.
  intros Hd. unfold downloadContentID, safe.
  destruct (Z.ltb_spec (len data) 18); [done|]. do 4 descriptor_step.
  apply wp_bind, (wp_mono _ (fun pos => 18 <= pos)); [descriptor_run; lia|].
  intros pos Hpos. apply wp_bind, (wp_mono _ (fun pos => 0 <= pos)).
  { descriptor_run; [|lia]. apply wp_downloadModules; [done|lia|done]. }
  intros pos' Hpos'. descriptor_run.
Qed.

Lemma sdttDownloadContentID_safe descriptors :
  bytes_ok descriptors -> safe (sdttDownloadContentID descriptors).
Proof.
  intros Hd. unfold sdttDownloadContentID, safe.
  apply (wp_loop (fun off => 0 <= off <= len descriptors) (fun off => len descriptors - off)); [|lia..].
  intros off Ho. unfold contentTurn. descriptor_run; [lia|].
  apply (wp_mono _ (fun _ => True)); [apply downloadContentID_safe; auto with bytes|]. done.
Qed.

Lemma sdttContents_safe s end_ onid tsid sid n : bytes_ok s -> end_ <= len s -> forall off,
  0 <= off -> safe (sdttContents s end_ onid tsid sid n off).
Proof.
  intros Hs He. induction n as [|n IH]; intros off Ho; [done|]. cbn [sdttContents]. unfold safe.
  assert (forall x y, 0 <= x < 256 -> 0 <= y < 256 -> 0 <= Z.lor (Z.shiftl x 4) (Z.shiftr y 4)) as Hlor
    by (intros; apply Z.lor_nonneg; rewrite Z.shiftl_nonneg, Z.shiftr_nonneg; lia).
  descriptor_run.
  match goal with |- wp (slice _ (_ + _ + Z.lor (Z.shiftl ?a _) (Z.shiftr ?b _))
      (_ + _ + Z.lor (Z.shiftl ?c _) (Z.shiftr ?d _))) _ =>
    pose proof (Hlor a b ltac:(lia) ltac:(lia)); pose proof (Hlor c d ltac:(lia) ltac:(lia)) end.
  apply wp_slice; [lia..|]. apply wp_bind.
  eapply wp_mono; [apply sdttDownloadContentID_safe; auto with bytes|]. intros id _. apply wp_bind.
  eapply wp_mono; [apply IH; lia|]. done.
Qed.

Lemma ParseSDTT_safe s : bytes_ok s -> safe (ParseSDTTCommonDataAnnouncements s).
Proof.
  intros Hs. unfold ParseSDTTCommonDataAnnouncements, safe. descriptor_run.
  apply sdttContents_safe; [done|lia|lia].
Qed.

(** ** Properties *)

(** No DSM-CC, CDT, SDTT or logo module parser panics or loops, whatever
    bytes it is given. *)
Theorem dsmcc_parsers_total (s : bytes) (Hs : bytes_ok s) :
  safe (ParseDSMCCDII s) /\ safe (ParseDSMCCDDB s) /\ safe (ParseDSMCCStream s)
  /\ safe (ParseCDT s) /\ safe (ParseSDTTCommonDataAnnouncements s)
  /\ safe (ParseLogoDataModule s)
  /\ (forall id size version, safe (Metadata (mkDSMCCModuleInfo id size version s)))
  /\ (forall ds, ParseDescriptors s = Ret ds ->
       Forall (fun d => safe (ParseDSMCCGeneralEvent d) /\ safe (ParseDSMCCNPTReference d)) ds).
Proof.
  conjs; [by apply ParseDSMCCDII_safe|by apply ParseDSMCCDDB_safe|by apply ParseDSMCCStream_safe
    |by apply ParseCDT_safe|by apply ParseSDTT_safe|by apply ParseLogoDataModule_safe| |].
  - intros. by apply Metadata_safe.
  - intros ds E. destruct (ParseDescriptors_cut s Hs) as (ds' & rest & _ & Hds & _ & E' & _).
    assert (ds = ds') as -> by congruence. eapply Forall_impl; [exact Hds|].
    intros x Hx. split; [by apply ParseDSMCCGeneralEvent_safe|by apply ParseDSMCCNPTReference_safe].
Qed.
