(* ===== verification/Carousel.v ===== *)
(** * The data carousel (ts/dsmcc_carousel.go)

    [DSMCCCarousel] assembles the modules announced by a DII from DDB blocks,
    under three budgets: the size of one module, the bytes in flight and the
    bytes completed.  Go ranges over a map in no specified order; the section
    takes the order as a parameter, so the theorems hold for every order.

    Theorems: every operation returns and keeps the byte counters equal to
    what the modules hold, the completed budget always and the in-flight
    budget except by [Invalidate]; blocks assemble to the module in any order;
    what is evicted is the oldest generation, whatever the map order. *)

From stdpp Require Import sorting.
From S2P Require Import Prelude Crc Packet Section Psi Tables Descriptors Dsmcc.

Definition DefaultDSMCCMaxModuleSize : Z := 1040896.
Definition DefaultDSMCCMaxCompletedBytesPerService : Z := 64 * 1024 * 1024.
Definition DefaultDSMCCMaxInFlightBytesPerService : Z := 16 * 1024 * 1024.

Record DSMCCCarouselLimits := mkLimits {
  MaxModuleSize : Z;
  MaxCompletedBytes : Z;
  MaxInFlightBytes : Z
}.

Definition withDefaults (l : DSMCCCarouselLimits) : DSMCCCarouselLimits :=
  mkLimits
    (if MaxModuleSize l =? 0 then DefaultDSMCCMaxModuleSize else MaxModuleSize l)
    (if MaxCompletedBytes l =? 0 then DefaultDSMCCMaxCompletedBytesPerService else MaxCompletedBytes l)
    (if MaxInFlightBytes l =? 0 then DefaultDSMCCMaxInFlightBytesPerService else MaxInFlightBytes l).

Record DSMCCModule := mkDSMCCModule {
  mod_DownloadID : Z;
  mod_ModuleID : Z;
  mod_Version : Z;
  mod_Size : Z;
  mod_Info : bytes;
  mod_Data : bytes;
  mod_Generation : Z
}.

Inductive DSMCCDDBResult : Set :=
  | DSMCCDDBIgnored
  | DSMCCDDBBlock
  | DSMCCDDBDuplicate
  | DSMCCDDBCompleted.

Inductive rejectReason : Set :=
  | moduleSizeZero
  | blockSizeZero
  | moduleSizeLimitExceeded
  | inFlightBudgetExceeded.

Record DSMCCModuleRejection := mkRejection {
  rej_Module : DSMCCModuleInfo;
  rej_Reason : rejectReason
}.

Record DSMCCModuleAnnouncement := mkAnnouncement {
  an_Module : DSMCCModule;
  an_Complete : bool;
  an_ReceivedBlocks : Z;
  an_TotalBlocks : Z
}.

Record dsmccModuleState := mkModuleState {
  ms_info : DSMCCModuleInfo;
  ms_downloadID : Z;
  ms_blockSize : Z;
  ms_data : bytes;
  ms_received : list bool;
  ms_count : Z;
  ms_completed : bool;
  ms_generation : Z
}.

Record DSMCCCarousel := mkCarousel {
  limits : DSMCCCarouselLimits;
  modules : gmap Z dsmccModuleState;
  completedBytes : Z;
  inFlightBytes : Z;
  generation : Z;
  rejected : gmap Z DSMCCModuleRejection
}.

Definition NewDSMCCCarousel (l : DSMCCCarouselLimits) : DSMCCCarousel :=
  mkCarousel (withDefaults l) ∅ 0 0 0 ∅.

Definition withModules (c : DSMCCCarousel) (m : gmap Z dsmccModuleState) : DSMCCCarousel :=
  mkCarousel (limits c) m (completedBytes c) (inFlightBytes c) (generation c) (rejected c).
Definition withRejected (c : DSMCCCarousel) (r : gmap Z DSMCCModuleRejection) : DSMCCCarousel :=
  mkCarousel (limits c) (modules c) (completedBytes c) (inFlightBytes c) (generation c) r.
Definition withBytes (c : DSMCCCarousel) (completed inFlight : Z) : DSMCCCarousel :=
  mkCarousel (limits c) (modules c) completed inFlight (generation c) (rejected c).
Definition withGeneration (c : DSMCCCarousel) (g : Z) : DSMCCCarousel :=
  mkCarousel (limits c) (modules c) (completedBytes c) (inFlightBytes c) g (rejected c).

Definition stateSize (st : dsmccModuleState) : Z := mi_ModuleSize (ms_info st).

Definition reject (c : DSMCCCarousel) (m : DSMCCModuleInfo) (reason : rejectReason) : DSMCCCarousel :=
  withRejected c (<[mi_ModuleID m := mkRejection m reason]> (rejected c)).

Definition remove (c : DSMCCCarousel) (moduleID : Z) : DSMCCCarousel :=
  match modules c !! moduleID with
  | None => c
  | Some st =>
      let c := if ms_completed st
               then withBytes c (u64 (completedBytes c - len (ms_data st))) (inFlightBytes c)
               else withBytes c (completedBytes c) (u64 (inFlightBytes c - stateSize st)) in
      withModules c (delete moduleID (modules c))
  end.

(** The loop of both eviction functions: the candidate with the smallest
    generation, the first one met on a tie. *)
Definition oldestOf (candidate : Z * dsmccModuleState -> bool) (l : list (Z * dsmccModuleState)) :
    option (Z * dsmccModuleState) :=
  foldl (fun oldest x =>
    if negb (candidate x) then oldest
    else
      match oldest with
      | None => Some x
      | Some o => if ms_generation x.2 <? ms_generation o.2 then Some x else oldest
      end) None l.

Definition inFlightCandidate (x : Z * dsmccModuleState) : bool := negb (ms_completed x.2).

Definition completedCandidate (except : Z) (x : Z * dsmccModuleState) : bool :=
  ms_completed x.2 && negb (len (ms_data x.2) =? 0) && negb (x.1 =? except).

Definition module_ (st : dsmccModuleState) : DSMCCModule :=
  mkDSMCCModule (ms_downloadID st) (mi_ModuleID (ms_info st)) (mi_Version (ms_info st))
    (stateSize st) (mi_Info (ms_info st)) (ms_data st) (ms_generation st).

Section carousel.
Context (range : gmap Z dsmccModuleState -> list (Z * dsmccModuleState)).

Definition evictOldest (candidate : Z * dsmccModuleState -> bool) (c : DSMCCCarousel) :
    DSMCCCarousel * bool :=
  match oldestOf candidate (range (modules c)) with
  | None => (c, false)
  | Some (oldestID, _) => (remove c oldestID, true)
  end.

Definition evictOldestInFlight : DSMCCCarousel -> DSMCCCarousel * bool :=
  evictOldest inFlightCandidate.

Definition evictOldestCompletedExcept (except : Z) : DSMCCCarousel -> DSMCCCarousel * bool :=
  evictOldest (completedCandidate except).

(** [for over(c) && evict(c) {}]; every turn that continues removes a module. *)
Definition evictWhile (over : DSMCCCarousel -> bool) (evict : DSMCCCarousel -> DSMCCCarousel * bool)
    (c : DSMCCCarousel) : go DSMCCCarousel :=
  loop (S (size (modules c)))
    (fun c =>
      if over c then
        let '(c, ok) := evict c in
        if (ok : bool) then Ret (Continue c) else Ret (Break c)
      else Ret (Break c)) c.

Definition overInFlight (moduleSize : Z) (c : DSMCCCarousel) : bool :=
  MaxInFlightBytes (limits c) <? u64 (inFlightBytes c + moduleSize).

Definition overCompleted (c : DSMCCCarousel) : bool :=
  MaxCompletedBytes (limits c) <? completedBytes c.

(** One module of a DII: the new carousel and whether it is accepted. *)
Definition observeModule (dii : DSMCCDII) (c : DSMCCCarousel) (m : DSMCCModuleInfo) :
    go (DSMCCCarousel * bool) :=
  let id := mi_ModuleID m in
  if mi_ModuleSize m =? 0 then Ret (reject (remove c id) m moduleSizeZero, false)
  else if dii_BlockSize dii =? 0 then Ret (reject (remove c id) m blockSizeZero, false)
  else if MaxModuleSize (limits c) <? mi_ModuleSize m
  then Ret (reject (remove c id) m moduleSizeLimitExceeded, false)
  else
    let c := withRejected c (delete id (rejected c)) in
    let same := match modules c !! id with
                | Some current =>
                    (ms_downloadID current =? dii_DownloadID dii)
                    && (mi_Version (ms_info current) =? mi_Version m)
                    && (stateSize current =? mi_ModuleSize m)
                    && (ms_blockSize current =? dii_BlockSize dii)
                | None => false
                end in
    if same then Ret (c, true)
    else
      let c := remove c id in
      if MaxInFlightBytes (limits c) <? mi_ModuleSize m
      then Ret (reject c m inFlightBudgetExceeded, false)
      else
        c ← evictWhile (overInFlight (mi_ModuleSize m)) evictOldestInFlight c;
        if overInFlight (mi_ModuleSize m) c then Ret (reject c m inFlightBudgetExceeded, false)
        else
          let count := blockCount (mi_ModuleSize m) (dii_BlockSize dii) in
          let c := withGeneration c (u64 (generation c + 1)) in
          let st := mkModuleState m (dii_DownloadID dii) (dii_BlockSize dii)
                      (replicate (Z.to_nat (mi_ModuleSize m)) 0)
                      (replicate (Z.to_nat count) false) 0 false (generation c) in
          let c := withModules c (<[id := st]> (modules c)) in
          Ret (withBytes c (completedBytes c) (u64 (inFlightBytes c + mi_ModuleSize m)), true).

Fixpoint observeModules (dii : DSMCCDII) (c : DSMCCCarousel) (ms : list DSMCCModuleInfo) :
    go (DSMCCCarousel * list DSMCCModuleInfo) :=
  match ms with
  | [] => Ret (c, [])
  | m :: ms =>
      '(c, ok) ← observeModule dii c m;
      '(c, accepted) ← observeModules dii c ms;
      Ret (c, if (ok : bool) then m :: accepted else accepted)
  end.

(** Modules no longer announced are removed, in map order. *)
Definition dropUnseen (seen : list Z) (c : DSMCCCarousel) : DSMCCCarousel :=
  let c := foldl (fun c x => if bool_decide (x.1 ∈ seen) then c else remove c x.1) c
             (range (modules c)) in
  withRejected c (filter (fun x => x.1 ∈ seen) (rejected c)).

Definition ObserveDII (c : DSMCCCarousel) (dii : DSMCCDII) :
    go (DSMCCCarousel * list DSMCCModuleInfo) :=
  '(c, accepted) ← observeModules dii c (dii_Modules dii);
  Ret (dropUnseen (mi_ModuleID <$> dii_Modules dii) c, accepted).

(** [copy(data[off:end], src)] *)
Definition writeAt (data : bytes) (off : Z) (src : bytes) : bytes :=
  take (Z.to_nat off) data ++ src ++ drop (Z.to_nat off + length src) data.

(** The accounting of a module that just completed, and the budget. *)
Definition settleCompleted (c : DSMCCCarousel) (id : Z) (st : dsmccModuleState) :
    go (DSMCCCarousel * bool) :=
  let c := withModules c (<[id := st]> (modules c)) in
  let c := withBytes c (u64 (completedBytes c + stateSize st)) (u64 (inFlightBytes c - stateSize st)) in
  c ← evictWhile overCompleted (evictOldestCompletedExcept id) c;
  if overCompleted c then Ret (remove c id, false) else Ret (c, true).

Definition ddbResult : Type := option DSMCCModule * DSMCCDDBResult * option error.

Definition ObserveDDBWithResult (c : DSMCCCarousel) (ddb : DSMCCDDB) : go (DSMCCCarousel * ddbResult) :=
  let ignored := (None, DSMCCDDBIgnored, None) : ddbResult in
  match modules c !! ddb_ModuleID ddb with
  | None => Ret (c, ignored)
  | Some st =>
      if ms_completed st || negb (ms_downloadID st =? ddb_DownloadID ddb)
         || negb (mi_Version (ms_info st) =? ddb_ModuleVersion ddb) || (ms_blockSize st =? 0)
      then Ret (c, ignored)
      else
        let blockNumber := ddb_BlockNumber ddb in
        if len (ms_received st) <=? blockNumber then Ret (c, ignored)
        else
          let off := blockNumber * ms_blockSize st in
          if len (ms_data st) <=? off then Ret (c, ignored)
          else
            let end_ := Z.min (off + len (ddb_Data ddb)) (len (ms_data st)) in
            duplicate ← idx (ms_received st) blockNumber;
            src ← sliceTo (ddb_Data ddb) (end_ - off);
            let received := <[Z.to_nat blockNumber := true]> (ms_received st) in
            let count := if (duplicate : bool) then ms_count st else ms_count st + 1 in
            let data := writeAt (ms_data st) off src in
            if count <? len received then
              let st := mkModuleState (ms_info st) (ms_downloadID st) (ms_blockSize st) data
                          received count false (ms_generation st) in
              Ret (withModules c (<[ddb_ModuleID ddb := st]> (modules c)),
                   (None, if duplicate then DSMCCDDBDuplicate else DSMCCDDBBlock, None))
            else
              let st := mkModuleState (ms_info st) (ms_downloadID st) (ms_blockSize st) data
                          [] count true (ms_generation st) in
              '(c, ok) ← settleCompleted c (ddb_ModuleID ddb) st;
              if (ok : bool) then Ret (c, (Some (module_ st), DSMCCDDBCompleted, None))
              else Ret (c, (None, DSMCCDDBIgnored, Some ErrDSMCCCarouselBudgetExceeded))
  end.

Definition Restore (c : DSMCCCarousel) (m : DSMCCModule) : go (DSMCCCarousel * bool) :=
  match modules c !! mod_ModuleID m with
  | None => Ret (c, false)
  | Some st =>
      if ms_completed st || negb (ms_downloadID st =? mod_DownloadID m)
         || negb (mi_Version (ms_info st) =? mod_Version m) || negb (stateSize st =? mod_Size m)
         || negb (u32 (len (mod_Data m)) =? mod_Size m)
      then Ret (c, false)
      else if ms_blockSize st =? 0 then Panic
      else
        let st := mkModuleState (ms_info st) (ms_downloadID st) (ms_blockSize st) (mod_Data m) []
                    (blockCount (stateSize st) (ms_blockSize st)) true (ms_generation st) in
        settleCompleted c (mod_ModuleID m) st
  end.

End carousel.

Definition Module_ (c : DSMCCCarousel) (moduleID : Z) : option DSMCCModule :=
  match modules c !! moduleID with
  | None => None
  | Some st =>
      if negb (ms_completed st) || negb (u32 (len (ms_data st)) =? stateSize st) then None
      else Some (module_ st)
  end.

Definition Invalidate (c : DSMCCCarousel) (moduleID downloadID version : Z) : DSMCCCarousel * bool :=
  match modules c !! moduleID with
  | None => (c, false)
  | Some st =>
      if negb (ms_completed st) || negb (ms_downloadID st =? downloadID)
         || negb (mi_Version (ms_info st) =? version) || (ms_blockSize st =? 0)
      then (c, false)
      else
        let count := blockCount (stateSize st) (ms_blockSize st) in
        let completed := u64 (completedBytes c - len (ms_data st)) in
        let g := u64 (generation c + 1) in
        let st := mkModuleState (ms_info st) (ms_downloadID st) (ms_blockSize st)
                    (replicate (Z.to_nat (stateSize st)) 0) (replicate (Z.to_nat count) false) 0 false g in
        let c := withModules (withGeneration c g) (<[moduleID := st]> (modules c)) in
        (withBytes c completed (u64 (inFlightBytes c + stateSize st)), true)
  end.

Definition ReleaseCompletedPayload (c : DSMCCCarousel) (moduleID : Z) : DSMCCCarousel * bool :=
  match modules c !! moduleID with
  | None => (c, false)
  | Some st =>
      if negb (ms_completed st) || negb (u32 (len (ms_data st)) =? stateSize st) then (c, false)
      else
        let c' := withBytes c (u64 (completedBytes c - len (ms_data st))) (inFlightBytes c) in
        let st := mkModuleState (ms_info st) (ms_downloadID st) (ms_blockSize st) []
                    (ms_received st) (ms_count st) (ms_completed st) (ms_generation st) in
        (withModules c' (<[moduleID := st]> (modules c')), true)
  end.

Definition ModuleInfo (c : DSMCCCarousel) (moduleID : Z) : option DSMCCModuleInfo :=
  ms_info <$> (modules c !! moduleID).

(** The listings: in map order before the sort by module id, whose result does
    not depend on that order because the ids are the map's keys; [map_to_list]
    stands for any order. *)
Definition announcement (st : dsmccModuleState) : DSMCCModuleAnnouncement :=
  mkAnnouncement
    (mkDSMCCModule (ms_downloadID st) (mi_ModuleID (ms_info st)) (mi_Version (ms_info st))
       (stateSize st) (mi_Info (ms_info st)) (if ms_completed st then ms_data st else []) 0)
    (ms_completed st) (ms_count st)
    (if ms_completed st then ms_count st else len (ms_received st)).

Definition idLe {A} (a b : Z * A) : Prop := a.1 <= b.1.

#[global] Instance idLe_dec {A} (a b : Z * A) : Decision (idLe a b) := Z_le_dec a.1 b.1.

Definition byID {A} (l : list (Z * A)) : list A := snd <$> merge_sort idLe l.

Definition Announcements (c : DSMCCCarousel) : list DSMCCModuleAnnouncement :=
  announcement <$> byID (map_to_list (modules c)).

Definition RejectedAnnouncements (c : DSMCCCarousel) : list DSMCCModuleRejection :=
  byID (map_to_list (rejected c)).

Definition Modules (c : DSMCCCarousel) : list DSMCCModule :=
  module_ <$> filter (fun st => ms_completed st = true) (byID (map_to_list (modules c))).

Definition CompletedBytes (c : DSMCCCarousel) : Z := completedBytes c.
Definition InFlightBytes (c : DSMCCCarousel) : Z := inFlightBytes c.

(** ** Invariant *)

Definition sumOf (f : dsmccModuleState -> Z) (m : gmap Z dsmccModuleState) : Z :=
  map_fold (fun _ st acc => f st + acc) 0 m.

Lemma sumOf_empty f : sumOf f ∅ = 0.
Proof. unfold sumOf. by rewrite map_fold_empty. Qed.

Lemma sumOf_insert f m i st : m !! i = None -> sumOf f (<[i:=st]> m) = f st + sumOf f m.
Proof. intros Hi. unfold sumOf. rewrite map_fold_insert_L; [done|intros; lia|done]. Qed.

Lemma sumOf_delete f m i st : m !! i = Some st -> sumOf f (delete i m) = sumOf f m - f st.
Proof.
  intros Hi. unfold sumOf. rewrite (map_fold_delete_L _ _ i st m); [lia|intros; lia|done].
Qed.

Lemma sumOf_replace f m i st st' : m !! i = Some st ->
  sumOf f (<[i:=st']> m) = sumOf f m - f st + f st'.
Proof.
  intros Hi. rewrite <- insert_delete_eq, sumOf_insert by apply lookup_delete_eq.
  rewrite (sumOf_delete f m i st Hi). lia.
Qed.

Lemma sumOf_bounds f m lo hi : (forall i st, m !! i = Some st -> lo <= f st <= hi) ->
  lo * Z.of_nat (size m) <= sumOf f m <= hi * Z.of_nat (size m).
Proof.
  induction m as [|i st m Hi IH] using map_ind; intros H; [rewrite sumOf_empty, map_size_empty; lia|].
  rewrite sumOf_insert, map_size_insert_None by done.
  assert (lo <= f st <= hi) by (apply (H i); apply lookup_insert_eq).
  assert (lo * Z.of_nat (size m) <= sumOf f m <= hi * Z.of_nat (size m)); [|lia].
  apply IH. intros j st' Hj. apply (H j). rewrite lookup_insert_ne; [done|]. congruence.
Qed.

Lemma size_keys (m : gmap Z dsmccModuleState) n :
  (forall i st, m !! i = Some st -> 0 <= i < Z.of_nat n) -> (size m <= n)%nat.
Proof.
  intros H. rewrite <- size_dom.
  replace n with (length (seqZ 0 (Z.of_nat n))) by (rewrite length_seqZ; lia).
  rewrite <- (size_list_to_set (C:=gset Z)) by apply NoDup_seqZ.
  apply subseteq_size. intros i Hi. apply elem_of_dom in Hi as [st Hst].
  apply elem_of_list_to_set, elem_of_seqZ. specialize (H i st Hst). lia.
Qed.

Definition trueCount (l : list bool) : Z := len (filter (fun b => b = true) l).

(** A module as the carousel keeps it. *)
Record state_ok (id : Z) (st : dsmccModuleState) : Prop := {
  st_id : mi_ModuleID (ms_info st) = id;
  st_key : 0 <= id < 65536;
  st_size : 0 < stateSize st < 2 ^ 32;
  st_block : 0 < ms_blockSize st < 65536;
  st_completed : ms_completed st = true ->
    ms_received st = [] /\ (ms_data st = [] \/ len (ms_data st) = stateSize st);
  st_flight : ms_completed st = false ->
    len (ms_data st) = stateSize st
    /\ len (ms_received st) = blockCount (stateSize st) (ms_blockSize st)
    /\ ms_count st = trueCount (ms_received st)
    /\ (ms_count st < len (ms_received st) \/ ms_received st = [])
}.

(** What a module counts towards each budget. *)
Definition flightOf (st : dsmccModuleState) : Z := if ms_completed st then 0 else stateSize st.
Definition doneOf (st : dsmccModuleState) : Z := if ms_completed st then len (ms_data st) else 0.

Record carousel_inv (c : DSMCCCarousel) : Prop := {
  inv_modules : forall id st, modules c !! id = Some st -> state_ok id st;
  inv_flight : inFlightBytes c = sumOf flightOf (modules c);
  inv_done : completedBytes c = sumOf doneOf (modules c)
}.

Definition within_completed (c : DSMCCCarousel) : Prop := completedBytes c <= MaxCompletedBytes (limits c).
Definition within_flight (c : DSMCCCarousel) : Prop := inFlightBytes c <= MaxInFlightBytes (limits c).

Lemma state_parts id st : state_ok id st -> 0 <= flightOf st <= 2 ^ 32 /\ 0 <= doneOf st <= 2 ^ 32.
Proof.
  intros [_ _ Hs _ Hc Hf]. unfold flightOf, doneOf. destruct (ms_completed st).
  - destruct Hc as [_ [-> | Hl]]; [done|simpl; lia|lia].
  - lia.
Qed.

Lemma modules_small m : (forall id st, m !! id = Some st -> state_ok id st) ->
  0 <= sumOf flightOf m <= 2 ^ 48 /\ 0 <= sumOf doneOf m <= 2 ^ 48.
Proof.
  intros H. assert (Z.of_nat (size m) <= 65536) as Hs.
  { assert (size m <= Z.to_nat 65536)%nat; [|lia].
    apply size_keys. intros i st Hst. rewrite Z2Nat.id by lia. by destruct (H i st Hst). }
  assert (forall i st, m !! i = Some st -> 0 <= flightOf st <= 2 ^ 32) as H1.
  { intros i st Hst. by apply (state_parts i st (H i st Hst)). }
  assert (forall i st, m !! i = Some st -> 0 <= doneOf st <= 2 ^ 32) as H2.
  { intros i st Hst. by apply (state_parts i st (H i st Hst)). }
  pose proof (sumOf_bounds flightOf m _ _ H1). pose proof (sumOf_bounds doneOf m _ _ H2). lia.
Qed.

Lemma u64_small x : 0 <= x < 2 ^ 64 -> u64 x = x.
Proof. apply Z.mod_small. Qed.

(** [remove] takes a module and what it counts off the carousel. *)
Lemma remove_spec c id : carousel_inv c ->
  carousel_inv (remove c id) /\ modules (remove c id) = delete id (modules c)
  /\ limits (remove c id) = limits c /\ generation (remove c id) = generation c
  /\ inFlightBytes (remove c id) <= inFlightBytes c
  /\ completedBytes (remove c id) <= completedBytes c.
Proof.
  intros [Hm Hf Hd]. unfold remove. destruct (modules c !! id) as [st|] eqn:E.
  2:{ rewrite delete_id by done. conjs; [by constructor|done..|lia|lia]. }
  pose proof (Hm id st E) as Hst. pose proof (modules_small _ Hm) as [Sf Sd].
  pose proof (sumOf_delete flightOf _ _ _ E) as Ef. pose proof (sumOf_delete doneOf _ _ _ E) as Ed.
  destruct (state_parts id st Hst) as [Pf Pd].
  assert (forall i s, delete id (modules c) !! i = Some s -> state_ok i s) as Hm'.
  { intros i s Hi. apply lookup_delete_Some in Hi as [_ Hi]. by apply Hm. }
  destruct (modules_small _ Hm') as [Sf' Sd'].
  unfold flightOf, doneOf in Pf, Pd. unfold flightOf at 3 in Ef. unfold doneOf at 3 in Ed.
  destruct (ms_completed st); simpl; rewrite u64_small by lia; conjs; try done; try lia;
    constructor; simpl; try done; lia.
Qed.

Lemma oldestOf_from candidate (l : list (Z * dsmccModuleState)) o :
  match foldl (fun oldest x =>
    if negb (candidate x) then oldest
    else match oldest with
         | None => Some x
         | Some o => if ms_generation x.2 <? ms_generation o.2 then Some x else oldest
         end) o l with
  | None => o = None /\ forall x, x ∈ l -> candidate x = false
  | Some x => (o = Some x \/ x ∈ l /\ candidate x = true)
      /\ (forall y, (o = Some y \/ y ∈ l /\ candidate y = true) -> ms_generation x.2 <= ms_generation y.2)
  end.
Proof.
  revert o. induction l as [|x l IH]; intros o; simpl.
  { destruct o as [x|]; [|split; [done|]; set_solver]. split; [by left|].
    intros y [[= ->]|[Hy _]]; [lia|set_solver]. }
  set (o' := if negb (candidate x) then o else _). specialize (IH o').
  assert (forall y, o' = Some y -> (o = Some y \/ y = x /\ candidate x = true)) as Ho'.
  { intros y. unfold o'. destruct (candidate x) eqn:Ec; simpl; [|auto].
    destruct o as [z|]; [|intros [= ->]; auto]. destruct (_ <? _); [intros [= ->]; auto|auto]. }
  destruct (foldl _ o' l) as [z|].
  - destruct IH as [Hz Hmin]. split.
    + destruct Hz as [Hz|[Hz Hc]]; [|right; split; [set_solver|done]].
      destruct (Ho' z Hz) as [?|[-> ?]]; [by left|right; split; [set_solver|done]].
    + intros y Hy. assert (o = Some y \/ y = x /\ candidate x = true \/ y ∈ l /\ candidate y = true) as Hy'.
      { destruct Hy as [?|[Hy ?]]; [auto|]. apply elem_of_cons in Hy as [->|?]; auto. }
      assert (forall v, (o = Some v \/ v = x /\ candidate x = true) ->
        exists w, o' = Some w /\ ms_generation w.2 <= ms_generation v.2) as Hbest.
      { intros v Hv. unfold o'. destruct (candidate x) eqn:Ec; simpl.
        - destruct o as [w|].
          + destruct (Z.ltb_spec (ms_generation x.2) (ms_generation w.2)).
            * exists x. split; [done|]. destruct Hv as [[= <-]|[-> _]]; lia.
            * exists w. split; [done|]. destruct Hv as [[= <-]|[-> _]]; lia.
          + exists x. split; [done|]. destruct Hv as [?|[-> _]]; [done|lia].
        - destruct Hv as [Hv|[_ ?]]; [|done]. exists v. split; [done|lia]. }
      destruct Hy' as [Hy'|[Hy'|Hy']].
      * destruct (Hbest y) as (w & Hw & Hle); [auto|]. specialize (Hmin w (or_introl Hw)). lia.
      * destruct (Hbest y) as (w & Hw & Hle); [auto|]. specialize (Hmin w (or_introl Hw)). lia.
      * apply Hmin. auto.
  - destruct IH as [Ho Hn]. unfold o' in Ho. destruct (candidate x) eqn:Ec; simpl in Ho.
    + destruct o; [by destruct (_ <? _)|done].
    + split; [done|]. intros y Hy. apply elem_of_cons in Hy as [->|?]; auto.
Qed.

Lemma oldestOf_spec candidate l :
  match oldestOf candidate l with
  | None => forall x, x ∈ l -> candidate x = false
  | Some x => x ∈ l /\ candidate x = true
      /\ forall y, y ∈ l -> candidate y = true -> ms_generation x.2 <= ms_generation y.2
  end.
Proof.
  pose proof (oldestOf_from candidate l None) as H. unfold oldestOf.
  destruct (foldl _ None l) as [x|]; [|by destruct H].
  destruct H as [[?|[? ?]] Hmin]; [done|]. conjs; auto.
Qed.

Section operations.
Context (range : gmap Z dsmccModuleState -> list (Z * dsmccModuleState)).
Context (Hrange : forall m, range m ≡ₚ map_to_list m).

Lemma elem_of_range m id st : (id, st) ∈ range m <-> m !! id = Some st.
Proof. rewrite Hrange. apply elem_of_map_to_list. Qed.

(** What evicting can do to a carousel. *)
Definition shrunk (c c' : DSMCCCarousel) : Prop :=
  carousel_inv c' /\ modules c' ⊆ modules c /\ limits c' = limits c
  /\ generation c' = generation c /\ inFlightBytes c' <= inFlightBytes c
  /\ completedBytes c' <= completedBytes c.

Lemma shrunk_refl c : carousel_inv c -> shrunk c c.
Proof. intros H. unfold shrunk. conjs; try done; lia. Qed.

Lemma shrunk_trans c1 c2 c3 : shrunk c1 c2 -> shrunk c2 c3 -> shrunk c1 c3.
Proof.
  intros (? & ? & ? & ? & ? & ?) (? & ? & ? & ? & ? & ?). unfold shrunk.
  conjs; try done; try lia; try congruence. by etransitivity.
Qed.

Lemma remove_shrunk c id : carousel_inv c -> shrunk c (remove c id).
Proof.
  intros H. destruct (remove_spec c id H) as (? & E & ? & ? & ? & ?). unfold shrunk.
  conjs; try done. rewrite E. apply delete_subseteq.
Qed.

Lemma evictWhile_spec over candidate c : carousel_inv c ->
  wp (evictWhile over (evictOldest range candidate) c) (fun c' =>
    shrunk c c'
    /\ (forall id st, modules c !! id = Some st -> candidate (id, st) = false ->
          modules c' !! id = Some st)
    /\ (over c' = true -> forall id st, modules c' !! id = Some st -> candidate (id, st) = false)).
Proof.
  intros Hinv. unfold evictWhile.
  apply (wp_loop (fun c' => shrunk c c' /\ forall id st, modules c !! id = Some st ->
      candidate (id, st) = false -> modules c' !! id = Some st)
    (fun c' => Z.of_nat (size (modules c')))); [|split; [by apply shrunk_refl|done]|lia|lia].
  intros c' [Hs Hk]. destruct (over c') eqn:Eo; simpl; [|conjs; [done|done|congruence]].
  unfold evictOldest. pose proof (oldestOf_spec candidate (range (modules c'))) as Hold.
  destruct (oldestOf candidate (range (modules c'))) as [[id st]|]; simpl.
  - destruct Hold as (Hin%elem_of_range & Hc & _). pose proof Hs as (Hinv' & _).
    destruct (remove_spec c' id Hinv') as (_ & E & _). split; [split|].
    + eapply shrunk_trans; [done|by apply remove_shrunk].
    + intros i s Hi Hic. rewrite E. rewrite lookup_delete_ne; [by apply Hk|]. intros ->.
      assert (modules c' !! i = Some s) by (by apply Hk). congruence.
    + rewrite E, map_size_delete_Some by eauto.
      assert (size (modules c') <> 0%nat); [|lia]. eapply map_size_ne_0_lookup_2. eauto.
  - conjs; [done|done|]. intros _ i s Hi. apply Hold. by apply elem_of_range.
Qed.

Lemma evictWhile_errorless over evict c : errorless (evictWhile over evict c).
Proof. unfold evictWhile. errorless. Qed.

(** ** Generations *)

(** Generations are distinct, and none is newer than the counter. *)
Definition gens_ok (m : gmap Z dsmccModuleState) (g : Z) : Prop :=
  0 <= g /\ forall id st, m !! id = Some st -> ms_generation st <= g
    /\ forall id' st', m !! id' = Some st' -> ms_generation st' = ms_generation st -> id' = id.

Lemma gens_subset m m' g : gens_ok m g -> m' ⊆ m -> gens_ok m' g.
Proof.
  intros [Hg H] Hsub. split; [done|]. intros id st Hst.
  destruct (H id st (lookup_weaken _ _ _ _ Hst Hsub)) as [Hle Hd]. split; [done|].
  intros id' st' Hst'. apply Hd. by eapply lookup_weaken.
Qed.

(** A new module gets a new generation. *)
Lemma gens_new m g id st : gens_ok m g -> ms_generation st = g + 1 -> gens_ok (<[id := st]> m) (g + 1).
Proof.
  intros [Hg H] Hst. split; [lia|]. intros i s Hi. apply lookup_insert_Some in Hi as [[<- <-]|[Hne Hi]].
  - split; [lia|]. intros j s' Hj Eg. apply lookup_insert_Some in Hj as [[<- _]|[_ Hj]]; [done|].
    destruct (H j s' Hj). lia.
  - destruct (H i s Hi) as [Hle Hd]. split; [lia|]. intros j s' Hj Eg.
    apply lookup_insert_Some in Hj as [[<- <-]|[_ Hj]]; [lia|by eapply Hd].
Qed.

(** Updating a module in place keeps its generation. *)
Lemma gens_update m g id st st' : gens_ok m g -> m !! id = Some st ->
  ms_generation st' = ms_generation st -> gens_ok (<[id := st']> m) g.
Proof.
  intros [Hg H] Hst E. split; [done|]. intros i s Hi.
  assert (exists s0, m !! i = Some s0 /\ ms_generation s0 = ms_generation s) as (s0 & Hi0 & E0).
  { apply lookup_insert_Some in Hi as [[<- <-]|[_ Hi]]; eauto. }
  destruct (H i s0 Hi0) as [Hle Hd]. split; [lia|]. intros j sj Hj Ej.
  apply lookup_insert_Some in Hj as [[<- <-]|[_ Hj]]; [apply (Hd id st Hst); congruence|].
  apply (Hd j sj Hj). congruence.
Qed.

Lemma shrunk_gens c c' : shrunk c c' -> gens_ok (modules c) (generation c) ->
  gens_ok (modules c') (generation c').
Proof. intros (_ & Hsub & _ & -> & _) Hg. by eapply gens_subset. Qed.

(** ** A DII *)

Definition info_ok (m : DSMCCModuleInfo) : Prop :=
  0 <= mi_ModuleID m < 65536 /\ 0 <= mi_ModuleSize m < 2 ^ 32.

Definition dii_ok (dii : DSMCCDII) : Prop :=
  0 <= dii_BlockSize dii < 65536 /\ Forall info_ok (dii_Modules dii).

Lemma reject_inv c m r : carousel_inv c -> carousel_inv (reject c m r).
Proof. by intros [? ? ?]. Qed.

Lemma trueCount_replicate n : trueCount (replicate n false) = 0.
Proof.
  unfold trueCount. induction n as [|n IH]; [done|]. cbn [replicate]. rewrite filter_cons_False; done.
Qed.

Lemma blockCount_nonneg s b : 0 < b -> 0 <= blockCount s b.
Proof. intros. apply Z.div_pos; [|lia]. apply Z.mod_pos_bound. lia. Qed.

(** A module state as [ObserveDII] and [Invalidate] create it. *)
Lemma fresh_ok m dl bs g : info_ok m -> 0 < mi_ModuleSize m -> 0 < bs < 65536 ->
  state_ok (mi_ModuleID m) (mkModuleState m dl bs (replicate (Z.to_nat (mi_ModuleSize m)) 0)
    (replicate (Z.to_nat (blockCount (mi_ModuleSize m) bs)) false) 0 false g).
Proof.
  intros [Hid Hsz] Hpos Hbs. pose proof (blockCount_nonneg (mi_ModuleSize m) bs). constructor; simpl.
  - done.
  - done.
  - unfold stateSize. simpl. lia.
  - done.
  - done.
  - intros _. unfold stateSize. simpl. rewrite !length_replicate, trueCount_replicate.
    conjs; [lia|lia|done|]. destruct (Z.to_nat (blockCount _ _)); [by right|left; lia].
Qed.

Lemma observeModule_spec dii c m : carousel_inv c -> within_completed c ->
  0 <= dii_BlockSize dii < 65536 -> info_ok m ->
  wp (observeModule range dii c m) (fun '(c', _) =>
    carousel_inv c' /\ within_completed c' /\ (within_flight c -> within_flight c')
    /\ limits c' = limits c).
Proof.
  intros Hinv Hwc Hbs Hm. unfold observeModule.
  assert (forall r, carousel_inv (reject (remove c (mi_ModuleID m)) m r)
    /\ within_completed (reject (remove c (mi_ModuleID m)) m r)
    /\ (within_flight c -> within_flight (reject (remove c (mi_ModuleID m)) m r))
    /\ limits (reject (remove c (mi_ModuleID m)) m r) = limits c) as Hrej.
  { intros r. destruct (remove_spec c (mi_ModuleID m) Hinv) as (Hi & _ & El & _ & ? & ?).
    unfold within_completed, within_flight, reject in *. simpl. rewrite El.
    conjs; [by apply reject_inv|lia|lia|done]. }
  destruct (Z.eqb_spec (mi_ModuleSize m) 0); [by apply Hrej|].
  destruct (Z.eqb_spec (dii_BlockSize dii) 0); [by apply Hrej|].
  destruct (Z.ltb_spec (MaxModuleSize (limits c)) (mi_ModuleSize m)); [by apply Hrej|].
  cbv zeta. set (c1 := withRejected c _). assert (carousel_inv c1) as Hinv1 by (by destruct Hinv).
  destruct (match modules c1 !! mi_ModuleID m with Some _ => _ | None => _ end); [done|].
  destruct (remove_spec c1 (mi_ModuleID m) Hinv1) as (Hinv2 & Em2 & El2 & _ & Hf2 & Hd2).
  set (c2 := remove c1 (mi_ModuleID m)) in *.
  assert (within_completed c2 /\ (within_flight c -> within_flight c2) /\ limits c2 = limits c)
    as (Hwc2 & Hwf2 & El).
  { unfold within_completed, within_flight in *. rewrite El2. simpl in *. conjs; [lia|lia|done]. }
  destruct (Z.ltb_spec (MaxInFlightBytes (limits c2)) (mi_ModuleSize m)).
  { apply wp_ret. conjs; [by apply reject_inv|done|done|done]. }
  apply wp_bind. eapply wp_mono; [by apply evictWhile_spec|].
  intros c3 ((Hinv3 & Hsub & El3 & Eg3 & Hf3 & Hd3) & _ & _).
  destruct (overInFlight (mi_ModuleSize m) c3) eqn:Eo.
  { apply wp_ret. unfold within_completed, within_flight in *. simpl. rewrite El3.
    conjs; [by apply reject_inv|lia|lia|done]. }
  unfold overInFlight in Eo. apply Z.ltb_ge in Eo. apply wp_ret.
  destruct Hinv3 as [Hm3 If3 Id3]. destruct (modules_small _ Hm3) as [Sf Sd]. destruct Hm as [Hid Hsz].
  rewrite u64_small in Eo by lia.
  assert (modules c3 !! mi_ModuleID m = None) as Enone.
  { destruct (modules c3 !! mi_ModuleID m) as [x|] eqn:E; [|done].
    pose proof (lookup_weaken _ _ _ _ E Hsub) as E2. rewrite Em2, lookup_delete_eq in E2. done. }
  simpl. rewrite (u64_small (inFlightBytes c3 + _)) by lia.
  unfold within_completed, within_flight in *. simpl. rewrite El3 in *.
  conjs; [|lia|lia|done]. constructor; simpl.
  - intros id st Hst. destruct (decide (id = mi_ModuleID m)) as [->|Hne].
    + rewrite lookup_insert_eq in Hst. injection Hst as <-. apply fresh_ok; [done|lia|lia].
    + rewrite lookup_insert_ne in Hst by done. by apply Hm3.
  - rewrite sumOf_insert by done. unfold flightOf at 1. simpl. unfold stateSize. simpl. lia.
  - rewrite sumOf_insert by done. unfold doneOf at 1. simpl. lia.
Qed.

Lemma observeModules_spec dii ms : 0 <= dii_BlockSize dii < 65536 -> Forall info_ok ms ->
  forall c, carousel_inv c -> within_completed c ->
  wp (observeModules range dii c ms) (fun '(c', _) =>
    carousel_inv c' /\ within_completed c' /\ (within_flight c -> within_flight c')
    /\ limits c' = limits c).
Proof.
  intros Hbs Hms. induction Hms as [|m ms Hm _ IH]; intros c Hinv Hwc; [done|]. cbn [observeModules].
  apply wp_bind. eapply wp_mono; [by apply observeModule_spec|].
  intros [c1 ok] (H1 & H2 & H3 & H4). apply wp_bind. eapply wp_mono; [by apply IH|].
  intros [c2 acc] (? & ? & ? & ?). apply wp_ret. conjs; auto. congruence.
Qed.

Lemma dropUnseen_spec seen c : carousel_inv c ->
  carousel_inv (dropUnseen range seen c) /\ limits (dropUnseen range seen c) = limits c
  /\ inFlightBytes (dropUnseen range seen c) <= inFlightBytes c
  /\ completedBytes (dropUnseen range seen c) <= completedBytes c.
Proof.
  intros Hinv. unfold dropUnseen.
  assert (forall l c, carousel_inv c ->
    shrunk c (foldl (fun c (x : Z * dsmccModuleState) =>
      if bool_decide (x.1 ∈ seen) then c else remove c x.1) c l)) as H.
  { induction l as [|x l IH]; intros c0 H0; [by apply shrunk_refl|]. simpl.
    case_bool_decide; [by apply IH|]. eapply shrunk_trans; [by apply remove_shrunk|].
    apply IH. by apply remove_spec. }
  destruct (H (range (modules c)) c Hinv) as (Hi & _ & El & _ & ? & ?).
  conjs; [by destruct Hi|done|done|done].
Qed.

(** ** Completing a module *)

Lemma sumOf_zero f m : (forall i st, m !! i = Some st -> f st = 0) -> sumOf f m = 0.
Proof.
  intros H. assert (forall i st, m !! i = Some st -> 0 <= f st <= 0) as H'.
  { intros i st Hi. rewrite (H i st Hi). lia. }
  pose proof (sumOf_bounds f m 0 0 H'). lia.
Qed.

Lemma settleCompleted_spec c id st0 st : carousel_inv c -> within_completed c ->
  modules c !! id = Some st0 -> ms_completed st0 = false -> state_ok id st ->
  ms_completed st = true -> len (ms_data st) = stateSize st -> stateSize st = stateSize st0 ->
  wp (settleCompleted range c id st) (fun '(c', ok) =>
    carousel_inv c' /\ within_completed c' /\ limits c' = limits c
    /\ inFlightBytes c' <= inFlightBytes c
    /\ (ok = true -> modules c' !! id = Some st)
    /\ (stateSize st <= MaxCompletedBytes (limits c) -> ok = true)
    /\ modules c' ⊆ <[id := st]> (modules c) /\ generation c' = generation c).
Proof.
  intros [Hm Hf Hd] Hwc E0 Hnc Hst Hc Hlen Hsz. unfold settleCompleted. cbv zeta.
  destruct (modules_small _ Hm) as [Sf Sd]. pose proof (st_size _ _ Hst) as Hpos.
  assert (forall i s, <[id:=st]> (modules c) !! i = Some s -> state_ok i s) as Hm1.
  { intros i s Hi. apply lookup_insert_Some in Hi as [[<- <-]|[_ Hi]]; [done|by apply Hm]. }
  pose proof (sumOf_replace flightOf _ _ _ st E0) as Ef.
  pose proof (sumOf_replace doneOf _ _ _ st E0) as Ed.
  unfold flightOf at 3 4 in Ef. unfold doneOf at 3 4 in Ed. rewrite Hc, Hnc in Ef, Ed.
  destruct (modules_small _ Hm1) as [Sf1 Sd1].
  set (c1 := withBytes _ _ _).
  assert (carousel_inv c1) as Hinv1.
  { constructor; simpl; [done| |]; rewrite u64_small by lia; lia. }
  assert (inFlightBytes c1 <= inFlightBytes c) as Hfl.
  { simpl. rewrite u64_small by lia. lia. }
  apply wp_bind. eapply wp_mono; [by apply evictWhile_spec|].
  intros c2 ((Hinv2 & Hsub & El & Egen & Hf2 & Hd2) & Hkeep & Hover). simpl in Hsub, Egen.
  assert (modules c2 !! id = Some st) as E2.
  { apply Hkeep; [by simpl; rewrite lookup_insert_eq|]. unfold completedCandidate. simpl.
    rewrite Z.eqb_refl. apply andb_false_r. }
  assert (limits c2 = limits c) as El2 by (by rewrite El).
  destruct (overCompleted c2) eqn:Eo; apply wp_ret.
  - specialize (Hover eq_refl). destruct (remove_spec c2 id Hinv2) as (Hinv3 & E3 & El3 & Eg3 & Hf3 & _).
    assert (sumOf doneOf (delete id (modules c2)) = 0) as Hz.
    { apply sumOf_zero. intros i s Hi. apply lookup_delete_Some in Hi as [Hne Hi].
      specialize (Hover i s Hi). unfold completedCandidate in Hover. simpl in Hover.
      unfold doneOf. destruct (ms_completed s); [|done].
      rewrite (proj2 (Z.eqb_neq i id)) in Hover by done. simpl in Hover.
      rewrite andb_true_r in Hover. apply negb_false_iff, Z.eqb_eq in Hover. done. }
    assert (completedBytes c2 = stateSize st) as Hc2.
    { destruct Hinv2 as [_ _ ->]. rewrite (sumOf_delete doneOf _ _ _ E2) in Hz.
      unfold doneOf at 2 in Hz. rewrite Hc in Hz. lia. }
    unfold within_completed in *. rewrite El3, El2.
    conjs; [done| |done|lia|done| |rewrite E3; etransitivity; [apply delete_subseteq|done]|congruence].
    + destruct Hinv3 as [_ _ ->]. rewrite E3, Hz. lia.
    + intros Hle. unfold overCompleted in Eo. apply Z.ltb_lt in Eo. rewrite El2, Hc2 in Eo. lia.
  - unfold overCompleted in Eo. apply Z.ltb_ge in Eo. unfold within_completed.
    conjs; [done|lia|done|lia|done|done|done|done].
Qed.

Lemma blockCount_cover s b : 0 < s < 2 ^ 32 -> 0 < b < 65536 -> s + b - 1 < 2 ^ 32 ->
  0 < blockCount s b /\ (blockCount s b - 1) * b < s <= blockCount s b * b.
Proof.
  intros Hs Hb Hsum. unfold blockCount. rewrite u32_small by lia.
  pose proof (Z.div_mod (s + b - 1) b). pose proof (Z.mod_pos_bound (s + b - 1) b).
  split; [apply Z.div_str_pos; lia|]. nia.
Qed.

Lemma writeAt_len data off src : 0 <= off -> off + len src <= len data ->
  length (writeAt data off src) = length data.
Proof.
  intros. unfold writeAt. rewrite !length_app, length_take, length_drop. lia.
Qed.

Lemma trueCount_cons b l : trueCount (b :: l) = (if b then 1 else 0) + trueCount l.
Proof.
  unfold trueCount. destruct b; [rewrite filter_cons_True by done; simpl; lia|].
  by rewrite filter_cons_False by done.
Qed.

Lemma trueCount_set l i (d : bool) : l !! i = Some d ->
  trueCount (<[i := true]> l) = trueCount l + (if d then 0 else 1).
Proof.
  revert i. induction l as [|b l IH]; intros [|i] Hi; [done..| |]; simpl in *.
  - injection Hi as <-. rewrite !trueCount_cons. destruct b; lia.
  - rewrite !trueCount_cons, (IH i Hi). destruct d; lia.
Qed.

Lemma trueCount_le l : 0 <= trueCount l <= len l.
Proof.
  induction l as [|b l IH]; [done|]. rewrite trueCount_cons. cbn [length]. destruct b; lia.
Qed.

(** The block in flight: everything up to the question whether it completes
    the module. *)
Lemma ObserveDDB_spec c ddb : carousel_inv c -> within_completed c -> 0 <= ddb_BlockNumber ddb ->
  wp (ObserveDDBWithResult range c ddb) (fun '(c', _) =>
    carousel_inv c' /\ within_completed c' /\ limits c' = limits c
    /\ inFlightBytes c' <= inFlightBytes c /\ generation c' = generation c
    /\ (gens_ok (modules c) (generation c) -> gens_ok (modules c') (generation c))).
Proof.
  intros Hinv Hwc Hbn. unfold ObserveDDBWithResult.
  assert (carousel_inv c /\ within_completed c /\ limits c = limits c
    /\ inFlightBytes c <= inFlightBytes c /\ generation c = generation c
    /\ (gens_ok (modules c) (generation c) -> gens_ok (modules c) (generation c))) as Hsame
    by (conjs; try done; lia).
  destruct (modules c !! ddb_ModuleID ddb) as [st|] eqn:E; [|exact Hsame].
  wp_case Eg; [exact Hsame|]. bools. assert (ms_completed st = false) as Hnc by done.
  cbv zeta. destruct (Z.leb_spec (len (ms_received st)) (ddb_BlockNumber ddb)); [exact Hsame|].
  destruct (Z.leb_spec (len (ms_data st)) (ddb_BlockNumber ddb * ms_blockSize st)); [exact Hsame|].
  pose proof (inv_modules _ Hinv _ _ E) as Hst. pose proof Hst as [Q1 Q2 Q3 Q4 _ Hf].
  destruct Hf as (Hlen & Hrl & Hcount & Hlt); [done|].
  set (off := ddb_BlockNumber ddb * ms_blockSize st) in *.
  assert (0 <= off) by (unfold off; nia).
  set (end_ := Z.min _ _).
  apply wp_bind, wp_idx; [lia|]. intros d Hd.
  apply wp_bind. rewrite slice_0 by lia. apply wp_ret.
  set (src := take (Z.to_nat (end_ - off)) (ddb_Data ddb)).
  assert (length (writeAt (ms_data st) off src) = length (ms_data st)) as Hwl.
  { apply writeAt_len; [lia|]. unfold src. rewrite length_take. lia. }
  set (received := <[_ := true]> (ms_received st)).
  set (count := if d then ms_count st else ms_count st + 1).
  assert (trueCount received = count) as Hc'.
  { unfold received. rewrite (trueCount_set _ _ d) by done. unfold count. destruct d; lia. }
  assert (length received = length (ms_received st)) as Hrlen by (unfold received; apply length_insert).
  destruct (Z.ltb_spec count (len received)).
  - apply wp_ret. destruct Hinv as [Hm If Id]. unfold within_completed in *. simpl.
    conjs; [|done|done|lia|done|intros Hg; by eapply gens_update]. constructor; simpl.
    + intros i s Hi. apply lookup_insert_Some in Hi as [[<- <-]|[_ Hi]]; [|by apply Hm].
      constructor; simpl; try done. intros _. unfold stateSize in *. simpl. rewrite Hwl, Hrlen.
      conjs; [done|done|done|left; lia].
    + rewrite (sumOf_replace flightOf _ _ st) by done. unfold flightOf at 2 3. simpl.
      rewrite Hnc. unfold stateSize. simpl. lia.
    + rewrite (sumOf_replace doneOf _ _ st) by done. unfold doneOf at 2 3. simpl. rewrite Hnc. lia.
  - apply wp_bind. eapply wp_mono; [eapply settleCompleted_spec; try done|].
    + constructor; simpl; try done. intros _. split; [done|]. right. by rewrite Hwl.
    + simpl. by rewrite Hwl.
    + intros [c' ok] (? & ? & ? & ? & _ & _ & Hsub & Eg).
      assert (gens_ok (modules c) (generation c) -> gens_ok (modules c') (generation c)).
      { intros Hg. eapply gens_subset; [|exact Hsub]. by eapply gens_update. }
      destruct ok; apply wp_ret; by conjs.
Qed.

Lemma Restore_spec c m : carousel_inv c -> within_completed c -> len (mod_Data m) < 2 ^ 32 ->
  wp (Restore range c m) (fun '(c', _) =>
    carousel_inv c' /\ within_completed c' /\ limits c' = limits c
    /\ inFlightBytes c' <= inFlightBytes c /\ generation c' = generation c
    /\ (gens_ok (modules c) (generation c) -> gens_ok (modules c') (generation c))).
Proof.
  intros Hinv Hwc Hdl. unfold Restore.
  destruct (modules c !! mod_ModuleID m) as [st|] eqn:E; [|apply wp_ret; conjs; try done; lia].
  wp_case Eg; [apply wp_ret; conjs; try done; lia|]. bools.
  pose proof (inv_modules _ Hinv _ _ E) as Hst. pose proof Hst as [H1' H2' H3' H4' _ Hf].
  rewrite u32_small in * by lia.
  rewrite (proj2 (Z.eqb_neq (ms_blockSize st) 0)) by lia.
  eapply wp_mono; [eapply settleCompleted_spec; try done|].
  - constructor; simpl; try done. intros _. split; [done|]. right. unfold stateSize in *. simpl. lia.
  - unfold stateSize in *. simpl. lia.
  - intros [c' ok] (? & ? & ? & ? & _ & _ & Hsub & Eg). conjs; try done.
    intros Hg. eapply gens_subset; [|exact Hsub]. by eapply gens_update.
Qed.

(** ** Assembly *)

Lemma lookup_writeAt data off src k : 0 <= off -> off + len src <= len data ->
  writeAt data off src !! k =
    if decide (off <= Z.of_nat k < off + len src) then src !! (k - Z.to_nat off)%nat else data !! k.
Proof.
  intros Ho Hl. unfold writeAt. case_decide as H.
  - rewrite lookup_app_r by (rewrite length_take; lia). rewrite length_take.
    rewrite lookup_app_l by lia. f_equal. lia.
  - destruct (decide (Z.of_nat k < off)).
    + rewrite lookup_app_l by (rewrite length_take; lia). by rewrite lookup_take_lt by lia.
    + rewrite lookup_app_r, length_take by (rewrite length_take; lia).
      rewrite lookup_app_r by lia. rewrite lookup_drop. f_equal. lia.
Qed.

Lemma trueCount_full l : (forall i, (i < length l)%nat -> l !! i = Some true) -> trueCount l = len l.
Proof.
  induction l as [|b l IH]; intros H; [done|]. rewrite trueCount_cons. cbn [length].
  assert (b = true) as ->. { specialize (H 0%nat). simpl in H. specialize (H ltac:(lia)). congruence. }
  rewrite IH; [lia|]. intros i Hi. apply (H (S i)). simpl. lia.
Qed.

Lemma trueCount_missing l i : l !! i = Some false -> trueCount l < len l.
Proof.
  revert i. induction l as [|b l IH]; intros i Hi; [done|]. rewrite trueCount_cons. cbn [length].
  pose proof (trueCount_le l). destruct i as [|i]; simpl in Hi.
  - injection Hi as ->. lia.
  - specialize (IH i Hi). destruct b; lia.
Qed.

(** The block [i] of a module as a DDB carries it. *)
Definition blockOf (b : Z) (D : bytes) (i : Z) : bytes := take (Z.to_nat b) (drop (Z.to_nat (i * b)) D).

Definition ddbOf (st : dsmccModuleState) (D : bytes) (i : Z) : DSMCCDDB :=
  mkDSMCCDDB (ms_downloadID st) (mi_ModuleID (ms_info st)) (mi_Version (ms_info st)) i
    (blockOf (ms_blockSize st) D i).

(** Which blocks have arrived. *)
Definition arrived (n : Z) (l : list Z) : list bool := (fun i => bool_decide (i ∈ l)) <$> seqZ 0 n.

Lemma arrived_lookup n l i : 0 <= i < n -> arrived n l !! Z.to_nat i = Some (bool_decide (i ∈ l)).
Proof.
  intros Hi. unfold arrived. rewrite list_lookup_fmap, lookup_seqZ_lt by lia. simpl.
  do 2 f_equal. by rewrite Z.add_0_l, Z2Nat.id by lia.
Qed.

Lemma arrived_length n l : length (arrived n l) = Z.to_nat n.
Proof. unfold arrived. by rewrite length_fmap, length_seqZ. Qed.

Lemma arrived_insert n l i : 0 <= i < n -> <[Z.to_nat i := true]> (arrived n l) = arrived n (i :: l).
Proof.
  intros Hi. apply list_eq. intros k.
  destruct (decide (k < Z.to_nat n)%nat).
  2:{ rewrite !lookup_ge_None_2; [done|rewrite ?length_insert, arrived_length; lia..]. }
  replace k with (Z.to_nat (Z.of_nat k)) by lia. rewrite (arrived_lookup n (i :: l)) by lia.
  destruct (decide (Z.of_nat k = i)) as [<-|Hne].
  - rewrite list_lookup_insert_eq by (rewrite arrived_length; lia). f_equal. symmetry.
    apply bool_decide_eq_true. set_solver.
  - rewrite list_lookup_insert_ne by lia. rewrite arrived_lookup by lia. f_equal.
    apply bool_decide_ext. set_solver.
Qed.

(** The module [st] of the carousel after the blocks of [l] have arrived. *)
Definition receiving (c : DSMCCCarousel) (st : dsmccModuleState) (D : bytes) (l : list Z) : Prop :=
  exists data count,
    modules c !! mi_ModuleID (ms_info st) =
      Some (mkModuleState (ms_info st) (ms_downloadID st) (ms_blockSize st) data
              (arrived (blockCount (stateSize st) (ms_blockSize st)) l) count false (ms_generation st))
    /\ len data = stateSize st
    /\ (forall k, bool_decide (Z.of_nat k / ms_blockSize st ∈ l) = true -> data !! k = D !! k).

Section assembly.
Context (st : dsmccModuleState) (D : bytes).
Let n := blockCount (stateSize st) (ms_blockSize st).
Context (Hsize : len D = stateSize st) (Hpos : 0 < stateSize st).
Context (Hblock : 0 < ms_blockSize st < 65536) (Hsum : stateSize st + ms_blockSize st - 1 < 2 ^ 32).

Lemma blockOf_len i : 0 <= i -> len (blockOf (ms_blockSize st) D i) =
  Z.max 0 (Z.min (ms_blockSize st) (stateSize st - i * ms_blockSize st)).
Proof. intros. unfold blockOf. rewrite length_take, length_drop. nia. Qed.

Lemma blockOf_lookup i k : 0 <= i -> i * ms_blockSize st <= Z.of_nat k ->
  Z.of_nat k < (i + 1) * ms_blockSize st ->
  blockOf (ms_blockSize st) D i !! (k - Z.to_nat (i * ms_blockSize st))%nat = D !! k.
Proof.
  intros Hi H1 H2. unfold blockOf. rewrite lookup_take_lt by nia. rewrite lookup_drop. f_equal. nia.
Qed.

Lemma write_block data i l : 0 <= i < n -> len data = stateSize st ->
  (forall k, bool_decide (Z.of_nat k / ms_blockSize st ∈ l) = true -> data !! k = D !! k) ->
  forall k, bool_decide (Z.of_nat k / ms_blockSize st ∈ i :: l) = true ->
  writeAt data (i * ms_blockSize st) (blockOf (ms_blockSize st) D i) !! k = D !! k.
Proof.
  intros Hi Hlen Hdata k Hk.
  destruct (blockCount_cover (stateSize st) (ms_blockSize st)) as (_ & Hc1 & _); [lia|done|done|].
  fold n in Hc1. pose proof (blockOf_len i) as Hbl.
  rewrite lookup_writeAt by nia. rewrite Hbl by lia.
  pose proof (Z.div_mod (Z.of_nat k) (ms_blockSize st)).
  pose proof (Z.mod_pos_bound (Z.of_nat k) (ms_blockSize st)).
  apply bool_decide_eq_true, elem_of_cons in Hk as [Hk|Hk].
  - case_decide as Hr.
    + apply blockOf_lookup; [lia|nia|nia].
    + rewrite !lookup_ge_None_2; [done|nia|nia].
  - case_decide as Hr; [apply blockOf_lookup; [lia|nia|nia]|]. apply Hdata. by apply bool_decide_eq_true.
Qed.

(** One block, new or repeated, up to the question whether any is missing. *)
Lemma observe_block c l i (Q : DSMCCCarousel * ddbResult -> Prop) :
  carousel_inv c -> receiving c st D l -> 0 <= i < n ->
  (forall data, len data = stateSize st ->
     (forall k, bool_decide (Z.of_nat k / ms_blockSize st ∈ i :: l) = true -> data !! k = D !! k) ->
     let id := mi_ModuleID (ms_info st) in
     let count := trueCount (arrived n (i :: l)) in
     let st' := mkModuleState (ms_info st) (ms_downloadID st) (ms_blockSize st) data in
     wp (if count <? n then
           Ret (withModules c (<[id := st' (arrived n (i :: l)) count false (ms_generation st)]> (modules c)),
                (None, if bool_decide (i ∈ l) then DSMCCDDBDuplicate else DSMCCDDBBlock, None))
         else
           let st' := st' [] count true (ms_generation st) in
           '(c, ok) ← settleCompleted range c id st';
           if (ok : bool) then Ret (c, (Some (module_ st'), DSMCCDDBCompleted, None))
           else Ret (c, (None, DSMCCDDBIgnored, Some ErrDSMCCCarouselBudgetExceeded))) Q) ->
  wp (ObserveDDBWithResult range c (ddbOf st D i)) Q.
Proof.
  intros Hinv (data & count & E & Hlen & Hdata) Hi HQ.
  pose proof (inv_modules _ Hinv _ _ E) as Hok. destruct (st_flight _ _ Hok eq_refl) as (_ & _ & Ec & _).
  simpl in Ec. destruct (blockCount_cover (stateSize st) (ms_blockSize st)) as (_ & Hc1 & _); [lia|done|done|].
  fold n in Hc1, Ec. unfold ObserveDDBWithResult, ddbOf.
  cbn [ddb_ModuleID ddb_DownloadID ddb_ModuleVersion ddb_BlockNumber ddb_Data].
  rewrite E. cbn [ms_completed ms_downloadID ms_info ms_blockSize ms_received ms_data ms_count ms_generation].
  fold n. rewrite !Z.eqb_refl, (proj2 (Z.eqb_neq (ms_blockSize st) 0)) by lia. cbn [negb orb].
  rewrite arrived_length, (proj2 (Z.leb_gt _ i)) by lia.
  assert (0 <= i * ms_blockSize st < stateSize st) as Hoff by nia.
  rewrite (proj2 (Z.leb_gt (len data) _)) by lia. cbv zeta.
  pose proof (blockOf_len i ltac:(lia)) as Hbl.
  set (off := i * ms_blockSize st) in *. set (B := blockOf (ms_blockSize st) D i) in *.
  replace (Z.min (off + len B) (len data) - off) with (len B) by lia.
  unfold idx. rewrite (proj2 (Z.leb_le 0 i)), arrived_lookup by lia. cbn [mbind go_bind].
  rewrite slice_0, Nat2Z.id, take_ge by lia. cbn [mbind go_bind].
  rewrite length_insert, arrived_length, Z2Nat.id, arrived_insert by lia.
  replace (if bool_decide (i ∈ l) then count else count + 1) with (trueCount (arrived n (i :: l))).
  2:{ rewrite <- arrived_insert by lia. rewrite (trueCount_set _ _ (bool_decide (i ∈ l))), <- Ec
        by (by apply arrived_lookup). destruct (bool_decide _); lia. }
  apply HQ; [rewrite writeAt_len; lia|]. by apply write_block.
Qed.

Lemma observe_partial c l i j : carousel_inv c -> within_completed c -> receiving c st D l -> 0 <= i < n ->
  0 <= j < n -> j ∉ i :: l ->
  wp (ObserveDDBWithResult range c (ddbOf st D i)) (fun '(c', r) =>
    receiving c' st D (i :: l) /\ limits c' = limits c
    /\ r = (None, if bool_decide (i ∈ l) then DSMCCDDBDuplicate else DSMCCDDBBlock, None)).
Proof.
  intros Hinv Hwc Hrec Hi Hj Hmiss. apply observe_block with (l := l); [done..|].
  intros data Hlen Hdata. cbv zeta.
  assert (trueCount (arrived n (i :: l)) < n) as Hlt.
  { replace n with (len (arrived n (i :: l))) at 2 by (rewrite arrived_length; lia).
    apply (trueCount_missing _ (Z.to_nat j)). rewrite arrived_lookup by lia. f_equal.
    by apply bool_decide_eq_false. }
  rewrite (proj2 (Z.ltb_lt _ _)) by done. apply wp_ret. conjs; [|done|done].
  exists data, (trueCount (arrived n (i :: l))). conjs; [|done|done].
  cbn [modules withModules]. by rewrite lookup_insert_eq.
Qed.

Lemma observe_last c l i : carousel_inv c -> within_completed c -> receiving c st D l -> 0 <= i < n ->
  (forall j, 0 <= j < n -> j ∈ i :: l) -> stateSize st <= MaxCompletedBytes (limits c) ->
  wp (ObserveDDBWithResult range c (ddbOf st D i)) (fun '(_, r) => exists m,
    r = (Some m, DSMCCDDBCompleted, None) /\ mod_Data m = D
    /\ mod_ModuleID m = mi_ModuleID (ms_info st)).
Proof.
  intros Hinv Hwc Hrec Hi Hall Hmax. apply observe_block with (l := l); [done..|].
  intros data Hlen Hdata. cbv zeta.
  destruct Hrec as (data0 & count0 & E & _). pose proof (inv_modules _ Hinv _ _ E) as Hok.
  assert (trueCount (arrived n (i :: l)) = n) as Hfull.
  { rewrite trueCount_full; [rewrite arrived_length; lia|]. intros k Hk. rewrite arrived_length in Hk.
    replace k with (Z.to_nat (Z.of_nat k)) by lia. rewrite arrived_lookup by lia. f_equal.
    apply bool_decide_eq_true, Hall. lia. }
  rewrite Hfull, Z.ltb_irrefl.
  assert (data = D) as ->.
  { destruct (blockCount_cover (stateSize st) (ms_blockSize st)) as (_ & _ & Hc2); [lia|done|done|].
    fold n in Hc2. apply list_eq. intros k. destruct (decide (Z.of_nat k < stateSize st)).
    - apply Hdata, bool_decide_eq_true, Hall. split; [apply Z.div_pos; lia|].
      apply Z.div_lt_upper_bound; lia.
    - rewrite !lookup_ge_None_2; [done|lia|lia]. }
  apply wp_bind. eapply wp_mono; [eapply settleCompleted_spec; try done|].
  - destruct Hok as [? ? ? ? _ _]. constructor; try done. intros _. split; [done|]. by right.
  - intros [c' ok] (_ & _ & _ & _ & _ & Hbudget & _). rewrite Hbudget by done. apply wp_ret.
    eexists. by conjs.
Qed.

End assembly.

(** ** Operations in sequence *)

Lemma settleCompleted_errorless c id st : errorless (settleCompleted range c id st).
Proof. unfold settleCompleted, evictWhile. errorless. Qed.

#[local] Hint Resolve settleCompleted_errorless : errorless.

Lemma ObserveDDB_errorless c ddb : errorless (ObserveDDBWithResult range c ddb).
Proof. unfold ObserveDDBWithResult. errorless. Qed.

Lemma Restore_errorless c m : errorless (Restore range c m).
Proof. unfold Restore. errorless. Qed.

Lemma observeModules_errorless dii ms : forall c, errorless (observeModules range dii c ms).
Proof.
  induction ms as [|m ms IH]; intros c; cbn [observeModules]; [done|].
  apply errorless_bind; [unfold observeModule, evictWhile; errorless|]. intros [c' ok]. errorless.
Qed.

Fixpoint observeBlocks (c : DSMCCCarousel) (ddbs : list DSMCCDDB) : go (DSMCCCarousel * list ddbResult) :=
  match ddbs with
  | [] => Ret (c, [])
  | ddb :: ddbs =>
      '(c, r) ← ObserveDDBWithResult range c ddb;
      '(c, rs) ← observeBlocks c ddbs;
      Ret (c, r :: rs)
  end.

Lemma observeBlocks_errorless ddbs : forall c, errorless (observeBlocks c ddbs).
Proof.
  induction ddbs as [|d ddbs IH]; intros c; cbn [observeBlocks]; [done|].
  apply errorless_bind; [apply ObserveDDB_errorless|]. intros [c' r]. errorless.
Qed.

(** No module, no error: the result of a block that completes nothing. *)
Definition pending (r : ddbResult) : Prop := r.1.1 = None /\ r.2 = None.

Lemma observeBlocks_assemble st D i : len D = stateSize st -> 0 < stateSize st ->
  0 < ms_blockSize st < 65536 -> stateSize st + ms_blockSize st - 1 < 2 ^ 32 ->
  let n := blockCount (stateSize st) (ms_blockSize st) in
  forall l l0 c, 0 <= i < n -> Forall (fun j => 0 <= j < n) l -> i ∉ l ++ l0 ->
  (forall j, 0 <= j < n -> j ∈ i :: l ++ l0) ->
  carousel_inv c -> within_completed c -> receiving c st D l0 ->
  stateSize st <= MaxCompletedBytes (limits c) ->
  wp (observeBlocks c (ddbOf st D <$> l ++ [i])) (fun '(_, rs) => exists rs' m,
    rs = rs' ++ [(Some m, DSMCCDDBCompleted, None)] /\ length rs' = length l
    /\ Forall pending rs' /\ mod_Data m = D /\ mod_ModuleID m = mi_ModuleID (ms_info st)).
Proof.
  intros HD Hpos Hb Hsum n l. induction l as [|j l IH]; intros l0 c Hi Hl Hnin Hall Hinv Hwc Hrec Hmax.
  - cbn [app fmap list_fmap observeBlocks]. apply wp_bind.
    eapply wp_mono; [by eapply observe_last|]. intros [c' r] (m & -> & Hm & Hid).
    exists [], m. by conjs.
  - inversion_clear Hl as [|? ? Hj Hl']. cbn [app fmap list_fmap observeBlocks]. apply wp_bind.
    assert (i ∉ j :: l0) as Hi0 by set_solver.
    eapply wp_mono; [apply wp_and; [by eapply (observe_partial st D HD Hpos Hb Hsum c l0 j i)
      |apply ObserveDDB_spec; [done|done|simpl; lia]]|].
    intros [c' r] [(Hrec' & El & ->) (Hinv' & Hwc' & _)]. apply wp_bind.
    eapply wp_mono; [apply (IH (j :: l0)); [done|done|set_solver| |done|done|done|by rewrite El]|].
    { intros k Hk. specialize (Hall k Hk). set_solver. }
    intros [c'' rs] (rs' & m & -> & Hlen & Hp & Hm & Hid). apply wp_ret.
    eexists (_ :: rs'), m. conjs; [done|simpl; lia| |done|done]. by constructor.
Qed.

Inductive carouselOp : Type :=
  | OpDII (dii : DSMCCDII)
  | OpDDB (ddb : DSMCCDDB)
  | OpRestore (m : DSMCCModule)
  | OpInvalidate (moduleID downloadID version : Z)
  | OpRelease (moduleID : Z).

(** Arguments in the range of their Go types. *)
Definition op_ok (op : carouselOp) : Prop :=
  match op with
  | OpDII dii => dii_ok dii
  | OpDDB ddb => 0 <= ddb_BlockNumber ddb
  | OpRestore m => len (mod_Data m) < 2 ^ 32
  | _ => True
  end.

Definition runOp (op : carouselOp) (c : DSMCCCarousel) : go DSMCCCarousel :=
  match op with
  | OpDII dii => fst <$> ObserveDII range c dii
  | OpDDB ddb => fst <$> ObserveDDBWithResult range c ddb
  | OpRestore m => fst <$> Restore range c m
  | OpInvalidate id dl v => Ret (Invalidate c id dl v).1
  | OpRelease id => Ret (ReleaseCompletedPayload c id).1
  end.

Fixpoint runOps (ops : list carouselOp) (c : DSMCCCarousel) : go DSMCCCarousel :=
  match ops with
  | [] => Ret c
  | op :: ops => c ← runOp op c; runOps ops c
  end.

Lemma runOp_errorless op c : errorless (runOp op c).
Proof.
  destruct op; cbn [runOp]; try done; apply errorless_fmap;
    [|apply ObserveDDB_errorless|apply Restore_errorless].
  unfold ObserveDII. apply errorless_bind; [apply observeModules_errorless|]. by intros [? ?].
Qed.

Lemma Invalidate_spec c id dl v : carousel_inv c -> within_completed c ->
  carousel_inv (Invalidate c id dl v).1 /\ within_completed (Invalidate c id dl v).1
  /\ limits (Invalidate c id dl v).1 = limits c.
Proof.
  intros Hinv Hwc. unfold Invalidate. destruct (modules c !! id) as [st|] eqn:E; [|done].
  match goal with |- context [if ?b then _ else _] => destruct b eqn:Eg end; [done|]. bools.
  destruct Hinv as [Hm If Id]. pose proof (Hm id st E) as Hst. destruct (modules_small _ Hm) as [Sf Sd].
  set (st' := mkModuleState _ _ _ _ _ _ _ _).
  assert (state_ok id st') as Hst'.
  { destruct Hst as [Hi Q2 Q3 Q4 _ _]. rewrite <- Hi. apply fresh_ok; [|unfold stateSize in Q3; lia|done].
    split; [lia|unfold stateSize in Q3; lia]. }
  assert (forall i s, <[id:=st']> (modules c) !! i = Some s -> state_ok i s) as Hm1.
  { intros i s Hi. apply lookup_insert_Some in Hi as [[<- <-]|[_ Hi]]; [done|by apply Hm]. }
  destruct (modules_small _ Hm1) as [Sf1 Sd1].
  pose proof (sumOf_replace flightOf _ _ _ st' E) as Ef. pose proof (sumOf_replace doneOf _ _ _ st' E) as Ed.
  unfold flightOf at 3 4 in Ef. unfold doneOf at 3 4 in Ed.
  assert (ms_completed st = true) as Hc by done. rewrite Hc in Ef, Ed.
  change (ms_completed st') with false in Ef, Ed. cbv iota in Ef, Ed.
  assert (stateSize st' = stateSize st) as Es by done. rewrite Es in Ef.
  unfold within_completed in *. simpl. fold (stateSize st).
  rewrite (u64_small (completedBytes c - _)), (u64_small (inFlightBytes c + _)) by lia.
  conjs; [|lia|done]. constructor; simpl; [done|lia|lia].
Qed.

Lemma Release_spec c id : carousel_inv c -> within_completed c ->
  carousel_inv (ReleaseCompletedPayload c id).1 /\ within_completed (ReleaseCompletedPayload c id).1
  /\ limits (ReleaseCompletedPayload c id).1 = limits c
  /\ inFlightBytes (ReleaseCompletedPayload c id).1 = inFlightBytes c.
Proof.
  intros Hinv Hwc. unfold ReleaseCompletedPayload. destruct (modules c !! id) as [st|] eqn:E; [|done].
  match goal with |- context [if ?b then _ else _] => destruct b eqn:Eg end; [done|]. bools.
  destruct Hinv as [Hm If Id]. pose proof (Hm id st E) as Hst. destruct (modules_small _ Hm) as [Sf Sd].
  assert (ms_completed st = true) as Hc by done.
  set (st' := mkModuleState _ _ _ _ _ _ _ _).
  assert (state_ok id st') as Hst'.
  { destruct Hst as [Hi Q2 Q3 Q4 Q5 _]. constructor; simpl; try done.
    - intros _. destruct Q5; [done|]. auto.
    - congruence. }
  assert (forall i s, <[id:=st']> (modules c) !! i = Some s -> state_ok i s) as Hm1.
  { intros i s Hi. apply lookup_insert_Some in Hi as [[<- <-]|[_ Hi]]; [done|by apply Hm]. }
  destruct (modules_small _ Hm1) as [Sf1 Sd1].
  pose proof (sumOf_replace flightOf _ _ _ st' E) as Ef. pose proof (sumOf_replace doneOf _ _ _ st' E) as Ed.
  unfold flightOf at 3 4 in Ef. unfold doneOf at 3 4 in Ed.
  change (ms_completed st') with (ms_completed st) in Ef, Ed. rewrite Hc in Ef, Ed. simpl in Ed.
  unfold within_completed in *. simpl. rewrite (u64_small (completedBytes c - _)) by lia.
  conjs; [|lia|done|done]. constructor; simpl; [done|lia|lia].
Qed.

Definition isInvalidate (op : carouselOp) : bool :=
  match op with OpInvalidate _ _ _ => true | _ => false end.

Lemma runOp_spec op c : op_ok op -> carousel_inv c -> within_completed c ->
  wp (runOp op c) (fun c' => carousel_inv c' /\ within_completed c' /\ limits c' = limits c
    /\ (isInvalidate op = false -> within_flight c -> within_flight c')).
Proof.
  intros Hop Hinv Hwc. destruct op; cbn [runOp isInvalidate].
  - destruct Hop as [Hbs Hms]. apply wp_fmap. unfold ObserveDII. apply wp_bind.
    eapply wp_mono; [by apply observeModules_spec|]. intros [c1 acc] (H1 & H2 & H3 & H4). apply wp_ret.
    destruct (dropUnseen_spec (mi_ModuleID <$> dii_Modules dii) c1 H1) as (? & El & ? & ?).
    unfold within_completed, within_flight in *. cbn [fst]. rewrite El. conjs; [done|lia|done|lia].
  - apply wp_fmap. eapply wp_mono; [by apply ObserveDDB_spec|].
    intros [c1 r] (? & ? & El & ? & _). unfold within_flight. simpl. rewrite El. conjs; [done|done|done|lia].
  - apply wp_fmap. eapply wp_mono; [by apply Restore_spec|].
    intros [c1 r] (? & ? & El & ? & _). unfold within_flight. simpl. rewrite El. conjs; [done|done|done|lia].
  - apply wp_ret. destruct (Invalidate_spec c moduleID downloadID version) as (? & ? & ?); [done..|]. by conjs.
  - apply wp_ret. destruct (Release_spec c moduleID) as (? & ? & El & Ef); [done..|].
    unfold within_flight. rewrite El, Ef. by conjs.
Qed.

(** ** Generations of a run *)

Lemma observeModule_gens dii c m : carousel_inv c -> gens_ok (modules c) (generation c) ->
  generation c + 1 < 2 ^ 64 ->
  wp (observeModule range dii c m) (fun '(c', _) =>
    gens_ok (modules c') (generation c') /\ generation c' <= generation c + 1).
Proof.
  intros Hinv Hg Hmax. unfold observeModule.
  pose proof (remove_shrunk c (mi_ModuleID m) Hinv) as Hrem.
  pose proof (shrunk_gens _ _ Hrem Hg) as Hg0. pose proof Hrem as (_ & _ & _ & Eg0 & _).
  assert (forall r, gens_ok (modules (reject (remove c (mi_ModuleID m)) m r))
      (generation (reject (remove c (mi_ModuleID m)) m r))
    /\ generation (reject (remove c (mi_ModuleID m)) m r) <= generation c + 1) as Hrej.
  { intros r. simpl. split; [done|lia]. }
  destruct (Z.eqb_spec (mi_ModuleSize m) 0); [by apply Hrej|].
  destruct (Z.eqb_spec (dii_BlockSize dii) 0); [by apply Hrej|].
  destruct (Z.ltb_spec (MaxModuleSize (limits c)) (mi_ModuleSize m)); [by apply Hrej|].
  cbv zeta. set (c1 := withRejected c _). assert (carousel_inv c1) as Hinv1 by (by destruct Hinv).
  destruct (match modules c1 !! mi_ModuleID m with Some _ => _ | None => _ end);
    [apply wp_ret; simpl; split; [done|lia]|].
  pose proof (remove_shrunk c1 (mi_ModuleID m) Hinv1) as Hrem1. pose proof Hrem1 as (Hinv2 & _ & _ & Eg2 & _).
  set (c2 := remove c1 (mi_ModuleID m)) in *.
  assert (gens_ok (modules c2) (generation c2)) as Hg2 by (eapply shrunk_gens; done).
  simpl in Eg2.
  destruct (Z.ltb_spec (MaxInFlightBytes (limits c2)) (mi_ModuleSize m)).
  { apply wp_ret. simpl. split; [done|lia]. }
  apply wp_bind. eapply wp_mono; [by apply evictWhile_spec|]. intros c3 (Hs3 & _ & _).
  pose proof Hs3 as (_ & _ & _ & Eg3 & _). pose proof (shrunk_gens _ _ Hs3 Hg2) as Hg3.
  destruct (overInFlight (mi_ModuleSize m) c3); apply wp_ret; simpl; [split; [done|lia]|].
  destruct Hg3 as [Hpos3 _]. rewrite u64_small by lia. split; [|lia].
  apply gens_new; [by eapply shrunk_gens|done].
Qed.

Lemma observeModules_gens dii ms : 0 <= dii_BlockSize dii < 65536 -> Forall info_ok ms ->
  forall c, carousel_inv c -> within_completed c -> gens_ok (modules c) (generation c) ->
  generation c + len ms < 2 ^ 64 ->
  wp (observeModules range dii c ms) (fun '(c', _) =>
    carousel_inv c' /\ gens_ok (modules c') (generation c') /\ generation c' <= generation c + len ms).
Proof.
  intros Hbs. induction 1 as [|m ms Hm Hms IH]; intros c Hinv Hwc Hg Hmax; cbn [observeModules].
  { apply wp_ret. conjs; [done|done|lia]. }
  cbn [length] in Hmax. apply wp_bind.
  eapply wp_mono; [apply wp_and; [by apply observeModule_spec|apply observeModule_gens; [done|done|lia]]|].
  intros [c1 ok] [(? & ? & _) (? & ?)]. apply wp_bind. eapply wp_mono; [apply IH; [done..|lia]|].
  intros [c2 acc] (? & ? & ?). apply wp_ret. cbn [length]. conjs; [done|done|lia].
Qed.

Lemma dropUnseen_shrunk seen c : carousel_inv c ->
  modules (dropUnseen range seen c) ⊆ modules c /\ generation (dropUnseen range seen c) = generation c.
Proof.
  intros Hinv. unfold dropUnseen. cbn [modules generation withRejected].
  generalize (range (modules c)). intros l. revert c Hinv.
  induction l as [|x l IH]; intros c Hinv; [done|]. simpl. case_bool_decide; [by apply IH|].
  destruct (remove_shrunk c x.1 Hinv) as (Hinv' & Hsub & _ & Eg & _).
  destruct (IH _ Hinv') as [Hs Hg]. split; [by etransitivity|congruence].
Qed.

Definition opCost (op : carouselOp) : Z :=
  match op with OpDII dii => len (dii_Modules dii) | OpInvalidate _ _ _ => 1 | _ => 0 end.

Lemma Invalidate_gens c id dl v : gens_ok (modules c) (generation c) -> generation c + 1 < 2 ^ 64 ->
  gens_ok (modules (Invalidate c id dl v).1) (generation (Invalidate c id dl v).1)
  /\ generation (Invalidate c id dl v).1 <= generation c + 1.
Proof.
  intros Hg Hmax. unfold Invalidate. destruct (modules c !! id) as [st|]; [|split; [done|simpl; lia]].
  match goal with |- context [if ?b then _ else _] => destruct b end; [split; [done|simpl; lia]|].
  pose proof Hg as [Hpos _]. simpl. rewrite u64_small by lia. split; [by apply gens_new|lia].
Qed.

Lemma Release_gens c id : gens_ok (modules c) (generation c) ->
  gens_ok (modules (ReleaseCompletedPayload c id).1) (generation c)
  /\ generation (ReleaseCompletedPayload c id).1 = generation c.
Proof.
  intros Hg. unfold ReleaseCompletedPayload. destruct (modules c !! id) as [st|] eqn:E; [|done].
  match goal with |- context [if ?b then _ else _] => destruct b end; [done|]. simpl.
  split; [by eapply gens_update|done].
Qed.

Lemma runOp_gens op c : op_ok op -> carousel_inv c -> within_completed c ->
  gens_ok (modules c) (generation c) -> generation c + opCost op < 2 ^ 64 ->
  wp (runOp op c) (fun c' =>
    gens_ok (modules c') (generation c') /\ generation c' <= generation c + opCost op).
Proof.
  intros Hop Hinv Hwc Hg Hmax. destruct op; cbn [runOp opCost] in *.
  - destruct Hop as [Hbs Hms]. apply wp_fmap. unfold ObserveDII. apply wp_bind.
    eapply wp_mono; [by apply observeModules_gens|]. intros [c1 acc] (H1 & H2 & H3). apply wp_ret.
    destruct (dropUnseen_shrunk (mi_ModuleID <$> dii_Modules dii) c1 H1) as (Hsub & Eg).
    cbn [fst]. rewrite Eg. split; [by eapply gens_subset|done].
  - apply wp_fmap. eapply wp_mono; [by apply ObserveDDB_spec|].
    intros [c1 r] (_ & _ & _ & _ & Eg & Hgens). simpl. rewrite Eg. split; [auto|lia].
  - apply wp_fmap. eapply wp_mono; [by apply Restore_spec|].
    intros [c1 r] (_ & _ & _ & _ & Eg & Hgens). simpl. rewrite Eg. split; [auto|lia].
  - apply wp_ret. apply Invalidate_gens; [done|lia].
  - apply wp_ret. destruct (Release_gens c moduleID Hg) as [H1 H2]. rewrite H2. split; [done|lia].
Qed.

(** The states a carousel reaches, whether something was invalidated on the
    way, and how many generations were handed out at most. *)
Inductive reachable (l : DSMCCCarouselLimits) : DSMCCCarousel -> bool -> Z -> Prop :=
  | reach_new : reachable l (NewDSMCCCarousel l) false 0
  | reach_step c op c' invalidated t : reachable l c invalidated t -> op_ok op ->
      runOp op c = Ret c' -> reachable l c' (invalidated || isInvalidate op) (t + opCost op).

Lemma reachable_inv l c b t : 0 <= MaxCompletedBytes l -> 0 <= MaxInFlightBytes l -> reachable l c b t ->
  carousel_inv c /\ within_completed c /\ (b = false -> within_flight c)
  /\ 0 <= t /\ (t < 2 ^ 64 -> gens_ok (modules c) (generation c) /\ generation c <= t).
Proof.
  intros Hl1 Hl2. induction 1 as [|c op c' b t _ (Hinv & Hwc & Hwf & Ht & Hg) Hop E].
  - unfold within_completed, within_flight. simpl.
    conjs; [|by case_match; [vm_compute|lia]|intros _; by case_match; [vm_compute|lia]|lia|].
    + constructor; simpl; [by intros id st|by rewrite sumOf_empty|by rewrite sumOf_empty].
    + intros _. split; [split; [lia|by intros id st]|lia].
  - pose proof (wp_Ret_inv _ _ _ (runOp_spec op c Hop Hinv Hwc) E) as (H1 & H2 & _ & H3).
    assert (0 <= opCost op) by (destruct op; simpl; lia). conjs; [done|done| |lia|].
    + intros [-> ?]%orb_false_iff. auto.
    + intros Hlt. destruct Hg as [Hg Hle]; [lia|].
      pose proof (wp_Ret_inv _ _ _ (runOp_gens op c Hop Hinv Hwc Hg ltac:(lia)) E) as [? ?].
      split; [done|lia].
Qed.

(** The oldest candidate does not depend on the order of the list. *)
Lemma oldestOf_perm candidate m g l1 l2 : gens_ok m g -> l1 ≡ₚ map_to_list m -> l2 ≡ₚ map_to_list m ->
  oldestOf candidate l1 = oldestOf candidate l2.
Proof.
  intros [_ Hg] H1 H2. pose proof (oldestOf_spec candidate l1) as S1. pose proof (oldestOf_spec candidate l2) as S2.
  assert (forall x, x ∈ l1 <-> x ∈ l2) as Hel by (intros x; by rewrite H1, H2).
  destruct (oldestOf candidate l1) as [[i s]|], (oldestOf candidate l2) as [[j s']|]; [| | |done].
  - destruct S1 as (Hi & Hci & Hmi), S2 as (Hj & Hcj & Hmj).
    assert (ms_generation s = ms_generation s') as Eg.
    { specialize (Hmi (j, s') (proj2 (Hel _) Hj) Hcj). specialize (Hmj (i, s) (proj1 (Hel _) Hi) Hci).
      simpl in *. lia. }
    rewrite H1 in Hi. rewrite H2 in Hj. apply elem_of_map_to_list in Hi, Hj.
    destruct (Hg j s' Hj) as [_ Hd]. specialize (Hd i s Hi Eg). subst j. congruence.
  - destruct S1 as (Hi & Hci & _). specialize (S2 _ (proj1 (Hel _) Hi)). congruence.
  - destruct S2 as (Hj & Hcj & _). specialize (S1 _ (proj2 (Hel _) Hj)). congruence.
Qed.

End operations.

(** ** Properties *)

(** C29: in every state a carousel can reach, whatever DIIs, blocks, cache
    restores, releases and invalidations it is given and in whatever order
    its map is ranged over, the in-flight counter is the sum of the sizes of
    the incomplete modules, the completed counter the sum of the payloads
    held, and the completed bytes are within their budget; as long as nothing
    was invalidated, so are the bytes in flight.  Every further operation
    returns: no panic, no endless eviction. *)
Theorem carousel_accounting
    (range : gmap Z dsmccModuleState -> list (Z * dsmccModuleState))
    (Hrange : forall m, range m ≡ₚ map_to_list m) (l : DSMCCCarouselLimits)
    (H1 : 0 <= MaxCompletedBytes l) (H2 : 0 <= MaxInFlightBytes l)
    (c : DSMCCCarousel) (invalidated : bool) (t : Z) (Hc : reachable range l c invalidated t) :
  inFlightBytes c = sumOf (fun st => if ms_completed st then 0 else stateSize st) (modules c)
  /\ completedBytes c = sumOf (fun st => if ms_completed st then len (ms_data st) else 0) (modules c)
  /\ completedBytes c <= MaxCompletedBytes (limits c)
  /\ (invalidated = false -> inFlightBytes c <= MaxInFlightBytes (limits c))
  /\ forall op, op_ok op -> returns (runOp range op c) (fun _ => True).
Proof.
  destruct (reachable_inv range Hrange l c invalidated t) as ([Hm If Id] & Hwc & Hwf & _); [done..|].
  conjs; [exact If|exact Id|exact Hwc|exact Hwf|]. intros op Hop.
  apply returns_wp; [apply runOp_errorless|].
  eapply wp_mono; [apply runOp_spec; [done|done|by constructor|done]|]. done.
Qed.

(** A small carousel: one module of five bytes announced in blocks of two. *)
Definition exampleDII : DSMCCDII := mkDSMCCDII 7 2 [mkDSMCCModuleInfo 3 5 1 []] [].
Definition exampleState : dsmccModuleState :=
  mkModuleState (mkDSMCCModuleInfo 3 5 1 []) 7 2 (replicate 5 0) (replicate 3 false) 0 false 1.
Definition exampleCarousel : DSMCCCarousel :=
  mkCarousel (withDefaults (mkLimits 0 0 0)) {[ 3 := exampleState ]} 0 5 1 ∅.

Lemma exampleCarousel_reachable : reachable map_to_list (mkLimits 0 0 0) exampleCarousel false 1.
Proof.
  apply (reach_step map_to_list (mkLimits 0 0 0) (NewDSMCCCarousel (mkLimits 0 0 0)) (OpDII exampleDII)
           exampleCarousel false 0); [constructor| |vm_compute; reflexivity].
  split; [simpl; lia|]. apply Forall_cons; split; [|by apply Forall_nil]. split; simpl; lia.
Qed.

Lemma carousel_accounting_witness :
  let c := exampleCarousel in
  inFlightBytes c = sumOf (fun st => if ms_completed st then 0 else stateSize st) (modules c)
  /\ completedBytes c = sumOf (fun st => if ms_completed st then len (ms_data st) else 0) (modules c)
  /\ completedBytes c <= MaxCompletedBytes (limits c)
  /\ (false = false -> inFlightBytes c <= MaxInFlightBytes (limits c))
  /\ forall op, op_ok op -> returns (runOp map_to_list op c) (fun _ => True).
Proof.
  apply (carousel_accounting map_to_list (fun m => reflexivity _) (mkLimits 0 0 0)
           ltac:(simpl; lia) ltac:(simpl; lia) exampleCarousel false 1 exampleCarousel_reachable).
Defined.

(** The blocks of an announced module assemble to exactly the module that
    was cut into them, in whatever order they arrive and however often some
    are repeated: no block before the last missing one completes the module,
    and that one does. *)
Theorem blocks_assemble_in_any_order
    (range : gmap Z dsmccModuleState -> list (Z * dsmccModuleState))
    (Hrange : forall m, range m ≡ₚ map_to_list m)
    (c : DSMCCCarousel) (st : dsmccModuleState) (D : bytes) (l : list Z) (i : Z)
    (Hinv : carousel_inv c) (Hwc : within_completed c)
    (Hst : modules c !! mi_ModuleID (ms_info st) = Some st)
    (Hfresh : ms_completed st = false /\ ms_received st = arrived (blockCount (stateSize st) (ms_blockSize st)) [])
    (HD : len D = stateSize st) (Hbudget : stateSize st <= MaxCompletedBytes (limits c))
    (Hwidth : stateSize st + ms_blockSize st - 1 < 2 ^ 32)
    (Hl : Forall (fun j => 0 <= j < blockCount (stateSize st) (ms_blockSize st)) l)
    (Hi : 0 <= i < blockCount (stateSize st) (ms_blockSize st)) (Hlast : i ∉ l)
    (Hall : forall j, 0 <= j < blockCount (stateSize st) (ms_blockSize st) -> j ∈ i :: l) :
  returns (observeBlocks range c (ddbOf st D <$> l ++ [i])) (fun '(_, rs) => exists rs' m,
    rs = rs' ++ [(Some m, DSMCCDDBCompleted, None)] /\ length rs' = length l
    /\ Forall (fun r => r.1.1 = None /\ r.2 = None) rs' /\ mod_Data m = D
    /\ mod_ModuleID m = mi_ModuleID (ms_info st)).
Proof.
  apply returns_wp; [apply observeBlocks_errorless|].
  pose proof (inv_modules _ Hinv _ _ Hst) as [H1 H2 H3 H4 _ H6]. destruct Hfresh as [Hnc Hr].
  destruct (H6 Hnc) as (Hlen & _). apply observeBlocks_assemble with (l0 := []); try done; try lia.
  - by rewrite app_nil_r.
  - intros j Hj. rewrite app_nil_r. by apply Hall.
  - exists (ms_data st), (ms_count st). rewrite <- Hr, <- Hnc. conjs; [|done|].
    + rewrite Hst. by destruct st.
    + intros k Hk%bool_decide_eq_true. by apply elem_of_nil in Hk.
Qed.

Lemma blocks_assemble_in_any_order_witness :
  returns (observeBlocks map_to_list exampleCarousel (ddbOf exampleState [1; 2; 3; 4; 5] <$> [2; 0; 2] ++ [1]))
    (fun '(_, rs) => exists rs' m,
      rs = rs' ++ [(Some m, DSMCCDDBCompleted, None)] /\ length rs' = 3%nat
      /\ Forall (fun r => r.1.1 = None /\ r.2 = None) rs' /\ mod_Data m = [1; 2; 3; 4; 5]
      /\ mod_ModuleID m = 3).
Proof.
  destruct (reachable_inv map_to_list (fun m => reflexivity _) (mkLimits 0 0 0) exampleCarousel false 1
              ltac:(simpl; lia) ltac:(simpl; lia) exampleCarousel_reachable) as (Hinv & Hwc & _).
  apply (blocks_assemble_in_any_order map_to_list (fun m => reflexivity _) exampleCarousel exampleState
           [1; 2; 3; 4; 5] [2; 0; 2] 1 Hinv Hwc).
  - reflexivity.
  - split; vm_compute; reflexivity.
  - reflexivity.
  - by vm_compute.
  - by vm_compute.
  - change (blockCount (stateSize exampleState) (ms_blockSize exampleState)) with 3.
    repeat (apply Forall_cons; split; [lia|]). by apply Forall_nil.
  - change (blockCount (stateSize exampleState) (ms_blockSize exampleState)) with 3. lia.
  - rewrite !elem_of_cons, elem_of_nil. lia.
  - change (blockCount (stateSize exampleState) (ms_blockSize exampleState)) with 3.
    intros j Hj. rewrite !elem_of_cons. lia.
Defined.

(** What the two eviction functions remove is the candidate with the
    smallest generation, the one announced longest ago, and it does not
    depend on the order in which Go happens to range over the map; they fail
    only when there is no candidate. *)
Theorem eviction_removes_the_oldest
    (range1 range2 : gmap Z dsmccModuleState -> list (Z * dsmccModuleState))
    (Hrange1 : forall m, range1 m ≡ₚ map_to_list m) (Hrange2 : forall m, range2 m ≡ₚ map_to_list m)
    (l : DSMCCCarouselLimits) (H1 : 0 <= MaxCompletedBytes l) (H2 : 0 <= MaxInFlightBytes l)
    (c : DSMCCCarousel) (invalidated : bool) (t : Z)
    (Hc : reachable range1 l c invalidated t) (Ht : t < 2 ^ 64) (except : Z) :
  evictOldestInFlight range1 c = evictOldestInFlight range2 c
  /\ evictOldestCompletedExcept range1 except c = evictOldestCompletedExcept range2 except c
  /\ forall candidate, candidate = inFlightCandidate \/ candidate = completedCandidate except ->
      match evictOldest range1 candidate c with
      | (c', true) => exists id st, modules c !! id = Some st /\ candidate (id, st) = true
          /\ c' = remove c id
          /\ forall id' st', modules c !! id' = Some st' -> candidate (id', st') = true ->
               ms_generation st <= ms_generation st'
      | (c', false) => c' = c
          /\ forall id st, modules c !! id = Some st -> candidate (id, st) = false
      end.
Proof.
  destruct (reachable_inv range1 Hrange1 l c invalidated t) as (_ & _ & _ & _ & Hg); [done..|].
  destruct (Hg Ht) as [Hgens _].
  assert (forall candidate, evictOldest range1 candidate c = evictOldest range2 candidate c) as Heq.
  { intros candidate. unfold evictOldest.
    by rewrite (oldestOf_perm candidate _ _ _ _ Hgens (Hrange1 _) (Hrange2 _)). }
  conjs; [apply Heq|apply Heq|]. intros candidate _. unfold evictOldest.
  pose proof (oldestOf_spec candidate (range1 (modules c))) as S.
  destruct (oldestOf candidate (range1 (modules c))) as [[i st]|].
  - destruct S as (Hi & Hci & Hmin). exists i, st. rewrite elem_of_range in Hi by done. conjs; [done..|].
    intros i' st' Hi' Hci'. apply (Hmin (i', st')); [by rewrite elem_of_range|done].
  - split; [done|]. intros i st Hi. apply S. by rewrite elem_of_range.
Qed.

Lemma eviction_removes_the_oldest_witness :
  (evictOldestInFlight map_to_list exampleCarousel).2 = true
  /\ evictOldestInFlight map_to_list exampleCarousel
      = evictOldestInFlight (fun m => reverse (map_to_list m)) exampleCarousel.
Proof.
  split; [vm_compute; reflexivity|].
  apply (eviction_removes_the_oldest map_to_list (fun m => reverse (map_to_list m))
           (fun m => reflexivity _) (fun m => reverse_Permutation _) (mkLimits 0 0 0)
           ltac:(simpl; lia) ltac:(simpl; lia) exampleCarousel false 1 exampleCarousel_reachable
           ltac:(lia) 0).
Defined.

(** Two modules of three bytes and an in-flight budget of four: the first
    completes, the second is announced, the first is invalidated. *)
Definition overrunOps : list carouselOp :=
  let m1 := mkDSMCCModuleInfo 1 3 0 [] in
  let m2 := mkDSMCCModuleInfo 2 3 0 [] in
  [OpDII (mkDSMCCDII 7 3 [m1] []); OpDDB (mkDSMCCDDB 7 1 0 0 [1; 2; 3]);
   OpDII (mkDSMCCDII 7 3 [m1; m2] []); OpInvalidate 1 7 0].

(** [Invalidate] does not keep the in-flight budget: with a budget of four
    bytes, a carousel that invalidates a completed module while another is in
    flight ends with six bytes in flight. *)
Theorem invalidate_overruns_in_flight_budget :
  exists c, runOps map_to_list overrunOps (NewDSMCCCarousel (mkLimits 0 0 4)) = Ret c
    /\ MaxInFlightBytes (limits c) = 4 /\ inFlightBytes c = 6.
Proof. eexists. conjs; [vm_compute; reflexivity|reflexivity|reflexivity]. Qed.
