(* ===== verification/Demux.v ===== *)
(** * The demultiplexer (ts/demux.go)

    [Demuxer] assembles the PSI/SI sections of one transport stream, keeps the
    PAT, the programs and their PIDs, and filters the stream for one service,
    replacing its PAT by a single-program one.  Go ranges over the programs of
    a PAT in no specified order; [range] is that order, and the theorems hold
    for every order.

    Theorems: feeding and filtering never panic (the explicit panic of
    [rebuildPATOutput] included); a table is ready exactly when all its
    sections of one version arrived, in any order; what a service output lets
    through; the PAT packets an output emits carry its single-program PAT with
    consecutive continuity counters across every change of the PAT. *)

From S2P Require Import Prelude Crc Packet Section Psi Tables Descriptors.

Definition PIDPAT : Z := 0x0000.
Definition PIDCAT : Z := 0x0001.
Definition PIDNIT : Z := 0x0010.
Definition PIDSDT : Z := 0x0011.
Definition PIDEIT : Z := 0x0012.
Definition PIDRST : Z := 0x0013.
Definition PIDTOT : Z := 0x0014.
Definition PIDDIT : Z := 0x001e.
Definition PIDSIT : Z := 0x001f.
Definition PIDSDTT : Z := 0x0023.
Definition PIDBIT : Z := 0x0024.
Definition PIDCDT : Z := 0x0029.
Definition PIDNull : Z := 0x1fff.

(** ** Table sections *)

Record tableSectionSet := mkTableSectionSet {
  ts_initialized : bool;
  ts_extension : Z;
  ts_version : Z;
  ts_last : Z;
  ts_sections : gmap Z Section_
}.

Definition emptySectionSet : tableSectionSet := mkTableSectionSet false 0 0 0 ∅.

(** The loop at the end of [add]: every number through [last] is there. *)
Definition allArrived (sections : gmap Z Section_) (last : Z) : bool :=
  forallb (fun number => bool_decide (is_Some (sections !! u8 number))) (seqZ 0 (last + 1)).

Definition add (s : tableSectionSet) (section : Section_) : go (tableSectionSet * bool * bool) :=
  orElse (ParseSectionHeader section) (fun _ => Ret (s, false, false)) (fun header =>
    if negb (sh_CurrentNextIndicator header)
       || (sh_LastSectionNumber header <? sh_SectionNumber header)
    then Ret (s, false, false)
    else
      let reset := negb (ts_initialized s)
                   || negb (ts_extension s =? sh_TransportStreamID header)
                   || negb (ts_version s =? sh_VersionNumber header)
                   || negb (ts_last s =? sh_LastSectionNumber header) in
      let s := if reset
               then mkTableSectionSet true (sh_TransportStreamID header) (sh_VersionNumber header)
                      (sh_LastSectionNumber header) ∅
               else s in
      let sections := <[sh_SectionNumber header := section]> (ts_sections s) in
      let s := mkTableSectionSet (ts_initialized s) (ts_extension s) (ts_version s) (ts_last s) sections in
      if negb (Z.of_nat (size sections) =? ts_last s + 1) then Ret (s, reset, false)
      else Ret (s, reset, allArrived sections (ts_last s))).

Definition ordered (s : tableSectionSet) : list Section_ :=
  (fun number => default [] (ts_sections s !! u8 number)) <$> seqZ 0 (ts_last s + 1).

(** ** State *)

Record demuxProgram := mkProgram {
  pr_pmtPID : Z;
  pr_pids : gset Z;
  pr_sectionPIDs : gset Z
}.

Record demuxServiceOutput := mkOutput {
  so_generation : Z;
  so_patCounter : Z;
  so_patIndex : Z;
  so_patPackets : list Packet
}.

Definition emptyOutput : demuxServiceOutput := mkOutput 0 0 0 [].

Record Demuxer := mkDemuxer {
  assemblers : gmap Z SectionAssembler;
  catEMM : gset Z;
  catSections : tableSectionSet;
  pat : option PAT;
  patGeneration : Z;
  patSections : tableSectionSet;
  pmtByPID : gmap Z Z;
  sectionPIDs : gset Z;
  programs : gmap Z demuxProgram;
  services : gmap Z demuxServiceOutput
}.

(** A section with the PID it was assembled from. *)
Definition PIDSection : Type := Z * Section_.

Definition NewDemuxer : Demuxer :=
  mkDemuxer ∅ ∅ emptySectionSet None 0 emptySectionSet ∅ ∅ ∅ ∅.

Definition withAssemblers (d : Demuxer) (a : gmap Z SectionAssembler) : Demuxer :=
  mkDemuxer a (catEMM d) (catSections d) (pat d) (patGeneration d) (patSections d)
    (pmtByPID d) (sectionPIDs d) (programs d) (services d).
Definition withCAT (d : Demuxer) (emm : gset Z) (s : tableSectionSet) : Demuxer :=
  mkDemuxer (assemblers d) emm s (pat d) (patGeneration d) (patSections d)
    (pmtByPID d) (sectionPIDs d) (programs d) (services d).
Definition withPAT (d : Demuxer) (p : option PAT) (g : Z) (s : tableSectionSet) : Demuxer :=
  mkDemuxer (assemblers d) (catEMM d) (catSections d) p g s
    (pmtByPID d) (sectionPIDs d) (programs d) (services d).
Definition withPMTs (d : Demuxer) (m : gmap Z Z) : Demuxer :=
  mkDemuxer (assemblers d) (catEMM d) (catSections d) (pat d) (patGeneration d) (patSections d)
    m (sectionPIDs d) (programs d) (services d).
Definition withSectionPIDs (d : Demuxer) (s : gset Z) : Demuxer :=
  mkDemuxer (assemblers d) (catEMM d) (catSections d) (pat d) (patGeneration d) (patSections d)
    (pmtByPID d) s (programs d) (services d).
Definition withPrograms (d : Demuxer) (p : gmap Z demuxProgram) : Demuxer :=
  mkDemuxer (assemblers d) (catEMM d) (catSections d) (pat d) (patGeneration d) (patSections d)
    (pmtByPID d) (sectionPIDs d) p (services d).
Definition withServices (d : Demuxer) (s : gmap Z demuxServiceOutput) : Demuxer :=
  mkDemuxer (assemblers d) (catEMM d) (catSections d) (pat d) (patGeneration d) (patSections d)
    (pmtByPID d) (sectionPIDs d) (programs d) s.

Definition HasService (d : Demuxer) (serviceID : Z) : bool :=
  bool_decide (is_Some (programs d !! serviceID)).

Definition PATReady (d : Demuxer) : bool := bool_decide (is_Some (pat d)).

Definition shouldAssemble (d : Demuxer) (pid : Z) : bool :=
  existsb (Z.eqb pid) [PIDPAT; PIDCAT; PIDNIT; PIDSDT; PIDEIT; PIDTOT; PIDSDTT; PIDBIT; PIDCDT]
  || bool_decide (is_Some (pmtByPID d !! pid))
  || bool_decide (pid ∈ sectionPIDs d).

Definition commonServicePID (pid : Z) : bool :=
  existsb (Z.eqb pid)
    [PIDCAT; PIDNIT; PIDSDT; PIDEIT; PIDRST; PIDTOT; PIDDIT; PIDSIT; PIDSDTT; PIDBIT; PIDCDT].

(** [b.Programs[serviceID]] of a missing service reads as 0. *)
Definition samePAT (a b : option PAT) : bool :=
  match a, b with
  | Some a, Some b =>
      (pat_TransportStreamID a =? pat_TransportStreamID b)
      && (pat_VersionNumber a =? pat_VersionNumber b)
      && (pat_NetworkPID a =? pat_NetworkPID b)
      && (Z.of_nat (size (pat_Programs a)) =? Z.of_nat (size (pat_Programs b)))
      && forallb (fun '(serviceID, pmtPID) => default 0 (pat_Programs b !! serviceID) =? pmtPID)
           (map_to_list (pat_Programs a))
  | _, _ => false
  end.

(** ** The single-program PAT of a service output *)

Definition rebuildPATOutput (d : Demuxer) (serviceID : Z) (output : demuxServiceOutput) :
    go demuxServiceOutput :=
  match pat d with
  | None => Ret output
  | Some p =>
      match pat_Programs p !! serviceID with
      | None => Ret output
      | Some pmtPID =>
          orElse (BuildPATSection (pat_TransportStreamID p) serviceID pmtPID (pat_VersionNumber p))
            (fun _ => Panic)
            (fun section =>
              '(packets, _) ← packetizeSection PIDPAT section 0;
              Ret (mkOutput (patGeneration d) (so_patCounter output) 0 packets))
      end
  end.

Definition rebuildPAT (d : Demuxer) (serviceID : Z) : go Demuxer :=
  match pat d with
  | None => Ret d
  | Some p =>
      if bool_decide (is_Some (pat_Programs p !! serviceID)) then
        let output := default emptyOutput (services d !! serviceID) in
        output ← rebuildPATOutput d serviceID output;
        Ret (withServices d (<[serviceID := output]> (services d)))
      else Ret d
  end.

Definition serviceOutput (d : Demuxer) (serviceID : Z) : go (Demuxer * demuxServiceOutput) :=
  match services d !! serviceID with
  | Some output => Ret (d, output)
  | None =>
      let d := withServices d (<[serviceID := emptyOutput]> (services d)) in
      d ← rebuildPAT d serviceID;
      Ret (d, default emptyOutput (services d !! serviceID))
  end.

(** The packets both [FeedWithPID] and [servicePacket] skip. *)
Definition unusablePacket (packet : Packet) : go bool :=
  Ret (negb (len packet =? PacketSize)) ||! TransportErrorIndicator packet ||! IsNull packet
    ||! (negb <$> ValidPayloadOffset packet).

(** The packet to emit, if any, and the new output state. *)
Definition servicePacket (d : Demuxer) (serviceID : Z) (output : demuxServiceOutput) (packet : Packet) :
    go (demuxServiceOutput * option Packet) :=
  skip ← unusablePacket packet;
  if (skip : bool) then Ret (output, None)
  else
    match programs d !! serviceID with
    | None => Ret (output, None)
    | Some program =>
        output ← (if so_generation output =? patGeneration d then Ret output
                  else rebuildPATOutput d serviceID output);
        pid ← PID packet;
        if pid =? PIDPAT then
          if len (so_patPackets output) =? 0 then Ret (output, None)
          else
            result ← idx (so_patPackets output) (so_patIndex output);
            b3 ← idx result 3;
            let result := <[3%nat := Z.lor (Z.land b3 0xf0) (Z.land (so_patCounter output) 0x0f)]> result in
            Ret (mkOutput (so_generation output) (Z.land (u8 (so_patCounter output + 1)) 0x0f)
                   ((so_patIndex output + 1) mod len (so_patPackets output)) (so_patPackets output),
                 Some result)
        else if commonServicePID pid || (pid =? pr_pmtPID program)
                || bool_decide (pid ∈ pr_pids program) || bool_decide (pid ∈ catEMM d)
        then Ret (output, Some packet)
        else Ret (output, None)
    end.

Definition ServicePacket (d : Demuxer) (serviceID : Z) (packet : Packet) :
    go (Demuxer * option Packet) :=
  '(d, output) ← serviceOutput d serviceID;
  '(output, result) ← servicePacket d serviceID output packet;
  Ret (withServices d (<[serviceID := output]> (services d)), result).

(** A per-output view; the demuxer it points to is the argument of [Packet_]. *)
Record ServiceDemux := mkServiceDemux {
  sd_output : demuxServiceOutput;
  sd_serviceID : Z
}.

Definition Service (serviceID : Z) : ServiceDemux := mkServiceDemux emptyOutput serviceID.

Definition Packet_ (s : ServiceDemux) (d : Demuxer) (packet : Packet) :
    go (ServiceDemux * option Packet) :=
  '(output, result) ← servicePacket d (sd_serviceID s) (sd_output s) packet;
  Ret (mkServiceDemux output (sd_serviceID s), result).

(** ** Observing tables *)

(** The PIDs of the CA descriptors of a list. *)
Fixpoint caPIDs (descriptors : list Descriptor) : go (gset Z) :=
  match descriptors with
  | [] => Ret ∅
  | desc :: descriptors =>
      tag ← Tag desc;
      pid ← (if tag =? DescriptorTagCA then caPID desc else Ret None);
      rest ← caPIDs descriptors;
      Ret (match pid with Some pid => {[pid]} ∪ rest | None => rest end)
  end.

Fixpoint catPIDs (sections : list Section_) : go (gset Z) :=
  match sections with
  | [] => Ret ∅
  | current :: sections =>
      total ← TotalLength current;
      loop_ ← slice current 8 (total - 4);
      descriptors ← ParseDescriptors loop_;
      pids ← caPIDs descriptors;
      rest ← catPIDs sections;
      Ret (pids ∪ rest)
  end.

Definition observeCAT (d : Demuxer) (section : Section_) : go Demuxer :=
  bad ← Ret (len section <? 12) ||! (total ← TotalLength section; Ret (len section <? total))
        ||! (negb <$> ValidateCRC section);
  if (bad : bool) then Ret d
  else
    '(set_, _, ready) ← add (catSections d) section;
    if negb ready then Ret (withCAT d (catEMM d) set_)
    else
      emm ← catPIDs (ordered set_);
      Ret (withCAT d emm set_).

Definition rebuildSectionPIDs (d : Demuxer) : Demuxer :=
  let sectionPIDs' := map_fold (fun _ program acc => pr_sectionPIDs program ∪ acc) ∅ (programs d) in
  let d' := withAssemblers d
    (filter (fun x => ~ (x.1 ∈ sectionPIDs d /\ x.1 ∉ sectionPIDs')) (assemblers d)) in
  withSectionPIDs d' sectionPIDs'.

Definition StreamTypeDSMCCUNMessages : Z := 0x0b.
Definition StreamTypeDSMCCStreamDescriptors : Z := 0x0c.
Definition StreamTypeDSMCCDataCarousel : Z := 0x0d.

Definition sectionElement (elem : PMTElement) : bool :=
  existsb (Z.eqb (pe_StreamType elem))
    [StreamTypeDSMCCUNMessages; StreamTypeDSMCCDataCarousel; StreamTypeDSMCCStreamDescriptors].

Fixpoint elementPIDs (elements : list PMTElement) : go (gset Z * gset Z) :=
  match elements with
  | [] => Ret (∅, ∅)
  | elem :: elements =>
      ca ← caPIDs (pe_Descriptors elem);
      '(pids, sections) ← elementPIDs elements;
      Ret ({[pe_ElementaryPID elem]} ∪ ca ∪ pids,
           if sectionElement elem then {[pe_ElementaryPID elem]} ∪ sections else sections)
  end.

Definition observePMT (d : Demuxer) (serviceID : Z) (section : Section_) : go Demuxer :=
  orElse (ParsePMT section) (fun _ => Ret d) (fun pmt =>
    if negb (pmt_ProgramNumber pmt =? serviceID) then Ret d
    else
      match programs d !! serviceID with
      | None => Ret d
      | Some program =>
          let pcr := if pmt_PCRPID pmt =? PIDNull then ∅ else {[pmt_PCRPID pmt]} : gset Z in
          ca ← caPIDs (pmt_Descriptors pmt);
          '(pids, sections) ← elementPIDs (pmt_Elements pmt);
          let program := mkProgram (pr_pmtPID program) (pcr ∪ ca ∪ pids) sections in
          Ret (rebuildSectionPIDs (withPrograms d (<[serviceID := program]> (programs d))))
      end).

(** The sections of a complete PAT combined; [None] when one does not parse. *)
Fixpoint combinePAT (combined : PAT) (sections : list Section_) : go (option PAT) :=
  match sections with
  | [] => Ret (Some combined)
  | current :: sections =>
      orElse (ParsePAT current) (fun _ => Ret None) (fun p =>
        combinePAT
          (mkPAT (pat_TransportStreamID p) (pat_VersionNumber p) (pat_NetworkPID p)
             (pat_Programs p ∪ pat_Programs combined)) sections)
  end.

(** The loop over the programs of a new PAT. *)
Fixpoint observePrograms (unchanged : bool) (d : Demuxer) (newByPID : gmap Z Z) (l : list (Z * Z)) :
    go (Demuxer * gmap Z Z) :=
  match l with
  | [] => Ret (d, newByPID)
  | (serviceID, pmtPID) :: l =>
      let newByPID := <[pmtPID := serviceID]> newByPID in
      let same := match programs d !! serviceID with
                  | Some program => pr_pmtPID program =? pmtPID
                  | None => false
                  end in
      let d := if same then d
               else withPrograms d (<[serviceID := mkProgram pmtPID ∅ ∅]> (programs d)) in
      d ← (if unchanged then Ret d else rebuildPAT d serviceID);
      observePrograms unchanged d newByPID l
  end.

(** Programs the PAT no longer lists are dropped with their outputs, and the
    assemblers of PIDs that no longer carry a PMT. *)
Definition dropPrograms (d : Demuxer) (combined : PAT) (newByPID : gmap Z Z) : Demuxer :=
  let gone serviceID := is_Some (programs d !! serviceID) /\ pat_Programs combined !! serviceID = None in
  let services' := filter (fun x => ~ gone x.1) (services d) in
  let programs' := filter (fun x => is_Some (pat_Programs combined !! x.1)) (programs d) in
  let assemblers' :=
    filter (fun x => ~ (is_Some (pmtByPID d !! x.1) /\ newByPID !! x.1 = None)) (assemblers d) in
  withPMTs (withAssemblers (withServices (withPrograms d programs') services') assemblers') newByPID.

Section demuxer.
Context (range : gmap Z Z -> list (Z * Z)).

Definition observePAT (d : Demuxer) (section : Section_) : go Demuxer :=
  '(set_, reset, ready) ← add (patSections d) section;
  let d := withPAT d (if (reset : bool) then None else pat d) (patGeneration d) set_ in
  if negb ready then Ret d
  else
    combined ← combinePAT (mkPAT 0 0 0 ∅) (ordered set_);
    match combined with
    | None => Ret d
    | Some combined =>
        let unchanged := samePAT (pat d) (Some combined) in
        let d := withPAT d (Some combined)
                   (if unchanged then patGeneration d else u64 (patGeneration d + 1)) set_ in
        '(d, newByPID) ← observePrograms unchanged d ∅ (range (pat_Programs combined));
        Ret (dropPrograms d combined newByPID)
    end.

(** The sections a packet completed are returned, and observed in order. *)
Fixpoint observeSections (d : Demuxer) (pid : Z) (sections : list Section_) :
    go (Demuxer * list PIDSection) :=
  match sections with
  | [] => Ret (d, [])
  | section :: sections =>
      tableID ← TableID section;
      d ← (if tableID =? TableIDPAT then
             if pid =? PIDPAT then observePAT d section else Ret d
           else if tableID =? TableIDCAT then
             if pid =? PIDCAT then observeCAT d section else Ret d
           else if tableID =? TableIDPMT then
             match pmtByPID d !! pid with
             | Some serviceID => observePMT d serviceID section
             | None => Ret d
             end
           else Ret d);
      '(d, result) ← observeSections d pid sections;
      Ret (d, (pid, section) :: result)
  end.

Definition FeedWithPID (d : Demuxer) (packet : Packet) : go (Demuxer * list PIDSection) :=
  skip ← unusablePacket packet;
  if (skip : bool) then Ret (d, [])
  else
    pid ← PID packet;
    if negb (shouldAssemble d pid) then Ret (d, [])
    else
      let assembler := default (NewSectionAssembler pid) (assemblers d !! pid) in
      '(assembler, sections) ← FeedAll assembler packet;
      let d := withAssemblers d (<[pid := assembler]> (assemblers d)) in
      observeSections d pid sections.

Definition DemuxFeed (d : Demuxer) (packet : Packet) : go (Demuxer * list Section_) :=
  '(d, pidSections) ← FeedWithPID d packet;
  Ret (d, map snd pidSections).

End demuxer.

(** ** Table sections: invariant and completeness *)

(** A section stored under its number, of the table the set collects. *)
Definition member_ok (s : tableSectionSet) (number : Z) (section : Section_) : Prop :=
  valid_section section /\ 8 <= len section
  /\ sh_SectionNumber (headerOf section) = number /\ 0 <= number <= ts_last s
  /\ sh_TransportStreamID (headerOf section) = ts_extension s
  /\ sh_VersionNumber (headerOf section) = ts_version s
  /\ sh_LastSectionNumber (headerOf section) = ts_last s
  /\ sh_CurrentNextIndicator (headerOf section) = true.

Definition set_ok (s : tableSectionSet) : Prop :=
  0 <= ts_last s < 256 /\ map_Forall (member_ok s) (ts_sections s).

Lemma emptySectionSet_ok : set_ok emptySectionSet.
Proof. split; [simpl; lia|apply map_Forall_empty]. Qed.

Definition complete (s : tableSectionSet) : bool :=
  forallb (fun number => bool_decide (is_Some (ts_sections s !! number))) (seqZ 0 (ts_last s + 1)).

Lemma allArrived_complete s : 0 <= ts_last s < 256 ->
  allArrived (ts_sections s) (ts_last s) = complete s.
Proof.
  intros Hl. unfold allArrived, complete.
  assert (forall l, (forall n, n ∈ l -> 0 <= n < 256) ->
    forallb (fun number => bool_decide (is_Some (ts_sections s !! u8 number))) l
    = forallb (fun number => bool_decide (is_Some (ts_sections s !! number))) l) as H.
  { induction l as [|n l IH]; intros Hn; [done|]. simpl. rewrite IH by set_solver.
    by rewrite u8_small by (apply Hn; set_solver). }
  apply H. intros n Hn%elem_of_seqZ. lia.
Qed.

(** A complete set has exactly the keys through [last]. *)
Lemma complete_size s : set_ok s -> complete s = true ->
  Z.of_nat (size (ts_sections s)) = ts_last s + 1.
Proof.
  intros [Hl Hm] Hc. assert (dom (ts_sections s) = (list_to_set (seqZ 0 (ts_last s + 1)) : gset Z)) as E.
  { apply set_eq. intros n. rewrite elem_of_dom, elem_of_list_to_set, elem_of_seqZ. split.
    - intros [x Hx]. destruct (Hm n x Hx) as (_ & _ & _ & ? & _). lia.
    - intros Hn. unfold complete in Hc. rewrite forallb_forall in Hc.
      specialize (Hc n). rewrite bool_decide_eq_true in Hc. apply Hc.
      apply list_elem_of_In, elem_of_seqZ. lia. }
  rewrite <- size_dom, E, size_list_to_set, length_seqZ by apply NoDup_seqZ. lia.
Qed.

Definition sameTable (s : tableSectionSet) (h : SectionHeader) : bool :=
  ts_initialized s && (ts_extension s =? sh_TransportStreamID h)
  && (ts_version s =? sh_VersionNumber h) && (ts_last s =? sh_LastSectionNumber h).

(** What [add] does with a section the assembler returned. *)
Lemma add_spec s section : set_ok s -> valid_section section ->
  let h := headerOf section in
  if (len section <? 8) || negb (sh_CurrentNextIndicator h)
     || (sh_LastSectionNumber h <? sh_SectionNumber h)
  then add s section = Ret (s, false, false)
  else exists s', add s section = Ret (s', negb (sameTable s h), complete s') /\ set_ok s'
    /\ ts_initialized s' = true /\ ts_extension s' = sh_TransportStreamID h
    /\ ts_version s' = sh_VersionNumber h /\ ts_last s' = sh_LastSectionNumber h
    /\ ts_sections s' = <[sh_SectionNumber h := section]> (if sameTable s h then ts_sections s else ∅).
Proof.
  intros Hs Hv. cbv zeta. pose proof Hv as (Hb & H4 & Ht & _).
  unfold add. rewrite ParseSectionHeader_eq, <- Ht, Z.ltb_irrefl, orb_false_r.
  destruct (len section <? 8) eqn:E8; [done|]. cbn [orElse orb].
  destruct (_ || _) eqn:Eskip; [done|]. bools.
  pose proof (headerOf_range section Hb) as (R1 & R2 & R3 & R4).
  set (h := headerOf section) in *.
  assert (negb (ts_initialized s) || negb (ts_extension s =? sh_TransportStreamID h)
    || negb (ts_version s =? sh_VersionNumber h) || negb (ts_last s =? sh_LastSectionNumber h)
    = negb (sameTable s h)) as ->.
  { unfold sameTable. by rewrite !negb_andb. }
  set (s0 := if negb _ then _ else s).
  assert (set_ok s0 /\ ts_initialized s0 = true /\ ts_extension s0 = sh_TransportStreamID h
    /\ ts_version s0 = sh_VersionNumber h /\ ts_last s0 = sh_LastSectionNumber h
    /\ ts_sections s0 = (if sameTable s h then ts_sections s else ∅)) as (Q0 & Q1 & Q2 & Q3 & Q4 & Q5).
  { unfold s0. destruct (sameTable s h) eqn:Esame; simpl.
    - unfold sameTable in Esame. bools. done.
    - done. }
  clearbody s0. set (s1 := mkTableSectionSet _ _ _ _ _).
  assert (set_ok s1) as Hs1.
  { destruct Q0 as [Hl Hm]. split; [done|]. apply map_Forall_insert_2; [|exact Hm].
    unfold member_ok, s1. cbn [ts_extension ts_version ts_last]. fold h. rewrite Q2, Q3, Q4. conjs; try done; lia. }
  exists s1. conjs; try done.
  - rewrite <- (allArrived_complete s1) by apply Hs1.
    destruct (Z.eqb_spec (Z.of_nat (size (<[sh_SectionNumber h:=section]> (ts_sections s0)))) (ts_last s1 + 1))
      as [|Hne]; [done|]. cbn [negb].
    rewrite allArrived_complete by apply Hs1.
    destruct (complete s1) eqn:Ec; [|done]. by destruct Hne; apply (complete_size s1).
  - simpl. by rewrite Q5.
Qed.

Lemma wp_add s section (Q : tableSectionSet * bool * bool -> Prop) : set_ok s -> valid_section section ->
  (forall s' reset ready, set_ok s' -> (ready = true -> complete s' = true) ->
     (s' = s /\ ready = false \/ map_Forall (fun _ x => x = section \/ exists n, ts_sections s !! n = Some x)
                   (ts_sections s')) ->
     Q (s', reset, ready)) -> wp (add s section) Q.
Proof.
  intros Hs Hv HQ. pose proof (add_spec s section Hs Hv) as H. cbv zeta in H.
  match type of H with (if ?b then _ else _) => destruct b end; [rewrite H; apply HQ; [done|done|by left]|].
  destruct H as (s' & -> & Hs' & _ & _ & _ & _ & Em). apply HQ; [done|done|]. right.
  rewrite Em. apply map_Forall_insert_2; [by left|]. destruct (sameTable _ _); [|apply map_Forall_empty].
  intros n x Hx. right. by exists n.
Qed.

Lemma ordered_members s : set_ok s -> complete s = true ->
  Forall (fun x => exists n, ts_sections s !! n = Some x) (ordered s).
Proof.
  intros [Hl _] Hc. unfold ordered. apply Forall_fmap, Forall_forall. intros n Hn%elem_of_seqZ.
  unfold complete in Hc. rewrite forallb_forall in Hc. specialize (Hc n).
  rewrite bool_decide_eq_true in Hc. destruct Hc as [x Hx]; [apply list_elem_of_In, elem_of_seqZ; lia|].
  exists n. simpl. rewrite u8_small by lia. by rewrite Hx.
Qed.

(** ** The PAT and the packet a service output makes of it *)

Definition pat_ok (p : PAT) : Prop :=
  0 <= pat_TransportStreamID p < 65536 /\ 0 <= pat_VersionNumber p < 32
  /\ map_Forall (fun sid pid => 0 < sid < 65536 /\ 0 <= pid < 8192) (pat_Programs p).

Lemma wp_ParsePAT s : bytes_ok s -> wp (ParsePAT s) pat_ok.
Proof.
  intros Hs. unfold ParsePAT. apply wp_bind, wp_guardSection; [done|lia|exact I|]. intros G1 _ G3 _.
  rewrite ParseSectionHeader_eq, TotalLength_eq by lia.
  rewrite (proj2 (Z.ltb_ge _ 8)), (proj2 (Z.ltb_ge _ (totalOf s))) by lia. cbn [orb mbind go_bind].
  pose proof (headerOf_range s Hs) as (R1 & R2 & _).
  apply (wp_loop (fun '(off, p) => 8 <= off /\ pat_ok p) (fun '(off, _) => Z.max 0 (len s - off))); [|split; [lia|]|lia|lia].
  - intros [off p] (Hoff & P1 & P2 & P3). unfold patTurn. wp_case E; [|by apply wp_ret]. bools.
    apply wp_bind, wp_read16; [done|lia|lia|]. intros program Hprogram.
    apply wp_bind, wp_read13; [done|lia|lia|]. intros pid Hpid. apply wp_ret.
    conjs; [lia| |lia|lia]. destruct (Z.eqb_spec program 0); [done|].
    unfold pat_ok. simpl. conjs; try lia. apply map_Forall_insert_2; [lia|done].
  - unfold pat_ok. cbn [pat_TransportStreamID pat_VersionNumber pat_Programs]. conjs; try lia. apply map_Forall_empty.
Qed.

Lemma wp_combinePAT sections : Forall bytes_ok sections -> forall combined,
  pat_ok combined ->
  wp (combinePAT combined sections) (fun r => match r with Some p => pat_ok p | None => True end).
Proof.
  induction 1 as [|s sections Hs _ IH]; intros combined Hc; [done|]. cbn [combinePAT].
  eapply wp_orElse; [by apply wp_ParsePAT|done|]. intros p (P1 & P2 & P3). apply IH.
  destruct Hc as (_ & _ & C3). unfold pat_ok. simpl. conjs; try lia. by apply map_Forall_union_2.
Qed.

Definition patSection (tsid sid pid version : Z) : Section_ :=
  longSection TableIDPAT tsid version 0 0 (patPayload sid pid).

Definition patPacket (tsid sid pid version counter : Z) : Packet :=
  sectionPacket PIDPAT counter true (patSection tsid sid pid version).

Lemma patSection_ok tsid sid pid v : 0 <= tsid < 65536 -> 0 <= v < 32 ->
  valid_section (patSection tsid sid pid v) /\ len (patSection tsid sid pid v) = 16.
Proof.
  intros Ht Hv. pose proof (patPayload_ok tsid sid pid v Ht Hv) as Hok. split.
  - by apply long_valid.
  - unfold patSection. by rewrite long_len.
Qed.

Lemma packetize_pat tsid sid pid v c : 0 <= tsid < 65536 -> 0 <= v < 32 -> 0 <= c < 16 ->
  exists c', packetizeSection PIDPAT (patSection tsid sid pid v) c = Ret ([patPacket tsid sid pid v c], c').
Proof.
  intros Ht Hv Hc. destruct (patSection_ok tsid sid pid v Ht Hv) as [_ Hl].
  destruct (packetizeSection_shape PIDPAT (patSection tsid sid pid v) c Hc) as (ps & c' & E & _ & Hps).
  rewrite drop_ge in Hps by lia. inversion Hps; subst; [|done]. by exists c'.
Qed.

Lemma rebuildPATOutput_eq d sid o :
  (forall p, pat d = Some p -> pat_ok p) ->
  rebuildPATOutput d sid o = Ret
    match pat d with
    | None => o
    | Some p =>
        match pat_Programs p !! sid with
        | None => o
        | Some pid =>
            mkOutput (patGeneration d) (so_patCounter o) 0
              [patPacket (pat_TransportStreamID p) sid pid (pat_VersionNumber p) 0]
        end
    end.
Proof.
  intros Hp. unfold rebuildPATOutput. destruct (pat d) as [p|]; [|done].
  destruct (Hp p eq_refl) as (P1 & P2 & P3). destruct (pat_Programs p !! sid) as [pid|] eqn:E; [|done].
  destruct (P3 sid pid E) as [Hsid Hpid]. rewrite BuildPATSection_long by lia. cbn [orElse].
  destruct (packetize_pat (pat_TransportStreamID p) sid pid (pat_VersionNumber p) 0) as [c Ec]; [done..|].
  unfold patSection in Ec. by rewrite Ec.
Qed.

(** What an output holds: nothing yet, or one packet with the PAT of its
    service. *)
Definition output_ok (sid : Z) (o : demuxServiceOutput) : Prop :=
  0 <= so_patCounter o < 16 /\ so_patIndex o = 0
  /\ (so_patPackets o = []
      \/ exists tsid pid v, 0 <= tsid < 65536 /\ 0 < sid < 65536 /\ 0 <= pid < 8192 /\ 0 <= v < 32
         /\ so_patPackets o = [patPacket tsid sid pid v 0]).

Lemma emptyOutput_ok sid : output_ok sid emptyOutput.
Proof. unfold output_ok. simpl. conjs; auto; lia. Qed.

Lemma rebuilt_ok d sid o : (forall p, pat d = Some p -> pat_ok p) -> output_ok sid o ->
  wp (rebuildPATOutput d sid o) (output_ok sid).
Proof.
  intros Hp Ho. rewrite rebuildPATOutput_eq by done. apply wp_ret.
  destruct (pat d) as [p|]; [|done]. destruct (Hp p eq_refl) as (P1 & P2 & P3).
  destruct (pat_Programs p !! sid) as [pid|] eqn:E; [|done]. destruct (P3 sid pid E) as [Hsid Hpid].
  destruct Ho as (Hc & _). unfold output_ok. conjs; simpl; try done; try lia. right.
  by exists (pat_TransportStreamID p), pid, (pat_VersionNumber p).
Qed.

(** ** The invariant of the demultiplexer *)

Record demux_ok (d : Demuxer) : Prop := {
  ok_assemblers : map_Forall (fun pid a => assembler_ok a /\ sa_pid a = pid) (assemblers d);
  ok_cat : set_ok (catSections d) /\ map_Forall (fun _ s => 12 <= len s) (ts_sections (catSections d));
  ok_patSections : set_ok (patSections d);
  ok_pat : forall p, pat d = Some p -> pat_ok p;
  ok_services : map_Forall output_ok (services d)
}.

(** The programs and the PMT PIDs are those of the PAT. *)
Definition follows (d : Demuxer) : Prop :=
  forall p, pat d = Some p ->
    (forall sid, pr_pmtPID <$> (programs d !! sid) = pat_Programs p !! sid)
    /\ (forall pid sid, pmtByPID d !! pid = Some sid -> pat_Programs p !! sid = Some pid)
    /\ (forall sid pid, pat_Programs p !! sid = Some pid -> is_Some (pmtByPID d !! pid)).

(** An output of generation [patGeneration d] holds the PAT of [d]. *)
Definition current (d : Demuxer) (sid : Z) (o : demuxServiceOutput) : Prop :=
  0 <= so_generation o <= patGeneration d
  /\ forall p pid, pat d = Some p -> pat_Programs p !! sid = Some pid ->
       so_generation o = patGeneration d ->
       so_patPackets o = [patPacket (pat_TransportStreamID p) sid pid (pat_VersionNumber p) 0].

Lemma rebuildPAT_ok d sid : demux_ok d -> wp (rebuildPAT d sid) (fun d' => demux_ok d' /\
  exists s, d' = withServices d s).
Proof.
  intros [H1 H2 H3 H4 H5]. unfold rebuildPAT.
  assert (d = withServices d (services d)) as Ed by by destruct d.
  destruct (pat d) as [p|] eqn:Ep; [|apply wp_ret; split; [by constructor; rewrite ?Ep|eauto]].
  wp_case E; [|apply wp_ret; split; [constructor; rewrite ?Ep; done|eauto]].
  apply wp_bind. eapply wp_mono; [apply rebuilt_ok; [by rewrite Ep|]|].
  - destruct (services d !! sid) as [o|] eqn:Eo; simpl; [by apply (H5 sid)|apply emptyOutput_ok].
  - intros o Ho. apply wp_ret. split; [|eauto]. constructor; simpl; rewrite ?Ep; try done.
    by apply map_Forall_insert_2.
Qed.

Lemma withServices_ok d P : demux_ok d -> demux_ok (withPrograms d P).
Proof. intros [H1 H2 H3 H4 H5]. by constructor. Qed.

(** The loop over the programs of a PAT: every listed service gets its
    program, the others keep theirs; the new PMT map is the inverse. *)
Lemma observePrograms_spec unchanged l : NoDup l.*1 -> forall d nb, demux_ok d ->
  wp (observePrograms unchanged d nb l) (fun '(d', nb') =>
    demux_ok d' /\ (exists P S, d' = withServices (withPrograms d P) S)
    /\ (forall sid pid, (sid, pid) ∈ l -> pr_pmtPID <$> (programs d' !! sid) = Some pid)
    /\ (forall sid, sid ∉ l.*1 -> programs d' !! sid = programs d !! sid)
    /\ (forall pid sid, nb' !! pid = Some sid -> (sid, pid) ∈ l \/ nb !! pid = Some sid)
    /\ (forall sid pid, (sid, pid) ∈ l -> is_Some (nb' !! pid))
    /\ (forall pid, is_Some (nb !! pid) -> is_Some (nb' !! pid))).
Proof.
  induction l as [|[sid pid] l IH]; intros Hnd d nb Hd; cbn [observePrograms].
  { apply wp_ret. conjs; try done; try (by left); try (intros ? ? ?%elem_of_nil; done); try by right.
    exists (programs d), (services d). by destruct d. }
  cbn [fmap list_fmap fst] in Hnd. apply NoDup_cons in Hnd as [Hnot Hnd].
  match goal with |- context [mbind _ (if unchanged then Ret ?x else _)] => set (d1 := x) end.
  assert (demux_ok d1 /\ (exists P, d1 = withPrograms d P)
    /\ pr_pmtPID <$> (programs d1 !! sid) = Some pid
    /\ forall s, s <> sid -> programs d1 !! s = programs d !! s) as (Hd1 & [P1 E1] & Hsid & Hother).
  { unfold d1. destruct (programs d !! sid) as [pr|] eqn:E.
    - destruct (Z.eqb_spec (pr_pmtPID pr) pid) as [<-|].
      + conjs; [done|exists (programs d); by destruct d|by rewrite E|done].
      + conjs; [by apply withServices_ok|eauto|simpl; by rewrite lookup_insert_eq|].
        intros s Hs. simpl. by rewrite lookup_insert_ne.
    - conjs; [by apply withServices_ok|eauto|simpl; by rewrite lookup_insert_eq|].
      intros s Hs. simpl. by rewrite lookup_insert_ne. }
  clearbody d1. apply wp_bind.
  apply (wp_mono _ (fun d2 => demux_ok d2 /\ exists S, d2 = withServices d1 S)).
  { destruct unchanged; [apply wp_ret; split; [done|exists (services d1); by destruct d1]|].
    by apply rebuildPAT_ok. }
  intros d2 (Hd2 & S2 & E2). eapply wp_mono; [by apply IH|].
  intros [d' nb'] (Q1 & (P3 & S3 & E3) & Q3 & Q4 & Q5 & Q6 & Q7). conjs; [done| | | | | |].
  - exists P3, S3. rewrite E3, E2, E1. done.
  - intros s p [[= -> ->]|Hin]%elem_of_cons; [|by apply Q3].
    rewrite Q4 by done. by rewrite E2.
  - intros s Hs. cbn [fmap list_fmap fst] in Hs. apply not_elem_of_cons in Hs as [Hne Hs].
    rewrite Q4, E2 by done. by apply Hother.
  - intros p s Hs. rewrite elem_of_cons. destruct (Q5 p s Hs) as [|Hin]; [by left; right|].
    destruct (decide (p = pid)) as [->|Hne].
    + rewrite lookup_insert_eq in Hin. injection Hin as <-. by left; left.
    + rewrite lookup_insert_ne in Hin by done. by right.
  - intros s p [[= -> ->]|Hin]%elem_of_cons; [|by eapply Q6].
    apply Q7. rewrite lookup_insert_eq. eauto.
  - intros p Hp. apply Q7. destruct (decide (p = pid)) as [->|Hne];
      [rewrite lookup_insert_eq; eauto|by rewrite lookup_insert_ne].
Qed.

Lemma dropPrograms_ok d combined nb : demux_ok d -> demux_ok (dropPrograms d combined nb).
Proof.
  intros [H1 H2 H3 H4 H5]. constructor; simpl; try done.
  - intros pid a Ha. apply map_lookup_filter_Some in Ha as [Ha _]. by apply H1.
  - intros sid o Ho. apply map_lookup_filter_Some in Ho as [Ho _]. by apply H5.
Qed.

Definition noZeroPID (d : Demuxer) : bool :=
  match pat d with
  | None => true
  | Some p => bool_decide (map_Forall (fun _ pid => pid <> 0) (pat_Programs p))
  end.

(** PATs without a PMT PID 0 that compare equal are equal. *)
Lemma samePAT_eq a b : map_Forall (fun _ pid => pid <> 0) (pat_Programs a) ->
  samePAT (Some a) (Some b) = true -> a = b.
Proof.
  intros Hz H. unfold samePAT in H. bools.
  assert (pat_Programs a ⊆ pat_Programs b) as Hsub.
  { apply map_subseteq_spec. intros sid pid Hs.
    match goal with H : forallb _ _ = true |- _ => rewrite forallb_forall in H; specialize (H (sid, pid)) as E end.
    specialize (E ltac:(apply list_elem_of_In, elem_of_map_to_list; done)). simpl in E. bools.
    pose proof (Hz sid pid Hs). destruct (pat_Programs b !! sid) as [q|]; simpl in E; congruence. }
  assert (pat_Programs a = pat_Programs b).
  { apply map_subseteq_size_eq; [done|]. lia. }
  destruct a, b; simpl in *; congruence.
Qed.

(** How a section changes the PAT and its generation. *)
Definition patStep (d d' : Demuxer) : Prop :=
  patGeneration d <= patGeneration d' <= patGeneration d + 1
  /\ (noZeroPID d = true -> patGeneration d' = patGeneration d -> pat d' = pat d \/ pat d' = None)
  /\ (pat d' <> None -> pat d = None -> patGeneration d < patGeneration d').

Lemma patStep_refl d : patStep d d.
Proof. unfold patStep. conjs; try lia; auto. by intros. Qed.

(** A step that leaves the PAT and its generation alone. *)
Lemma patStep_same d d' : pat d' = pat d -> patGeneration d' = patGeneration d -> patStep d d'.
Proof. intros E1 E2. unfold patStep. rewrite E1, E2. conjs; try lia; auto. by intros. Qed.

(** *** CA descriptors *)

(** A CA descriptor with its CA PID. *)
Definition grants (d : Descriptor) (pid : Z) : Prop :=
  byteAt d 0 = DescriptorTagCA /\ 6 <= len d /\ pid = be (Z.land (byteAt d 4) 0x1f) (byteAt d 5).

Lemma byteAt_drop l n i : 0 <= i -> byteAt (drop n l) i = byteAt l (Z.of_nat n + i).
Proof. intros Hi. unfold byteAt. rewrite lookup_drop. do 2 f_equal. lia. Qed.

Lemma caPID_eq d : descriptor_ok d ->
  caPID d = Ret (if len d <? 6 then None else Some (be (Z.land (byteAt d 4) 0x1f) (byteAt d 5))).
Proof.
  intros Hd. pose proof Hd as (_ & H2 & _). unfold caPID. rewrite descriptor_data by done.
  cbn [mbind go_bind]. rewrite length_drop.
  destruct (Z.ltb_spec (len d) 6).
  - by rewrite (proj2 (Z.ltb_lt _ _)) by lia.
  - rewrite (proj2 (Z.ltb_ge _ _)) by lia. unfold read13, readMasked.
    rewrite !idx_byteAt by (rewrite length_drop; lia). cbn [mbind go_bind].
    by rewrite !byteAt_drop by lia.
Qed.

Lemma caPIDs_spec ds : Forall descriptor_ok ds ->
  exists S, caPIDs ds = Ret S /\ forall pid, pid ∈ S <-> Exists (fun d => grants d pid) ds.
Proof.
  induction 1 as [|d ds Hd _ (S & E & HS)]; cbn [caPIDs].
  { exists ∅. split; [done|]. intros pid. rewrite Exists_nil. set_solver. }
  pose proof Hd as (_ & H2 & _). unfold Tag. rewrite idx_byteAt by lia. cbn [mbind go_bind].
  rewrite E. unfold grants in *.
  destruct (Z.eqb_spec (byteAt d 0) DescriptorTagCA) as [Ht|Ht].
  - rewrite caPID_eq by done. cbn [mbind go_bind]. destruct (Z.ltb_spec (len d) 6).
    + exists S. split; [done|]. intros pid. rewrite Exists_cons, HS.
      split; [by right|intros [(_ & ? & _)|]; [lia|done]].
    + eexists. split; [done|]. intros pid. rewrite Exists_cons, elem_of_union, elem_of_singleton, HS.
      split; (intros [?|?]; [left|by right]); [done|naive_solver].
  - exists S. split; [done|]. intros pid. rewrite Exists_cons, HS.
    split; [by right|intros [(? & _)|]; done].
Qed.

Lemma catPIDs_safe sections : Forall (fun s => valid_section s /\ 12 <= len s) sections ->
  safe (catPIDs sections).
Proof.
  induction 1 as [|s sections [(Hb & H4 & Ht & _) H12] _ IH]; [done|]. cbn [catPIDs]. unfold safe in *.
  rewrite TotalLength_eq by lia. cbn [mbind go_bind].
  apply wp_bind, wp_slice; [lia..|]. apply wp_bind, wp_ParseDescriptors; [auto with bytes|].
  intros ds Hds. destruct (caPIDs_spec ds Hds) as (S & -> & _). cbn [mbind go_bind].
  apply wp_bind. eapply wp_mono; [exact IH|]. done.
Qed.

Lemma elementPIDs_spec es : Forall (fun e => Forall descriptor_ok (pe_Descriptors e)) es ->
  exists P S, elementPIDs es = Ret (P, S)
    /\ (forall pid, pid ∈ P <-> Exists (fun e => pid = pe_ElementaryPID e
          \/ Exists (fun d => grants d pid) (pe_Descriptors e)) es)
    /\ (forall pid, pid ∈ S <-> Exists (fun e => sectionElement e = true /\ pid = pe_ElementaryPID e) es).
Proof.
  induction 1 as [|e es He _ (P & S & E & HP & HS)]; cbn [elementPIDs].
  { exists ∅, ∅. conjs; [done|..]; intros pid; rewrite Exists_nil; set_solver. }
  destruct (caPIDs_spec _ He) as (C & -> & HC). cbn [mbind go_bind]. rewrite E.
  eexists _, _. conjs; [done|..]; intros pid; rewrite Exists_cons.
  - rewrite !elem_of_union, elem_of_singleton, HC, HP. done.
  - rewrite <- HS. destruct (sectionElement e); [rewrite elem_of_union, elem_of_singleton|]; naive_solver.
Qed.


Section steps.
Context (range : gmap Z Z -> list (Z * Z)) (Hrange : forall m, range m ≡ₚ map_to_list m).

Lemma range_NoDup m : NoDup (range m).*1.
Proof. rewrite Hrange. apply NoDup_fst_map_to_list. Qed.

Lemma elem_of_programs m sid pid : (sid, pid) ∈ range m <-> m !! sid = Some pid.
Proof. rewrite Hrange. apply elem_of_map_to_list. Qed.

(** [observePAT] on a section the assembler returned. *)
Lemma observePAT_spec d section : demux_ok d -> follows d -> valid_section section ->
  wp (observePAT range d section) (fun d' => demux_ok d' /\ follows d'
    /\ (0 <= patGeneration d -> patGeneration d + 1 < 2 ^ 64 -> patStep d d')).
Proof.
  intros Hd Hf Hv. pose proof Hd as [H1 H2 H3 H4 H5]. unfold observePAT. apply wp_bind.
  apply wp_add; [done..|]. intros set_ reset ready Hset Hready _.
  set (d1 := withPAT d _ _ set_).
  assert (demux_ok d1) as Hd1.
  { constructor; try done. intros p Hp. simpl in Hp. destruct reset; [done|by apply H4]. }
  assert (follows d1) as Hf1.
  { intros p Hp. simpl in Hp. destruct reset; [done|by apply Hf]. }
  assert (patStep d d1) as Hstep1.
  { unfold patStep, d1. simpl. conjs; try lia; destruct reset; auto; try done. }
  destruct (negb ready) eqn:Eready; [by apply wp_ret; conjs; auto|]. bools.
  apply wp_bind. eapply wp_mono; [apply wp_combinePAT|].
  { eapply Forall_impl; [apply ordered_members; auto|]. intros x [n Hx].
    destruct Hset as [_ Hm]. by destruct (Hm n x Hx) as [[? _] _]. }
  { unfold pat_ok. simpl. conjs; try lia. apply map_Forall_empty. }
  intros [combined|] Hcomb; [|by apply wp_ret; conjs; auto]. cbv beta.
  set (unchanged := samePAT (pat d1) (Some combined)). set (d2 := withPAT d1 _ _ set_).
  assert (demux_ok d2) as Hd2.
  { destruct Hd1. constructor; try done. intros p Hp. simpl in Hp. by injection Hp as <-. }
  apply wp_bind. eapply wp_mono; [apply observePrograms_spec; [apply range_NoDup|exact Hd2]|].
  intros [d3 nb] (Q1 & (P & S & E3) & Q3 & Q4 & Q5 & Q6 & _). apply wp_ret. conjs.
  - by apply dropPrograms_ok.
  - intros p Hp. simpl in Hp. rewrite E3 in Hp. injection Hp as <-. simpl. conjs.
    + intros sid. destruct (pat_Programs combined !! sid) as [pid|] eqn:E.
      * rewrite <- (Q3 sid pid) by by apply elem_of_programs. f_equal. rewrite map_lookup_filter.
        destruct (programs d3 !! sid); simpl; [|done]. rewrite option_guard_True; [done|]. rewrite E. eauto.
      * rewrite map_lookup_filter. destruct (programs d3 !! sid); simpl; [|done].
        rewrite option_guard_False; [done|]. simpl. rewrite E. by intros [? ?].
    + intros pid sid Hs. destruct (Q5 pid sid Hs) as [Hin|]; [by apply elem_of_programs|done].
    + intros sid pid Hs. apply (Q6 sid). by apply elem_of_programs.
  - intros Hg Hmax. unfold patStep. simpl. rewrite E3. simpl.
    assert (pat d1 = pat d \/ pat d1 = None) as Hp1.
    { unfold d1. simpl. destruct reset; auto. }
    destruct unchanged eqn:Eu.
    + conjs; [lia|lia| |].
      * intros Hz _. left. unfold unchanged in Eu. destruct Hp1 as [Hp1|Hp1]; rewrite Hp1 in Eu; [|done].
        unfold noZeroPID in Hz. destruct (pat d) as [p|]; [|done]. apply bool_decide_eq_true in Hz.
        f_equal. symmetry. by apply samePAT_eq.
      * intros _ Hn. unfold unchanged in Eu. destruct Hp1 as [Hp1|Hp1]; rewrite Hp1, ?Hn in Eu; done.
    + unfold u64. rewrite Z.mod_small by lia. conjs; lia.
Qed.

Lemma observeCAT_spec d section : demux_ok d -> follows d -> valid_section section ->
  wp (observeCAT d section) (fun d' => demux_ok d' /\ follows d' /\ patStep d d').
Proof.
  intros Hd Hf Hv. pose proof Hd as [H1 [H2 H2'] H3 H4 H5]. pose proof Hv as (Hb & Hl4 & Ht & _).
  assert (forall emm s, set_ok s -> map_Forall (fun _ x => 12 <= len x) (ts_sections s) ->
    demux_ok (withCAT d emm s) /\ follows (withCAT d emm s) /\ patStep d (withCAT d emm s)) as Hdone.
  { intros emm s Hs Hl. conjs; [by constructor|done|by apply patStep_same]. }
  unfold observeCAT. apply wp_bind. destruct (Z.ltb_spec (len section) 12).
  { simpl. conjs; auto using patStep_refl. }
  rewrite TotalLength_eq by lia. cbn [goor mbind go_bind]. rewrite <- Ht, Z.ltb_irrefl, ValidateCRC_valid by done.
  cbn. apply wp_bind, wp_add; [done..|]. intros set_ reset ready Hset Hready Hmem.
  assert (map_Forall (fun _ x => 12 <= len x) (ts_sections set_)) as Hlen.
  { destruct Hmem as [[-> _]|Hmem]; [done|]. intros n x Hx.
    destruct (Hmem n x Hx) as [->|[m Hm]]; [lia|]. by apply (H2' m). }
  destruct ready; cbn [negb]; [|apply wp_ret, Hdone; done].
  apply wp_bind. eapply wp_mono; [apply catPIDs_safe|].
  - eapply Forall_impl; [apply ordered_members; auto|]. intros x [n Hx]. split; [|by apply (Hlen n)].
    destruct Hset as [_ Hm]. by destruct (Hm n x Hx).
  - intros emm _. apply wp_ret, Hdone; done.
Qed.

Lemma wp_ParsePMT s : bytes_ok s -> wp (ParsePMT s) (fun pmt =>
  Forall descriptor_ok (pmt_Descriptors pmt)
  /\ Forall (fun e => Forall descriptor_ok (pe_Descriptors e)) (pmt_Elements pmt)).
Proof.
  intros Hs. unfold ParsePMT. parse_run.
  apply (wp_entries _ _ _ _ _ (fun e => Forall descriptor_ok (pe_Descriptors e))); [done|lia|lia|lia| |done].
  intros o d Ho He Hd. unfold pmtElement. parse_run. done.
Qed.

Lemma rebuildSectionPIDs_ok d : demux_ok d -> follows d ->
  demux_ok (rebuildSectionPIDs d) /\ follows (rebuildSectionPIDs d).
Proof.
  intros [H1 H2 H3 H4 H5] Hf. split; [|done]. constructor; simpl; try done.
  intros pid a Ha. apply map_lookup_filter_Some in Ha as [Ha _]. by apply H1.
Qed.

(** Replacing the PIDs of a program keeps what the PAT says. *)
Lemma withProgram_ok d sid pr pids secs : demux_ok d -> follows d -> programs d !! sid = Some pr ->
  let d' := withPrograms d (<[sid := mkProgram (pr_pmtPID pr) pids secs]> (programs d)) in
  demux_ok d' /\ follows d'.
Proof.
  intros Hd Hf Hpr. split; [by apply withServices_ok|]. intros p Hp. destruct (Hf p Hp) as (F1 & F2 & F3).
  conjs; try done. intros s. simpl. destruct (decide (s = sid)) as [->|Hne].
  - rewrite lookup_insert_eq, <- F1, Hpr. done.
  - by rewrite lookup_insert_ne by done.
Qed.

Lemma observePMT_spec d sid section : demux_ok d -> follows d -> bytes_ok section ->
  wp (observePMT d sid section) (fun d' => demux_ok d' /\ follows d' /\ patStep d d').
Proof.
  intros Hd Hf Hb. unfold observePMT.
  assert (demux_ok d /\ follows d /\ patStep d d) as Hsame by auto using patStep_refl.
  eapply wp_orElse; [by apply wp_ParsePMT|intros _; by apply wp_ret|]. intros pmt [Hds Hes].
  wp_case E; [by apply wp_ret|]. destruct (programs d !! sid) as [pr|] eqn:Epr; [|by apply wp_ret].
  destruct (caPIDs_spec _ Hds) as (C & -> & _). destruct (elementPIDs_spec _ Hes) as (P & S & -> & _ & _).
  cbn [mbind go_bind]. apply wp_ret.
  edestruct (withProgram_ok d sid pr) as [Hd' Hf']; [done..|].
  edestruct rebuildSectionPIDs_ok as [? ?]; [exact Hd'|exact Hf'|]. conjs; [done|done|].
  by apply patStep_same.
Qed.

(** The sections a packet completed. *)
Lemma observeSections_spec pid sections : Forall valid_section sections -> forall d,
  demux_ok d -> follows d ->
  wp (observeSections range d pid sections) (fun '(d', r) => demux_ok d' /\ follows d'
    /\ r = pair pid <$> sections
    /\ (0 <= patGeneration d -> patGeneration d + len sections < 2 ^ 64 ->
        patGeneration d <= patGeneration d' <= patGeneration d + len sections
        /\ (noZeroPID d = true -> patGeneration d' = patGeneration d -> pat d' = pat d \/ pat d' = None)
        /\ (pat d' <> None -> pat d = None -> patGeneration d < patGeneration d'))).
Proof.
  induction 1 as [|s sections Hs _ IH]; intros d Hd Hf; cbn [observeSections].
  { apply wp_ret. conjs; try done. intros _ _. simpl. conjs; try lia; auto. by intros. }
  pose proof Hs as (Hb & H4 & _). unfold TableID. rewrite idx_byteAt by lia. cbn [mbind go_bind].
  apply wp_bind. apply (wp_mono _ (fun d' => demux_ok d' /\ follows d'
    /\ (0 <= patGeneration d -> patGeneration d + 1 < 2 ^ 64 -> patStep d d'))).
  { assert (wp (Ret d) (fun d' => demux_ok d' /\ follows d'
      /\ (0 <= patGeneration d -> patGeneration d + 1 < 2 ^ 64 -> patStep d d'))) as Hsame.
    { apply wp_ret. auto using patStep_refl. }
    destruct (_ =? TableIDPAT).
    { destruct (_ =? PIDPAT); [by apply observePAT_spec|done]. }
    destruct (_ =? TableIDCAT).
    { destruct (_ =? PIDCAT); [|done]. eapply wp_mono; [by apply observeCAT_spec|]. naive_solver. }
    destruct (_ =? TableIDPMT); [|done]. destruct (pmtByPID d !! pid); [|done].
    eapply wp_mono; [by apply observePMT_spec|]. naive_solver. }
  intros d1 (Hd1 & Hf1 & Hstep). apply wp_bind. eapply wp_mono; [by apply IH|].
  intros [d2 r] (Hd2 & Hf2 & -> & Hrest). apply wp_ret. conjs; try done.
  cbn [length]. intros Hg Hmax. destruct Hstep as ([G1 G2] & G3 & G4); [lia|lia|].
  destruct Hrest as ([K1 K2] & K3 & K4); [lia|lia|]. conjs; [lia|lia| |].
  - intros Hz Eg. destruct (G3 Hz ltac:(lia)) as [E1|E1].
    + rewrite <- E1. apply K3; [|lia]. unfold noZeroPID in *. by rewrite E1.
    + destruct (K3 ltac:(unfold noZeroPID; by rewrite E1) ltac:(lia)); [right; congruence|by right].
  - intros Hp2 Hp. destruct (pat d1) as [p1|] eqn:E1.
    + specialize (G4 ltac:(done) Hp). lia.
    + specialize (K4 Hp2 eq_refl). lia.
Qed.

(** What the two entry points skip, as a function of the packet's bytes. *)
Definition skipped (p : Packet) : bool :=
  negb (len p =? PacketSize) || teiOf p || (pidOf p =? PIDNull) || negb (offsetOf p <=? 188).

Lemma unusablePacket_eq p : unusablePacket p = Ret (skipped p).
Proof.
  unfold unusablePacket, skipped. destruct (Z.eqb_spec (len p) PacketSize) as [Hp|]; [|done].
  rewrite TransportErrorIndicator_eq, IsNull_eq, ValidPayloadOffset_eq by done.
  cbn [negb fmap go_fmap]. by rewrite !goor_Ret.
Qed.

Lemma skipped_false p : bytes_ok p -> skipped p = false -> packet_ok p /\ pidOf p <> PIDNull.
Proof. unfold skipped. intros Hb H. bools. by split; [split|]. Qed.

Lemma FeedWithPID_spec d p : demux_ok d -> follows d -> bytes_ok p ->
  wp (FeedWithPID range d p) (fun '(d', r) => demux_ok d' /\ follows d'
    /\ Forall (fun x => x.1 = pidOf p /\ valid_section x.2) r
    /\ (0 <= patGeneration d -> patGeneration d + len r < 2 ^ 64 ->
        patGeneration d <= patGeneration d' <= patGeneration d + len r
        /\ (noZeroPID d = true -> patGeneration d' = patGeneration d -> pat d' = pat d \/ pat d' = None)
        /\ (pat d' <> None -> pat d = None -> patGeneration d < patGeneration d'))).
Proof.
  intros Hd Hf Hb. unfold FeedWithPID. rewrite unusablePacket_eq. cbn [mbind go_bind].
  assert (wp (Ret (d, [] : list PIDSection)) (fun '(d', r) => demux_ok d' /\ follows d'
    /\ Forall (fun x => x.1 = pidOf p /\ valid_section x.2) r
    /\ (0 <= patGeneration d -> patGeneration d + len r < 2 ^ 64 ->
        patGeneration d <= patGeneration d' <= patGeneration d + len r
        /\ (noZeroPID d = true -> patGeneration d' = patGeneration d -> pat d' = pat d \/ pat d' = None)
        /\ (pat d' <> None -> pat d = None -> patGeneration d < patGeneration d')))) as Hsame.
  { apply wp_ret. conjs; try done. intros _ _. cbn [length]. conjs; try lia; auto. by intros. }
  wp_case E; [exact Hsame|]. destruct (skipped_false p Hb E) as [Hp _].
  rewrite PID_eq by apply Hp. cbn [mbind go_bind]. wp_case Es; [exact Hsame|].
  apply wp_bind. pose proof Hd as [H1 H2 H3 H4 H5].
  assert (assembler_ok (default (NewSectionAssembler (pidOf p)) (assemblers d !! pidOf p))
    /\ sa_pid (default (NewSectionAssembler (pidOf p)) (assemblers d !! pidOf p)) = pidOf p) as [Ha Hpid].
  { destruct (assemblers d !! pidOf p) as [a|] eqn:Ea; [by apply (H1 _ _ Ea)|].
    split; [|done]. split; simpl; [auto with bytes|lia]. }
  eapply wp_mono; [by apply FeedAll_sound|]. intros [a secs] (Ha' & Hpid' & Hsecs).
  simpl in Ha', Hpid', Hsecs.
  assert (demux_ok (withAssemblers d (<[pidOf p := a]> (assemblers d)))) as Hd1.
  { constructor; try done. simpl. apply map_Forall_insert_2; [|done]. split; [done|congruence]. }
  eapply wp_mono; [apply (observeSections_spec (pidOf p) secs Hsecs _ Hd1 Hf)|].
  intros [d' r] (Q1 & Q2 & -> & Q3). simpl in Q3. rewrite length_fmap. conjs; try done.
  apply Forall_fmap. eapply Forall_impl; [exact Hsecs|]. intros x Hx. by split.
Qed.
End steps.

(** *** The PAT packet with its counter *)

Lemma patPacket_counter tsid sid pid v c : 0 <= c < 16 ->
  <[3%nat := Z.lor (Z.land (byteAt (patPacket tsid sid pid v 0) 3) 0xf0) (Z.land c 0x0f)]>
    (patPacket tsid sid pid v 0) = patPacket tsid sid pid v c.
Proof. done. Qed.

Lemma patPacket_view tsid sid pid v c : 0 <= tsid < 65536 -> 0 <= v < 32 -> 0 <= c < 16 ->
  packet_ok (patPacket tsid sid pid v c) /\ pidOf (patPacket tsid sid pid v c) = PIDPAT
  /\ counterOf (patPacket tsid sid pid v c) = c.
Proof.
  intros Ht Hv Hc. destruct (patSection_ok tsid sid pid v Ht Hv) as [(Hb & _) _].
  destruct (sectionPacket_view PIDPAT ltac:(unfold PIDPAT; lia) c true (patSection tsid sid pid v) Hc Hb)
    as (V0 & V1 & _ & _ & _ & V5 & _). done.
Qed.

(** The output a packet is served from: rebuilt when its generation is old. *)
Definition refreshed (d : Demuxer) (sid : Z) (o : demuxServiceOutput) : demuxServiceOutput :=
  if so_generation o =? patGeneration d then o
  else match pat d with
       | None => o
       | Some p =>
           match pat_Programs p !! sid with
           | None => o
           | Some pid =>
               mkOutput (patGeneration d) (so_patCounter o) 0
                 [patPacket (pat_TransportStreamID p) sid pid (pat_VersionNumber p) 0]
           end
       end.

Definition passes (d : Demuxer) (program : demuxProgram) (pid : Z) : bool :=
  commonServicePID pid || (pid =? pr_pmtPID program)
  || bool_decide (pid ∈ pr_pids program) || bool_decide (pid ∈ catEMM d).

(** [servicePacket] in closed form, for an output that holds at most one PAT
    packet. *)
Lemma servicePacket_eq d sid o p : demux_ok d -> output_ok sid o -> bytes_ok p ->
  servicePacket d sid o p = Ret
    match (if skipped p then None else programs d !! sid) with
    | None => (o, None)
    | Some program =>
        let o := refreshed d sid o in
        if pidOf p =? PIDPAT then
          match so_patPackets o with
          | [] => (o, None)
          | q :: _ => (mkOutput (so_generation o) (Z.land (u8 (so_patCounter o + 1)) 0x0f) 0 (so_patPackets o),
                       Some (<[3%nat := Z.lor (Z.land (byteAt q 3) 0xf0) (Z.land (so_patCounter o) 0x0f)]> q))
          end
        else (o, if passes d program (pidOf p) then Some p else None)
    end.
Proof.
  intros [H1 H2 H3 H4 H5] Ho Hb. unfold servicePacket. rewrite unusablePacket_eq. cbn [mbind go_bind].
  destruct (skipped p) eqn:Es; [done|]. destruct (skipped_false p Hb Es) as [[Hp _] _].
  destruct (programs d !! sid) as [program|]; [|done].
  assert ((if so_generation o =? patGeneration d then Ret o else rebuildPATOutput d sid o)
    = Ret (refreshed d sid o)) as ->.
  { unfold refreshed. rewrite rebuildPATOutput_eq by done. by destruct (_ =? _). }
  assert (output_ok sid (refreshed d sid o)) as (_ & Hidx & Hpk).
  { unfold refreshed. destruct (_ =? _); [done|]. pose proof (rebuilt_ok d sid o H4 Ho) as Hr.
    by rewrite rebuildPATOutput_eq in Hr. }
  cbn [mbind go_bind]. rewrite PID_eq by done. cbn [mbind go_bind].
  destruct (pidOf p =? PIDPAT); [|unfold passes; by destruct (_ || _)].
  destruct Hpk as [->|(tsid & pid & v & Ht & Hs & Hpid & Hv & ->)]; [done|].
  rewrite Hidx. destruct (patPacket_view tsid sid pid v 0 Ht Hv ltac:(lia)) as ([Hl _] & _).
  change (len [patPacket tsid sid pid v 0] =? 0) with false.
  change (idx [patPacket tsid sid pid v 0] 0) with (Ret (patPacket tsid sid pid v 0)). cbn [mbind go_bind].
  rewrite idx_byteAt by (rewrite Hl; done). done.
Qed.

Lemma refreshed_ok d sid o : demux_ok d -> output_ok sid o ->
  output_ok sid (refreshed d sid o) /\ so_patCounter (refreshed d sid o) = so_patCounter o.
Proof.
  intros [H1 H2 H3 H4 H5] Ho. pose proof (rebuilt_ok d sid o H4 Ho) as Hr.
  rewrite rebuildPATOutput_eq in Hr by done. unfold refreshed. destruct (_ =? _); [done|].
  split; [exact Hr|]. destruct (pat d) as [p|]; [|done]. by destruct (pat_Programs p !! sid).
Qed.

Lemma refreshed_current d sid o : 0 <= patGeneration d -> current d sid o -> current d sid (refreshed d sid o).
Proof.
  intros Hg [Hr Hc]. unfold refreshed. destruct (_ =? _); [done|].
  destruct (pat d) as [p|] eqn:Ep; [|split; [done|]; by rewrite Ep].
  destruct (pat_Programs p !! sid) as [pid|] eqn:E.
  - split; [simpl; lia|]. rewrite Ep. intros p' pid' [= <-] E' _. rewrite E in E'. by injection E' as <-.
  - split; [done|]. rewrite Ep. intros p' pid' [= <-] E' _. congruence.
Qed.

(** One packet through a service output. *)
Lemma servicePacket_step d sid o p : demux_ok d -> output_ok sid o -> bytes_ok p ->
  returns (servicePacket d sid o p) (fun '(o', r) => output_ok sid o'
    /\ (0 <= patGeneration d -> current d sid o -> current d sid o')
    /\ match r with
       | None => so_patCounter o' = so_patCounter o
       | Some q =>
           if pidOf p =? PIDPAT then
             so_patCounter o' = (so_patCounter o + 1) mod 16
             /\ exists tsid pid v, 0 <= tsid < 65536 /\ 0 < sid < 65536 /\ 0 <= pid < 8192 /\ 0 <= v < 32
                /\ q = patPacket tsid sid pid v (so_patCounter o)
           else so_patCounter o' = so_patCounter o /\ q = p
       end).
Proof.
  intros Hd Ho Hb. rewrite servicePacket_eq by done. eexists. split; [done|].
  destruct (if skipped p then None else _) as [program|]; [|by conjs]. cbv zeta.
  destruct (refreshed_ok d sid o Hd Ho) as [Ho' Ec].
  pose proof (refreshed_current d sid o) as Hcur.
  set (o1 := refreshed d sid o) in *. clearbody o1. destruct (pidOf p =? PIDPAT).
  2:{ conjs; [done|done|]. by destruct (passes _ _ _). }
  pose proof Ho' as (Hc & Hi & [Eq|(tsid & pid & v & Ht & Hs & Hpid & Hv & Eq)]); rewrite Eq; [by conjs|].
  rewrite land_0f. unfold u8. rewrite (Z.mod_small (_ + 1)) by lia. conjs.
  - unfold output_ok. simpl. conjs; try (apply Z.mod_pos_bound; lia); [done|right; by exists tsid, pid, v].
  - intros Hg H. destruct (Hcur Hg H) as [R1 R2]. split; [exact R1|]. cbn [so_generation so_patPackets].
    by rewrite <- Eq.
  - simpl. by rewrite Ec.
  - exists tsid, pid, v. conjs; try lia. rewrite patPacket_counter by lia. by rewrite Ec.
Qed.

(** ** Runs

    A demultiplexer and one service view used along a stream: packets are fed,
    packets of other services are asked for, and the view is asked for its
    packets, in any order.  The indices: what the view emitted, how many
    sections were assembled, and whether no PAT on the way had a PMT PID 0. *)
Inductive run (range : gmap Z Z -> list (Z * Z)) (sid : Z) :
    Demuxer -> ServiceDemux -> list Packet -> Z -> bool -> Prop :=
  | run_new : run range sid NewDemuxer (Service sid) [] 0 true
  | run_feed d s out n z p d' r : run range sid d s out n z -> bytes_ok p ->
      FeedWithPID range d p = Ret (d', r) -> run range sid d' s out (n + len r) (z && noZeroPID d)
  | run_service d s out n z other p d' r : run range sid d s out n z -> bytes_ok p ->
      ServicePacket d other p = Ret (d', r) -> run range sid d' s out n z
  | run_packet d s out n z p s' r : run range sid d s out n z -> bytes_ok p ->
      Packet_ s d p = Ret (s', r) -> run range sid d s' (out ++ option_list r) n z.

Lemma ServicePacket_spec d sid p : demux_ok d -> bytes_ok p ->
  wp (ServicePacket d sid p) (fun '(d', _) => demux_ok d' /\ exists S, d' = withServices d S).
Proof.
  intros Hd Hb. unfold ServicePacket. apply wp_bind.
  apply (wp_mono _ (fun '(d', o) => demux_ok d' /\ output_ok sid o /\ exists S, d' = withServices d S)).
  { unfold serviceOutput. pose proof Hd as [H1 H2 H3 H4 H5].
    destruct (services d !! sid) as [o|] eqn:E.
    - apply wp_ret. conjs; [done|by apply (H5 sid)|]. exists (services d). by destruct d.
    - apply wp_bind. eapply wp_mono; [apply rebuildPAT_ok|].
      + constructor; try done. apply map_Forall_insert_2; [apply emptyOutput_ok|done].
      + intros d' [Hd' [S ->]]. apply wp_ret. conjs; [done| |eauto].
        cbn [services withServices]. destruct (S !! sid) as [o|] eqn:Eo; [|apply emptyOutput_ok].
        by apply (ok_services _ Hd' sid). }
  intros [d1 o] (Hd1 & Ho & [S ->]).
  destruct (servicePacket_step (withServices d S) sid o p Hd1 Ho Hb) as ([o' r] & -> & Ho' & _).
  apply wp_ret. split; [|by eexists]. destruct Hd1. constructor; try done. by apply map_Forall_insert_2.
Qed.

(** No operation reports an error. *)
Lemma errorless_readMasked m l i : errorless (readMasked m l i).
Proof. unfold readMasked. errorless. Qed.

Lemma errorless_ValidateCRC s : errorless (ValidateCRC s).
Proof. unfold ValidateCRC, TotalLength, SectionLength, read12. pose proof errorless_readMasked. errorless. Qed.

Lemma errorless_completeSections keep sa : errorless (completeSections keep sa).
Proof.
  unfold completeSections, read12. pose proof errorless_readMasked. pose proof errorless_ValidateCRC. errorless.
Qed.

Lemma errorless_consumePayload sa l : errorless (consumePayload sa l).
Proof.
  unfold consumePayload, read12. pose proof errorless_readMasked. pose proof errorless_ValidateCRC. errorless.
Qed.

#[local] Hint Resolve errorless_readMasked errorless_ValidateCRC errorless_completeSections
  errorless_consumePayload : errorless.

Lemma errorless_FeedAll sa p : packet_ok p -> errorless (FeedAll sa p).
Proof. intros Hp. rewrite FeedAll_eq by done. unfold feedStart. errorless. Qed.

Lemma errorless_FeedWithPID range d p : bytes_ok p -> errorless (FeedWithPID range d p).
Proof.
  intros Hb. unfold FeedWithPID. rewrite unusablePacket_eq. cbn [mbind go_bind].
  destruct (skipped p) eqn:E; [done|]. destruct (skipped_false p Hb E) as [Hp _].
  pose proof (errorless_FeedAll) as HF.
  assert (forall s, errorless (ParseDescriptors s)) as HD.
  { intros s. unfold ParseDescriptors, descriptorTurn. errorless. }
  assert (forall s, errorless (TotalLength s)) as HT.
  { intros s. unfold TotalLength, SectionLength, read12. errorless. }
  assert (forall l, errorless (caPIDs l)) as HC.
  { induction l as [|x l IH]; cbn [caPIDs]; [done|]. unfold caPID, Data, Tag, Length, read13. errorless. }
  assert (forall l, errorless (catPIDs l)) as HP.
  { induction l as [|x l IH]; cbn [catPIDs]; [done|]. errorless. }
  assert (forall l, errorless (elementPIDs l)) as HE.
  { induction l as [|x l IH]; cbn [elementPIDs]; [done|]. errorless. }
  assert (forall d s, errorless (rebuildPAT d s)) as HR.
  { intros d' s. unfold rebuildPAT, rebuildPATOutput, packetizeSection. errorless. }
  assert (forall l p, errorless (combinePAT p l)) as HX.
  { induction l as [|x l IH]; intros q; cbn [combinePAT]; [done|]. errorless. }
  assert (forall l u d nb, errorless (observePrograms u d nb l)) as HO.
  { induction l as [|[x y] l IH]; intros u d' nb; cbn [observePrograms]; [done|]. errorless. }
  assert (forall s x, errorless (add s x)) as HA.
  { intros s x. unfold add. errorless. }
  assert (forall l d pid, errorless (observeSections range d pid l)) as HS.
  { induction l as [|x l IH]; intros d' pid; cbn [observeSections]; [done|].
    unfold TableID, observePAT, observeCAT, observePMT. errorless. }
  rewrite PID_eq by apply Hp. cbn [mbind go_bind]. errorless.
Qed.

(** *** The emitted PAT packets *)

Definition patInfo : Type := Z * Z * Z.
Definition info_ok (x : patInfo) : Prop :=
  0 <= x.1.1 < 65536 /\ 0 <= x.1.2 < 8192 /\ 0 <= x.2 < 32.

Definition emittedPATs (out : list Packet) : list Packet := filter (fun q => pidOf q = PIDPAT) out.

(** The packets for a list of PATs, numbered from [i]. *)
Fixpoint patPackets (sid : Z) (i : Z) (l : list patInfo) : list Packet :=
  match l with
  | [] => []
  | (tsid, pid, v) :: l => patPacket tsid sid pid v (i mod 16) :: patPackets sid (i + 1) l
  end.

Lemma patPackets_app sid l1 l2 : forall i,
  patPackets sid i (l1 ++ l2) = patPackets sid i l1 ++ patPackets sid (i + len l1) l2.
Proof.
  induction l1 as [|[[t p] v] l1 IH]; intros i; cbn [patPackets app length]; [by rewrite Z.add_0_r|].
  rewrite IH. do 3 f_equal. lia.
Qed.

Record run_ok (sid : Z) (d : Demuxer) (s : ServiceDemux) (out : list Packet) (n : Z) (z : bool) : Prop := {
  r_demux : demux_ok d;
  r_follows : follows d;
  r_output : output_ok sid (sd_output s);
  r_sid : sd_serviceID s = sid;
  r_pats : exists l, Forall info_ok l /\ (l = [] \/ 0 < sid < 65536)
    /\ emittedPATs out = patPackets sid 0 l /\ so_patCounter (sd_output s) = len l mod 16;
  r_count : 0 <= n;
  r_generation : n < 2 ^ 64 -> 0 <= patGeneration d <= n /\ (pat d <> None -> 0 < patGeneration d)
    /\ (z = true -> current d sid (sd_output s))
}.

Lemma run_inv range sid d s out n z : (forall m, range m ≡ₚ map_to_list m) ->
  run range sid d s out n z -> run_ok sid d s out n z.
Proof.
  intros Hrange. induction 1 as [|d s out n z p d' r _ [] Hb E|d s out n z other p d' r _ [] Hb E
    |d s out n z p s' r _ [] Hb E].
  - constructor; [| |apply emptyOutput_ok|done| |lia|].
    + constructor; try (by apply map_Forall_empty); try done; try apply emptySectionSet_ok.
    + by intros p.
    + exists []. conjs; auto.
    + intros _. simpl. conjs; try lia; try done.
  - pose proof (wp_Ret_inv _ _ _ (FeedWithPID_spec range Hrange d p r_demux0 r_follows0 Hb) E)
      as (Q1 & Q2 & _ & Q3). constructor; try done; [lia|]. intros Hn.
    destruct r_generation0 as (G1 & G2 & G4); [lia|]. destruct Q3 as (K1 & K2 & K3); [lia|lia|].
    conjs; try lia.
    + intros Hp. destruct (pat d) as [p0|] eqn:Ep; [specialize (G2 ltac:(done)); lia|].
      specialize (K3 Hp eq_refl). lia.
    + intros [Hz Hz']%andb_true_iff. destruct (G4 Hz) as [Hr Hcur]. split; [lia|].
      intros p' pid Hp' Hpid Hg. assert (patGeneration d' = patGeneration d) as Eg by lia.
      destruct (K2 Hz' Eg) as [Ep|Ep]; [|congruence]. apply Hcur; [congruence|done|congruence].
  - pose proof (wp_Ret_inv _ _ _ (ServicePacket_spec d other p r_demux0 Hb) E) as (Q1 & S & ->).
    by constructor.
  - unfold Packet_ in E. rewrite r_sid0 in E.
    destruct (servicePacket_step d sid (sd_output s) p r_demux0 r_output0 Hb)
      as ([o' r'] & E' & Ho' & Hcur & Hr). rewrite E' in E. injection E as <- <-.
    constructor; try done.
    + destruct r_pats0 as (l & Hl & Hsid & Hout & Hcnt). simpl.
      unfold emittedPATs in *. rewrite filter_app, Hout.
      destruct r' as [q|]; [change (option_list (Some q)) with [q]
        |exists l; rewrite app_nil_r; conjs; try done; congruence].
      destruct (Z.eqb_spec (pidOf p) PIDPAT) as [Ep|Ep].
      * destruct Hr as (Hc & tsid & pid & v & R1 & R2 & R3 & R4 & ->).
        rewrite filter_cons_True by (apply patPacket_view; try done; apply r_output0).
        exists (l ++ [(tsid, pid, v)]). rewrite patPackets_app, length_app, Hc, Hcnt. conjs.
        -- apply Forall_app. split; [done|]. by apply Forall_cons.
        -- by right.
        -- done.
        -- rewrite Z.add_mod_idemp_l by lia. f_equal. simpl. lia.
      * destruct Hr as [Hc ->]. rewrite filter_cons_False by done. exists l.
        rewrite app_nil_r. conjs; try done. congruence.
    + intros Hn. destruct (r_generation0 Hn) as (G1 & G2 & G4). conjs; try lia; try done.
      intros Hz. apply Hcur; [lia|by apply G4].
Qed.

Lemma errorless_ServicePacket d sid p : bytes_ok p -> errorless (ServicePacket d sid p).
Proof.
  intros Hb. unfold ServicePacket, serviceOutput, servicePacket. rewrite unusablePacket_eq.
  unfold PID, read13. unfold rebuildPAT, rebuildPATOutput, packetizeSection. errorless.
Qed.

(** Feeding the PAT packets of a list of PATs. *)
Lemma patPackets_feed sid l : forall i, Forall info_ok l -> (l = [] \/ 0 < sid < 65536) -> 0 <= i ->
  forall sa, sa_pid sa = PIDPAT ->
  (forall k q, patPackets sid i l !! k = Some q -> counterOf q = (i + Z.of_nat k) mod 16)
  /\ exists sa' sections, feedPackets sa (patPackets sid i l) = Ret (sa', sections)
     /\ length sections = length (patPackets sid i l)
     /\ Forall (fun x => exists tsid pid v, ParsePAT x = Ret (mkPAT tsid v 0 {[sid := pid]})) sections.
Proof.
  induction l as [|[[tsid pid] v] l IH]; intros i Hl Hsid Hi sa Hsa; cbn [patPackets].
  { split; [done|]. by exists sa, []. }
  apply Forall_cons in Hl as [(R1 & R2 & R3) Hl]. destruct Hsid as [|Hsid]; [done|]. simpl in R1, R2, R3.
  assert (0 <= i mod 16 < 16) as Hc by (apply Z.mod_pos_bound; lia).
  destruct (patPacket_view tsid sid pid v _ R1 R3 Hc) as (_ & _ & V).
  destruct (packetize_pat tsid sid pid v _ R1 R3 Hc) as [c' Ec].
  destruct (patSection_ok tsid sid pid v R1 R3) as [Hv _].
  destruct (feed_section PIDPAT ltac:(unfold PIDPAT; lia) sa _ _ _ _ Hsa Hv ltac:(done) Hc Ec)
    as (_ & sa1 & E1 & Hsa1).
  destruct (IH (i + 1) Hl (or_intror Hsid) ltac:(lia) sa1 Hsa1) as (H1 & sa2 & secs & E2 & L2 & F2).
  split.
  - intros [|k] q Hq; [injection Hq as <-; by rewrite V, Z.add_0_r|].
    rewrite (H1 k q Hq). f_equal. lia.
  - exists sa2, (patSection tsid sid pid v :: secs).
    change (patPacket tsid sid pid v (i mod 16) :: patPackets sid (i + 1) l)
      with ([patPacket tsid sid pid v (i mod 16)] ++ patPackets sid (i + 1) l).
    rewrite feedPackets_app, E1. cbn [mbind go_bind]. rewrite E2. conjs; [done|simpl; lia|].
    apply Forall_cons. split; [|done]. exists tsid, pid, v. by apply ParsePAT_long.
Qed.

(** *** Sections of one table in any order *)

Fixpoint addAll (s : tableSectionSet) (l : list Section_) : go (tableSectionSet * list bool) :=
  match l with
  | [] => Ret (s, [])
  | x :: l =>
      '(s, _, ready) ← add s x;
      '(s, readys) ← addAll s l;
      Ret (s, ready :: readys)
  end.

Section anyorder.
Context (sec : Z -> Section_) (ext version last : Z) (Hlast : 0 <= last < 256).
Context (Hsec : forall j, 0 <= j <= last -> valid_section (sec j) /\ 8 <= len (sec j)
  /\ sh_TransportStreamID (headerOf (sec j)) = ext /\ sh_VersionNumber (headerOf (sec j)) = version
  /\ sh_LastSectionNumber (headerOf (sec j)) = last /\ sh_SectionNumber (headerOf (sec j)) = j
  /\ sh_CurrentNextIndicator (headerOf (sec j)) = true).

(** The set holds exactly the sections seen. *)
Definition collected (s : tableSectionSet) (seen : list Z) : Prop :=
  set_ok s /\ ts_initialized s = true /\ ts_extension s = ext /\ ts_version s = version /\ ts_last s = last
  /\ forall j, ts_sections s !! j = if bool_decide (j ∈ seen) then Some (sec j) else None.

Lemma complete_collected s seen : collected s seen ->
  complete s = true <-> forall j, 0 <= j <= last -> j ∈ seen.
Proof.
  intros (_ & _ & _ & _ & El & Hs). unfold complete. rewrite forallb_forall, El. split.
  - intros H j Hj. specialize (H j). rewrite bool_decide_eq_true, Hs in H.
    destruct H as [x Hx]; [apply list_elem_of_In, elem_of_seqZ; lia|].
    by destruct (bool_decide (j ∈ seen)) eqn:E; [apply bool_decide_eq_true in E|].
  - intros H j Hj%list_elem_of_In%elem_of_seqZ. apply bool_decide_eq_true. rewrite Hs.
    rewrite bool_decide_eq_true_2 by (apply H; lia). eauto.
Qed.

Lemma add_member s j : set_ok s -> 0 <= j <= last -> exists s',
  add s (sec j) = Ret (s', negb (sameTable s (headerOf (sec j))), complete s')
  /\ (sameTable s (headerOf (sec j)) = false -> collected s' [j])
  /\ forall seen, collected s seen -> collected s' (seen ++ [j]).
Proof.
  intros Hs Hj. destruct (Hsec j Hj) as (S1 & S2 & S3 & S4 & S5 & S6 & S7).
  pose proof (add_spec s (sec j) Hs S1) as Ha. cbv zeta in Ha.
  rewrite S7, S5, S6, (proj2 (Z.ltb_ge _ 8)), (proj2 (Z.ltb_ge last j)) in Ha by lia. cbn [orb negb] in Ha.
  destruct Ha as (s' & E & A1 & A2 & A3 & A4 & A5 & A6). exists s'. conjs; [done|..].
  - intros Esame. rewrite Esame in A6. unfold collected. conjs; try congruence; try done.
    intros k. rewrite A6. destruct (decide (k = j)) as [->|Hne].
    + by rewrite lookup_insert_eq, bool_decide_eq_true_2 by set_solver.
    + by rewrite lookup_insert_ne, lookup_empty, bool_decide_eq_false_2 by set_solver.
  - intros seen (C1 & C2 & C3 & C4 & C5 & C6).
    assert (sameTable s (headerOf (sec j)) = true) as Esame.
    { unfold sameTable. rewrite C2, C3, C4, C5, S3, S4, S5. by rewrite !Z.eqb_refl. }
    rewrite Esame in A6. unfold collected. conjs; try congruence; try done.
    intros k. rewrite A6. destruct (decide (k = j)) as [->|Hne].
    + by rewrite lookup_insert_eq, bool_decide_eq_true_2 by set_solver.
    + rewrite lookup_insert_ne, C6 by done.
      rewrite (bool_decide_ext (k ∈ seen ++ [j]) (k ∈ seen)); [done|set_solver].
Qed.

Lemma addAll_collected l : Forall (fun j => 0 <= j <= last) l -> forall s seen, collected s seen ->
  exists s' readys, addAll s (sec <$> l) = Ret (s', readys) /\ collected s' (seen ++ l)
    /\ length readys = length l
    /\ forall k b, readys !! k = Some b ->
         (b = true <-> forall j, 0 <= j <= last -> j ∈ seen ++ take (S k) l).
Proof.
  induction 1 as [|j l Hj _ IH]; intros s seen Hc.
  { exists s, []. rewrite app_nil_r. conjs; done. }
  pose proof Hc as (Hs & _). destruct (add_member s j Hs Hj) as (s1 & E1 & _ & Hc1).
  specialize (Hc1 seen Hc). destruct (IH s1 _ Hc1) as (s2 & readys & E2 & Hc2 & Hl & Hr).
  exists s2, (complete s1 :: readys). cbn [fmap list_fmap addAll]. rewrite E1. cbn [mbind go_bind].
  change (list_fmap _ _ sec l) with (sec <$> l). rewrite E2. cbn [mbind go_bind length].
  rewrite <- app_assoc in Hc2. conjs; [done|done|congruence|].
  intros [|k] b Hb; cbn [lookup list_lookup] in Hb.
  - injection Hb as <-. rewrite (complete_collected s1 _ Hc1). done.
  - rewrite (Hr k b Hb), <- app_assoc. done.
Qed.

Lemma ordered_collected s l : collected s l -> (forall j, 0 <= j <= last -> j ∈ l) ->
  ordered s = sec <$> seqZ 0 (last + 1).
Proof.
  intros (_ & _ & _ & _ & El & Hs) Hall. unfold ordered. rewrite El. apply list_fmap_ext.
  intros i n Hn. apply list_elem_of_lookup_2, elem_of_seqZ in Hn. rewrite u8_small, Hs by lia.
  by rewrite bool_decide_eq_true_2 by (apply Hall; lia).
Qed.
End anyorder.

(** The PIDs every service output keeps. *)
Definition commonPIDs : list Z :=
  [PIDCAT; PIDNIT; PIDSDT; PIDEIT; PIDRST; PIDTOT; PIDDIT; PIDSIT; PIDSDTT; PIDBIT; PIDCDT].

Lemma skipped_spec p : skipped p = false <->
  len p = 188 /\ teiOf p = false /\ pidOf p <> PIDNull /\ offsetOf p <= 188.
Proof.
  unfold skipped. rewrite !orb_false_iff, !negb_false_iff, Z.eqb_eq, Z.eqb_neq, Z.leb_le.
  unfold PacketSize. tauto.
Qed.

Lemma passes_spec d program pid : passes d program pid = true <->
  (pid ∈ commonPIDs \/ pid = pr_pmtPID program \/ pid ∈ pr_pids program \/ pid ∈ catEMM d).
Proof.
  unfold passes, commonServicePID. fold commonPIDs.
  rewrite !orb_true_iff, Z.eqb_eq, !bool_decide_eq_true, existsb_exists.
  assert ((exists x, In x commonPIDs /\ (pid =? x) = true) <-> pid ∈ commonPIDs) as ->; [|tauto].
  rewrite list_elem_of_In. split; [intros (x & Hx & ->%Z.eqb_eq); done|].
  intros H. exists pid. split; [done|apply Z.eqb_refl].
Qed.

(** ** Properties *)

(** A run in which the view serves one PAT packet. *)
Definition examplePAT : Packet := patPacket 0x7fe0 101 0x1f0 3 5.
Definition exampleTable : PAT := mkPAT 0x7fe0 3 0 {[101 := 0x1f0]}.
Definition exampleDemuxer : Demuxer :=
  match FeedWithPID map_to_list NewDemuxer examplePAT with Ret (d, _) => d | _ => NewDemuxer end.
Definition exampleView : ServiceDemux :=
  match Packet_ (Service 101) exampleDemuxer examplePAT with Ret (s, _) => s | _ => Service 101 end.

Lemma examplePAT_bytes : bytes_ok examplePAT.
Proof. apply patPacket_view; lia. Qed.

Lemma example_run :
  run map_to_list 101 exampleDemuxer exampleView [patPacket 0x7fe0 101 0x1f0 3 0] 1 true.
Proof.
  apply (run_packet map_to_list 101 exampleDemuxer (Service 101) [] 1 true examplePAT exampleView
           (Some (patPacket 0x7fe0 101 0x1f0 3 0))); [|exact examplePAT_bytes|vm_compute; reflexivity].
  apply (run_feed map_to_list 101 NewDemuxer (Service 101) [] 0 true examplePAT exampleDemuxer
           [(0, patSection 0x7fe0 101 0x1f0 3)]); [constructor|exact examplePAT_bytes|vm_compute; reflexivity].
Qed.

(** C24: whatever packets a demultiplexer was fed before and whatever was asked
    of it, feeding any bytes and asking any service output for its packet
    returns: no index out of range, no endless loop, and the panic of
    [rebuildPATOutput] is never reached.  Every section reported carries the
    PID of the packet and is valid. *)
Theorem demux_never_panics (range : gmap Z Z -> list (Z * Z)) (Hrange : forall m, range m ≡ₚ map_to_list m)
    (sid : Z) (d : Demuxer) (s : ServiceDemux) (out : list Packet) (n : Z) (z : bool)
    (Hrun : run range sid d s out n z) (p : Packet) (Hp : bytes_ok p) (other : Z) :
  returns (FeedWithPID range d p) (fun '(_, r) => Forall (fun x => x.1 = pidOf p /\ valid_section x.2) r)
  /\ returns (ServicePacket d other p) (fun _ => True)
  /\ returns (Packet_ s d p) (fun _ => True).
Proof.
  destruct (run_inv range sid d s out n z Hrange Hrun) as [Hd Hf Ho Hs _ _ _]. conjs.
  - apply returns_wp; [by apply errorless_FeedWithPID|].
    eapply wp_mono; [by apply FeedWithPID_spec|]. by intros [d' r] (_ & _ & ? & _).
  - apply returns_wp; [by apply errorless_ServicePacket|]. eapply wp_mono; [by apply ServicePacket_spec|done].
  - unfold Packet_. rewrite Hs.
    destruct (servicePacket_step d sid (sd_output s) p Hd Ho Hp) as ([o r] & -> & _). by eexists.
Qed.

Lemma demux_never_panics_witness :
  returns (FeedWithPID map_to_list exampleDemuxer examplePAT)
    (fun '(_, r) => Forall (fun x => x.1 = pidOf examplePAT /\ valid_section x.2) r)
  /\ returns (ServicePacket exampleDemuxer 7 examplePAT) (fun _ => True)
  /\ returns (Packet_ exampleView exampleDemuxer examplePAT) (fun _ => True).
Proof.
  apply (demux_never_panics map_to_list (fun m => reflexivity _) 101 exampleDemuxer exampleView _ 1 true
           example_run examplePAT examplePAT_bytes 7).
Defined.

(** The PAT packets a service view emits over its whole life carry
    continuity counters that count 0, 1, ... 15, 0, ... without a gap, across
    every change of the stream's PAT, and an assembler fed with them, whatever
    it had received before, returns one valid PAT per packet, which lists
    exactly this service. *)
Theorem service_pats_are_continuous (range : gmap Z Z -> list (Z * Z))
    (Hrange : forall m, range m ≡ₚ map_to_list m)
    (sid : Z) (d : Demuxer) (s : ServiceDemux) (out : list Packet) (n : Z) (z : bool)
    (Hrun : run range sid d s out n z) (sa : SectionAssembler) (Hsa : sa_pid sa = PIDPAT) :
  (forall i q, emittedPATs out !! i = Some q -> counterOf q = Z.of_nat i mod 16)
  /\ exists sa' sections, feedPackets sa (emittedPATs out) = Ret (sa', sections)
       /\ length sections = length (emittedPATs out)
       /\ Forall (fun x => exists tsid pid v, ParsePAT x = Ret (mkPAT tsid v 0 {[sid := pid]})) sections.
Proof.
  destruct (run_inv range sid d s out n z Hrange Hrun) as [_ _ _ _ (l & Hl & Hsid & -> & _) _ _].
  destruct (patPackets_feed sid l 0 Hl Hsid ltac:(lia) sa Hsa) as [H1 H2]. split; [|done].
  intros i q Hq. by rewrite (H1 i q Hq).
Qed.

Lemma service_pats_are_continuous_witness :
  exists sa' sections, feedPackets (NewSectionAssembler 0) (emittedPATs [patPacket 0x7fe0 101 0x1f0 3 0])
      = Ret (sa', sections)
    /\ length sections = 1%nat
    /\ Forall (fun x => exists tsid pid v, ParsePAT x = Ret (mkPAT tsid v 0 {[101 := pid]})) sections.
Proof.
  apply (service_pats_are_continuous map_to_list (fun m => reflexivity _) 101 exampleDemuxer exampleView
           [patPacket 0x7fe0 101 0x1f0 3 0] 1 true example_run (NewSectionAssembler 0) eq_refl).
Defined.

(** While no PAT of the stream had a PMT PID 0 and fewer than 2^64 sections
    were assembled, a view answers every PAT packet of the stream with the
    single-program version of the PAT the demultiplexer holds now: its
    transport stream id, its version and the PMT PID of the service, under the
    view's next continuity counter. *)
Theorem service_pat_is_current (range : gmap Z Z -> list (Z * Z))
    (Hrange : forall m, range m ≡ₚ map_to_list m)
    (sid : Z) (d : Demuxer) (s : ServiceDemux) (out : list Packet) (n : Z)
    (Hrun : run range sid d s out n true) (Hn : n < 2 ^ 64)
    (pt : PAT) (pid : Z) (Hpat : pat d = Some pt) (Hsid : pat_Programs pt !! sid = Some pid)
    (p : Packet) (Hp : bytes_ok p) (Hskip : skipped p = false) (Hpid : pidOf p = PIDPAT) :
  returns (Packet_ s d p) (fun '(_, r) => exists section,
    BuildPATSection (pat_TransportStreamID pt) sid pid (pat_VersionNumber pt) = Ret section
    /\ r = Some (sectionPacket PIDPAT (so_patCounter (sd_output s)) true section)).
Proof.
  destruct (run_inv range sid d s out n true Hrange Hrun) as [Hd Hf Ho Hs _ _ Hg].
  destruct (Hg Hn) as (G1 & _ & G3). specialize (G3 eq_refl). destruct (Hf pt Hpat) as (F1 & _ & _).
  pose proof (ok_pat d Hd pt Hpat) as (P1 & P2 & P3). destruct (P3 sid pid Hsid) as [R1 R2].
  unfold Packet_. rewrite Hs, servicePacket_eq, Hskip, Hpid by done.
  assert (is_Some (programs d !! sid)) as [program Epr].
  { specialize (F1 sid). rewrite Hsid in F1. destruct (programs d !! sid); [eauto|done]. }
  rewrite Epr. change (PIDPAT =? PIDPAT) with true. cbv zeta iota.
  destruct (refreshed_ok d sid (sd_output s) Hd Ho) as [(Hc & _) Ec].
  assert (so_patPackets (refreshed d sid (sd_output s))
    = [patPacket (pat_TransportStreamID pt) sid pid (pat_VersionNumber pt) 0]) as Epk.
  { unfold refreshed. destruct (Z.eqb_spec (so_generation (sd_output s)) (patGeneration d)) as [Eg|].
    - destruct G3 as [_ G3]. by apply G3.
    - by rewrite Hpat, Hsid. }
  rewrite Epk, patPacket_counter by done. eexists. split; [done|].
  rewrite BuildPATSection_long by lia. eexists. split; [done|]. by rewrite Ec.
Qed.

Lemma service_pat_is_current_witness :
  returns (Packet_ exampleView exampleDemuxer examplePAT) (fun '(_, r) => exists section,
    BuildPATSection 0x7fe0 101 0x1f0 3 = Ret section /\ r = Some (sectionPacket PIDPAT 1 true section)).
Proof.
  apply (service_pat_is_current map_to_list (fun m => reflexivity _) 101 exampleDemuxer exampleView
           [patPacket 0x7fe0 101 0x1f0 3 0] 1 example_run ltac:(lia)
           exampleTable 0x1f0); [vm_compute; reflexivity..|exact examplePAT_bytes| |];
    vm_compute; reflexivity.
Defined.

(** While a PAT is in force, the programs, their PMT PIDs and the map from
    PID to service are exactly those of the PAT, whatever order Go ranges over
    it in. *)
Theorem programs_follow_the_pat (range : gmap Z Z -> list (Z * Z))
    (Hrange : forall m, range m ≡ₚ map_to_list m)
    (sid : Z) (d : Demuxer) (s : ServiceDemux) (out : list Packet) (n : Z) (z : bool)
    (Hrun : run range sid d s out n z) (pt : PAT) (Hpat : pat d = Some pt) :
  (forall serviceID, HasService d serviceID = bool_decide (is_Some (pat_Programs pt !! serviceID)))
  /\ (forall serviceID, pr_pmtPID <$> (programs d !! serviceID) = pat_Programs pt !! serviceID)
  /\ (forall pid serviceID, pmtByPID d !! pid = Some serviceID -> pat_Programs pt !! serviceID = Some pid)
  /\ (forall serviceID pid, pat_Programs pt !! serviceID = Some pid -> shouldAssemble d pid = true).
Proof.
  destruct (run_inv range sid d s out n z Hrange Hrun) as [_ Hf _ _ _ _ _].
  destruct (Hf pt Hpat) as (F1 & F2 & F3). conjs; [|done|done|].
  - intros x. unfold HasService. apply bool_decide_ext. rewrite <- F1. by rewrite fmap_is_Some.
  - intros x pid Hx. unfold shouldAssemble. rewrite (bool_decide_eq_true_2 _ (F3 x pid Hx)).
    by rewrite orb_true_r.
Qed.

Lemma programs_follow_the_pat_witness :
  HasService exampleDemuxer 101 = true /\ HasService exampleDemuxer 102 = false.
Proof.
  destruct (programs_follow_the_pat map_to_list (fun m => reflexivity _) 101 exampleDemuxer exampleView
              [patPacket 0x7fe0 101 0x1f0 3 0] 1 true example_run exampleTable
              ltac:(vm_compute; reflexivity)) as [H _].
  split; rewrite H; vm_compute; reflexivity.
Defined.

(** C25: what a service output does with a packet outside the PAT's PID: it
    emits the packet itself, unchanged, exactly when the packet is usable
    (188 bytes, no transport error, not a null packet, a payload offset
    inside it), the service is known, and the PID is a common table's, the
    service's PMT's, one the PMT lists or one of the CAT's EMM streams. *)
Theorem service_filter_is_exact (d : Demuxer) (sid : Z) (o : demuxServiceOutput) (p : Packet)
    (Hd : demux_ok d) (Ho : output_ok sid o) (Hp : bytes_ok p) (Hpid : pidOf p <> PIDPAT) :
  returns (servicePacket d sid o p) (fun '(_, r) =>
    (r = None \/ r = Some p)
    /\ (r = Some p <->
        len p = 188 /\ teiOf p = false /\ pidOf p <> PIDNull /\ offsetOf p <= 188
        /\ exists program, programs d !! sid = Some program
           /\ (pidOf p ∈ commonPIDs
               \/ pidOf p = pr_pmtPID program \/ pidOf p ∈ pr_pids program \/ pidOf p ∈ catEMM d))).
Proof.
  rewrite servicePacket_eq by done. eexists. split; [done|].
  pose proof (skipped_spec p) as Hs. pose proof (passes_spec d) as Hpass.
  destruct (skipped p).
  { split; [by left|]. split; [done|]. intros (K1 & K2 & K3 & K4 & _). by destruct Hs as [_ Hs]; discriminate Hs. }
  destruct (programs d !! sid) as [program|].
  2:{ split; [by left|]. split; [done|]. by intros (_ & _ & _ & _ & ? & ? & _). }
  rewrite (proj2 (Z.eqb_neq _ _) Hpid). specialize (Hpass program (pidOf p)). destruct (passes d program (pidOf p)).
  - split; [by right|]. split; [|done]. intros _. destruct Hs as [Hs _].
    destruct (Hs eq_refl) as (? & ? & ? & ?). conjs; try done. exists program. split; [done|]. by apply Hpass.
  - split; [by left|]. split; [done|]. intros (_ & _ & _ & _ & pr & [= <-] & H). apply Hpass in H. done.
Qed.

Lemma service_filter_is_exact_witness :
  returns (servicePacket exampleDemuxer 101 emptyOutput (0x47 :: 0x01 :: 0xf0 :: 0x10 :: replicate 184 0xff))
    (fun '(_, r) => r = Some (0x47 :: 0x01 :: 0xf0 :: 0x10 :: replicate 184 0xff)).
Proof.
  destruct (run_inv map_to_list 101 _ _ _ _ _ (fun m => reflexivity _) example_run) as [Hd _ _ _ _ _ _].
  destruct (service_filter_is_exact exampleDemuxer 101 emptyOutput
              (0x47 :: 0x01 :: 0xf0 :: 0x10 :: replicate 184 0xff) Hd (emptyOutput_ok 101))
    as ([o r] & E & H).
  - do 4 (apply bytes_ok_cons; [unfold byte_ok; lia|]). apply bytes_ok_replicate. unfold byte_ok. lia.
  - vm_compute. discriminate.
  - exists (o, r). split; [exact E|]. apply H. conjs; try (vm_compute; congruence).
    exists (mkProgram 0x1f0 ∅ ∅). split; [vm_compute; reflexivity|]. right. left. vm_compute. reflexivity.
Defined.

(** A table is ready exactly when every section of one version has
    arrived: whatever was collected before, once sections of another table
    version come in, in any order and with any repetitions, [add] answers
    ready from the moment all numbers through last_section_number were seen
    and not before, and [ordered] then lists the sections in order. *)
Theorem table_ready_when_complete (sec : Z -> Section_) (ext version last : Z) (Hlast : 0 <= last < 256)
    (Hsec : forall j, 0 <= j <= last -> valid_section (sec j) /\ 8 <= len (sec j)
      /\ sh_TransportStreamID (headerOf (sec j)) = ext /\ sh_VersionNumber (headerOf (sec j)) = version
      /\ sh_LastSectionNumber (headerOf (sec j)) = last /\ sh_SectionNumber (headerOf (sec j)) = j
      /\ sh_CurrentNextIndicator (headerOf (sec j)) = true)
    (s : tableSectionSet) (Hs : set_ok s)
    (Hnew : ts_initialized s = false \/ ts_extension s <> ext \/ ts_version s <> version \/ ts_last s <> last)
    (l : list Z) (Hl : Forall (fun j => 0 <= j <= last) l) :
  returns (addAll s (sec <$> l)) (fun '(s', readys) =>
    length readys = length l
    /\ (forall k b, readys !! k = Some b -> (b = true <-> forall j, 0 <= j <= last -> j ∈ take (S k) l))
    /\ ((forall j, 0 <= j <= last -> j ∈ l) -> ordered s' = sec <$> seqZ 0 (last + 1))).
Proof.
  destruct Hl as [|j l Hj Hl].
  { exists (s, []). conjs; [done..|]. intros H. specialize (H 0 ltac:(lia)). by apply elem_of_nil in H. }
  assert (sameTable s (headerOf (sec j)) = false) as Enew.
  { destruct (Hsec j Hj) as (_ & _ & S3 & S4 & S5 & _). unfold sameTable. rewrite S3, S4, S5.
    rewrite !andb_false_iff, !Z.eqb_neq. tauto. }
  destruct (add_member sec ext version last Hlast Hsec s j Hs Hj) as (s1 & E1 & Hc1 & _).
  specialize (Hc1 Enew).
  destruct (addAll_collected sec ext version last Hlast Hsec l Hl s1 [j] Hc1) as (s2 & readys & E2 & Hc2 & L2 & R2).
  exists (s2, complete s1 :: readys). cbn [fmap list_fmap addAll]. rewrite E1. cbn [mbind go_bind].
  change (list_fmap _ _ sec l) with (sec <$> l). rewrite E2. conjs; [done|simpl; lia| |].
  - intros [|k] b Hb; [|by apply (R2 k)]. injection Hb as <-.
    apply (complete_collected sec ext version last s1 [j] Hc1).
  - intros Hall. by apply (ordered_collected sec ext version last Hlast s2 (j :: l)).
Qed.

(** A CAT of two sections, the second one first and repeated. *)
Lemma table_ready_when_complete_witness :
  let sec j := longSection TableIDCAT 7 4 j 1 [] in
  returns (addAll emptySectionSet (sec <$> [1; 1; 0])) (fun '(s', readys) =>
    readys !! 1%nat <> Some true /\ ordered s' = [sec 0; sec 1]).
Proof.
  intros sec.
  destruct (table_ready_when_complete sec 7 4 1 ltac:(lia)) with (s := emptySectionSet) (l := [1; 1; 0])
    as ([s' readys] & E & H1 & H2 & H3).
  - intros j Hj. assert (long_ok TableIDCAT 7 4 j 1 []) as Hok.
    { constructor; unfold byte_ok, TableIDCAT; try lia; [apply bytes_ok_nil|simpl; lia]. }
    split; [exact (long_valid _ _ _ _ _ _ Hok)|].
    split; [unfold sec; rewrite (long_len _ _ _ _ _ _ Hok); simpl; lia|]. conjs; reflexivity.
  - exact emptySectionSet_ok.
  - left. reflexivity.
  - repeat (apply Forall_cons; split; [lia|]). apply Forall_nil; exact I.
  - exists (s', readys). split; [exact E|]. split.
    + intros Hr. pose proof (proj1 (H2 1%nat true Hr) eq_refl 0 ltac:(lia)) as H.
      cbn [take] in H. rewrite !elem_of_cons, elem_of_nil in H. lia.
    + apply H3. intros j Hj. rewrite !elem_of_cons. lia.
Defined.

(** A PMT selects the streams of its program: after [observePMT] the
    program passes exactly the PCR PID (unless it is the null PID), the
    elementary PIDs and the CA PIDs of the descriptors of the program and of
    its elements; the DSM-CC elements of all programs are the PIDs whose
    sections are assembled, and nothing else about the programs changes. *)
Theorem pmt_selects_streams (d : Demuxer) (sid : Z) (program : demuxProgram) (pmt : PMT)
    (Hpmt : pmt_ok pmt) (Hsid : pmt_ProgramNumber pmt = sid) (Hprogram : programs d !! sid = Some program) :
  returns (observePMT d sid (encodePMT pmt)) (fun d' => exists pids secs,
    programs d' = <[sid := mkProgram (pr_pmtPID program) pids secs]> (programs d)
    /\ (forall pid, pid ∈ pids <->
          pid = pmt_PCRPID pmt /\ pid <> PIDNull
          \/ Exists (fun x => grants x pid) (pmt_Descriptors pmt)
          \/ Exists (fun e => pid = pe_ElementaryPID e \/ Exists (fun x => grants x pid) (pe_Descriptors e))
               (pmt_Elements pmt))
    /\ (forall pid, pid ∈ sectionPIDs d' <->
          exists i p, programs d' !! i = Some p /\ pid ∈ pr_sectionPIDs p)
    /\ (forall pid, pid ∈ secs <->
          Exists (fun e => sectionElement e = true /\ pid = pe_ElementaryPID e) (pmt_Elements pmt))).
Proof.
  pose proof Hpmt as (_ & _ & _ & [Hds _] & _ & Hes & _).
  unfold observePMT. rewrite ParsePMT_encode by done. cbn [orElse]. rewrite Hsid, Z.eqb_refl, Hprogram.
  cbn [negb]. destruct (caPIDs_spec _ Hds) as (C & -> & HC).
  destruct (elementPIDs_spec (pmt_Elements pmt)) as (P & S & -> & HP & HS).
  { eapply Forall_impl; [exact Hes|]. by intros e (_ & _ & [? _] & _). }
  cbn [mbind go_bind]. eexists. split; [done|]. exists
    ((if pmt_PCRPID pmt =? PIDNull then ∅ else {[pmt_PCRPID pmt]}) ∪ C ∪ P), S. conjs; [done| | |done].
  - intros pid. rewrite !elem_of_union, HC, HP.
    destruct (Z.eqb_spec (pmt_PCRPID pmt) PIDNull); [rewrite elem_of_empty|rewrite elem_of_singleton];
      naive_solver congruence.
  - intros pid. cbn [rebuildSectionPIDs sectionPIDs withSectionPIDs programs withAssemblers withPrograms].
    generalize (<[sid := mkProgram (pr_pmtPID program)
      ((if pmt_PCRPID pmt =? PIDNull then ∅ else {[pmt_PCRPID pmt]}) ∪ C ∪ P) S]> (programs d)).
    intros m. induction m as [|i x m Hi IH] using map_ind.
    + rewrite map_fold_empty. split; [set_solver|]. intros (? & ? & ? & _). done.
    + rewrite map_fold_insert_L; [|intros; set_solver|done]. rewrite elem_of_union, IH. split.
      * intros [Hx|(j & p & Hj & Hp)]; [exists i, x; by rewrite lookup_insert_eq|].
        exists j, p. rewrite lookup_insert_ne by congruence. done.
      * intros (j & p & Hj & Hp). destruct (decide (j = i)) as [->|Hne].
        -- rewrite lookup_insert_eq in Hj. injection Hj as ->. by left.
        -- rewrite lookup_insert_ne in Hj by done. right. eauto.
Qed.

(** A video stream, a data carousel and a CA descriptor. *)
Definition examplePMT : PMT :=
  mkPMT 101 2 0x1fff [0x09; 4; 0; 5; 0xe3; 0x21] [[0x09; 4; 0; 5; 0xe3; 0x21]]
    [mkPMTElement 0x02 0x100 [] []; mkPMTElement 0x0d 0x140 [] []].

Lemma pmt_selects_streams_witness :
  returns (observePMT exampleDemuxer 101 (encodePMT examplePMT)) (fun d' =>
    0x140 ∈ sectionPIDs d' /\ exists pids secs,
      programs d' !! 101 = Some (mkProgram 0x1f0 pids secs) /\ 0x321 ∈ pids /\ 0x1fff ∉ pids).
Proof.
  destruct (pmt_selects_streams exampleDemuxer 101 (mkProgram 0x1f0 ∅ ∅) examplePMT)
    as (d' & E & pids & secs & Hprog & Hpids & Hall & Hsecs).
  - unfold pmt_ok, loop_ok, descriptor_ok, element_ok, byte_ok. simpl. conjs; try lia; try reflexivity.
    + apply Forall_cons; split; [|apply Forall_nil; exact I]. conjs; try reflexivity; [|simpl; lia].
      repeat (apply Forall_cons; split; [unfold byte_ok; lia|]). apply Forall_nil; exact I.
    + repeat (apply Forall_cons; split; [conjs; unfold byte_ok, loop_ok; simpl; try lia; try reflexivity;
        conjs; try lia; try (apply Forall_nil; exact I)|]). apply Forall_nil; exact I.
  - reflexivity.
  - vm_compute. reflexivity.
  - exists d'. split; [exact E|]. split.
    + apply Hall. exists 101, (mkProgram 0x1f0 pids secs). rewrite Hprog, lookup_insert_eq.
      split; [reflexivity|]. apply Hsecs. right. left. split; reflexivity.
    + exists pids, secs. rewrite Hprog, lookup_insert_eq. split; [reflexivity|]. split.
      * apply Hpids. right. left. left. unfold grants. conjs; [reflexivity|simpl; lia|reflexivity].
      * intros H. apply Hpids in H as [[_ H]|[H|H]]; [apply H; reflexivity|..].
        -- apply Exists_cons in H as [(_ & _ & H)|H]; [vm_compute in H; discriminate H|by apply Exists_nil in H].
        -- apply Exists_cons in H as [[H|H]|H]; [discriminate H|by apply Exists_nil in H|].
           apply Exists_cons in H as [[H|H]|H]; [discriminate H|by apply Exists_nil in H|by apply Exists_nil in H].
Defined.

(** [samePAT] takes two different PATs for the same when one lists a
    service with PMT PID 0: a missing key reads as 0 in Go, so the service may
    be gone and another one listed in its place.  The demultiplexer then keeps
    the generation of the old PAT. *)
Theorem samePAT_confuses_missing_services :
  exists a b, samePAT (Some a) (Some b) = true /\ pat_Programs a !! 1 = Some 0
    /\ pat_Programs b !! 1 = None /\ pat_Programs b !! 2 = Some 0x100.
Proof. exists (mkPAT 7 0 0 {[1 := 0]}), (mkPAT 7 0 0 {[2 := 0x100]}). conjs; reflexivity. Qed.
