(* ===== verification/StreamDemux.v ===== *)
(** * The TS side of stream fan-out (internal/stream/demux/demuxer.go)

    [serviceFilter] ends a subscription once a complete PAT no longer lists the
    service; [continuityMonitor] watches the continuity counter of every PID.
    The monitor is refined to one small machine per PID, so that PIDs do not
    influence each other; a service view never causes a reported drop on its
    PAT. *)

From S2P Require Import Prelude Crc Packet Section Psi Tables Descriptors Demux.

(** ** The service filter *)

Definition filterPacket (d : Demuxer) (serviceID : Z) (service : ServiceDemux) (packet : Packet) :
    go (ServiceDemux * option Packet) :=
  if PATReady d && negb (HasService d serviceID) then Err ErrServiceNotFound
  else Packet_ service d packet.

(** ** The continuity monitor *)

(** The arrays over all PIDs as the set of their [true] entries and the map of
    their written entries. *)
Record continuityMonitor := mkMonitor {
  cm_seen : gset Z;
  cm_last : gmap Z Z;
  cm_duplicateSeen : gset Z;
  cm_lastPacket : gmap Z Packet
}.

Definition newMonitor : continuityMonitor := mkMonitor ∅ ∅ ∅ ∅.

Record continuityDrop := mkDrop {
  cd_PID : Z;
  cd_ExpectedCounter : Z;
  cd_ActualCounter : Z
}.

Definition sameAsLast (m : continuityMonitor) (pid : Z) (packet : Packet) : bool :=
  let previous := default [] (cm_lastPacket m !! pid) in
  (len previous =? PacketSize) && bool_decide (previous = packet).

(** The buffer kept for the PID is overwritten by [copy]. *)
Definition remember (m : continuityMonitor) (pid : Z) (packet : Packet) : continuityMonitor :=
  let previous := default [] (cm_lastPacket m !! pid) in
  let previous := if len previous =? PacketSize then previous
                  else replicate (Z.to_nat PacketSize) 0 in
  mkMonitor (cm_seen m) (cm_last m) (cm_duplicateSeen m)
    (<[pid := gocopy previous packet]> (cm_lastPacket m)).

(** [m.seen[pid]] and the other arrays have [PIDNull + 1] entries. *)
Definition indexed (pid : Z) : go Z := if (0 <=? pid) && (pid <=? PIDNull) then Ret pid else Panic.

Definition observe (m : continuityMonitor) (packet : Packet) :
    go (continuityMonitor * option continuityDrop) :=
  skip ← Ret (negb (len packet =? PacketSize))
    ||! (b0 ← idx packet 0; Ret (negb (b0 =? SyncByte)))
    ||! TransportErrorIndicator packet ||! IsNull packet ||! (negb <$> ValidPayloadOffset packet);
  if (skip : bool) then Ret (m, None)
  else
    pid ← PID packet;
    discontinuity ← DiscontinuityIndicator packet;
    m ← (if (discontinuity : bool) then
           pid ← indexed pid;
           Ret (mkMonitor (cm_seen m ∖ {[pid]}) (cm_last m) (cm_duplicateSeen m ∖ {[pid]})
                  (delete pid (cm_lastPacket m)))
         else Ret m);
    payload ← HasPayload packet;
    if negb payload then Ret (m, None)
    else
      counter ← ContinuityCounter packet;
      pid ← indexed pid;
      let last := default 0 (cm_last m !! pid) in
      let ok := bool_decide (pid ∈ cm_seen m) in
      let m := mkMonitor (cm_seen m ∪ {[pid]}) (<[pid := counter]> (cm_last m))
                 (cm_duplicateSeen m) (cm_lastPacket m) in
      if ok && (counter =? last) && negb (bool_decide (pid ∈ cm_duplicateSeen m))
         && sameAsLast m pid packet
      then Ret (mkMonitor (cm_seen m) (cm_last m) (cm_duplicateSeen m ∪ {[pid]}) (cm_lastPacket m), None)
      else
        let m := mkMonitor (cm_seen m) (cm_last m) (cm_duplicateSeen m ∖ {[pid]}) (cm_lastPacket m) in
        let m := remember m pid packet in
        let expected := Z.land (u8 (last + 1)) 0x0f in
        if ok && negb (counter =? expected)
        then Ret (m, Some (mkDrop pid expected counter))
        else Ret (m, None).

(** ** One PID at a time

    What the monitor should know of one PID: nothing, or the last packet with
    payload and whether its repetition was already seen. *)
Record pidState := mkPidState {
  ps_packet : Packet;
  ps_repeated : bool
}.

(** Packets the monitor looks at, and what resets a PID. *)
Definition watched (p : Packet) : bool :=
  (len p =? PacketSize) && (byteAt p 0 =? SyncByte) && negb (teiOf p) && negb (pidOf p =? 0x1fff)
  && (offsetOf p <=? 188).
Definition discontinuous (p : Packet) : bool :=
  (2 <=? afcOf p) && (1 <=? byteAt p 4) && flag (byteAt p 5) 0x80.

Definition specCount (s : option pidState) (p : Packet) : option pidState * option continuityDrop :=
  match s with
  | None => (Some (mkPidState p false), None)
  | Some st =>
      if negb (ps_repeated st) && bool_decide (ps_packet st = p) then (Some (mkPidState p true), None)
      else
        let expected := (counterOf (ps_packet st) + 1) mod 16 in
        (Some (mkPidState p false),
         if counterOf p =? expected then None else Some (mkDrop (pidOf p) expected (counterOf p)))
  end.

Definition specObserve (s : option pidState) (p : Packet) : option pidState * option continuityDrop :=
  let s := if discontinuous p then None else s in
  if hasPayloadOf p then specCount s p else (s, None).

(** The run of the monitor over a stream, and of the machine of one PID over
    its packets. *)
Fixpoint observeAll (m : continuityMonitor) (ps : list Packet) :
    go (continuityMonitor * list (option continuityDrop)) :=
  match ps with
  | [] => Ret (m, [])
  | p :: ps =>
      '(m, drop) ← observe m p;
      '(m, drops) ← observeAll m ps;
      Ret (m, drop :: drops)
  end.

Fixpoint specAll (s : option pidState) (ps : list Packet) : list (option continuityDrop) :=
  match ps with
  | [] => []
  | p :: ps => let '(s, drop) := specObserve s p in drop :: specAll s ps
  end.

(** ** Refinement *)

Definition tracks (m : continuityMonitor) (pid : Z) (s : option pidState) : Prop :=
  match s with
  | None => pid ∉ cm_seen m
  | Some st =>
      pid ∈ cm_seen m /\ cm_last m !! pid = Some (counterOf (ps_packet st))
      /\ cm_lastPacket m !! pid = Some (ps_packet st) /\ len (ps_packet st) = PacketSize
      /\ bool_decide (pid ∈ cm_duplicateSeen m) = ps_repeated st
  end.

Lemma DiscontinuityIndicator_eq p : len p = PacketSize -> bytes_ok p ->
  DiscontinuityIndicator p = Ret (discontinuous p).
Proof.
  intros Hp Hb. unfold DiscontinuityIndicator, discontinuous.
  rewrite HasAdaptationField_eq, AdaptationFieldLength_eq, idx_byteAt, Hp by (done || rewrite Hp; done).
  cbn [mbind go_bind]. change (PacketSize <=? PacketSize) with true. rewrite !goand_Ret.
  by destruct (2 <=? afcOf p).
Qed.

(** Forgetting what is known of a PID. *)
Definition forget (m : continuityMonitor) (pid : Z) : continuityMonitor :=
  mkMonitor (cm_seen m ∖ {[pid]}) (cm_last m) (cm_duplicateSeen m ∖ {[pid]}) (delete pid (cm_lastPacket m)).

Lemma forget_tracks m pid q s : tracks m q s ->
  tracks (forget m pid) q (if q =? pid then None else s).
Proof.
  intros H. destruct (Z.eqb_spec q pid) as [->|Hne]; [simpl; set_solver|].
  destruct s as [st|]; simpl in *; [|set_solver].
  destruct H as (H1 & H2 & H3 & H4 & H5). rewrite lookup_delete_ne by done. conjs; try done; [set_solver|].
  rewrite <- H5. apply bool_decide_ext. set_solver.
Qed.

(** What [observe] does after the discontinuity flag and the payload check. *)
Definition count (m : continuityMonitor) (p : Packet) : continuityMonitor * option continuityDrop :=
  let pid := pidOf p in
  let counter := counterOf p in
  let last := default 0 (cm_last m !! pid) in
  let ok := bool_decide (pid ∈ cm_seen m) in
  let m1 := mkMonitor (cm_seen m ∪ {[pid]}) (<[pid := counter]> (cm_last m))
              (cm_duplicateSeen m) (cm_lastPacket m) in
  if ok && (counter =? last) && negb (bool_decide (pid ∈ cm_duplicateSeen m1)) && sameAsLast m1 pid p
  then (mkMonitor (cm_seen m1) (cm_last m1) (cm_duplicateSeen m1 ∪ {[pid]}) (cm_lastPacket m1), None)
  else
    (remember (mkMonitor (cm_seen m1) (cm_last m1) (cm_duplicateSeen m1 ∖ {[pid]}) (cm_lastPacket m1)) pid p,
     let expected := Z.land (u8 (last + 1)) 0x0f in
     if ok && negb (counter =? expected) then Some (mkDrop pid expected counter) else None).

Lemma observe_eq m p : bytes_ok p ->
  observe m p = Ret
    (if watched p then
       let m := if discontinuous p then forget m (pidOf p) else m in
       if hasPayloadOf p then count m p else (m, None)
     else (m, None)).
Proof.
  intros Hb. unfold observe, watched. destruct (Z.eqb_spec (len p) PacketSize) as [Hp|]; [|done].
  rewrite idx_byteAt by (rewrite Hp; done). autorewrite with packet.
  cbn [mbind go_bind negb fmap go_fmap]. rewrite !goor_Ret. cbn [orb mbind go_bind].
  destruct (byteAt p 0 =? SyncByte); [|done]. destruct (teiOf p); [done|].
  destruct (pidOf p =? 0x1fff); [done|]. destruct (offsetOf p <=? 188); [|done].
  cbn [negb orb andb]. rewrite DiscontinuityIndicator_eq by done. cbn [mbind go_bind].
  pose proof (pid_range p Hb) as Hr.
  assert (indexed (pidOf p) = Ret (pidOf p)) as Hi.
  { unfold indexed, PIDNull. rewrite (proj2 (Z.leb_le 0 _)), (proj2 (Z.leb_le _ 8191)) by lia. done. }
  rewrite Hi. set (m1 := if discontinuous p then forget m (pidOf p) else m).
  assert ((if discontinuous p then Ret (pidOf p) ≫= λ pid, Ret (mkMonitor (cm_seen m ∖ {[pid]}) (cm_last m)
    (cm_duplicateSeen m ∖ {[pid]}) (delete pid (cm_lastPacket m))) else Ret m) = Ret m1) as ->.
  { unfold m1. by destruct (discontinuous p). }
  cbn [mbind go_bind]. destruct (hasPayloadOf p); [|done]. cbn [negb]. unfold count.
  destruct (_ && _ && _ && _); [done|]. by destruct (_ && _).
Qed.

Lemma remembered m pid p : len p = PacketSize -> cm_lastPacket (remember m pid p) !! pid = Some p.
Proof.
  intros Hp. unfold remember. cbn [cm_lastPacket]. rewrite lookup_insert_eq. f_equal.
  apply gocopy_full. destruct (Z.eqb_spec (len (default [] (cm_lastPacket m !! pid))) PacketSize).
  - lia.
  - rewrite length_replicate. unfold PacketSize in *. lia.
Qed.

(** The other PIDs are not touched. *)
Lemma count_other m p q s : q <> pidOf p -> tracks m q s -> tracks (count m p).1 q s.
Proof.
  intros Hne H. unfold count. cbv zeta.
  assert (forall dup lp, (bool_decide (q ∈ dup) = bool_decide (q ∈ cm_duplicateSeen m)) ->
    lp !! q = cm_lastPacket m !! q ->
    tracks (mkMonitor (cm_seen m ∪ {[pidOf p]}) (<[pidOf p := counterOf p]> (cm_last m)) dup lp) q s) as Hd.
  { intros dup lp Hdup Hlp. destruct s as [st|]; simpl in *; [|set_solver].
    destruct H as (H1 & H2 & H3 & H4 & H5). rewrite lookup_insert_ne, Hlp, Hdup by done.
    conjs; try done. set_solver. }
  destruct (_ && _ && _ && _); simpl; apply Hd; try (apply bool_decide_ext; set_solver); [done|].
  by rewrite lookup_insert_ne.
Qed.

Lemma count_spec m p s : len p = PacketSize -> tracks m (pidOf p) s ->
  tracks (count m p).1 (pidOf p) (specCount s p).1 /\ (count m p).2 = (specCount s p).2.
Proof.
  intros Hp H. unfold count, specCount. cbv zeta.
  destruct s as [st|]; simpl in H.
  2:{ rewrite bool_decide_eq_false_2 by done. cbn [andb fst snd tracks]. split; [|done].
      rewrite remembered by done. cbn [remember cm_seen cm_last cm_duplicateSeen ps_packet ps_repeated].
      rewrite lookup_insert_eq, bool_decide_eq_false_2 by set_solver. conjs; try done. set_solver. }
  destruct H as (H1 & H2 & H3 & H4 & H5). rewrite (bool_decide_eq_true_2 (_ ∈ cm_seen m)) by done.
  rewrite H2. cbn [default andb cm_duplicateSeen]. unfold id. rewrite H5. unfold sameAsLast. cbn [cm_lastPacket].
  rewrite H3. cbn [default]. unfold id. rewrite H4. change (PacketSize =? PacketSize) with true. cbn [andb].
  assert ((counterOf p =? counterOf (ps_packet st)) && negb (ps_repeated st) && bool_decide (ps_packet st = p)
    = negb (ps_repeated st) && bool_decide (ps_packet st = p)) as ->.
  { destruct (bool_decide (ps_packet st = p)) eqn:E; [|by rewrite !andb_false_r].
    apply bool_decide_eq_true in E. rewrite E, Z.eqb_refl. done. }
  destruct (negb (ps_repeated st) && bool_decide (ps_packet st = p)) eqn:E; cbn [fst snd tracks].
  - split; [|done]. bools. apply bool_decide_eq_true in H0.
    cbn [cm_seen cm_last cm_lastPacket cm_duplicateSeen ps_packet ps_repeated].
    rewrite lookup_insert_eq, H3, H0, bool_decide_eq_true_2 by set_solver. conjs; try done. set_solver.
  - split.
    + rewrite remembered by done. cbn [remember cm_seen cm_last cm_duplicateSeen ps_packet ps_repeated].
      rewrite lookup_insert_eq, bool_decide_eq_false_2 by set_solver. conjs; try done. set_solver.
    + pose proof (counter_range (ps_packet st)) as Hc. rewrite land_0f. unfold u8.
      rewrite (Z.mod_small (_ + 1) (2 ^ 8)) by lia. by destruct (counterOf p =? _).
Qed.

(** One packet: the machine of its PID moves with the monitor, the others
    stay. *)
Lemma observe_step m p : bytes_ok p -> exists m' r, observe m p = Ret (m', r)
  /\ (watched p = false -> r = None)
  /\ forall pid s, tracks m pid s ->
       if bool_decide (watched p = true /\ pidOf p = pid)
       then tracks m' pid (specObserve s p).1 /\ r = (specObserve s p).2
       else tracks m' pid s.
Proof.
  intros Hb. rewrite observe_eq by done. destruct (watched p) eqn:Ew.
  2:{ exists m, None. conjs; [done..|]. intros pid s Hs. rewrite bool_decide_eq_false_2 by naive_solver. done. }
  assert (len p = PacketSize) as Hp by (unfold watched in Ew; bools; done).
  set (m1 := if discontinuous p then forget m (pidOf p) else m).
  assert (forall pid s, tracks m pid s ->
    tracks m1 pid (if (pid =? pidOf p) && discontinuous p then None else s)) as Hm1.
  { intros pid s Hs. unfold m1. destruct (discontinuous p); [|by rewrite andb_false_r].
    rewrite andb_true_r. by apply forget_tracks. }
  exists (if hasPayloadOf p then (count m1 p).1 else m1), (if hasPayloadOf p then (count m1 p).2 else None).
  conjs; [by destruct (hasPayloadOf p), (count m1 p)|done|].
  intros pid s Hs. specialize (Hm1 pid s Hs). case_bool_decide as Hpid.
  - destruct Hpid as [_ <-]. rewrite Z.eqb_refl in Hm1. cbn [andb] in Hm1. unfold specObserve.
    destruct (hasPayloadOf p); [by apply count_spec|done].
  - assert (pid <> pidOf p) as Hne by naive_solver. rewrite (proj2 (Z.eqb_neq _ _) Hne) in Hm1. cbn [andb] in Hm1.
    destruct (hasPayloadOf p); [by apply count_other|done].
Qed.

Definition ofPID (pid : Z) (p : Packet) : Prop := watched p = true /\ pidOf p = pid.

#[global] Instance ofPID_dec pid p : Decision (ofPID pid p) := ltac:(unfold ofPID; apply _).

Lemma observeAll_spec ps : Forall bytes_ok ps -> forall m, exists m' drops,
  observeAll m ps = Ret (m', drops) /\ length drops = length ps
  /\ Forall (fun x => watched x.1 = false -> x.2 = None) (zip ps drops)
  /\ forall pid s, tracks m pid s ->
       snd <$> filter (fun x => ofPID pid x.1) (zip ps drops) = specAll s (filter (ofPID pid) ps).
Proof.
  induction 1 as [|p ps Hp _ IH]; intros m; cbn [observeAll].
  { exists m, []. conjs; [done..|]. intros pid s _. done. }
  destruct (observe_step m p Hp) as (m1 & r & -> & Hr & Hstep). cbn [mbind go_bind].
  destruct (IH m1) as (m2 & drops & -> & Hlen & Hun & Hall). cbn [mbind go_bind].
  exists m2, (r :: drops). conjs; [done|simpl; lia| |].
  - by apply Forall_cons.
  - intros pid s Hs. specialize (Hstep pid s Hs). cbn [zip zip_with].
    destruct (decide (ofPID pid p)) as [Hof|Hof].
    + rewrite bool_decide_eq_true_2 in Hstep by exact Hof. destruct Hstep as [Ht ->].
      rewrite filter_cons_True, filter_cons_True by done. cbn [specAll fmap list_fmap snd].
      destruct (specObserve s p) as [s' r']. f_equal. by apply Hall.
    + rewrite bool_decide_eq_false_2 in Hstep by exact Hof.
      rewrite filter_cons_False, filter_cons_False by done. by apply Hall.
Qed.

Lemma new_tracks pid : tracks newMonitor pid None.
Proof. simpl. set_solver. Qed.

(** Consecutive counters cause no drop. *)
Lemma specAll_consecutive ps : forall s i,
  (forall k p, ps !! k = Some p -> hasPayloadOf p = true /\ counterOf p = (i + Z.of_nat k) mod 16) ->
  match s with None => True | Some st => counterOf (ps_packet st) = (i - 1) mod 16 end ->
  Forall (fun r => r = None) (specAll s ps).
Proof.
  induction ps as [|p ps IH]; intros s i Hps Hs; cbn [specAll]; [constructor|].
  destruct (Hps 0%nat p eq_refl) as [Hpay Hp]. rewrite Z.add_0_r in Hp.
  assert (forall s', match s' with None => True | Some st => counterOf (ps_packet st) = i mod 16 end ->
    Forall (fun r => r = None) (specAll s' ps)) as Hrest.
  { intros s' Hs'. apply (IH s' (i + 1)).
    - intros k q Hq. destruct (Hps (S k) q Hq) as [? ->]. split; [done|]. f_equal. lia.
    - destruct s' as [st|]; [|done]. rewrite Hs'. f_equal. lia. }
  unfold specObserve. set (s0 := if discontinuous p then None else s).
  assert (match s0 with None => True | Some st => counterOf (ps_packet st) = (i - 1) mod 16 end) as Hs0.
  { unfold s0. by destruct (discontinuous p). }
  clearbody s0. rewrite Hpay. unfold specCount. destruct s0 as [st|]; [|by apply Forall_cons; auto].
  destruct (_ && _); [by apply Forall_cons; auto|]. apply Forall_cons. split; [|by apply Hrest].
  rewrite Hs0, Z.add_mod_idemp_l, Hp by lia. replace (i - 1 + 1) with i by lia. by rewrite Z.eqb_refl.
Qed.

Lemma patPacket_watched tsid sid pid v c : 0 <= tsid < 65536 -> 0 <= v < 32 -> 0 <= c < 16 ->
  watched (patPacket tsid sid pid v c) = true /\ hasPayloadOf (patPacket tsid sid pid v c) = true.
Proof.
  intros Ht Hv Hc. destruct (patSection_ok tsid sid pid v Ht Hv) as [(Hb & _) _].
  destruct (sectionPacket_view PIDPAT ltac:(unfold PIDPAT; lia) c true (patSection tsid sid pid v) Hc Hb)
    as ([V0 _] & V1 & V2 & _ & V4 & _ & V6). split; [|done]. unfold watched. fold (patPacket tsid sid pid v c) in *.
  rewrite V0, V1, V2. simpl. destruct (counter_header c Hc) as (C1 & _).
  assert (afcOf (patPacket tsid sid pid v c) = 1) as E by exact C1.
  unfold offsetOf. by rewrite E.
Qed.

Lemma patPackets_watched sid l : Forall info_ok l -> forall i,
  Forall (fun q => watched q = true /\ hasPayloadOf q = true) (patPackets sid i l).
Proof.
  induction 1 as [|[[tsid pid] v] l (R1 & R2 & R3) _ IH]; intros i; cbn [patPackets]; [constructor|].
  apply Forall_cons. split; [|done]. apply patPacket_watched; [done..|]. apply Z.mod_pos_bound. lia.
Qed.

Lemma filter_Forall {A} (P : A -> Prop) `{!forall x, Decision (P x)} l : Forall P l -> filter P l = l.
Proof. induction 1 as [|x l Hx _ IH]; [done|]. by rewrite filter_cons_True, IH. Qed.

Lemma filter_ofPAT ps : filter (ofPID PIDPAT) ps = filter (fun q => watched q = true) (emittedPATs ps).
Proof. unfold emittedPATs. rewrite list_filter_filter. by apply list_filter_iff. Qed.

(** ** Properties *)

(** The continuity monitor is one machine per PID: on every stream it
    returns, it reports nothing for packets it does not watch, and what it
    reports for the packets of a PID is what that PID's own machine reports on
    them alone: a drop exactly when a packet with payload does not carry the
    counter after its predecessor's, the first exact repetition excepted, and
    never across a discontinuity flag. *)
Theorem monitor_is_per_pid (ps : list Packet) (Hps : Forall bytes_ok ps) :
  returns (observeAll newMonitor ps) (fun '(_, drops) =>
    length drops = length ps
    /\ Forall (fun x => watched x.1 = false -> x.2 = None) (zip ps drops)
    /\ forall pid, snd <$> filter (fun x => ofPID pid x.1) (zip ps drops)
                  = specAll None (filter (ofPID pid) ps)).
Proof.
  destruct (observeAll_spec ps Hps newMonitor) as (m & drops & E & Hl & Hu & Hall).
  exists (m, drops). conjs; [done..|]. intros pid. apply Hall, new_tracks.
Qed.

(** Counters 3, 4, 6 on PID 0x100, PID 0x101 in between. *)
Lemma monitor_is_per_pid_witness :
  let p pid c := [0x47; 0x01; pid; 0x10 + c] ++ replicate 184 0 in
  let ps := [p 0 3; p 1 9; p 0 4; p 0 6; p 1 10] in
  returns (observeAll newMonitor ps) (fun '(_, drops) =>
    snd <$> filter (fun x => ofPID 0x100 x.1) (zip ps drops) = [None; None; Some (mkDrop 0x100 5 6)]).
Proof.
  intros p ps. destruct (monitor_is_per_pid ps) as ([m drops] & E & _ & _ & H).
  - repeat (apply Forall_cons; split); try (apply Forall_nil; exact I); unfold byte_ok; lia.
  - exists (m, drops). split; [exact E|]. rewrite H. vm_compute. reflexivity.
Defined.

(** A service view never causes a reported drop on its PAT: however the
    PAT packets it emitted are interleaved with packets of other PIDs, the
    monitor reports nothing for them. *)
Theorem service_pats_cause_no_drop (range : gmap Z Z -> list (Z * Z))
    (Hrange : forall m, range m ≡ₚ map_to_list m)
    (sid : Z) (d : Demuxer) (s : ServiceDemux) (out : list Packet) (n : Z) (z : bool)
    (Hrun : run range sid d s out n z) (ps : list Packet) (Hps : Forall bytes_ok ps)
    (Hsame : emittedPATs ps = emittedPATs out) :
  returns (observeAll newMonitor ps) (fun '(_, drops) =>
    forall p r, (p, r) ∈ zip ps drops -> pidOf p = PIDPAT -> r = None).
Proof.
  destruct (observeAll_spec ps Hps newMonitor) as (m & drops & E & Hl & Hu & Hall).
  exists (m, drops). split; [done|]. intros p r Hin Hpid.
  destruct (watched p) eqn:Ew; [|rewrite Forall_forall in Hu; by apply (Hu (p, r) Hin)].
  specialize (Hall PIDPAT None (new_tracks _)).
  destruct (run_inv range sid d s out n z Hrange Hrun) as [_ _ _ _ (l & Hok & Hsid & Hout & _) _ _].
  rewrite filter_ofPAT, Hsame, Hout, (filter_Forall _ (patPackets sid 0 l)) in Hall
    by (eapply Forall_impl; [by apply patPackets_watched|by intros q []]).
  destruct (patPackets_feed sid l 0 Hok Hsid ltac:(lia) (NewSectionAssembler PIDPAT) eq_refl) as [Hcnt _].
  assert (Forall (fun r => r = None) (specAll None (patPackets sid 0 l))) as Hnone.
  { apply (specAll_consecutive _ None 0); [|done]. intros k q Hq. split; [|by apply Hcnt].
    pose proof (patPackets_watched sid l Hok 0) as Hw. rewrite Forall_lookup in Hw. by apply (Hw k). }
  rewrite <- Hall, Forall_fmap, Forall_forall in Hnone. apply (Hnone (p, r)).
  apply list_elem_of_filter. done.
Qed.

Lemma service_pats_cause_no_drop_witness :
  let ps := [patPacket 0x7fe0 101 0x1f0 3 0; [0x47; 0x01; 0x00; 0x13] ++ replicate 184 0] in
  returns (observeAll newMonitor ps) (fun '(_, drops) =>
    forall p r, (p, r) ∈ zip ps drops -> pidOf p = PIDPAT -> r = None).
Proof.
  intros ps. apply (service_pats_cause_no_drop map_to_list (fun m => reflexivity _) 101 exampleDemuxer
    exampleView [patPacket 0x7fe0 101 0x1f0 3 0] 1 true example_run).
  - apply Forall_cons; split; [apply patPacket_view; lia|]. apply Forall_cons; split; [|apply Forall_nil; exact I].
    do 4 (apply bytes_ok_cons; [unfold byte_ok; lia|]). apply bytes_ok_replicate. unfold byte_ok. lia.
  - vm_compute. reflexivity.
Defined.

(** The service filter ends a subscription exactly when the PAT in force
    does not list the service, with [ErrServiceNotFound]; otherwise it answers
    what the service view answers, and returns. *)
Theorem filter_ends_when_service_leaves (range : gmap Z Z -> list (Z * Z))
    (Hrange : forall m, range m ≡ₚ map_to_list m)
    (sid : Z) (d : Demuxer) (s : ServiceDemux) (out : list Packet) (n : Z) (z : bool)
    (Hrun : run range sid d s out n z) (p : Packet) (Hp : bytes_ok p) :
  (filterPacket d sid s p = Err ErrServiceNotFound
   <-> exists pt, pat d = Some pt /\ pat_Programs pt !! sid = None)
  /\ (filterPacket d sid s p <> Err ErrServiceNotFound -> returns (filterPacket d sid s p) (fun r =>
        Packet_ s d p = Ret r)).
Proof.
  destruct (run_inv range sid d s out n z Hrange Hrun) as [Hd Hf Ho Hs _ _ _].
  assert (exists r, Packet_ s d p = Ret r) as [r Er].
  { unfold Packet_. rewrite Hs.
    destruct (servicePacket_step d sid (sd_output s) p Hd Ho Hp) as ([o r] & -> & _). by eexists. }
  unfold filterPacket, PATReady, HasService. rewrite Er. destruct (pat d) as [pt|] eqn:Ep.
  2:{ split; [split; [done|naive_solver]|]. intros _. by exists r. }
  destruct (Hf pt Ep) as (F1 & _). specialize (F1 sid).
  rewrite bool_decide_eq_true_2 by eauto. cbn [andb].
  destruct (programs d !! sid) as [program|]; simpl in F1.
  - rewrite bool_decide_eq_true_2 by eauto. cbn [negb]. split.
    + split; [done|]. intros (pt' & [= <-] & H). congruence.
    + intros _. by exists r.
  - rewrite bool_decide_eq_false_2 by (by intros [? ?]). cbn [negb]. split; [|done]. split; [|done].
    intros _. by exists pt.
Qed.

Lemma filter_ends_when_service_leaves_witness :
  filterPacket exampleDemuxer 101 exampleView examplePAT <> Err ErrServiceNotFound.
Proof.
  destruct (filter_ends_when_service_leaves map_to_list (fun m => reflexivity _) 101 exampleDemuxer exampleView
              _ 1 true example_run examplePAT examplePAT_bytes) as [H _].
  intros E. apply H in E as (pt & E1 & E2).
  assert (pat exampleDemuxer = Some exampleTable) as E3 by (vm_compute; reflexivity).
  rewrite E3 in E1. injection E1 as <-. vm_compute in E2. discriminate E2.
Defined.
