(* ===== verification/Tsmf.v ===== *)
(** * Multiple frames (ts/tsmf.go)

    [TSMFFrame] routes the packets of a JCTEA STD-007 frame to relative
    transport streams by the slot table of the latest valid frame header;
    [TSMFReader] reads the packets of one of them.  Theorems: routing is total
    and every header the standard allows routes exactly the 52 packets behind
    it by its slots; the reader delivers exactly the packets routed to its
    target, byte for byte, however small the buffers of its caller are. *)

From S2P Require Import Prelude Crc Packet Section PacketReader Psi Tables.

(** ** The frame *)

Definition slotCount : Z := 52.

Record TSMFFrame := mkFrame {
  fr_slots : list Z;
  fr_slot : Z;
  fr_active : bool
}.

Definition newFrame : TSMFFrame := mkFrame (replicate (Z.to_nat slotCount) 0) 0 false.

Definition Reset (f : TSMFFrame) : TSMFFrame := mkFrame (fr_slots f) (fr_slot f) false.

(** [p[73+i/2] >> (4 * (1 - i%2)) & 0x0f] *)
Definition slotAt (p : Packet) (i : Z) : go Z :=
  b ← idx p (73 + i / 2);
  Ret (Z.land (Z.shiftr b (4 * (1 - i mod 2))) 0x0f).

Fixpoint slotsOf (p : Packet) (l : list Z) : go (list Z) :=
  match l with
  | [] => Ret []
  | i :: l => s ← slotAt p i; ss ← slotsOf p l; Ret (s :: ss)
  end.

(** The header check, in the order of the condition. *)
Definition badHeader (p : Packet) : go bool :=
  sync ← read13 p 4;
  (b1 ← idx p 1; Ret (negb (b1 =? 0)))
    ||! (b3 ← idx p 3; Ret (negb (Z.land b3 0xf0 =? 0x10)))
    ||! Ret (negb (sync =? 0x1a86) && negb (sync =? 0x0579))
    ||! (b6 ← idx p 6; Ret (negb (Z.land b6 0x1f =? 1)))
    ||! (body ← sliceFrom p 4; Ret (negb (crc32MPEG2 body =? 0))).

Definition FrameFeed (f : TSMFFrame) (p : Packet) : go (TSMFFrame * (Z * bool)) :=
  if negb (len p =? PacketSize) then Ret (Reset f, (0, false))
  else
    pid ← PID p;
    if pid =? 0x002f then
      let f := Reset f in
      bad ← badHeader p;
      if (bad : bool) then Ret (f, (0, false))
      else
        slots ← slotsOf p (seqZ 0 slotCount);
        Ret (mkFrame slots 0 true, (0, true))
    else if negb (fr_active f) || (len (fr_slots f) <=? fr_slot f) then Ret (f, (0, false))
    else
      relative ← idx (fr_slots f) (fr_slot f);
      Ret (mkFrame (fr_slots f) (fr_slot f + 1) (fr_active f),
           (relative, (1 <=? relative) && (relative <=? 15))).

(** ** The reader *)

(** [packet], the buffer [pending] points into, is only overwritten when
    [pending] is empty. *)
Record TSMFReader := mkTSMFReader {
  tr_packets : PacketReader;
  tr_target : Z;
  tr_frame : TSMFFrame;
  tr_pending : bytes
}.

Definition NewTSMFReader (r : reader) (relativeTS : Z) : TSMFReader :=
  mkTSMFReader (NewPacketReader r) relativeTS newFrame [].

(** One turn of [for len(r.pending) == 0]. *)
Definition readTurn (r : TSMFReader) : go (iteration TSMFReader (TSMFReader * option error)) :=
  if negb (len (tr_pending r) =? 0) then Ret (Break (r, None))
  else
    let syncLosses := pr_syncLosses (tr_packets r) in
    '(packets, x) ← NextInto (tr_packets r) (replicate 188 0);
    match x with
    | inl e => Ret (Break (mkTSMFReader packets (tr_target r) (tr_frame r) (tr_pending r), Some e))
    | inr p =>
        let frame := if negb (pr_syncLosses packets =? syncLosses) then Reset (tr_frame r) else tr_frame r in
        '(frame, (relative, ok)) ← FrameFeed frame p;
        if negb ok || (relative =? 0) || negb (relative =? tr_target r)
        then Ret (Continue (mkTSMFReader packets (tr_target r) frame (tr_pending r)))
        else Ret (Continue (mkTSMFReader packets (tr_target r) frame p))
    end.

(** [Read] into a buffer of [room] bytes.  Every packet takes 188 bytes of the
    input, which bounds the turns. *)
Definition TSMFRead (r : TSMFReader) (room : Z) : go (TSMFReader * (bytes + error)) :=
  if room =? 0 then Ret (r, inl [])
  else
    '(r, err) ← loop (2 + length (stream (tr_packets r))) readTurn r;
    match err with
    | Some e => Ret (r, inr e)
    | None =>
        let n := Z.min room (len (tr_pending r)) in
        data ← sliceTo (tr_pending r) n;
        rest ← sliceFrom (tr_pending r) n;
        Ret (mkTSMFReader (tr_packets r) (tr_target r) (tr_frame r) rest, inl data)
    end.

(** ** Frames *)

Definition frame_ok (f : TSMFFrame) : Prop :=
  len (fr_slots f) = slotCount /\ Forall (fun s => 0 <= s < 16) (fr_slots f) /\ 0 <= fr_slot f <= slotCount.

Lemma newFrame_ok : frame_ok newFrame.
Proof.
  unfold frame_ok, newFrame, slotCount. cbn [fr_slots fr_slot]. conjs; try lia; [by rewrite length_replicate|].
  apply Forall_replicate. lia.
Qed.

Lemma Reset_ok f : frame_ok f -> frame_ok (Reset f).
Proof. done. Qed.

Lemma land_0f_range x : 0 <= Z.land x 0x0f < 16.
Proof. rewrite land_0f. apply Z.mod_pos_bound. lia. Qed.

Lemma slotsOf_eq p l : len p = PacketSize -> Forall (fun i => 0 <= i < slotCount) l ->
  slotsOf p l = Ret ((fun i => Z.land (Z.shiftr (byteAt p (73 + i / 2)) (4 * (1 - i mod 2))) 0x0f) <$> l).
Proof.
  intros Hp. induction 1 as [|i l Hi _ IH]; [done|]. cbn [slotsOf]. unfold slotAt, slotCount, PacketSize in *.
  rewrite idx_byteAt by dmlia. cbn [mbind go_bind]. by rewrite IH.
Qed.

Lemma allSlots : Forall (fun i => 0 <= i < slotCount) (seqZ 0 slotCount).
Proof. apply Forall_forall. intros i Hi%elem_of_seqZ. lia. Qed.

Definition goodHeader (p : Packet) : bool :=
  let sync := be (Z.land (byteAt p 4) 0x1f) (byteAt p 5) in
  (byteAt p 1 =? 0) && (Z.land (byteAt p 3) 0xf0 =? 0x10) && ((sync =? 0x1a86) || (sync =? 0x0579))
  && (Z.land (byteAt p 6) 0x1f =? 1) && (crc32MPEG2 (drop 4 p) =? 0).

Lemma badHeader_eq p : len p = PacketSize -> badHeader p = Ret (negb (goodHeader p)).
Proof.
  intros Hp. unfold badHeader, goodHeader, read13, readMasked, PacketSize in *.
  rewrite !idx_byteAt, slice_from by lia. cbn [mbind go_bind]. rewrite !goor_Ret. f_equal.
  change (4 + 1) with 5. change (Z.to_nat 4) with 4%nat. by rewrite !negb_andb, negb_orb.
Qed.

(** [FrameFeed] in closed form. *)
Definition routed (f : TSMFFrame) (p : Packet) : TSMFFrame * (Z * bool) :=
  if negb (len p =? PacketSize) then (Reset f, (0, false))
  else if pidOf p =? 0x2f then
    if goodHeader p
    then (mkFrame ((fun i => Z.land (Z.shiftr (byteAt p (73 + i / 2)) (4 * (1 - i mod 2))) 0x0f)
                     <$> seqZ 0 slotCount) 0 true, (0, true))
    else (Reset f, (0, false))
  else if negb (fr_active f) || (len (fr_slots f) <=? fr_slot f) then (f, (0, false))
  else
    let relative := byteAt (fr_slots f) (fr_slot f) in
    (mkFrame (fr_slots f) (fr_slot f + 1) (fr_active f), (relative, (1 <=? relative) && (relative <=? 15))).

Lemma FrameFeed_eq f p : frame_ok f -> FrameFeed f p = Ret (routed f p).
Proof.
  intros (Hl & _ & Hs). unfold FrameFeed, routed. destruct (Z.eqb_spec (len p) PacketSize) as [Hp|]; [|done].
  cbn [negb]. rewrite PID_eq by done. cbn [mbind go_bind]. destruct (pidOf p =? 0x2f).
  - rewrite badHeader_eq by done. cbn [mbind go_bind]. destruct (goodHeader p); [|done]. cbn [negb].
    by rewrite slotsOf_eq by (done || apply allSlots).
  - destruct (negb (fr_active f)); [done|]. cbn [orb]. destruct (Z.leb_spec (len (fr_slots f)) (fr_slot f)); [done|].
    by rewrite idx_byteAt by lia.
Qed.

Lemma routed_ok f p : frame_ok f -> frame_ok (routed f p).1.
Proof.
  intros Hf. pose proof Hf as (Hl & Hr & Hs). unfold routed.
  destruct (negb (len p =? PacketSize)); [by apply Reset_ok|]. destruct (pidOf p =? 0x2f).
  - destruct (goodHeader p); [|by apply Reset_ok]. unfold frame_ok, slotCount in *. cbn [fst fr_slots fr_slot].
    rewrite length_fmap, length_seqZ. conjs; try lia. apply Forall_fmap, Forall_forall. intros i _. apply land_0f_range.
  - destruct (_ || _) eqn:E; [done|]. bools. unfold frame_ok, slotCount in *. cbn [fst fr_slots fr_slot]. conjs; try done; lia.
Qed.

(** ** Headers *)

(** Two slots per byte. *)
Fixpoint packSlots (slots : list Z) : bytes :=
  match slots with
  | a :: b :: slots => (a * 16 + b) :: packSlots slots
  | _ => []
  end.

Lemma pairs_ind (P : list Z -> Prop) :
  P [] -> (forall a, P [a]) -> (forall a b l, P l -> P (a :: b :: l)) -> forall l, P l.
Proof.
  intros H0 H1 H2. assert (forall n l, (length l <= n)%nat -> P l) as H; [|intros l; by apply (H (length l))].
  induction n as [|n IH]; intros [|a [|b l]] Hl; simpl in Hl; auto; [lia..|]. apply H2, IH. lia.
Qed.

Lemma packSlots_length slots : length (packSlots slots) = Nat.div2 (length slots).
Proof. induction slots as [|a|a b slots IH] using pairs_ind; simpl; [done..|]. by rewrite IH. Qed.

Lemma packSlots_ok slots : Forall (fun s => 0 <= s < 16) slots -> bytes_ok (packSlots slots).
Proof.
  induction slots as [|a|a b slots IH] using pairs_ind; intros H; simpl; [constructor..|].
  apply Forall_cons in H as [Ha H]. apply Forall_cons in H as [Hb H].
  apply bytes_ok_cons; [unfold byte_ok; lia|auto].
Qed.

Lemma slot_nibbles a b : 0 <= a < 16 -> 0 <= b < 16 ->
  Z.land (Z.shiftr (a * 16 + b) 4) 0x0f = a /\ Z.land (Z.shiftr (a * 16 + b) 0) 0x0f = b.
Proof.
  intros Ha Hb. rewrite !land_0f, Z.shiftr_0_r, Z.shiftr_div_pow2 by lia. split; dmlia.
Qed.

(** Reading the slots back. *)
Lemma packSlots_read slots : Forall (fun s => 0 <= s < 16) slots -> forall i s, slots !! i = Some s ->
  (i < 2 * Nat.div2 (length slots))%nat ->
  Z.land (Z.shiftr (byteAt (packSlots slots) (Z.of_nat i / 2)) (4 * (1 - Z.of_nat i mod 2))) 0x0f = s.
Proof.
  induction slots as [|a|a b slots IH] using pairs_ind; intros H i s Hi Hlt; [done|simpl in Hlt; lia|].
  apply Forall_cons in H as [Ha H]. apply Forall_cons in H as [Hb H]. destruct (slot_nibbles a b Ha Hb) as [N1 N2].
  destruct i as [|[|i]].
  - injection Hi as <-. exact N1.
  - injection Hi as <-. exact N2.
  - cbn [lookup list_lookup] in Hi. simpl in Hlt. cbn [packSlots].
    rewrite <- (IH H i s Hi) at 1 by lia.
    replace (Z.of_nat (S (S i)) / 2) with (Z.of_nat i / 2 + 1) by dmlia.
    replace (Z.of_nat (S (S i)) mod 2) with (Z.of_nat i mod 2) by dmlia.
    do 2 f_equal. unfold byteAt. replace (Z.to_nat (Z.of_nat i / 2 + 1)) with (S (Z.to_nat (Z.of_nat i / 2))); [done|].
    dmlia.
Qed.

(** A frame header as the standard lays it out, its unused parts arbitrary. *)
Definition frameHeader (sync counter : Z) (unused tail : bytes) (slots : list Z) : Packet :=
  [SyncByte; 0x00; 0x2f; 0x10 + counter]
  ++ seal ([hiByte sync; u8 sync; 0x01] ++ unused ++ packSlots slots ++ tail).

Section header.
Context (sync counter : Z) (unused tail : bytes) (slots : list Z).
Context (Hsync : sync = 0x1a86 \/ sync = 0x0579) (Hcounter : 0 <= counter < 16).
Context (Hunused : length unused = 66%nat) (Htail : length tail = 85%nat).
Context (Hslots : length slots = 52%nat) (Hrange : Forall (fun s => 0 <= s < 16) slots).
Context (Hbytes : bytes_ok unused /\ bytes_ok tail).

Let h := frameHeader sync counter unused tail slots.

Lemma header_length : len h = PacketSize.
Proof.
  unfold h, frameHeader, seal. rewrite !length_app, packSlots_length, Hunused, Htail, Hslots. done.
Qed.

Lemma header_body_ok : bytes_ok ([hiByte sync; u8 sync; 0x01] ++ unused ++ packSlots slots ++ tail).
Proof.
  destruct Hbytes. repeat apply bytes_ok_app; auto using packSlots_ok.
  unfold hiByte. auto 10 with bytes.
Qed.

Lemma header_good : pidOf h = 0x2f /\ goodHeader h = true.
Proof.
  split; [done|]. unfold goodHeader.
  assert (crc32MPEG2 (drop 4 h) = 0) as -> by apply crc_residue, header_body_ok.
  assert (Z.land (byteAt h 3) 0xf0 = 0x10) as ->.
  { change (byteAt h 3) with (0x10 + counter).
    pose proof (range_forallb (fun c => Z.land (0x10 + c) 0xf0 =? 0x10) 16 ltac:(vm_compute; reflexivity) counter Hcounter).
    simpl in H. by bools. }
  change (byteAt h 1) with 0. change (byteAt h 4) with (hiByte sync). change (byteAt h 5) with (u8 sync).
  change (byteAt h 6) with 1. destruct Hsync as [->| ->]; done.
Qed.

Lemma header_slots :
  (fun i => Z.land (Z.shiftr (byteAt h (73 + i / 2)) (4 * (1 - i mod 2))) 0x0f) <$> seqZ 0 slotCount = slots.
Proof.
  apply list_eq. intros i. rewrite list_lookup_fmap. destruct (decide (i < 52)%nat) as [Hi|Hi].
  - rewrite lookup_seqZ_lt by (unfold slotCount; lia). cbn [fmap option_fmap option_map].
    destruct (lookup_lt_is_Some_2 slots i) as [s Hs]; [lia|]. rewrite Hs. f_equal.
    assert (byteAt h (73 + (0 + Z.of_nat i) / 2) = byteAt (packSlots slots) (Z.of_nat i / 2)) as ->.
    { set (body := [hiByte sync; u8 sync; 0x01] ++ unused ++ packSlots slots ++ tail).
      assert (h = ([SyncByte; 0x00; 0x2f; 0x10 + counter; hiByte sync; u8 sync; 0x01] ++ unused)
        ++ packSlots slots ++ (tail ++ be32 (crc32MPEG2 body))) as ->.
      { unfold h, frameHeader, seal. fold body. unfold body at 1. cbn [app]. by rewrite <- !app_assoc. }
      replace (73 + (0 + Z.of_nat i) / 2)
        with (len ([SyncByte; 0x00; 0x2f; 0x10 + counter; hiByte sync; u8 sync; 0x01] ++ unused) + Z.of_nat i / 2)
        by (rewrite length_app, Hunused; simpl; dmlia).
      apply byteAt_mid. rewrite packSlots_length, Hslots. simpl. dmlia. }
    rewrite Z.add_0_l. apply packSlots_read; [done..|]. rewrite Hslots. simpl. lia.
  - rewrite lookup_seqZ_ge by (unfold slotCount; lia). rewrite lookup_ge_None_2 by lia. done.
Qed.
End header.

(** ** Routing *)

Fixpoint feedFrames (f : TSMFFrame) (ps : list Packet) : go (TSMFFrame * list (Z * bool)) :=
  match ps with
  | [] => Ret (f, [])
  | p :: ps =>
      '(f, r) ← FrameFeed f p;
      '(f, rs) ← feedFrames f ps;
      Ret (f, r :: rs)
  end.

(** The answer for the packet in a slot: its relative stream, or nothing for an
    unassigned slot or beyond the frame. *)
Definition answer (slots : list Z) (i : nat) : Z * bool :=
  match slots !! i with Some s => (s, 1 <=? s) | None => (0, false) end.

Lemma feedFrames_slots ps : Forall (fun p => len p = PacketSize /\ pidOf p <> 0x2f) ps -> forall f,
  frame_ok f -> fr_active f = true ->
  exists f', feedFrames f ps = Ret (f', (fun i => answer (fr_slots f) (Z.to_nat (fr_slot f) + i)) <$> seq 0 (length ps)).
Proof.
  induction 1 as [|p ps [Hp Hpid] _ IH]; intros f Hf Ha; cbn [feedFrames]; [by exists f|].
  rewrite FrameFeed_eq by done. cbn [mbind go_bind]. pose proof (routed_ok f p Hf) as Hf'.
  pose proof Hf as (Hl & Hr & Hs). unfold routed in *. rewrite Hp in *. change (PacketSize =? PacketSize) with true in *.
  cbn [negb] in *. rewrite (proj2 (Z.eqb_neq _ _) Hpid), Ha in *. cbn [negb orb] in *.
  cbn [length seq fmap list_fmap]. rewrite Nat.add_0_r.
  destruct (Z.leb_spec (len (fr_slots f)) (fr_slot f)).
  - destruct (IH f Hf Ha) as [f' ->]. exists f'. cbn [mbind go_bind].
    assert (forall i, answer (fr_slots f) (Z.to_nat (fr_slot f) + i) = (0, false)) as Hnone.
    { intros i. unfold answer. by rewrite lookup_ge_None_2 by lia. }
    pose proof (Hnone 0%nat) as H0. rewrite Nat.add_0_r in H0. rewrite H0, <- fmap_S_seq, <- list_fmap_compose.
    do 3 f_equal. apply list_fmap_ext. intros k i _. unfold compose. by rewrite !Hnone.
  - cbn [fst] in Hf'. destruct (IH _ Hf' eq_refl) as [f' ->]. exists f'. cbn [mbind go_bind fr_slots fr_slot].
    rewrite <- fmap_S_seq, <- list_fmap_compose. do 3 f_equal.
    + unfold answer, byteAt. destruct (lookup_lt_is_Some_2 (fr_slots f) (Z.to_nat (fr_slot f))) as [x Hx]; [lia|].
      rewrite Hx. simpl. rewrite Forall_lookup in Hr. specialize (Hr _ _ Hx).
      by rewrite (proj2 (Z.leb_le x 15)), andb_true_r by lia.
    + apply list_fmap_ext. intros k i _. unfold compose. f_equal. lia.
Qed.

(** ** The reader on a clean stream *)

(** The packets routed to a target. *)
Fixpoint wanted (f : TSMFFrame) (target : Z) (ps : list Packet) : list Packet :=
  match ps with
  | [] => []
  | p :: ps =>
      let '(f, (relative, ok)) := routed f p in
      if ok && negb (relative =? 0) && (relative =? target) then p :: wanted f target ps
      else wanted f target ps
  end.

Definition following (r : TSMFReader) (ps : list Packet) : Prop :=
  clean (tr_packets r) ps /\ Forall synced ps /\ frame_ok (tr_frame r).

Definition remaining (r : TSMFReader) (ps : list Packet) : bytes :=
  tr_pending r ++ concat (wanted (tr_frame r) (tr_target r) ps).

Lemma NextInto_clean pr p ps : clean pr (p :: ps) -> Forall synced (p :: ps) ->
  exists pr', NextInto pr (replicate 188 0) = Ret (pr', inr p) /\ clean pr' ps.
Proof. intros Hc Hps. destruct (nextTurn_clean pr p ps Hc Hps) as (pr' & E%Next_turn & Hc'). by exists pr'. Qed.

Lemma readTurn_pending r : tr_pending r <> [] -> readTurn r = Ret (Break (r, None)).
Proof. intros H. unfold readTurn. by destruct (tr_pending r). Qed.

Lemma readTurn_end r : clean (tr_packets r) [] -> tr_pending r = [] -> exists pr', clean pr' [] /\
  readTurn r = Ret (Break (mkTSMFReader pr' (tr_target r) (tr_frame r) [], Some ErrEOF)).
Proof.
  intros Hc Hp. destruct (nextTurn_clean_end (tr_packets r) Hc) as (pr' & E%Next_turn & Hc'). unfold Next in E.
  exists pr'. split; [done|]. unfold readTurn. rewrite Hp, E. done.
Qed.

Lemma readTurn_packet r p ps : following r (p :: ps) -> tr_pending r = [] -> exists r',
  readTurn r = Ret (Continue r') /\ following r' ps /\ tr_target r' = tr_target r
  /\ remaining r' ps = remaining r (p :: ps).
Proof.
  intros (Hc & Hps & Hf) Hp. destruct (NextInto_clean (tr_packets r) p ps Hc Hps) as (pr' & E & Hc').
  pose proof Hc as (_ & _ & _ & _ & _ & Hl). pose proof Hc' as (_ & _ & _ & _ & _ & Hl').
  unfold readTurn. rewrite Hp, E. cbn [length Z.of_nat Z.eqb negb mbind go_bind].
  rewrite Hl, Hl'. change (0 =? 0) with true. cbn [negb]. rewrite FrameFeed_eq by done. cbn [mbind go_bind].
  pose proof (routed_ok _ p Hf) as Hf'. unfold remaining. rewrite Hp. cbn [app wanted].
  apply Forall_cons in Hps as [_ Hps].
  destruct (routed (tr_frame r) p) as [f' [relative ok]]. cbn [fst] in Hf'.
  replace (negb ok || (relative =? 0) || negb (relative =? tr_target r))
    with (negb (ok && negb (relative =? 0) && (relative =? tr_target r)))
    by (by rewrite !negb_andb, negb_involutive).
  destruct (ok && negb (relative =? 0) && (relative =? tr_target r)); cbn [negb]; eexists; conjs; done.
Qed.

Lemma readTurns_clean ps : forall r n, following r ps -> (length ps + 1 < n)%nat ->
  exists r' e ps', loop n readTurn r = Ret (r', e) /\ following r' ps' /\ tr_target r' = tr_target r
    /\ remaining r' ps' = remaining r ps
    /\ (e = None /\ tr_pending r' <> [] \/ e = Some ErrEOF /\ remaining r ps = []).
Proof.
  induction ps as [|p ps IH]; intros r n Hfol Hn; (destruct n as [|n]; [lia|]); rewrite loop_S;
    (destruct (decide (tr_pending r = [])) as [Hp|Hp];
     [|rewrite readTurn_pending by done; eexists r, None, _; conjs; [done|exact Hfol|done|done|by left]]).
  - destruct Hfol as (Hc & Hps & Hf). destruct (readTurn_end r Hc Hp) as (pr' & Hc' & ->).
    eexists _, _, []. conjs; [done|by unfold following|done|unfold remaining; by rewrite Hp|].
    right. split; [done|]. unfold remaining. by rewrite Hp.
  - destruct (readTurn_packet r p ps Hfol Hp) as (r1 & -> & Hfol1 & Ht & Hrem). cbn [mbind go_bind].
    destruct (IH r1 n Hfol1 ltac:(simpl in Hn; lia)) as (r' & e & ps' & E & H1 & H2 & H3 & H4).
    exists r', e, ps'. rewrite Hrem in H3, H4. conjs; [done|done|congruence|done|done].
Qed.

Lemma length_concat_packets ps : Forall synced ps -> (length ps <= length (concat ps))%nat.
Proof.
  induction 1 as [|p ps [Hp _] _ IH]; [done|]. simpl. rewrite length_app. lia.
Qed.

Lemma TSMFRead_clean r ps room : following r ps -> 0 < room ->
  exists r' x, TSMFRead r room = Ret (r', x) /\ tr_target r' = tr_target r /\
    match x with
    | inl data => data <> [] /\ exists ps', following r' ps' /\ remaining r ps = data ++ remaining r' ps'
    | inr e => e = ErrEOF /\ remaining r ps = []
    end.
Proof.
  intros Hfol Hroom. pose proof Hfol as ((_ & Es & _) & Hps & _). unfold TSMFRead.
  rewrite (proj2 (Z.eqb_neq room 0)) by lia. pose proof (length_concat_packets ps Hps).
  destruct (readTurns_clean ps r (2 + length (stream (tr_packets r))) Hfol) as (r1 & e & ps' & -> & H1 & H2 & H3 & H4).
  { rewrite Es. lia. }
  cbn [mbind go_bind]. destruct H4 as [[-> Hne]|[-> Hnil]].
  - assert (0 < len (tr_pending r1)) by (destruct (tr_pending r1); [done|simpl; lia]).
    rewrite slice_0, slice_from by lia. cbn [mbind go_bind]. eexists _, _. conjs; [done|done|].
    split.
    + intros En%(f_equal length). rewrite length_take in En. simpl in En. lia.
    + exists ps'. split; [done|]. rewrite <- H3. unfold remaining. cbn [tr_pending tr_frame tr_target].
      by rewrite app_assoc, take_drop.
  - eexists _, _. conjs; [done|done|]. done.
Qed.

(** Reads until the first error. *)
Fixpoint readMany (r : TSMFReader) (rooms : list Z) : go (TSMFReader * bytes * option error) :=
  match rooms with
  | [] => Ret (r, [], None)
  | room :: rooms =>
      '(r, x) ← TSMFRead r room;
      match x with
      | inr e => Ret (r, [], Some e)
      | inl data => '(r, more, e) ← readMany r rooms; Ret (r, data ++ more, e)
      end
  end.

Lemma readMany_clean rooms : Forall (fun n => 0 < n) rooms -> forall r ps, following r ps ->
  exists r' data e, readMany r rooms = Ret (r', data, e) /\
    (e = None /\ (length rooms <= length data)%nat /\ (exists rest, remaining r ps = data ++ rest)
     \/ e = Some ErrEOF /\ remaining r ps = data).
Proof.
  induction 1 as [|room rooms Hroom _ IH]; intros r ps Hfol; cbn [readMany].
  { exists r, [], None. split; [done|]. left. conjs; [done|done|by eexists]. }
  destruct (TSMFRead_clean r ps room Hfol Hroom) as (r1 & [data|e] & -> & Ht & H); cbn [mbind go_bind].
  - destruct H as (Hne & ps' & Hfol' & Hrem). destruct (IH r1 ps' Hfol') as (r' & more & e & -> & H).
    cbn [mbind go_bind]. eexists _, _, _. split; [done|]. destruct H as [(-> & Hlen & rest & Hr)|[-> Hr]].
    + left. conjs; [done| |exists rest; by rewrite Hrem, Hr, app_assoc].
      rewrite length_app. destruct data; [done|]. simpl. lia.
    + right. by rewrite Hrem, Hr.
  - destruct H as [-> Hnil]. exists r1, [], (Some ErrEOF). split; [done|]. by right.
Qed.

(** ** The reader on any stream *)

Definition tsmf_ok (r : TSMFReader) : Prop := pr_ok (tr_packets r) /\ frame_ok (tr_frame r).

(** Bytes still to come, one more while nothing is pending. *)
Definition turnsLeft (r : TSMFReader) : Z :=
  len (stream (tr_packets r)) + (if len (tr_pending r) =? 0 then 1 else 0).

Lemma readTurn_safe r : tsmf_ok r -> wp (readTurn r) (fun x =>
  match x with
  | Continue r' => tsmf_ok r' /\ 0 <= turnsLeft r' < turnsLeft r
  | Break (r', _) => tsmf_ok r'
  end).
Proof.
  intros [Hp Hf]. unfold readTurn. destruct (Z.eqb_spec (len (tr_pending r)) 0) as [E0|E0]; cbn [negb]; [|done].
  apply wp_bind. eapply wp_mono; [apply NextInto_spec; [done|by rewrite length_replicate]|].
  intros [packets [e|p]] H.
  - apply wp_ret. destruct H as (H & _). done.
  - destruct H as (Hp' & Htk). set (f := if negb _ then _ else tr_frame r).
    assert (frame_ok f) as Hf0 by (unfold f; destruct (negb _); [by apply Reset_ok|done]). clearbody f.
    rewrite FrameFeed_eq by done. cbn [mbind go_bind]. pose proof (routed_ok f p Hf0) as Hf'.
    destruct (routed f p) as [f' [relative ok]]. cbn [fst] in Hf'.
    destruct Htk as ([Hl _] & _ & skipped & trailer & Es & _). apply (f_equal length) in Es.
    rewrite !length_app in Es. unfold PacketSize in Hl.
    assert (len (stream (tr_packets r)) >= 188 + len (stream packets)) by lia. clear Es.
    wp_case E; apply wp_ret; (split; [done|]); unfold turnsLeft; cbn [tr_packets tr_pending];
      rewrite E0, Z.eqb_refl; [lia|]. destruct (len p =? 0); lia.
Qed.

Lemma TSMFRead_safe r room : tsmf_ok r -> 0 <= room -> safe (TSMFRead r room).
Proof.
  intros Hr Hroom. unfold TSMFRead, safe. wp_case E; [done|]. apply wp_bind.
  eapply wp_mono; [apply (wp_loop tsmf_ok turnsLeft _ (fun '(r', _) => tsmf_ok r'))|].
  - intros s Hs. eapply wp_mono; [by apply readTurn_safe|]. by intros [r'|[r' e]].
  - done.
  - unfold turnsLeft. destruct (len (tr_pending r) =? 0); lia.
  - unfold turnsLeft. destruct (len (tr_pending r) =? 0); lia.
  - intros [r' [e|]] Hr'; [done|]. rewrite slice_0, slice_from by lia. done.
Qed.

Lemma TSMFRead_errorless r room : errorless (TSMFRead r room).
Proof.
  unfold TSMFRead, readTurn. pose proof NextInto_errorless.
  assert (forall l p, errorless (slotsOf p l)) as HS.
  { induction l as [|i l IH]; intros p; cbn [slotsOf]; [done|]. unfold slotAt. errorless. }
  unfold FrameFeed, badHeader, PID, read13, readMasked. errorless.
Qed.

(** ** Properties *)

(** After any frame header laid out as the standard says, of either sync
    word and with any slot table, the next packets are routed by its slots in
    order, whatever the frame state was before: the i-th of them to the
    relative stream of slot i, to none for slot 0, and to none beyond the 52
    slots. *)
Theorem tsmf_frame_routes (f : TSMFFrame) (Hf : frame_ok f)
    (sync counter : Z) (unused tail : bytes) (slots : list Z)
    (Hsync : sync = 0x1a86 \/ sync = 0x0579) (Hcounter : 0 <= counter < 16)
    (Hunused : length unused = 66%nat) (Htail : length tail = 85%nat)
    (Hslots : length slots = 52%nat) (Hrange : Forall (fun s => 0 <= s < 16) slots)
    (Hbytes : bytes_ok unused /\ bytes_ok tail)
    (ps : list Packet) (Hps : Forall (fun p => len p = PacketSize /\ pidOf p <> 0x2f) ps) :
  returns (feedFrames f (frameHeader sync counter unused tail slots :: ps)) (fun '(_, rs) =>
    rs = (0, true) :: (answer slots <$> seq 0 (length ps))).
Proof.
  cbn [feedFrames]. rewrite FrameFeed_eq by done. unfold routed. rewrite header_length by done.
  change (PacketSize =? PacketSize) with true. cbn [negb].
  edestruct (header_good sync counter unused tail slots) as [-> ->]; [done..|].
  change (47 =? 47) with true. cbn [mbind go_bind].
  rewrite header_slots by done.
  destruct (feedFrames_slots ps Hps (mkFrame slots 0 true)) as [f' ->]; [|done|by exists (f', (0, true) :: (answer slots <$> seq 0 (length ps)))].
  unfold frame_ok, slotCount. cbn [fr_slots fr_slot]. rewrite Hslots. conjs; [done|done|lia|lia].
Qed.

Lemma tsmf_frame_routes_witness :
  let slots := [1; 2; 0; 15] ++ replicate 48 3 in
  let p := [0x47; 0x01; 0; 0x10] ++ replicate 184 0 in
  returns (feedFrames newFrame (frameHeader 0x0579 4 (replicate 66 0) (replicate 85 0xff) slots :: replicate 60 p))
    (fun '(_, rs) => rs = (0, true) :: (answer slots <$> seq 0 60)).
Proof.
  intros slots p.
  apply (tsmf_frame_routes newFrame newFrame_ok 0x0579 4 (replicate 66 0) (replicate 85 0xff) slots
           (or_intror eq_refl) ltac:(lia) eq_refl eq_refl eq_refl).
  - apply Forall_app. split; [repeat (apply Forall_cons; split; [lia|]); apply Forall_nil; exact I|].
    apply Forall_replicate. lia.
  - split; apply bytes_ok_replicate; unfold byte_ok; lia.
  - apply Forall_replicate. split; [reflexivity|vm_compute; discriminate].
Defined.

(** [TSMFReader] delivers the target's packets exactly.  On every input
    script and with every buffer a [Read] returns; on a stream of packets,
    however it is cut into reads and however small the caller's buffers are,
    the bytes delivered are the packets routed to the target, in order,
    followed by [io.EOF], which comes after no more reads than there are
    bytes plus one. *)
Theorem tsmf_reader_delivers_target (r : reader) (target : Z) (Hok : reader_ok r) :
  (forall rd room, tsmf_ok rd -> 0 <= room -> returns (TSMFRead rd room) (fun _ => True))
  /\ (forall ps rooms, Forall (fun p => packet_ok p /\ byteAt p 0 = SyncByte) ps ->
      Forall (fun '(c, e) => c <> [] /\ e = None) r -> concat (fst <$> r) = concat ps ->
      Forall (fun n => 0 < n) rooms ->
      let bytes := concat (wanted newFrame target ps) in
      returns (readMany (NewTSMFReader r target) rooms) (fun '(_, data, e) =>
        (e = None /\ exists rest, bytes = data ++ rest) \/ (e = Some ErrEOF /\ bytes = data))
      /\ ((length bytes < length rooms)%nat ->
          returns (readMany (NewTSMFReader r target) rooms) (fun '(_, data, e) => e = Some ErrEOF /\ data = bytes))).
Proof.
  split.
  { intros rd room Hrd Hroom. apply returns_wp; [apply TSMFRead_errorless|]. by apply TSMFRead_safe. }
  intros ps rooms Hps Hst Hcut Hrooms bytes.
  assert (following (NewTSMFReader r target) ps) as Hfol.
  { unfold following. cbn [NewTSMFReader tr_packets tr_frame].
    assert (stream (NewPacketReader r) = concat ps) as Es.
    { unfold stream. simpl. by rewrite scriptBytes_steady. }
    conjs; [|eapply Forall_impl; [exact Hps|]; by intros p [[? _] ?]|apply newFrame_ok].
    unfold clean. conjs; try done; [|by left|by left]. unfold pr_ok. conjs; [done| |by left]. rewrite Es.
    apply Forall_concat. eapply Forall_impl; [exact Hps|]. by intros p [[_ ?] _]. }
  destruct (readMany_clean rooms Hrooms _ _ Hfol) as (r' & data & e & E & H).
  change (remaining (NewTSMFReader r target) ps) with bytes in H. split.
  - exists (r', data, e). split; [done|]. destruct H as [(-> & _ & H)|[-> H]]; auto.
  - intros Hlen. exists (r', data, e). split; [done|]. destruct H as [(-> & Hl & rest & Hr)|[-> H]]; [|done].
    rewrite Hr, length_app in Hlen. lia.
Qed.

(** One header that assigns the first slot to stream 7, and two packets. *)
Lemma tsmf_reader_delivers_target_witness :
  let h := frameHeader 0x1a86 0 (replicate 66 0) (replicate 85 0) (7 :: replicate 51 3) in
  let p := [0x47; 0x01; 0; 0x10] ++ replicate 184 0 in
  let r := [(h ++ p, None); (p, None)] in
  returns (readMany (NewTSMFReader r 7) [100; 100]) (fun '(_, data, e) =>
    (e = None /\ exists rest, p = data ++ rest) \/ (e = Some ErrEOF /\ p = data)).
Proof.
  intros h p r. assert (bytes_ok p) as Hp.
  { do 4 (apply bytes_ok_cons; [unfold byte_ok; lia|]). apply bytes_ok_replicate. unfold byte_ok. lia. }
  assert (packet_ok h) as Hh.
  { split; [reflexivity|]. repeat (apply Forall_cons; split; [vm_compute; split; congruence|]). apply Forall_nil; exact I. }
  assert (concat (wanted newFrame 7 [h; p; p]) = p) as E by (vm_compute; reflexivity).
  destruct (tsmf_reader_delivers_target r 7) as [_ H].
  - repeat (apply Forall_cons; split; [vm_compute; discriminate|]). apply Forall_nil; exact I.
  - destruct (H [h; p; p] [100; 100]) as [H1 _].
    + repeat (apply Forall_cons; split); try (apply Forall_nil; exact I); split; try reflexivity; try exact Hh;
        (split; [reflexivity|exact Hp]).
    + repeat (apply Forall_cons; split); try (apply Forall_nil; exact I); (split; [discriminate|reflexivity]).
    + vm_compute. reflexivity.
    + repeat (apply Forall_cons; split; [lia|]). apply Forall_nil; exact I.
    + rewrite E in H1. exact H1.
Defined.
