(* ===== verification/PacketQueue.v ===== *)
(** * A subscriber's packet queue (internal/stream/fanout/subscription.go)

    [packetQueue] keeps the packets a slow subscriber has not taken yet, within
    a byte budget, in a ring that doubles when it is full.  The engine pushes,
    the subscriber's writer goroutine takes and waits on a channel of capacity
    one.  The ring refines a plain list ([rep]); the interleavings of the two
    goroutines are a step relation, on which no wakeup is lost. *)

From S2P Require Import Prelude.

(** ** The code *)

(** [l[i] = x] and [a % b]. *)
Definition setAt {A} (l : list A) (i : Z) (x : A) : go (list A) :=
  if (0 <=? i) && (i <? len l) then Ret (<[Z.to_nat i := x]> l) else Panic.

Definition gomod (a b : Z) : go Z := if b =? 0 then Panic else Ret (Z.rem a b).

(** The budget of a subscriber and the bound of one write. *)
Definition SubscriberBufferBytes : Z := Z.shiftl 8 20.
Definition packetWriteBatchBytes : Z := 64 * 188.

(** A [nil] packet is the empty list; [ready] holds the token of the channel
    of capacity one. *)
Record packetQueue := mkQueue {
  q_ring : list bytes;
  q_head : Z;
  q_count : Z;
  q_bytes : Z;
  q_closed : bool;
  q_ready : bool
}.

Definition newPacketQueue : packetQueue := mkQueue (replicate 64 []) 0 0 0 false false.

Definition popLocked (q : packetQueue) : go (packetQueue * bytes) :=
  packet ← idx (q_ring q) (q_head q);
  ring ← setAt (q_ring q) (q_head q) [];
  head ← gomod (q_head q + 1) (len ring);
  Ret (mkQueue ring head (q_count q - 1) (q_bytes q - len packet) (q_closed q) (q_ready q), packet).

(** The loop of [push] that drops the oldest packets. *)
Definition dropTurn (size limit : Z) (s : packetQueue * Z) :
    go (iteration (packetQueue * Z) (packetQueue * Z)) :=
  let '(q, dropped) := s in
  if (0 <? q_count q) && (limit <? q_bytes q + size) then
    '(q, packet) ← popLocked q;
    Ret (Continue (q, dropped + len packet))
  else Ret (Break (q, dropped)).

Definition dropOldest (q : packetQueue) (size limit : Z) : go (packetQueue * Z) :=
  loop (S (Z.to_nat (q_count q))) (dropTurn size limit) (q, 0).

Definition grow (q : packetQueue) : go packetQueue :=
  let ring := replicate (2 * length (q_ring q)) [] in
  tail ← sliceFrom (q_ring q) (q_head q);
  let n := Z.min (len ring) (len tail) in
  let ring := gocopy ring tail in
  front ← sliceTo (q_ring q) (q_head q);
  rest ← sliceFrom ring n;
  first ← sliceTo ring n;
  Ret (mkQueue (first ++ gocopy rest front) 0 (q_count q) (q_bytes q) (q_closed q) (q_ready q)).

(** The part of [push] under the queue's lock: the number of dropped bytes and
    whether the writer is notified afterwards. *)
Definition pushLocked (q : packetQueue) (packet : bytes) (limit : Z) :
    go (packetQueue * (Z * bool)) :=
  '(q, dropped) ← dropOldest q (len packet) limit;
  if limit <? q_bytes q + len packet then Ret (q, (dropped + len packet, false))
  else
    q ← (if q_count q =? len (q_ring q) then grow q else Ret q);
    slot ← gomod (q_head q + q_count q) (len (q_ring q));
    ring ← setAt (q_ring q) slot packet;
    Ret (mkQueue ring (q_head q) (q_count q + 1) (q_bytes q + len packet) (q_closed q) (q_ready q),
         (dropped, true)).

(** [select { case q.ready <- struct{}{}: default: }] *)
Definition notify (q : packetQueue) : packetQueue :=
  mkQueue (q_ring q) (q_head q) (q_count q) (q_bytes q) (q_closed q) true.

Definition push (q : packetQueue) (packet : bytes) (limit : Z) : go (packetQueue * Z) :=
  '(q, (dropped, signal)) ← pushLocked q packet limit;
  Ret (if (signal : bool) then notify q else q, dropped).

Definition closeLocked (q : packetQueue) : packetQueue :=
  mkQueue (q_ring q) (q_head q) (q_count q) (q_bytes q) true (q_ready q).

Definition closeQueue (q : packetQueue) : packetQueue := notify (closeLocked q).

(** The inner loop of [take]. *)
Definition takeTurn (max : Z) (s : packetQueue * Z * list bytes) :
    go (iteration (packetQueue * Z * list bytes) (packetQueue * list bytes)) :=
  let '(q, size, dst) := s in
  more ← Ret (0 <? q_count q) &&!
    (Ret (size =? 0) ||! (next ← idx (q_ring q) (q_head q); Ret (size + len next <=? max)));
  if (more : bool) then
    '(q, packet) ← popLocked q;
    Ret (Continue (q, size + len packet, dst ++ [packet]))
  else Ret (Break (q, dst)).

(** One turn of [take] under the lock: its result, or [None] when it goes on to
    wait for the channel. *)
Definition takeLocked (q : packetQueue) (dst : list bytes) (max : Z) :
    go (packetQueue * option (list bytes * bool)) :=
  if 0 <? q_count q then
    '(q, dst) ← loop (S (Z.to_nat (q_count q))) (takeTurn max) (q, 0, dst);
    Ret (q, Some (dst, true))
  else if q_closed q then Ret (q, Some (dst, false))
  else Ret (q, None).

(** [<-q.ready], when the token is there. *)
Definition receive (q : packetQueue) : packetQueue :=
  mkQueue (q_ring q) (q_head q) (q_count q) (q_bytes q) (q_closed q) false.

(** ** The list the ring stands for *)

(** The ring read from its head on. *)
Definition view (ring : list bytes) (head : Z) : list bytes :=
  drop (Z.to_nat head) ring ++ take (Z.to_nat head) ring.

Definition rep (q : packetQueue) (l : list bytes) : Prop :=
  0 <= q_head q < len (q_ring q) /\ q_count q = len l /\ (length l <= length (q_ring q))%nat
  /\ take (length l) (view (q_ring q) (q_head q)) = l /\ q_bytes q = len (concat l).

(** The oldest packets are dropped as long as the rest and [size] more bytes
    exceed the budget. *)
Fixpoint shed (l : list bytes) (size limit : Z) : list bytes :=
  match l with
  | [] => []
  | p :: l' => if limit <? len (concat l) + size then shed l' size limit else l
  end.

Definition specPush (l : list bytes) (packet : bytes) (limit : Z) : list bytes * Z * bool :=
  let kept := shed l (len packet) limit in
  let dropped := len (concat l) - len (concat kept) in
  if limit <? len packet then (kept, dropped + len packet, false)
  else (kept ++ [packet], dropped, true).

(** The packets one [take] moves: those that fit, and at least one.  [size] is
    the sum of those already moved: empty ones do not count. *)
Fixpoint batch (l : list bytes) (size max : Z) : list bytes :=
  match l with
  | [] => []
  | p :: l' => if (size =? 0) || (size + len p <=? max) then p :: batch l' (size + len p) max else []
  end.

Lemma view_length ring head : 0 <= head < len ring -> length (view ring head) = length ring.
Proof. intros. unfold view. rewrite length_app, length_drop, length_take. lia. Qed.

Lemma setAt_eq {A} (l : list A) i x : 0 <= i < len l -> setAt l i x = Ret (<[Z.to_nat i := x]> l).
Proof. intros. unfold setAt. rewrite (proj2 (Z.leb_le _ _)), (proj2 (Z.ltb_lt _ _)) by lia. done. Qed.

Lemma gomod_eq a b : 0 <= a -> 0 < b -> gomod a b = Ret (a mod b).
Proof.
  intros. unfold gomod. rewrite (proj2 (Z.eqb_neq _ _)) by lia. by rewrite Z.rem_mod_nonneg by lia.
Qed.

(** Position [i] of the view is position [head + i] of the ring, modulo its
    length. *)
Lemma view_insert ring head i p : 0 <= head < len ring -> 0 <= i < len ring ->
  view (<[Z.to_nat ((head + i) mod len ring) := p]> ring) head = <[Z.to_nat i := p]> (view ring head).
Proof.
  intros Hh Hi. unfold view. destruct (Z.lt_ge_cases (head + i) (len ring)).
  - rewrite Z.mod_small, drop_insert_ge, take_insert_ge by lia.
    rewrite insert_app_l by (rewrite length_drop; lia). f_equal. f_equal. lia.
  - replace ((head + i) mod len ring) with (head + i - len ring).
    2:{ apply (Z.mod_unique_pos _ _ 1); lia. }
    rewrite drop_insert_lt, take_insert_lt by lia.
    replace (Z.to_nat i) with (length (drop (Z.to_nat head) ring) + Z.to_nat (head + i - len ring))%nat
      by (rewrite length_drop; lia).
    by rewrite insert_app_r.
Qed.

(** The entry at the head is the first of the view. *)
Lemma view_cons ring head p l : 0 <= head < len ring -> view ring head = p :: l ->
  ring !! Z.to_nat head = Some p
  /\ view (<[Z.to_nat head := []]> ring) ((head + 1) mod len ring) = l ++ [[]].
Proof.
  intros Hh Hv. unfold view in *.
  destruct (lookup_lt_is_Some_2 ring (Z.to_nat head)) as [x Hx]; [lia|].
  rewrite (drop_S _ x) in Hv by done. simplify_list_eq. split; [done|].
  set (post := drop (S (Z.to_nat head)) ring). set (pre := take (Z.to_nat head) ring).
  assert (<[Z.to_nat head:=[]]> ring = pre ++ [] :: post) as ->.
  { rewrite <- (take_drop_middle ring (Z.to_nat head) p Hx) at 1.
    unfold pre, post. rewrite insert_app_r_alt by (rewrite length_take; lia).
    rewrite length_take. by replace (Z.to_nat head - Z.to_nat head `min` length ring)%nat with 0%nat by lia. }
  assert (length pre = Z.to_nat head) as Hpre by (unfold pre; rewrite length_take; lia).
  destruct (Z.lt_ge_cases (head + 1) (len ring)).
  - rewrite Z.mod_small by lia. rewrite drop_app_ge, take_app_ge by lia.
    replace (Z.to_nat (head + 1) - length pre)%nat with 1%nat by lia. simpl.
    by rewrite drop_0, take_0.
  - replace (head + 1) with (len ring) by lia. rewrite Z.mod_same by lia.
    assert (post = []) as -> by (unfold post; apply drop_ge; lia). simpl. by rewrite app_nil_r.
Qed.

Lemma popLocked_rep q p l : rep q (p :: l) -> exists q', popLocked q = Ret (q', p) /\ rep q' l
  /\ q_closed q' = q_closed q /\ q_ready q' = q_ready q.
Proof.
  intros (Hh & Hc & Hlen & Hv & Hb). unfold popLocked.
  destruct (view (q_ring q) (q_head q)) as [|p' v] eqn:Ev; [done|]. simpl in Hv. simplify_eq/=.
  destruct (view_cons _ _ _ _ Hh Ev) as [Hx Hnext].
  rewrite (idx_lookup _ _ p) by (done || lia). cbn [mbind go_bind].
  rewrite setAt_eq by lia. cbn [mbind go_bind]. rewrite length_insert, gomod_eq by lia. cbn [mbind go_bind].
  eexists. conjs; [done| |done|done]. unfold rep. cbn [q_ring q_head q_count q_bytes].
  pose proof (view_length _ _ Hh) as Hvl. rewrite Ev in Hvl. simpl in Hvl.
  rewrite length_insert, Hnext. rewrite length_app in Hb. conjs.
  - apply Z.mod_pos_bound. lia.
  - apply Z.mod_pos_bound. lia.
  - lia.
  - lia.
  - rewrite take_app_le by lia. congruence.
  - lia.
Qed.

Lemma dropOldest_rep size limit : forall l q n dropped, rep q l -> (length l < n)%nat ->
  exists q', loop n (dropTurn size limit) (q, dropped)
             = Ret (q', dropped + (len (concat l) - len (concat (shed l size limit))))
  /\ rep q' (shed l size limit) /\ q_closed q' = q_closed q /\ q_ready q' = q_ready q.
Proof.
  induction l as [|p l IH]; intros q [|n] dropped Hrep Hn; try (simpl in Hn; lia); rewrite loop_S; unfold dropTurn.
  - pose proof Hrep as (_ & -> & _). exists q. conjs; try done. simpl. f_equal. f_equal. lia.
  - pose proof Hrep as (_ & Hc & _ & _ & Hb). rewrite Hc, Hb.
    rewrite (proj2 (Z.ltb_lt _ _)) by (simpl; lia). cbn [andb shed].
    destruct (limit <? len (concat (p :: l)) + size) eqn:E.
    + destruct (popLocked_rep q p l Hrep) as (q1 & -> & Hrep1 & Hcl & Hrd). cbn [mbind go_bind].
      destruct (IH q1 n (dropped + len p) Hrep1) as (q2 & E2 & Hrep2 & Hcl2 & Hrd2); [simpl in Hn; lia|].
      exists q2. fold (dropTurn size limit). rewrite E2. conjs; [|done|congruence..].
      f_equal. f_equal. rewrite concat_cons, length_app. lia.
    + exists q. conjs; try done. cbn [mbind go_bind]. f_equal. f_equal. lia.
Qed.

Lemma grow_rep q l : rep q l -> length l = length (q_ring q) -> exists q', grow q = Ret q' /\ rep q' l
  /\ (length l < length (q_ring q'))%nat /\ q_closed q' = q_closed q /\ q_ready q' = q_ready q.
Proof.
  intros (Hh & Hc & Hlen & Hv & Hb) Hfull. unfold grow.
  rewrite slice_from, slice_0 by lia. cbn [mbind go_bind].
  set (ring := q_ring q) in *. set (h := q_head q) in *.
  assert (len (replicate (2 * length ring) (@nil Z)) = 2 * len ring) as -> by (rewrite length_replicate; lia).
  assert (len (drop (Z.to_nat h) ring) = len ring - h) as Htl by (rewrite length_drop; lia). rewrite Htl.
  rewrite Z.min_r by lia.
  assert (gocopy (replicate (2 * length ring) []) (drop (Z.to_nat h) ring)
    = drop (Z.to_nat h) ring ++ replicate (length ring + Z.to_nat h) []) as ->.
  { unfold gocopy. rewrite length_replicate, take_ge, length_drop, drop_replicate by (rewrite length_drop; lia).
    f_equal. f_equal. lia. }
  rewrite slice_from, slice_0 by (rewrite length_app, length_drop, length_replicate; lia). cbn [mbind go_bind].
  rewrite drop_app_length', take_app_length' by (rewrite length_drop; lia).
  assert (gocopy (replicate (length ring + Z.to_nat h) []) (take (Z.to_nat h) ring)
    = take (Z.to_nat h) ring ++ replicate (length ring) []) as ->.
  { unfold gocopy. rewrite length_replicate, (take_ge (take _ _)), length_take, drop_replicate by (rewrite length_take; lia).
    f_equal. f_equal. lia. }
  eexists. split; [done|]. unfold rep. cbn [q_ring q_head q_count q_bytes q_closed q_ready].
  rewrite app_assoc. change (drop (Z.to_nat h) ring ++ take (Z.to_nat h) ring) with (view ring h).
  pose proof (view_length ring h Hh) as Hvl. rewrite length_app, Hvl, length_replicate.
  unfold view at 1. rewrite drop_0, take_0, app_nil_r, take_app_le by lia. conjs; try done; lia.
Qed.

Lemma shed_le l size limit : len (concat (shed l size limit)) + size <= limit \/ shed l size limit = [].
Proof.
  induction l as [|p l IH]; [by right|]. cbn [shed].
  destruct (Z.ltb_spec limit (len (concat (p :: l)) + size)); [done|by left; lia].
Qed.

Lemma shed_suffix l size limit : exists d, l = d ++ shed l size limit.
Proof.
  induction l as [|p l [d IH]]; [by exists []|]. cbn [shed]. destruct (limit <? _); [|by exists []].
  exists (p :: d). simpl. by rewrite <- IH.
Qed.

(** What [push] does with a packet there is room for. *)
Definition put (q : packetQueue) (packet : bytes) : go packetQueue :=
  slot ← gomod (q_head q + q_count q) (len (q_ring q));
  ring ← setAt (q_ring q) slot packet;
  Ret (mkQueue ring (q_head q) (q_count q + 1) (q_bytes q + len packet) (q_closed q) (q_ready q)).

Lemma put_rep q l packet : rep q l -> (length l < length (q_ring q))%nat -> exists q',
  put q packet = Ret q' /\ rep q' (l ++ [packet]) /\ q_closed q' = q_closed q /\ q_ready q' = q_ready q.
Proof.
  intros (Hh & Hc & Hlen & Hv & Hb) Hroom. unfold put. rewrite gomod_eq, Hc by lia. cbn [mbind go_bind].
  rewrite setAt_eq by (apply Z.mod_pos_bound; lia). cbn [mbind go_bind].
  eexists. conjs; [done| |done|done]. unfold rep. cbn [q_ring q_head q_count q_bytes].
  rewrite length_insert, view_insert, Nat2Z.id, length_app by lia. simpl length. conjs; [lia|lia|lia|lia| |].
  - rewrite Nat.add_1_r, (take_S_r _ _ packet).
    + by rewrite take_insert_ge, Hv by lia.
    + apply list_lookup_insert_eq. rewrite view_length by lia. lia.
  - rewrite concat_app, length_app, Hb. simpl. rewrite app_nil_r. lia.
Qed.

Lemma pushLocked_rep q l packet limit : rep q l ->
  let '(l', dropped, signal) := specPush l packet limit in
  exists q', pushLocked q packet limit = Ret (q', (dropped, signal)) /\ rep q' l'
  /\ q_closed q' = q_closed q /\ q_ready q' = q_ready q.
Proof.
  intros Hrep. unfold specPush, pushLocked, dropOldest. pose proof Hrep as (_ & Hc & _).
  destruct (dropOldest_rep (len packet) limit l q (S (Z.to_nat (q_count q))) 0 Hrep) as (q1 & -> & Hrep1 & Hcl & Hrd); [lia|].
  cbn [mbind go_bind]. set (kept := shed l (len packet) limit) in *.
  assert (q_bytes q1 = len (concat kept)) as -> by apply Hrep1.
  destruct (Z.ltb_spec limit (len packet)).
  { rewrite (proj2 (Z.ltb_lt _ _)) by lia. by exists q1. }
  pose proof (shed_le l (len packet) limit) as Hshed. fold kept in Hshed.
  rewrite (proj2 (Z.ltb_ge _ _)) by (destruct Hshed as [?|E]; [lia|rewrite E; simpl; lia]).
  assert (exists q2, (if q_count q1 =? len (q_ring q1) then grow q1 else Ret q1) = Ret q2 /\ rep q2 kept
    /\ (length kept < length (q_ring q2))%nat /\ q_closed q2 = q_closed q /\ q_ready q2 = q_ready q)
    as (q2 & -> & Hrep2 & Hroom & Hcl2 & Hrd2).
  { pose proof Hrep1 as (_ & Hc1 & Hlen1 & _). destruct (Z.eqb_spec (q_count q1) (len (q_ring q1))).
    - destruct (grow_rep q1 kept Hrep1) as (q2 & -> & ? & ? & ? & ?); [lia|].
      exists q2. conjs; (done || congruence).
    - exists q1. conjs; try done. lia. }
  cbn [mbind go_bind]. destruct (put_rep q2 kept packet Hrep2 Hroom) as (q3 & Eput & Hrep3 & ? & ?).
  exists q3. conjs; [|done|congruence..]. unfold put in Eput.
  destruct (gomod _ _) as [slot| | |]; try done. cbn [mbind go_bind] in *.
  destruct (setAt _ _ _) as [ring| | |]; try done. cbn [mbind go_bind] in *. by simplify_eq.
Qed.

Lemma push_rep q l packet limit : rep q l -> let '(l', dropped, _) := specPush l packet limit in
  exists q', push q packet limit = Ret (q', dropped) /\ rep q' l' /\ q_closed q' = q_closed q.
Proof.
  intros Hrep. pose proof (pushLocked_rep q l packet limit Hrep) as H. unfold push.
  destruct (specPush l packet limit) as [[l' dropped] signal]. destruct H as (q' & -> & Hrep' & Hcl & _).
  cbn [mbind go_bind]. exists (if signal then notify q' else q'). by destruct signal.
Qed.

Lemma takeLoop_rep max : forall l q n size dst, rep q l -> (length l < n)%nat ->
  exists q', loop n (takeTurn max) (q, size, dst) = Ret (q', dst ++ batch l size max)
  /\ rep q' (drop (length (batch l size max)) l) /\ q_closed q' = q_closed q /\ q_ready q' = q_ready q.
Proof.
  induction l as [|p l IH]; intros q [|n] size dst Hrep Hn; try (simpl in Hn; lia); rewrite loop_S.
  - assert (takeTurn max (q, size, dst) = Ret (Break (q, dst))) as ->.
    { unfold takeTurn. by pose proof Hrep as (_ & -> & _). }
    exists q. rewrite app_nil_r. done.
  - destruct (popLocked_rep q p l Hrep) as (q1 & Epop & Hrep1 & Hcl & Hrd).
    assert (takeTurn max (q, size, dst) = Ret (if (size =? 0) || (size + len p <=? max)
      then Continue (q1, size + len p, dst ++ [p]) else Break (q, dst))) as ->.
    { unfold takeTurn. pose proof Hrep as (_ & -> & _). rewrite (proj2 (Z.ltb_lt _ _)) by (simpl; lia).
      assert (idx (q_ring q) (q_head q) = Ret p) as ->.
      { unfold popLocked in Epop. destruct (idx _ _); try done. cbn [mbind go_bind] in Epop.
        destruct (setAt _ _ _); try done. cbn [mbind go_bind] in Epop. destruct (gomod _ _); try done.
        cbn [mbind go_bind] in Epop. congruence. }
      rewrite Epop. cbn [mbind go_bind]. rewrite goor_Ret, goand_Ret. cbn [andb mbind go_bind].
      by destruct (_ || _). }
    cbn [mbind go_bind batch]. destruct (_ || _).
    + destruct (IH q1 n (size + len p) (dst ++ [p]) Hrep1) as (q2 & -> & Hrep2 & ? & ?); [simpl in Hn; lia|].
      exists q2. rewrite <- app_assoc. conjs; [done|done|congruence..].
    + exists q. rewrite app_nil_r. done.
Qed.

Lemma takeLocked_rep q l dst max : rep q l ->
  exists q', takeLocked q dst max =
      Ret (q', match l with [] => if q_closed q then Some (dst, false) else None
               | _ => Some (dst ++ batch l 0 max, true) end)
  /\ rep q' (drop (length (batch l 0 max)) l) /\ q_closed q' = q_closed q /\ q_ready q' = q_ready q.
Proof.
  intros Hrep. unfold takeLocked. pose proof Hrep as (_ & Hc & _). rewrite Hc. destruct l as [|p l].
  - exists q. destruct (q_closed q) eqn:E; done.
  - rewrite (proj2 (Z.ltb_lt _ _)) by (simpl; lia). rewrite Nat2Z.id.
    destruct (takeLoop_rep max (p :: l) q (S (length (p :: l))) 0 dst Hrep) as (q' & -> & H); [lia|].
    by exists q'.
Qed.

Lemma new_rep : rep newPacketQueue [].
Proof. unfold rep, newPacketQueue. cbn [q_ring q_head q_count q_bytes]. rewrite length_replicate. simpl. conjs; try done; lia. Qed.

Lemma batch_prefix l : forall size max, l = batch l size max ++ drop (length (batch l size max)) l.
Proof.
  induction l as [|p l IH]; intros size max; cbn [batch]; [done|]. destruct (_ || _); [|done].
  simpl. by rewrite <- IH.
Qed.

(** ** Sequences of calls *)

Inductive call :=
  | CallPush (packet : bytes)
  | CallTake (max : Z)
  | CallClose.

Inductive answer :=
  | Dropped (n : Z)
  | Taken (r : option (list bytes * bool))
  | Closed.

Section Calls.

Context (limit : Z).

Definition exec (q : packetQueue) (c : call) : go (packetQueue * answer) :=
  match c with
  | CallPush packet => '(q, n) ← push q packet limit; Ret (q, Dropped n)
  | CallTake max => '(q, r) ← takeLocked q [] max; Ret (q, Taken r)
  | CallClose => Ret (closeQueue q, Closed)
  end.

Fixpoint execAll (q : packetQueue) (cs : list call) : go (packetQueue * list answer) :=
  match cs with
  | [] => Ret (q, [])
  | c :: cs => '(q, a) ← exec q c; '(q, l) ← execAll q cs; Ret (q, a :: l)
  end.

(** The same calls on a list and a flag. *)
Definition specExec (s : list bytes * bool) (c : call) : list bytes * bool * answer :=
  let '(l, closed) := s in
  match c with
  | CallPush packet => let '(l', dropped, _) := specPush l packet limit in (l', closed, Dropped dropped)
  | CallTake max =>
      match l with
      | [] => (l, closed, Taken (if closed then Some ([], false) else None))
      | _ => (drop (length (batch l 0 max)) l, closed, Taken (Some (batch l 0 max, true)))
      end
  | CallClose => (l, true, Closed)
  end.

Fixpoint specExecAll (s : list bytes * bool) (cs : list call) : list bytes * bool * list answer :=
  match cs with
  | [] => (s, [])
  | c :: cs =>
      let '(s, a) := specExec s c in
      let '(s, l) := specExecAll s cs in
      (s, a :: l)
  end.

Lemma exec_rep q l c : rep q l -> let '(l', closed', a) := specExec (l, q_closed q) c in
  exists q', exec q c = Ret (q', a) /\ rep q' l' /\ q_closed q' = closed'.
Proof.
  intros Hrep. destruct c as [packet|max|]; cbn [specExec exec].
  - pose proof (push_rep q l packet limit Hrep) as H. destruct (specPush l packet limit) as [[l' dropped] signal].
    destruct H as (q' & -> & Hrep' & Hcl). by exists q'.
  - destruct (takeLocked_rep q l [] max Hrep) as (q' & -> & Hrep' & Hcl & _). cbn [mbind go_bind].
    destruct l as [|p l]; exists q'; [by destruct (q_closed q)|done].
  - by exists (closeQueue q).
Qed.

Lemma execAll_rep cs : forall q l, rep q l -> let '(l', closed', answers) := specExecAll (l, q_closed q) cs in
  exists q', execAll q cs = Ret (q', answers) /\ rep q' l' /\ q_closed q' = closed'.
Proof.
  induction cs as [|c cs IH]; intros q l Hrep; cbn [specExecAll execAll]; [by exists q|].
  pose proof (exec_rep q l c Hrep) as H. destruct (specExec (l, q_closed q) c) as [[l1 closed1] a].
  destruct H as (q1 & -> & Hrep1 & <-). cbn [mbind go_bind]. specialize (IH q1 l1 Hrep1).
  destruct (specExecAll (l1, q_closed q1) cs) as [[l2 closed2] answers].
  destruct IH as (q2 & -> & Hrep2 & Hcl2). by exists q2.
Qed.

End Calls.

(** What went in, what was delivered and how much was dropped. *)
Definition pushed (cs : list call) : list bytes :=
  concat ((fun c => match c with CallPush p => [p] | _ => [] end) <$> cs).
Definition delivered (answers : list answer) : list bytes :=
  concat ((fun a => match a with Taken (Some (l, _)) => l | _ => [] end) <$> answers).
Definition droppedBytes (answers : list answer) : Z :=
  foldr (fun a n => match a with Dropped k => k + n | _ => n end) 0 answers.

Lemma specPush_facts l packet limit : 0 <= limit -> let '(l', dropped, _) := specPush l packet limit in
  l' `sublist_of` l ++ [packet] /\ len (concat l') <= limit
  /\ len (concat l) + len packet = dropped + len (concat l')
  /\ (0 < dropped -> limit < len (concat l) + len packet).
Proof.
  intros Hlim. unfold specPush. destruct (shed_suffix l (len packet) limit) as [d Hd].
  pose proof (shed_le l (len packet) limit) as Hle.
  assert (len (concat l) + len packet <= limit -> shed l (len packet) limit = l) as Hsame.
  { intros. destruct l; [done|]. cbn [shed]. by rewrite (proj2 (Z.ltb_ge _ _)). }
  set (kept := shed l (len packet) limit) in *.
  assert (len (concat kept) <= len (concat l)) as Hk by (rewrite Hd, concat_app, length_app; lia).
  destruct (Z.ltb_spec limit (len packet)) as [Hbig|Hfits].
  - assert (kept = []) as -> by (destruct Hle as [?|?]; [lia|done]). simpl. conjs; [apply sublist_nil_l|lia..].
  - rewrite concat_app, length_app. simpl. rewrite app_nil_r. conjs.
    + apply sublist_app; [|done]. rewrite Hd. by apply sublist_inserts_l.
    + destruct Hle as [?| ->]; simpl; lia.
    + lia.
    + intros Hdrop. destruct (Z.le_gt_cases (len (concat l) + len packet) limit) as [Hroom|]; [|lia].
      rewrite (Hsame Hroom) in Hdrop. lia.
Qed.

Definition callBytes (c : call) : list bytes := match c with CallPush p => [p] | _ => [] end.
Definition answerBytes (a : answer) : list bytes :=
  match a with Taken (Some (l, _)) => l | _ => [] end.

Lemma specExec_facts limit l closed c : 0 <= limit -> len (concat l) <= limit ->
  let '(l', _, a) := specExec limit (l, closed) c in
  answerBytes a ++ l' `sublist_of` l ++ callBytes c /\ len (concat l') <= limit
  /\ len (concat l) + len (concat (callBytes c))
     = len (concat (answerBytes a)) + match a with Dropped k => k | _ => 0 end + len (concat l').
Proof.
  intros Hlim Hl. destruct c as [packet|max|]; cbn [specExec callBytes].
  - pose proof (specPush_facts l packet limit Hlim) as H.
    destruct (specPush l packet limit) as [[l' dropped] signal]. cbn [answerBytes]. simpl.
    rewrite app_nil_r. destruct H as (? & ? & ? & _). conjs; [done|lia..].
  - destruct l as [|p l]; [by destruct closed|]. cbn [answerBytes].
    pose proof (batch_prefix (p :: l) 0 max) as Hp. rewrite <- Hp, app_nil_r.
    set (b := batch (p :: l) 0 max) in *. set (r := drop (length b) (p :: l)) in *.
    rewrite Hp, concat_app, length_app in Hl |- *. simpl. conjs; [done|lia..].
  - simpl. rewrite app_nil_r. conjs; [done|lia..].
Qed.

Lemma specExecAll_facts limit cs : 0 <= limit -> forall l closed, len (concat l) <= limit ->
  let '(l', _, answers) := specExecAll limit (l, closed) cs in
  delivered answers ++ l' `sublist_of` l ++ pushed cs /\ len (concat l') <= limit
  /\ len (concat l) + len (concat (pushed cs))
     = len (concat (delivered answers)) + droppedBytes answers + len (concat l').
Proof.
  intros Hlim. induction cs as [|c cs IH]; intros l closed Hl; cbn [specExecAll].
  { unfold pushed, delivered. simpl. rewrite app_nil_r. conjs; [done|lia..]. }
  pose proof (specExec_facts limit l closed c Hlim Hl) as H.
  destruct (specExec limit (l, closed) c) as [[l1 closed1] a]. destruct H as (Hs & Hl1 & Hb).
  specialize (IH l1 closed1 Hl1). destruct (specExecAll limit (l1, closed1) cs) as [[l2 closed2] answers].
  destruct IH as (Hs2 & Hl2 & Hb2).
  change (pushed (c :: cs)) with (callBytes c ++ pushed cs).
  change (delivered (a :: answers)) with (answerBytes a ++ delivered answers).
  rewrite !concat_app, !length_app. conjs; [|done|destruct a; simpl in *; lia].
  rewrite <- (app_assoc (answerBytes a)). trans (answerBytes a ++ l1 ++ pushed cs); [by apply sublist_app|].
  rewrite !app_assoc. by apply sublist_app.
Qed.

(** ** Two goroutines

    The engine pushes and closes under its own lock, so it owes at most one
    notification at a time ([s_signal]); the writer is between two turns of
    [take], waits on the channel, or has ended. *)

Inductive writer := Checking | Waiting | Ended.

Record system := mkSystem {
  s_queue : packetQueue;
  s_signal : bool;
  s_writer : writer;
  s_written : list bytes
}.

Definition start : system := mkSystem newPacketQueue false Checking [].

(** The writer's steps. *)
Inductive writes : system -> system -> Prop :=
  | writes_batch q sig out q' packets :
      takeLocked q [] packetWriteBatchBytes = Ret (q', Some (packets, true)) ->
      writes (mkSystem q sig Checking out) (mkSystem q' sig Checking (out ++ packets))
  | writes_end q sig out q' packets :
      takeLocked q [] packetWriteBatchBytes = Ret (q', Some (packets, false)) ->
      writes (mkSystem q sig Checking out) (mkSystem q' sig Ended out)
  | writes_wait q sig out q' :
      takeLocked q [] packetWriteBatchBytes = Ret (q', None) ->
      writes (mkSystem q sig Checking out) (mkSystem q' sig Waiting out)
  | writes_wake q sig out : q_ready q = true ->
      writes (mkSystem q sig Waiting out) (mkSystem (receive q) sig Checking out).

(** The engine's steps, and a write that failed. *)
Inductive engine : system -> system -> Prop :=
  | engine_push q w out packet q' dropped sig :
      pushLocked q packet SubscriberBufferBytes = Ret (q', (dropped, sig)) ->
      engine (mkSystem q false w out) (mkSystem q' sig w out)
  | engine_close q w out : engine (mkSystem q false w out) (mkSystem (closeLocked q) true w out)
  | engine_notify q w out : engine (mkSystem q true w out) (mkSystem (notify q) false w out)
  | engine_fail q sig out : engine (mkSystem q sig Checking out) (mkSystem q sig Ended out).

Definition steps (s s' : system) : Prop := writes s s' \/ engine s s'.

Definition awake (s : system) : Prop :=
  exists l, rep (s_queue s) l
  /\ (s_writer s = Waiting -> l <> [] \/ q_closed (s_queue s) = true ->
      q_ready (s_queue s) = true \/ s_signal s = true).

Lemma start_awake : awake start.
Proof. exists []. split; [apply new_rep|done]. Qed.

Lemma writes_awake s s' : awake s -> writes s s' -> awake s'.
Proof.
  intros (l & Hrep & Hw) Hstep. unfold awake.
  destruct Hstep as [q sig out q' packets E|q sig out q' packets E|q sig out q' E|q sig out E];
    cbn [s_queue s_writer s_signal] in *.
  4:{ by exists l. }
  all: destruct (takeLocked_rep q l [] packetWriteBatchBytes Hrep) as (q1 & E1 & Hrep1 & Hcl & Hrd);
    rewrite E1 in E; simplify_eq.
  - eexists. split; [exact Hrep1|done].
  - eexists. split; [exact Hrep1|done].
  - exists []. destruct l; [|done]. destruct (q_closed q) eqn:Ec; [done|]. split; [done|]. intros _ [?|?]; congruence.
Qed.

Lemma engine_awake s s' : awake s -> engine s s' -> awake s'.
Proof.
  intros (l & Hrep & Hw) Hstep. unfold awake.
  destruct Hstep as [q w out packet q' dropped sig E|q w out|q w out|q sig out];
    cbn [s_queue s_writer s_signal] in *.
  - pose proof (pushLocked_rep q l packet SubscriberBufferBytes Hrep) as H. unfold specPush in H.
    destruct (SubscriberBufferBytes <? len packet) eqn:Ebig; destruct H as (q1 & E1 & Hrep1 & Hcl & Hrd);
      rewrite E1 in E; simplify_eq; (eexists; split; [exact Hrep1|]).
    + intros Hwait [Hne|Hclo].
      * left. rewrite Hrd. destruct (Hw Hwait) as [?|?]; [|done..]. left. intros ->. by apply Hne.
      * rewrite Hcl in Hclo. rewrite Hrd. destruct (Hw Hwait) as [?|?]; auto; done.
    + by right.
  - exists l. split; [done|]. by right.
  - exists l. split; [done|]. by left.
  - by exists l.
Qed.

Lemma steps_awake s : rtc steps start s -> awake s.
Proof.
  intros H. pattern s. revert s H. apply rtc_ind_r; [exact start_awake|].
  intros s1 s2 _ [H|H] IH; [by eapply writes_awake|by eapply engine_awake].
Qed.

(** One turn of [take] moves the oldest packet at least. *)
Lemma batch_cons p l max : exists b, batch (p :: l) 0 max = p :: b.
Proof. eexists. cbn [batch]. by change (0 =? 0) with true. Qed.

(** The writer alone empties the queue. *)
Lemma drains n : forall l q sig out, (length l < n)%nat -> rep q l -> exists q',
  rtc writes (mkSystem q sig Checking out) (mkSystem q' sig Checking (out ++ l)) /\ rep q' []
  /\ q_closed q' = q_closed q.
Proof.
  induction n as [|n IH]; intros l q sig out Hn Hrep; [lia|]. destruct l as [|p l].
  { exists q. rewrite app_nil_r. done. }
  destruct (takeLocked_rep q (p :: l) [] packetWriteBatchBytes Hrep) as (q1 & E1 & Hrep1 & Hcl & _).
  pose proof (batch_prefix (p :: l) 0 packetWriteBatchBytes) as Hp.
  destruct (batch_cons p l packetWriteBatchBytes) as [b Eb]. rewrite Eb in *. simpl in E1, Hrep1.
  simpl in Hp. simplify_eq.
  destruct (IH (drop (length b) l) q1 sig (out ++ p :: b)) as (q2 & Hsteps & Hrep2 & Hcl2).
  - rewrite length_drop. simpl in Hn. lia.
  - done.
  - exists q2. conjs; [|done|congruence]. eapply rtc_l; [by apply writes_batch|].
    rewrite <- app_assoc in Hsteps. simpl in Hsteps. by rewrite <- Hp in Hsteps.
Qed.

(** ** Properties *)

(** C22: the growing ring behaves as a list: every sequence of pushes, takes and
    a close, on a new queue with any budget, returns without a panic and gives
    the answers of the plain list that drops its oldest packets. *)
Theorem queue_is_a_list (limit : Z) (cs : list call) :
  returns (execAll limit newPacketQueue cs) (fun '(q, answers) =>
    let '(l, closed, expected) := specExecAll limit ([], false) cs in
    answers = expected /\ rep q l /\ q_closed q = closed).
Proof.
  pose proof (execAll_rep limit cs newPacketQueue [] new_rep) as H. cbn [newPacketQueue q_closed] in H.
  destruct (specExecAll limit ([], false) cs) as [[l closed] answers].
  destruct H as (q & -> & Hrep & Hcl). by exists (q, answers).
Qed.

(** The queue stays within its budget and accounts for every byte: after
    any calls it holds no more than [limit] bytes, what was delivered and what
    is still queued are packets that were pushed, in order, and the bytes
    pushed are those delivered, reported dropped and queued. *)
Theorem queue_accounts_for_every_byte (limit : Z) (Hlimit : 0 <= limit) (cs : list call) :
  returns (execAll limit newPacketQueue cs) (fun '(q, answers) =>
    0 <= q_bytes q <= limit
    /\ len (concat (pushed cs)) = len (concat (delivered answers)) + droppedBytes answers + q_bytes q
    /\ exists queued, rep q queued /\ delivered answers ++ queued `sublist_of` pushed cs).
Proof.
  pose proof (execAll_rep limit cs newPacketQueue [] new_rep) as H. cbn [newPacketQueue q_closed] in H.
  pose proof (specExecAll_facts limit cs Hlimit [] false Hlimit) as Hf.
  destruct (specExecAll limit ([], false) cs) as [[l closed] answers].
  destruct H as (q & -> & Hrep & _). destruct Hf as (Hs & Hl & Hb). simpl in Hb. exists (q, answers). split; [done|].
  assert (q_bytes q = len (concat l)) as -> by apply Hrep. conjs; [lia..|]. by exists l.
Qed.

(** Three packets of two bytes against a budget of five: the first is dropped
    by the third. *)
Lemma queue_accounts_for_every_byte_witness :
  0 <= 5 /\ returns (execAll 5 newPacketQueue [CallPush [1; 2]; CallPush [3; 4]; CallPush [5; 6]; CallTake 2])
    (fun '(q, answers) => answers = [Dropped 0; Dropped 0; Dropped 2; Taken (Some ([[3; 4]], true))]
       /\ 0 <= q_bytes q <= 5).
Proof.
  split; [lia|].
  destruct (queue_accounts_for_every_byte 5 ltac:(lia)
    [CallPush [1; 2]; CallPush [3; 4]; CallPush [5; 6]; CallTake 2]) as ([q answers] & E & Hb & _).
  exists (q, answers). split; [exact E|]. vm_compute in E. injection E as <- <-. split; [reflexivity|exact Hb].
Defined.

(** C23: no packet is stranded.  In every state that interleaved pushes, closes,
    notifications and writer turns reach from the start, a writer that waits
    although the queue is closed or holds packets is about to be woken; and as
    soon as the engine owes no notification, a writer that has not ended
    delivers everything queued, in order, by its own steps, and ends if the
    queue is closed. *)
Theorem no_packet_is_stranded (s : system) (Hs : rtc steps start s) :
  exists queued, rep (s_queue s) queued
  /\ (s_writer s = Waiting -> queued <> [] \/ q_closed (s_queue s) = true ->
      q_ready (s_queue s) = true \/ s_signal s = true)
  /\ (s_signal s = false -> s_writer s <> Ended ->
      exists s', rtc writes s s' /\ s_written s' = s_written s ++ queued /\ rep (s_queue s') []
      /\ (q_closed (s_queue s) = true -> s_writer s' = Ended)).
Proof.
  destruct (steps_awake s Hs) as (l & Hrep & Hw). exists l. conjs; [done..|].
  intros Hsig Hne. destruct s as [q sig w out]. cbn [s_queue s_signal s_writer s_written] in *. subst sig.
  assert (forall q out, rep q l -> exists s', rtc writes (mkSystem q false Checking out) s'
    /\ s_written s' = out ++ l /\ rep (s_queue s') [] /\ (q_closed q = true -> s_writer s' = Ended)) as Hcheck.
  { clear. intros q out Hrep. destruct (drains (S (length l)) l q false out) as (q1 & Hsteps & Hrep1 & Hcl); [lia|done|].
    destruct (q_closed q) eqn:Ec.
    - destruct (takeLocked_rep q1 [] [] packetWriteBatchBytes Hrep1) as (q2 & E2 & Hrep2 & _). rewrite Hcl in E2.
      exists (mkSystem q2 false Ended (out ++ l)). conjs; [|done..].
      eapply rtc_r; [exact Hsteps|]. by eapply writes_end.
    - by exists (mkSystem q1 false Checking (out ++ l)). }
  destruct w; [by apply Hcheck| |done].
  destruct (decide (l <> [] \/ q_closed q = true)) as [Hwork|Hidle].
  - destruct (Hw eq_refl Hwork) as [Hready|]; [|done]. destruct (Hcheck (receive q) out Hrep) as (s' & Hsteps & H).
    exists s'. split; [|exact H]. eapply rtc_l; [by apply writes_wake|done].
  - exists (mkSystem q false Waiting out). destruct l; [|by destruct Hidle; left].
    rewrite app_nil_r. conjs; [done|done|done|]. intros Hc. by destruct Hidle; right.
Qed.

(** A push while the writer waits. *)
Lemma no_packet_is_stranded_witness :
  exists s, rtc steps start s /\ s_writer s = Waiting /\ q_count (s_queue s) = 1
  /\ exists s', rtc writes s s' /\ s_written s' = [[7; 8; 9]].
Proof.
  assert (exists q, takeLocked newPacketQueue [] packetWriteBatchBytes = Ret (q, None)) as [q1 E1] by (eexists; reflexivity).
  assert (q1 = newPacketQueue) as -> by (vm_compute in E1; injection E1 as <-; reflexivity).
  destruct (pushLocked newPacketQueue [7; 8; 9] SubscriberBufferBytes) as [[q2 [d sig]]| | |] eqn:E2; try discriminate E2.
  assert (sig = true /\ q_count q2 = 1) as [-> Hc]
    by (vm_compute in E2; injection E2 as <- <- <-; split; reflexivity).
  set (s := mkSystem (notify q2) false Waiting []).
  assert (rtc steps start s) as Hs.
  { eapply rtc_l; [left; by apply (writes_wait newPacketQueue false [])|].
    eapply rtc_l; [right; by apply (engine_push _ _ _ [7; 8; 9] q2 d true)|].
    apply rtc_once. right. apply engine_notify. }
  destruct (no_packet_is_stranded s Hs) as (queued & Hrep & _ & H).
  exists s. conjs; [exact Hs|reflexivity|exact Hc|].
  destruct (H eq_refl) as (s' & Hw & Hout & _); [discriminate|]. exists s'. split; [exact Hw|].
  rewrite Hout. cbn [s s_written app]. destruct Hrep as (_ & Hcount & _ & <- & _).
  assert (length queued = 1%nat) as -> by (cbn [s s_queue notify q_count] in Hcount; lia).
  vm_compute in E2. injection E2 as <- _. reflexivity.
Defined.
