(* ===== verification/Fanout.v ===== *)
(** * The fan-out engine (internal/stream/fanout/engine.go, subscription.go, transport.go)

    [Engine] reads packets from one source and fans them out to packet
    subscribers, each with its own filter and byte-bounded queue, and the
    signaling they complete to section subscribers.  It starts with the first
    subscriber and stops for good after the last one left.  What differs per
    system is the interface [Transport]; [tsTransport] is its instance for
    MPEG-2 TS. *)

From S2P Require Import Prelude Packet Section Demux StreamDemux PacketQueue.

(** ** The interface *)

(** [T] is the state the engine's calls share, [U] a unit of signaling, [F] a
    filter and [D] a drop detector.  A detector that a filter supplied may ask
    that filter, so [Observe] is given the subscriber's filter. *)
Record Drop := mkFanoutDrop {
  dr_Sequence : Z;
  dr_Expected : Z;
  dr_Actual : Z
}.

Class Transport (T U F D : Type) := {
  Feed : T -> bytes -> go (T * list U);
  NewFilter : T -> Z -> F;
  FilterPacket : T -> F -> bytes -> go (F * option bytes);
  NewDropDetector : D;
  FilterDropDetector : F -> option D;
  Observe : option F -> D -> bytes -> go (D * option Drop)
}.

(** What the engine relies on: on the packets its reader delivers, the
    operations return or report an error, and keep the transport's own
    invariants. *)
Class TransportLaws {T U F D} (transport : Transport T U F D) := {
  packet_valid : bytes -> Prop;
  transport_ok : T -> Prop;
  filter_ok : F -> Prop;
  detector_ok : D -> Prop;
  Feed_ok t p : transport_ok t -> packet_valid p -> wp (Feed t p) (fun '(t', _) => transport_ok t');
  NewFilter_ok t sid : transport_ok t -> filter_ok (NewFilter t sid);
  FilterPacket_ok t f p : transport_ok t -> filter_ok f -> packet_valid p ->
    wp (FilterPacket t f p) (fun '(f', out) => filter_ok f' /\ forall o, out = Some o -> packet_valid o);
  NewDropDetector_ok : detector_ok NewDropDetector;
  FilterDropDetector_ok f d : filter_ok f -> FilterDropDetector f = Some d -> detector_ok d;
  Observe_ok f d p : detector_ok d -> packet_valid p ->
    wp (Observe f d p) (fun '(d', _) => detector_ok d') /\ errorless (Observe f d p)
}.

(** ** MPEG-2 TS (internal/stream/demux/demuxer.go)

    [range] is the order in which Go visits a map. *)

Record serviceFilter := mkServiceFilter {
  sf_serviceID : Z;
  sf_service : ServiceDemux
}.

Definition tsFilterPacket (demux : Demuxer) (f : serviceFilter) (packet : bytes) : go (serviceFilter * option bytes) :=
  '(service, out) ← filterPacket demux (sf_serviceID f) (sf_service f) packet;
  Ret (mkServiceFilter (sf_serviceID f) service, out).

(** [Sequence] is the text ["pid=0x%04X"], kept as the PID it shows. *)
Definition tsObserve (m : continuityMonitor) (packet : bytes) : go (continuityMonitor * option Drop) :=
  '(m, gap) ← observe m packet;
  Ret (m, option_map (fun d => mkFanoutDrop (cd_PID d) (cd_ExpectedCounter d) (cd_ActualCounter d)) gap).

Definition tsTransport (range : gmap Z Z -> list (Z * Z)) :
    Transport Demuxer PIDSection serviceFilter continuityMonitor := {|
  Feed := FeedWithPID range;
  NewFilter := fun _ serviceID => mkServiceFilter serviceID (Service serviceID);
  FilterPacket := tsFilterPacket;
  NewDropDetector := newMonitor;
  FilterDropDetector := fun _ => None;
  Observe := fun _ => tsObserve
|}.

Definition tsFilter_ok (f : serviceFilter) : Prop :=
  sd_serviceID (sf_service f) = sf_serviceID f /\ output_ok (sf_serviceID f) (sd_output (sf_service f)).

Lemma tsFilterPacket_ok d f p : demux_ok d -> tsFilter_ok f -> bytes_ok p ->
  wp (tsFilterPacket d f p) (fun '(f', out) => tsFilter_ok f' /\ forall o, out = Some o -> bytes_ok o).
Proof.
  intros Hd [Hs Ho] Hp. unfold tsFilterPacket, filterPacket. apply wp_bind. wp_case E; [done|].
  unfold Packet_. rewrite Hs.
  destruct (servicePacket_step d _ (sd_output (sf_service f)) p Hd Ho Hp) as ([o r] & -> & Ho' & _ & Hr).
  cbn [mbind go_bind]. apply wp_ret, wp_ret. split; [done|]. intros q ->.
  destruct (pidOf p =? PIDPAT); [|by destruct Hr as [_ ->]].
  destruct Hr as (_ & tsid & pid & v & ? & ? & ? & ? & ->).
  destruct (patPacket_view tsid (sf_serviceID f) pid v (so_patCounter (sd_output (sf_service f)))) as ([_ ?] & _); [done..|apply Ho|done].
Qed.

Lemma tsObserve_eq m p : bytes_ok p -> exists r, tsObserve m p = Ret r.
Proof.
  intros Hb. unfold tsObserve. rewrite observe_eq by done. cbn [mbind go_bind].
  destruct (if watched p then _ else _) as [m' drop]. by eexists.
Qed.

#[global] Instance tsLaws range (Hrange : forall m, range m ≡ₚ map_to_list m) : TransportLaws (tsTransport range).
Proof.
  refine {| packet_valid := bytes_ok; transport_ok := fun d => demux_ok d /\ follows d;
            filter_ok := tsFilter_ok; detector_ok := fun _ => True |}.
  - intros d p [Hd Hf] Hp. eapply wp_mono; [by apply (FeedWithPID_spec range Hrange)|]. by intros [d' r] (? & ? & _).
  - intros d sid _. split; [done|apply emptyOutput_ok].
  - intros d f p [Hd _] Hfil Hp. by apply tsFilterPacket_ok.
  - done.
  - done.
  - intros f m p _ Hp. destruct (tsObserve_eq m p Hp) as [[m' r] E]. cbn [Observe tsTransport]. rewrite E. done.
Defined.

(** ** State *)

Definition sectionSubscriberBuffer : Z := 512.

(** The subscriptions of one kind.  [ro_subs] is the memory the pointers point
    to: every subscription that was ever attached, by its id; [ro_map] are the
    keys of the engine's map and [ro_list] the ids of its ordered entries. *)
Record roster (A : Type) := mkRoster {
  ro_subs : gmap Z A;
  ro_map : gset Z;
  ro_list : list Z
}.
Arguments mkRoster {A} _ _ _.
Arguments ro_subs {A} _.
Arguments ro_map {A} _.
Arguments ro_list {A} _.

Definition noSubs {A} : roster A := mkRoster ∅ ∅ [].

(** [subs[id] = sub; list = append(list, ...)]. *)
Definition enter {A} (r : roster A) (id : Z) (sub : A) : roster A :=
  mkRoster (<[id := sub]> (ro_subs r)) (ro_map r ∪ {[id]}) (ro_list r ++ [id]).

(** A write through the pointer. *)
Definition store {A} (r : roster A) (id : Z) (sub : A) : roster A :=
  mkRoster (<[id := sub]> (ro_subs r)) (ro_map r) (ro_list r).

(** [delete(subs, id); list = slices.DeleteFunc(list, ...)]. *)
Definition leave {A} (r : roster A) (id : Z) : roster A :=
  mkRoster (ro_subs r) (ro_map r ∖ {[id]}) (filter (fun x => x <> id) (ro_list r)).

(** [subs[id]], [nil] when it is not in the map. *)
Definition lookupSub {A} (r : roster A) (id : Z) : option A :=
  if bool_decide (id ∈ ro_map r) then ro_subs r !! id else None.

(** [entry.sub], which is never [nil]. *)
Definition deref {A} (r : roster A) (id : Z) : go A :=
  match ro_subs r !! id with Some sub => Ret sub | None => Panic end.

(** [close(c)] of a channel that is closed panics. *)
Definition closeChan (closed : bool) : go bool := if closed then Panic else Ret true.

Section Engine.

Context {T U F D W : Type} `{transport : !Transport T U F D}.

Record packetSubscription := mkPacketSub {
  ps_drops : D;
  ps_done : bool;
  ps_err : list error;
  ps_filter : option F;
  ps_finished : bool;
  ps_queue : packetQueue;
  ps_stats : Z * Z;
  ps_dropping : bool;
  ps_droppedBytes : Z
}.

Record sectionSubscription := mkSectionSub {
  ss_accept : option (U -> bool);
  ss_done : bool;
  ss_err : list error;
  ss_finished : bool;
  ss_queue : list U;
  ss_queueClosed : bool
}.

(** [lf_started] also says that [cancel] is set, [lf_canceled] that it was
    called; [lf_closers] counts the goroutines that will run [close(nil)] and
    [lf_running] says that the [run] goroutine is reading; [lf_closed] that
    [stopOnce] ran, after which [done] is closed.  An error that
    [errors.Join] may combine is the list of its parts. *)
Record life := mkLife {
  lf_started : bool;
  lf_canceled : bool;
  lf_stopped : bool;
  lf_err : list error;
  lf_closers : nat;
  lf_running : bool;
  lf_closed : bool
}.

(** The hooks act on a state [W] of their owners. *)
Record Engine := mkEngine {
  e_transport : T;
  e_drops : D;
  e_world : W;
  e_onPackets : list (W -> bytes -> W);
  e_onSections : list (W -> U -> W);
  e_nextID : Z;
  e_packets : roster packetSubscription;
  e_sections : roster sectionSubscription;
  e_life : life
}.

Definition New (t : T) (w : W) (onPackets : list (W -> bytes -> W)) (onSections : list (W -> U -> W)) : Engine :=
  mkEngine t NewDropDetector w onPackets onSections 0 noSubs noSubs (mkLife false false false [] 0 false false).

Definition WithPackets (e : Engine) (hooks : list (W -> bytes -> W)) : Engine :=
  mkEngine (e_transport e) (e_drops e) (e_world e) (e_onPackets e ++ hooks) (e_onSections e) (e_nextID e)
    (e_packets e) (e_sections e) (e_life e).
Definition WithSections (e : Engine) (hooks : list (W -> U -> W)) : Engine :=
  mkEngine (e_transport e) (e_drops e) (e_world e) (e_onPackets e) (e_onSections e ++ hooks) (e_nextID e)
    (e_packets e) (e_sections e) (e_life e).

Definition setPackets (e : Engine) (r : roster packetSubscription) : Engine :=
  mkEngine (e_transport e) (e_drops e) (e_world e) (e_onPackets e) (e_onSections e) (e_nextID e) r (e_sections e) (e_life e).
Definition setSections (e : Engine) (r : roster sectionSubscription) : Engine :=
  mkEngine (e_transport e) (e_drops e) (e_world e) (e_onPackets e) (e_onSections e) (e_nextID e) (e_packets e) r (e_life e).
Definition setLife (e : Engine) (l : life) : Engine :=
  mkEngine (e_transport e) (e_drops e) (e_world e) (e_onPackets e) (e_onSections e) (e_nextID e) (e_packets e) (e_sections e) l.
Definition setWorld (e : Engine) (w : W) : Engine :=
  mkEngine (e_transport e) (e_drops e) w (e_onPackets e) (e_onSections e) (e_nextID e) (e_packets e) (e_sections e) (e_life e).
Definition setNextID (e : Engine) (n : Z) : Engine :=
  mkEngine (e_transport e) (e_drops e) (e_world e) (e_onPackets e) (e_onSections e) n (e_packets e) (e_sections e) (e_life e).
Definition setTransport (e : Engine) (t : T) : Engine :=
  mkEngine t (e_drops e) (e_world e) (e_onPackets e) (e_onSections e) (e_nextID e) (e_packets e) (e_sections e) (e_life e).
Definition setDrops (e : Engine) (d : D) : Engine :=
  mkEngine (e_transport e) d (e_world e) (e_onPackets e) (e_onSections e) (e_nextID e) (e_packets e) (e_sections e) (e_life e).

(** ** Attaching *)

Definition startLocked (e : Engine) : Engine :=
  let l := e_life e in
  if lf_started l then e
  else setLife e (mkLife true false (lf_stopped l) (lf_err l) (lf_closers l) true (lf_closed l)).

Definition newPacketSub (e : Engine) (serviceID : option Z) : packetSubscription :=
  let filter := NewFilter (e_transport e) <$> serviceID in
  let drops := default NewDropDetector (filter ≫= FilterDropDetector) in
  mkPacketSub drops false [] filter false newPacketQueue (0, 0) false 0.

Definition attachPacket (e : Engine) (serviceID : option Z) : go (Engine * Z) :=
  if lf_stopped (e_life e) then Err ErrStopped
  else
    let id := e_nextID e in
    let e := setNextID e (u64 (id + 1)) in
    let sub := newPacketSub e serviceID in
    let e := setPackets e (enter (e_packets e) id sub) in
    Ret (startLocked e, id).

Definition attachSection (e : Engine) (accept : option (U -> bool)) (start : bool) : go (Engine * Z) :=
  if lf_stopped (e_life e) then Err ErrStopped
  else
    let id := e_nextID e in
    let e := setNextID e (u64 (id + 1)) in
    let sub := mkSectionSub accept false [] false [] false in
    let e := setSections e (enter (e_sections e) id sub) in
    Ret (if start then startLocked e else e, id).

(** ** Finishing *)

Definition cancelIfEmptyLocked (e : Engine) : Engine :=
  if bool_decide (ro_map (e_packets e) = ∅) && bool_decide (ro_map (e_sections e) = ∅) then
    let l := e_life e in
    setLife e (if lf_started l
               then mkLife true true true (lf_err l) (lf_closers l) (lf_running l) (lf_closed l)
               else mkLife false (lf_canceled l) true (lf_err l) (S (lf_closers l)) (lf_running l) (lf_closed l))
  else e.

Definition finishPacketLocked (e : Engine) (id : Z) (err : list error) : go Engine :=
  match lookupSub (e_packets e) id with
  | None => Ret e
  | Some sub =>
      if ps_finished sub then Ret e
      else
        done ← closeChan (ps_done sub);
        let sub := mkPacketSub (ps_drops sub) done err (ps_filter sub) true (closeQueue (ps_queue sub))
                     (ps_stats sub) (ps_dropping sub) (ps_droppedBytes sub) in
        Ret (cancelIfEmptyLocked (setPackets e (leave (store (e_packets e) id sub) id)))
  end.

Definition finishSectionLocked (e : Engine) (id : Z) (err : list error) : go Engine :=
  match lookupSub (e_sections e) id with
  | None => Ret e
  | Some sub =>
      if ss_finished sub then Ret e
      else
        queueClosed ← closeChan (ss_queueClosed sub);
        done ← closeChan (ss_done sub);
        let sub := mkSectionSub (ss_accept sub) done err true (ss_queue sub) queueClosed in
        Ret (cancelIfEmptyLocked (setSections e (leave (store (e_sections e) id sub) id)))
  end.

(** [for len(e.packetSubs) > 0 { e.finishPacketLocked(e.packetSubs[0].id, err) }] *)
Definition finishPackets (err : list error) (e : Engine) : go (iteration Engine Engine) :=
  match ro_list (e_packets e) with
  | [] => Ret (Break e)
  | id :: _ => e ← finishPacketLocked e id err; Ret (Continue e)
  end.
Definition finishSections (err : list error) (e : Engine) : go (iteration Engine Engine) :=
  match ro_list (e_sections e) with
  | [] => Ret (Break e)
  | id :: _ => e ← finishSectionLocked e id err; Ret (Continue e)
  end.

Definition markClosed (e : Engine) : Engine :=
  let l := e_life e in
  setLife e (mkLife (lf_started l) (lf_canceled l) (lf_stopped l) (lf_err l) (lf_closers l) (lf_running l) true).

Definition closeEngine (e : Engine) (err : list error) : go Engine :=
  let l := e_life e in
  if lf_closed l then Ret e
  else
    let e := setLife e (mkLife (lf_started l) (lf_canceled l) true err (lf_closers l) (lf_running l) false) in
    e ← loop (S (length (ro_list (e_packets e)))) (finishPackets err) e;
    e ← loop (S (length (ro_list (e_sections e)))) (finishSections err) e;
    Ret (markClosed e).

(** [Stop], up to its wait for [done]. *)
Definition Stop (e : Engine) : go Engine :=
  let l := e_life e in
  if lf_stopped l then Ret e
  else
    let l := mkLife (lf_started l) (lf_canceled l) true (lf_err l) (lf_closers l) (lf_running l) (lf_closed l) in
    if negb (lf_started l) then closeEngine (setLife e l) []
    else Ret (setLife e (mkLife true true true (lf_err l) (lf_closers l) (lf_running l) (lf_closed l))).

(** A goroutine started by [cancelIfEmptyLocked]. *)
Definition runCloser (e : Engine) : go Engine :=
  let l := e_life e in
  closeEngine (setLife e (mkLife (lf_started l) (lf_canceled l) (lf_stopped l) (lf_err l)
                            (pred (lf_closers l)) (lf_running l) (lf_closed l))) [].

(** ** Dispatching *)

Definition enqueueLocked (sub : packetSubscription) (packet : bytes) : go packetSubscription :=
  '(q, dropped) ← push (ps_queue sub) packet SubscriberBufferBytes;
  let with_queue := mkPacketSub (ps_drops sub) (ps_done sub) (ps_err sub) (ps_filter sub) (ps_finished sub) q (ps_stats sub) in
  Ret (if 0 <? dropped then with_queue true (ps_droppedBytes sub + dropped)
       else if ps_dropping sub then with_queue false 0
       else with_queue false (ps_droppedBytes sub)).

Definition setFilter (sub : packetSubscription) (f : F) : packetSubscription :=
  mkPacketSub (ps_drops sub) (ps_done sub) (ps_err sub) (Some f) (ps_finished sub) (ps_queue sub)
    (ps_stats sub) (ps_dropping sub) (ps_droppedBytes sub).

(** One turn of the loop over [packetSubs]; [i] is left as it is when the
    subscription was removed. *)
Definition packetTurn (packet : bytes) (s : Engine * Z) : go (iteration (Engine * Z) Engine) :=
  let '(e, i) := s in
  if negb (i <? len (ro_list (e_packets e))) then Ret (Break e)
  else
    id ← idx (ro_list (e_packets e)) i;
    sub ← deref (e_packets e) id;
    let enqueue sub out :=
      sub ← enqueueLocked sub out;
      Ret (Continue (setPackets e (store (e_packets e) id sub), i + 1)) in
    match ps_filter sub with
    | Some f =>
        orElse (FilterPacket (e_transport e) f packet)
          (fun err => e ← finishPacketLocked e id [err]; Ret (Continue (e, i)))
          (fun '(f, filtered) =>
             match filtered with
             | None => Ret (Continue (setPackets e (store (e_packets e) id (setFilter sub f)), i + 1))
             | Some out => enqueue (setFilter sub f) out
             end)
    | None => enqueue sub packet
    end.

(** One turn of the loop over [sectionSubs]: [select] sends if the channel has
    room; a send on a closed channel panics. *)
Definition sectionTurn (section : U) (s : Engine * Z) : go (iteration (Engine * Z) Engine) :=
  let '(e, i) := s in
  if negb (i <? len (ro_list (e_sections e))) then Ret (Break e)
  else
    id ← idx (ro_list (e_sections e)) i;
    sub ← deref (e_sections e) id;
    if match ss_accept sub with Some accept => negb (accept section) | None => false end
    then Ret (Continue (e, i + 1))
    else if ss_queueClosed sub then Panic
    else if len (ss_queue sub) <? sectionSubscriberBuffer then
      let sub := mkSectionSub (ss_accept sub) (ss_done sub) (ss_err sub) (ss_finished sub)
                   (ss_queue sub ++ [section]) (ss_queueClosed sub) in
      Ret (Continue (setSections e (store (e_sections e) id sub), i + 1))
    else
      e ← finishSectionLocked e id [ErrSubscriberOverflow];
      Ret (Continue (e, i)).

Definition dispatchPacket (e : Engine) (packet : bytes) : go Engine :=
  let e := setWorld e (foldl (fun w hook => hook w packet) (e_world e) (e_onPackets e)) in
  loop (S (length (ro_list (e_packets e)))) (packetTurn packet) (e, 0).

Definition dispatchSection (e : Engine) (section : U) : go Engine :=
  let e := setWorld e (foldl (fun w hook => hook w section) (e_world e) (e_onSections e)) in
  loop (S (length (ro_list (e_sections e)))) (sectionTurn section) (e, 0).

Fixpoint dispatchSections (e : Engine) (sections : list U) : go Engine :=
  match sections with
  | [] => Ret e
  | section :: sections => e ← dispatchSection e section; dispatchSections e sections
  end.

Definition dispatchLocked (e : Engine) (packet : bytes) (sections : list U) : go Engine :=
  e ← dispatchPacket e packet;
  dispatchSections e sections.

(** ** The source's goroutine *)

(** The end of [run]: the source returned [sourceErr]. *)
Definition runEnd (e : Engine) (runErr : list error) (sourceErr : option error) : go Engine :=
  let l := e_life e in
  let join := match sourceErr with
              | Some err => if lf_canceled l || bool_decide (err = ErrClosedPipe) then [] else [err]
              | None => []
              end in
  let e := setLife e (mkLife (lf_started l) (lf_canceled l) (lf_stopped l) (lf_err l) (lf_closers l) false (lf_closed l)) in
  closeEngine e (runErr ++ join).

(** One turn of [run]: what [reader.Next] returned. *)
Definition runTurn (e : Engine) (next : bytes + error) (sourceErr : option error) : go Engine :=
  match next with
  | inr err =>
      runEnd e (if bool_decide (err = ErrEOF) || lf_canceled (e_life e) then [] else [err]) sourceErr
  | inl packet =>
      '(drops, _) ← Observe None (e_drops e) packet;
      let e := setDrops e drops in
      orElse (Feed (e_transport e) packet)
        (fun err => runEnd e [err] sourceErr)
        (fun '(t, sections) => dispatchLocked (setTransport e t) packet sections)
  end.

(** ** The subscribers' goroutines *)

(** The statistics of a batch.  The detector sees the filter as it is when the
    batch is written. *)
Fixpoint observeBatch (filter : option F) (drops : D) (stats : Z * Z) (batch : list bytes) : go (D * (Z * Z)) :=
  match batch with
  | [] => Ret (drops, stats)
  | packet :: batch =>
      '(drops, drop) ← Observe filter drops packet;
      observeBatch filter drops (stats.1 + 1, match drop with Some _ => stats.2 + 1 | None => stats.2 end) batch
  end.

Definition setWritten (sub : packetSubscription) (q : packetQueue) (drops : D) (stats : Z * Z) : packetSubscription :=
  mkPacketSub drops (ps_done sub) (ps_err sub) (ps_filter sub) (ps_finished sub) q stats
    (ps_dropping sub) (ps_droppedBytes sub).

(** One turn of [writePackets]: the bytes written and whether the goroutine
    goes on.  [write] is what [dst.Write] does: the count it returns or an
    error. *)
Definition writePacketsTurn (e : Engine) (id : Z) (write : bytes -> Z + error) : go (Engine * bytes * bool) :=
  sub ← deref (e_packets e) id;
  '(q, r) ← takeLocked (ps_queue sub) [] packetWriteBatchBytes;
  match r with
  | None => Ret (setPackets e (store (e_packets e) id (setWritten sub q (ps_drops sub) (ps_stats sub))), [], true)
  | Some (_, false) => Ret (e, [], false)
  | Some (packets, true) =>
      '(drops, stats) ← observeBatch (ps_filter sub) (ps_drops sub) (ps_stats sub) packets;
      let e := setPackets e (store (e_packets e) id (setWritten sub q drops stats)) in
      let buf := concat packets in
      let err := match write buf with
                 | inl n => if negb (n =? len buf) then Some ErrShortWrite else None
                 | inr err => Some err
                 end in
      match err with
      | Some err => e ← finishPacketLocked e id [err]; Ret (e, buf, false)
      | None => Ret (e, buf, true)
      end
  end.

(** One turn of [writeSections]. *)
Definition writeSectionsTurn (e : Engine) (id : Z) (observe : U -> option error) : go (Engine * bool) :=
  sub ← deref (e_sections e) id;
  match ss_queue sub with
  | [] => Ret (e, negb (ss_queueClosed sub))
  | section :: queue =>
      let sub := mkSectionSub (ss_accept sub) (ss_done sub) (ss_err sub) (ss_finished sub) queue (ss_queueClosed sub) in
      let e := setSections e (store (e_sections e) id sub) in
      match observe section with
      | Some err => e ← finishSectionLocked e id [err]; Ret (e, false)
      | None => Ret (e, true)
      end
  end.

(** ** Invariants *)

Context `{laws : !TransportLaws transport}.

(** A roster: the map and the list hold the same ids, without repetition, and
    they are those of the subscriptions that have not finished. *)
Definition roster_ok {A} (finished : A -> bool) (next : Z) (r : roster A) : Prop :=
  ro_map r = list_to_set (ro_list r) /\ NoDup (ro_list r)
  /\ (forall id, id ∈ ro_list r -> is_Some (ro_subs r !! id))
  /\ (forall id a, ro_subs r !! id = Some a -> 0 <= id < next /\ (id ∈ ro_list r <-> finished a = false)).

Section Roster.
Context {A : Type} (finished : A -> bool).
Implicit Types (r : roster A).

Lemma noSubs_ok next : roster_ok finished next noSubs.
Proof. unfold roster_ok. cbn [ro_map ro_subs ro_list noSubs]. conjs; try done; [by apply NoDup_nil_2|set_solver]. Qed.

Lemma roster_mono next next' r : next <= next' -> roster_ok finished next r -> roster_ok finished next' r.
Proof. intros Hn (H1 & H2 & H3 & H4). unfold roster_ok. conjs; try done. intros id a Ha. destruct (H4 id a Ha). split; [lia|done]. Qed.

Lemma lookupSub_listed next r id : roster_ok finished next r -> id ∈ ro_list r ->
  exists a, ro_subs r !! id = Some a /\ lookupSub r id = Some a /\ finished a = false.
Proof.
  intros (H1 & H2 & H3 & H4) Hid. destruct (H3 id Hid) as [a Ha]. exists a.
  unfold lookupSub. rewrite bool_decide_eq_true_2 by set_solver. conjs; try done. by apply (H4 id a Ha).
Qed.

Lemma lookupSub_unlisted next r id : roster_ok finished next r -> id ∉ ro_list r -> lookupSub r id = None.
Proof. intros (H1 & _) Hid. unfold lookupSub. by rewrite bool_decide_eq_false_2 by set_solver. Qed.

Lemma enter_ok next r a : roster_ok finished next r -> 0 <= next -> finished a = false ->
  roster_ok finished (next + 1) (enter r next a).
Proof.
  intros (H1 & H2 & H3 & H4) Hn Ha. unfold roster_ok. cbn [enter ro_map ro_subs ro_list].
  assert (next ∉ ro_list r) as Hnew.
  { intros Hin. destruct (H3 _ Hin) as [b Hb]. destruct (H4 _ _ Hb). lia. }
  conjs.
  - rewrite H1, list_to_set_app_L. set_solver.
  - apply NoDup_app. conjs; [done|set_solver|apply NoDup_singleton].
  - intros id. rewrite elem_of_app, list_elem_of_singleton. destruct (decide (id = next)) as [->|Hne].
    + by rewrite lookup_insert_eq.
    + rewrite lookup_insert_ne by done. intros [?|?]; [by apply H3|done].
  - intros id b. rewrite elem_of_app, list_elem_of_singleton. destruct (decide (id = next)) as [->|Hne].
    + rewrite lookup_insert_eq. intros [= <-]. split; [lia|]. split; auto.
    + rewrite lookup_insert_ne by done. intros Hb. destruct (H4 id b Hb) as [? Hiff]. split; [lia|]. naive_solver.
Qed.

Lemma store_ok next r id a b : roster_ok finished next r -> ro_subs r !! id = Some a -> finished b = finished a ->
  roster_ok finished next (store r id b).
Proof.
  intros (H1 & H2 & H3 & H4) Ha Hf. unfold roster_ok. cbn [store ro_map ro_subs ro_list]. conjs; [done|done| |].
  - intros k Hk. destruct (decide (k = id)) as [->|]; [by rewrite lookup_insert_eq|rewrite lookup_insert_ne by done; auto].
  - intros k c. destruct (decide (k = id)) as [->|]; [|rewrite lookup_insert_ne by done; auto].
    rewrite lookup_insert_eq. intros [= <-]. rewrite Hf. auto.
Qed.

Lemma leave_ok next r id a b : roster_ok finished next r -> ro_subs r !! id = Some a -> finished b = true ->
  roster_ok finished next (leave (store r id b) id).
Proof.
  intros (H1 & H2 & H3 & H4) Ha Hf. unfold roster_ok. cbn [leave store ro_map ro_subs ro_list]. conjs.
  - rewrite H1. apply set_eq. intros k. rewrite elem_of_difference, !elem_of_list_to_set, list_elem_of_filter. set_solver.
  - by apply NoDup_filter.
  - intros k. rewrite list_elem_of_filter. intros [Hne Hk]. rewrite lookup_insert_ne by done. auto.
  - intros k c. rewrite list_elem_of_filter. destruct (decide (k = id)) as [->|].
    + rewrite lookup_insert_eq. intros [= <-]. split; [by apply (H4 id a)|]. rewrite Hf. naive_solver.
    + rewrite lookup_insert_ne by done. intros Hc. destruct (H4 k c Hc) as [? ?]. split; [done|]. naive_solver.
Qed.

Lemma roster_empty next r : roster_ok finished next r -> ro_map r = ∅ <-> ro_list r = [].
Proof.
  intros (-> & _). split; [|by intros ->]. destruct (ro_list r) as [|x l]; [done|]. intros H.
  exfalso. assert (x ∈ (∅ : gset Z)) as Hx by (rewrite <- H; set_solver). set_solver.
Qed.

End Roster.

Definition packetSub_ok (sub : packetSubscription) : Prop :=
  (exists l, rep (ps_queue sub) l /\ Forall packet_valid l) /\ q_closed (ps_queue sub) = ps_finished sub
  /\ ps_done sub = ps_finished sub /\ (forall f, ps_filter sub = Some f -> filter_ok f) /\ detector_ok (ps_drops sub).

Definition sectionSub_ok (sub : sectionSubscription) : Prop :=
  ss_queueClosed sub = ss_finished sub /\ ss_done sub = ss_finished sub
  /\ len (ss_queue sub) <= sectionSubscriberBuffer.

Record core_ok (e : Engine) : Prop := {
  c_transport : transport_ok (e_transport e);
  c_drops : detector_ok (e_drops e);
  c_next : 0 <= e_nextID e;
  c_packets : roster_ok ps_finished (e_nextID e) (e_packets e);
  c_sections : roster_ok ss_finished (e_nextID e) (e_sections e);
  c_packetSubs : map_Forall (fun _ => packetSub_ok) (ro_subs (e_packets e));
  c_sectionSubs : map_Forall (fun _ => sectionSub_ok) (ro_subs (e_sections e))
}.

(** Nobody is attached. *)
Definition idle (e : Engine) : Prop := ro_list (e_packets e) = [] /\ ro_list (e_sections e) = [].

Definition life_ok (e : Engine) : Prop :=
  let l := e_life e in
  (lf_running l = true -> lf_started l = true)
  /\ (lf_started l = true -> lf_running l = true \/ lf_closed l = true)
  /\ (lf_stopped l = true ->
      lf_closed l = true \/ (lf_started l = true /\ lf_canceled l = true) \/ (0 < lf_closers l)%nat)
  /\ (lf_closed l = true -> lf_stopped l = true /\ idle e)
  /\ (0 < e_nextID e -> idle e -> lf_stopped l = true).

(** What finishing a subscription does to the life cycle. *)
Lemma cancelIfEmpty_life e : core_ok e ->
  cancelIfEmptyLocked e = setLife e (e_life (cancelIfEmptyLocked e))
  /\ (let l := e_life e in let l' := e_life (cancelIfEmptyLocked e) in
     lf_started l' = lf_started l /\ lf_running l' = lf_running l /\ lf_closed l' = lf_closed l /\ lf_err l' = lf_err l
     /\ (idle e -> lf_stopped l' = true
         /\ ((lf_started l' = true /\ lf_canceled l' = true) \/ (0 < lf_closers l')%nat))
     /\ (~ idle e -> l' = l)).
Proof.
  intros Hc. unfold cancelIfEmptyLocked.
  pose proof (roster_empty _ _ _ (c_packets e Hc)) as Hp. pose proof (roster_empty _ _ _ (c_sections e Hc)) as Hs.
  destruct (bool_decide (ro_map (e_packets e) = ∅) && bool_decide (ro_map (e_sections e) = ∅)) eqn:E.
  - bools. apply bool_decide_eq_true in H, H0. assert (idle e) by (unfold idle; tauto).
    split; [by destruct e|]. cbn [setLife e_life].
    destruct (lf_started (e_life e)) eqn:Es; cbn [lf_started lf_running lf_closed lf_err lf_stopped lf_canceled lf_closers];
      rewrite ?Es; conjs; try done; intros _; split; auto; right; lia.
  - split; [by destruct e|]. cbv zeta. apply andb_false_iff in E. rewrite !bool_decide_eq_false in E.
    conjs; try done; unfold idle; tauto.
Qed.

(** What finishing does not touch. *)
Definition sameFrame (e e' : Engine) : Prop :=
  e_transport e' = e_transport e /\ e_drops e' = e_drops e /\ e_nextID e' = e_nextID e
  /\ e_world e' = e_world e /\ e_onPackets e' = e_onPackets e /\ e_onSections e' = e_onSections e.

Definition lifeFrame (e e' : Engine) : Prop :=
  lf_started (e_life e') = lf_started (e_life e) /\ lf_running (e_life e') = lf_running (e_life e)
  /\ lf_closed (e_life e') = lf_closed (e_life e) /\ lf_err (e_life e') = lf_err (e_life e)
  /\ (lf_stopped (e_life e) = true -> lf_stopped (e_life e') = true).

Lemma setLife_core e l : core_ok e -> core_ok (setLife e l).
Proof. intros []. by constructor. Qed.

Lemma cancel_core e : core_ok e -> core_ok (cancelIfEmptyLocked e).
Proof. intros Hc. destruct (cancelIfEmpty_life e Hc) as [-> _]. by apply setLife_core. Qed.

(** After a subscription left the engine of [e] as [e1]. *)
Lemma cancel_spec e e1 : core_ok e1 -> sameFrame e e1 -> e_life e1 = e_life e ->
  let e' := cancelIfEmptyLocked e1 in
  core_ok e' /\ sameFrame e e' /\ lifeFrame e e' /\ e_packets e' = e_packets e1 /\ e_sections e' = e_sections e1
  /\ (life_ok e -> ~ idle e -> life_ok e').
Proof.
  intros Hc Hsame Hlife e'. destruct (cancelIfEmpty_life e1 Hc) as [He' Hl]. fold e' in He', Hl. cbv zeta in Hl.
  assert (e_packets e' = e_packets e1) as Ep by (by rewrite He').
  assert (e_sections e' = e_sections e1) as Es by (by rewrite He').
  assert (e_nextID e' = e_nextID e1) as En by (by rewrite He').
  assert (idle e' <-> idle e1) as Hidle by (unfold idle; by rewrite Ep, Es).
  rewrite Hlife in Hl. destruct Hl as (L1 & L2 & L3 & L4 & L5 & L6).
  assert ({idle e1} + {~ idle e1}) as Hdec by (unfold idle; apply and_dec; apply _).
  conjs; try done.
  - by apply cancel_core.
  - destruct Hsame as (?&?&?&?&?&?). unfold sameFrame. by rewrite He'.
  - unfold lifeFrame. conjs; try done. intros Hst.
    destruct Hdec as [Hi|Hi]; [by apply L5|by rewrite (L6 Hi)].
  - intros (K1 & K2 & K3 & K4 & K5) Hbusy. assert (lf_closed (e_life e) = false) as Hopen
      by (destruct (lf_closed (e_life e)); [destruct Hbusy; by apply K4|done]).
    unfold life_ok. cbv zeta. rewrite L1, L2, L3, Hopen, En, Hidle. destruct Hdec as [Hi|Hi].
    + destruct (L5 Hi) as [L5a L5b]. rewrite L1 in L5b. rewrite Hopen in K2. conjs; try done. naive_solver.
    + rewrite (L6 Hi). rewrite Hopen in *. conjs; try done.
Qed.

Definition finishedPacket (sub : packetSubscription) (err : list error) : packetSubscription :=
  mkPacketSub (ps_drops sub) true err (ps_filter sub) true (closeQueue (ps_queue sub))
    (ps_stats sub) (ps_dropping sub) (ps_droppedBytes sub).
Definition finishedSection (sub : sectionSubscription) (err : list error) : sectionSubscription :=
  mkSectionSub (ss_accept sub) true err true (ss_queue sub) true.

Lemma finishPacketLocked_gone e id err : core_ok e -> id ∉ ro_list (e_packets e) -> finishPacketLocked e id err = Ret e.
Proof.
  intros Hc Hid. unfold finishPacketLocked. by rewrite (lookupSub_unlisted _ _ _ _ (c_packets e Hc) Hid).
Qed.
Lemma finishSectionLocked_gone e id err : core_ok e -> id ∉ ro_list (e_sections e) -> finishSectionLocked e id err = Ret e.
Proof.
  intros Hc Hid. unfold finishSectionLocked. by rewrite (lookupSub_unlisted _ _ _ _ (c_sections e Hc) Hid).
Qed.

Lemma finishPacketLocked_spec e id err : core_ok e -> id ∈ ro_list (e_packets e) ->
  exists e' sub, finishPacketLocked e id err = Ret e' /\ ro_subs (e_packets e) !! id = Some sub
  /\ core_ok e' /\ sameFrame e e' /\ lifeFrame e e' /\ (life_ok e -> life_ok e')
  /\ e_packets e' = leave (store (e_packets e) id (finishedPacket sub err)) id /\ e_sections e' = e_sections e.
Proof.
  intros Hc Hid. destruct (lookupSub_listed _ _ _ _ (c_packets e Hc) Hid) as (sub & Hsub & Hl & Hf).
  pose proof (c_packetSubs e Hc id sub Hsub) as (Hq & Hcl & Hd & Hfil & Hdet).
  set (e1 := setPackets e (leave (store (e_packets e) id (finishedPacket sub err)) id)).
  assert (core_ok e1) as Hc1.
  { destruct Hc. constructor; try done; cbn [e1 setPackets e_nextID e_packets]; [by eapply leave_ok|].
    cbn [leave store ro_subs]. apply map_Forall_insert_2; [|done]. done. }
  destruct (cancel_spec e e1 Hc1) as (H1 & H2 & H3 & H4 & H5 & H6); [done..|].
  exists (cancelIfEmptyLocked e1), sub. conjs; try done.
  - unfold finishPacketLocked. rewrite Hl, Hf, Hd, Hf. done.
  - intros Hlf. apply H6; [done|]. intros [Hi _]. rewrite Hi in Hid. by apply not_elem_of_nil in Hid.
Qed.

Lemma finishSectionLocked_spec e id err : core_ok e -> id ∈ ro_list (e_sections e) ->
  exists e' sub, finishSectionLocked e id err = Ret e' /\ ro_subs (e_sections e) !! id = Some sub
  /\ core_ok e' /\ sameFrame e e' /\ lifeFrame e e' /\ (life_ok e -> life_ok e')
  /\ e_sections e' = leave (store (e_sections e) id (finishedSection sub err)) id /\ e_packets e' = e_packets e.
Proof.
  intros Hc Hid. destruct (lookupSub_listed _ _ _ _ (c_sections e Hc) Hid) as (sub & Hsub & Hl & Hf).
  pose proof (c_sectionSubs e Hc id sub Hsub) as (Hq & Hd & Hroom).
  set (e1 := setSections e (leave (store (e_sections e) id (finishedSection sub err)) id)).
  assert (core_ok e1) as Hc1.
  { destruct Hc. constructor; try done; cbn [e1 setSections e_nextID e_sections]; [by eapply leave_ok|].
    cbn [leave store ro_subs]. apply map_Forall_insert_2; [|done]. done. }
  destruct (cancel_spec e e1 Hc1) as (H1 & H2 & H3 & H4 & H5 & H6); [done..|].
  exists (cancelIfEmptyLocked e1), sub. conjs; try done.
  - unfold finishSectionLocked. rewrite Hl, Hf, Hq, Hd, Hf. done.
  - intros Hlf. apply H6; [done|]. intros [_ Hi]. rewrite Hi in Hid. by apply not_elem_of_nil in Hid.
Qed.

(** ** What dispatching does to one subscriber *)

Definition delivers (sub sub' : packetSubscription) (out : bytes) : Prop :=
  ps_finished sub' = false
  /\ forall l, rep (ps_queue sub) l -> rep (ps_queue sub') (specPush l out SubscriberBufferBytes).1.1.

Definition served (t : T) (packet : bytes) (sub sub' : packetSubscription) : Prop :=
  match ps_filter sub with
  | None => delivers sub sub' packet
  | Some f =>
      match FilterPacket t f packet with
      | Err err => sub' = finishedPacket sub [err]
      | Ret (f', None) => sub' = setFilter sub f'
      | Ret (f', Some out) => ps_filter sub' = Some f' /\ delivers sub sub' out
      | _ => False
      end
  end.

Definition survives (t : T) (packet : bytes) (sub : packetSubscription) : bool :=
  match ps_filter sub with
  | Some f => match FilterPacket t f packet with Err _ => false | _ => true end
  | None => true
  end.

Definition survivors (t : T) (packet : bytes) (subs : gmap Z packetSubscription) (ids : list Z) : list Z :=
  filter (fun id => default true (survives t packet <$> subs !! id) = true) ids.

Lemma enqueue_delivers sub out : packetSub_ok sub -> ps_finished sub = false -> packet_valid out ->
  exists sub', enqueueLocked sub out = Ret sub' /\ packetSub_ok sub' /\ ps_filter sub' = ps_filter sub
  /\ delivers sub sub' out.
Proof.
  intros ((l & Hrep & Hl) & Hcl & Hd & Hf & Hdet) Hfin Hout. unfold enqueueLocked.
  pose proof (push_rep (ps_queue sub) l out SubscriberBufferBytes Hrep) as H.
  pose proof (specPush_facts l out SubscriberBufferBytes ltac:(done)) as Hs.
  assert (forall l0, rep (ps_queue sub) l0 -> l0 = l) as Huniq.
  { intros l0 H0. destruct H0 as (_ & C0 & _ & E0 & _), Hrep as (_ & C1 & _ & E1 & _).
    assert (length l0 = length l) as Elen by lia. rewrite <- E0, <- E1 at 1. by rewrite Elen. }
  assert (forall sub', ps_finished sub' = ps_finished sub -> rep (ps_queue sub') (specPush l out SubscriberBufferBytes).1.1 ->
    delivers sub sub' out) as Hdel.
  { intros sub' E Hr. split; [congruence|]. intros l0 H0. by rewrite (Huniq l0 H0). }
  destruct (specPush l out SubscriberBufferBytes) as [[l' dropped] signal]. destruct H as (q & -> & Hrep' & Hcl').
  cbn [mbind go_bind]. destruct Hs as (Hsub & _).
  assert (Forall packet_valid l') as Hl'.
  { assert (Forall packet_valid (l ++ [out])) as Hall by (apply Forall_app; by repeat constructor).
    rewrite Forall_forall in Hall. apply Forall_forall. intros x Hx. apply Hall. by eapply elem_of_sublist. }
  assert (forall b n, let sub' := mkPacketSub (ps_drops sub) (ps_done sub) (ps_err sub) (ps_filter sub) (ps_finished sub)
    q (ps_stats sub) b n in packetSub_ok sub' /\ ps_filter sub' = ps_filter sub /\ delivers sub sub' out) as Hall.
  { intros b n sub'. conjs; [|done|by apply Hdel]. unfold packetSub_ok. cbn [sub' ps_queue ps_finished ps_done ps_filter ps_drops].
    conjs; try done; [by exists l'|congruence]. }
  destruct (0 <? dropped); [|destruct (ps_dropping sub)]; eexists; (split; [done|]); apply Hall.
Qed.

(** The turn for the subscription at position [i]. *)
Lemma packetTurn_spec packet e kept id todo : core_ok e -> packet_valid packet ->
  ro_list (e_packets e) = kept ++ id :: todo ->
  exists e' sub sub', ro_subs (e_packets e) !! id = Some sub
  /\ packetTurn packet (e, len kept) = Ret (Continue (e', if survives (e_transport e) packet sub then len kept + 1 else len kept))
  /\ core_ok e' /\ sameFrame e e' /\ lifeFrame e e' /\ (life_ok e -> life_ok e') /\ e_sections e' = e_sections e
  /\ ro_subs (e_packets e') = <[id := sub']> (ro_subs (e_packets e))
  /\ ro_list (e_packets e') = kept ++ (if survives (e_transport e) packet sub then [id] else []) ++ todo
  /\ served (e_transport e) packet sub sub'.
Proof.
  intros Hc Hp Hlist. assert (id ∈ ro_list (e_packets e)) as Hid by (rewrite Hlist; set_solver).
  destruct (lookupSub_listed _ _ _ _ (c_packets e Hc) Hid) as (sub & Hsub & _ & Hfin).
  pose proof (c_packetSubs e Hc id sub Hsub) as Hok. pose proof Hok as (Hq & Hcl & Hd & Hfil & Hdet).
  assert (forall sub', packetSub_ok sub' -> ps_finished sub' = false ->
    let e' := setPackets e (store (e_packets e) id sub') in
    core_ok e' /\ sameFrame e e' /\ lifeFrame e e' /\ (life_ok e -> life_ok e') /\ e_sections e' = e_sections e
    /\ ro_subs (e_packets e') = <[id := sub']> (ro_subs (e_packets e))
    /\ ro_list (e_packets e') = kept ++ [id] ++ todo) as Hstore.
  { intros sub' Hs' Hf' e'. conjs; try done. destruct Hc. constructor; try done.
    - eapply store_ok; [done|done|congruence].
    - by apply map_Forall_insert_2. }
  unfold packetTurn. rewrite Hlist. rewrite (proj2 (Z.ltb_lt _ _)) by (rewrite length_app; simpl; lia). cbn [negb].
  rewrite (idx_lookup _ _ id) by (lia || (rewrite Nat2Z.id; by apply list_lookup_middle)). cbn [mbind go_bind].
  unfold deref. rewrite Hsub. cbn [mbind go_bind]. unfold served, survives.
  destruct (ps_filter sub) as [f|] eqn:Ef.
  - pose proof (FilterPacket_ok (e_transport e) f packet (c_transport e Hc) (Hfil f eq_refl) Hp) as Hfp.
    destruct (FilterPacket (e_transport e) f packet) as [[f' [out|]]|err| |] eqn:Efp; try done; cbn [orElse].
    + destruct Hfp as [Hf' Hout].
      assert (packetSub_ok (setFilter sub f')) as Hset by (unfold packetSub_ok; conjs; try done; by intros ? [= <-]).
      destruct (enqueue_delivers (setFilter sub f') out Hset Hfin (Hout out eq_refl)) as (sub' & -> & Hok' & Hf2 & Hdel).
      cbn [mbind go_bind]. destruct (Hstore sub' Hok' (proj1 Hdel)) as (?&?&?&?&?&?&?).
      eexists _, sub, sub'. rewrite Ef, Efp. conjs; done.
    + destruct Hfp as [Hf' _].
      assert (packetSub_ok (setFilter sub f')) as Hset by (unfold packetSub_ok; conjs; try done; by intros ? [= <-]).
      destruct (Hstore _ Hset Hfin) as (?&?&?&?&?&?&?). eexists _, sub, _. rewrite Ef, Efp. conjs; done.
    + destruct (finishPacketLocked_spec e id [err] Hc Hid) as (e' & sub0 & -> & Hsub0 & ? & ? & ? & ? & Hpk & ?).
      assert (sub0 = sub) as -> by congruence. cbn [mbind go_bind].
      eexists e', sub, _. rewrite Ef, Efp. conjs; try done; rewrite Hpk; [done|].
      cbn [leave store ro_list]. rewrite Hlist. pose proof (c_packets e Hc) as (_ & Hnd & _). rewrite Hlist in Hnd.
      apply NoDup_app in Hnd as (_ & Hk & [Hn _]%NoDup_cons).
      rewrite filter_app, filter_cons_False by (intros ?; done). f_equal; apply filter_Forall; apply Forall_forall; set_solver.
  - destruct (enqueue_delivers sub packet Hok Hfin Hp) as (sub' & -> & Hok' & Hf2 & Hdel). cbn [mbind go_bind].
    destruct (Hstore sub' Hok' (proj1 Hdel)) as (?&?&?&?&?&?&?). eexists _, sub, sub'. rewrite Ef. conjs; done.
Qed.

Lemma sameFrame_trans e1 e2 e3 : sameFrame e1 e2 -> sameFrame e2 e3 -> sameFrame e1 e3.
Proof. unfold sameFrame. intuition congruence. Qed.
Lemma lifeFrame_trans e1 e2 e3 : lifeFrame e1 e2 -> lifeFrame e2 e3 -> lifeFrame e1 e3.
Proof. unfold lifeFrame. intuition congruence. Qed.

Lemma packetLoop_spec packet todo : packet_valid packet -> forall n e kept, core_ok e ->
  ro_list (e_packets e) = kept ++ todo -> (length todo < n)%nat ->
  exists e', loop n (packetTurn packet) (e, len kept) = Ret e'
  /\ core_ok e' /\ sameFrame e e' /\ lifeFrame e e' /\ (life_ok e -> life_ok e') /\ e_sections e' = e_sections e
  /\ ro_list (e_packets e') = kept ++ survivors (e_transport e) packet (ro_subs (e_packets e)) todo
  /\ (forall id, id ∉ todo -> ro_subs (e_packets e') !! id = ro_subs (e_packets e) !! id)
  /\ (forall id sub, id ∈ todo -> ro_subs (e_packets e) !! id = Some sub ->
      exists sub', ro_subs (e_packets e') !! id = Some sub' /\ served (e_transport e) packet sub sub').
Proof.
  intros Hp. induction todo as [|id todo IH]; intros [|n] e kept Hc Hlist Hn; try (simpl in Hn; lia); rewrite loop_S.
  { exists e. assert (packetTurn packet (e, len kept) = Ret (Break e)) as ->.
    { unfold packetTurn. rewrite Hlist, app_nil_r, Z.ltb_irrefl. done. }
    rewrite app_nil_r in Hlist. cbn [survivors filter]. conjs; try done; [by rewrite app_nil_r|set_solver]. }
  destruct (packetTurn_spec packet e kept id todo Hc Hp Hlist)
    as (e1 & sub & sub1 & Hsub & -> & Hc1 & Hf1 & Hl1 & Hlife1 & Hs1 & Hsubs1 & Hlist1 & Hserved).
  cbn [mbind go_bind]. set (b := survives (e_transport e) packet sub) in *.
  pose proof (c_packets e Hc) as (_ & Hnd & _). rewrite Hlist in Hnd.
  apply NoDup_app in Hnd as (_ & _ & [Hnotin Hnd]%NoDup_cons).
  replace (if b then len kept + 1 else len kept) with (len (kept ++ if b then [id] else []))
    by (rewrite length_app; destruct b; simpl; lia).
  destruct (IH n e1 (kept ++ if b then [id] else []) Hc1)
    as (e2 & -> & Hc2 & Hf2 & Hl2 & Hlife2 & Hs2 & Hlist2 & Hout2 & Hin2); [by rewrite <- app_assoc|simpl in Hn; lia|].
  assert (e_transport e1 = e_transport e) as Et by apply Hf1. rewrite Et, Hsubs1 in Hlist2, Hin2. rewrite Hsubs1 in Hout2.
  exists e2. conjs; try done.
  - by eapply sameFrame_trans.
  - by eapply lifeFrame_trans.
  - auto.
  - congruence.
  - rewrite Hlist2, <- app_assoc. f_equal. unfold survivors. rewrite filter_cons, Hsub. cbn [fmap option_fmap option_map].
    change (default true (Some (survives (e_transport e) packet sub))) with b. assert (filter (fun id0 => default true (survives (e_transport e) packet <$>
       <[id := sub1]> (ro_subs (e_packets e)) !! id0) = true) todo
       = filter (fun id0 => default true (survives (e_transport e) packet <$> ro_subs (e_packets e) !! id0) = true) todo) as ->.
    { clear -Hnotin. induction todo as [|x todo IH]; [done|]. apply not_elem_of_cons in Hnotin as [Hne Hn].
      rewrite !filter_cons, lookup_insert_ne by done. by rewrite (IH Hn). }
    by destruct b.
  - intros k Hk. apply not_elem_of_cons in Hk as [Hne Hk]. rewrite Hout2, lookup_insert_ne by done. done.
  - intros k s0 [->|Hk]%elem_of_cons Hs0.
    + assert (s0 = sub) as -> by congruence. exists sub1. by rewrite Hout2, lookup_insert_eq by done.
    + apply Hin2; [done|]. rewrite lookup_insert_ne; [done|]. intros ->. done.
Qed.

(** The same for a unit of signaling. *)
Definition wants (sub : sectionSubscription) (section : U) : bool :=
  match ss_accept sub with Some accept => accept section | None => true end.

Definition offered (section : U) (sub : sectionSubscription) : sectionSubscription :=
  if negb (wants sub section) then sub
  else if len (ss_queue sub) <? sectionSubscriberBuffer
  then mkSectionSub (ss_accept sub) (ss_done sub) (ss_err sub) (ss_finished sub) (ss_queue sub ++ [section]) (ss_queueClosed sub)
  else finishedSection sub [ErrSubscriberOverflow].

Lemma sectionTurn_spec section e kept id todo : core_ok e ->
  ro_list (e_sections e) = kept ++ id :: todo ->
  exists e' sub, ro_subs (e_sections e) !! id = Some sub
  /\ let stays := negb (ss_finished (offered section sub)) in
  sectionTurn section (e, len kept) = Ret (Continue (e', if stays then len kept + 1 else len kept))
  /\ core_ok e' /\ sameFrame e e' /\ lifeFrame e e' /\ (life_ok e -> life_ok e') /\ e_packets e' = e_packets e
  /\ ro_subs (e_sections e') = <[id := offered section sub]> (ro_subs (e_sections e))
  /\ ro_list (e_sections e') = kept ++ (if stays then [id] else []) ++ todo.
Proof.
  intros Hc Hlist. assert (id ∈ ro_list (e_sections e)) as Hid by (rewrite Hlist; set_solver).
  destruct (lookupSub_listed _ _ _ _ (c_sections e Hc) Hid) as (sub & Hsub & _ & Hfin).
  pose proof (c_sectionSubs e Hc id sub Hsub) as (Hcl & Hd & Hroom).
  unfold sectionTurn. rewrite Hlist. rewrite (proj2 (Z.ltb_lt _ _)) by (rewrite length_app; simpl; lia). cbn [negb].
  rewrite (idx_lookup _ _ id) by (lia || (rewrite Nat2Z.id; by apply list_lookup_middle)). cbn [mbind go_bind].
  unfold deref. rewrite Hsub. cbn [mbind go_bind].
  replace (match ss_accept sub with Some accept => negb (accept section) | None => false end)
    with (negb (wants sub section)) by (unfold wants; by destruct (ss_accept sub)).
  cbv zeta. destruct (negb (wants sub section)) eqn:Ew.
  { exists e, sub. unfold offered. rewrite Ew, Hfin. cbn [negb]. conjs; try done. by rewrite insert_id. }
  rewrite Hfin in Hcl. rewrite Hcl. destruct (Z.ltb_spec (len (ss_queue sub)) sectionSubscriberBuffer) as [Hlt|Hge].
  - eexists _, sub. unfold offered. rewrite Ew, (proj2 (Z.ltb_lt _ _) Hlt). cbn [ss_finished]. rewrite Hfin. cbn [negb]. rewrite ?Hcl, ?Hfin. conjs; try done. destruct Hc. constructor; try done.
    + eapply store_ok; [done|done|by rewrite Hfin].
    + apply map_Forall_insert_2; [|done]. unfold sectionSub_ok. cbn [ss_queueClosed ss_finished ss_done ss_queue].
      rewrite length_app. simpl. conjs; [done|congruence|lia].
  - destruct (finishSectionLocked_spec e id [ErrSubscriberOverflow] Hc Hid) as (e' & sub0 & -> & Hsub0 & ? & ? & ? & ? & Hpk & ?).
    assert (sub0 = sub) as -> by congruence. cbn [mbind go_bind].
    eexists e', sub. unfold offered. rewrite Ew, (proj2 (Z.ltb_ge _ _) Hge). conjs; try done; rewrite Hpk; [done|].
    cbn [leave store ro_list]. rewrite Hlist. pose proof (c_sections e Hc) as (_ & Hnd & _). rewrite Hlist in Hnd.
    apply NoDup_app in Hnd as (_ & Hk & [Hn _]%NoDup_cons).
    rewrite filter_app, filter_cons_False by (intros ?; done). f_equal; apply filter_Forall; apply Forall_forall; set_solver.
Qed.

Lemma sectionLoop_spec section todo : forall n e kept, core_ok e ->
  ro_list (e_sections e) = kept ++ todo -> (length todo < n)%nat ->
  exists e', loop n (sectionTurn section) (e, len kept) = Ret e'
  /\ core_ok e' /\ sameFrame e e' /\ lifeFrame e e' /\ (life_ok e -> life_ok e') /\ e_packets e' = e_packets e
  /\ (forall id, id ∉ todo -> ro_subs (e_sections e') !! id = ro_subs (e_sections e) !! id)
  /\ (forall id, id ∈ todo -> ro_subs (e_sections e') !! id = offered section <$> ro_subs (e_sections e) !! id).
Proof.
  induction todo as [|id todo IH]; intros [|n] e kept Hc Hlist Hn; try (simpl in Hn; lia); rewrite loop_S.
  { exists e. assert (sectionTurn section (e, len kept) = Ret (Break e)) as ->.
    { unfold sectionTurn. rewrite Hlist, app_nil_r, Z.ltb_irrefl. done. }
    conjs; try done. set_solver. }
  destruct (sectionTurn_spec section e kept id todo Hc Hlist)
    as (e1 & sub & Hsub & Hturn & Hc1 & Hf1 & Hl1 & Hlife1 & Hs1 & Hsubs1 & Hlist1). cbv zeta in *. rewrite Hturn.
  cbn [mbind go_bind]. set (b := negb (ss_finished (offered section sub))) in *.
  pose proof (c_sections e Hc) as (_ & Hnd & _). rewrite Hlist in Hnd.
  apply NoDup_app in Hnd as (_ & _ & [Hnotin Hnd]%NoDup_cons).
  replace (if b then len kept + 1 else len kept) with (len (kept ++ if b then [id] else []))
    by (rewrite length_app; destruct b; simpl; lia).
  destruct (IH n e1 (kept ++ if b then [id] else []) Hc1)
    as (e2 & -> & Hc2 & Hf2 & Hl2 & Hlife2 & Hs2 & Hout2 & Hin2); [by rewrite <- app_assoc|simpl in Hn; lia|].
  rewrite Hsubs1 in Hout2, Hin2. exists e2. conjs; try done.
  - by eapply sameFrame_trans.
  - by eapply lifeFrame_trans.
  - auto.
  - congruence.
  - intros k Hk. apply not_elem_of_cons in Hk as [Hne Hk]. rewrite Hout2, lookup_insert_ne by done. done.
  - intros k [->|Hk]%elem_of_cons; [by rewrite Hout2, lookup_insert_eq, Hsub by done|].
    rewrite Hin2, lookup_insert_ne; [done| |done]. intros ->. done.
Qed.

(** ** Closing *)

Lemma leave_head {A} finished next (r : roster A) id l a : roster_ok finished next r -> ro_list r = id :: l ->
  ro_list (leave (store r id a) id) = l.
Proof.
  intros (_ & Hnd & _) E. cbn [leave store ro_list]. rewrite E in *. apply NoDup_cons in Hnd as [Hn _].
  rewrite filter_cons_False by (intros ?; done). apply filter_Forall, Forall_forall. set_solver.
Qed.

Lemma finishPackets_spec err l : forall n e, core_ok e -> ro_list (e_packets e) = l -> (length l < n)%nat ->
  exists e', loop n (finishPackets err) e = Ret e' /\ core_ok e' /\ sameFrame e e' /\ lifeFrame e e'
  /\ ro_list (e_packets e') = [] /\ e_sections e' = e_sections e
  /\ (forall id, id ∉ l -> ro_subs (e_packets e') !! id = ro_subs (e_packets e) !! id)
  /\ (forall id, id ∈ l -> ro_subs (e_packets e') !! id = (fun s => finishedPacket s err) <$> ro_subs (e_packets e) !! id).
Proof.
  induction l as [|id l IH]; intros [|n] e Hc Hl Hn; try (simpl in Hn; lia); rewrite loop_S.
  { exists e. assert (finishPackets err e = Ret (Break e)) as -> by (unfold finishPackets; by rewrite Hl).
    conjs; try done. intros k Hk. by apply not_elem_of_nil in Hk. }
  assert (id ∈ ro_list (e_packets e)) as Hid by (rewrite Hl; set_solver).
  destruct (finishPacketLocked_spec e id err Hc Hid) as (e1 & sub & E1 & Hsub & Hc1 & Hf1 & Hl1 & _ & Hp1 & Hs1).
  assert (finishPackets err e = Ret (Continue e1)) as -> by (unfold finishPackets; rewrite Hl, E1; done).
  cbn [mbind go_bind]. pose proof (c_packets e Hc) as Hr. pose proof Hr as (_ & Hnd & _). rewrite Hl in Hnd.
  apply NoDup_cons in Hnd as [Hnotin _].
  destruct (IH n e1 Hc1) as (e2 & -> & Hc2 & Hf2 & Hl2 & Hp2 & Hs2 & Hout & Hin).
  { rewrite Hp1. by eapply leave_head. }
  { simpl in Hn. lia. }
  rewrite Hp1 in Hout, Hin. cbn [leave store ro_subs] in Hout, Hin. exists e2. conjs; try done.
  - by eapply sameFrame_trans.
  - by eapply lifeFrame_trans.
  - congruence.
  - intros k [Hne Hk]%not_elem_of_cons. rewrite Hout, lookup_insert_ne by done. done.
  - intros k [->|Hk]%elem_of_cons; [by rewrite Hout, lookup_insert_eq, Hsub by done|].
    rewrite Hin, lookup_insert_ne; [done| |done]. intros ->. done.
Qed.

Lemma finishSections_spec err l : forall n e, core_ok e -> ro_list (e_sections e) = l -> (length l < n)%nat ->
  exists e', loop n (finishSections err) e = Ret e' /\ core_ok e' /\ sameFrame e e' /\ lifeFrame e e'
  /\ ro_list (e_sections e') = [] /\ e_packets e' = e_packets e
  /\ (forall id, id ∉ l -> ro_subs (e_sections e') !! id = ro_subs (e_sections e) !! id)
  /\ (forall id, id ∈ l -> ro_subs (e_sections e') !! id = (fun s => finishedSection s err) <$> ro_subs (e_sections e) !! id).
Proof.
  induction l as [|id l IH]; intros [|n] e Hc Hl Hn; try (simpl in Hn; lia); rewrite loop_S.
  { exists e. assert (finishSections err e = Ret (Break e)) as -> by (unfold finishSections; by rewrite Hl).
    conjs; try done. intros k Hk. by apply not_elem_of_nil in Hk. }
  assert (id ∈ ro_list (e_sections e)) as Hid by (rewrite Hl; set_solver).
  destruct (finishSectionLocked_spec e id err Hc Hid) as (e1 & sub & E1 & Hsub & Hc1 & Hf1 & Hl1 & _ & Hp1 & Hs1).
  assert (finishSections err e = Ret (Continue e1)) as -> by (unfold finishSections; rewrite Hl, E1; done).
  cbn [mbind go_bind]. pose proof (c_sections e Hc) as Hr. pose proof Hr as (_ & Hnd & _). rewrite Hl in Hnd.
  apply NoDup_cons in Hnd as [Hnotin _].
  destruct (IH n e1 Hc1) as (e2 & -> & Hc2 & Hf2 & Hl2 & Hp2 & Hs2 & Hout & Hin).
  { rewrite Hp1. by eapply leave_head. }
  { simpl in Hn. lia. }
  rewrite Hp1 in Hout, Hin. cbn [leave store ro_subs] in Hout, Hin. exists e2. conjs; try done.
  - by eapply sameFrame_trans.
  - by eapply lifeFrame_trans.
  - congruence.
  - intros k [Hne Hk]%not_elem_of_cons. rewrite Hout, lookup_insert_ne by done. done.
  - intros k [->|Hk]%elem_of_cons; [by rewrite Hout, lookup_insert_eq, Hsub by done|].
    rewrite Hin, lookup_insert_ne; [done| |done]. intros ->. done.
Qed.

(** [close] ends: it finishes every subscription that is still attached, each
    with the engine's error, exactly once. *)
Lemma closeEngine_spec e err : core_ok e -> (lf_running (e_life e) = true -> lf_started (e_life e) = true) ->
  lf_closed (e_life e) = false ->
  exists e', closeEngine e err = Ret e' /\ core_ok e' /\ life_ok e' /\ sameFrame e e'
  /\ lf_closed (e_life e') = true /\ lf_err (e_life e') = err
  /\ (forall id sub, ro_subs (e_packets e) !! id = Some sub -> ro_subs (e_packets e') !! id =
      Some (if bool_decide (id ∈ ro_list (e_packets e)) then finishedPacket sub err else sub))
  /\ (forall id sub, ro_subs (e_sections e) !! id = Some sub -> ro_subs (e_sections e') !! id =
      Some (if bool_decide (id ∈ ro_list (e_sections e)) then finishedSection sub err else sub)).
Proof.
  intros Hc Hrun Hopen. unfold closeEngine. rewrite Hopen.
  set (e0 := setLife e _). assert (core_ok e0) as Hc0 by (by apply setLife_core).
  destruct (finishPackets_spec err _ (S (length (ro_list (e_packets e0)))) e0 Hc0 eq_refl)
    as (e1 & -> & Hc1 & Hf1 & Hl1 & Hp1 & Hs1 & Hout1 & Hin1); [lia|]. cbn [mbind go_bind].
  destruct (finishSections_spec err _ (S (length (ro_list (e_sections e1)))) e1 Hc1 eq_refl)
    as (e2 & -> & Hc2 & Hf2 & Hl2 & Hp2 & Hs2 & Hout2 & Hin2); [lia|]. cbn [mbind go_bind].
  pose proof (lifeFrame_trans _ _ _ Hl1 Hl2) as (L1 & L2 & L3 & L4 & L5).
  exists (markClosed e2). cbn [e0 setLife e_life lf_started lf_running lf_closed lf_err lf_stopped] in L1, L2, L3, L4, L5.
  specialize (L5 eq_refl). unfold markClosed. cbv zeta.
  cbn [setLife e_life lf_err lf_closed e_packets e_sections e_nextID e_transport]. conjs; try done.
  - by apply setLife_core.
  - unfold life_ok. cbn [setLife e_life lf_started lf_running lf_closed lf_err lf_stopped lf_canceled lf_closers].
    assert (idle e2) as Hi by (unfold idle; rewrite Hs2; done). rewrite L1, L2, L5. conjs; auto.
  - eapply sameFrame_trans; [|eapply sameFrame_trans; [exact Hf1|exact Hf2]]. done.
  - intros k sub Hk. rewrite Hs2. case_bool_decide; [rewrite Hin1 by done|rewrite Hout1 by done];
      cbn [e0 setLife e_packets]; by rewrite Hk.
  - intros k sub Hk. rewrite Hs1 in Hin2, Hout2. cbn [e0 setLife e_sections] in Hin2, Hout2.
    case_bool_decide; [rewrite Hin2 by done|rewrite Hout2 by done]; by rewrite Hk.
Qed.

(** ** Every operation keeps the invariant *)

Definition engine_ok (n : Z) (e : Engine) : Prop := core_ok e /\ life_ok e /\ e_nextID e <= n.

Lemma New_ok t w hooks hooks' : transport_ok t -> engine_ok 0 (New t w hooks hooks').
Proof.
  intros Ht. unfold engine_ok. conjs; [|unfold life_ok; cbn; conjs; done|done].
  constructor; try done; [apply NewDropDetector_ok|apply noSubs_ok|apply noSubs_ok].
Qed.

(** The life cycle while the engine is not stopped. *)
Lemma not_stopped e : life_ok e -> lf_stopped (e_life e) = false ->
  lf_closed (e_life e) = false /\ (lf_started (e_life e) = lf_running (e_life e)).
Proof.
  intros (K1 & K2 & K3 & K4 & K5) Hs. assert (lf_closed (e_life e) = false) as Hcl.
  { destruct (lf_closed (e_life e)); [|done]. destruct (K4 eq_refl). congruence. }
  split; [done|]. rewrite Hcl in K2.
  destruct (lf_started (e_life e)), (lf_running (e_life e)); naive_solver.
Qed.

Lemma attach_life e e1 start : life_ok e -> lf_stopped (e_life e) = false -> e_life e1 = e_life e -> ~ idle e1 ->
  life_ok (if (start : bool) then startLocked e1 else e1).
Proof.
  intros Hl Hs El Hbusy. destruct (not_stopped e Hl Hs) as [Hcl Hst].
  assert (life_ok e1) as H1.
  { unfold life_ok. rewrite El, Hcl, Hst, Hs. conjs; try done; auto. }
  destruct start; [|done]. unfold startLocked. destruct (lf_started (e_life e1)); [done|].
  unfold life_ok. cbn [setLife e_life lf_started lf_running lf_closed lf_stopped lf_canceled lf_closers e_nextID].
  rewrite El, Hcl, Hs. conjs; auto; done.
Qed.

Lemma startLocked_core e : core_ok e -> core_ok (startLocked e).
Proof. intros Hc. unfold startLocked. destruct (lf_started _); [done|by apply setLife_core]. Qed.

Lemma startLocked_nextID e : e_nextID (startLocked e) = e_nextID e.
Proof. unfold startLocked. by destruct (lf_started _). Qed.

Lemma newPacketSub_ok e sid : core_ok e -> packetSub_ok (newPacketSub e sid).
Proof.
  intros Hc. unfold packetSub_ok, newPacketSub. cbn [ps_queue ps_finished ps_done ps_filter ps_drops].
  conjs; try done; [by exists []; split; [apply new_rep|constructor]| |].
  - intros f. destruct sid as [x|]; [|done]. intros [= <-]. apply NewFilter_ok, c_transport, Hc.
  - destruct sid as [x|]; [|apply NewDropDetector_ok]. cbn [fmap option_fmap option_map mbind option_bind].
    destruct (FilterDropDetector _) as [d|] eqn:E; [|apply NewDropDetector_ok]. cbn [default].
    eapply FilterDropDetector_ok; [|exact E]. apply NewFilter_ok, c_transport, Hc.
Qed.

Lemma attachPacket_ok n e sid : engine_ok n e -> n + 1 < 2 ^ 64 -> lf_stopped (e_life e) = false ->
  exists e', attachPacket e sid = Ret (e', e_nextID e) /\ engine_ok (n + 1) e'.
Proof.
  intros (Hc & Hl & Hn) Hlt Hs. unfold attachPacket. rewrite Hs. pose proof (c_next e Hc).
  unfold u64. rewrite Z.mod_small by lia. eexists. split; [done|].
  set (e0 := setNextID e (e_nextID e + 1)). set (e1 := setPackets e0 _).
  assert (core_ok e1) as Hc1.
  { pose proof (newPacketSub_ok e sid Hc) as Hsub. destruct Hc.
    constructor; cbn [e1 e0 setPackets setNextID e_transport e_drops e_nextID e_packets e_sections]; try done; try lia.
    - by apply enter_ok.
    - by apply (roster_mono _ (e_nextID e)); [lia|].
    - cbn [enter ro_subs]. by apply map_Forall_insert_2. }
  unfold engine_ok. conjs; [by apply startLocked_core| |rewrite startLocked_nextID; cbn; lia].
  apply (attach_life e e1 true Hl Hs eq_refl). intros [Hi _]. cbn [e1 setPackets e_packets enter ro_list] in Hi.
  by apply app_nil in Hi as [_ ?].
Qed.

Lemma attachSection_ok n e accept start : engine_ok n e -> n + 1 < 2 ^ 64 -> lf_stopped (e_life e) = false ->
  exists e', attachSection e accept start = Ret (e', e_nextID e) /\ engine_ok (n + 1) e'.
Proof.
  intros (Hc & Hl & Hn) Hlt Hs. unfold attachSection. rewrite Hs. pose proof (c_next e Hc).
  unfold u64. rewrite Z.mod_small by lia. eexists. split; [done|].
  set (e0 := setNextID e (e_nextID e + 1)). set (e1 := setSections e0 _).
  assert (core_ok e1) as Hc1.
  { destruct Hc. constructor; cbn [e1 e0 setSections setNextID e_transport e_drops e_nextID e_packets e_sections]; try done; try lia.
    - by apply (roster_mono _ (e_nextID e)); [lia|].
    - by apply enter_ok.
    - cbn [enter ro_subs]. apply map_Forall_insert_2; [|done]. by unfold sectionSub_ok. }
  unfold engine_ok. conjs; [destruct start; [by apply startLocked_core|done]| |destruct start; rewrite ?startLocked_nextID; cbn; lia].
  apply (attach_life e e1 start Hl Hs eq_refl). intros [_ Hi]. cbn [e1 setSections e_sections enter ro_list] in Hi.
  by apply app_nil in Hi as [_ ?].
Qed.

Lemma finishPacketLocked_ok n e id err : engine_ok n e -> returns (finishPacketLocked e id err) (engine_ok n).
Proof.
  intros (Hc & Hl & Hn). destruct (decide (id ∈ ro_list (e_packets e))) as [Hid|Hid].
  - destruct (finishPacketLocked_spec e id err Hc Hid) as (e' & sub & -> & _ & ? & (_ & _ & En & _) & _ & ? & _).
    exists e'. unfold engine_ok. rewrite En. auto.
  - rewrite finishPacketLocked_gone by done. by exists e.
Qed.

Lemma finishSectionLocked_ok n e id err : engine_ok n e -> returns (finishSectionLocked e id err) (engine_ok n).
Proof.
  intros (Hc & Hl & Hn). destruct (decide (id ∈ ro_list (e_sections e))) as [Hid|Hid].
  - destruct (finishSectionLocked_spec e id err Hc Hid) as (e' & sub & -> & _ & ? & (_ & _ & En & _) & _ & ? & _).
    exists e'. unfold engine_ok. rewrite En. auto.
  - rewrite finishSectionLocked_gone by done. by exists e.
Qed.

Lemma closeEngine_ok n e err : core_ok e -> e_nextID e <= n -> (lf_running (e_life e) = true -> lf_started (e_life e) = true) ->
  (lf_closed (e_life e) = true -> life_ok e) ->
  returns (closeEngine e err) (fun e' => engine_ok n e' /\ lf_closed (e_life e') = true).
Proof.
  intros Hc Hn Hrun Hl. destruct (lf_closed (e_life e)) eqn:Ecl.
  - exists e. unfold closeEngine. rewrite Ecl. unfold engine_ok. conjs; auto.
  - destruct (closeEngine_spec e err Hc Hrun Ecl) as (e' & -> & ? & ? & (_ & _ & En & _) & ? & _).
    exists e'. unfold engine_ok. rewrite En. auto.
Qed.

Lemma dispatchPacket_spec e packet : core_ok e -> packet_valid packet ->
  exists e', dispatchPacket e packet = Ret e'
  /\ core_ok e' /\ e_nextID e' = e_nextID e /\ (life_ok e -> life_ok e') /\ e_sections e' = e_sections e
  /\ e_world e' = foldl (fun w hook => hook w packet) (e_world e) (e_onPackets e)
  /\ ro_list (e_packets e') = survivors (e_transport e) packet (ro_subs (e_packets e)) (ro_list (e_packets e))
  /\ (forall id, id ∉ ro_list (e_packets e) -> ro_subs (e_packets e') !! id = ro_subs (e_packets e) !! id)
  /\ (forall id sub, id ∈ ro_list (e_packets e) -> ro_subs (e_packets e) !! id = Some sub ->
      exists sub', ro_subs (e_packets e') !! id = Some sub' /\ served (e_transport e) packet sub sub').
Proof.
  intros Hc Hp. set (e0 := setWorld e (foldl (fun w hook => hook w packet) (e_world e) (e_onPackets e))).
  assert (core_ok e0) as Hc0 by (destruct Hc; by constructor).
  destruct (packetLoop_spec packet (ro_list (e_packets e)) Hp (S (length (ro_list (e_packets e0)))) e0 [] Hc0 eq_refl)
    as (e' & E & H1 & (H2 & _ & H3 & H4 & _) & _ & H5 & H6 & H7 & H8 & H9); [cbn; lia|].
  exists e'. conjs; (exact E || done).
Qed.

Lemma dispatchSection_ok n e section : engine_ok n e -> returns (dispatchSection e section) (fun e' =>
  engine_ok n e' /\ e_packets e' = e_packets e).
Proof.
  intros (Hc & Hl & Hn). set (e0 := setWorld e (foldl (fun w hook => hook w section) (e_world e) (e_onSections e))).
  assert (core_ok e0) as Hc0 by (destruct Hc; by constructor).
  destruct (sectionLoop_spec section (ro_list (e_sections e)) (S (length (ro_list (e_sections e0)))) e0 [] Hc0 eq_refl)
    as (e' & E & H1 & (H2 & _ & H3 & H4 & _) & _ & H5 & H6 & _); [cbn; lia|].
  exists e'. unfold engine_ok. rewrite H3. conjs; try done. by apply H5.
Qed.

Lemma dispatchSections_ok n sections : forall e, engine_ok n e -> returns (dispatchSections e sections) (fun e' =>
  engine_ok n e' /\ e_packets e' = e_packets e).
Proof.
  induction sections as [|section sections IH]; intros e He; cbn [dispatchSections]; [by exists e|].
  destruct (dispatchSection_ok n e section He) as (e1 & -> & He1 & Hp1). cbn [mbind go_bind].
  destruct (IH e1 He1) as (e2 & -> & He2 & Hp2). exists e2. conjs; [done|done|congruence].
Qed.

Lemma dispatchLocked_ok n e packet sections : engine_ok n e -> packet_valid packet ->
  returns (dispatchLocked e packet sections) (engine_ok n).
Proof.
  intros (Hc & Hl & Hn) Hp. unfold dispatchLocked.
  destruct (dispatchPacket_spec e packet Hc Hp) as (e1 & -> & H1 & H2 & H3 & _). cbn [mbind go_bind].
  destruct (dispatchSections_ok n sections e1) as (e2 & -> & H & _); [unfold engine_ok; rewrite H2; auto|]. by exists e2.
Qed.

Lemma runEnd_ok n e runErr sourceErr : engine_ok n e ->
  returns (runEnd e runErr sourceErr) (fun e' => engine_ok n e' /\ lf_closed (e_life e') = true).
Proof.
  intros (Hc & (K1 & K2 & K3 & K4 & K5) & Hn). unfold runEnd. apply closeEngine_ok; [by apply setLife_core|done|done|].
  cbn [setLife e_life lf_closed]. intros Hcl. unfold life_ok.
  cbn [setLife e_life lf_started lf_running lf_closed lf_stopped lf_canceled lf_closers e_nextID]. rewrite Hcl. conjs; auto; done.
Qed.

Lemma runTurn_ok n e next sourceErr : engine_ok n e -> (forall p, next = inl p -> packet_valid p) ->
  returns (runTurn e next sourceErr) (engine_ok n).
Proof.
  intros He Hnext. destruct next as [packet|err]; cbn [runTurn].
  2:{ destruct (runEnd_ok n e (if bool_decide (err = ErrEOF) || lf_canceled (e_life e) then [] else [err]) sourceErr He)
      as (e' & -> & ? & _). by exists e'. }
  specialize (Hnext packet eq_refl). pose proof He as (Hc & Hl & Hn).
  destruct (Observe_ok None (e_drops e) packet (c_drops e Hc) Hnext) as [Hobs Herr].
  destruct (Observe None (e_drops e) packet) as [[d r]|err'| |] eqn:Eo; try done; [|by destruct (Herr err')]. cbn [mbind go_bind].
  assert (engine_ok n (setDrops e d)) as He1 by (destruct Hc; done).
  pose proof (Feed_ok (e_transport e) packet (c_transport e Hc) Hnext) as Hfeed. cbn [setDrops e_transport].
  destruct (Feed (e_transport e) packet) as [[t sections]|err| |]; try done; cbn [orElse].
  - apply dispatchLocked_ok; [|done]. destruct He1 as (Hc1 & Hl1 & Hn1). split; [|done]. destruct Hc1. by constructor.
  - destruct (runEnd_ok n (setDrops e d) [err] sourceErr He1) as (e' & -> & ? & _). by exists e'.
Qed.

Lemma observeBatch_ok f batch : Forall packet_valid batch -> forall d stats, detector_ok d ->
  returns (observeBatch f d stats batch) (fun '(d', _) => detector_ok d').
Proof.
  induction 1 as [|p batch Hp _ IH]; intros d stats Hd; cbn [observeBatch]; [by exists (d, stats)|].
  destruct (Observe_ok f d p Hd Hp) as [Hobs Herr].
  destruct (Observe f d p) as [[d1 r]|err'| |] eqn:Eo; try done; [|by destruct (Herr err')]. cbn [mbind go_bind]. by apply IH.
Qed.

Lemma writePacketsTurn_ok n e id write : engine_ok n e -> is_Some (ro_subs (e_packets e) !! id) ->
  returns (writePacketsTurn e id write) (fun '(e', _, _) => engine_ok n e').
Proof.
  intros He [sub Hsub]. pose proof He as (Hc & Hl & Hn). unfold writePacketsTurn, deref. rewrite Hsub. cbn [mbind go_bind].
  pose proof (c_packetSubs e Hc id sub Hsub) as ((l & Hrep & Hlv) & Hcl & Hd & Hfil & Hdet).
  destruct (takeLocked_rep (ps_queue sub) l [] packetWriteBatchBytes Hrep) as (q & -> & Hrep' & Hcl' & _).
  assert (forall d stats, detector_ok d ->
    engine_ok n (setPackets e (store (e_packets e) id (setWritten sub q d stats)))) as Hstore.
  { intros d stats Hd'. split; [|done]. destruct Hc. constructor; try done; [by eapply store_ok|].
    apply map_Forall_insert_2; [|done]. unfold packetSub_ok. cbn [setWritten ps_queue ps_finished ps_done ps_filter ps_drops].
    conjs; try done; [|congruence]. eexists. split; [exact Hrep'|by apply Forall_drop]. }
  cbn [mbind go_bind]. destruct l as [|p l].
  - destruct (q_closed (ps_queue sub)); eexists _; (split; [done|]); [done|by apply Hstore].
  - cbn [app]. pose proof (batch_prefix (p :: l) 0 packetWriteBatchBytes) as Hb. rewrite Hb in Hlv.
    apply Forall_app in Hlv as [Hbv _].
    destruct (observeBatch_ok (ps_filter sub) _ Hbv (ps_drops sub) (ps_stats sub) Hdet) as ([d stats] & -> & Hd'). cbn [mbind go_bind].
    destruct (match write (concat _) with inl _ => _ | inr _ => _ end) as [err|]; [|eexists _; split; [done|by apply Hstore]].
    destruct (finishPacketLocked_ok n _ id [err] (Hstore d stats Hd')) as (e' & -> & He'). cbn [mbind go_bind].
    eexists _. split; [done|]. done.
Qed.

Lemma writeSectionsTurn_ok n e id observe : engine_ok n e -> is_Some (ro_subs (e_sections e) !! id) ->
  returns (writeSectionsTurn e id observe) (fun '(e', _) => engine_ok n e').
Proof.
  intros He [sub Hsub]. pose proof He as (Hc & Hl & Hn). unfold writeSectionsTurn, deref. rewrite Hsub. cbn [mbind go_bind].
  pose proof (c_sectionSubs e Hc id sub Hsub) as (Hcl & Hd & Hroom).
  destruct (ss_queue sub) as [|section queue]; [by eexists _|]. cbv zeta. set (e1 := setSections e _).
  assert (engine_ok n e1) as He1.
  { split; [|done]. destruct Hc. constructor; try done; [by eapply store_ok|].
    apply map_Forall_insert_2; [|done]. unfold sectionSub_ok. cbn [ss_queueClosed ss_finished ss_done ss_queue].
    simpl in Hroom. conjs; try done. lia. }
  destruct (observe section) as [err|]; [|by eexists _].
  destruct (finishSectionLocked_ok n e1 id [err] He1) as (e' & -> & He'). by eexists _.
Qed.

Lemma runCloser_ok n e : engine_ok n e -> returns (runCloser e) (fun e' => engine_ok n e' /\ lf_closed (e_life e') = true).
Proof.
  intros (Hc & (K1 & K2 & K3 & K4 & K5) & Hn). unfold runCloser. apply closeEngine_ok; [by apply setLife_core|done|done|].
  cbn [setLife e_life lf_closed]. intros Hcl. unfold life_ok.
  cbn [setLife e_life lf_started lf_running lf_closed lf_stopped lf_canceled lf_closers e_nextID]. rewrite Hcl. conjs; auto; done.
Qed.

Lemma Stop_ok n e : engine_ok n e -> returns (Stop e) (fun e' => engine_ok n e' /\ lf_stopped (e_life e') = true).
Proof.
  intros He. pose proof He as (Hc & Hl & Hn). unfold Stop. destruct (lf_stopped (e_life e)) eqn:Es; [by exists e|].
  destruct (not_stopped e Hl Es) as [Hcl Hst]. pose proof Hl as (K1 & K2 & K3 & K4 & K5).
  cbn [lf_started lf_err lf_closers lf_running lf_closed]. destruct (lf_started (e_life e)) eqn:Est; cbn [negb].
  - eexists _. split; [done|]. split; [|done]. split; [by apply setLife_core|]. split; [|done]. unfold life_ok.
    cbn [setLife e_life lf_started lf_running lf_closed lf_stopped lf_canceled lf_closers e_nextID]. rewrite Hcl.
    conjs; auto; done.
  - destruct (closeEngine_ok n (setLife e (mkLife false (lf_canceled (e_life e)) true (lf_err (e_life e)) (lf_closers (e_life e))
      (lf_running (e_life e)) (lf_closed (e_life e)))) []) as (e' & -> & He' & Hcl').
    + by apply setLife_core.
    + done.
    + done.
    + cbn [setLife e_life lf_closed]. congruence.
    + exists e'. conjs; try done. destruct He' as (_ & (_ & _ & _ & K & _) & _). by apply K.
Qed.

(** ** Runs

    The calls and goroutines that change the engine, each under its lock, in
    any order.  A subscriber that leaves, whose context ends or that sees the
    engine done finishes its own subscription, with any error. *)
Inductive step : Engine -> Engine -> Prop :=
  | step_attachPacket e sid e' id : attachPacket e sid = Ret (e', id) -> step e e'
  | step_attachSection e accept start e' id : attachSection e accept start = Ret (e', id) -> step e e'
  | step_finishPacket e id err e' : finishPacketLocked e id err = Ret e' -> step e e'
  | step_finishSection e id err e' : finishSectionLocked e id err = Ret e' -> step e e'
  | step_run e next sourceErr e' : lf_running (e_life e) = true -> (forall p, next = inl p -> packet_valid p) ->
      runTurn e next sourceErr = Ret e' -> step e e'
  | step_write e id write e' out more : is_Some (ro_subs (e_packets e) !! id) ->
      writePacketsTurn e id write = Ret (e', out, more) -> step e e'
  | step_observe e id observe e' more : is_Some (ro_subs (e_sections e) !! id) ->
      writeSectionsTurn e id observe = Ret (e', more) -> step e e'
  | step_closer e e' : (0 < lf_closers (e_life e))%nat -> runCloser e = Ret e' -> step e e'
  | step_stop e e' : Stop e = Ret e' -> step e e'.

Lemma returns_eq {A} (c : go A) (Q : A -> Prop) a : returns c Q -> c = Ret a -> Q a.
Proof. by intros (b & -> & H) [= ->]. Qed.

Lemma step_ok n e e' : engine_ok n e -> 0 <= n -> n + 1 < 2 ^ 64 -> step e e' -> engine_ok (n + 1) e'.
Proof.
  intros He Hn0 Hn Hstep.
  assert (engine_ok n e' -> engine_ok (n + 1) e') as Hmono by (intros (? & ? & ?); unfold engine_ok; conjs; [done..|lia]).
  destruct Hstep as [e sid e' id E|e accept start e' id E|e id err e' E|e id err e' E|e next src e' Hr Hp E
    |e id write e' out more Hs E|e id observe e' more Hs E|e e' Hc E|e e' E].
  - destruct (lf_stopped (e_life e)) eqn:Es; [unfold attachPacket in E; by rewrite Es in E|].
    destruct (attachPacket_ok n e sid He Hn Es) as (e1 & E1 & ?). by rewrite E1 in E; simplify_eq.
  - destruct (lf_stopped (e_life e)) eqn:Es; [unfold attachSection in E; by rewrite Es in E|].
    destruct (attachSection_ok n e accept start He Hn Es) as (e1 & E1 & ?). by rewrite E1 in E; simplify_eq.
  - by apply Hmono, (returns_eq _ _ _ (finishPacketLocked_ok n e id err He)).
  - by apply Hmono, (returns_eq _ _ _ (finishSectionLocked_ok n e id err He)).
  - by apply Hmono, (returns_eq _ _ _ (runTurn_ok n e next src He Hp)).
  - by apply Hmono, (returns_eq _ _ _ (writePacketsTurn_ok n e id write He Hs) E).
  - by apply Hmono, (returns_eq _ _ _ (writeSectionsTurn_ok n e id observe He Hs) E).
  - by apply Hmono, (returns_eq _ _ _ (runCloser_ok n e He) E).
  - by apply Hmono, (returns_eq _ _ _ (Stop_ok n e He) E).
Qed.

Lemma steps_ok n : forall k e e', engine_ok k e -> 0 <= k -> k + Z.of_nat n < 2 ^ 64 -> nsteps step n e e' ->
  engine_ok (k + Z.of_nat n) e'.
Proof.
  induction n as [|n IH]; intros k e e' He Hk Hn Hsteps; inversion Hsteps; subst.
  - by rewrite Z.add_0_r.
  - replace (k + Z.of_nat (S n)) with (k + 1 + Z.of_nat n) by lia. apply (IH (k + 1) y e'); [|lia|lia|done].
    apply (step_ok k e); [done|done|lia|done].
Qed.

(** ** Properties *)

(** C4: the engine never gets stuck.  In every state fewer than 2^64 - 1 calls
    reach, whatever the subscribers, the source and the writers do, attaching
    succeeds unless the engine is stopped, and is refused then; finishing any
    subscription, dispatching a packet with any signaling, a turn of the
    source or of a writer, closing and stopping all return: no channel is
    closed twice or sent on after its close, and the loops over the
    subscriptions, which advance only by removing or serving an entry, end. *)
Theorem engine_never_stuck (t : T) (w : W) (hooks : list (W -> bytes -> W)) (hooks' : list (W -> U -> W))
    (n : nat) (e : Engine) (Ht : transport_ok t) (Hn : Z.of_nat n + 1 < 2 ^ 64)
    (Hrun : nsteps step n (New t w hooks hooks') e) :
  (forall sid accept start, if lf_stopped (e_life e)
     then attachPacket e sid = Err ErrStopped /\ attachSection e accept start = Err ErrStopped
     else returns (attachPacket e sid) (fun _ => True) /\ returns (attachSection e accept start) (fun _ => True))
  /\ (forall id err, returns (finishPacketLocked e id err) (fun _ => True)
                   /\ returns (finishSectionLocked e id err) (fun _ => True))
  /\ (forall packet sections, packet_valid packet -> returns (dispatchLocked e packet sections) (fun _ => True))
  /\ (forall next src, (forall p, next = inl p -> packet_valid p) -> returns (runTurn e next src) (fun _ => True))
  /\ (forall id write, is_Some (ro_subs (e_packets e) !! id) -> returns (writePacketsTurn e id write) (fun _ => True))
  /\ (forall id observe, is_Some (ro_subs (e_sections e) !! id) -> returns (writeSectionsTurn e id observe) (fun _ => True))
  /\ (forall err, returns (closeEngine e err) (fun _ => True)) /\ returns (Stop e) (fun _ => True).
Proof.
  pose proof (steps_ok n 0 _ _ (New_ok t w hooks hooks' Ht) ltac:(lia) ltac:(lia) Hrun) as He. rewrite Z.add_0_l in He.
  assert (forall A (c : go A) (Q : A -> Prop), returns c Q -> returns c (fun _ => True)) as Hweak
    by (intros A c Q (a & ? & _); by exists a).
  conjs.
  - intros sid accept start. destruct (lf_stopped (e_life e)) eqn:Es.
    + unfold attachPacket, attachSection. by rewrite Es.
    + destruct (attachPacket_ok _ e sid He ltac:(lia) Es) as (e1 & -> & _).
      destruct (attachSection_ok _ e accept start He ltac:(lia) Es) as (e2 & -> & _). by split; eexists.
  - intros id err. split; eapply Hweak; [by apply finishPacketLocked_ok|by apply finishSectionLocked_ok].
  - intros packet sections Hp. eapply Hweak. by apply dispatchLocked_ok.
  - intros next src Hp. eapply Hweak. by apply runTurn_ok.
  - intros id write Hid. eapply Hweak. by apply writePacketsTurn_ok.
  - intros id observe Hid. eapply Hweak. by apply writeSectionsTurn_ok.
  - intros err. eapply Hweak. destruct He as (Hc & Hl & Hn'). apply closeEngine_ok; [done|done|apply Hl|done].
  - eapply Hweak. by apply Stop_ok.
Qed.

(** C5: subscribers do not disturb each other.  Dispatching a packet, with any
    signaling, gives each attached packet subscriber what its own filter makes
    of the packet: the bytes are queued behind what it had, the oldest dropped
    if the budget is exceeded; a skipped packet leaves its queue as it is; and
    exactly the subscribers whose filter failed are removed, finished with
    that error, whatever happens to the others. *)
Theorem dispatch_is_independent (t : T) (w : W) (hooks : list (W -> bytes -> W)) (hooks' : list (W -> U -> W))
    (n : nat) (e : Engine) (Ht : transport_ok t) (Hn : Z.of_nat n + 1 < 2 ^ 64)
    (Hrun : nsteps step n (New t w hooks hooks') e) (packet : bytes) (sections : list U) (Hp : packet_valid packet) :
  returns (dispatchLocked e packet sections) (fun e' =>
    ro_list (e_packets e') = survivors (e_transport e) packet (ro_subs (e_packets e)) (ro_list (e_packets e))
    /\ (forall id sub, id ∈ ro_list (e_packets e) -> ro_subs (e_packets e) !! id = Some sub ->
        exists sub', ro_subs (e_packets e') !! id = Some sub' /\ served (e_transport e) packet sub sub')
    /\ (forall id, id ∉ ro_list (e_packets e) -> ro_subs (e_packets e') !! id = ro_subs (e_packets e) !! id)).
Proof.
  pose proof (steps_ok n 0 _ _ (New_ok t w hooks hooks' Ht) ltac:(lia) ltac:(lia) Hrun) as (Hc & Hl & Hne).
  unfold dispatchLocked. destruct (dispatchPacket_spec e packet Hc Hp) as (e1 & -> & H1 & H2 & H3 & _ & _ & H4 & H5 & H6).
  cbn [mbind go_bind]. destruct (dispatchSections_ok (0 + Z.of_nat n) sections e1) as (e2 & -> & _ & Ep).
  { unfold engine_ok. rewrite H2. auto. }
  exists e2. rewrite Ep. done.
Qed.

(** An engine that was left by everybody ends.  In every reachable state a
    subscription's [done] is closed exactly when it finished, which is when it
    is no longer listed; when the last subscriber has left the engine is
    stopped; a stopped engine is closed, or the goroutine that will close it is
    there: a pending closer, or the source's, whose context is canceled, and
    its step closes the engine; and once closed no subscription is left. *)
Theorem deserted_engine_ends (t : T) (w : W) (hooks : list (W -> bytes -> W)) (hooks' : list (W -> U -> W))
    (n : nat) (e : Engine) (Ht : transport_ok t) (Hn : Z.of_nat n + 1 < 2 ^ 64)
    (Hrun : nsteps step n (New t w hooks hooks') e) :
  (forall id sub, ro_subs (e_packets e) !! id = Some sub ->
     ps_done sub = ps_finished sub /\ (id ∈ ro_list (e_packets e) <-> ps_done sub = false))
  /\ (forall id sub, ro_subs (e_sections e) !! id = Some sub ->
     ss_done sub = ss_finished sub /\ (id ∈ ro_list (e_sections e) <-> ss_done sub = false))
  /\ (0 < e_nextID e -> idle e -> lf_stopped (e_life e) = true)
  /\ (lf_stopped (e_life e) = true -> lf_closed (e_life e) = false ->
       ((0 < lf_closers (e_life e))%nat /\ returns (runCloser e) (fun e' => step e e' /\ lf_closed (e_life e') = true))
       \/ (lf_running (e_life e) = true /\ lf_canceled (e_life e) = true
           /\ forall src, returns (runTurn e (inr ErrEOF) src) (fun e' => step e e' /\ lf_closed (e_life e') = true)))
  /\ (lf_closed (e_life e) = true -> idle e).
Proof.
  pose proof (steps_ok n 0 _ _ (New_ok t w hooks hooks' Ht) ltac:(lia) ltac:(lia) Hrun) as He. rewrite Z.add_0_l in He.
  pose proof He as (Hc & (K1 & K2 & K3 & K4 & K5) & Hne). conjs.
  - intros id sub Hsub. destruct (c_packetSubs e Hc id sub Hsub) as (_ & _ & -> & _). split; [done|].
    by apply (c_packets e Hc).
  - intros id sub Hsub. destruct (c_sectionSubs e Hc id sub Hsub) as (_ & -> & _). split; [done|].
    by apply (c_sections e Hc).
  - done.
  - intros Hs Hcl. destruct (K3 Hs) as [?|[[Hst Hca]|Hk]]; [congruence| |].
    + right. destruct (K2 Hst) as [Hr|?]; [|congruence]. conjs; try done. intros src.
      destruct (runEnd_ok (Z.of_nat n) e [] src He) as (e' & E & _ & Hcl').
      exists e'. conjs; [exact E| |done]. by eapply (step_run e (inr ErrEOF) src).
    + left. split; [done|]. destruct (runCloser_ok (Z.of_nat n) e He) as (e' & E & _ & Hcl').
      exists e'. conjs; [exact E| |done]. by apply step_closer.
  - intros Hcl. by apply K4.
Qed.

End Engine.

(** ** A TS engine with a channel subscriber, a service subscriber and an EPG
    observer *)

Lemma listed_order (m : gmap Z Z) : map_to_list m ≡ₚ map_to_list m.
Proof. reflexivity. Qed.

#[local] Instance exampleTransport : Transport Demuxer PIDSection serviceFilter continuityMonitor :=
  tsTransport map_to_list.
#[local] Instance exampleLaws : TransportLaws exampleTransport := tsLaws map_to_list listed_order.

Abbreviation tsEngine := (Engine (T := Demuxer) (U := PIDSection) (F := serviceFilter) (D := continuityMonitor) (W := unit)).

Definition emptyEngine : tsEngine := New NewDemuxer tt [] [].

(** A channel subscriber, and then one for service 101. *)
Definition attached (e : tsEngine) (sid : option Z) : tsEngine :=
  match attachPacket e sid with Ret (e, _) => e | _ => e end.
Definition exampleEngine : tsEngine := attached (attached emptyEngine None) (Some 101).

Lemma attached_step e sid : lf_stopped (e_life e) = false -> step e (attached e sid).
Proof. intros Hs. unfold attached. eapply (step_attachPacket _ sid). unfold attachPacket. by rewrite Hs. Qed.

Lemma example_steps : nsteps step 2 emptyEngine exampleEngine.
Proof. do 2 (eapply nsteps_l; [by apply attached_step|]). apply nsteps_O. Qed.

Lemma NewDemuxer_ok : transport_ok NewDemuxer.
Proof.
  split; [|by intros p].
  constructor; try (by apply map_Forall_empty); try done; try apply emptySectionSet_ok.
Qed.

Lemma engine_never_stuck_witness :
  transport_ok NewDemuxer /\ nsteps step 2 emptyEngine exampleEngine
  /\ returns (attachPacket exampleEngine (Some 102)) (fun _ => True)
  /\ returns (dispatchLocked exampleEngine examplePAT []) (fun _ => True).
Proof.
  pose proof (engine_never_stuck NewDemuxer tt [] [] 2 exampleEngine NewDemuxer_ok ltac:(lia) example_steps)
    as (H1 & _ & H2 & _).
  split; [exact NewDemuxer_ok|]. split; [exact example_steps|]. split; [exact (proj1 (H1 (Some 102) None true))|].
  apply H2, examplePAT_bytes.
Defined.

(** Before any PAT the channel subscriber gets the packet, the service
    subscriber nothing. *)
Lemma dispatch_is_independent_witness :
  nsteps step 2 emptyEngine exampleEngine
  /\ returns (dispatchLocked exampleEngine examplePAT []) (fun e' =>
       ro_list (e_packets e') = [0; 1]
       /\ exists sub', ro_subs (e_packets e') !! 0 = Some sub' /\ rep (ps_queue sub') [examplePAT]).
Proof.
  split; [exact example_steps|].
  destruct (dispatch_is_independent NewDemuxer tt [] [] 2 exampleEngine NewDemuxer_ok ltac:(lia) example_steps
    examplePAT [] examplePAT_bytes) as (e' & E & Hl & Hin & _).
  exists e'. split; [exact E|]. split; [rewrite Hl; vm_compute; reflexivity|].
  destruct (Hin 0 (newPacketSub emptyEngine None)) as (sub' & Hsub & _ & Hrep);
    [vm_compute; left|vm_compute; reflexivity|].
  exists sub'. split; [exact Hsub|]. exact (Hrep [] new_rep).
Defined.

(** The only subscriber of an engine leaves. *)
Definition left_ : tsEngine :=
  match finishPacketLocked (attached emptyEngine None) 0 [ErrCanceled] with Ret e => e | _ => emptyEngine end.

Lemma deserted_engine_ends_witness :
  nsteps step 2 emptyEngine left_ /\ idle left_ /\ lf_stopped (e_life left_) = true
  /\ forall src, returns (runTurn left_ (inr ErrEOF) src) (fun e' => step left_ e' /\ lf_closed (e_life e') = true).
Proof.
  assert (nsteps step 2 emptyEngine left_) as Hs.
  { eapply nsteps_l; [apply (attached_step emptyEngine None); reflexivity|]. eapply nsteps_l; [|apply nsteps_O].
    apply (step_finishPacket _ 0 [ErrCanceled]). reflexivity. }
  pose proof (deserted_engine_ends NewDemuxer tt [] [] 2 left_ NewDemuxer_ok ltac:(lia) Hs) as (_ & _ & H1 & H2 & _).
  assert (idle left_) as Hi by (split; vm_compute; reflexivity).
  assert (lf_stopped (e_life left_) = true) as Hst by (apply H1; [vm_compute; reflexivity|exact Hi]).
  split; [exact Hs|]. split; [exact Hi|]. split; [exact Hst|].
  destruct (H2 Hst ltac:(vm_compute; reflexivity)) as [[Hk _]|(_ & _ & H)]; [|exact H].
  exfalso. vm_compute in Hk. lia.
Defined.
