(* ===== verification/JobManager.v ===== *)
(** * The job manager (internal/job/manager.go, internal/job/job.go)

    [Manager] queues jobs, starts those whose concurrency group, keys and
    dependencies allow it, retries failed ones after a delay, and keeps a
    bounded history.  All operations run under one mutex; goroutines are the
    handlers ([finishRun] when one returns) and the retry timers
    ([timerFires]).  A [*Job] is shared by the queue, the history and its
    goroutines: jobs live in a store and are referred to by id.

    The scheduler library, the event publisher, timestamps, results, logging
    and metrics are left out: no decision depends on them.  The channel
    [changed] that is closed and replaced on every change is the number of
    changes so far. *)

From stdpp Require Import strings.
From S2P Require Import Prelude.

(** ** Data *)

Inductive JobStatus := StatusQueued | StatusStandby | StatusRunning | StatusFinished.

#[export] Instance JobStatus_eq_dec : EqDecision JobStatus.
Proof. solve_decision. Defined.

(** [Handler] is a function from outside; only whether it is set matters.
    [RetryDelays] are nanoseconds. *)
Record JobDefinition := mkDefinition {
  d_Key : string;
  d_Name : string;
  d_HasHandler : bool;
  d_DependsOn : list string;
  d_ExclusiveKeys : list string;
  d_SharedKeys : list string;
  d_ConcurrencyGroup : string;
  d_Priority : Z;
  d_IsRerunnable : bool;
  d_RetryDelays : list Z;
  d_RetryIf : option (error -> bool)
}.

Record Job := mkJob {
  j_Key : string;
  j_Name : string;
  j_Status : JobStatus;
  j_RetryCount : Z;
  j_IsAborting : bool;
  j_HasAborted : bool;
  j_HasFailed : bool;
  j_Error : option error;
  j_definition : JobDefinition;
  j_done : bool
}.

(** A map to [bool] whose entries are all [true] is the set of its keys.
    [m_active] are the ids with a cancel function, [m_canceled] those whose
    function was called, and [m_timers] the retry timers that wait. *)
Record Manager := mkManager {
  m_definitions : gmap string JobDefinition;
  m_jobs : gmap Z Job;
  m_history : list Z;
  m_queue : list Z;
  m_active : gset Z;
  m_canceled : gset Z;
  m_timers : list Z;
  m_activeKeys : gset string;
  m_activeExclusiveKeys : gset string;
  m_activeSharedKeys : gmap string Z;
  m_running : Z;
  m_groupRunning : gmap string Z;
  m_manualSchedules : gmap string string;
  m_shutdown : bool;
  m_changed : Z
}.

(** The configuration does not change. *)
Record Config := mkConfig {
  c_MaxHistory : Z;
  c_MaxConcurrentJobs : Z;
  c_GroupLimits : gmap string Z;
  c_IndependentGroups : gmap string bool
}.

Definition newConfig (cfg : Config) : Config :=
  mkConfig (if c_MaxHistory cfg <=? 0 then 100 else c_MaxHistory cfg)
    (if c_MaxConcurrentJobs cfg <=? 0 then 1 else c_MaxConcurrentJobs cfg)
    (c_GroupLimits cfg) (c_IndependentGroups cfg).

Definition NewManager : Manager := mkManager ∅ ∅ [] [] ∅ ∅ [] ∅ ∅ ∅ 0 ∅ ∅ false 0.

(** Updates of one field each. *)
Definition setDefinitions m x := mkManager x (m_jobs m) (m_history m) (m_queue m) (m_active m) (m_canceled m) (m_timers m) (m_activeKeys m) (m_activeExclusiveKeys m) (m_activeSharedKeys m) (m_running m) (m_groupRunning m) (m_manualSchedules m) (m_shutdown m) (m_changed m).
Definition setJobs m x := mkManager (m_definitions m) x (m_history m) (m_queue m) (m_active m) (m_canceled m) (m_timers m) (m_activeKeys m) (m_activeExclusiveKeys m) (m_activeSharedKeys m) (m_running m) (m_groupRunning m) (m_manualSchedules m) (m_shutdown m) (m_changed m).
Definition setHistory m x := mkManager (m_definitions m) (m_jobs m) x (m_queue m) (m_active m) (m_canceled m) (m_timers m) (m_activeKeys m) (m_activeExclusiveKeys m) (m_activeSharedKeys m) (m_running m) (m_groupRunning m) (m_manualSchedules m) (m_shutdown m) (m_changed m).
Definition setQueue m x := mkManager (m_definitions m) (m_jobs m) (m_history m) x (m_active m) (m_canceled m) (m_timers m) (m_activeKeys m) (m_activeExclusiveKeys m) (m_activeSharedKeys m) (m_running m) (m_groupRunning m) (m_manualSchedules m) (m_shutdown m) (m_changed m).
Definition setCanceled m x := mkManager (m_definitions m) (m_jobs m) (m_history m) (m_queue m) (m_active m) x (m_timers m) (m_activeKeys m) (m_activeExclusiveKeys m) (m_activeSharedKeys m) (m_running m) (m_groupRunning m) (m_manualSchedules m) (m_shutdown m) (m_changed m).
Definition setTimers m x := mkManager (m_definitions m) (m_jobs m) (m_history m) (m_queue m) (m_active m) (m_canceled m) x (m_activeKeys m) (m_activeExclusiveKeys m) (m_activeSharedKeys m) (m_running m) (m_groupRunning m) (m_manualSchedules m) (m_shutdown m) (m_changed m).
Definition setActiveKeys m x := mkManager (m_definitions m) (m_jobs m) (m_history m) (m_queue m) (m_active m) (m_canceled m) (m_timers m) x (m_activeExclusiveKeys m) (m_activeSharedKeys m) (m_running m) (m_groupRunning m) (m_manualSchedules m) (m_shutdown m) (m_changed m).
Definition setManual m x := mkManager (m_definitions m) (m_jobs m) (m_history m) (m_queue m) (m_active m) (m_canceled m) (m_timers m) (m_activeKeys m) (m_activeExclusiveKeys m) (m_activeSharedKeys m) (m_running m) (m_groupRunning m) x (m_shutdown m) (m_changed m).
Definition setShutdown m x := mkManager (m_definitions m) (m_jobs m) (m_history m) (m_queue m) (m_active m) (m_canceled m) (m_timers m) (m_activeKeys m) (m_activeExclusiveKeys m) (m_activeSharedKeys m) (m_running m) (m_groupRunning m) (m_manualSchedules m) x (m_changed m).

(** What starting and completing a job change together. *)
Definition setActive m active excl shared running groups := mkManager (m_definitions m) (m_jobs m) (m_history m) (m_queue m) active (m_canceled m) (m_timers m) (m_activeKeys m) excl shared running groups (m_manualSchedules m) (m_shutdown m) (m_changed m).

(** [notifyLocked], which [publishJobChangeLocked] calls. *)
Definition notifyLocked m := mkManager (m_definitions m) (m_jobs m) (m_history m) (m_queue m) (m_active m) (m_canceled m) (m_timers m) (m_activeKeys m) (m_activeExclusiveKeys m) (m_activeSharedKeys m) (m_running m) (m_groupRunning m) (m_manualSchedules m) (m_shutdown m) (m_changed m + 1).

Definition withStatus (j : Job) (s : JobStatus) : Job :=
  mkJob (j_Key j) (j_Name j) s (j_RetryCount j) (j_IsAborting j) (j_HasAborted j) (j_HasFailed j) (j_Error j) (j_definition j) (j_done j).

(** [item.f], with [item] a pointer. *)
Definition deref (m : Manager) (id : Z) : go Job :=
  match m_jobs m !! id with Some j => Ret j | None => Panic end.

Definition store (m : Manager) (id : Z) (j : Job) : Manager := setJobs m (<[id := j]> (m_jobs m)).

Section Manager.

Context (cfg : Config).

(** ** History *)

(** The first index the predicate holds at. *)
Fixpoint findIndex (p : Z -> bool) (l : list Z) : option nat :=
  match l with
  | [] => None
  | x :: l => if p x then Some 0%nat else S <$> findIndex p l
  end.

Definition isFinished (m : Manager) (id : Z) : bool :=
  match m_jobs m !! id with Some j => bool_decide (j_Status j = StatusFinished) | None => false end.

(** [append(l[:i], l[i+1:]...)] *)
Definition removeAt (i : nat) (l : list Z) : list Z := take i l ++ drop (S i) l.

Definition trimTurn (m : Manager) : go (iteration Manager Manager) :=
  if c_MaxHistory cfg <? len (m_history m) then
    match findIndex (isFinished m) (m_history m) with
    | Some i => Ret (Continue (setHistory m (removeAt i (m_history m))))
    | None => Ret (Break m)
    end
  else Ret (Break m).

Definition trimHistory (m : Manager) : go Manager := loop (S (length (m_history m))) trimTurn m.

Definition addHistoryLocked (m : Manager) (id : Z) : go Manager := trimHistory (setHistory m (m_history m ++ [id])).

Definition findJob (m : Manager) (id : Z) : option Job :=
  if bool_decide (id ∈ m_history m) then m_jobs m !! id else None.

(** ** Finishing *)

Definition finishedJob (j : Job) (err : option error) (aborted : bool) : Job :=
  let hasAborted := j_HasAborted j || aborted in
  let failed := match err with
                | Some e => negb hasAborted && negb (bool_decide (e = ErrCanceled))
                | None => false
                end in
  mkJob (j_Key j) (j_Name j) StatusFinished (j_RetryCount j) (j_IsAborting j) hasAborted
    (j_HasFailed j || failed) (if failed then err else j_Error j) (j_definition j) true.

Definition finishLocked (m : Manager) (id : Z) (err : option error) (aborted : bool) : go Manager :=
  j ← deref m id;
  if bool_decide (j_Status j = StatusFinished) then Ret m
  else if j_done j then Panic (* close of a closed channel *)
  else
    let m := store m id (finishedJob j err aborted) in
    let m := setActiveKeys m (m_activeKeys m ∖ {[j_Key j]}) in
    trimHistory (notifyLocked m).

(** ** Choosing a job *)

Definition sharedRunning (m : Manager) : Z :=
  m_running m - foldr (fun '(name, independent) n =>
    if (independent : bool) then default 0 (m_groupRunning m !! name) + n else n) 0 (map_to_list (c_IndependentGroups cfg)).

(** A queued writer whose dependencies are met blocks the readers of its keys. *)
Definition blocksReader (m : Manager) (item writer : Z) : go bool :=
  if writer =? item then Ret false
  else
    w ← deref m writer;
    i ← deref m item;
    Ret (forallb (fun dep => negb (bool_decide (dep ∈ m_activeKeys m))) (d_DependsOn (j_definition w))
         && existsb (fun key => existsb (fun shared => bool_decide (key = shared)) (d_SharedKeys (j_definition i)))
              (d_ExclusiveKeys (j_definition w))).

Fixpoint blockedBy (m : Manager) (item : Z) (queue : list Z) : go bool :=
  match queue with
  | [] => Ret false
  | writer :: queue => blocksReader m item writer ||! blockedBy m item queue
  end.

Definition blockedByWriterLocked (m : Manager) (item : Z) : go bool := blockedBy m item (m_queue m).

Definition dependenciesSatisfiedLocked (m : Manager) (dependencies exclusiveKeys sharedKeys : list string) : bool :=
  forallb (fun key => negb (bool_decide (key ∈ m_activeKeys m))) dependencies
  && forallb (fun key => negb (bool_decide (key ∈ m_activeExclusiveKeys m)
                               || (0 <? default 0 (m_activeSharedKeys m !! key)))) exclusiveKeys
  && forallb (fun key => negb (bool_decide (key ∈ m_activeExclusiveKeys m))) sharedKeys.

Definition independent (group : string) : bool := default false (c_IndependentGroups cfg !! group).

Definition groupLimit (group : string) : Z :=
  if bool_decide (group = EmptyString) then c_MaxConcurrentJobs cfg else default 0 (c_GroupLimits cfg !! group).

(** The conditions of the loop body of [popRunnableQueueLocked], in order. *)
Definition runnable (m : Manager) (id : Z) : go bool :=
  j ← deref m id;
  let group := d_ConcurrencyGroup (j_definition j) in
  if negb (independent group) && (c_MaxConcurrentJobs cfg <=? sharedRunning m) then Ret false
  else
    let limit := groupLimit group in
    if (limit <=? 0) || (limit <=? default 0 (m_groupRunning m !! group)) then Ret false
    else
      blocked ← blockedByWriterLocked m id;
      if (blocked : bool) then Ret false
      else Ret (dependenciesSatisfiedLocked m (d_DependsOn (j_definition j)) (d_ExclusiveKeys (j_definition j))
                  (d_SharedKeys (j_definition j))).

Definition priority (m : Manager) (id : Z) : go Z := j ← deref m id; Ret (d_Priority (j_definition j)).

(** The selected index, updated along the queue. *)
Fixpoint selectFrom (m : Manager) (i : nat) (selected : option nat) (rest : list Z) : go (option nat) :=
  match rest with
  | [] => Ret selected
  | id :: rest =>
      ok ← runnable m id;
      better ← (if (ok : bool) then
                  match selected with
                  | None => Ret true
                  | Some s => other ← idx (m_queue m) (Z.of_nat s); p ← priority m id; q ← priority m other; Ret (q <? p)
                  end
                else Ret false);
      selectFrom m (S i) (if (better : bool) then Some i else selected) rest
  end.

Definition popRunnableQueueLocked (m : Manager) : go (Manager * option Z) :=
  selected ← selectFrom m 0 None (m_queue m);
  match selected with
  | None => Ret (m, None)
  | Some i =>
      item ← idx (m_queue m) (Z.of_nat i);
      Ret (setQueue m (removeAt i (m_queue m)), Some item)
  end.

(** ** Starting and completing *)

Definition startJobLocked (m : Manager) (id : Z) : go Manager :=
  j ← deref m id;
  let d := j_definition j in
  let group := d_ConcurrencyGroup d in
  let m := store m id (withStatus j StatusRunning) in
  let m := setActive m (m_active m ∪ {[id]})
    (m_activeExclusiveKeys m ∪ list_to_set (d_ExclusiveKeys d))
    (foldl (fun shared key => <[key := default 0 (shared !! key) + 1]> shared) (m_activeSharedKeys m) (d_SharedKeys d))
    (m_running m + 1)
    (<[group := default 0 (m_groupRunning m !! group) + 1]> (m_groupRunning m)) in
  Ret (notifyLocked m).

Definition releaseShared (shared : gmap string Z) (key : string) : gmap string Z :=
  let n := default 0 (shared !! key) - 1 in
  if n =? 0 then delete key shared else <[key := n]> shared.

Definition completeActiveLocked (m : Manager) (id : Z) : go Manager :=
  j ← deref m id;
  let d := j_definition j in
  let group := d_ConcurrencyGroup d in
  Ret (setActive m (m_active m ∖ {[id]})
    (m_activeExclusiveKeys m ∖ list_to_set (d_ExclusiveKeys d))
    (foldl releaseShared (m_activeSharedKeys m) (d_SharedKeys d))
    (m_running m - 1)
    (<[group := default 0 (m_groupRunning m !! group) - 1]> (m_groupRunning m))).

Definition dispatchTurn (m : Manager) : go (iteration Manager Manager) :=
  if (0 <? len (m_queue m)) && negb (m_shutdown m) then
    '(m, item) ← popRunnableQueueLocked m;
    match item with
    | None => Ret (Break m)
    | Some id => m ← startJobLocked m id; Ret (Continue m)
    end
  else Ret (Break m).

Definition dispatchLocked (m : Manager) : go Manager := loop (S (length (m_queue m))) dispatchTurn m.

(** ** Enqueueing

    [id] is what [uuid.New] returns. *)
Definition enqueueLocked (m : Manager) (def : JobDefinition) (id : Z) : go (Manager * Z) :=
  if m_shutdown m then Err ErrManagerShutdown
  else if bool_decide (d_Key def = EmptyString) || negb (d_HasHandler def)
          || negb (bool_decide (d_ConcurrencyGroup def = EmptyString))
             && (default 0 (c_GroupLimits cfg !! d_ConcurrencyGroup def) <=? 0)
  then Err ErrInvalidDefinition
  else if bool_decide (d_Key def ∈ m_activeKeys m) then Err ErrJobAlreadyRunning
  else
    let item := mkJob (d_Key def) (d_Name def) StatusQueued 0 false false false None def false in
    let m := store m id item in
    m ← addHistoryLocked m id;
    let m := setQueue m (m_queue m ++ [id]) in
    let m := setActiveKeys m (m_activeKeys m ∪ {[d_Key def]}) in
    m ← dispatchLocked (notifyLocked m);
    Ret (m, id).

Definition Register (m : Manager) (definition : JobDefinition) : Manager :=
  setDefinitions m (<[d_Key definition := definition]> (m_definitions m)).

Definition AddManualSchedule (m : Manager) (key description : string) : Manager :=
  setManual m (<[key := description]> (m_manualSchedules m)).

Definition Enqueue (m : Manager) (key : string) (id : Z) : go (Manager * Z) :=
  match m_definitions m !! key with
  | None => Err ErrDefinitionNotFound
  | Some def => enqueueLocked m def id
  end.

Definition Rerun (m : Manager) (id newID : Z) : go (Manager * Z) :=
  match findJob m id with
  | None => Err ErrJobNotFound
  | Some item =>
      if negb (d_IsRerunnable (j_definition item)) then Err ErrJobNotRerunnable
      else enqueueLocked m (j_definition item) newID
  end.

(** The task of a scheduled job: an execution that is still under way is not
    an error. *)
Definition wrapHandler (m : Manager) (def : JobDefinition) (id : Z) : go Manager :=
  match Enqueue m (d_Key def) id with
  | Ret (m, _) => Ret m
  | Err e => if bool_decide (e = ErrJobAlreadyRunning) then Ret m else Err e
  | Panic => Panic
  | Diverge => Diverge
  end.

(** ** The goroutines *)

Definition shouldRetryLocked (m : Manager) (item : Job) (err : option error) : bool :=
  match err with
  | None => false
  | Some e =>
      if bool_decide (e = ErrCanceled) || (len (d_RetryDelays (j_definition item)) <=? j_RetryCount item) || m_shutdown m
      then false
      else match d_RetryIf (j_definition item) with None => true | Some retryIf => retryIf e end
  end.

Definition standbyLocked (m : Manager) (id : Z) (err : error) : go Manager :=
  j ← deref m id;
  _ ← idx (d_RetryDelays (j_definition j)) (j_RetryCount j);
  let j := mkJob (j_Key j) (j_Name j) StatusStandby (j_RetryCount j + 1) (j_IsAborting j) (j_HasAborted j)
             (j_HasFailed j) (Some err) (j_definition j) (j_done j) in
  let m := notifyLocked (store m id j) in
  Ret (setTimers m (m_timers m ++ [id])).

(** [run] once the handler returned [err]. *)
Definition finishRun (m : Manager) (id : Z) (err : option error) : go Manager :=
  m ← completeActiveLocked m id;
  j ← deref m id;
  m ← (match err with
       | Some e => if negb (j_HasAborted j) && shouldRetryLocked m j err then standbyLocked m id e
                   else finishLocked m id err (j_HasAborted j)
       | None => finishLocked m id err (j_HasAborted j)
       end);
  dispatchLocked m.

Definition retryToQueueLocked (m : Manager) (id : Z) : go Manager :=
  j ← deref m id;
  let m := store m id (withStatus j StatusQueued) in
  Ret (notifyLocked (setQueue m (m_queue m ++ [id]))).

(** The goroutine of a timer ends. *)
Definition removeTimer (m : Manager) (id : Z) : Manager :=
  setTimers m (match findIndex (fun x => x =? id) (m_timers m) with
               | Some i => removeAt i (m_timers m)
               | None => m_timers m
               end).

(** The timer of a job in standby fires. *)
Definition timerFires (m : Manager) (id : Z) : go Manager :=
  j ← deref m id;
  m ← (if negb (bool_decide (j_Status j = StatusStandby)) || j_HasAborted j || m_shutdown m then Ret m
       else
         m ← retryToQueueLocked m id;
         dispatchLocked m);
  Ret (removeTimer m id).

(** ** Aborting *)

Definition withAborting (j : Job) (aborted : bool) : Job :=
  mkJob (j_Key j) (j_Name j) (j_Status j) (j_RetryCount j) true (j_HasAborted j || aborted) (j_HasFailed j) (j_Error j)
    (j_definition j) (j_done j).

Definition abortPendingLocked (m : Manager) (id : Z) : go Manager :=
  j ← deref m id;
  finishLocked (store m id (withAborting j false)) id (Some ErrCanceled) true.

Definition abortActiveLocked (m : Manager) (id : Z) : Manager * bool :=
  if bool_decide (id ∈ m_active m) then
    let m := match findJob m id with
             | Some j => notifyLocked (store m id (withAborting j true))
             | None => m
             end in
    (setCanceled m (m_canceled m ∪ {[id]}), true)
  else (m, false).

Definition abortQueuedLocked (m : Manager) (id : Z) : go (Manager * bool) :=
  match findIndex (fun x => x =? id) (m_queue m) with
  | None => Ret (m, false)
  | Some i =>
      m ← abortPendingLocked (setQueue m (removeAt i (m_queue m))) id;
      Ret (m, true)
  end.

Definition abortStandbyLocked (m : Manager) (id : Z) : go (Manager * bool) :=
  match findJob m id with
  | None => Ret (m, false)
  | Some j =>
      if negb (bool_decide (j_Status j = StatusStandby)) then Ret (m, false)
      else
        let j := mkJob (j_Key j) (j_Name j) (j_Status j) (j_RetryCount j) (j_IsAborting j) true (j_HasFailed j) (j_Error j)
                   (j_definition j) (j_done j) in
        m ← abortPendingLocked (store m id j) id;
        Ret (m, true)
  end.

Definition Abort (m : Manager) (id : Z) : go Manager :=
  let '(m, done) := abortActiveLocked m id in
  if (done : bool) then Ret m
  else
    '(m, done) ← abortQueuedLocked m id;
    if (done : bool) then Ret m
    else
      '(m, done) ← abortStandbyLocked m id;
      if (done : bool) then Ret m else Err ErrJobNotRunning.

(** ** Shutting down *)

Fixpoint abortAll (m : Manager) (queued : list Z) : go Manager :=
  match queued with
  | [] => Ret m
  | id :: queued => m ← abortPendingLocked m id; abortAll m queued
  end.

(** [for _, item := range m.history]: the loop reads the array that the history
    had at its start, while [trimHistory] removes entries from it in place.
    After a removal the array starts with the new history; its entries beyond
    are left as they were. *)
Definition standbyTurn (s : Manager * list Z * nat) : go (iteration (Manager * list Z * nat) Manager) :=
  let '(m, array, i) := s in
  match array !! i with
  | None => Ret (Break m)
  | Some id =>
      j ← deref m id;
      if bool_decide (j_Status j = StatusStandby) then
        m ← abortPendingLocked m id;
        Ret (Continue (m, m_history m ++ drop (length (m_history m)) array, S i))
      else Ret (Continue (m, array, S i))
  end.

Definition abortQueuedAndStandbyLocked (m : Manager) : go Manager :=
  let queued := m_queue m in
  m ← abortAll (setQueue m []) queued;
  loop (S (length (m_history m))) standbyTurn (m, m_history m, 0%nat).

Definition cancelActiveLocked (m : Manager) : Manager := setCanceled m (m_canceled m ∪ m_active m).

(** [Shutdown], up to its waits; [m.shutdownCancel] comes first, outside the
    lock. *)
Definition shutdownCancel (m : Manager) : Manager := setShutdown m true.
Definition shutdownLocked (m : Manager) : go Manager :=
  m ← abortQueuedAndStandbyLocked m;
  Ret (cancelActiveLocked m).

(** ** Queries *)

Definition GetJobs (m : Manager) : go (list Job) :=
  foldr (fun id l => j ← deref m id; l ← l; Ret (j :: l)) (Ret []) (m_history m).

(** The keys of unfinished jobs with a prefix, once each, in the order of the
    history. *)
Definition activeKeysTurn (m : Manager) (prefix : string) (seen : list string) (id : Z) : go (list string) :=
  j ← deref m id;
  if bool_decide (j_Status j = StatusFinished) || negb (String.prefix prefix (j_Key j))
     || bool_decide (j_Key j ∈ seen)
  then Ret seen
  else Ret (seen ++ [j_Key j]).

Definition GetActiveJobKeysByPrefix (m : Manager) (prefix : string) : go (list string) :=
  foldl (fun seen id => seen ← seen; activeKeysTurn m prefix seen id) (Ret []) (m_history m).

End Manager.
