(* ===== verification/JobResources.v ===== *)
(** * What running jobs hold (internal/job/manager.go)

    The counters and key sets of the manager are those of the active jobs
    ([resources_ok]); starting a runnable job and completing an active one
    keep this, the mutual exclusion of the keys and the concurrency limits. *)

From stdpp Require Import strings.
From S2P Require Import Prelude JobManager.

(** ** Sums over a set of jobs *)

Definition sumZ {A} (f : A -> Z) (l : list A) : Z := foldr (fun x n => f x + n) 0 l.

Lemma sumZ_cons {A} (f : A -> Z) x l : sumZ f (x :: l) = f x + sumZ f l.
Proof. done. Qed.

Lemma sumZ_app {A} (f : A -> Z) l1 l2 : sumZ f (l1 ++ l2) = sumZ f l1 + sumZ f l2.
Proof. induction l1 as [|x l1 IH]; simpl; lia. Qed.

#[export] Instance sumZ_Permutation {A} (f : A -> Z) : Proper (Permutation ==> eq) (sumZ f).
Proof. intros l1 l2 H. induction H; simpl; lia. Qed.

Lemma sumZ_ext {A} (f g : A -> Z) l : (forall x, x ∈ l -> f x = g x) -> sumZ f l = sumZ g l.
Proof. induction l as [|x l IH]; intros H; simpl; [done|]. rewrite H, IH by set_solver. done. Qed.

Lemma sumZ_add {A} (f g : A -> Z) l : sumZ (fun x => f x + g x) l = sumZ f l + sumZ g l.
Proof. induction l as [|x l IH]; simpl; lia. Qed.

Lemma sumZ_sub {A} (f g : A -> Z) l : sumZ (fun x => f x - g x) l = sumZ f l - sumZ g l.
Proof. induction l as [|x l IH]; simpl; lia. Qed.

Lemma sumZ_const {A} c (l : list A) : sumZ (fun _ => c) l = c * len l.
Proof. induction l as [|x l IH]; simpl length; simpl; lia. Qed.

Lemma sumZ_nonneg {A} (f : A -> Z) l : (forall x, x ∈ l -> 0 <= f x) -> 0 <= sumZ f l.
Proof.
  induction l as [|x l IH]; intros H; simpl; [lia|]. assert (0 <= f x) by (apply H; set_solver).
  assert (0 <= sumZ f l) by (apply IH; set_solver). lia.
Qed.

Lemma sumZ_pos {A} (f : A -> Z) l x : (forall x, x ∈ l -> 0 <= f x) -> x ∈ l -> 0 < f x -> 0 < sumZ f l.
Proof.
  intros H Hx Hf. apply list_elem_of_split in Hx as (l1 & l2 & ->). rewrite sumZ_app. simpl.
  assert (0 <= sumZ f l1) by (apply sumZ_nonneg; set_solver).
  assert (0 <= sumZ f l2) by (apply sumZ_nonneg; set_solver). lia.
Qed.

(** The number of times a key occurs in a list. *)
Definition occurrences (k : string) (l : list string) : Z := sumZ (fun x => if bool_decide (x = k) then 1 else 0) l.

Lemma occurrences_pos k l : k ∈ l -> 0 < occurrences k l.
Proof.
  intros H. apply (sumZ_pos _ _ k); [intros; case_bool_decide; lia|done|]. by rewrite bool_decide_eq_true_2.
Qed.

Lemma occurrences_nonneg k l : 0 <= occurrences k l.
Proof. apply sumZ_nonneg. intros. case_bool_decide; lia. Qed.

(** Counting keys up and down again. *)
Lemma countUp_lookup l k : forall shared : gmap string Z,
  default 0 (foldl (fun s key => <[key := default 0 (s !! key) + 1]> s) shared l !! k)
  = default 0 (shared !! k) + occurrences k l.
Proof.
  induction l as [|x l IH]; intros shared; cbn [foldl]; [unfold occurrences; simpl; lia|].
  rewrite IH. change (occurrences k (x :: l)) with ((if bool_decide (x = k) then 1 else 0) + occurrences k l).
  case_bool_decide as E; [subst; rewrite lookup_insert_eq; simpl; lia|].
  rewrite lookup_insert_ne by done. lia.
Qed.

Lemma countDown_lookup l k : forall shared : gmap string Z,
  default 0 (foldl releaseShared shared l !! k) = default 0 (shared !! k) - occurrences k l.
Proof.
  induction l as [|x l IH]; intros shared; cbn [foldl]; [unfold occurrences; simpl; lia|].
  rewrite IH. change (occurrences k (x :: l)) with ((if bool_decide (x = k) then 1 else 0) + occurrences k l).
  unfold releaseShared. destruct (Z.eqb_spec (default 0 (shared !! x) - 1) 0) as [E0|E0];
    (case_bool_decide as E; [subst; rewrite ?lookup_delete_eq, ?lookup_insert_eq; simpl; lia
                            |rewrite ?lookup_delete_ne, ?lookup_insert_ne by done; lia]).
Qed.

Section Resources.

Context (cfg : Config).

Definition defOf (m : Manager) (id : Z) : option JobDefinition := j_definition <$> m_jobs m !! id.

(** A sum over the definitions of the active jobs. *)
Definition weigh (g : JobDefinition -> Z) (m : Manager) (id : Z) : Z := match defOf m id with Some d => g d | None => 0 end.
Definition sumA (g : JobDefinition -> Z) (m : Manager) : Z := sumZ (weigh g m) (elements (m_active m)).

Definition inGroup (group : string) (d : JobDefinition) : Z := if bool_decide (d_ConcurrencyGroup d = group) then 1 else 0.
Definition dependent (d : JobDefinition) : Z := if independent cfg (d_ConcurrencyGroup d) then 0 else 1.

Record resources_ok (m : Manager) : Prop := {
  r_dom : forall id, id ∈ m_active m -> is_Some (m_jobs m !! id);
  r_running : m_running m = sumA (fun _ => 1) m;
  r_groups : forall g, default 0 (m_groupRunning m !! g) = sumA (inGroup g) m;
  r_excl : forall k, k ∈ m_activeExclusiveKeys m <->
    exists id d, id ∈ m_active m /\ defOf m id = Some d /\ k ∈ d_ExclusiveKeys d;
  r_shared : forall k, default 0 (m_activeSharedKeys m !! k) = sumA (fun d => occurrences k (d_SharedKeys d)) m;
  r_conflict : forall id1 id2 d1 d2 k, id1 ∈ m_active m -> id2 ∈ m_active m -> id1 <> id2 ->
    defOf m id1 = Some d1 -> defOf m id2 = Some d2 -> k ∈ d_ExclusiveKeys d1 ->
    k ∉ d_ExclusiveKeys d2 /\ k ∉ d_SharedKeys d2;
  r_limit : sumA dependent m <= Z.max 0 (c_MaxConcurrentJobs cfg);
  r_groupLimit : forall g, sumA (inGroup g) m <= Z.max 0 (groupLimit cfg g)
}.

(** The manager's state that matters for the resources. *)
Definition sameResources (m m' : Manager) : Prop :=
  m_active m' = m_active m /\ m_running m' = m_running m /\ m_groupRunning m' = m_groupRunning m
  /\ m_activeExclusiveKeys m' = m_activeExclusiveKeys m /\ m_activeSharedKeys m' = m_activeSharedKeys m
  /\ (forall id, id ∈ m_active m -> defOf m' id = defOf m id).

Lemma sumA_same g m m' : m_active m' = m_active m -> (forall id, id ∈ m_active m -> defOf m' id = defOf m id) ->
  sumA g m' = sumA g m.
Proof.
  intros Ha Hd. unfold sumA. rewrite Ha. apply sumZ_ext. intros id Hid. apply elem_of_elements in Hid.
  unfold weigh. by rewrite Hd.
Qed.

Lemma resources_same m m' : sameResources m m' -> resources_ok m -> resources_ok m'.
Proof.
  intros (Ha & Hr & Hg & He & Hs & Hd) [R1 R2 R3 R4 R5 R6 R7 R8].
  assert (forall g, sumA g m' = sumA g m) as Hsum by (intros; by apply sumA_same).
  constructor; rewrite ?Ha, ?Hr, ?Hg, ?He, ?Hs; try setoid_rewrite Hsum; try done.
  - intros id Hid. specialize (Hd id Hid). unfold defOf in Hd. destruct (R1 id Hid) as [j Hj]. rewrite Hj in Hd.
    destruct (m_jobs m' !! id); [by eexists|done].
  - intros k. rewrite R4. split; intros (id & d & H1 & H2 & H3); exists id, d; conjs; try done; by rewrite <- ?Hd, ?Hd in *.
  - intros id1 id2 d1 d2 k H1 H2 Hne. rewrite !Hd by done. by apply R6.
Qed.

Lemma sumA_enter g m m' id d : id ∉ m_active m -> m_active m' = m_active m ∪ {[id]} ->
  (forall k, defOf m' k = defOf m k) -> defOf m id = Some d -> sumA g m' = sumA g m + g d.
Proof.
  intros Hid Ha Hd Hdef. unfold sumA. rewrite Ha, (union_comm_L (m_active m)), elements_union_singleton by done.
  rewrite sumZ_cons, (sumZ_ext (weigh g m') (weigh g m)) by (intros; unfold weigh; by rewrite Hd).
  unfold weigh at 1. rewrite Hd, Hdef. lia.
Qed.

Lemma sumA_leave g m m' id d : id ∈ m_active m -> m_active m' = m_active m ∖ {[id]} ->
  (forall k, defOf m' k = defOf m k) -> defOf m id = Some d -> sumA g m' = sumA g m - g d.
Proof.
  intros Hid Ha Hd Hdef. assert (sumA g m = sumA g m' + g d); [|lia].
  apply (sumA_enter g m' m id d); [set_solver| |by intros; rewrite Hd|by rewrite Hd].
  rewrite Ha. apply set_eq. intros x. destruct (decide (x = id)); set_solver.
Qed.

Lemma sumA_nonneg g m : (forall d, 0 <= g d) -> 0 <= sumA g m.
Proof. intros H. apply sumZ_nonneg. intros id _. unfold weigh. destruct (defOf m id); [done|lia]. Qed.

Lemma sumA_pos g m id d : (forall d, 0 <= g d) -> id ∈ m_active m -> defOf m id = Some d -> 0 < g d -> 0 < sumA g m.
Proof.
  intros H Hid Hd Hg. apply (sumZ_pos _ _ id); [|by apply elem_of_elements|unfold weigh; by rewrite Hd].
  intros x _. unfold weigh. destruct (defOf m x); [done|lia].
Qed.

(** [sharedRunning] counts the active jobs outside the independent groups. *)
Lemma independentSum m (indep : gmap string bool) :
  sumZ (fun '(name, b) => if (b : bool) then sumA (inGroup name) m else 0) (map_to_list indep)
  = sumA (fun d => if default false (indep !! d_ConcurrencyGroup d) then 1 else 0) m.
Proof.
  induction indep as [|name b indep Hn IH] using map_ind.
  - rewrite map_to_list_empty. unfold sumA. rewrite (sumZ_ext (weigh _ m) (fun _ => 0)), sumZ_const; [simpl; lia|].
    intros id _. unfold weigh. destruct (defOf m id); [by rewrite lookup_empty|done].
  - rewrite map_to_list_insert, sumZ_cons, IH by done. unfold sumA. destruct b; [rewrite <- sumZ_add|rewrite Z.add_0_l]; apply sumZ_ext; intros id _;
      unfold weigh; (destruct (defOf m id) as [d|]; [|done]); unfold inGroup;
      (destruct (decide (d_ConcurrencyGroup d = name)) as [->|Hne];
       [rewrite ?bool_decide_eq_true_2, lookup_insert_eq, Hn by done; done
       |rewrite ?bool_decide_eq_false_2, lookup_insert_ne by done; done]).
Qed.

Lemma sharedRunning_eq m : resources_ok m -> sharedRunning cfg m = sumA dependent m.
Proof.
  intros [_ Hr Hg _ _ _ _ _]. unfold sharedRunning. rewrite Hr.
  assert (foldr (fun '(name, independent) n => if (independent : bool) then default 0 (m_groupRunning m !! name) + n else n) 0
    (map_to_list (c_IndependentGroups cfg))
    = sumZ (fun '(name, b) => if (b : bool) then sumA (inGroup name) m else 0) (map_to_list (c_IndependentGroups cfg))) as ->.
  { induction (map_to_list (c_IndependentGroups cfg)) as [|[name b] l IH]; [done|]. rewrite sumZ_cons. cbn [foldr].
    rewrite IH. destruct b; [by rewrite Hg|lia]. }
  rewrite independentSum. unfold sumA. rewrite <- sumZ_sub. apply sumZ_ext. intros id _.
  unfold weigh, dependent, independent. destruct (defOf m id); [|lia]. by destruct (default _ _).
Qed.

(** ** Starting and completing *)

(** What a runnable job does not collide with. *)
Lemma satisfied_excl m deps excl shared k : dependenciesSatisfiedLocked m deps excl shared = true -> k ∈ excl ->
  k ∉ m_activeExclusiveKeys m /\ default 0 (m_activeSharedKeys m !! k) <= 0.
Proof.
  unfold dependenciesSatisfiedLocked. rewrite !andb_true_iff, !forallb_forall. intros [[_ H] _] Hk.
  specialize (H k (proj1 (list_elem_of_In _ _) Hk)). rewrite negb_true_iff, orb_false_iff in H. destruct H as [H1 H2].
  apply bool_decide_eq_false in H1. apply Z.ltb_ge in H2. done.
Qed.

Lemma satisfied_shared m deps excl shared k : dependenciesSatisfiedLocked m deps excl shared = true -> k ∈ shared ->
  k ∉ m_activeExclusiveKeys m.
Proof.
  unfold dependenciesSatisfiedLocked. rewrite !andb_true_iff, !forallb_forall. intros [_ H] Hk.
  specialize (H k (proj1 (list_elem_of_In _ _) Hk)). rewrite negb_true_iff in H. by apply bool_decide_eq_false in H.
Qed.

Lemma satisfied_deps m deps excl shared k : dependenciesSatisfiedLocked m deps excl shared = true -> k ∈ deps ->
  k ∉ m_activeKeys m.
Proof.
  unfold dependenciesSatisfiedLocked. rewrite !andb_true_iff, !forallb_forall. intros [[H _] _] Hk.
  specialize (H k (proj1 (list_elem_of_In _ _) Hk)). rewrite negb_true_iff in H. by apply bool_decide_eq_false in H.
Qed.

(** The conditions under which [popRunnableQueueLocked] starts a job. *)
Definition admissible (m : Manager) (d : JobDefinition) : Prop :=
  (independent cfg (d_ConcurrencyGroup d) = false -> sharedRunning cfg m < c_MaxConcurrentJobs cfg)
  /\ 0 < groupLimit cfg (d_ConcurrencyGroup d)
  /\ default 0 (m_groupRunning m !! d_ConcurrencyGroup d) < groupLimit cfg (d_ConcurrencyGroup d)
  /\ dependenciesSatisfiedLocked m (d_DependsOn d) (d_ExclusiveKeys d) (d_SharedKeys d) = true.

Lemma inGroup_nonneg g d : 0 <= inGroup g d.
Proof. unfold inGroup. case_bool_decide; lia. Qed.

Lemma startJobLocked_eq m id j : m_jobs m !! id = Some j ->
  exists m', startJobLocked m id = Ret m' /\ m_jobs m' = <[id := withStatus j StatusRunning]> (m_jobs m)
  /\ m_active m' = m_active m ∪ {[id]} /\ m_queue m' = m_queue m /\ m_history m' = m_history m /\ m_timers m' = m_timers m
  /\ m_activeKeys m' = m_activeKeys m /\ m_shutdown m' = m_shutdown m /\ m_definitions m' = m_definitions m
  /\ m_canceled m' = m_canceled m
  /\ (id ∉ m_active m -> resources_ok m -> admissible m (j_definition j) -> resources_ok m').
Proof.
  intros Hj. unfold startJobLocked, deref. rewrite Hj. cbn [mbind go_bind]. eexists. conjs; [reflexivity|done..|].
  intros Hid Hok (A1 & A2 & A3 & A4). pose proof (sharedRunning_eq m Hok) as Hsh. destruct Hok as [R1 R2 R3 R4 R5 R6 R7 R8].
  set (d := j_definition j) in *. set (m' := notifyLocked _).
  assert (forall k, defOf m' k = defOf m k) as Hdef.
  { intros k. unfold defOf. cbn [m' notifyLocked setActive store setJobs m_jobs].
    destruct (decide (k = id)) as [->|]; [by rewrite lookup_insert_eq, Hj|by rewrite lookup_insert_ne]. }
  assert (defOf m id = Some d) as Hd by (unfold defOf; by rewrite Hj).
  assert (forall g, sumA g m' = sumA g m + g d) as Hsum by (intros g; by apply (sumA_enter g m m' id d)).
  assert (forall k, k ∈ m_activeExclusiveKeys m' <-> k ∈ m_activeExclusiveKeys m \/ k ∈ d_ExclusiveKeys d) as Hex
    by (intros k; cbn [m' notifyLocked setActive m_activeExclusiveKeys store setJobs]; rewrite elem_of_union, elem_of_list_to_set; done).
  assert (forall k, k ∈ m_active m' <-> k = id \/ k ∈ m_active m) as Hact
    by (intros k; cbn [m' notifyLocked setActive m_active store setJobs]; set_solver).
  (* a new holder against an old one *)
  assert (forall id2 d2 k, id2 ∈ m_active m -> defOf m id2 = Some d2 -> k ∈ d_ExclusiveKeys d ->
    k ∉ d_ExclusiveKeys d2 /\ k ∉ d_SharedKeys d2) as Hnew.
  { intros id2 d2 k H2 Hd2 Hk. destruct (satisfied_excl m _ _ _ k A4 Hk) as [Hn Hs]. split.
    - intros Hk2. apply Hn, R4. by exists id2, d2.
    - intros Hk2. rewrite R5 in Hs. assert (0 < sumA (fun d => occurrences k (d_SharedKeys d)) m); [|lia].
      apply (sumA_pos _ m id2 d2); [intros; apply occurrences_nonneg|done|done|by apply occurrences_pos]. }
  constructor.
  - intros k Hk%Hact. destruct (decide (k = id)) as [->|Hne].
    + cbn [m' notifyLocked setActive store setJobs m_jobs]. by rewrite lookup_insert_eq.
    + cbn [m' notifyLocked setActive store setJobs m_jobs]. rewrite lookup_insert_ne by done. apply R1. naive_solver.
  - rewrite Hsum. cbn [m' notifyLocked setActive m_running store setJobs]. lia.
  - intros g. rewrite Hsum, <- R3. cbn [m' notifyLocked setActive m_groupRunning store setJobs]. unfold inGroup.
    destruct (decide (d_ConcurrencyGroup d = g)) as [<-|Hne].
    + rewrite lookup_insert_eq, bool_decide_eq_true_2 by done. done.
    + rewrite lookup_insert_ne, bool_decide_eq_false_2 by done. lia.
  - intros k. rewrite Hex, R4. setoid_rewrite Hact. setoid_rewrite Hdef. split.
    + intros [(id2 & d2 & H1 & H2 & H3)|Hk]; [exists id2, d2; auto|exists id, d; auto].
    + intros (id2 & d2 & [->|H1] & H2 & H3); [right; congruence|left; by exists id2, d2].
  - intros k. rewrite Hsum, <- R5. cbn [m' notifyLocked setActive m_activeSharedKeys store setJobs]. apply countUp_lookup.
  - intros id1 id2 d1 d2 k [->|H1]%Hact [->|H2]%Hact Hne; rewrite !Hdef; intros Hd1 Hd2 Hk; try done.
    + assert (d1 = d) as -> by congruence. by eapply Hnew.
    + assert (d2 = d) as -> by congruence. split; intros Hk2.
      * by destruct (Hnew id1 d1 k H1 Hd1 Hk2).
      * apply (satisfied_shared m _ _ _ k A4 Hk2). apply R4. by exists id1, d1.
    + by apply (R6 id1 id2 d1 d2 k).
  - rewrite Hsum. unfold dependent at 2. destruct (independent cfg (d_ConcurrencyGroup d)); [lia|]. specialize (A1 eq_refl). lia.
  - intros g. rewrite Hsum. unfold inGroup at 2. case_bool_decide as E; [|rewrite Z.add_0_r; apply R8].
    subst g. rewrite <- R3. lia.
Qed.

Lemma completeActiveLocked_eq m id j : m_jobs m !! id = Some j ->
  exists m', completeActiveLocked m id = Ret m' /\ m_jobs m' = m_jobs m
  /\ m_active m' = m_active m ∖ {[id]} /\ m_queue m' = m_queue m /\ m_history m' = m_history m /\ m_timers m' = m_timers m
  /\ m_activeKeys m' = m_activeKeys m /\ m_shutdown m' = m_shutdown m /\ m_definitions m' = m_definitions m
  /\ m_canceled m' = m_canceled m
  /\ (id ∈ m_active m -> resources_ok m -> resources_ok m').
Proof.
  intros Hj. unfold completeActiveLocked, deref. rewrite Hj. cbn [mbind go_bind]. eexists. conjs; [reflexivity|done..|].
  intros Hid [R1 R2 R3 R4 R5 R6 R7 R8]. set (d := j_definition j) in *. set (m' := setActive _ _ _ _ _ _).
  assert (forall k, defOf m' k = defOf m k) as Hdef by done.
  assert (defOf m id = Some d) as Hd by (unfold defOf; by rewrite Hj).
  assert (forall g, sumA g m' = sumA g m - g d) as Hsum by (intros g; by apply (sumA_leave g m m' id d)).
  assert (forall k, k ∈ m_active m' <-> k <> id /\ k ∈ m_active m) as Hact
    by (intros k; cbn [m' setActive m_active]; set_solver).
  constructor.
  - intros k [_ Hk]%Hact. by apply R1.
  - rewrite Hsum. cbn [m' setActive m_running]. lia.
  - intros g. rewrite Hsum, <- R3. cbn [m' setActive m_groupRunning]. unfold inGroup.
    destruct (decide (d_ConcurrencyGroup d = g)) as [<-|Hne].
    + rewrite lookup_insert_eq, bool_decide_eq_true_2 by done. done.
    + rewrite lookup_insert_ne, bool_decide_eq_false_2 by done. lia.
  - intros k. cbn [m' setActive m_activeExclusiveKeys]. rewrite elem_of_difference, elem_of_list_to_set, R4.
    setoid_rewrite Hact. split.
    + intros [(id2 & d2 & H1 & H2 & H3) Hk]. exists id2, d2. conjs; try done. intros ->. apply Hk. congruence.
    + intros (id2 & d2 & [Hne H1] & H2 & H3). split; [by exists id2, d2|]. intros Hk.
      by destruct (R6 id id2 d d2 k Hid H1 (not_eq_sym Hne) Hd H2 Hk).
  - intros k. rewrite Hsum, <- R5. cbn [m' setActive m_activeSharedKeys]. apply countDown_lookup.
  - intros id1 id2 d1 d2 k [_ H1]%Hact [_ H2]%Hact. by apply R6.
  - rewrite Hsum. assert (0 <= dependent d) by (unfold dependent; destruct (independent _ _); lia). lia.
  - intros g. rewrite Hsum. pose proof (inGroup_nonneg g d). specialize (R8 g). lia.
Qed.

End Resources.
