(* ===== verification/JobScheduling.v ===== *)
(** * Job scheduling (internal/job/manager.go)

    The invariant of the manager, kept by every operation: the queue holds the
    queued jobs, the active set the running ones, unfinished jobs have distinct
    keys and are in the history.  On the reachable states: mutual exclusion and
    limits, work conservation, termination of every call, and shutting down. *)

From stdpp Require Import strings.
From S2P Require Import Prelude JobManager JobResources.

Section Scheduling.

Context (cfg : Config).

Definition unfinished (j : Job) : Prop := j_Status j <> StatusFinished.

(** What a job's record says of itself, whatever its state. *)
Definition record_ok (j : Job) : Prop :=
  j_done j = bool_decide (j_Status j = StatusFinished) /\ 0 <= j_RetryCount j <= len (d_RetryDelays (j_definition j))
  /\ j_Key j = d_Key (j_definition j) /\ 0 < groupLimit cfg (d_ConcurrencyGroup (j_definition j)).

Definition job_ok (m : Manager) (id : Z) (j : Job) : Prop :=
  record_ok j /\ (id ∈ m_queue m <-> j_Status j = StatusQueued) /\ (id ∈ m_active m <-> j_Status j = StatusRunning)
  /\ (unfinished j -> id ∈ m_history m)
  /\ (j_Status j = StatusStandby -> j_HasAborted j = false /\ (m_shutdown m = false -> id ∈ m_timers m)).

(** A job that is being moved: it is neither queued nor active. *)
Definition transit_ok (m : Manager) (id : Z) (j : Job) : Prop :=
  record_ok j /\ id ∉ m_queue m /\ id ∉ m_active m /\ id ∈ m_history m /\ unfinished j.

(** The invariant, with the job [x] on the move. *)
Record inv_but (x : option Z) (m : Manager) : Prop := {
  v_res : resources_ok cfg m;
  v_queue : NoDup (m_queue m);
  v_queueDom : forall id, id ∈ m_queue m -> is_Some (m_jobs m !! id);
  v_history : NoDup (m_history m);
  v_historyDom : forall id, id ∈ m_history m -> is_Some (m_jobs m !! id);
  v_trimmed : c_MaxHistory cfg < len (m_history m) -> forall id, id ∈ m_history m -> isFinished m id = false;
  v_jobs : forall id j, m_jobs m !! id = Some j -> Some id <> x -> job_ok m id j;
  v_transit : forall id, x = Some id -> exists j, m_jobs m !! id = Some j /\ transit_ok m id j;
  v_keys : forall k, k ∈ m_activeKeys m <-> exists id j, m_jobs m !! id = Some j /\ unfinished j /\ j_Key j = k;
  v_unique : forall id1 id2 j1 j2, m_jobs m !! id1 = Some j1 -> m_jobs m !! id2 = Some j2 ->
    unfinished j1 -> unfinished j2 -> j_Key j1 = j_Key j2 -> id1 = id2
}.

Abbreviation inv := (inv_but None).

(** ** History *)

Lemma findIndex_Some p l i : findIndex p l = Some i -> exists x, l !! i = Some x /\ p x = true.
Proof.
  revert i. induction l as [|y l IH]; intros i H; simpl in H; [done|].
  destruct (p y) eqn:E; [injection H as <-; by exists y|].
  destruct (findIndex p l) as [k|]; [|done]. injection H as <-. by apply IH.
Qed.

Lemma findIndex_None p l : findIndex p l = None -> forall x, x ∈ l -> p x = false.
Proof.
  induction l as [|y l IH]; intros H x Hx; [by apply not_elem_of_nil in Hx|]. simpl in H.
  destruct (p y) eqn:E; [done|]. destruct (findIndex p l); [done|]. apply elem_of_cons in Hx as [->|Hx]; auto.
Qed.

Lemma removeAt_spec i l x : l !! i = Some x -> l ≡ₚ x :: removeAt i l /\ removeAt i l `sublist_of` l
  /\ (length (removeAt i l) < length l)%nat.
Proof.
  intros H. unfold removeAt. pose proof (take_drop_middle l i x H) as E. conjs.
  - trans (take i l ++ x :: drop (S i) l); [by rewrite E|]. symmetry. apply Permutation_middle.
  - trans (take i l ++ x :: drop (S i) l); [|by rewrite E]. apply sublist_app; [done|]. by apply sublist_cons.
  - apply (f_equal length) in E. rewrite length_app in *. simpl in E. lia.
Qed.

Lemma removeAt_NoDup i l x : l !! i = Some x -> NoDup l -> NoDup (removeAt i l) /\ (forall y, y ∈ removeAt i l <-> y ∈ l /\ y <> x).
Proof.
  intros H Hnd. destruct (removeAt_spec i l x H) as (Hp & _ & _). set (r := removeAt i l) in *. clearbody r. rewrite Hp in Hnd. apply NoDup_cons in Hnd as [Hx Hnd].
  split; [done|]. intros y. rewrite Hp, elem_of_cons. split; [intros Hy; split; [by right|]; by intros ->|naive_solver].
Qed.

Lemma setHistory_twice m h h' : setHistory (setHistory m h) h' = setHistory m h'.
Proof. done. Qed.

Lemma trim_spec : forall n m, (length (m_history m) < n)%nat -> exists h,
  loop n (trimTurn cfg) m = Ret (setHistory m h) /\ h `sublist_of` m_history m
  /\ (forall id, id ∈ m_history m -> isFinished m id = false -> id ∈ h)
  /\ (c_MaxHistory cfg < len h -> forall id, id ∈ h -> isFinished m id = false)
  /\ (len (m_history m) <= c_MaxHistory cfg -> h = m_history m).
Proof.
  induction n as [|n IH]; intros m Hn; [lia|]. rewrite loop_S.
  assert (setHistory m (m_history m) = m) as Hid by (by destruct m).
  destruct (c_MaxHistory cfg <? len (m_history m)) eqn:E.
  2:{ assert (trimTurn cfg m = Ret (Break m)) as -> by (unfold trimTurn; by rewrite E).
      exists (m_history m). cbn [mbind go_bind]. bools. rewrite Hid. conjs; try done. lia. }
  destruct (findIndex (isFinished m) (m_history m)) as [i|] eqn:Ef.
  - destruct (findIndex_Some _ _ _ Ef) as (x & Hx & Hfin). destruct (removeAt_spec _ _ _ Hx) as (Hp & Hs & Hl).
    assert (trimTurn cfg m = Ret (Continue (setHistory m (removeAt i (m_history m))))) as -> by (unfold trimTurn; by rewrite E, Ef).
    cbn [mbind go_bind]. destruct (IH (setHistory m (removeAt i (m_history m)))) as (h & -> & Hsub & Hkeep & Htrim & _); [cbn; lia|].
    cbn [setHistory m_history] in Hsub, Hkeep. exists h. rewrite setHistory_twice. conjs; try done.
    + by etrans.
    + intros id Hid' Hf. apply Hkeep; [|done]. rewrite Hp, elem_of_cons in Hid'.
      destruct Hid' as [->|?]; [|done]. congruence.
    + bools. lia.
  - assert (trimTurn cfg m = Ret (Break m)) as -> by (unfold trimTurn; by rewrite E, Ef).
    exists (m_history m). cbn [mbind go_bind]. rewrite Hid. conjs; try done.
    + intros _. by apply findIndex_None.
Qed.

Lemma trimHistory_spec m : exists h,
  trimHistory cfg m = Ret (setHistory m h) /\ h `sublist_of` m_history m
  /\ (forall id, id ∈ m_history m -> isFinished m id = false -> id ∈ h)
  /\ (c_MaxHistory cfg < len h -> forall id, id ∈ h -> isFinished m id = false)
  /\ (len (m_history m) <= c_MaxHistory cfg -> h = m_history m).
Proof. apply trim_spec. lia. Qed.

Lemma isFinished_eq m id j : m_jobs m !! id = Some j -> isFinished m id = bool_decide (j_Status j = StatusFinished).
Proof. intros H. unfold isFinished. by rewrite H. Qed.

Lemma NoDup_sublist {A} (l k : list A) : l `sublist_of` k -> NoDup k -> NoDup l.
Proof. intros H Hk. eapply sublist_NoDup; eauto. Qed.

(** ** Moving a job *)

(** The parts of the state that a move does not touch. *)
Lemma resources_store m id j j' : m_jobs m !! id = Some j -> j_definition j' = j_definition j ->
  resources_ok cfg m -> resources_ok cfg (store m id j').
Proof.
  intros Hj Hd. apply resources_same. unfold sameResources. conjs; try done.
  intros k _. unfold defOf. cbn [store setJobs m_jobs].
  destruct (decide (k = id)) as [->|]; [rewrite lookup_insert_eq, Hj; cbn; by rewrite Hd|by rewrite lookup_insert_ne].
Qed.

Lemma resources_frame m m' : m_jobs m' = m_jobs m -> m_active m' = m_active m -> m_running m' = m_running m ->
  m_groupRunning m' = m_groupRunning m -> m_activeExclusiveKeys m' = m_activeExclusiveKeys m ->
  m_activeSharedKeys m' = m_activeSharedKeys m -> resources_ok cfg m -> resources_ok cfg m'.
Proof. intros Hj ? ? ? ? ?. apply resources_same. unfold sameResources, defOf. rewrite Hj. done. Qed.

Lemma transit_finish m x err aborted : inv_but (Some x) m -> exists m' j h,
  finishLocked cfg m x err aborted = Ret m' /\ inv m' /\ m_jobs m !! x = Some j
  /\ m_jobs m' = <[x := finishedJob j err aborted]> (m_jobs m) /\ m_queue m' = m_queue m /\ m_active m' = m_active m
  /\ m_shutdown m' = m_shutdown m /\ m_canceled m' = m_canceled m /\ m_timers m' = m_timers m
  /\ m_history m' = h /\ h `sublist_of` m_history m
  /\ (len (m_history m) <= c_MaxHistory cfg -> h = m_history m).
Proof.
  intros [V1 V2 V3 V4 V5 V6 V7 V8 V9 V10]. destruct (V8 x eq_refl) as (j & Hj & (Hd & Hr & Hk & Hg) & Hq & Ha & Hh & Hu).
  unfold finishLocked, deref. rewrite Hj. cbn [mbind go_bind]. rewrite bool_decide_eq_false_2 by done.
  rewrite bool_decide_eq_false_2 in Hd by done. rewrite Hd.
  set (j' := finishedJob j err aborted). set (m1 := notifyLocked _).
  destruct (trimHistory_spec m1) as (h & -> & Hsub & Hkeep & Htrim & Hsame).
  change (m_history m1) with (m_history m) in *.
  assert (m_jobs m1 = <[x := j']> (m_jobs m)) as Hj1 by done.
  assert (j_Status j' = StatusFinished) as Hfin by done.
  exists (setHistory m1 h), j, h. conjs; try done. constructor; cbn [setHistory m_jobs m_queue m_history m_active m_timers m_activeKeys];
    change (m_queue m1) with (m_queue m); change (m_active m1) with (m_active m); change (m_timers m1) with (m_timers m);
    change (m_activeKeys m1) with (m_activeKeys m ∖ {[j_Key j]}); rewrite ?Hj1.
  - apply (resources_frame (store m x j')); try done. by apply (resources_store m x j).
  - done.
  - intros id Hid. destruct (decide (id = x)) as [->|]; [by rewrite lookup_insert_eq|rewrite lookup_insert_ne by done; auto].
  - by eapply NoDup_sublist.
  - intros id Hid. destruct (decide (id = x)) as [->|]; [by rewrite lookup_insert_eq|rewrite lookup_insert_ne by done].
    apply V5. by eapply elem_of_sublist.
  - exact Htrim.
  - intros id ji Hji _. destruct (decide (id = x)) as [->|Hne].
    + rewrite lookup_insert_eq in Hji. injection Hji as <-. unfold job_ok. conjs; try done; try (rewrite Hfin; naive_solver).
    + rewrite lookup_insert_ne in Hji by done. destruct (V7 id ji Hji) as (K1 & K2 & K3 & K4 & K5); [congruence|].
      unfold job_ok. conjs; try apply K2; try apply K3; try done. intros Hun. apply Hkeep; [by apply K4|].
      rewrite (isFinished_eq m1 id ji) by (rewrite Hj1, lookup_insert_ne by done; done). by apply bool_decide_eq_false_2.
  - done.
  - intros k. rewrite elem_of_difference, elem_of_singleton, V9. split.
    + intros [(id & ji & Hji & Hun & Hke) Hne]. exists id, ji. conjs; try done.
      rewrite lookup_insert_ne; [done|]. intros <-. congruence.
    + intros (id & ji & Hji & Hun & Hke). destruct (decide (id = x)) as [->|Hne].
      { rewrite lookup_insert_eq in Hji. by injection Hji as <-. }
      rewrite lookup_insert_ne in Hji by done. split; [by exists id, ji|]. intros ->. apply Hne. by apply (V10 id x ji j).
  - intros id1 id2 j1 j2 H1 H2 Hu1 Hu2. destruct (decide (id1 = x)) as [->|], (decide (id2 = x)) as [->|].
    + done.
    + rewrite lookup_insert_eq in H1. by injection H1 as <-.
    + rewrite lookup_insert_eq in H2. by injection H2 as <-.
    + rewrite lookup_insert_ne in H1, H2 by done. by apply V10.
Qed.

(** The job on the move is stored with new flags. *)
Lemma transit_store m x j j' : inv_but (Some x) m -> m_jobs m !! x = Some j -> record_ok j' -> unfinished j' ->
  j_definition j' = j_definition j -> j_Key j' = j_Key j -> inv_but (Some x) (store m x j').
Proof.
  intros [V1 V2 V3 V4 V5 V6 V7 V8 V9 V10] Hj Hr' Hu' Hd Hk. destruct (V8 x eq_refl) as (j0 & Hj0 & Hr & Hq & Ha & Hh & Hu).
  assert (j0 = j) as -> by congruence.
  assert (forall id ji, <[x := j']> (m_jobs m) !! id = Some ji -> exists jo, m_jobs m !! id = Some jo
    /\ j_Key jo = j_Key ji /\ (unfinished ji -> unfinished jo) /\ (id <> x -> jo = ji)) as Hback.
  { intros id ji. destruct (decide (id = x)) as [->|Hne]; [rewrite lookup_insert_eq; intros [= <-]; exists j; conjs; done|].
    rewrite lookup_insert_ne by done. intros H. by exists ji. }
  constructor; cbn [store setJobs m_jobs m_queue m_history m_active m_activeKeys]; try done.
  - by apply (resources_store m x j).
  - intros id Hid. destruct (decide (id = x)) as [->|]; [by rewrite lookup_insert_eq|rewrite lookup_insert_ne by done; auto].
  - intros id Hid. destruct (decide (id = x)) as [->|]; [by rewrite lookup_insert_eq|rewrite lookup_insert_ne by done; auto].
  - intros Hlen id Hid. destruct (decide (id = x)) as [->|].
    + unfold isFinished. cbn [store setJobs m_jobs]. rewrite lookup_insert_eq. by apply bool_decide_eq_false_2.
    + unfold isFinished. cbn [store setJobs m_jobs]. rewrite lookup_insert_ne by done. by apply (V6 Hlen id Hid).
  - intros id ji Hji Hne. rewrite lookup_insert_ne in Hji by congruence. by apply V7.
  - intros id [= <-]. exists j'. by rewrite lookup_insert_eq.
  - intros k. rewrite V9. split.
    + intros (id & ji & Hji & Hun & Hke). destruct (decide (id = x)) as [->|].
      * exists x, j'. rewrite lookup_insert_eq. conjs; try done. congruence.
      * exists id, ji. rewrite lookup_insert_ne by done. done.
    + intros (id & ji & Hji & Hun & Hke). destruct (Hback id ji Hji) as (jo & ? & ? & ? & _). exists id, jo. conjs; auto. congruence.
  - intros id1 id2 j1 j2 H1 H2 Hu1 Hu2 He. destruct (Hback _ _ H1) as (o1 & ? & ? & ? & _), (Hback _ _ H2) as (o2 & ? & ? & ? & _).
    apply (V10 id1 id2 o1 o2); auto. congruence.
Qed.

(** The job on the move arrives: it is queued, put in standby, or active. *)
Lemma transit_arrives m m' x j' : inv_but (Some x) m -> m_jobs m !! x = Some j' -> resources_ok cfg m' ->
  m_jobs m' = m_jobs m -> m_history m' = m_history m -> m_activeKeys m' = m_activeKeys m -> m_shutdown m' = m_shutdown m ->
  NoDup (m_queue m') -> (forall id, id <> x -> (id ∈ m_queue m' <-> id ∈ m_queue m)) ->
  (forall id, id <> x -> (id ∈ m_active m' <-> id ∈ m_active m)) -> (forall id, id ∈ m_timers m -> id ∈ m_timers m') ->
  (x ∈ m_queue m' <-> j_Status j' = StatusQueued) -> (x ∈ m_active m' <-> j_Status j' = StatusRunning) ->
  (j_Status j' = StatusStandby -> j_HasAborted j' = false /\ x ∈ m_timers m') -> inv m'.
Proof.
  intros [V1 V2 V3 V4 V5 V6 V7 V8 V9 V10] Hj Hres Ej Eh Ek Esd Hnd Hq Ha Ht Hxq Hxa Hxt.
  destruct (V8 x eq_refl) as (j0 & Hj0 & Hr & _ & _ & Hh & Hu). assert (j0 = j') as -> by congruence.
  constructor; rewrite ?Ej, ?Eh, ?Ek; try done.
  - intros id Hid. destruct (decide (id = x)) as [->|Hne]; [by rewrite Hj|]. apply V3. by apply Hq.
  - intros Hlen id Hid. unfold isFinished. rewrite Ej. by apply (V6 Hlen id Hid).
  - intros id ji Hji _. unfold job_ok. rewrite Eh, Esd. destruct (decide (id = x)) as [->|Hne].
    + assert (ji = j') as -> by congruence. conjs; try done; [tauto..|]. intros Hs. by destruct (Hxt Hs).
    + rewrite Hq, Ha by done. destruct (V7 id ji Hji) as (? & ? & ? & ? & Hst); [congruence|]. conjs; try done; try tauto.
      intros Hs. destruct (Hst Hs). split; auto.
Qed.

(** A job leaves the active set, the queue or standby. *)
Lemma departs m m' x j : inv m -> m_jobs m !! x = Some j -> unfinished j -> resources_ok cfg m' ->
  m_jobs m' = m_jobs m -> m_history m' = m_history m -> m_activeKeys m' = m_activeKeys m -> m_timers m' = m_timers m ->
  m_shutdown m' = m_shutdown m ->
  NoDup (m_queue m') -> (forall id, id ∈ m_queue m' <-> id ∈ m_queue m /\ id <> x) ->
  (forall id, id <> x -> (id ∈ m_active m' <-> id ∈ m_active m)) -> x ∉ m_active m' -> inv_but (Some x) m'.
Proof.
  intros [V1 V2 V3 V4 V5 V6 V7 _ V9 V10] Hj Hu Hres Ej Eh Ek Et Esd Hnd Hq Ha Hxa.
  destruct (V7 x j Hj) as (Hr & _ & _ & Hh & _); [done|].
  constructor; rewrite ?Ej, ?Eh, ?Ek; try done.
  - intros id Hid. apply V3. by apply Hq.
  - intros Hlen id Hid. unfold isFinished. rewrite Ej. by apply (V6 Hlen id Hid).
  - intros id ji Hji Hne. destruct (V7 id ji Hji) as (? & ? & ? & ? & ?); [done|].
    assert (id <> x) by congruence. unfold job_ok. rewrite Eh, Et, Esd, Hq, Ha by done. conjs; try done; tauto.
  - intros id [= <-]. exists j. split; [done|]. unfold transit_ok. rewrite Eh. conjs; auto. rewrite Hq. tauto.
Qed.

(** ** Choosing *)

Definition blocks (m : Manager) (di : JobDefinition) (dw : JobDefinition) : Prop :=
  (forall dep, dep ∈ d_DependsOn dw -> dep ∉ m_activeKeys m)
  /\ exists key, key ∈ d_ExclusiveKeys dw /\ key ∈ d_SharedKeys di.

Lemma blockedBy_spec m item ji : m_jobs m !! item = Some ji -> forall queue,
  (forall id, id ∈ queue -> is_Some (m_jobs m !! id)) -> exists b, blockedBy m item queue = Ret b
  /\ (b = true <-> exists w jw, w ∈ queue /\ w <> item /\ m_jobs m !! w = Some jw /\ blocks m (j_definition ji) (j_definition jw)).
Proof.
  intros Hi. induction queue as [|w queue IH]; intros Hdom; cbn [blockedBy].
  { exists false. split; [done|]. split; [done|]. intros (w & jw & Hw & _). by apply not_elem_of_nil in Hw. }
  destruct IH as (b & Eb & Hb); [set_solver|]. rewrite Eb.
  destruct (Hdom w) as [jw Hjw]; [set_solver|].
  assert (exists c, blocksReader m item w = Ret c /\ (c = true <-> w <> item /\ blocks m (j_definition ji) (j_definition jw)))
    as (c & -> & Hc).
  { unfold blocksReader. destruct (Z.eqb_spec w item) as [->|Hne]; [exists false; split; [done|]; naive_solver|].
    unfold deref. rewrite Hjw, Hi. cbn [mbind go_bind]. eexists. split; [done|].
    rewrite andb_true_iff, forallb_forall, existsb_exists. unfold blocks. split.
    - intros [H1 (k & Hk & H2)]. split; [done|]. apply existsb_exists in H2 as (k' & Hk' & E). apply bool_decide_eq_true in E as <-.
      split; [|exists k; by rewrite !list_elem_of_In]. intros dep Hdep. apply list_elem_of_In, H1 in Hdep.
      by apply negb_true_iff, bool_decide_eq_false in Hdep.
    - intros [_ [H1 (k & Hk & Hk')]]. rewrite list_elem_of_In in Hk, Hk'. split.
      + intros dep Hdep. apply negb_true_iff, bool_decide_eq_false, H1. by apply list_elem_of_In.
      + exists k. split; [done|]. apply existsb_exists. exists k. by rewrite bool_decide_eq_true_2. }
  exists (c || b). rewrite goor_Ret. split; [done|]. rewrite orb_true_iff, Hb, Hc. split.
  - intros [[Hne Hbl]|(w' & jw' & Hw' & H)]; [exists w, jw|exists w', jw']; set_solver.
  - intros (w' & jw' & [->|Hw']%elem_of_cons & Hne & Hjw' & Hbl); [left; split; [done|]; congruence|right; by exists w', jw'].
Qed.

(** A queued job can be started now. *)
Definition canRun (m : Manager) (id : Z) (j : Job) : Prop :=
  admissible cfg m (j_definition j)
  /\ ~ exists w jw, w ∈ m_queue m /\ w <> id /\ m_jobs m !! w = Some jw /\ blocks m (j_definition j) (j_definition jw).

Lemma runnable_spec m id j : (forall k, k ∈ m_queue m -> is_Some (m_jobs m !! k)) -> m_jobs m !! id = Some j ->
  exists b, runnable cfg m id = Ret b /\ (b = true <-> canRun m id j).
Proof.
  intros Hdom Hj. unfold runnable, deref, canRun, admissible. rewrite Hj. cbn [mbind go_bind].
  set (d := j_definition j). set (g := d_ConcurrencyGroup d).
  destruct (negb (independent cfg g) && (c_MaxConcurrentJobs cfg <=? sharedRunning cfg m)) eqn:E1.
  { exists false. split; [done|]. bools. split; [done|]. intros [(A & _) _]. specialize (A H). lia. }
  destruct ((groupLimit cfg g <=? 0) || (groupLimit cfg g <=? default 0 (m_groupRunning m !! g))) eqn:E2.
  { exists false. split; [done|]. split; [done|]. intros [(_ & A1 & A2 & _) _]. apply orb_true_iff in E2 as [?|?]; bools; lia. }
  destruct (blockedBy_spec m id j Hj (m_queue m) Hdom) as (b & Eb & Hb). unfold blockedByWriterLocked. rewrite Eb. cbn [mbind go_bind].
  assert (independent cfg g = false -> sharedRunning cfg m < c_MaxConcurrentJobs cfg) as HA1.
  { intros E. rewrite E in E1. simpl in E1. by apply Z.leb_gt in E1. }
  bools. destruct b.
  - exists false. split; [done|]. split; [done|]. intros [_ H1]. destruct H1. by apply Hb.
  - eexists. split; [done|]. split.
    + intros H1. conjs; try done. intros Hex. by apply Hb in Hex.
    + by intros [(_ & _ & _ & ?) _].
Qed.

Definition canRunId (m : Manager) (id : Z) : Prop := exists j, m_jobs m !! id = Some j /\ canRun m id j.
Definition priorityOf (m : Manager) (id : Z) : Z := match m_jobs m !! id with Some j => d_Priority (j_definition j) | None => 0 end.

(** Of the jobs that can run, the first one of the highest priority. *)
Definition selected (m : Manager) (l : list Z) (sel : option nat) : Prop :=
  match sel with
  | None => forall id, id ∈ l -> ~ canRunId m id
  | Some s => exists id, l !! s = Some id /\ canRunId m id
      /\ forall k id', l !! k = Some id' -> canRunId m id' ->
           priorityOf m id' <= priorityOf m id /\ ((k < s)%nat -> priorityOf m id' < priorityOf m id)
  end.

Lemma selectFrom_spec m : (forall k, k ∈ m_queue m -> is_Some (m_jobs m !! k)) -> forall rest pre sel,
  m_queue m = pre ++ rest -> selected m pre sel ->
  exists sel', selectFrom cfg m (length pre) sel rest = Ret sel' /\ selected m (m_queue m) sel'.
Proof.
  intros Hdom. induction rest as [|id rest IH]; intros pre sel Hq Hsel; cbn [selectFrom].
  { exists sel. split; [done|]. by rewrite Hq, app_nil_r. }
  destruct (Hdom id) as [j Hj]; [rewrite Hq; set_solver|].
  destruct (runnable_spec m id j Hdom Hj) as (b & -> & Hb). cbn [mbind go_bind].
  assert (canRunId m id <-> b = true) as Hb'.
  { rewrite Hb. unfold canRunId. split; [intros (j' & ? & ?); congruence|by exists j]. }
  assert (priorityOf m id = d_Priority (j_definition j)) as Hprio by (unfold priorityOf; by rewrite Hj).
  assert (exists c : bool, (if (b : bool) then match sel with
      | None => Ret true
      | Some s => idx (m_queue m) (Z.of_nat s) ≫= fun other => priority m id ≫= fun p =>
          priority m other ≫= fun q => Ret (q <? p)
      end else Ret false) = Ret c
    /\ selected m (pre ++ [id]) (if c then Some (length pre) else sel)) as (c & -> & Hc).
  2:{ cbn [mbind go_bind]. destruct (IH (pre ++ [id]) (if c then Some (length pre) else sel)) as (sel' & E & H).
      - by rewrite <- app_assoc.
      - done.
      - rewrite length_app, Nat.add_1_r in E. by exists sel'. }
  destruct b.
  2:{ exists false. split; [done|]. assert (~ canRunId m id) as Hno by (rewrite Hb'; done). destruct sel as [s|].
      - destruct Hsel as (x & Hx & Hrx & Hbest). exists x. conjs; [by apply lookup_app_l_Some|done|].
        intros k id' [Hk|[Hk Hid']]%lookup_app_Some; [by apply Hbest|]. intros Hr.
        destruct (k - length pre)%nat; [injection Hid' as <-; done|done].
      - intros x [Hx|Hx%list_elem_of_singleton]%elem_of_app; [by apply Hsel|by subst]. }
  assert (canRunId m id) as Hid by (by apply Hb'). destruct sel as [s|].
  - destruct Hsel as (x & Hx & Hrx & Hbest). pose proof Hrx as (jx & Hjx & _).
    rewrite (idx_lookup _ _ x) by (lia || (rewrite Nat2Z.id, Hq; by apply lookup_app_l_Some)). cbn [mbind go_bind].
    unfold priority, deref. rewrite Hj, Hjx. cbn [mbind go_bind].
    assert (priorityOf m x = d_Priority (j_definition jx)) as Hpx by (unfold priorityOf; by rewrite Hjx).
    eexists. split; [done|]. rewrite <- Hprio, <- Hpx. destruct (Z.ltb_spec (priorityOf m x) (priorityOf m id)) as [Hlt|Hge].
    + exists id. conjs; [by apply list_lookup_middle|done|].
      intros k id' [Hk|[Hk Hid']]%lookup_app_Some Hr; [destruct (Hbest k id' Hk Hr); split; lia|].
      destruct (k - length pre)%nat eqn:Ek; [|done]. injection Hid' as <-. split; [lia|]. intros. lia.
    + exists x. conjs; [by apply lookup_app_l_Some|done|].
      intros k id' [Hk|[Hk Hid']]%lookup_app_Some Hr; [by apply Hbest|].
      destruct (k - length pre)%nat eqn:Ek; [|done]. injection Hid' as <-. split; [done|].
      apply lookup_lt_Some in Hx. lia.
  - exists true. split; [done|]. exists id. conjs; [by apply list_lookup_middle|done|].
    intros k id' [Hk|[Hk Hid']]%lookup_app_Some Hr; [by destruct (Hsel id' (list_elem_of_lookup_2 _ _ _ Hk))|].
    destruct (k - length pre)%nat eqn:Ek; [|done]. injection Hid' as <-. split; [lia|]. intros. lia.
Qed.

(** One step of [dispatchLocked]: nothing can run, or the chosen job starts. *)
Lemma pop_spec m : inv m ->
  (popRunnableQueueLocked cfg m = Ret (m, None) /\ forall id, id ∈ m_queue m -> ~ canRunId m id)
  \/ exists i id j, m_queue m !! i = Some id /\ selected m (m_queue m) (Some i) /\ m_jobs m !! id = Some j /\ canRun m id j
     /\ popRunnableQueueLocked cfg m = Ret (setQueue m (removeAt i (m_queue m)), Some id)
     /\ j_Status j = StatusQueued /\ inv_but (Some id) (setQueue m (removeAt i (m_queue m))).
Proof.
  intros Hinv. pose proof Hinv as [V1 V2 V3 V4 V5 V6 V7 V8 V9 V10]. unfold popRunnableQueueLocked.
  destruct (selectFrom_spec m V3 (m_queue m) [] None eq_refl) as (sel & E & Hsel).
  { intros id Hid. by apply not_elem_of_nil in Hid. }
  simpl length in E. rewrite E. cbn [mbind go_bind]. destruct sel as [i|]; [right|left; done].
  pose proof Hsel as (id & Hi & (j & Hj & Hrun) & _). exists i, id, j.
  rewrite (idx_lookup _ _ id) by (lia || by rewrite Nat2Z.id). cbn [mbind go_bind].
  assert (id ∈ m_queue m) as Hin by (by eapply list_elem_of_lookup_2).
  destruct (V7 id j Hj) as (Hr & Hq & Ha & Hh & Ht); [done|]. assert (j_Status j = StatusQueued) as Hs by (by apply Hq).
  conjs; try done. destruct (removeAt_NoDup i (m_queue m) id Hi V2) as [Hnd Hmem].
  apply (departs m _ id j); try done.
  - unfold unfinished. congruence.
  - by apply (resources_frame m).
  - cbn [setQueue m_active]. rewrite Ha. congruence.
Qed.

Lemma start_spec m i id j : inv m -> m_queue m !! i = Some id -> m_jobs m !! id = Some j -> canRun m id j ->
  inv_but (Some id) (setQueue m (removeAt i (m_queue m))) -> j_Status j = StatusQueued ->
  exists m', startJobLocked (setQueue m (removeAt i (m_queue m))) id = Ret m' /\ inv m'
  /\ m_jobs m' = <[id := withStatus j StatusRunning]> (m_jobs m) /\ m_queue m' = removeAt i (m_queue m)
  /\ m_shutdown m' = m_shutdown m /\ m_history m' = m_history m /\ m_timers m' = m_timers m.
Proof.
  intros Hinv Hi Hj [Hadm _] Hbut Hs. set (m1 := setQueue m _) in *.
  destruct (startJobLocked_eq cfg m1 id j Hj) as (m' & -> & Hjobs & Hact & Hq & Hh & Ht & Hk & Hsd & Hdef & Hcan & Hres).
  pose proof Hbut as [B1 B2 B3 B4 B5 B6 B7 B8 B9 B10]. destruct (B8 id eq_refl) as (j0 & Hj0 & Hr & Hnq & Hna & Hnh & Hun).
  assert (j0 = j) as -> by (cbn in Hj0; congruence).
  exists m'. conjs; try done. pose proof (Hres Hna B1 Hadm) as Hres'.
  apply (transit_arrives (store m1 id (withStatus j StatusRunning)) m' id (withStatus j StatusRunning)); try done.
  - apply (transit_store m1 id j); try done.
    + destruct Hr as (R1 & R2 & R3 & R4). unfold record_ok. cbn. conjs; try done; try lia. rewrite R1, Hs. done.
  - cbn [store setJobs m_jobs]. by rewrite lookup_insert_eq.
  - rewrite Hq. done.
  - intros k Hne. by rewrite Hq.
  - intros k Hne. rewrite Hact. cbn. set_solver.
  - intros k Hkt. by rewrite Ht.
  - rewrite Hq. cbn [withStatus j_Status]. naive_solver.
  - rewrite Hact. cbn [withStatus j_Status]. set_solver.
Qed.

(** [dispatchLocked] ends, keeps the invariant, and leaves no job waiting that
    can run. *)
Definition settled (m : Manager) : Prop := m_shutdown m = false -> forall id, id ∈ m_queue m -> ~ canRunId m id.

(** How one job's record may change. *)
Definition onlyStarts (m m' : Manager) : Prop := forall id,
  m_jobs m' !! id = m_jobs m !! id
  \/ exists j, m_jobs m !! id = Some j /\ j_Status j = StatusQueued /\ m_jobs m' !! id = Some (withStatus j StatusRunning).

Lemma dispatch_spec : forall n m, inv m -> (length (m_queue m) < n)%nat ->
  exists m', loop n (dispatchTurn cfg) m = Ret m' /\ inv m' /\ settled m' /\ m_shutdown m' = m_shutdown m
  /\ m_history m' = m_history m /\ m_timers m' = m_timers m /\ onlyStarts m m'.
Proof.
  induction n as [|n IH]; intros m Hinv Hn; [lia|]. rewrite loop_S.
  assert (onlyStarts m m) as Hrefl by (intros id; by left).
  destruct ((0 <? len (m_queue m)) && negb (m_shutdown m)) eqn:E.
  2:{ assert (dispatchTurn cfg m = Ret (Break m)) as -> by (unfold dispatchTurn; by rewrite E).
      exists m. conjs; try done. intros Hsd id Hid. rewrite Hsd, andb_true_r in E. apply Z.ltb_ge in E.
      destruct (m_queue m); [by apply not_elem_of_nil in Hid|simpl in E; lia]. }
  destruct (pop_spec m Hinv) as [[Epop Hnone]|(i & id & j & Hi & _ & Hj & Hrun & Epop & Hs & Hbut)].
  - assert (dispatchTurn cfg m = Ret (Break m)) as -> by (unfold dispatchTurn; by rewrite E, Epop).
    exists m. conjs; try done. by intros _.
  - destruct (start_spec m i id j Hinv Hi Hj Hrun Hbut Hs) as (m1 & Est & Hinv1 & Hjobs1 & Hq1 & Hsd1 & Hh1 & Ht1).
    assert (dispatchTurn cfg m = Ret (Continue m1)) as ->.
    { unfold dispatchTurn. rewrite E, Epop. cbn [mbind go_bind]. by rewrite Est. }
    cbn [mbind go_bind]. destruct (IH m1 Hinv1) as (m2 & -> & ? & ? & ? & ? & ? & Honly).
    { rewrite Hq1. destruct (removeAt_spec i (m_queue m) id Hi) as (_ & _ & ?). lia. }
    exists m2. conjs; try done; try congruence. intros k. destruct (decide (k = id)) as [->|Hne].
    + destruct (Honly id) as [->|(j' & Hj' & Hs' & _)]; rewrite Hjobs1, lookup_insert_eq in *; [right; by exists j|].
      injection Hj' as <-. done.
    + specialize (Honly k). rewrite Hjobs1, lookup_insert_ne in Honly by done. done.
Qed.

Lemma dispatchLocked_spec m : inv m -> exists m', dispatchLocked cfg m = Ret m' /\ inv m' /\ settled m'
  /\ m_shutdown m' = m_shutdown m /\ m_history m' = m_history m /\ m_timers m' = m_timers m /\ onlyStarts m m'.
Proof. intros Hinv. apply dispatch_spec; [done|lia]. Qed.

(** ** Operations *)

Lemma NewManager_inv : inv NewManager.
Proof.
  constructor; cbn [NewManager m_queue m_history m_jobs m_activeKeys m_active]; try (by apply NoDup_nil_2);
    try (intros ? H; by apply not_elem_of_nil in H); try done.
  - constructor; unfold sumA; cbn [NewManager m_active m_running m_groupRunning m_activeExclusiveKeys m_activeSharedKeys];
      rewrite ?elements_empty; try done; try (simpl; lia); set_solver.
  - intros k. split; [set_solver|]. intros (id & j & H & _). done.
Qed.

(** Adding a job whose key is free to the store, the history and the queue. *)
Lemma enqueued_inv m id def h : inv m -> m_jobs m !! id = None -> d_Key def ∉ m_activeKeys m ->
  0 < groupLimit cfg (d_ConcurrencyGroup def) ->
  let item := mkJob (d_Key def) (d_Name def) StatusQueued 0 false false false None def false in
  let m1 := store m id item in
  h `sublist_of` m_history m ++ [id] ->
  (forall k, k ∈ m_history m ++ [id] -> isFinished m1 k = false -> k ∈ h) ->
  (c_MaxHistory cfg < len h -> forall k, k ∈ h -> isFinished m1 k = false) ->
  let m2 := setHistory m1 h in
  inv (notifyLocked (setActiveKeys (setQueue m2 (m_queue m2 ++ [id])) (m_activeKeys m2 ∪ {[d_Key def]}))).
Proof.
  intros [V1 V2 V3 V4 V5 V6 V7 V8 V9 V10] Hnew Hkey Hlim item m1 Hsub Hkeep Htrim m2.
  assert (id ∉ m_queue m) as Hnq by (intros H; apply V3 in H; rewrite Hnew in H; by destruct H).
  assert (id ∉ m_history m) as Hnh by (intros H; apply V5 in H; rewrite Hnew in H; by destruct H).
  assert (id ∉ m_active m) as Hna by (intros H; apply (r_dom cfg m V1) in H; rewrite Hnew in H; by destruct H).
  assert (m_jobs m2 = <[id := item]> (m_jobs m)) as Hj2 by done.
  assert (forall k j, m_jobs m !! k = Some j -> <[id := item]> (m_jobs m) !! k = Some j) as Hold.
  { intros k j Hk. rewrite lookup_insert_ne; [done|]. intros ->. congruence. }
  constructor; cbn [notifyLocked setActiveKeys setQueue m_jobs m_queue m_history m_active m_activeKeys m_timers]; rewrite ?Hj2;
    change (m_queue m2) with (m_queue m); change (m_history m2) with h; change (m_activeKeys m2) with (m_activeKeys m).
  - apply (resources_same cfg m); [|done]. unfold sameResources. conjs; try done. intros k Hk. unfold defOf.
    cbn [notifyLocked setActiveKeys setQueue m_jobs]. rewrite Hj2, lookup_insert_ne; [done|]. intros ->. done.
  - apply NoDup_app. conjs; [done|set_solver|apply NoDup_singleton].
  - intros k [Hk| ->%list_elem_of_singleton]%elem_of_app; [|by rewrite lookup_insert_eq].
    destruct (V3 k Hk) as [j Hj]. rewrite (Hold k j Hj). by eexists.
  - eapply NoDup_sublist; [exact Hsub|]. apply NoDup_app. conjs; [done|set_solver|apply NoDup_singleton].
  - intros k Hk. eapply elem_of_sublist in Hk; [|exact Hsub]. apply elem_of_app in Hk as [Hk| ->%list_elem_of_singleton].
    + destruct (V5 k Hk) as [j Hj]. rewrite (Hold k j Hj). by eexists.
    + by rewrite lookup_insert_eq.
  - exact Htrim.
  - intros k j Hk _. unfold job_ok. cbn [notifyLocked setActiveKeys setQueue m_queue m_active m_history m_timers].
    change (m_queue m2) with (m_queue m). change (m_active m2) with (m_active m). change (m_timers m2) with (m_timers m).
    change (m_history m2) with h. rewrite elem_of_app, list_elem_of_singleton. destruct (decide (k = id)) as [->|Hne].
    + rewrite lookup_insert_eq in Hk. injection Hk as <-. unfold record_ok. cbn [item j_done j_Status j_RetryCount j_Key j_definition].
      conjs; try done; try lia; [tauto|].
      intros _. apply Hkeep; [set_solver|]. unfold isFinished. cbn [m1 store setJobs m_jobs]. rewrite lookup_insert_eq. done.
    + rewrite lookup_insert_ne in Hk by done. destruct (V7 k j Hk) as (K1 & K2 & K3 & K4 & K5); [done|].
      conjs; try done; try tauto.
      intros Hu. apply Hkeep; [apply elem_of_app; left; auto|]. unfold isFinished. cbn [m1 store setJobs m_jobs].
      rewrite lookup_insert_ne, Hk by done. by apply bool_decide_eq_false_2.
  - done.
  - intros k. rewrite elem_of_union, elem_of_singleton, V9. split.
    + intros [(i & j & Hj & Hu & Hk)| ->]; [exists i, j|exists id, item; by rewrite lookup_insert_eq].
      rewrite (Hold i j Hj). done.
    + intros (i & j & Hj & Hu & Hk). destruct (decide (i = id)) as [->|Hne].
      * rewrite lookup_insert_eq in Hj. injection Hj as <-. by right.
      * rewrite lookup_insert_ne in Hj by done. left. by exists i, j.
  - intros i1 i2 j1 j2 H1 H2 Hu1 Hu2 He.
    assert (forall i j, m_jobs m !! i = Some j -> unfinished j -> j_Key j <> d_Key def) as Hfree.
    { intros i j Hj Hu E. apply Hkey, V9. by exists i, j. }
    destruct (decide (i1 = id)) as [->|], (decide (i2 = id)) as [->|]; try done;
      rewrite ?lookup_insert_eq, ?lookup_insert_ne in * by done; simplify_eq.
    + by destruct (Hfree i2 j2).
    + by destruct (Hfree i1 j1).
    + by apply (V10 i1 i2 j1 j2).
Qed.

(** Which definitions are refused. *)
Definition invalid (def : JobDefinition) : bool :=
  bool_decide (d_Key def = EmptyString) || negb (d_HasHandler def)
  || negb (bool_decide (d_ConcurrencyGroup def = EmptyString))
     && (default 0 (c_GroupLimits cfg !! d_ConcurrencyGroup def) <=? 0).

Lemma valid_limit def : 0 < c_MaxConcurrentJobs cfg -> invalid def = false -> 0 < groupLimit cfg (d_ConcurrencyGroup def).
Proof.
  intros Hc Hv. unfold invalid in Hv. apply orb_false_iff in Hv as [_ Hv]. unfold groupLimit.
  case_bool_decide; [done|]. simpl in Hv. by apply Z.leb_gt in Hv.
Qed.

Lemma enqueueLocked_spec m def id : inv m -> m_jobs m !! id = None -> 0 < c_MaxConcurrentJobs cfg ->
  (m_shutdown m = true /\ enqueueLocked cfg m def id = Err ErrManagerShutdown)
  \/ (m_shutdown m = false /\ invalid def = true /\ enqueueLocked cfg m def id = Err ErrInvalidDefinition)
  \/ (m_shutdown m = false /\ invalid def = false /\ d_Key def ∈ m_activeKeys m
      /\ enqueueLocked cfg m def id = Err ErrJobAlreadyRunning)
  \/ exists m', m_shutdown m = false /\ enqueueLocked cfg m def id = Ret (m', id) /\ inv m' /\ settled m'
      /\ m_shutdown m' = false
      /\ exists j, m_jobs m' !! id = Some j /\ j_definition j = def /\ unfinished j.
Proof.
  intros Hinv Hnew Hc. unfold enqueueLocked. destruct (m_shutdown m) eqn:Esd; [by left|right].
  fold (invalid def). destruct (invalid def) eqn:Ev; [by left|right].
  destruct (decide (d_Key def ∈ m_activeKeys m)) as [Hk|Hk].
  { left. rewrite bool_decide_eq_true_2 by done. done. }
  right. rewrite bool_decide_eq_false_2 by done. unfold addHistoryLocked.
  set (item := mkJob _ _ _ _ _ _ _ _ _ _). set (m0 := setHistory _ _).
  destruct (trimHistory_spec m0) as (h & -> & Hsub & Hkeep & Htrim & _). cbn [mbind go_bind].
  pose proof (enqueued_inv m id def h Hinv Hnew Hk (valid_limit def Hc Ev) Hsub Hkeep Htrim) as Hinv1. cbv zeta in Hinv1.
  destruct (dispatchLocked_spec _ Hinv1) as (m' & E & Hinv' & Hset & Hsd & _ & _ & Honly).
  exists m'. conjs; try done.
  - set (x := notifyLocked _) in E.
    match goal with |- (dispatchLocked cfg ?y ≫= _) = _ => change y with x end. by rewrite E.
  - rewrite Hsd. done.
  - destruct (Honly id) as [->|(j & Hj & _ & ->)].
    + exists item. cbn. rewrite lookup_insert_eq. done.
    + cbn in Hj. rewrite lookup_insert_eq in Hj. injection Hj as <-. by eexists.
Qed.

Lemma finishRun_spec m id j err : inv m -> m_jobs m !! id = Some j -> j_Status j = StatusRunning ->
  exists m', finishRun cfg m id err = Ret m' /\ inv m' /\ settled m' /\ m_shutdown m' = m_shutdown m.
Proof.
  intros Hinv Hj Hs. pose proof Hinv as [V1 V2 V3 V4 V5 V6 V7 V8 V9 V10].
  destruct (V7 id j Hj) as (Hr & Hq & Ha & Hh & Ht); [done|]. assert (id ∈ m_active m) as Hact by (by apply Ha).
  assert (id ∉ m_queue m) as Hnq by (rewrite Hq; congruence). unfold finishRun.
  destruct (completeActiveLocked_eq cfg m id j Hj) as (m1 & -> & Ej & Ea & Eq & Eh & Et & Ek & Esd & _ & _ & Hres).
  cbn [mbind go_bind]. unfold deref. rewrite Ej, Hj. cbn [mbind go_bind].
  assert (inv_but (Some id) m1) as Hbut.
  { apply (departs m m1 id j); try done.
    - unfold unfinished. congruence.
    - auto.
    - by rewrite Eq.
    - intros k. rewrite Eq. split; [|by intros []]. intros Hk. split; [done|]. by intros ->.
    - intros k Hne. rewrite Ea. set_solver.
    - rewrite Ea. set_solver. }
  assert (forall e, exists m2, finishLocked cfg m1 id e (j_HasAborted j) = Ret m2 /\ inv m2 /\ m_shutdown m2 = m_shutdown m) as Hfin.
  { intros e. destruct (transit_finish m1 id e (j_HasAborted j) Hbut) as (m2 & j2 & h & -> & Hinv2 & _ & _ & _ & _ & Hsd2 & _).
    exists m2. conjs; try done. congruence. }
  assert (exists m2, match err with
      | Some e => if negb (j_HasAborted j) && shouldRetryLocked m1 j err then standbyLocked m1 id e else finishLocked cfg m1 id err (j_HasAborted j)
      | None => finishLocked cfg m1 id err (j_HasAborted j) end = Ret m2 /\ inv m2 /\ m_shutdown m2 = m_shutdown m) as (m2 & -> & Hinv2 & Hsd2).
  { destruct err as [e|]; [|apply Hfin]. destruct (negb (j_HasAborted j) && shouldRetryLocked m1 j (Some e)) eqn:Eretry; [|apply Hfin].
    apply andb_true_iff in Eretry as [Eab Eretry].
    apply negb_true_iff in Eab. unfold shouldRetryLocked in Eretry.
    destruct (_ || _ || _) eqn:Eg in Eretry; [done|]. apply orb_false_iff in Eg as [Eg _]. apply orb_false_iff in Eg as [_ Eg].
    apply Z.leb_gt in Eg. destruct Hr as (R1 & R2 & R3 & R4).
    unfold standbyLocked, deref. rewrite Ej, Hj. cbn [mbind go_bind].
    destruct (lookup_lt_is_Some_2 (d_RetryDelays (j_definition j)) (Z.to_nat (j_RetryCount j))) as [delay Hdelay]; [lia|].
    rewrite (idx_lookup _ _ delay) by (done || lia). cbn [mbind go_bind].
    set (j' := mkJob _ _ _ _ _ _ _ _ _ _). eexists. split; [done|]. split; [|exact Esd].
    apply (transit_arrives (store m1 id j') _ id j'); try done.
    - apply (transit_store m1 id j); try done; [congruence|]. unfold record_ok. cbn [j' j_done j_Status j_RetryCount j_Key j_definition].
      rewrite R1, Hs. conjs; try done; lia.
    - cbn [store setJobs m_jobs]. by rewrite lookup_insert_eq.
    - apply (resources_frame (store m1 id j')); try done. apply (resources_store m1 id j); [congruence|done|]. by apply Hres.
    - cbn. by rewrite Eq.
    - intros k Hk. cbn. set_solver.
    - cbn. rewrite Eq. split; [done|]. done.
    - cbn. rewrite Ea. split; [set_solver|done].
    - intros _. split; [done|]. apply elem_of_app. right. by apply list_elem_of_singleton. }
  cbn [mbind go_bind]. destruct (dispatchLocked_spec m2 Hinv2) as (m3 & -> & ? & ? & ? & _). exists m3. conjs; try done. congruence.
Qed.

(** A job in standby is on nobody's list. *)
Lemma standby_departs m id j : inv m -> m_jobs m !! id = Some j -> j_Status j = StatusStandby -> inv_but (Some id) m.
Proof.
  intros Hinv Hj Hs. pose proof Hinv as [V1 V2 _ _ _ _ V7 _ _ _].
  destruct (V7 id j Hj) as (Hr & Hq & Ha & Hh & Ht); [done|].
  assert (id ∉ m_queue m) by (rewrite Hq; congruence). assert (id ∉ m_active m) by (rewrite Ha; congruence).
  apply (departs m m id j); try done; [unfold unfinished; congruence|].
  intros k. split; [|by intros []]. intros Hk. split; [done|]. by intros ->.
Qed.

Lemma removeTimer_elem m id k : k <> id -> k ∈ m_timers m -> k ∈ m_timers (removeTimer m id).
Proof.
  intros Hne Hk. unfold removeTimer. cbn [setTimers m_timers].
  destruct (findIndex (fun x => x =? id) (m_timers m)) as [i|] eqn:E; [|done].
  destruct (findIndex_Some _ _ _ E) as (x & Hx & Exid). apply Z.eqb_eq in Exid as ->.
  destruct (removeAt_spec i (m_timers m) id Hx) as (Hp & _). rewrite Hp, elem_of_cons in Hk. naive_solver.
Qed.

Lemma removeTimer_inv m id : inv m ->
  (m_shutdown m = false -> forall j, m_jobs m !! id = Some j -> j_Status j <> StatusStandby) -> inv (removeTimer m id).
Proof.
  intros [V1 V2 V3 V4 V5 V6 V7 V8 V9 V10] Hst. constructor; try done; [by apply (resources_frame m)|].
  intros k j Hk _. destruct (V7 k j Hk) as (K1 & K2 & K3 & K4 & K5); [done|]. unfold job_ok. conjs; try done.
  intros Hs. destruct (K5 Hs) as [Hab Htm]. split; [done|]. intros Hsd. change (m_shutdown (removeTimer m id)) with (m_shutdown m) in Hsd.
  apply removeTimer_elem; [|auto]. intros ->. by destruct (Hst Hsd j Hk).
Qed.

Lemma timerFires_spec m id j : inv m -> m_jobs m !! id = Some j ->
  exists m', timerFires cfg m id = Ret m' /\ inv m' /\ m_shutdown m' = m_shutdown m
  /\ (j_Status j = StatusStandby -> m_shutdown m = false -> settled m').
Proof.
  intros Hinv Hj. unfold timerFires, deref. rewrite Hj. cbn [mbind go_bind].
  destruct (negb (bool_decide (j_Status j = StatusStandby)) || j_HasAborted j || m_shutdown m) eqn:E.
  { assert (m_shutdown m = false -> j_Status j <> StatusStandby) as Hno.
    { intros Hsd Hs. destruct (v_jobs _ _ Hinv id j Hj) as (_ & _ & _ & _ & K5); [done|]. destruct (K5 Hs) as [Hab _].
      by rewrite Hs, Hab, Hsd in E. }
    exists (removeTimer m id). conjs; try done; [|intros Hs Hsd; by destruct (Hno Hsd)].
    apply removeTimer_inv; [done|]. intros Hsd j' Hj'. assert (j' = j) as -> by congruence. auto. }
  apply orb_false_iff in E as [E _]. apply orb_false_iff in E as [E _]. apply negb_false_iff, bool_decide_eq_true in E.
  pose proof (standby_departs m id j Hinv Hj E) as Hbut. unfold retryToQueueLocked, deref. rewrite Hj. cbn [mbind go_bind].
  pose proof Hbut as [B1 B2 B3 B4 B5 B6 B7 B8 B9 B10]. destruct (B8 id eq_refl) as (j0 & Hj0 & (R1 & R2 & R3 & R4) & Hnq & Hna & _).
  assert (j0 = j) as -> by congruence. set (j' := withStatus j StatusQueued). set (m1 := notifyLocked _).
  assert (inv m1) as Hinv1.
  { apply (transit_arrives (store m id j') m1 id j'); try done.
    - apply (transit_store m id j); try done. unfold record_ok. cbn [j' withStatus j_done j_Status j_RetryCount j_Key j_definition].
      rewrite R1, E. conjs; try done; lia.
    - cbn [store setJobs m_jobs]. by rewrite lookup_insert_eq.
    - apply (resources_frame (store m id j')); try done. by apply (resources_store m id j).
    - cbn. apply NoDup_app. conjs; [done|set_solver|apply NoDup_singleton].
    - intros k Hne. cbn. set_solver.
    - cbn. split; [done|]. set_solver. }
  destruct (dispatchLocked_spec m1 Hinv1) as (m' & -> & Hinv' & Hset & Hsd & _ & _ & Honly). cbn [mbind go_bind].
  exists (removeTimer m' id). conjs; auto. apply removeTimer_inv; [done|]. intros _ jx Hjx Hs.
  destruct (Honly id) as [E'|(jo & Ho & Hso & E')]; rewrite Hjx in E'; [|by simplify_eq].
  cbn in E'. rewrite lookup_insert_eq in E'. by injection E' as ->.
Qed.

(** Aborting a job on the move. *)
Lemma abortPending_spec m id : inv_but (Some id) m -> exists m' j h,
  abortPendingLocked cfg m id = Ret m' /\ inv m' /\ m_jobs m !! id = Some j
  /\ m_jobs m' = <[id := finishedJob (withAborting j false) (Some ErrCanceled) true]> (m_jobs m)
  /\ m_queue m' = m_queue m /\ m_active m' = m_active m /\ m_shutdown m' = m_shutdown m
  /\ m_canceled m' = m_canceled m /\ m_timers m' = m_timers m /\ m_history m' = h /\ h `sublist_of` m_history m
  /\ (len (m_history m) <= c_MaxHistory cfg -> h = m_history m).
Proof.
  intros Hbut. pose proof Hbut as [B1 B2 B3 B4 B5 B6 B7 B8 B9 B10].
  destruct (B8 id eq_refl) as (j & Hj & (R1 & R2 & R3 & R4) & Hnq & Hna & Hh & Hu). unfold abortPendingLocked, deref.
  rewrite Hj. cbn [mbind go_bind].
  assert (inv_but (Some id) (store m id (withAborting j false))) as Hbut1 by (by apply (transit_store m id j)).
  destruct (transit_finish _ id (Some ErrCanceled) true Hbut1)
    as (m' & j' & h & -> & Hinv' & Hj' & Hjobs & ? & ? & ? & ? & ? & ? & ? & ?).
  cbn [store setJobs m_jobs] in Hj', Hjobs. rewrite lookup_insert_eq in Hj'. injection Hj' as <-.
  rewrite insert_insert_eq in Hjobs. by exists m', j, h.
Qed.

Lemma abortActive_spec m id : inv m -> inv (abortActiveLocked m id).1 /\ m_shutdown (abortActiveLocked m id).1 = m_shutdown m.
Proof.
  intros Hinv. unfold abortActiveLocked. case_bool_decide as Hact; [|done]. cbn [fst].
  pose proof Hinv as [V1 V2 V3 V4 V5 V6 V7 V8 V9 V10].
  assert (forall m', inv m' -> inv (setCanceled m' (m_canceled m' ∪ {[id]}))) as Hcan.
  { intros m' [W1 W2 W3 W4 W5 W6 W7 W8 W9 W10]. constructor; try done. by apply (resources_frame m'). }
  unfold findJob. case_bool_decide as Hh; [|split; [by apply Hcan|done]].
  destruct (m_jobs m !! id) as [j|] eqn:Hj; [|split; [by apply Hcan|done]]. split; [|done]. apply Hcan.
  destruct (V7 id j Hj) as (Hr & Hq & Ha & Hhist & Ht); [done|]. assert (j_Status j = StatusRunning) as Hs by (by apply Ha).
  assert (forall k x, <[id := withAborting j true]> (m_jobs m) !! k = Some x -> exists o, m_jobs m !! k = Some o
    /\ j_Status x = j_Status o /\ j_Key x = j_Key o /\ record_ok x /\ (k <> id -> x = o)) as Hback.
  { intros k x. destruct (decide (k = id)) as [->|Hne].
    - rewrite lookup_insert_eq. intros [= <-]. exists j. conjs; done.
    - rewrite lookup_insert_ne by done. intros Hx. exists x. conjs; try done. by apply (V7 k x Hx). }
  assert (forall k, is_Some (m_jobs m !! k) -> is_Some (<[id := withAborting j true]> (m_jobs m) !! k)) as Hdom.
  { intros k Hk. destruct (decide (k = id)) as [->|]; [by rewrite lookup_insert_eq|by rewrite lookup_insert_ne]. }
  constructor; cbn [notifyLocked store setJobs m_jobs m_queue m_history m_active m_activeKeys]; auto.
  - apply (resources_frame (store m id (withAborting j true))); try done. by apply (resources_store m id j).
  - intros Hlen k Hk. unfold isFinished. cbn [notifyLocked store setJobs m_jobs]. specialize (V6 Hlen k Hk). unfold isFinished in V6.
    destruct (decide (k = id)) as [->|]; [rewrite lookup_insert_eq; cbn; rewrite Hs; done|by rewrite lookup_insert_ne].
  - intros k x Hx _. destruct (Hback k x Hx) as (o & Ho & Hso & _ & Hrx & Hsame). destruct (V7 k o Ho) as (K1 & K2 & K3 & K4 & K5); [done|].
    unfold job_ok, unfinished. rewrite Hso. conjs; try done. intros Hst. destruct (decide (k = id)) as [->|Hne]; [congruence|].
    rewrite (Hsame Hne). by apply K5.
  - done.
  - intros k. rewrite V9. split.
    + intros (i & x & Hx & Hu & Hk). destruct (decide (i = id)) as [->|].
      * exists id, (withAborting j true). rewrite lookup_insert_eq. assert (x = j) as -> by congruence. done.
      * exists i, x. rewrite lookup_insert_ne by done. done.
    + intros (i & x & Hx & Hu & Hk). destruct (Hback i x Hx) as (o & Ho & Hso & Hko & _). exists i, o. unfold unfinished in *.
      conjs; [done|by rewrite <- Hso|by rewrite <- Hko].
  - intros i1 i2 j1 j2 H1 H2 Hu1 Hu2 He. destruct (Hback _ _ H1) as (o1 & Ho1 & S1 & K1 & _), (Hback _ _ H2) as (o2 & Ho2 & S2 & K2 & _).
    unfold unfinished in *. apply (V10 i1 i2 o1 o2); unfold unfinished; [done|done|by rewrite <- S1|by rewrite <- S2|congruence].
Qed.

Lemma Abort_spec m id : inv m ->
  Abort cfg m id = Err ErrJobNotRunning \/ exists m', Abort cfg m id = Ret m' /\ inv m' /\ m_shutdown m' = m_shutdown m.
Proof.
  intros Hinv. unfold Abort. destruct (abortActive_spec m id Hinv) as [Hinv1 Hsd1].
  destruct (abortActiveLocked m id) as [m1 d1] eqn:E1. cbn [fst] in Hinv1, Hsd1. destruct d1; [right; by exists m1|].
  unfold abortQueuedLocked. destruct (findIndex (fun x => x =? id) (m_queue m1)) as [i|] eqn:Ei.
  - destruct (findIndex_Some _ _ _ Ei) as (x & Hx & Hxid). apply Z.eqb_eq in Hxid as ->.
    pose proof Hinv1 as [V1 V2 V3 V4 V5 V6 V7 V8 V9 V10]. assert (id ∈ m_queue m1) as Hin by (by eapply list_elem_of_lookup_2).
    destruct (V3 id Hin) as [j Hj]. destruct (V7 id j Hj) as (Hr & Hq & Ha & _); [done|].
    assert (j_Status j = StatusQueued) as Hs by (by apply Hq). destruct (removeAt_NoDup i (m_queue m1) id Hx V2) as [Hnd Hmem].
    assert (inv_but (Some id) (setQueue m1 (removeAt i (m_queue m1)))) as Hbut.
    { apply (departs m1 _ id j); try done.
      - unfold unfinished. congruence.
      - by apply (resources_frame m1).
      - cbn. rewrite Ha. congruence. }
    destruct (abortPending_spec _ id Hbut) as (m' & j' & h & -> & Hinv' & _ & _ & _ & _ & Hsd' & _). cbn [mbind go_bind].
    right. exists m'. conjs; try done. cbn in Hsd'. congruence.
  - cbn [mbind go_bind]. unfold abortStandbyLocked. destruct (findJob m1 id) as [j|] eqn:Ef; [|by left].
    destruct (bool_decide (j_Status j = StatusStandby)) eqn:Es; [|by left]. apply bool_decide_eq_true in Es. cbn [negb].
    assert (m_jobs m1 !! id = Some j) as Hj by (unfold findJob in Ef; by case_bool_decide).
    pose proof (standby_departs m1 id j Hinv1 Hj Es) as Hbut. set (j' := mkJob _ _ _ _ _ _ _ _ _ _).
    pose proof Hbut as [_ _ _ _ _ _ _ B8 _ _]. destruct (B8 id eq_refl) as (j0 & Hj0 & Hr & _ & _ & _ & Hu). assert (j0 = j) as -> by congruence.
    assert (inv_but (Some id) (store m1 id j')) as Hbut1 by (by apply (transit_store m1 id j)).
    destruct (abortPending_spec _ id Hbut1) as (m' & j1 & h & -> & Hinv' & _ & _ & _ & _ & Hsd' & _). cbn [mbind go_bind].
    right. exists m'. conjs; try done. cbn in Hsd'. congruence.
Qed.

(** ** Shutting down *)

(** Aborting does not look at the queue. *)
Lemma trim_queue q : forall n m, loop n (trimTurn cfg) (setQueue m q) = (fun m' => setQueue m' q) <$> loop n (trimTurn cfg) m.
Proof.
  assert (forall m, trimTurn cfg (setQueue m q) = (fun x : iteration Manager Manager => match x with
    | Continue m' => Continue (setQueue m' q) | Break m' => Break (setQueue m' q) end) <$> trimTurn cfg m) as Hturn.
  { intros m. unfold trimTurn. change (m_history (setQueue m q)) with (m_history m).
    change (isFinished (setQueue m q)) with (isFinished m).
    destruct (c_MaxHistory cfg <? len (m_history m)); [|done]. by destruct (findIndex _ _). }
  induction n as [|n IH]; intros m; [done|]. rewrite !loop_S, Hturn.
  destruct (trimTurn cfg m) as [[m'|m']| | |]; cbn [fmap go_fmap mbind go_bind]; try done.
Qed.

Lemma abortPending_queue m q id :
  abortPendingLocked cfg (setQueue m q) id = (fun m' => setQueue m' q) <$> abortPendingLocked cfg m id.
Proof.
  unfold abortPendingLocked, deref. change (m_jobs (setQueue m q)) with (m_jobs m). destruct (m_jobs m !! id) as [j|] eqn:Hj; [|done].
  cbn [mbind go_bind]. unfold finishLocked, deref. cbn [store setJobs setQueue m_jobs]. rewrite lookup_insert_eq. cbn [mbind go_bind].
  destruct (bool_decide _); [done|]. destruct (j_done _); [done|].
  unfold trimHistory. cbn [store setJobs setQueue setActiveKeys notifyLocked m_history m_jobs].
  match goal with |- loop ?n _ ?a = _ <$> loop ?n _ ?b => change a with (setQueue b q) end. apply trim_queue.
Qed.

Lemma abortAll_spec : forall q m, inv m -> m_queue m = q -> exists m', abortAll cfg (setQueue m []) q = Ret m'
  /\ inv m' /\ m_queue m' = [] /\ m_active m' = m_active m /\ m_shutdown m' = m_shutdown m /\ m_canceled m' = m_canceled m
  /\ (len (m_history m) <= c_MaxHistory cfg -> m_history m' = m_history m)
  /\ (forall id j, m_jobs m !! id = Some j -> exists j', m_jobs m' !! id = Some j' /\ (j' = j \/ j_Status j' = StatusFinished)).
Proof.
  induction q as [|id q IH]; intros m Hinv Hq; cbn [abortAll].
  { exists m. assert (setQueue m [] = m) as -> by (rewrite <- Hq; by destruct m). conjs; try done. eauto. }
  pose proof Hinv as [V1 V2 V3 V4 V5 V6 V7 V8 V9 V10]. assert (id ∈ m_queue m) as Hin by (rewrite Hq; set_solver).
  destruct (V3 id Hin) as [j Hj]. destruct (V7 id j Hj) as (Hr & Hjq & Ha & _); [done|].
  assert (j_Status j = StatusQueued) as Hs by (by apply Hjq). rewrite Hq in V2. apply NoDup_cons in V2 as [Hnin Hnd].
  assert (inv_but (Some id) (setQueue m q)) as Hbut.
  { apply (departs m _ id j); try done.
    - unfold unfinished. congruence.
    - by apply (resources_frame m).
    - intros k. cbn. rewrite Hq, elem_of_cons. split; [intros Hk; split; [by right|by intros ->]|naive_solver].
    - cbn. rewrite Ha. congruence. }
  destruct (abortPending_spec _ id Hbut) as (m1 & j1 & h & E & Hinv1 & Hj1 & Hjobs & Hq1 & Ha1 & Hsd1 & Hc1 & _ & Hh1 & Hsub & Hsame).
  change (setQueue m []) with (setQueue (setQueue m q) []). rewrite abortPending_queue, E. cbn [fmap go_fmap mbind go_bind].
  destruct (IH m1 Hinv1 Hq1) as (m2 & -> & Hinv2 & Hq2 & Ha2 & Hsd2 & Hc2 & Hh2 & Hjobs2). exists m2. cbn in Ha1, Hsd1, Hc1, Hsame, Hsub.
  conjs; try done; try congruence.
  - intros Hlen. specialize (Hsame Hlen). rewrite Hh2; [congruence|]. rewrite Hh1, Hsame. done.
  - intros k jk Hk. destruct (decide (k = id)) as [->|Hne].
    + destruct (Hjobs2 id (finishedJob (withAborting j1 false) (Some ErrCanceled) true)) as (j' & Hj' & Hor).
      { rewrite Hjobs, lookup_insert_eq. done. }
      exists j'. split; [done|]. right. by destruct Hor as [->|?].
    + apply Hjobs2. rewrite Hjobs, lookup_insert_ne by done. done.
Qed.

Lemma standbyLoop_spec : forall n m array i, inv m -> (forall id, id ∈ array -> is_Some (m_jobs m !! id)) ->
  (length (m_history m) <= length array)%nat -> (i <= length array < n + i)%nat ->
  exists m', loop n (standbyTurn cfg) (m, array, i) = Ret m' /\ inv m' /\ m_queue m' = m_queue m /\ m_active m' = m_active m
  /\ m_shutdown m' = m_shutdown m
  /\ (forall id j, m_jobs m !! id = Some j -> exists j', m_jobs m' !! id = Some j' /\ (j' = j \/ j_Status j' = StatusFinished))
  /\ (array = m_history m -> len (m_history m) <= c_MaxHistory cfg -> m_history m' = m_history m /\
      forall k id j, (i <= k)%nat -> array !! k = Some id -> m_jobs m' !! id = Some j -> j_Status j <> StatusStandby).
Proof.
  induction n as [|n IH]; intros m array i Hinv Hdom Hlen Hn; [lia|rewrite loop_S].
  destruct (array !! i) as [id|] eqn:Ei.
  2:{ assert (standbyTurn cfg (m, array, i) = Ret (Break m)) as -> by (unfold standbyTurn; by rewrite Ei).
      apply lookup_ge_None in Ei. exists m. conjs; try done; [eauto|]. intros _ _. split; [done|].
      intros k x j Hk Hx _. apply lookup_lt_Some in Hx. lia. }
  pose proof (lookup_lt_Some _ _ _ Ei) as Hi.
  destruct (Hdom id) as [j Hj]; [by eapply list_elem_of_lookup_2|].
  destruct (bool_decide (j_Status j = StatusStandby)) eqn:Es.
  - apply bool_decide_eq_true in Es. pose proof (standby_departs m id j Hinv Hj Es) as Hbut.
    destruct (abortPending_spec m id Hbut) as (m1 & j1 & h & E & Hinv1 & Hj1 & Hjobs & Hq1 & Ha1 & Hsd1 & Hc1 & _ & Hh1 & Hsub & Hsame).
    set (array1 := m_history m1 ++ drop (length (m_history m1)) array).
    assert (standbyTurn cfg (m, array, i) = Ret (Continue (m1, array1, S i))) as ->.
    { unfold standbyTurn, deref. rewrite Ei, Hj. cbn [mbind go_bind]. rewrite bool_decide_eq_true_2, E by done. done. }
    assert (length (m_history m1) <= length (m_history m))%nat as Hle by (rewrite Hh1; by apply sublist_length).
    assert (length array1 = length array) as Hl1 by (unfold array1; rewrite length_app, length_drop; lia).
    cbn [mbind go_bind]. destruct (IH m1 array1 (S i) Hinv1) as (m2 & -> & Hinv2 & Hq2 & Ha2 & Hsd2 & Hjobs2 & Hall2).
    + intros k [Hk|Hk]%elem_of_app.
      * by apply (v_historyDom _ _ Hinv1).
      * destruct (Hdom k) as [jk Hjk]; [rewrite <- (take_drop (length (m_history m1)) array); set_solver|].
        rewrite Hjobs. destruct (decide (k = id)) as [->|]; [by rewrite lookup_insert_eq|by rewrite lookup_insert_ne, Hjk].
    + lia.
    + lia.
    + exists m2. conjs; try done; try congruence.
      * intros k jk Hk. destruct (decide (k = id)) as [->|Hne]; [|apply Hjobs2; by rewrite Hjobs, lookup_insert_ne].
        destruct (Hjobs2 id (finishedJob (withAborting j1 false) (Some ErrCanceled) true)) as (j' & Hj' & Hor);
          [by rewrite Hjobs, lookup_insert_eq|].
        exists j'. split; [done|]. right. by destruct Hor as [->|?].
      * intros Harr Hmax. specialize (Hsame Hmax). assert (m_history m1 = m_history m) as Hhh by congruence.
        assert (array1 = m_history m1) as Harr1 by (unfold array1; rewrite Harr, Hhh, drop_ge, app_nil_r; done).
        destruct Hall2 as [Hh2 Hall2]; [done|by rewrite Hhh|]. split; [congruence|].
        intros k x jx Hk Hx Hjx. destruct (decide (k = i)) as [->|Hne].
        -- assert (x = id) as -> by congruence.
           destruct (Hjobs2 id (finishedJob (withAborting j1 false) (Some ErrCanceled) true)) as (j' & Hj' & Hor);
             [by rewrite Hjobs, lookup_insert_eq|].
           assert (jx = j') as -> by congruence. destruct Hor as [-> | ->]; done.
        -- apply (Hall2 k x jx); [lia| |done]. congruence.
  - assert (standbyTurn cfg (m, array, i) = Ret (Continue (m, array, S i))) as ->.
    { unfold standbyTurn, deref. rewrite Ei, Hj. cbn [mbind go_bind]. by rewrite Es. }
    apply bool_decide_eq_false in Es.
    cbn [mbind go_bind]. destruct (IH m array (S i) Hinv Hdom Hlen) as (m2 & -> & Hinv2 & Hq2 & Ha2 & Hsd2 & Hjobs2 & Hall2); [lia|].
    exists m2. conjs; try done. intros Harr Hmax. destruct (Hall2 Harr Hmax) as [Hh2 Hall]. split; [done|].
    intros k x jx Hk Hx Hjx. destruct (decide (k = i)) as [->|Hne]; [|apply (Hall k x jx); [lia|done|done]].
    assert (x = id) as -> by congruence. destruct (Hjobs2 id j Hj) as (j' & Hj' & [->|Hf]); congruence.
Qed.

Lemma shutdownLocked_spec m : inv m -> exists m', shutdownLocked cfg m = Ret m' /\ inv m' /\ m_queue m' = []
  /\ m_active m' = m_active m /\ m_active m ⊆ m_canceled m' /\ m_shutdown m' = m_shutdown m
  /\ (len (m_history m) <= c_MaxHistory cfg -> forall id j, m_jobs m' !! id = Some j ->
      j_Status j = StatusRunning \/ j_Status j = StatusFinished).
Proof.
  intros Hinv. unfold shutdownLocked, abortQueuedAndStandbyLocked.
  destruct (abortAll_spec (m_queue m) m Hinv eq_refl) as (m1 & -> & Hinv1 & Hq1 & Ha1 & Hsd1 & _ & Hh1 & _). cbn [mbind go_bind].
  destruct (standbyLoop_spec (S (length (m_history m1))) m1 (m_history m1) 0 Hinv1 (v_historyDom _ _ Hinv1))
    as (m2 & -> & Hinv2 & Hq2 & Ha2 & Hsd2 & _ & Hall); [done|lia|]. cbn [mbind go_bind].
  exists (cancelActiveLocked m2). conjs; try done; cbn [cancelActiveLocked setCanceled m_queue m_active m_shutdown m_jobs m_canceled]; try congruence.
  - pose proof Hinv2 as [V1 V2 V3 V4 V5 V6 V7 V8 V9 V10]. constructor; try done. by apply (resources_frame m2).
  - rewrite Ha2, Ha1. set_solver.
  - intros Hmax id j Hj. destruct (Hall eq_refl) as [Hh2 Hno]; [by rewrite Hh1|].
    destruct (v_jobs _ _ Hinv2 id j Hj) as (_ & Hq & _ & Hh & _); [done|]. rewrite Hq2, Hq1 in Hq.
    destruct (j_Status j) eqn:Es; auto.
    + assert (id ∈ ([] : list Z)) as Hnil by (by apply Hq). by apply not_elem_of_nil in Hnil.
    + assert (id ∈ m_history m2) as Hin by (apply Hh; unfold unfinished; congruence). rewrite Hh2 in Hin.
      apply list_elem_of_lookup_1 in Hin as [k Hk]. by destruct (Hno k id j ltac:(lia) Hk Hj).
Qed.

(** ** Runs *)

(** The calls of the API, handlers that return, timers that fire or quit, and
    the two halves of [Shutdown].  [uuid.New] does not repeat an id. *)
Inductive step : Manager -> Manager -> Prop :=
  | step_register m def : step m (Register m def)
  | step_manual m key description : step m (AddManualSchedule m key description)
  | step_enqueue m def id m' id' : m_jobs m !! id = None -> enqueueLocked cfg m def id = Ret (m', id') -> step m m'
  | step_return m id j err m' : m_jobs m !! id = Some j -> j_Status j = StatusRunning ->
      finishRun cfg m id err = Ret m' -> step m m'
  | step_timer m id m' : is_Some (m_jobs m !! id) -> id ∈ m_timers m -> timerFires cfg m id = Ret m' -> step m m'
  | step_timerQuits m id : m_shutdown m = true -> step m (removeTimer m id)
  | step_abort m id m' : Abort cfg m id = Ret m' -> step m m'
  | step_shutdownCancel m : step m (shutdownCancel m)
  | step_shutdownLocked m m' : m_shutdown m = true -> shutdownLocked cfg m = Ret m' -> step m m'.

Lemma frame_inv m m' : m_jobs m' = m_jobs m -> m_queue m' = m_queue m -> m_history m' = m_history m -> m_active m' = m_active m ->
  m_activeKeys m' = m_activeKeys m -> m_timers m' = m_timers m -> (m_shutdown m' = false -> m_shutdown m = false) ->
  m_running m' = m_running m -> m_groupRunning m' = m_groupRunning m -> m_activeExclusiveKeys m' = m_activeExclusiveKeys m ->
  m_activeSharedKeys m' = m_activeSharedKeys m -> inv m -> inv m'.
Proof.
  intros E1 E2 E3 E4 E5 E6 E7 ? ? ? ? [V1 V2 V3 V4 V5 V6 V7 V8 V9 V10].
  assert (isFinished m' = isFinished m) as E0 by (unfold isFinished; by rewrite E1).
  constructor; rewrite ?E0, ?E1, ?E2, ?E3, ?E5; try done; [by apply (resources_frame m)|].
  - intros id j Hj _. unfold job_ok. rewrite E2, E3, E4, E6. destruct (V7 id j Hj) as (? & ? & ? & ? & K); [done|].
    conjs; tauto.
Qed.

Lemma step_inv m m' : 0 < c_MaxConcurrentJobs cfg -> inv m -> step m m' -> inv m'.
Proof.
  intros Hmax Hinv Hstep. destruct Hstep as [m def|m key desc|m def id m' id' Hnew E|m id j err m' Hj Hs E|m id m' [j Hj] Ht E
    |m id Hsd|m id m' E|m|m m' Hsd E].
  - by apply (frame_inv m).
  - by apply (frame_inv m).
  - destruct (enqueueLocked_spec m def id Hinv Hnew Hmax) as [[_ E']|[(_ & _ & E')|[(_ & _ & _ & E')|(m1 & _ & E' & ? & _)]]];
      rewrite E' in E; by simplify_eq.
  - destruct (finishRun_spec m id j err Hinv Hj Hs) as (m1 & E' & ? & _). rewrite E' in E. by simplify_eq.
  - destruct (timerFires_spec m id j Hinv Hj) as (m1 & E' & ? & _). rewrite E' in E. by simplify_eq.
  - apply removeTimer_inv; [done|]. congruence.
  - destruct (Abort_spec m id Hinv) as [E'|(m1 & E' & ? & _)]; rewrite E' in E; by simplify_eq.
  - by apply (frame_inv m).
  - destruct (shutdownLocked_spec m Hinv) as (m1 & E' & ? & _). rewrite E' in E. by simplify_eq.
Qed.

Lemma steps_inv m : 0 < c_MaxConcurrentJobs cfg -> rtc step NewManager m -> inv m.
Proof.
  intros Hmax H. revert H. apply (rtc_ind_r (fun m => inv m)); [apply NewManager_inv|].
  intros m1 m2 _ Hstep IH. by apply (step_inv m1).
Qed.

(** ** Progress *)

(** No job both writes and reads. *)
Definition oneRole (d : JobDefinition) : Prop := d_ExclusiveKeys d = [] \/ d_SharedKeys d = [].

Lemma idle_sum g m : m_active m = ∅ -> sumA g m = 0.
Proof. intros E. unfold sumA. by rewrite E, elements_empty. Qed.

Lemma idle_admissible m id j : inv m -> 0 < c_MaxConcurrentJobs cfg -> m_active m = ∅ -> m_jobs m !! id = Some j ->
  (forall dep, dep ∈ d_DependsOn (j_definition j) -> dep ∉ m_activeKeys m) -> admissible cfg m (j_definition j).
Proof.
  intros Hinv Hmax Hidle Hj Hdeps. pose proof Hinv as [V1 _ _ _ _ _ V7 _ _ _].
  destruct (V7 id j Hj) as ((_ & _ & _ & Hlim) & _); [done|]. unfold admissible. rewrite (sharedRunning_eq cfg m V1), idle_sum by done.
  rewrite (r_groups cfg m V1), idle_sum by done. conjs; try done; try lia.
  assert (forall k, k ∉ m_activeExclusiveKeys m) as Hex.
  { intros k Hk. apply (r_excl cfg m V1) in Hk as (i & d & Hi & _). rewrite Hidle in Hi. set_solver. }
  unfold dependenciesSatisfiedLocked. rewrite !andb_true_iff, !forallb_forall. conjs.
  - intros k Hk. apply negb_true_iff, bool_decide_eq_false, Hdeps. by apply list_elem_of_In.
  - intros k _. rewrite (r_shared cfg m V1), idle_sum, bool_decide_eq_false_2 by done. done.
  - intros k _. by rewrite bool_decide_eq_false_2.
Qed.

Lemma drained m (rank : string -> nat) : inv m -> settled m -> m_shutdown m = false -> 0 < c_MaxConcurrentJobs cfg -> m_active m = ∅ ->
  (forall id j, m_jobs m !! id = Some j -> j_Status j <> StatusStandby) ->
  (forall id j, m_jobs m !! id = Some j -> j_Status j = StatusQueued -> oneRole (j_definition j)
     /\ forall dep, dep ∈ d_DependsOn (j_definition j) -> (rank dep < rank (j_Key j))%nat) ->
  m_queue m = [].
Proof.
  intros Hinv Hset Hsd Hmax Hidle Hnosb Hdefs. pose proof Hinv as [V1 V2 V3 V4 V5 V6 V7 V8 V9 V10].
  assert (forall n id j, (rank (j_Key j) < n)%nat -> id ∈ m_queue m -> m_jobs m !! id = Some j -> False) as Hno.
  { induction n as [|n IH]; intros id j Hn Hq Hj; [lia|].
    destruct (V7 id j Hj) as (_ & Hqj & _); [done|]. assert (j_Status j = StatusQueued) as Hs by (by apply Hqj).
    destruct (Hdefs id j Hj Hs) as [Hrole Hrank].
    assert (forall dep, dep ∈ d_DependsOn (j_definition j) -> dep ∉ m_activeKeys m) as Hdeps.
    { intros dep Hdep Hact. apply V9 in Hact as (i & ji & Hji & Hu & Hk). specialize (Hrank dep Hdep).
      apply (IH i ji); [rewrite Hk; lia| |done]. destruct (V7 i ji Hji) as (_ & Hqi & Hai & _); [done|]. apply Hqi.
      specialize (Hnosb i ji Hji). unfold unfinished in Hu. destruct (j_Status ji) eqn:E; try done.
      assert (i ∈ m_active m) as Hi by (by apply Hai). rewrite Hidle in Hi. set_solver. }
    apply (Hset Hsd id Hq). exists j. split; [done|]. split; [by eapply idle_admissible|].
    intros (w & jw & Hw & Hne & Hjw & Hwdeps & key & Hk1 & Hk2).
    destruct (V7 w jw Hjw) as (_ & Hqw & _); [done|]. assert (j_Status jw = StatusQueued) as Hsw by (by apply Hqw).
    destruct (Hdefs w jw Hjw Hsw) as [[Hr|Hr] _]; [rewrite Hr in Hk1; by apply not_elem_of_nil in Hk1|].
    apply (Hset Hsd w Hw). exists jw. split; [done|]. split; [by eapply idle_admissible|].
    intros (w' & jw' & _ & _ & _ & _ & key' & _ & Hk'). rewrite Hr in Hk'. by apply not_elem_of_nil in Hk'. }
  destruct (m_queue m) as [|id q] eqn:Eq; [done|]. exfalso. destruct (V3 id) as [j Hj]; [set_solver|].
  eapply (Hno (S (rank (j_Key j))) id j); [lia|set_solver|done].
Qed.

(** ** Properties *)

(** C6: mutual exclusion and limits.  In every state the manager reaches, two
    jobs that run at the same time have different keys, and no exclusive key
    of one is an exclusive or shared key of the other; the running jobs
    outside the independent groups are no more than [MaxConcurrentJobs], those
    of a group no more than the group's limit; and no two unfinished jobs have
    the same key. *)
Theorem running_jobs_exclude (m : Manager) (Hmax : 0 < c_MaxConcurrentJobs cfg) (Hrun : rtc step NewManager m) :
  (forall id1 id2 j1 j2, m_jobs m !! id1 = Some j1 -> m_jobs m !! id2 = Some j2 -> id1 <> id2 ->
     j_Status j1 = StatusRunning -> j_Status j2 = StatusRunning ->
     j_Key j1 <> j_Key j2 /\ forall k, k ∈ d_ExclusiveKeys (j_definition j1) ->
       k ∉ d_ExclusiveKeys (j_definition j2) /\ k ∉ d_SharedKeys (j_definition j2))
  /\ (forall ids, NoDup ids -> (forall id, id ∈ ids -> exists j, m_jobs m !! id = Some j /\ j_Status j = StatusRunning
         /\ independent cfg (d_ConcurrencyGroup (j_definition j)) = false) -> len ids <= c_MaxConcurrentJobs cfg)
  /\ (forall g ids, NoDup ids -> (forall id, id ∈ ids -> exists j, m_jobs m !! id = Some j /\ j_Status j = StatusRunning
         /\ d_ConcurrencyGroup (j_definition j) = g) -> len ids <= Z.max 0 (groupLimit cfg g))
  /\ (forall id1 id2 j1 j2, m_jobs m !! id1 = Some j1 -> m_jobs m !! id2 = Some j2 -> unfinished j1 -> unfinished j2 ->
       j_Key j1 = j_Key j2 -> id1 = id2).
Proof.
  pose proof (steps_inv m Hmax Hrun) as [V1 V2 V3 V4 V5 V6 V7 V8 V9 V10].
  assert (forall id j, m_jobs m !! id = Some j -> j_Status j = StatusRunning -> id ∈ m_active m /\ defOf m id = Some (j_definition j)) as Hact.
  { intros id j Hj Hs. destruct (V7 id j Hj) as (_ & _ & Ha & _); [done|]. split; [by apply Ha|]. unfold defOf. by rewrite Hj. }
  assert (forall g ids, (forall d, 0 <= g d) -> NoDup ids -> (forall id, id ∈ ids -> exists d, id ∈ m_active m /\ defOf m id = Some d /\ g d = 1) ->
    len ids <= sumA g m) as Hcount.
  { intros g ids Hg Hnd Hids. assert (exists rest, elements (m_active m) ≡ₚ ids ++ rest) as [rest Hp].
    { apply submseteq_Permutation, NoDup_submseteq; [done|]. intros id Hid. apply elem_of_elements. by destruct (Hids id Hid) as (d & ? & _). }
    unfold sumA. rewrite Hp, sumZ_app. rewrite (sumZ_ext (weigh g m) (fun _ => 1) ids), sumZ_const.
    - assert (0 <= sumZ (weigh g m) rest); [|lia]. apply sumZ_nonneg. intros x _. unfold weigh. destruct (defOf m x); [done|lia].
    - intros id Hid. destruct (Hids id Hid) as (d & _ & Hd & H1). unfold weigh. by rewrite Hd. }
  conjs.
  - intros id1 id2 j1 j2 H1 H2 Hne Hs1 Hs2. destruct (Hact _ _ H1 Hs1), (Hact _ _ H2 Hs2). split.
    + intros Hk. apply Hne, (V10 id1 id2 j1 j2); unfold unfinished; congruence.
    + intros k. by apply (r_conflict cfg m V1 id1 id2).
  - intros ids Hnd Hids. pose proof (r_limit cfg m V1). etrans; [apply (Hcount (dependent cfg) ids); [|done|]|lia].
    + intros d. unfold dependent. destruct (independent _ _); lia.
    + intros id Hid. destruct (Hids id Hid) as (j & Hj & Hs & Hi). destruct (Hact id j Hj Hs). exists (j_definition j).
      conjs; try done. unfold dependent. by rewrite Hi.
  - intros g ids Hnd Hids. pose proof (r_groupLimit cfg m V1 g). etrans; [apply (Hcount (inGroup g) ids); [|done|]|lia].
    + apply inGroup_nonneg.
    + intros id Hid. destruct (Hids id Hid) as (j & Hj & Hs & Hi). destruct (Hact id j Hj Hs). exists (j_definition j).
      conjs; try done. unfold inGroup. by rewrite bool_decide_eq_true_2.
  - done.
Qed.

(** C7: work is not left lying.  In a manager with a positive job limit that is
    not shut down, after a job was enqueued, a handler returned or a retry timer
    fired, no queued job could be started; and if then nothing runs or waits for
    a retry nothing is queued either, provided no queued job both writes and
    reads keys and the dependencies of the queued jobs are not circular. *)
Theorem no_runnable_job_waits (m m' : Manager) (Hmax : 0 < c_MaxConcurrentJobs cfg) (Hrun : rtc step NewManager m)
    (Hsd : m_shutdown m = false)
    (Hcall : (exists def id, m_jobs m !! id = None /\ enqueueLocked cfg m def id = Ret (m', id))
          \/ (exists id j err, m_jobs m !! id = Some j /\ j_Status j = StatusRunning /\ finishRun cfg m id err = Ret m')
          \/ (exists id j, m_jobs m !! id = Some j /\ j_Status j = StatusStandby /\ timerFires cfg m id = Ret m')) :
  (forall id, id ∈ m_queue m' -> ~ canRunId m' id)
  /\ (forall rank : string -> nat, m_active m' = ∅ -> (forall id j, m_jobs m' !! id = Some j -> j_Status j <> StatusStandby) ->
      (forall id j, m_jobs m' !! id = Some j -> j_Status j = StatusQueued -> oneRole (j_definition j)
         /\ forall dep, dep ∈ d_DependsOn (j_definition j) -> (rank dep < rank (j_Key j))%nat) ->
      m_queue m' = []).
Proof.
  pose proof (steps_inv m Hmax Hrun) as Hinv.
  assert (inv m' /\ settled m' /\ m_shutdown m' = false) as (Hinv' & Hset & Hsd').
  { destruct Hcall as [(def & id & Hnew & E)|[(id & j & err & Hj & Hs & E)|(id & j & Hj & Hs & E)]].
    - destruct (enqueueLocked_spec m def id Hinv Hnew Hmax) as [[_ E']|[(_ & _ & E')|[(_ & _ & _ & E')|(m1 & _ & E' & ? & ? & ? & _)]]];
        rewrite E' in E; by simplify_eq.
    - destruct (finishRun_spec m id j err Hinv Hj Hs) as (m1 & E' & ? & ? & ?). rewrite E' in E. simplify_eq. conjs; try done. congruence.
    - destruct (timerFires_spec m id j Hinv Hj) as (m1 & E' & Hinv1 & Hsd1 & Hset). rewrite E' in E. simplify_eq.
      conjs; [done|auto|congruence]. }
  split; [by apply Hset|]. intros rank Hidle Hsb Hdefs. by apply (drained m' rank).
Qed.

(** The job is queued, running or waits for a retry. *)
Definition pending (m : Manager) (id : Z) : bool :=
  match m_jobs m !! id with Some j => negb (bool_decide (j_Status j = StatusFinished)) | None => false end.

Lemma findIndex_elem x l : x ∈ l -> findIndex (fun y => y =? x) l <> None.
Proof. intros Hx E. pose proof (findIndex_None _ _ E x Hx) as H. cbv beta in H. by rewrite Z.eqb_refl in H. Qed.

Lemma Abort_refused m id : inv m -> Abort cfg m id = Err ErrJobNotRunning <-> pending m id = false.
Proof.
  intros Hinv. pose proof Hinv as [V1 V2 V3 V4 V5 V6 V7 V8 V9 V10]. unfold pending. split.
  - intros E. destruct (m_jobs m !! id) as [j|] eqn:Hj; [|done]. apply negb_false_iff, bool_decide_eq_true.
    destruct (V7 id j Hj) as (_ & Hq & Ha & Hh & _); [done|]. unfold Abort, abortActiveLocked in E.
    destruct (j_Status j) eqn:Es; [| | |done]; exfalso.
    + rewrite bool_decide_eq_false_2 in E by (rewrite Ha; done). unfold abortQueuedLocked in E.
      destruct (findIndex (fun x => x =? id) (m_queue m)) as [i|] eqn:Ei; [|by apply (findIndex_elem id (m_queue m)) in Ei; [|apply Hq]].
      destruct (abortPendingLocked cfg _ id) eqn:Ea; try done. cbn in E. injection E as ->.
      unfold abortPendingLocked, deref in Ea. cbn [setQueue m_jobs] in Ea. rewrite Hj in Ea. cbn [mbind go_bind] in Ea.
      unfold finishLocked, deref in Ea. cbn [store setJobs m_jobs] in Ea. rewrite lookup_insert_eq in Ea. cbn [mbind go_bind] in Ea.
      destruct (bool_decide _); [done|]. destruct (j_done _); [done|].
      match type of Ea with trimHistory _ ?x = _ => destruct (trimHistory_spec x) as (h & E' & _) end. congruence.
    + rewrite bool_decide_eq_false_2 in E by (rewrite Ha; done). unfold abortQueuedLocked in E.
      destruct (findIndex (fun x => x =? id) (m_queue m)) as [i|] eqn:Ei.
      { destruct (findIndex_Some _ _ _ Ei) as (x & Hx & Exid). apply Z.eqb_eq in Exid as ->.
        apply list_elem_of_lookup_2, Hq in Hx. done. }
      cbn [mbind go_bind] in E. unfold abortStandbyLocked, findJob in E.
      rewrite bool_decide_eq_true_2, Hj in E by (apply Hh; unfold unfinished; congruence).
      rewrite bool_decide_eq_true_2 in E by done. cbn [negb] in E. pose proof (standby_departs m id j Hinv Hj Es) as Hbut.
      match type of E with context [abortPendingLocked cfg (store m id ?y) id] => set (j' := y) in E end.
      destruct (v_transit _ _ Hbut id eq_refl) as (j0 & Hj0 & Hr & _ & _ & _ & Hu). assert (j0 = j) as -> by congruence.
      assert (inv_but (Some id) (store m id j')) as Hbut1 by (by apply (transit_store m id j)).
      destruct (abortPending_spec _ id Hbut1) as (m' & j1 & h & E' & _). by rewrite E' in E.
    + rewrite bool_decide_eq_true_2 in E by (by apply Ha). done.
  - intros Hp. assert (forall j, m_jobs m !! id = Some j -> j_Status j = StatusFinished) as Hfin.
    { intros j Hj. rewrite Hj in Hp. by apply negb_false_iff, bool_decide_eq_true in Hp. }
    unfold Abort, abortActiveLocked. rewrite bool_decide_eq_false_2.
    2:{ intros Hact. destruct (r_dom cfg m V1 id Hact) as [j Hj]. specialize (Hfin j Hj).
        destruct (V7 id j Hj) as (_ & _ & Ha & _); [done|]. apply Ha in Hact. congruence. }
    unfold abortQueuedLocked. destruct (findIndex (fun x => x =? id) (m_queue m)) as [i|] eqn:Ei.
    { exfalso. destruct (findIndex_Some _ _ _ Ei) as (x & Hx & Exid). apply Z.eqb_eq in Exid as ->. apply list_elem_of_lookup_2 in Hx.
      destruct (V3 id Hx) as [j Hj]. specialize (Hfin j Hj). destruct (V7 id j Hj) as (_ & Hq & _); [done|]. apply Hq in Hx. congruence. }
    cbn [mbind go_bind]. unfold abortStandbyLocked, findJob. case_bool_decide; [|done].
    destruct (m_jobs m !! id) as [j|] eqn:Hj; [|done]. rewrite bool_decide_eq_false_2 by (rewrite Hfin; done). done.
Qed.

(** Every call returns.  In every reachable state an enqueue succeeds or is
    refused for one of its three documented reasons; a returning handler, a
    firing timer and shutting down return, as does [Abort], which is refused
    exactly for a job that is neither running nor pending: no channel is closed
    twice and every loop ends.  The history exceeds its bound only by
    unfinished jobs, every unfinished job is in it, a job is retried at most as
    often as it has delays, its [done] is closed exactly when it finished, and
    one that waits for a retry has a timer. *)
Theorem job_calls_return (m : Manager) (Hmax : 0 < c_MaxConcurrentJobs cfg) (Hrun : rtc step NewManager m) :
  (forall def id, m_jobs m !! id = None ->
     (m_shutdown m = true /\ enqueueLocked cfg m def id = Err ErrManagerShutdown)
     \/ (m_shutdown m = false /\ invalid def = true /\ enqueueLocked cfg m def id = Err ErrInvalidDefinition)
     \/ (m_shutdown m = false /\ invalid def = false /\ d_Key def ∈ m_activeKeys m
         /\ enqueueLocked cfg m def id = Err ErrJobAlreadyRunning)
     \/ returns (enqueueLocked cfg m def id) (fun '(m', _) =>
           exists j, m_jobs m' !! id = Some j /\ j_definition j = def /\ unfinished j))
  /\ (forall id j err, m_jobs m !! id = Some j -> j_Status j = StatusRunning -> returns (finishRun cfg m id err) (fun _ => True))
  /\ (forall id, is_Some (m_jobs m !! id) -> returns (timerFires cfg m id) (fun _ => True))
  /\ (forall id, if pending m id then returns (Abort cfg m id) (fun _ => True) else Abort cfg m id = Err ErrJobNotRunning)
  /\ returns (shutdownLocked cfg m) (fun _ => True)
  /\ (c_MaxHistory cfg < len (m_history m) -> forall id, id ∈ m_history m -> isFinished m id = false)
  /\ (forall id j, m_jobs m !! id = Some j -> (unfinished j -> id ∈ m_history m)
       /\ 0 <= j_RetryCount j <= len (d_RetryDelays (j_definition j))
       /\ j_done j = bool_decide (j_Status j = StatusFinished)
       /\ (j_Status j = StatusStandby -> m_shutdown m = false -> id ∈ m_timers m)).
Proof.
  pose proof (steps_inv m Hmax Hrun) as Hinv. conjs.
  - intros def id Hnew.
    destruct (enqueueLocked_spec m def id Hinv Hnew Hmax) as [E|[E|[E|(m1 & _ & E & _ & _ & _ & H)]]]; auto.
    right. right. right. by exists (m1, id).
  - intros id j err Hj Hs. destruct (finishRun_spec m id j err Hinv Hj Hs) as (m1 & E & _). by exists m1.
  - intros id [j Hj]. destruct (timerFires_spec m id j Hinv Hj) as (m1 & E & _). by exists m1.
  - intros id. pose proof (Abort_refused m id Hinv) as Hiff. destruct (pending m id); [|by apply Hiff].
    destruct (Abort_spec m id Hinv) as [E|(m1 & E & _)]; [|by exists m1]. by apply Hiff in E.
  - destruct (shutdownLocked_spec m Hinv) as (m1 & E & _). by exists m1.
  - apply (v_trimmed _ _ Hinv).
  - intros id j Hj. destruct (v_jobs _ _ Hinv id j Hj) as ((R1 & R2 & _) & _ & _ & Hh & Hst); [done|]. conjs; try done; try lia.
    intros Hs Hsd. by apply Hst.
Qed.

(** Shutting down ends what is pending.  Once the manager is shutting down
    nothing can be enqueued, and aborting the queued and waiting jobs leaves
    the queue empty and asks every running job to stop; with no more jobs in
    the history than its bound, the jobs left are running or finished. *)
Theorem shutdown_ends_pending_jobs (m : Manager) (Hmax : 0 < c_MaxConcurrentJobs cfg) (Hrun : rtc step NewManager m) :
  (forall def id, enqueueLocked cfg (shutdownCancel m) def id = Err ErrManagerShutdown)
  /\ returns (shutdownLocked cfg (shutdownCancel m)) (fun m' =>
       m_queue m' = [] /\ m_active m' = m_active m /\ m_active m ⊆ m_canceled m'
       /\ (len (m_history m) <= c_MaxHistory cfg -> forall id j, m_jobs m' !! id = Some j ->
           j_Status j = StatusRunning \/ j_Status j = StatusFinished)).
Proof.
  pose proof (steps_inv m Hmax Hrun) as Hinv. split; [done|].
  assert (inv (shutdownCancel m)) as Hinv' by (by apply (step_inv m); [done|done|apply step_shutdownCancel]).
  destruct (shutdownLocked_spec _ Hinv') as (m' & E & _ & ? & ? & ? & _ & ?). by exists m'.
Qed.

End Scheduling.

(** ** Examples *)

(** Two jobs at a time, a history of one. *)
Definition exampleConfig : Config := newConfig (mkConfig 1 2 ∅ ∅).

(** A job with one retry. *)
Definition exampleJob (key : string) (deps excl shared : list string) : JobDefinition :=
  mkDefinition key key true deps excl shared EmptyString 0 false [1] None.

Definition orKeep (m : Manager) (c : go Manager) : Manager := match c with Ret m' => m' | _ => m end.
Definition enqueue (m : Manager) (def : JobDefinition) (id : Z) : Manager :=
  orKeep m ('(m, _) ← enqueueLocked exampleConfig m def id; Ret m).
Definition fail (m : Manager) (id : Z) : Manager := orKeep m (finishRun exampleConfig m id (Some (ErrOther 0))).

Lemma enqueue_step m def id m' : m_jobs m !! id = None -> enqueueLocked exampleConfig m def id = Ret (m', id) -> rtc (step exampleConfig) m m'.
Proof. intros. apply rtc_once. by eapply step_enqueue. Qed.

Lemma fail_step m id j m' : m_jobs m !! id = Some j -> j_Status j = StatusRunning ->
  finishRun exampleConfig m id (Some (ErrOther 0)) = Ret m' -> rtc (step exampleConfig) m m'.
Proof. intros. apply rtc_once. by eapply step_return. Qed.

(** A writer and a reader of one key: the reader waits. *)
Definition twoJobs : Manager :=
  enqueue (enqueue NewManager (exampleJob "write" [] ["key"] []) 1) (exampleJob "read" [] [] ["key"]) 2.

Lemma twoJobs_run : rtc (step exampleConfig) NewManager twoJobs.
Proof.
  etrans; [apply (enqueue_step _ (exampleJob "write" [] ["key"] []) 1); vm_compute; reflexivity|].
  apply (enqueue_step _ (exampleJob "read" [] [] ["key"]) 2); vm_compute; reflexivity.
Qed.

Lemma running_jobs_exclude_witness :
  rtc (step exampleConfig) NewManager twoJobs /\ m_active twoJobs = {[1]} /\ m_queue twoJobs = [2]
  /\ forall id1 id2 j1 j2, m_jobs twoJobs !! id1 = Some j1 -> m_jobs twoJobs !! id2 = Some j2 -> id1 <> id2 ->
     j_Status j1 = StatusRunning -> j_Status j2 = StatusRunning -> j_Key j1 <> j_Key j2.
Proof.
  split; [exact twoJobs_run|]. split; [vm_compute; reflexivity|]. split; [vm_compute; reflexivity|].
  intros id1 id2 j1 j2 H1 H2 Hne Hs1 Hs2.
  destruct (running_jobs_exclude exampleConfig twoJobs ltac:(vm_compute; reflexivity) twoJobs_run) as [H _].
  exact (proj1 (H id1 id2 j1 j2 H1 H2 Hne Hs1 Hs2)).
Defined.

(** The writer returns: the reader runs. *)
Lemma no_runnable_job_waits_witness :
  exists m', finishRun exampleConfig twoJobs 1 None = Ret m' /\ m_active m' = {[2]}
  /\ forall id, id ∈ m_queue m' -> ~ canRunId exampleConfig m' id.
Proof.
  destruct (finishRun exampleConfig twoJobs 1 None) as [m'| | |] eqn:E; [|vm_compute in E; discriminate E..].
  destruct (m_jobs twoJobs !! 1) as [j|] eqn:Hj; [|vm_compute in Hj; discriminate Hj].
  exists m'. split; [reflexivity|]. split; [vm_compute in E; injection E as <-; reflexivity|].
  apply (no_runnable_job_waits exampleConfig twoJobs m' ltac:(vm_compute; reflexivity) twoJobs_run ltac:(vm_compute; reflexivity)).
  right. left. exists 1, j, None. split; [exact Hj|]. split; [|exact E].
  vm_compute in Hj. injection Hj as <-. reflexivity.
Defined.

Lemma job_calls_return_witness :
  rtc (step exampleConfig) NewManager twoJobs /\ returns (Abort exampleConfig twoJobs 2) (fun _ => True)
  /\ Abort exampleConfig twoJobs 3 = Err ErrJobNotRunning.
Proof.
  destruct (job_calls_return exampleConfig twoJobs ltac:(vm_compute; reflexivity) twoJobs_run) as (_ & _ & _ & H & _).
  split; [exact twoJobs_run|]. split; [exact (H 2)|exact (H 3)].
Defined.

Lemma shutdown_ends_pending_jobs_witness :
  rtc (step exampleConfig) NewManager twoJobs
  /\ returns (shutdownLocked exampleConfig (shutdownCancel twoJobs)) (fun m' => m_queue m' = [] /\ {[1]} ⊆ m_canceled m').
Proof.
  split; [exact twoJobs_run|].
  destruct (shutdown_ends_pending_jobs exampleConfig twoJobs ltac:(vm_compute; reflexivity) twoJobs_run) as [_ (m' & E & Hq & _ & Hc & _)].
  exists m'. split; [exact E|]. split; [exact Hq|]. exact Hc.
Defined.

(** ** What the code does not do *)

(** A failed job waits for its retry; another depends on it. *)
Definition dependents : Manager :=
  enqueue (fail (enqueue NewManager (exampleJob "scan" [] [] []) 1) 1) (exampleJob "update" ["scan"] [] []) 2.

Lemma dependents_run : rtc (step exampleConfig) NewManager dependents.
Proof.
  etrans; [apply (enqueue_step _ (exampleJob "scan" [] [] []) 1); vm_compute; reflexivity|].
  etrans; [eapply (fail_step _ 1); vm_compute; reflexivity|].
  apply (enqueue_step _ (exampleJob "update" ["scan"] [] []) 2); vm_compute; reflexivity.
Qed.

(** [Abort] of a pending job does not dispatch: the job that waited for it can
    run now, nothing else is running or pending, and it stays in the queue. *)
Theorem abort_strands_dependent_job :
  rtc (step exampleConfig) NewManager dependents
  /\ returns (Abort exampleConfig dependents 1) (fun m' =>
       m_shutdown m' = false /\ m_active m' = ∅ /\ m_queue m' = [2] /\ m_activeKeys m' = {["update"]}
       /\ runnable exampleConfig m' 2 = Ret true).
Proof.
  split; [exact dependents_run|].
  destruct (Abort exampleConfig dependents 1) as [m'| | |] eqn:E; [|vm_compute in E; discriminate E..].
  exists m'. split; [done|]. vm_compute in E. injection E as <-. conjs; vm_compute; reflexivity.
Qed.

(** Three jobs that wait for a retry, with a history of one. *)
Definition threeWaiting : Manager :=
  let m := fail (enqueue NewManager (exampleJob "a" [] [] []) 1) 1 in
  let m := fail (enqueue m (exampleJob "b" [] [] []) 2) 2 in
  fail (enqueue m (exampleJob "c" [] [] []) 3) 3.

(** Shutting down ranges over the history while finished jobs are removed from
    it in place, so that it skips every other job: the second one is never
    aborted and its [done] stays open. *)
Theorem shutdown_skips_waiting_job :
  returns (shutdownLocked exampleConfig (shutdownCancel threeWaiting)) (fun m' =>
    match m_jobs m' !! 1, m_jobs m' !! 2, m_jobs m' !! 3 with
    | Some j1, Some j2, Some j3 =>
        j_Status j1 = StatusFinished /\ j_Status j2 = StatusStandby /\ j_done j2 = false /\ j_Status j3 = StatusFinished
    | _, _, _ => False
    end).
Proof.
  destruct (shutdownLocked exampleConfig (shutdownCancel threeWaiting)) as [m'| | |] eqn:E; [|vm_compute in E; discriminate E..].
  exists m'. split; [done|]. vm_compute in E. injection E as <-. vm_compute. done.
Qed.

(** Two jobs that each write what the other reads block each other for good. *)
Definition crossed : Manager :=
  enqueue (enqueue (enqueue NewManager (exampleJob "busy" [] ["x"; "y"] []) 1)
    (exampleJob "xy" [] ["x"] ["y"]) 2) (exampleJob "yx" [] ["y"] ["x"]) 3.

Theorem crossed_writers_block_each_other :
  returns (finishRun exampleConfig crossed 1 None) (fun m' =>
    m_active m' = ∅ /\ m_queue m' = [2; 3] /\ dispatchLocked exampleConfig m' = Ret m').
Proof.
  destruct (finishRun exampleConfig crossed 1 None) as [m'| | |] eqn:E; [|vm_compute in E; discriminate E..].
  exists m'. split; [done|]. vm_compute in E. injection E as <-. conjs; vm_compute; reflexivity.
Qed.
