(* ===== verification/Detect.v ===== *)
(** * Telling packet formats apart (packet/packet.go, ts/detector.go, mmt/detector.go)

    [NewCheckReader] holds back a byte stream until a [Detector] has recognized
    its packet format.  The detectors of MPEG-2 TS and of ISDB-S3 TLV are
    instances of the interface; the reader is proved against it. *)

From Stdlib Require Import String.
From S2P Require Import Prelude Packet.

(** ** The interface (packet/packet.go) *)

Inductive Result : Set := Undecided | Matched | Rejected.

#[export] Instance Result_eq_dec : EqDecision Result.
Proof. solve_decision. Defined.

#[export] Instance go_eq_dec A `{EqDecision A} : EqDecision (go A).
Proof. solve_decision. Defined.

Record Detector := mkDetector {
  Name : string;
  Detect : bytes -> bool -> go Result
}.

(** What the interface documents ([final_decides]: a final answer is
    [Matched] or [Rejected]), and that a match is not taken back when more
    bytes arrive. *)
Class DetectorLaws (d : Detector) := {
  Detect_returns buf final : bytes_ok buf -> returns (Detect d buf final) (fun _ => True);
  final_decides buf : bytes_ok buf -> Detect d buf true <> Ret Undecided;
  match_is_kept buf more final : bytes_ok (buf ++ more) ->
    Detect d buf false = Ret Matched -> Detect d (buf ++ more) final = Ret Matched
}.

(** ** Sources

    An [io.Reader]: what the calls of [Read] would return with a buffer that is
    large enough, and the error that every later call returns.  A chunk that
    does not fit is handed out in parts. *)
Record source := mkSource {
  src_script : list (bytes * option error);
  src_last : error
}.

Definition Read (s : source) (n : Z) : bytes * option error * source :=
  match src_script s with
  | [] => ([], Some (src_last s), s)
  | (chunk, err) :: script =>
      if len chunk <=? n then (chunk, err, mkSource script (src_last s))
      else (take (Z.to_nat n) chunk, None,
            mkSource ((drop (Z.to_nat n) chunk, err) :: script) (src_last s))
  end.

Definition contents (s : source) : bytes := concat (map fst (src_script s)).

(** ** The check reader *)

Inductive checkError : Set :=
  | MismatchError (Want Got : string)
  | UnknownError (Want : string)
  | ReadError (e : error).

#[export] Instance checkError_eq_dec : EqDecision checkError.
Proof. solve_decision. Defined.

Definition probeLimit : Z := Z.shiftl 256 10.

Record checkReader := mkCheckReader {
  c_r : source;
  c_self : Detector;
  c_others : list Detector;
  c_checked : bool;
  c_probe : bytes
}.

Definition NewCheckReader (r : source) (self : Detector) (others : list Detector) : checkReader :=
  mkCheckReader r self others false [].

(** [matched == Matched] *)
Definition detected (d : Detector) (buf : bytes) (final : bool) : go bool :=
  r ← Detect d buf final; Ret (bool_decide (r = Matched)).

Fixpoint mismatchOrUnknown (self : Detector) (others : list Detector) (buf : bytes) : go checkError :=
  match others with
  | [] => Ret (UnknownError (Name self))
  | other :: others =>
      m ← detected other buf true;
      if (m : bool) then Ret (MismatchError (Name self) (Name other))
      else mismatchOrUnknown self others buf
  end.

Section CheckReader.

(** The capacity [append] gives a full slice of this capacity. *)
Context (grow : Z -> Z).

(** A turn of the loop of [check]: the buffer, its capacity and the source.
    The loop leaves with the error, [None] when the format matched. *)
Definition checkTurn (self : Detector) (others : list Detector) (st : bytes * Z * source) :
    go (iteration (bytes * Z * source) (option checkError * bytes * source)) :=
  let '(buf, cap, r) := st in
  let cap := if len buf =? cap then grow cap else cap in
  let '(data, err, r) := Read r (cap - len buf) in
  let buf := buf ++ data in
  let final := bool_decide (err <> None) || (probeLimit <=? len buf) in
  m ← detected self buf final;
  if (m : bool) then Ret (Break (None, buf, r))
  else if final then
    match buf, err with
    | [], Some err => Ret (Break (Some (ReadError err), buf, r))
    | _, _ => e ← mismatchOrUnknown self others buf; Ret (Break (Some e, buf, r))
    end
  else Ret (Continue (buf, cap, r)).

(** Every turn takes a byte or a chunk from the source. *)
Definition pendingReads (s : source) : nat := List.length (src_script s) + List.length (contents s).

Definition check (c : checkReader) : go (option checkError * checkReader) :=
  '(err, buf, r) ← loop (S (pendingReads (c_r c))) (checkTurn (c_self c) (c_others c)) ([], Z.shiftl 64 10, c_r c);
  match err with
  | None => Ret (None, mkCheckReader r (c_self c) (c_others c) true buf)
  | Some err => Ret (Some err, mkCheckReader r (c_self c) (c_others c) (c_checked c) (c_probe c))
  end.

(** [Read(p)] with [len(p) = n]: the bytes written into [p], and the error. *)
Definition CheckRead (c : checkReader) (n : Z) : go (bytes * option checkError * checkReader) :=
  '(err, c) ← (if c_checked c then Ret (None, c) else check c);
  match err with
  | Some err => Ret ([], Some err, c)
  | None =>
      if 0 <? len (c_probe c) then
        let k := Z.min n (len (c_probe c)) in
        Ret (take (Z.to_nat k) (c_probe c), None,
             mkCheckReader (c_r c) (c_self c) (c_others c) true (drop (Z.to_nat k) (c_probe c)))
      else
        let '(data, err, r) := Read (c_r c) n in
        Ret (data, ReadError <$> err, mkCheckReader r (c_self c) (c_others c) true (c_probe c))
  end.

(** A caller that reads with buffers of these sizes until an error. *)
Fixpoint CheckReads (c : checkReader) (sizes : list Z) : go (bytes * option checkError * checkReader) :=
  match sizes with
  | [] => Ret ([], None, c)
  | n :: sizes =>
      '(data, err, c) ← CheckRead c n;
      match err with
      | Some err => Ret (data, Some err, c)
      | None => '(rest, err, c) ← CheckReads c sizes; Ret (data ++ rest, err, c)
      end
  end.

End CheckReader.

(** ** MPEG-2 TS (ts/detector.go) *)

Definition tsStrides : list (Z * Z) :=
  [(PacketSize, 0); (packetSizeWithTimestamp, 4); (packetSizeWithParity, 0)].

(** The inner loop: [next] and [matched]. *)
Definition syncRunTurn (buf : bytes) (stride syncOffset want : Z) (st : Z * Z) : go (iteration (Z * Z) Z) :=
  let '(next, matched) := st in
  if (next + syncOffset <? len buf) && (matched <? want) then
    b ← idx buf (next + syncOffset);
    if negb (b =? SyncByte) then Ret (Break matched)
    else Ret (Continue (next + stride, matched + 1))
  else Ret (Break matched).

Definition scanTurn (buf : bytes) (stride syncOffset want scanWindow : Z) (i : Z) : go (iteration Z bool) :=
  if i <? scanWindow then
    skip ← (if i + syncOffset >=? len buf then Ret true
            else b ← idx buf (i + syncOffset); Ret (negb (b =? SyncByte)));
    if (skip : bool) then Ret (Continue (i + 1))
    else
      matched ← loop (S (Z.to_nat want)) (syncRunTurn buf stride syncOffset want) (i + stride, 1);
      if matched >=? want then Ret (Break true) else Ret (Continue (i + 1))
  else Ret (Break false).

Definition hasSyncRun (buf : bytes) (stride syncOffset want : Z) : go bool :=
  let scanWindow := Z.min (len buf) PacketSize in
  loop (S (length buf)) (scanTurn buf stride syncOffset want scanWindow) 0.

Fixpoint anySyncRun (buf : bytes) (strides : list (Z * Z)) : go bool :=
  match strides with
  | [] => Ret false
  | (stride, syncOffset) :: strides =>
      m ← hasSyncRun buf stride syncOffset 5;
      if (m : bool) then Ret true else anySyncRun buf strides
  end.

Definition tsDetect (buf : bytes) (final : bool) : go Result :=
  m ← anySyncRun buf tsStrides;
  if (m : bool) then Ret Matched
  else
    single ← (if final && (0 <? len buf) then b ← idx buf 0; Ret (b =? SyncByte) else Ret false);
    if (single : bool) then Ret Matched
    else Ret (if final then Rejected else Undecided).

Definition tsDetector : Detector := mkDetector "ts" tsDetect.

(** ** ISDB-S3 TLV (mmt/detector.go) *)

Definition TLVSyncByte : Z := 0x7F.

Definition tlvDetectTurn (buf : bytes) (final : bool) (i : Z) : go (iteration Z Result) :=
  if i + 4 <=? len buf then
    b ← idx buf i;
    if negb (b =? TLVSyncByte) then Ret (Continue (i + 1))
    else
      length ← read16 buf (i + 2);
      let next := i + 4 + length in
      chained ← (if next <? len buf then b ← idx buf next; Ret (b =? TLVSyncByte) else Ret false);
      if (chained : bool) then Ret (Break Matched)
      else if (next =? len buf) && final then Ret (Break Matched)
      else Ret (Continue (i + 1))
  else Ret (Break (if final then Rejected else Undecided)).

Definition tlvDetect (buf : bytes) (final : bool) : go Result :=
  loop (S (length buf)) (tlvDetectTurn buf final) 0.

Definition tlvDetector : Detector := mkDetector "tlv" tlvDetect.

(** ** The check reader is transparent *)

Lemma Read_contents r n data err r' : Read r n = (data, err, r') -> contents r = data ++ contents r'.
Proof.
  unfold Read, contents. destruct (src_script r) as [|[chunk e] script] eqn:E.
  - intros [= <- <- <-]. by rewrite E.
  - case_match; intros [= <- <- <-]; cbn [map concat fst src_script]; [done|].
    by rewrite app_assoc, take_drop.
Qed.

Lemma Read_progress r n data err r' : 0 < n -> Read r n = (data, err, r') ->
  (pendingReads r' < pendingReads r)%nat \/ err = Some (src_last r) /\ data = [] /\ r' = r.
Proof.
  unfold Read, pendingReads, contents. intros Hn. destruct (src_script r) as [|[chunk e] script] eqn:E.
  - intros [= <- <- <-]. by right.
  - destruct (Z.leb_spec (len chunk) n); intros [= <- <- <-]; left; cbn [map concat fst src_script length];
      rewrite !length_app, ?length_drop; lia.
Qed.

Lemma Read_length r n data err r' : 0 <= n -> Read r n = (data, err, r') -> len data <= n.
Proof.
  unfold Read. intros Hn. destruct (src_script r) as [|[chunk e] script]; [intros [= <- <- <-]; simpl; lia|].
  destruct (Z.leb_spec (len chunk) n); intros [= <- <- <-]; [done|]. rewrite length_take. lia.
Qed.

Lemma detected_returns d buf final `{!DetectorLaws d} : bytes_ok buf ->
  returns (detected d buf final) (fun m => m = bool_decide (Detect d buf final = Ret Matched)).
Proof.
  intros Hb. unfold detected. destruct (Detect_returns buf final Hb) as (r & -> & _). cbn [mbind go_bind].
  eexists. split; [done|]. apply bool_decide_ext. naive_solver.
Qed.

Lemma mismatchOrUnknown_returns self others buf : bytes_ok buf -> (forall o, o ∈ others -> DetectorLaws o) ->
  returns (mismatchOrUnknown self others buf) (fun _ => True).
Proof.
  intros Hb Hlaws. induction others as [|o others IH]; cbn [mismatchOrUnknown]; [by eexists|].
  destruct (@detected_returns o buf true) as (m & -> & _); [apply Hlaws; by left|done|].
  cbn [mbind go_bind]. destruct m; [by eexists|]. apply IH. intros. apply Hlaws. by right.
Qed.

Section CheckReaderProofs.

Context (grow : Z -> Z) (grow_larger : forall cap, cap < grow cap).
Context (self : Detector) (others : list Detector).
Context `{self_laws : !DetectorLaws self} (other_laws : forall o, o ∈ others -> DetectorLaws o).

(** What [checkTurn] does with what [Read] returned. *)
Definition reportAt (buf : bytes) (err : option error) : go (option (option checkError)) :=
  let final := bool_decide (err <> None) || (probeLimit <=? len buf) in
  if bool_decide (Detect self buf final = Ret Matched) then Ret (Some None)
  else if final then
    match buf, err with
    | [], Some err => Ret (Some (Some (ReadError err)))
    | _, _ => e ← mismatchOrUnknown self others buf; Ret (Some (Some e))
    end
  else Ret None.

Lemma checkTurn_eq buf cap r : len buf <= cap -> bytes_ok (buf ++ contents r) -> exists cap' data err r' v,
  checkTurn grow self others (buf, cap, r) =
    Ret (match v with None => Continue (buf ++ data, cap', r') | Some v => Break (v, buf ++ data, r') end)
  /\ reportAt (buf ++ data) err = Ret v
  /\ Read r (cap' - len buf) = (data, err, r') /\ len buf < cap' /\ len (buf ++ data) <= cap'.
Proof.
  intros Hcap Hall. unfold checkTurn.
  set (cap' := if len buf =? cap then grow cap else cap).
  assert (len buf < cap') as Hlt.
  { subst cap'. destruct (Z.eqb_spec (len buf) cap) as [->|]; [apply grow_larger|lia]. }
  destruct (Read r (cap' - len buf)) as [[data err] r'] eqn:ER.
  assert (len data <= cap' - len buf) as Hlen by (eapply Read_length; [|exact ER]; lia).
  assert (bytes_ok (buf ++ data)) as Hb.
  { rewrite (Read_contents _ _ _ _ _ ER), app_assoc in Hall. by apply Forall_app in Hall as [? _]. }
  destruct (detected_returns self (buf ++ data) (bool_decide (err <> None) || (probeLimit <=? len (buf ++ data))) Hb)
    as (m & Hm & Em). rewrite Hm. cbn [mbind go_bind].
  destruct (mismatchOrUnknown_returns self others (buf ++ data) Hb other_laws) as (e & He & _).
  exists cap', data, err, r'. unfold reportAt. rewrite <- Em.
  assert (len (buf ++ data) <= cap') by (rewrite length_app; lia).
  destruct m; [by exists (Some None)|].
  destruct (bool_decide (err <> None) || _); [|by exists None].
  rewrite He. destruct (buf ++ data) as [|? ?], err as [err|]; cbn [mbind go_bind]; by eexists (Some (Some _)).
Qed.

(** Any property of the loop's outcome that holds whenever the loop leaves. *)
Lemma check_loop r0 (r0_ok : bytes_ok (contents r0)) (Q : option checkError -> bytes -> source -> Prop) (Inv : bytes -> source -> Prop) :
  Inv [] r0 ->
  (forall buf r n data err r' v, Inv buf r -> buf ++ contents r = contents r0 -> 0 < n -> Read r n = (data, err, r') ->
     reportAt (buf ++ data) err = Ret v ->
     match v with None => Inv (buf ++ data) r' | Some v => Q v (buf ++ data) r' end) ->
  wp (loop (S (pendingReads r0)) (checkTurn grow self others) ([], Z.shiftl 64 10, r0))
    (fun '(v, buf, r) => buf ++ contents r = contents r0 /\ Q v buf r).
Proof.
  intros H0 Hstep. apply (wp_loop
    (fun '(buf, cap, r) => Inv buf r /\ buf ++ contents r = contents r0 /\ len buf <= cap)
    (fun '(_, _, r) => Z.of_nat (pendingReads r))); [|done|lia|lia].
  intros [[buf cap] r] (HI & Hc & Hcap).
  destruct (checkTurn_eq buf cap r Hcap ltac:(by rewrite Hc)) as (cap' & data & err & r' & v & -> & Hv & HR & Hlt & Hle). cbn [wp].
  pose proof (Hstep buf r (cap' - len buf) data err r' v HI Hc ltac:(lia) HR Hv) as HQ.
  pose proof (Read_contents _ _ _ _ _ HR) as Hc'.
  assert ((buf ++ data) ++ contents r' = contents r0) as Hc2 by (by rewrite <- app_assoc, <- Hc').
  destruct v as [v|]; [done|]. conjs; try done; [lia|].
  destruct (Read_progress r (cap' - len buf) data err r' ltac:(lia) HR) as [|(-> & -> & ->)]; [lia|]. exfalso.
  unfold reportAt in Hv. rewrite (bool_decide_eq_true_2 (Some (src_last r) <> None)) in Hv by done.
  cbn [orb] in Hv. case_bool_decide; [done|].
  assert (bytes_ok (buf ++ [])) as Hb.
  { rewrite <- Hc2 in r0_ok. by apply Forall_app in r0_ok as [? _]. }
  destruct (mismatchOrUnknown_returns self others (buf ++ []) Hb other_laws) as (e & He & _).
  rewrite He in Hv. by destruct (buf ++ []).
Qed.

Lemma check_loop_returns r0 (Q : option checkError * bytes * source -> Prop) :
  bytes_ok (contents r0) ->
  wp (loop (S (pendingReads r0)) (checkTurn grow self others) ([], Z.shiftl 64 10, r0)) Q ->
  returns (loop (S (pendingReads r0)) (checkTurn grow self others) ([], Z.shiftl 64 10, r0)) Q.
Proof.
  intros Hok Hw. apply returns_wp; [|done].
  enough (forall k buf cap r, buf ++ contents r = contents r0 -> len buf <= cap ->
    errorless (loop k (checkTurn grow self others) (buf, cap, r))) as H by (by apply H).
  induction k as [|k IH]; intros buf cap r Hc Hcap; [done|]. rewrite loop_S.
  destruct (checkTurn_eq buf cap r Hcap ltac:(by rewrite Hc)) as (cap' & data & err & r' & v & -> & _ & HR & _ & Hle).
  cbn [mbind go_bind]. destruct v as [v|]; [done|]. apply IH; [|done].
  by rewrite <- app_assoc, <- (Read_contents _ _ _ _ _ HR).
Qed.

Lemma check_spec r p (r_ok : bytes_ok (contents r)) (Q : option checkError -> bytes -> source -> Prop) (Inv : bytes -> source -> Prop) :
  Inv [] r ->
  (forall buf r' n data err r'' v, Inv buf r' -> buf ++ contents r' = contents r -> 0 < n -> Read r' n = (data, err, r'') ->
     reportAt (buf ++ data) err = Ret v ->
     match v with None => Inv (buf ++ data) r'' | Some v => Q v (buf ++ data) r'' end) ->
  exists v buf r', buf ++ contents r' = contents r /\ Q v buf r'
    /\ check grow (mkCheckReader r self others false p) =
         Ret (v, mkCheckReader r' self others (bool_decide (v = None)) (if bool_decide (v = None) then buf else p)).
Proof.
  intros H0 Hstep. pose proof (check_loop r r_ok Q Inv H0 Hstep) as Hw. apply check_loop_returns in Hw; [|done].
  destruct Hw as ([[v buf] r'] & E & Hc & HQ). exists v, buf, r'. conjs; [done..|].
  unfold check. cbn [c_r c_self c_others c_checked c_probe]. rewrite E. cbn [mbind go_bind]. by destruct v.
Qed.

(** The bytes that were delivered, those still held back and those still in
    the source are the source's contents. *)
Definition passing (r : source) (delivered : bytes) (c : checkReader) : Prop :=
  c_self c = self /\ c_others c = others /\ c_checked c = true
  /\ delivered ++ c_probe c ++ contents (c_r c) = contents r.

Lemma CheckRead_passing r delivered c n : passing r delivered c -> 0 <= n ->
  returns (CheckRead grow c n) (fun '(data, err, c') => passing r (delivered ++ data) c').
Proof.
  intros (Hs & Ho & Hch & Hc) Hn. unfold CheckRead. rewrite Hch. cbn [mbind go_bind].
  destruct (Z.ltb_spec 0 (len (c_probe c))) as [Hp|Hp].
  - eexists. split; [done|]. unfold passing. cbn [c_self c_others c_checked c_probe c_r]. conjs; [done..|].
    rewrite <- Hc, <- !app_assoc. f_equal. by rewrite app_assoc, take_drop.
  - destruct (Read (c_r c) n) as [[data err] r'] eqn:ER. eexists. split; [done|].
    unfold passing. cbn [c_self c_others c_checked c_probe c_r]. conjs; [done..|].
    destruct (c_probe c); [|simpl in Hp; lia]. rewrite <- Hc, <- app_assoc. cbn [app]. f_equal.
    by rewrite (Read_contents _ _ _ _ _ ER).
Qed.

Lemma CheckReads_passing sizes : Forall (fun n => 0 <= n) sizes -> forall r delivered c, passing r delivered c ->
  returns (CheckReads grow c sizes) (fun '(data, _, c') => passing r (delivered ++ data) c').
Proof.
  induction 1 as [|n sizes Hn _ IH]; intros r delivered c Hp; cbn [CheckReads].
  { exists ([], None, c). by rewrite app_nil_r. }
  destruct (CheckRead_passing r delivered c n Hp Hn) as ([[data [err|]] c'] & -> & Hp'); cbn [mbind go_bind].
  { by eexists. }
  destruct (IH r (delivered ++ data) c' Hp') as ([[rest err] c''] & -> & Hp''). cbn [mbind go_bind].
  exists (data ++ rest, err, c''). by rewrite app_assoc.
Qed.

(** The check reader never alters a stream, however the source delivers it
    and however the caller reads it: every sequence of reads returns, and
    either the stream was recognized and the delivered bytes, the probed ones
    still held back and the rest of the source are together the source's
    contents in order, or the caller got an error and not a single byte. *)
Theorem check_reader_is_transparent r sizes : bytes_ok (contents r) -> Forall (fun n => 0 <= n) sizes -> sizes <> [] ->
  returns (CheckReads grow (NewCheckReader r self others) sizes) (fun '(data, err, c) =>
    c_checked c = true /\ data ++ c_probe c ++ contents (c_r c) = contents r
    \/ c_checked c = false /\ data = [] /\ err <> None).
Proof.
  intros Hok Hsizes Hne. destruct sizes as [|n sizes]; [done|]. clear Hne. apply Forall_cons in Hsizes as [Hn Hsizes].
  destruct (check_spec r [] Hok (fun _ _ _ => True) (fun _ _ => True)) as (v & buf & r' & Hc & _ & E); [done|by intros; case_match|].
  destruct v as [e|]; cbn [CheckReads].
  - unfold CheckRead, NewCheckReader. cbn [c_checked]. rewrite E. cbn [mbind go_bind bool_decide decide decide_rel].
    eexists. split; [done|]. by right.
  - set (c := mkCheckReader r' self others true buf).
    assert (CheckRead grow (NewCheckReader r self others) n = CheckRead grow c n) as ->.
    { unfold CheckRead, NewCheckReader. cbn [c_checked]. by rewrite E. }
    destruct (CheckReads_passing (n :: sizes) ltac:(by constructor) r [] c) as ([[data err] c'] & E' & Hp).
    { by conjs. }
    cbn [CheckReads] in E'. rewrite E'. eexists. split; [done|]. left. by destruct Hp as (_ & _ & ? & ?).
Qed.

(** ** The verdict *)

Definition verdict (last : error) (data : bytes) : go (option checkError) :=
  m ← detected self data true;
  if (m : bool) then Ret None
  else match data with
       | [] => Ret (Some (ReadError last))
       | _ => e ← mismatchOrUnknown self others data; Ret (Some e)
       end.

Definition unbroken (r : source) : Prop := Forall (fun c => c.2 = None) (src_script r).

Lemma Read_unbroken r n data err r' : unbroken r -> Read r n = (data, err, r') ->
  unbroken r' /\ src_last r' = src_last r
  /\ (err = None \/ err = Some (src_last r) /\ data = [] /\ contents r = [] /\ r' = r).
Proof.
  unfold unbroken, Read. intros Hu. destruct (src_script r) as [|[chunk e] script] eqn:E.
  - intros [= <- <- <-]. unfold contents. rewrite E. conjs; [constructor|done|]. by right.
  - apply Forall_cons in Hu as [He Hu]. cbn [snd] in He. subst e.
    case_match; intros [= <- <- <-]; (conjs; [|done|by left]); [done|by constructor].
Qed.

Lemma reportAt_last buf last : bytes_ok buf -> reportAt buf (Some last) = Some <$> verdict last buf.
Proof.
  intros Hb. unfold reportAt, verdict. rewrite (bool_decide_eq_true_2 (Some last <> None)) by done. cbn [orb].
  destruct (detected_returns self buf true Hb) as (m & -> & ->). cbn [mbind go_bind]. case_bool_decide; [done|].
  destruct buf; [done|]. by destruct (mismatchOrUnknown_returns self others (z :: buf) Hb other_laws) as (e & -> & _).
Qed.

Lemma verdict_matched last buf more : bytes_ok (buf ++ more) -> Detect self buf false = Ret Matched -> verdict last (buf ++ more) = Ret None.
Proof.
  intros Hb Hm. apply (match_is_kept _ more true Hb) in Hm. unfold verdict.
  destruct (detected_returns self (buf ++ more) true Hb) as (m & -> & ->). cbn [mbind go_bind].
  by rewrite bool_decide_eq_true_2.
Qed.

(** How a source cuts its bytes into reads does not decide what the check
    reader makes of it: for a source that ends before the probe limit, the
    first read answers what the detectors say of the whole contents - accepted
    when the wanted format matches, otherwise the first other format that
    matches, or unknown, or the source's own error when it was empty. *)
Theorem verdict_ignores_chunking r n : bytes_ok (contents r) -> unbroken r -> len (contents r) < probeLimit -> 0 <= n ->
  exists v data err c, verdict (src_last r) (contents r) = Ret v
    /\ CheckRead grow (NewCheckReader r self others) n = Ret (data, err, c)
    /\ c_checked c = bool_decide (v = None) /\ (forall e, v = Some e -> err = Some e /\ data = []).
Proof.
  intros Hok Hu Hlim Hn.
  destruct (check_spec r [] Hok (fun v _ _ => verdict (src_last r) (contents r) = Ret v)
              (fun _ r' => unbroken r' /\ src_last r' = src_last r)) as (v & buf & r' & Hc & Hv & E); [done|..].
  - intros buf r' k data err r'' v [Hu' Hl] Hc Hk HR Hrep.
    pose proof (Read_contents _ _ _ _ _ HR) as Hcr.
    destruct (Read_unbroken r' k data err r'' Hu' HR) as (Hu2 & Hl2 & [-> |(-> & -> & Hnil & ->)]).
    + assert (contents r = (buf ++ data) ++ contents r'') as Hall by (by rewrite <- Hc, Hcr, app_assoc).
      unfold reportAt in Hrep. rewrite (bool_decide_eq_false_2 (None <> None)) in Hrep by tauto. cbn [orb] in Hrep.
      rewrite Hall, length_app in Hlim. rewrite (proj2 (Z.leb_gt _ _)) in Hrep by lia.
      case_bool_decide as Hm; injection Hrep as <-; [|split; [done|congruence]].
      rewrite Hall in Hok |- *. by apply verdict_matched.
    + rewrite Hnil in Hc. rewrite Hc, reportAt_last, Hl in Hrep by done.
      destruct (verdict (src_last r) (contents r)) as [w|?| |]; try done. by injection Hrep as <-.
  - exists v. unfold CheckRead, NewCheckReader. cbn [c_checked]. rewrite E. cbn [mbind go_bind].
    destruct v as [e|].
    + eexists _, _, _. conjs; [done|done|done|]. by intros ? [= <-].
    + rewrite bool_decide_eq_true_2 by done. cbn [c_probe c_r].
      destruct (0 <? len buf); [by eexists _, _, _|]. destruct (Read r' n) as [[data err] r'']. by eexists _, _, _.
Qed.

End CheckReaderProofs.

(** ** The detector of MPEG-2 TS *)

(** [want] sync bytes in a row, [stride] apart, from position [i]. *)
Definition syncRun (buf : bytes) (stride syncOffset want i : Z) : Prop :=
  forall k, 0 <= k < want -> buf !! Z.to_nat (i + syncOffset + k * stride) = Some SyncByte.

Definition syncRunWithin (buf : bytes) (stride syncOffset want : Z) : Prop :=
  exists i, 0 <= i < Z.min (len buf) PacketSize /\ syncRun buf stride syncOffset want i.

Lemma syncRun_loop buf stride off want i : 0 < stride -> 0 <= off -> 0 < want -> 0 <= i ->
  buf !! Z.to_nat (i + off) = Some SyncByte ->
  wp (loop (S (Z.to_nat want)) (syncRunTurn buf stride off want) (i + stride, 1))
     (fun m => (m >=? want) = true <-> syncRun buf stride off want i).
Proof.
  intros Hs Ho Hw Hi H0. apply (wp_loop
    (fun '(next, m) => next = i + m * stride /\ 1 <= m <= want
       /\ forall k, 0 <= k < m -> buf !! Z.to_nat (i + off + k * stride) = Some SyncByte)
    (fun '(_, m) => want - m)); [|conjs; try lia|lia|lia].
  2:{ intros k Hk. replace k with 0 by lia. by rewrite Z.mul_0_l, Z.add_0_r. }
  intros [next m] (-> & Hm & Hrun). unfold syncRunTurn.
  destruct (Z.ltb_spec m want) as [Hlt|Hge]; [|rewrite andb_false_r; cbn [wp]].
  2:{ rewrite Z.geb_le. split; [|lia]. intros _ k Hk. apply Hrun. lia. }
  rewrite andb_true_r. apply wp_if; intros Hn; bools.
  - apply wp_bind, wp_idx; [nia|]. intros b Hb. apply wp_if; intros Hs'; bools; cbn [wp].
    + rewrite Z.geb_le. split; [lia|]. intros Hall. specialize (Hall m ltac:(lia)).
      replace (i + off + m * stride) with (i + m * stride + off) in Hall by lia. congruence.
    + conjs; [lia..| |lia|lia]. intros k Hk. destruct (decide (k = m)) as [-> |]; [|apply Hrun; lia].
      replace (i + off + m * stride) with (i + m * stride + off) by lia. congruence.
  - cbn [wp]. rewrite Z.geb_le. split; [lia|]. intros Hall. specialize (Hall m ltac:(lia)).
    apply lookup_lt_Some in Hall. lia.
Qed.

Lemma hasSyncRun_returns buf stride off want : 0 < stride -> 0 <= off -> 0 < want ->
  returns (hasSyncRun buf stride off want) (fun b => b = true <-> syncRunWithin buf stride off want).
Proof.
  intros Hs Ho Hw. unfold hasSyncRun. apply returns_wp.
  { apply errorless_loop. intros i. unfold scanTurn, syncRunTurn. errorless. }
  apply (wp_loop (fun i => 0 <= i <= len buf /\ forall j, 0 <= j < i -> ~ syncRun buf stride off want j)
    (fun i => len buf - i)); [|split; [lia|]; intros; lia|lia|lia].
  intros i (Hi & Hno). unfold scanTurn. apply wp_if; intros Hw'; bools.
  2:{ cbn [wp]. split; [done|]. intros (j & Hj & Hrun). exfalso. apply (Hno j); [lia|done]. }
  assert (~ syncRun buf stride off want i -> forall j, 0 <= j < i + 1 -> ~ syncRun buf stride off want j) as Hnext.
  { intros Hn j Hj. destruct (decide (j = i)) as [-> |]; [done|]. apply Hno. lia. }
  assert (syncRun buf stride off want i -> buf !! Z.to_nat (i + off) = Some SyncByte) as Hfirst.
  { intros Hr. specialize (Hr 0 ltac:(lia)). by rewrite Z.mul_0_l, Z.add_0_r in Hr. }
  apply wp_bind. apply wp_if; intros Hlen.
  { rewrite Z.geb_le in Hlen. cbn [wp]. conjs; [lia|lia| |lia|lia]. apply Hnext. intros Hr%Hfirst.
    apply lookup_lt_Some in Hr. lia. }
  rewrite Z.geb_leb in Hlen. bools. apply wp_bind, wp_idx; [lia|]. intros b Hb. cbn [wp].
  apply wp_if; intros Hb'; bools.
  { cbn [wp]. conjs; [lia|lia| |lia|lia]. apply Hnext. intros Hr%Hfirst. congruence. }
  subst b. apply wp_bind. eapply wp_mono; [by apply syncRun_loop; try lia|]. intros m Hm.
  apply wp_if; intros Hge; cbn [wp].
  - split; [|done]. intros _. exists i. split; [lia|by apply Hm].
  - conjs; [lia|lia| |lia|lia]. apply Hnext. intros Hr. apply Hm in Hr. congruence.
Qed.

Lemma syncRunWithin_app buf more stride off want :
  syncRunWithin buf stride off want -> syncRunWithin (buf ++ more) stride off want.
Proof.
  intros (i & Hi & Hrun). exists i. rewrite length_app. split; [lia|].
  intros k Hk. apply lookup_app_l_Some. by apply Hrun.
Qed.

Definition strides_ok (strides : list (Z * Z)) : Prop := Forall (fun s => 0 < s.1 /\ 0 <= s.2) strides.

Lemma tsStrides_ok : strides_ok tsStrides.
Proof. repeat constructor; simpl; unfold PacketSize, packetSizeWithTimestamp, packetSizeWithParity; lia. Qed.

Lemma anySyncRun_returns buf strides : strides_ok strides ->
  returns (anySyncRun buf strides) (fun b =>
    b = true <-> exists s, s ∈ strides /\ syncRunWithin buf s.1 s.2 5).
Proof.
  induction 1 as [|[stride off] strides [Hs Ho] _ IH]; cbn [anySyncRun].
  { exists false. split; [done|]. split; [done|]. intros (s & Hs & _). by apply elem_of_nil in Hs. }
  destruct (hasSyncRun_returns buf stride off 5) as (b & -> & Hb); [done..|]. cbn [mbind go_bind].
  destruct b.
  - exists true. split; [done|]. split; [|done]. intros _. exists (stride, off). split; [by left|]. by apply Hb.
  - destruct IH as (b & -> & IH). exists b. split; [done|]. rewrite IH. split.
    + intros (s & Hin & Hrun). exists s. split; [by right|done].
    + intros (s & [-> |Hin]%elem_of_cons & Hrun); [|by exists s]. by apply Hb in Hrun.
Qed.

(** What [tsDetect] answers: five sync bytes in a row within the first packet,
    or a sync byte at the very start of a stream that has ended. *)
Lemma tsDetect_returns buf final :
  returns (tsDetect buf final) (fun r =>
    (r = Matched <-> (exists s, s ∈ tsStrides /\ syncRunWithin buf s.1 s.2 5)
                     \/ final = true /\ buf !! 0%nat = Some SyncByte)
    /\ (r = Undecided -> final = false)).
Proof.
  unfold tsDetect. destruct (anySyncRun_returns buf tsStrides tsStrides_ok) as (b & -> & Hb). cbn [mbind go_bind].
  destruct b; [exists Matched; split; [done|]; split; [|done]; split; [|done]; intros _; left; by apply Hb|].
  assert (~ exists s, s ∈ tsStrides /\ syncRunWithin buf s.1 s.2 5) as Hno by (rewrite <- Hb; done).
  destruct final; cbn [andb mbind go_bind]; [|exists Undecided; split; [done|]; split; [|done]; naive_solver].
  destruct buf as [|x buf]; [exists Rejected; split; [done|]; split; [|done]; split; [done|]; naive_solver|].
  rewrite (proj2 (Z.ltb_lt 0 (len (x :: buf)))) by (simpl; lia). rewrite (idx_lookup _ 0 x) by done. cbn [mbind go_bind].
  destruct (Z.eqb_spec x SyncByte) as [-> |Hx]; eexists; (split; [done|]); (split; [|done]); simpl.
  - split; [|done]. intros _. by right.
  - split; [done|]. intros [?|[_ [= ?]]]; done.
Qed.

#[export] Instance tsDetectorLaws : DetectorLaws tsDetector.
Proof.
  constructor; cbn [Detect tsDetector].
  - intros buf final _. destruct (tsDetect_returns buf final) as (r & -> & _). by exists r.
  - intros buf _ E. destruct (tsDetect_returns buf true) as (r & E' & _ & Hu). rewrite E in E'.
    injection E' as <-. by specialize (Hu eq_refl).
  - intros buf more final _ E.
    destruct (tsDetect_returns buf false) as (r & E' & Hr & _). rewrite E in E'. injection E' as <-.
    destruct (proj1 Hr eq_refl) as [(s & Hs & Hrun)|[? _]]; [|done].
    destruct (tsDetect_returns (buf ++ more) final) as (r' & -> & Hr' & _). f_equal. apply Hr'. left.
    exists s. split; [done|]. by apply syncRunWithin_app.
Qed.

(** ** The detector of ISDB-S3 TLV *)

(** Where the TLV packet that starts at [i] ends. *)
Definition tlvEnd (buf : bytes) (i : Z) : Z := i + 4 + be (byteAt buf (i + 2)) (byteAt buf (i + 3)).

Definition tlvStart (buf : bytes) (final : bool) (i : Z) : Prop :=
  0 <= i /\ i + 4 <= len buf /\ byteAt buf i = TLVSyncByte
  /\ (buf !! Z.to_nat (tlvEnd buf i) = Some TLVSyncByte \/ final = true /\ tlvEnd buf i = len buf).

Lemma tlvEnd_range buf i : bytes_ok buf -> i + 4 <= tlvEnd buf i < i + 4 + 65536.
Proof.
  intros Hb. unfold tlvEnd.
  pose proof (be_range _ _ (byteAt_range buf (i + 2) Hb) (byteAt_range buf (i + 3) Hb)). lia.
Qed.

Lemma tlvDetect_returns buf final : bytes_ok buf ->
  returns (tlvDetect buf final) (fun r =>
    (r = Matched <-> exists i, tlvStart buf final i) /\ (r = Undecided -> final = false)).
Proof.
  intros Hb. unfold tlvDetect. apply returns_wp.
  { apply errorless_loop. intros i. unfold tlvDetectTurn, read16. errorless. }
  apply (wp_loop (fun i => 0 <= i <= len buf /\ forall j, 0 <= j < i -> ~ tlvStart buf final j)
    (fun i => len buf - i)); [|split; [lia|]; intros; lia|lia|lia].
  intros i (Hi & Hno). unfold tlvDetectTurn. apply wp_if; intros Hw; bools.
  2:{ cbn [wp]. split; [|by destruct final]. split; [by destruct final|]. intros (j & Hj). exfalso.
      apply (Hno j); [|done]. destruct Hj. lia. }
  assert (~ tlvStart buf final i -> (0 <= i + 1 <= len buf /\ forall j, 0 <= j < i + 1 -> ~ tlvStart buf final j)
            /\ 0 <= len buf - (i + 1) < len buf - i) as Hnext.
  { intros Hn. conjs; try lia. intros j Hj. destruct (decide (j = i)) as [-> |]; [done|]. apply Hno. lia. }
  rewrite idx_byteAt by lia. cbn [mbind go_bind]. apply wp_if; intros Hs; bools.
  { cbn [wp]. apply Hnext. by intros (_ & _ & ? & _). }
  rewrite read16_at by lia. cbn [mbind go_bind]. replace (i + 2 + 1) with (i + 3) by lia.
  pose proof (tlvEnd_range buf i Hb) as Hr. unfold tlvEnd in Hr.
  set (next := i + 4 + be _ _) in *. assert (next = tlvEnd buf i) as Hnx by done. clearbody next.
  apply wp_bind. apply wp_if; intros Hlt; bools.
  - apply wp_bind, wp_idx; [lia|]. intros b Hlk. cbn [wp]. apply wp_if; intros Hc; bools.
    + cbn [wp]. split; [|done]. split; [|done]. intros _. exists i. unfold tlvStart. conjs; [lia..|done|]. left. congruence.
    + rewrite (proj2 (Z.eqb_neq next (len buf))) by lia. cbn [andb wp]. apply Hnext.
      intros (_ & _ & _ & [Hx|[_ Hx]]); [congruence|lia].
  - cbn [wp]. apply wp_if; intros Hc; bools; cbn [wp].
    + split; [|done]. split; [|done]. intros _. exists i. unfold tlvStart. conjs; [lia..|done|]. right. split; [done|lia].
    + apply Hnext. intros (_ & _ & _ & [Hx|[Hf Hx]]).
      * apply lookup_lt_Some in Hx. lia.
      * rewrite Hf, andb_true_r in Hc. bools. lia.
Qed.

#[export] Instance tlvDetectorLaws : DetectorLaws tlvDetector.
Proof.
  constructor; cbn [Detect tlvDetector].
  - intros buf final Hb. destruct (tlvDetect_returns buf final Hb) as (r & -> & _). by exists r.
  - intros buf Hb E. destruct (tlvDetect_returns buf true Hb) as (r & E' & _ & Hu). rewrite E in E'.
    injection E' as <-. by specialize (Hu eq_refl).
  - intros buf more final Hb E. pose proof Hb as [Hb1 _]%Forall_app.
    destruct (tlvDetect_returns buf false Hb1) as (r & E' & Hr & _). rewrite E in E'. injection E' as <-.
    destruct (proj1 Hr eq_refl) as (i & Hi & Hle & Hs & [Hn|[? _]]); [|done].
    destruct (tlvDetect_returns (buf ++ more) final Hb) as (r' & -> & Hr' & _). f_equal. apply Hr'.
    exists i. unfold tlvStart, tlvEnd. rewrite length_app, !byteAt_app by lia. conjs; [lia|lia|done|].
    left. by apply lookup_app_l_Some.
Qed.

(** Reaching the probe limit counts as the end of the stream, so a source of
    any length whose first byte happens to be 0x47 is taken for MPEG-2 TS. *)
Lemma leading_sync_byte_is_accepted grow others r : (forall cap, cap < grow cap) ->
  (forall o, o ∈ others -> DetectorLaws o) -> bytes_ok (contents r) -> unbroken r ->
  contents r !! 0%nat = Some SyncByte ->
  exists c, check grow (NewCheckReader r tsDetector others) = Ret (None, c).
Proof.
  intros Hg Ho Hok Hu H0.
  destruct (check_spec grow Hg tsDetector others Ho r [] Hok (fun v _ _ => v = None) (fun _ r' => unbroken r'))
    as (v & buf & r' & _ & -> & E); [done| |by eexists].
  intros buf r' n data err r'' v Hu' Hc Hn HR Hv.
  destruct (Read_unbroken r' n data err r'' Hu' HR) as (Hu2 & _ & Herr).
  rewrite <- Hc, (Read_contents _ _ _ _ _ HR), app_assoc in H0.
  assert (buf ++ data = [] -> err <> None -> False) as Hne.
  { intros Hnil He. destruct Herr as [-> |(-> & -> & Hr & ->)]; [done|]. by rewrite Hr, app_nil_r, Hnil in H0. }
  unfold reportAt in Hv. destruct (bool_decide (err <> None) || (probeLimit <=? len (buf ++ data))) eqn:Ef.
  - assert ((buf ++ data) !! 0%nat = Some SyncByte) as Hfirst.
    { assert (buf ++ data <> []) as Hx.
      { intros El. rewrite El in Ef. apply orb_true_iff in Ef as [He|He]; [|done].
        apply bool_decide_eq_true in He. by apply Hne. }
      by destruct (buf ++ data). }
    destruct (tsDetect_returns (buf ++ data) true) as (m & E & Hm & _). cbn [Detect tsDetector] in Hv.
    rewrite bool_decide_eq_true_2 in Hv; [by injection Hv as <-|]. rewrite E. f_equal. apply Hm. by right.
  - case_bool_decide; by injection Hv as <-.
Qed.

(** ** Examples *)

Definition tsSample : bytes := concat (replicate 5 (SyncByte :: replicate 187 0)).
Definition tlvSample : bytes := [0x7F; 0xFE; 0; 2; 1; 2; 0x7F; 0xFF; 0; 0].

Lemma sample_ok : bytes_ok tsSample /\ bytes_ok tlvSample.
Proof.
  split; [|unfold tlvSample; auto 30 with bytes].
  apply Forall_concat, Forall_replicate, Forall_cons. split; [done|]. by apply Forall_replicate.
Qed.

Definition cutIn (size : nat) (l : bytes) : source :=
  mkSource [(take size l, None); (drop size l, None)] ErrEOF.

Lemma double_larger : forall cap, cap < (fun c => Z.abs c * 2 + 1) cap.
Proof. intros cap. cbv beta. lia. Qed.

Lemma laws_of_tlv : forall o, o ∈ [tlvDetector] -> DetectorLaws o.
Proof. intros o ->%list_elem_of_singleton. apply _. Qed.

Lemma laws_of_ts : forall o, o ∈ [tsDetector] -> DetectorLaws o.
Proof. intros o ->%list_elem_of_singleton. apply _. Qed.

Lemma check_reader_is_transparent_witness :
  returns (CheckReads (fun c => Z.abs c * 2 + 1) (NewCheckReader (cutIn 100 tsSample) tsDetector [tlvDetector]) [64; 1000])
    (fun '(data, err, c) =>
    c_checked c = true /\ data ++ c_probe c ++ contents (c_r c) = contents (cutIn 100 tsSample)
    \/ c_checked c = false /\ data = [] /\ err <> None).
Proof.
  apply (check_reader_is_transparent _ double_larger tsDetector [tlvDetector] laws_of_tlv).
  - exact (proj1 sample_ok).
  - by repeat constructor.
  - done.
Defined.

(** A TLV stream in two pieces, read as MPEG-2 TS. *)
Lemma verdict_ignores_chunking_witness :
  exists v data err c, verdict tsDetector [tlvDetector] ErrEOF (contents (cutIn 3 tlvSample)) = Ret v
    /\ CheckRead (fun c => Z.abs c * 2 + 1) (NewCheckReader (cutIn 3 tlvSample) tsDetector [tlvDetector]) 188 = Ret (data, err, c)
    /\ c_checked c = bool_decide (v = None) /\ (forall e, v = Some e -> err = Some e /\ data = []).
Proof.
  apply (verdict_ignores_chunking _ double_larger tsDetector [tlvDetector] laws_of_tlv).
  - exact (proj2 sample_ok).
  - by repeat constructor.
  - done.
  - done.
Defined.

Example tlv_is_not_ts :
  CheckRead (fun c => Z.abs c * 2 + 1) (NewCheckReader (cutIn 3 tlvSample) tsDetector [tlvDetector]) 188
  = Ret ([], Some (MismatchError "ts" "tlv"), mkCheckReader (mkSource [] ErrEOF) tsDetector [tlvDetector] false []).
Proof. vm_compute. reflexivity. Qed.
