(* ===== verification/Tlv.v ===== *)
(** * TLV packets (mmt/tlv.go)

    [TLVReader] splits a byte stream into TLV packets, resynchronizing on two
    packets in a row.  [mmttest] (mmt/mmttest/mmttest.go) holds the builders the
    round trips are stated with. *)

From S2P Require Import Prelude Detect.

(** ** Packets *)

Definition TLVPacketTypeIPv4 : Z := 0x01.
Definition TLVPacketTypeIPv6 : Z := 0x02.
Definition TLVPacketTypeCompressedIP : Z := 0x03.
Definition TLVPacketTypeTransmissionControl : Z := 0xFE.
Definition TLVPacketTypeNull : Z := 0xFF.
Definition tlvHeaderSize : Z := 4.

Definition TLVType (p : bytes) : go Z := idx p 1.
Definition TLVData (p : bytes) : go bytes := sliceFrom p tlvHeaderSize.

(** ** The reader

    [bufio.Reader]: the bytes not yet discarded and the error after the last
    of them.  [Peek] reports [ErrBufferFull] beyond the size of its buffer. *)
Definition tlvBufferSize : Z := tlvHeaderSize + 0xFFFF + 1.

Record TLVReader := mkTLVReader {
  tr_rest : bytes;
  tr_err : error;
  tr_synced : bool
}.

Definition NewTLVReader (rest : bytes) (err : error) : TLVReader := mkTLVReader rest err false.

Definition Peek (r : TLVReader) (n : Z) : go bytes :=
  if tlvBufferSize <? n then Err ErrBufferFull
  else if n <=? len (tr_rest r) then sliceTo (tr_rest r) n
  else Err (tr_err r).

Definition Discard (r : TLVReader) (n : Z) (synced : bool) : TLVReader :=
  mkTLVReader (drop (Z.to_nat n) (tr_rest r)) (tr_err r) synced.

(** A turn of the loop of [Next], which leaves with a packet or an error. *)
Definition takePacket (r : TLVReader) (size : Z) : go (iteration TLVReader (TLVReader * (bytes + error))) :=
  orElse (Peek r size)
    (fun err => Ret (Break (r, inr err)))
    (fun packet => Ret (Break (Discard r size true, inl packet))).

Definition tlvNextTurn (r : TLVReader) : go (iteration TLVReader (TLVReader * (bytes + error))) :=
  orElse (Peek r tlvHeaderSize)
    (fun err => Ret (Break (r, inr err)))
    (fun header =>
       b ← idx header 0;
       if negb (b =? TLVSyncByte) then Ret (Continue (Discard r 1 false))
       else
         length ← read16 header 2;
         let size := tlvHeaderSize + length in
         if negb (tr_synced r) then
           orElse (Peek r (size + 1))
             (fun err => if bool_decide (err = ErrEOF) then takePacket r size else Ret (Break (r, inr err)))
             (fun next =>
                b ← idx next size;
                if negb (b =? TLVSyncByte) then Ret (Continue (Discard r 1 (tr_synced r))) else takePacket r size)
         else takePacket r size).

Definition TLVNext (r : TLVReader) : go (TLVReader * (bytes + error)) :=
  loop (S (length (tr_rest r))) tlvNextTurn r.

(** A caller that reads to the end, as the engine does: every packet, and the
    error that ended the stream. *)
Definition drainTurn (st : TLVReader * list bytes) : go (iteration (TLVReader * list bytes) (list bytes * error)) :=
  let '(r, packets) := st in
  '(r, next) ← TLVNext r;
  match next with
  | inl packet => Ret (Continue (r, packets ++ [packet]))
  | inr err => Ret (Break (packets, err))
  end.

Definition readPackets (r : TLVReader) : go (list bytes * error) :=
  loop (S (length (tr_rest r))) drainTurn (r, []).

(** [mmttest.TLV] *)
Definition TLV (packetType : Z) (data : bytes) : bytes :=
  [0x7F; packetType; u8 (Z.shiftr (len data) 8); u8 (len data)] ++ data.

(** A packet as it is sent: its length field is the length of its data. *)
Definition tlv_ok (p : bytes) : Prop := exists packetType data,
  p = TLV packetType data /\ byte_ok packetType /\ bytes_ok data /\ len data <= 0xFFFF.

(** ** The reader, turn by turn *)

(** The bytes of the packet at the head of the stream. *)
Definition headSize (r : TLVReader) : Z := tlvEnd (tr_rest r) 0.

Definition trusted (r : TLVReader) : iteration TLVReader (TLVReader * (bytes + error)) :=
  if headSize r <=? len (tr_rest r)
  then Break (Discard r (headSize r) true, inl (take (Z.to_nat (headSize r)) (tr_rest r)))
  else Break (r, inr (tr_err r)).

Definition turn (r : TLVReader) : iteration TLVReader (TLVReader * (bytes + error)) :=
  if len (tr_rest r) <? 4 then Break (r, inr (tr_err r))
  else if negb (byteAt (tr_rest r) 0 =? TLVSyncByte) then Continue (Discard r 1 false)
  else if tr_synced r then trusted r
  else if headSize r <? len (tr_rest r)
  then if byteAt (tr_rest r) (headSize r) =? TLVSyncByte then trusted r else Continue (Discard r 1 false)
  else if bool_decide (tr_err r = ErrEOF) then trusted r else Break (r, inr (tr_err r)).

Lemma Peek_eq r n : 0 <= n <= tlvBufferSize ->
  Peek r n = if n <=? len (tr_rest r) then Ret (take (Z.to_nat n) (tr_rest r)) else Err (tr_err r).
Proof.
  intros Hn. unfold Peek. rewrite (proj2 (Z.ltb_ge _ _)) by lia.
  destruct (Z.leb_spec n (len (tr_rest r))); [|done]. by rewrite slice_0 by lia.
Qed.

Lemma headSize_range r : bytes_ok (tr_rest r) -> 4 <= headSize r < tlvBufferSize.
Proof. intros H. pose proof (tlvEnd_range _ 0 H). unfold headSize, tlvBufferSize, tlvHeaderSize. lia. Qed.

Lemma takePacket_eq r : bytes_ok (tr_rest r) -> takePacket r (headSize r) = Ret (trusted r).
Proof.
  intros H. pose proof (headSize_range r H). unfold takePacket, trusted. rewrite Peek_eq by lia. by case_match.
Qed.

(** The buffer is never too small: a turn is [turn], which does not mention it. *)
Lemma tlvNextTurn_eq r : bytes_ok (tr_rest r) -> tlvNextTurn r = Ret (turn r).
Proof.
  intros H. pose proof (headSize_range r H) as Hs. unfold tlvNextTurn, turn.
  rewrite Peek_eq by (unfold tlvBufferSize, tlvHeaderSize; lia). change tlvHeaderSize with 4.
  destruct (Z.ltb_spec (len (tr_rest r)) 4) as [Hl|Hl]; [by rewrite (proj2 (Z.leb_gt _ _)) by lia|].
  rewrite (proj2 (Z.leb_le _ _)) by lia. cbn [orElse]. change (Z.to_nat 4) with 4%nat.
  rewrite idx_byteAt by (rewrite length_take; lia). rewrite byteAt_take by lia. cbn [mbind go_bind].
  case_match; [done|]. rewrite read16_at by (rewrite ?length_take; lia). rewrite !byteAt_take by lia. cbn [mbind go_bind].
  change (4 + be (byteAt (tr_rest r) 2) (byteAt (tr_rest r) (2 + 1))) with (headSize r).
  rewrite takePacket_eq by done. destruct (tr_synced r); [done|]. cbn [negb].
  rewrite Peek_eq by lia. destruct (Z.ltb_spec (headSize r) (len (tr_rest r))).
  - rewrite (proj2 (Z.leb_le _ _)) by lia. cbn [orElse].
    rewrite idx_byteAt by (rewrite length_take; lia). rewrite byteAt_take by lia. cbn [mbind go_bind].
    by destruct (byteAt (tr_rest r) (headSize r) =? TLVSyncByte).
  - rewrite (proj2 (Z.leb_gt _ _)) by lia. cbn [orElse]. by case_bool_decide.
Qed.

Lemma Discard_ok r n b : bytes_ok (tr_rest r) -> bytes_ok (tr_rest (Discard r n b)).
Proof. apply bytes_ok_drop. Qed.

#[export] Hint Resolve Discard_ok : bytes.

(** [Next] returns: a turn that goes on has dropped a byte. *)
Lemma TLVNext_step r : bytes_ok (tr_rest r) ->
  TLVNext r = match turn r with Continue r' => TLVNext r' | Break x => Ret x end.
Proof.
  intros H. unfold TLVNext. rewrite loop_S, tlvNextTurn_eq by done. cbn [mbind go_bind].
  destruct (turn r) as [r'|x] eqn:E; [|done].
  assert (r' = Discard r 1 false /\ 4 <= len (tr_rest r)) as [-> Hl].
  { unfold turn, trusted in E. repeat case_match; bools; naive_solver lia. }
  f_equal. cbn [Discard tr_rest]. rewrite length_drop. lia.
Qed.

(** ** Splitting a stream *)

Lemma length_TLV t d : len (TLV t d) = 4 + len d.
Proof. unfold TLV. rewrite length_app. simpl length. lia. Qed.

Lemma bytes_ok_TLV t d : byte_ok t -> bytes_ok d -> bytes_ok (TLV t d).
Proof. intros. unfold TLV. auto 10 with bytes. Qed.

Lemma tlv_ok_bytes p : tlv_ok p -> bytes_ok p.
Proof. intros (t & d & -> & ? & ? & _). by apply bytes_ok_TLV. Qed.

Lemma tlv_ok_head p x : tlv_ok p -> 4 <= len p <= tlvBufferSize /\ byteAt (p ++ x) 0 = TLVSyncByte /\ tlvEnd (p ++ x) 0 = len p.
Proof.
  intros (t & d & -> & _ & _ & Hd). pose proof (length_TLV t d). unfold tlvBufferSize, tlvHeaderSize. conjs; [lia|lia|done|].
  unfold tlvEnd. rewrite !byteAt_app by lia.
  change (byteAt (TLV t d) (0 + 2)) with (hiByte (len d)). change (byteAt (TLV t d) (0 + 3)) with (u8 (len d)).
  rewrite field16 by lia. lia.
Qed.

(** A head of the stream that an unsynchronized reader would take for a
    packet: a sync byte whose length leads to another one, or to or beyond the
    end. *)
Definition plausible (l : bytes) : Prop :=
  byteAt l 0 = TLVSyncByte /\ (len l <= tlvEnd l 0 \/ byteAt l (tlvEnd l 0) = TLVSyncByte).

(** No suffix of the garbage [g] before [x] is plausible. *)
Definition recognizable (g x : bytes) : Prop :=
  forall g1 g2, g = g1 ++ g2 -> g2 <> [] -> ~ plausible (g2 ++ x).

(** The beginning of a packet that was cut off. *)
Definition cutOff (t : bytes) : Prop := exists p k, tlv_ok p /\ (k < length p)%nat /\ t = take k p.

Lemma cutOff_ok t : cutOff t -> bytes_ok t.
Proof. intros (p & k & Hp%tlv_ok_bytes & _ & ->). auto with bytes. Qed.

Lemma TLVNext_packet p x err synced : tlv_ok p -> bytes_ok x ->
  synced = true \/ x = [] /\ err = ErrEOF \/ x <> [] /\ byteAt x 0 = TLVSyncByte ->
  TLVNext (mkTLVReader (p ++ x) err synced) = Ret (mkTLVReader x err true, inl p).
Proof.
  intros Hp Hx Hcase. destruct (tlv_ok_head p x Hp) as (Hl & H0 & Hend).
  pose proof (tlv_ok_bytes p Hp). rewrite TLVNext_step by (simpl; auto with bytes).
  set (r := mkTLVReader (p ++ x) err synced).
  assert (trusted r = Break (mkTLVReader x err true, inl p)) as Ht.
  { unfold trusted, headSize, r. cbn [tr_rest]. rewrite Hend. rewrite (proj2 (Z.leb_le _ _)) by (rewrite length_app; lia).
    unfold Discard. cbn [tr_rest tr_err]. by rewrite Nat2Z.id, take_app_length, drop_app_length. }
  enough (turn r = trusted r) as -> by (by rewrite Ht).
  unfold turn, headSize, r. cbn [tr_rest tr_err tr_synced]. rewrite Hend, H0, length_app.
  rewrite (proj2 (Z.ltb_ge _ _)) by lia. rewrite Z.eqb_refl. cbn [negb].
  destruct Hcase as [-> |[(-> & ->)|(Hne & Hs)]]; [done|destruct synced; [done|]..].
  - rewrite (proj2 (Z.ltb_ge _ _)) by (simpl; lia). done.
  - destruct x as [|b x]; [done|]. rewrite (proj2 (Z.ltb_lt _ _)) by (simpl; lia).
    change (byteAt (b :: x) 0) with b in Hs. assert (byteAt (p ++ b :: x) (len p) = b) as ->.
    { unfold byteAt. rewrite lookup_app_r by lia. by rewrite Nat2Z.id, Nat.sub_diag. }
    by rewrite Hs, Z.eqb_refl.
Qed.

Lemma TLVNext_garbage b l err : bytes_ok (b :: l) -> 4 <= len (b :: l) -> ~ plausible (b :: l) ->
  TLVNext (mkTLVReader (b :: l) err false) = TLVNext (mkTLVReader l err false).
Proof.
  intros Hb Hl Hp. rewrite TLVNext_step by done. unfold turn, headSize. cbn [tr_rest tr_synced].
  rewrite (proj2 (Z.ltb_ge _ _)) by done.
  destruct (Z.eqb_spec (byteAt (b :: l) 0) TLVSyncByte) as [H0|]; cbn [negb]; [|done].
  destruct (Z.ltb_spec (tlvEnd (b :: l) 0) (len (b :: l))); [|exfalso; apply Hp; split; [done|]; by left].
  destruct (Z.eqb_spec (byteAt (b :: l) (tlvEnd (b :: l) 0)) TLVSyncByte); [|done].
  exfalso. apply Hp. split; [done|]. by right.
Qed.

Lemma TLVNext_skips g x err : bytes_ok (g ++ x) -> 4 <= len x -> recognizable g x ->
  TLVNext (mkTLVReader (g ++ x) err false) = TLVNext (mkTLVReader x err false).
Proof.
  intros Hb Hx. induction g as [|b g IH]; intros Hg; [done|]. cbn [app] in *.
  rewrite TLVNext_garbage; [|done|simpl; rewrite length_app; lia|by apply (Hg [] (b :: g))].
  apply IH; [by apply Forall_cons in Hb as [_ ?]|]. intros g1 g2 -> Hne. by apply (Hg (b :: g1) g2).
Qed.

Lemma TLVNext_cutOff t err : cutOff t -> TLVNext (mkTLVReader t err true) = Ret (mkTLVReader t err true, inr err).
Proof.
  intros Ht. rewrite TLVNext_step by (by apply cutOff_ok). destruct Ht as (p & k & Hp & Hk & ->).
  unfold turn, trusted, headSize. cbn [tr_rest tr_err tr_synced]. destruct (Z.ltb_spec (len (take k p)) 4) as [|Hl]; [done|].
  rewrite length_take in Hl. destruct (tlv_ok_head p [] Hp) as (_ & H0 & Hend). rewrite app_nil_r in *.
  unfold tlvEnd in *. rewrite !byteAt_take by lia. rewrite H0, Hend, length_take. cbn [negb].
  rewrite (proj2 (Z.leb_gt _ _)) by lia. done.
Qed.

Lemma drainTurn_eq r acc : drainTurn (r, acc) = ('(r, next) ← TLVNext r;
  match next with
  | inl packet => Ret (Continue (r, acc ++ [packet]))
  | inr err => Ret (Break (acc, err))
  end).
Proof. done. Qed.

Lemma readPackets_loop n ps t : Forall tlv_ok ps -> cutOff t -> (length ps < n)%nat -> forall acc,
  loop n drainTurn (mkTLVReader (concat ps ++ t) ErrEOF true, acc) = Ret (acc ++ ps, ErrEOF).
Proof.
  intros Hps Ht. revert n. induction Hps as [|p ps Hp Hps IH]; intros n Hn acc; (destruct n as [|n]; [simpl in Hn; lia|]);
    rewrite loop_S, drainTurn_eq; cbn [concat].
  - cbn [app]. rewrite TLVNext_cutOff by done. cbn [mbind go_bind]. by rewrite app_nil_r.
  - rewrite <- app_assoc, TLVNext_packet; [|done| |by left].
    2:{ apply Forall_app. split; [|by apply cutOff_ok]. apply Forall_concat. eapply Forall_impl; [exact Hps|apply tlv_ok_bytes]. }
    cbn [mbind go_bind]. rewrite IH by (simpl in Hn; lia). by rewrite <- app_assoc.
Qed.

Lemma concat_tlv_length ps : Forall tlv_ok ps -> (length ps <= length (concat ps))%nat.
Proof.
  induction 1 as [|p ps Hp _ IH]; [done|]. cbn [concat length]. rewrite length_app.
  destruct (tlv_ok_head p [] Hp). lia.
Qed.

Lemma concat_tlv_ok ps t : Forall tlv_ok ps -> cutOff t -> bytes_ok (concat ps ++ t).
Proof.
  intros Hps Ht. apply Forall_app. split; [|by apply cutOff_ok].
  apply Forall_concat. eapply Forall_impl; [exact Hps|apply tlv_ok_bytes].
Qed.

(** An unsynchronized reader at the start of a packet. *)
Lemma readPackets_aligned n ps t acc : Forall tlv_ok ps -> ps <> [] -> cutOff t -> (length ps < S n)%nat ->
  loop (S n) drainTurn (mkTLVReader (concat ps ++ t) ErrEOF false, acc) = Ret (acc ++ ps, ErrEOF).
Proof.
  intros Hps Hne Ht Hn. pose proof (concat_tlv_ok ps t Hps Ht) as Hb.
  destruct Hps as [|p ps Hp Hps]; [done|]. clear Hne. rewrite loop_S, drainTurn_eq.
  cbn [concat] in *. rewrite <- app_assoc in *.
  rewrite TLVNext_packet; [|done|by apply Forall_app in Hb as [_ ?]|].
  - cbn [mbind go_bind]. rewrite (readPackets_loop _ ps t Hps Ht) by (simpl in Hn; lia). by rewrite <- app_assoc.
  - right. destruct Hps as [|q ps Hq Hps]; cbn [concat app].
    + destruct Ht as (q & k & Hq & Hk & ->). destruct k; [by left|]. right.
      destruct (tlv_ok_head q [] Hq) as (? & H0 & _). rewrite app_nil_r in H0. split; [by destruct q|].
      by rewrite byteAt_take by lia.
    + right. rewrite <- app_assoc. destruct (tlv_ok_head q (concat ps ++ t) Hq) as (? & H0 & _). split; [|done].
      destruct q; [simpl in *; lia|done].
Qed.

(** A TLV stream is split into exactly its packets: whatever garbage comes
    first (as long as nothing in it looks like the start of a packet that is
    followed by another), every packet is returned once, in order and whole,
    and a packet cut off at the end is dropped. *)
Theorem tlv_stream_read_exactly g ps t : bytes_ok g -> Forall tlv_ok ps -> ps <> [] -> cutOff t ->
  recognizable g (concat ps ++ t) ->
  readPackets (NewTLVReader (g ++ concat ps ++ t) ErrEOF) = Ret (ps, ErrEOF).
Proof.
  intros Hg Hps Hne Ht Hrec. pose proof (concat_tlv_length ps Hps) as Hlen. pose proof (concat_tlv_ok ps t Hps Ht) as Hb.
  assert (4 <= len (concat ps ++ t)) as H4.
  { destruct Hps as [|p ps Hp _]; [done|]. destruct (tlv_ok_head p [] Hp) as (? & _). cbn [concat]. rewrite !length_app. lia. }
  unfold readPackets. rewrite loop_S, drainTurn_eq. unfold NewTLVReader.
  rewrite TLVNext_skips; [|by apply Forall_app|done|done]. rewrite <- drainTurn_eq, <- loop_S. cbn [tr_rest].
  apply readPackets_aligned; [done..|]. rewrite !length_app. lia.
Qed.

(** ** Any input *)

(** The packets are slices of the stream, in order and apart from each other. *)
Inductive carved : list bytes -> bytes -> Prop :=
  | carved_nil l : carved [] l
  | carved_cons g p ps l : tlv_ok p -> carved ps l -> carved (p :: ps) (g ++ p ++ l).

Lemma head_is_packet l : bytes_ok l -> byteAt l 0 = TLVSyncByte -> tlvEnd l 0 <= len l ->
  tlv_ok (take (Z.to_nat (tlvEnd l 0)) l).
Proof.
  intros Hl H0 He. pose proof (tlvEnd_range l 0 Hl) as Hr.
  destruct l as [|a [|b [|c [|d l]]]]; simpl length in He; try lia.
  pose proof Hl as [Ha [Hb [Hc [Hd Hl']%Forall_cons]%Forall_cons]%Forall_cons]%Forall_cons.
  unfold tlvEnd in *. change (byteAt (a :: b :: c :: d :: l) (0 + 2)) with c in *.
  change (byteAt (a :: b :: c :: d :: l) (0 + 3)) with d in *. change (byteAt (a :: b :: c :: d :: l) 0) with a in H0.
  rewrite be_add in * by done. unfold byte_ok in *.
  replace (Z.to_nat (0 + 4 + (c * 256 + d))) with (4 + Z.to_nat (c * 256 + d))%nat by lia. cbn [take Nat.add].
  set (data := take (Z.to_nat (c * 256 + d)) l).
  assert (len data = c * 256 + d) as Hdata by (subst data; rewrite length_take; lia).
  exists b, data. conjs; [|done| |lia].
  - unfold TLV. rewrite Hdata, H0. rewrite Z.shiftr_div_pow2 by done. unfold u8. cbn [app]. repeat f_equal; dmlia.
  - subst data. auto with bytes.
Qed.

Lemma TLVNext_spec r : bytes_ok (tr_rest r) ->
  returns (TLVNext r) (fun '(r', x) => tr_err r' = tr_err r /\
    match x with
    | inl p => tlv_ok p /\ exists g, tr_rest r = g ++ p ++ tr_rest r'
    | inr e => e = tr_err r
    end).
Proof.
  remember (length (tr_rest r)) as n eqn:En. revert r En. induction n as [n IH] using lt_wf_ind. intros r -> Hb.
  rewrite TLVNext_step by done.
  assert (byteAt (tr_rest r) 0 = TLVSyncByte -> 4 <= len (tr_rest r) -> exists x, trusted r = Break x /\
    (fun '(r', x) => tr_err r' = tr_err r /\
    match x with
    | inl p => tlv_ok p /\ exists g, tr_rest r = g ++ p ++ tr_rest r'
    | inr e => e = tr_err r
    end) x) as Htrust.
  { intros H0 H4. unfold trusted. destruct (Z.leb_spec (headSize r) (len (tr_rest r))); eexists; (split; [done|]); [|done].
    split; [done|]. split; [by apply head_is_packet|]. exists []. cbn [Discard tr_rest app]. by rewrite take_drop. }
  assert (4 <= len (tr_rest r) -> returns (TLVNext (Discard r 1 false)) (fun '(r', x) => tr_err r' = tr_err r /\
    match x with
    | inl p => tlv_ok p /\ exists g, tr_rest r = g ++ p ++ tr_rest r'
    | inr e => e = tr_err r
    end)) as Hskip.
  { intros H4. destruct (IH (length (tr_rest (Discard r 1 false))) ltac:(cbn [Discard tr_rest]; rewrite length_drop; lia)
      (Discard r 1 false) eq_refl ltac:(auto with bytes)) as ([r' x] & -> & He & Hx).
    exists (r', x). split; [done|]. split; [done|]. destruct x as [p|e]; [|done]. destruct Hx as (Hp & g & Hg).
    split; [done|]. exists (take 1 (tr_rest r) ++ g). rewrite <- app_assoc, <- Hg. cbn [Discard tr_rest].
    by rewrite take_drop. }
  unfold turn.
  destruct (Z.ltb_spec (len (tr_rest r)) 4); [by eexists|].
  destruct (Z.eqb_spec (byteAt (tr_rest r) 0) TLVSyncByte) as [H0|]; cbn [negb]; [|by apply Hskip].
  destruct Htrust as (x & -> & Hx); [done..|].
  destruct (tr_synced r); [by exists x|].
  destruct (headSize r <? len (tr_rest r)); [|case_bool_decide; [by exists x|by eexists]].
  destruct (byteAt _ (headSize r) =? TLVSyncByte); [by exists x|by apply Hskip].
Qed.

(** On any input the TLV reader ends, and what it returned are well-formed
    packets cut out of the stream in order, without overlap; the only error it
    reports is the source's own, so its buffer is always large enough. *)
Theorem tlv_reader_carves_any_stream l err : bytes_ok l ->
  returns (readPackets (NewTLVReader l err)) (fun '(ps, e) => carved ps l /\ e = err).
Proof.
  intros Hl. unfold readPackets. cbn [NewTLVReader tr_rest].
  enough (forall n r acc, bytes_ok (tr_rest r) -> (length (tr_rest r) < n)%nat ->
    exists ps, loop n drainTurn (r, acc) = Ret (acc ++ ps, tr_err r) /\ carved ps (tr_rest r)) as H.
  { destruct (H (S (length l)) (NewTLVReader l err) [] Hl ltac:(simpl; lia)) as (ps & -> & Hc).
    by exists (ps, err). }
  induction n as [|n IH]; intros r acc Hr Hn; [lia|]. rewrite loop_S, drainTurn_eq.
  destruct (TLVNext_spec r Hr) as ([r' [p|e]] & -> & He & Hx); cbn [mbind go_bind].
  - destruct Hx as (Hp & g & Hg). pose proof (tlv_ok_head p [] Hp) as [Hlen _].
    rewrite Hg in Hr. apply Forall_app in Hr as [_ [_ Hr']%Forall_app].
    destruct (IH r' (acc ++ [p]) Hr') as (ps & -> & Hc).
    { rewrite Hg, !length_app in Hn. lia. }
    exists (p :: ps). rewrite Hg, He, <- app_assoc. split; [done|]. by constructor.
  - subst e. exists []. rewrite app_nil_r. split; [done|constructor].
Qed.

(** An unsynchronized reader trusts a header that leads beyond the end of the
    stream: it reports the end, and the packets after it are lost. *)
Example overlong_header_hides_packets :
  readPackets (NewTLVReader ([0x7F; 0; 0xFF; 0xFF] ++ TLV 3 [1; 0; 0x61] ++ TLV 3 [1; 1; 0x61]) ErrEOF) = Ret ([], ErrEOF).
Proof. vm_compute. reflexivity. Qed.

(** ** Examples *)

Definition tlvA : bytes := TLV TLVPacketTypeNull [1; 2].
Definition tlvB : bytes := TLV TLVPacketTypeCompressedIP [0; 0x10; 0x61; 0x7F].

Lemma tlvAB_ok : Forall tlv_ok [tlvA; tlvB].
Proof.
  repeat apply Forall_cons_2; [| |done]; eexists _, _; (split; [reflexivity|]);
    (split; [done|split; [auto 10 with bytes|by vm_compute]]).
Qed.

(** The stream begins inside a packet whose data holds the sync byte. *)
Lemma tlv_stream_read_exactly_witness :
  readPackets (NewTLVReader ([0xFF; 0x7F; 0x03; 0x00; 0x02; 0xFF] ++ concat [tlvA; tlvB] ++ take 5 tlvB) ErrEOF)
  = Ret ([tlvA; tlvB], ErrEOF).
Proof.
  apply tlv_stream_read_exactly.
  - auto 10 with bytes.
  - exact tlvAB_ok.
  - done.
  - exists tlvB, 5%nat. conjs; [exact (proj1 (Forall_singleton _ _) (Forall_inv_tail tlvAB_ok))|vm_compute; lia|done].
  - intros g1 g2 E Hne [H0 H1]. vm_compute in H0.
    do 7 (destruct g1 as [|? g1]; [simpl in E; subst g2; vm_compute in H0, H1; destruct H1; congruence|simpl in E; try discriminate E; injection E as _ E]).
Defined.

Lemma tlv_reader_carves_any_stream_witness :
  returns (readPackets (NewTLVReader ([0xFF; 0x7F; 0] ++ tlvA) ErrEOF))
    (fun '(ps, e) => carved ps ([0xFF; 0x7F; 0] ++ tlvA) /\ e = ErrEOF).
Proof.
  apply tlv_reader_carves_any_stream. apply Forall_app_2; [auto 10 with bytes|].
  exact (tlv_ok_bytes _ (Forall_inv tlvAB_ok)).
Defined.
