(* ===== verification/IpFlow.v ===== *)
(** * Datagrams in TLV packets and their flows (mmt/ip.go, mmt/flow.go)

    A TLV packet carries a UDP datagram in an IPv4, an IPv6 or a
    header-compressed IP packet.  A compressed packet usually carries only the
    id of its context, whose flow [FlowTracker] remembers.  The builders of
    mmt/mmttest/mmttest.go are the other side of the round trips. *)

From S2P Require Import Prelude Detect Tlv.

(** ** Addresses (net/netip)

    The zero [netip.Addr] is invalid; [AddrFrom4] and [AddrFrom16] of the same
    bytes differ. *)
Inductive Addr : Set :=
  | AddrNone
  | AddrFrom4 (b : bytes)
  | AddrFrom16 (b : bytes).

#[export] Instance Addr_eq_dec : EqDecision Addr.
Proof. solve_decision. Defined.

#[export] Instance Addr_countable : Countable Addr.
Proof.
  refine (inj_countable'
    (fun a => match a with AddrNone => inl () | AddrFrom4 b => inr (inl b) | AddrFrom16 b => inr (inr b) end)
    (fun x : () + (bytes + bytes) => match x with inl _ => AddrNone | inr (inl b) => AddrFrom4 b | inr (inr b) => AddrFrom16 b end) _).
  by intros [].
Defined.

Definition AddrIsValid (a : Addr) : bool := match a with AddrNone => false | _ => true end.

(** [netip.AddrPort]: an address and a port. *)
Abbreviation AddrPort := (Addr * Z)%type.
Definition noAddrPort : AddrPort := (AddrNone, 0).

(** ** Datagrams *)

Definition CompressedHeaderIPv4UDP : Z := 0x20.
Definition CompressedHeaderIPv4ID : Z := 0x21.
Definition CompressedHeaderIPv6UDP : Z := 0x60.
Definition CompressedHeaderNone : Z := 0x61.
Definition ipProtocolUDP : Z := 17.

Record UDPPacket := mkUDPPacket {
  udp_Compressed : bool;
  udp_ContextID : Z;
  udp_SequenceNumber : Z;
  udp_Source : AddrPort;
  udp_Destination : AddrPort;
  udp_Payload : bytes
}.

Definition parseUDP (b : bytes) (src dst : Addr) : go UDPPacket :=
  if len b <? 8 then Err ErrInvalidPacket
  else
    length ← read16 b 4;
    if (length <? 8) || (len b <? length) then Err ErrInvalidPacket
    else
      srcPort ← read16 b 0;
      dstPort ← read16 b 2;
      payload ← slice b 8 length;
      Ret (mkUDPPacket false 0 0 (src, srcPort) (dst, dstPort) payload).

Definition parseIPv4UDP (b : bytes) : go UDPPacket :=
  bad ← Ret (len b <? 20) ||! (b0 ← idx b 0; Ret (negb (Z.shiftr b0 4 =? 4)));
  if (bad : bool) then Err ErrInvalidPacket
  else
    b0 ← idx b 0;
    let headerLen := Z.land b0 0x0f * 4 in
    totalLen ← read16 b 2;
    if (headerLen <? 20) || (totalLen <? headerLen) || (len b <? totalLen) then Err ErrInvalidPacket
    else
      protocol ← idx b 9;
      if negb (protocol =? ipProtocolUDP) then Err ErrNotUDP
      else
        src ← slice b 12 16;
        dst ← slice b 16 20;
        datagram ← slice b headerLen totalLen;
        parseUDP datagram (AddrFrom4 src) (AddrFrom4 dst).

Definition parseIPv6UDP (b : bytes) : go UDPPacket :=
  bad ← Ret (len b <? 40) ||! (b0 ← idx b 0; Ret (negb (Z.shiftr b0 4 =? 6)));
  if (bad : bool) then Err ErrInvalidPacket
  else
    payloadLen ← read16 b 4;
    if len b <? 40 + payloadLen then Err ErrInvalidPacket
    else
      protocol ← idx b 6;
      if negb (protocol =? ipProtocolUDP) then Err ErrNotUDP
      else
        src ← slice b 8 24;
        dst ← slice b 24 40;
        datagram ← slice b 40 (40 + payloadLen);
        parseUDP datagram (AddrFrom16 src) (AddrFrom16 dst).

(** [uint16(b[0])<<4 | uint16(b[1]>>4)] *)
Definition contextOf (b0 b1 : Z) : Z := Z.lor (Z.shiftl b0 4) (Z.shiftr b1 4).

Definition parseCompressedUDP (b : bytes) : go UDPPacket :=
  if len b <? 3 then Err ErrInvalidPacket
  else
    b0 ← idx b 0;
    b1 ← idx b 1;
    let u := mkUDPPacket true (contextOf b0 b1) (Z.land b1 0x0f) in
    headerType ← idx b 2;
    b ← sliceFrom b 3;
    if headerType =? CompressedHeaderIPv4UDP then
      bad ← Ret (len b <? 20) ||! (h ← idx b 0; Ret (negb (Z.shiftr h 4 =? 4)));
      if (bad : bool) then Err ErrInvalidPacket
      else
        protocol ← idx b 7;
        if negb (protocol =? ipProtocolUDP) then Err ErrNotUDP
        else
          src ← slice b 8 12; srcPort ← read16 b 16;
          dst ← slice b 12 16; dstPort ← read16 b 18;
          payload ← sliceFrom b 20;
          Ret (u (AddrFrom4 src, srcPort) (AddrFrom4 dst, dstPort) payload)
    else if headerType =? CompressedHeaderIPv4ID then
      if len b <? 2 then Err ErrInvalidPacket
      else payload ← sliceFrom b 2; Ret (u noAddrPort noAddrPort payload)
    else if headerType =? CompressedHeaderIPv6UDP then
      bad ← Ret (len b <? 42) ||! (h ← idx b 0; Ret (negb (Z.shiftr h 4 =? 6)));
      if (bad : bool) then Err ErrInvalidPacket
      else
        protocol ← idx b 4;
        if negb (protocol =? ipProtocolUDP) then Err ErrNotUDP
        else
          src ← slice b 6 22; srcPort ← read16 b 38;
          dst ← slice b 22 38; dstPort ← read16 b 40;
          payload ← sliceFrom b 42;
          Ret (u (AddrFrom16 src, srcPort) (AddrFrom16 dst, dstPort) payload)
    else if headerType =? CompressedHeaderNone then Ret (u noAddrPort noAddrPort b)
    else Err ErrInvalidPacket.

Definition ParseUDPPacket (p : bytes) : go UDPPacket :=
  if len p <? tlvHeaderSize then Err ErrInvalidPacket
  else
    data ← TLVData p;
    t ← TLVType p;
    if t =? TLVPacketTypeIPv4 then parseIPv4UDP data
    else if t =? TLVPacketTypeIPv6 then parseIPv6UDP data
    else if t =? TLVPacketTypeCompressedIP then parseCompressedUDP data
    else Err ErrNotUDP.

(** ** Flows *)

Record IPDataFlow := mkFlow {
  fl_Source : Addr;
  fl_Destination : Addr;
  fl_DestinationPort : Z
}.

#[export] Instance IPDataFlow_eq_dec : EqDecision IPDataFlow.
Proof. solve_decision. Defined.
#[export] Instance IPDataFlow_countable : Countable IPDataFlow.
Proof.
  refine (inj_countable' (fun f => (fl_Source f, fl_Destination f, fl_DestinationPort f))
    (fun '(s, d, p) => mkFlow s d p) _). by intros [].
Defined.

Definition FlowIsValid (f : IPDataFlow) : bool := AddrIsValid (fl_Destination f).

Definition noFlow : IPDataFlow := mkFlow AddrNone AddrNone 0.

(** [netip.AddrPort.IsValid] asks its address. *)
Definition flowOf (u : UDPPacket) : IPDataFlow * bool :=
  if negb (AddrIsValid (udp_Destination u).1) then (noFlow, false)
  else (mkFlow (udp_Source u).1 (udp_Destination u).1 (udp_Destination u).2, true).

(** [FlowTracker.contexts] *)
Abbreviation FlowTracker := (gmap Z IPDataFlow).

Definition Flow (t : FlowTracker) (u : UDPPacket) : FlowTracker * (IPDataFlow * bool) :=
  let '(flow, ok) := flowOf u in
  if negb (udp_Compressed u) then (t, (flow, ok))
  else if ok then (<[udp_ContextID u := flow]> t, (flow, true))
  else match t !! udp_ContextID u with
       | Some flow => (t, (flow, true))
       | None => (t, (noFlow, false))
       end.

Record PacketKey := mkKey {
  k_Flow : IPDataFlow;
  k_PacketID : Z
}.

#[export] Instance PacketKey_eq_dec : EqDecision PacketKey.
Proof. solve_decision. Defined.
#[export] Instance PacketKey_countable : Countable PacketKey.
Proof. refine (inj_countable' (fun k => (k_Flow k, k_PacketID k)) (fun '(f, i) => mkKey f i) _). by intros []. Defined.

(** ** Builders (mmt/mmttest/mmttest.go) *)

Definition be16 (v : Z) : bytes := [u8 (Z.shiftr v 8); u8 v].

(** [byte(contextID>>4), byte(contextID<<4)|sequenceNumber&0x0f, headerType] *)
Definition compressedHead (contextID sequenceNumber headerType : Z) : bytes :=
  [u8 (Z.shiftr contextID 4); Z.lor (u8 (Z.shiftl contextID 4)) (Z.land sequenceNumber 0x0f); headerType].

Definition CompressedIP (contextID sequenceNumber : Z) (payload : bytes) : bytes :=
  TLV 0x03 (compressedHead contextID sequenceNumber 0x61 ++ payload).

Definition CompressedIPv6UDP (contextID sequenceNumber : Z) (src dst : bytes) (srcPort dstPort : Z) (payload : bytes) : bytes :=
  let data := compressedHead contextID sequenceNumber 0x60 in
  let data := data ++ [0x60; 0; 0; 0; 17; 255] in
  let data := data ++ src in
  let data := data ++ dst in
  let data := data ++ be16 srcPort ++ be16 dstPort in
  TLV 0x03 (data ++ payload).

Definition IPv6UDP (src dst : bytes) (srcPort dstPort : Z) (payload : bytes) : bytes :=
  let udpLen := 8 + len payload in
  let b := [0x60; 0; 0; 0; u8 (Z.shiftr udpLen 8); u8 udpLen; 17; 255] in
  let b := b ++ src in
  let b := b ++ dst in
  let b := b ++ be16 srcPort ++ be16 dstPort ++ [u8 (Z.shiftr udpLen 8); u8 udpLen; 0; 0] in
  TLV 0x02 (b ++ payload).

(** ** Every input *)

Definition udp_ok (u : UDPPacket) : Prop := bytes_ok (udp_Payload u).

Lemma parseUDP_ok b src dst : bytes_ok b -> wp (parseUDP b src dst) (fun u =>
  udp_ok u /\ udp_Compressed u = false /\ len (udp_Payload u) <= len b).
Proof.
  intros Hb. unfold parseUDP. apply wp_if; intros ?; bools; [done|]. go_run. unfold udp_ok. cbn [udp_Payload].
  bools. conjs; [auto with bytes|done|]. rewrite length_take, length_drop. lia.
Qed.

Lemma parseIPv4UDP_ok b : bytes_ok b -> wp (parseIPv4UDP b) (fun u => udp_ok u /\ len (udp_Payload u) <= len b).
Proof.
  intros Hb. unfold parseIPv4UDP. apply wp_bind, wp_goor, wp_ret.
  destruct (Z.ltb_spec (len b) 20); [done|]. go_run.
  eapply wp_mono; [apply parseUDP_ok; auto with bytes|]. intros u (? & _ & Hl). split; [done|].
  rewrite length_take, length_drop in Hl. lia.
Qed.

Lemma parseIPv6UDP_ok b : bytes_ok b -> wp (parseIPv6UDP b) (fun u => udp_ok u /\ len (udp_Payload u) <= len b).
Proof.
  intros Hb. unfold parseIPv6UDP. apply wp_bind, wp_goor, wp_ret.
  destruct (Z.ltb_spec (len b) 40); [done|]. go_run.
  eapply wp_mono; [apply parseUDP_ok; auto with bytes|]. intros u (? & _ & Hl). split; [done|].
  rewrite length_take, length_drop in Hl. lia.
Qed.

Lemma parseCompressedUDP_ok b : bytes_ok b -> wp (parseCompressedUDP b) (fun u => udp_ok u /\ len (udp_Payload u) <= len b).
Proof.
  intros Hb. unfold parseCompressedUDP, udp_ok.
  go_run; repeat (case_match; go_run); cbn [udp_Payload]; try (split; [auto 10 with bytes|blia]).
Qed.

Lemma ParseUDPPacket_ok p : bytes_ok p -> wp (ParseUDPPacket p) (fun u => udp_ok u /\ len (udp_Payload u) <= len p).
Proof.
  intros Hp. unfold ParseUDPPacket, TLVData, TLVType, tlvHeaderSize. go_run;
    (eapply wp_mono; [first [apply parseIPv4UDP_ok|apply parseIPv6UDP_ok|apply parseCompressedUDP_ok]; auto with bytes|]);
    intros u [? Hl]; (split; [done|]); rewrite length_take, length_drop in Hl; lia.
Qed.

(** ** Round trips *)

Lemma slice_const {A} (l : list A) a b r : 0 <= a -> a <= b -> b <= len l ->
  take (Z.to_nat (b - a)) (drop (Z.to_nat a) l) = r -> slice l a b = Ret r.
Proof.
  intros Ha Hab Hb <-. unfold slice.
  by rewrite (proj2 (Z.leb_le _ _) Ha), (proj2 (Z.leb_le _ _) Hab), (proj2 (Z.leb_le _ _) Hb).
Qed.

Lemma sliceFrom_const {A} (l : list A) a r : 0 <= a <= len l -> drop (Z.to_nat a) l = r -> sliceFrom l a = Ret r.
Proof. intros Ha <-. by rewrite slice_from. Qed.

(** Reads fixed positions of a list whose first elements are known. *)
Ltac peek :=
  repeat match goal with
  | |- context [?x <? ?y] => rewrite (proj2 (Z.ltb_ge x y)) by (cbn [length app]; lia)
  | |- context [idx ?l ?i] =>
      let x := eval cbv in (l !! Z.to_nat i) in
      match x with Some ?v => rewrite (idx_lookup l i v) by (done || reflexivity) end
  | |- context [sliceFrom ?l ?i] =>
      let x := eval cbv in (drop (Z.to_nat i) l) in
      rewrite (sliceFrom_const l i x) by (cbn [length app]; lia || reflexivity)
  | |- context [slice ?l ?a (Zpos ?b)] =>
      let x := eval cbv in (take (Z.to_nat (Zpos b - a)) (drop (Z.to_nat a) l)) in
      rewrite (slice_const l a (Zpos b) x) by (cbn [length app]; lia || reflexivity)
  | |- _ => progress cbn [mbind go_bind goor negb Z.eqb Pos.eqb CompressedHeaderIPv4UDP CompressedHeaderIPv4ID
                          CompressedHeaderIPv6UDP CompressedHeaderNone ipProtocolUDP Z.shiftr Z.shiftl Z.opp Pos.iter Z.div2 Pos.div2]
  end.

Lemma compressedHead_fields contextID seq : 0 <= contextID < 4096 ->
  contextOf (u8 (Z.shiftr contextID 4)) (Z.lor (u8 (Z.shiftl contextID 4)) (Z.land seq 0x0f)) = contextID
  /\ Z.land (Z.lor (u8 (Z.shiftl contextID 4)) (Z.land seq 0x0f)) 0x0f = Z.land seq 0x0f.
Proof.
  intros Hc. assert (u8 (Z.shiftl contextID 4) = Z.shiftl (contextID mod 16) 4) as ->.
  { rewrite !Z.shiftl_mul_pow2 by done. unfold u8. change (2 ^ 8) with (16 * 16). change (2 ^ 4) with 16.
    by rewrite Z.mul_mod_distr_r by done. }
  rewrite !land_0f. pose proof (Z.mod_pos_bound seq 16 ltac:(done)) as Hm.
  pose proof (Z.mod_pos_bound contextID 16 ltac:(done)) as Hc16.
  rewrite lor_disjoint by (done || lia). change (2 ^ 4) with 16. split.
  - unfold contextOf. rewrite !Z.shiftr_div_pow2 by done. change (2 ^ 4) with 16.
    rewrite u8_small by dmlia. rewrite lor_disjoint by (done || dmlia). dmlia.
  - dmlia.
Qed.

Lemma ParseUDPPacket_TLV t data : byte_ok t ->
  ParseUDPPacket (TLV t data) =
    if t =? TLVPacketTypeIPv4 then parseIPv4UDP data
    else if t =? TLVPacketTypeIPv6 then parseIPv6UDP data
    else if t =? TLVPacketTypeCompressedIP then parseCompressedUDP data
    else Err ErrNotUDP.
Proof.
  intros _. unfold ParseUDPPacket, TLVData, TLVType, TLV, tlvHeaderSize. cbn [app].
  rewrite (proj2 (Z.ltb_ge _ _)) by (cbn [length]; lia).
  rewrite slice_from by (cbn [length]; lia). cbn [mbind go_bind].
  by rewrite (idx_lookup _ 1 t) by done.
Qed.

(** A packet with only the id of its context. *)
Lemma CompressedIP_parses contextID seq payload : 0 <= contextID < 4096 ->
  ParseUDPPacket (CompressedIP contextID seq payload) =
    Ret (mkUDPPacket true contextID (Z.land seq 0x0f) noAddrPort noAddrPort payload).
Proof.
  intros Hc. unfold CompressedIP. rewrite ParseUDPPacket_TLV by done. cbn.
  destruct (compressedHead_fields contextID seq Hc) as [H1 H2].
  unfold compressedHead. revert H1 H2. generalize (u8 (Z.shiftr contextID 4)) as c0.
  generalize (Z.lor (u8 (Z.shiftl contextID 4)) (Z.land seq 0x0f)) as c1. intros c1 c0 H1 H2. cbn [app].
  unfold parseCompressedUDP. peek. by rewrite H1, H2.
Qed.

Lemma split16 (l : bytes) : length l = 16%nat -> exists a b c d e f g h i j k m n o p q,
  l = [a; b; c; d; e; f; g; h; i; j; k; m; n; o; p; q].
Proof.
  intros Hl. do 16 (destruct l as [|? l]; [discriminate|]). destruct l; [|discriminate]. by repeat eexists.
Qed.

(** The first packet of a context, with its partial headers. *)
Lemma CompressedIPv6UDP_parses contextID seq src dst srcPort dstPort payload :
  0 <= contextID < 4096 -> length src = 16%nat -> length dst = 16%nat -> 0 <= srcPort < 65536 -> 0 <= dstPort < 65536 ->
  ParseUDPPacket (CompressedIPv6UDP contextID seq src dst srcPort dstPort payload) =
    Ret (mkUDPPacket true contextID (Z.land seq 0x0f) (AddrFrom16 src, srcPort) (AddrFrom16 dst, dstPort) payload).
Proof.
  intros Hc Hs Hd Hsp Hdp. unfold CompressedIPv6UDP. cbv zeta. rewrite ParseUDPPacket_TLV by done.
  destruct (compressedHead_fields contextID seq Hc) as [H1 H2].
  pose proof (field16 _ Hsp) as H3. pose proof (field16 _ Hdp) as H4. unfold hiByte in *.
  unfold compressedHead, be16. revert H1 H2 H3 H4. generalize (u8 (Z.shiftr contextID 4)) as c0.
  generalize (Z.lor (u8 (Z.shiftl contextID 4)) (Z.land seq 0x0f)) as c1. intros c1 c0.
  generalize (u8 (Z.shiftr srcPort 8)) (u8 srcPort) (u8 (Z.shiftr dstPort 8)) (u8 dstPort).
  intros p0 p1 q0 q1 H1 H2 H3 H4.
  apply split16 in Hs as (? & ? & ? & ? & ? & ? & ? & ? & ? & ? & ? & ? & ? & ? & ? & ? & ->).
  apply split16 in Hd as (? & ? & ? & ? & ? & ? & ? & ? & ? & ? & ? & ? & ? & ? & ? & ? & ->).
  cbn [app]. cbn [Z.eqb Pos.eqb TLVPacketTypeIPv4 TLVPacketTypeIPv6 TLVPacketTypeCompressedIP].
  unfold parseCompressedUDP, read16. peek. by rewrite H1, H2, H3, H4.
Qed.

(** An uncompressed datagram, as NTP is sent. *)
Lemma IPv6UDP_parses src dst srcPort dstPort payload :
  length src = 16%nat -> length dst = 16%nat -> 0 <= srcPort < 65536 -> 0 <= dstPort < 65536 -> len payload < 65528 ->
  ParseUDPPacket (IPv6UDP src dst srcPort dstPort payload) =
    Ret (mkUDPPacket false 0 0 (AddrFrom16 src, srcPort) (AddrFrom16 dst, dstPort) payload).
Proof.
  intros Hs Hd Hsp Hdp Hpl. unfold IPv6UDP. cbv zeta. rewrite ParseUDPPacket_TLV by done.
  pose proof (field16 _ Hsp) as H3. pose proof (field16 _ Hdp) as H4.
  pose proof (field16 (8 + len payload) ltac:(lia)) as H5. unfold hiByte in *.
  unfold be16. revert H3 H4 H5.
  generalize (u8 (Z.shiftr (8 + len payload) 8)) (u8 (8 + len payload)).
  generalize (u8 (Z.shiftr srcPort 8)) (u8 srcPort) (u8 (Z.shiftr dstPort 8)) (u8 dstPort).
  intros p0 p1 q0 q1 l0 l1 H3 H4 H5.
  apply split16 in Hs as (? & ? & ? & ? & ? & ? & ? & ? & ? & ? & ? & ? & ? & ? & ? & ? & ->).
  apply split16 in Hd as (? & ? & ? & ? & ? & ? & ? & ? & ? & ? & ? & ? & ? & ? & ? & ? & ->).
  cbn [app]. cbn [Z.eqb Pos.eqb TLVPacketTypeIPv4 TLVPacketTypeIPv6 TLVPacketTypeCompressedIP].
  unfold parseIPv6UDP, read16. peek. rewrite H5. peek.
  erewrite slice_const; [|lia|lia|cbn [length]; lia|apply take_ge; rewrite length_drop; cbn [length]; lia].
  cbn [mbind go_bind]. change (Z.to_nat 40) with 40%nat. cbn [drop]. unfold parseUDP, read16. peek. rewrite H5.
  change (negb (Z.shiftr 96 4 =? 6)) with false. cbn [orb]. rewrite H3, H4.
  erewrite slice_const; [|lia|lia|cbn [length]; lia|apply take_ge; rewrite length_drop; cbn [length]; lia].
  done.
Qed.

(** ** Flows are remembered *)

(** The flow a full header of the context announced last. *)
Fixpoint announced (context : Z) (history : list UDPPacket) : option IPDataFlow :=
  match history with
  | [] => None
  | u :: history =>
      if udp_Compressed u && (udp_ContextID u =? context) && AddrIsValid (udp_Destination u).1
      then Some (flowOf u).1 else announced context history
  end.

(** The tracker after the packets of [history], the latest first. *)
Definition track (history : list UDPPacket) : FlowTracker := foldr (fun u t => (Flow t u).1) ∅ history.

Lemma track_lookup history context : track history !! context = announced context history.
Proof.
  induction history as [|u history IH]; [done|]. cbn [track foldr announced]. fold (track history).
  unfold Flow, flowOf. destruct (AddrIsValid (udp_Destination u).1) eqn:Ev; cbn [negb].
  - destruct (udp_Compressed u); cbn [negb fst andb]; [|done].
    destruct (Z.eqb_spec (udp_ContextID u) context) as [-> |]; cbn [andb]; [by rewrite lookup_insert_eq|].
    by rewrite lookup_insert_ne.
  - rewrite andb_false_r. destruct (udp_Compressed u); cbn [negb fst]; [|done].
    by destruct (track history !! udp_ContextID u).
Qed.

(** A datagram is attributed to its flow whether or not it carries its
    addresses: a packet with addresses is in the flow they name, and a
    compressed packet without them is in the flow the latest full header of
    its context announced - or in none when there was no such header. *)
Theorem flows_follow_full_headers history u :
  (Flow (track history) u).2 =
    if AddrIsValid (udp_Destination u).1 then (mkFlow (udp_Source u).1 (udp_Destination u).1 (udp_Destination u).2, true)
    else if udp_Compressed u
    then match announced (udp_ContextID u) history with Some flow => (flow, true) | None => (noFlow, false) end
    else (noFlow, false).
Proof.
  unfold Flow, flowOf. destruct (AddrIsValid (udp_Destination u).1); cbn [negb]; [by destruct (udp_Compressed u)|].
  destruct (udp_Compressed u); cbn [negb]; [|done]. rewrite track_lookup. by destruct (announced _ _).
Qed.
