(* ===== verification/Mmtp.v ===== *)
(** * MMTP packets and signaling messages (mmt/mmtp.go)

    A datagram holds one MMTP packet.  Packets of the signaling type hold whole
    messages, several of them aggregated, or a fragment of one message, which
    [MessageAssembler] joins per IP data flow and packet id.  [mmttest]
    (mmt/mmttest/mmttest.go) builds such packets. *)

From S2P Require Import Prelude Crc Packet Section Psi Tables Detect Tlv IpFlow.

(** ** Packets *)

Definition MMTPPayloadTypeMPU : Z := 0x00.
Definition MMTPPayloadTypeSignaling : Z := 0x02.
Definition FragmentComplete : Z := 0.
Definition FragmentFirst : Z := 1.
Definition FragmentMiddle : Z := 2.
Definition FragmentLast : Z := 3.

Record MMTPHeaderExtension := mkExtension {
  ext_Type : Z;
  ext_Data : bytes
}.

Record MMTPPacket := mkMMTPPacket {
  mp_Version : Z;
  mp_FECType : Z;
  mp_RAP : bool;
  mp_PayloadType : Z;
  mp_PacketID : Z;
  mp_Timestamp : Z;
  mp_PacketSequenceNumber : Z;
  mp_HasPacketCounter : bool;
  mp_PacketCounter : Z;
  mp_Extension : option MMTPHeaderExtension;
  mp_Payload : bytes
}.

(** [if p.HasPacketCounter { ... }]: the counter and the offset after it. *)
Definition readCounter (b : bytes) (hasCounter : bool) (off : Z) : go (Z * Z) :=
  if hasCounter then
    if len b <? off + 4 then Err ErrInvalidPacket
    else counter ← read32 b off; Ret (counter, off + 4)
  else Ret (0, off).

(** [if b[0]&0x02 != 0 { ... }] *)
Definition readExtension (b : bytes) (hasExtension : bool) (off : Z) : go (option MMTPHeaderExtension * Z) :=
  if hasExtension then
    if len b <? off + 4 then Err ErrInvalidPacket
    else
      length ← read16 b (off + 2);
      if len b <? off + 4 + length then Err ErrInvalidPacket
      else
        type ← read16 b off;
        data ← slice b (off + 4) (off + 4 + length);
        Ret (Some (mkExtension type data), off + 4 + length)
  else Ret (None, off).

Definition ParseMMTPPacket (b : bytes) : go MMTPPacket :=
  if len b <? 12 then Err ErrInvalidPacket
  else
    b0 ← idx b 0;
    b1 ← idx b 1;
    packetID ← read16 b 2;
    timestamp ← read32 b 4;
    sequenceNumber ← read32 b 8;
    let hasCounter := flag b0 0x20 in
    let off := 12 in
    '(counter, off) ← readCounter b hasCounter off;
    '(extension, off) ← readExtension b (flag b0 0x02) off;
    payload ← sliceFrom b off;
    Ret (mkMMTPPacket (Z.shiftr b0 6) (Z.land (Z.shiftr b0 3) 0x03) (flag b0 0x01) (Z.land b1 0x3f)
           packetID timestamp sequenceNumber hasCounter counter extension payload).

(** ** Signaling payloads *)

Record SignalingPayload := mkSignaling {
  sp_FragmentationIndicator : Z;
  sp_LengthExtension : bool;
  sp_Aggregation : bool;
  sp_FragmentCounter : Z;
  sp_Data : bytes
}.

Definition ParseSignalingPayload (b : bytes) : go SignalingPayload :=
  if len b <? 2 then Err ErrInvalidPacket
  else
    b0 ← idx b 0;
    b1 ← idx b 1;
    data ← sliceFrom b 2;
    Ret (mkSignaling (Z.shiftr b0 6) (flag b0 0x02) (flag b0 0x01) b1 data).

(** A turn of the loop over aggregated messages. *)
Definition aggregateTurn (lengthExtension : bool) (st : bytes * list bytes) :
    go (iteration (bytes * list bytes) (list bytes)) :=
  let '(b, messages) := st in
  if 0 <? len b then
    '(length, b) ←
      (if lengthExtension then
         if len b <? 4 then Err ErrInvalidPacket
         else length ← read32 b 0; b ← sliceFrom b 4; Ret (length, b)
       else
         if len b <? 2 then Err ErrInvalidPacket
         else length ← read16 b 0; b ← sliceFrom b 2; Ret (length, b));
    if len b <? length then Err ErrInvalidPacket
    else
      message ← sliceTo b length;
      b ← sliceFrom b length;
      Ret (Continue (b, messages ++ [message]))
  else Ret (Break messages).

Definition Messages (s : SignalingPayload) : go (list bytes) :=
  if negb (sp_FragmentationIndicator s =? FragmentComplete) then Ret []
  else if negb (sp_Aggregation s) then Ret [sp_Data s]
  else loop (S (length (sp_Data s))) (aggregateTurn (sp_LengthExtension s)) (sp_Data s, []).

(** ** The assembler *)

Definition maxMessageSize : Z := Z.shiftl 1 20.

Record pendingMessage := mkPending {
  pm_data : bytes;
  pm_sequenceNumber : Z
}.

Abbreviation MessageAssembler := (gmap PacketKey pendingMessage).

(** [v, err := c; return v, err], for a caller that looks at both. *)
Definition catch {A} (c : go A) : go (A + error) :=
  orElse c (fun e => Ret (inr e)) (fun a => Ret (inl a)).

(** The messages a packet completes, or the error; both leave the assembler
    in the state that is returned with them. *)
Definition AssemblerFeed (a : MessageAssembler) (flow : IPDataFlow) (p : MMTPPacket) :
    go (MessageAssembler * (list bytes + error)) :=
  if negb (mp_PayloadType p =? MMTPPayloadTypeSignaling) then Ret (a, inl [])
  else
    orElse (ParseSignalingPayload (mp_Payload p))
      (fun err => Ret (a, inr err))
      (fun s =>
         let key := mkKey flow (mp_PacketID p) in
         let pending := a !! key in
         if sp_FragmentationIndicator s =? FragmentComplete then
           let a := delete key a in
           r ← catch (Messages s); Ret (a, r)
         else if sp_FragmentationIndicator s =? FragmentFirst then
           Ret (<[key := mkPending (sp_Data s) (mp_PacketSequenceNumber p)]> a, inl [])
         else
           match pending with
           | None => Ret (delete key a, inl [])
           | Some pending =>
               if negb (mp_PacketSequenceNumber p =? u32 (pm_sequenceNumber pending + 1))
                  || (maxMessageSize <? len (pm_data pending) + len (sp_Data s))
               then Ret (delete key a, inl [])
               else
                 let data := pm_data pending ++ sp_Data s in
                 if sp_FragmentationIndicator s =? FragmentMiddle
                 then Ret (<[key := mkPending data (mp_PacketSequenceNumber p)]> a, inl [])
                 else
                   let joined := mkSignaling FragmentComplete (sp_LengthExtension s) (sp_Aggregation s)
                                   (sp_FragmentCounter s) data in
                   r ← catch (Messages joined);
                   Ret (delete key a, r)
           end).

(** ** Builders (mmt/mmttest/mmttest.go) *)

Record MMTP := mkMMTP {
  b_PayloadType : Z;
  b_PacketID : Z;
  b_Timestamp : Z;
  b_SequenceNumber : Z;
  b_RAP : bool;
  b_PacketCounter : option Z;
  b_ExtensionType : Z;
  b_Extension : option bytes;
  b_Payload : bytes
}.

Definition Bytes (p : MMTP) : bytes :=
  let flags := 0 in
  let flags := match b_PacketCounter p with Some _ => Z.lor flags 0x20 | None => flags end in
  let flags := match b_Extension p with Some _ => Z.lor flags 0x02 | None => flags end in
  let flags := if b_RAP p then Z.lor flags 0x01 else flags in
  let b := [flags; Z.land (b_PayloadType p) 0x3f; u8 (Z.shiftr (b_PacketID p) 8); u8 (b_PacketID p)] in
  let b := b ++ be32 (b_Timestamp p) in
  let b := b ++ be32 (b_SequenceNumber p) in
  let b := match b_PacketCounter p with Some c => b ++ be32 c | None => b end in
  let b := match b_Extension p with
           | Some e => (b ++ [u8 (Z.shiftr (b_ExtensionType p) 8); u8 (b_ExtensionType p);
                              u8 (Z.shiftr (len e) 8); u8 (len e)]) ++ e
           | None => b
           end in
  b ++ b_Payload p.

Definition BuildSignalingPayload (fragmentationIndicator fragmentCounter : Z) (data : bytes) : bytes :=
  [u8 (Z.shiftl fragmentationIndicator 6); fragmentCounter] ++ data.

Definition AggregatedSignalingPayload (messages : list bytes) : bytes :=
  [0x01; 0] ++ concat (map (fun m => [u8 (Z.shiftr (len m) 8); u8 (len m)] ++ m) messages).

(** [MMTP{PayloadType: 0x02, PacketID: ..., SequenceNumber: ..., Payload: ...}] *)
Definition signalingPacket (packetID sequenceNumber : Z) (payload : bytes) : MMTP :=
  mkMMTP 0x02 packetID 0 sequenceNumber false None 0 None payload.

(** The fragments of a message. *)
Definition fragmentTurn (size : Z) (st : bytes * list bytes) : go (iteration (bytes * list bytes) (list bytes)) :=
  let '(b, fragments) := st in
  if 0 <? len b then
    let n := Z.min size (len b) in
    f ← sliceTo b n;
    b ← sliceFrom b n;
    Ret (Continue (b, fragments ++ [f]))
  else Ret (Break fragments).

Definition indicatorAt (i n : Z) : Z := if i =? 0 then 1 else if i =? n - 1 then 3 else 2.

Definition SignalingPackets (packetID sequenceNumber : Z) (message : bytes) (size : Z) : go (list bytes) :=
  if len message <=? size then
    Ret [Bytes (signalingPacket packetID sequenceNumber (BuildSignalingPayload 0 0 message))]
  else
    fragments ← loop (S (length message)) (fragmentTurn size) (message, []);
    let n := len fragments in
    Ret (imap (fun i f =>
           Bytes (signalingPacket packetID (u32 (sequenceNumber + u32 (Z.of_nat i)))
                    (BuildSignalingPayload (indicatorAt (Z.of_nat i) n) (u8 (n - 1 - Z.of_nat i)) f))) fragments).

(** ** One machine per key *)

(** What a packet does to the entry of its own key. *)
Definition feedKey (pending : option pendingMessage) (p : MMTPPacket) :
    go (option pendingMessage * (list bytes + error)) :=
  if negb (mp_PayloadType p =? MMTPPayloadTypeSignaling) then Ret (pending, inl [])
  else
    orElse (ParseSignalingPayload (mp_Payload p))
      (fun err => Ret (pending, inr err))
      (fun s =>
         if sp_FragmentationIndicator s =? FragmentComplete then r ← catch (Messages s); Ret (None, r)
         else if sp_FragmentationIndicator s =? FragmentFirst then
           Ret (Some (mkPending (sp_Data s) (mp_PacketSequenceNumber p)), inl [])
         else
           match pending with
           | None => Ret (None, inl [])
           | Some pending =>
               if negb (mp_PacketSequenceNumber p =? u32 (pm_sequenceNumber pending + 1))
                  || (maxMessageSize <? len (pm_data pending) + len (sp_Data s))
               then Ret (None, inl [])
               else
                 let data := pm_data pending ++ sp_Data s in
                 if sp_FragmentationIndicator s =? FragmentMiddle
                 then Ret (Some (mkPending data (mp_PacketSequenceNumber p)), inl [])
                 else
                   r ← catch (Messages (mkSignaling FragmentComplete (sp_LengthExtension s) (sp_Aggregation s)
                                          (sp_FragmentCounter s) data));
                   Ret (None, r)
           end).

Definition keyOf (flow : IPDataFlow) (p : MMTPPacket) : PacketKey := mkKey flow (mp_PacketID p).

Definition setKey (a : MessageAssembler) (key : PacketKey) (e : option pendingMessage) : MessageAssembler :=
  partial_alter (fun _ => e) key a.

Lemma setKey_same a key : setKey a key (a !! key) = a.
Proof. apply partial_alter_self. Qed.

Lemma AssemblerFeed_eq a flow p :
  AssemblerFeed a flow p =
    ('(e, r) ← feedKey (a !! keyOf flow p) p; Ret (setKey a (keyOf flow p) e, r)).
Proof.
  unfold AssemblerFeed, feedKey. fold (keyOf flow p).
  destruct (negb (mp_PayloadType p =? MMTPPayloadTypeSignaling)); [cbn [mbind go_bind]; by rewrite setKey_same|].
  destruct (ParseSignalingPayload (mp_Payload p)) as [s|e| |]; cbn [orElse mbind go_bind]; [|by rewrite setKey_same|done..].
  destruct (sp_FragmentationIndicator s =? FragmentComplete); [by destruct (catch (Messages s))|].
  destruct (sp_FragmentationIndicator s =? FragmentFirst); [done|].
  destruct (a !! keyOf flow p) as [pending|]; [|done].
  destruct (negb _ || _); [done|]. destruct (_ =? FragmentMiddle); [done|]. by destruct (catch _).
Qed.

(** ** Every input *)

Lemma Messages_ok s : bytes_ok (sp_Data s) -> wp (Messages s) (Forall bytes_ok).
Proof.
  intros Hs. unfold Messages. go_run; [by constructor|auto with bytes|].
  apply (wp_loop (fun '(b, ms) => bytes_ok b /\ Forall bytes_ok ms) (fun '(b, _) => len b)); [|auto with bytes|lia|lia].
  intros [b ms] [Hb Hms]. unfold aggregateTurn. apply wp_if; intros ?; bools; [|done]. apply wp_bind.
  apply (wp_mono _ (fun '(n, b') => 0 <= n /\ bytes_ok b' /\ len b' < len b)).
  { go_run; conjs; try lia; auto with bytes; blia. }
  intros [n b'] (Hn & Hb' & Hl). go_run. conjs; auto with bytes; try blia.
  apply Forall_app_2; [done|]. constructor; auto with bytes.
Qed.

Lemma catch_returns {A} (c : go A) Q : wp c Q -> returns (catch c) (fun r => forall a, r = inl a -> Q a).
Proof. destruct c as [a|e| |]; intros Hc; [exists (inl a)|exists (inr e)|done..]; (split; [done|]); by intros ? [= <-]. Qed.

(** A packet whose payload has at most [limit] bytes. *)
Definition mmtp_within (limit : Z) (p : MMTPPacket) : Prop := bytes_ok (mp_Payload p) /\ len (mp_Payload p) <= limit.
Definition mmtp_ok (p : MMTPPacket) : Prop := mmtp_within maxMessageSize p.

Lemma ParseMMTPPacket_ok b : bytes_ok b -> wp (ParseMMTPPacket b) (fun p =>
  bytes_ok (mp_Payload p) /\ len (mp_Payload p) <= len b).
Proof.
  intros Hb. unfold ParseMMTPPacket, readCounter, readExtension. go_run; cbn [mp_Payload]; (split; [auto with bytes|blia]).
Qed.

Lemma ParseSignalingPayload_ok b : bytes_ok b -> wp (ParseSignalingPayload b) (fun s =>
  bytes_ok (sp_Data s) /\ len (sp_Data s) = len b - 2 /\ 0 <= sp_FragmentationIndicator s < 4).
Proof.
  intros Hb. unfold ParseSignalingPayload. go_run. cbn [sp_Data sp_FragmentationIndicator].
  conjs; [auto with bytes|blia|pose proof (shiftr_range b0 6 4); lia..].
Qed.

Definition pending_within (limit : Z) (e : option pendingMessage) : Prop :=
  forall pm, e = Some pm -> bytes_ok (pm_data pm) /\ len (pm_data pm) <= limit.

Lemma feedKey_ok limit e p : maxMessageSize <= limit -> pending_within limit e -> mmtp_within limit p ->
  returns (feedKey e p) (fun '(e', r) => pending_within limit e' /\ forall ms, r = inl ms -> Forall bytes_ok ms).
Proof.
  intros Hlim He [Hp Hlen]. unfold feedKey.
  assert (forall ms : list bytes, inl [] = @inl _ error ms -> Forall bytes_ok ms) as Hnil by (by intros ? [= <-]).
  assert (pending_within limit None) as Hnone by (by intros ?).
  destruct (negb _); [by eexists|].
  pose proof (ParseSignalingPayload_ok _ Hp) as Hs. destruct (ParseSignalingPayload (mp_Payload p)) as [s|err| |]; try done; cbn [orElse].
  2:{ by eexists. }
  destruct Hs as (Hs & Hsl & _).
  destruct (_ =? FragmentComplete).
  { destruct (catch_returns _ _ (Messages_ok s Hs)) as (r & -> & Hr). by eexists. }
  destruct (_ =? FragmentFirst).
  { eexists. split; [done|]. split; [|done]. intros ? [= <-]. cbn [pm_data]. split; [done|lia]. }
  destruct e as [pm|]; [|by eexists]. destruct (He pm eq_refl) as [Hd Hl].
  destruct (negb _ || _) eqn:Ec; [by eexists|]. apply orb_false_iff in Ec as [_ Hmax]. bools.
  destruct (_ =? FragmentMiddle).
  { eexists. split; [done|]. split; [|done]. intros ? [= <-]. cbn [pm_data]. rewrite length_app. split; [auto with bytes|lia]. }
  destruct (catch_returns _ _ (Messages_ok (mkSignaling FragmentComplete (sp_LengthExtension s) (sp_Aggregation s)
    (sp_FragmentCounter s) (pm_data pm ++ sp_Data s)) (bytes_ok_app _ _ Hd Hs))) as (r & -> & Hr). by eexists.
Qed.

(** ** Traces *)

Fixpoint feedAll (a : MessageAssembler) (trace : list (IPDataFlow * MMTPPacket)) :
    go (MessageAssembler * list (PacketKey * (list bytes + error))) :=
  match trace with
  | [] => Ret (a, [])
  | (flow, p) :: trace =>
      '(a, r) ← AssemblerFeed a flow p;
      '(a, rs) ← feedAll a trace;
      Ret (a, (keyOf flow p, r) :: rs)
  end.

Fixpoint feedKeyAll (e : option pendingMessage) (ps : list MMTPPacket) :
    go (option pendingMessage * list (list bytes + error)) :=
  match ps with
  | [] => Ret (e, [])
  | p :: ps =>
      '(e, r) ← feedKey e p;
      '(e, rs) ← feedKeyAll e ps;
      Ret (e, r :: rs)
  end.

Definition packetsOf (key : PacketKey) (trace : list (IPDataFlow * MMTPPacket)) : list MMTPPacket :=
  map snd (filter (fun x => keyOf x.1 x.2 = key) trace).
Definition resultsOf (key : PacketKey) (rs : list (PacketKey * (list bytes + error))) : list (list bytes + error) :=
  map snd (filter (fun x => x.1 = key) rs).

Definition assembler_within (limit : Z) (a : MessageAssembler) : Prop := forall key, pending_within limit (a !! key).
Definition assembler_ok (a : MessageAssembler) : Prop := assembler_within maxMessageSize a.

Lemma setKey_ok limit a key e : assembler_within limit a -> pending_within limit e -> assembler_within limit (setKey a key e).
Proof. intros Ha He k. unfold setKey. rewrite lookup_partial_alter. by case_decide. Qed.

Lemma feedAll_ok limit trace : maxMessageSize <= limit -> Forall (fun x => mmtp_within limit x.2) trace -> forall a, assembler_within limit a ->
  returns (feedAll a trace) (fun '(a', rs) => assembler_within limit a' /\
    forall key, feedKeyAll (a !! key) (packetsOf key trace) = Ret (a' !! key, resultsOf key rs)).
Proof.
  intros Hlim. induction 1 as [|[flow p] trace Hp _ IH]; intros a Ha; cbn [feedAll]; [by eexists|].
  rewrite AssemblerFeed_eq. destruct (feedKey_ok limit (a !! keyOf flow p) p Hlim (Ha _) Hp) as ([e r] & Ef & He & _).
  rewrite Ef. cbn [mbind go_bind].
  destruct (IH (setKey a (keyOf flow p) e) (setKey_ok _ _ _ _ Ha He)) as ([a' rs] & -> & Ha' & Hrs). cbn [mbind go_bind].
  eexists. split; [done|]. split; [done|]. intros key. specialize (Hrs key). unfold packetsOf, resultsOf, setKey in *.
  rewrite !filter_cons. cbn [fst snd]. rewrite lookup_partial_alter in Hrs. case_decide as Hk.
  - subst key. cbn [map snd feedKeyAll]. rewrite Ef. cbn [mbind go_bind]. by rewrite Hrs.
  - done.
Qed.

(** ** Packets round trip *)

Lemma read32_at l i : 0 <= i -> i + 3 < len l ->
  read32 l i = Ret (Z.lor (Z.shiftl (be (byteAt l i) (byteAt l (i + 1))) 16) (be (byteAt l (i + 2)) (byteAt l (i + 3)))).
Proof.
  intros. unfold read32. rewrite !read16_at by lia. cbn [mbind go_bind]. by replace (i + 2 + 1) with (i + 3) by lia.
Qed.

Lemma field32 v : 0 <= v < 2 ^ 32 ->
  Z.lor (Z.shiftl (be (u8 (Z.shiftr v 24)) (u8 (Z.shiftr v 16))) 16) (be (u8 (Z.shiftr v 8)) (u8 v)) = v.
Proof.
  intros Hv. pose proof (be_range _ _ (byte_ok_u8 (Z.shiftr v 8)) (byte_ok_u8 v)).
  rewrite lor_disjoint by (done || lia). rewrite !be_add by apply u8_range. unfold u8.
  rewrite !Z.shiftr_div_pow2 by done. dmlia.
Qed.

Definition mmtp_build_ok (p : MMTP) : Prop :=
  0 <= b_PacketID p < 65536 /\ 0 <= b_Timestamp p < 2 ^ 32 /\ 0 <= b_SequenceNumber p < 2 ^ 32
  /\ (forall c, b_PacketCounter p = Some c -> 0 <= c < 2 ^ 32)
  /\ 0 <= b_ExtensionType p < 65536 /\ (forall e, b_Extension p = Some e -> len e < 65536).

(** The packet that was built. *)
Definition builtPacket (p : MMTP) : MMTPPacket :=
  mkMMTPPacket 0 0 (b_RAP p) (Z.land (b_PayloadType p) 0x3f) (b_PacketID p) (b_Timestamp p) (b_SequenceNumber p)
    (bool_decide (is_Some (b_PacketCounter p))) (default 0 (b_PacketCounter p))
    (mkExtension (b_ExtensionType p) <$> b_Extension p) (b_Payload p).

(** The fixed header, whatever follows it. *)
Lemma land_3f_twice x : Z.land (Z.land x 0x3f) 0x3f = Z.land x 0x3f.
Proof. by rewrite <- Z.land_assoc. Qed.

Lemma read32_mid pre v post : 0 <= v < 2 ^ 32 -> read32 (pre ++ be32 v ++ post) (len pre) = Ret v.
Proof.
  intros Hv. rewrite read32_at by (rewrite ?length_app; cbn [length be32]; lia).
  rewrite <- (Z.add_0_r (len pre)) at 1. rewrite !byteAt_mid by (cbn [length be32]; lia).
  change (Ret (Z.lor (Z.shiftl (be (u8 (Z.shiftr v 24)) (u8 (Z.shiftr v 16))) 16) (be (u8 (Z.shiftr v 8)) (u8 v))) = Ret v).
  by rewrite field32.
Qed.

Lemma read16_pair pre hi lo post i : i = len pre -> read16 (pre ++ [hi; lo] ++ post) i = Ret (be hi lo).
Proof.
  intros ->. rewrite read16_at by (rewrite ?length_app; cbn [length]; lia).
  rewrite <- (Z.add_0_r (len pre)) at 1. by rewrite !byteAt_mid by (cbn [length]; lia).
Qed.

(** The parts of [Bytes] that may be missing. *)
Definition counterBytes (counter : option Z) : bytes := match counter with Some c => be32 c | None => [] end.
Definition extensionBytes (type : Z) (extension : option bytes) : bytes :=
  match extension with
  | Some e => [u8 (Z.shiftr type 8); u8 type] ++ [u8 (Z.shiftr (len e) 8); u8 (len e)] ++ e
  | None => []
  end.

Lemma readCounter_built pre counter post : (forall c, counter = Some c -> 0 <= c < 2 ^ 32) ->
  readCounter (pre ++ counterBytes counter ++ post) (bool_decide (is_Some counter)) (len pre)
  = Ret (default 0 counter, len pre + len (counterBytes counter)).
Proof.
  intros Hc. unfold readCounter. destruct counter as [c|]; cbn [counterBytes].
  - rewrite (bool_decide_eq_true_2 (is_Some (Some c))) by done.
    rewrite (proj2 (Z.ltb_ge _ _)) by (rewrite !length_app; cbn [length be32]; lia).
    rewrite read32_mid by (by apply Hc). done.
  - rewrite (bool_decide_eq_false_2 (is_Some None)) by (by intros []). by rewrite Z.add_0_r.
Qed.

Lemma readExtension_built pre type extension post : 0 <= type < 65536 -> (forall e, extension = Some e -> len e < 65536) ->
  readExtension (pre ++ extensionBytes type extension ++ post) (bool_decide (is_Some extension)) (len pre)
  = Ret (mkExtension type <$> extension, len pre + len (extensionBytes type extension)).
Proof.
  intros Ht He. unfold readExtension. destruct extension as [e|]; cbn [extensionBytes].
  - rewrite (bool_decide_eq_true_2 (is_Some (Some e))) by done. specialize (He e eq_refl).
    set (body := pre ++ _ ++ post).
    assert (len body = len pre + 4 + len e + len post) as Lb by (subst body; rewrite !length_app; cbn [length]; lia).
    rewrite (proj2 (Z.ltb_ge _ _)) by lia.
    assert (read16 body (len pre + 2) = Ret (len e)) as ->.
    { subst body. rewrite <- !app_assoc, (app_assoc pre). rewrite read16_pair by (rewrite length_app; cbn [length]; lia).
      f_equal. apply field16. lia. }
    cbn [mbind go_bind]. rewrite (proj2 (Z.ltb_ge _ _)) by lia.
    assert (read16 body (len pre) = Ret type) as ->.
    { subst body. rewrite <- !app_assoc. rewrite read16_pair by done. f_equal. by apply field16. }
    cbn [mbind go_bind].
    assert (slice body (len pre + 4) (len pre + 4 + len e) = Ret e) as ->.
    { subst body. rewrite <- !app_assoc, (app_assoc pre), (app_assoc (pre ++ _)). apply slice_mid; rewrite !length_app; cbn [length]; lia. }
    cbn [mbind go_bind]. do 2 f_equal. rewrite !length_app. cbn [length]. lia.
  - rewrite (bool_decide_eq_false_2 (is_Some None)) by (by intros []). by rewrite Z.add_0_r.
Qed.

(** What the builder writes before the optional parts. *)
Definition builtFlags (p : MMTP) : Z :=
  let flags := match b_PacketCounter p with Some _ => Z.lor 0 0x20 | None => 0 end in
  let flags := match b_Extension p with Some _ => Z.lor flags 0x02 | None => flags end in
  if b_RAP p then Z.lor flags 0x01 else flags.
Definition builtHeader (p : MMTP) : bytes :=
  [builtFlags p; Z.land (b_PayloadType p) 0x3f; u8 (Z.shiftr (b_PacketID p) 8); u8 (b_PacketID p)].

Lemma Bytes_layout p : Bytes p = (builtHeader p ++ be32 (b_Timestamp p) ++ be32 (b_SequenceNumber p))
  ++ counterBytes (b_PacketCounter p) ++ extensionBytes (b_ExtensionType p) (b_Extension p) ++ b_Payload p.
Proof. unfold Bytes. destruct (b_PacketCounter p) eqn:E1, (b_Extension p) eqn:E2; cbn [counterBytes extensionBytes];
  unfold builtHeader, builtFlags; rewrite E1, E2; by rewrite <- ?app_assoc. Qed.

Lemma builtFlags_read p : flag (builtFlags p) 0x20 = bool_decide (is_Some (b_PacketCounter p))
  /\ flag (builtFlags p) 0x02 = bool_decide (is_Some (b_Extension p))
  /\ flag (builtFlags p) 0x01 = b_RAP p /\ Z.shiftr (builtFlags p) 6 = 0 /\ Z.land (Z.shiftr (builtFlags p) 3) 0x03 = 0.
Proof. unfold builtFlags. by destruct (b_RAP p), (b_PacketCounter p), (b_Extension p). Qed.

Lemma ParseMMTPPacket_Bytes p : mmtp_build_ok p -> ParseMMTPPacket (Bytes p) = Ret (builtPacket p).
Proof.
  intros (Hid & Hts & Hsn & Hctr & Het & Hext). rewrite Bytes_layout.
  set (h := builtHeader p). set (t4 := be32 (b_Timestamp p)). set (s4 := be32 (b_SequenceNumber p)).
  set (ctr := counterBytes (b_PacketCounter p)). set (ext := extensionBytes _ _).
  set (b := (h ++ t4 ++ s4) ++ ctr ++ ext ++ b_Payload p).
  destruct (builtFlags_read p) as (F1 & F2 & F3 & F4 & F5).
  assert (len (h ++ t4 ++ s4) = 12) as L12 by done.
  assert (len b = 12 + len ctr + len ext + len (b_Payload p)) as Lb by (subst b; rewrite !length_app in *; lia).
  unfold ParseMMTPPacket. rewrite (proj2 (Z.ltb_ge _ _)) by lia.
  rewrite (idx_lookup b 0 (builtFlags p)), (idx_lookup b 1 (Z.land (b_PayloadType p) 0x3f)) by done. cbn [mbind go_bind].
  assert (read16 b 2 = Ret (b_PacketID p)) as ->.
  { unfold read16. rewrite (idx_lookup b 2 (u8 (Z.shiftr (b_PacketID p) 8))), (idx_lookup b (2 + 1) (u8 (b_PacketID p))) by done.
    cbn [mbind go_bind]. f_equal. by apply field16. }
  cbn [mbind go_bind].
  assert (read32 b 4 = Ret (b_Timestamp p)) as ->.
  { subst b. rewrite <- !app_assoc. change 4 with (len h). by apply read32_mid. }
  cbn [mbind go_bind].
  assert (read32 b 8 = Ret (b_SequenceNumber p)) as ->.
  { subst b. rewrite <- !app_assoc, (app_assoc h). change 8 with (len (h ++ t4)). by apply read32_mid. }
  cbn [mbind go_bind]. rewrite F1, F2, F3, F4, F5, land_3f_twice.
  assert (readCounter b (bool_decide (is_Some (b_PacketCounter p))) 12 = Ret (default 0 (b_PacketCounter p), 12 + len ctr)) as ->.
  { rewrite <- L12. by apply readCounter_built. }
  cbn [mbind go_bind]. assert (12 + len ctr = len ((h ++ t4 ++ s4) ++ ctr)) as -> by (rewrite length_app; lia).
  assert (b = ((h ++ t4 ++ s4) ++ ctr) ++ ext ++ b_Payload p) as -> by (subst b; by rewrite <- !app_assoc).
  assert (readExtension (((h ++ t4 ++ s4) ++ ctr) ++ ext ++ b_Payload p) (bool_decide (is_Some (b_Extension p)))
    (len ((h ++ t4 ++ s4) ++ ctr)) = Ret (mkExtension (b_ExtensionType p) <$> b_Extension p,
    len ((h ++ t4 ++ s4) ++ ctr) + len ext)) as -> by (by apply readExtension_built).
  cbn [mbind go_bind]. rewrite <- Nat2Z.inj_add, <- length_app, (app_assoc (_ ++ ctr)).
  rewrite slice_from by (rewrite !length_app; lia). cbn [mbind go_bind]. by rewrite Nat2Z.id, drop_app_length.
Qed.

(** ** Fragments rejoin *)

Lemma ParseSignalingPayload_built indicator counter data : 0 <= indicator < 4 ->
  ParseSignalingPayload (BuildSignalingPayload indicator counter data) = Ret (mkSignaling indicator false false counter data).
Proof.
  intros Hi. unfold ParseSignalingPayload, BuildSignalingPayload. cbn [app].
  rewrite (proj2 (Z.ltb_ge _ _)) by (cbn [length]; lia).
  rewrite (idx_lookup _ 0 (u8 (Z.shiftl indicator 6))), (idx_lookup _ 1 counter) by done. cbn [mbind go_bind].
  rewrite (sliceFrom_const _ 2 data) by (cbn [length]; lia || done). cbn [mbind go_bind].
  assert (indicator = 0 \/ indicator = 1 \/ indicator = 2 \/ indicator = 3) as [-> |[-> |[-> | ->]]] by lia; done.
Qed.

(** The packet of a fragment. *)
Definition fragmentPacket (packetID sequenceNumber : Z) (n i : Z) (f : bytes) : MMTPPacket :=
  builtPacket (signalingPacket packetID (u32 (sequenceNumber + u32 i)) (BuildSignalingPayload (indicatorAt i n) (u8 (n - 1 - i)) f)).

Lemma next_sequence seq i : u32 (u32 (seq + u32 i) + 1) = u32 (seq + u32 (i + 1)).
Proof.
  unfold u32. rewrite Zplus_mod_idemp_l, !Zplus_mod_idemp_r, <- Z.add_assoc, (Z.add_comm (i mod _)), Z.add_assoc.
  rewrite Zplus_mod_idemp_r. f_equal. lia.
Qed.

Lemma feedKey_first e packetID seq n f : 1 < n ->
  feedKey e (fragmentPacket packetID seq n 0 f) = Ret (Some (mkPending f (u32 (seq + u32 0))), inl []).
Proof.
  intros Hn. unfold feedKey, fragmentPacket. cbn [builtPacket signalingPacket mp_PayloadType mp_Payload b_PayloadType b_Payload].
  rewrite ParseSignalingPayload_built by (unfold indicatorAt; repeat case_match; lia). done.
Qed.

Lemma feedKey_continue d packetID seq n i f : 0 <= i -> i + 1 < n -> len d + len f <= maxMessageSize ->
  feedKey (Some (mkPending d (u32 (seq + u32 i)))) (fragmentPacket packetID seq n (i + 1) f)
  = Ret (if i + 1 =? n - 1 then (None, inl [d ++ f])
         else (Some (mkPending (d ++ f) (u32 (seq + u32 (i + 1)))), inl [])).
Proof.
  intros Hi Hn Hl. unfold feedKey, fragmentPacket.
  cbn [builtPacket signalingPacket mp_PayloadType mp_Payload b_PayloadType b_Payload mp_PacketSequenceNumber b_SequenceNumber].
  rewrite ParseSignalingPayload_built by (unfold indicatorAt; repeat case_match; lia).
  cbn [orElse sp_FragmentationIndicator sp_Data pm_sequenceNumber pm_data sp_Aggregation sp_LengthExtension sp_FragmentCounter].
  rewrite next_sequence, !Z.eqb_refl. rewrite (proj2 (Z.ltb_ge _ _)) by lia.
  unfold indicatorAt. rewrite (proj2 (Z.eqb_neq (i + 1) 0)) by lia. by destruct (i + 1 =? n - 1).
Qed.

Lemma feedKeyAll_rest packetID seq n fs : forall d i, 0 <= i -> fs <> [] -> i + 1 + len fs = n ->
  len d + len (concat fs) <= maxMessageSize ->
  feedKeyAll (Some (mkPending d (u32 (seq + u32 i))))
    (imap (fun k f => fragmentPacket packetID seq n (i + 1 + Z.of_nat k) f) fs)
  = Ret (None, replicate (length fs - 1) (inl []) ++ [inl [d ++ concat fs]]).
Proof.
  induction fs as [|f fs IH]; intros d i Hi Hne Hn Hl; [done|]. cbn [imap feedKeyAll]. cbn [concat] in Hl. rewrite length_app in Hl.
  rewrite Z.add_0_r, feedKey_continue by (cbn [length] in Hn; lia). cbn [mbind go_bind].
  destruct fs as [|g fs].
  - rewrite (proj2 (Z.eqb_eq _ _)) by (cbn [length] in Hn; lia). cbn. by rewrite app_nil_r.
  - rewrite (proj2 (Z.eqb_neq _ _)) by (cbn [length] in Hn; lia). cbn [mbind go_bind].
    assert (imap ((fun k f => fragmentPacket packetID seq n (i + 1 + Z.of_nat k) f) ∘ S) (g :: fs)
      = imap (fun k f => fragmentPacket packetID seq n (i + 1 + 1 + Z.of_nat k) f) (g :: fs)) as ->.
    { apply imap_ext. intros k x _. cbn [compose]. f_equal. lia. }
    rewrite (IH (d ++ f) (i + 1)) by (done || (cbn [length] in *; rewrite ?length_app; lia)). cbn [mbind go_bind].
    cbn [length concat]. rewrite <- (app_assoc d f). replace (S (S (length fs)) - 1)%nat with (S (S (length fs) - 1))%nat by lia. done.
Qed.

Lemma fragments_of message size : 0 < size < len message ->
  returns (loop (S (length message)) (fragmentTurn size) (message, [])) (fun fs =>
    concat fs = message /\ (2 <= length fs)%nat /\ Forall (fun f => len f <= size) fs).
Proof.
  intros Hs. apply returns_wp. { apply errorless_loop. intros [b fs]. unfold fragmentTurn. errorless. }
  apply (wp_loop (fun '(b, fs) => concat fs ++ b = message /\ Forall (fun f => len f <= size) fs
      /\ (b <> [] -> Z.of_nat (length fs) * size + len b = len message) /\ (b = [] -> len message <= Z.of_nat (length fs) * size))
    (fun '(b, _) => len b)); [|conjs; try done; try lia; intros ->; simpl in Hs; lia|lia|lia].
  intros [b fs] (Hc & Hf & Hb & Hb'). unfold fragmentTurn. apply wp_if; intros Hl; bools.
  - assert (b <> []) as Hne by (intros ->; simpl in Hl; lia). specialize (Hb Hne).
    go_run. rewrite concat_app, !Z.sub_0_r. cbn [concat Z.to_nat drop]. rewrite app_nil_r.
    set (n := Z.min size (len b)). rewrite (take_ge (drop (Z.to_nat n) b)) by (rewrite length_drop; lia).
    conjs.
    + by rewrite <- app_assoc, take_drop.
    + apply Forall_app_2; [done|]. constructor; [|done]. rewrite length_take. lia.
    + intros Hd. rewrite length_app, length_drop. cbn [length].
      assert (len b <= size -> drop (Z.to_nat n) b = []) by (intros; apply drop_ge; lia).
      destruct (Z.leb_spec (len b) size); [tauto|]. lia.
    + intros Hd. rewrite length_app. cbn [length]. apply (f_equal length) in Hd. rewrite length_drop in Hd. simpl in Hd. lia.
    + lia.
    + rewrite length_drop. lia.
  - assert (b = []) as -> by (destruct b; [done|simpl in Hl; lia]). rewrite app_nil_r in Hc. cbn [wp].
    conjs; [done| |done]. specialize (Hb' eq_refl). nia.
Qed.

Lemma signalingPacket_ok packetID sequenceNumber payload : 0 <= packetID < 65536 -> 0 <= sequenceNumber < 2 ^ 32 ->
  mmtp_build_ok (signalingPacket packetID sequenceNumber payload).
Proof. intros. unfold mmtp_build_ok, signalingPacket. cbn. conjs; try done; lia. Qed.

Lemma signalingPacket_bytes packetID sequenceNumber indicator counter data :
  (byte_ok counter -> bytes_ok data -> bytes_ok (Bytes (signalingPacket packetID sequenceNumber (BuildSignalingPayload indicator counter data))))
  /\ len (Bytes (signalingPacket packetID sequenceNumber (BuildSignalingPayload indicator counter data))) = len data + 14.
Proof.
  rewrite Bytes_layout. unfold signalingPacket, BuildSignalingPayload, builtHeader, be32.
  cbn [b_Timestamp b_SequenceNumber b_PacketCounter b_Extension b_ExtensionType b_Payload b_PayloadType b_PacketID counterBytes extensionBytes app].
  split; [|cbn [length]; lia]. intros Hc Hd.
  repeat (apply Forall_cons; split); try apply byte_ok_u8; by vm_compute.
Qed.

Lemma elem_concat_length {A} (f : list A) fs : f ∈ fs -> (length f <= length (concat fs))%nat.
Proof. induction 1; cbn [concat]; rewrite length_app; lia. Qed.

(** What a packet of a message is. *)
Definition packet_of (packetID : Z) (message b : bytes) (p : MMTPPacket) : Prop :=
  ParseMMTPPacket b = Ret p /\ mp_PacketID p = packetID /\ mp_PayloadType p = MMTPPayloadTypeSignaling
  /\ (bytes_ok message -> bytes_ok b) /\ len b <= len message + 14.

Lemma packet_of_built packetID seq indicator counter data message : 0 <= packetID < 65536 -> 0 <= seq < 2 ^ 32 ->
  byte_ok counter -> (bytes_ok message -> bytes_ok data) -> len data <= len message ->
  packet_of packetID message (Bytes (signalingPacket packetID seq (BuildSignalingPayload indicator counter data)))
    (builtPacket (signalingPacket packetID seq (BuildSignalingPayload indicator counter data))).
Proof.
  intros Hid Hseq Hc Hb Hl. destruct (signalingPacket_bytes packetID seq indicator counter data) as [H1 H2].
  unfold packet_of. conjs; [by apply ParseMMTPPacket_Bytes, signalingPacket_ok|done|done|auto|lia].
Qed.

(** The packets of a message, and what they make of any entry of their key. *)
Lemma SignalingPackets_feed packetID seq message size : 0 <= packetID < 65536 -> 0 <= seq < 2 ^ 32 -> 0 < size ->
  len message <= maxMessageSize ->
  exists raw packets, SignalingPackets packetID seq message size = Ret raw
    /\ Forall2 (packet_of packetID message) raw packets
    /\ forall e, feedKeyAll e packets = Ret (None, replicate (length packets - 1) (inl []) ++ [inl [message]]).
Proof.
  intros Hid Hseq Hsize Hmax. unfold SignalingPackets. destruct (Z.leb_spec (len message) size).
  - eexists _, [builtPacket (signalingPacket packetID seq (BuildSignalingPayload 0 0 message))]. conjs; [done| |].
    + constructor; [|constructor]. by apply packet_of_built.
    + intros e. cbn [feedKeyAll]. unfold feedKey. cbn [builtPacket signalingPacket mp_PayloadType mp_Payload b_PayloadType b_Payload].
      by rewrite ParseSignalingPayload_built.
  - destruct (fragments_of message size ltac:(lia)) as (fs & -> & Hc & Hn & _). cbn [mbind go_bind].
    exists (imap (fun i f => Bytes (signalingPacket packetID (u32 (seq + u32 (Z.of_nat i)))
      (BuildSignalingPayload (indicatorAt (Z.of_nat i) (len fs)) (u8 (len fs - 1 - Z.of_nat i)) f))) fs),
      (imap (fun i f => fragmentPacket packetID seq (len fs) (Z.of_nat i) f) fs). conjs; [done| |].
    + apply Forall2_same_length_lookup_2; [by rewrite !length_imap|].
      intros i b p. rewrite !list_lookup_imap. destruct (fs !! i) as [f|] eqn:Ef; [|done]. intros [= <-] [= <-].
      apply list_elem_of_lookup_2 in Ef.
      apply packet_of_built; [done|apply u32_range|apply byte_ok_u8| |].
      * intros Hm. rewrite <- Hc in Hm. apply Forall_concat in Hm. by eapply Forall_forall in Hm; [|exact Ef].
      * rewrite <- Hc. pose proof (elem_concat_length f fs Ef). lia.
    + intros e. destruct fs as [|f fs]; [simpl in Hn; lia|]. cbn [imap feedKeyAll].
      rewrite feedKey_first by lia. cbn [mbind go_bind].
      assert (imap ((fun i f0 => fragmentPacket packetID seq (len (f :: fs)) (Z.of_nat i) f0) ∘ S) fs
        = imap (fun k f0 => fragmentPacket packetID seq (len (f :: fs)) (0 + 1 + Z.of_nat k) f0) fs) as ->.
      { apply imap_ext. intros k x _. cbn [compose]. f_equal. lia. }
      rewrite feedKeyAll_rest; [|lia|by destruct fs; simpl in Hn; [lia|]|cbn [length]; lia|].
      2:{ rewrite <- Nat2Z.inj_add, <- length_app. change (f ++ concat fs) with (concat (f :: fs)). by rewrite Hc. }
      cbn [mbind go_bind length]. rewrite length_imap. change (f ++ concat fs) with (concat (f :: fs)). rewrite Hc.
      replace (S (length fs) - 1)%nat with (S (length fs - 1)) by (simpl in Hn; lia). done.
Qed.

(** A message divided into fragments of any size comes out of the
    assembler whole, exactly once and in its place, whatever the sequence
    number it starts at (wrapping around included), whatever was pending, and
    however the packets of other flows and packet ids are interleaved. *)
Theorem fragmented_message_rejoins flow packetID seq message size : 0 <= packetID < 65536 -> 0 <= seq < 2 ^ 32 ->
  0 < size -> len message <= maxMessageSize ->
  exists raw packets, SignalingPackets packetID seq message size = Ret raw
    /\ Forall2 (fun b p => ParseMMTPPacket b = Ret p) raw packets
    /\ forall a trace, assembler_ok a -> Forall (fun x => mmtp_ok x.2) trace ->
         packetsOf (mkKey flow packetID) trace = packets ->
         returns (feedAll a trace) (fun '(a', rs) => a' !! mkKey flow packetID = None
           /\ resultsOf (mkKey flow packetID) rs = replicate (length packets - 1) (inl []) ++ [inl [message]]).
Proof.
  intros Hid Hseq Hsize Hmax.
  destruct (SignalingPackets_feed packetID seq message size) as (raw & packets & E & Hp & Hf); [done..|].
  exists raw, packets. conjs; [done|by eapply Forall2_impl; [exact Hp|intros ?? [? _]]|]. intros a trace Ha Ht Hpk.
  destruct (feedAll_ok maxMessageSize trace (Z.le_refl _) Ht a Ha) as ([a' rs] & -> & _ & Hk). exists (a', rs). split; [done|].
  specialize (Hk (mkKey flow packetID)). rewrite Hpk, Hf in Hk. by injection Hk as <- <-.
Qed.

(** An entry beyond [maxMessageSize] is a first fragment as it came, or was there
    before. *)
Definition joinedWithin (before : option pendingMessage) (ps : list MMTPPacket) (pm : pendingMessage) : Prop :=
  len (pm_data pm) <= maxMessageSize \/ before = Some pm
  \/ exists p s, p ∈ ps /\ ParseSignalingPayload (mp_Payload p) = Ret s /\ sp_FragmentationIndicator s = FragmentFirst /\ pm = mkPending (sp_Data s) (mp_PacketSequenceNumber p).

Lemma feedKey_joined e p e' r pm : feedKey e p = Ret (e', r) -> e' = Some pm -> joinedWithin e [p] pm.
Proof.
  unfold feedKey, joinedWithin. destruct (negb _); [intros [= <- <-] ->; by right; left|]. destruct (ParseSignalingPayload (mp_Payload p)) as [s|err| |] eqn:Es; cbn [orElse]; [|intros [= <- <-] ->; by right; left|done..].
  destruct (_ =? FragmentComplete); [destruct (catch (Messages s)); cbn; [by intros [= <- <-]|done..]|]. destruct (Z.eqb_spec (sp_FragmentationIndicator s) FragmentFirst) as [Ef|].
  { intros [= <- <-] [= <-]. right; right. exists p, s. split; [left|]. done. }
  destruct e as [pm0|]; [|by intros [= <- <-]]. destruct (negb _ || _) eqn:Ec; [by intros [= <- <-]|]. apply orb_false_iff in Ec as [_ Hmax]. bools.
  destruct (_ =? FragmentMiddle); [intros [= <- <-] [= <-]; left; cbn [pm_data]; rewrite length_app; lia|]. destruct (catch (Messages _)); cbn; [by intros [= <- <-]|done..].
Qed.

Lemma feedKeyAll_joined ps : forall e e' rs pm, feedKeyAll e ps = Ret (e', rs) -> e' = Some pm -> joinedWithin e ps pm.
Proof.
  induction ps as [|p ps IH]; intros e e' rs pm; cbn [feedKeyAll]; [intros [= <- <-] ->; by right; left|]. destruct (feedKey e p) as [[e1 r]|err| |] eqn:E1; cbn [mbind go_bind]; try done. destruct (feedKeyAll e1 ps) as [[e2 rs']|err| |] eqn:E2; cbn [mbind go_bind]; try done.
  intros [= <- <-] ->. destruct (IH _ _ _ _ E2 eq_refl) as [H|[->|(q & s & Hq & H)]]; [by left| |right; right; exists q, s; split; [by right|done]].
  destruct (feedKey_joined _ _ _ _ _ E1 eq_refl) as [H|[->|(q & s & Hq%list_elem_of_singleton & H)]]; [by left|by right; left|right; right; exists q, s; split; [subst q; left|done]].
Qed.

(** C31: Whatever is fed to it, the assembler returns for every packet, with its
    messages or an error, and joins nothing beyond [maxMessageSize]: a larger
    entry is a first fragment, which it takes as it comes.  So what it keeps per
    flow and packet id is bounded by any [limit] of at least that size within
    which the payloads are, and those of a datagram have less than 65536 bytes.
    And a packet touches no entry but its own: the results and the state of each
    key are those of a machine that sees only the packets of that key. *)
Theorem assembler_is_bounded_and_isolated limit a trace : maxMessageSize <= limit -> assembler_within limit a -> Forall (fun x => mmtp_within limit x.2) trace ->
  returns (feedAll a trace) (fun '(a', rs) =>
    (forall key pm, a' !! key = Some pm -> len (pm_data pm) <= limit /\ joinedWithin (a !! key) (packetsOf key trace) pm)
    /\ forall key, feedKeyAll (a !! key) (packetsOf key trace) = Ret (a' !! key, resultsOf key rs)).
Proof.
  intros Hlim Ha Ht. destruct (feedAll_ok limit trace Hlim Ht a Ha) as ([a' rs] & -> & Ha' & Hk). exists (a', rs). split; [done|].
  split; [|done]. intros key pm Hpm. split; [by apply (Ha' key pm)|]. exact (feedKeyAll_joined _ _ _ _ _ (Hk key) Hpm).
Qed.

(** ** Nothing is joined across a gap *)

(** The fragments a pending message was collected from: the first one, then
    middle ones whose sequence numbers follow each other. *)
Inductive collected : list MMTPPacket -> pendingMessage -> Prop :=
  | collected_first p s :
      ParseSignalingPayload (mp_Payload p) = Ret s -> sp_FragmentationIndicator s = FragmentFirst ->
      collected [p] (mkPending (sp_Data s) (mp_PacketSequenceNumber p))
  | collected_next fs pm p s :
      collected fs pm ->
      ParseSignalingPayload (mp_Payload p) = Ret s -> sp_FragmentationIndicator s = FragmentMiddle ->
      mp_PacketSequenceNumber p = u32 (pm_sequenceNumber pm + 1) ->
      collected (fs ++ [p]) (mkPending (pm_data pm ++ sp_Data s) (mp_PacketSequenceNumber p)).

Lemma catch_inl {A} (c : go A) a : catch c = Ret (inl a) -> c = Ret a.
Proof. by destruct c; cbn; intros [= ->]. Qed.

(** What a packet did, from its result. *)
Lemma feedKey_inv e p e' r : feedKey e p = Ret (e', r) ->
  (e' = e \/ e' = None
   \/ (exists s, ParseSignalingPayload (mp_Payload p) = Ret s /\ sp_FragmentationIndicator s = FragmentFirst
         /\ e' = Some (mkPending (sp_Data s) (mp_PacketSequenceNumber p)))
   \/ (exists pm s, e = Some pm /\ ParseSignalingPayload (mp_Payload p) = Ret s
         /\ sp_FragmentationIndicator s = FragmentMiddle
         /\ mp_PacketSequenceNumber p = u32 (pm_sequenceNumber pm + 1)
         /\ e' = Some (mkPending (pm_data pm ++ sp_Data s) (mp_PacketSequenceNumber p))))
  /\ forall ms, r = inl ms -> ms <> [] -> exists s, ParseSignalingPayload (mp_Payload p) = Ret s /\
       (sp_FragmentationIndicator s = FragmentComplete /\ Messages s = Ret ms
        \/ exists pm, e = Some pm /\ sp_FragmentationIndicator s <> FragmentFirst
             /\ mp_PacketSequenceNumber p = u32 (pm_sequenceNumber pm + 1)
             /\ Messages (mkSignaling FragmentComplete (sp_LengthExtension s) (sp_Aggregation s)
                            (sp_FragmentCounter s) (pm_data pm ++ sp_Data s)) = Ret ms).
Proof.
  unfold feedKey. destruct (negb (mp_PayloadType p =? _)).
  { intros [= -> <-]. split; [by left|]. by intros ? [= <-]. }
  destruct (ParseSignalingPayload (mp_Payload p)) as [s|err| |]; try done; cbn [orElse].
  2:{ intros [= -> <-]. split; [by left|]. by intros ? [=]. }
  destruct (Z.eqb_spec (sp_FragmentationIndicator s) FragmentComplete) as [Hi|Hc].
  { destruct (catch (Messages s)) as [r'|?| |] eqn:Ec; try done. cbn [mbind go_bind]. intros [= <- <-].
    split; [by right; left|]. intros ms -> _. exists s. split; [done|]. left. split; [done|]. by apply catch_inl. }
  destruct (Z.eqb_spec (sp_FragmentationIndicator s) FragmentFirst) as [Hi|Hf].
  { intros [= <- <-]. split; [right; right; left; by eexists|]. by intros ? [= <-]. }
  destruct e as [pm|]; [|intros [= <- <-]; split; [by left|]; by intros ? [= <-]].
  destruct (negb _ || _) eqn:Eg; [intros [= <- <-]; split; [by right; left|]; by intros ? [= <-]|].
  apply orb_false_iff in Eg as [Hseq _]. bools.
  destruct (Z.eqb_spec (sp_FragmentationIndicator s) FragmentMiddle) as [Hi|Hm].
  { intros [= <- <-]. split; [|by intros ? [= <-]]. right. right. right. by exists pm, s. }
  destruct (catch _) as [r'|?| |] eqn:Ec; try done. cbn [mbind go_bind]. intros [= <- <-].
  split; [by right; left|]. intros ms -> _. exists s. split; [done|]. right. exists pm. conjs; try done. by apply catch_inl.
Qed.

Lemma feedKeyAll_snoc e ps p : feedKeyAll e (ps ++ [p]) =
  ('(e, rs) ← feedKeyAll e ps; '(e, r) ← feedKey e p; Ret (e, rs ++ [r])).
Proof.
  revert e. induction ps as [|q ps IH]; intros e; cbn [app feedKeyAll mbind go_bind].
  { by destruct (feedKey e p) as [[e' r]|?| |]. }
  destruct (feedKey e q) as [[e' r]|?| |]; cbn [mbind go_bind]; [|done..]. rewrite IH.
  destruct (feedKeyAll e' ps) as [[e'' rs]|?| |]; cbn [mbind go_bind]; [|done..].
  by destruct (feedKey e'' p) as [[? ?]|?| |].
Qed.

Lemma pending_collected ps : forall e rs, feedKeyAll None ps = Ret (e, rs) ->
  forall pm, e = Some pm -> exists fs, fs `sublist_of` ps /\ collected fs pm.
Proof.
  induction ps as [|p ps IH] using rev_ind; intros e rs; [by intros [= <- <-]|]. rewrite feedKeyAll_snoc.
  destruct (feedKeyAll None ps) as [[e0 rs0]|?| |]; try done. cbn [mbind go_bind].
  destruct (feedKey e0 p) as [[e1 r]|?| |] eqn:Ef; try done. cbn [mbind go_bind]. intros [= <- <-] pm ->.
  destruct (feedKey_inv _ _ _ _ Ef) as [[Hk|[?|[(s & Hs & Hi & [= ->])|(pm0 & s & -> & Hs & Hi & Hn & [= ->])]]] _].
  - subst e0. destruct (IH _ _ eq_refl pm eq_refl) as (fs & Hfs & Hc). exists fs. split; [|done].
    etrans; [exact Hfs|]. by apply sublist_inserts_r.
  - done.
  - exists [p]. split; [by apply sublist_inserts_l|]. by constructor.
  - destruct (IH _ _ eq_refl pm0 eq_refl) as (fs & Hfs & Hc). exists (fs ++ [p]). split; [by apply sublist_app|].
    by constructor.
Qed.

(** Whatever packets arrive, a message the assembler returns was carried
    whole by the packet that completed it, or is the data of a first fragment,
    of middle fragments and of that packet, received in this order and with
    consecutive sequence numbers: no message is joined across a lost packet. *)
Theorem nothing_is_joined_across_a_gap ps p e rs e' ms :
  feedKeyAll None ps = Ret (e, rs) -> feedKey e p = Ret (e', inl ms) -> ms <> [] ->
  exists s, ParseSignalingPayload (mp_Payload p) = Ret s /\
    (sp_FragmentationIndicator s = FragmentComplete /\ Messages s = Ret ms
     \/ exists fs pm, fs `sublist_of` ps /\ collected fs pm
          /\ mp_PacketSequenceNumber p = u32 (pm_sequenceNumber pm + 1)
          /\ Messages (mkSignaling FragmentComplete (sp_LengthExtension s) (sp_Aggregation s)
                         (sp_FragmentCounter s) (pm_data pm ++ sp_Data s)) = Ret ms).
Proof.
  intros Hps Hp Hne. destruct (feedKey_inv _ _ _ _ Hp) as [_ Hms].
  destruct (Hms ms eq_refl Hne) as (s & Hs & [Hc|(pm & -> & _ & Hn & Hm)]); exists s; (split; [done|]); [by left|right].
  destruct (pending_collected ps _ _ Hps pm eq_refl) as (fs & ? & ?). by exists fs, pm.
Qed.

(** ** Aggregated messages *)

Lemma aggregate_loop n ms : Forall (fun m => len m < 65536) ms ->
  (length (concat (map (fun m => [u8 (Z.shiftr (len m) 8); u8 (len m)] ++ m) ms)) < n)%nat -> forall acc,
  loop n (aggregateTurn false) (concat (map (fun m => [u8 (Z.shiftr (len m) 8); u8 (len m)] ++ m) ms), acc) = Ret (acc ++ ms).
Proof.
  intros Hms. revert n. induction Hms as [|m ms Hm _ IH]; intros n Hn acc; (destruct n as [|n]; [lia|]); rewrite loop_S.
  { cbn. by rewrite app_nil_r. }
  cbn [map concat] in *. set (rest := concat _) in *. cbn [aggregateTurn].
  rewrite <- app_assoc in *. set (b := [u8 (Z.shiftr (len m) 8); u8 (len m)] ++ m ++ rest) in *.
  assert (len b = 2 + len m + len rest) as Lb by (subst b; rewrite !length_app; cbn [length]; lia).
  rewrite (proj2 (Z.ltb_lt 0 _)), (proj2 (Z.ltb_ge _ 2)) by lia.
  assert (read16 b 0 = Ret (len m)) as -> by (unfold b; etrans; [exact (read16_pair [] _ _ (m ++ rest) 0 eq_refl)|]; f_equal; apply field16; lia).
  cbn [mbind go_bind]. rewrite (sliceFrom_const b 2 (m ++ rest)) by (lia || done). cbn [mbind go_bind].
  rewrite (proj2 (Z.ltb_ge _ _)) by (rewrite length_app; lia).
  rewrite slice_0 by (rewrite length_app; lia). cbn [mbind go_bind]. rewrite slice_from by (rewrite length_app; lia).
  cbn [mbind go_bind]. rewrite Nat2Z.id, take_app_length, drop_app_length. rewrite IH by lia. by rewrite <- app_assoc.
Qed.

Lemma aggregate_roundtrip ms : Forall (fun m => len m < 65536) ms ->
  (s ← ParseSignalingPayload (AggregatedSignalingPayload ms); Messages s) = Ret ms.
Proof.
  intros Hms. unfold ParseSignalingPayload, AggregatedSignalingPayload. cbn [app].
  rewrite (proj2 (Z.ltb_ge _ _)) by (cbn [length]; lia).
  rewrite (idx_lookup _ 0 1), (idx_lookup _ 1 0) by done. cbn [mbind go_bind].
  rewrite (sliceFrom_const _ 2 (concat (map (fun m => [u8 (Z.shiftr (len m) 8); u8 (len m)] ++ m) ms))) by (cbn [length]; lia || done).
  cbn [mbind go_bind]. unfold Messages. cbn [sp_FragmentationIndicator sp_Aggregation sp_Data sp_LengthExtension].
  change (negb (Z.shiftr 1 6 =? FragmentComplete)) with false. change (negb (flag 1 1)) with false. change (flag 1 2) with false.
  cbv iota. by rewrite aggregate_loop by (done || lia).
Qed.

(** ** Examples *)

Definition exampleFlow : IPDataFlow := mkFlow (AddrFrom16 (replicate 16 1)) (AddrFrom16 (replicate 16 2)) 5000.

(** A message of 100 bytes in fragments of 40, from the last sequence number. *)
Lemma fragmented_message_rejoins_witness :
  exists raw packets, SignalingPackets 0x8000 (2 ^ 32 - 1) (replicate 100 7) 40 = Ret raw
    /\ Forall2 (fun b p => ParseMMTPPacket b = Ret p) raw packets
    /\ forall a trace, assembler_ok a -> Forall (fun x => mmtp_ok x.2) trace ->
         packetsOf (mkKey exampleFlow 0x8000) trace = packets ->
         returns (feedAll a trace) (fun '(a', rs) => a' !! mkKey exampleFlow 0x8000 = None
           /\ resultsOf (mkKey exampleFlow 0x8000) rs = replicate (length packets - 1) (inl []) ++ [inl [replicate 100 7]]).
Proof. apply fragmented_message_rejoins; [lia|lia|lia|]. vm_compute. discriminate. Defined.

Definition examplePackets : list MMTPPacket :=
  [fragmentPacket 0x8000 5 3 0 [1; 2]; fragmentPacket 0x8000 5 3 1 [3]; fragmentPacket 0x8000 5 3 2 [4; 5]].

Lemma assembler_is_bounded_and_isolated_witness :
  returns (feedAll ∅ (map (fun p => (exampleFlow, p)) examplePackets)) (fun '(a', rs) =>
    (forall key pm, a' !! key = Some pm -> len (pm_data pm) <= maxMessageSize /\ joinedWithin ((∅ : MessageAssembler) !! key) (packetsOf key (map (fun p => (exampleFlow, p)) examplePackets)) pm)
    /\ forall key, feedKeyAll ((∅ : MessageAssembler) !! key) (packetsOf key (map (fun p => (exampleFlow, p)) examplePackets)) = Ret (a' !! key, resultsOf key rs)).
Proof.
  apply (assembler_is_bounded_and_isolated maxMessageSize); [vm_compute; discriminate| |].
  - intros key pm. rewrite lookup_empty. discriminate.
  - repeat apply Forall_cons_2; [..|apply Forall_nil_2]; (split; [|vm_compute; discriminate]);
      cbn; unfold BuildSignalingPayload; cbn [app]; auto 10 with bytes.
Defined.

Lemma nothing_is_joined_across_a_gap_witness :
  exists s, ParseSignalingPayload (mp_Payload (fragmentPacket 0x8000 5 3 2 [4; 5])) = Ret s /\
    (sp_FragmentationIndicator s = FragmentComplete /\ Messages s = Ret [[1; 2; 3; 4; 5]]
     \/ exists fs pm, fs `sublist_of` take 2 examplePackets /\ collected fs pm
          /\ mp_PacketSequenceNumber (fragmentPacket 0x8000 5 3 2 [4; 5]) = u32 (pm_sequenceNumber pm + 1)
          /\ Messages (mkSignaling FragmentComplete (sp_LengthExtension s) (sp_Aggregation s)
                         (sp_FragmentCounter s) (pm_data pm ++ sp_Data s)) = Ret [[1; 2; 3; 4; 5]]).
Proof.
  apply (nothing_is_joined_across_a_gap (take 2 examplePackets) (fragmentPacket 0x8000 5 3 2 [4; 5])
           (Some (mkPending [1; 2; 3] 6)) [inl []; inl []] None [[1; 2; 3; 4; 5]]).
  - vm_compute. reflexivity.
  - vm_compute. reflexivity.
  - discriminate.
Defined.

(** A lost fragment: nothing comes out. *)
Example lost_fragment_drops_message :
  feedKeyAll None [fragmentPacket 0x8000 5 3 0 [1; 2]; fragmentPacket 0x8000 5 3 2 [4; 5]] = Ret (None, [inl []; inl []]).
Proof. vm_compute. reflexivity. Qed.
