(* ===== verification/MmtSi.v ===== *)
(** * MMT signaling information: sections, descriptors, messages
      (mmt/section.go, mmt/descriptor.go, mmt/message.go)

    Sections as ISDB-S3 carries them, the [reader] of big-endian fields, the
    loops of descriptors with their three widths of length fields, MMT-SI
    messages and the tables of a PA message.  [mmttest] (mmt/mmttest/mmttest.go)
    builds all of them. *)

From S2P Require Import Prelude Crc Packet Section Psi Tables Calendar Eit Detect IpFlow Mmtp.

(** ** Sections (mmt/section.go) *)

(** The body of the loop of [crc32MPEG2], and its table. *)
Definition mmtTable : list Z :=
  Eval vm_compute in (fun i => Nat.iter 8 tableRound (Z.shiftl i 24)) <$> seqZ 0 256.
Definition mmtCrcStep (crc b : Z) : Z :=
  Z.lxor (u32 (Z.shiftl crc 8)) (default 0 (mmtTable !! Z.to_nat (Z.lxor (u8 (Z.shiftr crc 24)) b))).
Definition mmtCrc32MPEG2 (data : bytes) : Z := foldl mmtCrcStep 0xffffffff data.

Definition mmtValidateCRC (s : Section_) : go bool :=
  short ← Ret (len s <? 7) ||! (n ← TotalLength s; Ret (len s <? n));
  if (short : bool) then Ret false
  else n ← TotalLength s; data ← sliceTo s n; Ret (mmtCrc32MPEG2 data =? 0).

Record MHeader := mkMHeader {
  mh_TableID : Z;
  mh_TableIDExtension : Z;
  mh_VersionNumber : Z;
  mh_CurrentNextIndicator : bool;
  mh_SectionNumber : Z;
  mh_LastSectionNumber : Z
}.

Definition parseLongSection (s : Section_) (minBody : Z) (tableIDs : list Z) : go (MHeader * bytes) :=
  bad ← Ret (len s <? 8 + minBody + 4)
        ||! (negb <$> SectionSyntaxIndicator s)
        ||! (negb <$> mmtValidateCRC s)
        ||! (id ← TableID s; Ret (negb (existsb (Z.eqb id) tableIDs)));
  if (bad : bool) then Err ErrInvalidSection
  else
    total ← TotalLength s;
    let end_ := total - 4 in
    if end_ <? 8 + minBody then Err ErrInvalidSection
    else
      s0 ← idx s 0;
      ext ← read16 s 3;
      s5 ← idx s 5;
      s6 ← idx s 6;
      s7 ← idx s 7;
      body ← slice s 8 end_;
      Ret (mkMHeader s0 ext (Z.land (Z.shiftr s5 1) 0x1f) (flag s5 0x01) s6 s7, body).

Definition decodeBCD (b : Z) : Z * bool :=
  let high := Z.shiftr b 4 in
  let low := Z.land b 0x0f in
  (high * 10 + low, (high <=? 9) && (low <=? 9)).

Definition allOnes (b : bytes) : bool := forallb (Z.eqb 0xff) b.

Definition parseBCDTime (b : bytes) (maxHour : Z) : go Duration :=
  b0 ← idx b 0; let '(hour, ok1) := decodeBCD b0 in
  b1 ← idx b 1; let '(minute, ok2) := decodeBCD b1 in
  b2 ← idx b 2; let '(second, ok3) := decodeBCD b2 in
  if negb ok1 || negb ok2 || negb ok3 || (maxHour <? hour) || (59 <? minute) || (59 <? second) then Err ErrInvalidSection
  else Ret (hour * 3600000000000 + minute * 60000000000 + second * 1000000000).

(** [t.Add(d)] of a duration of whole seconds. *)
Definition timeAdd (t : Time) (d : Duration) : Time := t + d / 1000000000.

Definition mmtParseMJDTime (b : bytes) : go Time :=
  five ← sliceTo b 5;
  if allOnes five then Ret zeroTime
  else
    digits ← slice b 2 5;
    hms ← parseBCDTime digits 23;
    mjd ← read16 b 0;
    Ret (timeAdd (dateJST 1858 11 (17 + mjd) 0 0 0) hms).

Definition mmtParseBCDDuration (b : bytes) : go Duration :=
  three ← sliceTo b 3;
  if allOnes three then Ret 0 else parseBCDTime three 99.

(** ** Descriptors (mmt/descriptor.go) *)

Record MDescriptor := mkMDescriptor {
  md_Tag : Z;
  md_Data : bytes
}.

#[export] Instance MDescriptor_eq_dec : EqDecision MDescriptor.
Proof. solve_decision. Defined.

Definition descriptorLengthSize (tag : Z) : Z :=
  if ((0x4000 <=? tag) && (tag <=? 0x6FFF)) || (0xF000 <=? tag) then 2
  else if (0x7000 <=? tag) && (tag <=? 0x7FFF) then 4
  else 1.

(** [for _, v := range b[2:2+size] { length = length<<8 | int(v) }] *)
Definition bigEndian (l : bytes) : Z := foldl (fun n v => Z.lor (Z.shiftl n 8) v) 0 l.

Definition mdescriptorTurn (st : bytes * list MDescriptor) : go (iteration (bytes * list MDescriptor) (list MDescriptor)) :=
  let '(b, descriptors) := st in
  if 0 <? len b then
    if len b <? 2 then Err ErrInvalidSection
    else
      tag ← read16 b 0;
      let size := descriptorLengthSize tag in
      if len b <? 2 + size then Err ErrInvalidSection
      else
        field ← slice b 2 (2 + size);
        let length := bigEndian field in
        let off := 2 + size in
        if len b - off <? length then Err ErrInvalidSection
        else
          data ← slice b off (off + length);
          b ← sliceFrom b (off + length);
          Ret (Continue (b, descriptors ++ [mkMDescriptor tag data]))
  else Ret (Break descriptors).

Definition parseMDescriptors (b : bytes) : go (list MDescriptor) :=
  loop (S (length b)) mdescriptorTurn (b, []).

(** ** The reader

    [bytes] returns [nil], here [None], once a read went out of range; a
    computation with a reader threads it through. *)
Record reader := mkReader {
  r_b : bytes;
  r_ok : bool
}.

Definition newReader (b : bytes) : reader := mkReader b true.

Definition rd (A : Type) : Type := reader -> go (A * reader).

#[export] Instance rd_ret : MRet rd := fun A a r => Ret (a, r).
#[export] Instance rd_bind : MBind rd := fun A B f m r => '(a, r) ← m r; f a r.
#[export] Instance rd_fmap : FMap rd := fun A B f m r => '(a, r) ← m r; Ret (f a, r).

Definition liftR {A} (c : go A) : rd A := fun r => a ← c; Ret (a, r).

Definition rbytes (n : Z) : rd (option bytes) := fun r =>
  if negb (r_ok r) || (len (r_b r) <? n) then Ret (None, mkReader (r_b r) false)
  else
    v ← sliceTo (r_b r) n;
    b ← sliceFrom (r_b r) n;
    Ret (Some v, mkReader b (r_ok r)).

Definition ru8 : rd Z := b ← rbytes 1; match b with Some b => liftR (idx b 0) | None => mret 0 end.
Definition ru16 : rd Z := b ← rbytes 2; match b with Some b => liftR (read16 b 0) | None => mret 0 end.
Definition ru32 : rd Z := b ← rbytes 4; match b with Some b => liftR (read32 b 0) | None => mret 0 end.

(** [if err := r.err(); err != nil { return nil, err }] *)
Definition rerr : rd () := fun r => if negb (r_ok r) then Err ErrInvalidSection else Ret ((), r).

(** [r.b], the bytes that are left. *)
Definition rrest : rd bytes := fun r => Ret (r_b r, r).

(** [string(r.bytes(n))] and the like: [nil] is empty. *)
Definition rstring (n : Z) : rd bytes := default [] <$> rbytes n.

(** [for r.ok && len(r.b) > 0 { ... }]; an entry that answers [None] leaves the
    loop. *)
Definition entryTurnR {A} (entry : rd (option A)) (st : list A * reader) : go (iteration (list A * reader) (list A * reader)) :=
  let '(acc, r) := st in
  if r_ok r && (0 <? len (r_b r)) then
    '(x, r) ← entry r;
    match x with
    | Some x => Ret (Continue (acc ++ [x], r))
    | None => Ret (Break (acc, r))
    end
  else Ret (Break (acc, r)).

Definition whileR {A} (entry : rd (option A)) : rd (list A) := fun r =>
  loop (S (length (r_b r))) (entryTurnR entry) ([], r).

(** [for range n { ... }] *)
Fixpoint timesR {A} (n : nat) (entry : rd A) : rd (list A) :=
  match n with
  | O => mret []
  | S n => x ← entry; xs ← timesR n entry; mret (x :: xs)
  end.

(** ** Messages (mmt/message.go) *)

Definition MessageIDPA : Z := 0x0000.
Definition MessageIDM2Section : Z := 0x8000.
Definition MessageIDCA : Z := 0x8001.
Definition MessageIDM2ShortSection : Z := 0x8002.
Definition MessageIDDataTransmission : Z := 0x8003.

Definition MessageID (m : bytes) : go Z := read16 m 0.

Definition hasLength32 (m : bytes) : go bool :=
  id ← MessageID m;
  Ret ((id <=? 0x000F) || ((0x7000 <=? id) && (id <=? 0x7FFF)) || (0xF000 <=? id)).

Definition MessagePayload (m : bytes) : go (Z * bytes) :=
  if len m <? 5 then Err ErrInvalidSection
  else
    wide ← hasLength32 m;
    '(length, off) ←
      (if (wide : bool) then
         if len m <? 7 then Err ErrInvalidSection
         else n ← read32 m 3; Ret (n, 7)
       else n ← read16 m 3; Ret (n, 5));
    if len m - off <? length then Err ErrInvalidSection
    else
      version ← idx m 2;
      payload ← slice m off (off + length);
      Ret (version, payload).

Definition MessageSection (m : bytes) : go Section_ :=
  bad ← Ret (len m <? 2) ||!
    (id ← MessageID m; Ret (negb (id =? MessageIDM2Section) && negb (id =? MessageIDM2ShortSection)));
  if (bad : bool) then Err ErrInvalidSection
  else
    '(_, s) ← MessagePayload m;
    short ← Ret (len s <? 3) ||! (n ← TotalLength s; Ret (len s <? n));
    if (short : bool) then Err ErrInvalidSection
    else n ← TotalLength s; sliceTo s n.

(** A table of a PA message. *)
Definition TableVersion (t : bytes) : go Z := idx t 1.

Definition tableBody (t : bytes) (isTableID : Z -> bool) : go bytes :=
  bad ← Ret (len t <? 4)
        ||! (id ← idx t 0; Ret (negb (isTableID id)))
        ||! (n ← read16 t 2; Ret (len t <? 4 + n));
  if (bad : bool) then Err ErrInvalidSection
  else n ← read16 t 2; slice t 4 (4 + n).

Record PAMessage := mkPAMessage {
  pa_Version : Z;
  pa_Tables : list bytes
}.

Definition tablesTurn (st : bytes * list bytes) : go (iteration (bytes * list bytes) (list bytes)) :=
  let '(b, tables) := st in
  if 0 <? len b then
    if len b <? 4 then Err ErrInvalidSection
    else
      n ← read16 b 2;
      let size := 4 + n in
      if len b <? size then Err ErrInvalidSection
      else
        t ← sliceTo b size;
        b ← sliceFrom b size;
        Ret (Continue (b, tables ++ [t]))
  else Ret (Break tables).

Definition ParsePAMessage (m : bytes) : go PAMessage :=
  bad ← Ret (len m <? 2) ||! (id ← MessageID m; Ret (negb (id =? MessageIDPA)));
  if (bad : bool) then Err ErrInvalidSection
  else
    '(version, payload) ← MessagePayload m;
    if len payload <? 1 then Err ErrInvalidSection
    else
      n ← idx payload 0;
      let off := 1 + n * 4 in
      if len payload <? off then Err ErrInvalidSection
      else
        b ← sliceFrom payload off;
        tables ← loop (S (length b)) tablesTurn (b, []);
        Ret (mkPAMessage version tables).

(** ** Builders (mmt/mmttest/mmttest.go) *)

Definition message16 (id version : Z) (payload : bytes) : bytes :=
  [u8 (Z.shiftr id 8); u8 id; version; u8 (Z.shiftr (len payload) 8); u8 (len payload)] ++ payload.
Definition M2SectionMessage (version : Z) (section : bytes) : bytes := message16 0x8000 version section.
Definition M2ShortSectionMessage (version : Z) (section : bytes) : bytes := message16 0x8002 version section.

Definition BuildTable (tableID version : Z) (body : bytes) : bytes :=
  [tableID; version; u8 (Z.shiftr (len body) 8); u8 (len body)] ++ body.

(** [t[:4]] of every table, then the tables. *)
Definition BuildPAMessage (version : Z) (tables : list bytes) : bytes :=
  let payload := [u8 (len tables)] in
  let payload := payload ++ concat (map (take 4) tables) in
  let payload := payload ++ concat tables in
  ([0x00; 0x00; version] ++ be32 (u32 (len payload))) ++ payload.

(** [appendCRC]: the checksum bit by bit. *)
Definition appendCRC (b : bytes) : bytes :=
  let crc := foldl (fun crc v => Nat.iter 8 tableRound (Z.lxor crc (Z.shiftl v 24))) 0xffffffff b in
  b ++ be32 crc.

Definition BuildSection (tableID tableIDExtension version sectionNumber lastSectionNumber : Z) (body : bytes) : bytes :=
  let length := 5 + len body + 4 in
  appendCRC ([tableID; Z.lor 0xf0 (Z.land (u8 (Z.shiftr length 8)) 0x0f); u8 length;
              u8 (Z.shiftr tableIDExtension 8); u8 tableIDExtension;
              Z.lor 0xc1 (u8 (Z.shiftl (Z.land version 0x1f) 1)); sectionNumber; lastSectionNumber] ++ body).

Definition ShortSection (tableID : Z) (body : bytes) : bytes :=
  let length := len body + 4 in
  appendCRC ([tableID; Z.lor 0x70 (Z.land (u8 (Z.shiftr length 8)) 0x0f); u8 length] ++ body).

Definition BuildDescriptor (tag : Z) (data : bytes) : bytes :=
  let b := [u8 (Z.shiftr tag 8); u8 tag] in
  let b :=
    if ((0x4000 <=? tag) && (tag <=? 0x6FFF)) || (0xF000 <=? tag)
    then b ++ [u8 (Z.shiftr (len data) 8); u8 (len data)]
    else if (0x7000 <=? tag) && (tag <=? 0x7FFF) then b ++ be32 (u32 (len data))
    else b ++ [u8 (len data)] in
  b ++ data.

Definition Loop (descriptors : list bytes) : bytes :=
  let b := concat descriptors in
  [Z.lor 0xf0 (Z.land (u8 (Z.shiftr (len b) 8)) 0x0f); u8 (len b)] ++ b.

(** ** Checksums *)

Lemma mmtCrc32MPEG2_eq data : mmtCrc32MPEG2 data = crc32MPEG2 data.
Proof. done. Qed.

Lemma appendCRC_seal b : bytes_ok b -> appendCRC b = seal b.
Proof.
  intros Hb. unfold appendCRC, seal. do 2 f_equal. unfold crc32MPEG2. rewrite crc_fold_serial by done.
  assert (forall c v, Nat.iter 8 tableRound (Z.lxor c (Z.shiftl v 24)) = serialByte c v) as Hstep.
  { intros c v. unfold serialByte. generalize (Z.lxor c (Z.shiftl v 24)) as x. intros x.
    cbn [Nat.iter nat_rect]. by rewrite !tableRound_bitStep. }
  clear Hb. generalize 0xffffffff as crc. induction b as [|v b IH]; intros crc; [done|]. cbn [foldl]. by rewrite Hstep, IH.
Qed.

Lemma mmtValidateCRC_eq s : bytes_ok s -> 7 <= len s -> totalOf s <= len s ->
  mmtValidateCRC s = Ret (crc32MPEG2 (take (Z.to_nat (totalOf s)) s) =? 0).
Proof.
  intros Hs H7 Ht. unfold mmtValidateCRC. rewrite TotalLength_eq by lia.
  rewrite (proj2 (Z.ltb_ge _ 7)) by lia. cbn [goor mbind go_bind]. rewrite (proj2 (Z.ltb_ge _ _)) by lia.
  pose proof (total_range s Hs). rewrite slice_0 by lia. done.
Qed.

Lemma mmtValidateCRC_valid s : valid_section s -> 7 <= len s -> mmtValidateCRC s = Ret true.
Proof.
  intros (Hb & H3 & E & Hc) H7. rewrite mmtValidateCRC_eq by (done || lia).
  rewrite take_ge by lia. by rewrite Hc.
Qed.

(** ** Long sections *)

Lemma wp_mmtValidateCRC s (Q : bool -> Prop) : bytes_ok s -> Q false ->
  (7 <= len s -> totalOf s <= len s -> Q true) -> wp (mmtValidateCRC s) Q.
Proof.
  intros Hs Hf Ht. unfold mmtValidateCRC. destruct (Z.ltb_spec (len s) 7); [done|]. cbn [goor mbind go_bind].
  rewrite TotalLength_eq by lia. cbn [mbind go_bind]. destruct (Z.ltb_spec (len s) (totalOf s)); [done|].
  pose proof (total_range s Hs). rewrite slice_0 by lia. cbn [mbind go_bind wp]. destruct (_ =? 0); [by apply Ht|done].
Qed.

Lemma parseLongSection_ok s minBody ids : bytes_ok s -> 0 <= minBody ->
  wp (parseLongSection s minBody ids) (fun '(h, body) => bytes_ok body /\ minBody <= len body /\ len body <= 4087).
Proof.
  intros Hs Hm. unfold parseLongSection, SectionSyntaxIndicator, TableID. apply wp_bind, wp_goor.
  apply (wp_mono _ (fun bad => bad = false -> 12 <= len s /\ totalOf s <= len s)).
  { apply wp_goor, wp_goor, wp_ret. destruct (Z.ltb_spec (len s) (8 + minBody + 4)); [done|].
    go_run. destruct (negb _); [done|]. apply wp_fmap, wp_mmtValidateCRC; [done|done|]. intros _ Ht. cbn. intros _. lia. }
  intros [] Hbad; [done|]. destruct (Hbad eq_refl) as [H12 Ht]. pose proof (total_range s Hs).
  rewrite TotalLength_eq by lia. go_run; try done; split; auto with bytes; blia.
Qed.

(** A section that was built is read back: its header and its body. *)
Lemma parseLongSection_built tableID ext version number last body minBody ids :
  byte_ok tableID -> 0 <= ext < 65536 -> 0 <= version < 32 -> byte_ok number -> byte_ok last ->
  bytes_ok body -> len body <= 4086 -> 0 <= minBody <= len body -> existsb (Z.eqb tableID) ids = true ->
  parseLongSection (BuildSection tableID ext version number last body) minBody ids
  = Ret (mkMHeader tableID ext version true number last, body)
  /\ valid_section (BuildSection tableID ext version number last body).
Proof.
  intros Hid Hext Hv Hn Hl Hb Hlen Hmin Hids.
  assert (BuildSection tableID ext version number last body = seal ([tableID; Z.lor 0xf0 (hiByte (9 + len body)); u8 (9 + len body);
     hiByte ext; u8 ext; Z.lor 0xc1 (Z.shiftl version 1); number; last] ++ body)) as ->.
  { unfold BuildSection. replace (5 + len body + 4) with (9 + len body) by lia.
    assert (u8 (Z.shiftl (Z.land version 0x1f) 1) = Z.shiftl version 1) as ->.
    { rewrite land_1f, Z.mod_small by lia. rewrite Z.shiftl_mul_pow2 by done. apply u8_small. lia. }
    assert (Z.land (u8 (Z.shiftr (9 + len body) 8)) 0x0f = hiByte (9 + len body)) as ->.
    { unfold hiByte. rewrite land_0f. apply Z.mod_small.
      assert (0 <= Z.shiftr (9 + len body) 8 < 16) by (apply shiftr_range; lia). rewrite u8_small; lia. }
    apply appendCRC_seal. destruct (version_byte version Hv) as (? & _). unfold hiByte. auto 20 with bytes. }
  set (s := seal _). destruct (version_byte version Hv) as (Hv1 & Hv2 & Hv3).
  assert (valid_section s) as Hs.
  { apply seal_valid.
    - unfold hiByte. auto 20 with bytes.
    - rewrite length_app. cbn [length]. lia.
    - rewrite totalOf_app by (cbn [length]; lia). unfold totalOf, byteAt. simpl. rewrite field12 by (done || lia). lia. }
  split; [|done]. pose proof Hs as (Hsb & H3 & Et & _).
  assert (len s = 12 + len body) as Ls by (subst s; unfold seal; rewrite !length_app; cbn [length be32]; lia).
  unfold parseLongSection, SectionSyntaxIndicator, TableID. rewrite mmtValidateCRC_valid, TotalLength_eq by (done || lia).
  rewrite (proj2 (Z.ltb_ge _ _)) by lia. rewrite <- Et, Ls.
  rewrite (idx_lookup s 0 tableID), (idx_lookup s 1 (Z.lor 0xf0 (hiByte (9 + len body)))), (idx_lookup s 5 (Z.lor 0xc1 (Z.shiftl version 1))),
    (idx_lookup s 6 number), (idx_lookup s 7 last) by done.
  cbn [goor mbind go_bind fmap go_fmap]. rewrite Hids. cbn [goor mbind go_bind negb].
  assert (flag (Z.lor 240 (hiByte (9 + len body))) 128 = true) as ->.
  { unfold flag. rewrite Z.land_lor_distr_l. apply negb_true_iff, Z.eqb_neq. intros E%Z.lor_eq_0_iff. by destruct E. }
  cbn [goor mbind go_bind negb]. rewrite (proj2 (Z.ltb_ge _ _)) by lia.
  unfold read16. rewrite (idx_lookup s 3 (hiByte ext)), (idx_lookup s (3 + 1) (u8 ext)) by done. cbn [mbind go_bind].
  rewrite Hv2, Hv3, field16 by done.
  assert (slice s 8 (12 + len body - 4) = Ret body) as ->.
  { subst s. unfold seal. rewrite <- app_assoc. apply slice_mid; cbn [length]; lia. }
  done.
Qed.

(** ** Reading fields

    [rwp m r Q]: with the reader [r], [m] neither panics nor diverges, and what
    it returns satisfies [Q].  [took r r' n] is what a read of [n] bytes does:
    it stays good only if it took exactly them. *)
Definition rwp {A} (m : rd A) (r : reader) (Q : A -> reader -> Prop) : Prop :=
  wp (m r) (fun '(a, r') => Q a r').

Definition took (r r' : reader) (n : Z) : Prop :=
  bytes_ok (r_b r') /\ len (r_b r') <= len (r_b r)
  /\ (r_ok r' = true -> r_ok r = true /\ len (r_b r') + n = len (r_b r))
  /\ (r_ok r' = false -> r_b r' = r_b r /\ (r_ok r = false \/ len (r_b r) < n)).

Lemma rwp_mono {A} (m : rd A) r (P Q : A -> reader -> Prop) :
  rwp m r P -> (forall a r', P a r' -> Q a r') -> rwp m r Q.
Proof. intros H HPQ. eapply wp_mono; [exact H|]. intros [a r']. apply HPQ. Qed.

Lemma rwp_bind {A B} (m : rd A) (f : A -> rd B) r (Q : B -> reader -> Prop) :
  rwp m r (fun a r' => rwp (f a) r' Q) -> rwp (m ≫= f) r Q.
Proof. intros H. unfold rwp, mbind, rd_bind. apply wp_bind. eapply wp_mono; [exact H|]. by intros [a r']. Qed.

Lemma rwp_ret {A} (a : A) r (Q : A -> reader -> Prop) : Q a r -> rwp (mret a) r Q.
Proof. done. Qed.

Lemma rwp_fmap {A B} (m : rd A) (f : A -> B) r (Q : B -> reader -> Prop) :
  rwp m r (fun a r' => Q (f a) r') -> rwp (f <$> m) r Q.
Proof. intros H. unfold rwp, fmap, rd_fmap. apply wp_bind. eapply wp_mono; [exact H|]. by intros [a r']. Qed.

Lemma rwp_lift {A} (c : go A) r (Q : A -> reader -> Prop) : wp c (fun a => Q a r) -> rwp (liftR c) r Q.
Proof. intros H. unfold rwp, liftR. apply wp_bind. by eapply wp_mono; [exact H|]. Qed.

Lemma rwp_err r (Q : () -> reader -> Prop) : (r_ok r = true -> Q () r) -> rwp rerr r Q.
Proof. intros H. unfold rwp, rerr. destruct (r_ok r); [by apply H|done]. Qed.

Lemma rwp_rest r (Q : bytes -> reader -> Prop) : Q (r_b r) r -> rwp rrest r Q.
Proof. done. Qed.

Lemma rwp_bytes n r (Q : option bytes -> reader -> Prop) : bytes_ok (r_b r) -> 0 <= n ->
  (forall v r', took r r' n -> (forall b, v = Some b -> bytes_ok b /\ len b = n) -> Q v r') -> rwp (rbytes n) r Q.
Proof.
  intros Hr Hn HQ. unfold rwp, rbytes. destruct (r_ok r) eqn:Eok; cbn [negb orb].
  2:{ apply HQ; [|done]. unfold took. cbn [r_b r_ok]. conjs; [done|lia|done|]. intros _. split; [done|by left]. }
  destruct (Z.ltb_spec (len (r_b r)) n).
  { apply HQ; [|done]. unfold took. cbn [r_b r_ok]. conjs; [done|lia|done|]. intros _. split; [done|by right]. }
  rewrite slice_0, slice_from by lia. cbn [mbind go_bind wp]. apply HQ.
  - unfold took. cbn [r_b r_ok]. rewrite length_drop. conjs; [auto with bytes|lia|intros _; split; [done|lia]|done].
  - intros b [= <-]. rewrite length_take. split; [auto with bytes|lia].
Qed.

Lemma rwp_string n r (Q : bytes -> reader -> Prop) : bytes_ok (r_b r) -> 0 <= n ->
  (forall v r', took r r' n -> bytes_ok v -> Q v r') -> rwp (rstring n) r Q.
Proof.
  intros Hr Hn HQ. unfold rstring. apply rwp_fmap, rwp_bytes; [done..|]. intros v r' Ht Hv. apply HQ; [done|].
  destruct v as [b|]; [|constructor]. by apply Hv.
Qed.

Lemma rwp_u8 r (Q : Z -> reader -> Prop) : bytes_ok (r_b r) ->
  (forall x r', took r r' 1 -> 0 <= x < 256 -> Q x r') -> rwp ru8 r Q.
Proof.
  intros Hr HQ. unfold ru8. apply rwp_bind, rwp_bytes; [done|lia|]. intros [b|] r' Ht Hb; [|by apply rwp_ret, HQ].
  destruct (Hb b eq_refl) as [? ?]. apply rwp_lift. go_run. by apply HQ.
Qed.

Lemma rwp_u16 r (Q : Z -> reader -> Prop) : bytes_ok (r_b r) ->
  (forall x r', took r r' 2 -> 0 <= x < 65536 -> Q x r') -> rwp ru16 r Q.
Proof.
  intros Hr HQ. unfold ru16. apply rwp_bind, rwp_bytes; [done|lia|]. intros [b|] r' Ht Hb; [|by apply rwp_ret, HQ].
  destruct (Hb b eq_refl) as [? ?]. apply rwp_lift. go_run. by apply HQ.
Qed.

Lemma rwp_u32 r (Q : Z -> reader -> Prop) : bytes_ok (r_b r) ->
  (forall x r', took r r' 4 -> 0 <= x < 2 ^ 32 -> Q x r') -> rwp ru32 r Q.
Proof.
  intros Hr HQ. unfold ru32. apply rwp_bind, rwp_bytes; [done|lia|]. intros [b|] r' Ht Hb; [|by apply rwp_ret, HQ].
  destruct (Hb b eq_refl) as [? ?]. apply rwp_lift. go_run. by apply HQ.
Qed.

(** Reading goes on in the same direction. *)
Definition onward (r r' : reader) : Prop :=
  bytes_ok (r_b r') /\ len (r_b r') <= len (r_b r) /\ (r_ok r' = true -> r_ok r = true).

(** A loop of entries ends: an entry that leaves the reader good took a byte. *)
Lemma rwp_while {A} (entry : rd (option A)) r (Q : list A -> reader -> Prop) : bytes_ok (r_b r) ->
  (forall r1, bytes_ok (r_b r1) -> r_ok r1 = true -> 0 < len (r_b r1) ->
     rwp entry r1 (fun x r2 => onward r1 r2 /\ (r_ok r2 = true -> len (r_b r2) < len (r_b r1)))) ->
  (forall xs r', onward r r' -> Q xs r') -> rwp (whileR entry) r Q.
Proof.
  intros Hr Hentry HQ. unfold rwp, whileR.
  apply (wp_loop (fun '(_, r') => onward r r')
    (fun '(_, r') => if r_ok r' then len (r_b r') else 0)); [|split; done|destruct (r_ok r); lia|destruct (r_ok r); lia].
  intros [acc r1] H1. unfold entryTurnR. destruct (r_ok r1) eqn:Eok; cbn [andb]; [|by apply HQ].
  destruct (Z.ltb_spec 0 (len (r_b r1))) as [Hl|]; [|by apply HQ]. apply wp_bind. destruct H1 as (Hb1 & Hl1 & Hok1).
  eapply wp_mono; [by apply (Hentry r1)|]. intros [x r2] [(Hb2 & Hl2 & Hok2) Hp].
  assert (onward r r2) as H2 by (split; [done|]; split; [lia|]; intros; auto).
  destruct x as [x|]; cbn [wp]; [|by apply HQ]. split; [done|]. destruct (r_ok r2); [specialize (Hp eq_refl)|]; lia.
Qed.

Lemma rwp_times {A} n (entry : rd A) : (forall r, bytes_ok (r_b r) -> rwp entry r (fun _ r' => onward r r')) ->
  forall r (Q : list A -> reader -> Prop), bytes_ok (r_b r) ->
  (forall xs r', onward r r' -> Q xs r') -> rwp (timesR n entry) r Q.
Proof.
  intros He. induction n as [|n IH]; intros r Q Hr HQ; cbn [timesR].
  { apply rwp_ret, HQ. by split. }
  apply rwp_bind. eapply rwp_mono; [by apply He|]. intros x r1 (Hb1 & Hl1 & Hok1).
  apply rwp_bind, IH; [done|]. intros xs r2 (Hb2 & Hl2 & Hok2). apply rwp_ret, HQ.
  split; [done|]. split; [lia|]. auto.
Qed.

Lemma took_onward r r' n : took r r' n -> onward r r'.
Proof. intros (? & ? & H & _). split; [done|]. split; [done|]. intros E. by apply H. Qed.

(** ** Descriptor loops *)

Definition mdescriptors_ok : list MDescriptor -> Prop := Forall (fun d => bytes_ok (md_Data d)).

Lemma bigEndian_nonneg l : bytes_ok l -> 0 <= bigEndian l.
Proof.
  intros Hl. unfold bigEndian. enough (forall n, 0 <= n -> 0 <= foldl (fun n v => Z.lor (Z.shiftl n 8) v) n l) as H by (by apply H).
  induction Hl as [|v l Hv _ IH]; intros n Hn; [done|]. cbn [foldl]. apply IH. apply Z.lor_nonneg.
  split; [by apply Z.shiftl_nonneg|]. destruct Hv. lia.
Qed.

Lemma parseMDescriptors_ok b : bytes_ok b -> wp (parseMDescriptors b) mdescriptors_ok.
Proof.
  intros Hb. unfold parseMDescriptors.
  apply (wp_loop (fun '(b, ds) => bytes_ok b /\ mdescriptors_ok ds) (fun '(b, _) => len b)); [|split; [done|constructor]|lia|lia].
  intros [l ds] [Hl Hds]. unfold mdescriptorTurn. go_run; [|done].
  assert (1 <= descriptorLengthSize x <= 4) as Hsize by (unfold descriptorLengthSize; repeat case_match; lia).
  go_run. assert (0 <= bigEndian (take (Z.to_nat (2 + descriptorLengthSize x - 2)) (drop (Z.to_nat 2) l)))
    by (apply bigEndian_nonneg; auto with bytes).
  go_run. conjs; [auto with bytes| |blia|blia].
  apply Forall_app_2; [done|]. constructor; [|constructor]. cbn [md_Data]. auto with bytes.
Qed.

(** A descriptor whose length its own length field can hold. *)
Definition mdescriptor_ok (d : MDescriptor) : Prop :=
  0 <= md_Tag d < 65536 /\ len (md_Data d) < 2 ^ (8 * descriptorLengthSize (md_Tag d)).

Definition encodeMDescriptor (d : MDescriptor) : bytes := BuildDescriptor (md_Tag d) (md_Data d).

(** The length field the builder writes. *)
Definition lengthField (tag n : Z) : bytes :=
  if descriptorLengthSize tag =? 2 then [u8 (Z.shiftr n 8); u8 n]
  else if descriptorLengthSize tag =? 4 then be32 (u32 n) else [u8 n].

Lemma BuildDescriptor_layout tag data :
  BuildDescriptor tag data = [hiByte tag; u8 tag] ++ lengthField tag (len data) ++ data.
Proof. unfold BuildDescriptor, lengthField, descriptorLengthSize, hiByte. repeat case_match; try done; by rewrite <- app_assoc. Qed.

Lemma lengthField_read tag n : 0 <= n < 2 ^ (8 * descriptorLengthSize tag) ->
  len (lengthField tag n) = descriptorLengthSize tag /\ bigEndian (lengthField tag n) = n.
Proof.
  unfold lengthField. assert (descriptorLengthSize tag = 2 \/ descriptorLengthSize tag = 4 \/ descriptorLengthSize tag = 1)
    as [-> |[-> | ->]] by (unfold descriptorLengthSize; repeat case_match; tauto); cbn [Z.eqb Pos.eqb]; intros Hn.
  - split; [done|]. change (be (hiByte n) (u8 n) = n). apply field16. lia.
  - split; [done|]. rewrite u32_small by lia. unfold bigEndian, be32. cbn [foldl].
    rewrite Z.shiftl_0_l, Z.lor_0_l, !Z.shiftl_lor, !Z.shiftl_shiftl by done. pose proof (field32 n ltac:(lia)) as Hf.
    unfold be in Hf. rewrite Z.shiftl_lor, Z.shiftl_shiftl in Hf by done. cbn [Z.add Pos.add Pos.succ] in *.
    by rewrite <- !Z.lor_assoc in *.
  - split; [done|]. unfold bigEndian. cbn [foldl]. rewrite Z.shiftl_0_l, Z.lor_0_l. apply u8_small. lia.
Qed.

Lemma mdescriptors_loop n ds : Forall mdescriptor_ok ds -> (length (concat (map encodeMDescriptor ds)) < n)%nat -> forall acc,
  loop n mdescriptorTurn (concat (map encodeMDescriptor ds), acc) = Ret (acc ++ ds).
Proof.
  intros Hds. revert n. induction Hds as [|[tag data] ds [Ht Hd] _ IH]; intros n Hn acc; (destruct n as [|n]; [lia|]); rewrite loop_S.
  { cbn. by rewrite app_nil_r. }
  cbn [map concat encodeMDescriptor md_Tag md_Data] in *. unfold encodeMDescriptor in Hn at 1 |- * at 1. cbn [md_Tag md_Data] in *.
  rewrite BuildDescriptor_layout in *. set (rest := concat (map encodeMDescriptor ds)) in *.
  destruct (lengthField_read tag (len data) ltac:(lia)) as [Lf Ef]. set (f := lengthField tag (len data)) in *. clearbody f.
  rewrite <- !app_assoc in *. set (b := [hiByte tag; u8 tag] ++ f ++ data ++ rest) in *.
  assert (1 <= descriptorLengthSize tag) by (unfold descriptorLengthSize; repeat case_match; lia).
  assert (len b = 2 + descriptorLengthSize tag + len data + len rest) as Lb by (subst b; rewrite !length_app; cbn [length]; lia).
  cbn [mdescriptorTurn]. rewrite (proj2 (Z.ltb_lt 0 _)), (proj2 (Z.ltb_ge _ 2)) by lia.
  assert (read16 b 0 = Ret tag) as ->.
  { etrans; [exact (read16_pair [] _ _ (f ++ data ++ rest) 0 eq_refl)|]. by rewrite field16. }
  cbn [mbind go_bind]. rewrite (proj2 (Z.ltb_ge _ _)) by lia.
  assert (slice b 2 (2 + descriptorLengthSize tag) = Ret f) as -> by (apply slice_mid; cbn [length]; lia).
  cbn [mbind go_bind]. rewrite Ef, (proj2 (Z.ltb_ge _ _)) by lia.
  assert (slice b (2 + descriptorLengthSize tag) (2 + descriptorLengthSize tag + len data) = Ret data) as ->.
  { subst b. rewrite app_assoc. apply slice_mid; rewrite length_app; cbn [length]; lia. }
  cbn [mbind go_bind].
  assert (sliceFrom b (2 + descriptorLengthSize tag + len data) = Ret rest) as ->.
  { apply sliceFrom_const; [lia|]. subst b. rewrite !app_assoc. apply drop_app_length'. rewrite !length_app. cbn [length]. lia. }
  cbn [mbind go_bind]. rewrite IH by lia. by rewrite <- app_assoc.
Qed.

Lemma parseMDescriptors_built ds : Forall mdescriptor_ok ds ->
  parseMDescriptors (concat (map encodeMDescriptor ds)) = Ret ds.
Proof. intros Hds. unfold parseMDescriptors. rewrite mdescriptors_loop by (done || lia). done. Qed.

(** ** Messages *)

Lemma MessagePayload_ok m : bytes_ok m -> wp (MessagePayload m) (fun '(_, payload) => bytes_ok payload /\ len payload <= len m).
Proof.
  intros Hm. unfold MessagePayload, hasLength32, MessageID. go_run; (split; [auto with bytes|blia]).
Qed.

Lemma MessageSection_ok m : bytes_ok m -> wp (MessageSection m) (fun s => bytes_ok s /\ len s = totalOf s /\ 3 <= len s).
Proof.
  intros Hm. unfold MessageSection, MessageID. apply wp_bind, wp_goor, wp_ret.
  destruct (Z.ltb_spec (len m) 2); [done|]. go_run.
  eapply wp_mono; [by apply MessagePayload_ok|]. intros [v s] [Hs _]. apply wp_bind, wp_goor, wp_ret.
  destruct (Z.ltb_spec (len s) 3) as [|H3]; [done|]. rewrite TotalLength_eq by lia. pose proof (total_range s Hs).
  go_run. change (Z.to_nat 0) with 0%nat. rewrite Z.sub_0_r, drop_0, totalOf_take, length_take by lia.
  conjs; [auto with bytes|lia|lia].
Qed.

Lemma tableBody_ok t isTableID : bytes_ok t -> wp (tableBody t isTableID) (fun b => bytes_ok b /\ 2 <= len t).
Proof.
  intros Ht. unfold tableBody. apply wp_bind, wp_goor. apply (wp_mono _ (fun bad => bad = false -> 4 <= len t)).
  { apply wp_goor, wp_ret. destruct (Z.ltb_spec (len t) 4); [done|]. go_run. by intros _. }
  intros [] Hbad; [done|]. specialize (Hbad eq_refl). cbv iota. rewrite !read16_at by lia.
  pose proof (be_range _ _ (byteAt_range t 2 Ht) (byteAt_range t (2 + 1) Ht)). go_run. split; [auto with bytes|lia].
Qed.

Lemma ParsePAMessage_ok m : bytes_ok m -> wp (ParsePAMessage m) (fun pa => Forall (fun t => bytes_ok t /\ 4 <= len t) (pa_Tables pa)).
Proof.
  intros Hm. unfold ParsePAMessage, MessageID. apply wp_bind, wp_goor, wp_ret.
  destruct (Z.ltb_spec (len m) 2); [done|]. go_run.
  eapply wp_mono; [by apply MessagePayload_ok|]. intros [v payload] [Hp _]. go_run.
  match goal with |- wp (loop _ _ (?l, _)) _ => assert (bytes_ok l) as Hl0 by auto with bytes; generalize dependent l end.
  intros l0 Hl0.
  apply (wp_loop (fun '(b, ts) => bytes_ok b /\ Forall (fun t => bytes_ok t /\ 4 <= len t) ts) (fun '(b, _) => len b)); [|split; [done|constructor]|lia|lia].
  intros [l ts] [Hl Hts]. unfold tablesTurn. go_run; [|done].
  conjs; [auto with bytes| |blia|blia]. apply Forall_app_2; [done|]. constructor; [|constructor]. split; [auto with bytes|blia].
Qed.

(** A message with a 16-bit length, and the section in it. *)
Lemma MessagePayload_message16 id version payload : 0xF < id < 0x7000 \/ 0x7FFF < id < 0xF000 -> len payload < 65536 ->
  MessageID (message16 id version payload) = Ret id
  /\ MessagePayload (message16 id version payload) = Ret (version, payload).
Proof.
  intros Hid Hp. unfold MessagePayload, hasLength32, MessageID, message16.
  set (m := _ ++ payload). assert (len m = 5 + len payload) as Lm by (subst m; rewrite length_app; cbn [length]; lia).
  assert (read16 m 0 = Ret id) as E0.
  { etrans; [exact (read16_pair [] _ _ ([version; u8 (Z.shiftr (len payload) 8); u8 (len payload)] ++ payload) 0 eq_refl)|].
    f_equal. apply field16. lia. }
  split; [done|]. rewrite E0, (proj2 (Z.ltb_ge _ _)) by lia. cbn [mbind go_bind].
  rewrite (proj2 (Z.leb_gt id 15)), (proj2 (Z.leb_gt 0xF000 id)) by lia.
  assert ((0x7000 <=? id) && (id <=? 0x7FFF) = false) as -> by (apply andb_false_iff; rewrite !Z.leb_gt; lia).
  cbn [orb].
  assert (read16 m 3 = Ret (len payload)) as ->.
  { etrans; [exact (read16_pair [u8 (Z.shiftr id 8); u8 id; version] _ _ payload 3 eq_refl)|]. f_equal. apply field16. lia. }
  cbn [mbind go_bind]. rewrite (proj2 (Z.ltb_ge _ _)) by lia. rewrite (idx_lookup m 2 version) by done. cbn [mbind go_bind].
  rewrite (slice_const m 5 (5 + len payload) payload); [done|lia|lia|lia|].
  apply take_ge. replace (drop (Z.to_nat 5) m) with payload by done. lia.
Qed.

(** Both kinds of section message give back their section. *)
Lemma MessageSection_built version s : valid_section s ->
  MessageSection (M2SectionMessage version s) = Ret s /\ MessageSection (M2ShortSectionMessage version s) = Ret s.
Proof.
  intros (Hb & H3 & E & _). pose proof (total_range s Hb).
  assert (forall id, id = MessageIDM2Section \/ id = MessageIDM2ShortSection -> MessageSection (message16 id version s) = Ret s) as Hgen.
  { intros id Hid. unfold MessageSection.
    destruct (MessagePayload_message16 id version s) as [-> ->]; [unfold MessageIDM2Section, MessageIDM2ShortSection in *; lia|lia|].
    rewrite (proj2 (Z.ltb_ge _ 2)) by (unfold message16; rewrite length_app; cbn [length]; lia).
    cbn [goor mbind go_bind].
    assert (negb (id =? MessageIDM2Section) && negb (id =? MessageIDM2ShortSection) = false) as ->
      by (destruct Hid as [-> | ->]; done).
    cbn [goor mbind go_bind]. rewrite (proj2 (Z.ltb_ge _ 3)), TotalLength_eq by lia. cbn [goor mbind go_bind].
    rewrite (proj2 (Z.ltb_ge _ _)) by lia. rewrite slice_0 by lia. by rewrite take_ge by lia. }
  split; apply Hgen; [by left|by right].
Qed.

(** ** PA messages *)

Definition table_ok (t : bytes) : Prop := exists tableID version body, t = BuildTable tableID version body /\ len body < 65536.

Lemma table_ok_size t x : table_ok t -> 4 <= len t /\ read16 (t ++ x) 2 = Ret (len t - 4).
Proof.
  intros (id & v & body & -> & Hl). unfold BuildTable. rewrite length_app. cbn [length]. split; [lia|].
  rewrite <- app_assoc. etrans; [exact (read16_pair [id; v] _ _ (body ++ x) 2 eq_refl)|]. f_equal. etrans; [apply field16; lia|lia].
Qed.

Lemma tables_loop n ts : Forall table_ok ts -> (length (concat ts) < n)%nat -> forall acc,
  loop n tablesTurn (concat ts, acc) = Ret (acc ++ ts).
Proof.
  intros Hts. revert n. induction Hts as [|t ts Ht _ IH]; intros n Hn acc; (destruct n as [|n]; [lia|]); rewrite loop_S.
  { cbn. by rewrite app_nil_r. }
  cbn [concat] in *. destruct (table_ok_size t (concat ts) Ht) as [H4 Hr]. rewrite length_app in Hn. cbn [tablesTurn].
  rewrite (proj2 (Z.ltb_lt 0 _)), (proj2 (Z.ltb_ge _ 4)) by (rewrite length_app; lia).
  rewrite Hr. cbn [mbind go_bind]. replace (4 + (len t - 4)) with (len t) by lia.
  rewrite (proj2 (Z.ltb_ge _ _)) by (rewrite length_app; lia).
  rewrite slice_0 by (rewrite length_app; lia). cbn [mbind go_bind]. rewrite slice_from by (rewrite length_app; lia).
  cbn [mbind go_bind]. rewrite Nat2Z.id, take_app_length, drop_app_length, IH by lia. by rewrite <- app_assoc.
Qed.

Lemma heads_length ts : Forall table_ok ts -> len (concat (map (take 4) ts)) = 4 * len ts.
Proof.
  induction 1 as [|t ts Ht _ IH]; [done|]. cbn [map concat]. destruct (table_ok_size t [] Ht).
  rewrite length_app, length_take. cbn [length]. lia.
Qed.

Lemma ParsePAMessage_built version ts : Forall table_ok ts -> (length ts < 256)%nat -> len (concat ts) < 2 ^ 31 ->
  ParsePAMessage (BuildPAMessage version ts) = Ret (mkPAMessage version ts).
Proof.
  intros Hts Hn Hl. pose proof (heads_length ts Hts) as Lh. unfold BuildPAMessage.
  set (heads := concat (map (take 4) ts)) in *. set (payload := ([u8 (len ts)] ++ heads) ++ concat ts).
  assert (len payload = 1 + 4 * len ts + len (concat ts)) as Lp by (subst payload; rewrite !length_app; cbn [length]; lia).
  set (m := _ ++ payload). assert (len m = 7 + len payload) as Lm by (subst m; rewrite length_app; cbn [length app be32]; lia).
  assert (MessagePayload m = Ret (version, payload)) as Hpay.
  { unfold MessagePayload, hasLength32, MessageID. rewrite (proj2 (Z.ltb_ge _ _)) by lia.
    change (read16 m 0) with (Ret 0). cbn [mbind go_bind Z.leb Z.compare orb].
    rewrite (proj2 (Z.ltb_ge _ _)) by lia.
    assert (read32 m 3 = Ret (len payload)) as ->.
    { subst m. rewrite <- app_assoc. change 3 with (len [0; 0; version]). rewrite read32_mid by apply u32_range. f_equal. apply u32_small. lia. }
    cbn [mbind go_bind]. rewrite (proj2 (Z.ltb_ge _ _)) by lia. rewrite (idx_lookup m 2 version) by done. cbn [mbind go_bind].
    rewrite (slice_const m 7 (7 + len payload) payload); [done|lia|lia|lia|].
    apply take_ge. replace (drop (Z.to_nat 7) m) with payload by done. lia. }
  unfold ParsePAMessage, MessageID. rewrite (proj2 (Z.ltb_ge _ _)) by lia. change (read16 m 0) with (Ret 0).
  cbn [goor mbind go_bind]. change (negb (0 =? MessageIDPA)) with false. rewrite Hpay. cbn [mbind go_bind].
  rewrite (proj2 (Z.ltb_ge _ _)) by lia. rewrite (idx_lookup payload 0 (u8 (len ts))) by done. cbn [mbind go_bind].
  rewrite u8_small by lia. rewrite (proj2 (Z.ltb_ge _ _)) by lia.
  rewrite (sliceFrom_const payload _ (concat ts)); [|lia|].
  2:{ subst payload. apply drop_app_length'. rewrite length_app. cbn [length]. lia. }
  cbn [mbind go_bind]. by rewrite tables_loop by (done || lia).
Qed.

(** ** Times *)

Lemma decodeBCD_eq x max : (let '(v, ok) := decodeBCD x in if negb ok || (max <? v) then Err ErrInvalidSection else Ret v) = bcdUpTo x max.
Proof.
  unfold bcdUpTo, decodeBCD, decodeBCDByte. cbv zeta. rewrite !Z.leb_antisym. destruct (9 <? _), (9 <? _); done.
Qed.

Lemma daysOf_1858 mjd : daysOf 1858 11 (17 + mjd) = mjd - 40587.
Proof.
  assert (forall y m d, daysOf y m d = daysOf y m 1 + (d - 1)) as -> by (intros; unfold daysOf; lia).
  change (daysOf 1858 11 1) with (-40603). lia.
Qed.

Lemma parseBCDTime_eq x y z maxHour : parseBCDTime [x; y; z] maxHour =
  (hour ← bcdUpTo x maxHour; minute ← bcdUpTo y 59; second ← bcdUpTo z 59;
   Ret (hour * 3600000000000 + minute * 60000000000 + second * 1000000000)).
Proof.
  unfold parseBCDTime. change (idx [x; y; z] 0) with (Ret x). change (idx [x; y; z] 1) with (Ret y).
  change (idx [x; y; z] 2) with (Ret z). cbn [mbind go_bind]. rewrite <- !decodeBCD_eq.
  destruct (decodeBCD x) as [h [|]], (decodeBCD y) as [m [|]], (decodeBCD z) as [s [|]]; cbn [negb orb];
    destruct (maxHour <? h), (59 <? m), (59 <? s); done.
Qed.

(** Both readers of times in one shape. *)
Lemma parseMJDTime_five x0 x1 x2 x3 x4 : parseMJDTime [x0; x1; x2; x3; x4] =
  if forallb (Z.eqb 0xff) [x0; x1; x2; x3; x4] then Ret zeroTime
  else hour ← bcdUpTo x2 23; minute ← bcdUpTo x3 59; second ← bcdUpTo x4 59;
       let '(year, month, day) := mjdDate (be x0 x1) in Ret (dateJST year month day hour minute second).
Proof. done. Qed.

Lemma mmtParseMJDTime_five x0 x1 x2 x3 x4 : mmtParseMJDTime [x0; x1; x2; x3; x4] =
  if forallb (Z.eqb 0xff) [x0; x1; x2; x3; x4] then Ret zeroTime
  else hour ← bcdUpTo x2 23; minute ← bcdUpTo x3 59; second ← bcdUpTo x4 59;
       Ret (timeAdd (dateJST 1858 11 (17 + be x0 x1) 0 0 0)
              (hour * 3600000000000 + minute * 60000000000 + second * 1000000000)).
Proof.
  transitivity (if forallb (Z.eqb 0xff) [x0; x1; x2; x3; x4] then Ret zeroTime
    else hms ← parseBCDTime [x2; x3; x4] 23; Ret (timeAdd (dateJST 1858 11 (17 + be x0 x1) 0 0 0) hms)); [done|].
  rewrite parseBCDTime_eq. destruct (forallb _ _); [done|].
  by destruct (bcdUpTo x2 23), (bcdUpTo x3 59), (bcdUpTo x4 59).
Qed.

Lemma dates_agree mjd hour minute second : 15079 <= mjd <= 65535 ->
  (let '(year, month, day) := mjdDate mjd in dateJST year month day hour minute second)
  = timeAdd (dateJST 1858 11 (17 + mjd) 0 0 0) (hour * 3600000000000 + minute * 60000000000 + second * 1000000000).
Proof.
  intros Hm. pose proof (dateCheck_all mjd Hm) as Hc. unfold dateCheck in Hc.
  destruct (mjdDate mjd) as [[year month] day]. bools. unfold timeAdd, dateJST. rewrite daysOf_1858.
  replace (hour * 3600000000000 + minute * 60000000000 + second * 1000000000)
    with ((hour * 3600 + minute * 60 + second) * 1000000000) by lia.
  rewrite Z.div_mul by done. lia.
Qed.

Lemma parseBCDDuration_three x y z : parseBCDDuration [x; y; z] =
  if forallb (Z.eqb 0xff) [x; y; z] then Ret 0 else parseBCDTime [x; y; z] 99.
Proof.
  rewrite parseBCDTime_eq. unfold parseBCDDuration, allBytes. change (negb (len [x; y; z] =? 3)) with false.
  destruct (forallb _ _); [done|]. change (idx [x; y; z] 0) with (Ret x). change (idx [x; y; z] 1) with (Ret y).
  change (idx [x; y; z] 2) with (Ret z). cbn [mbind go_bind].
  assert (bcdUpTo x 99 = let '(hour, ok) := decodeBCDByte x in if negb ok then Err ErrInvalidSection else Ret hour) as ->.
  { unfold bcdUpTo, decodeBCDByte. cbv zeta.
    destruct (Z.ltb_spec 9 (Z.shiftr x 4)), (Z.ltb_spec 9 (Z.land x 15)); cbn [negb orb]; try done.
    by rewrite (proj2 (Z.ltb_ge 99 _)) by lia. }
  destruct (decodeBCDByte x) as [hour ok]. by destruct ok.
Qed.

Lemma mmtParseMJDTime_agrees b : bytes_ok b -> length b = 5%nat -> 15079 <= be (byteAt b 0) (byteAt b 1) ->
  mmtParseMJDTime b = parseMJDTime b.
Proof.
  intros Hb Lb Hmjd. pose proof (be_range _ _ (byteAt_range b 0 Hb) (byteAt_range b 1 Hb)) as Hr.
  destruct b as [|x0 [|x1 [|x2 [|x3 [|x4 [|]]]]]]; try discriminate.
  change (byteAt _ 0) with x0 in *. change (byteAt _ 1) with x1 in *.
  rewrite mmtParseMJDTime_five, parseMJDTime_five. destruct (forallb _ _); [done|].
  destruct (bcdUpTo x2 23) as [h|?| |]; [|done..]. destruct (bcdUpTo x3 59) as [m|?| |]; [|done..].
  destruct (bcdUpTo x4 59) as [s|?| |]; [|done..]. cbn [mbind go_bind]. rewrite <- dates_agree by lia.
  by destruct (mjdDate (be x0 x1)) as [[year month] day].
Qed.

Lemma mmtParseBCDDuration_agrees d : length d = 3%nat -> mmtParseBCDDuration d = parseBCDDuration d.
Proof. intros Ld. destruct d as [|x [|y [|z [|]]]]; try discriminate. by rewrite parseBCDDuration_three. Qed.

(** The two ways the program reads broadcast times agree: the exact day
    arithmetic of the MMT side and the floating-point formula of the TS side
    give the same time for every day from 1900-03-01 on, the same durations,
    and refuse the same fields. *)
Theorem mmt_and_ts_clocks_agree b d : bytes_ok b -> length b = 5%nat -> 15079 <= be (byteAt b 0) (byteAt b 1) ->
  length d = 3%nat ->
  mmtParseMJDTime b = parseMJDTime b /\ mmtParseBCDDuration d = parseBCDDuration d.
Proof. intros. split; [by apply mmtParseMJDTime_agrees|by apply mmtParseBCDDuration_agrees]. Qed.

(** MMT-SI survives its own framing: a loop of descriptors with any of the
    three widths of length fields, a section in either kind of section
    message, and the tables of a PA message are read back exactly as they were
    built. *)
Theorem mmt_si_framing_roundtrip ds version s tables : Forall mdescriptor_ok ds -> valid_section s ->
  Forall table_ok tables -> (length tables < 256)%nat -> len (concat tables) < 2 ^ 31 ->
  parseMDescriptors (concat (map encodeMDescriptor ds)) = Ret ds
  /\ MessageSection (M2SectionMessage version s) = Ret s
  /\ MessageSection (M2ShortSectionMessage version s) = Ret s
  /\ ParsePAMessage (BuildPAMessage version tables) = Ret (mkPAMessage version tables).
Proof.
  intros Hds Hs Hts Hn Hl. destruct (MessageSection_built version s Hs).
  conjs; [by apply parseMDescriptors_built|done|done|by apply ParsePAMessage_built].
Qed.

(** ** Examples *)

Lemma mmt_and_ts_clocks_agree_witness :
  mmtParseMJDTime [0xC0; 0x79; 0x12; 0x45; 0x00] = parseMJDTime [0xC0; 0x79; 0x12; 0x45; 0x00]
  /\ mmtParseBCDDuration [0x01; 0x45; 0x30] = parseBCDDuration [0x01; 0x45; 0x30].
Proof.
  apply mmt_and_ts_clocks_agree; [auto 10 with bytes|reflexivity|vm_compute; discriminate|reflexivity].
Defined.

Definition exampleSection : Section_ := BuildSection 0x8B 101 3 0 1 [1; 2; 3].

Lemma exampleSection_valid : valid_section exampleSection.
Proof.
  apply (parseLongSection_built 0x8B 101 3 0 1 [1; 2; 3] 0 [0x8B]); try (unfold byte_ok; simpl; lia); auto 10 with bytes.
Qed.

Lemma mmt_si_framing_roundtrip_witness :
  parseMDescriptors (concat (map encodeMDescriptor [mkMDescriptor 0x8010 [1; 2]; mkMDescriptor 0xF001 [3]; mkMDescriptor 0x7001 []]))
    = Ret [mkMDescriptor 0x8010 [1; 2]; mkMDescriptor 0xF001 [3]; mkMDescriptor 0x7001 []]
  /\ MessageSection (M2SectionMessage 1 exampleSection) = Ret exampleSection
  /\ MessageSection (M2ShortSectionMessage 1 exampleSection) = Ret exampleSection
  /\ ParsePAMessage (BuildPAMessage 1 [BuildTable 0x80 0 [0; 0]; BuildTable 0x20 1 [7]])
     = Ret (mkPAMessage 1 [BuildTable 0x80 0 [0; 0]; BuildTable 0x20 1 [7]]).
Proof.
  apply mmt_si_framing_roundtrip.
  - repeat apply Forall_cons_2; [..|apply Forall_nil_2]; (split; [simpl; lia|vm_compute; reflexivity]).
  - exact exampleSection_valid.
  - repeat apply Forall_cons_2; [..|apply Forall_nil_2]; (eexists _, _, _; split; [reflexivity|simpl; lia]).
  - simpl. lia.
  - vm_compute. reflexivity.
Defined.
