(* ===== verification/MmtTables.v ===== *)
(** * MMT-SI tables (mmt/plt.go, mpt.go, bit.go, eit.go, sdt.go, tot.go, tlvnit.go)

    The tables of PA messages (PLT and MPT), the sections of section messages
    (MH-BIT, MH-EIT, MH-SDT, MH-TOT) and TLV-NIT.  Every parser returns or
    reports an error on every input; MH-SDT and MH-EIT round-trip. *)

From S2P Require Import Prelude Crc Packet Section Psi Tables Calendar Eit Detect Tlv IpFlow Mmtp MmtSi.

(** ** Locations (mmt/mpt.go) *)

Definition LocationTypeSameFlow : Z := 0x00.
Definition LocationTypeIPv4 : Z := 0x01.
Definition LocationTypeIPv6 : Z := 0x02.
Definition LocationTypeMPEG2TS : Z := 0x03.
Definition LocationTypeMPEG2TSIP6 : Z := 0x04.
Definition LocationTypeURL : Z := 0x05.

Record GeneralLocationInfo := mkLocation {
  loc_LocationType : Z;
  loc_PacketID : Z;
  loc_Source : Addr;
  loc_Destination : Addr;
  loc_DestinationPort : Z;
  loc_NetworkID : Z;
  loc_TransportStreamID : Z;
  loc_PID : Z;
  loc_URL : bytes
}.

(** [if b := r.bytes(2*n); b != nil { source, destination = ... }] *)
Definition readAddrs (from : bytes -> Addr) (n : Z) : rd (Addr * Addr) :=
  b ← rbytes (2 * n);
  match b with
  | Some b => liftR (src ← sliceTo b n; dst ← sliceFrom b n; Ret (from src, from dst))
  | None => mret (AddrNone, AddrNone)
  end.

(** [r.ok = false] *)
Definition rfail : rd () := fun r => Ret ((), mkReader (r_b r) false).

Definition readGeneralLocationInfo : rd GeneralLocationInfo :=
  t ← ru8;
  if t =? LocationTypeSameFlow then
    packetID ← ru16;
    mret (mkLocation t packetID AddrNone AddrNone 0 0 0 0 [])
  else if t =? LocationTypeIPv4 then
    '(src, dst) ← readAddrs AddrFrom4 4;
    port ← ru16;
    packetID ← ru16;
    mret (mkLocation t packetID src dst port 0 0 0 [])
  else if (t =? LocationTypeIPv6) || (t =? LocationTypeMPEG2TSIP6) then
    '(src, dst) ← readAddrs AddrFrom16 16;
    port ← ru16;
    if t =? LocationTypeIPv6 then
      packetID ← ru16;
      mret (mkLocation t packetID src dst port 0 0 0 [])
    else
      pid ← ru16;
      mret (mkLocation t 0 src dst port 0 0 (Z.land pid 0x1fff) [])
  else if t =? LocationTypeMPEG2TS then
    networkID ← ru16;
    tsid ← ru16;
    pid ← ru16;
    mret (mkLocation t 0 AddrNone AddrNone 0 networkID tsid (Z.land pid 0x1fff) [])
  else if t =? LocationTypeURL then
    n ← ru8;
    url ← rstring n;
    mret (mkLocation t 0 AddrNone AddrNone 0 0 0 0 url)
  else
    _ ← rfail;
    mret (mkLocation t 0 AddrNone AddrNone 0 0 0 0 []).

(** ** PLT (mmt/plt.go) *)

Definition TableIDMPT : Z := 0x20.
Definition TableIDPLT : Z := 0x80.
Definition TableIDMHEITPF : Z := 0x8B.
Definition TableIDMHEITSStart : Z := 0x8C.
Definition TableIDMHEITSEnd : Z := 0x9B.
Definition TableIDMHBIT : Z := 0x9D.
Definition TableIDMHSDTActual : Z := 0x9F.
Definition TableIDMHSDTOther : Z := 0xA0.
Definition TableIDMHTOT : Z := 0xA1.
Definition TableIDMHCDT : Z := 0xA2.

Record PLTPackage := mkPLTPackage {
  pkg_PackageID : bytes;
  pkg_Location : GeneralLocationInfo
}.

Record PLTIPDelivery := mkIPDelivery {
  del_TransportFileID : Z;
  del_LocationType : Z;
  del_Source : Addr;
  del_Destination : Addr;
  del_DestinationPort : Z;
  del_URL : bytes;
  del_Descriptors : list MDescriptor
}.

Record PLT := mkPLT {
  plt_Version : Z;
  plt_Packages : list PLTPackage;
  plt_IPDeliveries : list PLTIPDelivery
}.

(** [uint16(id[n-2])<<8 | uint16(id[n-1])] of the last two bytes. *)
Definition packageServiceID (id : bytes) : go Z :=
  if len id =? 0 then Ret 0
  else if len id =? 1 then idx id 0
  else read16 id (len id - 2).

Definition pltPackage : rd PLTPackage :=
  n ← ru8;
  packageID ← rstring n;
  location ← readGeneralLocationInfo;
  mret (mkPLTPackage packageID location).

Definition pltDelivery : rd PLTIPDelivery :=
  fileID ← ru32;
  t ← ru8;
  '(src, dst, port, url) ←
    (if t =? LocationTypeIPv4 then
       '(src, dst) ← readAddrs AddrFrom4 4; port ← ru16; mret (src, dst, port, [])
     else if t =? LocationTypeIPv6 then
       '(src, dst) ← readAddrs AddrFrom16 16; port ← ru16; mret (src, dst, port, [])
     else if t =? LocationTypeURL then
       n ← ru8; url ← rstring n; mret (AddrNone, AddrNone, 0, url)
     else liftR (Err ErrInvalidSection));
  n ← ru16;
  raw ← rstring n;
  descriptors ← liftR (parseMDescriptors raw);
  _ ← rerr;
  mret (mkIPDelivery fileID t src dst port url descriptors).

(** The value of a reading and [r.err()]. *)
Definition runR {A} (m : rd A) (b : bytes) : go A := '(a, _) ← m (newReader b); Ret a.

Definition ParsePLT (t : bytes) : go PLT :=
  body ← tableBody t (fun id => id =? TableIDPLT);
  version ← TableVersion t;
  runR (
    n ← ru8;
    packages ← timesR (Z.to_nat n) pltPackage;
    n ← ru8;
    deliveries ← timesR (Z.to_nat n) pltDelivery;
    _ ← rerr;
    mret (mkPLT version packages deliveries)) body.

(** ** MPT (mmt/mpt.go) *)

Record MPTAsset := mkAsset {
  as_IdentifierType : Z;
  as_AssetIDScheme : Z;
  as_AssetID : bytes;
  as_AssetType : bytes;
  as_Locations : list GeneralLocationInfo;
  as_Descriptors : list MDescriptor
}.

Record MPT := mkMPT {
  mpt_TableID : Z;
  mpt_Version : Z;
  mpt_Mode : Z;
  mpt_PackageID : bytes;
  mpt_Descriptors : list MDescriptor;
  mpt_Assets : list MPTAsset
}.

Definition IsMPT (tableID : Z) : bool := (0x11 <=? tableID) && (tableID <=? TableIDMPT).

Definition mptAsset : rd MPTAsset :=
  identifierType ← ru8;
  scheme ← ru32;
  n ← ru8;
  assetID ← rstring n;
  assetType ← rstring 4;
  clock ← ru8;
  _ ← (if flag clock 0x01 then
         _ ← ru8;
         scale ← ru8;
         if flag scale 0x01 then ru32 else mret 0
       else mret 0);
  n ← ru8;
  locations ← timesR (Z.to_nat n) readGeneralLocationInfo;
  n ← ru16;
  raw ← rstring n;
  descriptors ← liftR (parseMDescriptors raw);
  _ ← rerr;
  mret (mkAsset identifierType scheme assetID assetType locations descriptors).

Definition ParseMPT (t : bytes) : go MPT :=
  body ← tableBody t IsMPT;
  tableID ← idx t 0;
  version ← TableVersion t;
  runR (
    mode ← ru8;
    n ← ru8;
    packageID ← rstring n;
    n ← ru16;
    raw ← rstring n;
    descriptors ← liftR (parseMDescriptors raw);
    n ← ru8;
    assets ← timesR (Z.to_nat n) mptAsset;
    _ ← rerr;
    mret (mkMPT tableID version (Z.land mode 0x03) packageID descriptors assets)) body.

(** ** MH-BIT (mmt/bit.go) *)

Record MHBITBroadcaster := mkMHBITBroadcaster {
  mbb_BroadcasterID : Z;
  mbb_Descriptors : list MDescriptor
}.

Record MHBIT := mkMHBIT {
  mbit_Header : MHeader;
  mbit_FirstDescriptors : list MDescriptor;
  mbit_Broadcasters : list MHBITBroadcaster
}.

Definition mhbitBroadcaster : rd (option MHBITBroadcaster) :=
  id ← ru8;
  n ← ru16;
  data ← rstring (Z.land n 0x0fff);
  _ ← rerr;
  descriptors ← liftR (parseMDescriptors data);
  mret (Some (mkMHBITBroadcaster id descriptors)).

Definition ParseMHBIT (s : Section_) : go MHBIT :=
  '(header, body) ← parseLongSection s 2 [TableIDMHBIT];
  runR (
    n ← ru16;
    first ← rstring (Z.land n 0x0fff);
    _ ← rerr;
    descriptors ← liftR (parseMDescriptors first);
    broadcasters ← whileR mhbitBroadcaster;
    _ ← rerr;
    mret (mkMHBIT header descriptors broadcasters)) body.

(** ** MH-EIT (mmt/eit.go) *)

Record MHEITEvent := mkMHEvent {
  mev_EventID : Z;
  mev_StartTime : Time;
  mev_Duration : Duration;
  mev_RunningStatus : Z;
  mev_FreeCAMode : bool;
  mev_Descriptors : list MDescriptor
}.

Record MHEIT := mkMHEIT {
  meit_Header : MHeader;
  meit_ServiceID : Z;
  meit_TLVStreamID : Z;
  meit_OriginalNetworkID : Z;
  meit_SegmentLastSectionNumber : Z;
  meit_LastTableID : Z;
  meit_Events : list MHEITEvent
}.

Definition IsMHEITPF (tableID : Z) : bool := tableID =? TableIDMHEITPF.
Definition IsMHEITSchedule (tableID : Z) : bool := (TableIDMHEITSStart <=? tableID) && (tableID <=? TableIDMHEITSEnd).

Definition mheitEvent : rd (option MHEITEvent) :=
  eventID ← ru16;
  times ← rbytes 8;
  match times with
  | None => mret None
  | Some times =>
      start ← liftR (t ← sliceTo times 5; mmtParseMJDTime t);
      duration ← liftR (d ← slice times 5 8; mmtParseBCDDuration d);
      flags ← ru16;
      raw ← rstring (Z.land flags 0x0fff);
      _ ← rerr;
      descriptors ← liftR (parseMDescriptors raw);
      mret (Some (mkMHEvent eventID start duration (u8 (Z.shiftr flags 13)) (flag flags 0x1000) descriptors))
  end.

Definition ParseMHEIT (s : Section_) : go MHEIT :=
  bad ← Ret (len s <? 1) ||! (id ← TableID s; Ret (negb (IsMHEITPF id) && negb (IsMHEITSchedule id)));
  if (bad : bool) then Err ErrInvalidSection
  else
    id ← TableID s;
    '(header, body) ← parseLongSection s 6 [id];
    runR (
      tlvStreamID ← ru16;
      onid ← ru16;
      segmentLast ← ru8;
      lastTableID ← ru8;
      events ← whileR mheitEvent;
      _ ← rerr;
      mret (mkMHEIT header (mh_TableIDExtension header) tlvStreamID onid segmentLast lastTableID events)) body.

(** ** MH-SDT (mmt/sdt.go) *)

Record MHSDTService := mkMHService {
  msv_ServiceID : Z;
  msv_EITUserDefinedFlags : Z;
  msv_EITScheduleFlag : bool;
  msv_EITPresentFollowing : bool;
  msv_RunningStatus : Z;
  msv_FreeCAMode : bool;
  msv_Descriptors : list MDescriptor
}.

Record MHSDT := mkMHSDT {
  msdt_Header : MHeader;
  msdt_TLVStreamID : Z;
  msdt_OriginalNetworkID : Z;
  msdt_Services : list MHSDTService
}.

Definition mhsdtService : rd (option MHSDTService) :=
  serviceID ← ru16;
  eitFlags ← ru8;
  flags ← ru16;
  raw ← rstring (Z.land flags 0x0fff);
  _ ← rerr;
  descriptors ← liftR (parseMDescriptors raw);
  mret (Some (mkMHService serviceID (Z.land (Z.shiftr eitFlags 2) 0x07) (flag eitFlags 0x02) (flag eitFlags 0x01)
                (u8 (Z.shiftr flags 13)) (flag flags 0x1000) descriptors)).

Definition ParseMHSDT (s : Section_) : go MHSDT :=
  '(header, body) ← parseLongSection s 3 [TableIDMHSDTActual; TableIDMHSDTOther];
  runR (
    onid ← ru16;
    _ ← ru8;
    services ← whileR mhsdtService;
    _ ← rerr;
    mret (mkMHSDT header (mh_TableIDExtension header) onid services)) body.

(** ** MH-TOT (mmt/tot.go) *)

Record MHTOT := mkMHTOT {
  mtot_JSTTime : Time;
  mtot_Descriptors : list MDescriptor
}.

Definition ParseMHTOT (s : Section_) : go MHTOT :=
  bad ← Ret (len s <? 14)
        ||! (id ← TableID s; Ret (negb (id =? TableIDMHTOT)))
        ||! SectionSyntaxIndicator s
        ||! (negb <$> mmtValidateCRC s);
  if (bad : bool) then Err ErrInvalidSection
  else
    t ← slice s 3 8;
    orElse (mmtParseMJDTime t)
      (fun _ => Err ErrInvalidSection)
      (fun jstTime =>
         if jstTime =? zeroTime then Err ErrInvalidSection
         else
           loopLen ← read12 s 8;
           total ← TotalLength s;
           if negb (10 + loopLen =? total - 4) then Err ErrInvalidSection
           else
             raw ← slice s 10 (10 + loopLen);
             descriptors ← parseMDescriptors raw;
             Ret (mkMHTOT jstTime descriptors)).

(** ** TLV-NIT (mmt/tlvnit.go) *)

Definition TableIDTLVNITActual : Z := 0x40.
Definition TableIDTLVNITOther : Z := 0x41.

Record TLVDescriptor := mkTLVDescriptor {
  td_Tag : Z;
  td_Data : bytes
}.

Definition tlvDescriptorTurn (st : bytes * list TLVDescriptor) : go (iteration (bytes * list TLVDescriptor) (list TLVDescriptor)) :=
  let '(b, descriptors) := st in
  if 0 <? len b then
    bad ← Ret (len b <? 2) ||! (n ← idx b 1; Ret (len b - 2 <? n));
    if (bad : bool) then Err ErrInvalidSection
    else
      tag ← idx b 0;
      n ← idx b 1;
      data ← slice b 2 (2 + n);
      b ← sliceFrom b (2 + n);
      Ret (Continue (b, descriptors ++ [mkTLVDescriptor tag data]))
  else Ret (Break descriptors).

Definition parseTLVDescriptors (b : bytes) : go (list TLVDescriptor) :=
  loop (S (length b)) tlvDescriptorTurn (b, []).

Record TLVNITStream := mkTLVNITStream {
  tns_TLVStreamID : Z;
  tns_OriginalNetworkID : Z;
  tns_Descriptors : list TLVDescriptor
}.

Record TLVNIT := mkTLVNIT {
  tnit_Header : MHeader;
  tnit_NetworkID : Z;
  tnit_NetworkDescriptors : list TLVDescriptor;
  tnit_TLVStreams : list TLVNITStream
}.

Definition tlvnitStream : rd (option TLVNITStream) :=
  id ← ru16;
  onid ← ru16;
  n ← ru16;
  raw ← rstring (Z.land n 0x0fff);
  _ ← rerr;
  descriptors ← liftR (parseTLVDescriptors raw);
  mret (Some (mkTLVNITStream id onid descriptors)).

Definition ParseTLVNIT (s : Section_) : go TLVNIT :=
  '(header, body) ← parseLongSection s 4 [TableIDTLVNITActual; TableIDTLVNITOther];
  '(network, streams) ← runR (
    n ← ru16;
    raw ← rstring (Z.land n 0x0fff);
    network ← liftR (parseTLVDescriptors raw);
    n ← ru16;
    streams ← rstring (Z.land n 0x0fff);
    _ ← rerr;
    rest ← rrest;
    if negb (len rest =? 0) then liftR (Err ErrInvalidSection) else mret (network, streams)) body;
  runR (
    streams ← whileR tlvnitStream;
    _ ← rerr;
    mret (mkTLVNIT header (mh_TableIDExtension header) network streams)) streams.

(** ** Every input

    [rd_run] runs a reading against the [rwp] rules; [onward_done] closes what
    is left: the bytes are fewer, and a good reader was good all along. *)

Lemma land_0fff x : 0 <= Z.land x 0x0fff.
Proof. apply Z.land_nonneg. by right. Qed.

Ltac unpack := repeat match goal with
  | H : took _ _ _ |- _ => destruct H as (? & ? & ? & _)
  | H : onward _ _ |- _ => destruct H as (? & ? & ?)
  end.

Ltac chase := repeat match goal with
  | H : r_ok ?r = true, K : r_ok ?r = true -> _ /\ _ |- _ => destruct (K H) as [? ?]; clear K
  | H : r_ok ?r = true, K : r_ok ?r = true -> r_ok _ = true |- _ => specialize (K H)
  end.

Ltac onward_done :=
  unpack; unfold onward in *; cbn [r_b r_ok] in *; conjs;
  first [ assumption | lia | (intros; chase; first [assumption|discriminate|lia]) ].

Ltac rd_step :=
  match goal with
  | |- rwp (_ ≫= _) _ _ => apply rwp_bind
  | |- rwp (_ <$> _) _ _ => apply rwp_fmap
  | |- rwp (mret _) _ _ => apply rwp_ret
  | |- rwp ru8 _ _ => apply rwp_u8; [unpack; assumption|intros ? ? ? ?]
  | |- rwp ru16 _ _ => apply rwp_u16; [unpack; assumption|intros ? ? ? ?]
  | |- rwp ru32 _ _ => apply rwp_u32; [unpack; assumption|intros ? ? ? ?]
  | |- rwp (rstring _) _ _ => apply rwp_string; [unpack; assumption|first [lia|apply land_0fff]|intros ? ? ? ?]
  | |- rwp (rbytes _) _ _ => apply rwp_bytes; [unpack; assumption|lia|intros ? ? ? ?]
  | |- rwp rerr _ _ => apply rwp_err; intros ?
  | |- rwp rrest _ _ => apply rwp_rest
  | |- rwp (liftR (parseMDescriptors _)) _ _ =>
      apply rwp_lift; eapply wp_mono; [apply parseMDescriptors_ok; assumption|intros ? ?]
  | |- rwp (liftR (Err _)) _ _ => apply rwp_lift, wp_err
  | |- rwp (let x := _ in _) _ _ => cbv zeta
  | |- rwp (if ?b then _ else _) _ _ => destruct b eqn:?
  | |- rwp (let '(_, _) := ?x in _) _ _ => destruct x
  end; cbv beta.

Ltac rd_run := repeat rd_step.

Lemma readAddrs_ok from n r (Q : Addr * Addr -> reader -> Prop) : bytes_ok (r_b r) -> 0 <= n ->
  (forall x r', onward r r' -> Q x r') -> rwp (readAddrs from n) r Q.
Proof.
  intros Hr Hn HQ. unfold readAddrs. apply rwp_bind, rwp_bytes; [done|lia|]. intros [b|] r' Ht Hb.
  - destruct (Hb b eq_refl) as [? ?]. apply rwp_lift. go_run. by eapply HQ, took_onward.
  - apply rwp_ret. by eapply HQ, took_onward.
Qed.

Lemma rwp_fail r (Q : () -> reader -> Prop) : Q () (mkReader (r_b r) false) -> rwp rfail r Q.
Proof. done. Qed.

Lemma readGeneralLocationInfo_ok r : bytes_ok (r_b r) -> rwp readGeneralLocationInfo r (fun _ r' => onward r r').
Proof.
  intros Hr. unfold readGeneralLocationInfo.
  repeat first [ rd_step
    | match goal with |- rwp (readAddrs _ _) _ _ => apply readAddrs_ok; [unpack; assumption|lia|intros ? ? ?; cbv beta] end
    | match goal with |- rwp rfail _ _ => apply rwp_fail; cbv beta end ];
  onward_done.
Qed.

Lemma pltPackage_ok r : bytes_ok (r_b r) -> rwp pltPackage r (fun _ r' => onward r r').
Proof.
  intros Hr. unfold pltPackage. rd_run. eapply rwp_mono; [apply readGeneralLocationInfo_ok; unpack; assumption|].
  intros ? ? ?; cbv beta in *. rd_run. onward_done.
Qed.

Lemma pltDelivery_ok r : bytes_ok (r_b r) -> rwp pltDelivery r (fun _ r' => onward r r').
Proof.
  intros Hr. unfold pltDelivery.
  repeat first [ rd_step
    | match goal with |- rwp (readAddrs _ _) _ _ => apply readAddrs_ok; [unpack; assumption|lia|intros ? ? ?; cbv beta] end ];
  onward_done.
Qed.

Lemma mptAsset_ok r : bytes_ok (r_b r) -> rwp mptAsset r (fun _ r' => onward r r').
Proof.
  intros Hr. unfold mptAsset.
  repeat first [ rd_step
    | match goal with |- rwp (timesR _ readGeneralLocationInfo) _ _ =>
        apply rwp_times; [apply readGeneralLocationInfo_ok|unpack; assumption|intros ? ? ?; cbv beta] end ];
  onward_done.
Qed.

Lemma wp_runR {A} (m : rd A) b (Q : A -> Prop) : rwp m (newReader b) (fun a _ => Q a) -> wp (runR m b) Q.
Proof. intros H. unfold runR. apply wp_bind. eapply wp_mono; [exact H|]. by intros [a r]. Qed.

(** An entry of a loop: it goes on, and takes a byte when it leaves the reader
    good. *)
Definition entry_ok {A} (entry : rd (option A)) : Prop :=
  forall r, bytes_ok (r_b r) -> r_ok r = true -> 0 < len (r_b r) ->
  rwp entry r (fun _ r' => onward r r' /\ (r_ok r' = true -> len (r_b r') < len (r_b r))).

Lemma mhbitBroadcaster_ok : entry_ok mhbitBroadcaster.
Proof. intros r Hr Hok Hl. unfold mhbitBroadcaster. rd_run. onward_done. Qed.

Lemma mhsdtService_ok : entry_ok mhsdtService.
Proof. intros r Hr Hok Hl. unfold mhsdtService. rd_run. onward_done. Qed.

Lemma parseBCDTime_safe b max : 3 <= len b -> safe (parseBCDTime b max).
Proof.
  intros Hb. unfold parseBCDTime. rewrite !idx_byteAt by lia. cbn [mbind go_bind].
  destruct (decodeBCD _), (decodeBCD _), (decodeBCD _). by case_match.
Qed.

Lemma mmtParseMJDTime_safe b : bytes_ok b -> 5 <= len b -> safe (mmtParseMJDTime b).
Proof.
  intros Hb Hl. unfold mmtParseMJDTime. unfold safe. go_run; [done|]. eapply wp_mono; [apply parseBCDTime_safe; blia|]. intros ? _. go_run. done.
Qed.

Lemma mmtParseBCDDuration_safe b : bytes_ok b -> 3 <= len b -> safe (mmtParseBCDDuration b).
Proof. intros Hb Hl. unfold mmtParseBCDDuration, safe. go_run; [done|]. apply parseBCDTime_safe. blia. Qed.

Lemma mheitEvent_ok : entry_ok mheitEvent.
Proof.
  intros r Hr Hok Hl. unfold mheitEvent. rd_run. destruct v as [times|]; [|rd_run].
  - destruct (H2 times eq_refl) as [Ht Lt]. rd_run.
    + apply rwp_lift. go_run. eapply wp_mono; [apply mmtParseMJDTime_safe; [auto with bytes|blia]|]. intros start _. cbv beta.
      rd_run. apply rwp_lift. go_run. eapply wp_mono; [apply mmtParseBCDDuration_safe; [auto with bytes|blia]|]. intros duration _. cbv beta.
      rd_run. onward_done.
  - onward_done.
Qed.

Lemma parseTLVDescriptors_ok b : bytes_ok b -> wp (parseTLVDescriptors b) (Forall (fun d => bytes_ok (td_Data d))).
Proof.
  intros Hb. unfold parseTLVDescriptors.
  apply (wp_loop (fun '(b, ds) => bytes_ok b /\ Forall (fun d => bytes_ok (td_Data d)) ds) (fun '(b, _) => len b));
    [|split; [done|constructor]|lia|lia].
  intros [l ds] [Hl Hds]. unfold tlvDescriptorTurn. apply wp_if; intros ?; bools; [|done]. apply wp_bind, wp_goor, wp_ret.
  destruct (Z.ltb_spec (len l) 2); [done|]. rewrite !idx_byteAt by lia. pose proof (byteAt_range l 1 Hl). cbn [mbind go_bind].
  go_run. conjs; [auto with bytes| |blia|blia]. apply Forall_app_2; [done|]. constructor; [|constructor]. cbn [td_Data]. auto with bytes.
Qed.

Lemma tlvnitStream_ok : entry_ok tlvnitStream.
Proof.
  intros r Hr Hok Hl. unfold tlvnitStream. rd_run. apply rwp_lift. eapply wp_mono; [by apply parseTLVDescriptors_ok|]. intros ds _.
  cbv beta. rd_run. onward_done.
Qed.

Lemma ParsePLT_ok t : bytes_ok t -> safe (ParsePLT t).
Proof.
  intros Ht. unfold ParsePLT, safe, TableVersion. apply wp_bind. eapply wp_mono; [by apply tableBody_ok|]. intros body [Hb Hl].
  go_run. apply wp_runR. rd_run.
  apply rwp_times; [apply pltPackage_ok|unpack; assumption|intros ? ? ?; cbv beta]. rd_run.
  apply rwp_times; [apply pltDelivery_ok|unpack; assumption|intros ? ? ?; cbv beta]. rd_run. done.
Qed.

Lemma ParseMPT_ok t : bytes_ok t -> safe (ParseMPT t).
Proof.
  intros Ht. unfold ParseMPT, safe, TableVersion. apply wp_bind. eapply wp_mono; [by apply tableBody_ok|]. intros body [Hb Hl].
  go_run. apply wp_runR. rd_run.
  apply rwp_times; [apply mptAsset_ok|unpack; assumption|intros ? ? ?; cbv beta]. rd_run. done.
Qed.

Lemma ParseMHBIT_ok s : bytes_ok s -> safe (ParseMHBIT s).
Proof.
  intros Hs. unfold ParseMHBIT, safe. apply wp_bind. eapply wp_mono; [by apply parseLongSection_ok|]. intros [h body] [Hb _].
  apply wp_runR. rd_run. apply rwp_while; [unpack; assumption|apply mhbitBroadcaster_ok|intros ? ? ?; cbv beta]. rd_run. done.
Qed.

Lemma ParseMHEIT_ok s : bytes_ok s -> safe (ParseMHEIT s).
Proof.
  intros Hs. unfold ParseMHEIT, safe, TableID. apply wp_bind, wp_goor, wp_ret. destruct (Z.ltb_spec (len s) 1); [done|].
  go_run. eapply wp_mono; [by apply parseLongSection_ok|]. intros [h body] [Hb _].
  apply wp_runR. rd_run. apply rwp_while; [unpack; assumption|apply mheitEvent_ok|intros ? ? ?; cbv beta]. rd_run. done.
Qed.

Lemma ParseMHSDT_ok s : bytes_ok s -> safe (ParseMHSDT s).
Proof.
  intros Hs. unfold ParseMHSDT, safe. apply wp_bind. eapply wp_mono; [by apply parseLongSection_ok|]. intros [h body] [Hb _].
  apply wp_runR. rd_run. apply rwp_while; [unpack; assumption|apply mhsdtService_ok|intros ? ? ?; cbv beta]. rd_run. done.
Qed.

Lemma ParseTLVNIT_ok s : bytes_ok s -> safe (ParseTLVNIT s).
Proof.
  intros Hs. unfold ParseTLVNIT, safe. apply wp_bind. eapply wp_mono; [by apply parseLongSection_ok|]. intros [h body] [Hb _].
  apply wp_bind. apply (wp_mono _ (fun '(_, streams) => bytes_ok streams)).
  - apply wp_runR. rd_run. apply rwp_lift. eapply wp_mono; [by apply parseTLVDescriptors_ok|]. intros ds _. cbv beta. rd_run. assumption.
  - intros [network streams] Hst. apply wp_runR. rd_run.
    apply rwp_while; [unpack; assumption|apply tlvnitStream_ok|intros ? ? ?; cbv beta]. rd_run. done.
Qed.

Lemma ParseMHTOT_ok s : bytes_ok s -> safe (ParseMHTOT s).
Proof.
  intros Hs. unfold ParseMHTOT, safe, TableID, SectionSyntaxIndicator. apply wp_bind, wp_goor.
  apply (wp_mono _ (fun bad => bad = false -> 14 <= len s)).
  { apply wp_goor, wp_goor, wp_ret. destruct (Z.ltb_spec (len s) 14); [done|]. go_run; repeat case_match; go_run; intros; lia. }
  intros [] Hbad; [done|]. specialize (Hbad eq_refl). apply wp_fmap, wp_mmtValidateCRC; [done|done|]. intros _ Ht. cbn [negb].
  cbv iota. go_run. eapply wp_orElse; [apply mmtParseMJDTime_safe; [auto with bytes|blia]|done|]. intros jst _.
  apply wp_if; intros ?; [done|]. rewrite TotalLength_eq by lia. go_run. eapply wp_mono; [apply parseMDescriptors_ok; auto with bytes|]. done.
Qed.

(** ** Round trips *)

Lemma rd_bind_eq {A B} (m : rd A) (f : A -> rd B) r : (m ≫= f) r = ('(a, r) ← m r; f a r).
Proof. done. Qed.

Lemma rbytes_exact v rest n : n = len v -> rbytes n (mkReader (v ++ rest) true) = Ret (Some v, mkReader rest true).
Proof.
  intros ->. unfold rbytes. cbn [r_b r_ok negb orb]. rewrite (proj2 (Z.ltb_ge _ _)) by (rewrite length_app; lia).
  rewrite slice_0, slice_from by (rewrite length_app; lia). cbn [mbind go_bind].
  by rewrite Nat2Z.id, take_app_length, drop_app_length.
Qed.

Lemma rstring_exact v rest n : n = len v -> rstring n (mkReader (v ++ rest) true) = Ret (v, mkReader rest true).
Proof. intros ->. unfold rstring, fmap, rd_fmap. by rewrite rbytes_exact. Qed.

Lemma ru8_exact x rest : ru8 (mkReader (x :: rest) true) = Ret (x, mkReader rest true).
Proof. unfold ru8. rewrite rd_bind_eq. change (x :: rest) with ([x] ++ rest). by rewrite rbytes_exact. Qed.

Lemma ru16_exact x rest : 0 <= x < 65536 -> ru16 (mkReader (hiByte x :: u8 x :: rest) true) = Ret (x, mkReader rest true).
Proof.
  intros Hx. unfold ru16. rewrite rd_bind_eq. change (hiByte x :: u8 x :: rest) with ([hiByte x; u8 x] ++ rest).
  rewrite rbytes_exact by done. cbn [mbind go_bind].
  unfold liftR. change (read16 [hiByte x; u8 x] 0) with (Ret (be (hiByte x) (u8 x))). cbn [mbind go_bind]. by rewrite field16.
Qed.

Lemma whileR_exact {A} (entry : rd (option A)) (enc : A -> bytes) xs :
  Forall (fun x => enc x <> [] /\ forall rest, entry (mkReader (enc x ++ rest) true) = Ret (Some x, mkReader rest true)) xs ->
  whileR entry (mkReader (concat (map enc xs)) true) = Ret (xs, mkReader [] true).
Proof.
  intros Hxs. unfold whileR. cbn [r_b].
  enough (forall n acc, (length (concat (map enc xs)) < n)%nat ->
    loop n (entryTurnR entry) (acc, mkReader (concat (map enc xs)) true) = Ret (acc ++ xs, mkReader [] true)) as H by (by rewrite H by lia).
  induction Hxs as [|x xs [Hne Hx] _ IH]; intros n acc Hn; (destruct n as [|n]; [lia|]); rewrite loop_S; cbn [map concat] in *.
  { cbn. by rewrite app_nil_r. }
  rewrite length_app in Hn. assert (0 < length (enc x))%nat by (destruct (enc x); [done|simpl; lia]).
  cbn [entryTurnR r_ok r_b andb]. rewrite (proj2 (Z.ltb_lt _ _)) by (rewrite length_app; lia).
  rewrite Hx. cbn [mbind go_bind]. rewrite IH by lia. by rewrite <- app_assoc.
Qed.

(** The 16 bits before a loop of descriptors: running status, free CA mode and
    the length of the loop. *)
Definition statusFlags (running : Z) (freeCA : bool) (n : Z) : Z := running * 8192 + (if freeCA then 4096 else 0) + n.

Lemma statusFlags_read running freeCA n : 0 <= running < 8 -> 0 <= n < 4096 ->
  0 <= statusFlags running freeCA n < 65536 /\ Z.land (statusFlags running freeCA n) 0x0fff = n
  /\ u8 (Z.shiftr (statusFlags running freeCA n) 13) = running /\ flag (statusFlags running freeCA n) 0x1000 = freeCA.
Proof.
  intros Hr Hn. unfold statusFlags. conjs.
  - destruct freeCA; lia.
  - destruct freeCA; lia.
  - change 0x0fff with (Z.ones 12). rewrite Z.land_ones by done. destruct freeCA; dmlia.
  - rewrite Z.shiftr_div_pow2 by done. rewrite u8_small; destruct freeCA; dmlia.
  - unfold flag. change 0x1000 with (Z.shiftl 1 12).
    assert (Z.testbit (running * 8192 + (if freeCA then 4096 else 0) + n) 12 = freeCA) as Hb.
    { rewrite Z.testbit_odd, Z.shiftr_div_pow2 by done. change (2 ^ 12) with 4096.
      replace ((running * 8192 + (if freeCA then 4096 else 0) + n) / 4096) with (running * 2 + (if freeCA then 1 else 0)) by (destruct freeCA; dmlia).
      rewrite Z.odd_add, Z.odd_mul. by destruct freeCA, (Z.odd running). }
    set (x := _ + n) in *. clearbody x. destruct freeCA.
    + apply negb_true_iff, Z.eqb_neq. intros E. apply (f_equal (fun y => Z.testbit y 12)) in E.
      by rewrite Z.land_spec, Hb, Z.bits_0 in E.
    + apply negb_false_iff, Z.eqb_eq. apply Z.bits_inj'. intros i Hi. rewrite Z.land_spec, Z.bits_0.
      destruct (decide (i = 12)) as [-> |]; [by rewrite Hb|]. rewrite Z.shiftl_spec by done.
      destruct (Z.ltb_spec i 12); [rewrite (Z.testbit_neg_r 1) by lia; apply andb_false_r|].
      rewrite (Z.bits_above_log2 1 (i - 12)) by (simpl; lia). apply andb_false_r.
Qed.

Definition mloopBytes (ds : list MDescriptor) : bytes := concat (map encodeMDescriptor ds).
Definition mloop_ok (ds : list MDescriptor) : Prop :=
  Forall mdescriptor_ok ds /\ bytes_ok (mloopBytes ds) /\ len (mloopBytes ds) < 4096.

(** Status, length and descriptors, as both tables read them. *)
Lemma read_loop {A} running freeCA ds rest (k : Z -> list MDescriptor -> A) : 0 <= running < 8 -> mloop_ok ds ->
  (flags ← ru16; raw ← rstring (Z.land flags 0x0fff); _ ← rerr; descriptors ← liftR (parseMDescriptors raw);
   mret (k flags descriptors))
    (mkReader (be16 (statusFlags running freeCA (len (mloopBytes ds))) ++ mloopBytes ds ++ rest) true)
  = Ret (k (statusFlags running freeCA (len (mloopBytes ds))) ds, mkReader rest true).
Proof.
  intros Hr (Hds & _ & Hl). destruct (statusFlags_read running freeCA (len (mloopBytes ds)) Hr) as (Hf & Hn & _); [lia|].
  rewrite rd_bind_eq. change (be16 ?x ++ ?l) with (hiByte x :: u8 x :: l). rewrite ru16_exact by done. cbn [mbind go_bind].
  rewrite rd_bind_eq, rstring_exact by done. cbn [mbind go_bind]. rewrite rd_bind_eq. cbn [rerr r_ok negb mbind go_bind].
  rewrite rd_bind_eq. unfold liftR. by rewrite (parseMDescriptors_built ds Hds : parseMDescriptors (mloopBytes ds) = Ret ds).
Qed.

(** *** MH-SDT *)

Definition mserviceBytes (sv : MHSDTService) : bytes :=
  be16 (msv_ServiceID sv)
  ++ [msv_EITUserDefinedFlags sv * 4 + (if msv_EITScheduleFlag sv then 2 else 0) + (if msv_EITPresentFollowing sv then 1 else 0)]
  ++ be16 (statusFlags (msv_RunningStatus sv) (msv_FreeCAMode sv) (len (mloopBytes (msv_Descriptors sv))))
  ++ mloopBytes (msv_Descriptors sv).

Definition mservice_ok (sv : MHSDTService) : Prop :=
  0 <= msv_ServiceID sv < 65536 /\ 0 <= msv_EITUserDefinedFlags sv < 8 /\ 0 <= msv_RunningStatus sv < 8
  /\ mloop_ok (msv_Descriptors sv).

Lemma mhsdtService_exact sv rest : mservice_ok sv ->
  mhsdtService (mkReader (mserviceBytes sv ++ rest) true) = Ret (Some sv, mkReader rest true).
Proof.
  intros (Hid & Hu & Hr & Hd). unfold mhsdtService, mserviceBytes. rewrite <- !app_assoc.
  rewrite rd_bind_eq. change (be16 (msv_ServiceID sv) ++ ?l) with (hiByte (msv_ServiceID sv) :: u8 (msv_ServiceID sv) :: l).
  rewrite ru16_exact by done. cbn [mbind go_bind]. rewrite rd_bind_eq. cbn [app]. rewrite ru8_exact. cbn [mbind go_bind].
  destruct sv as [id user sched pf running ca ds].
  cbn [msv_ServiceID msv_EITUserDefinedFlags msv_EITScheduleFlag msv_EITPresentFollowing msv_RunningStatus msv_FreeCAMode msv_Descriptors] in *.
  rewrite (read_loop running ca ds rest (fun flags descriptors => Some (mkMHService id _ _ _ (u8 (Z.shiftr flags 13)) (flag flags 0x1000) descriptors))) by done.
  destruct (statusFlags_read running ca (len (mloopBytes ds)) Hr) as (_ & _ & -> & ->); [destruct Hd as (_ & _ & ?); lia|].
  assert (user = 0 \/ user = 1 \/ user = 2 \/ user = 3 \/ user = 4 \/ user = 5 \/ user = 6 \/ user = 7) as Hcases by lia.
  do 2 f_equal; f_equal. repeat destruct Hcases as [-> |Hcases]; try subst user; by destruct sched, pf.
Qed.

Definition encodeMHSDT (h : MHeader) (onid : Z) (services : list MHSDTService) : Section_ :=
  BuildSection (mh_TableID h) (mh_TableIDExtension h) (mh_VersionNumber h) (mh_SectionNumber h) (mh_LastSectionNumber h)
    (be16 onid ++ [0xff] ++ concat (map mserviceBytes services)).

(** A header as [BuildSection] writes it. *)
Definition mheader_ok (h : MHeader) : Prop :=
  byte_ok (mh_TableID h) /\ 0 <= mh_TableIDExtension h < 65536 /\ 0 <= mh_VersionNumber h < 32
  /\ mh_CurrentNextIndicator h = true /\ byte_ok (mh_SectionNumber h) /\ byte_ok (mh_LastSectionNumber h).

Lemma mservice_bytes sv : mservice_ok sv -> bytes_ok (mserviceBytes sv).
Proof.
  intros (_ & Hu & _ & (_ & Hd & _)). unfold mserviceBytes, be16.
  assert (byte_ok (msv_EITUserDefinedFlags sv * 4 + (if msv_EITScheduleFlag sv then 2 else 0) + (if msv_EITPresentFollowing sv then 1 else 0)))
    by (unfold byte_ok; repeat case_match; lia).
  auto 10 with bytes.
Qed.

Lemma bytes_ok_entries {A} (enc : A -> bytes) xs : Forall (fun x => bytes_ok (enc x)) xs -> bytes_ok (concat (map enc xs)).
Proof. induction 1 as [|x xs Hx _ IH]; [constructor|]. cbn [map concat]. auto with bytes. Qed.

Lemma parseLongSection_header h body minBody ids : mheader_ok h -> bytes_ok body -> 0 <= minBody <= len body -> len body <= 4086 ->
  existsb (Z.eqb (mh_TableID h)) ids = true ->
  parseLongSection (BuildSection (mh_TableID h) (mh_TableIDExtension h) (mh_VersionNumber h) (mh_SectionNumber h) (mh_LastSectionNumber h) body)
    minBody ids = Ret (h, body).
Proof.
  intros (? & ? & ? & Hc & ? & ?) ? ? ? ?.
  destruct (parseLongSection_built (mh_TableID h) (mh_TableIDExtension h) (mh_VersionNumber h) (mh_SectionNumber h)
    (mh_LastSectionNumber h) body minBody ids) as [-> _]; [done..|]. destruct h; simpl in *. by rewrite Hc.
Qed.

Lemma ParseMHSDT_encode h onid services : mheader_ok h -> mh_TableID h = TableIDMHSDTActual \/ mh_TableID h = TableIDMHSDTOther ->
  0 <= onid < 65536 -> Forall mservice_ok services -> len (concat (map mserviceBytes services)) <= 4083 ->
  ParseMHSDT (encodeMHSDT h onid services) = Ret (mkMHSDT h (mh_TableIDExtension h) onid services).
Proof.
  intros Hh Hid Ho Hs Hl. unfold ParseMHSDT, encodeMHSDT.
  assert (bytes_ok (concat (map mserviceBytes services))) by (apply bytes_ok_entries; eapply Forall_impl; [exact Hs|apply mservice_bytes]).
  rewrite parseLongSection_header; [|done| | | |].
  2:{ unfold be16. auto 10 with bytes. }
  2,3: rewrite !length_app; cbn [length be16]; lia.
  2:{ destruct Hid as [-> | ->]; done. }
  cbn [mbind go_bind]. unfold runR, newReader. rewrite rd_bind_eq.
  change (be16 onid ++ ?l) with (hiByte onid :: u8 onid :: l). rewrite ru16_exact by done. cbn [mbind go_bind app].
  rewrite rd_bind_eq, ru8_exact. cbn [mbind go_bind]. rewrite rd_bind_eq, (whileR_exact mhsdtService mserviceBytes).
  2:{ eapply Forall_impl; [exact Hs|]. intros sv Hsv. split; [done|]. intros. by apply mhsdtService_exact. }
  done.
Qed.

(** *** MH-EIT *)

Definition meventBytes (ev : MHEITEvent) : bytes :=
  be16 (mev_EventID ev) ++ (encodeTime (mev_StartTime ev) ++ encodeDuration (mev_Duration ev))
  ++ be16 (statusFlags (mev_RunningStatus ev) (mev_FreeCAMode ev) (len (mloopBytes (mev_Descriptors ev))))
  ++ mloopBytes (mev_Descriptors ev).

Definition mevent_ok (ev : MHEITEvent) : Prop :=
  0 <= mev_EventID ev < 65536 /\ time_ok (mev_StartTime ev) /\ duration_ok (mev_Duration ev)
  /\ 0 <= mev_RunningStatus ev < 8 /\ mloop_ok (mev_Descriptors ev).

Lemma mmtParseMJDTime_encode t : time_ok t -> mmtParseMJDTime (encodeTime t) = Ret t.
Proof.
  intros Ht. destruct (encodeTime_ok t) as [Hb Hl]. rewrite mmtParseMJDTime_agrees; [by apply parseMJDTime_encode|done|done|].
  unfold encodeTime. destruct (Z.eqb_spec t zeroTime) as [->|Hne]; [by vm_compute|]. destruct Ht as [?|Ht]; [done|].
  cbv zeta. set (mjd := _ / 86400 + 40587). change (byteAt _ 0) with (hiByte mjd). change (byteAt _ 1) with (u8 mjd).
  rewrite field16; lia.
Qed.

Lemma mheitEvent_exact ev rest : mevent_ok ev ->
  mheitEvent (mkReader (meventBytes ev ++ rest) true) = Ret (Some ev, mkReader rest true).
Proof.
  intros (Hid & Ht & Hdur & Hr & Hd). destruct ev as [id start duration running ca ds].
  cbn [mev_EventID mev_StartTime mev_Duration mev_RunningStatus mev_FreeCAMode mev_Descriptors] in *.
  destruct (encodeTime_ok start) as [_ Lt]. destruct (encodeDuration_ok duration Hdur) as [_ Ld].
  unfold mheitEvent, meventBytes. cbn [mev_EventID mev_StartTime mev_Duration mev_RunningStatus mev_FreeCAMode mev_Descriptors].
  set (times := encodeTime start ++ encodeDuration duration). rewrite <- !app_assoc. rewrite rd_bind_eq.
  change (be16 id ++ ?l) with (hiByte id :: u8 id :: l). rewrite ru16_exact by done. cbn [mbind go_bind].
  assert (len times = 8) as L8 by (subst times; rewrite length_app; lia).
  rewrite rd_bind_eq, rbytes_exact by lia. cbn [mbind go_bind].
  assert (forall r, liftR (t ← sliceTo times 5; mmtParseMJDTime t) r = Ret (start, r)) as E1.
  { intros r. unfold liftR. rewrite slice_0 by lia. subst times. cbn [mbind go_bind].
    rewrite take_app_length' by lia. by rewrite mmtParseMJDTime_encode. }
  assert (forall r, liftR (d ← slice times 5 8; mmtParseBCDDuration d) r = Ret (duration, r)) as E2.
  { intros r. unfold liftR. rewrite (slice_const times 5 8 (encodeDuration duration)); [|lia..|].
    - cbn [mbind go_bind]. by rewrite mmtParseBCDDuration_agrees, parseBCDDuration_encode.
    - subst times. rewrite drop_app_length' by lia. apply take_ge. lia. }
  rewrite rd_bind_eq, E1. cbn [mbind go_bind]. rewrite rd_bind_eq, E2. cbn [mbind go_bind].
  rewrite (read_loop running ca ds rest (fun flags descriptors => Some (mkMHEvent id start duration (u8 (Z.shiftr flags 13)) (flag flags 0x1000) descriptors))) by done.
  destruct (statusFlags_read running ca (len (mloopBytes ds)) Hr) as (_ & _ & -> & ->); [destruct Hd as (_ & _ & ?); lia|]. done.
Qed.

Definition encodeMHEIT (t : MHEIT) : Section_ :=
  let h := meit_Header t in
  BuildSection (mh_TableID h) (mh_TableIDExtension h) (mh_VersionNumber h) (mh_SectionNumber h) (mh_LastSectionNumber h)
    (be16 (meit_TLVStreamID t) ++ be16 (meit_OriginalNetworkID t)
     ++ [meit_SegmentLastSectionNumber t; meit_LastTableID t] ++ concat (map meventBytes (meit_Events t))).

Definition mheit_ok (t : MHEIT) : Prop :=
  let h := meit_Header t in
  mheader_ok h /\ IsMHEITPF (mh_TableID h) || IsMHEITSchedule (mh_TableID h) = true
  /\ meit_ServiceID t = mh_TableIDExtension h /\ 0 <= meit_TLVStreamID t < 65536 /\ 0 <= meit_OriginalNetworkID t < 65536
  /\ byte_ok (meit_SegmentLastSectionNumber t) /\ byte_ok (meit_LastTableID t)
  /\ Forall mevent_ok (meit_Events t) /\ len (concat (map meventBytes (meit_Events t))) <= 4080.

Lemma mevent_bytes ev : mevent_ok ev -> bytes_ok (meventBytes ev).
Proof.
  intros (_ & _ & Hdur & _ & (_ & Hd & _)). unfold meventBytes, be16.
  destruct (encodeTime_ok (mev_StartTime ev)) as [? _]. destruct (encodeDuration_ok _ Hdur) as [? _]. auto 10 with bytes.
Qed.

Lemma ParseMHEIT_encode t : mheit_ok t -> ParseMHEIT (encodeMHEIT t) = Ret t.
Proof.
  intros (Hh & Hid & Hsid & Htlv & Ho & Hseg & Hlast & Hev & Hl). unfold ParseMHEIT, encodeMHEIT.
  set (body := be16 _ ++ _). set (h := meit_Header t) in *.
  assert (bytes_ok (concat (map meventBytes (meit_Events t)))) by (apply bytes_ok_entries; eapply Forall_impl; [exact Hev|apply mevent_bytes]).
  assert (bytes_ok body) as Hb by (subst body; unfold be16; auto 20 with bytes).
  assert (len body = 6 + len (concat (map meventBytes (meit_Events t)))) as Lb by (subst body; rewrite !length_app; cbn [length be16]; lia).
  set (s := BuildSection _ _ _ _ _ body).
  assert (TableID s = Ret (mh_TableID h)) as -> by done.
  assert (1 <= len s) as Hs by (unfold s, BuildSection, appendCRC; rewrite !length_app; cbn [length]; lia).
  rewrite (proj2 (Z.ltb_ge _ _)) by lia. cbn [goor mbind go_bind]. rewrite <- negb_orb, Hid. cbn [negb mbind go_bind].
  subst s. rewrite parseLongSection_header; [|done|done|lia|lia|by cbn; rewrite Z.eqb_refl]. cbn [mbind go_bind].
  unfold runR, newReader. subst body.
  rewrite rd_bind_eq. change (be16 (meit_TLVStreamID t) ++ ?l) with (hiByte (meit_TLVStreamID t) :: u8 (meit_TLVStreamID t) :: l).
  rewrite ru16_exact by done. cbn [mbind go_bind]. rewrite rd_bind_eq.
  change (be16 (meit_OriginalNetworkID t) ++ ?l) with (hiByte (meit_OriginalNetworkID t) :: u8 (meit_OriginalNetworkID t) :: l).
  rewrite ru16_exact by done. cbn [mbind go_bind app]. rewrite rd_bind_eq, ru8_exact. cbn [mbind go_bind].
  rewrite rd_bind_eq, ru8_exact. cbn [mbind go_bind]. rewrite rd_bind_eq, (whileR_exact mheitEvent meventBytes).
  2:{ eapply Forall_impl; [exact Hev|]. intros ev Hevok. split; [done|]. intros. by apply mheitEvent_exact. }
  cbn [mbind go_bind]. rewrite <- Hsid. by destruct t.
Qed.

(** ** Properties *)

(** MH-SDT and MH-EIT sections, laid out as the standard says and sealed
    with their checksum, are parsed back exactly: every service with its flags
    and every event with its start time, duration, status and descriptors, in
    order. *)
Theorem mh_tables_roundtrip h onid services eit : mheader_ok h ->
  mh_TableID h = TableIDMHSDTActual \/ mh_TableID h = TableIDMHSDTOther ->
  0 <= onid < 65536 -> Forall mservice_ok services -> len (concat (map mserviceBytes services)) <= 4083 ->
  mheit_ok eit ->
  ParseMHSDT (encodeMHSDT h onid services) = Ret (mkMHSDT h (mh_TableIDExtension h) onid services)
  /\ ParseMHEIT (encodeMHEIT eit) = Ret eit.
Proof. intros. split; [by apply ParseMHSDT_encode|by apply ParseMHEIT_encode]. Qed.

Lemma mh_tables_roundtrip_witness :
  let h := mkMHeader TableIDMHSDTActual 0xB110 3 true 0 0 in
  let sv := mkMHService 101 7 true true 4 false [mkMDescriptor 0x8019 [1; 2; 3]] in
  let eit := mkMHEIT (mkMHeader TableIDMHEITPF 101 1 true 0 1) 101 0xB110 11 1 0x8B
               [mkMHEvent 500 1700000000 1800000000000 4 true [mkMDescriptor 0xF001 [1; 2]]] in
  ParseMHSDT (encodeMHSDT h 11 [sv]) = Ret (mkMHSDT h (mh_TableIDExtension h) 11 [sv])
  /\ ParseMHEIT (encodeMHEIT eit) = Ret eit.
Proof.
  assert (forall d, mdescriptor_ok d -> bytes_ok (encodeMDescriptor d) -> len (encodeMDescriptor d) < 4096 -> mloop_ok [d]) as Hd.
  { intros d H1 H2 H3. unfold mloop_ok, mloopBytes. cbn [map concat]. rewrite app_nil_r. split; [by apply Forall_singleton|done]. }
  intros h sv eit. apply mh_tables_roundtrip.
  - split; [done|]. split; [simpl; lia|]. split; [simpl; lia|]. done.
  - by left.
  - lia.
  - apply Forall_singleton. split; [simpl; lia|]. split; [simpl; lia|]. split; [simpl; lia|].
    apply Hd; [split; [simpl; lia|vm_compute; reflexivity]|vm_compute; repeat constructor; discriminate|vm_compute; reflexivity].
  - vm_compute. discriminate.
  - unfold mheit_ok. cbv zeta. conjs; try (simpl; lia); try done.
    + apply Forall_singleton. unfold mevent_ok. conjs; try (simpl; lia); try done.
      * right. vm_compute. split; discriminate.
      * apply Hd; [split; [simpl; lia|vm_compute; reflexivity]|vm_compute; repeat constructor; discriminate|vm_compute; reflexivity].
Defined.
