(* ===== verification/MmtDescriptors.v ===== *)
(** * MMT-SI descriptors and logos (mmt/descriptor.go, logo.go, data_flow.go, tlvnit.go)

    One parser per descriptor, the joining of extended event descriptors and of
    the data modules of a logo.  Every parser returns or reports an error on
    every input - two of them loop until the reader is empty without asking
    whether it is still good - and extended events are joined in the order of
    their numbers, whatever the order they came in. *)

From S2P Require Import Prelude Crc Packet Section Psi Tables Calendar Eit Detect Tlv IpFlow Mmtp MmtSi MmtTables.

(** ** Descriptors (mmt/descriptor.go) *)

Definition DescriptorTagMHEventGroup : Z := 0x800C.
Definition DescriptorTagVideoComponent : Z := 0x8010.
Definition DescriptorTagMHStreamIdentifier : Z := 0x8011.
Definition DescriptorTagMHContent : Z := 0x8012.
Definition DescriptorTagMHParentalRating : Z := 0x8013.
Definition DescriptorTagMHAudioComponent : Z := 0x8014.
Definition DescriptorTagMHSeries : Z := 0x8016.
Definition DescriptorTagMHService : Z := 0x8019.
Definition DescriptorTagMHLogoTransmission : Z := 0x8025.
Definition DescriptorTagMHShortEvent : Z := 0xF001.
Definition DescriptorTagMHExtendedEvent : Z := 0xF002.
Definition DescriptorTagIPDataFlow : Z := 0x801A.

(** [if d.Tag != tag { return nil, ErrInvalidSection }; r := newReader(d.Data)] *)
Definition withTag {A} (d : MDescriptor) (tag : Z) (m : rd A) : go A :=
  if negb (md_Tag d =? tag) then Err ErrInvalidSection else runR m (md_Data d).

(** [string(r.bytes(int(r.u8())))] and the 16-bit variant. *)
Definition rstring8 : rd bytes := n ← ru8; rstring n.
Definition rstring16 : rd bytes := n ← ru16; rstring n.

Record MHServiceDescriptor := mkMHServiceDescriptor {
  msd_ServiceType : Z;
  msd_ServiceProviderName : bytes;
  msd_ServiceName : bytes
}.

Definition ParseMHServiceDescriptor (d : MDescriptor) : go MHServiceDescriptor :=
  withTag d DescriptorTagMHService (
    t ← ru8;
    provider ← rstring8;
    name ← rstring8;
    _ ← rerr;
    mret (mkMHServiceDescriptor t provider name)).

Record MHShortEventDescriptor := mkMHShortEvent {
  mse_Language : bytes;
  mse_EventName : bytes;
  mse_Text : bytes
}.

Definition ParseMHShortEventDescriptor (d : MDescriptor) : go MHShortEventDescriptor :=
  withTag d DescriptorTagMHShortEvent (
    language ← rstring 3;
    name ← rstring8;
    text ← rstring16;
    _ ← rerr;
    mret (mkMHShortEvent language name text)).

Record MHExtendedEventItem := mkMHItem {
  it_Description : bytes;
  it_Item : bytes
}.

Record MHExtendedEventDescriptor := mkMHExtendedEvent {
  mee_DescriptorNumber : Z;
  mee_LastDescriptorNumber : Z;
  mee_Language : bytes;
  mee_Items : list MHExtendedEventItem;
  mee_Text : bytes
}.

Definition extendedItem : rd (option MHExtendedEventItem) :=
  description ← rstring8;
  item ← rstring16;
  mret (Some (mkMHItem description item)).

(** The items have a reader of their own, whose error comes first. *)
Definition ParseMHExtendedEventDescriptor (d : MDescriptor) : go MHExtendedEventDescriptor :=
  withTag d DescriptorTagMHExtendedEvent (
    numbers ← ru8;
    language ← rstring 3;
    raw ← rstring16;
    '(items, itemReader) ← liftR (whileR extendedItem (newReader raw));
    text ← rstring16;
    if negb (r_ok itemReader) then liftR (Err ErrInvalidSection)
    else
      _ ← rerr;
      mret (mkMHExtendedEvent (Z.shiftr numbers 4) (Z.land numbers 0x0f) language items text)).

Record ExtendedEvent := mkExtendedEvent {
  ee_Language : bytes;
  ee_Items : list MHExtendedEventItem;
  ee_Text : bytes
}.

Definition sortDescriptors (l : list MHExtendedEventDescriptor) : list MHExtendedEventDescriptor := sortStable mee_DescriptorNumber l.

(** The body of the loop over the items: an item without a description
    continues the previous one. *)
Definition joinItem (items : list MHExtendedEventItem) (item : MHExtendedEventItem) : list MHExtendedEventItem :=
  match it_Description item, last items with
  | [], Some prev => removelast items ++ [mkMHItem (it_Description prev) (it_Item prev ++ it_Item item)]
  | _, _ => items ++ [item]
  end.

Definition JoinExtendedEvent (descriptors : list MHExtendedEventDescriptor) : ExtendedEvent :=
  let sorted := sortDescriptors descriptors in
  mkExtendedEvent
    (match sorted with d :: _ => mee_Language d | [] => [] end)
    (foldl (fun items d => foldl joinItem items (mee_Items d)) [] sorted)
    (foldl (fun text d => text ++ mee_Text d) [] sorted).

Record ContentGenre := mkGenre {
  cg_Level1 : Z;
  cg_Level2 : Z;
  cg_User1 : Z;
  cg_User2 : Z
}.

(** [for b := data; len(b) > 0; b = b[k:] { out = append(out, f(b)) }] *)
Definition strideTurn {A} (k : Z) (f : bytes -> go A) (st : bytes * list A) : go (iteration (bytes * list A) (list A)) :=
  let '(b, out) := st in
  if 0 <? len b then
    x ← f b;
    b ← sliceFrom b k;
    Ret (Continue (b, out ++ [x]))
  else Ret (Break out).
Definition everyStride {A} (k : Z) (f : bytes -> go A) (data : bytes) : go (list A) :=
  loop (S (length data)) (strideTurn k f) (data, []).

Definition contentGenre (b : bytes) : go ContentGenre :=
  b0 ← idx b 0;
  b1 ← idx b 1;
  Ret (mkGenre (Z.shiftr b0 4) (Z.land b0 0x0f) (Z.shiftr b1 4) (Z.land b1 0x0f)).

Definition ParseMHContentDescriptor (d : MDescriptor) : go (list ContentGenre) :=
  if negb (md_Tag d =? DescriptorTagMHContent) || negb (len (md_Data d) mod 2 =? 0) then Err ErrInvalidSection
  else everyStride 2 contentGenre (md_Data d).

Record VideoComponentDescriptor := mkVideoComponent {
  vc_Resolution : Z;
  vc_AspectRatio : Z;
  vc_Progressive : bool;
  vc_FrameRate : Z;
  vc_ComponentTag : Z;
  vc_TransferCharacteristics : Z;
  vc_Language : bytes;
  vc_Text : bytes
}.

Definition ParseVideoComponentDescriptor (d : MDescriptor) : go VideoComponentDescriptor :=
  withTag d DescriptorTagVideoComponent (
    format ← ru8;
    scan ← ru8;
    tag ← ru16;
    transfer ← ru8;
    language ← rstring 3;
    text ← rrest;
    _ ← rerr;
    mret (mkVideoComponent (Z.shiftr format 4) (Z.land format 0x0f) (flag scan 0x80) (Z.land scan 0x1f) tag
            (Z.shiftr transfer 4) language text)).

Record MHAudioComponentDescriptor := mkAudioComponent {
  ac_StreamContent : Z;
  ac_ComponentType : Z;
  ac_ComponentTag : Z;
  ac_StreamType : Z;
  ac_SimulcastGroupTag : Z;
  ac_ESMultiLingual : bool;
  ac_MainComponent : bool;
  ac_QualityIndicator : Z;
  ac_SamplingRate : Z;
  ac_Language : bytes;
  ac_Language2 : bytes;
  ac_Text : bytes
}.

Definition ParseMHAudioComponentDescriptor (d : MDescriptor) : go MHAudioComponentDescriptor :=
  withTag d DescriptorTagMHAudioComponent (
    content ← ru8;
    ctype ← ru8;
    tag ← ru16;
    stype ← ru8;
    group ← ru8;
    flags ← ru8;
    language ← rstring 3;
    language2 ← (if flag flags 0x80 then rstring 3 else mret []);
    text ← rrest;
    _ ← rerr;
    mret (mkAudioComponent (Z.land content 0x0f) ctype tag stype group (flag flags 0x80) (flag flags 0x40)
            (Z.land (Z.shiftr flags 4) 0x03) (Z.land (Z.shiftr flags 1) 0x07) language language2 text)).

Definition SamplingRateHz (d : MHAudioComponentDescriptor) : go Z :=
  idx [0; 16000; 22050; 24000; 0; 32000; 44100; 48000] (ac_SamplingRate d).

Record GroupEvent := mkGroupEvent {
  ge_OriginalNetworkID : Z;
  ge_TLVStreamID : Z;
  ge_ServiceID : Z;
  ge_EventID : Z
}.

Record MHEventGroupDescriptor := mkEventGroup {
  eg_GroupType : Z;
  eg_Events : list GroupEvent;
  eg_OtherNetworkEvents : list GroupEvent;
  eg_PrivateData : bytes
}.

(** [for len(r.b) > 0 { ... }], whether or not the reader is still good. *)
Definition untilTurn {A} (entry : rd A) (st : list A * reader) : go (iteration (list A * reader) (list A * reader)) :=
  let '(acc, r) := st in
  if 0 <? len (r_b r) then '(x, r) ← entry r; Ret (Continue (acc ++ [x], r))
  else Ret (Break (acc, r)).
Definition untilEmptyR {A} (entry : rd A) : rd (list A) := fun r =>
  loop (S (length (r_b r))) (untilTurn entry) ([], r).

Definition groupEvent : rd GroupEvent := sid ← ru16; eid ← ru16; mret (mkGroupEvent 0 0 sid eid).
Definition otherEvent : rd GroupEvent :=
  onid ← ru16; tsid ← ru16; sid ← ru16; eid ← ru16; mret (mkGroupEvent onid tsid sid eid).

Definition ParseMHEventGroupDescriptor (d : MDescriptor) : go MHEventGroupDescriptor :=
  withTag d DescriptorTagMHEventGroup (
    head ← ru8;
    events ← timesR (Z.to_nat (Z.land head 0x0f)) groupEvent;
    let t := Z.shiftr head 4 in
    if (t =? 4) || (t =? 5) then
      rest ← rrest;
      if negb (len rest mod 8 =? 0) then liftR (Err ErrInvalidSection)
      else
        others ← untilEmptyR otherEvent;
        _ ← rerr;
        mret (mkEventGroup t events others [])
    else
      private ← rrest;
      _ ← rerr;
      mret (mkEventGroup t events [] private)).

Record MHSeriesDescriptor := mkMHSeries {
  ms_SeriesID : Z;
  ms_RepeatLabel : Z;
  ms_ProgramPattern : Z;
  ms_ExpireDateValid : bool;
  ms_ExpireDate : Z;
  ms_EpisodeNumber : Z;
  ms_LastEpisodeNumber : Z;
  ms_SeriesName : bytes
}.

Definition ParseMHSeriesDescriptor (d : MDescriptor) : go MHSeriesDescriptor :=
  withTag d DescriptorTagMHSeries (
    id ← ru16;
    flags ← ru8;
    expire ← ru16;
    episodes ← rbytes 3;
    '(episode, lastEpisode) ←
      (match episodes with
       | Some e =>
           liftR (e0 ← idx e 0; e1 ← idx e 1; e2 ← idx e 2;
                  Ret (Z.lor (Z.shiftl e0 4) (Z.shiftr e1 4), Z.lor (Z.shiftl (Z.land e1 0x0f) 8) e2))
       | None => mret (0, 0)
       end);
    name ← rrest;
    _ ← rerr;
    mret (mkMHSeries id (Z.shiftr flags 4) (Z.land (Z.shiftr flags 1) 0x07) (flag flags 0x01) expire episode lastEpisode name)).

Definition ParseMHStreamIdentifierDescriptor (d : MDescriptor) : go Z :=
  if negb (md_Tag d =? DescriptorTagMHStreamIdentifier) || (len (md_Data d) <? 2) then Err ErrInvalidSection
  else read16 (md_Data d) 0.

Record MHParentalRating := mkMHRating {
  pr_CountryCode : bytes;
  pr_Rating : Z
}.

Definition parentalRating (b : bytes) : go MHParentalRating :=
  country ← sliceTo b 3;
  rating ← idx b 3;
  Ret (mkMHRating country rating).

Definition ParseMHParentalRatingDescriptor (d : MDescriptor) : go (list MHParentalRating) :=
  if negb (md_Tag d =? DescriptorTagMHParentalRating) || negb (len (md_Data d) mod 4 =? 0) then Err ErrInvalidSection
  else everyStride 4 parentalRating (md_Data d).

(** ** Flow labels (mmt/data_flow.go) *)

Record IPDataFlowEntry := mkFlowEntry {
  fe_ID : Z;
  fe_Flow : IPDataFlow;
  fe_SourcePort : Z
}.

(** [netip.AddrFromSlice]; [None] is [ok == false]. *)
Definition AddrFromSlice (b : option bytes) : option Addr :=
  match b with
  | Some b => if len b =? 4 then Some (AddrFrom4 b) else if len b =? 16 then Some (AddrFrom16 b) else None
  | None => None
  end.

Definition flowEntry (size : Z) : rd IPDataFlowEntry :=
  id ← ru8;
  src ← rbytes size;
  dst ← rbytes size;
  sourcePort ← ru16;
  destinationPort ← ru16;
  match AddrFromSlice src, AddrFromSlice dst with
  | Some src, Some dst => mret (mkFlowEntry id (mkFlow src dst destinationPort) sourcePort)
  | _, _ => liftR (Err ErrInvalidSection)
  end.

Definition ParseIPDataFlowDescriptor (d : MDescriptor) : go (list IPDataFlowEntry) :=
  withTag d DescriptorTagIPDataFlow (
    flags ← ru8;
    let size := if flag flags 0x80 then 16 else 4 in
    entries ← timesR (Z.to_nat (Z.land flags 0x7f)) (flowEntry size);
    _ ← rerr;
    rest ← rrest;
    if negb (len rest =? 0) then liftR (Err ErrInvalidSection) else mret entries).

(** ** TLV-SI descriptors (mmt/tlvnit.go) *)

Definition TLVDescriptorTagServiceList : Z := 0x41.
Definition TLVDescriptorTagRemoteControlKey : Z := 0xCD.

Definition serviceListEntry (b : bytes) : go (Z * Z) := sid ← read16 b 0; t ← idx b 2; Ret (sid, t).

Definition ParseServiceListDescriptor (d : TLVDescriptor) : go (list (Z * Z)) :=
  if negb (td_Tag d =? TLVDescriptorTagServiceList) || negb (len (td_Data d) mod 3 =? 0) then Err ErrInvalidSection
  else everyStride 3 serviceListEntry (td_Data d).

Definition remoteControlKey (b : bytes) : go (Z * Z) := key ← idx b 0; sid ← read16 b 1; Ret (key, sid).

Definition ParseRemoteControlKeyDescriptor (d : TLVDescriptor) : go (list (Z * Z)) :=
  bad ← Ret (negb (td_Tag d =? TLVDescriptorTagRemoteControlKey)) ||! Ret (len (td_Data d) <? 1)
        ||! (n ← idx (td_Data d) 0; Ret (negb (len (td_Data d) =? 1 + n * 5)));
  if (bad : bool) then Err ErrInvalidSection
  else b ← sliceFrom (td_Data d) 1; everyStride 5 remoteControlKey b.

(** ** Logos (mmt/logo.go) *)

Definition LogoTransmissionTypeCDT1 : Z := 0x01.
Definition LogoTransmissionTypeCDT2 : Z := 0x02.
Definition LogoTransmissionTypeSimple : Z := 0x03.

Record LogoTypeSections := mkLogoSections {
  lt_LogoType : Z;
  lt_StartSectionNumber : Z;
  lt_NumOfSections : Z
}.

Record MHLogoTransmissionDescriptor := mkLogoTransmission {
  mlo_TransmissionType : Z;
  mlo_LogoID : Z;
  mlo_LogoVersion : Z;
  mlo_DownloadDataID : Z;
  mlo_LogoTypes : list LogoTypeSections;
  mlo_SimpleLogo : bytes
}.

Definition logoSections : rd LogoTypeSections := t ← ru8; start ← ru8; n ← ru8; mret (mkLogoSections t start n).

Definition ParseMHLogoTransmissionDescriptor (d : MDescriptor) : go MHLogoTransmissionDescriptor :=
  withTag d DescriptorTagMHLogoTransmission (
    t ← ru8;
    out ←
      (if t =? LogoTransmissionTypeCDT1 then
         id ← ru16;
         version ← ru16;
         dataID ← ru16;
         rest ← rrest;
         if negb (len rest mod 3 =? 0) then liftR (Err ErrInvalidSection)
         else
           types ← untilEmptyR logoSections;
           mret (mkLogoTransmission t (Z.land id 0x01ff) (Z.land version 0x0fff) dataID types [])
       else if t =? LogoTransmissionTypeCDT2 then
         id ← ru16;
         mret (mkLogoTransmission t (Z.land id 0x01ff) 0 0 [] [])
       else if t =? LogoTransmissionTypeSimple then
         rest ← rrest;
         mret (mkLogoTransmission t 0 0 0 [] rest)
       else mret (mkLogoTransmission t 0 0 0 [] []));
    _ ← rerr;
    mret out).

Record MHCDT := mkMHCDT {
  mcdt_Header : MHeader;
  mcdt_DownloadDataID : Z;
  mcdt_OriginalNetworkID : Z;
  mcdt_DataType : Z;
  mcdt_Descriptors : list MDescriptor;
  mcdt_DataModule : bytes
}.

Definition ParseMHCDT (s : Section_) : go MHCDT :=
  '(header, body) ← parseLongSection s 5 [TableIDMHCDT];
  runR (
    onid ← ru16;
    dataType ← ru8;
    n ← ru16;
    raw ← rstring (Z.land n 0x0fff);
    descriptors ← liftR (parseMDescriptors raw);
    module ← rrest;
    _ ← rerr;
    mret (mkMHCDT header (mh_TableIDExtension header) onid dataType descriptors module)) body.

Record LogoData := mkLogoData {
  ld_LogoType : Z;
  ld_LogoID : Z;
  ld_LogoVersion : Z;
  ld_Data : bytes
}.

(** A part of a logo with its data. *)
Definition logoPart : rd LogoData :=
  t ← ru8;
  id ← ru16;
  version ← ru16;
  n ← ru16;
  data ← rstring n;
  _ ← rerr;
  mret (mkLogoData t (Z.land id 0x01ff) (Z.land version 0x0fff) data).

Fixpoint joinModules (out : option LogoData) (modules : list bytes) : go (option LogoData) :=
  match modules with
  | [] => Ret out
  | module :: modules =>
      part ← runR logoPart module;
      match out with
      | None => joinModules (Some part) modules
      | Some o =>
          if negb (ld_LogoType part =? ld_LogoType o) || negb (ld_LogoID part =? ld_LogoID o)
             || negb (ld_LogoVersion part =? ld_LogoVersion o)
          then Err ErrInvalidSection
          else joinModules (Some (mkLogoData (ld_LogoType o) (ld_LogoID o) (ld_LogoVersion o) (ld_Data o ++ ld_Data part))) modules
      end
  end.

Definition JoinLogoData (modules : list bytes) : go (option LogoData) :=
  if len modules =? 0 then Err ErrInvalidSection else joinModules None modules.

(** ** Every input *)

Lemma took_good r r' n : took r r' n -> r_ok r = true -> n <= len (r_b r) -> r_ok r' = true /\ len (r_b r') + n = len (r_b r).
Proof.
  intros (_ & _ & Hok & Hbad) Hr Hn. destruct (r_ok r') eqn:E; [split; [done|]; by apply Hok|].
  destruct (Hbad eq_refl) as [_ [?|?]]; [congruence|lia].
Qed.

(** A reader of bytes and pairs of bytes that went bad has at most one byte
    left, so a loop over triples or groups of eight does not hang on it. *)
Definition goodOrShort (r : reader) : Prop := r_ok r = true \/ len (r_b r) < 2.

Lemma took_short r r' n : n <= 2 -> took r r' n -> goodOrShort r -> goodOrShort r'.
Proof.
  intros Hn (_ & _ & _ & Hbad) Hr. unfold goodOrShort. destruct (r_ok r'); [by left|]. right.
  destruct (Hbad eq_refl) as [-> [?|?]]; [|lia]. destruct Hr; [congruence|done].
Qed.

Lemma rwp_until {A} (k : Z) (entry : rd A) : 0 < k ->
  (forall r, bytes_ok (r_b r) -> r_ok r = true -> k <= len (r_b r) ->
     rwp entry r (fun _ r' => bytes_ok (r_b r') /\ r_ok r' = true /\ len (r_b r') + k = len (r_b r))) ->
  forall r (Q : list A -> reader -> Prop), bytes_ok (r_b r) -> goodOrShort r -> 2 <= k -> len (r_b r) mod k = 0 ->
  (forall xs r', onward r r' -> Q xs r') -> rwp (untilEmptyR entry) r Q.
Proof.
  intros Hk He r Q Hr Hg H2 Hm HQ. unfold rwp, untilEmptyR.
  assert (r_ok r = true \/ len (r_b r) = 0) as Hg'.
  { destruct Hg as [?|Hs]; [by left|right]. destruct (Z.eq_dec (len (r_b r)) 1) as [E|]; [|lia].
    rewrite E, Z.mod_small in Hm by lia. done. }
  apply (wp_loop (fun '(_, r') => onward r r' /\ (r_ok r' = true \/ len (r_b r') = 0) /\ len (r_b r') mod k = 0)
    (fun '(_, r') => len (r_b r'))); [|conjs; try done|lia|lia].
  intros [acc r1] (H1 & Hg1 & Hm1). unfold untilTurn. apply wp_if; intros Hl; bools; [|by apply HQ].
  destruct Hg1 as [Hok|?]; [|lia]. destruct H1 as (Hb1 & Hl1 & Hok1).
  assert (k <= len (r_b r1)).
  { destruct (Z.lt_ge_cases (len (r_b r1)) k) as [Hlt|]; [|done]. rewrite Z.mod_small in Hm1 by lia. lia. }
  apply wp_bind. eapply wp_mono; [by apply (He r1)|]. intros [x r2] (Hb2 & Hok2 & Hl2). cbn [wp].
  conjs; [|by left| |lia|lia].
  - split; [done|]. split; [lia|]. auto.
  - rewrite <- Hl2 in Hm1. rewrite <- (Z.mul_1_l k) in Hm1 at 1. by rewrite Z_mod_plus_full in Hm1.
Qed.

Lemma rwp_times_inv {A} (I : reader -> Prop) n (entry : rd A) :
  (forall r, bytes_ok (r_b r) -> I r -> rwp entry r (fun _ r' => onward r r' /\ I r')) ->
  forall r (Q : list A -> reader -> Prop), bytes_ok (r_b r) -> I r ->
  (forall xs r', onward r r' -> I r' -> Q xs r') -> rwp (timesR n entry) r Q.
Proof.
  intros He. induction n as [|n IH]; intros r Q Hr HI HQ; cbn [timesR].
  { apply rwp_ret, HQ; [by split|done]. }
  apply rwp_bind. eapply rwp_mono; [by apply He|]. intros x r1 [(Hb1 & Hl1 & Hok1) HI1].
  apply rwp_bind, IH; [done..|]. intros xs r2 (Hb2 & Hl2 & Hok2) HI2. apply rwp_ret, HQ; [|done].
  split; [done|]. split; [lia|]. auto.
Qed.

Lemma groupEvent_ok r : bytes_ok (r_b r) -> goodOrShort r -> rwp groupEvent r (fun _ r' => onward r r' /\ goodOrShort r').
Proof.
  intros Hr Hg. unfold groupEvent. rd_run. split; [onward_done|].
  eapply took_short; [|eassumption|]; [lia|]. by eapply took_short; [|eassumption|]; [lia|].
Qed.

Lemma otherEvent_exact r : bytes_ok (r_b r) -> r_ok r = true -> 8 <= len (r_b r) ->
  rwp otherEvent r (fun _ r' => bytes_ok (r_b r') /\ r_ok r' = true /\ len (r_b r') + 8 = len (r_b r)).
Proof.
  intros Hr Hok Hl. unfold otherEvent. rd_run.
  repeat match goal with H : took ?r ?r' ?n, K : r_ok ?r = true |- _ =>
    destruct (took_good r r' n H K ltac:(lia)); destruct H as (? & _) end. conjs; [done|done|lia].
Qed.

Lemma logoSections_exact r : bytes_ok (r_b r) -> r_ok r = true -> 3 <= len (r_b r) ->
  rwp logoSections r (fun _ r' => bytes_ok (r_b r') /\ r_ok r' = true /\ len (r_b r') + 3 = len (r_b r)).
Proof.
  intros Hr Hok Hl. unfold logoSections. rd_run.
  repeat match goal with H : took ?r ?r' ?n, K : r_ok ?r = true |- _ =>
    destruct (took_good r r' n H K ltac:(lia)); destruct H as (? & _) end. conjs; [done|done|lia].
Qed.

Lemma withTag_safe {A} d tag (m : rd A) : rwp m (newReader (md_Data d)) (fun _ _ => True) -> safe (withTag d tag m).
Proof. intros H. unfold withTag, safe. apply wp_if; intros ?; [done|]. by apply wp_runR. Qed.

Lemma everyStride_safe {A} k (f : bytes -> go A) data : bytes_ok data -> 0 < k -> len data mod k = 0 ->
  (forall b, bytes_ok b -> k <= len b -> safe (f b)) -> safe (everyStride k f data).
Proof.
  intros Hd Hk Hm Hf. unfold everyStride, safe.
  apply (wp_loop (fun '(b, _) => bytes_ok b /\ len b mod k = 0) (fun '(b, _) => len b)); [|done|lia|lia].
  intros [b out] [Hb Hmb]. unfold strideTurn. apply wp_if; intros Hl; bools; [|done].
  assert (k <= len b).
  { destruct (Z.lt_ge_cases (len b) k) as [Hlt|]; [|done]. rewrite Z.mod_small in Hmb by lia. lia. }
  apply wp_bind. eapply wp_mono; [by apply Hf|]. intros x _. rewrite slice_from by lia. cbn [mbind go_bind wp].
  rewrite length_drop. conjs; [auto with bytes| |lia|lia].
  rewrite Nat2Z.inj_sub, Z2Nat.id by lia. rewrite <- (Z_mod_plus_full _ 1 k). by replace (len b - k + 1 * k) with (len b) by lia.
Qed.

Lemma extendedItem_ok : entry_ok extendedItem.
Proof.
  intros r Hr Hok Hl. unfold extendedItem, rstring8, rstring16. rd_run. onward_done.
Qed.

Section DescriptorSafety.
Context (d : MDescriptor) (Hd : bytes_ok (md_Data d)).

Lemma simple_descriptors_safe :
  safe (ParseMHServiceDescriptor d) /\ safe (ParseMHShortEventDescriptor d) /\ safe (ParseVideoComponentDescriptor d)
  /\ safe (ParseMHAudioComponentDescriptor d).
Proof.
  conjs; apply withTag_safe; unfold rstring8, rstring16; rd_run; done.
Qed.

Lemma ParseMHExtendedEventDescriptor_safe : safe (ParseMHExtendedEventDescriptor d).
Proof.
  apply withTag_safe. unfold rstring8, rstring16. rd_run. apply rwp_lift.
  eapply wp_mono; [by apply (rwp_while extendedItem (newReader v0) (fun _ _ => True)); [|apply extendedItem_ok|]|].
  intros [items itemReader] _. cbv beta iota. rd_run; done.
Qed.

Lemma ParseMHEventGroupDescriptor_safe : safe (ParseMHEventGroupDescriptor d).
Proof.
  apply withTag_safe. rd_run. apply (rwp_times_inv goodOrShort); [apply groupEvent_ok|unpack; assumption| |].
  { eapply took_short; [|eassumption|by left]. lia. }
  intros events r1 Hr1 Hg. cbv beta. rd_run; [|done]. apply (rwp_until 8); [lia|apply otherEvent_exact|unpack; assumption|done|lia| |].
  - bools. assumption.
  - intros others r2 _. cbv beta. rd_run. done.
Qed.

Lemma ParseMHSeriesDescriptor_safe : safe (ParseMHSeriesDescriptor d).
Proof.
  apply withTag_safe. rd_run. destruct v as [e|]; [|rd_run; done]. destruct (H6 e eq_refl) as [He Le].
  apply rwp_lift. go_run. rd_run. done.
Qed.

Lemma strided_descriptors_safe :
  safe (ParseMHContentDescriptor d) /\ safe (ParseMHParentalRatingDescriptor d) /\ safe (ParseMHStreamIdentifierDescriptor d).
Proof.
  unfold ParseMHContentDescriptor, ParseMHParentalRatingDescriptor, ParseMHStreamIdentifierDescriptor. conjs.
  - destruct (negb _ || _) eqn:E; [done|]. bools. apply everyStride_safe; [done|lia|done|].
    intros b Hb Hl. unfold contentGenre, safe. go_run. done.
  - destruct (negb _ || _) eqn:E; [done|]. bools. apply everyStride_safe; [done|lia|done|].
    intros b Hb Hl. unfold parentalRating, safe. go_run. done.
  - destruct (negb _ || _) eqn:E; [done|]. bools. unfold safe. go_run. done.
Qed.

Lemma flowEntry_ok size r : 0 <= size -> bytes_ok (r_b r) -> rwp (flowEntry size) r (fun _ r' => onward r r').
Proof.
  intros Hs Hr. unfold flowEntry. rd_run. destruct (AddrFromSlice v); [|rd_run]. destruct (AddrFromSlice v0); rd_run. onward_done.
Qed.

Lemma ParseIPDataFlowDescriptor_safe : safe (ParseIPDataFlowDescriptor d).
Proof.
  apply withTag_safe. rd_run. apply rwp_times; [|unpack; assumption|].
  - intros r Hr. apply flowEntry_ok; [by case_match|done].
  - intros entries r _. cbv beta. rd_run; done.
Qed.

Lemma ParseMHLogoTransmissionDescriptor_safe : safe (ParseMHLogoTransmissionDescriptor d).
Proof.
  apply withTag_safe. rd_run; try done.
  apply (rwp_until 3); [lia|apply logoSections_exact|unpack; assumption| |lia| |].
  - repeat (eapply took_short; [|eassumption|]; [lia|]). by left.
  - bools. assumption.
  - intros types r2 _. cbv beta. rd_run. done.
Qed.
End DescriptorSafety.

Lemma tlv_descriptors_safe d : bytes_ok (td_Data d) ->
  safe (ParseServiceListDescriptor d) /\ safe (ParseRemoteControlKeyDescriptor d).
Proof.
  intros Hd. split.
  - unfold ParseServiceListDescriptor. destruct (negb _ || _) eqn:E; [done|]. bools. apply everyStride_safe; [done|lia|done|].
    intros b Hb Hl. unfold serviceListEntry, safe. go_run. done.
  - unfold ParseRemoteControlKeyDescriptor, safe. destruct (negb (td_Tag d =? _)); [done|].
    destruct (Z.ltb_spec (len (td_Data d)) 1); [done|]. rewrite idx_byteAt by lia. cbn [goor mbind go_bind].
    destruct (Z.eqb_spec (len (td_Data d)) (1 + byteAt (td_Data d) 0 * 5)) as [E|]; cbn [negb mbind go_bind]; [|done].
    rewrite slice_from by lia. cbn [mbind go_bind]. apply everyStride_safe; [auto with bytes|lia| |].
    + rewrite length_drop. replace (Z.of_nat (length (td_Data d) - Z.to_nat 1)) with (byteAt (td_Data d) 0 * 5) by lia. by apply Z_mod_mult.
    + intros b Hb Hl. unfold remoteControlKey, safe. go_run. done.
Qed.

Lemma ParseMHCDT_safe s : bytes_ok s -> safe (ParseMHCDT s).
Proof.
  intros Hs. unfold ParseMHCDT, safe. apply wp_bind. eapply wp_mono; [by apply parseLongSection_ok|]. intros [h body] [Hb _].
  apply wp_runR. rd_run. done.
Qed.

Lemma JoinLogoData_safe modules : Forall bytes_ok modules -> safe (JoinLogoData modules).
Proof.
  intros Hm. unfold JoinLogoData, safe. apply wp_if; intros _; [done|].
  enough (forall out, safe (joinModules out modules)) as H by apply H.
  induction Hm as [|m modules Hb _ IH]; intros out; cbn [joinModules]; [done|].
  unfold safe. apply wp_bind. apply (wp_mono _ (fun _ => True)); [apply wp_runR; unfold logoPart; rd_run; done|]. intros part _.
  destruct out as [o|]; [|apply IH]. case_match; [done|apply IH].
Qed.

(** ** Joining *)

(** The data module of a section with a part of a logo. *)
Definition logoModule (t id version : Z) (part : bytes) : bytes :=
  [t] ++ be16 id ++ be16 version ++ be16 (len part) ++ part.

Lemma logoPart_exact t id version part : 0 <= id < 512 -> 0 <= version < 4096 -> len part < 65536 ->
  runR logoPart (logoModule t id version part) = Ret (mkLogoData t id version part).
Proof.
  intros Hid Hv Hp. unfold runR, logoPart, logoModule, newReader. cbn [app].
  rewrite rd_bind_eq, ru8_exact. cbn [mbind go_bind]. rewrite rd_bind_eq.
  change (be16 id ++ ?l) with (hiByte id :: u8 id :: l). rewrite ru16_exact by lia. cbn [mbind go_bind]. rewrite rd_bind_eq.
  change (be16 version ++ ?l) with (hiByte version :: u8 version :: l). rewrite ru16_exact by lia. cbn [mbind go_bind]. rewrite rd_bind_eq.
  change (be16 (len part) ++ ?l) with (hiByte (len part) :: u8 (len part) :: l). rewrite ru16_exact by lia. cbn [mbind go_bind].
  rewrite rd_bind_eq. rewrite <- (app_nil_r part) at 2. rewrite rstring_exact by done. cbn [mbind go_bind]. rewrite rd_bind_eq.
  cbn [rerr r_ok negb mbind go_bind mret rd_ret].
  change 0x01ff with (Z.ones 9). change 0x0fff with (Z.ones 12). rewrite !Z.land_ones, !Z.mod_small by lia. done.
Qed.

Lemma joinModules_exact t id version parts : 0 <= id < 512 -> 0 <= version < 4096 -> Forall (fun p => len p < 65536) parts ->
  forall data, joinModules (Some (mkLogoData t id version data)) (map (logoModule t id version) parts)
    = Ret (Some (mkLogoData t id version (data ++ concat parts))).
Proof.
  intros Hid Hv. induction 1 as [|p parts Hp _ IH]; intros data; cbn [map joinModules concat]; [by rewrite app_nil_r|].
  rewrite logoPart_exact by done. cbn [mbind go_bind ld_LogoType ld_LogoID ld_LogoVersion ld_Data].
  rewrite !Z.eqb_refl. cbn [negb orb]. by rewrite IH, <- app_assoc.
Qed.

(** ** Properties *)

(** What was split for transmission is put together again: extended event
    descriptors with distinct numbers give the same joined event in whatever
    order they are received, and the data modules of the sections of a logo
    give exactly the logo whose parts they carry. *)
Theorem split_content_is_rejoined ds ds' t id version part parts : ds ≡ₚ ds' -> NoDup (map mee_DescriptorNumber ds) ->
  0 <= id < 512 -> 0 <= version < 4096 -> Forall (fun p => len p < 65536) (part :: parts) ->
  JoinExtendedEvent ds = JoinExtendedEvent ds'
  /\ JoinLogoData (map (logoModule t id version) (part :: parts))
     = Ret (Some (mkLogoData t id version (concat (part :: parts)))).
Proof.
  intros Hp Hnd Hid Hv Hparts. split.
  - unfold JoinExtendedEvent, sortDescriptors. by rewrite (sortStable_unique mee_DescriptorNumber ds ds').
  - apply Forall_cons in Hparts as [Hpart Hparts]. unfold JoinLogoData. cbn [map length]. rewrite (proj2 (Z.eqb_neq _ 0)) by lia.
    cbn [joinModules]. rewrite logoPart_exact by done. cbn [mbind go_bind]. by rewrite joinModules_exact.
Qed.

Lemma split_content_is_rejoined_witness :
  let a := mkMHExtendedEvent 0 1 [0x6a] [mkMHItem [1] [2; 3]] [4] in
  let b := mkMHExtendedEvent 1 1 [0x6a] [mkMHItem [] [5]] [6] in
  JoinExtendedEvent [b; a] = JoinExtendedEvent [a; b]
  /\ JoinLogoData (map (logoModule 5 7 9) [[1; 2]; [3]]) = Ret (Some (mkLogoData 5 7 9 (concat [[1; 2]; [3]]))).
Proof.
  intros a b. apply split_content_is_rejoined; [apply Permutation_swap| |lia|lia|].
  - apply NoDup_cons_2; [|apply NoDup_singleton]. intros H%list_elem_of_singleton. discriminate.
  - repeat apply Forall_cons_2; [simpl; lia|simpl; lia|apply Forall_nil_2].
Defined.

Example split_item_is_joined :
  JoinExtendedEvent [mkMHExtendedEvent 1 1 [0x6a] [mkMHItem [] [5]] [6]; mkMHExtendedEvent 0 1 [0x6a] [mkMHItem [1] [2; 3]] [4]]
  = mkExtendedEvent [0x6a] [mkMHItem [1] [2; 3; 5]] [4; 6].
Proof. reflexivity. Qed.
