(* ===== verification/TlvTransport.v ===== *)
(** * The TLV transport (internal/stream/tlv/transport.go)

    What the fan-out engine needs of ISDB-S3: completing signaling, picking one
    service out of the stream by the assets the MPTs list, and detecting lost
    packets.  [tlvTransportOps] is the second instance of [Fanout.Transport],
    [tlvLaws] proves that it keeps what the engine relies on. *)

From S2P Require Import Prelude Crc Packet Section Psi Tables Calendar Eit PacketQueue Fanout Detect Tlv IpFlow Mmtp MmtSi MmtTables.

Definition ntpPort : Z := 123.

(** ** State *)

Record signal := mkSignal {
  sg_TLVSI : bool;
  sg_Section : bytes;
  sg_Table : bytes;
  sg_Key : PacketKey
}.

Definition noKey : PacketKey := mkKey noFlow 0.

Record packetInfo := mkPacketInfo {
  pi_media : bool;
  pi_key : PacketKey
}.

Record tlvTransport := mkTlvTransport {
  t_flows : FlowTracker;
  t_assembler : MessageAssembler;
  t_current : packetInfo;
  t_pltSeen : bool;
  t_pltServices : gset Z;
  t_mpts : gmap Z (gset PacketKey);
  t_owners : gmap PacketKey (gset Z)
}.

Definition newTransport : tlvTransport :=
  mkTlvTransport ∅ ∅ (mkPacketInfo false noKey) false ∅ ∅ ∅.

Definition setFlows (t : tlvTransport) (flows : FlowTracker) : tlvTransport :=
  mkTlvTransport flows (t_assembler t) (t_current t) (t_pltSeen t) (t_pltServices t) (t_mpts t) (t_owners t).
Definition setAssembler (t : tlvTransport) (a : MessageAssembler) : tlvTransport :=
  mkTlvTransport (t_flows t) a (t_current t) (t_pltSeen t) (t_pltServices t) (t_mpts t) (t_owners t).
Definition setCurrent (t : tlvTransport) (media : bool) (key : PacketKey) : tlvTransport :=
  mkTlvTransport (t_flows t) (t_assembler t) (mkPacketInfo media key) (t_pltSeen t) (t_pltServices t) (t_mpts t) (t_owners t).
Definition setServices (t : tlvTransport) (services : gset Z) : tlvTransport :=
  mkTlvTransport (t_flows t) (t_assembler t) (t_current t) true services (t_mpts t) (t_owners t).
Definition setAssets (t : tlvTransport) (mpts : gmap Z (gset PacketKey)) (owners : gmap PacketKey (gset Z)) : tlvTransport :=
  mkTlvTransport (t_flows t) (t_assembler t) (t_current t) (t_pltSeen t) (t_pltServices t) mpts owners.

(** ** Packets *)

(** [parseMMTP]: the tracker it leaves, and the packet with its key when there
    is one. *)
Definition parseMMTP (flows : FlowTracker) (packet : bytes) : go (FlowTracker * option (MMTPPacket * PacketKey)) :=
  orElse (ParseUDPPacket packet)
    (fun _ => Ret (flows, None))
    (fun u =>
       let '(flows, (flow, ok)) := Flow flows u in
       if negb ok || (fl_DestinationPort flow =? ntpPort) then Ret (flows, None)
       else
         orElse (ParseMMTPPacket (udp_Payload u))
           (fun _ => Ret (flows, None))
           (fun m => Ret (flows, Some (m, mkKey flow (mp_PacketID m))))).

Definition assetKey (mptFlow : IPDataFlow) (location : GeneralLocationInfo) : option PacketKey :=
  if loc_LocationType location =? LocationTypeSameFlow then Some (mkKey mptFlow (loc_PacketID location))
  else if (loc_LocationType location =? LocationTypeIPv4) || (loc_LocationType location =? LocationTypeIPv6) then
    Some (mkKey (mkFlow (loc_Source location) (loc_Destination location) (loc_DestinationPort location)) (loc_PacketID location))
  else None.

(** The keys of all assets of an MPT that can be resolved. *)
Definition assetsOf (mptFlow : IPDataFlow) (assets : list MPTAsset) : gset PacketKey :=
  foldl (fun keys asset =>
    foldl (fun keys location => match assetKey mptFlow location with Some k => keys ∪ {[k]} | None => keys end)
      keys (as_Locations asset)) ∅ assets.

(** [delete(t.owners[asset], serviceID); if len(t.owners[asset]) == 0 { delete(t.owners, asset) }] *)
Definition dropOwner (serviceID : Z) (owners : gmap PacketKey (gset Z)) (asset : PacketKey) : gmap PacketKey (gset Z) :=
  let s := default ∅ (owners !! asset) ∖ {[serviceID]} in
  if bool_decide (s = ∅) then delete asset owners else <[asset := s]> owners.

(** [if t.owners[asset] == nil { ... }; t.owners[asset][serviceID] = true] *)
Definition addOwner (serviceID : Z) (owners : gmap PacketKey (gset Z)) (asset : PacketKey) : gmap PacketKey (gset Z) :=
  <[asset := default ∅ (owners !! asset) ∪ {[serviceID]}]> owners.

Fixpoint servicesOf (packages : list PLTPackage) (services : gset Z) : go (gset Z) :=
  match packages with
  | [] => Ret services
  | pkg :: packages => sid ← packageServiceID (pkg_PackageID pkg); servicesOf packages (services ∪ {[sid]})
  end.

Section Transport.

(** The order in which Go visits a set of assets. *)
Context (range : gset PacketKey -> list PacketKey).

(** The assets of a service are those of its latest MPT. *)
Definition replaceAssets (t : tlvTransport) (serviceID : Z) (assets : gset PacketKey) : tlvTransport :=
  let owners := foldl (dropOwner serviceID) (t_owners t) (range (default ∅ (t_mpts t !! serviceID))) in
  let owners := foldl (addOwner serviceID) owners (range assets) in
  setAssets t (<[serviceID := assets]> (t_mpts t)) owners.

Definition observeTable (t : tlvTransport) (key : PacketKey) (table : bytes) : go tlvTransport :=
  id ← idx table 0;
  if id =? TableIDPLT then
    orElse (ParsePLT table)
      (fun _ => Ret t)
      (fun plt => services ← servicesOf (plt_Packages plt) ∅; Ret (setServices t services))
  else if id =? TableIDMPT then
    orElse (ParseMPT table)
      (fun _ => Ret t)
      (fun mpt =>
         serviceID ← packageServiceID (mpt_PackageID mpt);
         Ret (replaceAssets t serviceID (assetsOf (k_Flow key) (mpt_Assets mpt))))
  else Ret t.

(** The tables of a PA message. *)
Fixpoint feedTables (t : tlvTransport) (key : PacketKey) (tables : list bytes) : go (tlvTransport * list signal) :=
  match tables with
  | [] => Ret (t, [])
  | table :: tables =>
      t ← observeTable t key table;
      '(t, signals) ← feedTables t key tables;
      Ret (t, mkSignal false [] table key :: signals)
  end.

Definition feedMessage (t : tlvTransport) (key : PacketKey) (message : bytes) : go (tlvTransport * list signal) :=
  if len message <? 2 then Ret (t, [])
  else
    id ← MessageID message;
    if id =? MessageIDPA then
      orElse (ParsePAMessage message)
        (fun _ => Ret (t, []))
        (fun pa => feedTables t key (pa_Tables pa))
    else if (id =? MessageIDM2Section) || (id =? MessageIDM2ShortSection) then
      orElse (MessageSection message)
        (fun _ => Ret (t, []))
        (fun section => Ret (t, [mkSignal false section [] key]))
    else Ret (t, []).

Fixpoint feedMessages (t : tlvTransport) (key : PacketKey) (messages : list bytes) : go (tlvTransport * list signal) :=
  match messages with
  | [] => Ret (t, [])
  | message :: messages =>
      '(t, s1) ← feedMessage t key message;
      '(t, s2) ← feedMessages t key messages;
      Ret (t, s1 ++ s2)
  end.

Definition tlvFeed (t : tlvTransport) (packet : bytes) : go (tlvTransport * list signal) :=
  let t := setCurrent t false noKey in
  ty ← TLVType packet;
  if ty =? TLVPacketTypeTransmissionControl then
    section ← TLVData packet;
    short ← Ret (len section <? 3) ||! (n ← TotalLength section; Ret (len section <? n));
    if (short : bool) then Ret (t, [])
    else
      n ← TotalLength section;
      s ← sliceTo section n;
      Ret (t, [mkSignal true s [] noKey])
  else
    '(flows, r) ← parseMMTP (t_flows t) packet;
    let t := setFlows t flows in
    match r with
    | None => Ret (t, [])
    | Some (m, key) =>
        if negb (mp_PayloadType m =? MMTPPayloadTypeSignaling) then Ret (setCurrent t true key, [])
        else
          '(a, r) ← AssemblerFeed (t_assembler t) (k_Flow key) m;
          let t := setAssembler t a in
          match r with
          | inr _ => Ret (t, [])
          | inl messages => feedMessages t key messages
          end
    end.

End Transport.

(** ** The filter *)

Record tlvFilter := mkTlvFilter {
  tf_serviceID : Z;
  tf_removing : bool
}.

Definition tlvFilterPacket (t : tlvTransport) (f : tlvFilter) (packet : bytes) : go (tlvFilter * option bytes) :=
  if t_pltSeen t && bool_decide (tf_serviceID f ∉ t_pltServices t) then Err ErrServiceNotFound
  else if (Z.of_nat (size (t_mpts t)) <=? 1) || negb (pi_media (t_current t)) then Ret (f, Some packet)
  else
    let owners := default ∅ (t_owners t !! pi_key (t_current t)) in
    if bool_decide (owners = ∅) || bool_decide (tf_serviceID f ∈ owners) then Ret (f, Some packet)
    else Ret (mkTlvFilter (tf_serviceID f) true, None).

(** ** The drop detector

    [sm_paused] says that [paused] is the filter's [removing.Load]. *)
Record sequenceMonitor := mkSequenceMonitor {
  sm_last : gmap Z Z;
  sm_paused : bool
}.

Definition tlvObserve (filter : option tlvFilter) (m : sequenceMonitor) (packet : bytes) :
    go (sequenceMonitor * option Drop) :=
  skip ← Ret (len packet <? 6) ||! (ty ← TLVType packet; Ret (negb (ty =? TLVPacketTypeCompressedIP)));
  if (skip : bool) then Ret (m, None)
  else if sm_paused m && match filter with Some f => tf_removing f | None => false end
  then Ret (mkSequenceMonitor ∅ (sm_paused m), None)
  else
    data ← TLVData packet;
    d0 ← idx data 0;
    d1 ← idx data 1;
    let contextID := contextOf d0 d1 in
    let sequence := Z.land d1 0x0f in
    let last := sm_last m !! contextID in
    let m := mkSequenceMonitor (<[contextID := sequence]> (sm_last m)) (sm_paused m) in
    match last with
    | None => Ret (m, None)
    | Some last =>
        let expected := Z.land (u8 (last + 1)) 0x0f in
        if sequence =? expected then Ret (m, None)
        else Ret (m, Some (mkFanoutDrop contextID expected sequence))
    end.

Definition tlvTransportOps (range : gset PacketKey -> list PacketKey) :
    Transport tlvTransport signal tlvFilter sequenceMonitor := {|
  Feed := tlvFeed range;
  NewFilter := fun _ serviceID => mkTlvFilter serviceID false;
  FilterPacket := tlvFilterPacket;
  NewDropDetector := mkSequenceMonitor ∅ false;
  FilterDropDetector := fun _ => Some (mkSequenceMonitor ∅ true);
  Observe := tlvObserve
|}.

(** ** The index of assets *)

(** The services whose MPT lists an asset, and the assets a service's MPT lists. *)
Definition ownersOf (t : tlvTransport) (asset : PacketKey) : gset Z := default ∅ (t_owners t !! asset).
Definition assetsIn (t : tlvTransport) (serviceID : Z) : gset PacketKey := default ∅ (t_mpts t !! serviceID).

(** The two maps mirror each other, and no asset is kept without an owner. *)
Definition indexed (t : tlvTransport) : Prop :=
  (forall asset serviceID, serviceID ∈ ownersOf t asset <-> asset ∈ assetsIn t serviceID)
  /\ (forall asset s, t_owners t !! asset = Some s -> s <> ∅).

Definition noEmpty (owners : gmap PacketKey (gset Z)) : Prop := forall asset s, owners !! asset = Some s -> s <> ∅.

Lemma dropOwner_spec sid owners asset : noEmpty owners ->
  noEmpty (dropOwner sid owners asset)
  /\ forall a x, x ∈ default ∅ (dropOwner sid owners asset !! a) <-> x ∈ default ∅ (owners !! a) /\ ~ (a = asset /\ x = sid).
Proof.
  intros Hne. unfold dropOwner. set (s := default ∅ (owners !! asset) ∖ {[sid]}). case_bool_decide as Hs.
  - split.
    + intros a x. rewrite lookup_delete_Some. intros [_ ?]. by eapply Hne.
    + intros a x. destruct (decide (asset = a)) as [-> |Hd].
      * rewrite lookup_delete_eq. cbn [default]. split; [set_solver|]. intros [Hx Hn]. exfalso.
        assert (x ∈ s) as Hin by (subst s; set_solver). rewrite Hs in Hin. set_solver.
      * rewrite lookup_delete_ne by done. naive_solver.
  - split.
    + intros a x. rewrite lookup_insert_Some. intros [[_ <-]|[_ ?]]; [done|by eapply Hne].
    + intros a x. destruct (decide (asset = a)) as [-> |Hd].
      * rewrite lookup_insert_eq. cbn [default from_option id]. subst s. set_solver.
      * rewrite lookup_insert_ne by done. naive_solver.
Qed.

Lemma addOwner_spec sid owners asset : noEmpty owners ->
  noEmpty (addOwner sid owners asset)
  /\ forall a x, x ∈ default ∅ (addOwner sid owners asset !! a) <-> x ∈ default ∅ (owners !! a) \/ (a = asset /\ x = sid).
Proof.
  intros Hne. unfold addOwner. split.
  - intros a x. rewrite lookup_insert_Some. intros [[_ <-]|[_ ?]]; [set_solver|by eapply Hne].
  - intros a x. destruct (decide (asset = a)) as [-> |Hd].
    + rewrite lookup_insert_eq. cbn [default from_option id]. set_solver.
    + rewrite lookup_insert_ne by done. naive_solver.
Qed.

Lemma dropOwners_spec sid l : forall owners, noEmpty owners ->
  noEmpty (foldl (dropOwner sid) owners l)
  /\ forall a x, x ∈ default ∅ (foldl (dropOwner sid) owners l !! a) <-> x ∈ default ∅ (owners !! a) /\ ~ (a ∈ l /\ x = sid).
Proof.
  induction l as [|asset l IH]; intros owners Hne; cbn [foldl]; [split; [done|]; set_solver|].
  destruct (dropOwner_spec sid owners asset Hne) as [H1 H2]. destruct (IH _ H1) as [H3 H4]. split; [done|].
  intros a x. rewrite H4, H2, elem_of_cons. tauto.
Qed.

Lemma addOwners_spec sid l : forall owners, noEmpty owners ->
  noEmpty (foldl (addOwner sid) owners l)
  /\ forall a x, x ∈ default ∅ (foldl (addOwner sid) owners l !! a) <-> x ∈ default ∅ (owners !! a) \/ (a ∈ l /\ x = sid).
Proof.
  induction l as [|asset l IH]; intros owners Hne; cbn [foldl]; [split; [done|]; set_solver|].
  destruct (addOwner_spec sid owners asset Hne) as [H1 H2]. destruct (IH _ H1) as [H3 H4]. split; [done|].
  intros a x. rewrite H4, H2, elem_of_cons. tauto.
Qed.

Section Laws.

Context (range : gset PacketKey -> list PacketKey) (range_perm : forall s, range s ≡ₚ elements s).

Lemma elem_of_assets a s : a ∈ range s <-> a ∈ s.
Proof. rewrite range_perm. apply elem_of_elements. Qed.

Lemma replaceAssets_indexed t sid assets : indexed t -> indexed (replaceAssets range t sid assets).
Proof.
  intros [Hi Hne]. unfold replaceAssets, indexed, ownersOf, assetsIn. cbn [setAssets t_owners t_mpts].
  destruct (dropOwners_spec sid (range (default ∅ (t_mpts t !! sid))) (t_owners t) Hne) as [H1 H2].
  destruct (addOwners_spec sid (range assets) _ H1) as [H3 H4]. split; [|done].
  intros asset x. rewrite H4, H2, !elem_of_assets. unfold ownersOf, assetsIn in Hi. rewrite Hi.
  destruct (decide (x = sid)) as [-> |Hx].
  - rewrite lookup_insert_eq. cbn [default from_option id]. tauto.
  - rewrite lookup_insert_ne by done. tauto.
Qed.

Definition tlv_ok_state (t : tlvTransport) : Prop := assembler_ok (t_assembler t) /\ indexed t.

Lemma packageServiceID_returns id : returns (packageServiceID id) (fun _ => True).
Proof.
  unfold packageServiceID. destruct (Z.eqb_spec (len id) 0); [by eexists|]. destruct (Z.eqb_spec (len id) 1).
  - rewrite idx_byteAt by lia. by eexists.
  - rewrite read16_at by lia. by eexists.
Qed.

Lemma servicesOf_returns pkgs : forall services, returns (servicesOf pkgs services) (fun _ => True).
Proof.
  induction pkgs as [|p pkgs IH]; intros services; cbn [servicesOf]; [by eexists|].
  destruct (packageServiceID_returns (pkg_PackageID p)) as (sid & -> & _). cbn [mbind go_bind]. apply IH.
Qed.

Lemma observeTable_ok t key table : tlv_ok_state t -> bytes_ok table -> 1 <= len table ->
  returns (observeTable range t key table) tlv_ok_state.
Proof.
  intros Ht Hb Hl. unfold observeTable. rewrite idx_byteAt by lia. cbn [mbind go_bind].
  destruct (_ =? TableIDPLT); [|destruct (_ =? TableIDMPT); [|by eexists]].
  - pose proof (ParsePLT_ok table Hb) as Hp. destruct (ParsePLT table) as [plt|?| |]; try done; cbn [orElse]; [|by eexists].
    destruct (servicesOf_returns (plt_Packages plt) ∅) as (s & -> & _). by eexists.
  - pose proof (ParseMPT_ok table Hb) as Hp. destruct (ParseMPT table) as [mpt|?| |]; try done; cbn [orElse]; [|by eexists].
    destruct (packageServiceID_returns (mpt_PackageID mpt)) as (sid & -> & _). cbn [mbind go_bind].
    eexists. split; [done|]. destruct Ht as [Ha Hi]. split; [done|]. by apply replaceAssets_indexed.
Qed.

Lemma feedTables_ok key tables : Forall (fun t => bytes_ok t /\ 4 <= len t) tables -> forall t, tlv_ok_state t ->
  returns (feedTables range t key tables) (fun '(t', _) => tlv_ok_state t').
Proof.
  induction 1 as [|table tables [Hb Hl] _ IH]; intros t Ht; cbn [feedTables]; [by eexists|].
  destruct (observeTable_ok t key table Ht Hb ltac:(lia)) as (t1 & -> & Ht1). cbn [mbind go_bind].
  destruct (IH t1 Ht1) as ([t2 sigs] & -> & Ht2). by eexists.
Qed.

Lemma feedMessage_ok t key m : tlv_ok_state t -> bytes_ok m ->
  returns (feedMessage range t key m) (fun '(t', _) => tlv_ok_state t').
Proof.
  intros Ht Hm. unfold feedMessage. destruct (Z.ltb_spec (len m) 2); [by eexists|].
  unfold MessageID at 1. rewrite read16_at by lia. cbn [mbind go_bind].
  destruct (_ =? MessageIDPA).
  - pose proof (ParsePAMessage_ok m Hm) as Hp. destruct (ParsePAMessage m) as [pa|?| |]; try done; cbn [orElse]; [|by eexists].
    by apply feedTables_ok.
  - destruct (_ || _); [|by eexists]. pose proof (MessageSection_ok m Hm) as Hp.
    destruct (MessageSection m) as [s|?| |]; try done; cbn [orElse]; by eexists.
Qed.

Lemma feedMessages_ok key ms : Forall bytes_ok ms -> forall t, tlv_ok_state t ->
  returns (feedMessages range t key ms) (fun '(t', _) => tlv_ok_state t').
Proof.
  induction 1 as [|m ms Hm _ IH]; intros t Ht; cbn [feedMessages]; [by eexists|].
  destruct (feedMessage_ok t key m Ht Hm) as ([t1 s1] & -> & Ht1). cbn [mbind go_bind].
  destruct (IH t1 Ht1) as ([t2 s2] & -> & Ht2). by eexists.
Qed.

(** A packet as the reader delivers it. *)
Definition tlv_packet (p : bytes) : Prop := bytes_ok p /\ 4 <= len p <= tlvBufferSize.

Lemma parseMMTP_ok flows p : tlv_packet p ->
  returns (parseMMTP flows p) (fun '(_, r) => forall m key, r = Some (m, key) -> mmtp_ok m).
Proof.
  intros [Hb Hl]. unfold parseMMTP. pose proof (ParseUDPPacket_ok p Hb) as Hu.
  destruct (ParseUDPPacket p) as [u|?| |]; try done; cbn [orElse]; [|by eexists].
  destruct Hu as [Hpay Hul]. destruct (Flow flows u) as [flows' [flow ok]].
  destruct (negb ok || _); [by eexists|]. pose proof (ParseMMTPPacket_ok _ Hpay) as Hm.
  destruct (ParseMMTPPacket (udp_Payload u)) as [m|?| |]; try done; cbn [orElse]; [|by eexists].
  eexists. split; [done|]. intros m' key [= <- <-]. destruct Hm as [? ?]. split; [done|].
  unfold tlvBufferSize, tlvHeaderSize in Hl. assert (65540 <= maxMessageSize) by (by vm_compute). lia.
Qed.

Lemma tlvFeed_ok t p : tlv_ok_state t -> tlv_packet p -> returns (tlvFeed range t p) (fun '(t', _) => tlv_ok_state t').
Proof.
  intros Ht Hp. pose proof Hp as [Hb Hl]. unfold tlvFeed. unfold TLVType at 1. rewrite idx_byteAt by lia. cbn [mbind go_bind].
  destruct (_ =? TLVPacketTypeTransmissionControl).
  - unfold TLVData, tlvHeaderSize. rewrite slice_from by lia. cbn [mbind go_bind]. set (s := drop _ _).
    destruct (Z.ltb_spec (len s) 3); cbn [goor mbind go_bind]; [by eexists|]. rewrite TotalLength_eq by lia. cbn [mbind go_bind].
    destruct (Z.ltb_spec (len s) (totalOf s)); [by eexists|].
    pose proof (total_range s ltac:(subst s; auto with bytes)). rewrite slice_0 by lia. by eexists.
  - destruct (parseMMTP_ok (t_flows (setCurrent t false noKey)) p Hp) as ([flows r] & -> & Hr). cbn [mbind go_bind].
    destruct r as [[m key]|]; [|by eexists]. destruct (negb _); [by eexists|].
    destruct Ht as [Ha Hi]. rewrite AssemblerFeed_eq.
    destruct (feedKey_ok maxMessageSize (t_assembler (setFlows (setCurrent t false noKey) flows) !! keyOf (k_Flow key) m) m (Z.le_refl _) (Ha _) (Hr m key eq_refl))
      as ([e res] & -> & He & Hms). cbn [mbind go_bind].
    assert (tlv_ok_state (setAssembler (setFlows (setCurrent t false noKey) flows)
      (setKey (t_assembler (setFlows (setCurrent t false noKey) flows)) (keyOf (k_Flow key) m) e))) as Ht'.
    { split; [by apply setKey_ok|done]. }
    destruct res as [ms|err]; [|by eexists]. apply feedMessages_ok; [by apply Hms|done].
Qed.

Lemma tlvObserve_returns f m p : tlv_packet p -> returns (tlvObserve f m p) (fun _ => True).
Proof.
  intros [Hb Hl]. unfold tlvObserve. destruct (Z.ltb_spec (len p) 6); cbn [goor mbind go_bind]; [by eexists|].
  unfold TLVType. rewrite idx_byteAt by lia. cbn [mbind go_bind]. destruct (negb _); [by eexists|].
  destruct (sm_paused m && _); [by eexists|]. unfold TLVData, tlvHeaderSize. rewrite slice_from by lia. cbn [mbind go_bind].
  rewrite !idx_byteAt by (rewrite length_drop; lia). cbn [mbind go_bind]. destruct (sm_last m !! _); [|by eexists].
  by case_match; eexists.
Qed.

#[global] Instance tlvLaws : TransportLaws (tlvTransportOps range).
Proof.
  refine {| packet_valid := tlv_packet; transport_ok := tlv_ok_state;
            filter_ok := fun _ => True; detector_ok := fun _ => True |}.
  - intros t p Ht Hp. apply wp_returns. by apply tlvFeed_ok.
  - done.
  - intros t f p _ _ Hp. cbn [FilterPacket tlvTransportOps]. unfold tlvFilterPacket.
    repeat case_match; cbn [wp]; (split; [done|]) || done; intros o [= <-]; done.
  - done.
  - done.
  - intros f m p _ Hp. cbn [Observe tlvTransportOps]. destruct (tlvObserve_returns f m p Hp) as ([m' r] & -> & _). done.
Defined.

End Laws.

(** ** The filter, in terms of the signaling that was delivered *)

(** The service and the assets an MPT among the signals lists, and the services
    of a PLT. *)
Definition mptOf (s : signal) : option (Z * gset PacketKey) :=
  match sg_Table s with
  | id :: _ =>
      if id =? TableIDMPT then
        match ParseMPT (sg_Table s) with
        | Ret mpt =>
            match packageServiceID (mpt_PackageID mpt) with
            | Ret serviceID => Some (serviceID, assetsOf (k_Flow (sg_Key s)) (mpt_Assets mpt))
            | _ => None
            end
        | _ => None
        end
      else None
  | [] => None
  end.

Definition pltOf (s : signal) : option (gset Z) :=
  match sg_Table s with
  | id :: _ =>
      if id =? TableIDPLT then
        match ParsePLT (sg_Table s) with
        | Ret plt => match servicesOf (plt_Packages plt) ∅ with Ret services => Some services | _ => None end
        | _ => None
        end
      else None
  | [] => None
  end.

(** What the signals say: each service's latest MPT, and the latest PLT. *)
Definition noteMPT (mpts : gmap Z (gset PacketKey)) (s : signal) : gmap Z (gset PacketKey) :=
  match mptOf s with Some (serviceID, assets) => <[serviceID := assets]> mpts | None => mpts end.
Definition notePLT (services : option (gset Z)) (s : signal) : option (gset Z) :=
  match pltOf s with Some services => Some services | None => services end.

Definition latestMPTs (signals : list signal) : gmap Z (gset PacketKey) := foldl noteMPT ∅ signals.
Definition latestPLT (signals : list signal) : option (gset Z) := foldl notePLT None signals.

Definition services (t : tlvTransport) : option (gset Z) := if t_pltSeen t then Some (t_pltServices t) else None.

(** [t'] is [t] after these signals, as far as the filter is concerned. *)
Definition informed (t t' : tlvTransport) (signals : list signal) : Prop :=
  t_mpts t' = foldl noteMPT (t_mpts t) signals /\ services t' = foldl notePLT (services t) signals
  /\ t_current t' = t_current t.

Section Signals.

Context (range : gset PacketKey -> list PacketKey) (range_perm : forall s, range s ≡ₚ elements s).

Lemma observeTable_informed t key table t' : bytes_ok table -> 1 <= len table ->
  observeTable range t key table = Ret t' -> informed t t' [mkSignal false [] table key].
Proof.
  intros Hb Hl. destruct table as [|id table]; [simpl in Hl; lia|]. unfold observeTable.
  rewrite idx_byteAt by lia. cbn [mbind go_bind]. change (byteAt (id :: table) 0) with id.
  unfold informed. cbn [foldl]. unfold noteMPT, notePLT, mptOf, pltOf. cbn [sg_Table sg_Key].
  destruct (Z.eqb_spec id TableIDPLT) as [-> |Hid].
  - pose proof (ParsePLT_ok _ Hb) as Hp. change (TableIDPLT =? TableIDMPT) with false. cbn iota.
    destruct (ParsePLT (TableIDPLT :: table)) as [plt|?| |]; try done; cbn [orElse]; [|by intros [= <-]].
    destruct (servicesOf_returns (plt_Packages plt) ∅) as (s & -> & _). by intros [= <-].
  - destruct (Z.eqb_spec id TableIDMPT) as [-> |]; [|by intros [= <-]]. pose proof (ParseMPT_ok _ Hb) as Hp.
    destruct (ParseMPT (TableIDMPT :: table)) as [mpt|?| |]; try done; cbn [orElse]; [|by intros [= <-]].
    destruct (packageServiceID_returns (mpt_PackageID mpt)) as (sid & -> & _). by intros [= <-].
Qed.

Lemma informed_trans t t1 t2 s1 s2 : informed t t1 s1 -> informed t1 t2 s2 -> informed t t2 (s1 ++ s2).
Proof. intros (H1 & H2 & H3) (H4 & H5 & H6). unfold informed. rewrite !foldl_app. by rewrite <- H1, <- H2, <- H3. Qed.

Lemma informed_by_section t tlvsi section key : informed t t [mkSignal tlvsi section [] key].
Proof. done. Qed.

Lemma informed_refl t : informed t t [].
Proof. done. Qed.

Lemma feedTables_informed key tables : Forall (fun t => bytes_ok t /\ 4 <= len t) tables -> forall t t' signals,
  feedTables range t key tables = Ret (t', signals) -> informed t t' signals.
Proof.
  induction 1 as [|table tables [Hb Hl] _ IH]; intros t t' signals; cbn [feedTables]; [by intros [= <- <-]|].
  destruct (observeTable range t key table) as [t1|?| |] eqn:E; try done. cbn [mbind go_bind].
  destruct (feedTables range t1 key tables) as [[t2 sigs]|?| |] eqn:E2; try done. intros [= <- <-].
  apply (informed_trans t t1 t2 [_]); [by eapply observeTable_informed; [|lia|]|by apply IH].
Qed.

Lemma feedMessage_informed t key m t' signals : bytes_ok m -> feedMessage range t key m = Ret (t', signals) -> informed t t' signals.
Proof.
  intros Hm. unfold feedMessage. destruct (len m <? 2); [by intros [= <- <-]|].
  destruct (MessageID m) as [id|?| |]; try done. cbn [mbind go_bind]. destruct (_ =? MessageIDPA).
  - pose proof (ParsePAMessage_ok m Hm) as Hp. destruct (ParsePAMessage m) as [pa|?| |]; try done; cbn [orElse]; [|by intros [= <- <-]].
    by apply feedTables_informed.
  - destruct (_ || _); [|by intros [= <- <-]]. destruct (MessageSection m) as [s|?| |]; try done; by intros [= <- <-].
Qed.

Lemma feedMessages_informed key ms : Forall bytes_ok ms -> forall t t' signals,
  feedMessages range t key ms = Ret (t', signals) -> informed t t' signals.
Proof.
  induction 1 as [|m ms Hm _ IH]; intros t t' signals; cbn [feedMessages]; [by intros [= <- <-]|].
  destruct (feedMessage range t key m) as [[t1 s1]|?| |] eqn:E; try done. cbn [mbind go_bind].
  destruct (feedMessages range t1 key ms) as [[t2 s2]|?| |] eqn:E2; try done. intros [= <- <-].
  eapply informed_trans; [by eapply feedMessage_informed|by apply IH].
Qed.

(** The key of the media packet a TLV packet carries, if it carries one. *)
Definition carriedMedia (flows : FlowTracker) (packet : bytes) : option PacketKey :=
  match parseMMTP flows packet with
  | Ret (_, Some (m, key)) => if mp_PayloadType m =? MMTPPayloadTypeSignaling then None else Some key
  | _ => None
  end.

Definition describes (info : packetInfo) (media : option PacketKey) : Prop :=
  match media with
  | Some key => info = mkPacketInfo true key
  | None => pi_media info = false
  end.

Lemma control_carries_no_media flows p : 4 <= len p -> byteAt p 1 = TLVPacketTypeTransmissionControl -> carriedMedia flows p = None.
Proof.
  intros Hl Ht. unfold carriedMedia, parseMMTP, ParseUDPPacket, TLVData, TLVType, tlvHeaderSize.
  rewrite (proj2 (Z.ltb_ge _ _)) by lia. rewrite slice_from by lia. cbn [mbind go_bind].
  rewrite idx_byteAt by lia. by rewrite Ht.
Qed.

Lemma tlvFeed_informed t p : tlv_ok_state t -> tlv_packet p -> exists t' signals,
  tlvFeed range t p = Ret (t', signals) /\ tlv_ok_state t'
  /\ t_mpts t' = foldl noteMPT (t_mpts t) signals /\ services t' = foldl notePLT (services t) signals
  /\ describes (t_current t') (carriedMedia (t_flows t) p).
Proof.
  intros Ht Hp. pose proof Hp as [Hb Hl]. destruct (tlvFeed_ok range range_perm t p Ht Hp) as ([t' signals] & E & Ht').
  exists t', signals. split; [done|]. split; [done|]. revert E. unfold tlvFeed. unfold TLVType at 1.
  rewrite idx_byteAt by lia. cbn [mbind go_bind].
  destruct (Z.eqb_spec (byteAt p 1) TLVPacketTypeTransmissionControl) as [Hc|Hc].
  - rewrite (control_carries_no_media _ p) by (done || lia). unfold TLVData, tlvHeaderSize. rewrite slice_from by lia. cbn [mbind go_bind].
    destruct (_ ||! _) as [[]|?| |]; try done; cbn [mbind go_bind]; [by intros [= <- <-]|].
    destruct (TotalLength _) as [n|?| |]; try done; cbn [mbind go_bind].
    destruct (sliceTo _ n) as [s|?| |]; try done; cbn [mbind go_bind]. by intros [= <- <-].
  - cbn [t_flows setCurrent]. unfold carriedMedia.
    destruct (parseMMTP_ok (t_flows t) p Hp) as ([flows r] & -> & Hr). cbn [mbind go_bind].
    destruct r as [[m key]|]; [|by intros [= <- <-]].
    destruct (mp_PayloadType m =? MMTPPayloadTypeSignaling); cbn [negb]; [|by intros [= <- <-]].
    destruct Ht as [Ha _]. rewrite AssemblerFeed_eq. cbn [setFlows setCurrent t_assembler].
    destruct (feedKey_ok maxMessageSize (t_assembler t !! keyOf (k_Flow key) m) m (Z.le_refl _) (Ha _) (Hr m key eq_refl)) as ([e res] & -> & _ & Hms).
    cbn [mbind go_bind]. destruct res as [ms|err]; [|by intros [= <- <-]].
    intros E. apply feedMessages_informed in E as (-> & -> & ->); [done|]. by apply Hms.
Qed.

Fixpoint tlvFeedAll (t : tlvTransport) (packets : list bytes) : go (tlvTransport * list signal) :=
  match packets with
  | [] => Ret (t, [])
  | p :: packets =>
      '(t, s1) ← tlvFeed range t p;
      '(t, s2) ← tlvFeedAll t packets;
      Ret (t, s1 ++ s2)
  end.

Lemma tlvFeedAll_informed packets : Forall tlv_packet packets -> forall t, tlv_ok_state t -> exists t' signals,
  tlvFeedAll t packets = Ret (t', signals) /\ tlv_ok_state t'
  /\ t_mpts t' = foldl noteMPT (t_mpts t) signals /\ services t' = foldl notePLT (services t) signals.
Proof.
  induction 1 as [|p packets Hp _ IH]; intros t Ht; cbn [tlvFeedAll]; [by eexists _, _|].
  destruct (tlvFeed_informed t p Ht Hp) as (t1 & s1 & -> & Ht1 & Em & Es & _). cbn [mbind go_bind].
  destruct (IH t1 Ht1) as (t2 & s2 & -> & Ht2 & Em2 & Es2). eexists _, _. split; [done|].
  rewrite !foldl_app, Em2, Es2, Em, Es. done.
Qed.

Lemma newTransport_ok : tlv_ok_state newTransport.
Proof.
  split; [intros key; cbn [newTransport t_assembler]; by rewrite lookup_empty|]. split; unfold ownersOf, assetsIn; cbn [newTransport t_owners t_mpts].
  - intros asset sid. rewrite !lookup_empty. cbn. set_solver.
  - intros asset s. by rewrite lookup_empty.
Qed.

(** The PLT does not list the service. *)
Definition excluded (signals : list signal) (serviceID : Z) : Prop :=
  exists listed, latestPLT signals = Some listed /\ serviceID ∉ listed.

(** The packet is media that, of at least two services, only others list. *)
Definition foreign (signals : list signal) (media : option PacketKey) (serviceID : Z) : Prop :=
  exists key, media = Some key /\ (2 <= size (latestMPTs signals))%nat
    /\ (exists other assets, latestMPTs signals !! other = Some assets /\ key ∈ assets)
    /\ key ∉ default ∅ (latestMPTs signals !! serviceID).

Lemma owners_of_key t signals key : indexed t -> t_mpts t = latestMPTs signals ->
  (forall sid, sid ∈ ownersOf t key <-> key ∈ default ∅ (latestMPTs signals !! sid))
  /\ (ownersOf t key <> ∅ <-> exists other assets, latestMPTs signals !! other = Some assets /\ key ∈ assets).
Proof.
  intros [Hi _] Em. unfold assetsIn in Hi. rewrite Em in Hi. split; [by intros|]. split.
  - intros [x Hx]%set_choose_L. apply Hi in Hx. destruct (latestMPTs signals !! x) as [a|] eqn:E; [by exists x, a|]. set_solver.
  - intros (other & a & E & Hk) He. assert (other ∈ ownersOf t key) as Hin by (apply Hi; by rewrite E). set_solver.
Qed.

(** The service filter of a TLV stream decides each packet by the signaling
    delivered so far and nothing else: after any packets, it ends when the
    latest PLT does not list the service, it removes a packet exactly when it
    is media which, with at least two MPTs seen, some MPT lists and the
    service's latest one does not, and it passes every other packet unchanged. *)
Theorem tlv_filter_is_exact packets p f : Forall tlv_packet packets -> tlv_packet p -> exists t before t' after,
  tlvFeedAll newTransport packets = Ret (t, before) /\ tlvFeed range t p = Ret (t', after)
  /\ (excluded (before ++ after) (tf_serviceID f) -> tlvFilterPacket t' f p = Err ErrServiceNotFound)
  /\ (~ excluded (before ++ after) (tf_serviceID f) ->
        (foreign (before ++ after) (carriedMedia (t_flows t) p) (tf_serviceID f) ->
           tlvFilterPacket t' f p = Ret (mkTlvFilter (tf_serviceID f) true, None))
        /\ (~ foreign (before ++ after) (carriedMedia (t_flows t) p) (tf_serviceID f) ->
           tlvFilterPacket t' f p = Ret (f, Some p))).
Proof.
  intros Hps Hp. destruct (tlvFeedAll_informed packets Hps newTransport newTransport_ok) as (t & before & E & Ht & Em & Es).
  destruct (tlvFeed_informed t p Ht Hp) as (t' & after & E' & [_ Hi] & Em' & Es' & Hd). exists t, before, t', after.
  split; [done|]. split; [done|]. rewrite Em, <- foldl_app in Em'. rewrite Es, <- foldl_app in Es'.
  change (t_mpts t' = latestMPTs (before ++ after)) in Em'. change (services t' = latestPLT (before ++ after)) in Es'.
  unfold excluded. rewrite <- Es'. unfold services, tlvFilterPacket. split.
  - intros (l & Hl & Hn). destruct (t_pltSeen t'); [|done]. injection Hl as <-. by rewrite bool_decide_eq_true_2.
  - intros Hx. assert (t_pltSeen t' && bool_decide (tf_serviceID f ∉ t_pltServices t') = false) as ->.
    { destruct (t_pltSeen t'); [|done]. apply bool_decide_eq_false_2. intros Hn. apply Hx. eauto. }
    unfold foreign. rewrite Em'. destruct (carriedMedia (t_flows t) p) as [key|] eqn:Ek; cbn [describes] in Hd.
    2:{ split; [by intros (? & [=] & _)|]. intros _. rewrite Hd. by rewrite orb_true_r. }
    rewrite Hd. cbn [pi_media pi_key negb]. rewrite orb_false_r. fold (ownersOf t' key).
    destruct (owners_of_key t' (before ++ after) key Hi Em') as [Ho He]. split.
    + intros (? & [= <-] & Hs & Hlist & Hown). rewrite (proj2 (Z.leb_gt _ _)) by lia.
      rewrite bool_decide_eq_false_2 by (by apply He). rewrite bool_decide_eq_false_2; [done|]. by rewrite Ho.
    + intros Hnf. destruct (Z.leb_spec (Z.of_nat (size (latestMPTs (before ++ after)))) 1); [done|].
      destruct (bool_decide_reflect (ownersOf t' key = ∅)) as [|Hne]; [done|].
      destruct (bool_decide_reflect (tf_serviceID f ∈ ownersOf t' key)) as [|Hni]; [done|]. exfalso.
      apply Hnf. exists key. split; [done|]. split; [lia|]. split; [by apply He|]. by rewrite <- Ho.
Qed.

End Signals.

(** ** A section on its way *)

(** The packets of one message, dressed for one compression context: the first
    with its headers, the others with only the id of the context, numbered
    from [n]. *)
Record path := mkPath {
  pa_context : Z;
  pa_source : bytes;
  pa_destination : bytes;
  pa_sourcePort : Z;
  pa_destinationPort : Z
}.

Definition path_ok (c : path) : Prop :=
  0 <= pa_context c < 4096 /\ length (pa_source c) = 16%nat /\ length (pa_destination c) = 16%nat
  /\ bytes_ok (pa_source c) /\ bytes_ok (pa_destination c)
  /\ 0 <= pa_sourcePort c < 65536 /\ 0 <= pa_destinationPort c < 65536 /\ pa_destinationPort c <> ntpPort.

Definition pathFlow (c : path) : IPDataFlow :=
  mkFlow (AddrFrom16 (pa_source c)) (AddrFrom16 (pa_destination c)) (pa_destinationPort c).

Definition bare (c : path) (n : Z) (payloads : list bytes) : list bytes :=
  imap (fun i payload => CompressedIP (pa_context c) (n + Z.of_nat i) payload) payloads.

Definition dress (c : path) (n : Z) (payloads : list bytes) : list bytes :=
  match payloads with
  | [] => []
  | payload :: payloads =>
      CompressedIPv6UDP (pa_context c) n (pa_source c) (pa_destination c) (pa_sourcePort c) (pa_destinationPort c) payload
      :: bare c (n + 1) payloads
  end.

Lemma bare_cons c n payload payloads : bare c n (payload :: payloads) = CompressedIP (pa_context c) n payload :: bare c (n + 1) payloads.
Proof.
  unfold bare. cbn [imap]. rewrite Z.add_0_r. f_equal. apply imap_ext. intros i x _. cbn [compose]. f_equal. lia.
Qed.

Section Delivery.

Context (range : gset PacketKey -> list PacketKey).

(** One packet of signaling. *)
Lemma tlvFeed_signaling t p u flows flow m e ms : 4 <= len p -> byteAt p 1 = TLVPacketTypeCompressedIP ->
  ParseUDPPacket p = Ret u -> Flow (t_flows t) u = (flows, (flow, true)) -> fl_DestinationPort flow <> ntpPort ->
  ParseMMTPPacket (udp_Payload u) = Ret m -> mp_PayloadType m = MMTPPayloadTypeSignaling ->
  feedKey (t_assembler t !! keyOf flow m) m = Ret (e, inl ms) ->
  tlvFeed range t p = feedMessages range
    (setAssembler (setFlows (setCurrent t false noKey) flows) (setKey (t_assembler t) (keyOf flow m) e)) (keyOf flow m) ms.
Proof.
  intros Hl Ht Hu Hf Hport Hm Hsig Hk. unfold tlvFeed. unfold TLVType at 1. rewrite idx_byteAt by lia. cbn [mbind go_bind].
  rewrite Ht. change (TLVPacketTypeCompressedIP =? TLVPacketTypeTransmissionControl) with false. cbn iota.
  unfold parseMMTP. rewrite Hu. cbn [orElse setCurrent t_flows]. rewrite Hf. cbn [negb orb].
  rewrite (proj2 (Z.eqb_neq _ _)) by done. rewrite Hm. cbn [orElse mbind go_bind]. rewrite Hsig. cbn [negb Z.eqb Pos.eqb MMTPPayloadTypeSignaling].
  rewrite AssemblerFeed_eq. cbn [setFlows setCurrent t_assembler k_Flow]. rewrite Hk. done.
Qed.

(** What one result of the assembler gives, the transport unchanged. *)
Definition yields (key : PacketKey) (r : list bytes + error) (signals : list signal) : Prop :=
  exists ms, r = inl ms /\ forall t, feedMessages range t key ms = Ret (t, signals).

Lemma bare_feed c (Hc : path_ok c) packetID message raw ms : Forall2 (packet_of packetID message) raw ms ->
  forall n t rs e sigs, t_flows t !! pa_context c = Some (pathFlow c) ->
  feedKeyAll (t_assembler t !! mkKey (pathFlow c) packetID) ms = Ret (e, rs) ->
  Forall2 (yields (mkKey (pathFlow c) packetID)) rs sigs ->
  exists t', tlvFeedAll range t (bare c n raw) = Ret (t', concat sigs).
Proof.
  destruct Hc as (Hctx & _ & _ & _ & _ & _ & _ & Hport).
  induction 1 as [|b m raw ms (Hparse & Hid & Hsig & _) _ IH]; intros n t rs e sigs Hflow Hk Hy.
  - cbn [feedKeyAll] in Hk. injection Hk as _ <-. inversion Hy. subst. by exists t.
  - rewrite bare_cons. cbn [feedKeyAll tlvFeedAll] in *.
    destruct (feedKey (t_assembler t !! mkKey (pathFlow c) packetID) m) as [[e1 r1]|?| |] eqn:E1; try done. cbn [mbind go_bind] in Hk.
    destruct (feedKeyAll e1 ms) as [[e2 rs2]|?| |] eqn:E2; try done. cbn [mbind go_bind] in Hk. injection Hk as -> <-.
    apply Forall2_cons_inv_l in Hy as (s1 & sigs' & (msgs & -> & Hmsg) & Hy' & ->).
    assert (keyOf (pathFlow c) m = mkKey (pathFlow c) packetID) as Hkey by (unfold keyOf; by rewrite Hid).
    rewrite (tlvFeed_signaling t _ (mkUDPPacket true (pa_context c) (Z.land n 0x0f) noAddrPort noAddrPort b) (t_flows t) (pathFlow c) m e1 msgs);
      [|unfold CompressedIP; rewrite length_TLV; lia|done|by apply CompressedIP_parses| |done|done|done|by rewrite Hkey].
    2:{ unfold Flow, flowOf. cbn. by rewrite Hflow. }
    rewrite Hkey, Hmsg. cbn [mbind go_bind].
    destruct (IH (n + 1) (setAssembler (setFlows (setCurrent t false noKey) (t_flows t)) (setKey (t_assembler t) (mkKey (pathFlow c) packetID) e1))
      rs2 e sigs') as (t' & ->); [done| |done|by eexists].
    cbn [setAssembler t_assembler]. unfold setKey. destruct e1; [by rewrite lookup_partial_alter_eq|by rewrite lookup_partial_alter_eq].
Qed.

(** A packet with its headers is a bare one whose flow was known. *)
Lemma headed_as_bare c n t payload : path_ok c ->
  tlvFeed range t (CompressedIPv6UDP (pa_context c) n (pa_source c) (pa_destination c) (pa_sourcePort c) (pa_destinationPort c) payload)
  = tlvFeed range (setFlows t (<[pa_context c := pathFlow c]> (t_flows t))) (CompressedIP (pa_context c) n payload).
Proof.
  intros (Hctx & Hs & Hd & _ & _ & Hsp & Hdp & _).
  set (p := CompressedIPv6UDP _ _ _ _ _ _ _).
  assert (parseMMTP (t_flows t) p = parseMMTP (<[pa_context c := pathFlow c]> (t_flows t)) (CompressedIP (pa_context c) n payload)) as E.
  { unfold parseMMTP, p. rewrite CompressedIPv6UDP_parses, CompressedIP_parses by done. cbn [orElse].
    unfold Flow, flowOf. cbn [udp_Destination udp_Source udp_Compressed udp_ContextID fst snd AddrIsValid negb noAddrPort].
    by rewrite lookup_insert_eq. }
  unfold tlvFeed. change (TLVType p) with (Ret 3). change (TLVType (CompressedIP (pa_context c) n payload)) with (Ret 3).
  cbn [mbind go_bind]. change (3 =? TLVPacketTypeTransmissionControl) with false. cbn iota.
  cbn [setFlows setCurrent t_flows]. by rewrite E.
Qed.

Lemma dress_feed c (Hc : path_ok c) packetID message raw ms n t rs e sigs : Forall2 (packet_of packetID message) raw ms ->
  feedKeyAll (t_assembler t !! mkKey (pathFlow c) packetID) ms = Ret (e, rs) ->
  Forall2 (yields (mkKey (pathFlow c) packetID)) rs sigs ->
  exists t', tlvFeedAll range t (dress c n raw) = Ret (t', concat sigs).
Proof.
  intros Hp Hk Hy.
  destruct (bare_feed c Hc packetID message raw ms Hp n (setFlows t (<[pa_context c := pathFlow c]> (t_flows t))) rs e sigs) as (t' & E);
    [apply lookup_insert_eq|done|done|].
  destruct Hp as [|b m raw ms Hb Hp]; [exists t; by injection E as _ <-|].
  exists t'. rewrite bare_cons in E. cbn [dress tlvFeedAll] in *. by rewrite headed_as_bare.
Qed.

Lemma compressedHead_ok contextID n type : byte_ok type -> bytes_ok (compressedHead contextID n type).
Proof.
  intros Ht. unfold compressedHead. assert (byte_ok (Z.land n 0x0f)).
  { rewrite land_0f. pose proof (Z.mod_pos_bound n 16 ltac:(done)). unfold byte_ok. lia. }
  auto 10 with bytes.
Qed.

Lemma CompressedIP_ok contextID n payload : bytes_ok payload -> len payload <= 0xFFF0 -> tlv_ok (CompressedIP contextID n payload).
Proof.
  intros Hb Hl. eexists _, _. split; [reflexivity|]. conjs; [done|apply bytes_ok_app; [by apply compressedHead_ok|done]|].
  rewrite length_app. cbn [length compressedHead]. lia.
Qed.

Lemma CompressedIPv6UDP_ok c n payload : path_ok c -> bytes_ok payload -> len payload <= 0xFF00 ->
  tlv_ok (CompressedIPv6UDP (pa_context c) n (pa_source c) (pa_destination c) (pa_sourcePort c) (pa_destinationPort c) payload).
Proof.
  intros (_ & Hs & Hd & Hsb & Hdb & _) Hb Hl. eexists _, _. split; [reflexivity|]. conjs; [done| |].
  - unfold be16. repeat apply bytes_ok_app; try done; try (by apply compressedHead_ok); auto 10 with bytes.
  - unfold compressedHead, be16. rewrite !length_app, Hs, Hd. cbn [length]. lia.
Qed.

Lemma dress_ok c payloads : path_ok c -> Forall (fun b => bytes_ok b /\ len b <= 0xFF00) payloads ->
  forall n, Forall tlv_ok (dress c n payloads) /\ Forall tlv_ok (bare c n payloads).
Proof.
  intros Hc. induction 1 as [|b payloads [Hb Hl] _ IH]; intros n; [by split|]. rewrite bare_cons. cbn [dress].
  destruct (IH (n + 1)). split; (constructor; [|done]); [by apply CompressedIPv6UDP_ok|apply CompressedIP_ok; [done|lia]].
Qed.

(** ** Numbered packets are not lost ones *)

(** The detector has seen no packet of the context, or the one before [n]. *)
Definition expects (m : sequenceMonitor) (context n : Z) : Prop :=
  sm_paused m = false /\ forall last, sm_last m !! context = Some last -> last = Z.land (n - 1) 0x0f.

Lemma tlvObserve_expected f m contextID n type rest : 0 <= contextID < 4096 -> expects m contextID n ->
  exists m', tlvObserve f m (TLV 0x03 (compressedHead contextID n type ++ rest)) = Ret (m', None) /\ expects m' contextID (n + 1).
Proof.
  intros Hc [Hp Hm]. destruct (compressedHead_fields contextID n Hc) as [H1 H2].
  unfold tlvObserve. rewrite (proj2 (Z.ltb_ge _ _)) by (rewrite length_TLV, length_app; cbn [length compressedHead]; lia).
  cbn [goor mbind go_bind]. change (TLVType _) with (Ret 3). cbn [mbind go_bind].
  change (negb (3 =? TLVPacketTypeCompressedIP)) with false. cbn iota. rewrite Hp. cbn [andb].
  unfold TLVData, tlvHeaderSize. rewrite slice_from by (rewrite length_TLV; lia). cbn [mbind go_bind].
  change (drop (Z.to_nat 4) (TLV 3 (compressedHead contextID n type ++ rest))) with (compressedHead contextID n type ++ rest).
  rewrite !idx_byteAt by (rewrite length_app; cbn [length compressedHead]; lia). cbn [mbind go_bind].
  unfold byteAt. unfold compressedHead. change (Z.to_nat 0) with 0%nat. change (Z.to_nat 1) with 1%nat. cbn [app lookup list_lookup default].
  cbn [from_option id]. rewrite H1, H2. cbv zeta.
  eexists (mkSequenceMonitor (<[contextID := Z.land n 0x0f]> (sm_last m)) false). split.
  - destruct (sm_last m !! contextID) as [last|] eqn:El; [|done]. rewrite (Hm last eq_refl).
    assert (Z.land (u8 (Z.land (n - 1) 15 + 1)) 15 = Z.land n 15) as -> by (rewrite !land_0f; unfold u8; dmlia).
    by rewrite Z.eqb_refl.
  - split; [done|]. cbn [sm_last]. intros last. rewrite lookup_insert_eq. intros [= <-]. f_equal. lia.
Qed.

Lemma dress_observed f c payloads : path_ok c -> forall n m stats, expects m (pa_context c) n ->
  (exists m', observeBatch (transport := tlvTransportOps range) f m stats (dress c n payloads) = Ret (m', (stats.1 + len payloads, stats.2)))
  /\ exists m', observeBatch (transport := tlvTransportOps range) f m stats (bare c n payloads) = Ret (m', (stats.1 + len payloads, stats.2)).
Proof.
  intros (Hc & _). induction payloads as [|b payloads IH]; intros n m [s1 s2] Hm.
  - cbn [dress bare imap observeBatch length]. rewrite Z.add_0_r. split; by exists m.
  - rewrite bare_cons. cbn [dress]. unfold CompressedIPv6UDP, CompressedIP. cbv zeta. rewrite <- !app_assoc.
    split; cbn [observeBatch];
      match goal with |- context [TLV 3 (compressedHead _ _ ?ty ++ ?rest)] =>
        destruct (tlvObserve_expected f m (pa_context c) n ty rest Hc Hm) as (m' & E & Hm') end;
      cbn [Observe tlvTransportOps]; rewrite E; cbn [mbind go_bind];
      destruct (IH (n + 1) m' (s1 + 1, s2) Hm') as [_ (m2 & E2)]; exists m2; cbn [fst snd] in *;
      change (tlvObserve) with (@Observe _ _ _ _ (tlvTransportOps range)); rewrite E2; cbn [length]; do 3 f_equal; lia.
Qed.

Lemma section_message version s : valid_section s -> byte_ok version ->
  bytes_ok (M2SectionMessage version s) /\ len (M2SectionMessage version s) <= 4103
  /\ forall key t, feedMessages range t key [M2SectionMessage version s] = Ret (t, [mkSignal false s [] key]).
Proof.
  intros Hs Hv. destruct (MessageSection_built version s Hs) as [E _]. destruct Hs as (Hb & H3 & El & _). pose proof (total_range s Hb).
  conjs.
  - unfold M2SectionMessage, message16. auto 10 with bytes.
  - unfold M2SectionMessage, message16. rewrite length_app. cbn [length]. lia.
  - intros key t. cbn [feedMessages]. unfold feedMessage.
    rewrite (proj2 (Z.ltb_ge _ _)) by (unfold M2SectionMessage, message16; rewrite length_app; cbn [length]; lia).
    change (MessageID (M2SectionMessage version s)) with (Ret 0x8000). cbn [mbind go_bind].
    change (0x8000 =? MessageIDPA) with false. change (_ || _) with true. cbn iota. rewrite E. done.
Qed.

(** C26: A section sent over MMT arrives: put into an M2 section message, divided
    into MMTP packets of any size, carried by header-compressed datagrams of
    one context (the first with its headers) in TLV packets, the stream is read
    back into those packets, the transport delivers the section exactly once
    and nothing else, under the flow and packet id it was sent with, whatever
    the transport's state was, and the drop detector reports no loss. *)
Theorem section_survives_the_stack c packetID seq n version s size t m f :
  path_ok c -> valid_section s -> byte_ok version -> 0 <= packetID < 65536 -> 0 <= seq < 2 ^ 32 -> 0 < size ->
  expects m (pa_context c) n ->
  exists raw, SignalingPackets packetID seq (M2SectionMessage version s) size = Ret raw
  /\ readPackets (NewTLVReader (concat (dress c n raw)) ErrEOF) = Ret (dress c n raw, ErrEOF)
  /\ (exists t', tlvFeedAll range t (dress c n raw) = Ret (t', [mkSignal false s [] (mkKey (pathFlow c) packetID)]))
  /\ exists m', observeBatch (transport := tlvTransportOps range) f m (0, 0) (dress c n raw) = Ret (m', (len raw, 0)).
Proof.
  intros Hc Hs Hv Hid Hseq Hsize Hm. destruct (section_message version s Hs Hv) as (Hb & Hl & Hmsg).
  destruct (SignalingPackets_feed packetID seq (M2SectionMessage version s) size) as (raw & packets & E & Hp & Hf);
    [done..|change maxMessageSize with 1048576; lia|].
  exists raw. split; [done|]. conjs.
  - assert (Forall tlv_ok (dress c n raw)) as Hok.
    { apply dress_ok; [done|]. apply Forall_lookup. intros i b Hi.
      destruct (Forall2_lookup_l _ _ _ i b Hp Hi) as (p & _ & _ & _ & _ & H1 & H2). split; [auto|lia]. }
    unfold readPackets. rewrite <- (app_nil_r (concat (dress c n raw))) at 2. unfold NewTLVReader. cbn [tr_rest].
    apply (readPackets_aligned _ _ [] []); [done| | |].
    + intros Hd. destruct Hp as [|b m' raw packets ? ?]; [|done]. specialize (Hf None). done.
    + exists (TLV 0 []), 0%nat. conjs; [exists 0, []; conjs; [done|done|constructor|simpl; lia]|simpl; lia|done].
    + pose proof (concat_tlv_length _ Hok). lia.
  - destruct (dress_feed c Hc packetID _ raw packets n t _ None (replicate (length packets - 1) [] ++ [[mkSignal false s [] (mkKey (pathFlow c) packetID)]])
      Hp (Hf _)) as (t' & Et).
    { apply Forall2_app; [apply Forall2_replicate; by exists []|]. constructor; [|constructor]. by eexists. }
    exists t'. rewrite Et, concat_app.
    assert (forall k, concat (replicate k []) = ([] : list signal)) as -> by (intros k; by induction k). done.
  - destruct (dress_observed f c raw Hc n m (0, 0) Hm) as [H _]. exact H.
Qed.

End Delivery.

(** ** Examples *)

Definition samplePath : path := mkPath 7 (replicate 16 1) (replicate 16 2) 6000 6001.

Lemma samplePath_ok : path_ok samplePath.
Proof. unfold path_ok, samplePath, ntpPort. cbn -[replicate]. conjs; try lia; try done; by apply Forall_replicate. Qed.

(** Counting in a context, wrapping around after the second packet. *)
Lemma section_survives_the_stack_witness : exists raw,
  SignalingPackets 100 5 (M2SectionMessage 3 exampleSection) 4 = Ret raw
  /\ readPackets (NewTLVReader (concat (dress samplePath 14 raw)) ErrEOF) = Ret (dress samplePath 14 raw, ErrEOF)
  /\ (exists t', tlvFeedAll elements newTransport (dress samplePath 14 raw)
        = Ret (t', [mkSignal false exampleSection [] (mkKey (pathFlow samplePath) 100)]))
  /\ exists m', observeBatch (transport := tlvTransportOps elements) None (mkSequenceMonitor ∅ false) (0, 0) (dress samplePath 14 raw)
        = Ret (m', (len raw, 0)).
Proof.
  apply section_survives_the_stack.
  - exact samplePath_ok.
  - exact exampleSection_valid.
  - done.
  - lia.
  - lia.
  - done.
  - split; [done|]. intros last. cbn [sm_last]. by rewrite lookup_empty.
Defined.

(** Two services, 101 and 102, with one asset each, and a media packet. *)
Definition sampleMPT (serviceID packetID : Z) : bytes :=
  BuildTable TableIDMPT 0 ([0; 2] ++ be16 serviceID ++ [0; 0; 1; 0; 0; 0; 0; 0; 1; 0x41; 0x68; 0x65; 0x76; 0x31; 0; 1; 0]
    ++ be16 packetID ++ [0; 0]).
Definition sampleSignaling : bytes :=
  CompressedIPv6UDP 7 0 (replicate 16 1) (replicate 16 2) 6000 6001
    (Bytes (signalingPacket 0 0 (BuildSignalingPayload 0 0 (BuildPAMessage 0 [sampleMPT 101 0x200; sampleMPT 102 0x300])))).
Definition sampleMedia (packetID : Z) : bytes :=
  CompressedIP 7 1 (Bytes (mkMMTP MMTPPayloadTypeMPU packetID 0 1 false None 0 None [1; 2; 3])).

Definition sampleVerdict (serviceID packetID : Z) : go (option bytes) :=
  '(t, _) ← tlvFeedAll elements newTransport [sampleSignaling; sampleMedia packetID];
  '(_, out) ← tlvFilterPacket t (mkTlvFilter serviceID false) (sampleMedia packetID);
  Ret out.

(** Service 101 gets its own asset and what nobody lists, not the one of 102. *)
Example sample_filtered :
  sampleVerdict 101 0x200 = Ret (Some (sampleMedia 0x200)) /\ sampleVerdict 101 0x300 = Ret None
  /\ sampleVerdict 102 0x300 = Ret (Some (sampleMedia 0x300)) /\ sampleVerdict 101 0x400 = Ret (Some (sampleMedia 0x400)).
Proof. conjs; vm_compute; reflexivity. Qed.

Lemma sample_packets_ok : tlv_packet sampleSignaling /\ tlv_packet (sampleMedia 0x300).
Proof.
  assert (forall l, forallb (fun b => (0 <=? b) && (b <? 256)) l = true -> bytes_ok l) as Hall.
  { intros l. induction l as [|b l IH]; cbn [forallb]; [constructor|]. intros [[Hb1 Hb2]%andb_prop Hl]%andb_prop.
    constructor; [apply Z.leb_le in Hb1; apply Z.ltb_lt in Hb2; by split|by apply IH]. }
  split; (split; [apply Hall; vm_compute; reflexivity|vm_compute; split; discriminate]).
Qed.

Lemma tlv_filter_is_exact_witness : exists t before t' after,
  tlvFeedAll elements newTransport [sampleSignaling] = Ret (t, before) /\ tlvFeed elements t (sampleMedia 0x300) = Ret (t', after)
  /\ (excluded (before ++ after) 101 -> tlvFilterPacket t' (mkTlvFilter 101 false) (sampleMedia 0x300) = Err ErrServiceNotFound)
  /\ (~ excluded (before ++ after) 101 ->
        (foreign (before ++ after) (carriedMedia (t_flows t) (sampleMedia 0x300)) 101 ->
           tlvFilterPacket t' (mkTlvFilter 101 false) (sampleMedia 0x300) = Ret (mkTlvFilter 101 true, None))
        /\ (~ foreign (before ++ after) (carriedMedia (t_flows t) (sampleMedia 0x300)) 101 ->
           tlvFilterPacket t' (mkTlvFilter 101 false) (sampleMedia 0x300) = Ret (mkTlvFilter 101 false, Some (sampleMedia 0x300)))).
Proof.
  apply (tlv_filter_is_exact elements (fun s => reflexivity _) [sampleSignaling] (sampleMedia 0x300) (mkTlvFilter 101 false)).
  - constructor; [exact (proj1 sample_packets_ok)|constructor].
  - exact (proj2 sample_packets_ok).
Defined.
