(* ===== verification/AgentHub.v ===== *)
(** * Remote tuners (internal/agent: hub.go, client.go, protocol.go)

    Agents on other machines dial in, keep a control connection and upload the
    stream of a tuner as a session.  [Hub] is the state under [Hub.mu]; a
    [*connection] and a [*Device] are addresses into stores, and the channel
    [changed], closed and replaced on every change, is the number of changes.
    A device carries what its [Once]s and channels have settled: the first
    value of [ready], the error of [finish], and whether it is [cleaned].

    The websocket, the bytes of an upload and the timers are outside: which of
    their outcomes happened is an argument of the operations. *)

From stdpp Require Import strings.
From S2P Require Import Prelude.

(** ** Protocol *)

Definition Version : Z := 2.

Record Request := mkRequest {
  rq_Decoder : string;
  rq_Tuner : string;
  rq_Command : string;
  rq_DVBDevicePath : string;
  rq_Transport : string;
  rq_RelativeTS : Z;
  rq_RetryMax : Z;
  rq_TimeoutMS : Z;
  rq_RetryDelayMS : Z
}.

Record message := mkMessage {
  m_Type : string;
  m_Version : Z;
  m_Generation : string;
  m_Instance : string;
  m_BootID : string;
  m_RecoveredGeneration : string;
  m_Session : string;
  m_Request : option Request;
  m_Error : string
}.

(** ** The hub *)

Record connection := mkConnection {
  cn_control : bool;
  cn_generation : string;
  cn_instance : string;
  cn_bootID : string
}.

(** [ready]: the value sent, at most once. *)
Record Device := mkDevice {
  dv_agent : string;
  dv_request : Request;
  dv_conn : option Z;
  dv_id : string;
  dv_uploaded : bool;
  dv_finished : bool;
  dv_err : option error;
  dv_ready : option (option error);
  dv_cleaned : bool;
  dv_stopSent : bool;
  dv_cleanupErr : option error
}.

Record Hub := mkHub {
  hub_conns : gmap Z connection;
  hub_connections : gmap string Z;
  hub_devices : gmap Z Device;
  hub_sessions : gmap string Z;
  hub_quarantined : gmap (string * string) Z;
  hub_closed : bool;
  hub_changed : Z
}.

Definition NewHub : Hub := mkHub ∅ ∅ ∅ ∅ ∅ false 0.

Definition setConnections (h : Hub) (conns : gmap Z connection) (connections : gmap string Z) : Hub :=
  mkHub conns connections (hub_devices h) (hub_sessions h) (hub_quarantined h) (hub_closed h) (hub_changed h).
Definition setDevice (h : Hub) (d : Z) (dev : Device) : Hub :=
  mkHub (hub_conns h) (hub_connections h) (<[d := dev]> (hub_devices h)) (hub_sessions h) (hub_quarantined h) (hub_closed h) (hub_changed h).
Definition setSessions (h : Hub) (sessions : gmap string Z) : Hub :=
  mkHub (hub_conns h) (hub_connections h) (hub_devices h) sessions (hub_quarantined h) (hub_closed h) (hub_changed h).
Definition setQuarantined (h : Hub) (quarantined : gmap (string * string) Z) : Hub :=
  mkHub (hub_conns h) (hub_connections h) (hub_devices h) (hub_sessions h) quarantined (hub_closed h) (hub_changed h).

Definition notifyHubLocked (h : Hub) : Hub :=
  mkHub (hub_conns h) (hub_connections h) (hub_devices h) (hub_sessions h) (hub_quarantined h) (hub_closed h) (hub_changed h + 1).

(** Following a pointer that the code does not test. *)
Definition connOf (h : Hub) (c : Z) : go connection := match hub_conns h !! c with Some x => Ret x | None => Panic end.
Definition devOf (h : Hub) (d : Z) : go Device := match hub_devices h !! d with Some x => Ret x | None => Panic end.

(** [connections[id] != nil && connections[id].control != nil]. *)
Definition controlled (h : Hub) (id : string) : bool :=
  match hub_connections h !! id with
  | None => false
  | Some c => match hub_conns h !! c with Some x => cn_control x | None => false end
  end.

Definition HubAvailable (h : option Hub) (id tuner : string) : bool :=
  match h with
  | None => false
  | Some h => negb (hub_closed h) && controlled h id && bool_decide (hub_quarantined h !! (id, tuner) = None)
  end.

(** ** Devices *)

Definition newAgentDevice (h : Hub) (d : Z) (id : string) (r : Request) : Hub :=
  setDevice h d (mkDevice id r None EmptyString false false None None false false None).

Definition signalReady (dev : Device) (e : option error) : Device :=
  mkDevice (dv_agent dev) (dv_request dev) (dv_conn dev) (dv_id dev) (dv_uploaded dev) (dv_finished dev) (dv_err dev)
    (match dv_ready dev with Some r => Some r | None => Some e end) (dv_cleaned dev) (dv_stopSent dev) (dv_cleanupErr dev).

Definition finish (dev : Device) (e : option error) : Device :=
  if dv_finished dev then dev
  else mkDevice (dv_agent dev) (dv_request dev) (dv_conn dev) (dv_id dev) (dv_uploaded dev) true e
         (dv_ready dev) (dv_cleaned dev) (dv_stopSent dev) (dv_cleanupErr dev).

Definition setCleaned (dev : Device) (cleanupErr : option error) : Device :=
  mkDevice (dv_agent dev) (dv_request dev) (dv_conn dev) (dv_id dev) (dv_uploaded dev) (dv_finished dev) (dv_err dev)
    (dv_ready dev) true (dv_stopSent dev) cleanupErr.

Definition abort (dev : Device) (e : option error) : Device :=
  let dev := finish (signalReady dev e) e in setCleaned dev (dv_cleanupErr dev).

Definition updateDevice (h : Hub) (d : Z) (f : Device -> Device) : go Hub :=
  dev ← devOf h d; Ret (setDevice h d (f dev)).

Definition tunerKeyOf (dev : Device) : string * string := (dv_agent dev, rq_Tuner (dv_request dev)).

(** [complete]: the agent has stopped the session; [reason] says if it could
    not clean up.  A nil entry of [quarantined] reads as none. *)
Definition completeDevice (h : Hub) (d : Z) (reason : string) : go Hub :=
  let err := if bool_decide (reason <> EmptyString) then Some ErrCleanup else None in
  dev ← devOf h d;
  let key := tunerKeyOf dev in
  let quarantined :=
    match err with
    | Some _ => match dv_conn dev with Some c => <[key := c]> (hub_quarantined h) | None => delete key (hub_quarantined h) end
    | None => if bool_decide (hub_quarantined h !! key = dv_conn dev) then delete key (hub_quarantined h) else hub_quarantined h
    end in
  let h := setSessions (notifyHubLocked (setQuarantined h quarantined)) (delete (dv_id dev) (hub_sessions h)) in
  let dev := finish (signalReady dev (Some (ErrOther 1))) err in
  Ret (setDevice h d (setCleaned dev err)).

(** [Start] up to the message to the agent: [sid] is the random session id. *)
Definition startSession (h : Hub) (d : Z) (sid : string) : go (Hub * option error) :=
  dev ← devOf h d;
  match hub_connections h !! dv_agent dev with
  | Some c =>
      if hub_closed h || negb (controlled h (dv_agent dev)) || bool_decide (hub_quarantined h !! tunerKeyOf dev <> None) then
        Ret (setDevice h d (abort dev (Some ErrAgentUnavailable)), Some ErrAgentUnavailable)
      else if dv_finished dev then Ret (h, Some ErrAgentUnavailable)
      else
        let dev := mkDevice (dv_agent dev) (dv_request dev) (Some c) sid (dv_uploaded dev) (dv_finished dev) (dv_err dev)
                     (dv_ready dev) (dv_cleaned dev) (dv_stopSent dev) (dv_cleanupErr dev) in
        Ret (setSessions (setDevice h d dev) (<[sid := d]> (hub_sessions h)), None)
  | None => Ret (setDevice h d (abort dev (Some ErrAgentUnavailable)), Some ErrAgentUnavailable)
  end.

(** The message could not be sent. *)
Definition startSendFailed (h : Hub) (d : Z) (err : error) : go Hub := updateDevice h d (fun dev => abort dev (Some err)).

(** The wait for [ready] ended with an error, of the device, of the context or of the timer. *)
Definition startFailed (h : Hub) (d : Z) (startErr : error) : go Hub := updateDevice h d (fun dev => finish dev (Some startErr)).

(** [Stop] up to the wait for the agent. *)
Definition stopSend (h : Hub) (d : Z) : go (Hub * bool) :=
  dev ← devOf h d;
  match dv_conn dev with
  | None => Ret (setDevice h d (abort dev (Some ErrCanceled)), false)
  | Some _ =>
      if dv_stopSent dev then Ret (h, true)
      else
        let dev := finish (signalReady dev (Some ErrCanceled)) None in
        Ret (setDevice h d (mkDevice (dv_agent dev) (dv_request dev) (dv_conn dev) (dv_id dev) (dv_uploaded dev) (dv_finished dev)
                              (dv_err dev) (dv_ready dev) (dv_cleaned dev) true (dv_cleanupErr dev)), true)
  end.

(** The context ended before the agent answered. *)
Definition stopTimeout (h : Hub) (d : Z) : go Hub :=
  dev ← devOf h d;
  if bool_decide (hub_sessions h !! dv_id dev = Some d) then
    match dv_conn dev with
    | Some c => Ret (setQuarantined h (<[tunerKeyOf dev := c]> (hub_quarantined h)))
    | None => Ret (setQuarantined h (delete (tunerKeyOf dev) (hub_quarantined h)))
    end
  else Ret h.

(** ** Control connections *)

(** [serveControl] before the upgrade: [c] is the new connection. *)
Definition register (h : Hub) (id : string) (c : Z) (generation : string) : go Hub :=
  if hub_closed h || bool_decide (hub_connections h !! id <> None) then Err ErrAgentConflict
  else Ret (setConnections h (<[c := mkConnection false generation EmptyString EmptyString]> (hub_conns h)) (<[id := c]> (hub_connections h))).

Definition helloAccepted (hello : message) : bool :=
  bool_decide (m_Type hello = "hello"%string) && (m_Version hello =? Version) && bool_decide (m_Instance hello <> EmptyString).

(** Whether a quarantine that the connection [previous] left is over. *)
Definition recovers (previous : connection) (hello : message) : bool :=
  let recovered := bool_decide (cn_instance previous = m_Instance hello) && bool_decide (cn_generation previous = m_RecoveredGeneration hello) in
  let rebooted := bool_decide (cn_bootID previous <> EmptyString) && bool_decide (m_BootID hello <> EmptyString)
                  && bool_decide (cn_bootID previous <> m_BootID hello) in
  recovered || rebooted.

(** The quarantines that stay after [hello]; [previous] is followed untested. *)
Definition keptAfter (h : Hub) (id : string) (hello : message) : gmap (string * string) Z :=
  filter (fun entry : string * string * Z =>
    ~ (entry.1.1 = id /\ from_option (fun p => recovers p hello) false (hub_conns h !! entry.2) = true)) (hub_quarantined h).

(** After the welcome was sent; [false] ends the connection. *)
Definition hello (h : Hub) (id : string) (c : Z) (m : message) : go (Hub * bool) :=
  conn ← connOf h c;
  if negb (helloAccepted m) then Ret (h, false)
  else if hub_closed h then Ret (h, false)
  else
    let conns := <[c := mkConnection true (cn_generation conn) (m_Instance m) (m_BootID m)]> (hub_conns h) in
    let h := setConnections h conns (hub_connections h) in
    Ret (notifyHubLocked (setQuarantined h (keptAfter h id m)), true).

(** A message of the agent. *)
Definition controlMessage (h : Hub) (id : string) (c : Z) (m : message) : go (Hub * bool) :=
  if bool_decide (m_Type m = "heartbeat"%string) then Ret (h, true)
  else if bool_decide (m_Type m = "failed"%string) || bool_decide (m_Type m = "stopped"%string) then
    match hub_sessions h !! m_Session m with
    | None => Ret (h, true)
    | Some d =>
        dev ← devOf h d;
        if bool_decide (dv_conn dev = Some c) && bool_decide (dv_agent dev = id) then
          if bool_decide (m_Type m = "failed"%string) then Ret (setDevice h d (signalReady dev (Some (ErrOther 2))), true)
          else h ← completeDevice h d (m_Error m); Ret (h, true)
        else Ret (h, true)
    end
  else Ret (h, false).

(** One session of the loop of [disconnect]: the quarantines, the sessions
    and the devices cut off. *)
Definition cutSession (h : Hub) (id : string) (c : Z)
    (st : gmap (string * string) Z * gmap string Z * list Z) (d : Z) : go (gmap (string * string) Z * gmap string Z * list Z) :=
  let '(quarantined, sessions, devices) := st in
  dev ← devOf h d;
  if bool_decide (dv_conn dev = Some c) then
    Ret (<[(id, rq_Tuner (dv_request dev)) := c]> quarantined, delete (dv_id dev) sessions, devices ++ [d])
  else Ret st.

Fixpoint cutSessions (h : Hub) (id : string) (c : Z) (st : gmap (string * string) Z * gmap string Z * list Z) (ds : list Z) :
    go (gmap (string * string) Z * gmap string Z * list Z) :=
  match ds with
  | [] => Ret st
  | d :: ds => st ← cutSession h id c st d; cutSessions h id c st ds
  end.

Fixpoint abortDevices (h : Hub) (ds : list Z) (e : error) : go Hub :=
  match ds with
  | [] => Ret h
  | d :: ds => h ← updateDevice h d (fun dev => abort dev (Some e)); abortDevices h ds e
  end.

Definition disconnect (h : Hub) (id : string) (c : Z) : go Hub :=
  let connections := if bool_decide (hub_connections h !! id = Some c) then delete id (hub_connections h) else hub_connections h in
  '(quarantined, sessions, devices) ← cutSessions h id c (hub_quarantined h, hub_sessions h, []) (map_to_list (hub_sessions h)).*2;
  abortDevices (notifyHubLocked (setSessions (setQuarantined (setConnections h (hub_conns h) connections) quarantined) sessions)) devices ErrAgentUnavailable.

Definition hubClose (h : Hub) : Hub :=
  mkHub (hub_conns h) (hub_connections h) (hub_devices h) (hub_sessions h) (hub_quarantined h) true (hub_changed h).

(** ** Uploads *)

Definition serveStream (h : Hub) (id session generation : string) : go (Hub * Z) :=
  match hub_sessions h !! session with
  | None => Err ErrUnknownSession
  | Some d =>
      dev ← devOf h d;
      if negb (bool_decide (dv_agent dev = id)) || negb (bool_decide (hub_connections h !! id = dv_conn dev)) then Err ErrUnknownSession
      else
        match dv_conn dev with
        | None => Panic
        | Some c =>
            conn ← connOf h c;
            if negb (bool_decide (generation = cn_generation conn)) then Err ErrUnknownSession
            else if dv_uploaded dev || dv_finished dev then Err ErrSessionUsed
            else Ret (setDevice h d (mkDevice (dv_agent dev) (dv_request dev) (dv_conn dev) (dv_id dev) true (dv_finished dev) (dv_err dev)
                                       (dv_ready dev) (dv_cleaned dev) (dv_stopSent dev) (dv_cleanupErr dev)), d)
        end
  end.

(** The first bytes of an upload are there. *)
Definition uploadStarted (h : Hub) (d : Z) : go Hub := updateDevice h d (fun dev => signalReady dev None).

(** The end of an upload: the bytes of the first read and the error. *)
Definition uploadEnd (h : Hub) (d : Z) (n : Z) (err : option error) : go Hub :=
  let err := match err with None => if n =? 0 then Some ErrNoProgress else None | Some e => Some e end in
  updateDevice h d (fun dev => let dev := finish dev err in match err with Some _ => signalReady dev err | None => dev end).

(** ** The agent's side (client.go) *)

Definition validRequest (r : Request) : bool :=
  bool_decide (rq_Tuner r <> EmptyString) && bool_decide (rq_Command r <> EmptyString)
  && (bool_decide (rq_Transport r = "ts"%string) || bool_decide (rq_Transport r = "tlv"%string))
  && (rq_RelativeTS r <=? 15) && (negb (bool_decide (rq_Transport r = "tlv"%string)) || (rq_RelativeTS r =? 0))
  && (0 <=? rq_RetryMax r) && (rq_RetryMax r <=? 100) && (0 <=? rq_TimeoutMS r) && (rq_TimeoutMS r <=? 3600000)
  && (0 <=? rq_RetryDelayMS r) && (rq_RetryDelayMS r <=? 3600000).

(** The durations of protocol.go in nanoseconds. *)
Definition ms : Z := 1000000.
Definition timeout (r : Request) : Z := if rq_TimeoutMS r <=? 0 then 2000 * ms else rq_TimeoutMS r * ms.
Definition delay (r : Request) : Z := if rq_RetryDelayMS r <=? 0 then 500 * ms else rq_RetryDelayMS r * ms.
Definition startTimeout (r : Request) : Z := (rq_RetryMax r + 1) * timeout r + rq_RetryMax r * delay r + 5000 * ms.

(** The state of one [connect]: the tuner of the worker of each session, and
    which workers have been told to stop. *)
Record client := mkClient {
  cl_workers : gmap string string;
  cl_canceled : gset string;
  cl_cleanupFailed : bool
}.

Definition reply (type session err : string) : message := mkMessage type 0 EmptyString EmptyString EmptyString EmptyString session None err.

(** A message of the hub: the answers sent, or [None] when the connection ends. *)
Definition clientMessage (cl : client) (m : message) : option (client * list message) :=
  if bool_decide (m_Type m = "heartbeat"%string) then Some (cl, [])
  else if bool_decide (m_Type m = "start"%string) then
    match m_Request m with
    | None => None
    | Some r =>
        if bool_decide (m_Session m = EmptyString) || negb (validRequest r) then None
        else if bool_decide (cl_workers cl !! m_Session m <> None) || existsb (fun t => bool_decide (t = rq_Tuner r)) (map_to_list (cl_workers cl)).*2
        then Some (cl, [reply "failed" (m_Session m) "tuner busy"])
        else Some (mkClient (<[m_Session m := rq_Tuner r]> (cl_workers cl)) (cl_canceled cl ∖ {[m_Session m]}) (cl_cleanupFailed cl), [])
    end
  else if bool_decide (m_Type m = "stop"%string) then
    match cl_workers cl !! m_Session m with
    | Some _ => Some (mkClient (cl_workers cl) (cl_canceled cl ∪ {[m_Session m]}) (cl_cleanupFailed cl), [])
    | None => Some (cl, [reply "stopped" (m_Session m) EmptyString])
    end
  else None.

(** A worker returned: [err] is its error's text, [cleanup] says that the error
    is [errCleanup]; [ended] that the connection as a whole is being torn down. *)
Definition workerEnd (cl : client) (session : string) (err : option string) (cleanup ended : bool) : client * list message :=
  let cl' := mkClient (delete session (cl_workers cl)) (cl_canceled cl) (cl_cleanupFailed cl || (cleanup && bool_decide (err <> None))) in
  let reason := match err with Some e => if cleanup then e else EmptyString | None => EmptyString end in
  let canceled := ended || bool_decide (session ∈ cl_canceled cl) in
  (cl', match err with Some e => if canceled then [] else [reply "failed" session e] | None => [] end ++ [reply "stopped" session reason]).

Record clientState := mkClientState {
  cs_instance : string;
  cs_bootID : string;
  cs_recoveredGeneration : string
}.

Definition clientHello (s : clientState) : message :=
  mkMessage "hello" Version EmptyString (cs_instance s) (cs_bootID s) (cs_recoveredGeneration s) EmptyString None EmptyString.

(** The deferred end of [connect]: all workers have returned. *)
Definition connectEnd (s : clientState) (generation : string) (cl : client) : clientState * option error :=
  if cl_cleanupFailed cl then (s, Some ErrCleanup) else (mkClientState (cs_instance s) (cs_bootID s) generation, None).
