(* ===== verification/AgentQuarantine.v ===== *)
(** * Sessions and quarantine of remote tuners

    The invariant of the hub under every operation, what it promises to the
    tuner pool, and that a tuner whose session was cut off stays unavailable
    until its agent has cleaned up. *)

From stdpp Require Import strings.
From S2P Require Import Prelude AgentHub.

(** ** The hub as a transition system *)

(** What a step tells about itself: the [hello] of an agent. *)
Definition label : Type := option (string * message).

Inductive hubStep : Hub -> label -> Hub -> Prop :=
  | s_register h id c generation h' : hub_conns h !! c = None ->
      register h id c generation = Ret h' -> hubStep h None h'
  | s_hello h id c m h' b : hub_connections h !! id = Some c -> controlled h id = false ->
      hello h id c m = Ret (h', b) -> hubStep h (Some (id, m)) h'
  | s_message h id c m h' b : hub_connections h !! id = Some c -> controlled h id = true ->
      controlMessage h id c m = Ret (h', b) -> hubStep h None h'
  | s_disconnect h id c h' : hub_connections h !! id = Some c -> disconnect h id c = Ret h' -> hubStep h None h'
  | s_close h : hubStep h None (hubClose h)
  | s_newDevice h d id r : hub_devices h !! d = None -> hubStep h None (newAgentDevice h d id r)
  | s_start h d sid dev h' err : hub_devices h !! d = Some dev -> dv_conn dev = None -> hub_sessions h !! sid = None ->
      startSession h d sid = Ret (h', err) -> hubStep h None h'
  | s_sendFailed h d err h' : startSendFailed h d err = Ret h' -> hubStep h None h'
  | s_startFailed h d err h' : startFailed h d err = Ret h' -> hubStep h None h'
  | s_stop h d h' w : stopSend h d = Ret (h', w) -> hubStep h None h'
  | s_timeout h d h' : stopTimeout h d = Ret h' -> hubStep h None h'
  | s_stream h id session generation h' d : serveStream h id session generation = Ret (h', d) -> hubStep h None h'
  | s_uploadStarted h d h' : uploadStarted h d = Ret h' -> hubStep h None h'
  | s_uploadEnd h d n err h' : uploadEnd h d n err = Ret h' -> hubStep h None h'.

Inductive hubRun : Hub -> list label -> Hub -> Prop :=
  | run_nil h : hubRun h [] h
  | run_cons h l h1 ls h2 : hubStep h l h1 -> hubRun h1 ls h2 -> hubRun h (l :: ls) h2.

(** ** Invariant *)

Definition onSession (h : Hub) (sid : string) (d : Z) (dev : Device) : Prop :=
  hub_sessions h !! sid = Some d /\ hub_devices h !! d = Some dev.

Record hub_ok (h : Hub) : Prop := {
  h_conns : forall id c, hub_connections h !! id = Some c -> is_Some (hub_conns h !! c);
  h_inj : forall id1 id2 c, hub_connections h !! id1 = Some c -> hub_connections h !! id2 = Some c -> id1 = id2;
  h_devices : forall sid d, hub_sessions h !! sid = Some d -> is_Some (hub_devices h !! d);
  h_sessions : forall sid d dev, onSession h sid d dev ->
    dv_id dev = sid /\ controlled h (dv_agent dev) = true /\ is_Some (dv_conn dev) /\ dv_conn dev = hub_connections h !! dv_agent dev;
  h_quarantine : forall key c, hub_quarantined h !! key = Some c -> is_Some (hub_conns h !! c);
  h_owner : forall sid d dev c, onSession h sid d dev -> hub_quarantined h !! tunerKeyOf dev = Some c -> dv_conn dev = Some c;
  h_cleaned : forall d dev c, hub_devices h !! d = Some dev -> dv_conn dev = Some c -> dv_cleaned dev = false ->
    hub_sessions h !! dv_id dev = Some d
}.

(** ** Device updates *)

(** A device that went on with its session. *)
Definition goesOn (a b : Device) : Prop :=
  dv_agent b = dv_agent a /\ dv_request b = dv_request a /\ dv_conn b = dv_conn a /\ dv_id b = dv_id a /\ (dv_cleaned a = true -> dv_cleaned b = true).

Definition devicesGoOn (a b : gmap Z Device) : Prop := forall d, option_Forall2 goesOn (a !! d) (b !! d).

#[export] Instance goesOn_preorder : PreOrder goesOn.
Proof. split; [done|]. intros a b c (? & ? & ? & ? & ?) (? & ? & ? & ? & ?). unfold goesOn. conjs; congruence || auto. Qed.

Lemma goesOn_signalReady dev e : goesOn dev (signalReady dev e).
Proof. done. Qed.
Lemma goesOn_finish dev e : goesOn dev (finish dev e).
Proof. unfold finish. by destruct (dv_finished dev). Qed.
Lemma goesOn_setCleaned dev e : goesOn dev (setCleaned dev e).
Proof. done. Qed.
Lemma goesOn_abort dev e : goesOn dev (abort dev e).
Proof.
  unfold abort. etransitivity; [|apply goesOn_setCleaned]. etransitivity; [apply goesOn_signalReady|apply goesOn_finish].
Qed.
#[export] Hint Resolve goesOn_signalReady goesOn_finish goesOn_setCleaned goesOn_abort : hub.

Lemma devicesGoOn_refl a : devicesGoOn a a.
Proof. intros d. destruct (a !! d); by constructor. Qed.

Lemma devicesGoOn_trans a b c : devicesGoOn a b -> devicesGoOn b c -> devicesGoOn a c.
Proof.
  intros H1 H2 d. specialize (H1 d). specialize (H2 d). destruct (a !! d), (b !! d), (c !! d); inversion H1; inversion H2; subst; constructor. by etransitivity.
Qed.

Lemma devicesGoOn_insert a d dev dev' : a !! d = Some dev -> goesOn dev dev' -> devicesGoOn a (<[d := dev']> a).
Proof.
  intros Hd Hg e. destruct (decide (e = d)) as [-> |Hne].
  - rewrite Hd, lookup_insert_eq. by constructor.
  - rewrite lookup_insert_ne by done. apply devicesGoOn_refl.
Qed.

(** Everything of the hub but its devices. *)
Definition sameBut (h h' : Hub) : Prop :=
  hub_conns h' = hub_conns h /\ hub_connections h' = hub_connections h /\ hub_sessions h' = hub_sessions h
  /\ hub_quarantined h' = hub_quarantined h /\ hub_closed h' = hub_closed h /\ hub_changed h' = hub_changed h.

Definition touches (h h' : Hub) : Prop := sameBut h h' /\ devicesGoOn (hub_devices h) (hub_devices h').

Lemma touches_update h d f h' : (forall dev, goesOn dev (f dev)) -> updateDevice h d f = Ret h' -> touches h h'.
Proof.
  intros Hf. unfold updateDevice, devOf. destruct (hub_devices h !! d) as [dev|] eqn:E; cbn [mbind go_bind]; [|done].
  intros [= <-]. split; [done|]. by apply (devicesGoOn_insert _ _ dev).
Qed.

Lemma touches_setDevice h d dev dev' : hub_devices h !! d = Some dev -> goesOn dev dev' -> touches h (setDevice h d dev').
Proof. intros Hd Hg. split; [done|]. by apply (devicesGoOn_insert _ _ dev). Qed.

Lemma controlled_same h h' id : hub_conns h' = hub_conns h -> hub_connections h' = hub_connections h -> controlled h' id = controlled h id.
Proof. unfold controlled. by intros -> ->. Qed.

Lemma touches_onSession h h' sid d dev' : touches h h' -> onSession h' sid d dev' -> exists dev, onSession h sid d dev /\ goesOn dev dev'.
Proof.
  intros [(_ & _ & Hs & _) Hd] [H1 H2]. specialize (Hd d). rewrite H2 in Hd. inversion Hd as [dev ? Hg|]; subst.
  exists dev. unfold onSession. by rewrite <- Hs.
Qed.

Lemma touches_ok h h' : hub_ok h -> touches h h' -> hub_ok h'.
Proof.
  intros [] Ht. pose proof Ht as [(E1 & E2 & E3 & E4 & E5 & E6) Hd]. constructor.
  - rewrite E1, E2. done.
  - rewrite E2. done.
  - intros sid d Hs. rewrite E3 in Hs. specialize (Hd d). destruct (h_devices0 sid d Hs) as [dev Hdev]. rewrite Hdev in Hd. by inversion Hd.
  - intros sid d dev' (dev & Ho & Ha & Hr & Hc & Hi & _)%(touches_onSession h h'); [|done].
    destruct (h_sessions0 _ _ _ Ho) as (? & ? & ? & ?). rewrite (controlled_same h h') by done. rewrite E2, Ha, Hc, Hi. done.
  - rewrite E1, E4. done.
  - intros sid d dev' c (dev & Ho & Ha & Hr & Hc & Hi & _)%(touches_onSession h h'); [|done].
    rewrite E4, Hc. unfold tunerKeyOf. rewrite Ha, Hr. by eapply h_owner0.
  - intros d dev' c Hdev Hc Hn. specialize (Hd d). rewrite Hdev in Hd. inversion Hd as [dev ? (Ha & Hr & Hc' & Hi & Hcl)|]; subst.
    rewrite E3, Hi. apply (h_cleaned0 d dev c); [done|congruence|]. destruct (dv_cleaned dev); [|done].
    rewrite Hcl in Hn; done.
Qed.

(** ** Operations that only touch devices *)

Lemma touches_trans h1 h2 h3 : touches h1 h2 -> touches h2 h3 -> touches h1 h3.
Proof.
  intros [(? & ? & ? & ? & ? & ?) Ha] [(? & ? & ? & ? & ? & ?) Hb]. split; [unfold sameBut; conjs; congruence|by eapply devicesGoOn_trans].
Qed.

Lemma touches_refl h : touches h h.
Proof. split; [done|apply devicesGoOn_refl]. Qed.

Lemma touches_startSendFailed h d e h' : startSendFailed h d e = Ret h' -> touches h h'.
Proof. apply touches_update. auto with hub. Qed.
Lemma touches_startFailed h d e h' : startFailed h d e = Ret h' -> touches h h'.
Proof. apply touches_update. auto with hub. Qed.
Lemma touches_uploadStarted h d h' : uploadStarted h d = Ret h' -> touches h h'.
Proof. apply touches_update. auto with hub. Qed.

Lemma touches_uploadEnd h d n e h' : uploadEnd h d n e = Ret h' -> touches h h'.
Proof.
  apply touches_update. intros dev. destruct e as [e|]; [|destruct (n =? 0)].
  1, 2: etransitivity; [apply goesOn_finish|apply goesOn_signalReady]. apply goesOn_finish.
Qed.

Lemma touches_stopSend h d h' w : stopSend h d = Ret (h', w) -> touches h h'.
Proof.
  unfold stopSend, devOf. destruct (hub_devices h !! d) as [dev|] eqn:E; cbn [mbind go_bind]; [|done].
  destruct (dv_conn dev) as [c|] eqn:Ec.
  - destruct (dv_stopSent dev); intros [= <- <-]; [apply touches_refl|]. apply (touches_setDevice _ _ dev); [done|].
    transitivity (finish (signalReady dev (Some ErrCanceled)) None); [etransitivity; [apply goesOn_signalReady|apply goesOn_finish]|done].
  - intros [= <- <-]. apply (touches_setDevice _ _ dev); [done|apply goesOn_abort].
Qed.

Lemma touches_serveStream h id s g h' d : serveStream h id s g = Ret (h', d) -> touches h h'.
Proof.
  unfold serveStream, devOf, connOf. destruct (hub_sessions h !! s) as [e|]; [|done].
  destruct (hub_devices h !! e) as [dev|] eqn:E; cbn [mbind go_bind]; [|done]. destruct (_ || _); [done|].
  destruct (dv_conn dev) as [c|] eqn:Ec; [|done]. destruct (hub_conns h !! c); cbn [mbind go_bind]; [|done].
  destruct (negb _); [done|]. destruct (_ || _); [done|]. intros [= <- <-]. apply (touches_setDevice _ _ dev); [done|]. unfold goesOn. by conjs.
Qed.

Lemma abortDevices_touches ds e : forall h, Forall (fun d => is_Some (hub_devices h !! d)) ds ->
  exists h', abortDevices h ds e = Ret h' /\ touches h h' /\ forall d dev, d ∈ ds -> hub_devices h' !! d = Some dev -> dv_cleaned dev = true.
Proof.
  induction ds as [|d ds IH]; intros h Hds.
  { exists h. split; [done|split; [apply touches_refl|]]. intros d dev Hd. by apply not_elem_of_nil in Hd. }
  apply Forall_cons in Hds as [[dev Hdev] Hds]. cbn [abortDevices]. unfold updateDevice, devOf. rewrite Hdev. cbn [mbind go_bind].
  pose proof (touches_setDevice h d dev _ Hdev (goesOn_abort dev (Some e))) as Ht. set (h1 := setDevice h d _) in *.
  destruct (IH h1) as (h' & -> & Ht' & Hcl).
  { eapply Forall_impl; [exact Hds|]. intros x [y Hx]. destruct Ht as [_ Hd]. specialize (Hd x). rewrite Hx in Hd. by inversion Hd. }
  exists h'. split; [done|]. split; [by eapply touches_trans|]. intros x dev' [-> |Hx]%elem_of_cons Hdev'; [|by eapply Hcl].
  destruct Ht' as [_ Hd]. specialize (Hd d). unfold h1, setDevice in Hd. cbn [hub_devices] in Hd. rewrite lookup_insert_eq, Hdev' in Hd.
  inversion Hd as [? ? (_ & _ & _ & _ & Hc)|]; subst. by apply Hc.
Qed.

(** ** Cutting off the sessions of a connection *)

Definition cutDevice (h : Hub) (c : Z) (ds : list Z) (d : Z) (dev : Device) : Prop :=
  d ∈ ds /\ hub_devices h !! d = Some dev /\ dv_conn dev = Some c.

Lemma cutSessions_spec h id c ds : Forall (fun d => is_Some (hub_devices h !! d)) ds -> forall q s l,
  exists q' s' l', cutSessions h id c (q, s, l) ds = Ret (q', s', l ++ l')
  /\ (forall d dev, cutDevice h c ds d dev -> q' !! (id, rq_Tuner (dv_request dev)) = Some c)
  /\ (forall key, q' !! key = q !! key \/ q' !! key = Some c)
  /\ (forall key, q' !! key = q !! key \/ exists d dev, cutDevice h c ds d dev /\ key = (id, rq_Tuner (dv_request dev)))
  /\ (forall sid, s' !! sid = s !! sid \/ s' !! sid = None)
  /\ (forall d dev, cutDevice h c ds d dev -> s' !! dv_id dev = None)
  /\ (forall sid, (forall d dev, cutDevice h c ds d dev -> dv_id dev <> sid) -> s' !! sid = s !! sid)
  /\ (forall d, d ∈ l' <-> exists dev, cutDevice h c ds d dev).
Proof.
  induction ds as [|d ds IH]; intros Hds q s l.
  { exists q, s, []. cbn. rewrite app_nil_r. conjs; eauto.
    - intros ? ? [H _]. by apply not_elem_of_nil in H.
    - intros ? ? [H _]. by apply not_elem_of_nil in H.
    - intros e. rewrite elem_of_nil. split; [done|]. intros (? & H & _). by apply not_elem_of_nil in H. }
  apply Forall_cons in Hds as [[dev Hdev] Hds]. specialize (IH Hds). cbn [cutSessions]. unfold cutSession, devOf. rewrite Hdev. cbn [mbind go_bind].
  assert (forall e x, cutDevice h c (d :: ds) e x <-> (e = d /\ x = dev /\ dv_conn dev = Some c) \/ cutDevice h c ds e x) as Hcut.
  { intros e x. unfold cutDevice. rewrite elem_of_cons. split; [intros ([-> |?] & ? & ?); [left|right]; naive_solver|naive_solver]. }
  destruct (bool_decide_reflect (dv_conn dev = Some c)) as [Hc|Hc]; cbn [mbind go_bind].
  - destruct (IH (<[(id, rq_Tuner (dv_request dev)) := c]> q) (delete (dv_id dev) s) (l ++ [d])) as (q' & s' & l' & -> & H1 & H2 & H3 & H4 & H5 & H6 & H7).
    exists q', s', (d :: l'). rewrite <- app_assoc. split; [done|]. conjs.
    + intros e x [(-> & -> & _)|He]%Hcut; [|by eapply H1]. destruct (H2 (id, rq_Tuner (dv_request dev))) as [-> | ->]; [|done]. by rewrite lookup_insert_eq.
    + intros key. destruct (H2 key) as [-> | ->]; [|by right]. rewrite lookup_insert. case_decide; auto.
    + intros key. destruct (H3 key) as [-> |(e & x & He & ->)]; [|right; exists e, x; rewrite Hcut; tauto].
      rewrite lookup_insert. case_decide; [|by left]. right. exists d, dev. rewrite Hcut. naive_solver.
    + intros sid. destruct (H4 sid) as [-> | ->]; [|by right]. rewrite lookup_delete. case_decide; auto.
    + intros e x [(-> & -> & _)|He]%Hcut; [|by eapply H5]. destruct (H4 (dv_id dev)) as [-> | ->]; [|done]. by rewrite lookup_delete_eq.
    + intros sid Hsid. rewrite H6 by (intros e x He; apply (Hsid e x); rewrite Hcut; tauto).
      rewrite lookup_delete_ne; [done|]. apply (Hsid d dev). rewrite Hcut. tauto.
    + intros e. rewrite elem_of_cons, H7. setoid_rewrite Hcut. naive_solver.
  - destruct (IH q s l) as (q' & s' & l' & -> & H1 & H2 & H3 & H4 & H5 & H6 & H7).
    assert (forall e x, cutDevice h c (d :: ds) e x <-> cutDevice h c ds e x) as Hcut' by (intros e x; rewrite Hcut; tauto).
    exists q', s', l'. split; [done|]. conjs; try done.
    + intros e x He%Hcut'. by eapply H1.
    + intros key. destruct (H3 key) as [-> |(e & x & He & ->)]; [by left|]. right. exists e, x. by rewrite Hcut'.
    + intros e x He%Hcut'. by eapply H5.
    + intros sid Hsid. apply H6. intros e x He. apply (Hsid e x). by rewrite Hcut'.
    + intros e. rewrite H7. by setoid_rewrite Hcut'.
Qed.

Lemma session_devices h : hub_ok h -> Forall (fun d => is_Some (hub_devices h !! d)) (map_to_list (hub_sessions h)).*2.
Proof.
  intros Hok. apply Forall_fmap, Forall_forall. intros [sid d] Hd%elem_of_map_to_list. by eapply h_devices.
Qed.

Lemma cutDevice_session h c d dev : hub_ok h ->
  cutDevice h c (map_to_list (hub_sessions h)).*2 d dev <-> onSession h (dv_id dev) d dev /\ dv_conn dev = Some c.
Proof.
  intros Hok. unfold cutDevice, onSession. rewrite list_elem_of_fmap. split.
  - intros (([sid e] & -> & Hs%elem_of_map_to_list) & Hd & Hc). cbn in *. destruct (h_sessions h Hok sid e dev) as (-> & _); done.
  - intros [[Hs Hd] Hc]. conjs; [|done..]. exists (dv_id dev, d). split; [done|]. by apply elem_of_map_to_list.
Qed.

Record severed (h : Hub) (id : string) (c : Z) (h' : Hub) : Prop := {
  co_conns : hub_conns h' = hub_conns h;
  co_connections : hub_connections h' = delete id (hub_connections h);
  co_closed : hub_closed h' = hub_closed h;
  co_changed : hub_changed h' = hub_changed h + 1;
  co_devices : devicesGoOn (hub_devices h) (hub_devices h');
  co_sessions : forall sid d, hub_sessions h' !! sid = Some d <->
    hub_sessions h !! sid = Some d /\ forall dev, hub_devices h !! d = Some dev -> dv_conn dev <> Some c;
  co_quarantined : forall key, hub_quarantined h' !! key = hub_quarantined h !! key
    \/ (hub_quarantined h' !! key = Some c /\ key.1 = id /\ exists sid d dev, onSession h sid d dev /\ dv_conn dev = Some c /\ tunerKeyOf dev = key);
  co_cut : forall sid d dev dev', onSession h sid d dev -> dv_conn dev = Some c -> hub_devices h' !! d = Some dev' ->
    hub_quarantined h' !! tunerKeyOf dev = Some c /\ dv_cleaned dev' = true
}.

Lemma disconnect_severed h id c : hub_ok h -> hub_connections h !! id = Some c -> exists h', disconnect h id c = Ret h' /\ severed h id c h'.
Proof.
  intros Hok Hc. unfold disconnect. rewrite bool_decide_eq_true_2 by done.
  destruct (cutSessions_spec h id c _ (session_devices h Hok) (hub_quarantined h) (hub_sessions h) [])
    as (q & s & l & -> & H1 & H2 & H3 & H4 & H5 & H6 & H7). cbn [mbind go_bind].
  set (h1 := notifyHubLocked _). assert (Forall (fun d => is_Some (hub_devices h1 !! d)) l) as Hl.
  { apply Forall_forall. intros d (dev & _ & Hd & _)%H7. cbn. by rewrite Hd. }
  assert (forall sid d dev, onSession h sid d dev -> dv_conn dev = Some c -> dv_id dev = sid /\ dv_agent dev = id
    /\ cutDevice h c (map_to_list (hub_sessions h)).*2 d dev) as Hsess.
  { intros sid d dev Ho Hdc. destruct (h_sessions h Hok _ _ _ Ho) as (<- & _ & _ & Ha). conjs; [done| |by apply cutDevice_session].
    apply (h_inj h Hok _ _ c); [|done]. congruence. }
  destruct (abortDevices_touches l ErrAgentUnavailable h1 Hl) as (h' & E & [(E1 & E2 & E3 & E4 & E5 & E6) Hd] & Hcl). rewrite app_nil_l, E.
  exists h'. split; [done|]. constructor; try done.
  - intros sid d. rewrite E3. cbn [hub_sessions h1 notifyHubLocked setSessions]. split.
    + intros Hs. destruct (H4 sid) as [Hs'|Hs']; [|congruence]. rewrite Hs in Hs'. split; [done|]. intros dev Hdev Hdc.
      destruct (Hsess sid d dev) as (<- & _ & Hcut); [done..|]. apply H5 in Hcut. congruence.
    + intros [Hs Hn]. rewrite H6; [done|]. intros e x He Hid. apply cutDevice_session in He as [[He1 He2] He3]; [|done].
      rewrite Hid, Hs in He1. injection He1 as <-. by apply (Hn x).
  - intros key. rewrite E4. cbn [hub_quarantined h1 notifyHubLocked setSessions setQuarantined].
    destruct (H3 key) as [-> |(d & dev & Hcut & ->)]; [by left|right]. conjs; [by eapply H1|done|].
    apply cutDevice_session in Hcut as [Ho Hdc]; [|done]. exists (dv_id dev), d, dev. conjs; [done..|].
    destruct (Hsess _ _ _ Ho Hdc) as (_ & <- & _). done.
  - intros sid d dev dev' Ho Hdc Hdev'. destruct (Hsess sid d dev Ho Hdc) as (_ & Ha & Hcut). split.
    + rewrite E4. unfold tunerKeyOf. rewrite Ha. by apply (H1 d).
    + eapply Hcl; [|done]. apply H7. by exists dev.
Qed.

Lemma severed_controlled h id c h' a : severed h id c h' -> controlled h' a = (bool_decide (a <> id) && controlled h a).
Proof.
  intros []. unfold controlled. rewrite co_conns0, co_connections0, lookup_delete. case_decide as Ha; case_bool_decide; done || by destruct Ha.
Qed.

Lemma severed_onSession h id c h' sid d dev' : hub_ok h -> severed h id c h' -> hub_connections h !! id = Some c -> onSession h' sid d dev' ->
  exists dev, onSession h sid d dev /\ goesOn dev dev' /\ dv_conn dev <> Some c /\ dv_agent dev <> id.
Proof.
  intros Hok [] Hc [[Hs Hn]%co_sessions0 Hd]. specialize (co_devices0 d). rewrite Hd in co_devices0. inversion co_devices0 as [dev ? Hg Hx|]; subst.
  symmetry in Hx. exists dev. conjs; [done..|by apply Hn|]. intros Ha. apply (Hn dev Hx).
  destruct (h_sessions h Hok sid d dev) as (_ & _ & _ & ->); [done|]. by rewrite Ha.
Qed.

Lemma severed_ok h id c h' : hub_ok h -> hub_connections h !! id = Some c -> severed h id c h' -> hub_ok h'.
Proof.
  intros Hok Hc Hcut. pose proof Hok as []. pose proof Hcut as []. constructor.
  - intros a x. rewrite co_conns0, co_connections0. intros [_ ?]%lookup_delete_Some. by eapply h_conns0.
  - intros a b x. rewrite co_connections0. intros [_ ?]%lookup_delete_Some [_ ?]%lookup_delete_Some. by eapply h_inj0.
  - intros sid d [Hs _]%co_sessions0. destruct (h_devices0 sid d Hs) as [dev Hd]. specialize (co_devices0 d). rewrite Hd in co_devices0. by inversion co_devices0.
  - intros sid d dev' Ho. destruct (severed_onSession _ _ _ _ _ _ _ Hok Hcut Hc Ho) as (dev & Ho' & (Ha & Hr & Hcn & Hi & _) & Hne & Hna).
    destruct (h_sessions0 _ _ _ Ho') as (? & ? & ? & ?). rewrite (severed_controlled h id c), co_connections0, Hi, Hcn, Ha by done.
    rewrite bool_decide_eq_true_2, lookup_delete_ne by done. done.
  - intros key x. rewrite co_conns0. destruct (co_quarantined0 key) as [-> |(-> & _ & _)]; [apply h_quarantine0|]. intros [= <-]. by eapply h_conns0.
  - intros sid d dev' x Ho Hq. destruct (severed_onSession _ _ _ _ _ _ _ Hok Hcut Hc Ho) as (dev & Ho' & (Ha & Hr & Hcn & Hi & _) & Hne & Hna).
    rewrite Hcn. unfold tunerKeyOf in Hq. rewrite Ha, Hr in Hq. destruct (co_quarantined0 (tunerKeyOf dev)) as [Hq'|(_ & Hq' & _)]; [|done].
    eapply h_owner0; [done|]. unfold tunerKeyOf in *. congruence.
  - intros d dev' x Hd Hx Hn. pose proof (co_devices0 d) as Hg. rewrite Hd in Hg. inversion Hg as [dev ? (Ha & Hr & Hcn & Hi & Hcl) Hdev|]; subst.
    symmetry in Hdev. assert (dv_cleaned dev = false) as Hcl' by (destruct (dv_cleaned dev); [rewrite Hcl in Hn|]; done).
    rewrite Hcn in Hx. rewrite Hi. pose proof (h_cleaned0 d dev x Hdev Hx Hcl') as Hs. apply co_sessions0. split; [done|].
    intros y Hy. rewrite Hdev in Hy. injection Hy as <-. intros Hy. destruct (co_cut0 _ _ _ _ (conj Hs Hdev) Hy Hd) as [_ ?]. congruence.
Qed.

(** ** The other operations *)

Lemma quarantine_ok h q : hub_ok h ->
  (forall key x, q !! key = Some x -> hub_quarantined h !! key = Some x \/ hub_connections h !! key.1 = Some x) -> hub_ok (setQuarantined h q).
Proof.
  intros Hok Hq. pose proof Hok as []. constructor; try done.
  - intros key x [?|?]%Hq; [by eapply h_quarantine0|by eapply h_conns0].
  - intros sid d dev x Ho [Hx|Hx]%Hq; [by eapply h_owner0|]. destruct (h_sessions0 _ _ _ Ho) as (_ & _ & _ & ->). done.
Qed.

Lemma notify_ok h : hub_ok h -> hub_ok (notifyHubLocked h).
Proof. by intros []. Qed.

Lemma close_ok h : hub_ok h -> hub_ok (hubClose h).
Proof. by intros []. Qed.

Lemma endSession_ok h sid d dev dev' : hub_ok h -> onSession h sid d dev -> goesOn dev dev' -> dv_cleaned dev' = true ->
  hub_ok (setDevice (setSessions h (delete (dv_id dev) (hub_sessions h))) d dev').
Proof.
  intros Hok Ho Hg Hcl. pose proof (touches_ok _ _ Hok (touches_setDevice h d dev dev' (proj2 Ho) Hg)) as [].
  destruct (h_sessions h Hok _ _ _ Ho) as (Hsid & _). rewrite Hsid. pose proof Hg as (_ & _ & _ & Hid & _).
  constructor; unfold onSession in *; cbn [hub_sessions setDevice setSessions hub_devices] in *; try done.
  - intros s e [_ Hs]%lookup_delete_Some. by eapply h_devices0.
  - intros s e x [[_ Hs]%lookup_delete_Some Hx]. by apply (h_sessions0 s e x).
  - intros s e x y [[_ Hs]%lookup_delete_Some Hx]. by apply (h_owner0 s e x y).
  - intros e x y He Hy Hn. pose proof (h_cleaned0 e x y He Hy Hn) as Hs. apply lookup_delete_Some. split; [|done]. intros Heq.
    cbn [hub_sessions setDevice setSessions] in Hs. rewrite <- Heq in Hs. destruct Ho as [Ho _]. rewrite Ho in Hs. injection Hs as <-.
    cbn [hub_devices setDevice] in He. rewrite lookup_insert_eq in He. injection He as <-. congruence.
Qed.

Lemma completeDevice_eq h d dev c reason : hub_devices h !! d = Some dev -> dv_conn dev = Some c ->
  exists q dev', completeDevice h d reason
      = Ret (setDevice (setSessions (notifyHubLocked (setQuarantined h q)) (delete (dv_id dev) (hub_sessions h))) d dev')
    /\ goesOn dev dev' /\ dv_cleaned dev' = true
    /\ forall key, q !! key = hub_quarantined h !! key
                   \/ (key = tunerKeyOf dev /\ (q !! key = Some c \/ (q !! key = None /\ hub_quarantined h !! key = Some c))).
Proof.
  intros Hd Hc. unfold completeDevice, devOf. rewrite Hd. cbn [mbind go_bind]. eexists _, _. split; [reflexivity|]. conjs.
  - etransitivity; [|apply goesOn_setCleaned]. etransitivity; [apply goesOn_signalReady|apply goesOn_finish].
  - done.
  - intros key. rewrite Hc. destruct (bool_decide (reason <> _)).
    + rewrite lookup_insert. case_decide; [|by left]. right. auto.
    + case_bool_decide as Hq; [|by left]. rewrite lookup_delete. case_decide as Hk; [|by left]. right. subst key. auto.
Qed.

Lemma completeDevice_ok h sid d dev reason h' : hub_ok h -> onSession h sid d dev -> completeDevice h d reason = Ret h' -> hub_ok h'.
Proof.
  intros Hok Ho. destruct (h_sessions h Hok _ _ _ Ho) as (_ & _ & [c Hc] & Hconn).
  destruct (completeDevice_eq h d dev c reason (proj2 Ho) Hc) as (q & dev' & -> & Hg & Hcl & Hq). intros [= <-].
  apply (endSession_ok (notifyHubLocked (setQuarantined h q)) sid d dev dev'); [|done..]. apply notify_ok, quarantine_ok; [done|].
  intros key x Hx. destruct (Hq key) as [E|[-> [E|[E _]]]]; [left; congruence| |congruence]. right. cbn. congruence.
Qed.

Lemma stopTimeout_ok h d h' : hub_ok h -> stopTimeout h d = Ret h' -> hub_ok h'.
Proof.
  intros Hok. unfold stopTimeout, devOf. destruct (hub_devices h !! d) as [dev|] eqn:Hd; cbn [mbind go_bind]; [|done].
  case_bool_decide as Hs; [|by intros [= <-]]. destruct (h_sessions h Hok _ _ _ (conj Hs Hd)) as (_ & _ & [c Hc] & Hconn). rewrite Hc.
  intros [= <-]. apply quarantine_ok; [done|]. intros key x. rewrite lookup_insert. case_decide as Hk; [|by left].
  intros [= <-]. right. subst key. cbn. congruence.
Qed.

Lemma register_ok h id c generation h' : hub_ok h -> hub_conns h !! c = None -> register h id c generation = Ret h' -> hub_ok h'.
Proof.
  intros Hok Hc. pose proof Hok as []. unfold register. destruct (hub_closed h || _) eqn:E; [done|]. bools. intros [= <-].
  assert (hub_connections h !! id = None) as Hid by (destruct (hub_connections h !! id); done).
  assert (forall x y, is_Some (hub_conns h !! x) -> is_Some (<[c := y]> (hub_conns h) !! x)) as Hgrow.
  { intros x y Hx. rewrite lookup_insert. by case_decide. }
  assert (forall a x, hub_connections h !! a = Some x -> x <> c) as Hnc by (intros a x Ha ->; destruct (h_conns0 _ _ Ha); congruence).
  constructor; cbn [hub_conns hub_connections hub_sessions hub_devices hub_quarantined setConnections].
  - intros a x. rewrite lookup_insert. case_decide as Ha; [intros [= <-]; rewrite lookup_insert_eq; done|]. intros Hx. by eapply Hgrow, h_conns0.
  - intros a b x. rewrite !lookup_insert. repeat case_decide; subst; try congruence; try apply h_inj0.
    + intros [= <-] Hx. by apply Hnc in Hx.
    + intros Hx [= <-]. by apply Hnc in Hx.
  - done.
  - intros sid d dev Ho. destruct (h_sessions0 sid d dev Ho) as (H1 & H2 & H3 & H4). assert (dv_agent dev <> id) as Hne.
    { intros Ha. rewrite Ha, Hid in H4. destruct H3. congruence. }
    unfold controlled in *. cbn [hub_conns hub_connections setConnections]. rewrite lookup_insert_ne by done. conjs; try done.
    destruct (hub_connections h !! dv_agent dev) as [x|] eqn:Ex; [|done]. rewrite lookup_insert_ne; [done|]. intros ->. by apply (Hnc _ _ Ex).
  - intros key x Hx. by eapply Hgrow, h_quarantine0.
  - done.
  - done.
Qed.

Lemma keptAfter_subset h id m : keptAfter h id m ⊆ hub_quarantined h.
Proof. apply map_filter_subseteq. Qed.

Lemma hello_conns_ok h id c conn conn' : hub_ok h -> hub_connections h !! id = Some c -> hub_conns h !! c = Some conn -> cn_control conn' = true ->
  hub_ok (setConnections h (<[c := conn']> (hub_conns h)) (hub_connections h)).
Proof.
  intros Hok Hid Hc Hctl. pose proof Hok as []. assert (forall x, is_Some (hub_conns h !! x) -> is_Some (<[c := conn']> (hub_conns h) !! x)) as Hgrow.
  { intros x Hx. rewrite lookup_insert. by case_decide. }
  constructor; cbn [hub_conns hub_connections hub_sessions hub_devices hub_quarantined setConnections]; try done.
  - intros a x Ha. by eapply Hgrow, h_conns0.
  - intros sid d dev Ho. destruct (h_sessions0 sid d dev Ho) as (H1 & H2 & H3 & H4). conjs; try done.
    unfold controlled in *. cbn [hub_conns hub_connections setConnections]. destruct (hub_connections h !! dv_agent dev) as [x|]; [|done].
    rewrite lookup_insert. by case_decide.
  - intros key x Hx. by eapply Hgrow, h_quarantine0.
Qed.

Lemma hello_ok h id c m h' b : hub_ok h -> hub_connections h !! id = Some c -> hello h id c m = Ret (h', b) -> hub_ok h'.
Proof.
  intros Hok Hid. destruct (h_conns h Hok id c Hid) as [conn Hc]. unfold hello, connOf. rewrite Hc. cbn [mbind go_bind].
  destruct (negb _); [by intros [= <- <-]|]. destruct (hub_closed h); [by intros [= <- <-]|]. intros [= <- <-].
  apply notify_ok, quarantine_ok; [by eapply hello_conns_ok|]. intros key x Hx. left. eapply lookup_weaken; [exact Hx|apply keptAfter_subset].
Qed.

Lemma newAgentDevice_ok h d id r : hub_ok h -> hub_devices h !! d = None -> hub_ok (newAgentDevice h d id r).
Proof.
  intros [] Hd. assert (forall sid e dev, onSession (newAgentDevice h d id r) sid e dev -> onSession h sid e dev) as Hon.
  { intros sid e dev [Hs He]. split; [done|]. cbn in Hs. destruct (h_devices0 sid e Hs) as [x Hx]. cbn in He.
    rewrite lookup_insert_ne in He by congruence. done. }
  constructor; try done; cbn [hub_devices newAgentDevice setDevice hub_sessions].
  - intros sid e Hs%h_devices0. rewrite lookup_insert. by case_decide.
  - intros sid e dev Ho%Hon. by eapply h_sessions0.
  - intros sid e dev c Ho%Hon. by eapply h_owner0.
  - intros e dev c. rewrite lookup_insert. case_decide; [by intros [= <-]|]. by eapply h_cleaned0.
Qed.

(** What [Start] does: it refuses a tuner that is not available, or opens a session. *)
Lemma startSession_spec h d dev sid : hub_devices h !! d = Some dev -> exists h' err, startSession h d sid = Ret (h', err) /\
  match err with
  | Some _ => touches h h'
  | None => exists c, hub_connections h !! dv_agent dev = Some c /\ HubAvailable (Some h) (dv_agent dev) (rq_Tuner (dv_request dev)) = true
      /\ h' = setSessions (setDevice h d (mkDevice (dv_agent dev) (dv_request dev) (Some c) sid (dv_uploaded dev) (dv_finished dev) (dv_err dev)
                     (dv_ready dev) (dv_cleaned dev) (dv_stopSent dev) (dv_cleanupErr dev))) (<[sid := d]> (hub_sessions h))
  end.
Proof.
  intros Hd. unfold startSession, devOf. rewrite Hd. cbn [mbind go_bind].
  assert (touches h (setDevice h d (abort dev (Some ErrAgentUnavailable)))) as Ht by (apply (touches_setDevice _ _ dev); [done|apply goesOn_abort]).
  destruct (hub_connections h !! dv_agent dev) as [c|] eqn:Ec; [|by eexists _, _].
  destruct (hub_closed h || _ || _) eqn:E; [by eexists _, _|]. destruct (dv_finished dev); [eexists _, _; split; [done|apply touches_refl]|].
  eexists _, _. split; [reflexivity|]. exists c. conjs; [done| |done]. bools. unfold HubAvailable. rewrite H, H1. cbn [negb andb].
  apply bool_decide_eq_false in H0. apply bool_decide_eq_true. change (_, _) with (tunerKeyOf dev). by destruct (hub_quarantined h !! tunerKeyOf dev); [destruct H0|].
Qed.

Lemma openSession_ok h d dev sid c dev' : hub_ok h -> hub_devices h !! d = Some dev -> dv_conn dev = None -> hub_sessions h !! sid = None ->
  hub_connections h !! dv_agent dev = Some c -> HubAvailable (Some h) (dv_agent dev) (rq_Tuner (dv_request dev)) = true ->
  dv_agent dev' = dv_agent dev -> dv_request dev' = dv_request dev -> dv_conn dev' = Some c -> dv_id dev' = sid ->
  hub_ok (setSessions (setDevice h d dev') (<[sid := d]> (hub_sessions h))).
Proof.
  intros Hok Hd Hn Hs Hc Hav Ha Hr Hcn Hi. pose proof Hok as []. unfold HubAvailable in Hav. bools.
  match goal with H : bool_decide _ = true |- _ => apply bool_decide_eq_true in H end.
  assert (forall s e x, <[sid := d]> (hub_sessions h) !! s = Some e -> <[d := dev']> (hub_devices h) !! e = Some x ->
    (s = sid /\ e = d /\ x = dev') \/ onSession h s e x) as Hon.
  { intros s e x [[<- <-]|[Hne Hs']]%lookup_insert_Some.
    - rewrite lookup_insert_eq. intros [= <-]. by left.
    - intros [[<- <-]|[_ Hx]]%lookup_insert_Some; [|by right]. destruct (h_sessions0 s d dev) as (_ & _ & [? ?] & _); [done|congruence]. }
  constructor; unfold onSession; cbn [hub_sessions setDevice setSessions hub_devices hub_conns hub_connections hub_quarantined]; try done.
  - intros s e. rewrite !lookup_insert. case_decide; case_decide; subst; try done; [congruence|]. apply h_devices0.
  - intros s e x [Hx1 Hx2]. destruct (Hon s e x Hx1 Hx2) as [(-> & -> & ->)|Ho]; [|by apply (h_sessions0 s e x)].
    rewrite Hcn, Ha, Hc. done.
  - intros s e x y [Hx1 Hx2]. destruct (Hon s e x Hx1 Hx2) as [(-> & -> & ->)|Ho]; [|by apply (h_owner0 s e x)].
    unfold tunerKeyOf. rewrite Ha, Hr. congruence.
  - intros e x y. rewrite !lookup_insert. case_decide as He; [intros [= <-] _ _; subst; by case_decide|].
    intros Hx1 Hx2 Hx3. pose proof (h_cleaned0 e x y Hx1 Hx2 Hx3) as Hx4. case_decide; [congruence|done].
Qed.

Lemma controlMessage_cases h id c m h' b : hub_ok h -> controlMessage h id c m = Ret (h', b) ->
  touches h h' \/ exists sid d dev, onSession h sid d dev /\ dv_conn dev = Some c /\ completeDevice h d (m_Error m) = Ret h'.
Proof.
  intros Hok. pose proof (touches_refl h) as Hr. unfold controlMessage.
  destruct (bool_decide (m_Type m = "heartbeat"%string)); [intros [= <- <-]; by left|]. destruct (_ || _); [|intros [= <- <-]; by left].
  destruct (hub_sessions h !! m_Session m) as [d|] eqn:Es; [|intros [= <- <-]; by left].
  destruct (h_devices h Hok _ _ Es) as [dev Hd]. unfold devOf. rewrite Hd. cbn [mbind go_bind].
  destruct (bool_decide (dv_conn dev = Some c) && _) eqn:E; [|intros [= <- <-]; by left].
  destruct (bool_decide (m_Type m = "failed"%string)).
  - intros [= <- <-]. left. by apply (touches_setDevice _ _ dev).
  - apply andb_true_iff in E as [E%bool_decide_eq_true _].
    destruct (completeDevice h d (m_Error m)) as [h1| | |] eqn:Ecd; cbn [mbind go_bind]; try done.
    intros [= <- <-]. right. by exists (m_Session m), d, dev.
Qed.

Lemma hubStep_ok h l h' : hubStep h l h' -> hub_ok h -> hub_ok h'.
Proof.
  intros Hstep Hok. destruct Hstep as [h id c g h' Hc E|h id c m h' b Hid _ E|h id c m h' b Hid _ E|h id c h' Hid E|h|h d id r Hd|h d sid dev h' err Hd Hn Hs E|
    h d err h' E|h d err h' E|h d h' w E|h d h' E|h id s g h' d E|h d h' E|h d n err h' E].
  - by eapply register_ok.
  - by eapply hello_ok.
  - destruct (controlMessage_cases _ _ _ _ _ _ Hok E) as [Ht|(sid & d & dev & Ho & _ & E')]; [by eapply touches_ok|by eapply completeDevice_ok].
  - destruct (disconnect_severed h id c Hok Hid) as (h1 & E' & Hcut). rewrite E in E'. injection E' as <-. by eapply severed_ok.
  - by apply close_ok.
  - by apply newAgentDevice_ok.
  - destruct (startSession_spec h d dev sid Hd) as (h1 & err1 & E' & Hspec). rewrite E in E'. injection E' as <- <-.
    destruct err; [by eapply touches_ok|]. destruct Hspec as (c & Hc & Hav & ->). by eapply openSession_ok.
  - eapply touches_ok; [done|by eapply touches_startSendFailed].
  - eapply touches_ok; [done|by eapply touches_startFailed].
  - eapply touches_ok; [done|by eapply touches_stopSend].
  - by eapply stopTimeout_ok.
  - eapply touches_ok; [done|by eapply touches_serveStream].
  - eapply touches_ok; [done|by eapply touches_uploadStarted].
  - eapply touches_ok; [done|by eapply touches_uploadEnd].
Qed.

Lemma NewHub_ok : hub_ok NewHub.
Proof.
  constructor; unfold onSession; cbn; intros *; rewrite ?lookup_empty; try done; try (by intros [? _]). 
Qed.

(** ** What the hub promises to those who wait for a tuner *)

(** A step that makes a tuner available announces a change. *)
Definition announces (h h' : Hub) : Prop := hub_changed h <= hub_changed h' /\
  (hub_changed h' = hub_changed h -> forall id tuner, HubAvailable (Some h') id tuner = true -> HubAvailable (Some h) id tuner = true).

Lemma HubAvailable_iff h id tuner : HubAvailable (Some h) id tuner = true <->
  hub_closed h = false /\ controlled h id = true /\ hub_quarantined h !! (id, tuner) = None.
Proof. unfold HubAvailable. rewrite !andb_true_iff, negb_true_iff, bool_decide_eq_true. tauto. Qed.

Lemma sameBut_announces h h' : sameBut h h' -> announces h h'.
Proof.
  intros (E1 & E2 & E3 & E4 & E5 & E6). split; [lia|]. intros _ id t. rewrite !HubAvailable_iff, E4, E5, (controlled_same h h') by done. done.
Qed.

Lemma register_announces h id c generation h' : hub_ok h -> hub_conns h !! c = None -> register h id c generation = Ret h' -> announces h h'.
Proof.
  intros Hok Hc. unfold register. destruct (hub_closed h || _); [done|]. intros [= <-]. split; [cbn; lia|]. intros _ a t. rewrite !HubAvailable_iff.
  intros (H1 & H2 & H3). conjs; try done. revert H2. unfold controlled. cbn [hub_conns hub_connections setConnections]. rewrite lookup_insert.
  case_decide; [rewrite lookup_insert_eq; done|]. destruct (hub_connections h !! a) as [x|] eqn:Ex; [|done].
  rewrite lookup_insert_ne; [done|]. intros ->. destruct (h_conns h Hok a x Ex). congruence.
Qed.

Lemma notified h h' : hub_changed h' = hub_changed h + 1 -> announces h h'.
Proof. intros E. split; lia. Qed.

Lemma hubStep_announces h l h' : hubStep h l h' -> hub_ok h -> announces h h'.
Proof.
  intros Hstep Hok. destruct Hstep as [h id c g h' Hc E|h id c m h' b Hid _ E|h id c m h' b Hid _ E|h id c h' Hid E|h|h d id r Hd|h d sid dev h' err Hd Hn Hs E|
    h d err h' E|h d err h' E|h d h' w E|h d h' E|h id s g h' d E|h d h' E|h d n err h' E].
  - by eapply register_announces.
  - destruct (h_conns h Hok id c Hid) as [conn Hc]. revert E. unfold hello, connOf. rewrite Hc. cbn [mbind go_bind].
    destruct (negb _); [intros [= <- <-]; by apply sameBut_announces|]. destruct (hub_closed h); [intros [= <- <-]; by apply sameBut_announces|].
    intros [= <- <-]. by apply notified.
  - destruct (controlMessage_cases _ _ _ _ _ _ Hok E) as [[Ht _]|(sid & d & dev & Ho & Hc & E')]; [by apply sameBut_announces|].
    destruct (completeDevice_eq h d dev c (m_Error m) (proj2 Ho) Hc) as (q & dev' & Eq & _). rewrite Eq in E'. injection E' as <-. by apply notified.
  - destruct (disconnect_severed h id c Hok Hid) as (h1 & E' & []). rewrite E in E'. injection E' as <-. by apply notified.
  - split; [cbn; lia|]. intros _ id t. rewrite !HubAvailable_iff. by intros (? & _).
  - by apply sameBut_announces.
  - destruct (startSession_spec h d dev sid Hd) as (h1 & err1 & E' & Hspec). rewrite E in E'. injection E' as <- <-.
    destruct err; [destruct Hspec; by apply sameBut_announces|]. destruct Hspec as (c & _ & _ & ->).
    split; [cbn; lia|]. intros _ a t. by rewrite !HubAvailable_iff.
  - by apply sameBut_announces, (touches_startSendFailed _ _ _ _ E).
  - by apply sameBut_announces, (touches_startFailed _ _ _ _ E).
  - by apply sameBut_announces, (touches_stopSend _ _ _ _ E).
  - revert E. unfold stopTimeout, devOf. destruct (hub_devices h !! d) as [dev|] eqn:Hd; cbn [mbind go_bind]; [|done].
    case_bool_decide as Hs; [|intros [= <-]; by apply sameBut_announces]. destruct (h_sessions h Hok _ _ _ (conj Hs Hd)) as (_ & _ & [c ->] & _).
    intros [= <-]. split; [cbn; lia|]. intros _ a t. rewrite !HubAvailable_iff. cbn [hub_quarantined setQuarantined].
    intros (? & ? & [? _]%lookup_insert_None). done.
  - by apply sameBut_announces, (touches_serveStream _ _ _ _ _ _ E).
  - by apply sameBut_announces, (touches_uploadStarted _ _ _ E).
  - by apply sameBut_announces, (touches_uploadEnd _ _ _ _ _ E).
Qed.

(** ** Quarantine *)

(** A tuner set aside by a connection that is gone. *)
Definition heldBy (h : Hub) (key : string * string) (c : Z) (conn : connection) : Prop :=
  hub_quarantined h !! key = Some c /\ hub_conns h !! c = Some conn /\ forall id, hub_connections h !! id <> Some c.

Lemma heldBy_same h h' key c conn : heldBy h key c conn -> sameBut h h' -> heldBy h' key c conn.
Proof. intros (H1 & H2 & H3) (E1 & E2 & _ & E4 & _). unfold heldBy. by rewrite E1, E2, E4. Qed.

Lemma heldBy_no_session h key c conn sid d dev : hub_ok h -> heldBy h key c conn -> onSession h sid d dev -> tunerKeyOf dev <> key.
Proof.
  intros Hok (H1 & _ & H3) Ho <-. destruct (h_sessions h Hok _ _ _ Ho) as (_ & _ & _ & Ha). apply (H3 (dv_agent dev)).
  rewrite <- Ha. by eapply h_owner.
Qed.

(** Only a [hello] of the agent that says it has recovered ends it. *)
Lemma heldBy_step h l h' key c conn : hub_ok h -> hubStep h l h' -> heldBy h key c conn ->
  (forall m, l = Some (key.1, m) -> recovers conn m = false) -> heldBy h' key c conn.
Proof.
  intros Hok Hstep Hh Hl. pose proof Hh as (H1 & H2 & H3). pose proof (heldBy_no_session h key c conn) as Hns. destruct Hstep as [h id x g h' Hx E|h id x m h' b Hid _ E|h id x m h' b Hid _ E|h id x h' Hid E|h|h d id r Hd|h d sid dev h' err Hd Hn Hs E|
    h d err h' E|h d err h' E|h d h' w E|h d h' E|h id s g h' d E|h d h' E|h d n err h' E].
  - revert E. unfold register. destruct (hub_closed h || _); [done|]. intros [= <-]. unfold heldBy. cbn [hub_quarantined hub_conns hub_connections setConnections].
    assert (x <> c) by congruence. rewrite lookup_insert_ne by done. conjs; try done. intros a. rewrite lookup_insert. case_decide; [congruence|apply H3].
  - destruct (h_conns h Hok id x Hid) as [cx Hx]. revert E. unfold hello, connOf. rewrite Hx. cbn [mbind go_bind].
    destruct (negb _); [by intros [= <- <-]|]. destruct (hub_closed h); [by intros [= <- <-]|]. intros [= <- <-].
    assert (x <> c) as Hne by (intros ->; by apply (H3 id)).
    unfold heldBy. cbn [hub_quarantined hub_conns hub_connections setConnections setQuarantined notifyHubLocked].
    rewrite lookup_insert_ne by done. conjs; try done. unfold keptAfter. apply map_lookup_filter_Some. split; [done|].
    cbn [hub_conns setConnections fst snd]. rewrite lookup_insert_ne, H2 by done. cbn [from_option]. intros [<- Hr]. rewrite (Hl m) in Hr; done.
  - destruct (controlMessage_cases _ _ _ _ _ _ Hok E) as [[Ht _]|(sid & d & dev & Ho & Hc & E')]; [by eapply heldBy_same|].
    destruct (completeDevice_eq h d dev x (m_Error m) (proj2 Ho) Hc) as (q & dev' & Eq & _ & _ & Hq). rewrite Eq in E'. injection E' as <-.
    unfold heldBy. cbn [hub_quarantined hub_conns hub_connections setDevice setSessions notifyHubLocked setQuarantined]. conjs; try done.
    destruct (Hq key) as [-> |[-> _]]; [done|]. by destruct (Hns _ _ _ Hok Hh Ho).
  - destruct (disconnect_severed h id x Hok Hid) as (h1 & E' & []). rewrite E in E'. injection E' as <-. unfold heldBy. rewrite co_conns0, co_connections0.
    conjs; [|done|]. { destruct (co_quarantined0 key) as [-> |(_ & _ & sid & d & dev & Ho & _ & Hk)]; [done|]. by destruct (Hns _ _ _ Hok Hh Ho). }
    intros a. rewrite lookup_delete. case_decide; [done|apply H3].
  - done.
  - by eapply heldBy_same.
  - destruct (startSession_spec h d dev sid Hd) as (h1 & err1 & E' & Hspec). rewrite E in E'. injection E' as <- <-.
    destruct err; [destruct Hspec; by eapply heldBy_same|]. destruct Hspec as (y & _ & _ & ->). done.
  - by eapply heldBy_same, (touches_startSendFailed _ _ _ _ E).
  - by eapply heldBy_same, (touches_startFailed _ _ _ _ E).
  - by eapply heldBy_same, (touches_stopSend _ _ _ _ E).
  - revert E. unfold stopTimeout, devOf. destruct (hub_devices h !! d) as [dev|] eqn:Hd; cbn [mbind go_bind]; [|done].
    case_bool_decide as Hs; [|by intros [= <-]]. destruct (h_sessions h Hok _ _ _ (conj Hs Hd)) as (_ & _ & [y ->] & _).
    intros [= <-]. unfold heldBy. cbn [hub_quarantined setQuarantined hub_conns hub_connections]. rewrite lookup_insert_ne; [done|].
    by apply (Hns _ _ _ Hok Hh (conj Hs Hd)).
  - by eapply heldBy_same, (touches_serveStream _ _ _ _ _ _ E).
  - by eapply heldBy_same, (touches_uploadStarted _ _ _ E).
  - by eapply heldBy_same, (touches_uploadEnd _ _ _ _ _ E).
Qed.

Lemma heldBy_run h ls h' key c conn : hubRun h ls h' -> hub_ok h -> heldBy h key c conn ->
  (forall m, Some (key.1, m) ∈ ls -> recovers conn m = false) -> heldBy h' key c conn.
Proof.
  induction 1 as [h|h l h1 ls h2 Hs Hr IH]; [done|]. intros Hok Hh Hl. apply IH; [by eapply hubStep_ok| |].
  - eapply heldBy_step; [done..|]. intros m ->. apply Hl. left.
  - intros m Hm. apply Hl. by right.
Qed.

Lemma hubRun_ok h ls h' : hubRun h ls h' -> hub_ok h -> hub_ok h'.
Proof. induction 1; [done|]. intros Hok. eauto using hubStep_ok. Qed.

(** C8: A tuner whose session was running when its agent's connection went
    down stays unavailable, whatever happens at the hub, until a hello of that
    agent says that it recovered that connection or rebooted. *)
Theorem quarantine_lasts ls0 h sid d dev c conn h1 ls h2 :
  hubRun NewHub ls0 h -> onSession h sid d dev -> dv_conn dev = Some c -> hub_conns h !! c = Some conn ->
  disconnect h (dv_agent dev) c = Ret h1 -> hubRun h1 ls h2 ->
  (forall m, Some (dv_agent dev, m) ∈ ls -> recovers conn m = false) ->
  HubAvailable (Some h2) (dv_agent dev) (rq_Tuner (dv_request dev)) = false.
Proof.
  intros Hrun Ho Hc Hconn Hdis Hrun' Hl. pose proof (hubRun_ok _ _ _ Hrun NewHub_ok) as Hok.
  assert (hub_connections h !! dv_agent dev = Some c) as Hid by (destruct (h_sessions h Hok _ _ _ Ho) as (_ & _ & _ & <-); done).
  destruct (disconnect_severed h _ c Hok Hid) as (h1' & E & Hcut). rewrite Hdis in E. injection E as <-.
  assert (heldBy h1 (tunerKeyOf dev) c conn) as Hh.
  { pose proof (severed_ok _ _ _ _ Hok Hid Hcut) as Hok1. destruct Hcut. pose proof (co_devices0 d) as Hd. rewrite (proj2 Ho) in Hd.
    destruct (hub_devices h1 !! d) as [dev'|] eqn:Hdev'; [|by inversion Hd]. destruct (co_cut0 _ _ _ _ Ho Hc Hdev') as [Hq _]. unfold heldBy. rewrite co_conns0, co_connections0. conjs; try done.
    intros a. rewrite lookup_delete. case_decide as Ha; [done|]. intros Hx. apply Ha. exact (h_inj h Hok _ _ c Hid Hx). }
  destruct (heldBy_run _ _ _ _ _ _ Hrun' (severed_ok _ _ _ _ Hok Hid Hcut) Hh Hl) as (Hq & _ & _).
  apply not_true_is_false. rewrite HubAvailable_iff. intros (_ & _ & Hn). unfold tunerKeyOf in Hq. congruence.
Qed.

(** An agent connects, a session starts, the connection is lost, and the agent
    dials in again without saying that it recovered. *)
Definition resultOf {A} (c : go A) (a : A) : A := match c with Ret x => x | _ => a end.
Definition demoRequest : Request := mkRequest EmptyString "T1" "cmd" EmptyString "ts" 0 0 0 0.
Definition demoHello (recovered : string) : message := mkMessage "hello" 2 EmptyString "i" EmptyString recovered EmptyString None EmptyString.
Definition demo1 : Hub := resultOf (register NewHub "a" 1 "g1") NewHub.
Definition demo2 : Hub := (resultOf (hello demo1 "a" 1 (demoHello EmptyString)) (NewHub, false)).1.
Definition demo3 : Hub := newAgentDevice demo2 1 "a" demoRequest.
Definition demo4 : Hub := (resultOf (startSession demo3 1 "s1") (NewHub, None)).1.
Definition demo5 : Hub := resultOf (disconnect demo4 "a" 1) NewHub.
Definition demo6 : Hub := resultOf (register demo5 "a" 2 "g2") NewHub.
Definition demo7 : Hub := (resultOf (hello demo6 "a" 2 (demoHello EmptyString)) (NewHub, false)).1.

Lemma demo_run : hubRun NewHub [None; Some ("a"%string, demoHello EmptyString); None; None] demo4.
Proof.
  eapply run_cons; [eapply (s_register _ "a" 1 "g1" demo1); vm_compute; reflexivity|].
  eapply run_cons; [eapply (s_hello _ "a" 1 _ demo2 true); vm_compute; reflexivity|].
  eapply run_cons; [eapply (s_newDevice _ 1 "a" demoRequest); vm_compute; reflexivity|].
  eapply run_cons; [eapply (s_start _ 1 "s1" _ demo4 None); vm_compute; reflexivity|]. apply run_nil.
Qed.

Lemma demo_again : hubRun demo5 [None; Some ("a"%string, demoHello EmptyString)] demo7.
Proof.
  eapply run_cons; [eapply (s_register _ "a" 2 "g2" demo6); vm_compute; reflexivity|].
  eapply run_cons; [eapply (s_hello _ "a" 2 _ demo7 true); vm_compute; reflexivity|]. apply run_nil.
Qed.

Lemma quarantine_lasts_witness : HubAvailable (Some demo7) "a" "T1" = false /\ HubAvailable (Some demo7) "a" "T2" = true.
Proof.
  split; [|vm_compute; reflexivity].
  apply (quarantine_lasts _ demo4 "s1" 1 (mkDevice "a" demoRequest (Some 1) "s1" false false None None false false None) 1
    (mkConnection true "g1" "i" EmptyString) demo5 [None; Some ("a"%string, demoHello EmptyString)] demo7 demo_run).
  - split; vm_compute; reflexivity.
  - reflexivity.
  - vm_compute; reflexivity.
  - vm_compute; reflexivity.
  - exact demo_again.
  - intros m Hm. apply elem_of_cons in Hm as [[=]|Hm]. apply list_elem_of_singleton in Hm as [= ->]. vm_compute. reflexivity.
Defined.

(** A [hello] that recovers every quarantine of a tuner makes it available. *)
Lemma recovery_restores h id c m h' tuner : hub_ok h -> hub_connections h !! id = Some c -> hub_closed h = false -> helloAccepted m = true ->
  (forall x conn, hub_quarantined h !! (id, tuner) = Some x -> hub_conns h !! x = Some conn -> x <> c /\ recovers conn m = true) ->
  hello h id c m = Ret (h', true) -> HubAvailable (Some h') id tuner = true.
Proof.
  intros Hok Hid Hcl Hm Hq. destruct (h_conns h Hok id c Hid) as [conn Hc]. unfold hello, connOf. rewrite Hc, Hm, Hcl. cbn [mbind go_bind negb].
  intros [= <-]. apply HubAvailable_iff. cbn [hub_closed hub_quarantined notifyHubLocked setQuarantined setConnections]. conjs; [done| |].
  - unfold controlled. cbn [hub_connections hub_conns notifyHubLocked setQuarantined setConnections]. by rewrite Hid, lookup_insert_eq.
  - unfold keptAfter. apply map_lookup_filter_None. right. intros x Hx. cbn [hub_quarantined setConnections] in Hx.
    destruct (h_quarantine h Hok _ _ Hx) as [y Hy]. destruct (Hq x y Hx Hy) as [Hne Hr]. cbn [fst snd hub_conns setConnections].
    rewrite lookup_insert_ne, Hy by done. cbn [from_option]. rewrite Hr. tauto.
Qed.

Lemma clean_client_recovers s generation cl s' conn : connectEnd s generation cl = (s', None) ->
  cn_generation conn = generation -> cn_instance conn = cs_instance s -> recovers conn (clientHello s') = true.
Proof.
  unfold connectEnd. destruct (cl_cleanupFailed cl); [done|]. intros [= <-] H1 H2. unfold recovers, clientHello. cbn.
  rewrite H1, H2, !bool_decide_eq_true_2 by done. done.
Qed.

(** C9: An agent that stopped all its receivers when its connection went down
    gets its tuners back: its next hello is accepted and makes every tuner
    available that only that connection had left in quarantine. *)
Theorem clean_agent_gets_tuners_back h id c s generation cl s' tuner :
  hub_ok h -> hub_connections h !! id = Some c -> hub_closed h = false ->
  cs_instance s <> EmptyString -> connectEnd s generation cl = (s', None) ->
  (forall x conn, hub_quarantined h !! (id, tuner) = Some x -> hub_conns h !! x = Some conn ->
    x <> c /\ cn_generation conn = generation /\ cn_instance conn = cs_instance s) ->
  returns (hello h id c (clientHello s')) (fun '(h', goesOn) => goesOn = true /\ HubAvailable (Some h') id tuner = true).
Proof.
  intros Hok Hid Hcl Hi Hend Hq. assert (helloAccepted (clientHello s') = true) as Hm.
  { unfold connectEnd in Hend. destruct (cl_cleanupFailed cl); [done|]. injection Hend as <-. unfold helloAccepted, clientHello. cbn.
    by rewrite !bool_decide_eq_true_2 by done. }
  destruct (h_conns h Hok id c Hid) as [conn Hc]. destruct (hello h id c (clientHello s')) as [[h' b]| | |] eqn:E.
  2-4: revert E; unfold hello, connOf; rewrite Hc, Hm, Hcl; done.
  exists (h', b). split; [done|]. assert (b = true) as -> by (revert E; unfold hello, connOf; rewrite Hc, Hm, Hcl; by intros [= <- <-]).
  split; [done|]. eapply recovery_restores; [done..| |exact E]. intros x y Hx Hy. destruct (Hq x y Hx Hy) as (Hne & Hg & Hin).
  split; [done|]. by eapply clean_client_recovers.
Qed.

Lemma demo6_ok : hub_ok demo6.
Proof.
  apply (register_ok demo5 "a" 2 "g2"); [|vm_compute; reflexivity..].
  apply (hubStep_ok demo4 None); [apply (s_disconnect _ "a" 1); vm_compute; reflexivity|].
  exact (hubRun_ok _ _ _ demo_run NewHub_ok).
Qed.

Lemma clean_agent_gets_tuners_back_witness :
  HubAvailable (Some demo6) "a" "T1" = false /\
  returns (hello demo6 "a" 2 (clientHello (mkClientState "i" EmptyString "g1"))) (fun '(h', goesOn) => goesOn = true /\ HubAvailable (Some h') "a" "T1" = true).
Proof.
  split; [vm_compute; reflexivity|].
  apply (clean_agent_gets_tuners_back demo6 "a" 2 (mkClientState "i" EmptyString EmptyString) "g1" (mkClient ∅ ∅ false)).
  - exact demo6_ok.
  - vm_compute; reflexivity.
  - vm_compute; reflexivity.
  - discriminate.
  - reflexivity.
  - intros x conn Hx. vm_compute in Hx. injection Hx as <-. intros Hy. vm_compute in Hy. injection Hy as <-. conjs; [discriminate|reflexivity..].
Defined.

(** When [Stop] gives up waiting for the agent, the tuner is unavailable
    unless the session had already been cleaned up: a tuner whose receiver may
    still be running is never handed out again. *)
Theorem abandoned_stop_is_safe ls h d dev c : hubRun NewHub ls h -> hub_devices h !! d = Some dev -> dv_conn dev = Some c ->
  returns (stopTimeout h d) (fun h' => dv_cleaned dev = true \/ HubAvailable (Some h') (dv_agent dev) (rq_Tuner (dv_request dev)) = false).
Proof.
  intros Hrun Hd Hc. pose proof (hubRun_ok _ _ _ Hrun NewHub_ok) as Hok. unfold stopTimeout, devOf. rewrite Hd. cbn [mbind go_bind]. rewrite Hc.
  destruct (dv_cleaned dev) eqn:Hcl; [by case_bool_decide; eexists; split; [reflexivity|left|reflexivity|left]|].
  rewrite bool_decide_eq_true_2 by (by eapply h_cleaned). eexists. split; [reflexivity|]. right. apply not_true_is_false.
  rewrite HubAvailable_iff. cbn [hub_quarantined setQuarantined]. change (_, _) with (tunerKeyOf dev). rewrite lookup_insert_eq. by intros (_ & _ & ?).
Qed.

Lemma abandoned_stop_is_safe_witness :
  HubAvailable (Some demo4) "a" "T1" = true /\
  returns (stopTimeout demo4 1) (fun h' => false = true \/ HubAvailable (Some h') "a" "T1" = false).
Proof.
  split; [vm_compute; reflexivity|].
  apply (abandoned_stop_is_safe _ demo4 1 (mkDevice "a" demoRequest (Some 1) "s1" false false None None false false None) 1 demo_run); vm_compute; reflexivity.
Defined.

(** ** The agent *)

Inductive clientRun : client -> Prop :=
  | client_start : clientRun (mkClient ∅ ∅ false)
  | client_message cl m cl' out : clientRun cl -> clientMessage cl m = Some (cl', out) -> clientRun cl'
  | client_worker cl session err cleanup ended : clientRun cl -> is_Some (cl_workers cl !! session) ->
      clientRun (workerEnd cl session err cleanup ended).1.

Lemma workers_injective cl s1 s2 tuner : clientRun cl -> cl_workers cl !! s1 = Some tuner -> cl_workers cl !! s2 = Some tuner -> s1 = s2.
Proof.
  intros Hrun. revert s1 s2 tuner. induction Hrun as [|cl m cl' out Hrun IH Hm|cl session err cleanup ended Hrun IH Hs]; intros s1 s2 tuner.
  - cbn. by rewrite lookup_empty.
  - revert Hm. unfold clientMessage. destruct (bool_decide _); [intros [= <- <-]; apply IH|].
    destruct (bool_decide _).
    + destruct (m_Request m) as [r|]; [|done]. destruct (_ || negb _); [done|]. destruct (_ || existsb _ _) eqn:E; [intros [= <- <-]; apply IH|].
      apply orb_false_iff in E as [_ E]. intros [= <- <-]. cbn [cl_workers]. assert (forall s, cl_workers cl !! s <> Some (rq_Tuner r)) as Hfree.
      { intros s Hs. apply not_true_iff_false in E. apply E. apply existsb_exists. exists (rq_Tuner r). split; [|by apply bool_decide_eq_true].
        apply list_elem_of_In, list_elem_of_fmap. exists (s, rq_Tuner r). split; [done|]. by apply elem_of_map_to_list. }
      rewrite !lookup_insert. repeat case_decide; [congruence| | |apply IH].
      * intros [= <-] H2. by apply Hfree in H2.
      * intros H1 [= <-]. by apply Hfree in H1.
    + destruct (bool_decide _); [|done]. destruct (cl_workers cl !! _); intros [= <- <-]; apply IH.
  - cbn [workerEnd fst cl_workers]. intros [_ H1]%lookup_delete_Some [_ H2]%lookup_delete_Some. by eapply IH.
Qed.

(** An agent never runs two receivers of the same tuner, whatever the hub
    sends it. *)
Theorem one_receiver_per_tuner cl : clientRun cl -> NoDup (map_to_list (cl_workers cl)).*2.
Proof.
  intros Hrun. apply NoDup_fmap_2_strong; [|apply NoDup_map_to_list]. intros [s1 t1] [s2 t2] H1%elem_of_map_to_list H2%elem_of_map_to_list Ht.
  cbn in Ht. subst t2. f_equal. by eapply workers_injective.
Qed.

(** The hub starts one session, and then another of the same tuner, which is refused. *)
Definition demoStart (session : string) : message := mkMessage "start" 0 EmptyString EmptyString EmptyString EmptyString session (Some demoRequest) EmptyString.
Definition demoClient : client := mkClient {["s1"%string := "T1"%string]} ∅ false.

Lemma one_receiver_per_tuner_witness :
  clientMessage demoClient (demoStart "s2") = Some (demoClient, [reply "failed" "s2" "tuner busy"])
  /\ NoDup (map_to_list (cl_workers demoClient)).*2.
Proof.
  split; [vm_compute; reflexivity|]. apply (one_receiver_per_tuner demoClient).
  apply (client_message _ (demoStart "s1") _ [] client_start). vm_compute. reflexivity.
Defined.
