(* ===== verification/TunerPool.v ===== *)
(** * The tuner pool (internal/tuner/manager.go, status.go, tuner.go)

    [Manager] owns the tuners of the machine.  A request for a channel type
    reserves a free tuner, or takes one from users of a lower priority, or
    waits until the pool changes.  A [*Tuner] is its index in the
    configuration, a [*managedDevice] an id into a store; the device itself, a
    process or a connection to an agent, is outside, and so are its answers.
    The channels [changed] of the pool and of the agent hub, closed and replaced
    on every change, are the number of changes so far.

    Events, logging, metrics and the fields of [Status] that ask a running
    process are left out: no decision depends on them. *)

From stdpp Require Import strings sorting.
From S2P Require Import Prelude AgentHub.

(** ** Configuration (internal/config/tuners.go, channel.go) *)

Record AgentTunerConfig := mkAgentConfig {
  ac_Name : string;
  ac_Decoder : string;
  ac_B61Decoder : string
}.

Record TunerConfig := mkTunerConfig {
  tc_Name : string;
  tc_Agent : option AgentTunerConfig;
  tc_Types : list string;
  tc_Command : string;
  tc_DvbDevicePath : string;
  tc_Decoder : string;
  tc_B61Decoder : string;
  tc_IsDisabled : bool
}.

Record ChannelConfig := mkChannelConfig {
  cc_Name : string;
  cc_Type : string;
  cc_Channel : string
}.

(** ** Tuners (internal/tuner/tuner.go) *)

Inductive SourceKind : Set := SourceKindUnsupported | SourceKindCommand | SourceKindDVB | SourceKindAgent.

Definition SourceKindOf (t : TunerConfig) : SourceKind :=
  match tc_Agent t with
  | Some _ => SourceKindAgent
  | None =>
      if bool_decide (tc_DvbDevicePath t <> EmptyString) then SourceKindDVB
      else if bool_decide (tc_Command t <> EmptyString) then SourceKindCommand
      else SourceKindUnsupported
  end.

Definition Usable (t : TunerConfig) : bool :=
  match SourceKindOf t with
  | SourceKindCommand | SourceKindDVB | SourceKindAgent => true
  | SourceKindUnsupported => false
  end.

Definition Available (agents : option Hub) (t : TunerConfig) : bool :=
  match tc_Agent t with None => true | Some a => HubAvailable agents (ac_Name a) (tc_Name t) end.

(** [sort.Strings] of the distinct types. *)
Definition stringLe (a b : string) : Prop := Is_true (String.leb a b).
#[export] Instance stringLe_dec a b : Decision (stringLe a b).
Proof. unfold stringLe. apply _. Defined.

Definition Groups (t : TunerConfig) : list string :=
  merge_sort stringLe (elements (list_to_set (tc_Types t) : gset string)).

(** Whether [NewDevice] makes a device. *)
Definition NewDevice (agents : option Hub) (t : TunerConfig) : bool :=
  match SourceKindOf t with
  | SourceKindAgent => bool_decide (agents <> None)
  | SourceKindDVB | SourceKindCommand => true
  | SourceKindUnsupported => false
  end.

(** ** Users (internal/tuner/status.go) *)

Record StreamSetting := mkStreamSetting {
  ss_Channel : option ChannelConfig;
  ss_NetworkID : option Z;
  ss_ServiceID : option Z;
  ss_EventID : option Z;
  ss_NoProvide : option bool;
  ss_ParseNIT : option bool;
  ss_ParseSDT : option bool;
  ss_ParseEIT : option bool
}.

Record StreamInfo := mkStreamInfo {
  si_Packet : Z;
  si_Drop : Z
}.

(** A nil map is [None]. *)
Record User := mkUser {
  u_ID : string;
  u_Priority : Z;
  u_Agent : string;
  u_URL : string;
  u_DisableDecoder : bool;
  u_StreamSetting : StreamSetting;
  u_StreamInfo : option (gmap string StreamInfo)
}.

Definition setStreamInfo (u : User) (info : option (gmap string StreamInfo)) : User :=
  mkUser (u_ID u) (u_Priority u) (u_Agent u) (u_URL u) (u_DisableDecoder u) (u_StreamSetting u) info.

Record trackedUser := mkTracked {
  tu_user : User;
  tu_refs : Z
}.

(** ** The pool *)

Record tunerRuntime := mkRuntime {
  rt_inUse : bool;
  rt_running : bool;
  rt_stopped : bool;
  rt_fault : bool;
  rt_reservationPriority : Z;
  rt_device : option Z;
  rt_requested : option ChannelConfig;
  rt_tuned : option ChannelConfig;
  rt_users : gmap string trackedUser
}.

Definition newRuntime : tunerRuntime := mkRuntime false false false false 0 None None None ∅.

(** [managedDevice]: its tuner, and whether [once] is spent. *)
Record managedDevice := mkManaged {
  md_tuner : nat;
  md_released : bool
}.

Record Manager := mkManager {
  tm_agents : option Hub;
  tm_tuners : list TunerConfig;
  tm_inUse : gset nat;
  tm_runtime : gmap nat tunerRuntime;
  tm_nextByType : gmap string Z;
  tm_changed : Z;
  tm_devices : gmap Z managedDevice
}.

Definition NewManager (agents : option Hub) (tuners : list TunerConfig) : Manager :=
  mkManager agents tuners ∅ (list_to_map (imap (fun i _ => (i, newRuntime)) tuners)) ∅ 0 ∅.

Definition setRuntime (tm : Manager) (i : nat) (r : tunerRuntime) : Manager :=
  mkManager (tm_agents tm) (tm_tuners tm) (tm_inUse tm) (<[i := r]> (tm_runtime tm)) (tm_nextByType tm) (tm_changed tm) (tm_devices tm).
Definition setInUse (tm : Manager) (inUse : gset nat) : Manager :=
  mkManager (tm_agents tm) (tm_tuners tm) inUse (tm_runtime tm) (tm_nextByType tm) (tm_changed tm) (tm_devices tm).
Definition setNext (tm : Manager) (next : gmap string Z) : Manager :=
  mkManager (tm_agents tm) (tm_tuners tm) (tm_inUse tm) (tm_runtime tm) next (tm_changed tm) (tm_devices tm).
Definition setDevices (tm : Manager) (devices : gmap Z managedDevice) : Manager :=
  mkManager (tm_agents tm) (tm_tuners tm) (tm_inUse tm) (tm_runtime tm) (tm_nextByType tm) (tm_changed tm) devices.
Definition setAgents (tm : Manager) (agents : option Hub) : Manager :=
  mkManager agents (tm_tuners tm) (tm_inUse tm) (tm_runtime tm) (tm_nextByType tm) (tm_changed tm) (tm_devices tm).

(** [tm.runtime[item]], whose fields are read at once. *)
Definition runtimeOf (tm : Manager) (i : nat) : go tunerRuntime :=
  match tm_runtime tm !! i with Some r => Ret r | None => Panic end.

Definition notifyChangedLocked (tm : Manager) : Manager :=
  mkManager (tm_agents tm) (tm_tuners tm) (tm_inUse tm) (tm_runtime tm) (tm_nextByType tm) (tm_changed tm + 1) (tm_devices tm).

Definition effectivePriority (r : tunerRuntime) : Z :=
  foldl (fun priority u => if priority <? u_Priority (tu_user u) then u_Priority (tu_user u) else priority)
    (rt_reservationPriority r) (map_to_list (rt_users r)).*2.

(** [resetReservation]: every field is the zero value again. *)
Definition resetReservation (r : tunerRuntime) : tunerRuntime * bool := (newRuntime, rt_fault r).

(** ** Acquiring *)

Record DecoderCommands := mkDecoders {
  dc_AgentDecoder : bool;
  dc_AgentB61Decoder : bool;
  dc_Decoder : string;
  dc_B61Decoder : string
}.

Definition noDecoders : DecoderCommands := mkDecoders false false EmptyString EmptyString.

Record grabCandidate := mkGrab {
  gc_device : Z;
  gc_tunerName : string;
  gc_priority : Z
}.

(** A [grabCandidate] without a device is [None]. *)
Record acquireAttempt := mkAttempt {
  at_device : option Z;
  at_decoders : DecoderCommands;
  at_found : bool;
  at_usable : bool;
  at_grab : option grabCandidate;
  at_changed : Z
}.

Definition betterGrabCandidate (current : option grabCandidate) (item : TunerConfig) (runtime : tunerRuntime) (requestPriority : Z) :
    option grabCandidate :=
  match rt_device runtime with
  | None => current
  | Some device =>
      let effective := effectivePriority runtime in
      if requestPriority <=? effective then current
      else if match current with Some c => gc_priority c <=? effective | None => false end then current
      else Some (mkGrab device (tc_Name item) effective)
  end.

(** [id] is the address of the new [managedDevice]. *)
Definition reserveLocked (tm : Manager) (id : Z) (i : nat) (item : TunerConfig) (priority : Z) (requested tuned : option ChannelConfig) :
    go (option (Manager * DecoderCommands)) :=
  if negb (NewDevice (tm_agents tm) item) then Ret None
  else
    runtime ← runtimeOf tm i;
    let tm := setInUse tm (tm_inUse tm ∪ {[i]}) in
    let tm := setRuntime tm i (mkRuntime true false false (rt_fault runtime) priority (Some id) requested tuned (rt_users runtime)) in
    let tm := setDevices tm (<[id := mkManaged i false]> (tm_devices tm)) in
    let agentDecoders := match tc_Agent item with
                         | Some a => (bool_decide (ac_Decoder a <> EmptyString), bool_decide (ac_B61Decoder a <> EmptyString))
                         | None => (false, false)
                         end in
    Ret (Some (tm, mkDecoders agentDecoders.1 agentDecoders.2 (tc_Decoder item) (tc_B61Decoder item))).

(** A turn of the loop over the tuners: [offset] and the attempt so far. *)
Definition acquireTurn (tm : Manager) (id : Z) (channelType : string) (requestPriority : Z) (requested tuned : option ChannelConfig)
    (start : Z) (st : Z * acquireAttempt) : go (iteration (Z * acquireAttempt) (Manager * acquireAttempt)) :=
  let '(offset, result) := st in
  if negb (offset <? len (tm_tuners tm)) then Ret (Break (tm, result))
  else
    let index := (start + offset) mod len (tm_tuners tm) in
    let i := Z.to_nat index in
    item ← idx (tm_tuners tm) index;
    if tc_IsDisabled item || bool_decide (channelType ∉ Groups item) then Ret (Continue (offset + 1, result))
    else
      let result := mkAttempt (at_device result) (at_decoders result) true (at_usable result) (at_grab result) (at_changed result) in
      if negb (Usable item) then Ret (Continue (offset + 1, result))
      else
        let result := mkAttempt (at_device result) (at_decoders result) true true (at_grab result) (at_changed result) in
        runtime ← runtimeOf tm i;
        if rt_fault runtime || negb (Available (tm_agents tm) item) then Ret (Continue (offset + 1, result))
        else if bool_decide (i ∈ tm_inUse tm) then
          let grab := betterGrabCandidate (at_grab result) item runtime requestPriority in
          Ret (Continue (offset + 1, mkAttempt (at_device result) (at_decoders result) true true grab (at_changed result)))
        else
          r ← reserveLocked tm id i item requestPriority requested tuned;
          match r with
          | None => Ret (Continue (offset + 1, result))
          | Some (tm, decoders) =>
              let tm := setNext tm (<[channelType := (index + 1) mod len (tm_tuners tm)]> (tm_nextByType tm)) in
              Ret (Break (tm, mkAttempt (Some id) decoders true true (at_grab result) (at_changed result)))
          end.

Definition tryAcquireLocked (tm : Manager) (id : Z) (channelType : string) (requestPriority : Z) (requested tuned : option ChannelConfig) :
    go (Manager * acquireAttempt) :=
  loop (S (length (tm_tuners tm)))
    (acquireTurn tm id channelType requestPriority requested tuned (default 0 (tm_nextByType tm !! channelType)))
    (0, mkAttempt None noDecoders false false None (tm_changed tm)).

(** What [AcquireDevice] does after an attempt: it returns, stops the device of
    a victim and waits for the pool to change, or just waits. *)
Inductive acquireNext : Type :=
  | Acquired (device : Z) (decoders : DecoderCommands)
  | Refused (err : error)
  | GrabFrom (device : Z) (changed : Z)
  | WaitFor (changed : Z) (agentChanged : option Z).

Definition afterAttempt (attempt : acquireAttempt) (agentChanged : option Z) (wait : bool) : acquireNext :=
  match at_device attempt with
  | Some device => Acquired device (at_decoders attempt)
  | None =>
      if negb (at_found attempt) then Refused ErrTunerNotFound
      else if negb (at_usable attempt) then Refused ErrUnsupportedTuner
      else match at_grab attempt with
           | Some grab => GrabFrom (gc_device grab) (at_changed attempt)
           | None => if negb wait then Refused ErrTunerUnavailable else WaitFor (at_changed attempt) agentChanged
           end
  end.

(** A turn of the loop of [AcquireDevice]. *)
Definition acquireDeviceTurn (tm : Manager) (id : Z) (channelType : string) (requestPriority : Z) (requested tuned : option ChannelConfig)
    (wait : bool) : go (Manager * acquireNext) :=
  let agentChanged := hub_changed <$> tm_agents tm in
  '(tm, attempt) ← tryAcquireLocked tm id channelType requestPriority requested tuned;
  Ret (tm, afterAttempt attempt agentChanged wait).

(** [CheckAvailable]: [found] and [usable] so far. *)
Fixpoint checkTuners (tm : Manager) (channelType : string) (requestPriority : Z) (i : nat) (tuners : list TunerConfig)
    (found usable : bool) : go () :=
  match tuners with
  | [] =>
      if negb found then Err ErrTunerNotFound
      else if negb usable then Err ErrUnsupportedTuner
      else Err ErrTunerUnavailable
  | item :: tuners =>
      if tc_IsDisabled item || bool_decide (channelType ∉ Groups item) then checkTuners tm channelType requestPriority (S i) tuners found usable
      else if negb (Usable item) then checkTuners tm channelType requestPriority (S i) tuners true usable
      else
        runtime ← runtimeOf tm i;
        if rt_fault runtime || negb (Available (tm_agents tm) item) then checkTuners tm channelType requestPriority (S i) tuners true true
        else if bool_decide (i ∉ tm_inUse tm) || (bool_decide (rt_device runtime <> None) && (effectivePriority runtime <? requestPriority))
        then Ret ()
        else checkTuners tm channelType requestPriority (S i) tuners true true
  end.

Definition CheckAvailable (tm : Manager) (channelType : string) (requestPriority : Z) : go () :=
  checkTuners tm channelType requestPriority 0 (tm_tuners tm) false false.

(** ** Looking up *)

Fixpoint GetTunerByType (tuners : list TunerConfig) (channelType : string) : option TunerConfig :=
  match tuners with
  | [] => None
  | item :: tuners =>
      if negb (tc_IsDisabled item) && bool_decide (channelType ∈ Groups item) then Some item
      else GetTunerByType tuners channelType
  end.

Definition DecoderCommandByType (tm : Manager) (channelType : string) : string :=
  match GetTunerByType (tm_tuners tm) channelType with None => EmptyString | Some item => tc_Decoder item end.

Definition B61DecoderCommandByType (tm : Manager) (channelType : string) : string :=
  match GetTunerByType (tm_tuners tm) channelType with None => EmptyString | Some item => tc_B61Decoder item end.

(** ** Releasing *)

Definition release (tm : Manager) (i : nat) : go Manager :=
  if bool_decide (i ∈ tm_inUse tm) then
    let tm := setInUse tm (tm_inUse tm ∖ {[i]}) in
    runtime ← runtimeOf tm i;
    Ret (notifyChangedLocked (setRuntime tm i (resetReservation runtime).1))
  else Ret tm.

Definition deviceOf (tm : Manager) (d : Z) : go managedDevice :=
  match tm_devices tm !! d with Some m => Ret m | None => Panic end.

Definition releaseOnce (tm : Manager) (d : Z) : go Manager :=
  m ← deviceOf tm d;
  if md_released m then Ret tm
  else release (setDevices tm (<[d := mkManaged (md_tuner m) true]> (tm_devices tm))) (md_tuner m).

(** [updateRuntimeStatusLocked] with the guard the three callers share. *)
Definition updateOwnRuntime (tm : Manager) (d : Z) (update : tunerRuntime -> tunerRuntime) : go Manager :=
  m ← deviceOf tm d;
  match tm_runtime tm !! md_tuner m with
  | None => Ret tm
  | Some runtime =>
      if negb (rt_inUse runtime) || bool_decide (rt_device runtime <> Some d) then Ret tm
      else Ret (setRuntime tm (md_tuner m) (update runtime))
  end.

Definition markRunning (tm : Manager) (d : Z) : go Manager :=
  updateOwnRuntime tm d (fun r => mkRuntime (rt_inUse r) true false (rt_fault r) (rt_reservationPriority r) (rt_device r)
                                   (rt_requested r) (rt_tuned r) (rt_users r)).
Definition markStopped (tm : Manager) (d : Z) : go Manager :=
  updateOwnRuntime tm d (fun r => mkRuntime (rt_inUse r) false true (rt_fault r) (rt_reservationPriority r) (rt_device r)
                                   (rt_requested r) (rt_tuned r) (rt_users r)).
Definition markFault (tm : Manager) (d : Z) : go Manager :=
  updateOwnRuntime tm d (fun r => mkRuntime (rt_inUse r) false (rt_stopped r) true (rt_reservationPriority r) (rt_device r)
                                   (rt_requested r) (rt_tuned r) (rt_users r)).

(** [Start], given the answer of the device's own [Start]; [deviceDone] is the
    goroutine that waits for the device to end. *)
Definition managedStart (tm : Manager) (d : Z) (err : option error) : go (Manager * option error) :=
  match err with
  | Some err => tm ← markFault tm d; tm ← releaseOnce tm d; Ret (tm, Some err)
  | None => tm ← markRunning tm d; Ret (tm, None)
  end.

Definition deviceDone (tm : Manager) (d : Z) (err : option error) : go Manager :=
  match err with Some _ => markFault tm d | None => markStopped tm d end.

Definition managedStop (tm : Manager) (d : Z) (err : option error) : go (Manager * option error) :=
  tm ← releaseOnce tm d; Ret (tm, err).

(** [KillProcess]: the device to stop. *)
Definition killTarget (tm : Manager) (index : Z) : go (option Z) :=
  if (index <? 0) || (len (tm_tuners tm) <=? index) then Err ErrTunerNotFound
  else runtime ← runtimeOf tm (Z.to_nat index); Ret (rt_device runtime).

(** ** Users *)

Definition setUsers (r : tunerRuntime) (users : gmap string trackedUser) : tunerRuntime :=
  mkRuntime (rt_inUse r) (rt_running r) (rt_stopped r) (rt_fault r) (rt_reservationPriority r) (rt_device r) (rt_requested r) (rt_tuned r) users.

Definition addUser (tm : Manager) (i : nat) (user : User) : go Manager :=
  if bool_decide (u_ID user = EmptyString) then Ret tm
  else
    runtime ← runtimeOf tm i;
    match rt_users runtime !! u_ID user with
    | Some tracked =>
        let user := match u_StreamInfo user with None => setStreamInfo user (u_StreamInfo (tu_user tracked)) | Some _ => user end in
        Ret (setRuntime tm i (setUsers runtime (<[u_ID user := mkTracked user (tu_refs tracked + 1)]> (rt_users runtime))))
    | None => Ret (setRuntime tm i (setUsers runtime (<[u_ID user := mkTracked user 1]> (rt_users runtime))))
    end.

Definition removeUser (tm : Manager) (i : nat) (id : string) : go Manager :=
  runtime ← runtimeOf tm i;
  match rt_users runtime !! id with
  | None => Ret tm
  | Some tracked =>
      let refs := tu_refs tracked - 1 in
      if refs =? 0 then Ret (setRuntime tm i (setUsers runtime (delete id (rt_users runtime))))
      else Ret (setRuntime tm i (setUsers runtime (<[id := mkTracked (tu_user tracked) refs]> (rt_users runtime))))
  end.

Definition updateUserStreamInfo (tm : Manager) (i : nat) (userID key : string) (info : StreamInfo) : go Manager :=
  runtime ← runtimeOf tm i;
  match rt_users runtime !! userID with
  | None => Ret tm
  | Some tracked =>
      let infos := default ∅ (u_StreamInfo (tu_user tracked)) in
      let user := setStreamInfo (tu_user tracked) (Some (<[key := info]> infos)) in
      Ret (setRuntime tm i (setUsers runtime (<[userID := mkTracked user (tu_refs tracked)]> (rt_users runtime))))
  end.

(** ** Status *)

Record Status := mkStatus {
  st_Index : Z;
  st_Name : string;
  st_Types : list string;
  st_Users : list User;
  st_IsAvailable : bool;
  st_IsFree : bool;
  st_IsUsing : bool;
  st_IsFault : bool;
  st_CurrentChannelType : string;
  st_CurrentChannel : string;
  st_TunedChannelType : string;
  st_TunedChannel : string
}.

Definition channelTypeOf (channel : option ChannelConfig) : string :=
  match channel with None => EmptyString | Some c => cc_Type c end.
Definition channelID (channel : option ChannelConfig) : string :=
  match channel with None => EmptyString | Some c => cc_Channel c end.

(** The users in the order of their ids. *)
Definition usersById (r : tunerRuntime) : list User :=
  omap (fun id => tu_user <$> rt_users r !! id) (merge_sort stringLe (map_to_list (rt_users r)).*1).

Definition statusLocked (tm : Manager) (index : Z) : go Status :=
  item ← idx (tm_tuners tm) index;
  runtime ← runtimeOf tm (Z.to_nat index);
  let available := negb (tc_IsDisabled item) && Usable item && Available (tm_agents tm) item
                   && negb (rt_fault runtime) && negb (rt_stopped runtime) in
  let users := usersById runtime in
  Ret (mkStatus index (tc_Name item) (Groups item) users available
         (available && negb (rt_inUse runtime) && (len users =? 0))
         (available && rt_running runtime && negb (len users =? 0))
         (rt_fault runtime)
         (channelTypeOf (rt_requested runtime)) (channelID (rt_requested runtime))
         (channelTypeOf (rt_tuned runtime)) (channelID (rt_tuned runtime))).

Definition StatusOf (tm : Manager) (index : Z) : go (option Status) :=
  if (index <? 0) || (len (tm_tuners tm) <=? index) then Ret None
  else s ← statusLocked tm index; Ret (Some s).
