(* ===== verification/TunerSharing.v ===== *)
(** * Sharing tuners

    What an attempt to acquire a tuner does, tuner by tuner; the invariant of
    the pool; and the requests that compete for it, as a step relation. *)

From stdpp Require Import strings sorting.
From S2P Require Import Prelude AgentHub AgentQuarantine TunerPool.

(** ** One tuner, seen from a request *)

Inductive standing : Type :=
  | Foreign
  | Unusable
  | Down
  | Busy (item : TunerConfig) (r : tunerRuntime)
  | Free (item : TunerConfig).

Definition standingOf (tm : Manager) (channelType : string) (i : nat) : standing :=
  match tm_tuners tm !! i, tm_runtime tm !! i with
  | Some item, Some r =>
      if tc_IsDisabled item || bool_decide (channelType ∉ Groups item) then Foreign
      else if negb (Usable item) then Unusable
      else if rt_fault r || negb (Available (tm_agents tm) item) then Down
      else if bool_decide (i ∈ tm_inUse tm) then Busy item r
      else Free item
  | _, _ => Foreign
  end.

(** The device of a tuner that a request of this priority may take away. *)
Definition prey (r : tunerRuntime) (priority : Z) : option Z :=
  if effectivePriority r <? priority then rt_device r else None.

(** The part of an attempt that grows. *)
Record tally := mkTally {
  ta_found : bool;
  ta_usable : bool;
  ta_grab : option grabCandidate
}.

Definition tallyOf (s : standing) (priority : Z) (t : tally) : tally :=
  match s with
  | Foreign => t
  | Unusable => mkTally true (ta_usable t) (ta_grab t)
  | Down => mkTally true true (ta_grab t)
  | Busy item r => mkTally true true (betterGrabCandidate (ta_grab t) item r priority)
  | Free _ => mkTally true true (ta_grab t)
  end.

(** Looking at tuners one after the other, up to a free one. *)
Fixpoint scan (tm : Manager) (channelType : string) (priority : Z) (order : list nat) (t : tally) : option (nat * TunerConfig) * tally :=
  match order with
  | [] => (None, t)
  | i :: order =>
      match standingOf tm channelType i with
      | Free item => (Some (i, item), tallyOf (Free item) priority t)
      | s => scan tm channelType priority order (tallyOf s priority t)
      end
  end.

(** The order of an attempt: from the tuner after the last one of the type. *)
Definition startOf (tm : Manager) (channelType : string) : Z := default 0 (tm_nextByType tm !! channelType).
Definition turnOrder (tm : Manager) (channelType : string) : list nat :=
  (fun offset : nat => Z.to_nat ((startOf tm channelType + Z.of_nat offset) mod len (tm_tuners tm))) <$> seq 0 (length (tm_tuners tm)).

(** ** The invariant of the pool *)

Definition user_ok (id : string) (u : trackedUser) : Prop := 0 < tu_refs u /\ u_ID (tu_user u) = id /\ id <> EmptyString.

Record pool_ok (tm : Manager) : Prop := {
  p_dom : forall i, is_Some (tm_runtime tm !! i) <-> (i < length (tm_tuners tm))%nat;
  p_inUse : forall i r, tm_runtime tm !! i = Some r -> (rt_inUse r = true <-> i ∈ tm_inUse tm);
  p_inUseDom : forall i, i ∈ tm_inUse tm -> is_Some (tm_runtime tm !! i);
  p_held : forall i r, tm_runtime tm !! i = Some r -> i ∈ tm_inUse tm ->
    exists d, rt_device r = Some d /\ tm_devices tm !! d = Some (mkManaged i false);
  p_idle : forall i r, tm_runtime tm !! i = Some r -> i ∉ tm_inUse tm ->
    rt_device r = None /\ rt_fault r = false /\ rt_running r = false /\ rt_stopped r = false /\ rt_reservationPriority r = 0;
  p_devices : forall d m, tm_devices tm !! d = Some m -> (md_tuner m < length (tm_tuners tm))%nat;
  p_live : forall d m r, tm_devices tm !! d = Some m -> md_released m = false -> tm_runtime tm !! md_tuner m = Some r ->
    md_tuner m ∈ tm_inUse tm /\ rt_device r = Some d;
  p_next : forall channelType, 0 <= startOf tm channelType <= Z.max 0 (len (tm_tuners tm) - 1);
  p_users : forall i r id u, tm_runtime tm !! i = Some r -> rt_users r !! id = Some u -> user_ok id u
}.

Lemma NewManager_ok agents tuners : pool_ok (NewManager agents tuners).
Proof.
  assert (forall i, (list_to_map (imap (fun i (_ : TunerConfig) => (i, newRuntime)) tuners) : gmap nat tunerRuntime) !! i
    = if decide (i < length tuners)%nat then Some newRuntime else None) as Hl.
  { intros i. assert ((imap (fun i (_ : TunerConfig) => (i, newRuntime)) tuners).*1 = seq 0 (length tuners)) as Hfst.
    { rewrite fmap_imap. apply list_eq. intros j. rewrite list_lookup_imap. destruct (tuners !! j) eqn:E.
      - cbn. rewrite lookup_seq_lt by (by eapply lookup_lt_Some). done.
      - cbn. rewrite lookup_seq_ge by (by apply lookup_ge_None). done. }
    destruct (decide (i < length tuners)%nat) as [Hi|Hi].
    - apply elem_of_list_to_map; [rewrite Hfst; apply NoDup_seq|].
      apply list_elem_of_lookup. exists i. rewrite list_lookup_imap. destruct (lookup_lt_is_Some_2 tuners i Hi) as [x ->]. done.
    - apply not_elem_of_list_to_map. rewrite Hfst, elem_of_seq. lia. }
  unfold NewManager. constructor; cbn [tm_runtime tm_tuners tm_inUse tm_devices tm_nextByType startOf].
  - intros i. rewrite Hl. destruct (decide (i < length tuners)%nat); split; intros Hi; try done.
  - intros i r. rewrite Hl. case_decide; [|done]. intros [= <-]. cbn. set_solver.
  - set_solver.
  - set_solver.
  - intros i r. rewrite Hl. case_decide; [|done]. intros [= <-]. done.
  - intros d m. by rewrite lookup_empty.
  - intros d m r. by rewrite lookup_empty.
  - intros ct. unfold startOf. cbn. rewrite lookup_empty. cbn. lia.
  - intros i r id u. rewrite Hl. case_decide; [|done]. intros [= <-]. cbn. by rewrite lookup_empty.
Qed.

(** ** Attempts *)

Section Attempts.

Context (tm : Manager) (tm_ok : pool_ok tm) (channelType : string).

Lemma turnOrder_elem i : i ∈ turnOrder tm channelType <-> (i < length (tm_tuners tm))%nat.
Proof.
  unfold turnOrder. rewrite list_elem_of_fmap. pose proof (p_next tm tm_ok channelType) as Hs. split.
  - intros (off & -> & Hoff%elem_of_seq). assert (0 < len (tm_tuners tm)) by lia.
    pose proof (Z.mod_pos_bound (startOf tm channelType + Z.of_nat off) (len (tm_tuners tm)) ltac:(done)). lia.
  - intros Hi. set (n := len (tm_tuners tm)) in *. assert (0 < n) by (subst n; lia).
    exists (Z.to_nat ((Z.of_nat i - startOf tm channelType) mod n)).
    pose proof (Z.mod_pos_bound (Z.of_nat i - startOf tm channelType) n ltac:(done)) as Hb. split.
    + rewrite Z2Nat.id by lia. rewrite Zplus_mod_idemp_r. replace (_ + _) with (Z.of_nat i) by lia.
      rewrite Z.mod_small by (subst n; lia). by rewrite Nat2Z.id.
    + apply elem_of_seq. subst n. lia.
Qed.

Definition attemptOf (t : tally) : acquireAttempt := mkAttempt None noDecoders (ta_found t) (ta_usable t) (ta_grab t) (tm_changed tm).

Lemma available_makes_device item : Usable item = true -> Available (tm_agents tm) item = true -> NewDevice (tm_agents tm) item = true.
Proof.
  unfold Usable, Available, NewDevice, SourceKindOf. destruct (tc_Agent item).
  - intros _. destruct (tm_agents tm); done.
  - by case_bool_decide; [|case_bool_decide].
Qed.

(** The pool with a tuner reserved. *)
Definition reserved (id : Z) (i : nat) (priority : Z) (requested tuned : option ChannelConfig) (r : tunerRuntime) : Manager :=
  mkManager (tm_agents tm) (tm_tuners tm) (tm_inUse tm ∪ {[i]})
    (<[i := mkRuntime true false false (rt_fault r) priority (Some id) requested tuned (rt_users r)]> (tm_runtime tm))
    (<[channelType := (Z.of_nat i + 1) mod len (tm_tuners tm)]> (tm_nextByType tm)) (tm_changed tm)
    (<[id := mkManaged i false]> (tm_devices tm)).

Lemma acquireTurn_eq id priority requested tuned offset t : (offset < length (tm_tuners tm))%nat ->
  let i := Z.to_nat ((startOf tm channelType + Z.of_nat offset) mod len (tm_tuners tm)) in
  match standingOf tm channelType i with
  | Free item => exists r decoders, tm_runtime tm !! i = Some r /\
      acquireTurn tm id channelType priority requested tuned (startOf tm channelType) (Z.of_nat offset, attemptOf t)
      = Ret (Break (reserved id i priority requested tuned r, mkAttempt (Some id) decoders true true (ta_grab t) (tm_changed tm)))
  | s => acquireTurn tm id channelType priority requested tuned (startOf tm channelType) (Z.of_nat offset, attemptOf t)
         = Ret (Continue (Z.of_nat (S offset), attemptOf (tallyOf s priority t)))
  end.
Proof.
  intros Ho i. pose proof (Z.mod_pos_bound (startOf tm channelType + Z.of_nat offset) (len (tm_tuners tm)) ltac:(lia)) as Hm.
  assert (i < length (tm_tuners tm))%nat as Hi by (subst i; lia).
  destruct (lookup_lt_is_Some_2 _ _ Hi) as [item Hit]. destruct (proj2 (p_dom tm tm_ok i) Hi) as [r Hr].
  unfold standingOf. rewrite Hit, Hr. unfold acquireTurn. rewrite (proj2 (Z.ltb_lt _ _)) by lia. cbn [negb]. fold i.
  rewrite (idx_lookup _ _ item) by (done || lia). cbn [mbind go_bind]. rewrite Nat2Z.inj_succ.
  destruct (tc_IsDisabled item || _); [done|].
  destruct (Usable item) eqn:Hu; cbn [negb]; [|done].
  unfold runtimeOf. rewrite Hr. cbn [mbind go_bind].
  destruct (rt_fault r || _) eqn:Hd; [done|].
  destruct (bool_decide (i ∈ tm_inUse tm)) eqn:Huse; [done|]. apply bool_decide_eq_false in Huse.
  unfold reserveLocked. bools. rewrite available_makes_device by done. cbn [negb]. unfold runtimeOf. rewrite Hr. cbn [mbind go_bind].
  eexists r, _. split; [done|]. do 2 f_equal. unfold reserved. replace (Z.of_nat i) with ((startOf tm channelType + Z.of_nat offset) mod len (tm_tuners tm)) by (subst i; lia). done.
Qed.

(** The loop is the scan of the turn order. *)
Lemma tryAcquireLocked_scan id priority requested tuned :
  match scan tm channelType priority (turnOrder tm channelType) (mkTally false false None) with
  | (Some (i, item), t) => exists r decoders, tm_runtime tm !! i = Some r /\
      tryAcquireLocked tm id channelType priority requested tuned
      = Ret (reserved id i priority requested tuned r, mkAttempt (Some id) decoders true true (ta_grab t) (tm_changed tm))
  | (None, t) => tryAcquireLocked tm id channelType priority requested tuned = Ret (tm, attemptOf t)
  end.
Proof.
  unfold tryAcquireLocked. fold (startOf tm channelType). change (mkAttempt None noDecoders false false None (tm_changed tm)) with (attemptOf (mkTally false false None)).
  unfold turnOrder. generalize (mkTally false false None). set (n := length (tm_tuners tm)).
  assert (forall k offset t, (offset + k = n)%nat ->
    match scan tm channelType priority ((fun o : nat => Z.to_nat ((startOf tm channelType + Z.of_nat o) mod len (tm_tuners tm))) <$> seq offset k) t with
    | (Some (i, item), t') => exists r decoders, tm_runtime tm !! i = Some r /\
        loop (S k) (acquireTurn tm id channelType priority requested tuned (startOf tm channelType)) (Z.of_nat offset, attemptOf t)
        = Ret (reserved id i priority requested tuned r, mkAttempt (Some id) decoders true true (ta_grab t') (tm_changed tm))
    | (None, t') => loop (S k) (acquireTurn tm id channelType priority requested tuned (startOf tm channelType)) (Z.of_nat offset, attemptOf t)
        = Ret (tm, attemptOf t')
    end) as H.
  2:{ intros t. exact (H n 0%nat t eq_refl). }
  induction k as [|k IH]; intros offset t Hn.
  - cbn [seq fmap list_fmap scan]. rewrite loop_S. unfold acquireTurn. rewrite (proj2 (Z.ltb_ge _ _)) by (subst n; lia). done.
  - cbn [seq fmap list_fmap scan]. rewrite loop_S.
    pose proof (acquireTurn_eq id priority requested tuned offset t ltac:(subst n; lia)) as E. cbv zeta in E.
    destruct (standingOf tm channelType _) as [| | |item r|item] eqn:Es.
    5:{ destruct E as (r & decoders & Hr & E). exists r, decoders. split; [done|]. by rewrite E. }
    all: rewrite E; cbn [mbind go_bind]; apply IH; lia.
Qed.

(** ** What a scan finds *)

Definition isFree (i : nat) : Prop := exists item, standingOf tm channelType i = Free item.
Definition serves (i : nat) : Prop := standingOf tm channelType i <> Foreign.
Definition servesUsable (i : nat) : Prop := serves i /\ standingOf tm channelType i <> Unusable.

(** Tuner [i], in use, whose device [d] may be taken by this priority. *)
Definition preyAt (priority : Z) (i : nat) (d effective : Z) : Prop :=
  exists item r, standingOf tm channelType i = Busy item r /\ prey r priority = Some d /\ effective = effectivePriority r.

Lemma betterGrabCandidate_eq current item r priority :
  betterGrabCandidate current item r priority =
    match prey r priority with
    | None => current
    | Some d => match current with
                | Some c => if gc_priority c <=? effectivePriority r then Some c else Some (mkGrab d (tc_Name item) (effectivePriority r))
                | None => Some (mkGrab d (tc_Name item) (effectivePriority r))
                end
    end.
Proof.
  unfold betterGrabCandidate, prey. destruct (rt_device r) as [d|]; [|by destruct (_ <? _)].
  destruct (Z.leb_spec priority (effectivePriority r)), (Z.ltb_spec (effectivePriority r) priority); try lia; [done|].
  destruct current as [c|]; [|done]. by destruct (gc_priority c <=? _).
Qed.

(** The best victim among [order] and the one there was. *)
Definition best (priority : Z) (order : list nat) (before after : option grabCandidate) : Prop :=
  match after with
  | None => before = None /\ forall i d e, i ∈ order -> ~ preyAt priority i d e
  | Some g => (before = Some g \/ exists i, i ∈ order /\ preyAt priority i (gc_device g) (gc_priority g))
      /\ (forall g0, before = Some g0 -> gc_priority g <= gc_priority g0)
      /\ forall i d e, i ∈ order -> preyAt priority i d e -> gc_priority g <= e
  end.

Lemma best_cons priority i order g0 g1 g2 : best priority [i] g0 g1 -> best priority order g1 g2 -> best priority (i :: order) g0 g2.
Proof.
  unfold best. destruct g2 as [g|].
  - intros H1 (H2 & H3 & H4). destruct g1 as [h|].
    + destruct H1 as (H5 & H6 & H7). conjs.
      * destruct H2 as [[= ->]|(j & Hj & H2)].
        -- destruct H5 as [-> |(j & Hj & H5)]; [by left|right]. exists j. apply list_elem_of_singleton in Hj as ->. split; [left|done].
        -- right. exists j. split; [by right|done].
      * intros h0 Hh. specialize (H6 h0 Hh). specialize (H3 h eq_refl). lia.
      * intros j d e Hj Hp. apply elem_of_cons in Hj as [-> |Hj]; [|by eapply H4].
        specialize (H7 i d e ltac:(left) Hp). specialize (H3 h eq_refl). lia.
    + destruct H1 as [-> H1]. conjs.
      * destruct H2 as [|(j & Hj & H2)]; [done|]. right. exists j. split; [by right|done].
      * done.
      * intros j d e Hj Hp. apply elem_of_cons in Hj as [-> |Hj]; [|by eapply H4]. by destruct (H1 i d e ltac:(left)).
  - intros H1 [-> H2]. destruct H1 as [-> H1]. split; [done|]. intros j d e [-> |Hj]%elem_of_cons; [by apply H1; left|by apply H2].
Qed.

Lemma best_tally priority i t :
  (forall item, standingOf tm channelType i <> Free item) ->
  best priority [i] (ta_grab t) (ta_grab (tallyOf (standingOf tm channelType i) priority t)).
Proof.
  intros Hf. destruct (standingOf tm channelType i) as [| | |item r|item] eqn:E; [..|by destruct (Hf item)]; cbn [tallyOf ta_grab].
  1-3: assert (forall j d e, j ∈ [i] -> ~ preyAt priority j d e) as Hno
    by (intros j d e ->%list_elem_of_singleton (it & r & E' & _); congruence);
    unfold best; destruct (ta_grab t) as [g|]; [|done]; (split; [by left|split; [intros g0 [= <-]; lia|]]);
    intros j d e Hj Hp; by destruct (Hno j d e Hj).
  rewrite betterGrabCandidate_eq. destruct (prey r priority) as [d|] eqn:Ep.
  - assert (preyAt priority i d (effectivePriority r)) as Hp by (exists item, r; done).
    assert (forall j d' e, j ∈ [i] -> preyAt priority j d' e -> e = effectivePriority r) as Hu.
    { intros j d' e ->%list_elem_of_singleton (it & r' & E' & _ & ->). rewrite E in E'. by injection E' as <- <-. }
    assert (i ∈ [i]) as Hi by left. unfold best. destruct (ta_grab t) as [c|].
    + destruct (Z.leb_spec (gc_priority c) (effectivePriority r)); cbn [gc_priority gc_device].
      * conjs; [by left|intros g0 [= <-]; lia|]. intros j d' e Hj Hq. by rewrite (Hu j d' e Hj Hq).
      * conjs; [right; by exists i|intros g0 [= <-]; lia|]. intros j d' e Hj Hq. rewrite (Hu j d' e Hj Hq). lia.
    + cbn [gc_priority gc_device]. conjs; [right; by exists i|done|]. intros j d' e Hj Hq. rewrite (Hu j d' e Hj Hq). lia.
  - assert (forall j d e, j ∈ [i] -> ~ preyAt priority j d e) as Hno.
    { intros j d e ->%list_elem_of_singleton (it & r' & E' & Hp & _). rewrite E in E'. injection E' as <- <-. congruence. }
    unfold best. destruct (ta_grab t) as [g|]; [|done]. conjs; [by left|intros g0 [= <-]; lia|].
    intros j d e Hj Hp. by destruct (Hno j d e Hj).
Qed.

Lemma scan_spec priority order : forall t,
  match scan tm channelType priority order t with
  | (Some (i, item), _) => standingOf tm channelType i = Free item /\
      exists before after, order = before ++ i :: after /\ Forall (fun j => ~ isFree j) before
  | (None, t') => Forall (fun j => ~ isFree j) order
      /\ (ta_found t' = true <-> ta_found t = true \/ Exists serves order)
      /\ (ta_usable t' = true <-> ta_usable t = true \/ Exists servesUsable order)
      /\ best priority order (ta_grab t) (ta_grab t')
  end.
Proof.
  induction order as [|i order IH]; intros t; cbn [scan].
  { conjs; [done|rewrite Exists_nil; tauto..|]. unfold best. destruct (ta_grab t) as [g|].
    - conjs; [by left|intros g0 [= <-]; lia|]. intros i d e Hi. by apply not_elem_of_nil in Hi.
    - split; [done|]. intros i d e Hi. by apply not_elem_of_nil in Hi. }
  pose proof (best_tally priority i t) as Hbest.
  destruct (standingOf tm channelType i) as [| | |item r|item] eqn:Es.
  5:{ split; [done|]. exists [], order. split; [done|constructor]. }
  all: assert (~ isFree i) as Hnf by (intros [? ?]; congruence);
    match goal with |- context [scan _ _ _ _ (tallyOf ?s _ _)] => specialize (IH (tallyOf s priority t)) end;
    match goal with |- context [scan ?a ?b ?c ?d ?e] => destruct (scan a b c d e) as [[[j it]|] t'] end.
  1, 3, 5, 7: destruct IH as (Hj & before & after & -> & Hb); split; [done|]; exists (i :: before), after; split; [done|by constructor].
  all: destruct IH as (H1 & H2 & H3 & H4); rewrite H2, H3, !Exists_cons; unfold servesUsable, serves; rewrite Es;
    cbn [tallyOf ta_found ta_usable]; conjs; [by constructor|naive_solver..|];
    (eapply best_cons; [apply Hbest; congruence|exact H4]).
Qed.

(** ** Checking without acquiring *)

Definition winnable (priority : Z) (i : nat) : Prop := isFree i \/ exists d e, preyAt priority i d e.

Definition refusal (found usable : bool) : error :=
  if negb found then ErrTunerNotFound else if negb usable then ErrUnsupportedTuner else ErrTunerUnavailable.

Lemma checkTuners_spec priority k : forall i found usable, (i + k = length (tm_tuners tm))%nat ->
  (Exists (winnable priority) (seq i k) -> checkTuners tm channelType priority i (drop i (tm_tuners tm)) found usable = Ret ())
  /\ (~ Exists (winnable priority) (seq i k) -> exists f u,
        (f = true <-> found = true \/ Exists serves (seq i k)) /\ (u = true <-> usable = true \/ Exists servesUsable (seq i k))
        /\ checkTuners tm channelType priority i (drop i (tm_tuners tm)) found usable = Err (refusal f u)).
Proof.
  induction k as [|k IH]; intros i found usable Hk.
  { rewrite drop_ge by lia. cbn [seq checkTuners]. rewrite !Exists_nil. split; [done|]. intros _. exists found, usable.
    unfold refusal. rewrite !Exists_nil; conjs; [tauto..|]. by repeat case_match. }
  destruct (lookup_lt_is_Some_2 (tm_tuners tm) i ltac:(lia)) as [item Hit]. destruct (proj2 (p_dom tm tm_ok i) ltac:(lia)) as [r Hr].
  rewrite (drop_S _ item i Hit). cbn [seq checkTuners]. rewrite !Exists_cons. unfold runtimeOf. rewrite Hr. cbn [mbind go_bind].
  assert (standingOf tm channelType i =
    if tc_IsDisabled item || bool_decide (channelType ∉ Groups item) then Foreign
    else if negb (Usable item) then Unusable
    else if rt_fault r || negb (Available (tm_agents tm) item) then Down
    else if bool_decide (i ∈ tm_inUse tm) then Busy item r else Free item) as Es by (unfold standingOf; by rewrite Hit, Hr).
  assert (forall s, standingOf tm channelType i = s -> (winnable priority i <->
    match s with Free _ => True | Busy _ r => prey r priority <> None | _ => False end)) as Hw.
  { intros s E. unfold winnable, isFree, preyAt. rewrite E. destruct s; split; try naive_solver.
    - intros Hp. destruct (prey r0 priority) as [d|] eqn:Ep; [|done]. right. by eexists _, _, _, _. }
  assert (forall s, standingOf tm channelType i = s -> (serves i <-> s <> Foreign) /\ (servesUsable i <-> s <> Foreign /\ s <> Unusable)) as Hsv
    by (intros s <-; done).
  destruct (tc_IsDisabled item || _).
  { rewrite (Hw _ Es). destruct (IH (S i) found usable ltac:(lia)) as [H1 H2]. split; [tauto|]. intros Hn.
    destruct H2 as (f & u & Hf & Hu & ->); [tauto|]. exists f, u. rewrite Hf, Hu, !Exists_cons. destruct (Hsv _ Es) as [-> ->]. conjs; [naive_solver..|done]. }
  destruct (Usable item); cbn [negb] in *.
  2:{ rewrite (Hw _ Es). destruct (IH (S i) true usable ltac:(lia)) as [H1 H2]. split; [tauto|]. intros Hn.
    destruct H2 as (f & u & Hf & Hu & ->); [tauto|]. exists f, u. rewrite Hf, Hu, !Exists_cons. destruct (Hsv _ Es) as [-> ->]. conjs; [naive_solver..|done]. }
  destruct (IH (S i) true true ltac:(lia)) as [H1 H2].
  destruct (rt_fault r || _).
  { rewrite (Hw _ Es). split; [tauto|]. intros Hn.
    destruct H2 as (f & u & Hf & Hu & ->); [tauto|]. exists f, u. rewrite Hf, Hu, !Exists_cons. destruct (Hsv _ Es) as [-> ->]. conjs; [naive_solver..|done]. }
  destruct (bool_decide_reflect (i ∈ tm_inUse tm)) as [Hin|Hin].
  - rewrite (bool_decide_eq_false_2 (i ∉ tm_inUse tm)) by tauto. cbn [orb]. rewrite (Hw _ Es). unfold prey.
    destruct (Z.ltb_spec (effectivePriority r) priority); [destruct (rt_device r) as [d|]|].
    + rewrite (bool_decide_eq_true_2 (Some d <> None)) by done. cbn [andb]. split; [done|]. intros Hn. exfalso. apply Hn. by left.
    + rewrite (bool_decide_eq_false_2 (@None Z <> None)) by tauto. cbn [andb]. split; [tauto|]. intros Hn.
      destruct H2 as (f & u & Hf & Hu & ->); [tauto|]. exists f, u. rewrite Hf, Hu, !Exists_cons. destruct (Hsv _ Es) as [-> ->]. conjs; [naive_solver..|done].
    + rewrite andb_false_r. split; [tauto|]. intros Hn.
      destruct H2 as (f & u & Hf & Hu & ->); [tauto|]. exists f, u. rewrite Hf, Hu, !Exists_cons. destruct (Hsv _ Es) as [-> ->]. conjs; [naive_solver..|done].
  - rewrite (bool_decide_eq_true_2 (i ∉ tm_inUse tm)) by done. cbn [orb]. rewrite (Hw _ Es). split; [done|]. intros Hn. exfalso. apply Hn. by left.
Qed.

Lemma standing_dom i : standingOf tm channelType i <> Foreign -> i ∈ turnOrder tm channelType.
Proof.
  intros H. apply turnOrder_elem. unfold standingOf in H. destruct (tm_tuners tm !! i) eqn:E; [|done]. by eapply lookup_lt_Some.
Qed.

Lemma exists_everywhere (P : nat -> Prop) : (forall i, P i -> standingOf tm channelType i <> Foreign) ->
  Exists P (turnOrder tm channelType) <-> exists i, P i.
Proof.
  intros H. rewrite Exists_exists. split; [intros (i & _ & ?); eauto|]. intros [i Hi]. exists i. split; [|done]. by apply standing_dom, H.
Qed.

Lemma exists_seq (P : nat -> Prop) : (forall i, P i -> standingOf tm channelType i <> Foreign) ->
  Exists P (seq 0 (length (tm_tuners tm))) <-> exists i, P i.
Proof.
  intros H. rewrite Exists_exists. split; [intros (i & _ & ?); eauto|]. intros [i Hi]. exists i. split; [|done].
  apply elem_of_seq. pose proof (proj1 (turnOrder_elem i) (standing_dom i (H i Hi))). lia.
Qed.

Lemma winnable_serves priority i : winnable priority i -> servesUsable i.
Proof. intros [[? E]|(? & ? & ? & ? & E & _)]; split; unfold serves; rewrite E; done. Qed.

Lemma prey_below r priority d : prey r priority = Some d -> effectivePriority r < priority.
Proof. unfold prey. destruct (Z.ltb_spec (effectivePriority r) priority); done. Qed.

(** What an attempt does: it reserves the first free tuner in turn, or chooses
    the victim with the lowest priority, or finds nothing to win. *)
Definition outcome (id priority : Z) (requested tuned : option ChannelConfig) (wait : bool) (tm' : Manager) (next : acquireNext) : Prop :=
  match next with
  | Acquired d _ => d = id /\ exists i r before after, tm' = reserved id i priority requested tuned r
      /\ tm_runtime tm !! i = Some r /\ isFree i /\ turnOrder tm channelType = before ++ i :: after /\ Forall (fun j => ~ isFree j) before
  | GrabFrom d changed => tm' = tm /\ changed = tm_changed tm /\ (forall j, ~ isFree j)
      /\ exists i e, preyAt priority i d e /\ e < priority /\ forall j d' e', preyAt priority j d' e' -> e <= e'
  | WaitFor changed agentChanged => tm' = tm /\ wait = true /\ changed = tm_changed tm /\ agentChanged = hub_changed <$> tm_agents tm
      /\ (forall j, ~ winnable priority j) /\ exists j, servesUsable j
  | Refused e => tm' = tm /\ (forall j, ~ winnable priority j)
      /\ ((e = ErrTunerNotFound /\ forall j, ~ serves j)
          \/ (e = ErrUnsupportedTuner /\ (exists j, serves j) /\ forall j, ~ servesUsable j)
          \/ (e = ErrTunerUnavailable /\ wait = false /\ exists j, servesUsable j))
  end.

Lemma acquireDeviceTurn_spec id priority requested tuned wait :
  returns (acquireDeviceTurn tm id channelType priority requested tuned wait)
    (fun '(tm', next) => outcome id priority requested tuned wait tm' next).
Proof.
  unfold acquireDeviceTurn. pose proof (tryAcquireLocked_scan id priority requested tuned) as E.
  pose proof (scan_spec priority (turnOrder tm channelType) (mkTally false false None)) as Hs.
  destruct (scan tm channelType priority _ _) as [[[i item]|] t].
  - destruct E as (r & decoders & Hr & ->). destruct Hs as (Hf & before & after & Ho & Hb). cbn [mbind go_bind].
    eexists (_, _). split; [reflexivity|]. cbn. split; [done|]. exists i, r, before, after. conjs; try done. by exists item.
  - rewrite E. cbn [mbind go_bind]. destruct Hs as (Hnf & Hfound & Husable & Hbest). cbn [ta_found ta_usable ta_grab] in *.
    eexists (_, _). split; [reflexivity|].
    assert (forall j, ~ isFree j) as Hno.
    { intros j [it Hj]. assert (j ∈ turnOrder tm channelType) as Hin by (apply standing_dom; by rewrite Hj).
      rewrite Forall_forall in Hnf. apply (Hnf j Hin). by exists it. }
    rewrite exists_everywhere in Hfound by done. rewrite exists_everywhere in Husable by (by intros ? [? _]).
    assert (forall j d e, preyAt priority j d e -> j ∈ turnOrder tm channelType) as Hin.
    { intros j d e (it & r & Hj & _). apply standing_dom. by rewrite Hj. }
    unfold afterAttempt, attemptOf. cbn [at_device at_found at_usable at_grab at_changed at_decoders].
    destruct (ta_grab t) as [g|]; unfold best in Hbest.
    + destruct Hbest as ([?|(i & Hi & Hp)] & _ & Hmin); [done|].
      assert (servesUsable i) as Hsu by (apply (winnable_serves priority); right; by eexists _, _).
      rewrite (proj2 Hfound (or_intror (ex_intro _ i (proj1 Hsu)))), (proj2 Husable (or_intror (ex_intro _ i Hsu))).
      cbn. conjs; try done. exists i, (gc_priority g). conjs; [done| |by eauto].
      destruct Hp as (it & r & _ & Hp & ->). by apply prey_below in Hp.
    + destruct Hbest as [_ Hnp]. assert (forall j, ~ winnable priority j) as Hnw.
      { intros j [Hj|(d & e & Hj)]; [by apply (Hno j)|]. by eapply Hnp; [eapply Hin|]. }
      destruct (ta_found t); cbn [negb].
      * destruct (ta_usable t); cbn [negb].
        -- destruct (proj1 Husable eq_refl) as [?|Hu]; [done|]. destruct wait; cbn; conjs; try done. right. right. done.
        -- cbn. conjs; try done. right. left. destruct (proj1 Hfound eq_refl) as [?|Hf]; [done|]. conjs; try done.
           intros j Hj. discriminate (proj2 Husable (or_intror (ex_intro _ j Hj))).
      * cbn. conjs; try done. left. split; [done|]. intros j Hj. discriminate (proj2 Hfound (or_intror (ex_intro _ j Hj))).
Qed.

End Attempts.

(** C16: A turn of [AcquireDevice] does exactly this: it reserves the first free
    tuner of the type in turn order; when none is free it takes on the victim of
    the lowest effective priority below its own; otherwise it waits or refuses,
    with the error that says whether the type has no tuner, no usable tuner, or
    none to be had. *)
Theorem acquire_is_exact tm id channelType priority requested tuned wait : pool_ok tm ->
  returns (acquireDeviceTurn tm id channelType priority requested tuned wait)
    (fun '(tm', next) => outcome tm channelType id priority requested tuned wait tm' next).
Proof. intros Hok. by apply acquireDeviceTurn_spec. Qed.

(** Checking and acquiring look at the same tuners. *)
Lemma check_predicts_acquire tm id channelType priority requested tuned wait : pool_ok tm ->
  returns (acquireDeviceTurn tm id channelType priority requested tuned wait)
    (fun '(_, next) => CheckAvailable tm channelType priority =
      match next with
      | Acquired _ _ | GrabFrom _ _ => Ret ()
      | Refused e => Err e
      | WaitFor _ _ => Err ErrTunerUnavailable
      end).
Proof.
  intros Hok. destruct (acquireDeviceTurn_spec tm Hok channelType id priority requested tuned wait) as ([tm' next] & E & Ho). rewrite E.
  exists (tm', next). split; [done|]. unfold CheckAvailable.
  destruct (checkTuners_spec tm Hok channelType priority (length (tm_tuners tm)) 0 false false ltac:(lia)) as [Hyes Hno].
  rewrite drop_0 in Hyes, Hno. rewrite (exists_seq tm Hok channelType) in Hyes, Hno by (intros i Hi; by apply winnable_serves in Hi as [? _]).
  assert (forall f, (f = true <-> false = true \/ Exists (serves tm channelType) (seq 0 (length (tm_tuners tm)))) -> f = true <-> exists i, serves tm channelType i) as Hsv
    by (intros f ->; rewrite (exists_seq tm Hok channelType) by done; naive_solver).
  assert (forall u, (u = true <-> false = true \/ Exists (servesUsable tm channelType) (seq 0 (length (tm_tuners tm)))) -> u = true <-> exists i, servesUsable tm channelType i) as Hsu
    by (intros u ->; rewrite (exists_seq tm Hok channelType) by (by intros ? [? _]); naive_solver).
  destruct next as [d dec|e|d c|c a]; cbn in Ho.
  - destruct Ho as (_ & i & _ & _ & _ & _ & _ & Hf & _). apply Hyes. exists i. by left.
  - destruct Ho as (_ & Hw & He). destruct Hno as (f & u & Hf%Hsv & Hu%Hsu & ->); [naive_solver|]. f_equal. unfold refusal.
    destruct He as [[-> Hs]|[(-> & [j Hs] & Hn)|(-> & _ & [j Hs])]].
    + destruct f; [|done]. destruct (proj1 Hf eq_refl) as [j Hj]. by apply Hs in Hj.
    + rewrite (proj2 Hf) by eauto. destruct u; [|done]. destruct (proj1 Hu eq_refl) as [k Hk]. by apply Hn in Hk.
    + rewrite (proj2 Hf), (proj2 Hu) by (exists j; apply Hs || done). done.
  - destruct Ho as (_ & _ & _ & i & e & Hp & _). apply Hyes. exists i. right. by exists d, e.
  - destruct Ho as (_ & _ & _ & _ & Hw & [j Hs]). destruct Hno as (f & u & Hf%Hsv & Hu%Hsu & ->); [naive_solver|].
    unfold refusal. rewrite (proj2 Hf), (proj2 Hu) by (exists j; apply Hs || done). done.
Qed.

(** [CheckAvailable] tells in advance how [AcquireDevice] ends: it answers nil
    exactly when a device is acquired or a victim found, and otherwise with
    the same error, or with "unavailable" where the request would wait. *)
Theorem check_agrees_with_acquire tm id channelType priority requested tuned wait : pool_ok tm ->
  returns (acquireDeviceTurn tm id channelType priority requested tuned wait)
    (fun '(_, next) => CheckAvailable tm channelType priority =
      match next with
      | Acquired _ _ | GrabFrom _ _ => Ret ()
      | Refused e => Err e
      | WaitFor _ _ => Err ErrTunerUnavailable
      end).
Proof. apply check_predicts_acquire. Qed.

(** ** Every operation keeps the invariant *)

(** A change to one tuner's own fields. *)
Record keeps (r r' : tunerRuntime) : Prop := {
  k_inUse : rt_inUse r' = rt_inUse r;
  k_device : rt_device r' = rt_device r;
  k_idle : rt_inUse r = false -> rt_fault r' = rt_fault r /\ rt_running r' = rt_running r /\ rt_stopped r' = rt_stopped r
    /\ rt_reservationPriority r' = rt_reservationPriority r;
  k_users : (forall id u, rt_users r !! id = Some u -> user_ok id u) -> forall id u, rt_users r' !! id = Some u -> user_ok id u
}.

Lemma setRuntime_ok tm i r r' : pool_ok tm -> tm_runtime tm !! i = Some r -> keeps r r' -> pool_ok (setRuntime tm i r').
Proof.
  intros [] Hr []. constructor; cbn [tm_runtime tm_inUse tm_tuners tm_devices setRuntime]; try done.
  - intros j. rewrite lookup_insert. case_decide; [subst j|apply p_dom0]. rewrite <- p_dom0, Hr. done.
  - intros j x [[<- <-]|[_ Hx]]%lookup_insert_Some; [rewrite k_inUse0|]; by apply p_inUse0.
  - intros j Hj. rewrite lookup_insert. case_decide; [done|by apply p_inUseDom0].
  - intros j x [[<- <-]|[_ Hx]]%lookup_insert_Some; [rewrite k_device0|]; by apply p_held0.
  - intros j x [[<- <-]|[_ Hx]]%lookup_insert_Some Hj; [|by eapply p_idle0].
    destruct (k_idle0) as (-> & -> & -> & ->); [|rewrite k_device0; by eapply p_idle0].
    destruct (rt_inUse r) eqn:E; [|done]. destruct Hj. by apply (p_inUse0 i r).
  - intros d m x Hd Hm [[Hi <-]|[_ Hx]]%lookup_insert_Some; [|by eapply p_live0]. rewrite k_device0. subst i. by eapply p_live0.
  - intros j x id u [[<- <-]|[_ Hx]]%lookup_insert_Some; [|by eapply p_users0]. apply k_users0. intros ? ?. by eapply p_users0.
Qed.

Lemma reserved_ok tm channelType id i priority requested tuned r : pool_ok tm -> tm_runtime tm !! i = Some r -> i ∉ tm_inUse tm ->
  tm_devices tm !! id = None -> pool_ok (reserved tm channelType id i priority requested tuned r).
Proof.
  intros [] Hr Hi Hid. assert (i < length (tm_tuners tm))%nat as Hlt by (apply p_dom0; by rewrite Hr).
  constructor; cbn [tm_runtime tm_inUse tm_tuners tm_devices tm_nextByType reserved].
  - intros j. rewrite lookup_insert. case_decide; [subst j|apply p_dom0]. done.
  - intros j x [[<- <-]|[Hne Hx]]%lookup_insert_Some; [set_solver|]. rewrite (p_inUse0 j x Hx). set_solver.
  - intros j [Hj| ->%elem_of_singleton]%elem_of_union; rewrite lookup_insert; case_decide; try done. by apply p_inUseDom0.
  - intros j x [[<- <-]|[Hne Hx]]%lookup_insert_Some Hj.
    + exists id. by rewrite lookup_insert_eq.
    + destruct (p_held0 j x Hx) as (d & Hd & Hm); [set_solver|]. exists d. split; [done|]. rewrite lookup_insert_ne by congruence. done.
  - intros j x [[<- <-]|[Hne Hx]]%lookup_insert_Some Hj; [set_solver|]. apply (p_idle0 j); [done|set_solver].
  - intros d m [[<- <-]|[Hne Hd]]%lookup_insert_Some; [done|by eapply p_devices0].
  - intros d m x [[<- <-]|[Hne Hd]]%lookup_insert_Some Hm; cbn [md_tuner].
    + rewrite lookup_insert_eq. intros [= <-]. cbn. split; [set_solver|done].
    + destruct (p_dom0 (md_tuner m)) as [_ Hdom]. destruct (Hdom (p_devices0 d m Hd)) as [y Hy]. destruct (p_live0 d m y Hd Hm Hy) as [Hin Hy'].
      rewrite lookup_insert_ne by set_solver. intros Hx. rewrite Hy in Hx. injection Hx as <-. split; [set_solver|done].
  - intros ct. unfold startOf. cbn [tm_nextByType reserved]. rewrite lookup_insert. case_decide; [|apply p_next0]. cbn [default from_option].
    pose proof (Z.mod_pos_bound (Z.of_nat i + 1) (len (tm_tuners tm)) ltac:(lia)).
    change (0 <= (Z.of_nat i + 1) mod len (tm_tuners tm) <= Z.max 0 (len (tm_tuners tm) - 1)). lia.
  - intros j x u v [[<- <-]|[Hne Hx]]%lookup_insert_Some; [|by eapply p_users0]. cbn. by eapply p_users0.
Qed.

(** [release] of a tuner in use. *)
Lemma release_spec tm d i : pool_ok tm -> tm_devices tm !! d = Some (mkManaged i false) ->
  exists r, tm_runtime tm !! i = Some r /\ releaseOnce tm d = Ret (mkManager (tm_agents tm) (tm_tuners tm) (tm_inUse tm ∖ {[i]})
    (<[i := newRuntime]> (tm_runtime tm)) (tm_nextByType tm) (tm_changed tm + 1) (<[d := mkManaged i true]> (tm_devices tm))).
Proof.
  intros Hok Hd. destruct (proj2 (p_dom tm Hok i)) as [r Hr]; [by apply (p_devices tm Hok d _ Hd)|]. exists r. split; [done|].
  destruct (p_live tm Hok d _ r Hd eq_refl Hr) as [Hin _]. cbn [md_tuner] in Hin. unfold releaseOnce, deviceOf. rewrite Hd. cbn [mbind go_bind md_released md_tuner].
  unfold release. cbn [tm_inUse setDevices]. rewrite bool_decide_eq_true_2 by done. unfold runtimeOf. cbn [tm_runtime setInUse setDevices]. rewrite Hr. done.
Qed.

Lemma released_ok tm d i r : pool_ok tm -> tm_devices tm !! d = Some (mkManaged i false) -> tm_runtime tm !! i = Some r ->
  pool_ok (mkManager (tm_agents tm) (tm_tuners tm) (tm_inUse tm ∖ {[i]})
    (<[i := newRuntime]> (tm_runtime tm)) (tm_nextByType tm) (tm_changed tm + 1) (<[d := mkManaged i true]> (tm_devices tm))).
Proof.
  intros [] Hd Hr. destruct (p_live0 d _ r Hd eq_refl Hr) as [Hin Hrd]. cbn [md_tuner] in Hin.
  constructor; cbn [tm_runtime tm_inUse tm_tuners tm_devices tm_nextByType]; try done.
  - intros j. rewrite lookup_insert. case_decide; [subst j|apply p_dom0]. rewrite <- p_dom0, Hr. done.
  - intros j x [[<- <-]|[Hne Hx]]%lookup_insert_Some; [cbn; set_solver|]. rewrite (p_inUse0 j x Hx). set_solver.
  - intros j [Hj Hne]%elem_of_difference. rewrite lookup_insert. case_decide; [done|by apply p_inUseDom0].
  - intros j x [[<- <-]|[Hne Hx]]%lookup_insert_Some Hj; [set_solver|]. destruct (p_held0 j x Hx) as (e & He & Hm); [set_solver|].
    exists e. split; [done|]. rewrite lookup_insert_ne; [done|]. intros <-. rewrite Hd in Hm. injection Hm as ->. done.
  - intros j x [[<- <-]|[Hne Hx]]%lookup_insert_Some Hj; [done|]. apply (p_idle0 j); [done|set_solver].
  - intros e m [[<- <-]|[Hne He]]%lookup_insert_Some; [by apply (p_devices0 d _ Hd)|by eapply p_devices0].
  - intros e m x [[<- <-]|[Hne He]]%lookup_insert_Some Hm; [done|]. destruct (proj2 (p_dom0 (md_tuner m)) (p_devices0 e m He)) as [y Hy].
    destruct (p_live0 e m y He Hm Hy) as [Hin' Hy']. assert (md_tuner m <> i) as Hmi by (intros Hmi; rewrite Hmi in Hy; congruence).
    rewrite lookup_insert_ne by done. intros Hx. rewrite Hy in Hx. injection Hx as <-. split; [set_solver|done].
  - intros j x id u [[<- <-]|[Hne Hx]]%lookup_insert_Some; [by cbn; rewrite lookup_empty|by eapply p_users0].
Qed.

(** Either the device had been released, or its tuner is free again and the
    pool has changed. *)
Lemma releaseOnce_cases tm d m : pool_ok tm -> tm_devices tm !! d = Some m -> exists tm', releaseOnce tm d = Ret tm' /\ pool_ok tm' /\
  ((md_released m = true /\ tm' = tm) \/
   (md_released m = false /\ tm_changed tm' = tm_changed tm + 1 /\ tm_agents tm' = tm_agents tm
    /\ tm_devices tm' = <[d := mkManaged (md_tuner m) true]> (tm_devices tm))).
Proof.
  intros Hok Hd. destruct m as [i [|]].
  - exists tm. unfold releaseOnce, deviceOf. rewrite Hd. cbn. auto.
  - destruct (release_spec tm d i Hok Hd) as (r & Hr & ->). eexists. split; [reflexivity|]. split; [by eapply released_ok|]. right. done.
Qed.

(** Running, stopping and failing. *)
Lemma updateOwnRuntime_cases tm d m update : tm_devices tm !! d = Some m -> (forall r, rt_inUse r = true -> keeps r (update r)) ->
  exists tm', updateOwnRuntime tm d update = Ret tm' /\ (tm' = tm \/ exists i r r', tm_runtime tm !! i = Some r /\ keeps r r' /\ tm' = setRuntime tm i r').
Proof.
  intros Hd Hu. unfold updateOwnRuntime, deviceOf. rewrite Hd. cbn [mbind go_bind]. destruct (tm_runtime tm !! md_tuner m) as [r|] eqn:Hr; [|by eauto].
  destruct (rt_inUse r) eqn:Hi; cbn [negb orb]; [|by eauto]. destruct (bool_decide _); [by eauto|].
  eexists. split; [reflexivity|]. right. exists (md_tuner m), r, (update r). auto.
Qed.

(** A tuner, or none, changes its own fields. *)
Definition tunes (tm tm' : Manager) : Prop :=
  tm' = tm \/ exists i r r', tm_runtime tm !! i = Some r /\ keeps r r' /\ tm' = setRuntime tm i r'.

Lemma keeps_users r users : ((forall id u, rt_users r !! id = Some u -> user_ok id u) -> forall id u, users !! id = Some u -> user_ok id u) ->
  keeps r (setUsers r users).
Proof. by constructor. Qed.

Lemma markRunning_tunes tm d tm' : markRunning tm d = Ret tm' -> tunes tm tm'.
Proof.
  unfold markRunning. destruct (tm_devices tm !! d) as [m|] eqn:Hd; [|unfold updateOwnRuntime, deviceOf; by rewrite Hd].
  intros E. edestruct (updateOwnRuntime_cases tm d m) as (x & E' & H); [done| |rewrite E in E'; injection E' as <-; exact H]. intros r Hr. constructor; cbn; congruence || done.
Qed.

Lemma markStopped_tunes tm d tm' : markStopped tm d = Ret tm' -> tunes tm tm'.
Proof.
  unfold markStopped. destruct (tm_devices tm !! d) as [m|] eqn:Hd; [|unfold updateOwnRuntime, deviceOf; by rewrite Hd].
  intros E. edestruct (updateOwnRuntime_cases tm d m) as (x & E' & H); [done| |rewrite E in E'; injection E' as <-; exact H]. intros r Hr. constructor; cbn; congruence || done.
Qed.

Lemma markFault_tunes tm d tm' : markFault tm d = Ret tm' -> tunes tm tm'.
Proof.
  unfold markFault. destruct (tm_devices tm !! d) as [m|] eqn:Hd; [|unfold updateOwnRuntime, deviceOf; by rewrite Hd].
  intros E. edestruct (updateOwnRuntime_cases tm d m) as (x & E' & H); [done| |rewrite E in E'; injection E' as <-; exact H]. intros r Hr. constructor; cbn; congruence || done.
Qed.

Lemma deviceDone_tunes tm d err tm' : deviceDone tm d err = Ret tm' -> tunes tm tm'.
Proof. destruct err; [apply markFault_tunes|apply markStopped_tunes]. Qed.

Lemma user_ok_insert r id u : user_ok id u ->
  (forall id u, rt_users r !! id = Some u -> user_ok id u) -> forall id' u', <[id := u]> (rt_users r) !! id' = Some u' -> user_ok id' u'.
Proof. intros Hu H id' u' [[<- <-]|[_ Hx]]%lookup_insert_Some; [done|by apply H]. Qed.

Lemma addUser_tunes tm i user tm' : pool_ok tm -> addUser tm i user = Ret tm' -> tunes tm tm'.
Proof.
  intros Hok. unfold addUser. case_bool_decide as He; [intros [= <-]; by left|]. unfold runtimeOf. destruct (tm_runtime tm !! i) as [r|] eqn:Hr; [|done].
  cbn [mbind go_bind]. destruct (rt_users r !! u_ID user) as [t|] eqn:Ht; intros [= <-]; right; exists i, r; eexists; (split; [done|split; [|reflexivity]]);
    apply keeps_users, user_ok_insert; [|done]. destruct (p_users tm Hok i r _ _ Hr Ht) as (Hp & _ & _).
  unfold user_ok. cbn [tu_refs tu_user]. destruct (u_StreamInfo user); cbn; (split; [lia|done]).
Qed.

Lemma removeUser_tunes tm i id tm' : pool_ok tm -> removeUser tm i id = Ret tm' -> tunes tm tm'.
Proof.
  intros Hok. unfold removeUser, runtimeOf. destruct (tm_runtime tm !! i) as [r|] eqn:Hr; [|done]. cbn [mbind go_bind].
  destruct (rt_users r !! id) as [t|] eqn:Ht; [|intros [= <-]; by left]. destruct (p_users tm Hok i r _ _ Hr Ht) as (Hp & Hu & Hn).
  destruct (Z.eqb_spec (tu_refs t - 1) 0); intros [= <-]; right; exists i, r; eexists; (split; [done|split; [|reflexivity]]); apply keeps_users.
  - intros H x u [_ Hx]%lookup_delete_Some. by apply H.
  - apply user_ok_insert. unfold user_ok. cbn. split; [lia|done].
Qed.

Lemma updateUserStreamInfo_tunes tm i id key info tm' : pool_ok tm -> updateUserStreamInfo tm i id key info = Ret tm' -> tunes tm tm'.
Proof.
  intros Hok. unfold updateUserStreamInfo, runtimeOf. destruct (tm_runtime tm !! i) as [r|] eqn:Hr; [|done]. cbn [mbind go_bind].
  destruct (rt_users r !! id) as [t|] eqn:Ht; [|intros [= <-]; by left]. destruct (p_users tm Hok i r _ _ Hr Ht) as (Hp & Hu & Hn).
  intros [= <-]. right. exists i, r. eexists. split; [done|split; [|reflexivity]]. apply keeps_users, user_ok_insert. done.
Qed.

(** ** How the pool moves on *)

Definition hub_fine (tm : Manager) : Prop := forall h, tm_agents tm = Some h -> hub_ok h.

(** Tuner [i] could serve the type, and nobody has it. *)
Lemma isFree_iff tm channelType i : pool_ok tm -> isFree tm channelType i <->
  exists item, tm_tuners tm !! i = Some item /\ tc_IsDisabled item || bool_decide (channelType ∉ Groups item) = false /\ Usable item = true
    /\ Available (tm_agents tm) item = true /\ i ∉ tm_inUse tm.
Proof.
  intros Hok. unfold isFree, standingOf. split.
  - intros [item E]. destruct (tm_tuners tm !! i) as [it|]; [|done]. destruct (tm_runtime tm !! i) as [r|]; [|done].
    destruct (tc_IsDisabled it || _) eqn:E1; [done|]. destruct (Usable it) eqn:E2; [|done]. destruct (rt_fault r || _) eqn:E3; [done|].
    case_bool_decide; [done|]. exists it. apply orb_false_iff in E3 as [_ E3%negb_false_iff]. done.
  - intros (item & Hi & Hd & Hu & Ha & Hn). exists item. rewrite Hi. destruct (proj2 (p_dom tm Hok i)) as [r Hr]; [by eapply lookup_lt_Some|].
    rewrite Hr, Hd, Hu, Ha, bool_decide_eq_false_2 by done. destruct (p_idle tm Hok i r Hr Hn) as (_ & -> & _). done.
Qed.

Definition agentsLater (a a' : option Hub) : Prop :=
  match a, a' with None, None => True | Some h, Some h' => hub_changed h <= hub_changed h' | _, _ => False end.

Record advances (tm tm' : Manager) : Prop := {
  a_ok : pool_ok tm';
  a_hub : hub_fine tm';
  a_changed : tm_changed tm <= tm_changed tm';
  a_agents : agentsLater (tm_agents tm) (tm_agents tm');
  a_devices : forall d m, tm_devices tm !! d = Some m -> exists m', tm_devices tm' !! d = Some m' /\ md_tuner m' = md_tuner m
    /\ (md_released m' = md_released m \/ tm_changed tm < tm_changed tm');
  a_free : tm_changed tm' = tm_changed tm -> hub_changed <$> tm_agents tm' = hub_changed <$> tm_agents tm ->
    forall channelType i, isFree tm' channelType i -> isFree tm channelType i
}.

Lemma agents_refl (a : option Hub) : agentsLater a a.
Proof. by destruct a; cbn. Qed.

Lemma advances_refl tm : pool_ok tm -> hub_fine tm -> advances tm tm.
Proof. intros Hok Hh. constructor; try done; [apply agents_refl|eauto]. Qed.

Lemma tunes_advances tm tm' : pool_ok tm -> hub_fine tm -> tunes tm tm' -> advances tm tm'.
Proof.
  intros Hok Hh [-> |(i & r & r' & Hr & Hk & ->)]; [by apply advances_refl|]. pose proof (setRuntime_ok tm i r r' Hok Hr Hk) as Hok'.
  constructor; try done; [apply agents_refl|eauto|]. intros _ _ ct j. by rewrite !isFree_iff.
Qed.

Lemma release_advances tm d m : pool_ok tm -> hub_fine tm -> tm_devices tm !! d = Some m ->
  exists tm' m', releaseOnce tm d = Ret tm' /\ advances tm tm' /\ tm_devices tm' !! d = Some m' /\ md_released m' = true
    /\ (md_released m = false -> tm_changed tm < tm_changed tm').
Proof.
  intros Hok Hh Hd. destruct (releaseOnce_cases tm d m Hok Hd) as (tm' & E & Hok' & H). exists tm'.
  destruct H as [[Hr ->]|(Hr & Hc & Ha & Hdev)].
  { exists m. conjs; [done|by apply advances_refl|done..|congruence]. }
  exists (mkManaged (md_tuner m) true). rewrite Hdev, lookup_insert_eq. conjs; [done| |done|done|lia].
  constructor; [done| |lia|rewrite Ha; apply agents_refl| |lia].
  - unfold hub_fine. by rewrite Ha.
  - intros e x He. rewrite Hdev, lookup_insert. case_decide as Hde; [|by eauto]. eexists. split; [reflexivity|]. subst e. rewrite Hd in He. injection He as <-. split; [done|right; lia].
Qed.

Lemma hub_advances tm h l h' : pool_ok tm -> hub_fine tm -> tm_agents tm = Some h -> hubStep h l h' -> advances tm (setAgents tm (Some h')).
Proof.
  intros Hok Hh Ha Hs. destruct (hubStep_announces h l h' Hs (Hh h Ha)) as [Hc Hav].
  assert (pool_ok (setAgents tm (Some h'))) as Hok' by (by destruct Hok). constructor; try done.
  - intros x [= <-]. by eapply hubStep_ok, Hh.
  - rewrite Ha. done.
  - eauto.
  - cbn [tm_agents setAgents]. rewrite Ha. cbn. intros _ [= E] ct i. rewrite !isFree_iff by done. intros (item & Hi & Hd & Hu & Hx & Hn). exists item.
    conjs; try done. rewrite Ha. unfold Available in *. destruct (tc_Agent item); [|done]. by apply Hav.
Qed.

Lemma turn_advances tm id channelType priority requested tuned wait tm' next : pool_ok tm -> hub_fine tm -> tm_devices tm !! id = None ->
  acquireDeviceTurn tm id channelType priority requested tuned wait = Ret (tm', next) ->
  outcome tm channelType id priority requested tuned wait tm' next /\ advances tm tm'.
Proof.
  intros Hok Hh Hid E. destruct (acquireDeviceTurn_spec tm Hok channelType id priority requested tuned wait) as ([x y] & E' & Ho).
  rewrite E in E'. injection E' as <- <-. split; [done|]. destruct next as [d dec|e|d c|c a].
  2-4: destruct Ho as [-> _]; by apply advances_refl.
  destruct Ho as (-> & i & r & before & after & -> & Hr & Hf & _). pose proof Hf as (_ & _ & _ & _ & _ & Hn)%isFree_iff; [|done].
  pose proof (reserved_ok tm channelType id i priority requested tuned r Hok Hr Hn Hid) as Hok'. constructor; try done.
  - apply agents_refl.
  - intros e m He. exists m. cbn [tm_devices reserved]. rewrite lookup_insert_ne by congruence. auto.
  - intros _ _ ct j. rewrite !isFree_iff by done. cbn [tm_tuners tm_agents tm_inUse reserved]. intros (item & ? & ? & ? & ? & Hj). exists item. conjs; try done. set_solver.
Qed.

(** ** Requests that compete *)

Record want := mkWant {
  wa_type : string;
  wa_priority : Z;
  wa_requested : option ChannelConfig;
  wa_tuned : option ChannelConfig;
  wa_wait : bool
}.

(** Where an [AcquireDevice] stands: about to try, stopping its victim, waiting
    for the pool after that, waiting for the pool or the agents, returned. *)
Inductive phase : Type :=
  | Trying
  | Stopping (d changed : Z)
  | Awaiting (changed : Z)
  | Waiting (changed : Z) (agentChanged : option Z)
  | Holding (d : Z)
  | Gone.

Definition phaseOf (next : acquireNext) : phase :=
  match next with
  | Acquired d _ => Holding d
  | Refused _ => Gone
  | GrabFrom d changed => Stopping d changed
  | WaitFor changed agentChanged => Waiting changed agentChanged
  end.

Record world := mkWorld {
  wo_tm : Manager;
  wo_requests : gmap nat (want * phase)
}.

Inductive worldStep : world -> world -> Prop :=
  | w_request tm rs k q : rs !! k = None -> worldStep (mkWorld tm rs) (mkWorld tm (<[k := (q, Trying)]> rs))
  | w_turn tm rs k q id tm' next : rs !! k = Some (q, Trying) -> tm_devices tm !! id = None ->
      acquireDeviceTurn tm id (wa_type q) (wa_priority q) (wa_requested q) (wa_tuned q) (wa_wait q) = Ret (tm', next) ->
      worldStep (mkWorld tm rs) (mkWorld tm' (<[k := (q, phaseOf next)]> rs))
  | w_stopped tm rs k q d c err tm' : rs !! k = Some (q, Stopping d c) -> managedStop tm d err = Ret (tm', err) ->
      worldStep (mkWorld tm rs) (mkWorld tm' (<[k := (q, match err with None => Awaiting c | Some _ => Gone end)]> rs))
  | w_awake tm rs k q c : rs !! k = Some (q, Awaiting c) -> c < tm_changed tm -> worldStep (mkWorld tm rs) (mkWorld tm (<[k := (q, Trying)]> rs))
  | w_woken tm rs k q c a : rs !! k = Some (q, Waiting c a) -> c < tm_changed tm \/ hub_changed <$> tm_agents tm <> a ->
      worldStep (mkWorld tm rs) (mkWorld tm (<[k := (q, Trying)]> rs))
  | w_canceled tm rs k q p : rs !! k = Some (q, p) -> (forall d, p <> Holding d) -> worldStep (mkWorld tm rs) (mkWorld tm (<[k := (q, Gone)]> rs))
  | w_start tm rs d err tm' e : managedStart tm d err = Ret (tm', e) -> worldStep (mkWorld tm rs) (mkWorld tm' rs)
  | w_done tm rs d err tm' : deviceDone tm d err = Ret tm' -> worldStep (mkWorld tm rs) (mkWorld tm' rs)
  | w_stop tm rs d err tm' e : managedStop tm d err = Ret (tm', e) -> worldStep (mkWorld tm rs) (mkWorld tm' rs)
  | w_addUser tm rs i u tm' : addUser tm i u = Ret tm' -> worldStep (mkWorld tm rs) (mkWorld tm' rs)
  | w_removeUser tm rs i id tm' : removeUser tm i id = Ret tm' -> worldStep (mkWorld tm rs) (mkWorld tm' rs)
  | w_streamInfo tm rs i id key info tm' : updateUserStreamInfo tm i id key info = Ret tm' -> worldStep (mkWorld tm rs) (mkWorld tm' rs)
  | w_hub tm rs h l h' : tm_agents tm = Some h -> hubStep h l h' -> worldStep (mkWorld tm rs) (mkWorld (setAgents tm (Some h')) rs).

Definition phase_ok (tm : Manager) (q : want) (p : phase) : Prop :=
  match p with
  | Trying | Gone => True
  | Holding d => is_Some (tm_devices tm !! d)
  | Stopping d c => exists m, tm_devices tm !! d = Some m /\ c <= tm_changed tm /\ (md_released m = true -> c < tm_changed tm)
  | Awaiting c => c < tm_changed tm
  | Waiting c a => c <= tm_changed tm /\
      (c = tm_changed tm -> hub_changed <$> tm_agents tm = a -> forall i, ~ isFree tm (wa_type q) i) /\
      match a, tm_agents tm with None, None => True | Some n, Some h => n <= hub_changed h | _, _ => False end
  end.

Record world_ok (w : world) : Prop := {
  wo_pool : pool_ok (wo_tm w);
  wo_hub : hub_fine (wo_tm w);
  wo_phases : forall k q p, wo_requests w !! k = Some (q, p) -> phase_ok (wo_tm w) q p;
  wo_own : forall k1 k2 q1 q2 d, wo_requests w !! k1 = Some (q1, Holding d) -> wo_requests w !! k2 = Some (q2, Holding d) -> k1 = k2
}.

Lemma phase_advances tm tm' q p : advances tm tm' -> phase_ok tm q p -> phase_ok tm' q p.
Proof.
  intros []. destruct p as [|d c|c|c a|d|]; cbn; try done.
  - intros (m & Hm & Hc & Hr). destruct (a_devices0 d m Hm) as (m' & Hm' & _ & Hr'). exists m'. conjs; [done|lia|]. intros E.
    destruct Hr' as [Hr'|Hr']; [|lia]. rewrite Hr' in E. specialize (Hr E). lia.
  - lia.
  - intros (Hc & Hn & Ha). unfold agentsLater in a_agents0. conjs; [lia| |destruct a, (tm_agents tm), (tm_agents tm'); try done; lia].
    intros Ec Ea i Hi. assert (hub_changed <$> tm_agents tm = a) as Ea'.
    { destruct a, (tm_agents tm), (tm_agents tm'); try done. cbn in *. injection Ea as Ea. f_equal. lia. }
    apply (Hn ltac:(lia) Ea' i). apply a_free0; [lia|congruence|done].
  - intros [m Hm]. destruct (a_devices0 d m Hm) as (m' & Hm' & _). by exists m'.
Qed.

(** A step of the pool alone. *)
Lemma world_pool tm rs tm' : world_ok (mkWorld tm rs) -> advances tm tm' -> world_ok (mkWorld tm' rs).
Proof. intros [] Ha. pose proof Ha as []. constructor; cbn in *; try done. intros k q p Hk. eapply phase_advances; [done|by eapply wo_phases0]. Qed.

(** A request moves on, without a new device. *)
Lemma world_request tm rs k q p : world_ok (mkWorld tm rs) -> phase_ok tm q p -> (forall d, p <> Holding d) -> world_ok (mkWorld tm (<[k := (q, p)]> rs)).
Proof.
  intros [] Hp Hn. constructor; cbn in *; try done.
  - intros j x y [[<- [= <- <-]]|[_ Hj]]%lookup_insert_Some; [done|by eapply wo_phases0].
  - intros k1 k2 q1 q2 d [[_ [= _ H]]|[_ H1]]%lookup_insert_Some [[_ [= _ H']]|[_ H2]]%lookup_insert_Some; [by destruct (Hn d)..|]. by eapply wo_own0.
Qed.

Lemma deviceOf_Ret {A} tm d (f : managedDevice -> go A) x : (m ← deviceOf tm d; f m) = Ret x -> exists m, tm_devices tm !! d = Some m.
Proof. unfold deviceOf. destruct (tm_devices tm !! d) as [m|]; [by exists m|done]. Qed.

Lemma managedStop_spec tm d err tm' e : pool_ok tm -> hub_fine tm -> managedStop tm d err = Ret (tm', e) ->
  exists m, tm_devices tm !! d = Some m /\ e = err /\ advances tm tm' /\ (md_released m = false -> tm_changed tm < tm_changed tm').
Proof.
  intros Hok Hh E. unfold managedStop in E. destruct (tm_devices tm !! d) as [m|] eqn:Hm; [|unfold releaseOnce, deviceOf in E; by rewrite Hm in E].
  destruct (release_advances tm d m Hok Hh Hm) as (x & m' & Ex & Ha & _ & _ & Hc). rewrite Ex in E. cbn [mbind go_bind] in E. injection E as <- <-. by exists m.
Qed.

Lemma advances_trans tm1 tm2 tm3 : advances tm1 tm2 -> advances tm2 tm3 -> advances tm1 tm3.
Proof.
  intros [] []. constructor; try done; [lia| | |].
  - unfold agentsLater in *. destruct (tm_agents tm1), (tm_agents tm2), (tm_agents tm3); try done. lia.
  - intros d m Hm. destruct (a_devices0 d m Hm) as (m2 & H2 & Ht2 & Hr2). destruct (a_devices1 d m2 H2) as (m3 & H3 & Ht3 & Hr3).
    exists m3. conjs; [done|congruence|]. destruct Hr2 as [Hr2|]; [|right; lia]. destruct Hr3 as [Hr3|]; [left; congruence|right; lia].
  - intros Hc Hh ct i Hi. unfold agentsLater in *. apply a_free0; [lia| |apply a_free1; [lia| |done]].
    all: destruct (tm_agents tm1), (tm_agents tm2), (tm_agents tm3); try done; cbn in *; injection Hh as Hh; f_equal; lia.
Qed.

Lemma managedStart_advances tm d err tm' e : pool_ok tm -> hub_fine tm -> managedStart tm d err = Ret (tm', e) -> advances tm tm'.
Proof.
  intros Hok Hh. unfold managedStart. destruct err as [x|].
  - destruct (markFault tm d) as [tm1| | |] eqn:E1; cbn [mbind go_bind]; try done. pose proof (tunes_advances _ _ Hok Hh (markFault_tunes _ _ _ E1)) as Ha.
    destruct (releaseOnce tm1 d) as [tm2| | |] eqn:E2; cbn [mbind go_bind]; try done. intros [= <- <-]. eapply advances_trans; [exact Ha|].
    pose proof Ha as []. destruct (tm_devices tm1 !! d) as [m|] eqn:Hm; [|unfold releaseOnce, deviceOf in E2; by rewrite Hm in E2].
    destruct (release_advances tm1 d m) as (y & m' & Ey & Hy & _); [done..|]. rewrite E2 in Ey. by injection Ey as <-.
  - destruct (markRunning tm d) as [tm1| | |] eqn:E1; cbn [mbind go_bind]; try done. intros [= <- <-]. apply tunes_advances; [done..|]. by eapply markRunning_tunes.
Qed.

Lemma turn_ok tm rs k q id tm' next : world_ok (mkWorld tm rs) -> rs !! k = Some (q, Trying) -> tm_devices tm !! id = None ->
  acquireDeviceTurn tm id (wa_type q) (wa_priority q) (wa_requested q) (wa_tuned q) (wa_wait q) = Ret (tm', next) ->
  world_ok (mkWorld tm' (<[k := (q, phaseOf next)]> rs)).
Proof.
  intros Hw Hk Hid E. pose proof Hw as []. cbn [wo_tm wo_requests] in *.
  destruct (turn_advances _ _ _ _ _ _ _ _ _ wo_pool0 wo_hub0 Hid E) as [Ho Ha]. clear E. pose proof (world_pool _ _ _ Hw Ha) as Hw'.
  destruct next as [d dec|e|d c|c a]; cbn [phaseOf] in *.
  - destruct Ho as (-> & i & r & before & after & -> & Hr & _). pose proof Hw' as []. constructor; cbn in *; try done.
    + intros j x y [[<- [= <- <-]]|[_ Hj]]%lookup_insert_Some; [cbn; by rewrite lookup_insert_eq|by eapply wo_phases1].
    + assert (forall j q', rs !! j <> Some (q', Holding id)) as Hnew.
      { intros j q' Hj. apply wo_phases0 in Hj as [m Hm]. congruence. }
      intros k1 k2 q1 q2 d [[<- [= _ <-]]|[_ H1]]%lookup_insert_Some [[<- E2]|[_ H2]]%lookup_insert_Some; [done| | |by eapply wo_own0].
      * by destruct (Hnew k2 q2).
      * injection E2 as _ <-. by destruct (Hnew k1 q1).
  - by apply world_request.
  - destruct Ho as (-> & -> & _ & i & x & (item & r & Hb & Hp & _) & _ & _). apply world_request; [done| |done].
    assert (tm_runtime tm !! i = Some r /\ i ∈ tm_inUse tm) as [Hr Hin].
    { unfold standingOf in Hb. destruct (tm_tuners tm !! i); [|done]. destruct (tm_runtime tm !! i) eqn:Er; [|done].
      destruct (_ || _); [done|]. destruct (negb _); [done|]. destruct (_ || _); [done|]. case_bool_decide; [|done]. injection Hb as _ ->. done. }
    unfold prey in Hp. destruct (_ <? _); [|done]. destruct (p_held tm wo_pool0 i r Hr Hin) as (d' & Hd' & Hm). rewrite Hp in Hd'. injection Hd' as <-.
    exists (mkManaged i false). done.
  - destruct Ho as (-> & _ & -> & -> & Hn & _). apply world_request; [done| |done]. cbn. conjs; [lia| |destruct (tm_agents tm); cbn; [lia|done]].
    intros _ _ i Hi. apply (Hn i). by left.
Qed.

Lemma worldStep_ok w w' : worldStep w w' -> world_ok w -> world_ok w'.
Proof.
  intros Hs Hw. pose proof Hw as []. destruct Hs as [tm rs k q Hk|tm rs k q id tm' next Hk Hid E|tm rs k q d c err tm' Hk E|tm rs k q c Hk Hc|tm rs k q c a Hk Hc|
    tm rs k q p Hk Hp|tm rs d err tm' e E|tm rs d err tm' E|tm rs d err tm' e E|tm rs i u tm' E|tm rs i id tm' E|tm rs i id key info tm' E|tm rs h l h' Ha Hs].
  all: cbn [wo_tm wo_requests] in *.
  - by apply world_request.
  - by eapply turn_ok.
  - destruct (wo_phases0 k q _ Hk) as (m & Hm & Hc & Hr). destruct (managedStop_spec _ _ _ _ _ wo_pool0 wo_hub0 E) as (m' & Hm' & _ & Ha & Hgo).
    rewrite Hm in Hm'. injection Hm' as <-. pose proof (world_pool _ _ _ Hw Ha) as Hw'. destruct err; [by apply world_request|].
    apply world_request; [done| |done]. cbn. pose proof (a_changed _ _ Ha). destruct (md_released m); [specialize (Hr eq_refl)|specialize (Hgo eq_refl)]; lia.
  - by apply world_request.
  - by apply world_request.
  - by apply world_request.
  - eapply world_pool; [done|by eapply managedStart_advances].
  - eapply world_pool; [done|]. by apply tunes_advances, (deviceDone_tunes _ _ _ _ E).
  - eapply world_pool; [done|]. by destruct (managedStop_spec _ _ _ _ _ wo_pool0 wo_hub0 E) as (m & _ & _ & ? & _).
  - eapply world_pool; [done|]. by apply tunes_advances, (addUser_tunes _ _ _ _ wo_pool0 E).
  - eapply world_pool; [done|]. by apply tunes_advances, (removeUser_tunes _ _ _ _ wo_pool0 E).
  - eapply world_pool; [done|]. by apply tunes_advances, (updateUserStreamInfo_tunes _ _ _ _ _ _ wo_pool0 E).
  - eapply world_pool; [done|]. by eapply hub_advances.
Qed.

(** The worlds that a pool without requests, with a new hub or none, can get to. *)
Definition freshWorld (agents : bool) (tuners : list TunerConfig) : world :=
  mkWorld (NewManager (if agents then Some NewHub else None) tuners) ∅.
Definition worldRun (tuners : list TunerConfig) (w : world) : Prop := exists agents, rtc worldStep (freshWorld agents tuners) w.

Lemma worldRun_ok tuners w : worldRun tuners w -> world_ok w.
Proof.
  intros [agents Hr]. assert (world_ok (freshWorld agents tuners)) as H0.
  { constructor; cbn.
    - apply NewManager_ok.
    - intros h. unfold freshWorld. cbn. destruct agents; [|done]. intros [= <-]. apply NewHub_ok.
    - intros k q p. by rewrite lookup_empty.
    - intros k1 k2 q1 q2 d. by rewrite lookup_empty. }
  induction Hr as [|w1 w2 w3 Hs Hr IH]; [done|]. by apply IH, (worldStep_ok w1).
Qed.

(** C1: However requests, devices, users and agents interleave, two requests
    never hold the same tuner: the devices they were given, as long as neither
    has been released, belong to different tuners, and each is the device its
    tuner is in use by. *)
Theorem tuners_are_exclusive tuners w k1 k2 q1 q2 d1 d2 m1 m2 : worldRun tuners w -> k1 <> k2 ->
  wo_requests w !! k1 = Some (q1, Holding d1) -> wo_requests w !! k2 = Some (q2, Holding d2) ->
  tm_devices (wo_tm w) !! d1 = Some m1 -> tm_devices (wo_tm w) !! d2 = Some m2 -> md_released m1 = false -> md_released m2 = false ->
  md_tuner m1 <> md_tuner m2 /\ md_tuner m1 ∈ tm_inUse (wo_tm w) /\ md_tuner m2 ∈ tm_inUse (wo_tm w).
Proof.
  intros Hrun Hk H1 H2 Hm1 Hm2 Hr1 Hr2. pose proof (worldRun_ok _ _ Hrun) as [Hok _ _ Hown].
  destruct (proj2 (p_dom _ Hok _) (p_devices _ Hok _ _ Hm1)) as [r1 Ht1]. destruct (proj2 (p_dom _ Hok _) (p_devices _ Hok _ _ Hm2)) as [r2 Ht2].
  destruct (p_live _ Hok _ _ _ Hm1 Hr1 Ht1) as [Hu1 Hd1]. destruct (p_live _ Hok _ _ _ Hm2 Hr2 Ht2) as [Hu2 Hd2].
  conjs; [|done..]. intros E. rewrite E, Ht2 in Ht1. injection Ht1 as <-. rewrite Hd2 in Hd1. injection Hd1 as ->. by apply Hk, (Hown k1 k2 q1 q2 d1).
Qed.

(** C2: No wakeup is lost: while a tuner that a waiting request could have is
    free, one of the two channels the request waits on has fired. *)
Theorem no_lost_wakeup tuners w k q c a i : worldRun tuners w -> wo_requests w !! k = Some (q, Waiting c a) -> isFree (wo_tm w) (wa_type q) i ->
  c < tm_changed (wo_tm w) \/ hub_changed <$> tm_agents (wo_tm w) <> a.
Proof.
  intros Hrun Hk Hf. pose proof (worldRun_ok _ _ Hrun) as [_ _ Hph _]. destruct (Hph k q _ Hk) as (Hc & Hn & _).
  destruct (Z.eq_dec c (tm_changed (wo_tm w))) as [Ec|]; [|left; lia]. right. intros Ea. by apply (Hn Ec Ea i).
Qed.

(** A request that has stopped its victim goes on: whoever released the
    tuner in the meantime, the pool has changed since the request looked. *)
Theorem grab_goes_on tuners w k q d c : worldRun tuners w -> wo_requests w !! k = Some (q, Stopping d c) ->
  returns (managedStop (wo_tm w) d None) (fun '(tm', err) => err = None /\ c < tm_changed tm'
    /\ exists m, tm_devices tm' !! d = Some m /\ md_released m = true).
Proof.
  intros Hrun Hk. pose proof (worldRun_ok _ _ Hrun) as [Hok Hh Hph _]. destruct (Hph k q _ Hk) as (m & Hm & Hc & Hr).
  destruct (release_advances _ d m Hok Hh Hm) as (tm' & m' & E & Ha & Hm' & Hr' & Hgo). exists (tm', None). unfold managedStop. rewrite E.
  conjs; try done; [|by exists m']. pose proof (a_changed _ _ Ha). destruct (md_released m); [specialize (Hr eq_refl)|specialize (Hgo eq_refl)]; lia.
Qed.

(** ** A small pool *)

Definition demoTuner (name : string) : TunerConfig := mkTunerConfig name None ["GR"%string] "cmd" EmptyString EmptyString EmptyString false.
Definition demoTuners : list TunerConfig := [demoTuner "T0"; demoTuner "T1"].
Definition demoWant (priority : Z) : want := mkWant "GR" priority None None true.
Definition demoPool : Manager := NewManager None demoTuners.
Definition demoTurn (tm : Manager) (id priority : Z) : Manager * acquireNext :=
  resultOf (acquireDeviceTurn tm id "GR" priority None None true) (tm, Refused ErrEOF).

(** Two requests hold the two tuners, a third waits, a fourth of a higher
    priority picks a victim; then the first tuner is released. *)
Definition demoPool1 : Manager := (demoTurn demoPool 1 0).1.
Definition demoPool2 : Manager := (demoTurn demoPool1 2 0).1.
Definition demoPool3 : Manager := (resultOf (managedStop demoPool2 1 None) (demoPool2, None)).1.
Definition demoWorld2 : world := mkWorld demoPool2 {[0%nat := (demoWant 0, Holding 1); 1%nat := (demoWant 0, Holding 2)]}.
Definition demoWorld3 : world := mkWorld demoPool2 (<[3%nat := (demoWant 5, Stopping 1 0)]> (<[2%nat := (demoWant 0, Waiting 0 None)]> (wo_requests demoWorld2))).
Definition demoWorld4 : world := mkWorld demoPool3 (wo_requests demoWorld3).

Lemma demoWorld2_run : worldRun demoTuners demoWorld2.
Proof.
  exists false. eapply rtc_l; [apply (w_request _ _ 0 (demoWant 0)); vm_compute; reflexivity|].
  eapply rtc_l; [eapply (w_turn _ _ 0 (demoWant 0) 1 demoPool1); vm_compute; reflexivity|].
  eapply rtc_l; [apply (w_request _ _ 1 (demoWant 0)); vm_compute; reflexivity|].
  eapply rtc_l; [eapply (w_turn _ _ 1 (demoWant 0) 2 demoPool2); vm_compute; reflexivity|].
  match goal with |- rtc _ ?a ?b => replace a with b; [constructor|vm_compute; reflexivity] end.
Qed.

Lemma demoWorld3_run : worldRun demoTuners demoWorld3.
Proof.
  destruct demoWorld2_run as [agents Hr]. exists agents. etransitivity; [exact Hr|].
  eapply rtc_l; [apply (w_request _ _ 2 (demoWant 0)); vm_compute; reflexivity|].
  eapply rtc_l; [eapply (w_turn _ _ 2 (demoWant 0) 3 demoPool2); vm_compute; reflexivity|].
  eapply rtc_l; [apply (w_request _ _ 3 (demoWant 5)); vm_compute; reflexivity|].
  eapply rtc_l; [eapply (w_turn _ _ 3 (demoWant 5) 3 demoPool2); vm_compute; reflexivity|].
  match goal with |- rtc _ ?a ?b => replace a with b; [constructor|vm_compute; reflexivity] end.
Qed.

Lemma demoWorld4_run : worldRun demoTuners demoWorld4.
Proof.
  destruct demoWorld3_run as [agents Hr]. exists agents. etransitivity; [exact Hr|]. apply rtc_once.
  apply (w_stop _ _ 1 None demoPool3 None). vm_compute. reflexivity.
Qed.

Lemma tuners_are_exclusive_witness : 0%nat <> 1%nat /\ 0%nat ∈ tm_inUse demoPool2 /\ 1%nat ∈ tm_inUse demoPool2.
Proof.
  apply (tuners_are_exclusive demoTuners demoWorld2 0 1 (demoWant 0) (demoWant 0) 1 2 (mkManaged 0 false) (mkManaged 1 false) demoWorld2_run);
    [discriminate|vm_compute; reflexivity..].
Defined.

Lemma demoPool3_ok : pool_ok demoPool3.
Proof. exact (wo_pool _ (worldRun_ok _ _ demoWorld4_run)). Qed.

Lemma no_lost_wakeup_witness : 0 < tm_changed demoPool3 \/ hub_changed <$> tm_agents demoPool3 <> None.
Proof.
  apply (no_lost_wakeup demoTuners demoWorld4 2 (demoWant 0) 0 None 0 demoWorld4_run); [vm_compute; reflexivity|].
  exists (demoTuner "T0"). vm_compute. reflexivity.
Defined.

Lemma grab_goes_on_witness : returns (managedStop demoPool2 1 None) (fun '(tm', err) => err = None /\ 0 < tm_changed tm'
    /\ exists m, tm_devices tm' !! 1 = Some m /\ md_released m = true).
Proof. apply (grab_goes_on demoTuners demoWorld3 3 (demoWant 5) 1 0 demoWorld3_run). vm_compute. reflexivity. Defined.

Lemma acquire_is_exact_witness :
  (demoTurn demoPool3 3 0).2 = Acquired 3 noDecoders /\
  returns (acquireDeviceTurn demoPool3 3 "GR" 0 None None true) (fun '(tm', next) => outcome demoPool3 "GR" 3 0 None None true tm' next).
Proof. split; [vm_compute; reflexivity|]. apply (acquire_is_exact demoPool3). exact demoPool3_ok. Defined.

Lemma check_agrees_with_acquire_witness :
  (demoTurn demoPool2 3 5).2 = GrabFrom 1 0 /\
  returns (acquireDeviceTurn demoPool3 3 "GR" 0 None None true) (fun '(_, next) => CheckAvailable demoPool3 "GR" 0 =
      match next with Acquired _ _ | GrabFrom _ _ => Ret () | Refused e => Err e | WaitFor _ _ => Err ErrTunerUnavailable end).
Proof. split; [vm_compute; reflexivity|]. apply (check_agrees_with_acquire demoPool3). exact demoPool3_ok. Defined.

(** ** Priorities *)

(** The effective priority is the highest of the reservation and its users. *)
Lemma effectivePriority_max r :
  rt_reservationPriority r <= effectivePriority r
  /\ (forall id u, rt_users r !! id = Some u -> u_Priority (tu_user u) <= effectivePriority r)
  /\ (effectivePriority r = rt_reservationPriority r \/ exists id u, rt_users r !! id = Some u /\ effectivePriority r = u_Priority (tu_user u)).
Proof.
  unfold effectivePriority. assert (forall l p,
    let e := foldl (fun priority u => if priority <? u_Priority (tu_user u) then u_Priority (tu_user u) else priority) p l in
    p <= e /\ (forall u, u ∈ l -> u_Priority (tu_user u) <= e) /\ (e = p \/ exists u, u ∈ l /\ e = u_Priority (tu_user u))) as H.
  { intros l. induction l as [|u l IH]; intros p; cbv zeta; cbn [foldl].
    { conjs; [lia|intros u Hu; by apply not_elem_of_nil in Hu|by left]. }
    specialize (IH (if p <? u_Priority (tu_user u) then u_Priority (tu_user u) else p)). cbv zeta in IH. destruct IH as (H1 & H2 & H3).
    destruct (Z.ltb_spec p (u_Priority (tu_user u))); conjs.
    - lia.
    - intros v [-> |Hv]%elem_of_cons; [lia|by apply H2].
    - destruct H3 as [H3|(v & Hv & H3)]; right; [exists u|exists v]; (split; [|done]); [left|by right].
    - lia.
    - intros v [-> |Hv]%elem_of_cons; [lia|by apply H2].
    - destruct H3 as [H3|(v & Hv & H3)]; [by left|]. right. exists v. split; [by right|done]. }
  destruct (H (map_to_list (rt_users r)).*2 (rt_reservationPriority r)) as (H1 & H2 & H3). conjs; [done| |].
  - intros id u Hu. apply H2, list_elem_of_fmap. exists (id, u). split; [done|]. by apply elem_of_map_to_list.
  - destruct H3 as [H3|(u & Hu & H3)]; [by left|]. right. apply list_elem_of_fmap in Hu as ([id v] & -> & Hv%elem_of_map_to_list). by exists id, v.
Qed.

(** When the last important user leaves, a waiting request could take the
    tuner, and [CheckAvailable] says so, but nothing wakes it: [removeUser] does
    not announce the change. *)
Definition demoUser : User := mkUser "u" 5 EmptyString EmptyString false (mkStreamSetting None None None None None None None None) None.
Definition lonePool : Manager := NewManager None [demoTuner "T0"].
Definition lonePool1 : Manager := (demoTurn lonePool 1 0).1.
Definition lonePool2 : Manager := resultOf (addUser lonePool1 0 demoUser) lonePool1.
Definition lonePool3 : Manager := resultOf (removeUser lonePool2 0 "u") lonePool2.
Definition loneWorld : world := mkWorld lonePool3 {[0%nat := (demoWant 0, Holding 1); 1%nat := (demoWant 3, Waiting 0 None)]}.

Lemma loneWorld_run : worldRun [demoTuner "T0"] loneWorld.
Proof.
  exists false. eapply rtc_l; [apply (w_request _ _ 0 (demoWant 0)); vm_compute; reflexivity|].
  eapply rtc_l; [eapply (w_turn _ _ 0 (demoWant 0) 1 lonePool1); vm_compute; reflexivity|].
  eapply rtc_l; [apply (w_addUser _ _ 0 demoUser lonePool2); vm_compute; reflexivity|].
  eapply rtc_l; [apply (w_request _ _ 1 (demoWant 3)); vm_compute; reflexivity|].
  eapply rtc_l; [eapply (w_turn _ _ 1 (demoWant 3) 2 lonePool2); vm_compute; reflexivity|].
  eapply rtc_l; [apply (w_removeUser _ _ 0 "u" lonePool3); vm_compute; reflexivity|].
  match goal with |- rtc _ ?a ?b => replace a with b; [constructor|vm_compute; reflexivity] end.
Qed.

Lemma removed_user_wakes_nobody : exists w k q c a, worldRun [demoTuner "T0"] w /\ wo_requests w !! k = Some (q, Waiting c a)
  /\ c = tm_changed (wo_tm w) /\ hub_changed <$> tm_agents (wo_tm w) = a /\ CheckAvailable (wo_tm w) (wa_type q) (wa_priority q) = Ret ().
Proof.
  exists loneWorld, 1%nat, (demoWant 3), 0, None. conjs; [exact loneWorld_run|vm_compute; reflexivity..].
Qed.
