(* ===== verification/Sessions.v ===== *)
(** * Stream sessions (internal/stream: session_registry.go, manager.go)

    One session per channel is shared by everybody who watches it.  The
    registry maps a channel to its session, or to the creation in flight that
    later requests join.  [getOrCreate] is a loop of at most three attempts
    whose steps interleave with other requests, with sessions that end, and
    with the shutdown.

    A [Session] and a [*sessionCreate] are addresses.  Whether a session is
    alive, and what [createSession] answers, comes from outside. *)

From stdpp Require Import strings.
From S2P Require Import Prelude.

Record sessionKey := mkKey {
  sk_channel : string;
  sk_typ : string
}.

#[export] Instance sessionKey_eq_dec : EqDecision sessionKey.
Proof. solve_decision. Defined.
#[export] Instance sessionKey_countable : Countable sessionKey.
Proof. by apply (inj_countable' (fun k => (sk_channel k, sk_typ k)) (fun p => mkKey p.1 p.2)); intros []. Defined.

Record sessionEntry := mkEntry {
  se_session : Z;
  se_routeType : string;
  se_source : string
}.

(** [done] says that the channel is closed. *)
Record sessionCreate := mkCreate {
  sc_done : bool;
  sc_err : option error;
  sc_session : option Z
}.

Record sessionRegistry := mkRegistry {
  sr_sessions : gmap sessionKey sessionEntry;
  sr_creates : gmap sessionKey Z;
  sr_store : gmap Z sessionCreate;
  sr_shuttingDown : bool
}.

Definition newSessionRegistry : sessionRegistry := mkRegistry ∅ ∅ ∅ false.

Inductive acquireResult : Type :=
  | HasEntry (entry : sessionEntry)
  | ShuttingDown
  | Pending (create : Z)
  | Created (create : Z).

(** [c] is the address of a new create. *)
Definition acquire (r : sessionRegistry) (key : sessionKey) (c : Z) : sessionRegistry * acquireResult :=
  match sr_sessions r !! key with
  | Some entry => (r, HasEntry entry)
  | None =>
      if sr_shuttingDown r then (r, ShuttingDown)
      else match sr_creates r !! key with
           | Some create => (r, Pending create)
           | None => (mkRegistry (sr_sessions r) (<[key := c]> (sr_creates r)) (<[c := mkCreate false None None]> (sr_store r)) (sr_shuttingDown r), Created c)
           end
  end.

Definition addLocked (sessions : gmap sessionKey sessionEntry) (key : sessionKey) (session : Z) (routeType source : string) : gmap sessionKey sessionEntry :=
  <[key := mkEntry session routeType source]> sessions.

(** The session is nil exactly when there is an error. *)
Definition completeCreate (r : sessionRegistry) (key : sessionKey) (c : Z) (routeType source : string) (result : Z + error) : sessionRegistry :=
  let sessions := match result with inl session => addLocked (sr_sessions r) key session routeType source | inr _ => sr_sessions r end in
  let create := match result with inl session => mkCreate true None (Some session) | inr err => mkCreate true (Some err) None end in
  mkRegistry sessions (delete key (sr_creates r)) (<[c := create]> (sr_store r)) (sr_shuttingDown r).

Definition has (r : sessionRegistry) (key : sessionKey) : bool := bool_decide (sr_sessions r !! key <> None).
Definition getSession (r : sessionRegistry) (key : sessionKey) : option Z := se_session <$> sr_sessions r !! key.
Definition countSessions (r : sessionRegistry) : nat := size (sr_sessions r).

(** The duration that is recorded is left out. *)
Definition removeLocked (r : sessionRegistry) (key : sessionKey) : sessionRegistry :=
  mkRegistry (delete key (sr_sessions r)) (sr_creates r) (sr_store r) (sr_shuttingDown r).

Definition removeSession (r : sessionRegistry) (key : sessionKey) : sessionRegistry := removeLocked r key.

Definition removeIfSame (r : sessionRegistry) (key : sessionKey) (session : Z) : sessionRegistry :=
  match sr_sessions r !! key with
  | Some entry => if se_session entry =? session then removeLocked r key else r
  | None => r
  end.

Definition beginShutdown (r : sessionRegistry) : sessionRegistry * list Z :=
  (mkRegistry (sr_sessions r) (sr_creates r) (sr_store r) true, (map_to_list (sr_creates r)).*2).

Definition activeSessions (r : sessionRegistry) : list Z := (fun p => se_session p.2) <$> map_to_list (sr_sessions r).

Definition clear (r : sessionRegistry) : sessionRegistry := foldl removeLocked r (map_to_list (sr_sessions r)).*1.

(** ** getOrCreate *)

Definition maxAttempts : Z := 3.

(** Where a request stands: the attempt it is in, and what it is about to do. *)
Inductive stage : Type :=
  | Acquiring (attempt : Z)
  | Found (attempt : Z) (session : Z)
  | Evicting (attempt : Z) (session : Z)
  | Joining (create : Z)
  | Creating (attempt : Z) (create : Z)
  | Done (result : Z + error).

(** [continue]. *)
Definition nextAttempt (attempt : Z) : stage :=
  if attempt + 1 <? maxAttempts then Acquiring (attempt + 1) else Done (inr ErrSessionAcquireFailed).

Definition acquireStage (r : sessionRegistry) (key : sessionKey) (attempt c : Z) : sessionRegistry * stage :=
  let '(r, res) := acquire r key c in
  (r, match res with
      | HasEntry entry => Found attempt (se_session entry)
      | ShuttingDown => Done (inr ErrStreamManagerShutdown)
      | Pending create => Joining create
      | Created create => Creating attempt create
      end).

Definition aliveStage (attempt session : Z) (alive : bool) : stage :=
  if negb alive then Evicting attempt session else Done (inl session).

Definition evictStage (r : sessionRegistry) (key : sessionKey) (attempt session : Z) : sessionRegistry * stage :=
  (removeIfSame r key session, nextAttempt attempt).

(** [None] while [done] is open. *)
Definition joinStage (r : sessionRegistry) (c : Z) : option stage :=
  match sr_store r !! c with
  | Some (mkCreate true (Some err) _) => Some (Done (inr err))
  | Some (mkCreate true None (Some session)) => Some (Done (inl session))
  | _ => None
  end.

Definition createStage (r : sessionRegistry) (key : sessionKey) (attempt c : Z) (routeType source : string) (result : Z + error) : sessionRegistry * stage :=
  (completeCreate r key c routeType source result,
   match result with
   | inr err => if bool_decide (err = ErrBroadcastStopped) && (attempt <? maxAttempts - 1) then Acquiring (attempt + 1) else Done (inr err)
   | inl session => Done (inl session)
   end).

(** [GetExisting]. *)
Definition GetExisting (r : sessionRegistry) (key : sessionKey) (alive : Z -> bool) : option Z :=
  match getSession r key with
  | Some session => if alive session then Some session else None
  | None => None
  end.

(** ** Requests, sessions and the shutdown, interleaved *)

(** A session of a channel: whether it is alive, and whether its [OnStop],
    which calls the manager's [remove], has run. *)
Record liveSession := mkLive {
  ls_key : sessionKey;
  ls_alive : bool;
  ls_stopped : bool
}.

Record streams := mkStreams {
  st_registry : sessionRegistry;
  st_requests : gmap nat (sessionKey * stage);
  st_sessions : gmap Z liveSession
}.

Inductive streamStep : streams -> streams -> Prop :=
  | st_call r rs ss k key : rs !! k = None -> streamStep (mkStreams r rs ss) (mkStreams r (<[k := (key, Acquiring 0)]> rs) ss)
  | st_acquire r rs ss k key n c r' p : rs !! k = Some (key, Acquiring n) -> sr_store r !! c = None ->
      acquireStage r key n c = (r', p) -> streamStep (mkStreams r rs ss) (mkStreams r' (<[k := (key, p)]> rs) ss)
  | st_alive r rs ss k key n s l : rs !! k = Some (key, Found n s) -> ss !! s = Some l ->
      streamStep (mkStreams r rs ss) (mkStreams r (<[k := (key, aliveStage n s (ls_alive l))]> rs) ss)
  | st_evict r rs ss k key n s r' p : rs !! k = Some (key, Evicting n s) -> evictStage r key n s = (r', p) ->
      streamStep (mkStreams r rs ss) (mkStreams r' (<[k := (key, p)]> rs) ss)
  | st_join r rs ss k key c p : rs !! k = Some (key, Joining c) -> joinStage r c = Some p ->
      streamStep (mkStreams r rs ss) (mkStreams r (<[k := (key, p)]> rs) ss)
  | st_cancel r rs ss k key c : rs !! k = Some (key, Joining c) ->
      streamStep (mkStreams r rs ss) (mkStreams r (<[k := (key, Done (inr ErrCanceled))]> rs) ss)
  | st_created r rs ss k key n c s routeType source r' p : rs !! k = Some (key, Creating n c) -> ss !! s = None ->
      createStage r key n c routeType source (inl s) = (r', p) ->
      streamStep (mkStreams r rs ss) (mkStreams r' (<[k := (key, p)]> rs) (<[s := mkLive key true false]> ss))
  | st_failed r rs ss k key n c err r' p : rs !! k = Some (key, Creating n c) ->
      createStage r key n c EmptyString EmptyString (inr err) = (r', p) ->
      streamStep (mkStreams r rs ss) (mkStreams r' (<[k := (key, p)]> rs) ss)
  | st_ends r rs ss s key : ss !! s = Some (mkLive key true false) -> streamStep (mkStreams r rs ss) (mkStreams r rs (<[s := mkLive key false false]> ss))
  | st_onStop r rs ss s key : ss !! s = Some (mkLive key false false) ->
      streamStep (mkStreams r rs ss) (mkStreams (removeSession r key) rs (<[s := mkLive key false true]> ss))
  | st_shutdown r rs ss : streamStep (mkStreams r rs ss) (mkStreams (beginShutdown r).1 rs ss)
  | st_clear r rs ss : streamStep (mkStreams r rs ss) (mkStreams (clear r) rs ss).

Definition freshStreams : streams := mkStreams newSessionRegistry ∅ ∅.

(** ** Invariant *)

Definition sessionOf (ss : gmap Z liveSession) (key : sessionKey) (s : Z) : Prop := exists l, ss !! s = Some l /\ ls_key l = key.

Definition create_shape (ss : gmap Z liveSession) (key : sessionKey) (cr : sessionCreate) : Prop :=
  cr = mkCreate false None None \/ (exists s, cr = mkCreate true None (Some s) /\ sessionOf ss key s) \/ exists e, cr = mkCreate true (Some e) None.

Definition attempt_ok (n : Z) : Prop := 0 <= n < maxAttempts.

Definition stage_ok (w : streams) (key : sessionKey) (p : stage) : Prop :=
  match p with
  | Acquiring n => attempt_ok n
  | Found n s | Evicting n s => attempt_ok n /\ sessionOf (st_sessions w) key s
  | Joining c => exists cr, sr_store (st_registry w) !! c = Some cr /\ create_shape (st_sessions w) key cr
      /\ (sc_done cr = false -> sr_creates (st_registry w) !! key = Some c)
  | Creating n c => attempt_ok n /\ sr_creates (st_registry w) !! key = Some c
  | Done (inl s) => sessionOf (st_sessions w) key s
  | Done (inr _) => True
  end.

Record streams_ok (w : streams) : Prop := {
  o_stages : forall k key p, st_requests w !! k = Some (key, p) -> stage_ok w key p;
  o_creates : forall key c, sr_creates (st_registry w) !! key = Some c -> sr_store (st_registry w) !! c = Some (mkCreate false None None)
    /\ exists k n, st_requests w !! k = Some (key, Creating n c);
  o_inj : forall key1 key2 c, sr_creates (st_registry w) !! key1 = Some c -> sr_creates (st_registry w) !! key2 = Some c -> key1 = key2;
  o_uniq : forall k1 k2 key n1 n2 c, st_requests w !! k1 = Some (key, Creating n1 c) -> st_requests w !! k2 = Some (key, Creating n2 c) -> k1 = k2;
  o_disjoint : forall key, is_Some (sr_creates (st_registry w) !! key) -> sr_sessions (st_registry w) !! key = None;
  o_entries : forall key e, sr_sessions (st_registry w) !! key = Some e -> sessionOf (st_sessions w) key (se_session e)
}.

Lemma freshStreams_ok : streams_ok freshStreams.
Proof. constructor; cbn; intros *; rewrite ?lookup_empty; done. Qed.

(** A request goes to a stage that is not [Creating]. *)
Lemma move_ok r rs ss k key p q : streams_ok (mkStreams r rs ss) -> rs !! k = Some (key, p) -> (forall n c, p <> Creating n c) ->
  stage_ok (mkStreams r rs ss) key q -> (forall n c, q <> Creating n c) -> streams_ok (mkStreams r (<[k := (key, q)]> rs) ss).
Proof.
  intros [] Hk Hp Hq Hqn. cbn [st_registry st_requests st_sessions] in *. constructor; cbn [st_registry st_requests st_sessions] in *; try done.
  - intros j key' p' [[<- [= <- <-]]|[_ Hj]]%lookup_insert_Some; [done|by apply (o_stages0 j)].
  - intros key' c Hc. destruct (o_creates0 key' c Hc) as (Hs & j & n & Hj). split; [done|]. exists j, n.
    rewrite lookup_insert_ne; [done|]. intros <-. rewrite Hk in Hj. injection Hj as <- ->. by destruct (Hp n c).
  - intros k1 k2 key' n1 n2 c [[<- [= _ H]]|[_ H1]]%lookup_insert_Some [[<- [= _ H']]|[_ H2]]%lookup_insert_Some;
      [done|by destruct (Hqn n1 c)|by destruct (Hqn n2 c)|by eapply o_uniq0].
Qed.

(** Sessions leave the registry. *)
Lemma shrink_ok r rs ss sessions down : streams_ok (mkStreams r rs ss) -> sessions ⊆ sr_sessions r ->
  streams_ok (mkStreams (mkRegistry sessions (sr_creates r) (sr_store r) down) rs ss).
Proof.
  intros [] Hsub. cbn [st_registry st_requests st_sessions] in *. constructor; cbn [st_registry st_requests st_sessions sr_sessions sr_creates sr_store] in *; try done.
  - intros key Hc. eapply lookup_weaken_None; [by apply o_disjoint0|done].
  - intros key e He. apply o_entries0. by eapply lookup_weaken.
Qed.

Lemma registry_eta r : r = mkRegistry (sr_sessions r) (sr_creates r) (sr_store r) (sr_shuttingDown r).
Proof. by destruct r. Qed.

Lemma remove_ok r rs ss key : streams_ok (mkStreams r rs ss) -> streams_ok (mkStreams (removeSession r key) rs ss).
Proof. intros Hok. apply shrink_ok; [done|apply delete_subseteq]. Qed.

Lemma removeIfSame_ok r rs ss key s : streams_ok (mkStreams r rs ss) -> streams_ok (mkStreams (removeIfSame r key s) rs ss).
Proof. intros Hok. unfold removeIfSame. destruct (sr_sessions r !! key) as [e|]; [|done]. destruct (_ =? _); [by apply remove_ok|done]. Qed.

Lemma removeAll keys : forall r, exists sessions, foldl removeLocked r keys = mkRegistry sessions (sr_creates r) (sr_store r) (sr_shuttingDown r)
  /\ sessions ⊆ sr_sessions r /\ forall key, key ∈ keys -> sessions !! key = None.
Proof.
  induction keys as [|key keys IH]; intros r; cbn [foldl].
  { exists (sr_sessions r). split; [apply registry_eta|]. split; [done|]. intros key Hk. by apply not_elem_of_nil in Hk. }
  destruct (IH (removeLocked r key)) as (sessions & -> & Hsub & Hall). cbn [removeLocked sr_creates sr_store sr_shuttingDown sr_sessions] in *.
  exists sessions. conjs; [done|by etransitivity; [|apply delete_subseteq]|]. intros x [-> |Hx]%elem_of_cons; [|by apply Hall].
  eapply lookup_weaken_None; [apply lookup_delete_eq|done].
Qed.

Lemma clear_ok r rs ss : streams_ok (mkStreams r rs ss) -> streams_ok (mkStreams (clear r) rs ss).
Proof. intros Hok. unfold clear. destruct (removeAll (map_to_list (sr_sessions r)).*1 r) as (sessions & -> & Hsub & _). by apply shrink_ok. Qed.

(** [clear] leaves no session. *)
Lemma clear_empties r : sr_sessions (clear r) = ∅.
Proof.
  unfold clear. destruct (removeAll (map_to_list (sr_sessions r)).*1 r) as (sessions & -> & Hsub & Hall). cbn.
  apply map_eq. intros key. rewrite lookup_empty. destruct (sr_sessions r !! key) as [e|] eqn:E.
  - apply Hall, list_elem_of_fmap. exists (key, e). split; [done|]. by apply elem_of_map_to_list.
  - by eapply lookup_weaken_None.
Qed.

(** The sessions known grow, and keep their channel. *)
Definition knows (ss ss' : gmap Z liveSession) : Prop := forall s l, ss !! s = Some l -> exists l', ss' !! s = Some l' /\ ls_key l' = ls_key l.

Lemma sessionOf_knows ss ss' key s : knows ss ss' -> sessionOf ss key s -> sessionOf ss' key s.
Proof. intros Hk (l & Hl & <-). destruct (Hk s l Hl) as (l' & ? & ?). by exists l'. Qed.

Lemma shape_knows ss ss' key cr : knows ss ss' -> create_shape ss key cr -> create_shape ss' key cr.
Proof. intros Hk [H|[(s & H & Hs)|H]]; [by left| |by right; right]. right. left. exists s. split; [done|by eapply sessionOf_knows]. Qed.

Lemma stage_knows r rs rs' ss ss' key p : knows ss ss' -> stage_ok (mkStreams r rs ss) key p -> stage_ok (mkStreams r rs' ss') key p.
Proof.
  intros Hk. destruct p as [n|n s|n s|c|n c|[s|e]]; cbn; try done.
  - intros [? ?]. split; [done|by eapply sessionOf_knows].
  - intros [? ?]. split; [done|by eapply sessionOf_knows].
  - intros (cr & ? & ? & ?). exists cr. split; [done|]. split; [by eapply shape_knows|done].
  - by apply sessionOf_knows.
Qed.

Lemma known_ok r rs ss ss' : streams_ok (mkStreams r rs ss) -> knows ss ss' -> streams_ok (mkStreams r rs ss').
Proof.
  intros [] Hk. cbn [st_registry st_requests st_sessions] in *. constructor; cbn [st_registry st_requests st_sessions] in *; try done.
  - intros k key p Hp. eapply stage_knows; [done|by eapply o_stages0].
  - intros key e He. eapply sessionOf_knows; [done|by apply o_entries0].
Qed.

Lemma knows_update ss s l key a b : ss !! s = Some l -> ls_key l = key -> knows ss (<[s := mkLive key a b]> ss).
Proof.
  intros Hs Hk x y Hx. destruct (decide (x = s)) as [-> |Hne].
  - exists (mkLive key a b). rewrite lookup_insert_eq. split; [done|]. rewrite Hs in Hx. injection Hx as <-. done.
  - exists y. by rewrite lookup_insert_ne.
Qed.

Lemma knows_new ss s l : ss !! s = None -> knows ss (<[s := l]> ss).
Proof. intros Hs x y Hx. exists y. rewrite lookup_insert_ne by congruence. done. Qed.

(** ** Every step keeps it *)

Lemma newCreate_ok r rs ss k key n c down : streams_ok (mkStreams r rs ss) -> rs !! k = Some (key, Acquiring n) -> sr_store r !! c = None ->
  sr_sessions r !! key = None -> sr_creates r !! key = None ->
  streams_ok (mkStreams (mkRegistry (sr_sessions r) (<[key := c]> (sr_creates r)) (<[c := mkCreate false None None]> (sr_store r)) down)
    (<[k := (key, Creating n c)]> rs) ss).
Proof.
  intros [] Hk Hc Hs Hn. cbn [st_registry st_requests st_sessions] in *.
  assert (forall x y, sr_creates r !! x = Some y -> y <> c /\ x <> key) as Hold.
  { intros x y Hx. destruct (o_creates0 x y Hx) as [Hy _]. split; congruence. }
  constructor; cbn [st_registry st_requests st_sessions sr_sessions sr_creates sr_store].
  - intros j x p [[<- [= <- <-]]|[_ Hj]]%lookup_insert_Some.
    { split; [exact (o_stages0 k key _ Hk)|]. apply lookup_insert_eq. }
    specialize (o_stages0 j x p Hj). destruct p as [m|m s|m s|y|m y|[s|e]]; cbn in *; try done.
    + destruct o_stages0 as (cr & Hcr & Hsh & Hd). exists cr. rewrite lookup_insert_ne by congruence. conjs; try done.
      intros Hf. specialize (Hd Hf). rewrite lookup_insert_ne; [done|]. apply not_eq_sym. by apply (Hold x y).
    + destruct o_stages0 as [Hm Hy]. split; [done|]. rewrite lookup_insert_ne; [done|]. apply not_eq_sym. by apply (Hold x y).
  - intros x y [[<- <-]|[Hne Hx]]%lookup_insert_Some.
    + split; [by rewrite lookup_insert_eq|]. exists k, n. by rewrite lookup_insert_eq.
    + destruct (o_creates0 x y Hx) as (Hy & j & m & Hj). destruct (Hold x y Hx). rewrite lookup_insert_ne by done. split; [done|]. exists j, m.
      rewrite lookup_insert_ne; [done|]. intros <-. congruence.
  - intros x1 x2 y [[<- <-]|[Hn1 H1]]%lookup_insert_Some [[<- H2]|[Hn2 H2]]%lookup_insert_Some; [done| | |by eapply o_inj0].
    + by destruct (Hold x2 c H2).
    + subst y. by destruct (Hold x1 c H1).
  - assert (forall j x m, rs !! j <> Some (x, Creating m c)) as Hno.
    { intros j x m Hj. destruct (o_stages0 j x _ Hj) as [_ Hx]. by destruct (Hold x c Hx). }
    intros k1 k2 x m1 m2 y [[<- [= <- <- <-]]|[_ H1]]%lookup_insert_Some [[<- E]|[_ H2]]%lookup_insert_Some; [done|by destruct (Hno k2 key m2)| |by eapply o_uniq0].
    injection E as <- <- <-. by destruct (Hno k1 key m1).
  - intros x [y [[<- <-]|[_ Hx]]%lookup_insert_Some]; [done|]. apply o_disjoint0. by exists y.
  - done.
Qed.

Lemma completeCreate_ok r rs ss k key n c routeType source result q : streams_ok (mkStreams r rs ss) -> rs !! k = Some (key, Creating n c) ->
  match result with inl s => sessionOf ss key s | inr _ => True end ->
  match q with Acquiring m => attempt_ok m | Done (inl s) => sessionOf ss key s | Done (inr _) => True | _ => False end ->
  streams_ok (mkStreams (completeCreate r key c routeType source result) (<[k := (key, q)]> rs) ss).
Proof.
  intros [] Hk Hres Hq. cbn [st_registry st_requests st_sessions] in *. destruct (o_stages0 k key _ Hk) as [Hn Hc]. cbn in Hc.
  assert (forall x y, sr_creates r !! x = Some y -> x <> key -> y <> c) as Hother by (intros x y Hx Hne ->; by apply Hne, (o_inj0 x key c)).
  set (cr := match result with inl s => mkCreate true None (Some s) | inr err => mkCreate true (Some err) None end).
  assert (create_shape ss key cr /\ sc_done cr = true) as [Hshape Hdone].
  { unfold cr. destruct result as [s|e]; (split; [|done]); right; [left; by exists s|right; by exists e]. }
  constructor; unfold completeCreate; fold cr; cbn [st_registry st_requests st_sessions sr_sessions sr_creates sr_store].
  - intros j x p [[<- [= <- <-]]|[Hne Hj]]%lookup_insert_Some; [destruct q as [m|m s|m s|y|m y|[s|e]]; done|].
    specialize (o_stages0 j x p Hj) as Hst. destruct p as [m|m s|m s|y|m y|[s|e]]; cbn in *; try done.
    + destruct Hst as (cr0 & Hcr & Hsh & Hd). destruct (decide (y = c)) as [-> |Hyc].
      * exists cr. rewrite lookup_insert_eq. split; [done|]. assert (x = key) as ->; [|by rewrite Hdone].
        destruct (o_creates0 key c Hc) as [Hcs _]. rewrite Hcs in Hcr. injection Hcr as <-. apply (o_inj0 x key c); [by apply Hd|done].
      * exists cr0. rewrite lookup_insert_ne by done. conjs; try done. intros Hf. specialize (Hd Hf). rewrite lookup_delete_ne; [done|]. intros <-. congruence.
    + destruct Hst as [Hm Hy]. split; [done|]. rewrite lookup_delete_ne; [done|]. intros <-. apply Hne. rewrite Hc in Hy. injection Hy as <-. by eapply o_uniq0.
  - intros x y [Hne Hx]%lookup_delete_Some. destruct (o_creates0 x y Hx) as (Hy & j & m & Hj). rewrite lookup_insert_ne by (apply not_eq_sym; by eapply Hother).
    split; [done|]. exists j, m. rewrite lookup_insert_ne; [done|]. intros <-. congruence.
  - intros x1 x2 y [_ H1]%lookup_delete_Some [_ H2]%lookup_delete_Some. by eapply o_inj0.
  - intros k1 k2 x m1 m2 y [[<- [= <- ->]]|[_ H1]]%lookup_insert_Some [[<- E]|[_ H2]]%lookup_insert_Some; [done..| |by eapply o_uniq0].
    injection E as <- ->. done.
  - intros x [y [Hne Hx]%lookup_delete_Some]. specialize (o_disjoint0 x (ex_intro _ y Hx)). destruct result; [|done].
    unfold addLocked. by rewrite lookup_insert_ne.
  - intros x e. destruct result as [s|err]; [|apply o_entries0]. unfold addLocked.
    intros [[<- <-]|[_ Hx]]%lookup_insert_Some; [done|by apply o_entries0].
Qed.

Lemma nextAttempt_ok w key n : attempt_ok n -> stage_ok w key (nextAttempt n) /\ forall m c, nextAttempt n <> Creating m c.
Proof. unfold attempt_ok, nextAttempt, maxAttempts. intros Hn. destruct (Z.ltb_spec (n + 1) 3); (split; [cbn; unfold attempt_ok, maxAttempts; lia || done|done]). Qed.

Lemma streamStep_ok w w' : streamStep w w' -> streams_ok w -> streams_ok w'.
Proof.
  intros Hs Hok. pose proof (o_stages w Hok) as Hst. destruct Hs as [r rs ss k key Hk|r rs ss k key n c r' p Hk Hc E|r rs ss k key n s l Hk Hl|r rs ss k key n s r' p Hk E|
    r rs ss k key c p Hk E|r rs ss k key c Hk|r rs ss k key n c s rt src r' p Hk Hs E|r rs ss k key n c err r' p Hk E|r rs ss s key Hs|r rs ss s key Hs|r rs ss|r rs ss].
  all: try (specialize (Hst _ _ _ Hk)); cbn [st_registry st_requests st_sessions stage_ok] in *.
  - pose proof Hok as []. cbn [st_registry st_requests st_sessions] in *. constructor; cbn [st_registry st_requests st_sessions]; try done.
    + intros j x p [[<- [= <- <-]]|[_ Hj]]%lookup_insert_Some; [done|by eapply o_stages0].
    + intros x c Hx. destruct (o_creates0 x c Hx) as (Hy & j & m & Hj). split; [done|]. exists j, m. rewrite lookup_insert_ne by congruence. done.
    + intros k1 k2 x m1 m2 y [[_ [=]]|[_ H1]]%lookup_insert_Some [[_ [=]]|[_ H2]]%lookup_insert_Some. by eapply o_uniq0.
  - revert E. unfold acquireStage, acquire. destruct (sr_sessions r !! key) as [e|] eqn:Es.
    { intros [= <- <-]. eapply move_ok; [done..| |done]. split; [done|]. by apply (o_entries _ Hok). }
    destruct (sr_shuttingDown r) eqn:Ed; [intros [= <- <-]; by eapply move_ok|].
    destruct (sr_creates r !! key) as [x|] eqn:Ec; intros [= <- <-].
    + eapply move_ok; [done..| |done]. destruct (o_creates _ Hok key x Ec) as [Hx _]. exists (mkCreate false None None). conjs; [done|by left|done].
    + by apply newCreate_ok.
  - destruct Hst as [Hn Hs]. unfold aliveStage. destruct (ls_alive l); by eapply move_ok.
  - destruct Hst as [Hn Hs]. injection E as <- <-. destruct (nextAttempt_ok (mkStreams (removeIfSame r key s) rs ss) key n Hn) as [H1 H2].
    eapply move_ok; [by apply removeIfSame_ok|done..].
  - destruct Hst as (cr & Hcr & Hsh & _). revert E. unfold joinStage. rewrite Hcr. destruct Hsh as [-> |[(s & -> & Hs)|(e & ->)]]; [done|..]; intros [= <-]; by eapply move_ok.
  - by eapply move_ok.
  - destruct Hst as [Hn Hc]. injection E as <- <-. assert (sessionOf (<[s := mkLive key true false]> ss) key s) as Hnew by (eexists; by rewrite lookup_insert_eq).
    eapply completeCreate_ok; [|done..]. eapply known_ok; [done|by apply knows_new].
  - destruct Hst as [Hn Hc]. injection E as <- <-. eapply completeCreate_ok; [done..|]. unfold attempt_ok, maxAttempts in *.
    destruct (Z.ltb_spec n (3 - 1)); [|by rewrite andb_false_r]. case_bool_decide; cbn [andb]; [lia|done].
  - eapply known_ok; [done|]. by eapply knows_update.
  - eapply known_ok; [by apply remove_ok|]. by eapply knows_update.
  - by apply shrink_ok.
  - by apply clear_ok.
Qed.

Lemma streams_reachable_ok w : rtc streamStep freshStreams w -> streams_ok w.
Proof. pose proof freshStreams_ok as H0. induction 1 as [|w1 w2 w3 Hs Hr IH]; [done|]. by apply IH, (streamStep_ok w1). Qed.

(** ** What the manager promises *)

(** C3: However requests interleave, at most one of them creates the session
    of a channel at a time, no channel has a session and a creation at once,
    and a request that is given a session is given one of its own channel. *)
Theorem single_flight w : rtc streamStep freshStreams w ->
  (forall k1 k2 key n1 n2 c1 c2, st_requests w !! k1 = Some (key, Creating n1 c1) -> st_requests w !! k2 = Some (key, Creating n2 c2) -> k1 = k2)
  /\ (forall key, is_Some (sr_creates (st_registry w) !! key) -> has (st_registry w) key = false)
  /\ (forall k key s, st_requests w !! k = Some (key, Done (inl s)) -> sessionOf (st_sessions w) key s).
Proof.
  intros Hr%streams_reachable_ok. pose proof Hr as []. conjs.
  - intros k1 k2 key n1 n2 c1 c2 H1 H2. destruct (o_stages0 _ _ _ H1) as [_ Hc1]. destruct (o_stages0 _ _ _ H2) as [_ Hc2].
    rewrite Hc1 in Hc2. injection Hc2 as <-. by eapply o_uniq0.
  - intros key Hc. unfold has. rewrite (o_disjoint0 key Hc). done.
  - intros k key s Hk. exact (o_stages0 _ _ _ Hk).
Qed.

(** The work a request has left: its attempts, and its place in one. *)
Definition weight (p : stage) : Z :=
  match p with
  | Acquiring n => 4 * (maxAttempts - n)
  | Found n _ | Creating n _ => 4 * (maxAttempts - n) - 1
  | Evicting n _ => 4 * (maxAttempts - n) - 2
  | Joining _ => 1
  | Done _ => 0
  end.

Definition waitsForOthers (p : stage) : Prop := match p with Joining _ | Creating _ _ => True | _ => False end.

Lemma stage_decreases w w' k key p key' p' : streams_ok w -> streamStep w w' -> st_requests w !! k = Some (key, p) -> st_requests w' !! k = Some (key', p') ->
  key' = key /\ (p' = p \/ 0 <= weight p' < weight p).
Proof.
  intros Hok Hs. pose proof (o_stages w Hok) as Hst.
  assert (forall (rs : gmap nat (sessionKey * stage)) j x q q', rs !! k = Some (key, p) -> <[j := (x, q')]> rs !! k = Some (key', p') -> rs !! j = Some (x, q) ->
    0 <= weight q' < weight q -> key' = key /\ (p' = p \/ 0 <= weight p' < weight p)) as Hmove.
  { intros rs j x q q' Hp [[<- [= <- <-]]|[_ Hp']]%lookup_insert_Some Hj Hw.
    - rewrite Hp in Hj. injection Hj as <- <-. auto.
    - rewrite Hp in Hp'. injection Hp' as <- <-. auto. }
  destruct Hs as [r rs ss j x Hj|r rs ss j x n c r' q Hj Hc E|r rs ss j x n s l Hj Hl|r rs ss j x n s r' q Hj E|
    r rs ss j x c q Hj E|r rs ss j x c Hj|r rs ss j x n c s rt src r' q Hj Hs E|r rs ss j x n c err r' q Hj E|r rs ss s x Hs|r rs ss s x Hs|r rs ss|r rs ss].
  all: try (specialize (Hst _ _ _ Hj)); cbn [st_registry st_requests st_sessions stage_ok] in *; unfold attempt_ok, maxAttempts in *; intros Hp Hp'.
  1: rewrite lookup_insert_ne in Hp' by congruence; rewrite Hp in Hp'; injection Hp' as <- <-; auto.
  8-11: rewrite Hp in Hp'; injection Hp' as <- <-; auto.
  all: eapply Hmove; [exact Hp|exact Hp'|exact Hj|].
  - revert E. unfold acquireStage, acquire. destruct (sr_sessions r !! x) as [e|]; [|destruct (sr_shuttingDown r); [|destruct (sr_creates r !! x)]];
      intros [= <- <-]; cbn; unfold maxAttempts; lia.
  - destruct Hst as [Hn _]. unfold aliveStage. destruct (ls_alive l); cbn; unfold maxAttempts; lia.
  - destruct Hst as [Hn _]. injection E as <- <-. unfold nextAttempt, maxAttempts. destruct (Z.ltb_spec (n + 1) 3); cbn; unfold maxAttempts; lia.
  - revert E. unfold joinStage. destruct (sr_store r !! c) as [[[|] [e|] [s|]]|]; try done; intros [= <-]; cbn; lia.
  - cbn. lia.
  - destruct Hst as [Hn _]. injection E as <- <-. cbn. unfold maxAttempts. lia.
  - destruct Hst as [Hn _]. injection E as <- <-. unfold maxAttempts. destruct (Z.ltb_spec n (3 - 1)); [|rewrite andb_false_r; cbn; unfold maxAttempts; lia].
    destruct (bool_decide _); cbn; unfold maxAttempts; lia.
Qed.

Lemma fresh_create (m : gmap Z sessionCreate) : exists c, m !! c = None.
Proof. exists (fresh (dom m)). apply not_elem_of_dom, is_fresh. Qed.

(** C17: [getOrCreate] terminates: every step a request takes, whatever others do
    in between, lowers the work it has left, which is at most 12; and a request
    that is not done and does not wait for a creation can always take a step. *)
Theorem getOrCreate_terminates w : rtc streamStep freshStreams w ->
  (forall k key p, st_requests w !! k = Some (key, p) -> 0 <= weight p <= 12) /\
  (forall w' k key p key' p', streamStep w w' -> st_requests w !! k = Some (key, p) -> st_requests w' !! k = Some (key', p') ->
    key' = key /\ (p' = p \/ weight p' < weight p)) /\
  (forall k key p, st_requests w !! k = Some (key, p) -> 0 < weight p -> ~ waitsForOthers p ->
    exists w' p', streamStep w w' /\ st_requests w' !! k = Some (key, p') /\ weight p' < weight p).
Proof.
  intros Hr%streams_reachable_ok. conjs.
  - intros k key p Hk. pose proof (o_stages w Hr k key p Hk) as Hst. destruct p as [n|n s|n s|c|n c|[s|e]]; cbn in *; unfold attempt_ok, maxAttempts in *; lia.
  - intros w' k key p key' p' Hs Hp Hp'. destruct (stage_decreases w w' k key p key' p' Hr Hs Hp Hp') as [-> [-> |Hw]]; [by split; [|left]|split; [done|right; lia]].
  - intros k key p Hk Hw Hn. pose proof (o_stages w Hr k key p Hk) as Hst.
    assert (forall w' q, streamStep w w' -> st_requests w' !! k = Some (key, q) -> p <> q -> exists w' p', streamStep w w' /\ st_requests w' !! k = Some (key, p') /\ weight p' < weight p) as Hgo.
    { intros w' q Hs Hq Hne. exists w', q. conjs; [done..|]. destruct (stage_decreases w w' k key p key q Hr Hs Hk Hq) as [_ [|]]; [congruence|lia]. }
    destruct w as [r rs ss]. cbn [st_requests st_registry st_sessions] in *. destruct p as [n|n s|n s|c|n c|[s|e]]; cbn in Hw, Hn; try done.
    + destruct (fresh_create (sr_store r)) as [c Hc]. destruct (acquireStage r key n c) as [r' q] eqn:E.
      apply (Hgo (mkStreams r' (<[k := (key, q)]> rs) ss) q); [by eapply st_acquire|apply lookup_insert_eq|].
      revert E. unfold acquireStage, acquire. repeat case_match; congruence.
    + destruct Hst as [_ (l & Hl & _)]. eapply Hgo; [by eapply st_alive|apply lookup_insert_eq|]. unfold aliveStage. by destruct (ls_alive l).
    + eapply Hgo; [by eapply st_evict|apply lookup_insert_eq|]. unfold nextAttempt. by destruct (_ <? _).
Qed.

(** Nobody waits for ever for a creation that nobody works on: the create a
    request joined is settled, with a session of its channel or an error, or
    another request is still creating the session of that same channel. *)
Theorem joined_creates_settle w k key c : rtc streamStep freshStreams w -> st_requests w !! k = Some (key, Joining c) ->
  (exists k' n, k' <> k /\ st_requests w !! k' = Some (key, Creating n c))
  \/ (exists s, joinStage (st_registry w) c = Some (Done (inl s)) /\ sessionOf (st_sessions w) key s)
  \/ (exists e, joinStage (st_registry w) c = Some (Done (inr e))).
Proof.
  intros Hr%streams_reachable_ok Hk. destruct (o_stages w Hr k key _ Hk) as (cr & Hcr & Hsh & Hd). unfold joinStage. rewrite Hcr.
  destruct Hsh as [-> |[(s & -> & Hs)|(e & ->)]]; [left|right; left; by exists s|right; right; by exists e].
  destruct (o_creates w Hr key c (Hd eq_refl)) as (_ & k' & n & Hk'). exists k', n. split; [|done]. intros ->. congruence.
Qed.

(** ** Shutdown *)

(** After the shutdown began, only the creations of [cs] are in flight. *)
Definition closing (cs : list Z) (w : streams) : Prop :=
  sr_shuttingDown (st_registry w) = true /\ forall key c, sr_creates (st_registry w) !! key = Some c -> c ∈ cs.

Lemma acquire_closing r key c : sr_shuttingDown r = true -> (acquire r key c).1 = r.
Proof. intros Hd. unfold acquire. rewrite Hd. by destruct (sr_sessions r !! key). Qed.

Lemma removeIfSame_eq r key s : exists sessions, removeIfSame r key s = mkRegistry sessions (sr_creates r) (sr_store r) (sr_shuttingDown r) /\ sessions ⊆ sr_sessions r.
Proof.
  unfold removeIfSame. destruct (sr_sessions r !! key) as [e|]; [destruct (_ =? _)|].
  - exists (delete key (sr_sessions r)). split; [done|apply delete_subseteq].
  - exists (sr_sessions r). split; [apply registry_eta|done].
  - exists (sr_sessions r). split; [apply registry_eta|done].
Qed.

(** A step after the shutdown began: either some creation in flight ends, or
    the registry only loses sessions. *)
Lemma closing_step w w' : streams_ok w -> sr_shuttingDown (st_registry w) = true -> streamStep w w' ->
  sr_shuttingDown (st_registry w') = true /\ sr_creates (st_registry w') ⊆ sr_creates (st_registry w)
  /\ (sr_creates (st_registry w) = ∅ -> sr_sessions (st_registry w') ⊆ sr_sessions (st_registry w)).
Proof.
  intros Hok Hd Hs. pose proof (o_stages w Hok) as Hst. destruct Hs as [r rs ss k key Hk|r rs ss k key n c r' p Hk Hc E|r rs ss k key n s l Hk Hl|r rs ss k key n s r' p Hk E|
    r rs ss k key c p Hk E|r rs ss k key c Hk|r rs ss k key n c s rt src r' p Hk Hs E|r rs ss k key n c err r' p Hk E|r rs ss s key Hs|r rs ss s key Hs|r rs ss|r rs ss].
  all: cbn [st_registry] in *; try done.
  - unfold acquireStage in E. pose proof (acquire_closing r key c Hd) as Er. destruct (acquire r key c) as [r1 res]. cbn in Er. subst r1. by injection E as <- _.
  - injection E as <- <-. destruct (removeIfSame_eq r key s) as (sessions & -> & Hsub). done.
  - injection E as <- _. split; [done|]. split; [apply delete_subseteq|]. intros He. destruct (Hst k key _ Hk) as [_ Hc]. cbn in Hc. by rewrite He, lookup_empty in Hc.
  - injection E as <- _. split; [done|]. split; [apply delete_subseteq|done].
  - split; [done|]. split; [done|]. intros _. apply delete_subseteq.
  - unfold clear. destruct (removeAll (map_to_list (sr_sessions r)).*1 r) as (sessions & -> & Hsub & _). done.
Qed.

Lemma closing_run cs w w' : streams_ok w -> closing cs w -> rtc streamStep w w' -> streams_ok w' /\ closing cs w'.
Proof.
  intros Hok Hc Hr. induction Hr as [|w1 w2 w3 Hs Hr IH]; [done|]. destruct Hc as [Hd Hc]. destruct (closing_step w1 w2 Hok Hd Hs) as (Hd' & Hsub & _).
  apply IH; [by eapply streamStep_ok|]. split; [done|]. intros key c Hk. apply (Hc key). by eapply lookup_weaken.
Qed.

Lemma settled_run w w' : streams_ok w -> sr_shuttingDown (st_registry w) = true -> sr_creates (st_registry w) = ∅ -> rtc streamStep w w' ->
  sr_creates (st_registry w') = ∅ /\ sr_sessions (st_registry w') ⊆ sr_sessions (st_registry w).
Proof.
  intros Hok Hd He Hr. revert Hok Hd He. induction Hr as [|w1 w2 w3 Hs Hr IH]; [done|]. intros Hok Hd He.
  destruct (closing_step w1 w2 Hok Hd Hs) as (Hd' & Hsub & Hses). destruct IH as [H1 H2]; [by eapply streamStep_ok|done| |].
  - apply map_eq. intros key. rewrite lookup_empty. destruct (sr_creates (st_registry w2) !! key) as [c|] eqn:Ec; [|done].
    eapply lookup_weaken in Ec; [|exact Hsub]. by rewrite He, lookup_empty in Ec.
  - split; [done|]. etransitivity; [exact H2|by apply Hses].
Qed.

(** The shutdown waits for what it must: once the creations that were in flight
    when it began are settled, none is in flight, and from then on no session
    is ever added to the registry. *)
Theorem shutdown_is_complete r rs ss w w' : rtc streamStep freshStreams (mkStreams r rs ss) ->
  rtc streamStep (mkStreams (beginShutdown r).1 rs ss) w ->
  (forall c, c ∈ (beginShutdown r).2 -> exists cr, sr_store (st_registry w) !! c = Some cr /\ sc_done cr = true) ->
  rtc streamStep w w' ->
  sr_creates (st_registry w') = ∅ /\ sr_sessions (st_registry w') ⊆ sr_sessions (st_registry w).
Proof.
  intros Hr0 Hr1 Hdone Hr2. pose proof (streams_reachable_ok _ Hr0) as Hok0.
  assert (closing (beginShutdown r).2 (mkStreams (beginShutdown r).1 rs ss)) as Hc.
  { split; [done|]. cbn. intros key c Hk. apply list_elem_of_fmap. exists (key, c). split; [done|]. by apply elem_of_map_to_list. }
  destruct (closing_run _ _ _ (streamStep_ok _ _ (st_shutdown r rs ss) Hok0) Hc Hr1) as [Hok [Hd Hcs]].
  apply settled_run; [done|done| |done]. apply map_eq. intros key. rewrite lookup_empty. destruct (sr_creates (st_registry w) !! key) as [c|] eqn:Ec; [|done].
  destruct (Hdone c (Hcs key c Ec)) as (cr & Hcr & Hcd). destruct (o_creates w Hok key c Ec) as [Hx _]. rewrite Hx in Hcr. by injection Hcr as <-.
Qed.

(** ** A run *)

Definition demoKey : sessionKey := mkKey "27" "GR".

(** One request creates session 1, a second joins. *)
Definition twoRegistry : sessionRegistry := (acquire newSessionRegistry demoKey 1).1.
Definition twoRequests : streams := mkStreams twoRegistry {[0%nat := (demoKey, Creating 0 1); 1%nat := (demoKey, Joining 1)]} ∅.
Definition twoServed : streams := mkStreams (completeCreate twoRegistry demoKey 1 "GR" "local" (inl 1))
  {[0%nat := (demoKey, Done (inl 1)); 1%nat := (demoKey, Joining 1)]} {[1 := mkLive demoKey true false]}.

Lemma twoRequests_run : rtc streamStep freshStreams twoRequests.
Proof.
  eapply rtc_l; [apply (st_call _ _ _ 0 demoKey); vm_compute; reflexivity|].
  eapply rtc_l; [apply (st_acquire _ _ _ 0 demoKey 0 1 twoRegistry (Creating 0 1)); vm_compute; reflexivity|].
  eapply rtc_l; [apply (st_call _ _ _ 1 demoKey); vm_compute; reflexivity|].
  eapply rtc_l; [apply (st_acquire _ _ _ 1 demoKey 0 2 twoRegistry (Joining 1)); vm_compute; reflexivity|].
  match goal with |- rtc _ ?a ?b => replace a with b; [constructor|vm_compute; reflexivity] end.
Qed.

Lemma twoServed_run : rtc streamStep twoRequests twoServed.
Proof.
  eapply rtc_l; [eapply (st_created _ _ _ 0 demoKey 0 1 1 "GR" "local"); vm_compute; reflexivity|].
  match goal with |- rtc _ ?a ?b => replace a with b; [constructor|vm_compute; reflexivity] end.
Qed.

Lemma single_flight_witness :
  st_requests twoRequests !! 0%nat = Some (demoKey, Creating 0 1) /\
  (forall k1 k2 key n1 n2 c1 c2, st_requests twoRequests !! k1 = Some (key, Creating n1 c1) -> st_requests twoRequests !! k2 = Some (key, Creating n2 c2) -> k1 = k2).
Proof. split; [vm_compute; reflexivity|]. apply (single_flight twoRequests twoRequests_run). Defined.

Lemma getOrCreate_terminates_witness :
  weight (Creating 0 1) = 11 /\ (forall k key p, st_requests twoRequests !! k = Some (key, p) -> 0 <= weight p <= 12).
Proof. split; [vm_compute; reflexivity|]. apply (getOrCreate_terminates twoRequests twoRequests_run). Defined.

Lemma joined_creates_settle_witness :
  (exists k' n, k' <> 1%nat /\ st_requests twoServed !! k' = Some (demoKey, Creating n 1))
  \/ (exists s, joinStage (st_registry twoServed) 1 = Some (Done (inl s)) /\ sessionOf (st_sessions twoServed) demoKey s)
  \/ (exists e, joinStage (st_registry twoServed) 1 = Some (Done (inr e))).
Proof.
  apply (joined_creates_settle twoServed 1 demoKey 1); [|vm_compute; reflexivity].
  etransitivity; [exact twoRequests_run|exact twoServed_run].
Defined.

(** The shutdown begins while the session is being created. *)
Definition shutRegistry : sessionRegistry := (beginShutdown twoRegistry).1.
Definition shutServed : streams := mkStreams (completeCreate shutRegistry demoKey 1 "GR" "local" (inl 1))
  (<[0%nat := (demoKey, Done (inl 1))]> (st_requests twoRequests)) {[1 := mkLive demoKey true false]}.

Lemma shutdown_is_complete_witness :
  (beginShutdown twoRegistry).2 = [1] /\ sr_creates (st_registry shutServed) = ∅ /\ sr_sessions (st_registry shutServed) ⊆ sr_sessions (st_registry shutServed).
Proof.
  split; [vm_compute; reflexivity|].
  apply (shutdown_is_complete twoRegistry (st_requests twoRequests) ∅ shutServed shutServed twoRequests_run).
  - eapply rtc_l; [eapply (st_created _ _ _ 0 demoKey 0 1 1 "GR" "local"); vm_compute; reflexivity|].
    match goal with |- rtc _ ?a ?b => replace a with b; [constructor|vm_compute; reflexivity] end.
  - intros c Hc. vm_compute in Hc. apply list_elem_of_singleton in Hc as ->. eexists. split; [vm_compute; reflexivity|reflexivity].
  - constructor.
Defined.

(** ** A session that ends late takes its successor with it

    [removeIfSame] guards a request against evicting a newer session, but the
    [OnStop] of a session calls [remove] with the channel alone.  A session that
    is no longer alive and has not run its [OnStop] yet is replaced by a
    request; then its [OnStop] evicts the new session, which is alive. *)
Definition lateStreams : streams := mkStreams
  (removeSession (completeCreate (acquire (removeIfSame (st_registry twoServed) demoKey 1) demoKey 2).1 demoKey 2 "GR" "local" (inl 2)) demoKey)
  (<[2%nat := (demoKey, Done (inl 2))]> (st_requests twoServed)) {[1 := mkLive demoKey false true; 2 := mkLive demoKey true false]}.

Lemma late_stop_evicts_successor : exists w k s, rtc streamStep freshStreams w /\ st_requests w !! k = Some (demoKey, Done (inl s))
  /\ st_sessions w !! s = Some (mkLive demoKey true false) /\ has (st_registry w) demoKey = false /\ activeSessions (st_registry w) = [].
Proof.
  exists lateStreams, 2%nat, 2. split; [|vm_compute; tauto].
  etransitivity; [exact twoRequests_run|]. etransitivity; [exact twoServed_run|].
  eapply rtc_l; [eapply (st_ends _ _ _ 1 demoKey); vm_compute; reflexivity|].
  eapply rtc_l; [apply (st_call _ _ _ 2 demoKey); vm_compute; reflexivity|].
  eapply rtc_l; [eapply (st_acquire _ _ _ 2 demoKey 0 2); vm_compute; reflexivity|].
  eapply rtc_l; [eapply (st_alive _ _ _ 2 demoKey 0 1); vm_compute; reflexivity|].
  eapply rtc_l; [eapply (st_evict _ _ _ 2 demoKey 0 1); vm_compute; reflexivity|].
  eapply rtc_l; [eapply (st_acquire _ _ _ 2 demoKey 1 2); vm_compute; reflexivity|].
  eapply rtc_l; [eapply (st_created _ _ _ 2 demoKey 1 2 2 "GR" "local"); vm_compute; reflexivity|].
  eapply rtc_l; [eapply (st_onStop _ _ _ 1 demoKey); vm_compute; reflexivity|].
  match goal with |- rtc _ ?a ?b => replace a with b; [constructor|vm_compute; reflexivity] end.
Qed.
