(* ===== verification/TunerDevice.v ===== *)
(** * The process behind a tuner (internal/tuner/device.go)

    [processDevice] starts the command of a tuner, with retries when it is so
    configured, copies its output, and ends when the copying does.  [Start],
    [Stop] and the copying goroutine share its fields under a lock; the steps
    below are the stretches between two locks.

    A channel is a number: [done] is the one that [Start] made, and a closed
    channel is in [pd_closed].  Processes and readers are numbers too; whether
    they start, deliver data or fail is an argument. *)

From stdpp Require Import strings.
From S2P Require Import Prelude AgentHub AgentQuarantine TunerPool TunerSharing.

Record processDevice := mkProcessDevice {
  pd_done : option Z;
  pd_closed : gset Z;
  pd_err : option error;
  pd_stopping : bool;
  pd_tunerProcess : option Z;
  pd_rawReader : option Z;
  pd_startupRetryMax : Z
}.

Definition newProcessDevice (startupRetryMax : Z) : processDevice := mkProcessDevice None ∅ None false None None startupRetryMax.

Definition setProcess (d : processDevice) (process reader : option Z) : processDevice :=
  mkProcessDevice (pd_done d) (pd_closed d) (pd_err d) (pd_stopping d) process reader (pd_startupRetryMax d).

(** [Start] up to the first attempt: [c] is the new channel; [false] when the
    device has been started before. *)
Definition startBegin (d : processDevice) (c : Z) : processDevice * bool :=
  match pd_done d with
  | Some _ => (d, false)
  | None => (mkProcessDevice (Some c) (pd_closed d) None false (pd_tunerProcess d) (pd_rawReader d) (pd_startupRetryMax d), true)
  end.

(** [Start] after a failure. *)
Definition startFailure (d : processDevice) : processDevice :=
  mkProcessDevice None (pd_closed d) (pd_err d) (pd_stopping d) None None (pd_startupRetryMax d).

(** What happens to one attempt: the pipe cannot be made, the process does not
    start, the device file cannot be opened, no data arrives (retries only), or
    it delivers. *)
Inductive attemptOutcome : Type :=
  | NoPipe (err : error)
  | NoProcess (err : error)
  | NoDevice (err : error)
  | NoData (err : error)
  | Delivers.

(** [startOnce]: [p] is the new process and [r] its output. *)
Definition startOnce (d : processDevice) (p r : Z) (o : attemptOutcome) : processDevice * option error :=
  match o with
  | NoPipe err => (setProcess d (Some p) (pd_rawReader d), Some err)
  | NoProcess err => (setProcess d None (pd_rawReader d), Some err)
  | NoDevice err => (mkProcessDevice None (pd_closed d) (pd_err d) (pd_stopping d) None (pd_rawReader d) (pd_startupRetryMax d), Some err)
  | NoData _ | Delivers => (setProcess d (Some p) (Some r), None)
  end.

(** [cleanupStartupAttempt]. *)
Definition cleanupStartupAttempt (d : processDevice) (p : Z) (r : option Z) : processDevice :=
  setProcess d (if bool_decide (pd_tunerProcess d = Some p) then None else pd_tunerProcess d)
    (if bool_decide (pd_rawReader d = r) then None else pd_rawReader d).

(** [startOnceWithProbe] up to the wait for data: [Some] is its error. *)
Definition probeBegin (d : processDevice) (p r : Z) (o : attemptOutcome) : processDevice * option error :=
  match o with
  | NoPipe err | NoProcess err => (d, Some err)
  | NoDevice err => (cleanupStartupAttempt (setProcess d (Some p) (pd_rawReader d)) p None, Some err)
  | NoData _ | Delivers => (setProcess d (Some p) (Some r), None)
  end.

(** The end of the wait. *)
Definition probeEnd (d : processDevice) (p r : Z) (err : option error) : processDevice :=
  match err with Some _ => cleanupStartupAttempt d p (Some r) | None => d end.

(** [Stop] up to the wait: what it waits for. *)
Definition stopBegin (d : processDevice) : processDevice * option Z :=
  (mkProcessDevice (pd_done d) (pd_closed d) (pd_err d) true (pd_tunerProcess d) None (pd_startupRetryMax d), pd_done d).

(** [finish], called when the copying ends. *)
Definition finishDevice (d : processDevice) (err : option error) : processDevice :=
  match pd_done d with
  | None => d
  | Some c => if bool_decide (c ∈ pd_closed d) then d
              else mkProcessDevice (pd_done d) (pd_closed d ∪ {[c]}) err (pd_stopping d) (pd_tunerProcess d) (pd_rawReader d) (pd_startupRetryMax d)
  end.

(** ** Start, Stop and the copying, interleaved *)

(** Where [Start] stands: not called, in [startOnce], about to make an attempt,
    waiting for its data, between two attempts, returned. *)
Inductive starter : Type :=
  | NotCalled
  | Starting
  | Checking (attempt : Z)
  | Probing (attempt p r : Z)
  | Retrying (attempt : Z)
  | Returned (err : option error).

(** [Stop] calls: waiting for a channel, or returned, with the context's error
    or without.  The errors of the process itself are left out. *)
Inductive stopper : Type :=
  | AwaitDone (c : Z)
  | StopReturned (canceled : bool).

Record deviceWorld := mkDeviceWorld {
  dw_device : processDevice;
  dw_next : Z;
  dw_starter : starter;
  dw_copying : bool;
  dw_stops : gmap nat stopper
}.

(** [Start] returns with an error. *)
Definition giveUp (d : processDevice) (err : error) : processDevice * starter := (startFailure d, Returned (Some err)).

(** After an attempt that failed: the last one, or a delay. *)
Definition afterFailure (d : processDevice) (attempt : Z) (err : error) : processDevice * starter :=
  if attempt =? pd_startupRetryMax d then giveUp d err else (d, Retrying attempt).

Inductive deviceStep : deviceWorld -> deviceWorld -> Prop :=
  | d_start d n cp ss d' go_on : startBegin d n = (d', go_on) ->
      deviceStep (mkDeviceWorld d n NotCalled cp ss)
        (mkDeviceWorld d' (n + 1) (if go_on then if 0 <? pd_startupRetryMax d then Checking 0 else Starting else Returned None) cp ss)
  | d_once d n cp ss p r o d' err : startOnce d p r o = (d', err) ->
      deviceStep (mkDeviceWorld d n Starting cp ss)
        (match err with
         | Some e => mkDeviceWorld (giveUp d' e).1 n (giveUp d' e).2 cp ss
         | None => mkDeviceWorld d' n (Returned None) true ss
         end)
  | d_checkCanceled d n a cp ss :
      deviceStep (mkDeviceWorld d n (Checking a) cp ss) (mkDeviceWorld (giveUp d ErrCanceled).1 n (giveUp d ErrCanceled).2 cp ss)
  | d_checkStopping d n a cp ss : pd_stopping d = true ->
      deviceStep (mkDeviceWorld d n (Checking a) cp ss) (mkDeviceWorld (giveUp d ErrCanceled).1 n (giveUp d ErrCanceled).2 cp ss)
  | d_probe d n a cp ss p r o d' err : pd_stopping d = false -> probeBegin d p r o = (d', err) ->
      deviceStep (mkDeviceWorld d n (Checking a) cp ss)
        (match err with
         | Some e => mkDeviceWorld (afterFailure d' a e).1 n (afterFailure d' a e).2 cp ss
         | None => mkDeviceWorld d' n (Probing a p r) cp ss
         end)
  | d_delivers d n a p r cp ss : deviceStep (mkDeviceWorld d n (Probing a p r) cp ss) (mkDeviceWorld (probeEnd d p r None) n (Returned None) true ss)
  | d_noData d n a p r cp ss e :
      deviceStep (mkDeviceWorld d n (Probing a p r) cp ss)
        (mkDeviceWorld (afterFailure (probeEnd d p r (Some e)) a e).1 n (afterFailure (probeEnd d p r (Some e)) a e).2 cp ss)
  | d_delayed d n a cp ss : deviceStep (mkDeviceWorld d n (Retrying a) cp ss) (mkDeviceWorld d n (Checking (a + 1)) cp ss)
  | d_delayCanceled d n a cp ss :
      deviceStep (mkDeviceWorld d n (Retrying a) cp ss) (mkDeviceWorld (giveUp d ErrCanceled).1 n (giveUp d ErrCanceled).2 cp ss)
  | d_stop d n st cp ss k d' c : ss !! k = None -> stopBegin d = (d', c) ->
      deviceStep (mkDeviceWorld d n st cp ss) (mkDeviceWorld d' n st cp (<[k := match c with Some c => AwaitDone c | None => StopReturned false end]> ss))
  | d_stopDone d n st cp ss k c : ss !! k = Some (AwaitDone c) -> c ∈ pd_closed d ->
      deviceStep (mkDeviceWorld d n st cp ss) (mkDeviceWorld d n st cp (<[k := StopReturned false]> ss))
  | d_stopCanceled d n st cp ss k c : ss !! k = Some (AwaitDone c) ->
      deviceStep (mkDeviceWorld d n st cp ss) (mkDeviceWorld d n st cp (<[k := StopReturned true]> ss))
  | d_finish d n st ss err : deviceStep (mkDeviceWorld d n st true ss) (mkDeviceWorld (finishDevice d err) n st false ss).

Definition freshDevice (startupRetryMax : Z) : deviceWorld := mkDeviceWorld (newProcessDevice startupRetryMax) 0 NotCalled false ∅.

(** ** Start makes a bounded number of attempts *)

(** The work [Start] has left when it may make [retries + 1] attempts. *)
Definition starterWeight (retries : Z) (st : starter) : Z :=
  match st with
  | NotCalled => 3 * retries + 5
  | Starting => 1
  | Checking a => 3 * (retries - a) + 3
  | Probing a _ _ => 3 * (retries - a) + 2
  | Retrying a => 3 * (retries - a) + 1
  | Returned _ => 0
  end.

Definition starter_ok (retries : Z) (st : starter) : Prop :=
  match st with
  | Checking a | Probing a _ _ => 0 <= a <= retries
  | Retrying a => 0 <= a < retries
  | _ => True
  end.

Definition busy (st : starter) : Prop :=
  match st with Starting | Checking _ | Probing _ _ _ | Retrying _ => True | _ => False end.

(** What a stop that waits can count on: its channel is closed; or the device
    still has it, and is starting or copying; or [Start] failed and let go of it. *)
Definition stop_ok (w : deviceWorld) (c : Z) : Prop :=
  c ∈ pd_closed (dw_device w)
  \/ (pd_done (dw_device w) = Some c /\ (dw_copying w = true \/ forall err, dw_starter w <> Returned err))
  \/ (pd_done (dw_device w) <> Some c /\ exists err, dw_starter w = Returned (Some err)).

Record device_ok (retries : Z) (w : deviceWorld) : Prop := {
  v_max : pd_startupRetryMax (dw_device w) = retries;
  v_starter : starter_ok retries (dw_starter w);
  v_done : forall c, pd_done (dw_device w) = Some c -> c < dw_next w;
  v_closed : forall c, c ∈ pd_closed (dw_device w) -> c < dw_next w;
  v_copying : dw_copying w = true -> exists c, pd_done (dw_device w) = Some c /\ c ∉ pd_closed (dw_device w) /\ dw_starter w = Returned None;
  v_idle : dw_starter w = NotCalled -> pd_done (dw_device w) = None /\ dw_copying w = false;
  v_busy : busy (dw_starter w) ->
    (exists c, pd_done (dw_device w) = Some c /\ c ∉ pd_closed (dw_device w)) /\ dw_copying w = false;
  v_open : forall c, pd_done (dw_device w) = Some c -> c ∉ pd_closed (dw_device w) -> dw_copying w = true \/ busy (dw_starter w);
  v_stops : forall k c, dw_stops w !! k = Some (AwaitDone c) -> c < dw_next w /\ stop_ok w c
}.

(** The fields of the device that matter to those who wait. *)
Definition sameChannels (d d' : processDevice) : Prop :=
  pd_done d' = pd_done d /\ pd_closed d' = pd_closed d /\ pd_startupRetryMax d' = pd_startupRetryMax d.

Lemma probeBegin_same d p r o d' err : probeBegin d p r o = (d', err) -> sameChannels d d'.
Proof. destruct o; intros [= <- <-]; done. Qed.

Lemma probeEnd_same d p r err : sameChannels d (probeEnd d p r err).
Proof. by destruct err. Qed.

(** [Start] goes on. *)
Lemma goOn_ok retries d n st cp ss d' st' : device_ok retries (mkDeviceWorld d n st cp ss) -> busy st -> busy st' -> starter_ok retries st' ->
  sameChannels d d' -> device_ok retries (mkDeviceWorld d' n st' cp ss).
Proof.
  intros [] Hb Hb' Hst (E1 & E2 & E3). cbn [dw_device dw_next dw_starter dw_copying dw_stops] in *. constructor; cbn [dw_device dw_next dw_starter dw_copying dw_stops]; rewrite ?E1, ?E2, ?E3; try done.
  - intros Hc. destruct (v_busy0 Hb) as [_ Hf]. congruence.
  - by destruct st'.
  - by intros _; apply v_busy0.
  - auto.
  - intros k c Hk. destruct (v_stops0 k c Hk) as [Hn Hs]. split; [done|]. unfold stop_ok in *. cbn [dw_device dw_starter dw_copying] in *. rewrite E1, E2.
    destruct Hs as [?|[[? ?]|[? [err ->]]]]; [by left| |done]. right. left. split; [done|]. right. intros err. by destruct st'.
Qed.

(** [Start] fails. *)
Lemma giveUp_ok retries d n st cp ss d' e : device_ok retries (mkDeviceWorld d n st cp ss) -> busy st -> pd_closed d' = pd_closed d ->
  pd_startupRetryMax d' = pd_startupRetryMax d -> device_ok retries (mkDeviceWorld (giveUp d' e).1 n (giveUp d' e).2 cp ss).
Proof.
  intros [] Hb E1 E2. cbn [dw_device dw_next dw_starter dw_copying dw_stops] in *. destruct (v_busy0 Hb) as [_ Hf].
  constructor; cbn [giveUp fst snd startFailure dw_device dw_next dw_starter dw_copying dw_stops pd_done pd_closed pd_startupRetryMax]; rewrite ?E1, ?E2; try done.
  - congruence.
  - intros k c Hk. destruct (v_stops0 k c Hk) as [Hn _]. split; [done|]. right. right. split; [done|]. by exists e.
Qed.

Lemma afterFailure_ok retries d n st a cp ss d' e : device_ok retries (mkDeviceWorld d n st cp ss) -> busy st -> 0 <= a <= retries -> sameChannels d d' ->
  device_ok retries (mkDeviceWorld (afterFailure d' a e).1 n (afterFailure d' a e).2 cp ss).
Proof.
  intros Hok Hb Ha Hs. pose proof (v_max _ _ Hok) as Hm. cbn in Hm. pose proof Hs as (_ & E2 & E3). unfold afterFailure. destruct (Z.eqb_spec a (pd_startupRetryMax d')).
  - by eapply giveUp_ok.
  - cbn [fst snd]. eapply goOn_ok; [done..| |done]. cbn. lia.
Qed.

(** [Start] succeeds, and the copying begins. *)
Lemma succeed_ok retries d n st cp ss d' : device_ok retries (mkDeviceWorld d n st cp ss) -> busy st -> sameChannels d d' ->
  device_ok retries (mkDeviceWorld d' n (Returned None) true ss).
Proof.
  intros [] Hb (E1 & E2 & E3). cbn [dw_device dw_next dw_starter dw_copying dw_stops] in *. destruct (v_busy0 Hb) as [(c & Hc & Hn) _].
  constructor; cbn [dw_device dw_next dw_starter dw_copying dw_stops]; rewrite ?E1, ?E2, ?E3; try done.
  - intros _. by exists c.
  - auto.
  - intros k x Hk. destruct (v_stops0 k x Hk) as [Hx Hs]. split; [done|]. unfold stop_ok in *. cbn [dw_device dw_starter dw_copying] in *. rewrite E1, E2.
    destruct Hs as [?|[[? ?]|[? [err ->]]]]; [by left| |done]. right. left. auto.
Qed.

Lemma deviceStep_ok retries w w' : 0 <= retries -> deviceStep w w' -> device_ok retries w -> device_ok retries w'.
Proof.
  intros Hret Hs Hok. pose proof (v_starter _ _ Hok) as Hst. destruct Hs as [d n cp ss d' go_on E|d n cp ss p r o d' err E|d n a cp ss|d n a cp ss Hstop|d n a cp ss p r o d' err Hstop E|
    d n a p r cp ss|d n a p r cp ss e|d n a cp ss|d n a cp ss|d n st cp ss k d' c Hk E|d n st cp ss k c Hk Hc|d n st cp ss k c Hk|d n st ss err]; cbn [dw_starter starter_ok] in Hst.
  - pose proof Hok as []. cbn [dw_device dw_next dw_starter dw_copying dw_stops] in *. destruct (v_idle0 eq_refl) as [Hd ->]. unfold startBegin in E. rewrite Hd in E. injection E as <- <-.
    assert (busy (if 0 <? pd_startupRetryMax d then Checking 0 else Starting)) as Hb by (by destruct (_ <? _)).
    constructor; cbn [dw_device dw_next dw_starter dw_copying dw_stops pd_done pd_closed pd_startupRetryMax]; try done.
    + destruct (Z.ltb_spec 0 (pd_startupRetryMax d)); cbn; lia || done.
    + intros c [= <-]. lia.
    + intros c Hc%v_closed0. lia.
    + by destruct (_ <? _).
    + intros _. split; [|done]. exists n. split; [done|]. intros Hc%v_closed0. lia.
    + auto.
    + intros k c Hk. destruct (v_stops0 k c Hk) as [Hn Hs]. split; [lia|]. unfold stop_ok in *. cbn [dw_device dw_starter dw_copying pd_done pd_closed] in *. rewrite Hd in Hs.
      destruct Hs as [?|[[? ?]|[? [err ?]]]]; [by left|done..].
  - assert (busy Starting) as Hb by done. destruct o; injection E as <- <-.
    1-3: by eapply giveUp_ok. all: by eapply succeed_ok.
  - by eapply giveUp_ok.
  - by eapply giveUp_ok.
  - assert (busy (Checking a)) as Hb by done. pose proof (probeBegin_same _ _ _ _ _ _ E). destruct err; [by eapply afterFailure_ok|by eapply goOn_ok].
  - eapply succeed_ok; [done..|apply probeEnd_same].
  - eapply afterFailure_ok; [done..|apply probeEnd_same].
  - eapply goOn_ok; [done..| |done]. cbn. lia.
  - by eapply giveUp_ok.
  - injection E as <- <-. pose proof Hok as []. cbn [dw_device dw_next dw_starter dw_copying dw_stops] in *.
    constructor; cbn [dw_device dw_next dw_starter dw_copying dw_stops pd_done pd_closed pd_startupRetryMax]; try done.
    intros j c [[<- Hj]|[_ Hj]]%lookup_insert_Some; [|exact (v_stops0 j c Hj)]. destruct (pd_done d) as [x|] eqn:Hx; [|done]. injection Hj as ->.
    split; [by apply v_done0|]. unfold stop_ok. cbn [dw_device dw_starter dw_copying pd_done pd_closed]. destruct (decide (c ∈ pd_closed d)); [by left|]. right. left. split; [done|].
    destruct (v_open0 c eq_refl) as [?|?]; [done|by left|right]. intros err ->. done.
  - pose proof Hok as []. cbn [dw_device dw_next dw_starter dw_copying dw_stops] in *. constructor; cbn [dw_device dw_next dw_starter dw_copying dw_stops]; try done.
    intros j x [[_ [=]]|[_ Hj]]%lookup_insert_Some. exact (v_stops0 j x Hj).
  - pose proof Hok as []. cbn [dw_device dw_next dw_starter dw_copying dw_stops] in *. constructor; cbn [dw_device dw_next dw_starter dw_copying dw_stops]; try done.
    intros j x [[_ [=]]|[_ Hj]]%lookup_insert_Some. exact (v_stops0 j x Hj).
  - pose proof Hok as []. cbn [dw_device dw_next dw_starter dw_copying dw_stops] in *. destruct (v_copying0 eq_refl) as (c & Hc & Hn & ->). unfold finishDevice. rewrite Hc, bool_decide_eq_false_2 by done.
    constructor; cbn [dw_device dw_next dw_starter dw_copying dw_stops pd_done pd_closed pd_startupRetryMax]; try done.
    + intros x [= <-]. by apply v_done0.
    + intros x [Hx| ->%elem_of_singleton]%elem_of_union; [by apply v_closed0|by apply v_done0].
    + intros x [= <-] Hnx. set_solver.
    + intros k x Hk. destruct (v_stops0 k x Hk) as [Hx Hs]. split; [done|]. unfold stop_ok in *. cbn [dw_device dw_starter dw_copying pd_done pd_closed] in *. rewrite Hc in Hs.
      left. destruct Hs as [?|[[[= ->] _]|[_ [e ?]]]]; [set_solver|set_solver|done].
Qed.

Lemma freshDevice_ok retries : device_ok retries (freshDevice retries).
Proof. constructor; cbn; try done; intros *; by rewrite ?lookup_empty. Qed.

Lemma device_reachable_ok retries w : 0 <= retries -> rtc deviceStep (freshDevice retries) w -> device_ok retries w.
Proof.
  intros Hr. pose proof (freshDevice_ok retries) as H0. induction 1 as [|w1 w2 w3 Hs _ IH]; [done|]. by apply IH, (deviceStep_ok retries w1).
Qed.

(** [Start] makes at most [startupRetryMax + 1] attempts: every step of it,
    whatever [Stop] and the copying do in between, lowers the work it has
    left; and a [Stop] that waits is answered by the copying, unless [Start]
    has failed. *)
Theorem start_is_bounded retries w : 0 <= retries -> rtc deviceStep (freshDevice retries) w ->
  (forall w', deviceStep w w' -> dw_starter w' = dw_starter w \/ 0 <= starterWeight retries (dw_starter w') < starterWeight retries (dw_starter w)) /\
  (forall a p r, dw_starter w = Probing a p r -> 0 <= a <= retries) /\
  (forall k c, dw_stops w !! k = Some (AwaitDone c) -> (forall err, dw_starter w <> Returned (Some err)) ->
    c ∈ pd_closed (dw_device w) \/ (busy (dw_starter w) \/ dw_copying w = true /\ forall err, c ∈ pd_closed (finishDevice (dw_device w) err))).
Proof.
  intros Hret Hr. pose proof (device_reachable_ok retries w Hret Hr) as Hok. pose proof (v_starter _ _ Hok) as Hst. conjs.
  - intros w' Hs. destruct Hs as [d n cp ss d' go_on E|d n cp ss p r o d' err E|d n a cp ss|d n a cp ss Hstop|d n a cp ss p r o d' err Hstop E|
      d n a p r cp ss|d n a p r cp ss e|d n a cp ss|d n a cp ss|d n st cp ss k d' c Hk E|d n st cp ss k c Hk Hc|d n st cp ss k c Hk|d n st ss err];
      cbn [dw_starter starter_ok starterWeight giveUp snd] in *; try (by left); try (right; lia).
    + right. pose proof (v_max _ _ Hok) as Hm. cbn in Hm. destruct go_on; [destruct (_ <? _)|]; cbn; lia.
    + right. destruct err; cbn; lia.
    + right. destruct err; [|cbn; lia]. unfold afterFailure. destruct (_ =? _); cbn; lia.
    + right. unfold afterFailure. destruct (_ =? _); cbn; lia.
  - intros a p r E. by rewrite E in Hst.
  - intros k c Hk Hne. destruct (v_stops _ _ Hok k c Hk) as [_ [?|[[Hd Hc]|[_ [err Hc]]]]]; [by left| |by destruct (Hne err)].
    destruct (decide (c ∈ pd_closed (dw_device w))); [by left|right]. destruct (v_open _ _ Hok c Hd) as [Hcp|Hb]; [done|right|by left]. split; [done|].
    intros err. unfold finishDevice. rewrite Hd, bool_decide_eq_false_2 by done. cbn. set_solver.
Qed.

(** A start that succeeds at the second attempt while a stop is waiting. *)
Definition demoDevice (d : processDevice) (st : starter) (cp : bool) (ss : gmap nat stopper) : deviceWorld := mkDeviceWorld d 1 st cp ss.
Definition demoDone (stopping : bool) (process reader : option Z) : processDevice := mkProcessDevice (Some 0) ∅ None stopping process reader 1.

Lemma demoDevice_run : rtc deviceStep (freshDevice 1) (demoDevice (demoDone true (Some 2) None) (Probing 1 2 2) false {[0%nat := AwaitDone 0]}).
Proof.
  eapply rtc_l; [apply (d_start _ _ _ _ (demoDone false None None) true); reflexivity|].
  eapply rtc_l; [apply (d_probe _ _ _ _ _ 1 1 (NoProcess ErrEOF) (demoDone false None None) (Some ErrEOF)); reflexivity|].
  eapply rtc_l; [apply d_delayed|].
  eapply rtc_l; [apply (d_probe _ _ _ _ _ 2 2 Delivers (demoDone false (Some 2) (Some 2)) None); reflexivity|].
  eapply rtc_l; [apply (d_stop _ _ _ _ _ 0 (demoDone true (Some 2) None) (Some 0)); vm_compute; reflexivity|].
  match goal with |- rtc _ ?a ?b => replace a with b; [constructor|vm_compute; reflexivity] end.
Qed.

Lemma start_is_bounded_witness : starterWeight 1 (Probing 1 2 2) = 2 /\ (forall a p r,
  dw_starter (demoDevice (demoDone true (Some 2) None) (Probing 1 2 2) false {[0%nat := AwaitDone 0]}) = Probing a p r -> 0 <= a <= 1).
Proof. split; [reflexivity|]. apply (start_is_bounded 1 _ ltac:(lia) demoDevice_run). Defined.

(** ** A stop that nobody answers

    While [Start] retries, a [Stop] takes the channel of the device; [Start] sees
    that it shall stop and lets go of the channel without closing it.  From
    then on nothing can close it, and [Stop] waits until its context ends.  A
    request that takes a tuner away has no other limit. *)

Lemma orphan_stays_open w w' c : deviceStep w w' -> (exists err, dw_starter w = Returned (Some err)) -> dw_copying w = false ->
  c ∉ pd_closed (dw_device w) -> (exists err, dw_starter w' = Returned (Some err)) /\ dw_copying w' = false /\ c ∉ pd_closed (dw_device w').
Proof.
  intros Hs [err Hst] Hcp Hc. destruct Hs as [| | | | | | | | |d n st cp ss k d' x Hk E| | |]; cbn [dw_starter dw_copying dw_device] in *; try done; subst; try (conjs; [by exists err|done..]).
  injection E as <- <-. conjs; [by exists err|done..].
Qed.

Lemma orphan_for_ever w w' c : rtc deviceStep w w' -> (exists err, dw_starter w = Returned (Some err)) -> dw_copying w = false ->
  c ∉ pd_closed (dw_device w) -> c ∉ pd_closed (dw_device w').
Proof.
  induction 1 as [|w1 w2 w3 Hs _ IH]; [done|]. intros Hst Hcp Hc. destruct (orphan_stays_open w1 w2 c Hs Hst Hcp Hc) as (? & ? & ?). by apply IH.
Qed.

Definition orphaned : deviceWorld := mkDeviceWorld (mkProcessDevice None ∅ None true None None 1) 1 (Returned (Some ErrCanceled)) false {[0%nat := AwaitDone 0]}.

Lemma orphaned_run : rtc deviceStep (freshDevice 1) orphaned.
Proof.
  eapply rtc_l; [apply (d_start _ _ _ _ (demoDone false None None) true); reflexivity|].
  eapply rtc_l; [apply (d_probe _ _ _ _ _ 1 1 Delivers (demoDone false (Some 1) (Some 1)) None); reflexivity|].
  eapply rtc_l; [apply (d_stop _ _ _ _ _ 0 (demoDone true (Some 1) None) (Some 0)); vm_compute; reflexivity|].
  eapply rtc_l; [apply (d_noData _ _ _ _ _ _ _ ErrClosedPipe)|].
  eapply rtc_l; [apply d_delayed|]. eapply rtc_l; [apply d_checkStopping; reflexivity|].
  match goal with |- rtc _ ?a ?b => replace a with b; [constructor|vm_compute; reflexivity] end.
Qed.

Lemma stop_of_a_starting_device_hangs : exists w k c, rtc deviceStep (freshDevice 1) w /\ dw_stops w !! k = Some (AwaitDone c) /\
  forall w', rtc deviceStep w w' -> c ∉ pd_closed (dw_device w').
Proof.
  exists orphaned, 0%nat, 0. conjs; [exact orphaned_run|vm_compute; reflexivity|]. intros w' Hr.
  apply (orphan_for_ever orphaned w' 0 Hr); [by eexists|done|]. apply not_elem_of_empty.
Qed.

(** ** A device that starts after it was stopped

    [Start] clears [stopping], so that a device that was stopped before its start
    starts all the same; the pool does not refuse it either, although the tuner
    may by then be another request's. *)
Definition revived : deviceWorld := mkDeviceWorld (mkProcessDevice (Some 0) ∅ None false (Some 1) (Some 1) 0) 1 (Returned None) true {[0%nat := StopReturned false]}.

Lemma revived_run : rtc deviceStep (freshDevice 0) revived.
Proof.
  eapply rtc_l; [apply (d_stop _ _ _ _ _ 0 (mkProcessDevice None ∅ None true None None 0) None); vm_compute; reflexivity|].
  eapply rtc_l; [apply (d_start _ _ _ _ (mkProcessDevice (Some 0) ∅ None false None None 0) true); reflexivity|].
  eapply rtc_l; [apply (d_once _ _ _ _ 1 1 Delivers (mkProcessDevice (Some 0) ∅ None false (Some 1) (Some 1) 0) None); reflexivity|].
  match goal with |- rtc _ ?a ?b => replace a with b; [constructor|vm_compute; reflexivity] end.
Qed.

Definition grabPool2 : Manager := (resultOf (managedStop lonePool1 1 None) (lonePool1, None)).1.
Definition grabPool3 : Manager := (demoTurn grabPool2 2 5).1.
Definition grabWorld : world := mkWorld grabPool3 {[0%nat := (demoWant 0, Holding 1); 1%nat := (demoWant 5, Holding 2)]}.

Lemma grabWorld_run : worldRun [demoTuner "T0"] grabWorld.
Proof.
  exists false. eapply rtc_l; [apply (w_request _ _ 0 (demoWant 0)); vm_compute; reflexivity|].
  eapply rtc_l; [eapply (w_turn _ _ 0 (demoWant 0) 1 lonePool1); vm_compute; reflexivity|].
  eapply rtc_l; [apply (w_request _ _ 1 (demoWant 5)); vm_compute; reflexivity|].
  eapply rtc_l; [eapply (w_turn _ _ 1 (demoWant 5) 2 lonePool1); vm_compute; reflexivity|].
  eapply rtc_l; [apply (w_stopped _ _ 1 (demoWant 5) 1 0 None grabPool2); vm_compute; reflexivity|].
  eapply rtc_l; [eapply (w_awake _ _ 1 (demoWant 5) 0); vm_compute; reflexivity|].
  eapply rtc_l; [eapply (w_turn _ _ 1 (demoWant 5) 2 grabPool3); vm_compute; reflexivity|].
  match goal with |- rtc _ ?a ?b => replace a with b; [constructor|vm_compute; reflexivity] end.
Qed.

(** The tuner of request 0 was taken by request 1 before request 0 started its
    device; when it does, the pool says nothing and the process starts, beside
    the one of request 1 on the same tuner. *)
Lemma grabbed_device_can_still_start : exists w q1 q2 i,
  worldRun [demoTuner "T0"] w /\ wo_requests w !! 0%nat = Some (q1, Holding 1) /\ wo_requests w !! 1%nat = Some (q2, Holding 2)
  /\ tm_devices (wo_tm w) !! 1 = Some (mkManaged i true) /\ tm_devices (wo_tm w) !! 2 = Some (mkManaged i false)
  /\ managedStart (wo_tm w) 1 None = Ret (wo_tm w, None)
  /\ rtc deviceStep (freshDevice 0) revived /\ dw_stops revived !! 0%nat = Some (StopReturned false) /\ dw_starter revived = Returned None /\ dw_copying revived = true.
Proof. exists grabWorld, (demoWant 0), (demoWant 5), 0%nat. conjs; try exact grabWorld_run; try exact revived_run; vm_compute; reflexivity. Qed.
