(* ===== verification/Broadcast.v ===== *)
(** * Shared inputs (internal/stream/source/broadcast.go, route_source.go)

    A [Broadcast] runs one tuner for all its subscribers: the first one starts
    it, the last one stops it.  The pool of routes keeps the broadcast of each
    route so that a second channel session on the same route shares it.

    The lock of a broadcast is released while its source starts and stops, so
    [attach], [detach] and [Stop] are cut where they take it; the steps of all
    subscribers interleave.  The source's answers come from outside. *)

From stdpp Require Import strings fin_maps.
From S2P Require Import Prelude.

(** ** The broadcast *)

(** [starting] is nil, open or closed; [hub] holds the writers. *)
Inductive startState : Set := NoStart | StartOpen | StartClosed.

#[export] Instance startState_eq_dec : EqDecision startState.
Proof. solve_decision. Defined.

Record Broadcast := mkBroadcast {
  bc_refs : Z;
  bc_hub : gset Z;
  bc_onStops : Z;
  bc_starting : startState;
  bc_startErr : option error;
  bc_canceled : bool;
  bc_stopped : bool;
  bc_err : option error
}.

(** [onStops] is how many functions are registered. *)
Definition NewBroadcast (onStop : bool) : Broadcast := mkBroadcast 0 ∅ (if onStop then 1 else 0) NoStart None false false None.

Definition AddOnStop (b : Broadcast) : Broadcast * bool :=
  if bc_stopped b then (b, false)
  else (mkBroadcast (bc_refs b) (bc_hub b) (bc_onStops b + 1) (bc_starting b) (bc_startErr b) (bc_canceled b) (bc_stopped b) (bc_err b), true).

(** [attach] up to the wait; the flag says that the source is to be started. *)
Definition attachBegin (b : Broadcast) (dst : Z) : go (Broadcast * bool) :=
  if bc_stopped b then Err ErrBroadcastStopped
  else
    let starts := bool_decide (bc_starting b = NoStart) in
    Ret (mkBroadcast (bc_refs b + 1) (bc_hub b ∪ {[dst]}) (bc_onStops b) (if starts then StartOpen else bc_starting b)
           (bc_startErr b) (bc_canceled b) (bc_stopped b) (bc_err b), starts).

(** [attach] after the wait: its error. *)
Definition attachEnd (b : Broadcast) : option error :=
  match bc_startErr b with
  | Some err => Some err
  | None => if bc_stopped b then Some ErrBroadcastStopped else None
  end.

(** [detach] up to the call of [Stop], and the references left. *)
Definition detachBegin (b : Broadcast) (dst : Z) : Broadcast * Z :=
  let refs := if 0 <? bc_refs b then bc_refs b - 1 else bc_refs b in
  (mkBroadcast refs (bc_hub b ∖ {[dst]}) (bc_onStops b) (bc_starting b) (bc_startErr b) (bc_canceled b) (bc_stopped b) (bc_err b), refs).

(** [start], given the answer of the source. *)
Definition startEnd (b : Broadcast) (err : option error) : Broadcast :=
  mkBroadcast (bc_refs b) (bc_hub b) (bc_onStops b) StartClosed err (bc_canceled b) (bc_stopped b) (bc_err b).

(** [Stop] up to the wait: [None] when it has nothing to do, otherwise whether
    it waits for the start, and the functions to run. *)
Definition stopBroadcast (b : Broadcast) : Broadcast * option (bool * Z) :=
  if bc_stopped b then (b, None)
  else (mkBroadcast (bc_refs b) ∅ 0 (bc_starting b) (bc_startErr b) true true (bc_err b),
        Some (bool_decide (bc_starting b <> NoStart), bc_onStops b)).

(** [wait], when the source is done. *)
Definition waitEnd (b : Broadcast) (err : option error) : Broadcast :=
  let err := match err with Some ErrClosedPipe => None | _ => err end in
  mkBroadcast (bc_refs b) (bc_hub b) (bc_onStops b) (bc_starting b) (bc_startErr b) (bc_canceled b) (bc_stopped b) err.

(** ** Subscribers, interleaved *)

(** A subscriber waits for the source, is attached, has detached with this many
    references left, or is gone. *)
Inductive member : Type :=
  | Joins
  | Attached
  | Leaves (refs : Z)
  | Left.

(** A call of [Stop] waits for the start, is about to stop the source, about to
    run the functions, or has returned.  When its context ends first, it goes on
    to the functions and leaves the source to a goroutine, which is listed as a
    call without functions. *)
Inductive stopCall : Type :=
  | AwaitsStart (onStops : Z)
  | StopsSource (onStops : Z)
  | RunsOnStops (onStops : Z)
  | StopEnded.

Record shared := mkShared {
  sh_broadcast : Broadcast;
  sh_members : gmap Z member;
  sh_stops : gmap nat stopCall;
  sh_sourceStops : Z;
  sh_onStopRuns : Z
}.

(** What [Stop] goes on with. *)
Definition stopCallOf (r : option (bool * Z)) : stopCall :=
  match r with
  | None => StopEnded
  | Some (true, n) => AwaitsStart n
  | Some (false, n) => StopsSource n
  end.

Inductive sharedStep : shared -> shared -> Prop :=
  | h_attach b ms ss a o dst b' starts : ms !! dst = None -> attachBegin b dst = Ret (b', starts) ->
      sharedStep (mkShared b ms ss a o) (mkShared b' (<[dst := Joins]> ms) ss a o)
  | h_started b ms ss a o err : bc_starting b = StartOpen -> sharedStep (mkShared b ms ss a o) (mkShared (startEnd b err) ms ss a o)
  | h_joined b ms ss a o dst : ms !! dst = Some Joins -> bc_starting b = StartClosed -> attachEnd b = None ->
      sharedStep (mkShared b ms ss a o) (mkShared b (<[dst := Attached]> ms) ss a o)
  | h_detach b ms ss a o dst m b' refs : ms !! dst = Some m -> m = Joins \/ m = Attached -> detachBegin b dst = (b', refs) ->
      sharedStep (mkShared b ms ss a o) (mkShared b' (<[dst := Leaves refs]> ms) ss a o)
  | h_leaves b ms ss a o dst refs : ms !! dst = Some (Leaves refs) -> refs <> 0 ->
      sharedStep (mkShared b ms ss a o) (mkShared b (<[dst := Left]> ms) ss a o)
  | h_lastLeaves b ms ss a o dst k b' r : ms !! dst = Some (Leaves 0) -> ss !! k = None -> stopBroadcast b = (b', r) ->
      sharedStep (mkShared b ms ss a o) (mkShared b' (<[dst := Left]> ms) (<[k := stopCallOf r]> ss) a o)
  | h_stop b ms ss a o k b' r : ss !! k = None -> stopBroadcast b = (b', r) ->
      sharedStep (mkShared b ms ss a o) (mkShared b' ms (<[k := stopCallOf r]> ss) a o)
  | h_startSeen b ms ss a o k n : ss !! k = Some (AwaitsStart n) -> bc_starting b = StartClosed ->
      sharedStep (mkShared b ms ss a o) (mkShared b ms (<[k := StopsSource n]> ss) a o)
  | h_startTimeout b ms ss a o k j n : ss !! k = Some (AwaitsStart n) -> ss !! j = None ->
      sharedStep (mkShared b ms ss a o) (mkShared b ms (<[j := AwaitsStart 0]> (<[k := RunsOnStops n]> ss)) a o)
  | h_sourceStop b ms ss a o k n : ss !! k = Some (StopsSource n) ->
      sharedStep (mkShared b ms ss a o) (mkShared b ms (<[k := RunsOnStops n]> ss) (a + 1) o)
  | h_onStops b ms ss a o k n : ss !! k = Some (RunsOnStops n) ->
      sharedStep (mkShared b ms ss a o) (mkShared b ms (<[k := StopEnded]> ss) a (o + n))
  | h_addOnStop b ms ss a o b' ok : AddOnStop b = (b', ok) -> sharedStep (mkShared b ms ss a o) (mkShared b' ms ss a o)
  | h_wait b ms ss a o err : sharedStep (mkShared b ms ss a o) (mkShared (waitEnd b err) ms ss a o).

Definition freshShared (onStop : bool) : shared := mkShared (NewBroadcast onStop) ∅ ∅ 0 0.

(** ** Invariant *)

Definition counted (m : member) : bool := match m with Joins | Attached => true | _ => false end.
Definition isIn (m : option member) : Z := match m with Some m => if counted m then 1 else 0 | None => 0 end.

(** The subscribers that hold a reference. *)
Definition members (ms : gmap Z member) : Z := Z.of_nat (size (filter (fun p => counted p.2 = true) ms)).

Lemma members_empty : members ∅ = 0.
Proof. done. Qed.

Lemma members_insert ms dst m : members (<[dst := m]> ms) = members ms - isIn (ms !! dst) + isIn (Some m).
Proof.
  unfold members. assert (forall m' (ms' : gmap Z member), ms' !! dst = None ->
    Z.of_nat (size (filter (fun p => counted p.2 = true) (<[dst := m']> ms'))) = Z.of_nat (size (filter (fun p => counted p.2 = true) ms')) + isIn (Some m')) as Hnew.
  { intros m' ms' Hn. cbn [isIn]. destruct (counted m') eqn:Hc.
    - rewrite map_filter_insert_True by done. rewrite map_size_insert_None; [lia|]. apply map_lookup_filter_None. by left.
    - rewrite map_filter_insert_False by (cbn; congruence). rewrite delete_id by done. lia. }
  destruct (ms !! dst) as [m0|] eqn:E; cbn [isIn].
  - rewrite <- (insert_delete_id ms dst m0 E) at 2. rewrite <- (insert_delete_eq ms dst m). rewrite !Hnew by apply lookup_delete_eq. cbn [isIn]. lia.
  - rewrite Hnew by done. cbn [isIn]. lia.
Qed.

Lemma members_nonneg ms : 0 <= members ms.
Proof. unfold members. lia. Qed.

Lemma members_pos ms dst m : ms !! dst = Some m -> counted m = true -> 0 < members ms.
Proof.
  intros Hm Hc. pose proof (members_insert ms dst Left) as E. rewrite Hm in E. cbn [isIn] in E. rewrite Hc in E. cbn in E.
  pose proof (members_nonneg (<[dst := Left]> ms)). lia.
Qed.

(** The calls that have yet to stop the source: one once the broadcast is
    stopped, until it has done so. *)
Definition owing (c : stopCall) : bool := match c with AwaitsStart _ | StopsSource _ => true | _ => false end.
Definition noneOwing (ss : gmap nat stopCall) : Prop := forall k c, ss !! k = Some c -> owing c = false.
Definition onlyOwing (ss : gmap nat stopCall) (k : nat) : Prop := forall j c, ss !! j = Some c -> j <> k -> owing c = false.

Definition stopping (b : Broadcast) (ss : gmap nat stopCall) (a : Z) : Prop :=
  if bc_stopped b then
    (a = 1 /\ noneOwing ss) \/
    (a = 0 /\ exists k, onlyOwing ss k /\
      ((exists n, ss !! k = Some (AwaitsStart n) /\ bc_starting b <> NoStart) \/ (exists n, ss !! k = Some (StopsSource n) /\ bc_starting b <> StartOpen)))
  else a = 0 /\ noneOwing ss.

Record shared_ok (w : shared) : Prop := {
  i_refs : bc_refs (sh_broadcast w) = members (sh_members w);
  i_hub : bc_stopped (sh_broadcast w) = false -> forall dst, dst ∈ bc_hub (sh_broadcast w) <-> isIn (sh_members w !! dst) = 1;
  i_start : bc_starting (sh_broadcast w) = NoStart -> sh_members w = ∅;
  i_desert : bc_starting (sh_broadcast w) <> NoStart -> bc_stopped (sh_broadcast w) = true \/ 0 < bc_refs (sh_broadcast w)
    \/ exists dst, sh_members w !! dst = Some (Leaves 0);
  i_stop : stopping (sh_broadcast w) (sh_stops w) (sh_sourceStops w)
}.

Lemma freshShared_ok onStop : shared_ok (freshShared onStop).
Proof.
  constructor; unfold freshShared; cbn [sh_broadcast sh_members sh_stops sh_sourceStops sh_onStopRuns]; try done.
Qed.

(** A step of the broadcast that neither stops it nor starts its source. *)
Lemma stopping_same b b' ss a : bc_stopped b' = bc_stopped b -> bc_starting b' = bc_starting b -> stopping b ss a -> stopping b' ss a.
Proof. unfold stopping. by intros -> ->. Qed.

Lemma stopping_starts b b' ss a : bc_stopped b = false -> bc_stopped b' = false -> stopping b ss a -> stopping b' ss a.
Proof. unfold stopping. by intros -> ->. Qed.

Lemma stopping_started b err ss a : bc_starting b = StartOpen -> stopping b ss a -> stopping (startEnd b err) ss a.
Proof.
  unfold stopping. cbn [startEnd bc_stopped bc_starting]. intros Hs. destruct (bc_stopped b); [|done]. intros [?|(Ha & k & Ho & H)]; [by left|]. right. split; [done|].
  exists k. split; [done|]. destruct H as [(n & ? & _)|(n & ? & ?)]; [left; by exists n|by right; exists n].
Qed.

Lemma noneOwing_insert ss k c : noneOwing ss -> owing c = false -> noneOwing (<[k := c]> ss).
Proof. intros H Hc j x [[_ <-]|[_ Hj]]%lookup_insert_Some; [done|by eapply H]. Qed.

Lemma noneOwing_only ss k c : noneOwing ss -> onlyOwing (<[k := c]> ss) k.
Proof. intros H j x [[<- _]|[_ Hj]]%lookup_insert_Some Hne; [done|by eapply H]. Qed.

(** A call of [Stop]. *)
Lemma stopping_stop b ss a k b' r : stopping b ss a -> ss !! k = None -> stopBroadcast b = (b', r) -> stopping b' (<[k := stopCallOf r]> ss) a.
Proof.
  unfold stopBroadcast, stopping. destruct (bc_stopped b) eqn:Hst; intros H Hk [= <- <-]; cbn [bc_stopped bc_starting].
  - rewrite Hst. destruct H as [[-> H]|(-> & j & Ho & H)]; [left; split; [done|by apply noneOwing_insert]|]. right. split; [done|]. exists j.
    assert (j <> k) as Hne by (intros ->; destruct H as [(? & ? & _)|(? & ? & _)]; congruence). split; [|by rewrite lookup_insert_ne].
    intros i c [[_ <-]|[_ Hi]]%lookup_insert_Some; [done|by apply Ho].
  - destruct H as [-> H]. right. split; [done|]. exists k. split; [by apply noneOwing_only|]. rewrite lookup_insert_eq.
    case_bool_decide as Hs; cbn [stopCallOf]; [left; by eexists|right; eexists; split; [done|]]. congruence.
Qed.

(** The call that owes the stop. *)
Lemma stopping_owner b ss a k c : stopping b ss a -> ss !! k = Some c -> owing c = true ->
  bc_stopped b = true /\ a = 0 /\ onlyOwing ss k /\ match c with AwaitsStart _ => bc_starting b <> NoStart | _ => bc_starting b <> StartOpen end.
Proof.
  unfold stopping. intros H Hk Hc. destruct (bc_stopped b).
  - destruct H as [[_ H]|(-> & j & Ho & H)]; [by rewrite (H k c Hk) in Hc|]. destruct (decide (j = k)) as [-> |Hne]; [|by rewrite (Ho k c Hk) in Hc].
    conjs; try done. destruct H as [(n & E & ?)|(n & E & ?)]; rewrite E in Hk; by injection Hk as <-.
  - destruct H as [_ H]. by rewrite (H k c Hk) in Hc.
Qed.

(** A call that owes nothing moves on. *)
Lemma stopping_idle b ss a k c c' : stopping b ss a -> ss !! k = Some c -> owing c = false -> owing c' = false -> stopping b (<[k := c']> ss) a.
Proof.
  unfold stopping. intros H Hk Hc Hc'. destruct (bc_stopped b).
  - destruct H as [[-> H]|(-> & j & Ho & H)]; [left; split; [done|by apply noneOwing_insert]|]. right. split; [done|]. exists j.
    assert (j <> k) as Hne by (intros ->; destruct H as [(? & E & _)|(? & E & _)]; rewrite E in Hk; by injection Hk as <-). split; [|by rewrite lookup_insert_ne].
    intros i x [[_ <-]|[_ Hi]]%lookup_insert_Some; [done|by apply Ho].
  - destruct H as [-> H]. split; [done|by apply noneOwing_insert].
Qed.

Lemma onlyOwing_none ss k c : onlyOwing ss k -> owing c = false -> noneOwing (<[k := c]> ss).
Proof. intros H Hc j x [[_ <-]|[Hne Hj]]%lookup_insert_Some; [done|]. eapply H; [exact Hj|by apply not_eq_sym]. Qed.

Lemma stopBroadcast_fields b b' r : stopBroadcast b = (b', r) -> bc_refs b' = bc_refs b /\ bc_starting b' = bc_starting b /\ bc_stopped b' = true.
Proof. unfold stopBroadcast. destruct (bc_stopped b) eqn:E; by intros [= <- <-]. Qed.

Lemma sharedStep_ok w w' : sharedStep w w' -> shared_ok w -> shared_ok w'.
Proof.
  intros Hs []. destruct Hs as [b ms ss a o dst b' starts Hd E|b ms ss a o err Hst|b ms ss a o dst Hd Hst He|b ms ss a o dst m b' refs Hd Hm E|b ms ss a o dst refs Hd Hr|
    b ms ss a o dst k b' r Hd Hk E|b ms ss a o k b' r Hk E|b ms ss a o k n Hk Hst|b ms ss a o k j n Hk Hj|b ms ss a o k n Hk|b ms ss a o k n Hk|b ms ss a o b' ok E|b ms ss a o err].
  all: cbn [sh_broadcast sh_members sh_stops sh_sourceStops sh_onStopRuns] in *.
  - unfold attachBegin in E. destruct (bc_stopped b) eqn:Hstop; [done|]. injection E as <- <-. constructor; cbn [sh_broadcast sh_members sh_stops sh_sourceStops sh_onStopRuns bc_refs bc_hub bc_stopped bc_starting].
    + rewrite members_insert, Hd. cbn. lia.
    + intros _ x. rewrite elem_of_union, elem_of_singleton, (i_hub0 eq_refl), lookup_insert. case_decide; cbn; naive_solver.
    + case_bool_decide; congruence.
    + intros _. right. left. pose proof (members_nonneg ms). lia.
    + by eapply stopping_starts.
  - constructor; cbn [sh_broadcast sh_members sh_stops sh_sourceStops sh_onStopRuns startEnd bc_refs bc_hub bc_stopped bc_starting]; try done.
    + intros _. apply i_desert0. congruence.
    + by apply stopping_started.
  - constructor; cbn [sh_broadcast sh_members sh_stops sh_sourceStops sh_onStopRuns]; try done.
    + rewrite members_insert, Hd. cbn. lia.
    + intros Hf x. rewrite (i_hub0 Hf), lookup_insert. case_decide; [subst; rewrite Hd|]; done.
    + congruence.
    + intros Hn. destruct (i_desert0 Hn) as [?|[?|[x Hx]]]; [by left|by right; left|]. right. right. exists x. rewrite lookup_insert_ne; [done|congruence].
  - assert (isIn (Some m) = 1) as Him by (by destruct Hm as [-> | ->]). assert (0 < members ms) as Hpos by (eapply members_pos; [exact Hd|by destruct Hm as [-> | ->]]).
    unfold detachBegin in E. rewrite (proj2 (Z.ltb_lt 0 (bc_refs b))) in E by lia. injection E as <- <-.
    constructor; cbn [sh_broadcast sh_members sh_stops sh_sourceStops sh_onStopRuns bc_refs bc_hub bc_stopped bc_starting].
    + rewrite members_insert, Hd, Him. cbn. lia.
    + intros Hf x. rewrite elem_of_difference, elem_of_singleton, (i_hub0 Hf), lookup_insert. case_decide; cbn; naive_solver.
    + intros Hn. rewrite (i_start0 Hn), lookup_empty in Hd. done.
    + intros _. destruct (decide (bc_refs b - 1 = 0)) as [E0|]; [|right; left; lia]. right. right. exists dst. rewrite lookup_insert_eq, E0. done.
    + by eapply stopping_same; [..|exact i_stop0].
  - constructor; cbn [sh_broadcast sh_members sh_stops sh_sourceStops sh_onStopRuns]; try done.
    + rewrite members_insert, Hd. cbn. lia.
    + intros Hf x. rewrite (i_hub0 Hf), lookup_insert. case_decide; [subst; rewrite Hd|]; done.
    + intros Hn. rewrite (i_start0 Hn), lookup_empty in Hd. done.
    + intros Hn. destruct (i_desert0 Hn) as [?|[?|[x Hx]]]; [by left|by right; left|]. right. right. exists x. rewrite lookup_insert_ne; [done|congruence].
  - destruct (stopBroadcast_fields _ _ _ E) as (E1 & E2 & E3). constructor; cbn [sh_broadcast sh_members sh_stops sh_sourceStops sh_onStopRuns]; rewrite ?E1, ?E2, ?E3; try done.
    + rewrite members_insert, Hd. cbn. lia.
    + intros Hn. rewrite (i_start0 Hn), lookup_empty in Hd. done.
    + by left.
    + by eapply stopping_stop.
  - destruct (stopBroadcast_fields _ _ _ E) as (E1 & E2 & E3). constructor; cbn [sh_broadcast sh_members sh_stops sh_sourceStops sh_onStopRuns]; rewrite ?E1, ?E2, ?E3; try done.
    + by left.
    + by eapply stopping_stop.
  - constructor; cbn [sh_broadcast sh_members sh_stops sh_sourceStops sh_onStopRuns]; try done. destruct (stopping_owner _ _ _ _ _ i_stop0 Hk eq_refl) as (Ht & -> & Ho & _).
    unfold stopping. rewrite Ht. right. split; [done|]. exists k. split; [|right; exists n; rewrite lookup_insert_eq; split; [done|congruence]].
    intros i c [[<- _]|[_ Hi]]%lookup_insert_Some Hne; [done|by eapply Ho].
  - constructor; cbn [sh_broadcast sh_members sh_stops sh_sourceStops sh_onStopRuns]; try done. destruct (stopping_owner _ _ _ _ _ i_stop0 Hk eq_refl) as (Ht & -> & Ho & Hn).
    unfold stopping. rewrite Ht. right. split; [done|]. exists j. split; [|left; exists 0; by rewrite lookup_insert_eq].
    apply noneOwing_only. by apply onlyOwing_none.
  - constructor; cbn [sh_broadcast sh_members sh_stops sh_sourceStops sh_onStopRuns]; try done. destruct (stopping_owner _ _ _ _ _ i_stop0 Hk eq_refl) as (Ht & -> & Ho & _).
    unfold stopping. rewrite Ht. left. split; [done|]. by apply onlyOwing_none.
  - constructor; cbn [sh_broadcast sh_members sh_stops sh_sourceStops sh_onStopRuns]; try done. by eapply stopping_idle.
  - unfold AddOnStop in E. destruct (bc_stopped b) eqn:Hf; injection E as <- <-; constructor; cbn [sh_broadcast sh_members sh_stops sh_sourceStops sh_onStopRuns bc_refs bc_hub bc_stopped bc_starting]; rewrite ?Hf; try done.
    eapply stopping_same; [..|exact i_stop0]; done.
  - constructor; cbn [sh_broadcast sh_members sh_stops sh_sourceStops sh_onStopRuns waitEnd bc_refs bc_hub bc_stopped bc_starting]; try done.
Qed.

Lemma shared_reachable_ok onStop w : rtc sharedStep (freshShared onStop) w -> shared_ok w.
Proof. pose proof (freshShared_ok onStop) as H0. induction 1 as [|w1 w2 w3 Hs _ IH]; [done|]. by apply IH, (sharedStep_ok w1). Qed.

(** C20: A broadcast serves exactly its subscribers: the references count those
    that are attached or joining, and until it is stopped its writers are
    theirs; and once subscribers have come and all have gone, it is stopped,
    so that the tuner is given back. *)
Theorem deserted_broadcast_stops onStop w : rtc sharedStep (freshShared onStop) w ->
  bc_refs (sh_broadcast w) = members (sh_members w)
  /\ (bc_stopped (sh_broadcast w) = false -> forall dst, dst ∈ bc_hub (sh_broadcast w) <-> isIn (sh_members w !! dst) = 1)
  /\ (sh_members w <> ∅ -> (forall dst m, sh_members w !! dst = Some m -> m = Left) -> bc_stopped (sh_broadcast w) = true).
Proof.
  intros Hr%shared_reachable_ok. pose proof Hr as []. conjs; [done..|]. intros Hne Hall.
  destruct (i_desert0) as [?|[Hpos|[dst Hd]]]; [intros Hn; by apply Hne, i_start0|done| |by apply Hall in Hd].
  rewrite i_refs0 in Hpos. unfold members in Hpos. replace (filter (fun p => counted p.2 = true) (sh_members w)) with (∅ : gmap Z member) in Hpos; [done|].
  apply map_eq. intros dst. rewrite lookup_empty. symmetry. apply map_lookup_filter_None. right. intros m Hm. apply Hall in Hm as ->. done.
Qed.

(** The source is stopped exactly once when the broadcast is, by one of all
    the [Stop] calls, and never while it is still starting: once stopped,
    either the source has been stopped, or one call is left that will. *)
Theorem source_stops_once onStop w : rtc sharedStep (freshShared onStop) w ->
  (bc_stopped (sh_broadcast w) = false -> sh_sourceStops w = 0)
  /\ (bc_stopped (sh_broadcast w) = true -> (sh_sourceStops w = 1 /\ noneOwing (sh_stops w))
        \/ (sh_sourceStops w = 0 /\ exists k c, sh_stops w !! k = Some c /\ owing c = true /\ onlyOwing (sh_stops w) k))
  /\ (forall k n, sh_stops w !! k = Some (StopsSource n) -> bc_starting (sh_broadcast w) <> StartOpen).
Proof.
  intros Hr%shared_reachable_ok. pose proof (i_stop w Hr) as H. conjs.
  - intros Hf. unfold stopping in H. rewrite Hf in H. by destruct H.
  - intros Ht. unfold stopping in H. rewrite Ht in H. destruct H as [?|(Ha & k & Ho & H)]; [by left|right]. split; [done|].
    destruct H as [(n & E & _)|(n & E & _)]; by eexists k, _.
  - intros k n Hk. by destruct (stopping_owner _ _ _ _ _ H Hk eq_refl) as (_ & _ & _ & ?).
Qed.

(** Two subscribers come and go; the second one stops the source. *)
Definition demoShared : shared := mkShared
  (mkBroadcast 0 ∅ 0 StartClosed None true true None) {[1 := Left; 2 := Left]} {[0%nat := StopsSource 1]} 0 0.

Lemma demoShared_run : rtc sharedStep (freshShared true) demoShared.
Proof.
  eapply rtc_l; [eapply (h_attach _ _ _ _ _ 1); vm_compute; reflexivity|].
  eapply rtc_l; [eapply (h_attach _ _ _ _ _ 2); vm_compute; reflexivity|].
  eapply rtc_l; [apply (h_started _ _ _ _ _ None); vm_compute; reflexivity|].
  eapply rtc_l; [apply (h_joined _ _ _ _ _ 1); vm_compute; reflexivity|].
  eapply rtc_l; [eapply (h_detach _ _ _ _ _ 1 Attached); [vm_compute; reflexivity|by right|vm_compute; reflexivity]|].
  eapply rtc_l; [eapply (h_leaves _ _ _ _ _ 1 1); [vm_compute; reflexivity|done]|].
  eapply rtc_l; [eapply (h_detach _ _ _ _ _ 2 Joins); [vm_compute; reflexivity|by left|vm_compute; reflexivity]|].
  eapply rtc_l; [eapply (h_lastLeaves _ _ _ _ _ 2 0); vm_compute; reflexivity|].
  eapply rtc_l; [eapply (h_startSeen _ _ _ _ _ 0 1); vm_compute; reflexivity|].
  match goal with |- rtc _ ?a ?b => replace a with b; [constructor|vm_compute; reflexivity] end.
Qed.

Lemma deserted_broadcast_stops_witness : members (sh_members demoShared) = 0 /\ bc_refs (sh_broadcast demoShared) = members (sh_members demoShared).
Proof. split; [vm_compute; reflexivity|]. apply (deserted_broadcast_stops true demoShared demoShared_run). Defined.

Lemma source_stops_once_witness : bc_stopped (sh_broadcast demoShared) = true /\
  ((sh_sourceStops demoShared = 1 /\ noneOwing (sh_stops demoShared))
    \/ (sh_sourceStops demoShared = 0 /\ exists k c, sh_stops demoShared !! k = Some c /\ owing c = true /\ onlyOwing (sh_stops demoShared) k)).
Proof. split; [vm_compute; reflexivity|]. apply (source_stops_once true demoShared demoShared_run). vm_compute; reflexivity. Defined.
