(* ===== verification/Routes.v ===== *)
(** * Routes to an input (internal/stream/source: pool.go, route_source.go)

    A channel has routes, each to a tuner type of this machine or to another
    server, with priorities.  [Acquire] tries the enabled routes in order; a
    route of this machine whose broadcast is running is shared, and otherwise
    one request at a time acquires a tuner for it.

    Whether another server or the tuner pool can serve a route is outside, and
    the text of the command variables in a key is opaque. *)

From stdpp Require Import strings.
From S2P Require Import Prelude AgentHub TunerPool TunerSharing.

(** ** Configuration (internal/config/channel.go) *)

Record ChannelRouteConfig := mkRoute {
  rc_Id : string;
  rc_Remote : string;
  rc_Type : string;
  rc_Channel : string;
  rc_ServiceId : option Z;
  rc_TsmfRelTs : option Z;
  rc_CommandVars : string;
  rc_IsDisabled : option bool;
  rc_Priority : option Z
}.

Record routedChannel := mkRouted {
  ch_Name : string;
  ch_Type : string;
  ch_Channel : string;
  ch_ServiceId : option Z;
  ch_TsmfRelTs : option Z;
  ch_CommandVars : string;
  ch_Transport : string;
  ch_IsDisabled : option bool;
  ch_Routes : list ChannelRouteConfig
}.

Definition isTrue (b : option bool) : bool := match b with Some b => b | None => false end.

Definition IsChannelDisabled (c : routedChannel) : bool := isTrue (ch_IsDisabled c).
Definition IsTLVTransport (c : routedChannel) : bool := bool_decide (ch_Transport c = "tlv"%string).

Definition RouteChannelConfig (c : routedChannel) (r : ChannelRouteConfig) : routedChannel :=
  mkRouted (ch_Name c) (rc_Type r) (rc_Channel r) (rc_ServiceId r) (rc_TsmfRelTs r) (rc_CommandVars r) (ch_Transport c) (rc_IsDisabled r) [].

Definition RoutesOrDefault (c : routedChannel) : list ChannelRouteConfig :=
  match ch_Routes c with
  | [] => [mkRoute "default" EmptyString (ch_Type c) (ch_Channel c) (ch_ServiceId c) (ch_TsmfRelTs c) (ch_CommandVars c) (ch_IsDisabled c) None]
  | routes => routes
  end.

(** ** Choosing a route *)

Fixpoint findChannel (channels : list routedChannel) (channelType channel : string) : option routedChannel :=
  match channels with
  | [] => None
  | c :: channels =>
      if bool_decide (ch_Type c = channelType) && bool_decide (ch_Channel c = channel) && negb (IsChannelDisabled c) then Some c
      else findChannel channels channelType channel
  end.

Definition routePriority (r : ChannelRouteConfig) : Z := default 0 (rc_Priority r).

Definition sortRoutes (l : list ChannelRouteConfig) : list ChannelRouteConfig := sortStable routePriority l.

Definition enabledRoutes (routes : list ChannelRouteConfig) : list ChannelRouteConfig :=
  sortRoutes (filter (fun r => isTrue (rc_IsDisabled r) = false) routes).

Definition IsTLVChannel (channels : list routedChannel) (channelType channel : string) : bool :=
  match findChannel channels channelType channel with Some c => IsTLVTransport c | None => false end.

Definition StoredEPG (channels : list routedChannel) (channelType channel : string) : bool :=
  match findChannel channels channelType channel with
  | None => false
  | Some c =>
      if IsChannelDisabled c || IsTLVTransport c then false
      else let routes := enabledRoutes (RoutesOrDefault c) in
           if bool_decide (routes = []) then false else forallb (fun r => bool_decide (rc_Remote r <> EmptyString)) routes
  end.

(** [descramblerCommand]; the two commands of the tuner manager by type are its
    own functions, when it has them. *)
Definition descramblerCommand (tlv : bool) (decoders : DecoderCommands) (byType b61ByType : option (string -> string)) (routeType : string) : string :=
  let ask (f : option (string -> string)) := match f with Some f => f routeType | None => EmptyString end in
  if tlv then
    if dc_AgentB61Decoder decoders then EmptyString
    else if bool_decide (dc_B61Decoder decoders <> EmptyString) then dc_B61Decoder decoders else ask b61ByType
  else
    if dc_AgentDecoder decoders then EmptyString
    else if bool_decide (dc_Decoder decoders <> EmptyString) then dc_Decoder decoders else ask byType.

(** One turn of [selectRoute] over the routes: [attempt] is the answer of
    [tryRoute]; the last error and whether one was "unavailable". *)
Fixpoint tryRoutes {A} (attempt : ChannelRouteConfig -> A + error) (routes : list ChannelRouteConfig) (lastErr : option error) (unavailable : bool) :
    A + (option error * bool) :=
  match routes with
  | [] => inr (lastErr, unavailable)
  | r :: routes =>
      match attempt r with
      | inl selected => inl selected
      | inr err => tryRoutes attempt routes (Some err) (unavailable || bool_decide (err = ErrTunerUnavailable))
      end
  end.

(** The outcome of a turn: a selection, an error, or another turn later. *)
Inductive selection (A : Type) : Type :=
  | Selected (a : A)
  | SelectFailed (err : error)
  | SelectRetry.
Arguments Selected {A} _.
Arguments SelectFailed {A} _.
Arguments SelectRetry {A}.

Definition selectTurn {A} (attempt : ChannelRouteConfig -> A + error) (routes : list ChannelRouteConfig) (wait : bool) : selection A :=
  match tryRoutes attempt routes None false with
  | inl a => Selected a
  | inr (lastErr, unavailable) =>
      if negb wait || negb unavailable then SelectFailed (default ErrChannelNotFound lastErr) else SelectRetry
  end.

(** [tryRemoteRoute] and [CheckAvailable] ask the client of the route's server,
    if there is one. *)
Definition tryRemoteRoute (client : option (ChannelRouteConfig -> option error)) (r : ChannelRouteConfig) : ChannelRouteConfig + error :=
  match client with
  | None => inr ErrTunerNotFound
  | Some check => match check r with Some err => inr err | None => inl r end
  end.

(** [running] says that the route's broadcast is registered, [tuner] is the
    answer of the tuner pool, [None] when it cannot be asked. *)
Fixpoint checkRoutes (clients : string -> option (ChannelRouteConfig -> option error)) (running : ChannelRouteConfig -> bool)
    (tuner : option (string -> option error)) (routes : list ChannelRouteConfig) (lastErr : option error) : option error :=
  match routes with
  | [] => Some (default ErrChannelNotFound lastErr)
  | r :: routes =>
      if bool_decide (rc_Remote r <> EmptyString) then
        match tryRemoteRoute (clients (rc_Remote r)) r with
        | inl _ => None
        | inr err => checkRoutes clients running tuner routes (Some err)
        end
      else if running r then None
      else match tuner with
           | None => None
           | Some check => match check (rc_Type r) with None => None | Some err => checkRoutes clients running tuner routes (Some err) end
           end
  end.

Definition RoutesAvailable (channels : list routedChannel) (clients : string -> option (ChannelRouteConfig -> option error))
    (running : ChannelRouteConfig -> bool) (tuner : option (string -> option error)) (channelType channel : string) : option error :=
  match findChannel channels channelType channel with
  | None => Some ErrChannelNotFound
  | Some c => checkRoutes clients running tuner (enabledRoutes (RoutesOrDefault c)) None
  end.

(** ** Shared sources of routes (route_source.go) *)

Record routeSourceKey := mkRouteKey {
  rk_remote : string;
  rk_typ : string;
  rk_channel : string;
  rk_serviceID : option Z;
  rk_tsmfRelTS : option Z;
  rk_commandVars : string
}.

#[export] Instance routeSourceKey_eq_dec : EqDecision routeSourceKey.
Proof. solve_decision. Defined.
#[export] Instance routeSourceKey_countable : Countable routeSourceKey.
Proof.
  apply (inj_countable' (fun k => (rk_remote k, rk_typ k, rk_channel k, rk_serviceID k, rk_tsmfRelTS k, rk_commandVars k))
    (fun '(a, b, c, d, e, f) => mkRouteKey a b c d e f)). by intros [].
Defined.

Definition newRouteSourceKey (r : ChannelRouteConfig) : routeSourceKey :=
  mkRouteKey (rc_Remote r) (rc_Type r) (rc_Channel r) (rc_ServiceId r) (rc_TsmfRelTs r) (rc_CommandVars r).

(** The maps of [Pool]; a broadcast and a channel are numbers. *)
Record routePool := mkPool {
  rp_sources : gmap routeSourceKey Z;
  rp_creates : gmap routeSourceKey Z;
  rp_closed : gset Z
}.

Inductive beginResult : Type :=
  | SharedSource (b : Z)
  | OtherCreates (c : Z)
  | OwnCreate (c : Z).

Definition beginRouteSourceCreate (p : routePool) (key : routeSourceKey) (c : Z) : routePool * beginResult :=
  match rp_sources p !! key with
  | Some b => (p, SharedSource b)
  | None => match rp_creates p !! key with
            | Some x => (p, OtherCreates x)
            | None => (mkPool (rp_sources p) (<[key := c]> (rp_creates p)) (rp_closed p), OwnCreate c)
            end
  end.

Definition finishCreate (p : routePool) (key : routeSourceKey) (c : Z) : routePool :=
  if bool_decide (rp_creates p !! key = Some c) then mkPool (rp_sources p) (delete key (rp_creates p)) (rp_closed p ∪ {[c]}) else p.

Definition commitRouteSource (p : routePool) (key : routeSourceKey) (b : Z) : routePool * Z :=
  match rp_sources p !! key with
  | Some shared => (p, shared)
  | None => (mkPool (<[key := b]> (rp_sources p)) (rp_creates p) (rp_closed p), b)
  end.

Definition removeRouteSource (p : routePool) (key : routeSourceKey) : routePool :=
  mkPool (delete key (rp_sources p)) (rp_creates p) (rp_closed p).

(** ** The order of the routes *)

Lemma enabledRoutes_spec routes :
  enabledRoutes routes ≡ₚ filter (fun r => isTrue (rc_IsDisabled r) = false) routes /\ StronglySorted (byKey routePriority) (enabledRoutes routes)
  /\ forall p, filter (fun x => routePriority x = p) (enabledRoutes routes)
     = filter (fun x => routePriority x = p) (filter (fun r => isTrue (rc_IsDisabled r) = false) routes).
Proof. apply (sortStable_spec routePriority). Qed.

Lemma enabledRoutes_elem routes r : r ∈ enabledRoutes routes <-> r ∈ routes /\ isTrue (rc_IsDisabled r) = false.
Proof. pose proof (proj1 (enabledRoutes_spec routes)) as E. rewrite (elem_of_Permutation_proper _ _ _ E), list_elem_of_filter. tauto. Qed.

Lemma tryRoutes_spec {A} (attempt : ChannelRouteConfig -> A + error) routes : forall lastErr unavailable,
  match tryRoutes attempt routes lastErr unavailable with
  | inl a => exists before r after, routes = before ++ r :: after /\ attempt r = inl a /\ Forall (fun x => exists e, attempt x = inr e) before
  | inr (last, unavail) => Forall (fun x => exists e, attempt x = inr e) routes
      /\ (unavail = true <-> unavailable = true \/ Exists (fun x => attempt x = inr ErrTunerUnavailable) routes)
      /\ (routes = [] -> last = lastErr) /\ (routes <> [] -> exists r e, list.last routes = Some r /\ attempt r = inr e /\ last = Some e)
  end.
Proof.
  induction routes as [|r routes IH]; intros lastErr unavailable; cbn [tryRoutes].
  { rewrite Exists_nil. conjs; [done|tauto|done|done]. }
  destruct (attempt r) as [a|e] eqn:E.
  { exists [], r, routes. done. }
  specialize (IH (Some e) (unavailable || bool_decide (e = ErrTunerUnavailable))). destruct (tryRoutes _ _ _ _) as [a|[last unavail]].
  - destruct IH as (before & x & after & -> & Hx & Hb). exists (r :: before), x, after. conjs; [done..|]. constructor; [by exists e|done].
  - destruct IH as (H1 & H2 & H3 & H4). conjs; [constructor; [by exists e|done]| |done|].
    + rewrite H2, Exists_cons, orb_true_iff, bool_decide_eq_true, E. naive_solver.
    + intros _. destruct routes as [|y routes]; [|destruct H4 as (z & e' & Hz & He & ->); [done|]; by exists z, e'].
      rewrite H3 by done. exists r, e. done.
Qed.

(** C19: A turn of [selectRoute] takes an enabled route that works of the lowest
    priority number, the first of them in the configuration; it fails or tries
    again only when no enabled route works, and again only when it may wait and
    some route was just unavailable.  A failure is that of the route tried last,
    the last in the configuration of those with the highest priority number, or
    not found without enabled routes. *)
Theorem best_route_is_selected {A} (attempt : ChannelRouteConfig -> A + error) routes wait :
  match selectTurn attempt (enabledRoutes routes) wait with
  | Selected a => exists r, r ∈ routes /\ isTrue (rc_IsDisabled r) = false /\ attempt r = inl a
      /\ (forall r' a', r' ∈ routes -> isTrue (rc_IsDisabled r') = false -> attempt r' = inl a' -> routePriority r <= routePriority r')
      /\ exists before after, filter (fun x => routePriority x = routePriority r) (filter (fun x => isTrue (rc_IsDisabled x) = false) routes) = before ++ r :: after
           /\ Forall (fun x => exists e, attempt x = inr e) before
  | SelectFailed err => (forall r a, r ∈ routes -> isTrue (rc_IsDisabled r) = false -> attempt r <> inl a)
      /\ (wait = false \/ forall r, r ∈ routes -> isTrue (rc_IsDisabled r) = false -> attempt r <> inr ErrTunerUnavailable)
      /\ ((err = ErrChannelNotFound /\ forall r, r ∈ routes -> isTrue (rc_IsDisabled r) = true)
          \/ exists r, r ∈ routes /\ isTrue (rc_IsDisabled r) = false /\ attempt r = inr err
               /\ (forall r', r' ∈ routes -> isTrue (rc_IsDisabled r') = false -> routePriority r' <= routePriority r)
               /\ last (filter (fun x => routePriority x = routePriority r) (filter (fun x => isTrue (rc_IsDisabled x) = false) routes)) = Some r)
  | SelectRetry => (forall r a, r ∈ routes -> isTrue (rc_IsDisabled r) = false -> attempt r <> inl a) /\ wait = true
      /\ exists r, r ∈ routes /\ isTrue (rc_IsDisabled r) = false /\ attempt r = inr ErrTunerUnavailable
  end.
Proof.
  destruct (enabledRoutes_spec routes) as (_ & Hsorted & Hstable). pose proof (enabledRoutes_elem routes) as Hel.
  unfold selectTurn. pose proof (tryRoutes_spec attempt (enabledRoutes routes) None false) as H. destruct (tryRoutes _ _ _ _) as [a|[last unavail]].
  - destruct H as (before & r & after & E & Hr & Hb). assert (r ∈ enabledRoutes routes) as [Hin Hen]%Hel by (rewrite E; set_solver).
    exists r. conjs; try done.
    + intros r' a' Hin' Hen' Hr'. assert (r' ∈ enabledRoutes routes) as Hx by (by apply Hel). rewrite E in Hx, Hsorted.
      apply elem_of_app in Hx as [Hx|[-> |Hx]%elem_of_cons]; [|lia|].
      * rewrite Forall_forall in Hb. destruct (Hb r' Hx). congruence.
      * apply StronglySorted_app_1_r in Hsorted. apply StronglySorted_inv in Hsorted as [_ Hall]. rewrite Forall_forall in Hall. exact (Hall r' Hx).
    + exists (filter (fun x => routePriority x = routePriority r) before), (filter (fun x => routePriority x = routePriority r) after).
      rewrite <- Hstable, E, filter_app, filter_cons_True by done. split; [done|]. apply Forall_forall. intros x [_ Hx]%list_elem_of_filter. rewrite Forall_forall in Hb. by apply Hb.
  - destruct H as (Hall & Hu & Hnil & Hlast). assert (forall r a, r ∈ routes -> isTrue (rc_IsDisabled r) = false -> attempt r <> inl a) as Hno.
    { intros r a Hin Hen Ha. rewrite Forall_forall in Hall. destruct (Hall r) as [e He]; [by apply Hel|congruence]. }
    assert (unavail = true <-> exists r, r ∈ routes /\ isTrue (rc_IsDisabled r) = false /\ attempt r = inr ErrTunerUnavailable) as Hu'.
    { rewrite Hu, Exists_exists. setoid_rewrite Hel. split; [intros [|(r & [? ?] & ?)]; [done|by exists r]|intros (r & ? & ? & ?); right; by exists r]. }
    assert ((default ErrChannelNotFound last = ErrChannelNotFound /\ forall r, r ∈ routes -> isTrue (rc_IsDisabled r) = true)
      \/ exists r, r ∈ routes /\ isTrue (rc_IsDisabled r) = false /\ attempt r = inr (default ErrChannelNotFound last)
           /\ (forall r', r' ∈ routes -> isTrue (rc_IsDisabled r') = false -> routePriority r' <= routePriority r)
           /\ list.last (filter (fun x => routePriority x = routePriority r) (filter (fun x => isTrue (rc_IsDisabled x) = false) routes)) = Some r) as Herr.
    { destruct (enabledRoutes routes) as [|x l] eqn:E.
      - left. rewrite Hnil by done. split; [done|]. intros r Hr. destruct (isTrue (rc_IsDisabled r)) eqn:Hd; [done|]. assert (r ∈ []) as Hx by (by apply Hel). by apply not_elem_of_nil in Hx.
      - right. destruct Hlast as (r & e & Hr & He & ->); [done|]. exists r. apply last_Some in Hr as [l' Hr]. destruct (proj1 (Hel r)) as [? ?]; [rewrite Hr; set_solver|]. conjs; try done.
        + intros r' Hin' Hen'. assert (r' ∈ x :: l) as Hx by (by apply Hel). rewrite Hr in Hx, Hsorted. apply elem_of_app in Hx as [Hx| ->%list_elem_of_singleton]; [|lia]. apply (StronglySorted_app_1_elem_of _ l' [r] r' r) in Hsorted; [exact Hsorted|done|left].
        + rewrite <- Hstable, Hr, filter_app, filter_cons_True, filter_nil by done. by rewrite last_snoc. }
    destruct wait; cbn [negb orb]; [|conjs; [done|by left|done]]. destruct unavail; cbn [negb].
    + conjs; [done..|]. by apply Hu'.
    + conjs; [done| |done]. right. intros r Hin Hen Ha. by assert (false = true) by (apply Hu'; by exists r).
Qed.

(** ** Checking the routes *)

Definition routeReady (clients : string -> option (ChannelRouteConfig -> option error)) (running : ChannelRouteConfig -> bool)
    (tuner : option (string -> option error)) (r : ChannelRouteConfig) : Prop :=
  if bool_decide (rc_Remote r <> EmptyString) then exists check, clients (rc_Remote r) = Some check /\ check r = None
  else running r = true \/ tuner = None \/ exists check, tuner = Some check /\ check (rc_Type r) = None.

Lemma checkRoutes_iff clients running tuner routes : forall lastErr,
  checkRoutes clients running tuner routes lastErr = None <-> Exists (routeReady clients running tuner) routes.
Proof.
  induction routes as [|r routes IH]; intros lastErr; cbn [checkRoutes]; [by rewrite Exists_nil|]. rewrite Exists_cons. unfold routeReady at 1.
  destruct (bool_decide (rc_Remote r <> EmptyString)).
  - unfold tryRemoteRoute. destruct (clients (rc_Remote r)) as [check|]; [destruct (check r) eqn:E|]; rewrite ?IH; naive_solver.
  - destruct (running r); [naive_solver|]. destruct tuner as [check|]; [|naive_solver]. destruct (check (rc_Type r)) eqn:E; rewrite ?IH; naive_solver.
Qed.

(** The tuner pool, asked on behalf of a request. *)
Definition poolCheck (tm : Manager) (priority : Z) (channelType : string) : option error :=
  match CheckAvailable tm channelType priority with Err e => Some e | _ => None end.

(** [CheckAvailable] of the routes keeps its word: when it answers nil for a
    channel, some enabled route of it can be had now: another server accepts
    it, its broadcast is running, or [AcquireDevice] on the tuner pool gets a
    tuner or a victim for it at once. *)
Theorem available_channel_can_be_had channels clients running tm priority channelType channel id requested tuned wait : pool_ok tm ->
  RoutesAvailable channels clients running (Some (poolCheck tm priority)) channelType channel = None ->
  exists c r, findChannel channels channelType channel = Some c /\ r ∈ RoutesOrDefault c /\ isTrue (rc_IsDisabled r) = false /\
    if bool_decide (rc_Remote r <> EmptyString) then exists check, clients (rc_Remote r) = Some check /\ check r = None
    else running r = true \/ returns (acquireDeviceTurn tm id (rc_Type r) priority requested tuned wait)
           (fun '(_, next) => match next with Acquired _ _ | GrabFrom _ _ => True | _ => False end).
Proof.
  intros Hok. unfold RoutesAvailable. destruct (findChannel channels channelType channel) as [c|]; [|done].
  rewrite checkRoutes_iff, Exists_exists. intros (r & [Hin Hen]%enabledRoutes_elem & Hr). exists c, r. conjs; try done.
  unfold routeReady in Hr. destruct (bool_decide _); [done|]. destruct Hr as [?|[?|(check & [= <-] & Hr)]]; [by left|done|right].
  destruct (check_predicts_acquire tm id (rc_Type r) priority requested tuned wait Hok) as ([tm' next] & E & Hc). exists (tm', next). split; [done|].
  unfold poolCheck in Hr. rewrite Hc in Hr. by destruct next.
Qed.

Definition demoRoute (remote : string) (priority : option Z) : ChannelRouteConfig := mkRoute EmptyString remote "GR" "27" None None EmptyString None priority.
Definition demoChannel : routedChannel := mkRouted "NHK" "GR" "27" None None EmptyString "ts" None [demoRoute "other" (Some 1); demoRoute EmptyString None].

Definition noClients : string -> option (ChannelRouteConfig -> option error) := fun _ => None.
Definition noneRunning : ChannelRouteConfig -> bool := fun _ => false.

Lemma available_channel_can_be_had_witness :
  enabledRoutes (RoutesOrDefault demoChannel) = [demoRoute EmptyString None; demoRoute "other" (Some 1)] /\
  exists c r, findChannel [demoChannel] "GR" "27" = Some c /\ r ∈ RoutesOrDefault c /\ isTrue (rc_IsDisabled r) = false /\
    if bool_decide (rc_Remote r <> EmptyString) then exists check, noClients (rc_Remote r) = Some check /\ check r = None
    else noneRunning r = true \/ returns (acquireDeviceTurn demoPool3 3 (rc_Type r) 0 None None true)
           (fun '(_, next) => match next with Acquired _ _ | GrabFrom _ _ => True | _ => False end).
Proof.
  split; [vm_compute; reflexivity|].
  apply (available_channel_can_be_had [demoChannel] noClients noneRunning demoPool3 0 "GR" "27" 3 None None true demoPool3_ok).
  vm_compute. reflexivity.
Defined.

(** ** One tuner per route *)

(** A request for a route of this machine: before the pool's lock, waiting for
    another's creation, acquiring a tuner as the owner of a creation, about to
    finish it, done. *)
Inductive routeStage : Type :=
  | Begins
  | WaitsFor (c : Z)
  | Acquires (c : Z)
  | Finishes (c : Z) (result : option Z)
  | Ends (result : option Z).

(** A broadcast of a route: whether its [onStop] has removed it. *)
Record routedBroadcast := mkRoutedBroadcast {
  rb_key : routeSourceKey;
  rb_removed : bool
}.

Record routing := mkRouting {
  ro_pool : routePool;
  ro_requests : gmap nat (routeSourceKey * routeStage);
  ro_broadcasts : gmap Z routedBroadcast;
  ro_next : Z
}.

Definition stageOf (r : beginResult) : routeStage :=
  match r with SharedSource b => Ends (Some b) | OtherCreates c => WaitsFor c | OwnCreate c => Acquires c end.

Inductive routingStep : routing -> routing -> Prop :=
  | g_request p rs bs n k key : rs !! k = None -> routingStep (mkRouting p rs bs n) (mkRouting p (<[k := (key, Begins)]> rs) bs n)
  | g_begin p rs bs n k key p' r : rs !! k = Some (key, Begins) -> beginRouteSourceCreate p key n = (p', r) ->
      routingStep (mkRouting p rs bs n) (mkRouting p' (<[k := (key, stageOf r)]> rs) bs (n + 1))
  | g_woken p rs bs n k key c : rs !! k = Some (key, WaitsFor c) -> c ∈ rp_closed p ->
      routingStep (mkRouting p rs bs n) (mkRouting p (<[k := (key, Begins)]> rs) bs n)
  | g_canceled p rs bs n k key c : rs !! k = Some (key, WaitsFor c) -> routingStep (mkRouting p rs bs n) (mkRouting p (<[k := (key, Ends None)]> rs) bs n)
  | g_refused p rs bs n k key c : rs !! k = Some (key, Acquires c) -> routingStep (mkRouting p rs bs n) (mkRouting p (<[k := (key, Finishes c None)]> rs) bs n)
  | g_commit p rs bs n k key c b p' x : rs !! k = Some (key, Acquires c) -> bs !! b = None -> commitRouteSource p key b = (p', x) ->
      routingStep (mkRouting p rs bs n) (mkRouting p' (<[k := (key, Finishes c (Some x))]> rs) (<[b := mkRoutedBroadcast key false]> bs) n)
  | g_finish p rs bs n k key c res : rs !! k = Some (key, Finishes c res) ->
      routingStep (mkRouting p rs bs n) (mkRouting (finishCreate p key c) (<[k := (key, Ends res)]> rs) bs n)
  | g_onStop p rs bs n b key : bs !! b = Some (mkRoutedBroadcast key false) ->
      routingStep (mkRouting p rs bs n) (mkRouting (removeRouteSource p key) rs (<[b := mkRoutedBroadcast key true]> bs) n).

Definition freshRouting : routing := mkRouting (mkPool ∅ ∅ ∅) ∅ ∅ 0.

(** The creation that a request owns. *)
Definition owned (st : routeStage) : option Z := match st with Acquires c | Finishes c _ => Some c | _ => None end.

Record routing_ok (w : routing) : Prop := {
  q_sources : forall key b, rp_sources (ro_pool w) !! key = Some b <-> ro_broadcasts w !! b = Some (mkRoutedBroadcast key false);
  q_creates : forall key c, rp_creates (ro_pool w) !! key = Some c -> exists k st, ro_requests w !! k = Some (key, st) /\ owned st = Some c;
  q_owned : forall k key st c, ro_requests w !! k = Some (key, st) -> owned st = Some c -> rp_creates (ro_pool w) !! key = Some c;
  q_acquires : forall k key c, ro_requests w !! k = Some (key, Acquires c) -> rp_sources (ro_pool w) !! key = None;
  q_unique : forall k1 k2 key st1 st2, ro_requests w !! k1 = Some (key, st1) -> ro_requests w !! k2 = Some (key, st2) ->
    is_Some (owned st1) -> is_Some (owned st2) -> k1 = k2;
  q_waits : forall k key c, ro_requests w !! k = Some (key, WaitsFor c) -> c ∈ rp_closed (ro_pool w) \/ rp_creates (ro_pool w) !! key = Some c;
  q_fresh : forall key c, rp_creates (ro_pool w) !! key = Some c -> c < ro_next w
}.

Lemma freshRouting_ok : routing_ok freshRouting.
Proof. constructor; cbn; intros *; rewrite ?lookup_empty; try done. Qed.

(** A request without a creation goes to a stage without one. *)
Lemma routing_move p rs bs n n' k key st st' : routing_ok (mkRouting p rs bs n) -> rs !! k = Some (key, st) -> owned st = None -> owned st' = None -> n <= n' ->
  (forall c, st' = WaitsFor c -> rp_creates p !! key = Some c) -> routing_ok (mkRouting p (<[k := (key, st')]> rs) bs n').
Proof.
  intros [] Hk Hst Hst' Hn Hw. cbn [ro_pool ro_requests ro_broadcasts ro_next] in *. constructor; cbn [ro_pool ro_requests ro_broadcasts ro_next]; try done.
  - intros x c Hc. destruct (q_creates0 x c Hc) as (j & sj & Hj & Ho). exists j, sj. rewrite lookup_insert_ne; [done|]. intros <-. rewrite Hk in Hj. injection Hj as <- <-. congruence.
  - intros j x sj c [[<- [= <- <-]]|[_ Hj]]%lookup_insert_Some Ho; [congruence|by eapply q_owned0].
  - intros j x c [[<- [= <- ->]]|[_ Hj]]%lookup_insert_Some; [done|by eapply q_acquires0].
  - intros j1 j2 x s1 s2 [[<- [= <- <-]]|[_ H1]]%lookup_insert_Some [[<- E]|[_ H2]]%lookup_insert_Some Ho1 Ho2; [done|by destruct Ho1; congruence| |by eapply q_unique0].
    injection E as <- <-. by destruct Ho2; congruence.
  - intros j x c [[<- [= <- ->]]|[_ Hj]]%lookup_insert_Some; [right; by apply Hw|by eapply q_waits0].
  - intros x c Hc%q_fresh0. lia.
Qed.

(** A request keeps its creation. *)
Lemma routing_keep p rs bs n k key st st' c : routing_ok (mkRouting p rs bs n) -> rs !! k = Some (key, st) -> owned st = Some c -> owned st' = Some c ->
  (forall x, st' = Acquires x -> rp_sources p !! key = None) -> routing_ok (mkRouting p (<[k := (key, st')]> rs) bs n).
Proof.
  intros [] Hk Hst Hst' Hacq. cbn [ro_pool ro_requests ro_broadcasts ro_next] in *. constructor; cbn [ro_pool ro_requests ro_broadcasts ro_next]; try done.
  - intros x y Hc. destruct (q_creates0 x y Hc) as (j & sj & Hj & Ho). destruct (decide (j = k)) as [-> |Hne].
    + rewrite Hk in Hj. injection Hj as <- <-. exists k, st'. rewrite lookup_insert_eq. split; [done|congruence].
    + exists j, sj. by rewrite lookup_insert_ne.
  - intros j x sj y [[<- [= <- <-]]|[_ Hj]]%lookup_insert_Some Ho; [|by eapply q_owned0]. eapply q_owned0; [exact Hk|congruence].
  - intros j x y [[<- [= <- E]]|[_ Hj]]%lookup_insert_Some; [by eapply Hacq|by eapply q_acquires0].
  - intros j1 j2 x s1 s2 [[<- [= <- <-]]|[_ H1]]%lookup_insert_Some [[<- E]|[_ H2]]%lookup_insert_Some Ho1 Ho2; [done| | |by eapply q_unique0].
    + by eapply q_unique0; [exact Hk|exact H2|rewrite Hst|].
    + injection E as <- <-. by eapply q_unique0; [exact H1|exact Hk| |rewrite Hst].
  - intros j x y [[<- [= <- ->]]|[_ Hj]]%lookup_insert_Some; [done|by eapply q_waits0].
Qed.

(** A broadcast is registered for a route that nobody acquires a tuner for. *)
Lemma routing_commit p rs bs n key b : routing_ok (mkRouting p rs bs n) -> rp_sources p !! key = None -> bs !! b = None ->
  (forall j y, rs !! j <> Some (key, Acquires y)) ->
  routing_ok (mkRouting (mkPool (<[key := b]> (rp_sources p)) (rp_creates p) (rp_closed p)) rs (<[b := mkRoutedBroadcast key false]> bs) n).
Proof.
  intros [] Hs Hb Hno. cbn [ro_pool ro_requests ro_broadcasts ro_next] in *. constructor; cbn [ro_pool ro_requests ro_broadcasts ro_next rp_sources rp_creates rp_closed]; try done.
  - intros x y. destruct (decide (y = b)) as [-> |Hne].
    + rewrite lookup_insert_eq. split; [intros [[<- _]|[Hne Hx]]%lookup_insert_Some; [done|]|intros [= ->]; apply lookup_insert_eq]. apply q_sources0 in Hx. congruence.
    + rewrite (lookup_insert_ne bs) by done. rewrite <- q_sources0. destruct (decide (x = key)) as [-> |Hnx]; [|by rewrite lookup_insert_ne].
      rewrite lookup_insert_eq, Hs. split; [congruence|done].
  - intros j x y Hj. rewrite lookup_insert_ne; [by eapply q_acquires0|]. intros <-. by apply (Hno j y).
Qed.

Lemma routing_finish p rs bs n k key c res : routing_ok (mkRouting p rs bs n) -> rs !! k = Some (key, Finishes c res) ->
  routing_ok (mkRouting (finishCreate p key c) (<[k := (key, Ends res)]> rs) bs n).
Proof.
  intros [] Hk. cbn [ro_pool ro_requests ro_broadcasts ro_next] in *. pose proof (q_owned0 k key _ c Hk eq_refl) as Hc. unfold finishCreate. rewrite bool_decide_eq_true_2 by done.
  constructor; cbn [ro_pool ro_requests ro_broadcasts ro_next rp_sources rp_creates rp_closed]; try done.
  - intros x y [Hne Hx]%lookup_delete_Some. destruct (q_creates0 x y Hx) as (j & sj & Hj & Ho). exists j, sj. rewrite lookup_insert_ne; [done|]. congruence.
  - intros j x sj y [[<- [= <- <-]]|[Hne Hj]]%lookup_insert_Some Ho; [done|]. rewrite lookup_delete_ne; [by eapply q_owned0|]. intros <-.
    by apply Hne, (q_unique0 k j key (Finishes c res) sj).
  - intros j x y [[_ [=]]|[_ Hj]]%lookup_insert_Some. by eapply q_acquires0.
  - intros j1 j2 x s1 s2 [[<- [= <- <-]]|[_ H1]]%lookup_insert_Some [[<- E]|[_ H2]]%lookup_insert_Some Ho1 Ho2; [done|by destruct Ho1| |by eapply q_unique0].
    injection E as <- <-. by destruct Ho2.
  - intros j x y [[_ [=]]|[_ Hj]]%lookup_insert_Some. destruct (q_waits0 j x y Hj) as [?|Hy]; [left; set_solver|]. destruct (decide (x = key)) as [-> |Hne].
    + left. assert (y = c) as -> by congruence. set_solver.
    + right. by rewrite lookup_delete_ne.
  - intros x y [_ Hx]%lookup_delete_Some. by eapply q_fresh0.
Qed.

Lemma routingStep_ok w w' : routingStep w w' -> routing_ok w -> routing_ok w'.
Proof.
  intros Hs Hok. pose proof Hok as []. destruct Hs as [p rs bs n k key Hk|p rs bs n k key p' r Hk E|p rs bs n k key c Hk Hc|p rs bs n k key c Hk|p rs bs n k key c Hk|
    p rs bs n k key c b p' x Hk Hb E|p rs bs n k key c res Hk|p rs bs n b key Hb]; cbn [ro_pool ro_requests ro_broadcasts ro_next] in *.
  - constructor; cbn [ro_pool ro_requests ro_broadcasts ro_next]; try done.
    + intros x c Hc. destruct (q_creates0 x c Hc) as (j & sj & Hj & Ho). exists j, sj. rewrite lookup_insert_ne by congruence. done.
    + intros j x sj c [[<- [= <- <-]]|[_ Hj]]%lookup_insert_Some Ho; [done|by eapply q_owned0].
    + intros j x c [[_ [=]]|[_ Hj]]%lookup_insert_Some. by eapply q_acquires0.
    + intros j1 j2 x s1 s2 [[<- [= <- <-]]|[_ H1]]%lookup_insert_Some [[<- E]|[_ H2]]%lookup_insert_Some Ho1 Ho2; [done|by destruct Ho1| |by eapply q_unique0].
      injection E as <- <-. by destruct Ho2.
    + intros j x c [[_ [=]]|[_ Hj]]%lookup_insert_Some. by eapply q_waits0.
  - unfold beginRouteSourceCreate in E. destruct (rp_sources p !! key) as [b|] eqn:Es; [injection E as <- <-; eapply routing_move; [done..|lia|done]|].
    destruct (rp_creates p !! key) as [y|] eqn:Ec; injection E as <- <-; cbn [stageOf].
    { eapply routing_move; [done..|lia|]. intros c [= <-]. done. }
    constructor; cbn [ro_pool ro_requests ro_broadcasts ro_next rp_sources rp_creates rp_closed]; try done.
    + intros x c [[<- <-]|[Hne Hc]]%lookup_insert_Some.
      * exists k, (Acquires n). by rewrite lookup_insert_eq.
      * destruct (q_creates0 x c Hc) as (j & sj & Hj & Ho). exists j, sj. rewrite lookup_insert_ne; [done|]. congruence.
    + intros j x sj c [[<- [= <- <-]]|[_ Hj]]%lookup_insert_Some Ho; [injection Ho as <-; apply lookup_insert_eq|].
      rewrite lookup_insert_ne; [by eapply q_owned0|]. intros <-. rewrite (q_owned0 _ _ _ _ Hj Ho) in Ec. done.
    + intros j x c [[<- [= <- <-]]|[_ Hj]]%lookup_insert_Some; [done|by eapply q_acquires0].
    + assert (forall j sj, rs !! j = Some (key, sj) -> ~ is_Some (owned sj)) as Hnone by (intros j sj Hj [c Ho]; rewrite (q_owned0 _ _ _ _ Hj Ho) in Ec; done).
      intros j1 j2 x s1 s2 [[<- [= <- <-]]|[_ H1]]%lookup_insert_Some [[<- E]|[_ H2]]%lookup_insert_Some Ho1 Ho2; [done|by destruct (Hnone j2 s2)| |by eapply q_unique0].
      injection E as <- <-. by destruct (Hnone j1 s1).
    + intros j x c [[_ [=]]|[_ Hj]]%lookup_insert_Some. destruct (q_waits0 j x c Hj) as [?|Hc]; [by left|right]. rewrite lookup_insert_ne; [done|]. congruence.
    + intros x c [[<- <-]|[_ Hc]]%lookup_insert_Some; [lia|]. apply q_fresh0 in Hc. lia.
  - eapply routing_move; [done..|lia|done].
  - eapply routing_move; [done..|lia|done].
  - eapply routing_keep; [done..| |done]. done.
  - pose proof (q_acquires0 _ _ _ Hk) as Hs. unfold commitRouteSource in E. rewrite Hs in E. injection E as <- <-.
    apply routing_commit; [|done|done|].
    + by eapply (routing_keep _ _ _ _ k key (Acquires c)).
    + intros j y [[_ [=]]|[Hne Hj]]%lookup_insert_Some. by apply Hne, (q_unique0 k j key (Acquires c) (Acquires y)).
  - by eapply routing_finish.
  - assert (rp_sources p !! key = Some b) as Hsb by (by apply q_sources0). constructor; cbn [ro_pool ro_requests ro_broadcasts ro_next removeRouteSource rp_sources rp_creates rp_closed]; try done.
    + intros x y. rewrite lookup_delete_Some. destruct (decide (y = b)) as [-> |Hne].
      * rewrite lookup_insert_eq. split; [intros [Hnx Hx]|done]. apply q_sources0 in Hx. congruence.
      * rewrite lookup_insert_ne by done. rewrite <- q_sources0. split; [tauto|]. intros Hx. split; [|done]. intros <-. congruence.
    + intros j x c Hj. rewrite lookup_delete_None. right. by eapply q_acquires0.
Qed.

Lemma routing_reachable_ok w : rtc routingStep freshRouting w -> routing_ok w.
Proof. pose proof freshRouting_ok as H0. induction 1 as [|w1 w2 w3 Hs _ IH]; [done|]. by apply IH, (routingStep_ok w1). Qed.

(** C18: A route never has two tuners: at most one request acquires a tuner for it
    at a time, and never while a broadcast is registered; the broadcast that a
    request then commits is the one it is given, so that no device is lost; no
    two registered broadcasts are of the same route; and the [onStop] of a
    broadcast removes no broadcast but its own. *)
Theorem one_tuner_per_route w : rtc routingStep freshRouting w ->
  (forall k1 k2 key c1 c2, ro_requests w !! k1 = Some (key, Acquires c1) -> ro_requests w !! k2 = Some (key, Acquires c2) -> k1 = k2)
  /\ (forall k key c b, ro_requests w !! k = Some (key, Acquires c) -> (commitRouteSource (ro_pool w) key b).2 = b)
  /\ (forall b1 b2 key, ro_broadcasts w !! b1 = Some (mkRoutedBroadcast key false) -> ro_broadcasts w !! b2 = Some (mkRoutedBroadcast key false) -> b1 = b2)
  /\ (forall b key key' b', ro_broadcasts w !! b = Some (mkRoutedBroadcast key false) -> rp_sources (ro_pool w) !! key' = Some b' -> b' <> b ->
        rp_sources (removeRouteSource (ro_pool w) key) !! key' = Some b').
Proof.
  intros Hr%routing_reachable_ok. pose proof Hr as []. conjs.
  - intros k1 k2 key c1 c2 H1 H2. by apply (q_unique0 k1 k2 key (Acquires c1) (Acquires c2)).
  - intros k key c b Hk. unfold commitRouteSource. by rewrite (q_acquires0 _ _ _ Hk).
  - intros b1 b2 key H1 H2. apply q_sources0 in H1, H2. congruence.
  - intros b key key' b' Hb Hb' Hne. cbn. rewrite lookup_delete_ne; [done|]. intros <-. apply q_sources0 in Hb. congruence.
Qed.

(** Two requests for a route: one acquires, the other waits. *)
Definition demoRouteKey : routeSourceKey := newRouteSourceKey (demoRoute EmptyString None).
Definition demoRouting : routing := mkRouting (mkPool ∅ {[demoRouteKey := 0]} ∅)
  {[0%nat := (demoRouteKey, Acquires 0); 1%nat := (demoRouteKey, WaitsFor 0)]} ∅ 2.

Lemma demoRouting_run : rtc routingStep freshRouting demoRouting.
Proof.
  eapply rtc_l; [apply (g_request _ _ _ _ 0 demoRouteKey); vm_compute; reflexivity|].
  eapply rtc_l; [eapply (g_begin _ _ _ _ 0 demoRouteKey); vm_compute; reflexivity|].
  eapply rtc_l; [apply (g_request _ _ _ _ 1 demoRouteKey); vm_compute; reflexivity|].
  eapply rtc_l; [eapply (g_begin _ _ _ _ 1 demoRouteKey); vm_compute; reflexivity|].
  match goal with |- rtc _ ?a ?b => replace a with b; [constructor|vm_compute; reflexivity] end.
Qed.

Lemma one_tuner_per_route_witness : ro_requests demoRouting !! 0%nat = Some (demoRouteKey, Acquires 0) /\
  (forall k1 k2 key c1 c2, ro_requests demoRouting !! k1 = Some (key, Acquires c1) -> ro_requests demoRouting !! k2 = Some (key, Acquires c2) -> k1 = k2).
Proof. split; [vm_compute; reflexivity|]. apply (one_tuner_per_route demoRouting demoRouting_run). Defined.
