(* ===== verification/ScheduleTracker.v ===== *)
(** * Reception of the programme schedule (internal/isdb)

    The EIT schedule of a service comes as up to eight tables of 32 segments of
    eight sections; [ScheduleTracker] notes, in bits, which sections have been
    received and which need not be waited for, and decides when the schedule
    is complete.  [TableTracker] does the same for a plain table.

    A [time.Time] is its number of nanoseconds since 1970; the zero time of
    [latest] is [None].  The reference the bits are compared with is
    [coverage]: for every table, the headers received since it was last
    reset. *)

From S2P Require Import Prelude.

(** ** Headers (isdb.go) *)

Record SectionHeader := mkHeader {
  h_TableIDExtension : Z;
  h_Version : Z;
  h_SectionNumber : Z;
  h_LastSectionNumber : Z;
  h_CurrentNext : bool;
  h_LastTableID : Z;
  h_SegmentLastSection : Z
}.

Inductive EITKind : Set := EITKindOther | EITKindPresentFollowing | EITKindScheduleBasic | EITKindScheduleExtended.

#[export] Instance EITKind_eq_dec : EqDecision EITKind.
Proof. solve_decision. Defined.

Definition between (a x b : Z) : bool := (a <=? x) && (x <=? b).

Definition ClassifyTSEITTableID (tableID : Z) : EITKind :=
  if (tableID =? 0x4E) || (tableID =? 0x4F) then EITKindPresentFollowing
  else if between 0x50 tableID 0x57 || between 0x60 tableID 0x67 then EITKindScheduleBasic
  else if between 0x58 tableID 0x5F || between 0x68 tableID 0x6F then EITKindScheduleExtended
  else EITKindOther.

Definition ClassifyMMTEITTableID (tableID : Z) : EITKind :=
  if tableID =? 0x8B then EITKindPresentFollowing
  else if between 0x8C tableID 0x93 then EITKindScheduleBasic
  else if between 0x94 tableID 0x9B then EITKindScheduleExtended
  else EITKindOther.

(** ** A table of sections (isdb.go) *)

Record TableTracker := mkTableTracker {
  tt_initialized : bool;
  tt_extension : Z;
  tt_version : Z;
  tt_last : Z;
  tt_sections : gset Z
}.

Definition newTableTracker : TableTracker := mkTableTracker false 0 0 0 ∅.

(** The loops [for i := uint8(0); ; i++] run at most 256 times, since [last]
    is a byte. *)
Definition tableReady (t : TableTracker) : go bool :=
  if negb (tt_initialized t) then Ret false
  else loop 256 (fun i => if negb (bool_decide (i ∈ tt_sections t)) then Ret (Break false)
                          else if i =? tt_last t then Ret (Break true) else Ret (Continue (u8 (i + 1)))) 0.

Definition tableMissing (t : TableTracker) : go (list Z) :=
  if negb (tt_initialized t) then Ret []
  else loop 256 (fun '(i, out) => let out := if bool_decide (i ∈ tt_sections t) then out else out ++ [i] in
                                  if i =? tt_last t then Ret (Break out) else Ret (Continue (u8 (i + 1), out))) (0, []).

(** The tracker, whether it was reset, and whether the table is complete. *)
Definition tableAdd (t : TableTracker) (h : SectionHeader) : go (TableTracker * bool * bool) :=
  if (h_LastSectionNumber h <? h_SectionNumber h) || negb (h_CurrentNext h) then ready ← tableReady t; Ret (t, false, ready)
  else
    let reset := negb (tt_initialized t) || negb (tt_extension t =? h_TableIDExtension h) || negb (tt_version t =? h_Version h) in
    let t := if reset then mkTableTracker true (h_TableIDExtension h) (h_Version h) (h_LastSectionNumber h) ∅ else t in
    let t := mkTableTracker (tt_initialized t) (tt_extension t) (tt_version t) (tt_last t) ({[h_SectionNumber h]} ∪ tt_sections t) in
    ready ← tableReady t; Ret (t, reset, ready).

(** ** The layout of the schedule tables (schedule.go) *)

Inductive ScheduleSystem : Set := ScheduleTS | ScheduleMMT.

(** Base of the group, index in it, whether it is a basic table, and [ok]. *)
Definition scheduleBaseOf (system : ScheduleSystem) (tableID : Z) : Z * Z * bool * bool :=
  match system with
  | ScheduleMMT =>
      if between 0x8C tableID 0x93 then (0x8C, tableID - 0x8C, true, true)
      else if between 0x94 tableID 0x9B then (0x94, tableID - 0x94, false, true)
      else (0, 0, false, false)
  | ScheduleTS =>
      if between 0x50 tableID 0x57 then (0x50, tableID - 0x50, true, true)
      else if between 0x58 tableID 0x5F then (0x58, tableID - 0x58, false, true)
      else if between 0x60 tableID 0x67 then (0x60, tableID - 0x60, true, true)
      else if between 0x68 tableID 0x6F then (0x68, tableID - 0x68, false, true)
      else (0, 0, false, false)
  end.

Definition basicTable (system : ScheduleSystem) (tableID : Z) : bool := let '(_, _, basic, _) := scheduleBaseOf system tableID in basic.

(** ** What has been received (schedule.go) *)

(** One table: 32 segments of three hours, each a byte of eight sections. *)
Record scheduleReadyFlag := mkFlag {
  f_observed : bool;
  f_version : Z;
  f_flag : list Z;
  f_ignore : list Z
}.

#[export] Instance scheduleReadyFlag_eq_dec : EqDecision scheduleReadyFlag.
Proof. solve_decision. Defined.
#[export] Instance scheduleReadyFlag_inhabited : Inhabited scheduleReadyFlag := populate (mkFlag false 0 [] []).

Definition resetFlag (required : bool) : scheduleReadyFlag :=
  mkFlag false 0 (replicate 32 0) (replicate 32 (if required then 0 else 0xff)).

Record scheduleReadyGroup := mkGroup {
  g_base : Z;
  g_basic : bool;
  g_lastFlagsID : Z;
  g_flags : list scheduleReadyFlag
}.

#[export] Instance scheduleReadyGroup_eq_dec : EqDecision scheduleReadyGroup.
Proof. solve_decision. Defined.

Definition newGroup (base : Z) (basic : bool) : scheduleReadyGroup := mkGroup base basic (-1) (replicate 8 (resetFlag false)).

Definition UnixMilli (now : Z) : Z := now / 1000000.
Definition currentJSTSegment (now : Z) : Z := Z.land (Z.quot (UnixMilli now + 32400000) 10800000) 0x07.

(** [if target.ignore[i] != 0xff { target.ignore[i] = 0xff; changed = true }] *)
Definition ignoreSegment (st : list Z * bool) (i : nat) : list Z * bool :=
  if st.1 !!! i =? 0xff then st else (<[i := 0xff]> st.1, true).

(** [if l[k]&mask == 0 { l[k] |= mask; changed = true }] *)
Definition setBit (k : nat) (st : list Z * bool) (i : Z) : list Z * bool :=
  if Z.land (st.1 !!! k) (Z.shiftl 1 i) =? 0 then (<[k := Z.lor (st.1 !!! k) (Z.shiftl 1 i)]> st.1, true) else st.

(** The part of [observeReady] that marks the bits of the table: what is
    passed today (for the first table only), what lies behind the last segment
    and behind the last section of the segment, and the section itself. *)
Definition markSection (flagsID : Z) (header : SectionHeader) (now : Z) (target : scheduleReadyFlag) (changed : bool) : scheduleReadyFlag * bool :=
  let st := (f_ignore target, changed) in
  let st := if flagsID =? 0 then foldl ignoreSegment st (seq 0 (Z.to_nat (currentJSTSegment now))) else st in
  let lastSegment := Z.shiftr (h_LastSectionNumber header) 3 in
  let st := foldl ignoreSegment st (seq (Z.to_nat (lastSegment + 1)) (32 - Z.to_nat (lastSegment + 1))) in
  let segmentNumber := Z.to_nat (Z.shiftr (h_SectionNumber header) 3) in
  let segmentLastSection := Z.land (h_SegmentLastSection header) 0x07 in
  let '(ignore, changed) := foldl (setBit segmentNumber) st (seqZ (segmentLastSection + 1) (7 - segmentLastSection)) in
  let '(flag, changed) := setBit segmentNumber (f_flag target, changed) (Z.land (h_SectionNumber header) 0x07) in
  (mkFlag (f_observed target) (f_version target) flag ignore, changed).

(** [observeReady] once the group, the index of the table and the index of the
    last table are known; the number of resets and whether it changed. *)
Definition observeGroup (group : scheduleReadyGroup) (flagsID lastFlagsID : Z) (header : SectionHeader) (now : Z) : scheduleReadyGroup * Z * bool :=
  let lastChanged := negb (g_lastFlagsID group =? lastFlagsID) in
  let flags :=
    if lastChanged then imap (fun i f => if (lastFlagsID <? Z.of_nat i) || (g_lastFlagsID group <? Z.of_nat i) then resetFlag (Z.of_nat i <=? lastFlagsID) else f) (g_flags group)
    else g_flags group in
  let resets := if lastChanged && (0 <=? g_lastFlagsID group) then 1 else 0 in
  let target := flags !!! Z.to_nat flagsID in
  let versionChanged := f_observed target && negb (f_version target =? h_Version header) in
  let target := if versionChanged then resetFlag true else target in
  let resets := if versionChanged then resets + 1 else resets in
  let new := negb (f_observed target) || negb (f_version target =? h_Version header) in
  let target := if new then mkFlag true (h_Version header) (f_flag target) (f_ignore target) else target in
  let '(target, changed) := markSection flagsID header now target (lastChanged || versionChanged || new) in
  (mkGroup (g_base group) (g_basic group) lastFlagsID (<[Z.to_nat flagsID := target]> flags), resets, changed).

Definition groupReady (g : scheduleReadyGroup) : bool :=
  forallb (fun f => forallb (fun j => Z.lor (f_flag f !!! j) (f_ignore f !!! j) =? 0xff) (seq 0 32)) (g_flags g).

Definition missingSections (g : scheduleReadyGroup) (flagsID : Z) : list Z :=
  let flag := g_flags g !!! Z.to_nat flagsID in
  segment ← seqZ 0 32;
  let needed := Z.lxor (Z.lor (f_flag flag !!! Z.to_nat segment) (f_ignore flag !!! Z.to_nat segment)) 0xff in
  section ← seqZ 0 8; if Z.land needed (Z.shiftl 1 section) =? 0 then [] else [segment * 8 + section].

Section Tracker.
Context {P : Type}.

Record scheduleTable := mkTable {
  st_version : Z;
  st_hasVersion : bool;
  st_lastSection : Z;
  st_segmentLast : gmap Z Z;
  st_sections : gset Z;
  st_payloads : gmap Z P;
  st_versions : gmap Z Z
}.

Definition newTable : scheduleTable := mkTable 0 false 0 ∅ ∅ ∅ ∅.

Record ScheduleTracker := mkTracker {
  t_system : ScheduleSystem;
  t_tables : gmap Z scheduleTable;
  t_groups : gmap Z scheduleReadyGroup;
  t_latest : option Z;
  t_resets : Z
}.

Definition NewScheduleTracker (system : ScheduleSystem) : ScheduleTracker := mkTracker system ∅ ∅ None 0.

(** The index of the last table: by the last-table ID when it is of the same
    group, else by its low bits. *)
Definition lastIndexOf (system : ScheduleSystem) (base lastTableID : Z) : Z :=
  let '(lastBase, lastIndex, _, lastOK) := scheduleBaseOf system lastTableID in
  if lastOK && (lastBase =? base) then lastIndex else Z.land lastTableID 0x07.

Definition observeReady (t : ScheduleTracker) (tableID base : Z) (header : SectionHeader) (now : Z) : ScheduleTracker * bool :=
  let '(_, index, basic, _) := scheduleBaseOf (t_system t) tableID in
  let group := default (newGroup base basic) (t_groups t !! base) in
  let '(group, resets, changed) := observeGroup group index (lastIndexOf (t_system t) base (h_LastTableID header)) header now in
  (mkTracker (t_system t) (t_tables t) (<[base := group]> (t_groups t)) (t_latest t) (t_resets t + resets), changed).

Definition storeSection (table : scheduleTable) (header : SectionHeader) (payload : P) : scheduleTable * bool :=
  let changed := match st_versions table !! h_SectionNumber header with
                 | Some previous => negb (previous =? h_Version header)
                 | None => true
                 end in
  (mkTable (h_Version header) true (h_LastSectionNumber header)
     (<[h_SectionNumber header / 8 := h_SegmentLastSection header]> (st_segmentLast table))
     ({[h_SectionNumber header]} ∪ st_sections table)
     (if changed then <[h_SectionNumber header := payload]> (st_payloads table) else st_payloads table)
     (<[h_SectionNumber header := h_Version header]> (st_versions table)), changed).

Definition ObserveLazy (t : ScheduleTracker) (tableID : Z) (header : SectionHeader) (payload : P) (now : Z) : ScheduleTracker * bool :=
  let '(base, _, _, ok) := scheduleBaseOf (t_system t) tableID in
  if negb ok then (t, false) else
  let '(table, changed) := storeSection (default newTable (t_tables t !! tableID)) header payload in
  let '(t, readyChanged) := observeReady (mkTracker (t_system t) (<[tableID := table]> (t_tables t)) (t_groups t) (t_latest t) (t_resets t)) tableID base header now in
  (mkTracker (t_system t) (t_tables t) (t_groups t) (if changed || readyChanged then Some now else t_latest t) (t_resets t), changed || readyChanged).

Definition trackerGroups (t : ScheduleTracker) : list scheduleReadyGroup := map snd (map_to_list (t_groups t)).

Definition HasExtended (t : ScheduleTracker) : bool := existsb (fun g => negb (g_basic g)) (trackerGroups t).
Definition HasBasic (t : ScheduleTracker) : bool := existsb (basicTable (t_system t)) (map fst (map_to_list (t_tables t))).
Definition BasicComplete (t : ScheduleTracker) : bool :=
  existsb g_basic (trackerGroups t) && forallb (fun g => negb (g_basic g) || groupReady g) (trackerGroups t).
Definition ExtendedComplete (t : ScheduleTracker) : bool := forallb (fun g => g_basic g || groupReady g) (trackerGroups t).

Definition StableFor (t : ScheduleTracker) (now duration : Z) : bool :=
  match t_latest t with None => false | Some latest => duration <=? now - latest end.

(** [Sections]: by table, then by section. *)
Definition Sections (t : ScheduleTracker) : list (bool * P) :=
  id ← sortStable (fun id => id) (map fst (map_to_list (t_tables t)));
  match t_tables t !! id with
  | None => []
  | Some table =>
      section ← sortStable (fun s => s) (map fst (map_to_list (st_payloads table)));
      match st_payloads table !! section with Some p => [(basicTable (t_system t) id, p)] | None => [] end
  end.

(** What [Diagnosis] lists: a table that has not come at all, or a section. *)
Inductive missingItem : Set := MissingTable (tableID : Z) | MissingSection (tableID section : Z).

Definition Diagnosis (t : ScheduleTracker) : list missingItem :=
  '(base, group) ← map_to_list (t_groups t);
  i ← seqZ 0 (g_lastFlagsID group + 1);
  match t_tables t !! (base + i) with
  | None => [MissingTable (base + i)]
  | Some _ => map (MissingSection (base + i)) (missingSections group i)
  end.
End Tracker.
Arguments scheduleTable : clear implicits.
Arguments ScheduleTracker : clear implicits.

(** ** Bits

    Section [s] of a table is bit [s mod 8] of byte [s / 8]. *)

Definition segments_ok (l : list Z) : Prop := length l = 32%nat /\ bytes_ok l.
Definition bitOf (l : list Z) (s : Z) : bool := Z.testbit (l !!! Z.to_nat (s / 8)) (s mod 8).

Lemma segments_byte l k : segments_ok l -> (k < 32)%nat -> 0 <= l !!! k < 256.
Proof.
  intros [Hl Hb] Hk. destruct (lookup_lt_is_Some_2 l k) as [x Hx]; [lia|]. rewrite (list_lookup_total_correct _ _ _ Hx).
  by eapply bytes_ok_lookup.
Qed.

Lemma byte_full b : 0 <= b < 256 -> (b = 0xff <-> forall j, 0 <= j < 8 -> Z.testbit b j = true).
Proof.
  intros Hb. split.
  - intros -> j Hj. apply (range_forallb (Z.testbit 0xff) 8); [done|lia].
  - intros H. apply Z.bits_inj'. intros j Hj. destruct (Z.ltb_spec j 8).
    + rewrite H by lia. symmetry. apply (range_forallb (Z.testbit 0xff) 8); [done|lia].
    + by rewrite !(testbit_above _ 8 j) by lia.
Qed.

Lemma section_parts s : 0 <= s < 256 -> (Z.to_nat (s / 8) < 32)%nat /\ 0 <= s mod 8 < 8 /\ 0 <= s / 8 < 32.
Proof. intros. pose proof (Z.mod_pos_bound s 8). assert (0 <= s / 8 < 32) by dmlia. lia. Qed.

(** From [st] to [st'] the bits of [A] are set, and it is a change when some
    of them were not. *)
Record marks (st st' : list Z * bool) (A : Z -> bool) : Prop := {
  mk_ok : segments_ok st'.1;
  mk_bits : forall s, 0 <= s < 256 -> bitOf st'.1 s = bitOf st.1 s || A s;
  mk_same : st'.2 = false -> st' = st;
  mk_changed : st'.2 = true <-> st.2 = true \/ exists s, 0 <= s < 256 /\ A s = true /\ bitOf st.1 s = false
}.

Lemma marks_refl st : segments_ok st.1 -> marks st st (fun _ => false).
Proof. intros. constructor; [done|intros; by rewrite orb_false_r|done|]. split; [by left|]. by intros [?|(s & _ & ? & _)]. Qed.

Lemma marks_ext st st' A B : (forall s, 0 <= s < 256 -> A s = B s) -> marks st st' A -> marks st st' B.
Proof.
  intros E [H1 H2 H3 H4]. constructor; [done|intros; by rewrite H2, E|done|]. rewrite H4.
  split; (intros [?|(s & Hr & Hs & ?)]; [by left|right; exists s; rewrite E in * by done; done]).
Qed.

Lemma marks_trans a b c A B : marks a b A -> marks b c B -> marks a c (fun s => A s || B s).
Proof.
  intros [A1 A2 A3 A4] [B1 B2 B3 B4]. constructor; [done|intros s Hs; by rewrite B2, A2, orb_assoc| |].
  - intros Hc. specialize (B3 Hc). subst b. by apply A3.
  - rewrite B4, A4. split.
    + intros [[?|(s & Hs & Ha & ?)]|(s & Hs & Hb & Hbit)]; [by left|right; exists s; by rewrite Ha|].
      rewrite A2 in Hbit by done. apply orb_false_iff in Hbit as [? ?]. right. exists s. by rewrite Hb, orb_true_r.
    + intros [?|(s & Hs & Hab & Hbit)]; [by left; left|]. destruct (A s) eqn:Ha; [left; right; by exists s|].
      right. exists s. rewrite A2, Ha, Hbit by done. done.
Qed.

Lemma marks_foldl {I} (f : list Z * bool -> I -> list Z * bool) (A : I -> Z -> bool) l :
  (forall st i, segments_ok st.1 -> i ∈ l -> marks st (f st i) (A i)) ->
  forall st, segments_ok st.1 -> marks st (foldl f st l) (fun s => existsb (fun i => A i s) l).
Proof.
  induction l as [|i l IH]; intros Hf st Hst; cbn [foldl existsb]; [by apply marks_refl|].
  assert (marks st (f st i) (A i)) as H1 by (apply Hf; [done|left]).
  eapply marks_trans; [exact H1|]. apply IH; [intros; apply Hf; [done|by right]|exact (mk_ok _ _ _ H1)].
Qed.

Lemma segments_insert l k b : segments_ok l -> 0 <= b < 256 -> segments_ok (<[k := b]> l).
Proof. intros [Hl Hb] ?. split; [by rewrite length_insert|]. by apply Forall_insert. Qed.

Lemma bitOf_insert l k b s : segments_ok l -> (k < 32)%nat -> 0 <= s < 256 ->
  bitOf (<[k := b]> l) s = if s / 8 =? Z.of_nat k then Z.testbit b (s mod 8) else bitOf l s.
Proof.
  intros [Hl _] Hk Hs. pose proof (section_parts s Hs). unfold bitOf. destruct (Z.eqb_spec (s / 8) (Z.of_nat k)) as [E|E].
  - rewrite E, Nat2Z.id, list_lookup_total_insert_eq by lia. done.
  - rewrite list_lookup_total_insert_ne by lia. done.
Qed.

Lemma ignoreSegment_marks st k : segments_ok st.1 -> (k < 32)%nat -> marks st (ignoreSegment st k) (fun s => s / 8 =? Z.of_nat k).
Proof.
  intros Hst Hk. pose proof (segments_byte _ k Hst Hk) as Hb. unfold ignoreSegment. destruct (Z.eqb_spec (st.1 !!! k) 0xff) as [E|E].
  - assert (forall s, 0 <= s < 256 -> s / 8 =? Z.of_nat k = true -> bitOf st.1 s = true) as Hfull.
    { intros s Hs Hk'. bools. pose proof (section_parts s Hs). unfold bitOf. rewrite Hk', Nat2Z.id. apply (byte_full _ Hb); [done|lia]. }
    constructor; [done| |done|].
    + intros s Hs. destruct (_ =? _) eqn:Es; [|by rewrite orb_false_r]. by rewrite Hfull.
    + split; [by left|]. intros [?|(s & Hs & Hk' & Hf)]; [done|]. by rewrite (Hfull s Hs Hk') in Hf.
  - constructor; cbn [fst snd]; [apply segments_insert; [done|lia]| |done|].
    + intros s Hs. rewrite bitOf_insert by done. destruct (_ =? _) eqn:Es; [|by rewrite orb_false_r].
      rewrite orb_true_r. pose proof (section_parts s Hs). apply (byte_full 0xff); [lia|done|lia].
    + split; [intros _; right|done].
      destruct (decide (Forall (fun j => Z.testbit (st.1 !!! k) j = true) (seqZ 0 8))) as [Hall|Hnot].
      { exfalso. apply E, (byte_full _ Hb). intros j Hj. rewrite Forall_forall in Hall. apply Hall, elem_of_seqZ. lia. }
      apply not_Forall_Exists in Hnot; [|apply _]. apply Exists_exists in Hnot as (j & Hj%elem_of_seqZ & Hj').
      exists (8 * Z.of_nat k + j). assert ((8 * Z.of_nat k + j) / 8 = Z.of_nat k) as Hd by dmlia.
      assert ((8 * Z.of_nat k + j) mod 8 = j) as Hm by dmlia. conjs; [lia..|apply Z.eqb_eq; done|].
      unfold bitOf. rewrite Hd, Hm, Nat2Z.id. by apply not_true_is_false.
Qed.

Lemma land_bit b i : 0 <= i -> (Z.land b (Z.shiftl 1 i) =? 0) = negb (Z.testbit b i).
Proof.
  intros Hi. destruct (Z.testbit b i) eqn:E; cbn [negb].
  - apply Z.eqb_neq. intros H0. assert (Z.testbit (Z.land b (Z.shiftl 1 i)) i = false) as H by (by rewrite H0, Z.bits_0).
    rewrite Z.land_spec, E, Z.shiftl_1_l, Z.pow2_bits_true in H by done. done.
  - apply Z.eqb_eq, Z.bits_inj'. intros j Hj. rewrite Z.land_spec, Z.bits_0, Z.shiftl_1_l.
    destruct (Z.eq_dec i j) as [<-|Hne]; [by rewrite E|]. by rewrite Z.pow2_bits_false, andb_false_r by done.
Qed.

Lemma setBit_marks k st i : segments_ok st.1 -> (k < 32)%nat -> 0 <= i < 8 -> marks st (setBit k st i) (fun s => s =? 8 * Z.of_nat k + i).
Proof.
  intros Hst Hk Hi. pose proof (segments_byte _ k Hst Hk) as Hb. set (x := 8 * Z.of_nat k + i).
  assert (x / 8 = Z.of_nat k) as Hd by (subst x; dmlia). assert (x mod 8 = i) as Hm by (subst x; dmlia).
  assert (bitOf st.1 x = Z.testbit (st.1 !!! k) i) as Hx by (unfold bitOf; by rewrite Hd, Hm, Nat2Z.id).
  unfold setBit. rewrite land_bit by lia. destruct (Z.testbit (st.1 !!! k) i) eqn:E; cbn [negb].
  - constructor; [done| |done|].
    + intros s Hs. destruct (Z.eqb_spec s x) as [-> |]; [by rewrite Hx|by rewrite orb_false_r].
    + split; [by left|]. intros [?|(s & Hs & ->%Z.eqb_eq & Hf)]; [done|congruence].
  - constructor; cbn [fst snd]; [apply segments_insert; [done|]| |done|].
    + apply byte_ok_lor; [done|]. unfold byte_ok. rewrite Z.shiftl_1_l. split; [by apply Z.pow_nonneg|].
      change 256 with (2 ^ 8). apply Z.pow_lt_mono_r; lia.
    + intros s Hs. rewrite bitOf_insert by done. pose proof (section_parts s Hs) as (_ & Hs8 & _).
      destruct (Z.eqb_spec (s / 8) (Z.of_nat k)) as [Es|Es].
      * unfold bitOf. rewrite Es, Nat2Z.id, Z.lor_spec, Z.shiftl_1_l, Z.pow2_bits_eqb by lia. f_equal.
        destruct (Z.eqb_spec i (s mod 8)) as [Ei|Ei]; symmetry; [apply Z.eqb_eq|apply Z.eqb_neq]; subst x; dmlia.
      * destruct (Z.eqb_spec s x) as [-> |]; [done|by rewrite orb_false_r].
    + split; [intros _; right; exists x|done]. rewrite Z.eqb_refl, Hx. conjs; subst x; done || lia.
Qed.

(** ** The reference: the headers received since the last reset *)

Definition header_ok (h : SectionHeader) : Prop :=
  byte_ok (h_SectionNumber h) /\ byte_ok (h_LastSectionNumber h) /\ byte_ok (h_SegmentLastSection h) /\ byte_ok (h_LastTableID h).

(** A header tells that section [s] of its table, the [i]th, is not sent: it
    belongs to a part of today that has passed, lies behind the last section,
    or behind the last one of the header's segment. *)
Definition excuses (i s : Z) (e : SectionHeader * Z) : bool :=
  (i =? 0) && (s / 8 <? currentJSTSegment e.2)
  || (h_LastSectionNumber e.1 / 8 <? s / 8)
  || (s / 8 =? h_SectionNumber e.1 / 8) && (h_SegmentLastSection e.1 mod 8 <? s mod 8).

Record coverage := mkCoverage {
  c_required : bool;
  c_log : list (SectionHeader * Z)
}.
#[export] Instance coverage_inhabited : Inhabited coverage := populate (mkCoverage false []).

Record refGroup := mkRef {
  rg_last : Z;
  rg_tables : list coverage
}.

Definition refNew : refGroup := mkRef (-1) (replicate 8 (mkCoverage false [])).

(** When the number of tables changes, the tables that come or go start anew;
    when the version of a table changes, it does. *)
Definition refObserve (r : refGroup) (i last : Z) (h : SectionHeader) (now : Z) : refGroup :=
  let tables := if rg_last r =? last then rg_tables r
                else imap (fun j c => if (last <? Z.of_nat j) || (rg_last r <? Z.of_nat j) then mkCoverage (Z.of_nat j <=? last) [] else c) (rg_tables r) in
  let c := tables !!! Z.to_nat i in
  let c := match c_log c with
           | (h', _) :: _ => if h_Version h' =? h_Version h then c else mkCoverage true []
           | [] => c
           end in
  mkRef last (<[Z.to_nat i := mkCoverage (c_required c) ((h, now) :: c_log c)]> tables).

Definition covers (i s : Z) (e : SectionHeader * Z) : Prop := h_SectionNumber e.1 = s \/ excuses i s e = true.

(** Every section of every table that is required has come or is excused. *)
Definition refReady (r : refGroup) : Prop :=
  forall i c, rg_tables r !! i = Some c -> c_required c = true -> forall s, 0 <= s < 256 -> Exists (covers (Z.of_nat i) s) (c_log c).

Record flagOf (i : nat) (f : scheduleReadyFlag) (c : coverage) : Prop := {
  fo_flag : segments_ok (f_flag f);
  fo_ignore : segments_ok (f_ignore f);
  fo_observed : f_observed f = negb (bool_decide (c_log c = []));
  fo_version : Forall (fun e => h_Version e.1 = f_version f) (c_log c);
  fo_received : forall s, 0 <= s < 256 -> bitOf (f_flag f) s = existsb (fun e => h_SectionNumber e.1 =? s) (c_log c);
  fo_excused : forall s, 0 <= s < 256 -> bitOf (f_ignore f) s = negb (c_required c) || existsb (excuses (Z.of_nat i) s) (c_log c)
}.

Record groupOf (g : scheduleReadyGroup) (r : refGroup) : Prop := {
  go_last : g_lastFlagsID g = rg_last r;
  go_length : length (g_flags g) = 8%nat;
  go_length_ref : length (rg_tables r) = 8%nat;
  go_flags : forall i f c, g_flags g !! i = Some f -> rg_tables r !! i = Some c -> flagOf i f c
}.

Lemma segments_replicate b : 0 <= b < 256 -> segments_ok (replicate 32 b).
Proof. intros. split; [by rewrite length_replicate|]. by apply bytes_ok_replicate. Qed.

Lemma bitOf_replicate b s : 0 <= s < 256 -> bitOf (replicate 32 b) s = Z.testbit b (s mod 8).
Proof. intros Hs. unfold bitOf. rewrite lookup_total_replicate_2; [done|]. exact (proj1 (section_parts s Hs)). Qed.

Lemma resetFlag_of i required : flagOf i (resetFlag required) (mkCoverage required []).
Proof.
  constructor; cbn [resetFlag f_observed f_version f_flag f_ignore c_log c_required existsb]; [by apply segments_replicate|by destruct required; apply segments_replicate|done..| |];
    intros s Hs; rewrite bitOf_replicate by done.
  - apply Z.bits_0.
  - destruct required; [apply Z.bits_0|]. apply (byte_full 0xff); [done..|]. apply Z.mod_pos_bound. lia.
Qed.

Lemma newGroup_of base basic : groupOf (newGroup base basic) refNew.
Proof.
  constructor; [done..|]. cbn [newGroup refNew g_flags rg_tables]. intros i f c [-> _]%lookup_replicate [-> _]%lookup_replicate. apply resetFlag_of.
Qed.

Lemma markSection_spec i h now f ch f' ch' : header_ok h -> segments_ok (f_flag f) -> segments_ok (f_ignore f) ->
  markSection i h now f ch = (f', ch') ->
  f_observed f' = f_observed f /\ f_version f' = f_version f /\ segments_ok (f_flag f') /\ segments_ok (f_ignore f')
  /\ (forall s, 0 <= s < 256 -> bitOf (f_flag f') s = bitOf (f_flag f) s || (h_SectionNumber h =? s))
  /\ (forall s, 0 <= s < 256 -> bitOf (f_ignore f') s = bitOf (f_ignore f) s || excuses i s (h, now))
  /\ (ch' = false -> f' = f /\ ch = false) /\ (ch' = true -> ch = true \/ f' <> f).
Proof.
  intros (Hsec & Hlast & Hseg & _) Hf Hi. unfold byte_ok in *. unfold markSection. cbv zeta.
  rewrite !Z.shiftr_div_pow2 by lia. change (2 ^ 3) with 8.
  assert (forall x, Z.land x 7 = x mod 8) as H7 by (intros x; by apply (land_mask x 3)). rewrite !H7.
  assert (0 <= currentJSTSegment now < 8) as Hcur by (unfold currentJSTSegment; rewrite H7; by apply Z.mod_pos_bound).
  set (st0 := (f_ignore f, ch)). set (st1 := if i =? 0 then _ else _).
  assert (marks st0 st1 (fun s => (i =? 0) && (s / 8 <? currentJSTSegment now))) as M1.
  { subst st1. destruct (i =? 0); [|by apply marks_refl]. eapply marks_ext; [|apply (marks_foldl _ (fun k s => s / 8 =? Z.of_nat k));
      [intros st k ? Hk%elem_of_seq; apply ignoreSegment_marks; [done|lia]|done]]. intros s Hs. cbn. pose proof (section_parts s Hs).
    apply eq_true_iff_eq. rewrite existsb_exists, Z.ltb_lt. setoid_rewrite Z.eqb_eq. setoid_rewrite in_seq. split; [intros (k & ? & ?); lia|].
    intros. exists (Z.to_nat (s / 8)). lia. }
  set (L := Z.to_nat (h_LastSectionNumber h / 8 + 1)). set (st2 := foldl ignoreSegment st1 _).
  assert (0 <= h_LastSectionNumber h / 8 < 32) as HL by dmlia.
  assert (marks st1 st2 (fun s => h_LastSectionNumber h / 8 <? s / 8)) as M2.
  { eapply marks_ext; [|apply (marks_foldl _ (fun k s => s / 8 =? Z.of_nat k));
      [intros st k ? Hk%elem_of_seq; apply ignoreSegment_marks; [done|lia]|exact (mk_ok _ _ _ M1)]]. intros s Hs. cbn. pose proof (section_parts s Hs).
    apply eq_true_iff_eq. rewrite existsb_exists, Z.ltb_lt. setoid_rewrite Z.eqb_eq. setoid_rewrite in_seq. split; [intros (k & ? & ?); lia|].
    intros. exists (Z.to_nat (s / 8)). lia. }
  set (K := Z.to_nat (h_SectionNumber h / 8)). assert (0 <= h_SectionNumber h / 8 < 32) as HK by dmlia.
  pose proof (Z.mod_pos_bound (h_SegmentLastSection h) 8 eq_refl) as Hm.
  destruct (foldl (setBit K) st2 _) as [ignore ch3] eqn:E3.
  assert (marks st2 (ignore, ch3) (fun s => (s / 8 =? h_SectionNumber h / 8) && (h_SegmentLastSection h mod 8 <? s mod 8))) as M3.
  { rewrite <- E3. eapply marks_ext; [|apply (marks_foldl _ (fun j s => s =? 8 * Z.of_nat K + j));
      [intros st k ? Hk%elem_of_seqZ; apply setBit_marks; [done|lia..]|exact (mk_ok _ _ _ M2)]]. intros s Hs. cbn. pose proof (section_parts s Hs).
    apply eq_true_iff_eq. rewrite existsb_exists, andb_true_iff, Z.ltb_lt, Z.eqb_eq. setoid_rewrite Z.eqb_eq. setoid_rewrite <- list_elem_of_In. setoid_rewrite elem_of_seqZ. split.
    - intros (k & ? & ?). dmlia.
    - intros. exists (s mod 8). dmlia. }
  destruct (setBit K (f_flag f, ch3) (h_SectionNumber h mod 8)) as [flag ch4] eqn:E4.
  assert (marks (f_flag f, ch3) (flag, ch4) (fun s => h_SectionNumber h =? s)) as M4.
  { rewrite <- E4. eapply marks_ext; [|apply setBit_marks; [done|lia|by apply Z.mod_pos_bound]]. intros s Hs. cbn. apply eq_true_iff_eq. rewrite !Z.eqb_eq. dmlia. }
  pose proof (marks_trans _ _ _ _ _ (marks_trans _ _ _ _ _ M1 M2) M3) as M. clear M1 M2 M3. intros [= <- <-]. cbn [f_observed f_version f_flag f_ignore].
  conjs; try done; [exact (mk_ok _ _ _ M4)|exact (mk_ok _ _ _ M)|exact (mk_bits _ _ _ M4)|exact (mk_bits _ _ _ M)| |].
  - intros Hc. pose proof (mk_same _ _ _ M4 Hc) as [= -> <-]. cbn in Hc. pose proof (mk_same _ _ _ M Hc) as [= -> <-]. by destruct f.
  - intros Hc. apply (mk_changed _ _ _ M4) in Hc as [Hc|(s & Hs & Ha & Hb)].
    + apply (mk_changed _ _ _ M) in Hc as [Hc|(s & Hs & Ha & Hb)]; [by left|right]. intros E. pose proof (mk_bits _ _ _ M s Hs) as Hx. cbn [fst st0] in Hx, Hb.
      rewrite Ha, Hb in Hx. assert (ignore = f_ignore f) as Ei by (by rewrite <- E). by rewrite Ei, Hb in Hx.
    + right. intros E. pose proof (mk_bits _ _ _ M4 s Hs) as Hx. cbn [fst] in Hx, Hb. rewrite Ha, Hb in Hx.
      assert (flag = f_flag f) as Ei by (by rewrite <- E). by rewrite Ei, Hb in Hx.
Qed.

Lemma flagOf_log_nil i f c : flagOf i f c -> f_observed f = false -> c_log c = [].
Proof. intros H E. rewrite (fo_observed _ _ _ H) in E. apply negb_false_iff, bool_decide_eq_true in E. done. Qed.

(** A header of the version that the table has, or the first one. *)
Lemma flagOf_mark i f c h now ch f' ch' : header_ok h -> flagOf i f c -> Forall (fun e => h_Version e.1 = h_Version h) (c_log c) ->
  markSection (Z.of_nat i) h now (mkFlag true (h_Version h) (f_flag f) (f_ignore f)) ch = (f', ch') ->
  flagOf i f' (mkCoverage (c_required c) ((h, now) :: c_log c)).
Proof.
  intros Hh [H1 H2 H3 H4 H5 H6] Hv Hm. destruct (markSection_spec _ _ _ (mkFlag true (h_Version h) (f_flag f) (f_ignore f)) _ _ _ Hh H1 H2 Hm) as (Eo & Ev & S1 & S2 & B1 & B2 & _).
  cbn [f_observed f_version f_flag f_ignore] in *. constructor; cbn [c_log c_required existsb]; [done|done|by rewrite Eo|rewrite Ev; by constructor| |].
  - intros s Hs. rewrite B1, H5 by done. apply orb_comm.
  - intros s Hs. rewrite B2, H6 by done. rewrite <- orb_assoc. f_equal. apply orb_comm.
Qed.

(** The flags after the tables that come or go were reset. *)
Lemma groupOf_resize g r last : groupOf g r ->
  groupOf (mkGroup (g_base g) (g_basic g) last (if negb (g_lastFlagsID g =? last)
    then imap (fun i f => if (last <? Z.of_nat i) || (g_lastFlagsID g <? Z.of_nat i) then resetFlag (Z.of_nat i <=? last) else f) (g_flags g) else g_flags g))
    (mkRef last (if rg_last r =? last then rg_tables r
    else imap (fun j c => if (last <? Z.of_nat j) || (rg_last r <? Z.of_nat j) then mkCoverage (Z.of_nat j <=? last) [] else c) (rg_tables r))).
Proof.
  intros [El L1 L2 Hf]. rewrite El. destruct (Z.eqb_spec (rg_last r) last) as [<-|_]; cbn [negb]; [by constructor|].
  constructor; cbn [g_lastFlagsID g_flags rg_last rg_tables]; [done|by rewrite length_imap..|]. intros i f c.
  rewrite !list_lookup_imap. destruct (g_flags g !! i) as [f0|] eqn:E1, (rg_tables r !! i) as [c0|] eqn:E2; cbn; try done. intros [= <-] [= <-].
  destruct ((last <? Z.of_nat i) || (rg_last r <? Z.of_nat i)); [apply resetFlag_of|by apply Hf].
Qed.

Lemma group_lookup g r i : groupOf g r -> (i < 8)%nat ->
  exists f c, g_flags g !! i = Some f /\ rg_tables r !! i = Some c /\ flagOf i f c.
Proof.
  intros [_ L1 L2 Hf] Hi. destruct (lookup_lt_is_Some_2 (g_flags g) i) as [f Ef]; [lia|].
  destruct (lookup_lt_is_Some_2 (rg_tables r) i) as [c Ec]; [lia|]. exists f, c. conjs; try done. by apply Hf.
Qed.

(** The bits of a group stay those of the reference, and [observeReady] says
    that something changed exactly when it did. *)
Lemma observeGroup_refines g r i last h now g' n ch : groupOf g r -> header_ok h -> 0 <= i < 8 ->
  observeGroup g i last h now = (g', n, ch) -> groupOf g' (refObserve r i last h now) /\ (ch = true <-> g' <> g) /\ g_basic g' = g_basic g.
Proof.
  intros Hg Hh Hi. pose proof (groupOf_resize g r last Hg) as Hg1. unfold observeGroup, refObserve. cbv zeta.
  set (flags := if negb (g_lastFlagsID g =? last) then _ else _) in *. set (tables := if rg_last r =? last then _ else _) in *.
  destruct (group_lookup _ _ (Z.to_nat i) Hg1) as (f & c & Ef & Ec & Hfc); [lia|]. cbn [g_flags rg_tables] in Ef, Ec.
  rewrite (list_lookup_total_correct _ _ _ Ef), (list_lookup_total_correct _ _ _ Ec).
  set (f1 := if f_observed f && negb (f_version f =? h_Version h) then resetFlag true else f).
  set (c1 := match c_log c with [] => c | (h', _) :: _ => if h_Version h' =? h_Version h then c else mkCoverage true [] end).
  assert (flagOf (Z.to_nat i) f1 c1 /\ Forall (fun e => h_Version e.1 = h_Version h) (c_log c1)
    /\ (negb (f_observed f1) || negb (f_version f1 =? h_Version h) = false -> f1 = mkFlag true (h_Version h) (f_flag f1) (f_ignore f1))) as (Hf1 & Hv1 & Hnew).
  { subst f1 c1. pose proof (fo_observed _ _ _ Hfc) as Ho. pose proof (fo_version _ _ _ Hfc) as Hv.
    destruct (c_log c) as [|[h' now'] log] eqn:El; rewrite Ho; cbn [negb bool_decide andb].
    - rewrite bool_decide_eq_true_2 by done. cbn [negb andb]. conjs; [done|by rewrite El|]. rewrite Ho, bool_decide_eq_true_2 by done. done.
    - rewrite bool_decide_eq_false_2 by done. cbn [negb andb]. inversion Hv as [|? ? Hx Hxs]; subst. cbn in Hx. rewrite <- Hx.
      destruct (Z.eqb_spec (h_Version h') (h_Version h)) as [Ev|Ev]; cbn [negb].
      + conjs; [done|rewrite El; rewrite <- Ev, Hx; exact Hv|]. intros _. rewrite <- Ev, Hx. rewrite bool_decide_eq_false_2 in Ho by done. destruct f. cbn in *. by rewrite Ho.
      + conjs; [apply resetFlag_of|constructor|]. done. }
  set (new := negb (f_observed f1) || negb (f_version f1 =? h_Version h)) in *.
  assert ((if new then mkFlag true (h_Version h) (f_flag f1) (f_ignore f1) else f1) = mkFlag true (h_Version h) (f_flag f1) (f_ignore f1)) as ->.
  { destruct new; [done|]. by rewrite <- Hnew. }
  destruct (markSection i h now _ _) as [f2 ch2] eqn:Em. intros [= <- <- <-].
  assert (groupOf (mkGroup (g_base g) (g_basic g) last (<[Z.to_nat i := f2]> flags))
    (mkRef last (<[Z.to_nat i := mkCoverage (c_required c1) ((h, now) :: c_log c1)]> tables))) as Hg2.
  { destruct Hg1 as [E L1 L2 Hall]. cbn [g_lastFlagsID g_flags rg_last rg_tables] in *. constructor; cbn [g_lastFlagsID g_flags rg_last rg_tables]; [done|by rewrite length_insert..|].
    intros j fj cj. destruct (decide (j = Z.to_nat i)) as [-> |Hne].
    - rewrite !list_lookup_insert_eq by lia. intros [= <-] [= <-]. eapply flagOf_mark; [done|done|done|]. rewrite Z2Nat.id by lia. exact Em.
    - rewrite !list_lookup_insert_ne by done. apply Hall. }
  split; [exact Hg2|]. split; [|done].
  destruct (markSection_spec _ _ _ (mkFlag true (h_Version h) (f_flag f1) (f_ignore f1)) _ _ _ Hh (fo_flag _ _ _ Hf1) (fo_ignore _ _ _ Hf1) Em) as (Eo & Ev & _ & _ & _ & _ & Hsame & Hch).
  cbn [f_observed f_version] in Eo, Ev. split.
  - intros Hc E. assert (last = g_lastFlagsID g) as Elast by (by rewrite <- E). assert (flags = g_flags g) as Efl by (subst flags; by rewrite Elast, Z.eqb_refl).
    assert (f2 = f) as Ef2.
    { assert (g_flags g !! Z.to_nat i = Some f2) as Hx by (rewrite <- E; cbn; rewrite list_lookup_insert_eq; [done|pose proof (go_length _ _ Hg1) as Hx; cbn in Hx; lia]). rewrite <- Efl, Ef in Hx. congruence. }
    rewrite Elast, Z.eqb_refl in Hch. cbn [negb orb] in Hch. subst f2. assert (f1 = f) as Ef1.
    { subst f1. rewrite Ev, Z.eqb_refl. by rewrite andb_false_r. }
    subst new. rewrite Ef1, Eo, Ev, Z.eqb_refl in Hch. cbn in Hch. destruct (Hch Hc) as [?|Hx]; [done|]. apply Hx. destruct f. cbn in *. congruence.
  - intros Hne. destruct ch2; [done|]. exfalso. apply Hne. destruct (Hsame eq_refl) as [E2 Ech]. apply orb_false_iff in Ech as [[El Evc]%orb_false_iff En].
    apply negb_false_iff, Z.eqb_eq in El. assert (flags = g_flags g) as Efl by (subst flags; by rewrite El, Z.eqb_refl).
    assert (f1 = f) as Ef1 by (subst f1; by rewrite Evc). rewrite <- (Hnew En), Ef1 in E2. rewrite E2, list_insert_id by done. rewrite Efl, <- El. by destruct g.
Qed.

Lemma groupReady_iff g r : groupOf g r -> groupReady g = true <-> refReady r.
Proof.
  intros Hg. unfold groupReady, refReady. rewrite forallb_forall.
  assert (forall i f c, g_flags g !! i = Some f -> rg_tables r !! i = Some c ->
    forallb (fun j => Z.lor (f_flag f !!! j) (f_ignore f !!! j) =? 0xff) (seq 0 32) = true <-> (c_required c = true -> forall s, 0 <= s < 256 -> Exists (covers (Z.of_nat i) s) (c_log c))) as Hone.
  { intros i f c Hf Hc. pose proof (go_flags _ _ Hg i f c Hf Hc) as Hfc. rewrite forallb_forall. setoid_rewrite in_seq. setoid_rewrite Z.eqb_eq.
    trans (forall s, 0 <= s < 256 -> bitOf (f_flag f) s || bitOf (f_ignore f) s = true).
    - split.
      + intros H s Hs. pose proof (section_parts s Hs) as (? & ? & ?). specialize (H (Z.to_nat (s / 8)) ltac:(lia)). unfold bitOf. rewrite <- Z.lor_spec, H.
        apply (byte_full 0xff); [lia|done|lia].
      + intros H j Hj. pose proof (segments_byte _ j (fo_flag _ _ _ Hfc)) as B1. pose proof (segments_byte _ j (fo_ignore _ _ _ Hfc)) as B2.
        apply byte_full; [apply byte_ok_lor; [apply B1|apply B2]; lia|]. intros k Hk. specialize (H (8 * Z.of_nat j + k) ltac:(lia)). unfold bitOf in H.
        replace ((8 * Z.of_nat j + k) / 8) with (Z.of_nat j) in H by dmlia. replace ((8 * Z.of_nat j + k) mod 8) with k in H by dmlia. by rewrite Nat2Z.id, <- Z.lor_spec in H.
    - split.
      + intros H Hr s Hs. specialize (H s Hs). rewrite (fo_received _ _ _ Hfc), (fo_excused _ _ _ Hfc), Hr in H by done. cbn [negb orb] in H.
        apply Exists_exists. apply orb_true_iff in H as [H|H]; apply existsb_exists in H as (e & He%list_elem_of_In & Hx); exists e; (split; [done|]); [left; by apply Z.eqb_eq|by right].
      + intros H s Hs. rewrite (fo_received _ _ _ Hfc), (fo_excused _ _ _ Hfc) by done. destruct (c_required c); [|by rewrite orb_true_r].
        specialize (H eq_refl s Hs). apply Exists_exists in H as (e & He%list_elem_of_In & [Hx|Hx]); apply orb_true_iff; [left|right; apply orb_true_iff; right];
          apply existsb_exists; exists e; (split; [done|]); [by apply Z.eqb_eq|done]. }
  split.
  - intros H i c Hc. destruct (lookup_lt_is_Some_2 (g_flags g) i) as [f Hf]. { rewrite (go_length _ _ Hg), <- (go_length_ref _ _ Hg). by eapply lookup_lt_Some. }
    apply (Hone i f c Hf Hc), H, list_elem_of_In. by eapply list_elem_of_lookup_2.
  - intros H f [i Hf]%list_elem_of_In%list_elem_of_lookup. destruct (lookup_lt_is_Some_2 (rg_tables r) i) as [c Hc]. { rewrite (go_length_ref _ _ Hg), <- (go_length _ _ Hg). by eapply lookup_lt_Some. }
    by apply (Hone i f c Hf Hc), H.
Qed.

(** ** A tracker and its reference *)

Lemma scheduleBaseOf_ok system id base i basic : scheduleBaseOf system id = (base, i, basic, true) ->
  0 <= i < 8 /\ id = base + i /\ basic = basicTable system base /\ forall j, 0 <= j < 8 -> scheduleBaseOf system (base + j) = (base, j, basic, true).
Proof.
  unfold basicTable, scheduleBaseOf, between. intros H. destruct system; repeat (case_match; bools; simplify_eq; try lia).
  all: conjs; try lia; try done; intros j Hj; repeat (case_match; bools; try lia); f_equal; f_equal; f_equal; lia.
Qed.

Lemma lastIndexOf_range system base id : 0 <= lastIndexOf system base id < 8.
Proof.
  unfold lastIndexOf. destruct (scheduleBaseOf system id) as [[[b i] basic] ok] eqn:E. destruct (ok && (b =? base)) eqn:Eb.
  - bools. subst. by apply scheduleBaseOf_ok in E as [? _].
  - change 0x07 with (Z.ones 3). rewrite Z.land_ones by lia. by apply Z.mod_pos_bound.
Qed.

Abbreviation refTracker := (gmap Z refGroup).

Definition refTrack (system : ScheduleSystem) (r : refTracker) (tableID : Z) (h : SectionHeader) (now : Z) : refTracker :=
  let '(base, i, _, ok) := scheduleBaseOf system tableID in
  if ok then <[base := refObserve (default refNew (r !! base)) i (lastIndexOf system base (h_LastTableID h)) h now]> r else r.

Section Tracking.
Context {P : Type}.
Implicit Types t : ScheduleTracker P.

(** A section: its table, header and payload, and when it came. *)
Definition observation : Type := Z * SectionHeader * P * Z.
Definition obsHeader (o : observation) : SectionHeader := o.1.1.2.

Definition observeAll t (l : list observation) : ScheduleTracker P := foldl (fun t '(id, h, p, now) => (ObserveLazy t id h p now).1) t l.
Definition refAll (system : ScheduleSystem) (l : list observation) : refTracker := foldl (fun r '(id, h, _, now) => refTrack system r id h now) ∅ l.

Record trackerOf t (r : refTracker) : Prop := {
  to_groups : forall base, match t_groups t !! base, r !! base with
                           | Some g, Some rg => groupOf g rg /\ g_basic g = basicTable (t_system t) base
                           | None, None => True
                           | _, _ => False
                           end
}.

Lemma ObserveLazy_refines t r id h p now : trackerOf t r -> header_ok h ->
  trackerOf (ObserveLazy t id h p now).1 (refTrack (t_system t) r id h now) /\ t_system (ObserveLazy t id h p now).1 = t_system t.
Proof.
  intros Ht Hh. unfold ObserveLazy, refTrack. destruct (scheduleBaseOf (t_system t) id) as [[[base i] basic] ok] eqn:Eb.
  destruct ok; cbn [negb]; [|done]. pose proof (scheduleBaseOf_ok _ _ _ _ _ Eb) as (Hi & _ & Ebasic & _).
  destruct (storeSection _ _ _) as [table ch1]. unfold observeReady. cbn [t_system]. rewrite Eb. cbn [t_groups t_system t_tables t_latest t_resets].
  set (g0 := default (newGroup base basic) (t_groups t !! base)). set (r0 := default refNew (r !! base)).
  assert (groupOf g0 r0 /\ g_basic g0 = basic) as [Hg0 Hb0].
  { pose proof (to_groups _ _ Ht base) as H. subst g0 r0. destruct (t_groups t !! base), (r !! base); cbn; try done; [by rewrite Ebasic|]. split; [apply newGroup_of|done]. }
  destruct (observeGroup g0 i _ h now) as [[g1 n] ch2] eqn:Eo. destruct (observeGroup_refines _ _ _ _ _ _ _ _ _ Hg0 Hh Hi Eo) as (Hg1 & _ & Hb1).
  cbn [fst t_system t_groups]. split; [|done]. constructor. cbn [t_groups t_system]. intros b. destruct (decide (b = base)) as [-> |Hne].
  - rewrite !lookup_insert_eq. split; [done|]. by rewrite Hb1, Hb0.
  - rewrite !lookup_insert_ne by done. apply (to_groups _ _ Ht b).
Qed.

Lemma observeAll_refines system l : Forall (fun o => header_ok (obsHeader o)) l ->
  trackerOf (observeAll (NewScheduleTracker system) l) (refAll system l) /\ t_system (observeAll (NewScheduleTracker system) l) = system.
Proof.
  intros Hl. unfold observeAll, refAll. assert (trackerOf (NewScheduleTracker (P:=P) system) ∅) as H0 by (by constructor).
  assert (t_system (NewScheduleTracker (P:=P) system) = system) as Hs by done. generalize dependent (@NewScheduleTracker P system). revert Hl. generalize (∅ : refTracker).
  induction l as [|[[[id h] p] now] l IH]; intros r Hl t Ht Hs; [done|]. inversion Hl as [|? ? Hh Hl']; subst. cbn [foldl].
  destruct (ObserveLazy_refines t r id h p now Ht Hh) as [H1 H2]. by apply IH.
Qed.

Lemma groups_forallb t r (Q : scheduleReadyGroup -> bool) (R : Z -> refGroup -> Prop) : trackerOf t r ->
  (forall base g rg, t_groups t !! base = Some g -> r !! base = Some rg -> (Q g = true <-> R base rg)) ->
  forallb Q (trackerGroups t) = true <-> map_Forall R r.
Proof.
  intros Ht HQ. unfold trackerGroups. rewrite forallb_forall. setoid_rewrite in_map_iff. setoid_rewrite <- list_elem_of_In. split.
  - intros H base rg Hr. pose proof (to_groups _ _ Ht base) as Hb. rewrite Hr in Hb. destruct (t_groups t !! base) as [g|] eqn:Eg; [|done].
    apply (HQ base g rg Eg Hr), H. exists (base, g). split; [done|]. by apply elem_of_map_to_list.
  - intros H g ([base g'] & <- & Hg%elem_of_map_to_list). pose proof (to_groups _ _ Ht base) as Hb. rewrite Hg in Hb. destruct (r !! base) as [rg|] eqn:Er; [|done].
    apply (HQ base g' rg Hg Er), (H base rg Er).
Qed.

Lemma groups_existsb t r (Q : scheduleReadyGroup -> bool) (R : Z -> Prop) : trackerOf t r ->
  (forall base g, t_groups t !! base = Some g -> (Q g = true <-> R base)) ->
  existsb Q (trackerGroups t) = true <-> exists base, is_Some (r !! base) /\ R base.
Proof.
  intros Ht HQ. unfold trackerGroups. rewrite existsb_exists. setoid_rewrite in_map_iff. setoid_rewrite <- list_elem_of_In. split.
  - intros (g & ([base g'] & <- & Hg%elem_of_map_to_list) & Hx). exists base. pose proof (to_groups _ _ Ht base) as Hb. rewrite Hg in Hb. destruct (r !! base); [|done]. split; [done|].
    by apply (HQ base g' Hg).
  - intros (base & [rg Hr] & Hx). pose proof (to_groups _ _ Ht base) as Hb. rewrite Hr in Hb. destruct (t_groups t !! base) as [g|] eqn:Eg; [|done].
    exists g. split; [|by apply (HQ base g Eg)]. exists (base, g). split; [done|]. by apply elem_of_map_to_list.
Qed.

Lemma complete_iff t r : trackerOf t r ->
  (BasicComplete t = true <-> (exists base, is_Some (r !! base) /\ basicTable (t_system t) base = true)
     /\ map_Forall (fun base rg => basicTable (t_system t) base = true -> refReady rg) r)
  /\ (ExtendedComplete t = true <-> map_Forall (fun base rg => basicTable (t_system t) base = false -> refReady rg) r)
  /\ (HasExtended t = true <-> exists base, is_Some (r !! base) /\ basicTable (t_system t) base = false).
Proof.
  intros Ht. assert (forall base g, t_groups t !! base = Some g -> g_basic g = basicTable (t_system t) base) as Hb.
  { intros base g Hg. pose proof (to_groups _ _ Ht base) as H. rewrite Hg in H. destruct (r !! base); [by destruct H|done]. }
  assert (forall base g rg, t_groups t !! base = Some g -> r !! base = Some rg -> groupReady g = true <-> refReady rg) as Hready.
  { intros base g rg Hg Hr. apply groupReady_iff. pose proof (to_groups _ _ Ht base) as H. rewrite Hg, Hr in H. by destruct H. }
  conjs.
  - unfold BasicComplete. rewrite andb_true_iff. f_equiv.
    + apply (groups_existsb t r g_basic); [done|]. intros base g Hg. by rewrite (Hb _ _ Hg).
    + apply groups_forallb; [done|]. intros base g rg Hg Hr. rewrite (Hb _ _ Hg), <- (Hready _ _ _ Hg Hr). destruct (basicTable _ base); cbn; naive_solver.
  - apply groups_forallb; [done|]. intros base g rg Hg Hr. rewrite (Hb _ _ Hg), <- (Hready _ _ _ Hg Hr). destruct (basicTable _ base); cbn; naive_solver.
  - apply (groups_existsb t r); [done|]. intros base g Hg. rewrite (Hb _ _ Hg). by destruct (basicTable _ base).
Qed.

(** C12: The bits decide exactly what they should: after any sections, the basic
    schedule counts as complete if and only if some basic table was seen and,
    in every basic group, every section of every table up to the last one was
    received, or excused by a header, since its table was last reset (by a new
    version, or by a change of the number of tables); and likewise for the
    extended schedule. *)
Theorem schedule_coverage_is_exact system (l : list observation) : Forall (fun o => header_ok (obsHeader o)) l ->
  let t := observeAll (NewScheduleTracker system) l in let r := refAll system l in
  (BasicComplete t = true <-> (exists base, is_Some (r !! base) /\ basicTable system base = true) /\ map_Forall (fun base rg => basicTable system base = true -> refReady rg) r)
  /\ (ExtendedComplete t = true <-> map_Forall (fun base rg => basicTable system base = false -> refReady rg) r)
  /\ (HasExtended t = true <-> exists base, is_Some (r !! base) /\ basicTable system base = false).
Proof.
  intros Hl t r. destruct (observeAll_refines system l Hl) as [Ht Es]. fold t r in Ht. fold t in Es. rewrite <- Es. by apply complete_iff.
Qed.

(** ** Progress *)

(** The section is one whose payload is not held, or held in another version. *)
Definition payloadIsNew t (id : Z) (h : SectionHeader) : bool :=
  match t_tables t !! id with
  | None => true
  | Some table => match st_versions table !! h_SectionNumber h with Some v => negb (v =? h_Version h) | None => true end
  end.

Lemma Sections_ext t t' : t_system t = t_system t' -> (forall id, st_payloads <$> t_tables t !! id = st_payloads <$> t_tables t' !! id) -> Sections t = Sections t'.
Proof.
  intros Es H. unfold Sections. rewrite Es. assert (map fst (map_to_list (t_tables t)) ≡ₚ map fst (map_to_list (t_tables t'))) as Hp.
  { apply NoDup_Permutation; [apply NoDup_fst_map_to_list..|]. intros id. rewrite !list_elem_of_fmap. split; intros ([k v] & -> & Hk%elem_of_map_to_list); specialize (H k); rewrite Hk in H; cbn [fst].
    - destruct (t_tables t' !! k) as [v'|] eqn:E; [|done]. exists (k, v'). split; [done|]. by apply elem_of_map_to_list.
    - destruct (t_tables t !! k) as [v'|] eqn:E; [|done]. exists (k, v'). split; [done|]. by apply elem_of_map_to_list. }
  assert (NoDup (map (fun id => id) (map fst (map_to_list (t_tables t))))) as Hnd by (rewrite map_id; apply NoDup_fst_map_to_list).
  rewrite (sortStable_unique (fun id => id) _ _ Hnd Hp). apply list_bind_ext; [|done]. intros id. specialize (H id).
  destruct (t_tables t !! id) as [a|], (t_tables t' !! id) as [b|]; cbn in H; try done. injection H as ->. done.
Qed.

Lemma ObserveLazy_progress t r id h p now t' ch : trackerOf t r -> header_ok h -> ObserveLazy t id h p now = (t', ch) ->
  (ch = true <-> t_groups t' <> t_groups t \/ (let '(_, _, _, ok) := scheduleBaseOf (t_system t) id in ok) = true /\ payloadIsNew t id h = true)
  /\ (ch = false -> t_groups t' = t_groups t /\ Sections t' = Sections t /\ t_latest t' = t_latest t)
  /\ (ch = true -> t_latest t' = Some now).
Proof.
  intros Ht Hh. unfold ObserveLazy, payloadIsNew. destruct (scheduleBaseOf (t_system t) id) as [[[base i] basic] ok] eqn:Eb. destruct ok; cbn [negb].
  2: { intros [= <- <-]. conjs; try done. split; [done|]. by intros [?|[? _]]. }
  pose proof (scheduleBaseOf_ok _ _ _ _ _ Eb) as (Hi & _ & Ebasic & _).
  unfold storeSection. set (table := default newTable (t_tables t !! id)). set (new := match st_versions table !! h_SectionNumber h with None => _ | Some _ => _ end).
  assert (match t_tables t !! id with None => true | Some tb => match st_versions tb !! h_SectionNumber h with Some v => negb (v =? h_Version h) | None => true end end = new) as ->.
  { subst new table. by destruct (t_tables t !! id). }
  unfold observeReady. cbn [t_system t_groups t_tables t_latest t_resets]. rewrite Eb.
  set (g0 := default (newGroup base basic) (t_groups t !! base)). set (r0 := default refNew (r !! base)).
  assert (groupOf g0 r0) as Hg0.
  { pose proof (to_groups _ _ Ht base) as H. subst g0 r0. destruct (t_groups t !! base), (r !! base); cbn; try done; [by destruct H|]. apply newGroup_of. }
  destruct (observeGroup g0 i _ h now) as [[g1 n] ch2] eqn:Eo. destruct (observeGroup_refines _ _ _ _ _ _ _ _ _ Hg0 Hh Hi Eo) as (Hg1 & Hch & _).
  intros [= <- <-]. cbn [t_groups t_tables t_latest t_system].
  assert (ch2 = true <-> <[base := g1]> (t_groups t) <> t_groups t) as Hch2.
  { rewrite Hch. split.
    - intros Hne E. apply Hne. assert (t_groups t !! base = Some g1) as Hx by (rewrite <- E; apply lookup_insert_eq). subst g0. by rewrite Hx.
    - intros Hne E. apply Hne, insert_id. subst g0. destruct (t_groups t !! base) as [g|] eqn:Eg; cbn in E; [by rewrite E|].
      exfalso. assert (g_lastFlagsID g1 = lastIndexOf (t_system t) base (h_LastTableID h)) as Hl.
      { unfold observeGroup in Eo. cbv zeta in Eo. destruct (markSection _ _ _ _ _) in Eo. by injection Eo as <- _ _. }
      rewrite E in Hl. pose proof (lastIndexOf_range (t_system t) base (h_LastTableID h)). cbn in Hl. lia. }
  conjs.
  - rewrite orb_true_iff, Hch2. tauto.
  - intros [En Ec]%orb_false_iff. assert (<[base := g1]> (t_groups t) = t_groups t) as Eg.
    { destruct (decide (<[base := g1]> (t_groups t) = t_groups t)); [done|]. by rewrite (proj2 Hch2) in Ec. }
    conjs; [done| |by rewrite En, Ec]. apply Sections_ext; [done|]. intros j. cbn [t_tables]. destruct (decide (j = id)) as [-> |Hne]; [|by rewrite lookup_insert_ne by done].
    rewrite lookup_insert_eq, En. cbn. subst table new. destruct (t_tables t !! id); [done|]. cbn in En. by rewrite lookup_empty in En.
  - by intros ->.
Qed.

(** [Observe] reports progress exactly when there is some: the coverage
    changed, or the payload is of a section or a version not yet held; without
    progress the coverage, the payloads and the time of the last progress stay
    as they were, so that [StableFor] measures how long nothing new came. *)
Theorem progress_is_real system (l : list observation) id h p now t' ch :
  Forall (fun o => header_ok (obsHeader o)) l -> header_ok h ->
  let t := observeAll (NewScheduleTracker system) l in ObserveLazy t id h p now = (t', ch) ->
  (ch = true <-> t_groups t' <> t_groups t \/ (let '(_, _, _, ok) := scheduleBaseOf system id in ok) = true /\ payloadIsNew t id h = true)
  /\ (ch = false -> t_groups t' = t_groups t /\ Sections t' = Sections t /\ t_latest t' = t_latest t)
  /\ (ch = true -> t_latest t' = Some now).
Proof.
  intros Hl Hh t E. destruct (observeAll_refines system l Hl) as [Ht Es]. fold t in Ht, Es. rewrite <- Es. by eapply ObserveLazy_progress.
Qed.

(** ** A full cycle *)

(** No table has a number above the last table that its header names. *)
Definition conforms (system : ScheduleSystem) (o : observation) : Prop :=
  header_ok (obsHeader o) /\ let '(base, i, _, ok) := scheduleBaseOf system o.1.1.1 in ok = true -> i <= lastIndexOf system base (h_LastTableID (obsHeader o)).

(** Then exactly the tables up to the last one are required. *)
Record refOk (r : refGroup) : Prop := {
  ro_length : length (rg_tables r) = 8%nat;
  ro_last : -1 <= rg_last r < 8;
  ro_required : forall j c, rg_tables r !! j = Some c -> (c_required c = true <-> Z.of_nat j <= rg_last r);
  ro_version : forall j c, rg_tables r !! j = Some c -> exists v, Forall (fun e => h_Version e.1 = v) (c_log c)
}.

Lemma refNew_ok : refOk refNew.
Proof.
  constructor; cbn [refNew rg_tables rg_last]; [done|lia| |]; intros j c [-> _]%lookup_replicate; cbn; [split; [done|lia]|by exists 0; constructor].
Qed.

Lemma refObserve_ok r i last h now : refOk r -> 0 <= i <= last -> last < 8 -> refOk (refObserve r i last h now).
Proof.
  intros [Hlen Hl Hreq Hv] Hi Hlast. unfold refObserve. cbv zeta. set (tables := if rg_last r =? last then _ else _).
  assert (length tables = 8%nat /\ forall j c, tables !! j = Some c -> (c_required c = true <-> Z.of_nat j <= last) /\ exists v, Forall (fun e => h_Version e.1 = v) (c_log c)) as [Ht Hc].
  { subst tables. destruct (Z.eqb_spec (rg_last r) last) as [<-|Hne]; [split; [done|intros; split; [by apply Hreq|by eapply Hv]]|]. split; [by rewrite length_imap|].
    intros j c. rewrite list_lookup_imap. destruct (rg_tables r !! j) as [c0|] eqn:E; cbn; [|done]. intros [= <-].
    destruct ((last <? Z.of_nat j) || (rg_last r <? Z.of_nat j)) eqn:Eb; cbn [c_required c_log]; [split; [apply Z.leb_le|by exists 0; constructor]|]. bools. split; [|by eapply Hv].
    rewrite (Hreq _ _ E). lia. }
  destruct (lookup_lt_is_Some_2 tables (Z.to_nat i)) as [c Ec]; [lia|]. rewrite (list_lookup_total_correct _ _ _ Ec). destruct (Hc _ _ Ec) as [Hcr [v Hcv]].
  set (c1 := match c_log c with [] => c | _ => _ end). assert (c_required c1 = true /\ Forall (fun e => h_Version e.1 = h_Version h) (c_log c1)) as [Hr1 Hv1].
  { assert (c_required c = true) as Hcr' by (apply Hcr; lia). subst c1. destruct (c_log c) as [|[h' n'] log] eqn:El; [by rewrite El|]. inversion Hcv as [|? ? Hx Hxs]; subst.
    destruct (Z.eqb_spec (h_Version h') (h_Version h)) as [<-|]; [by rewrite El|done]. }
  constructor; cbn [rg_tables rg_last]; [by rewrite length_insert|lia| |]; intros j cj; (destruct (decide (j = Z.to_nat i)) as [-> |Hne];
    [rewrite list_lookup_insert_eq by lia; intros [= <-]; cbn [c_required c_log]|rewrite list_lookup_insert_ne by done; intros Hj; by apply (Hc j cj Hj)]).
  - rewrite Hr1. split; [lia|done].
  - exists (h_Version h). by constructor.
Qed.

Lemma refTrack_ok system r o : conforms system o -> map_Forall (fun _ => refOk) r -> map_Forall (fun _ => refOk) (refTrack system r o.1.1.1 (obsHeader o) o.2).
Proof.
  intros [Hh Hc] Hr. unfold refTrack. destruct (scheduleBaseOf system o.1.1.1) as [[[base i] basic] ok] eqn:Eb. destruct ok; [|done].
  pose proof (scheduleBaseOf_ok _ _ _ _ _ Eb) as (Hi & _). specialize (Hc eq_refl). pose proof (lastIndexOf_range system base (h_LastTableID (obsHeader o))).
  apply map_Forall_insert_2; [|done]. apply refObserve_ok; [|lia..]. destruct (r !! base) as [rg|] eqn:Er; cbn; [by apply (Hr base)|apply refNew_ok].
Qed.

(** What a service sends in one group: the last table, and for every table its
    version, its last section and the last section of each segment. *)
Record layout := mkLayout {
  y_last : Z;
  y_version : Z -> Z;
  y_lastSection : Z -> Z;
  y_segmentLast : Z -> Z -> Z
}.

Definition sends (y : layout) (i s : Z) : Prop := 0 <= s /\ s / 8 <= y_lastSection y i / 8 /\ s mod 8 <= y_segmentLast y i (s / 8) mod 8.

(** A section of the group [base] with such a layout. *)
Definition fits (system : ScheduleSystem) (base : Z) (y : layout) (o : observation) : Prop :=
  header_ok (obsHeader o) /\ exists i, scheduleBaseOf system o.1.1.1 = (base, i, basicTable system base, true) /\ i <= y_last y
  /\ lastIndexOf system base (h_LastTableID (obsHeader o)) = y_last y /\ h_Version (obsHeader o) = y_version y i
  /\ h_LastSectionNumber (obsHeader o) = y_lastSection y i /\ h_SegmentLastSection (obsHeader o) = y_segmentLast y i (h_SectionNumber (obsHeader o) / 8).

Definition isSection (system : ScheduleSystem) (base i s : Z) (o : observation) : Prop :=
  o.1.1.1 = base + i /\ h_SectionNumber (obsHeader o) = s.

Definition logged (r : refTracker) (base i : Z) (e : SectionHeader * Z) : Prop :=
  exists rg c, r !! base = Some rg /\ rg_tables rg !! Z.to_nat i = Some c /\ e ∈ c_log c.

Lemma refTrack_keeps system base y r o i o' : fits system base y o -> fits system base y o' -> map_Forall (fun _ => refOk) r ->
  0 <= i < 8 -> o'.1.1.1 = base + i -> logged r base i (obsHeader o', o'.2) -> (exists rg, r !! base = Some rg /\ rg_last rg = y_last y) ->
  logged (refTrack system r o.1.1.1 (obsHeader o) o.2) base i (obsHeader o', o'.2).
Proof.
  intros (Hh & k & Eb & Hk & El & Ev & _ & _) (_ & i' & Eb' & _ & _ & Ev' & _ & _) Hr Hi Eo (rg & c & Erg & Ec & He) (rg' & Erg' & Elast).
  assert (rg' = rg) as -> by congruence. pose proof (scheduleBaseOf_ok _ _ _ _ _ Eb') as (_ & Ei & _). assert (i' = i) as -> by lia. clear Ei Eb'.
  pose proof (scheduleBaseOf_ok _ _ _ _ _ Eb) as (Hk8 & _). unfold refTrack. rewrite Eb, Erg. cbn [default id].
  unfold logged. rewrite lookup_insert_eq, El. unfold refObserve. rewrite Elast, Z.eqb_refl. cbv zeta.
  pose proof (ro_length _ (Hr _ _ Erg)) as Hlen. destruct (decide (Z.to_nat k = Z.to_nat i)) as [E|Hne].
  - assert (k = i) as -> by lia. rewrite (list_lookup_total_correct _ _ _ Ec). eexists _, _. split; [done|]. cbn [rg_tables]. split; [rewrite list_lookup_insert_eq by lia; done|]. cbn [c_log].
    destruct (ro_version _ (Hr _ _ Erg) _ _ Ec) as [v Hv]. rewrite Forall_forall in Hv. pose proof (Hv _ He) as Hv1. cbn in Hv1. right.
    destruct (c_log c) as [|[h' n'] log] eqn:Elog; [by apply not_elem_of_nil in He|]. assert (h_Version h' = v) as Hv2 by (apply (Hv (h', n')); left). rewrite Ev, <- Ev', Hv1, Hv2, Z.eqb_refl. by rewrite Elog.
  - eexists _, c. split; [done|]. cbn [rg_tables]. split; [|done]. by rewrite list_lookup_insert_ne.
Qed.

Lemma refTrack_logs system base y r o i : fits system base y o -> map_Forall (fun _ => refOk) r -> 0 <= i < 8 -> o.1.1.1 = base + i ->
  logged (refTrack system r o.1.1.1 (obsHeader o) o.2) base i (obsHeader o, o.2).
Proof.
  intros (Hh & k & Eb & Hk & El & _) Hr Hi Eo. pose proof (scheduleBaseOf_ok _ _ _ _ _ Eb) as (_ & Ei & _). assert (k = i) as -> by lia. unfold refTrack. rewrite Eb. unfold logged. rewrite lookup_insert_eq.
  assert (refOk (default refNew (r !! base))) as [Hlen _ _ _] by (destruct (r !! base) as [rg|] eqn:Er; cbn; [by apply (Hr base)|apply refNew_ok]).
  unfold refObserve. cbv zeta. eexists _, _. split; [done|]. cbn [rg_tables]. split; [rewrite list_lookup_insert_eq; [done|destruct (_ =? _); rewrite ?length_imap; lia]|]. cbn [c_log]. left.
Qed.

Lemma fits_conforms system base y o : fits system base y o -> conforms system o.
Proof. intros (Hh & i & Eb & Hi & El & _). split; [done|]. rewrite Eb, El. done. Qed.

Definition refFrom (system : ScheduleSystem) (r : refTracker) (l : list observation) : refTracker := foldl (fun r '(id, h, _, now) => refTrack system r id h now) r l.

Lemma refFrom_ok system l : forall r, Forall (conforms system) l -> map_Forall (fun _ => refOk) r -> map_Forall (fun _ => refOk) (refFrom system r l).
Proof.
  induction l as [|o l IH]; intros r Hl Hr; [done|]. inversion Hl as [|? ? Ho Hl']; subst. cbn [refFrom foldl]. destruct o as [[[id h] p] now] eqn:Eo. apply IH; [done|].
  exact (refTrack_ok system r (id, h, p, now) Ho Hr).
Qed.

(** After a cycle, all its headers count. *)
Lemma refFrom_cycle system base y l r : Forall (fits system base y) l -> map_Forall (fun _ => refOk) r ->
  (l <> [] -> exists rg, refFrom system r l !! base = Some rg /\ rg_last rg = y_last y)
  /\ forall o i, o ∈ l -> 0 <= i < 8 -> o.1.1.1 = base + i -> logged (refFrom system r l) base i (obsHeader o, o.2).
Proof.
  intros Hl Hr. induction l as [|x l IH] using rev_ind; [split; [done|by intros ? ? ?%not_elem_of_nil]|].
  apply Forall_app in Hl as [Hl Hx]. apply Forall_inv in Hx. destruct (IH Hl) as [IH1 IH2].
  assert (refFrom system r (l ++ [x]) = refTrack system (refFrom system r l) x.1.1.1 (obsHeader x) x.2) as E.
  { unfold refFrom. rewrite foldl_app. cbn [foldl]. by destruct x as [[[? ?] ?] ?]. }
  assert (map_Forall (fun _ => refOk) (refFrom system r l)) as Hok by (apply refFrom_ok; [eapply Forall_impl; [exact Hl|apply fits_conforms]|done]).
  rewrite E. split.
  - intros _. destruct Hx as (_ & k & Eb & _ & El & _). unfold refTrack. rewrite Eb, lookup_insert_eq. eexists. split; [done|]. by unfold refObserve.
  - intros o i Ho Hi Eo. apply elem_of_app in Ho as [Ho|Ho]; [|apply list_elem_of_singleton in Ho as ->; by eapply refTrack_logs]. assert (fits system base y o) as Hfo by (by rewrite Forall_forall in Hl; apply Hl).
    eapply refTrack_keeps; [exact Hx|exact Hfo|done..|by apply IH2|]. apply IH1. intros ->. by apply not_elem_of_nil in Ho.
Qed.

Lemma cycle_ready system base y l r : 0 <= y_last y -> Forall (fits system base y) l -> map_Forall (fun _ => refOk) r ->
  (forall i s, 0 <= i <= y_last y -> sends y i s -> Exists (isSection system base i s) l) ->
  (forall i, 0 <= i <= y_last y -> 0 <= y_lastSection y i < 256) -> y_last y < 8 ->
  exists rg, refFrom system r l !! base = Some rg /\ refReady rg.
Proof.
  intros H0 Hl Hr Hall Hlast H8. destruct (refFrom_cycle system base y l r Hl Hr) as [Hg Hlog].
  assert (forall i, 0 <= i <= y_last y -> sends y i 0) as Hzero. { intros i Hi. specialize (Hlast i Hi). split; [lia|]. change (0 / 8) with 0. change (0 mod 8) with 0. split; [dmlia|]. by apply Z.mod_pos_bound. }
  destruct Hg as (rg & Erg & Elast). { intros ->. specialize (Hall 0 0 ltac:(lia) (Hzero 0 ltac:(lia))). by apply Exists_nil in Hall. }
  exists rg. split; [done|]. assert (refOk rg) as Hok. { eapply (refFrom_ok system l r); [eapply Forall_impl; [exact Hl|apply fits_conforms]|done|done]. }
  intros j c Hj Hreq s Hs. apply (ro_required _ Hok _ _ Hj) in Hreq. set (i := Z.of_nat j) in *. assert (0 <= i <= y_last y) as Hi by lia.
  assert (forall s', sends y i s' -> exists o, fits system base y o /\ h_SectionNumber (obsHeader o) = s' /\ (obsHeader o, o.2) ∈ c_log c
    /\ h_LastSectionNumber (obsHeader o) = y_lastSection y i /\ h_SegmentLastSection (obsHeader o) = y_segmentLast y i (s' / 8)) as Hin.
  { intros s' Hs'. destruct (proj1 (Exists_exists _ _) (Hall i s' Hi Hs')) as (o & Ho & Eo & Es). exists o. assert (fits system base y o) as Hfo by (by rewrite Forall_forall in Hl; apply Hl).
    destruct (Hlog o i Ho ltac:(lia) Eo) as (rg' & c' & Erg' & Ec' & He). assert (rg' = rg) as -> by congruence. subst i. rewrite Nat2Z.id in Ec'. assert (c' = c) as -> by congruence.
    pose proof Hfo as (_ & k & Eb & _ & _ & _ & E1 & E2). pose proof (scheduleBaseOf_ok _ _ _ _ _ Eb) as (_ & Ek & _). assert (k = Z.of_nat j) as -> by lia.
    rewrite Es in E2. by conjs. }
  apply Exists_exists. pose proof (section_parts s Hs) as (_ & Hm & Hd). destruct (Z.ltb_spec (y_lastSection y i / 8) (s / 8)) as [Hlt|Hge].
  - destruct (Hin 0 (Hzero i Hi)) as (o & _ & _ & He & E1 & _). exists (obsHeader o, o.2). split; [done|right]. unfold excuses. cbn [fst snd]. rewrite E1, (proj2 (Z.ltb_lt (y_lastSection y i / 8) _) Hlt). by rewrite orb_true_r.
  - destruct (Z.ltb_spec (y_segmentLast y i (s / 8) mod 8) (s mod 8)) as [Hlt|Hge'].
    + assert (s / 8 * 8 / 8 = s / 8) as Es8 by (by rewrite Z.div_mul). destruct (Hin (s / 8 * 8)) as (o & _ & Eso & He & _ & E2).
      { split; [lia|]. rewrite Es8, Z.mod_mul by done. split; [done|]. by apply Z.mod_pos_bound. }
      exists (obsHeader o, o.2). split; [done|right]. unfold excuses. cbn [fst snd]. rewrite Eso, Es8, Z.eqb_refl, E2, Es8, (proj2 (Z.ltb_lt _ (s mod 8)) Hlt). apply orb_true_r.
    + destruct (Hin s) as (o & _ & Eso & He & _); [by repeat split; lia|]. exists (obsHeader o, o.2). split; [done|by left].
Qed.

(** C35: A full cycle completes the schedule: whatever was received before, as
    long as it conformed, once every section that the service sends in a group
    has come, in any order and with any repetitions, the group is complete. *)
Theorem full_cycle_completes system base y (before cycle : list observation) :
  Forall (conforms system) before -> Forall (fits system base y) cycle -> 0 <= y_last y < 8 ->
  (forall i, 0 <= i <= y_last y -> 0 <= y_lastSection y i < 256) ->
  (forall i s, 0 <= i <= y_last y -> sends y i s -> Exists (isSection system base i s) cycle) ->
  exists g, t_groups (observeAll (NewScheduleTracker system) (before ++ cycle)) !! base = Some g /\ groupReady g = true.
Proof.
  intros Hb Hc Hl Hls Hall. assert (Forall (fun o => header_ok (obsHeader o)) (before ++ cycle)) as Hh.
  { apply Forall_app. split; (eapply Forall_impl; [eassumption|]). - by intros o [? _]. - by intros o [? _]. }
  destruct (observeAll_refines system (before ++ cycle) Hh) as [Ht _]. pose proof (to_groups _ _ Ht base) as Hg.
  assert (map_Forall (fun _ => refOk) (refFrom system ∅ before)) as Hok by (apply refFrom_ok; [done|apply map_Forall_empty]).
  destruct (cycle_ready system base y cycle _ ltac:(lia) Hc Hok Hall Hls ltac:(lia)) as (rg & Erg & Hready).
  assert (refAll system (before ++ cycle) = refFrom system (refFrom system ∅ before) cycle) as E by (unfold refAll, refFrom; by rewrite foldl_app).
  rewrite E, Erg in Hg. destruct (t_groups _ !! base) as [g|]; [|done]. exists g. split; [done|]. by apply (groupReady_iff g rg (proj1 Hg)).
Qed.

(** ** The diagnosis *)

Lemma missingSections_elem g r i s : groupOf g r -> 0 <= i < 8 ->
  s ∈ missingSections g i <-> 0 <= s < 256 /\ bitOf (f_flag (g_flags g !!! Z.to_nat i)) s || bitOf (f_ignore (g_flags g !!! Z.to_nat i)) s = false.
Proof.
  intros Hg Hi. destruct (group_lookup g r (Z.to_nat i) Hg) as (f & c & Ef & _ & Hfc); [lia|]. unfold missingSections. rewrite (list_lookup_total_correct _ _ _ Ef). cbv zeta.
  assert (forall k j, 0 <= k < 32 -> 0 <= j < 8 ->
    (Z.land (Z.lxor (Z.lor (f_flag f !!! Z.to_nat k) (f_ignore f !!! Z.to_nat k)) 0xff) (Z.shiftl 1 j) =? 0) = bitOf (f_flag f) (k * 8 + j) || bitOf (f_ignore f) (k * 8 + j)) as Hbit.
  { intros k j Hk Hj. rewrite land_bit, Z.lxor_spec, Z.lor_spec by lia. rewrite (proj1 (byte_full 0xff ltac:(lia)) eq_refl j Hj). unfold bitOf.
    replace ((k * 8 + j) / 8) with k by dmlia. replace ((k * 8 + j) mod 8) with j by dmlia. by destruct (_ || _). }
  rewrite list_elem_of_bind. split.
  - intros (k & Hk & Hs%elem_of_seqZ). apply list_elem_of_bind in Hk as (j & Hj & Hj8%elem_of_seqZ). rewrite Hbit in Hj by lia.
    destruct (_ || _) eqn:E; [by apply not_elem_of_nil in Hj|]. apply list_elem_of_singleton in Hj as ->. split; [lia|done].
  - intros [Hs Hb]. pose proof (section_parts s Hs) as (_ & Hm & Hd). exists (s / 8). split; [|apply elem_of_seqZ; lia]. apply list_elem_of_bind. exists (s mod 8). split; [|apply elem_of_seqZ; lia].
    rewrite Hbit by lia. replace (s / 8 * 8 + s mod 8) with s by dmlia. rewrite Hb. apply list_elem_of_singleton. done.
Qed.

(** A table with a header since its last reset is among the tables. *)
Definition tablesKnown t (r : refTracker) : Prop :=
  forall base rg j c, r !! base = Some rg -> rg_tables rg !! j = Some c -> c_log c <> [] -> is_Some (t_tables t !! (base + Z.of_nat j)).

Lemma refObserve_logs r i last h now j c : rg_tables (refObserve r i last h now) !! j = Some c -> c_log c <> [] ->
  j = Z.to_nat i \/ exists c', rg_tables r !! j = Some c' /\ c_log c' <> [].
Proof.
  unfold refObserve. cbv zeta. cbn [rg_tables]. destruct (decide (j = Z.to_nat i)) as [-> |Hne]; [by left|]. rewrite list_lookup_insert_ne by done. intros Hj Hn. right.
  destruct (_ =? _); [by exists c|]. rewrite list_lookup_imap in Hj. destruct (rg_tables r !! j) as [c'|]; cbn in Hj; [|done]. injection Hj as <-. destruct (_ || _); [done|]. by exists c'.
Qed.

Lemma ObserveLazy_known t r id h p now : tablesKnown t r -> tablesKnown (ObserveLazy t id h p now).1 (refTrack (t_system t) r id h now).
Proof.
  intros Hk. unfold ObserveLazy, refTrack. destruct (scheduleBaseOf (t_system t) id) as [[[base i] basic] ok] eqn:Eb. destruct ok; cbn [negb]; [|done].
  pose proof (scheduleBaseOf_ok _ _ _ _ _ Eb) as (Hi & Eid & _). destruct (storeSection _ _ _) as [table ch1]. unfold observeReady. cbn [t_system t_groups t_tables t_latest t_resets].
  rewrite Eb. destruct (observeGroup _ _ _ _ _) as [[g1 n] ch2]. unfold tablesKnown. cbn [fst t_tables]. intros b rg j c Hb Hj Hn.
  destruct (decide (b + Z.of_nat j = id)) as [-> |Hne]; [by rewrite lookup_insert_eq|]. rewrite lookup_insert_ne by done.
  destruct (decide (b = base)) as [-> |Hne']; [|rewrite lookup_insert_ne in Hb by done; by eapply Hk]. rewrite lookup_insert_eq in Hb. injection Hb as <-.
  destruct (refObserve_logs _ _ _ _ _ _ _ Hj Hn) as [-> |(c' & Hc' & Hn')]; [lia|]. destruct (r !! base) as [rg|] eqn:Er; cbn [default] in Hc'; [by eapply Hk|]. cbn [refNew rg_tables] in Hc'.
  by apply lookup_replicate in Hc' as [-> _].
Qed.

Lemma observeAll_known system l : Forall (fun o => header_ok (obsHeader o)) l -> tablesKnown (observeAll (NewScheduleTracker system) l) (refAll system l).
Proof.
  intros Hl. unfold observeAll, refAll. assert (t_system (NewScheduleTracker (P:=P) system) = system) as Hs by done.
  assert (tablesKnown (NewScheduleTracker (P:=P) system) ∅) as H0 by (intros base rg j c Hb; by rewrite lookup_empty in Hb).
  assert (trackerOf (NewScheduleTracker (P:=P) system) ∅) as Ht by (by constructor).
  generalize dependent (@NewScheduleTracker P system). revert Hl. generalize (∅ : refTracker).
  induction l as [|[[[id h] p] now] l IH]; intros r Hl t Hs H0 Ht; [done|]. inversion Hl as [|? ? Hh Hl']; subst. cbn [foldl].
  destruct (ObserveLazy_refines t r id h p now Ht Hh) as [H1 H2]. apply IH; [done..|by apply ObserveLazy_known|done].
Qed.

(** The diagnosis is the truth: of a stream whose tables are not numbered
    above their last table, it lists nothing if and only if all groups, basic
    and extended, are complete. *)
Theorem diagnosis_is_complete system (l : list observation) : Forall (conforms system) l ->
  let t := observeAll (NewScheduleTracker system) l in Diagnosis t = [] <-> forallb groupReady (trackerGroups t) = true.
Proof.
  intros Hc t. assert (Forall (fun o => header_ok (obsHeader o)) l) as Hh by (eapply Forall_impl; [exact Hc|by intros o [? _]]).
  destruct (observeAll_refines system l Hh) as [Ht _]. pose proof (observeAll_known system l Hh) as Hk. fold t in Ht, Hk.
  assert (map_Forall (fun _ => refOk) (refAll system l)) as Hok by (apply (refFrom_ok system l ∅); [done|apply map_Forall_empty]).
  assert (forall base g, t_groups t !! base = Some g ->
    (groupReady g = true <-> forall i, 0 <= i <= g_lastFlagsID g -> is_Some (t_tables t !! (base + i)) /\ missingSections g i = [])) as Hone.
  { intros base g Hg. pose proof (to_groups _ _ Ht base) as Hb. rewrite Hg in Hb. destruct (refAll system l !! base) as [rg|] eqn:Er; [|done]. destruct Hb as [Hgr _].
    pose proof (Hok base rg Er) as Hro. pose proof (ro_last _ Hro) as Hlast. pose proof (go_last _ _ Hgr) as El. rewrite (groupReady_iff _ _ Hgr).
    assert (forall i, 0 <= i <= g_lastFlagsID g -> exists f c, g_flags g !! Z.to_nat i = Some f /\ rg_tables rg !! Z.to_nat i = Some c /\ flagOf (Z.to_nat i) f c /\ c_required c = true) as Hat.
    { intros i Hi. destruct (group_lookup g rg (Z.to_nat i) Hgr) as (f & c & Ef & Ec & Hfc); [lia|]. exists f, c. conjs; try done. apply (ro_required _ Hro _ _ Ec). lia. }
    split.
    - intros Hready i Hi. destruct (Hat i Hi) as (f & c & Ef & Ec & Hfc & Hreq). pose proof (Hready _ _ Ec Hreq) as Hcov. split.
      + replace i with (Z.of_nat (Z.to_nat i)) by lia. eapply Hk; [done|done|]. intros Hnil. specialize (Hcov 0 ltac:(lia)). rewrite Hnil in Hcov. by apply Exists_nil in Hcov.
      + apply elem_of_nil_inv. intros s Hs. apply (missingSections_elem g rg) in Hs as [Hs Hb]; [|done|lia]. rewrite (list_lookup_total_correct _ _ _ Ef) in Hb.
        rewrite (fo_received _ _ _ Hfc), (fo_excused _ _ _ Hfc), Hreq in Hb by done. cbn [negb orb] in Hb. apply orb_false_iff in Hb as [B1 B2].
        specialize (Hcov s Hs). apply Exists_exists in Hcov as (e & He%list_elem_of_In & [Hx|Hx]).
        * by rewrite (proj2 (existsb_exists _ _)) in B1; [|exists e; split; [done|by apply Z.eqb_eq]].
        * by rewrite (proj2 (existsb_exists _ _)) in B2; [|exists e].
    - intros H j c Hc' Hreq s Hs. apply (ro_required _ Hro _ _ Hc') in Hreq. destruct (H (Z.of_nat j)) as [_ Hm]; [lia|]. destruct (Hat (Z.of_nat j)) as (f & c' & Ef & Ec & Hfc & Hr'); [lia|].
      rewrite Nat2Z.id in *. assert (c' = c) as -> by congruence. destruct (bitOf (f_flag f) s || bitOf (f_ignore f) s) eqn:Eb.
      + rewrite (fo_received _ _ _ Hfc), (fo_excused _ _ _ Hfc), Hr' in Eb by done. cbn [negb orb] in Eb. apply Exists_exists.
        apply orb_true_iff in Eb as [E|E]; apply existsb_exists in E as (e & He%list_elem_of_In & Hx); exists e; (split; [done|]); [left; by apply Z.eqb_eq|by right].
      + assert (s ∈ missingSections g (Z.of_nat j)) as Hx; [|rewrite Hm in Hx; by apply not_elem_of_nil in Hx].
        apply (missingSections_elem g rg); [done|lia|]. rewrite Nat2Z.id, (list_lookup_total_correct _ _ _ Ef). done. }
  unfold Diagnosis, trackerGroups. rewrite forallb_forall. setoid_rewrite in_map_iff. setoid_rewrite <- list_elem_of_In. split.
  - intros Hnil g ([base g'] & <- & Hg%elem_of_map_to_list). apply (Hone base g' Hg). cbn [snd]. intros i Hi.
    assert (forall x, x ∉ (match t_tables t !! (base + i) with None => [MissingTable (base + i)] | Some _ => map (MissingSection (base + i)) (missingSections g' i) end)) as Hno.
    { intros x Hx. apply (not_elem_of_nil x). rewrite <- Hnil. apply list_elem_of_bind. exists (base, g'). split; [|by apply elem_of_map_to_list]. apply list_elem_of_bind. exists i. split; [done|]. apply elem_of_seqZ. lia. }
    destruct (t_tables t !! (base + i)) as [tb|]; [|exfalso; by apply (Hno (MissingTable (base + i))), list_elem_of_singleton]. split; [done|]. apply elem_of_nil_inv. intros s Hs. apply (Hno (MissingSection (base + i) s)). by apply list_elem_of_fmap_2.
  - intros H. apply elem_of_nil_inv. intros x Hx. apply list_elem_of_bind in Hx as ([base g] & Hx & Hg%elem_of_map_to_list). apply list_elem_of_bind in Hx as (i & Hx & Hi%elem_of_seqZ).
    assert (groupReady g = true) as Hr by (apply H; exists (base, g); split; [done|by apply elem_of_map_to_list]). destruct (proj1 (Hone base g Hg) Hr i ltac:(lia)) as [[tb Htb] Hm]. rewrite Htb, Hm in Hx. by apply not_elem_of_nil in Hx.
Qed.
End Tracking.
Arguments observation : clear implicits.

(** ** Runs *)

(** A schedule of one table with the sections 0 and 1, at midnight in Japan. *)
Definition demoSection (s : Z) : observation Z := (0x50, mkHeader 1 3 s 1 true 0x50 1, 7 + s, 54000000000000).
Definition demoSchedule : list (observation Z) := [demoSection 1; demoSection 0].
Definition demoLayout : layout := mkLayout 0 (fun _ => 3) (fun _ => 1) (fun _ _ => 1).

Lemma demoSection_fits s : 0 <= s < 8 -> fits ScheduleTS 0x50 demoLayout (demoSection s).
Proof. intros. split; [unfold header_ok, byte_ok; cbn; lia|]. exists 0. by conjs. Qed.

Lemma demoSchedule_conforms : Forall (conforms ScheduleTS) demoSchedule.
Proof. repeat constructor; try apply (fits_conforms ScheduleTS 0x50 demoLayout), demoSection_fits; unfold header_ok, byte_ok; cbn; lia. Qed.

Lemma demoSchedule_headers : Forall (fun o => header_ok (obsHeader o)) demoSchedule.
Proof. eapply Forall_impl; [apply demoSchedule_conforms|by intros o [? _]]. Qed.

Lemma schedule_coverage_is_exact_witness : BasicComplete (observeAll (NewScheduleTracker ScheduleTS) demoSchedule) = true
  /\ map_Forall (fun base rg => basicTable ScheduleTS base = true -> refReady rg) (refAll ScheduleTS demoSchedule).
Proof.
  assert (BasicComplete (observeAll (NewScheduleTracker ScheduleTS) demoSchedule) = true) as H by (vm_compute; reflexivity). split; [exact H|].
  exact (proj2 (proj1 (proj1 (schedule_coverage_is_exact ScheduleTS demoSchedule demoSchedule_headers)) H)).
Defined.

Lemma progress_is_real_witness :
  let t := observeAll (NewScheduleTracker ScheduleTS) demoSchedule in
  Sections (ObserveLazy t 0x50 (obsHeader (demoSection 0)) 9 54000000000000).1 = Sections t /\ Sections t = [(true, 7); (true, 8)].
Proof.
  intros t. split; [|vm_compute; reflexivity].
  assert (ObserveLazy t 0x50 (obsHeader (demoSection 0)) 9 54000000000000 = ((ObserveLazy t 0x50 (obsHeader (demoSection 0)) 9 54000000000000).1, false)) as E.
  { apply injective_projections; [reflexivity|vm_compute; reflexivity]. }
  assert (header_ok (obsHeader (demoSection 0))) as Hh by (unfold header_ok, byte_ok; cbn; lia).
  exact (proj1 (proj2 (proj1 (proj2 (progress_is_real ScheduleTS demoSchedule 0x50 _ 9 54000000000000 _ false demoSchedule_headers Hh E)) eq_refl))).
Defined.

Lemma full_cycle_completes_witness :
  exists g, t_groups (observeAll (NewScheduleTracker ScheduleTS) (demoSchedule ++ demoSchedule)) !! 0x50 = Some g /\ groupReady g = true.
Proof.
  apply (full_cycle_completes ScheduleTS 0x50 demoLayout demoSchedule demoSchedule); [apply demoSchedule_conforms|repeat constructor; apply demoSection_fits; lia|cbn; lia|cbn; lia|].
  cbn [y_last demoLayout]. intros i s Hi (H0 & H1 & H2). assert (i = 0) as -> by lia. cbn [y_lastSection y_segmentLast demoLayout] in H1, H2. change (1 / 8) with 0 in H1. change (1 mod 8) with 1 in H2.
  assert (s = 0 \/ s = 1) as [-> | ->] by dmlia; [right; left|left]; done.
Defined.

Lemma diagnosis_is_complete_witness : Diagnosis (observeAll (NewScheduleTracker ScheduleTS) demoSchedule) = []
  /\ Diagnosis (observeAll (NewScheduleTracker ScheduleTS) [demoSection 1]) = [MissingSection 0x50 0].
Proof.
  split; [|vm_compute; reflexivity]. apply (diagnosis_is_complete ScheduleTS demoSchedule demoSchedule_conforms). vm_compute. reflexivity.
Defined.

(** A table numbered above the last table that its header names: its second
    version makes it required, since [reset(true)] does not look at the last
    table.  The schedule that was complete is so no more, its diagnosis names
    nothing, and no cycle of the real tables makes it complete again. *)
Definition straySection (v : Z) : observation Z := (0x52, mkHeader 1 v 0 1 true 0x50 1, 9, 54000000000000).

Lemma stray_table_blocks_completion :
  let t := observeAll (NewScheduleTracker ScheduleTS) (demoSchedule ++ [straySection 1; straySection 2]) in
  BasicComplete (observeAll (NewScheduleTracker ScheduleTS) demoSchedule) = true
  /\ BasicComplete t = false /\ Diagnosis t = [] /\ BasicComplete (observeAll t (demoSchedule ++ demoSchedule)) = false
  /\ forallb (fun o => negb (ObserveLazy t o.1.1.1 (obsHeader o) o.1.2 o.2).2) demoSchedule = true.
Proof. cbv zeta. conjs; vm_compute; reflexivity. Qed.

(** ** Plain tables *)

Lemma tableReady_spec t : 0 <= tt_last t < 256 ->
  returns (tableReady t) (fun b => b = true <-> tt_initialized t = true /\ forall s, 0 <= s <= tt_last t -> s ∈ tt_sections t).
Proof.
  intros Hl. apply returns_wp; [unfold tableReady; errorless|]. unfold tableReady. destruct (tt_initialized t); cbn [negb]; [|by apply wp_ret; split; [|intros [? _]]].
  apply (wp_loop (fun i => 0 <= i <= tt_last t /\ forall s, 0 <= s < i -> s ∈ tt_sections t) (fun i => tt_last t - i)); [|split; [lia|intros; lia]|lia|lia].
  intros i [Hi Hs]. case_bool_decide as Hin; cbn [negb].
  - destruct (Z.eqb_spec i (tt_last t)) as [-> |Hne]; apply wp_ret.
    + split; [|done]. intros _. split; [done|]. intros s ?. destruct (Z.eq_dec s (tt_last t)) as [-> |]; [done|]. apply Hs. lia.
    + rewrite u8_small by lia. split; [|lia]. split; [lia|]. intros s ?. destruct (Z.eq_dec s i) as [-> |]; [done|]. apply Hs. lia.
  - apply wp_ret. split; [done|]. intros [_ H]. by destruct Hin; apply H.
Qed.

Lemma tableMissing_spec t : 0 <= tt_last t < 256 -> tt_initialized t = true ->
  tableMissing t = Ret (filter (fun s => s ∉ tt_sections t) (seqZ 0 (tt_last t + 1))).
Proof.
  intros Hl Hinit. unfold tableMissing. rewrite Hinit. cbn [negb]. set (F := filter (fun s => s ∉ tt_sections t)).
  assert (forall n i fuel, Z.of_nat n = tt_last t - i -> 0 <= i -> (n < fuel)%nat ->
    loop fuel (fun '(i, out) => let out := if bool_decide (i ∈ tt_sections t) then out else out ++ [i] in
                                if i =? tt_last t then Ret (Break out) else Ret (Continue (u8 (i + 1), out))) (i, F (seqZ 0 i)) = Ret (F (seqZ 0 (tt_last t + 1)))) as H.
  2: { exact (H (Z.to_nat (tt_last t)) 0 256%nat ltac:(lia) ltac:(lia) ltac:(lia)). }
  assert (forall i, 0 <= i -> (if bool_decide (i ∈ tt_sections t) then F (seqZ 0 i) else F (seqZ 0 i) ++ [i]) = F (seqZ 0 (i + 1))) as Hstep.
  { intros i Hi. rewrite seqZ_app by lia. subst F. rewrite filter_app. change (seqZ (0 + i) 1) with [0 + i]. rewrite Z.add_0_l. rewrite filter_cons, filter_nil.
    case_bool_decide; case_decide; try done. by rewrite app_nil_r. }
  induction n as [|n IH]; intros i fuel Hn Hi Hf; (destruct fuel as [|fuel]; [lia|]); rewrite loop_S; cbv zeta; rewrite Hstep by lia.
  - assert (i = tt_last t) as -> by lia. by rewrite Z.eqb_refl.
  - rewrite (proj2 (Z.eqb_neq i (tt_last t))) by lia. cbn [mbind go_bind]. rewrite u8_small by lia. apply IH; lia.
Qed.
