(* ===== verification/Epg.v ===== *)
(** * Events of the programme guide (internal/model, internal/stream/schedule)

    [Event] is what EIT sections of either system are decoded into.  A section
    carries the revision of the table it came in; [assembleEvents] puts the events
    of all sections of a service together, one event per event ID, with the
    newest basic information and whatever the extended tables add.

    Pointers to values that are never changed through them are options; the
    slices that [merge] changes in place are copied by [cloneEvent] before, so
    that values can stand for them. *)

From stdpp Require Import strings.
From S2P Require Import Prelude ScheduleTracker.

(** ** The model (model.go, eit.go) *)

Record ServiceKey := mkServiceKey {
  k_NetworkID : Z;
  k_StreamID : Z;
  k_ServiceID : Z
}.

#[export] Instance ServiceKey_eq_dec : EqDecision ServiceKey.
Proof. solve_decision. Defined.
#[export] Instance ServiceKey_countable : Countable ServiceKey.
Proof.
  refine (inj_countable' (fun k => (k_NetworkID k, k_StreamID k, k_ServiceID k)) (fun '(a, b, c) => mkServiceKey a b c) _). by intros [].
Defined.

Definition ProgramID (key : ServiceKey) (eventID : Z) : Z := k_NetworkID key * 10000000000 + k_ServiceID key * 100000 + eventID.
Definition MirakurunID (key : ServiceKey) : Z := k_NetworkID key * 100000 + k_ServiceID key.

Record Genre := mkGenre { ge_Lv1 : Z; ge_Lv2 : Z; ge_Un1 : Z; ge_Un2 : Z }.
#[export] Instance Genre_eq_dec : EqDecision Genre.
Proof. solve_decision. Defined.

Record VideoComponent := mkVideo {
  v_Tag : Z;
  v_Codec : string;
  v_Resolution : string;
  v_Aspect : string;
  v_Progressive : bool;
  v_FrameRateNumer : Z;
  v_FrameRateDenom : Z;
  v_HasFrameRate : bool;
  v_Transfer : string;
  v_Language : string;
  v_Text : string
}.
#[export] Instance VideoComponent_eq_dec : EqDecision VideoComponent.
Proof. solve_decision. Defined.

Record AudioComponent := mkAudio {
  a_Tag : Z;
  a_Codec : string;
  a_ComponentType : Z;
  a_StreamType : Z;
  a_SimulcastGroup : option Z;
  a_Main : bool;
  a_Quality : option Z;
  a_SamplingHz : Z;
  a_Languages : list string;
  a_Text : string
}.
#[export] Instance AudioComponent_eq_dec : EqDecision AudioComponent.
Proof. solve_decision. Defined.

Record ExtendedItem := mkItem { x_Name : string; x_Text : string }.
#[export] Instance ExtendedItem_eq_dec : EqDecision ExtendedItem.
Proof. solve_decision. Defined.

Record ExtendedBlock := mkBlock { b_Language : string; b_Items : list ExtendedItem; b_Body : string }.
#[export] Instance ExtendedBlock_eq_dec : EqDecision ExtendedBlock.
Proof. solve_decision. Defined.

Definition EventGroupShared : Z := 1.

Record RelatedEvent := mkRelated {
  re_GroupType : Z;
  re_NetworkID : Z;
  re_StreamID : Z;
  re_ServiceID : Z;
  re_EventID : Z
}.
#[export] Instance RelatedEvent_eq_dec : EqDecision RelatedEvent.
Proof. solve_decision. Defined.

Record ParentalRating := mkRating { pr_Country : string; pr_Age : Z }.
#[export] Instance ParentalRating_eq_dec : EqDecision ParentalRating.
Proof. solve_decision. Defined.

Record Series := mkSeries {
  se_ID : Z;
  se_Repeat : Z;
  se_Pattern : option Z;
  se_ExpiresAt : option Z;
  se_Episode : Z;
  se_LastEpisode : Z;
  se_Name : string
}.
#[export] Instance Series_eq_dec : EqDecision Series.
Proof. solve_decision. Defined.

(** The table that an event came in; [Reception] counts the table versions
    that this process received. *)
Record EITRevision := mkRevision {
  rv_Source : string;
  rv_TableID : Z;
  rv_Version : Z;
  rv_Reception : Z
}.
#[export] Instance EITRevision_eq_dec : EqDecision EITRevision.
Proof. solve_decision. Defined.

Definition Other (r : EITRevision) : bool := (0x60 <=? rv_TableID r) && (rv_TableID r <=? 0x6F).

Definition PreferTo (r previous : EITRevision) : bool :=
  if xorb (Other r) (Other previous) then negb (Other r)
  else if Other r && negb (bool_decide (rv_Source r = rv_Source previous)) then false
  else rv_Reception previous <=? rv_Reception r.

Record Event := mkEvent {
  e_EITExtendedRevision : option EITRevision;
  e_EITRevision : option EITRevision;
  e_EITPresent : bool;
  e_EITFollowing : bool;
  e_EITSuspended : bool;
  e_Key : ServiceKey;
  e_EventID : Z;
  e_StartAt : option Z;
  e_DurationMS : option Z;
  e_RunningStatus : Z;
  e_FreeCA : bool;
  e_Language : string;
  e_Name : string;
  e_Description : string;
  e_Genres : list Genre;
  e_Videos : list VideoComponent;
  e_Audios : list AudioComponent;
  e_Extended : list ExtendedBlock;
  e_Related : list RelatedEvent;
  e_Parental : list ParentalRating;
  e_Series : option Series
}.
#[export] Instance Event_eq_dec : EqDecision Event.
Proof. solve_decision. Defined.

(** ** Merging (collector.go) *)

(** [if x == "" { x = y }], and the same for slices and pointers. *)
Definition orString (x y : string) : string := if bool_decide (x = EmptyString) then y else x.
Definition orList {A} (x y : list A) : list A := match x with [] => y | _ => x end.
Definition orOption {A} (x y : option A) : option A := match x with None => y | _ => x end.

(** An item of the source: the first item of its name gets the text if it has
    none, else the item is appended. *)
Fixpoint mergeItem (items : list ExtendedItem) (item : ExtendedItem) : list ExtendedItem :=
  match items with
  | [] => [item]
  | x :: items =>
      if bool_decide (x_Name x = x_Name item) then mkItem (x_Name x) (orString (x_Text x) (x_Text item)) :: items
      else x :: mergeItem items item
  end.

(** The first block of the language takes the items and the body; without one
    the block is appended. *)
Fixpoint mergeExtended (blocks : list ExtendedBlock) (src : ExtendedBlock) : list ExtendedBlock :=
  match blocks with
  | [] => [src]
  | b :: blocks =>
      if bool_decide (b_Language b = b_Language src) then mkBlock (b_Language b) (foldl mergeItem (b_Items b) (b_Items src)) (orString (b_Body b) (b_Body src)) :: blocks
      else b :: mergeExtended blocks src
  end.

(** [merge(dst, src, false)], the only way it is called. *)
Definition merge (dst src : Event) : Event :=
  let proceed (extended : option EITRevision) (blocks : list ExtendedBlock) : Event :=
    mkEvent extended (e_EITRevision dst) (e_EITPresent dst) (e_EITFollowing dst) (e_EITSuspended dst) (e_Key dst) (e_EventID dst)
      (e_StartAt dst) (e_DurationMS dst) (if e_RunningStatus dst =? 0 then e_RunningStatus src else e_RunningStatus dst) (e_FreeCA src)
      (orString (e_Language dst) (e_Language src)) (orString (e_Name dst) (e_Name src)) (orString (e_Description dst) (e_Description src))
      (orList (e_Genres dst) (e_Genres src)) (orList (e_Videos dst) (e_Videos src)) (orList (e_Audios dst) (e_Audios src))
      (foldl mergeExtended blocks (e_Extended src)) (orList (e_Related dst) (e_Related src)) (orList (e_Parental dst) (e_Parental src))
      (orOption (e_Series dst) (e_Series src)) in
  match e_EITExtendedRevision src, e_EITExtendedRevision dst with
  | None, extended => proceed extended (e_Extended dst)
  | Some r, None => proceed (Some r) (e_Extended dst)
  | Some r, Some previous =>
      if negb (PreferTo r previous) then dst
      else proceed (Some r) (if rv_Reception previous <? rv_Reception r then [] else e_Extended dst)
  end.

Definition setFreeCA (e : Event) (b : bool) : Event :=
  mkEvent (e_EITExtendedRevision e) (e_EITRevision e) (e_EITPresent e) (e_EITFollowing e) (e_EITSuspended e) (e_Key e) (e_EventID e)
    (e_StartAt e) (e_DurationMS e) (e_RunningStatus e) b (e_Language e) (e_Name e) (e_Description e) (e_Genres e) (e_Videos e) (e_Audios e)
    (e_Extended e) (e_Related e) (e_Parental e) (e_Series e).

(** The body of the loop over a basic section. *)
Definition basicEvent (events : gmap Z Event) (e : Event) : gmap Z Event :=
  match events !! e_EventID e with
  | None => <[e_EventID e := e]> events
  | Some dst =>
      match e_EITRevision e, e_EITRevision dst with
      | Some r, Some previous => if negb (PreferTo r previous) then events else <[e_EventID e := setFreeCA (merge e dst) (e_FreeCA e)]> events
      | _, _ => <[e_EventID e := setFreeCA (merge e dst) (e_FreeCA e)]> events
      end
  end.

(** The events of all basic sections, and those of all extended sections, in
    order. *)
Definition basicEvents (sections : list (bool * list Event)) : list Event := mjoin (map snd (filter (fun s => s.1 = true) sections)).
Definition extendedEvents (sections : list (bool * list Event)) : list Event := mjoin (map snd (filter (fun s => s.1 = false) sections)).

Definition assembleEvents (sections : list (bool * list Event)) : list Event :=
  let events := foldl basicEvent ∅ (basicEvents sections) in
  id ← sortStable (fun id => id) (map fst (map_to_list events));
  match events !! id with
  | None => []
  | Some dst => [foldl merge dst (filter (fun e => e_EventID e = id) (extendedEvents sections))]
  end.

(** ** Identifiers *)

Definition key_ok (k : ServiceKey) : Prop := 0 <= k_NetworkID k < 65536 /\ 0 <= k_StreamID k < 65536 /\ 0 <= k_ServiceID k < 65536.

(** Program IDs tell services of a network and their events apart, and fit in
    an [int64]. *)
Lemma ProgramID_injective k e k' e' : key_ok k -> key_ok k' -> 0 <= e < 65536 -> 0 <= e' < 65536 ->
  (ProgramID k e = ProgramID k' e' -> k_NetworkID k = k_NetworkID k' /\ k_ServiceID k = k_ServiceID k' /\ e = e') /\ 0 <= ProgramID k e < 2 ^ 63.
Proof. unfold key_ok, ProgramID. lia. Qed.

(** ** Which revision wins *)

Lemma PreferTo_refl r : PreferTo r r = true.
Proof. unfold PreferTo. rewrite xorb_nilpotent, bool_decide_eq_true_2 by done. cbn. rewrite andb_false_r. apply Z.leb_refl. Qed.

Lemma PreferTo_iff r p : PreferTo r p = true <->
  (Other r = false /\ (Other p = true \/ rv_Reception p <= rv_Reception r))
  \/ (Other r = true /\ Other p = true /\ rv_Source r = rv_Source p /\ rv_Reception p <= rv_Reception r).
Proof.
  unfold PreferTo. destruct (Other r), (Other p); cbn; try (case_bool_decide); cbn; rewrite ?Z.leb_le; naive_solver.
Qed.

Lemma PreferTo_trans a b c : PreferTo a b = true -> PreferTo b c = true -> PreferTo a c = true.
Proof. rewrite !PreferTo_iff. intros [[? [?|?]]|(? & ? & ? & ?)] [[? [?|?]]|(? & ? & ? & ?)]; try congruence; first [left; split; [done|]; first [by left|right; lia]|right; conjs; congruence || lia]. Qed.

(** A revision that was passed over does not win later. *)
Lemma PreferTo_settled e d d' : PreferTo e d = false -> PreferTo d' d = true -> PreferTo e d' = true -> PreferTo d' e = true.
Proof.
  intros H1 H2 H3. apply PreferTo_iff. apply PreferTo_iff in H2, H3. assert (~ PreferTo e d = true) as H1' by (by rewrite H1). rewrite PreferTo_iff in H1'.
  destruct H2 as [[? [?|?]]|(? & ? & ? & ?)], H3 as [[? [?|?]]|(? & ? & ? & ?)]; try congruence;
    first [left; split; [done|]; left; destruct (Other e) eqn:?; [done|]; exfalso; apply H1'; left; split; [done|]; first [by left|right; lia]
          |exfalso; apply H1'; first [left; split; [done|]; first [by left|right; lia]|right; conjs; congruence || lia]].
Qed.

(** ** Assembling *)

(** [d] is [e] with gaps filled: its time, its revision and the texts it has
    are those of [e]. *)
Definition stems (d e : Event) : Prop :=
  e_EventID d = e_EventID e /\ e_Key d = e_Key e /\ e_EITRevision d = e_EITRevision e /\ e_StartAt d = e_StartAt e /\ e_DurationMS d = e_DurationMS e
  /\ (e_Name e <> EmptyString -> e_Name d = e_Name e) /\ (e_Description e <> EmptyString -> e_Description d = e_Description e)
  /\ (e_Genres e <> [] -> e_Genres d = e_Genres e).

Lemma stems_refl e : stems e e.
Proof. by unfold stems. Qed.

Lemma orString_keeps x y s : s <> EmptyString -> x = s -> orString x y = s.
Proof. intros Hs ->. unfold orString. by rewrite bool_decide_eq_false_2. Qed.

Lemma orList_keeps {A} (x y s : list A) : s <> [] -> x = s -> orList x y = s.
Proof. intros Hs ->. by destruct s. Qed.

Lemma merge_stems d e src : stems d e -> stems (merge d src) e.
Proof.
  intros (H1 & H2 & H3 & H4 & H5 & H6 & H7 & H8). unfold merge.
  destruct (e_EITExtendedRevision src) as [r|], (e_EITExtendedRevision d) as [previous|]; [destruct (negb (PreferTo r previous))|..];
    unfold stems; cbn [e_EventID e_Key e_EITRevision e_StartAt e_DurationMS e_Name e_Description e_Genres]; conjs; try done;
    intros Hne; first [by apply orString_keeps; [done|auto]|by apply orList_keeps; [done|auto]].
Qed.

Lemma setFreeCA_stems d e b : stems d e -> stems (setFreeCA d b) e.
Proof. done. Qed.

Lemma foldl_merge_stems l : forall d e, stems d e -> stems (foldl merge d l) e.
Proof. induction l as [|x l IH]; intros d e H; [done|]. cbn [foldl]. by apply IH, merge_stems. Qed.

Definition revised (e : Event) : Prop := is_Some (e_EITRevision e).

(** [e] is at least as new as [f] wherever the two can be compared. *)
Definition unbeaten (e f : Event) : Prop :=
  forall r p, e_EITRevision e = Some r -> e_EITRevision f = Some p -> PreferTo p r = true -> PreferTo r p = true.

Definition best (seen : list Event) (id : Z) (e : Event) : Prop := e ∈ seen /\ e_EventID e = id /\ forall f, f ∈ seen -> e_EventID f = id -> unbeaten e f.

Definition bestOf (seen : list Event) (events : gmap Z Event) : Prop :=
  forall id, match events !! id with
             | None => forall f, f ∈ seen -> e_EventID f <> id
             | Some d => exists e, best seen id e /\ stems d e
             end.

Lemma best_more seen id e x : best seen id e -> (e_EventID x = id -> unbeaten e x) -> best (seen ++ [x]) id e.
Proof. intros (H1 & H2 & H3) Hx. split; [apply elem_of_app; by left|]. split; [done|]. intros f [Hf|Hf]%elem_of_app Ef; [by apply H3|]. apply list_elem_of_singleton in Hf as ->. by apply Hx. Qed.

Lemma basicEvent_best seen events x : Forall revised seen -> revised x -> bestOf seen events -> bestOf (seen ++ [x]) (basicEvent events x).
Proof.
  intros Hrs [r Er] Hb id. pose proof (Hb (e_EventID x)) as Hx. unfold basicEvent. destruct (events !! e_EventID x) as [d|] eqn:Ed.
  - destruct Hx as (e & Hbest & Hst). pose proof Hbest as (Hin & Eid & He). rewrite Forall_forall in Hrs. destruct (Hrs e Hin) as [p Ep]. pose proof Hst as (_ & _ & Edr & _).
    rewrite Er, Edr, Ep. destruct (PreferTo r p) eqn:Epr; cbn [negb].
    + destruct (decide (id = e_EventID x)) as [-> |Hne].
      * rewrite lookup_insert_eq. exists x. split; [|by apply setFreeCA_stems, merge_stems, stems_refl]. split; [apply elem_of_app; right; by left|]. split; [done|].
        intros f [Hf|Hf]%elem_of_app Ef; [|apply list_elem_of_singleton in Hf as ->; intros r1 p1 E1 E2 _; assert (r1 = p1) as -> by congruence; apply PreferTo_refl].
        intros r1 p1 E1 E2 H12. assert (r1 = r) as -> by congruence. destruct (PreferTo p1 p) eqn:E1p.
        -- eapply PreferTo_trans; [exact Epr|]. by apply (He f Hf Ef p p1).
        -- exact (PreferTo_settled p1 p r E1p Epr H12).
      * rewrite lookup_insert_ne by done. specialize (Hb id). destruct (events !! id) as [d'|].
        -- destruct Hb as (e' & Hb' & Hs'). exists e'. split; [|done]. apply best_more; [done|]. by intros <-.
        -- intros f [Hf|Hf]%elem_of_app; [by apply Hb|]. apply list_elem_of_singleton in Hf as ->. done.
    + specialize (Hb id). destruct (events !! id) as [d'|] eqn:Ed'.
      * destruct Hb as (e' & Hb' & Hs'). exists e'. split; [|done]. apply best_more; [done|]. intros <-. rewrite Ed' in Ed. injection Ed as ->.
        intros r1 p1 E1 E2 H12. assert (p1 = r) as -> by congruence. pose proof Hs' as (_ & _ & Edr' & _). assert (r1 = p) as -> by congruence. congruence.
      * intros f [Hf|Hf]%elem_of_app; [by apply Hb|]. apply list_elem_of_singleton in Hf as ->. congruence.
  - destruct (decide (id = e_EventID x)) as [-> |Hne].
    + rewrite lookup_insert_eq. exists x. split; [|apply stems_refl]. split; [apply elem_of_app; right; by left|]. split; [done|].
      intros f [Hf|Hf]%elem_of_app Ef; [by destruct (Hx f Hf)|]. apply list_elem_of_singleton in Hf as ->. intros r1 p1 E1 E2 _. assert (r1 = p1) as -> by congruence. apply PreferTo_refl.
    + rewrite lookup_insert_ne by done. specialize (Hb id). destruct (events !! id) as [d'|].
      * destruct Hb as (e' & Hb' & Hs'). exists e'. split; [|done]. apply best_more; [done|]. by intros <-.
      * intros f [Hf|Hf]%elem_of_app; [by apply Hb|]. apply list_elem_of_singleton in Hf as ->. done.
Qed.

Lemma basicEvents_best l : Forall revised l -> bestOf l (foldl basicEvent ∅ l).
Proof.
  induction l as [|x l IH] using rev_ind; intros Hl; [intros id; cbn [foldl]; rewrite lookup_empty; by intros f ?%not_elem_of_nil|].
  apply Forall_app in Hl as [Hl Hx%Forall_inv]. rewrite foldl_app. cbn [foldl]. apply basicEvent_best; auto.
Qed.

Lemma assembled_events sections : Forall revised (basicEvents sections) ->
  StronglySorted Z.lt (map e_EventID (assembleEvents sections))
  /\ (forall id, id ∈ map e_EventID (assembleEvents sections) <-> exists e, e ∈ basicEvents sections /\ e_EventID e = id)
  /\ forall o, o ∈ assembleEvents sections -> exists e, best (basicEvents sections) (e_EventID o) e /\ stems o e.
Proof.
  intros Hr. pose proof (basicEvents_best _ Hr) as Hb. unfold assembleEvents. set (events := foldl basicEvent ∅ (basicEvents sections)) in *. cbv zeta.
  set (ids := sortStable (fun id => id) (map fst (map_to_list events))).
  destruct (sortStable_spec (fun id => id) (map fst (map_to_list events))) as (Hperm & Hsorted & _). fold ids in Hperm, Hsorted.
  set (out := fun id => match events !! id with None => [] | Some dst => [foldl merge dst (filter (fun e => e_EventID e = id) (extendedEvents sections))] end).
  assert (forall id, id ∈ ids <-> is_Some (events !! id)) as Hids.
  { intros id. rewrite (elem_of_Permutation_proper id _ _ Hperm), list_elem_of_fmap. split.
    - intros ([k v] & -> & Hk%elem_of_map_to_list). by exists v.
    - intros [v Hv]. exists (id, v). split; [done|]. by apply elem_of_map_to_list. }
  assert (forall id o, o ∈ out id -> e_EventID o = id /\ exists e, best (basicEvents sections) id e /\ stems o e) as Hout.
  { intros id o Ho. unfold out in Ho. specialize (Hb id). destruct (events !! id) as [d|]; [|by apply not_elem_of_nil in Ho]. apply list_elem_of_singleton in Ho as ->.
    destruct Hb as (e & Hbest & Hst). assert (stems (foldl merge d (filter (fun e0 => e_EventID e0 = id) (extendedEvents sections))) e) as Hs by (by apply foldl_merge_stems).
    split; [|by exists e]. destruct Hs as [-> _]. by destruct Hbest as (_ & ? & _). }
  assert (map e_EventID (ids ≫= out) = ids) as Emap.
  { assert (forall l, (forall id, id ∈ l -> is_Some (events !! id)) -> map e_EventID (l ≫= out) = l) as H; [|apply H; intros id; by apply Hids].
    induction l as [|id l IH]; intros Hl; [done|]. cbn [mbind list_bind]. rewrite map_app, IH by (intros; apply Hl; by right). change (id :: l) with ([id] ++ l). f_equal.
    destruct (Hl id) as [d Hd]; [left|]. assert (exists o, out id = [o]) as [o Eo] by (unfold out; rewrite Hd; eauto). rewrite Eo. cbn. f_equal. apply (Hout id o). rewrite Eo. left. }
  rewrite Emap. conjs.
  - assert (NoDup ids) as Hnd by (rewrite Hperm; apply NoDup_fst_map_to_list). clear -Hsorted Hnd. induction Hsorted as [|x l Hl IH Hx]; constructor.
    + apply IH. by inversion Hnd.
    + apply Forall_forall. intros y Hy. rewrite Forall_forall in Hx. specialize (Hx y Hy). inversion Hnd as [|? ? Hnin]; subst. unfold byKey in Hx. assert (x <> y) by (by intros ->). lia.
  - intros id. rewrite Hids. specialize (Hb id). split.
    + intros [d Hd]. rewrite Hd in Hb. destruct Hb as (e & (Hin & Eid & _) & _). by exists e.
    + intros (e & He & Eid). destruct (events !! id) as [d|]; [done|]. by destruct (Hb e He).
  - intros o Ho. apply list_elem_of_bind in Ho as (id & Ho & _). destruct (Hout id o Ho) as [<- H]. exact H.
Qed.

(** Assembling gives one event per event ID, in the order of the IDs, for
    exactly the IDs that a basic table has; each takes its time and its texts
    from a basic event that no other one of its ID supersedes (an event of the
    own stream supersedes those of others, a later reception an earlier one),
    and the other events only fill what that one lacks. *)
Theorem guide_has_the_newest_events sections : Forall revised (basicEvents sections) ->
  StronglySorted Z.lt (map e_EventID (assembleEvents sections))
  /\ (forall id, id ∈ map e_EventID (assembleEvents sections) <-> exists e, e ∈ basicEvents sections /\ e_EventID e = id)
  /\ forall o, o ∈ assembleEvents sections -> exists e, best (basicEvents sections) (e_EventID o) e /\ stems o e.
Proof. apply assembled_events. Qed.

(** Two versions of an event of the own stream, one of another stream. *)
Definition plainEvent (id : Z) (table reception : Z) (name : string) (start : Z) : Event :=
  mkEvent None (Some (mkRevision EmptyString table 1 reception)) false false false (mkServiceKey 4 1 101) id (Some start) (Some 1800000) 0 true
    "jpn" name EmptyString [] [] [] [] [] [] None.

Lemma guide_has_the_newest_events_witness :
  let sections := [(true, [plainEvent 7 0x50 1 "Old" 1; plainEvent 3 0x50 1 "News" 2]); (true, [plainEvent 7 0x50 2 EmptyString 5]); (true, [plainEvent 7 0x60 3 "Other" 9])] in
  StronglySorted Z.lt (map e_EventID (assembleEvents sections)) /\ map (fun e => (e_EventID e, e_Name e, e_StartAt e)) (assembleEvents sections) = [(3, "News"%string, Some 2); (7, "Old"%string, Some 5)].
Proof.
  intros sections. split; [|vm_compute; reflexivity]. apply (guide_has_the_newest_events sections). vm_compute. repeat constructor; eexists; reflexivity.
Defined.
