(* ===== verification/ScheduleCollector.v ===== *)
(** * Collecting the schedule (internal/stream/schedule)

    A [Collector] receives the EIT sections of all services of a stream.  It
    gives every version of a table a reception number, refuses versions that
    have been replaced, keeps the sections in a [ScheduleTracker], and reports
    updates; BIT and SDT tell it whether a service sends extended tables at
    all.

    [DecodeEvents] is the list of events it returns.  The closures of an update
    ([Events], [Diagnosis], [Revisions]) are operations on the collector.  The
    counter [receptionSequence] of the package is threaded as [next]. *)

From stdpp Require Import strings.
From S2P Require Import Prelude Psi Tables Descriptors MmtSi MmtTables ScheduleTracker Epg.

Record EITSection := mkEITSection {
  s_TableID : Z;
  s_Header : SectionHeader;
  s_Service : ServiceKey;
  s_Events : list Event
}.

Record PresentFollowing := mkPresentFollowing {
  pf_Service : ServiceKey;
  pf_Present : option Event;
  pf_Following : option Event
}.

Record ScheduleReception := mkReception {
  rx_TableID : Z;
  rx_Version : Z;
  rx_PreviousVersion : Z;
  rx_VersionChanged : bool;
  rx_CoverageReset : bool;
  rx_Section : Z;
  rx_LastSection : Z;
  rx_SegmentLastSection : Z;
  rx_LastTableID : Z
}.

Record ScheduleUpdate := mkUpdate {
  u_Service : ServiceKey;
  u_BasicObserved : bool;
  u_BasicComplete : bool;
  u_ExtendedObserved : bool;
  u_ExtendedRequired : bool;
  u_ExtendedComplete : bool;
  u_Reception : option ScheduleReception;
  u_ObservedAt : Z
}.

(** [current] is [None] before the first update. *)
Record serviceSchedule := mkSchedule {
  ss_current : option ScheduleUpdate;
  ss_tracker : ScheduleTracker (list Event);
  ss_revisions : gmap Z EITRevision;
  ss_seenVersions : gmap Z Z;
  ss_events : list Event;
  ss_stale : bool
}.

Record operationDescriptor := mkOperation {
  od_tag : Z;
  od_data : bytes
}.

Record Collector := mkCollector {
  c_system : ScheduleSystem;
  c_source : string;
  c_services : gmap ServiceKey serviceSchedule;
  c_pf : gmap ServiceKey PresentFollowing;
  c_operations : gmap (Z * Z) bool;
  c_actualServices : gmap (Z * Z) Z;
  c_terrestrialParameters : gmap Z (list operationDescriptor)
}.

Definition NewCollector (system : ScheduleSystem) (source : string) : Collector := mkCollector system source ∅ ∅ ∅ ∅ ∅.

Definition setServices (c : Collector) (services : gmap ServiceKey serviceSchedule) : Collector :=
  mkCollector (c_system c) (c_source c) services (c_pf c) (c_operations c) (c_actualServices c) (c_terrestrialParameters c).

Definition setOperations (c : Collector) (operations : gmap (Z * Z) bool) : Collector :=
  mkCollector (c_system c) (c_source c) (c_services c) (c_pf c) operations (c_actualServices c) (c_terrestrialParameters c).

(** ** Sections (collector.go) *)

Definition classify (c : Collector) (tableID : Z) : EITKind :=
  match c_system c with ScheduleMMT => ClassifyMMTEITTableID tableID | ScheduleTS => ClassifyTSEITTableID tableID end.

Definition observePresentFollowing (c : Collector) (section : EITSection) : Collector * option PresentFollowing :=
  if 1 <? h_SectionNumber (s_Header section) then (c, None) else
  let pf := default (mkPresentFollowing (s_Service section) None None) (c_pf c !! s_Service section) in
  let event := head (s_Events section) in
  let pf := if h_SectionNumber (s_Header section) =? 0 then mkPresentFollowing (pf_Service pf) event (pf_Following pf)
            else mkPresentFollowing (pf_Service pf) (pf_Present pf) event in
  (mkCollector (c_system c) (c_source c) (c_services c) (<[s_Service section := pf]> (c_pf c)) (c_operations c) (c_actualServices c) (c_terrestrialParameters c), Some pf).

Definition operationKey (k : ServiceKey) : Z * Z := (k_NetworkID k, k_ServiceID k).

Definition extendedNotTransmitted (operations : gmap (Z * Z) bool) (key : ServiceKey) : bool :=
  match operations !! operationKey key with Some required => negb required | None => false end.

Definition newSchedule (system : ScheduleSystem) : serviceSchedule := mkSchedule None (NewScheduleTracker system) ∅ ∅ [] false.

(** The versions seen, as a set of bits: [None] when the section is of a
    version that was replaced and not all 32 versions have been seen since. *)
Definition admitVersion (previous : option EITRevision) (mask version : Z) : option Z :=
  match previous with
  | Some previous =>
      if negb (rv_Version previous =? version) then
        if negb (Z.land mask (Z.shiftl 1 version) =? 0) then
          if negb (mask =? 2 ^ 32 - 1) then None
          else Some (Z.lor (Z.shiftl 1 (rv_Version previous)) (Z.shiftl 1 version))
        else Some (Z.lor mask (Z.shiftl 1 version))
      else Some (Z.lor mask (Z.shiftl 1 version))
  | None => Some (Z.lor mask (Z.shiftl 1 version))
  end.

Definition tagEvent (basic : bool) (r : EITRevision) (e : Event) : Event :=
  mkEvent (if basic then e_EITExtendedRevision e else Some r) (if basic then Some r else e_EITRevision e) (e_EITPresent e) (e_EITFollowing e) (e_EITSuspended e)
    (e_Key e) (e_EventID e) (e_StartAt e) (e_DurationMS e) (e_RunningStatus e) (e_FreeCA e) (e_Language e) (e_Name e) (e_Description e) (e_Genres e) (e_Videos e) (e_Audios e)
    (e_Extended e) (e_Related e) (e_Parental e) (e_Series e).

Definition observeSchedule (c : Collector) (next : Z) (section : EITSection) (now : Z) : Collector * Z * option ScheduleUpdate :=
  let header := s_Header section in
  let schedule := default (newSchedule (c_system c)) (c_services c !! s_Service section) in
  let put (schedule : serviceSchedule) : Collector := setServices c (<[s_Service section := schedule]> (c_services c)) in
  if negb (h_CurrentNext header) || (31 <? h_Version header) then (put schedule, next, None) else
  match admitVersion (ss_revisions schedule !! s_TableID section) (default 0 (ss_seenVersions schedule !! s_TableID section)) (h_Version header) with
  | None => (put schedule, next, None)
  | Some mask =>
      let previous := ss_revisions schedule !! s_TableID section in
      let isNew := match previous with Some r => negb (rv_Version r =? h_Version header) | None => true end in
      let next := if isNew then u64 (next + 1) else next in
      let revision := match previous with
                      | Some r => if isNew then mkRevision (c_source c) (s_TableID section) (h_Version header) next else r
                      | None => mkRevision (c_source c) (s_TableID section) (h_Version header) next
                      end in
      let schedule := mkSchedule (ss_current schedule) (ss_tracker schedule) (<[s_TableID section := revision]> (ss_revisions schedule))
                        (<[s_TableID section := mask]> (ss_seenVersions schedule)) (ss_events schedule) (ss_stale schedule) in
      let resets := t_resets (ss_tracker schedule) in
      let events := map (tagEvent (bool_decide (classify c (s_TableID section) = EITKindScheduleBasic)) revision) (s_Events section) in
      let '(tracker, progress) := ObserveLazy (ss_tracker schedule) (s_TableID section) header events now in
      let schedule := mkSchedule (ss_current schedule) tracker (ss_revisions schedule) (ss_seenVersions schedule) (ss_events schedule) (progress || ss_stale schedule) in
      if negb progress then (put schedule, next, None) else
      let update := mkUpdate (s_Service section) (HasBasic tracker) (BasicComplete tracker) (HasExtended tracker)
        (default false (c_operations c !! operationKey (s_Service section)))
        (ExtendedComplete tracker && (HasExtended tracker || extendedNotTransmitted (c_operations c) (s_Service section)))
        (Some (mkReception (s_TableID section) (h_Version header) (match previous with Some r => rv_Version r | None => 0 end)
           (match previous with Some r => negb (rv_Version r =? h_Version header) | None => false end) (negb (t_resets tracker =? resets))
           (h_SectionNumber header) (h_LastSectionNumber header) (h_SegmentLastSection header) (h_LastTableID header)))
        (UnixMilli now) in
      (put (mkSchedule (Some update) (ss_tracker schedule) (ss_revisions schedule) (ss_seenVersions schedule) (ss_events schedule) (ss_stale schedule)), next, Some update)
  end.

(** [Observe]: what it hands to the two callbacks. *)
Definition Observe (c : Collector) (next : Z) (section : EITSection) (now : Z) : Collector * Z * option (PresentFollowing + ScheduleUpdate) :=
  match classify c (s_TableID section) with
  | EITKindPresentFollowing => let '(c, pf) := observePresentFollowing c section in (c, next, inl <$> pf)
  | EITKindScheduleBasic | EITKindScheduleExtended => let '(c, next, update) := observeSchedule c next section now in (c, next, inr <$> update)
  | EITKindOther => (c, next, None)
  end.

(** The closure [Events] of an update. *)
Definition scheduleEvents (schedule : serviceSchedule) : serviceSchedule * list Event :=
  let events := if ss_stale schedule then assembleEvents (Sections (ss_tracker schedule)) else ss_events schedule in
  (mkSchedule (ss_current schedule) (ss_tracker schedule) (ss_revisions schedule) (ss_seenVersions schedule) events false, events).

Definition collectorEvents (c : Collector) (key : ServiceKey) : Collector * list Event :=
  match c_services c !! key with
  | None => (c, [])
  | Some schedule => let '(schedule, events) := scheduleEvents schedule in (setServices c (<[key := schedule]> (c_services c)), events)
  end.

(** ** Operation parameters (operation.go) *)

Definition int16 (x : Z) : Z := if u16 x <? 32768 then u16 x else u16 x - 65536.

(** [digits] decimal digits of four bits each. *)
Fixpoint bcdLoop (digits : nat) (value result mult : Z) : option Z :=
  match digits with
  | O => Some result
  | S digits => let digit := Z.land value 15 in if 9 <? digit then None else bcdLoop digits (Z.shiftr value 4) (result + digit * mult) (mult * 10)
  end.
Definition bcdDigits (value : Z) (digits : nat) : option Z := bcdLoop digits value 0 1.

(** The loop over the cycles of one entry: [true] when all are well formed. *)
Definition cyclesOk (body : bytes) (count : Z) : go bool :=
  loop (S (Z.to_nat count)) (fun index =>
    if index <? count then
      b ← idx body (4 + 2 * index);
      match bcdDigits b 2 with
      | None => Ret (Break false)
      | Some _ =>
          b ← idx body (5 + 2 * index);
          match bcdDigits b 2 with
          | None => Ret (Break false)
          | Some cycle => if cycle =? 0 then Ret (Break false) else Ret (Continue (index + 1))
          end
      end
    else Ret (Break true)) 0.

(** The loop over a body; [None] is malformed. *)
Definition extendedEntries (take : bool) (body : bytes) (required : gset Z) : go (option (gset Z)) :=
  loop (S (length body)) (fun '(body, required) =>
    if len body <=? 0 then Ret (Break (Some required))
    else if len body <? 4 then Ret (Break None)
    else
      b3 ← idx body 3;
      let count := Z.land b3 3 in
      if len body <? 4 + 2 * count then Ret (Break None)
      else
        b1 ← idx body 1;
        match bcdDigits b1 2 with
        | None => Ret (Break None)
        | Some days =>
            if (days <? 1) || (32 <? days) then Ret (Break None)
            else
              b2 ← idx body 2;
              match bcdDigits (Z.lor (Z.shiftl b2 4) (Z.shiftr b3 4)) 3 with
              | None => Ret (Break None)
              | Some cycle =>
                  if (cycle <? 1) || (360 <? cycle) then Ret (Break None)
                  else
                    ok ← cyclesOk body count;
                    if negb ok then Ret (Break None)
                    else
                      b0 ← idx body 0;
                      let media := Z.shiftr b0 6 in
                      rest ← sliceFrom body (4 + 2 * count);
                      Ret (Continue (rest, if negb (media =? 0) && take then {[media]} ∪ required else required))
              end
        end) (body, required).

(** The media types that are sent with extended tables; [None] is malformed. *)
Definition parseExtendedOperation (data : bytes) (extended : Z) : go (option (gset Z)) :=
  loop (S (length data)) (fun '(data, required) =>
    if len data <=? 0 then Ret (Break (Some required))
    else
      if len data <? 2 then Ret (Break None) else
      n ← idx data 1;
      if len data - 2 <? n then Ret (Break None)
      else
        id ← idx data 0;
        body ← slice data 2 (2 + n);
        rest ← sliceFrom data (2 + n);
        if negb (id =? extended) && negb (id =? 0x50) && negb (id =? 0x8C) then Ret (Continue (rest, required))
        else
          r ← extendedEntries (id =? extended) body required;
          match r with
          | None => Ret (Break None)
          | Some required => Ret (Continue (rest, required))
          end) (data, ∅).

(** The day in the modified Julian calendar, in Japan. *)
Definition dayOf (now : Z) : Z := Z.quot (now / 1000000000 + 32400) 86400 + 40587.

(** The day that 16 bits stand for, seen from [day]. *)
Definition effectiveDay (day value : Z) : Z := day + int16 (value - u16 day).

Record operationScan := mkScan {
  sc_selectedDay : Z;
  sc_required : option (gset Z);
  sc_services : bytes;
  sc_hasParameter : bool
}.

(** The body of the loop over the descriptors; [None] is the early return. *)
Definition scanDescriptor (day listTag paramTag extended : Z) (s : operationScan) (d : operationDescriptor) : go (option operationScan) :=
  if (od_tag d =? listTag) && negb (len (od_data d) mod 3 =? 0) then Ret None else
  let services := if od_tag d =? listTag then sc_services s ++ od_data d else sc_services s in
  let hasParameter := sc_hasParameter s || (od_tag d =? paramTag) in
  let skip := mkScan (sc_selectedDay s) (sc_required s) services hasParameter in
  if negb (od_tag d =? paramTag) || (len (od_data d) <? 3) then Ret (Some skip)
  else
    value ← read16 (od_data d) 1;
    let effective := effectiveDay day value in
    if (day <? effective) || (effective <? sc_selectedDay s) then Ret (Some skip)
    else
      rest ← sliceFrom (od_data d) 3;
      parsed ← parseExtendedOperation rest extended;
      Ret (Some (mkScan effective parsed services hasParameter)).

Fixpoint scanDescriptors (day listTag paramTag extended : Z) (s : operationScan) (l : list operationDescriptor) : go (option operationScan) :=
  match l with
  | [] => Ret (Some s)
  | d :: l => r ← scanDescriptor day listTag paramTag extended s d;
              match r with None => Ret None | Some s => scanDescriptors day listTag paramTag extended s l end
  end.

Definition mediaOf (serviceType : Z) : option Z :=
  if (serviceType =? 0x01) || (serviceType =? 0xA1) then Some 1
  else if (serviceType =? 0x02) || (serviceType =? 0xA2) then Some 2
  else if (serviceType =? 0xC0) || (serviceType =? 0xA3) || (serviceType =? 0xA8) || (serviceType =? 0xAA) then Some 3
  else None.

Section Operations.
(** [for service, state := range c.services] *)
Context (range : gmap ServiceKey serviceSchedule -> list (ServiceKey * serviceSchedule)).

(** An update repeated with what is now known of the extended tables. *)
Definition operationUpdate (state : serviceSchedule) (update : ScheduleUpdate) (required : option bool) : ScheduleUpdate :=
  mkUpdate (u_Service update) (u_BasicObserved update) (u_BasicComplete update) (u_ExtendedObserved update)
    (default false required)
    (ExtendedComplete (ss_tracker state) && (HasExtended (ss_tracker state) || match required with Some b => negb b | None => false end))
    None (u_ObservedAt update).

(** One service of the list: [required] is what the parameters say of its
    media type, [None] when they say nothing. *)
Definition applyOperation (c : Collector) (network sid : Z) (required : option bool) : Collector * list ScheduleUpdate :=
  let key := (network, sid) in
  if bool_decide (c_operations c !! key = required) then (c, [])
  else
    let c := setOperations c (match required with None => delete key (c_operations c) | Some b => <[key := b]> (c_operations c) end) in
    (c, '(service, state) ← range (c_services c);
        if negb (k_NetworkID service =? network) || negb (k_ServiceID service =? sid) then []
        else match ss_current state with None => [] | Some update => [operationUpdate state update required] end).

Fixpoint applyOperations (c : Collector) (network : Z) (required : option (gset Z)) (services : bytes) : Collector * list ScheduleUpdate :=
  match services with
  | hi :: lo :: kind :: services =>
      match mediaOf kind with
      | None => applyOperations c network required services
      | Some media =>
          let '(c, updates) := applyOperation c network (be hi lo) ((fun r => bool_decide (media ∈ r)) <$> required) in
          let '(c, rest) := applyOperations c network required services in (c, updates ++ rest)
      end
  | _ => (c, [])
  end.

(** The updates are those handed to [emit]. *)
Definition observeOperation (c : Collector) (network : Z) (descriptors : list operationDescriptor) (listTag paramTag extended now : Z) : go (Collector * list ScheduleUpdate) :=
  r ← scanDescriptors (dayOf now) listTag paramTag extended (mkScan (-1) None [] false) descriptors;
  match r with
  | None => Ret (c, [])
  | Some s =>
      let required := if sc_hasParameter s then sc_required s else Some ∅ in
      Ret (applyOperations c network required (sc_services s))
  end.

(** [for key, kind := range c.actualServices] *)
Context (rangeActual : gmap (Z * Z) Z -> list (Z * Z * Z)).

Definition actualServiceList (c : Collector) (network : Z) : bytes :=
  '(n, service, kind) ← rangeActual (c_actualServices c); if n =? network then [u8 (Z.shiftr service 8); u8 service; kind] else [].

Fixpoint operationsOf (descriptors : list bytes) : go (list operationDescriptor) :=
  match descriptors with
  | [] => Ret []
  | d :: descriptors => tag ← Tag d; data ← Data d; rest ← operationsOf descriptors; Ret (mkOperation tag data :: rest)
  end.

(** The last extended broadcaster descriptor that parses decides. *)
Fixpoint isTerrestrial (descriptors : list bytes) (terrestrial : bool) : go bool :=
  match descriptors with
  | [] => Ret terrestrial
  | d :: descriptors =>
      tag ← Tag d;
      if tag =? DescriptorTagExtendedBroadcaster then
        orElse (ParseExtendedBroadcasterDescriptor d) (fun _ => isTerrestrial descriptors terrestrial)
          (fun extended => isTerrestrial descriptors ((eb_BroadcasterType extended =? 1) || (eb_BroadcasterType extended =? 2)))
      else isTerrestrial descriptors terrestrial
  end.

Fixpoint observeBroadcasters (c : Collector) (network : Z) (single : bool) (broadcasters : list BITBroadcaster) (now : Z) : go (Collector * list ScheduleUpdate) :=
  match broadcasters with
  | [] => Ret (c, [])
  | b :: broadcasters =>
      descriptors ← operationsOf (bb_Descriptors b);
      terrestrial ← isTerrestrial (bb_Descriptors b) false;
      let local := terrestrial && single in
      let c := if local : bool then mkCollector (c_system c) (c_source c) (c_services c) (c_pf c) (c_operations c) (c_actualServices c) (<[network := descriptors]> (c_terrestrialParameters c)) else c in
      let descriptors := if local : bool then descriptors ++ [mkOperation 0x41 (actualServiceList c network)] else descriptors in
      '(c, updates) ← observeOperation c network descriptors 0x41 0xD7 0x58 now;
      '(c, rest) ← observeBroadcasters c network single broadcasters now;
      Ret (c, updates ++ rest)
  end.

Definition ObserveBIT (c : Collector) (section : bytes) (now : Z) : go (Collector * list ScheduleUpdate) :=
  orElse (ParseBIT section) (fun _ => Ret (c, [])) (fun bit =>
    if negb (bit_CurrentNext bit) then Ret (c, [])
    else observeBroadcasters c (bit_OriginalNetworkID bit) (len (bit_Broadcasters bit) =? 1) (bit_Broadcasters bit) now).

Fixpoint observeMHBroadcasters (c : Collector) (network : Z) (broadcasters : list MHBITBroadcaster) (now : Z) : go (Collector * list ScheduleUpdate) :=
  match broadcasters with
  | [] => Ret (c, [])
  | b :: broadcasters =>
      '(c, updates) ← observeOperation c network (map (fun d => mkOperation (md_Tag d) (md_Data d)) (mbb_Descriptors b)) 0x800D 0x8017 0x94 now;
      '(c, rest) ← observeMHBroadcasters c network broadcasters now;
      Ret (c, updates ++ rest)
  end.

Definition ObserveMHBIT (c : Collector) (section : bytes) (now : Z) : go (Collector * list ScheduleUpdate) :=
  orElse (ParseMHBIT section) (fun _ => Ret (c, [])) (fun bit =>
    if negb (mh_CurrentNextIndicator (mbit_Header bit)) then Ret (c, [])
    else observeMHBroadcasters c (mh_TableIDExtension (mbit_Header bit)) (mbit_Broadcasters bit) now).
End Operations.

(** ** Parsing the parameters *)

Lemma Z_land_3 x : 0 <= Z.land x 3 <= 3.
Proof. change 3 with (Z.ones 2) at 1 2. rewrite Z.land_ones by lia. pose proof (Z.mod_pos_bound x (2 ^ 2) ltac:(lia)). lia. Qed.

Lemma cyclesOk_safe body count : bytes_ok body -> 0 <= count -> 4 + 2 * count <= len body -> safe (cyclesOk body count).
Proof.
  intros Hb Hc Hl. unfold cyclesOk, safe.
  apply (wp_loop (fun i => 0 <= i <= count) (fun i => count - i)); [|lia..]. intros i Hi. go_run; [|done].
  destruct (bcdDigits _ 2); [|done]. go_run. destruct (bcdDigits _ 2); [|done]. go_run; [done|]. lia.
Qed.

Lemma extendedEntries_safe take body required : bytes_ok body -> safe (extendedEntries take body required).
Proof.
  intros Hb. unfold extendedEntries, safe.
  apply (wp_loop (fun '(b, _) => bytes_ok b) (fun '(b, _) => len b)); [|done|lia|lia]. intros [b req] Hok. go_run; try done.
  match goal with |- context [Z.land ?x 3] => pose proof (Z_land_3 x) end. go_run; try done.
  destruct (bcdDigits _ 2) as [days|]; [|done]. go_run; try done. destruct (bcdDigits _ 3) as [cycle|]; [|done]. go_run; try done.
  eapply wp_mono; [apply cyclesOk_safe; [done|lia|lia]|]. intros ok _. go_run; try done. split; [auto with bytes|]. rewrite length_take, length_drop. lia.
Qed.

Lemma parseExtendedOperation_safe data extended : bytes_ok data -> safe (parseExtendedOperation data extended).
Proof.
  intros Hd. unfold parseExtendedOperation, safe.
  apply (wp_loop (fun '(d, _) => bytes_ok d) (fun '(d, _) => len d)); [|done|lia|lia]. intros [d req] Hok. go_run; try done.
  - split; [auto with bytes|]. rewrite length_take, length_drop. lia.
  - eapply wp_mono; [apply extendedEntries_safe; auto with bytes|]. intros [r|] _; [|done]. apply wp_ret. split; [auto with bytes|]. rewrite length_take, length_drop. lia.
Qed.

(** The parameters of a broadcaster are always dealt with. *)
Lemma scanDescriptors_returns day listTag paramTag extended l : Forall (fun d => bytes_ok (od_data d)) l ->
  forall s, returns (scanDescriptors day listTag paramTag extended s l) (fun _ => True).
Proof.
  induction 1 as [|d l Hd Hl IH]; intros s; [by eexists|]. cbn [scanDescriptors].
  assert (returns (scanDescriptor day listTag paramTag extended s d) (fun _ => True)) as ([s'|] & E & _); [|rewrite E; apply IH|rewrite E; by eexists].
  apply returns_wp.
  - unfold scanDescriptor, read16, parseExtendedOperation, extendedEntries, cyclesOk. errorless.
  - unfold scanDescriptor. cbv zeta. go_run; try done. eapply wp_mono; [apply parseExtendedOperation_safe; auto with bytes|]. done.
Qed.

Lemma observeOperation_returns range c network l listTag paramTag extended now : Forall (fun d => bytes_ok (od_data d)) l ->
  returns (observeOperation range c network l listTag paramTag extended now) (fun _ => True).
Proof.
  intros Hl. unfold observeOperation. destruct (scanDescriptors_returns (dayOf now) listTag paramTag extended l Hl (mkScan (-1) None [] false)) as ([s|] & -> & _); by eexists.
Qed.

(** The day chosen is the one nearest to today that the 16 bits can mean. *)
Lemma effectiveDay_nearest day value : 0 <= value < 65536 ->
  effectiveDay day value mod 65536 = value /\ day - 32768 <= effectiveDay day value < day + 32768.
Proof.
  intros Hv. unfold effectiveDay, int16, u16. change (2 ^ 16) with 65536. pose proof (Z.mod_pos_bound (value - day mod 65536) 65536 ltac:(lia)).
  destruct (Z.ltb_spec ((value - day mod 65536) mod 65536) 32768); (split; [|lia]); dmlia.
Qed.

Lemma bcdLoop_spec digits : forall value result mult x, 0 <= value -> 0 < mult -> 0 <= result -> bcdLoop digits value result mult = Some x ->
  result <= x <= result + mult * (10 ^ Z.of_nat digits - 1).
Proof.
  induction digits as [|n IH]; intros value result mult x Hv Hm Hr; cbn [bcdLoop]; [intros [= <-]; cbn; lia|]. rewrite land_0f.
  destruct (Z.ltb_spec 9 (value mod 16)); [done|]. pose proof (Z.mod_pos_bound value 16 ltac:(lia)). intros Hx. apply IH in Hx; [|by apply Z.shiftr_nonneg|lia|nia].
  rewrite Nat2Z.inj_succ, Z.pow_succ_r by lia. nia.
Qed.

(** ** The invariant of a service's schedule *)

(** What the tracker says of the schedule, given what is known of the extended
    tables. *)
Definition tells (t : ScheduleTracker (list Event)) (operations : gmap (Z * Z) bool) (key : ServiceKey) (u : ScheduleUpdate) : Prop :=
  u_Service u = key /\ u_BasicObserved u = HasBasic t /\ u_BasicComplete u = BasicComplete t /\ u_ExtendedObserved u = HasExtended t
  /\ u_ExtendedRequired u = default false (operations !! operationKey key)
  /\ u_ExtendedComplete u = (ExtendedComplete t && (HasExtended t || extendedNotTransmitted operations key)).

Record schedule_ok (system : ScheduleSystem) (key : ServiceKey) (s : serviceSchedule) : Prop := {
  sk_system : t_system (ss_tracker s) = system;
  sk_tracker : exists r, trackerOf (ss_tracker s) r;
  sk_cache : ss_stale s = false -> ss_events s = assembleEvents (Sections (ss_tracker s));
  sk_revised : forall id table n events, t_tables (ss_tracker s) !! id = Some table -> basicTable system id = true -> st_payloads table !! n = Some events -> Forall revised events;
  sk_current : forall u, ss_current s = Some u -> u_Service u = key /\ u_BasicObserved u = HasBasic (ss_tracker s) /\ u_BasicComplete u = BasicComplete (ss_tracker s) /\ u_ExtendedObserved u = HasExtended (ss_tracker s)
}.

Definition collector_ok (c : Collector) : Prop := map_Forall (schedule_ok (c_system c)) (c_services c).

Lemma newSchedule_ok system key : schedule_ok system key (newSchedule system).
Proof.
  constructor; cbn [newSchedule ss_tracker ss_stale ss_events ss_current NewScheduleTracker t_system t_tables]; try done.
  - exists ∅. by constructor.
Qed.

Lemma classify_basic c id : classify c id = EITKindScheduleBasic <-> basicTable (c_system c) id = true.
Proof.
  unfold classify, basicTable, ClassifyMMTEITTableID, ClassifyTSEITTableID, scheduleBaseOf. destruct (c_system c);
    repeat match goal with |- context [between ?a ?x ?b] => destruct (between a x b) eqn:? | |- context [?x =? ?b] => destruct (x =? b) eqn:? end;
    cbn [orb]; first [by split|unfold between in *; bools; lia].
Qed.

Lemma HasBasic_iff {P} (t : ScheduleTracker P) : HasBasic t = true <-> exists id, is_Some (t_tables t !! id) /\ basicTable (t_system t) id = true.
Proof.
  unfold HasBasic. rewrite existsb_exists. setoid_rewrite in_map_iff. setoid_rewrite <- list_elem_of_In. split.
  - intros (id & ([k v] & <- & Hk%elem_of_map_to_list) & Hb). exists k. split; [by exists v|done].
  - intros (id & [v Hv] & Hb). exists id. split; [|done]. exists (id, v). split; [done|]. by apply elem_of_map_to_list.
Qed.

Lemma basicEvents_Sections {system key s} : schedule_ok system key s -> Forall revised (basicEvents (Sections (ss_tracker s))).
Proof.
  intros Hs. apply Forall_forall. intros e He. unfold basicEvents in He. apply list_elem_of_join in He as (l & Hel & Hl). apply list_elem_of_fmap in Hl as ([b p] & -> & [Hb Hp]%list_elem_of_filter).
  cbn in Hb, Hel. subst b. unfold Sections in Hp. apply list_elem_of_bind in Hp as (id & Hp & _). destruct (t_tables (ss_tracker s) !! id) as [table|] eqn:Et; [|by apply not_elem_of_nil in Hp].
  apply list_elem_of_bind in Hp as (n & Hp & _). destruct (st_payloads table !! n) as [q|] eqn:Eq; [|by apply not_elem_of_nil in Hp]. apply list_elem_of_singleton in Hp. injection Hp as Eb ->.
  pose proof (sk_revised _ _ _ Hs id table n q Et ltac:(by rewrite <- (sk_system _ _ _ Hs)) Eq) as Hr. rewrite Forall_forall in Hr. by apply Hr.
Qed.

(** The tables after a section: the section's one has it, the others are as
    before. *)
Lemma ObserveLazy_tables {P} (t : ScheduleTracker P) id h p now j table : t_tables (ObserveLazy t id h p now).1 !! j = Some table ->
  (exists old, t_tables t !! j = Some old /\ forall n q, st_payloads table !! n = Some q -> st_payloads old !! n = Some q \/ (j = id /\ q = p))
  \/ (j = id /\ forall n q, st_payloads table !! n = Some q -> q = p).
Proof.
  unfold ObserveLazy. destruct (scheduleBaseOf (t_system t) id) as [[[base i] basic] ok]. destruct ok; cbn [negb]; [|intros H; left; exists table; split; [done|by left]].
  unfold storeSection, observeReady. cbn [t_system t_groups t_tables]. destruct (scheduleBaseOf (t_system t) id) as [[[? ?] ?] ?]. destruct (observeGroup _ _ _ _ _) as [[? ?] ?]. cbn [fst t_tables].
  destruct (decide (j = id)) as [-> |Hne]; [|rewrite lookup_insert_ne by done; intros H; left; exists table; split; [done|by left]].
  rewrite lookup_insert_eq. intros [= <-]. cbn [st_payloads]. destruct (t_tables t !! id) as [old|]; cbn [default].
  - left. exists old. split; [done|]. intros n q. destruct (match st_versions old !! h_SectionNumber h with Some _ => _ | None => _ end); [|by left].
    destruct (decide (n = h_SectionNumber h)) as [-> |Hn]; [rewrite lookup_insert_eq; intros [= <-]; by right|]. rewrite lookup_insert_ne by done. by left.
  - right. split; [done|]. cbn [newTable st_versions st_payloads]. rewrite lookup_empty. intros n q. destruct (decide (n = h_SectionNumber h)) as [-> |Hn]; [rewrite lookup_insert_eq; by intros [= <-]|].
    by rewrite lookup_insert_ne, lookup_empty by done.
Qed.

Lemma ObserveLazy_keeps {P} (t : ScheduleTracker P) id h p now j : is_Some (t_tables t !! j) -> is_Some (t_tables (ObserveLazy t id h p now).1 !! j).
Proof.
  intros H. unfold ObserveLazy. destruct (scheduleBaseOf (t_system t) id) as [[[base i] basic] ok]. destruct ok; cbn [negb]; [|done].
  destruct (storeSection _ _ _) as [table ch]. unfold observeReady. cbn [t_system t_groups t_tables]. destruct (scheduleBaseOf (t_system t) id) as [[[? ?] ?] ?]. destruct (observeGroup _ _ _ _ _) as [[? ?] ?]. cbn [fst t_tables].
  destruct (decide (j = id)) as [-> |]; [by rewrite lookup_insert_eq|by rewrite lookup_insert_ne].
Qed.

(** Without progress the answers of the tracker stay. *)
Lemma quiet_answers t r id h (p : list Event) now t' : trackerOf t r -> header_ok h -> ObserveLazy t id h p now = (t', false) ->
  HasBasic t' = HasBasic t /\ BasicComplete t' = BasicComplete t /\ HasExtended t' = HasExtended t /\ ExtendedComplete t' = ExtendedComplete t /\ Sections t' = Sections t.
Proof.
  intros Ht Hh E. destruct (ObserveLazy_progress t r id h p now t' false Ht Hh E) as (Hiff & Hsame & _). destruct (Hsame eq_refl) as (Eg & Es & _).
  pose proof (proj2 (ObserveLazy_refines t r id h p now Ht Hh)) as Esys. rewrite E in Esys. cbn in Esys.
  assert (trackerGroups t' = trackerGroups t) as Egr by (unfold trackerGroups; by rewrite Eg). unfold BasicComplete, HasExtended, ExtendedComplete. rewrite Egr. conjs; try done.
  apply eq_true_iff_eq. rewrite !HasBasic_iff, Esys. split; intros (j & [tb Hj] & Hb); exists j; (split; [|done]).
  - pose proof (ObserveLazy_tables t id h p now j tb) as H. rewrite E in H. destruct (H Hj) as [(old & Hold & _)|[-> _]]; [by exists old|].
    destruct (t_tables t !! id) eqn:Et; [done|]. exfalso. enough (false = true) by done. apply Hiff. right. unfold payloadIsNew. rewrite Et. split; [|done].
    unfold basicTable in Hb. destruct (scheduleBaseOf (t_system t) id) as [[[? ?] ?] ok] eqn:Eb. destruct ok; [done|]. unfold scheduleBaseOf in Eb. destruct (t_system t); repeat (case_match; simplify_eq).
  - pose proof (ObserveLazy_keeps t id h p now j) as H. rewrite E in H. apply H. by exists tb.
Qed.

Lemma tagEvent_revised r e : revised (tagEvent true r e).
Proof. by eexists. Qed.

(** A section keeps the invariant, and its update says what the tracker says. *)
Lemma observeSchedule_ok c next section now c' next' u : collector_ok c -> header_ok (s_Header section) -> observeSchedule c next section now = (c', next', u) ->
  collector_ok c' /\ c_system c' = c_system c /\ forall v, u = Some v -> exists s, c_services c' !! s_Service section = Some s /\ tells (ss_tracker s) (c_operations c') (s_Service section) v.
Proof.
  intros Hc Hh. unfold observeSchedule. cbv zeta. set (s0 := default (newSchedule (c_system c)) (c_services c !! s_Service section)).
  assert (schedule_ok (c_system c) (s_Service section) s0) as Hs0.
  { subst s0. destruct (c_services c !! s_Service section) as [s|] eqn:Es; cbn [default]; [exact (Hc _ _ Es)|apply newSchedule_ok]. }
  assert (forall s, schedule_ok (c_system c) (s_Service section) s -> collector_ok (setServices c (<[s_Service section := s]> (c_services c)))) as Hput.
  { intros s Hs. unfold collector_ok. cbn [setServices c_system c_services]. by apply map_Forall_insert_2. }
  destruct (negb (h_CurrentNext (s_Header section)) || (31 <? h_Version (s_Header section))); [intros [= <- <- <-]; conjs; [by apply Hput|done|done]|].
  destruct (admitVersion _ _ _) as [mask|]; [|intros [= <- <- <-]; conjs; [by apply Hput|done|done]].
  cbn [ss_tracker ss_current ss_revisions ss_seenVersions ss_events ss_stale].
  set (events := map _ (s_Events section)). destruct (ObserveLazy (ss_tracker s0) (s_TableID section) (s_Header section) events now) as [tracker progress] eqn:Eo.
  destruct (sk_tracker _ _ _ Hs0) as [r Ht]. destruct (ObserveLazy_refines _ r (s_TableID section) (s_Header section) events now Ht Hh) as [Ht' Esys]. rewrite Eo in Ht', Esys. cbn [fst] in Ht', Esys.
  assert (forall id table n ev, t_tables tracker !! id = Some table -> basicTable (c_system c) id = true -> st_payloads table !! n = Some ev -> Forall revised ev) as Hrev.
  { intros id table n ev Htab Hb Hp. pose proof (ObserveLazy_tables (ss_tracker s0) (s_TableID section) (s_Header section) events now id table) as H. rewrite Eo in H.
    assert (id = s_TableID section -> Forall revised events) as Hnew.
    { intros ->. subst events. apply Forall_forall. intros e He. apply list_elem_of_fmap in He as (e0 & -> & _). rewrite (proj2 (classify_basic c (s_TableID section)) Hb), bool_decide_eq_true_2 by done. apply tagEvent_revised. }
    destruct (H Htab) as [(old & Hold & Hall)|[Eid Hall]]; [|rewrite (Hall _ _ Hp); by apply Hnew]. destruct (Hall _ _ Hp) as [Ho|[Eid ->]]; [|by apply Hnew]. by eapply (sk_revised _ _ _ Hs0). }
  destruct progress; cbn [negb].
  - intros [= <- <- <-]. conjs; [|done|].
    + apply Hput. constructor; cbn [ss_tracker ss_stale ss_events ss_current]; [by rewrite Esys, (sk_system _ _ _ Hs0)|by eexists|done|exact Hrev|]. intros v [= <-]. done.
    + intros v [= <-]. cbn [setServices c_services c_operations]. rewrite lookup_insert_eq. eexists. split; [done|]. done.
  - intros [= <- <- <-]. conjs; [|done|done]. destruct (quiet_answers _ r _ _ _ _ _ Ht Hh Eo) as (Q1 & Q2 & Q3 & Q4 & Q5). apply Hput.
    constructor; cbn [ss_tracker ss_stale ss_events ss_current]; [by rewrite Esys, (sk_system _ _ _ Hs0)|by eexists| |exact Hrev|].
    + cbn [orb]. intros Hst. rewrite Q5. by apply (sk_cache _ _ _ Hs0).
    + intros v Hv. rewrite Q1, Q2, Q3. by apply (sk_current _ _ _ Hs0).
Qed.

(** ** Runs of a collector *)

Section Runs.
Context (range : gmap ServiceKey serviceSchedule -> list (ServiceKey * serviceSchedule)).
Hypothesis range_perm : forall m, range m ≡ₚ map_to_list m.

(** What happens to a collector: a section of the schedule comes, a receiver of
    an update asks for the events, the parameters of a service come, or those of a
    terrestrial network are kept; with the updates that are handed out. *)
Inductive collectorStep : Collector * Z -> list ScheduleUpdate -> Collector * Z -> Prop :=
  | k_section c n section now c' n' u : header_ok (s_Header section) -> observeSchedule c n section now = (c', n', u) ->
      collectorStep (c, n) (match u with Some u => [u] | None => [] end) (c', n')
  | k_events c n key c' events : collectorEvents c key = (c', events) -> collectorStep (c, n) [] (c', n)
  | k_operation c n network sid required c' us : applyOperation range c network sid required = (c', us) -> collectorStep (c, n) us (c', n)
  | k_parameters c n network descriptors : collectorStep (c, n) [] (mkCollector (c_system c) (c_source c) (c_services c) (c_pf c) (c_operations c) (c_actualServices c) (<[network := descriptors]> (c_terrestrialParameters c)), n).

Inductive collectorRun : Collector * Z -> list ScheduleUpdate -> Collector * Z -> Prop :=
  | kr_done x : collectorRun x [] x
  | kr_step x us y vs z : collectorStep x us y -> collectorRun y vs z -> collectorRun x (us ++ vs) z.

(** [observeOperation] is such a run. *)
Lemma applyOperations_run network required services : forall n c c' us, applyOperations range c network required services = (c', us) -> collectorRun (c, n) us (c', n).
Proof.
  intros n. induction services as [services IH] using (well_founded_induction (Wf_nat.well_founded_ltof _ length)). unfold Wf_nat.ltof in IH. intros c c' us.
  destruct services as [|hi [|lo [|kind services]]]; cbn [applyOperations]; try (intros [= <- <-]; constructor).
  destruct (mediaOf kind) as [media|]; [|apply IH; cbn; lia].
  destruct (applyOperation range c network (be hi lo) _) as [c1 us1] eqn:E1. destruct (applyOperations range c1 network required services) as [c2 us2] eqn:E2. intros [= <- <-].
  eapply kr_step; [by eapply k_operation|]. apply (IH services); [cbn; lia|done].
Qed.

Lemma observeOperation_run c n network l listTag paramTag extended now c' us :
  observeOperation range c network l listTag paramTag extended now = Ret (c', us) -> collectorRun (c, n) us (c', n).
Proof.
  unfold observeOperation. destruct (scanDescriptors _ _ _ _ _ _) as [[s|]| | |]; cbn [mbind go_bind]; try done; [|intros [= <- <-]; constructor]. intros [= E]. by eapply applyOperations_run.
Qed.

Lemma collectorRun_app x us y vs z : collectorRun x us y -> collectorRun y vs z -> collectorRun x (us ++ vs) z.
Proof. induction 1 as [|a bs b cs d Hs _ IH]; intros H; [done|]. rewrite <- app_assoc. eapply kr_step; [exact Hs|by apply IH]. Qed.

(** So are the two tables of broadcasters. *)
Lemma ObserveMHBIT_run c n section now c' us : ObserveMHBIT range c section now = Ret (c', us) -> collectorRun (c, n) us (c', n).
Proof.
  unfold ObserveMHBIT. destruct (ParseMHBIT section) as [bit| | |]; cbn [orElse]; try done; [|intros [= <- <-]; constructor]. destruct (negb _); [intros [= <- <-]; constructor|].
  generalize (mh_TableIDExtension (mbit_Header bit)) as network. intros network. revert c c' us. induction (mbit_Broadcasters bit) as [|b l IH]; intros c c' us; cbn [observeMHBroadcasters]; [intros [= <- <-]; constructor|].
  destruct (observeOperation _ _ _ _ _ _ _ _) as [[c1 us1]| | |] eqn:E1; cbn [mbind go_bind]; try done. destruct (observeMHBroadcasters range c1 network l now) as [[c2 us2]| | |] eqn:E2; cbn [mbind go_bind]; try done.
  intros [= <- <-]. eapply collectorRun_app; [by eapply observeOperation_run|by apply IH].
Qed.

Lemma ObserveBIT_run rangeActual c n section now c' us : ObserveBIT range rangeActual c section now = Ret (c', us) -> collectorRun (c, n) us (c', n).
Proof.
  unfold ObserveBIT. destruct (ParseBIT section) as [bit| | |]; cbn [orElse]; try done; [|intros [= <- <-]; constructor]. destruct (negb _); [intros [= <- <-]; constructor|].
  generalize (bit_OriginalNetworkID bit) as network, (len (bit_Broadcasters bit) =? 1) as single. intros network single. revert c c' us.
  induction (bit_Broadcasters bit) as [|b l IH]; intros c c' us; cbn [observeBroadcasters]; [intros [= <- <-]; constructor|].
  destruct (operationsOf _) as [ds| | |]; cbn [mbind go_bind]; try done. destruct (isTerrestrial _ _) as [t| | |]; cbn [mbind go_bind]; try done. cbv zeta.
  match goal with |- context [observeOperation range ?a ?d ?e 0x41 0xD7 0x58 now] => destruct (observeOperation range a d e 0x41 0xD7 0x58 now) as [[c1 us1]| | |] eqn:E1 end; cbn [mbind go_bind]; try done.
  destruct (observeBroadcasters range rangeActual c1 network single l now) as [[c2 us2]| | |] eqn:E2; cbn [mbind go_bind]; try done. intros [= <- <-].
  eapply collectorRun_app; [|by apply IH]. destruct (t && single); [|by eapply observeOperation_run]. eapply (kr_step _ [] _ us1); [apply k_parameters|by eapply observeOperation_run].
Qed.

Lemma collectorStep_ok x us y : collectorStep x us y -> collector_ok x.1 ->
  collector_ok y.1 /\ forall u, u ∈ us -> exists s, c_services y.1 !! u_Service u = Some s /\ tells (ss_tracker s) (c_operations y.1) (u_Service u) u.
Proof.
  intros Hs Hc. destruct Hs as [c n section now c' n' u Hh E|c n key c' events E|c n network sid required c' us E|c n network descriptors]; cbn [fst] in *.
  4: { split; [exact Hc|by intros u ?%not_elem_of_nil]. }
  - destruct (observeSchedule_ok _ _ _ _ _ _ _ Hc Hh E) as (H1 & _ & H2). split; [done|]. intros v Hv. destruct u as [u|]; [|by apply not_elem_of_nil in Hv].
    apply list_elem_of_singleton in Hv as ->. destruct (H2 u eq_refl) as (s & Es & Ht). exists s. pose proof Ht as (-> & _). done.
  - split; [|by intros u ?%not_elem_of_nil]. unfold collectorEvents in E. destruct (c_services c !! key) as [s|] eqn:Es; [|by injection E as <- _].
    unfold scheduleEvents in E. injection E as <- _. unfold collector_ok. cbn [setServices c_services c_system]. apply map_Forall_insert_2; [|done]. pose proof (Hc _ _ Es) as [S1 S2 S3 S4 S5].
    constructor; cbn [ss_tracker ss_stale ss_events ss_current]; try done. intros _. destruct (ss_stale s); [done|by apply S3].
  - unfold applyOperation in E. case_bool_decide as Hsame; [injection E as <- <-; split; [done|by intros u ?%not_elem_of_nil]|]. injection E as <- <-. split; [exact Hc|].
    cbn [setOperations c_services c_operations]. intros u Hu. apply list_elem_of_bind in Hu as ([service state] & Hu & Hin). rewrite range_perm in Hin. apply elem_of_map_to_list in Hin.
    destruct (negb (k_NetworkID service =? network) || negb (k_ServiceID service =? sid)) eqn:Ek; [by apply not_elem_of_nil in Hu|]. bools. subst.
    destruct (ss_current state) as [cur|] eqn:Ec; [|by apply not_elem_of_nil in Hu]. apply list_elem_of_singleton in Hu as ->. destruct (sk_current _ _ _ (Hc _ _ Hin) _ Ec) as (U1 & U2 & U3 & U4).
    exists state. cbn [operationUpdate u_Service]. rewrite U1. split; [done|].
    assert (match required with Some b => <[(k_NetworkID service, k_ServiceID service) := b]> (c_operations c) | None => delete (k_NetworkID service, k_ServiceID service) (c_operations c) end !! operationKey service = required) as Eop.
    { unfold operationKey. destruct required; [apply lookup_insert_eq|apply lookup_delete_eq]. }
    unfold tells, extendedNotTransmitted. rewrite Eop. cbn [operationUpdate u_Service u_BasicObserved u_BasicComplete u_ExtendedObserved u_ExtendedRequired u_ExtendedComplete]. by conjs.
Qed.

Lemma collectorRun_ok x us y : collectorRun x us y -> collector_ok x.1 -> collector_ok y.1.
Proof. induction 1 as [|x us y vs z Hs _ IH]; [done|]. intros Hc. apply IH. by eapply collectorStep_ok. Qed.

Lemma NewCollector_ok system source : collector_ok (NewCollector system source).
Proof. apply map_Forall_empty. Qed.

(** C13: Every update tells the truth at its time, whether a section or the
    parameters of the service brought it: whether the basic schedule was
    observed and is complete, whether extended tables are required, and that
    the extended schedule is complete only if all its tables have come, or
    none has and the parameters say that none is sent. *)
Theorem updates_tell_the_state system source n us c n1 vs c' n' :
  collectorRun (NewCollector system source, n) us (c, n1) -> collectorStep (c, n1) vs (c', n') ->
  forall u, u ∈ vs -> exists s, c_services c' !! u_Service u = Some s /\ tells (ss_tracker s) (c_operations c') (u_Service u) u.
Proof.
  intros Hr Hs. apply (collectorStep_ok _ _ _ Hs). exact (collectorRun_ok _ _ _ Hr (NewCollector_ok system source)).
Qed.

(** C14: The events that an update hands out are those of the newest sections
    held, however often they were asked for before: one event per ID, in
    order, each from a basic event that none of its ID supersedes. *)
Theorem collected_guide_is_newest system source n us c n1 key s c' events :
  collectorRun (NewCollector system source, n) us (c, n1) -> c_services c !! key = Some s -> collectorEvents c key = (c', events) ->
  let held := basicEvents (Sections (ss_tracker s)) in
  StronglySorted Z.lt (map e_EventID events)
  /\ (forall id, id ∈ map e_EventID events <-> exists e, e ∈ held /\ e_EventID e = id)
  /\ forall o, o ∈ events -> exists e, best held (e_EventID o) e /\ stems o e.
Proof.
  intros Hr Es E held. pose proof (collectorRun_ok _ _ _ Hr (NewCollector_ok system source) _ _ Es) as Hs. unfold collectorEvents in E. rewrite Es in E. unfold scheduleEvents in E. injection E as _ <-.
  assert ((if ss_stale s then assembleEvents (Sections (ss_tracker s)) else ss_events s) = assembleEvents (Sections (ss_tracker s))) as ->.
  { destruct (ss_stale s) eqn:Est; [done|]. exact (sk_cache _ _ _ Hs Est). }
  apply assembled_events, (basicEvents_Sections Hs).
Qed.
End Runs.

(** ** Versions *)

Definition revisionOf (c : Collector) (key : ServiceKey) (id : Z) : option EITRevision := s ← c_services c !! key; ss_revisions s !! id.
Definition maskOf (c : Collector) (key : ServiceKey) (id : Z) : Z := default 0 (s ← c_services c !! key; ss_seenVersions s !! id).

Definition sectionOf (key : ServiceKey) (id : Z) (section : EITSection) : bool :=
  bool_decide (s_Service section = key) && (s_TableID section =? id) && h_CurrentNext (s_Header section) && (h_Version (s_Header section) <=? 31).

(** What a section does to the revision of a table and the versions seen. *)
Lemma observeSchedule_version c next section now c' next' u key id : observeSchedule c next section now = (c', next', u) ->
  let v := h_Version (s_Header section) in
  match (if sectionOf key id section then admitVersion (revisionOf c key id) (maskOf c key id) v else None) with
  | None => revisionOf c' key id = revisionOf c key id /\ maskOf c' key id = maskOf c key id
  | Some mask => maskOf c' key id = mask
      /\ if match revisionOf c key id with Some r => rv_Version r =? v | None => false end then revisionOf c' key id = revisionOf c key id /\ next' = next
         else revisionOf c' key id = Some (mkRevision (c_source c) id v next') /\ next' = u64 (next + 1)
  end.
Proof.
  intros E. cbv zeta. unfold sectionOf, revisionOf, maskOf. unfold observeSchedule in E. cbv zeta in E.
  set (s0 := default (newSchedule (c_system c)) (c_services c !! s_Service section)) in *.
  assert (forall j, ss_revisions s0 !! j = (s ← c_services c !! s_Service section; ss_revisions s !! j)) as Erev by (intros j; subst s0; destruct (c_services c !! s_Service section); [done|apply lookup_empty]).
  assert (forall j, ss_seenVersions s0 !! j = (s ← c_services c !! s_Service section; ss_seenVersions s !! j)) as Emask by (intros j; subst s0; destruct (c_services c !! s_Service section); [done|apply lookup_empty]).
  assert (forall s, (s_Service section <> key \/ (ss_revisions s !! id = ss_revisions s0 !! id /\ ss_seenVersions s !! id = ss_seenVersions s0 !! id)) ->
    (x ← <[s_Service section := s]> (c_services c) !! key; ss_revisions x !! id) = (x ← c_services c !! key; ss_revisions x !! id)
    /\ default 0 (x ← <[s_Service section := s]> (c_services c) !! key; ss_seenVersions x !! id) = default 0 (x ← c_services c !! key; ss_seenVersions x !! id)) as Hkeep.
  { intros s [Hne|[H1 H2]]; [by rewrite lookup_insert_ne by done|]. destruct (decide (s_Service section = key)) as [<-|Hne]; [|by rewrite lookup_insert_ne by done].
    rewrite lookup_insert_eq. cbn [mbind option_bind]. by rewrite H1, H2, Erev, Emask. }
  destruct (negb (h_CurrentNext (s_Header section)) || (31 <? h_Version (s_Header section))) eqn:Eg.
  { injection E as <- _ _. cbn [setServices c_services]. destruct (_ && _) eqn:Ec; [|apply Hkeep; by right]. exfalso. bools. apply orb_true_iff in Eg as [Eg|Eg]; bools; [congruence|lia]. }
  apply orb_false_iff in Eg as [Ecn Ev31]. apply negb_false_iff in Ecn. apply Z.ltb_ge in Ev31. rewrite Ecn, (proj2 (Z.leb_le _ 31) Ev31), !andb_true_r.
  destruct (admitVersion (ss_revisions s0 !! s_TableID section) _ _) as [mask|] eqn:Ea.
  2: { injection E as <- _ _. cbn [setServices c_services]. destruct (bool_decide (s_Service section = key) && (s_TableID section =? id)) eqn:Ec; [|apply Hkeep; by right].
       apply andb_true_iff in Ec as [<-%bool_decide_eq_true <-%Z.eqb_eq]. rewrite Erev, Emask in Ea. rewrite Ea. apply Hkeep. by right. }
  cbn [ss_tracker ss_current ss_revisions ss_seenVersions ss_events ss_stale] in E.
  set (rev := match ss_revisions s0 !! s_TableID section with Some r => _ | None => mkRevision _ _ _ _ end) in E.
  match type of E with context [ObserveLazy ?a ?b ?d ?e ?f] => destruct (ObserveLazy a b d e f) as [tracker progress] end.
  assert (exists s, c_services c' = <[s_Service section := s]> (c_services c) /\ ss_revisions s = <[s_TableID section := rev]> (ss_revisions s0)
    /\ ss_seenVersions s = <[s_TableID section := mask]> (ss_seenVersions s0)
    /\ next' = (if match ss_revisions s0 !! s_TableID section with Some r => negb (rv_Version r =? h_Version (s_Header section)) | None => true end then u64 (next + 1) else next)) as (s & Es & Er & Em & En).
  { destruct progress; cbn [negb] in E; injection E as <- <- _; eexists; by conjs. }
  rewrite Es. destruct (bool_decide (s_Service section = key) && (s_TableID section =? id)) eqn:Ec.
  - apply andb_true_iff in Ec as [<-%bool_decide_eq_true <-%Z.eqb_eq]. rewrite <- Erev, <- Emask, Ea, lookup_insert_eq. cbn [mbind option_bind]. rewrite Er, Em, !lookup_insert_eq. cbn [default].
    split; [done|]. subst rev. destruct (ss_revisions s0 !! s_TableID section) as [r|]; [destruct (rv_Version r =? _)|]; cbn [negb] in *; split; try done; by rewrite En.
  - apply Hkeep. apply andb_false_iff in Ec as [Hne%bool_decide_eq_false|Hne%Z.eqb_neq]; [by left|right]. by rewrite Er, Em, !lookup_insert_ne by done.
Qed.

(** The versions that become current, in order, as sections come. *)
Fixpoint currents (c : Collector) (next : Z) (l : list (EITSection * Z)) (key : ServiceKey) (id : Z) : list Z :=
  match l with
  | [] => []
  | (section, now) :: l =>
      let '(c', next', _) := observeSchedule c next section now in
      (if bool_decide (revisionOf c' key id = revisionOf c key id) then [] else [h_Version (s_Header section)]) ++ currents c' next' l key id
  end.

(** The bits are the versions [ws], the last of which is current. *)
Definition seen (c : Collector) (key : ServiceKey) (id : Z) (ws : list Z) : Prop :=
  0 <= maskOf c key id < 2 ^ 32 /\ (forall v, 0 <= v < 32 -> Z.testbit (maskOf c key id) v = true <-> v ∈ ws)
  /\ match revisionOf c key id with Some r => rv_Version r ∈ ws | None => ws = [] end.

Lemma lor_bit_bound m v : 0 <= m < 2 ^ 32 -> 0 <= v < 32 -> 0 <= Z.lor m (Z.shiftl 1 v) < 2 ^ 32.
Proof.
  intros Hm Hv. rewrite Z.shiftl_1_l. assert (0 <= 2 ^ v < 2 ^ 32) as Hp by (split; [by apply Z.pow_nonneg|apply Z.pow_lt_mono_r; lia]).
  assert (0 <= Z.lor m (2 ^ v)) by (apply Z.lor_nonneg; lia). split; [done|]. destruct (Z.eq_dec (Z.lor m (2 ^ v)) 0) as [-> |]; [lia|].
  assert (forall x, 0 <= x < 2 ^ 32 -> Z.log2 x < 32) as Hlog by (intros x Hx; destruct (Z.eq_dec x 0) as [-> |]; [done|apply Z.log2_lt_pow2; lia]).
  apply Z.log2_lt_pow2; [lia|]. rewrite Z.log2_lor by lia. apply Z.max_lub_lt; by apply Hlog.
Qed.

Lemma seen_more c c' key id ws v : seen c key id ws -> 0 <= v < 32 -> maskOf c' key id = Z.lor (maskOf c key id) (Z.shiftl 1 v) ->
  match revisionOf c' key id with Some r => rv_Version r ∈ v :: ws | None => False end -> seen c' key id (v :: ws).
Proof.
  intros (Hm & Hb & _) Hv Em Hr. split; [rewrite Em; by apply lor_bit_bound|]. split; [|by destruct (revisionOf c' key id)].
  intros w Hw. rewrite Em, Z.lor_spec, Z.shiftl_1_l, orb_true_iff, Hb, elem_of_cons by done. rewrite Z.pow2_bits_eqb, Z.eqb_eq by lia. naive_solver.
Qed.

(** While some version is never used, no version becomes current twice. *)
Lemma currents_distinct key id v0 : 0 <= v0 < 32 -> forall l c next ws, Forall (fun x => 0 <= h_Version (s_Header x.1)) l ->
  Forall (fun x => sectionOf key id x.1 = true -> h_Version (s_Header x.1) <> v0) l -> seen c key id ws -> v0 ∉ ws ->
  NoDup (currents c next l key id) /\ forall v, v ∈ currents c next l key id -> v ∉ ws.
Proof.
  intros Hv0. induction l as [|[section now] l IH]; intros c next ws Hpos Hne Hs Hv; cbn [currents]; [split; [constructor|by intros v ?%not_elem_of_nil]|].
  inversion Hpos as [|? ? Hp Hpos']; inversion Hne as [|? ? Hn Hne']; subst. cbn [fst] in *. destruct (observeSchedule c next section now) as [[c' next'] u] eqn:E.
  pose proof (observeSchedule_version c next section now c' next' u key id E) as H. cbv zeta in H. set (v := h_Version (s_Header section)) in *.
  assert (revisionOf c' key id = revisionOf c key id -> maskOf c' key id = maskOf c key id -> seen c' key id ws) as Hsame by (intros E1 E2; unfold seen; by rewrite E1, E2).
  destruct (sectionOf key id section) eqn:Esec.
  2: { destruct H as [H1 H2]. rewrite H1, bool_decide_eq_true_2 by done. by apply IH; [..|apply Hsame|]. }
  specialize (Hn eq_refl). assert (0 <= v < 32) as Hv32. { unfold sectionOf in Esec. bools. unfold v. lia. }
  pose proof Hs as (Hm & Hb & Hr). unfold admitVersion in H.
  assert (forall w, 0 <= w < 32 -> negb (Z.land (maskOf c key id) (Z.shiftl 1 w) =? 0) = bool_decide (w ∈ ws)) as Hbit.
  { intros w Hw. rewrite land_bit, negb_involutive by lia. apply eq_true_iff_eq. rewrite Hb, bool_decide_eq_true by done. done. }
  assert (maskOf c key id <> 2 ^ 32 - 1) as Hnf.
  { intros Hfull. apply Hv, (Hb v0 Hv0). rewrite Hfull. change (2 ^ 32 - 1) with (Z.ones 32). by apply Z.ones_spec_low. }
  rewrite (proj2 (Z.eqb_neq _ _) Hnf) in H. cbn [negb] in H.
  destruct (revisionOf c key id) as [r|] eqn:Er.
  - destruct (Z.eqb_spec (rv_Version r) v) as [Ev|Ev]; cbn [negb] in H.
    + destruct H as (H1 & H2 & H3). rewrite H2, bool_decide_eq_true_2 by done. cbn [app].
      assert (seen c' key id (v :: ws)) as Hs' by (eapply seen_more; [exact Hs|done|done|rewrite H2; by right]).
      destruct (IH c' next' (v :: ws) Hpos' Hne' Hs') as [I1 I2]; [apply not_elem_of_cons; split; [by intros <-|done]|]. split; [done|]. intros w Hw. specialize (I2 w Hw). by apply not_elem_of_cons in I2 as [_ ?].
    + rewrite (Hbit v Hv32) in H. case_bool_decide as Hin.
      * destruct H as [H1 H2]. rewrite H1, bool_decide_eq_true_2 by done. apply IH; try done. apply Hsame; done.
      * destruct H as (H1 & H2 & _). rewrite H2, bool_decide_eq_false_2 by (intros [= <-]; by apply Ev). cbn [app].
        assert (seen c' key id (v :: ws)) as Hs' by (eapply seen_more; [exact Hs|done|done|rewrite H2; by left]).
        destruct (IH c' next' (v :: ws) Hpos' Hne' Hs') as [I1 I2]; [apply not_elem_of_cons; split; [by intros <-|done]|].
        split; [constructor; [|done]; intros Hx; apply (I2 v Hx); by left|]. intros w [-> |Hw]%elem_of_cons; [done|]. specialize (I2 w Hw). by apply not_elem_of_cons in I2 as [_ ?].
  - subst ws. destruct H as (H1 & H2 & _). rewrite H2, bool_decide_eq_false_2 by done. cbn [app].
    assert (seen c' key id [v]) as Hs' by (eapply seen_more; [exact Hs|done|done|rewrite H2; by left]).
    destruct (IH c' next' [v] Hpos' Hne' Hs') as [I1 I2]; [apply not_elem_of_cons; split; [by intros <-|done]|].
    split; [constructor; [|done]; intros Hx; apply (I2 v Hx); by left|]. intros w _. apply not_elem_of_nil.
Qed.

(** A version that has been replaced does not come back: as long as fewer
    than all 32 versions of a table have been used, none of them becomes
    current twice, however late or repeated its sections are. *)
Theorem replaced_versions_stay_replaced system source next l key id v0 : 0 <= v0 < 32 ->
  Forall (fun x => 0 <= h_Version (s_Header x.1)) l -> Forall (fun x => sectionOf key id x.1 = true -> h_Version (s_Header x.1) <> v0) l ->
  NoDup (currents (NewCollector system source) next l key id).
Proof.
  intros Hv0 Hpos Hne. apply (currents_distinct key id v0 Hv0 l _ next []); [done..| |apply not_elem_of_nil].
  unfold seen, maskOf, revisionOf. cbn [NewCollector c_services]. rewrite lookup_empty. cbn. split; [lia|]. split; [|done]. intros v Hv. rewrite Z.bits_0. split; [done|by intros ?%not_elem_of_nil].
Qed.

(** ** Runs *)

Definition demoKey : ServiceKey := mkServiceKey 4 1 101.
Definition demoEITSection (version number : Z) (events : list Event) : EITSection :=
  mkEITSection 0x50 (mkHeader 101 version number 1 true 0x50 1) demoKey events.
Definition demoNow : Z := 54000000000000.

(** Version 1, version 2, and version 1 again, which is refused. *)
Definition demoSections : list (EITSection * Z) :=
  [(demoEITSection 1 0 [plainEvent 7 0x50 0 "Old" 1], demoNow); (demoEITSection 2 0 [plainEvent 7 0x50 0 "New" 5], demoNow); (demoEITSection 1 0 [plainEvent 7 0x50 0 "Old" 1], demoNow)].

Lemma replaced_versions_stay_replaced_witness :
  currents (NewCollector ScheduleTS EmptyString) 0 demoSections demoKey 0x50 = [1; 2] /\ NoDup (currents (NewCollector ScheduleTS EmptyString) 0 demoSections demoKey 0x50).
Proof.
  split; [vm_compute; reflexivity|]. apply (replaced_versions_stay_replaced ScheduleTS EmptyString 0 demoSections demoKey 0x50 5); [lia|repeat constructor; cbn; lia|repeat constructor; cbn; done].
Defined.

Definition demoFirst : Collector * Z * option ScheduleUpdate := observeSchedule (NewCollector ScheduleTS EmptyString) 0 (demoEITSection 1 0 [plainEvent 7 0x50 0 "Old" 1]) demoNow.
Definition demoSecond : Collector * Z * option ScheduleUpdate := observeSchedule demoFirst.1.1 demoFirst.1.2 (demoEITSection 2 1 [plainEvent 9 0x50 0 "New" 5]) demoNow.

Lemma triple_eta {A B C} (x : A * B * C) : x = (x.1.1, x.1.2, x.2).
Proof. by destruct x as [[? ?] ?]. Qed.

Lemma demoHeader_ok version number events : 0 <= number < 8 -> header_ok (s_Header (demoEITSection version number events)).
Proof. intros. unfold header_ok, byte_ok. cbn. lia. Qed.

Lemma demoFirst_step : collectorStep map_to_list (NewCollector ScheduleTS EmptyString, 0) (match demoFirst.2 with Some u => [u] | None => [] end) (demoFirst.1.1, demoFirst.1.2).
Proof. eapply k_section; [|apply triple_eta]. by apply demoHeader_ok. Qed.

Lemma demoSecond_step : collectorStep map_to_list (demoFirst.1.1, demoFirst.1.2) (match demoSecond.2 with Some u => [u] | None => [] end) (demoSecond.1.1, demoSecond.1.2).
Proof. eapply k_section; [|apply triple_eta]. by apply demoHeader_ok. Qed.

Lemma updates_tell_the_state_witness : exists u, demoSecond.2 = Some u /\ exists s, c_services demoSecond.1.1 !! u_Service u = Some s /\ tells (ss_tracker s) (c_operations demoSecond.1.1) (u_Service u) u.
Proof.
  destruct demoSecond.2 as [u|] eqn:E; [|exfalso; vm_compute in E; discriminate E]. exists u. split; [reflexivity|].
  eapply (updates_tell_the_state map_to_list (fun m => Permutation_refl _) ScheduleTS EmptyString 0 _ demoFirst.1.1 demoFirst.1.2 [u] demoSecond.1.1 demoSecond.1.2).
  - eapply kr_step; [apply demoFirst_step|constructor].
  - pose proof demoSecond_step as H. rewrite E in H. exact H.
  - left.
Defined.

Lemma collected_guide_is_newest_witness : map e_EventID (collectorEvents demoSecond.1.1 demoKey).2 = [7; 9] /\ StronglySorted Z.lt (map e_EventID (collectorEvents demoSecond.1.1 demoKey).2).
Proof.
  split; [vm_compute; reflexivity|]. destruct (c_services demoSecond.1.1 !! demoKey) as [s|] eqn:E; [|exfalso; vm_compute in E; discriminate E].
  eapply (collected_guide_is_newest map_to_list (fun m => Permutation_refl _) ScheduleTS EmptyString 0 _ demoSecond.1.1 demoSecond.1.2 demoKey s); [|exact E|apply surjective_pairing].
  eapply kr_step; [apply demoFirst_step|]. eapply kr_step; [apply demoSecond_step|constructor].
Defined.
