(* ===== verification/EventPeers.v ===== *)
(** * Events shared between services (internal/epggather/program_merge.go)

    Services that carry the same programme name each other's events in event
    groups.  [fillEventsFromSharedPeers] joins the events so linked with a
    union-find structure and fills what an event lacks from its peers.  The
    events are changed in place while they are read; they are a store here,
    and a pointer to an event is its index.  [find] compresses paths; its fuel
    is one more than the number of keys, which a path cannot exceed. *)

From stdpp Require Import strings.
From S2P Require Import Prelude Epg.

Abbreviation eventPeerKey := (Z * Z * Z)%type.
Abbreviation forest := (gmap eventPeerKey eventPeerKey).

(** ** The code *)

Definition eventKey (e : Event) : eventPeerKey := (k_NetworkID (e_Key e), k_ServiceID (e_Key e), e_EventID e).

Fixpoint findFuel (fuel : nat) (parent : forest) (key : eventPeerKey) : go (forest * eventPeerKey) :=
  match fuel with
  | O => Diverge
  | S fuel =>
      match parent !! key with
      | None => Ret (<[key := key]> parent, key)
      | Some current =>
          if bool_decide (current = key) then Ret (parent, key)
          else '(parent, root) ← findFuel fuel parent current; Ret (<[key := root]> parent, root)
      end
  end.

Definition find (parent : forest) (key : eventPeerKey) : go (forest * eventPeerKey) := findFuel (S (size parent)) parent key.

Definition union (parent : forest) (a b : eventPeerKey) : go forest :=
  '(parent, rootA) ← find parent a;
  '(parent, rootB) ← find parent b;
  if bool_decide (rootA = rootB) then Ret parent else Ret (<[rootB := rootA]> parent).

(** The events that an event is shared with. *)
Definition sharedWith (item : Event) : list eventPeerKey :=
  related ← e_Related item;
  if negb (re_GroupType related =? EventGroupShared) || (re_ServiceID related =? 0) || (re_EventID related =? 0) then []
  else [(if re_NetworkID related =? 0 then k_NetworkID (e_Key item) else re_NetworkID related, re_ServiceID related, re_EventID related)].

Fixpoint unionAll (parent : forest) (source : eventPeerKey) (targets : list eventPeerKey) : go forest :=
  match targets with
  | [] => Ret parent
  | t :: targets => parent ← union parent source t; unionAll parent source targets
  end.

Fixpoint linkAll (parent : forest) (items : list Event) : go forest :=
  match items with
  | [] => Ret parent
  | item :: items =>
      '(parent, _) ← find parent (eventKey item);
      parent ← unionAll parent (eventKey item) (sharedWith item);
      linkAll parent items
  end.

(** [peers[root] = append(peers[root], item)] for all items, from index [i]. *)
Fixpoint groupAll (parent : forest) (peers : gmap eventPeerKey (list nat)) (items : list Event) (i : nat) : go (gmap eventPeerKey (list nat)) :=
  match items with
  | [] => Ret peers
  | item :: items =>
      '(parent, root) ← find parent (eventKey item);
      groupAll parent (<[root := default [] (peers !! root) ++ [i]]> peers) items (S i)
  end.

(** [if item.Name == "" && peer.Name != "" { item.Name = peer.Name }] and so
    on, which is to take the peer's value where the item has none. *)
Definition fillFrom (item peer : Event) : Event :=
  mkEvent (e_EITExtendedRevision item) (e_EITRevision item) (e_EITPresent item) (e_EITFollowing item) (e_EITSuspended item) (e_Key item) (e_EventID item)
    (e_StartAt item) (e_DurationMS item) (e_RunningStatus item) (e_FreeCA item) (e_Language item)
    (orString (e_Name item) (e_Name peer)) (orString (e_Description item) (e_Description peer)) (orList (e_Genres item) (e_Genres peer))
    (orList (e_Videos item) (e_Videos peer)) (orList (e_Audios item) (e_Audios peer)) (orList (e_Extended item) (e_Extended peer))
    (e_Related item) (e_Parental item) (orOption (e_Series item) (e_Series peer)).

(** [fillEventFromPeers]: the item at [i] from the others of its group. *)
Definition fillEventFromPeers (store : list Event) (i : nat) (group : list nat) : list Event :=
  match store !! i with
  | None => store
  | Some item => <[i := foldl (fun item j => if bool_decide (j = i) then item else match store !! j with Some peer => fillFrom item peer | None => item end) item group]> store
  end.

Definition fillGroup (store : list Event) (group : list nat) : list Event := foldl (fun store i => fillEventFromPeers store i group) store group.

Section Filling.
(** [for _, group := range peers] *)
Context (range : gmap eventPeerKey (list nat) -> list (eventPeerKey * list nat)).

Definition fillEventsFromSharedPeers (items : list Event) : go (list Event) :=
  parent ← linkAll ∅ items;
  peers ← groupAll parent ∅ items 0;
  Ret (foldl (fun store g => fillGroup store g.2) items (range peers)).
End Filling.

(** ** Paths and roots *)

(** [root p k r]: following the parents from [k] leads to [r]. *)
Inductive root (p : forest) : eventPeerKey -> eventPeerKey -> Prop :=
  | root_self r : p !! r = Some r -> root p r r
  | root_step k k' r : p !! k = Some k' -> k' <> k -> root p k' r -> root p k r.

Definition rooted (p : forest) : Prop := forall k, is_Some (p !! k) -> exists r, root p k r.

Lemma root_is_root p k r : root p k r -> p !! r = Some r.
Proof. by induction 1. Qed.

Lemma root_known p k r : root p k r -> is_Some (p !! k).
Proof. destruct 1; eauto. Qed.

Lemma root_unique p k r r' : root p k r -> root p k r' -> r = r'.
Proof.
  intros H. revert r'. induction H as [r Hr|k k' r Hk Hne _ IH]; intros r' H'; inversion H' as [? H1|? k1 ? H1 H2 H3]; subst; try congruence.
  apply IH. by replace k' with k1 by congruence.
Qed.

(** A path, as the list of its keys before the root. *)
Inductive path (p : forest) : eventPeerKey -> list eventPeerKey -> Prop :=
  | path_self r : p !! r = Some r -> path p r []
  | path_step k k' l : p !! k = Some k' -> k' <> k -> path p k' l -> path p k (k :: l).

Lemma root_path p k r : root p k r -> exists l, path p k l.
Proof. induction 1 as [r Hr|k k' r Hk Hne _ [l IH]]; [exists []; by constructor|exists (k :: l); by econstructor]. Qed.

Lemma path_unique p k l l' : path p k l -> path p k l' -> l = l'.
Proof.
  intros H. revert l'. induction H as [r Hr|k k' l Hk Hne _ IH]; intros l' H'; inversion H' as [? H1|? k1 l1 H1 H2 H3]; subst; try congruence.
  f_equal. apply IH. by replace k' with k1 by congruence.
Qed.

Lemma path_suffix p k l x : path p k l -> x ∈ l -> exists l1 l2, l = l1 ++ l2 /\ path p x l2 /\ exists t, l2 = x :: t.
Proof.
  induction 1 as [r Hr|k k' l Hk Hne Hp IH]; intros Hx; [by apply not_elem_of_nil in Hx|]. apply elem_of_cons in Hx as [-> |Hx].
  - exists [], (k :: l). split; [done|]. split; [by econstructor|by exists l].
  - destruct (IH Hx) as (l1 & l2 & -> & H1 & H2). exists (k :: l1), l2. done.
Qed.

Lemma path_distinct p k l : path p k l -> NoDup l /\ forall x, x ∈ l -> is_Some (p !! x).
Proof.
  induction 1 as [r Hr|k k' l Hk Hne Hp [IH1 IH2]]; [split; [constructor|by intros x ?%not_elem_of_nil]|]. split.
  - constructor; [|done]. intros Hin. destruct (path_suffix _ _ _ _ Hp Hin) as (l1 & l2 & E & H2 & _).
    assert (path p k (k :: l)) as H1 by (by econstructor). pose proof (path_unique _ _ _ _ H1 H2) as E'. rewrite <- E' in E. apply (f_equal length) in E. rewrite length_app in E. cbn in E. lia.
  - intros x [-> |Hx]%elem_of_cons; [by exists k'|by apply IH2].
Qed.

Lemma path_short p k l : path p k l -> (length l <= size p)%nat.
Proof.
  intros H. destruct (path_distinct _ _ _ H) as [Hnd Hin]. rewrite <- size_dom. transitivity (size (list_to_set l : gset eventPeerKey)); [by rewrite size_list_to_set|].
  apply subseteq_size. intros x Hx. apply elem_of_list_to_set in Hx. by apply elem_of_dom, Hin.
Qed.

(** ** Find and union *)

(** Compressing a path changes no root. *)
Lemma compress p k r : root p k r -> k <> r -> forall x y, root (<[k := r]> p) x y <-> root p x y.
Proof.
  intros Hk Hne. pose proof (root_is_root _ _ _ Hk) as Hr.
  assert (root (<[k := r]> p) r r) as Hr' by (constructor; by rewrite lookup_insert_ne by done).
  assert (forall x y, root p x y -> root (<[k := r]> p) x y) as H1.
  { intros x y H. pose proof H as H0. induction H as [y Hy|x x' y Hx Hne' Hrest IH].
    - destruct (decide (y = k)) as [-> |]; [|constructor; by rewrite lookup_insert_ne by done]. rewrite (root_unique _ _ _ _ Hk H0) in Hne. done.
    - destruct (decide (x = k)) as [-> |Hxk]; [|econstructor; [rewrite lookup_insert_ne by done; exact Hx|done|by apply IH]].
      rewrite <- (root_unique _ _ _ _ Hk H0). econstructor; [apply lookup_insert_eq|done|done]. }
  intros x y. split; [|apply H1]. intros H. destruct (decide (is_Some (p !! x))) as [Hx|Hx].
  - clear H1. induction H as [y Hy|x x' y Hxx Hne' Hrest IH].
    + destruct (decide (y = k)) as [-> |]; [rewrite lookup_insert_eq in Hy; congruence|]. rewrite lookup_insert_ne in Hy by done. by constructor.
    + destruct (decide (x = k)) as [-> |Hxk].
      * rewrite lookup_insert_eq in Hxx. injection Hxx as <-. specialize (IH ltac:(by exists r)). assert (y = r) as -> by (eapply root_unique; [exact IH|by constructor]). done.
      * rewrite lookup_insert_ne in Hxx by done. econstructor; [done|done|]. apply IH.
        apply root_known in Hrest. destruct (decide (x' = k)) as [-> |]; [by eapply root_known|]. by rewrite lookup_insert_ne in Hrest by done.
  - exfalso. apply root_known in H. destruct (decide (x = k)) as [-> |]; [by apply Hx; eapply root_known|]. by rewrite lookup_insert_ne in H by done.
Qed.

Lemma findFuel_known fuel : forall p k r l, root p k r -> path p k l -> (length l < fuel)%nat ->
  exists p', findFuel fuel p k = Ret (p', r) /\ (forall x y, root p' x y <-> root p x y) /\ dom p' = dom p.
Proof.
  induction fuel as [|fuel IH]; intros p k r l Hr Hp Hl; [lia|]. cbn [findFuel]. destruct (root_known _ _ _ Hr) as [c Hc]. rewrite Hc.
  inversion Hp as [? H1|? k' l' H1 H2 H3]; subst.
  - assert (c = k) as -> by congruence. rewrite bool_decide_eq_true_2 by done. exists p. assert (k = r) as -> by (eapply root_unique; [by constructor|done]). done.
  - assert (c = k') as -> by congruence. rewrite bool_decide_eq_false_2 by done. inversion Hr as [? H4|? k1 ? H4 H5 H6]; subst; [congruence|]. assert (k1 = k') as -> by congruence.
    destruct (IH p k' r l' H6 H3 ltac:(cbn in Hl; lia)) as (p1 & E & Hsame & Hdom). rewrite E. cbn [mbind go_bind]. eexists. split; [done|].
    assert (k <> r) as Hkr. { intros ->. apply root_is_root in H6. congruence. } assert (root p1 k r) as Hr1 by (by apply Hsame). split.
    + intros x y. rewrite (compress p1 k r Hr1 Hkr). apply Hsame.
    + rewrite dom_insert_L, Hdom. apply subseteq_union_1_L. intros x ->%elem_of_singleton. by apply elem_of_dom.
Qed.

Lemma find_spec p k : rooted p -> exists p' r, find p k = Ret (p', r) /\ root p' k r /\ rooted p'
  /\ (forall x y, root p' x y <-> root p x y \/ (p !! k = None /\ x = k /\ y = k)).
Proof.
  intros Hp. unfold find. destruct (p !! k) as [c|] eqn:Hc.
  - destruct (Hp k ltac:(by exists c)) as [r Hr]. destruct (root_path _ _ _ Hr) as [l Hl]. destruct (findFuel_known (S (size p)) p k r l Hr Hl) as (p' & E & Hsame & Hdom); [pose proof (path_short _ _ _ Hl); lia|].
    exists p', r. split; [done|]. split; [by apply Hsame|]. split; [|intros x y; rewrite Hsame; naive_solver].
    intros x Hx. destruct (Hp x) as [y Hy]; [|exists y; by apply Hsame]. apply elem_of_dom. rewrite <- Hdom. by apply elem_of_dom.
  - cbn [findFuel]. rewrite Hc. exists (<[k := k]> p), k. split; [done|]. assert (forall x y, root (<[k := k]> p) x y <-> root p x y \/ (None = @None eventPeerKey /\ x = k /\ y = k)) as Hiff.
    { intros x y. split.
      - induction 1 as [y Hy|x x' y Hx Hne H IH].
        + destruct (decide (y = k)) as [-> |]; [by right|left; constructor; by rewrite lookup_insert_ne in Hy by done].
        + destruct (decide (x = k)) as [-> |]; [rewrite lookup_insert_eq in Hx; congruence|]. rewrite lookup_insert_ne in Hx by done. destruct IH as [IH|(_ & -> & ->)]; [left; by econstructor|].
          exfalso. assert (is_Some (p !! x)) as Hxs by (by exists k). destruct (Hp x Hxs) as [z Hz]. inversion Hz as [? H1|? k1 ? H1 H2 H3]; subst; [congruence|]. assert (k1 = k) as -> by congruence. apply root_known in H3 as [? H3]. congruence.
      - intros [H|(_ & -> & ->)]; [|constructor; apply lookup_insert_eq]. induction H as [y Hy|x x' y Hx Hne H IH].
        + destruct (decide (y = k)) as [-> |]; [congruence|]. constructor. by rewrite lookup_insert_ne by done.
        + destruct (decide (x = k)) as [-> |]; [congruence|]. econstructor; [rewrite lookup_insert_ne by done; exact Hx|done|done]. }
    split; [apply Hiff; by right|]. split; [|exact Hiff]. intros x Hx. destruct (decide (x = k)) as [-> |]; [exists k; apply Hiff; by right|]. rewrite lookup_insert_ne in Hx by done. destruct (Hp x Hx) as [y Hy]. exists y. apply Hiff. by left.
Qed.

(** ** The classes are those of the links *)

Definition same (p : forest) (x y : eventPeerKey) : Prop := exists r, root p x r /\ root p y r.

Lemma same_sym p x y : same p x y -> same p y x.
Proof. intros (r & ? & ?). by exists r. Qed.

Lemma same_trans p x y z : same p x y -> same p y z -> same p x z.
Proof. intros (r & H1 & H2) (r' & H3 & H4). exists r. rewrite (root_unique _ _ _ _ H2 H3) in *. done. Qed.

(** Two keys have the same root exactly if the links [E] connect them. *)
Record classes (p : forest) (E : eventPeerKey -> eventPeerKey -> Prop) : Prop := {
  cl_rooted : rooted p;
  cl_known : forall a b, E a b -> is_Some (p !! a) /\ is_Some (p !! b);
  cl_same : forall x y, is_Some (p !! x) -> is_Some (p !! y) -> same p x y <-> rtsc E x y
}.

Lemma root_of_known p x : rooted p -> is_Some (p !! x) <-> exists r, root p x r.
Proof. intros Hp. split; [apply Hp|]. intros [r Hr]. by eapply root_known. Qed.

Lemma rtsc_unknown (E : eventPeerKey -> eventPeerKey -> Prop) k y : (forall a b, E a b -> a <> k /\ b <> k) -> rtsc E k y -> y = k.
Proof.
  intros Hk H. unfold rtsc in H. inversion H as [|? z ? [Hs|Hs] _]; subst; [done|by destruct (Hk _ _ Hs)..].
Qed.

Lemma find_classes p E k : classes p E -> exists p' r, find p k = Ret (p', r) /\ root p' k r /\ classes p' E
  /\ (forall x, is_Some (p' !! x) <-> is_Some (p !! x) \/ x = k) /\ (forall x y, root p x y -> root p' x y).
Proof.
  intros [Hp Hkn Hs]. destruct (find_spec p k Hp) as (p' & r & Ef & Hr & Hp' & Hiff). exists p', r.
  assert (forall x, is_Some (p' !! x) <-> is_Some (p !! x) \/ x = k) as Hknown.
  { intros x. rewrite !root_of_known by done. split.
    - intros [y Hy]. apply Hiff in Hy as [Hy|(_ & -> & _)]; [left; by exists y|by right].
    - intros [[y Hy]| ->]; [exists y; apply Hiff; by left|by exists r]. }
  assert (forall x y, is_Some (p !! x) -> is_Some (p !! y) -> same p' x y <-> same p x y) as Hold.
  { intros x y Hx Hy. split; intros (z & H1 & H2); exists z; rewrite !Hiff in *; [|naive_solver].
    destruct H1 as [H1|(Hn & -> & _)]; [|by destruct Hx; congruence]. destruct H2 as [H2|(Hn & -> & _)]; [done|by destruct Hy; congruence]. }
  conjs; try done; [|intros x y Hxy; apply Hiff; by left]. constructor; [done| |].
  - intros a b Hab. rewrite !Hknown. destruct (Hkn a b Hab). naive_solver.
  - intros x y Hx Hy. rewrite Hknown in Hx, Hy. destruct (decide (is_Some (p !! k))) as [Hk|Hk].
    { assert (is_Some (p !! x)) by naive_solver. assert (is_Some (p !! y)) by naive_solver. by rewrite Hold, Hs. }
    assert (forall a b, E a b -> a <> k /\ b <> k) as HE. { intros a b Hab. destruct (Hkn a b Hab). split; by intros ->. }
    assert (forall z, same p' k z -> z = k) as Hk1.
    { intros z (w & H1 & H2). apply Hiff in H1 as [H1|(_ & _ & ->)]; [by apply root_known in H1|]. apply Hiff in H2 as [H2|(_ & -> & _)]; [|done]. exfalso. apply Hk. exists k. by eapply root_is_root. }
    assert (same p' k k) as Hkk by (by exists r).
    destruct Hx as [Hx| ->], Hy as [Hy| ->]; [by rewrite Hold, Hs| | |].
    + split; [intros H%same_sym%Hk1; by subst|]. intros H. symmetry in H. apply rtsc_unknown in H; [by subst|done].
    + split; [intros H%Hk1; by subst|]. intros H. apply rtsc_unknown in H; [by subst|done].
    + split; [done|]. intros _. done.
Qed.

Lemma classes_ext p E E' : (forall a b, E a b <-> E' a b) -> classes p E -> classes p E'.
Proof.
  intros HE [H1 H2 H3]. constructor; [done|intros a b Hab; by apply H2, HE|]. intros x y Hx Hy. rewrite H3 by done. unfold rtsc. split; intros H; (eapply rtc_subrel; [|exact H]); intros u v [Hs|Hs]; [left|right|left|right]; by apply HE.
Qed.

Lemma union_classes p E a b : classes p E -> exists p', union p a b = Ret p' /\ classes p' (fun u v => E u v \/ (u = a /\ v = b)) /\ (forall x, is_Some (p !! x) -> is_Some (p' !! x)).
Proof.
  intros Hc. unfold union. destruct (find_classes p E a Hc) as (p1 & ra & E1 & Hra & Hc1 & Hk1 & Hm1). rewrite E1. cbn [mbind go_bind].
  destruct (find_classes p1 E b Hc1) as (p2 & rb & E2 & Hrb & Hc2 & Hk2 & Hm2). rewrite E2. cbn [mbind go_bind]. apply Hm2 in Hra. clear Hc Hc1 E1 E2.
  assert (forall x, is_Some (p !! x) -> is_Some (p2 !! x)) as Hk by (intros x Hx; apply Hk2; left; apply Hk1; by left).
  assert (is_Some (p2 !! a) /\ is_Some (p2 !! b)) as [Ha Hb] by (split; by eapply root_known).
  pose proof Hc2 as [Hp2 Hkn Hs]. set (E' := fun u v => E u v \/ (u = a /\ v = b)).
  assert (forall x y, rtsc E x y -> rtsc E' x y) as Hsub.
  { intros x y. apply rtc_subrel. intros u v [H|H]; [left|right]; by left. }
  assert (rtsc E' a b) as Hab by (apply rtsc_lr; by right).
  case_bool_decide as Heq.
  - exists p2. split; [done|]. split; [|exact Hk]. subst rb. constructor; [done|intros u v [H|[-> ->]]; [by apply Hkn|done]|]. intros x y Hx Hy. rewrite Hs by done. split; [apply Hsub|].
    assert (rtsc E a b) as Hab' by (apply Hs; [done..|by exists ra]). intros H. unfold rtsc in H. induction H as [|x z y Hxz H IH]; [constructor|].
    assert (is_Some (p2 !! z)) as Hz. { destruct Hxz as [[H'|[-> ->]]|[H'|[-> ->]]]; try done; by apply Hkn in H' as [? ?]. }
    etrans; [|by apply IH]. destruct Hxz as [[H'|[-> ->]]|[H'|[-> ->]]]; [by apply rtsc_lr|done|by apply rtsc_rl|by symmetry].
  - exists (<[rb := ra]> p2). split; [done|]. pose proof (root_is_root _ _ _ Hra) as Era. pose proof (root_is_root _ _ _ Hrb) as Erb.
    assert (forall x y, root (<[rb := ra]> p2) x y <-> (root p2 x y /\ y <> rb) \/ (root p2 x rb /\ y = ra)) as Hroot.
    { assert (root (<[rb := ra]> p2) ra ra) as Hrr by (constructor; by rewrite lookup_insert_ne by done).
      assert (forall x y, root p2 x y -> (y <> rb -> root (<[rb := ra]> p2) x y) /\ (y = rb -> root (<[rb := ra]> p2) x ra)) as Hfwd.
      { induction 1 as [y Hy|x x' y Hx Hne H [IH1 IH2]].
        - split; [intros; constructor; by rewrite lookup_insert_ne by done|intros ->; econstructor; [apply lookup_insert_eq|done|done]].
        - assert (x <> rb) by (intros ->; congruence). split; intros; (econstructor; [rewrite lookup_insert_ne by done; exact Hx|done|auto]). }
      intros x y. split; [|intros [[H Hy]|[H ->]]; by apply (Hfwd _ _ H)]. induction 1 as [y Hy|x x' y Hx Hne H IH].
      - destruct (decide (y = rb)) as [-> |]; [rewrite lookup_insert_eq in Hy; congruence|]. rewrite lookup_insert_ne in Hy by done. left. split; [by constructor|done].
      - destruct (decide (x = rb)) as [-> |].
        + rewrite lookup_insert_eq in Hx. injection Hx as <-. right. split; [by constructor|]. destruct IH as [[IH _]|[IH _]]; [by eapply root_unique; [exact IH|constructor]|]. exfalso. apply Heq. by eapply root_unique; [constructor|].
        + rewrite lookup_insert_ne in Hx by done. destruct IH as [[IH ?]|[IH ->]]; [left|right]; (split; [by econstructor|done]). }
    assert (forall x, is_Some (<[rb := ra]> p2 !! x) <-> is_Some (p2 !! x)) as Hkk.
    { intros x. destruct (decide (x = rb)) as [-> |]; [rewrite lookup_insert_eq, Erb; by split|by rewrite lookup_insert_ne by done]. }
    assert (forall x y, same p2 x y -> same (<[rb := ra]> p2) x y) as Hup.
    { intros x y (z & H1 & H2). destruct (decide (z = rb)) as [-> |]; [exists ra; rewrite !Hroot; by split; right|exists z; rewrite !Hroot; by split; left]. }
    split; [|intros x Hx; by apply Hkk, Hk]. constructor.
    + intros x Hx. apply Hkk, Hp2 in Hx as [y Hy]. destruct (decide (y = rb)) as [-> |]; [exists ra; apply Hroot; by right|exists y; apply Hroot; by left].
    + intros u v [H|[-> ->]]; rewrite !Hkk; [by apply Hkn|done].
    + intros x y Hx Hy. rewrite Hkk in Hx, Hy. split.
      * assert (forall u, root p2 u rb -> rtsc E' a u) as Hub. { intros u Hu. etrans; [exact Hab|]. apply Hsub, Hs; [done|by eapply root_known|]. by exists rb. }
        assert (forall u, root p2 u ra -> rtsc E' a u) as Hua. { intros u Hu. apply Hsub, Hs; [done|by eapply root_known|]. by exists ra. }
        intros (z & H1 & H2). rewrite Hroot in H1, H2. destruct H1 as [[H1 ?]|[H1 ->]], H2 as [[H2 ?]|[H2 E2]].
        -- apply Hsub, Hs; [done..|by exists z].
        -- subst z. etrans; [symmetry; by apply Hua|by apply Hub].
        -- etrans; [symmetry; by apply Hub|by apply Hua].
        -- etrans; [symmetry; by apply Hub|by apply Hub].
      * intros H. unfold rtsc in H. induction H as [x|x z y Hxz H IH].
        { apply Hup. destruct (Hp2 x Hx) as [r Hr]. by exists r. }
        assert (is_Some (p2 !! z)) as Hz. { destruct Hxz as [[H'|[-> ->]]|[H'|[-> ->]]]; try done; by apply Hkn in H' as [? ?]. }
        eapply same_trans; [|by apply IH]. assert (same (<[rb := ra]> p2) a b) as Hsab by (exists ra; rewrite !Hroot; by split; [left|right]).
        destruct Hxz as [[H'|[-> ->]]|[H'|[-> ->]]]; [apply Hup, Hs; [done..|by apply rtsc_lr]|done|apply Hup, Hs; [done..|by apply rtsc_rl]|by apply same_sym].
Qed.

(** The links of the events. *)
Definition linked (items : list Event) (u v : eventPeerKey) : Prop := exists item, item ∈ items /\ u = eventKey item /\ v ∈ sharedWith item.

Lemma unionAll_classes source targets : forall p E, classes p E -> exists p', unionAll p source targets = Ret p'
  /\ classes p' (fun u v => E u v \/ (u = source /\ v ∈ targets)) /\ forall x, is_Some (p !! x) -> is_Some (p' !! x).
Proof.
  induction targets as [|t targets IH]; intros p E Hc; cbn [unionAll].
  - exists p. split; [done|]. split; [|done]. eapply classes_ext; [|exact Hc]. intros a b. split; [by left|]. by intros [?|[_ ?%not_elem_of_nil]].
  - destruct (union_classes p E source t Hc) as (p1 & -> & Hc1 & Hk1). cbn [mbind go_bind]. destruct (IH p1 _ Hc1) as (p' & -> & Hc' & Hk'). exists p'. split; [done|].
    split; [|intros x Hx; by apply Hk', Hk1]. eapply classes_ext; [|exact Hc']. intros a b. rewrite elem_of_cons. naive_solver.
Qed.

Lemma linkAll_classes items : forall p E, classes p E -> exists p', linkAll p items = Ret p' /\ classes p' (fun u v => E u v \/ linked items u v)
  /\ (forall x, is_Some (p !! x) -> is_Some (p' !! x)) /\ forall item, item ∈ items -> is_Some (p' !! eventKey item).
Proof.
  induction items as [|item items IH]; intros p E Hc; cbn [linkAll].
  - exists p. split; [done|]. split; [|split; [done|by intros item ?%not_elem_of_nil]]. eapply classes_ext; [|exact Hc]. intros a b. split; [by left|]. intros [?|(i & Hi & _)]; [done|by apply not_elem_of_nil in Hi].
  - destruct (find_classes p E (eventKey item) Hc) as (p1 & r & -> & Hr & Hc1 & Hk1 & _). cbn [mbind go_bind].
    destruct (unionAll_classes (eventKey item) (sharedWith item) p1 E Hc1) as (p2 & -> & Hc2 & Hk2). cbn [mbind go_bind]. destruct (IH p2 _ Hc2) as (p' & -> & Hc' & Hk' & Hi'). exists p'. split; [done|].
    split; [|split].
    + eapply classes_ext; [|exact Hc']. intros a b. unfold linked. setoid_rewrite elem_of_cons. naive_solver.
    + intros x Hx. apply Hk', Hk2, Hk1. by left.
    + intros x [-> |Hx]%elem_of_cons; [apply Hk', Hk2; by eapply root_known|by apply Hi'].
Qed.

(** The groups: the indices of the events with a root, in order. *)
Lemma groupAll_spec p0 E items : classes p0 E -> (forall item, item ∈ items -> is_Some (p0 !! eventKey item)) ->
  forall p peers i, classes p E -> (forall x y, root p0 x y <-> root p x y) ->
  exists peers', groupAll p peers items i = Ret peers' /\ forall r, exists l, (peers' !! r = if bool_decide (l = []) then peers !! r else Some (default [] (peers !! r) ++ l))
    /\ StronglySorted lt l /\ forall j, j ∈ l <-> exists k item, j = (i + k)%nat /\ items !! k = Some item /\ root p0 (eventKey item) r.
Proof.
  intros Hc0. induction items as [|item items IH]; intros Hin p peers i Hc Hsame; cbn [groupAll].
  - exists peers. split; [done|]. intros r. exists []. rewrite bool_decide_eq_true_2 by done. split; [done|]. split; [constructor|]. intros j. split; [by intros ?%not_elem_of_nil|]. by intros (k & item & _ & ? & _).
  - destruct (find_classes p E (eventKey item) Hc) as (p1 & r0 & -> & Hr0 & Hc1 & Hk1 & Hm1). cbn [mbind go_bind].
    assert (root p0 (eventKey item) r0) as Hroot0.
    { destruct (cl_rooted _ _ Hc0 (eventKey item)) as [r1 Hr1]; [apply Hin; by left|]. apply Hsame in Hr1 as Hr2. apply Hm1 in Hr2. by rewrite (root_unique _ _ _ _ Hr0 Hr2). }
    assert (forall x y, root p0 x y <-> root p1 x y) as Hsame1.
    { intros x y. split; [intros H; by apply Hm1, Hsame|]. intros H. destruct (cl_rooted _ _ Hc0 x) as [y' Hy'].
      - apply root_known, Hk1 in H as [[c Hx]| ->]; [|by eapply root_known]. destruct (cl_rooted _ _ Hc x ltac:(by exists c)) as [z Hz]. apply Hsame in Hz. by eapply root_known.
      - pose proof Hy' as Hy''. apply Hsame in Hy''. apply Hm1 in Hy''. by rewrite (root_unique _ _ _ _ H Hy''). }
    destruct (IH ltac:(intros; apply Hin; by right) p1 (<[r0 := default [] (peers !! r0) ++ [i]]> peers) (S i) Hc1 Hsame1) as (peers' & -> & Hg). exists peers'. split; [done|].
    intros r. destruct (Hg r) as (l & Hl & Hsort & Hj). destruct (decide (r = r0)) as [-> |Hne].
    + exists (i :: l). rewrite bool_decide_eq_false_2 by done. split; [|split].
      * rewrite Hl, lookup_insert_eq. case_bool_decide as Hn; [by subst|]. cbn. by rewrite <- app_assoc.
      * constructor; [done|]. apply Forall_forall. intros j Hjl. apply Hj in Hjl as (k & _ & -> & _). lia.
      * intros j. rewrite elem_of_cons, Hj. split.
        -- intros [-> |(k & it & -> & Hk & Hr)]; [exists 0%nat, item; by rewrite Nat.add_0_r|]. exists (S k), it. split; [lia|done].
        -- intros (k & it & -> & Hk & Hr). destruct k as [|k]; [left; lia|right]. exists k, it. split; [lia|done].
    + exists l. split; [by rewrite Hl, lookup_insert_ne by done|]. split; [done|]. intros j. rewrite Hj. split.
      * intros (k & it & -> & Hk & Hr). exists (S k), it. split; [lia|done].
      * intros (k & it & -> & Hk & Hr). destruct k as [|k]; [|exists k, it; split; [lia|done]]. cbn in Hk. injection Hk as <-. exfalso. apply Hne. by eapply root_unique.
Qed.

(** ** Filling *)

(** A field that is filled: its reading, what counts as empty, and the choice
    of the first value that is not. *)
Record field := mkField {
  fd_type : Type;
  fd_get : Event -> fd_type;
  fd_or : fd_type -> fd_type -> fd_type;
  fd_none : fd_type;
  fd_fill : forall a b, fd_get (fillFrom a b) = fd_or (fd_get a) (fd_get b);
  fd_assoc : forall x y z, fd_or (fd_or x y) z = fd_or x (fd_or y z);
  fd_right : forall x, fd_or x fd_none = x;
  fd_left : forall x, fd_or fd_none x = x;
  fd_first : forall x y, x = fd_none \/ fd_or x y = x
}.

Program Definition stringField (get : Event -> string) (H : forall a b, get (fillFrom a b) = orString (get a) (get b)) : field := mkField string get orString EmptyString H _ _ _ _.
Next Obligation. intros. unfold orString. repeat case_bool_decide; congruence. Qed.
Next Obligation. intros. unfold orString. by case_bool_decide. Qed.
Next Obligation. intros. done. Qed.
Next Obligation. intros. unfold orString. case_bool_decide; auto. Qed.

Program Definition listField {A} (get : Event -> list A) (H : forall a b, get (fillFrom a b) = orList (get a) (get b)) : field := mkField (list A) get orList [] H _ _ _ _.
Next Obligation. by intros A get H [] [] []. Qed.
Next Obligation. by intros A get H []. Qed.
Next Obligation. done. Qed.
Next Obligation. intros A get H [] y; auto. Qed.

Program Definition optionField {A} (get : Event -> option A) (H : forall a b, get (fillFrom a b) = orOption (get a) (get b)) : field := mkField (option A) get orOption None H _ _ _ _.
Next Obligation. by intros A get H [] [] []. Qed.
Next Obligation. by intros A get H []. Qed.
Next Obligation. done. Qed.
Next Obligation. intros A get H [] y; auto. Qed.

Definition filledFields : list field :=
  [stringField e_Name (fun _ _ => eq_refl); stringField e_Description (fun _ _ => eq_refl); listField e_Genres (fun _ _ => eq_refl); listField e_Videos (fun _ _ => eq_refl);
   listField e_Audios (fun _ _ => eq_refl); listField e_Extended (fun _ _ => eq_refl); optionField e_Series (fun _ _ => eq_refl)].

(** The first value of the events, in order. *)
Definition firstValue (F : field) (l : list Event) : fd_type F := foldr (fun e x => fd_or F (fd_get F e) x) (fd_none F) l.

(** What is not filled. *)
Definition core (e : Event) :=
  (e_EITExtendedRevision e, e_EITRevision e, (e_EITPresent e, e_EITFollowing e, e_EITSuspended e), e_Key e, e_EventID e, (e_StartAt e, e_DurationMS e),
   (e_RunningStatus e, e_FreeCA e, e_Language e), (e_Related e, e_Parental e)).

Lemma firstValue_app F l1 l2 : firstValue F (l1 ++ l2) = fd_or F (firstValue F l1) (firstValue F l2).
Proof. induction l1 as [|e l1 IH]; cbn [firstValue app foldr]; [by rewrite fd_left|]. fold (firstValue F (l1 ++ l2)). fold (firstValue F l1). by rewrite IH, fd_assoc. Qed.

Lemma fill_foldl F l : forall item, fd_get F (foldl fillFrom item l) = fd_or F (fd_get F item) (firstValue F l).
Proof.
  induction l as [|e l IH]; intros item; cbn [foldl firstValue foldr]; [by rewrite fd_right|]. rewrite IH, fd_fill, fd_assoc. done.
Qed.

Lemma core_foldl l : forall item, core (foldl fillFrom item l) = core item.
Proof. induction l as [|e l IH]; intros item; [done|]. cbn [foldl]. by rewrite IH. Qed.

Lemma fd_idem (F : field) x y : fd_or F x (fd_or F x y) = fd_or F x y.
Proof. destruct (fd_first F x (fd_or F x y)) as [-> |H]; [by rewrite fd_left|]. destruct (fd_first F x y) as [-> |H']; [by rewrite fd_left|]. by rewrite H, H'. Qed.

Lemma fd_or_none F x y : fd_or F x y = fd_none F -> x = fd_none F /\ y = fd_none F.
Proof. intros H. assert (x = fd_none F) as -> by (destruct (fd_first F x y); congruence). by rewrite fd_left in H. Qed.

Definition eventsAt (store : list Event) (l : list nat) : list Event := omap (fun j => store !! j) l.

Lemma firstValue_none F store l : firstValue F (eventsAt store l) = fd_none F <-> forall j e, j ∈ l -> store !! j = Some e -> fd_get F e = fd_none F.
Proof.
  induction l as [|j l IH]; cbn [eventsAt omap list_omap]; [split; [by intros _ j e ?%not_elem_of_nil|done]|]. fold (eventsAt store l).
  destruct (store !! j) as [e|] eqn:E.
  - cbn [firstValue foldr]. fold (firstValue F (eventsAt store l)). split.
    + intros [H1 H2]%fd_or_none k e' [-> |Hk]%elem_of_cons He; [congruence|]. by apply (proj1 IH H2 k).
    + intros H. rewrite (H j e) by (done || left). rewrite fd_left. apply IH. intros k e' Hk. apply H. by right.
  - rewrite IH. split; intros H k e' Hk He; [|apply (H k); [by right|done]]. apply elem_of_cons in Hk as [-> |Hk]; [congruence|by apply (H k)].
Qed.

Lemma peerFill_spec store i group item : store !! i = Some item ->
  fillEventFromPeers store i group = <[i := foldl fillFrom item (eventsAt store (filter (fun j => j <> i) group))]> store.
Proof.
  intros Hi. unfold fillEventFromPeers. rewrite Hi. f_equal. clear Hi. revert item. induction group as [|j group IH]; intros item; [done|]. cbn [foldl].
  rewrite filter_cons. destruct (decide (j <> i)) as [Hne|Heq].
  - rewrite bool_decide_eq_false_2 by done. cbn [eventsAt omap list_omap]. fold (eventsAt store (filter (fun j => j <> i) group)). destruct (store !! j); apply IH.
  - rewrite bool_decide_eq_true_2; [apply IH|]. by destruct (decide (j = i)).
Qed.

Lemma filter_others (i : nat) (l : list nat) : i ∉ l -> filter (fun j => j <> i) l = l.
Proof. induction l as [|x l IH]; intros Hi; [done|]. apply not_elem_of_cons in Hi as [? ?]. rewrite filter_cons_True by done. f_equal. by apply IH. Qed.

(** A group that has been filled up to [done]: the events before have what the
    group has, the others are as they were. *)
Definition filledUpTo (store0 store : list Event) (group done : list nat) : Prop :=
  forall j e0, store0 !! j = Some e0 -> exists e, store !! j = Some e /\ core e = core e0
    /\ (j ∉ done -> e = e0) /\ (j ∈ done -> forall F, fd_get F e = fd_or F (fd_get F e0) (firstValue F (eventsAt store0 group))).

Lemma fillGroup_turn store0 store group done i rest : (forall j, j ∈ group -> is_Some (store0 !! j)) -> NoDup group -> group = done ++ i :: rest ->
  filledUpTo store0 store group done -> filledUpTo store0 (fillEventFromPeers store i group) group (done ++ [i]).
Proof.
  intros Hin Hnd Eg Hf. destruct (Hin i) as [e0 He0]; [rewrite Eg; set_solver|]. destruct (Hf i e0 He0) as (item & Hitem & Hcore & Hsame & _).
  assert (i ∉ done) as Hnew. { rewrite Eg in Hnd. apply NoDup_app in Hnd as (_ & Hd & _). intros H. apply (Hd i H). left. } specialize (Hsame Hnew). subst item.
  rewrite (peerFill_spec store i group e0 Hitem). intros j ej Hj. destruct (decide (j = i)) as [-> |Hne].
  - assert (ej = e0) as -> by congruence. exists (foldl fillFrom e0 (eventsAt store (filter (fun j => j <> i) group))). split; [apply list_lookup_insert_eq; by eapply lookup_lt_Some|].
    split; [apply core_foldl|]. split; [intros H; exfalso; apply H; set_solver|]. intros _ F. rewrite fill_foldl. set (V := firstValue F (eventsAt store0 group)).
    destruct done as [|d done].
    + cbn [app] in Eg. assert (filter (fun j => j <> i) group = rest) as Efil.
      { rewrite Eg, filter_cons_False by (intros H; by apply H). apply filter_others. rewrite Eg in Hnd. by inversion Hnd. }
      assert (eventsAt store rest = eventsAt store0 rest) as Erest.
      { assert (forall l, (forall k, k ∈ l -> is_Some (store0 !! k)) -> eventsAt store l = eventsAt store0 l) as H; [|apply H; intros k Hk; apply Hin; rewrite Eg; by right].
        induction l as [|k l IH]; intros Hl; [done|]. cbn [eventsAt omap list_omap]. destruct (Hl k) as [ek Hek]; [left|]. destruct (Hf k ek Hek) as (e & He & _ & Hs & _). rewrite He, Hek, (Hs (not_elem_of_nil k)). f_equal. apply IH. intros; apply Hl; by right. }
      rewrite Efil, Erest. unfold V. rewrite Eg. cbn [eventsAt omap list_omap]. rewrite He0. cbn [firstValue foldr]. symmetry. apply fd_idem.
    + destruct (Hin d) as [ed Hed]; [rewrite Eg; left|]. destruct (Hf d ed Hed) as (e & He & _ & _ & Hd). specialize (Hd ltac:(left) F). assert (d <> i) as Hdi by (intros ->; apply Hnew; left).
      assert (fd_get F e = V) as HV. { rewrite Hd. fold V. unfold V. rewrite Eg. cbn [app eventsAt omap list_omap]. rewrite Hed. cbn [firstValue foldr]. apply fd_idem. }
      assert (filter (fun j => j <> i) group = d :: filter (fun j => j <> i) (done ++ i :: rest)) as Efil by (rewrite Eg; cbn [app]; by rewrite filter_cons_True). rewrite Efil.
      cbn [eventsAt omap list_omap]. rewrite He. cbn [firstValue foldr]. rewrite HV. set (X := foldr _ _ _). destruct (fd_first F V X) as [H0|HX]; [|by rewrite HX]. rewrite H0, fd_left, fd_right.
      assert (X = fd_none F) as ->; [|apply fd_right]. unfold V in H0. pose proof (proj1 (firstValue_none F store0 group) H0) as Hall.
      apply (firstValue_none F store (filter (fun j => j <> i) (done ++ i :: rest))). intros k ek Hk Hek. assert (k ∈ group) as Hkg by (rewrite Eg; apply list_elem_of_filter in Hk as [_ Hk]; by right).
      destruct (Hin k Hkg) as [e1 He1]. destruct (Hf k e1 He1) as (e2 & He2 & _ & Hs & Hd2). assert (e2 = ek) as -> by congruence.
      destruct (decide (k ∈ d :: done)) as [Hkd|Hkd]; [|rewrite (Hs Hkd); by apply (Hall k)]. rewrite (Hd2 Hkd F), H0, fd_right. by apply (Hall k).
  - destruct (Hf j ej Hj) as (e & He & Hc & Hs & Hd). exists e. split; [by rewrite list_lookup_insert_ne|]. split; [done|]. split.
    + intros Hn. apply Hs. intros H. apply Hn. set_solver.
    + intros [H|H]%elem_of_app; [by apply Hd|]. by apply list_elem_of_singleton in H.
Qed.

Lemma fillGroup_spec store group : (forall j, j ∈ group -> is_Some (store !! j)) -> NoDup group -> filledUpTo store (fillGroup store group) group group.
Proof.
  intros Hin Hnd. unfold fillGroup. assert (forall rest done st, group = done ++ rest -> filledUpTo store st group done -> filledUpTo store (foldl (fun st i => fillEventFromPeers st i group) st rest) group group) as H.
  { induction rest as [|i rest IH]; intros done st Eg Hf; cbn [foldl]; [by rewrite app_nil_r in Eg; subst done|]. apply (IH (done ++ [i])); [by rewrite <- app_assoc|]. by eapply fillGroup_turn. }
  apply (H group []); [done|]. intros j e He. exists e. split; [done|]. split; [done|]. split; [done|]. by intros ?%not_elem_of_nil.
Qed.

Lemma fillGroup_outside store group j : j ∉ group -> (forall k, k ∈ group -> is_Some (store !! k)) -> NoDup group -> fillGroup store group !! j = store !! j.
Proof.
  intros Hj Hin Hnd. destruct (store !! j) as [e|] eqn:E.
  - destruct (fillGroup_spec store group Hin Hnd j e E) as (e' & -> & _ & Hs & _). f_equal. by apply Hs.
  - apply lookup_ge_None. assert (length (fillGroup store group) = length store) as ->; [|by apply lookup_ge_None]. unfold fillGroup. generalize group at 1. intros g0. clear. revert store.
    induction group as [|i group IH]; intros store; [done|]. cbn [foldl]. rewrite IH. unfold fillEventFromPeers. destruct (store !! i); [apply length_insert|done].
Qed.

(** The groups are disjoint, so that their order does not matter. *)
Lemma fillGroups_spec items (l : list (eventPeerKey * list nat)) : NoDup (map fst l) ->
  (forall r g, (r, g) ∈ l -> NoDup g /\ forall j, j ∈ g -> is_Some (items !! j)) ->
  (forall r g r' g' j, (r, g) ∈ l -> (r', g') ∈ l -> j ∈ g -> j ∈ g' -> r = r') ->
  let out := foldl (fun store g => fillGroup store g.2) items l in
  (forall i, (forall r g, (r, g) ∈ l -> i ∉ g) -> out !! i = items !! i)
  /\ forall r g i e, (r, g) ∈ l -> i ∈ g -> items !! i = Some e -> exists e', out !! i = Some e' /\ core e' = core e
       /\ forall F, fd_get F e' = fd_or F (fd_get F e) (firstValue F (eventsAt items g)).
Proof.
  intros Hnd Hg Hdis. cbv zeta. induction l as [|[r g] l IH] using rev_ind; [split; [done|by intros ? ? ? ? ?%not_elem_of_nil]|].
  rewrite map_app in Hnd. apply NoDup_app in Hnd as (Hnd & Hr & _). rewrite foldl_app. cbn [foldl snd]. set (st := foldl (fun store g => fillGroup store g.2) items l) in *.
  assert (forall x, x ∈ l -> x ∈ l ++ [(r, g)]) as Hsub by (intros; apply elem_of_app; by left).
  destruct IH as [IH1 IH2]; [done|intros r' g' H; by apply (Hg r'), Hsub|intros r1 g1 r2 g2 j H1 H2; by apply (Hdis r1 g1 r2 g2 j); apply Hsub|].
  assert ((r, g) ∈ l ++ [(r, g)]) as Hlast by (apply elem_of_app; right; by left). destruct (Hg r g Hlast) as [Hgn Hgi].
  assert (forall j r' g', j ∈ g -> (r', g') ∈ l -> j ∉ g') as Hout.
  { intros j r' g' Hj Hl Hj'. assert (r' = r) as -> by (eapply (Hdis r' g' r g j); [by apply Hsub|done|done|done]). apply (Hr r); [|by left]. apply list_elem_of_fmap. by exists (r, g'). }
  assert (forall j, j ∈ g -> st !! j = items !! j) as Hold by (intros j Hj; apply IH1; intros r' g' Hl; by apply (Hout j r' g')).
  assert (forall j, j ∈ g -> is_Some (st !! j)) as Hsti by (intros j Hj; rewrite Hold by done; by apply Hgi). split.
  - intros i Hi. rewrite fillGroup_outside; [|by apply (Hi r)|done|done]. apply IH1. intros r' g' Hl. apply (Hi r'). by apply Hsub.
  - intros r' g' i e Hl Hi He. apply elem_of_app in Hl as [Hl|Hl].
    + rewrite fillGroup_outside; [by apply (IH2 r' g')| |done|done]. intros Hig. by apply (Hout i r' g').
    + apply list_elem_of_singleton in Hl. injection Hl as -> ->. destruct (fillGroup_spec st g Hsti Hgn i e) as (e' & He' & Hc & _ & HF); [by rewrite Hold|]. exists e'. split; [done|]. split; [done|].
      intros F. rewrite (HF Hi F). f_equal. f_equal. assert (forall h, (forall k, k ∈ h -> k ∈ g) -> eventsAt st h = eventsAt items h) as Heq; [|by apply Heq].
      induction h as [|k h IHh]; intros Hh; [done|]. cbn [eventsAt omap list_omap]. rewrite (Hold k) by (apply Hh; left). fold (eventsAt st h) (eventsAt items h). rewrite IHh; [done|]. intros k' Hk'. apply Hh. by right.
Qed.

Lemma sorted_NoDup l : StronglySorted lt l -> NoDup l.
Proof. induction 1 as [|x l _ IH Hx]; constructor; [|done]. intros Hin. rewrite Forall_forall in Hx. specialize (Hx x Hin). lia. Qed.

(** C15: Filling from peers always ends, and gives each event, in each field
    that it lacks (name, description, genres, components, extended texts,
    series), the value of the first of the events that have one among those
    connected with it, directly or not, by links of sharing; everything that
    an event has stays as it is, and the order in which the groups are visited
    makes no difference. *)
Theorem shared_events_are_filled range items : (forall m, range m ≡ₚ map_to_list m) ->
  returns (fillEventsFromSharedPeers range items) (fun out => forall i e, items !! i = Some e ->
    exists e' group, out !! i = Some e' /\ core e' = core e
      /\ StronglySorted lt group /\ (forall j, j ∈ group <-> exists e2, items !! j = Some e2 /\ rtsc (linked items) (eventKey e) (eventKey e2))
      /\ Forall (fun F => fd_get F e' = fd_or F (fd_get F e) (firstValue F (eventsAt items group))) filledFields).
Proof.
  intros Hrange. unfold fillEventsFromSharedPeers. assert (classes ∅ (fun _ _ => False)) as H0.
  { constructor; [intros k [x Hx]; by rewrite lookup_empty in Hx|done|intros x y [z Hz]; by rewrite lookup_empty in Hz]. }
  destruct (linkAll_classes items ∅ _ H0) as (p & -> & Hc & _ & Hkn). cbn [mbind go_bind].
  destruct (groupAll_spec p _ items Hc Hkn p ∅ 0 Hc ltac:(done)) as (peers & -> & Hg). cbn [mbind go_bind]. eexists. split; [done|].
  assert (forall r g, (r, g) ∈ range peers <-> peers !! r = Some g) as Hel by (intros r g; rewrite Hrange; apply elem_of_map_to_list).
  assert (forall r g, peers !! r = Some g -> StronglySorted lt g /\ forall j, j ∈ g <-> exists e, items !! j = Some e /\ root p (eventKey e) r) as Hpeer.
  { intros r g Hr. destruct (Hg r) as (l & El & Hsort & Hj). rewrite lookup_empty in El. case_bool_decide; rewrite El in Hr; [done|]. cbn in Hr. injection Hr as <-. split; [done|].
    intros j. rewrite Hj. split; [intros (k & e & -> & ? & ?); by exists e|intros (e & ? & ?); by exists j, e]. }
  destruct (fillGroups_spec items (range peers)) as [_ Hfill].
  { rewrite Hrange. apply NoDup_fst_map_to_list. }
  { intros r g H%Hel. destruct (Hpeer r g H) as [Hs Hj]. split; [by apply sorted_NoDup|]. intros j Hin. apply Hj in Hin as (e & He & _). by exists e. }
  { intros r g r' g' j H1%Hel H2%Hel Hj1 Hj2. apply (Hpeer r g H1) in Hj1 as (e & He & Hr1). apply (Hpeer r' g' H2) in Hj2 as (e' & He' & Hr2). assert (e' = e) as -> by congruence. by eapply root_unique. }
  intros i e He. destruct (cl_rooted _ _ Hc (eventKey e)) as [r Hr]; [apply Hkn; by eapply list_elem_of_lookup_2|].
  assert (exists g, peers !! r = Some g /\ i ∈ g) as (g & Hpg & Hig).
  { destruct (Hg r) as (l & El & _ & Hj). assert (i ∈ l) as Hil by (apply Hj; by exists i, e). rewrite lookup_empty in El. rewrite bool_decide_eq_false_2 in El by (intros ->; by apply not_elem_of_nil in Hil). by exists l. }
  destruct (Hfill r g i e (proj2 (Hel r g) Hpg) Hig He) as (e' & Hout & Hcore & HF). exists e', g. split; [done|]. split; [done|]. destruct (Hpeer r g Hpg) as [Hs Hj]. split; [done|]. split; [|by apply Forall_forall].
  intros j. rewrite Hj. assert (forall e2, e2 ∈ items -> root p (eventKey e2) r <-> rtsc (linked items) (eventKey e) (eventKey e2)) as Hconn.
  { intros e2 H2. assert (classes p (linked items)) as Hc' by (eapply classes_ext; [|exact Hc]; intros; tauto). rewrite <- (cl_same _ _ Hc' (eventKey e) (eventKey e2)); [|apply Hkn; by eapply list_elem_of_lookup_2|by apply Hkn].
    split; [by exists r|]. intros (r' & H1 & H3). by rewrite (root_unique _ _ _ _ Hr H1). }
  split; intros (e2 & H2 & Hx); exists e2; (split; [done|]); apply Hconn; try done; by eapply list_elem_of_lookup_2.
Qed.

(** Three services: the third links to the second, the second to the first;
    only the first has a name. *)
Definition sharedEvent (service : Z) (name : string) (peer : Z) : Event :=
  mkEvent None None false false false (mkServiceKey 4 1 service) 7 None None 0 true EmptyString name EmptyString [] [] [] []
    (if peer =? 0 then [] else [mkRelated 1 0 0 peer 7]) [] None.
Definition sharedItems : list Event := [sharedEvent 103 EmptyString 102; sharedEvent 104 "Apart" 0; sharedEvent 102 EmptyString 101; sharedEvent 101 "News" 0].

Lemma shared_events_are_filled_witness :
  (exists out, fillEventsFromSharedPeers map_to_list sharedItems = Ret out /\ map e_Name out = ["News"; "Apart"; "News"; "News"]%string)
  /\ returns (fillEventsFromSharedPeers map_to_list sharedItems) (fun out => forall i e, sharedItems !! i = Some e -> exists e', out !! i = Some e' /\ core e' = core e).
Proof.
  split; [eexists; split; [vm_compute; reflexivity|reflexivity]|].
  destruct (shared_events_are_filled map_to_list sharedItems (fun m => Permutation_refl _)) as (out & E & H). exists out. split; [exact E|].
  intros i e He. destruct (H i e He) as (e' & g & H1 & H2 & _). exists e'. split; [exact H1|exact H2].
Defined.
