(* ===== verification/EventHub.v ===== *)
(** * The event hub (internal/event/hub.go)

    The hub keeps the latest events and hands every event to the subscribers.
    A subscriber's channel holds 128 events; when it is full, an event is
    dropped rather than awaited.  Sending to a closed channel would panic. *)

From stdpp Require Import strings.
From S2P Require Import Prelude.

Record HubEvent := mkHubEvent {
  he_Resource : string;
  he_Type : string;
  he_Data : bytes;
  he_Time : Z
}.

#[export] Instance HubEvent_eq_dec : EqDecision HubEvent.
Proof. solve_decision. Defined.

Record eventChannel := mkEventChannel {
  ec_queue : list HubEvent;
  ec_closed : bool
}.

Record EventHub := mkEventHub {
  eh_capacity : Z;
  eh_log : list HubEvent;
  eh_subscribers : gset Z;
  eh_channels : gmap Z eventChannel
}.

Definition defaultLogCapacity : Z := 100.
Definition subscriberBuffer : Z := 128.

Definition NewWithCapacity (capacity : Z) : EventHub := mkEventHub (if capacity <=? 0 then defaultLogCapacity else capacity) [] ∅ ∅.

Definition appendLog (capacity : Z) (log : list HubEvent) (event : HubEvent) : list HubEvent :=
  let log := log ++ [event] in
  let overflow := len log - capacity in
  if 0 <? overflow then drop (Z.to_nat overflow) log else log.

(** [select { case ch <- event: default: }] *)
Definition trySend (channels : gmap Z eventChannel) (ch : Z) (event : HubEvent) : go (gmap Z eventChannel) :=
  match channels !! ch with
  | None => Ret channels
  | Some c =>
      if ec_closed c then Panic
      else if len (ec_queue c) <? subscriberBuffer then Ret (<[ch := mkEventChannel (ec_queue c ++ [event]) false]> channels)
      else Ret channels
  end.

Fixpoint sendAll (channels : gmap Z eventChannel) (l : list Z) (event : HubEvent) : go (gmap Z eventChannel) :=
  match l with
  | [] => Ret channels
  | ch :: l => channels ← trySend channels ch event; sendAll channels l event
  end.

Section Publishing.
(** [for ch := range h.subscribers] *)
Context (range : gset Z -> list Z).

Definition PublishEventRaw (h : EventHub) (resource typ : string) (raw : bytes) (now : Z) : go EventHub :=
  let event := mkHubEvent resource typ raw now in
  let log := appendLog (eh_capacity h) (eh_log h) event in
  channels ← sendAll (eh_channels h) (range (eh_subscribers h)) event;
  Ret (mkEventHub (eh_capacity h) log (eh_subscribers h) channels).

(** [raw] is what [json.Marshal] gave; without it nothing happens. *)
Definition PublishEvent (h : EventHub) (resource typ : string) (raw : option bytes) (now : Z) : go EventHub :=
  match raw with None => Ret h | Some raw => PublishEventRaw h resource typ raw now end.
End Publishing.

Definition cloneEvent (event : HubEvent) : HubEvent := mkHubEvent (he_Resource event) (he_Type event) (he_Data event) (he_Time event).

(** [Log] and [SubscriberCount] *)
Definition eventLog (h : EventHub) : list HubEvent := map cloneEvent (eh_log h).
Definition SubscriberCount (h : EventHub) : Z := Z.of_nat (size (eh_subscribers h)).

(** [ch] is the new channel. *)
Definition SubscribeEvents (h : EventHub) (ch : Z) : EventHub :=
  mkEventHub (eh_capacity h) (eh_log h) ({[ch]} ∪ eh_subscribers h) (<[ch := mkEventChannel [] false]> (eh_channels h)).

(** [unsubscribe], which runs at most once: [close] of a closed channel would
    panic. *)
Definition unsubscribeEvents (h : EventHub) (ch : Z) : go EventHub :=
  match eh_channels h !! ch with
  | None => Ret h
  | Some c =>
      if ec_closed c then Panic
      else Ret (mkEventHub (eh_capacity h) (eh_log h) (eh_subscribers h ∖ {[ch]}) (<[ch := mkEventChannel (ec_queue c) true]> (eh_channels h)))
  end.

(** ** The hub and its subscribers *)

(** Ghost state: everything published, and for every channel what was published
    while it was subscribed and what was received from it. *)
Record hubWorld := mkHubWorld {
  hw_hub : EventHub;
  hw_published : list HubEvent;
  hw_since : gmap Z (list HubEvent);
  hw_received : gmap Z (list HubEvent)
}.

Section Interleaving.
Context (range : gset Z -> list Z).
Hypothesis range_perm : forall s, range s ≡ₚ elements s.

Definition sinceAll (subscribers : gset Z) (event : HubEvent) (since : gmap Z (list HubEvent)) : gmap Z (list HubEvent) :=
  map_imap (fun ch l => Some (if bool_decide (ch ∈ subscribers) then l ++ [event] else l)) since.

Inductive eventStep : hubWorld -> hubWorld -> Prop :=
  | v_publish h p s r resource typ raw now h' : PublishEventRaw range h resource typ raw now = Ret h' ->
      eventStep (mkHubWorld h p s r) (mkHubWorld h' (p ++ [mkHubEvent resource typ raw now]) (sinceAll (eh_subscribers h) (mkHubEvent resource typ raw now) s) r)
  | v_subscribe h p s r ch : eh_channels h !! ch = None ->
      eventStep (mkHubWorld h p s r) (mkHubWorld (SubscribeEvents h ch) p (<[ch := []]> s) (<[ch := []]> r))
  | v_unsubscribe h p s r ch h' : ch ∈ eh_subscribers h -> unsubscribeEvents h ch = Ret h' -> eventStep (mkHubWorld h p s r) (mkHubWorld h' p s r)
  | v_receive h p s r ch c e q l : eh_channels h !! ch = Some c -> ec_queue c = e :: q -> r !! ch = Some l ->
      eventStep (mkHubWorld h p s r) (mkHubWorld (mkEventHub (eh_capacity h) (eh_log h) (eh_subscribers h) (<[ch := mkEventChannel q (ec_closed c)]> (eh_channels h))) p s (<[ch := l ++ [e]]> r)).

Definition freshHub (capacity : Z) : hubWorld := mkHubWorld (NewWithCapacity capacity) [] ∅ ∅.

Record eventHub_ok (w : hubWorld) : Prop := {
  hk_capacity : 0 < eh_capacity (hw_hub w);
  hk_log : eh_log (hw_hub w) = drop (length (hw_published w) - Z.to_nat (eh_capacity (hw_hub w))) (hw_published w);
  hk_channels : forall ch, match eh_channels (hw_hub w) !! ch, hw_since w !! ch, hw_received w !! ch with
    | Some c, Some s, Some r => (ch ∈ eh_subscribers (hw_hub w) <-> ec_closed c = false) /\ len (ec_queue c) <= subscriberBuffer /\ sublist (r ++ ec_queue c) s
    | None, None, None => ch ∉ eh_subscribers (hw_hub w)
    | _, _, _ => False
    end
}.

Lemma eventLog_log h : eventLog h = eh_log h.
Proof. unfold eventLog. rewrite <- (map_id (eh_log h)) at 2. apply map_ext. by intros []. Qed.

Lemma appendLog_recent capacity published log event : 0 < capacity -> log = drop (length published - Z.to_nat capacity) published ->
  appendLog capacity log event = drop (length (published ++ [event]) - Z.to_nat capacity) (published ++ [event]).
Proof.
  intros Hc ->. unfold appendLog. cbv zeta. rewrite !length_app, length_drop. cbn [length].
  destruct (Z.ltb_spec 0 (Z.of_nat (length published - (length published - Z.to_nat capacity) + 1) - capacity)).
  - assert (Z.to_nat capacity <= length published)%nat by lia. rewrite <- drop_app_le by lia. rewrite drop_drop. f_equal. lia.
  - rewrite <- drop_app_le by lia. f_equal. lia.
Qed.

Lemma elem_of_tail (ch x : Z) l : ch <> x -> bool_decide (ch ∈ l) = bool_decide (ch ∈ x :: l).
Proof. intros H. apply bool_decide_ext. rewrite elem_of_cons. tauto. Qed.

(** What a publication does to the channels. *)
Lemma sendAll_spec l event : forall channels, NoDup l -> (forall ch c, ch ∈ l -> channels !! ch = Some c -> ec_closed c = false) ->
  exists channels', sendAll channels l event = Ret channels' /\ forall ch, channels' !! ch =
    match channels !! ch with
    | Some c => Some (if bool_decide (ch ∈ l) && (len (ec_queue c) <? subscriberBuffer) then mkEventChannel (ec_queue c ++ [event]) false else c)
    | None => None
    end.
Proof.
  induction l as [|x l IH]; intros channels Hnd Hopen; cbn [sendAll].
  - exists channels. split; [done|]. intros ch. rewrite bool_decide_eq_false_2 by apply not_elem_of_nil. by destruct (channels !! ch).
  - apply NoDup_cons in Hnd as [Hx Hnd]. unfold trySend. destruct (channels !! x) as [c|] eqn:Ec.
    + rewrite (Hopen x c) by (done || left). destruct (len (ec_queue c) <? subscriberBuffer) eqn:Eq; cbn [mbind go_bind].
      * destruct (IH (<[x := mkEventChannel (ec_queue c ++ [event]) false]> channels) Hnd) as (ch' & E & H).
        { intros ch c' Hl. rewrite lookup_insert_ne by (by intros ->). apply Hopen. by right. }
        exists ch'. split; [done|]. intros ch. rewrite H. destruct (decide (ch = x)) as [-> |Hne].
        -- rewrite lookup_insert_eq, Ec. rewrite (bool_decide_eq_false_2 _ Hx), (bool_decide_eq_true_2 (x ∈ x :: l)) by left. by rewrite Eq.
        -- rewrite lookup_insert_ne by done. by rewrite (elem_of_tail ch x l Hne).
      * destruct (IH channels Hnd) as (ch' & E & H); [intros ch c' Hl; apply Hopen; by right|]. exists ch'. split; [done|]. intros ch. rewrite H. destruct (channels !! ch) as [c'|] eqn:Ec'; [|done]. f_equal.
        destruct (decide (ch = x)) as [-> |Hne]; [assert (c' = c) as -> by congruence; by rewrite Eq, !andb_false_r|]. by rewrite (elem_of_tail ch x l Hne).
    + cbn [mbind go_bind]. destruct (IH channels Hnd) as (ch' & E & H); [intros ch c' Hl; apply Hopen; by right|]. exists ch'. split; [done|]. intros ch. rewrite H. destruct (channels !! ch) as [c'|] eqn:Ec'; [|done].
      rewrite (elem_of_tail ch x l); [done|congruence].
Qed.

Lemma publish_spec w resource typ raw now : eventHub_ok w -> exists h', PublishEventRaw range (hw_hub w) resource typ raw now = Ret h'
  /\ eventHub_ok (mkHubWorld h' (hw_published w ++ [mkHubEvent resource typ raw now]) (sinceAll (eh_subscribers (hw_hub w)) (mkHubEvent resource typ raw now) (hw_since w)) (hw_received w)).
Proof.
  intros [Hcap Hlog Hch]. unfold PublishEventRaw. cbv zeta. set (event := mkHubEvent resource typ raw now).
  assert (forall ch, ch ∈ range (eh_subscribers (hw_hub w)) <-> ch ∈ eh_subscribers (hw_hub w)) as Hin by (intros ch; rewrite range_perm; apply elem_of_elements).
  destruct (sendAll_spec (range (eh_subscribers (hw_hub w))) event (eh_channels (hw_hub w))) as (channels' & -> & Hc').
  { rewrite range_perm. apply NoDup_elements. }
  { intros ch c Hl Hc. specialize (Hch ch). rewrite Hc in Hch. destruct (hw_since w !! ch), (hw_received w !! ch); try done. apply Hch. by apply Hin. }
  cbn [mbind go_bind]. eexists. split; [done|]. constructor; cbn [hw_hub hw_published hw_since hw_received eh_capacity eh_log eh_subscribers eh_channels]; [done|by apply appendLog_recent|].
  intros ch. specialize (Hch ch). rewrite Hc'. unfold sinceAll. rewrite map_lookup_imap. destruct (eh_channels (hw_hub w) !! ch) as [c|], (hw_since w !! ch) as [s|], (hw_received w !! ch) as [r|]; cbn; try done.
  destruct Hch as (Hsub & Hlen & Hs). rewrite (bool_decide_ext _ _ (Hin ch)). case_bool_decide as Hcs; cbn [andb]; [|done].
  destruct (Z.ltb_spec (len (ec_queue c)) subscriberBuffer); cbn [ec_queue ec_closed].
  - split; [done|]. split; [rewrite length_app; cbn; unfold subscriberBuffer in *; lia|]. rewrite app_assoc. by apply sublist_app.
  - split; [done|]. split; [done|]. by apply sublist_inserts_r.
Qed.

Lemma eventStep_ok w w' : eventStep w w' -> eventHub_ok w -> eventHub_ok w'.
Proof.
  intros Hs Hok. destruct Hs as [h p s r resource typ raw now h' E|h p s r ch Hn|h p s r ch h' Hin E|h p s r ch c e q l Hc Hq Hl].
  - destruct (publish_spec _ resource typ raw now Hok) as (h'' & E' & Hok'). cbn in *. rewrite E in E'. injection E' as <-. exact Hok'.
  - destruct Hok as [H1 H2 H3]. cbn [hw_hub hw_published hw_since hw_received] in *. constructor; cbn [SubscribeEvents hw_hub hw_published hw_since hw_received eh_capacity eh_log eh_subscribers eh_channels]; [done..|].
    intros k. destruct (decide (k = ch)) as [-> |Hne]; [rewrite !lookup_insert_eq; cbn; split; [set_solver|]; split; [by unfold subscriberBuffer|constructor]|].
    rewrite !lookup_insert_ne by done. specialize (H3 k). destruct (eh_channels h !! k), (s !! k), (r !! k); try done; set_solver.
  - destruct Hok as [H1 H2 H3]. cbn [hw_hub hw_published hw_since hw_received] in *. unfold unsubscribeEvents in E. pose proof (H3 ch) as Hch. destruct (eh_channels h !! ch) as [c|] eqn:Ec.
    2: { destruct (s !! ch), (r !! ch); done. } destruct (ec_closed c) eqn:Ecl; [done|]. injection E as <-. constructor; cbn [hw_hub hw_published hw_since hw_received eh_capacity eh_log eh_subscribers eh_channels]; [done..|].
    intros k. destruct (decide (k = ch)) as [-> |Hne].
    + rewrite lookup_insert_eq. destruct (s !! ch), (r !! ch); try done. cbn. destruct Hch as (_ & ? & ?). split; [set_solver|done].
    + rewrite lookup_insert_ne by done. specialize (H3 k). destruct (eh_channels h !! k), (s !! k), (r !! k); try done; set_solver.
  - destruct Hok as [H1 H2 H3]. cbn [hw_hub hw_published hw_since hw_received] in *. constructor; cbn [hw_hub hw_published hw_since hw_received eh_capacity eh_log eh_subscribers eh_channels]; [done..|].
    intros k. destruct (decide (k = ch)) as [-> |Hne]; [|rewrite !lookup_insert_ne by done; apply H3]. specialize (H3 ch). rewrite Hc, Hl in H3. rewrite !lookup_insert_eq. destruct (s !! ch); [|done]. cbn. destruct H3 as (A & B & D). rewrite Hq in B, D.
    split; [done|]. split; [cbn in B; lia|]. by rewrite <- app_assoc.
Qed.

Lemma freshHub_ok capacity : eventHub_ok (freshHub capacity).
Proof.
  constructor; cbn [freshHub NewWithCapacity hw_hub hw_published hw_since hw_received eh_capacity eh_log eh_subscribers eh_channels]; [|by rewrite drop_nil|intros ch; rewrite !lookup_empty; set_solver].
  destruct (Z.leb_spec capacity 0); [by unfold defaultLogCapacity|lia].
Qed.

Lemma hub_reachable_ok capacity w : rtc eventStep (freshHub capacity) w -> eventHub_ok w.
Proof. pose proof (freshHub_ok capacity) as H0. induction 1 as [|w1 w2 w3 Hs _ IH]; [done|]. by apply IH, (eventStep_ok w1). Qed.

(** C21: However publishing, subscribing, unsubscribing and receiving
    interleave, a publication never blocks and never sends to a closed
    channel; the log is the latest [capacity] events; and a subscriber gets
    events published while it was subscribed, in order and each once, with at
    most 128 waiting. *)
Theorem events_reach_subscribers_in_order capacity w : rtc eventStep (freshHub capacity) w ->
  (forall resource typ raw now, returns (PublishEventRaw range (hw_hub w) resource typ raw now) (fun _ => True))
  /\ eventLog (hw_hub w) = drop (length (hw_published w) - Z.to_nat (eh_capacity (hw_hub w))) (hw_published w)
  /\ forall ch c r, eh_channels (hw_hub w) !! ch = Some c -> hw_received w !! ch = Some r ->
       len (ec_queue c) <= subscriberBuffer /\ exists s, hw_since w !! ch = Some s /\ sublist (r ++ ec_queue c) s.
Proof.
  intros Hr%hub_reachable_ok. conjs.
  - intros resource typ raw now. destruct (publish_spec w resource typ raw now Hr) as (h' & E & _). by exists h'.
  - rewrite eventLog_log. exact (hk_log _ Hr).
  - intros ch c r Hc Hrc. pose proof (hk_channels _ Hr ch) as H. rewrite Hc, Hrc in H. destruct (hw_since w !! ch) as [s|]; [|done]. destruct H as (_ & ? & ?). split; [done|]. by exists s.
Qed.
End Interleaving.

(** A subscriber between two publications. *)
Definition demoHub : hubWorld := mkHubWorld
  (mkEventHub 1 [mkHubEvent "job" "update" [2] 2] {[5]} {[5 := mkEventChannel [mkHubEvent "job" "update" [2] 2] false]})
  [mkHubEvent "job" "create" [1] 1; mkHubEvent "job" "update" [2] 2] {[5 := [mkHubEvent "job" "update" [2] 2]]} {[5 := []]}.

Lemma demoHub_run : rtc (eventStep elements) (freshHub 1) demoHub.
Proof.
  eapply rtc_l; [apply (v_publish elements _ _ _ _ "job" "create" [1] 1); vm_compute; reflexivity|].
  eapply rtc_l; [apply (v_subscribe elements _ _ _ _ 5); vm_compute; reflexivity|].
  eapply rtc_l; [apply (v_publish elements _ _ _ _ "job" "update" [2] 2); vm_compute; reflexivity|].
  match goal with |- rtc _ ?a ?b => replace a with b; [constructor|vm_compute; reflexivity] end.
Qed.

Lemma events_reach_subscribers_in_order_witness : eventLog (hw_hub demoHub) = drop (length (hw_published demoHub) - Z.to_nat 1) (hw_published demoHub).
Proof. exact (proj1 (proj2 (events_reach_subscribers_in_order elements (fun s => Permutation_refl _) 1 demoHub demoHub_run))). Defined.
