(* ===== verification/MultiWriter.v ===== *)
(** * The writer with dynamic subscribers (internal/util/dynamicmultiwriter.go)

    [Write] hands every byte slice to all subscribers.  The subscribers that may
    lose data share one chunk, a pooled copy of the slice with a count of the
    references to it, which goes through a channel of 128 chunks to the
    subscriber's goroutine; a full channel loses its oldest chunk.  Lossless
    subscribers are written to directly.  The threads are cut where they
    synchronize: taking the lock, an operation on a channel, on the pool or on a
    reference count. *)

From S2P Require Import Prelude.

Definition dynamicMultiWriterBufferSize : Z := 128.

Definition i32 (x : Z) : Z := (x + 2 ^ 31) mod 2 ^ 32 - 2 ^ 31.

(** The bytes of [data] beyond its length are not represented. *)
Record dynamicMultiWriterChunk := mkChunk {
  ck_refs : Z;
  ck_data : bytes
}.

(** A pointer to a subscriber, with the fields that never change. *)
Record subRef := mkSubRef {
  sr_id : nat;
  sr_writer : Z;
  sr_lossless : bool
}.

(** Where the goroutine of a subscriber is; a lossless subscriber has none. *)
Inductive runState :=
  | RNone
  | RReceive
  | RWrite (chunk : nat)
  | RFailed
  | RClose
  | RDrain
  | RDone.

#[export] Instance runState_eq_dec : EqDecision runState.
Proof. solve_decision. Defined.

Record dynamicMultiWriterSubscriber := mkSub {
  sb_ch : list nat;
  sb_closed : bool;
  sb_active : Z;
  sb_run : runState
}.

(** [mw_subs] and [mw_chunks] are the objects allocated so far. *)
Record DynamicMultiWriter := mkDMW {
  mw_subscribers : list subRef;
  mw_subs : list dynamicMultiWriterSubscriber;
  mw_chunks : list dynamicMultiWriterChunk;
  mw_pool : list nat
}.

Definition NewDynamicMultiWriter : DynamicMultiWriter := mkDMW [] [] [] [].

Definition setSubs (mw : DynamicMultiWriter) subs : DynamicMultiWriter := mkDMW (mw_subscribers mw) subs (mw_chunks mw) (mw_pool mw).
Definition setCh (ch : list nat) (sub : dynamicMultiWriterSubscriber) := mkSub ch (sb_closed sub) (sb_active sub) (sb_run sub).
Definition setRun (run : runState) (sub : dynamicMultiWriterSubscriber) := mkSub (sb_ch sub) (sb_closed sub) (sb_active sub) run.
Definition addActive (n : Z) (sub : dynamicMultiWriterSubscriber) := mkSub (sb_ch sub) (sb_closed sub) (sb_active sub + n) (sb_run sub).

Definition attach (mw : DynamicMultiWriter) (writer : Z) (lossless : bool) : DynamicMultiWriter :=
  mkDMW (mw_subscribers mw ++ [mkSubRef (length (mw_subs mw)) writer lossless])
    (mw_subs mw ++ [mkSub [] false 0 (if lossless then RNone else RReceive)]) (mw_chunks mw) (mw_pool mw).

Definition mwCount (mw : DynamicMultiWriter) : Z := len (mw_subscribers mw).

(** The subscriber [Detach] looks for. *)
Definition findWriter (mw : DynamicMultiWriter) (writer : Z) : option subRef := snd <$> list_find (fun sub => sr_writer sub = writer) (mw_subscribers mw).

(** What [detachSubscriber] does under the lock. *)
Definition removeSubscriber (mw : DynamicMultiWriter) (s : nat) : DynamicMultiWriter * bool :=
  match list_find (fun sub => sr_id sub = s) (mw_subscribers mw) with
  | Some (i, _) => (mkDMW (take i (mw_subscribers mw) ++ drop (S i) (mw_subscribers mw)) (mw_subs mw) (mw_chunks mw) (mw_pool mw), true)
  | None => (mw, false)
  end.

(** [close]; for a lossless subscriber, which has no channel, nothing looks at
    the flag. *)
Definition closeSub (mw : DynamicMultiWriter) (s : nat) : DynamicMultiWriter :=
  setSubs mw (alter (fun sub => mkSub (sb_ch sub) true (sb_active sub) (sb_run sub)) s (mw_subs mw)).

(** The locked part of [Close]. *)
Definition takeSubscribers (mw : DynamicMultiWriter) : DynamicMultiWriter * list subRef :=
  (mkDMW [] (mw_subs mw) (mw_chunks mw) (mw_pool mw), mw_subscribers mw).

Definition addActives (n : Z) (refs : list subRef) (subs : list dynamicMultiWriterSubscriber) : list dynamicMultiWriterSubscriber :=
  foldl (fun subs ref => alter (addActive n) (sr_id ref) subs) subs refs.

(** The locked part of [Write]; [None] is [io.ErrClosedPipe]. *)
Definition beginWrite (mw : DynamicMultiWriter) : option (DynamicMultiWriter * list subRef) :=
  match mw_subscribers mw with
  | [] => None
  | subscribers => Some (setSubs mw (addActives 1 subscribers (mw_subs mw)), subscribers)
  end.

Definition isAsync (ref : subRef) : bool := negb (sr_lossless ref).
Definition asyncSubscribers (refs : list subRef) : Z := len (filter isAsync refs).

(** [got] is what the pool gave, if anything. *)
Definition newChunk (mw : DynamicMultiWriter) (p : bytes) (refs : Z) (got : option nat) : DynamicMultiWriter * nat :=
  match got with
  | None => (mkDMW (mw_subscribers mw) (mw_subs mw) (mw_chunks mw ++ [mkChunk (i32 refs) p]) (mw_pool mw), length (mw_chunks mw))
  | Some c => (mkDMW (mw_subscribers mw) (mw_subs mw) (<[c := mkChunk (i32 refs) p]> (mw_chunks mw)) (filter (fun c' => c' <> c) (mw_pool mw)), c)
  end.

Definition releaseChunk (mw : DynamicMultiWriter) (c : nat) : DynamicMultiWriter :=
  match mw_chunks mw !! c with
  | None => mw
  | Some chunk =>
      let refs := i32 (ck_refs chunk - 1) in
      if negb (refs =? 0) then mkDMW (mw_subscribers mw) (mw_subs mw) (<[c := mkChunk refs (ck_data chunk)]> (mw_chunks mw)) (mw_pool mw)
      else mkDMW (mw_subscribers mw) (mw_subs mw) (<[c := mkChunk refs []]> (mw_chunks mw)) (mw_pool mw ++ [c])
  end.

(** [select { case s.ch <- chunk: default: }] *)
Definition trySendChunk (mw : DynamicMultiWriter) (s c : nat) : go (DynamicMultiWriter * bool) :=
  match mw_subs mw !! s with
  | None => Panic
  | Some sub =>
      if sb_closed sub then Panic
      else if len (sb_ch sub) <? dynamicMultiWriterBufferSize then Ret (setSubs mw (<[s := setCh (sb_ch sub ++ [c]) sub]> (mw_subs mw)), true)
      else Ret (mw, false)
  end.

(** The second [select] of [enqueue]; a closed empty channel would give a nil
    chunk. *)
Definition dropQueued (mw : DynamicMultiWriter) (s : nat) : go DynamicMultiWriter :=
  match mw_subs mw !! s with
  | None => Panic
  | Some sub =>
      match sb_ch sub with
      | dropped :: ch => Ret (releaseChunk (setSubs mw (<[s := setCh ch sub]> (mw_subs mw))) dropped)
      | [] => if sb_closed sub then Panic else Ret mw
      end
  end.

Definition enqueueChunk (mw : DynamicMultiWriter) (s c : nat) : go DynamicMultiWriter :=
  r ← trySendChunk mw s c;
  let '(mw, ok) := r in
  if (ok : bool) then Ret mw
  else
    mw ← dropQueued mw s;
    r ← trySendChunk mw s c;
    let '(mw, ok) := r in
    if (ok : bool) then Ret mw else Ret (releaseChunk mw c).

(** ** A call of [Write] *)

(** What a writer returned: everything written, too little, or an error. *)
Inductive writerResult :=
  | Wrote
  | WroteShort
  | WriteFailed (err : error).

Inductive writeStage :=
  | SNew
  | STurn
  | SDrop
  | SRetry
  | SReturned (n : Z) (err : list error).

Record WriteCall := mkCall {
  wc_p : bytes;
  wc_subscribers : list subRef;
  wc_chunk : option nat;
  wc_todo : list subRef;
  wc_failed : list subRef;
  wc_errors : list error;
  wc_delivered : Z;
  wc_stage : writeStage
}.

Definition newCall (p : bytes) (subscribers : list subRef) : WriteCall := mkCall p subscribers None subscribers [] [] 0 SNew.

Definition toStage (stage : writeStage) (call : WriteCall) : WriteCall :=
  mkCall (wc_p call) (wc_subscribers call) (wc_chunk call) (wc_todo call) (wc_failed call) (wc_errors call) (wc_delivered call) stage.
Definition withChunk (c : nat) (call : WriteCall) : WriteCall :=
  mkCall (wc_p call) (wc_subscribers call) (Some c) (wc_todo call) (wc_failed call) (wc_errors call) (wc_delivered call) STurn.
(** The next subscriber, after a delivery or a failure. *)
Definition deliveredTurn (todo : list subRef) (call : WriteCall) : WriteCall :=
  mkCall (wc_p call) (wc_subscribers call) (wc_chunk call) todo (wc_failed call) (wc_errors call) (wc_delivered call + 1) STurn.
Definition failedTurn (ref : subRef) (err : error) (todo : list subRef) (call : WriteCall) : WriteCall :=
  mkCall (wc_p call) (wc_subscribers call) (wc_chunk call) todo (wc_failed call ++ [ref]) (wc_errors call ++ [err]) (wc_delivered call) STurn.

(** The end of [Write]: an error only when nothing was delivered and nobody
    else has attached meanwhile. *)
Definition writeResult (mw : DynamicMultiWriter) (call : WriteCall) : Z * list error :=
  let hasPeer := existsb (fun ref => negb (existsb (fun failed => Nat.eqb (sr_id failed) (sr_id ref)) (wc_failed call))) (mw_subscribers mw) in
  if negb (bool_decide (wc_errors call = [])) && (wc_delivered call =? 0) && negb hasPeer then (0, wc_errors call) else (len (wc_p call), []).

(** What the subscribers' queues and writers are given. *)
Inductive delivery :=
  | Queued (s : nat) (p : bytes)
  | Given (s : nat) (p : bytes).

Definition callStep (mw : DynamicMultiWriter) (call : WriteCall) (got : option nat) (res : writerResult) : go (DynamicMultiWriter * WriteCall * list delivery) :=
  match wc_stage call with
  | SNew =>
      if 0 <? asyncSubscribers (wc_subscribers call) then
        let '(mw, c) := newChunk mw (wc_p call) (asyncSubscribers (wc_subscribers call)) got in
        Ret (mw, withChunk c call, [])
      else Ret (mw, toStage STurn call, [])
  | STurn =>
      match wc_todo call with
      | [] =>
          let '(n, err) := writeResult mw call in
          Ret (setSubs mw (addActives (-1) (wc_subscribers call) (mw_subs mw)), toStage (SReturned n err) call, [])
      | ref :: todo =>
          if sr_lossless ref then
            match res with
            | WriteFailed err => Ret (mw, failedTurn ref err todo call, [])
            | WroteShort => Ret (mw, failedTurn ref ErrShortWrite todo call, [])
            | Wrote => Ret (mw, deliveredTurn todo call, [Queued (sr_id ref) (wc_p call); Given (sr_id ref) (wc_p call)])
            end
          else
            match wc_chunk call with
            | None => Panic
            | Some c =>
                r ← trySendChunk mw (sr_id ref) c;
                let '(mw, ok) := r in
                if (ok : bool) then Ret (mw, deliveredTurn todo call, [Queued (sr_id ref) (wc_p call)]) else Ret (mw, toStage SDrop call, [])
            end
      end
  | SDrop =>
      match wc_todo call with
      | [] => Panic
      | ref :: _ => mw ← dropQueued mw (sr_id ref); Ret (mw, toStage SRetry call, [])
      end
  | SRetry =>
      match wc_todo call, wc_chunk call with
      | ref :: todo, Some c =>
          r ← trySendChunk mw (sr_id ref) c;
          let '(mw, ok) := r in
          if (ok : bool) then Ret (mw, deliveredTurn todo call, [Queued (sr_id ref) (wc_p call)]) else Ret (releaseChunk mw c, deliveredTurn todo call, [])
      | _, _ => Panic
      end
  | SReturned _ _ => Ret (mw, call, [])
  end.

(** ** The goroutine of a subscriber *)

Definition dataOf (chunks : list dynamicMultiWriterChunk) (c : nat) : bytes := default [] (ck_data <$> chunks !! c).

(** One step of [run], of its error handler or of [drain]; [None] while it is
    blocked or when it has ended. *)
Definition runStep (mw : DynamicMultiWriter) (s : nat) (res : writerResult) : option (DynamicMultiWriter * list delivery) :=
  match mw_subs mw !! s with
  | None => None
  | Some sub =>
      let at_ run := fun mw => setSubs mw (<[s := setRun run sub]> (mw_subs mw)) in
      match sb_run sub with
      | RReceive =>
          match sb_ch sub with
          | c :: ch => Some (setSubs mw (<[s := setRun (RWrite c) (setCh ch sub)]> (mw_subs mw)), [])
          | [] => if sb_closed sub then Some (at_ RDrain mw, []) else None
          end
      | RWrite c =>
          match res with
          | Wrote => Some (releaseChunk (at_ RReceive mw) c, [Given s (dataOf (mw_chunks mw) c)])
          | _ => Some (releaseChunk (at_ RFailed mw) c, [])
          end
      | RFailed =>
          let '(mw, found) := removeSubscriber mw s in
          Some (at_ (if found then RClose else RDrain) mw, [])
      | RClose => if sb_active sub =? 0 then Some (closeSub (at_ RDrain mw) s, []) else None
      | RDrain =>
          match sb_ch sub with
          | c :: ch => Some (releaseChunk (setSubs mw (<[s := setCh ch sub]> (mw_subs mw))) c, [])
          | [] => Some (at_ RDone mw, [])
          end
      | RNone | RDone => None
      end
  end.

(** ** All threads together *)

(** [mt_closers] are the subscribers whose removal has yet to be followed by
    [close]; [mt_trace] is what has been handed to whom so far. *)
Record mwThreads := mkThreads {
  mt_mw : DynamicMultiWriter;
  mt_calls : list WriteCall;
  mt_closers : list nat;
  mt_trace : list delivery
}.

(** [m_collect]: the pool may forget what it holds. *)
Inductive mwStep : mwThreads -> mwThreads -> Prop :=
  | m_attach mw calls closers tr writer lossless : mwStep (mkThreads mw calls closers tr) (mkThreads (attach mw writer lossless) calls closers tr)
  | m_detach mw calls closers tr s mw' : removeSubscriber mw s = (mw', true) -> mwStep (mkThreads mw calls closers tr) (mkThreads mw' calls (s :: closers) tr)
  | m_close mw calls closers tr mw' refs : takeSubscribers mw = (mw', refs) ->
      mwStep (mkThreads mw calls closers tr) (mkThreads mw' calls (map sr_id refs ++ closers) tr)
  | m_closer mw calls closers tr s sub : s ∈ closers -> mw_subs mw !! s = Some sub -> sb_active sub = 0 ->
      mwStep (mkThreads mw calls closers tr) (mkThreads (closeSub mw s) calls closers tr)
  | m_begin mw calls closers tr p mw' refs : beginWrite mw = Some (mw', refs) -> len refs < 2 ^ 31 ->
      mwStep (mkThreads mw calls closers tr) (mkThreads mw' (calls ++ [newCall p refs]) closers tr)
  | m_call mw calls closers tr i call got res mw' call' ds : calls !! i = Some call -> (forall c, got = Some c -> c ∈ mw_pool mw) ->
      callStep mw call got res = Ret (mw', call', ds) -> mwStep (mkThreads mw calls closers tr) (mkThreads mw' (<[i := call']> calls) closers (tr ++ ds))
  | m_run mw calls closers tr s res mw' ds : runStep mw s res = Some (mw', ds) -> mwStep (mkThreads mw calls closers tr) (mkThreads mw' calls closers (tr ++ ds))
  | m_collect subscribers subs chunks pool calls closers tr c :
      mwStep (mkThreads (mkDMW subscribers subs chunks pool) calls closers tr) (mkThreads (mkDMW subscribers subs chunks (filter (fun c' => c' <> c) pool)) calls closers tr).

Definition freshThreads : mwThreads := mkThreads NewDynamicMultiWriter [] [] [].

Definition queuedFor (s : nat) (tr : list delivery) : list bytes := omap (fun d => match d with Queued s' p => if decide (s' = s) then Some p else None | Given _ _ => None end) tr.
Definition givenTo (s : nat) (tr : list delivery) : list bytes := omap (fun d => match d with Given s' p => if decide (s' = s) then Some p else None | Queued _ _ => None end) tr.

(** ** Who holds a chunk *)

Definition total {A} (f : A -> Z) (l : list A) : Z := foldr (fun x n => f x + n) 0 l.

Definition timesIn (c : nat) (l : list nat) : Z := total (fun c' => if decide (c' = c) then 1 else 0) l.
Definition inFlight (run : runState) : list nat := match run with RWrite c => [c] | _ => [] end.
Definition waiting (sub : dynamicMultiWriterSubscriber) : list nat := inFlight (sb_run sub) ++ sb_ch sub.
Definition heldByCall (c : nat) (call : WriteCall) : Z := if decide (wc_chunk call = Some c) then asyncSubscribers (wc_todo call) else 0.
Definition holders (subs : list dynamicMultiWriterSubscriber) (calls : list WriteCall) (c : nat) : Z :=
  total (fun sub => timesIn c (waiting sub)) subs + total (heldByCall c) calls.

Definition isDirect (sub : dynamicMultiWriterSubscriber) : bool := bool_decide (sb_run sub = RNone).

Definition activeIn (s : nat) (call : WriteCall) : Z :=
  match wc_stage call with SReturned _ _ => 0 | _ => timesIn s (map sr_id (wc_subscribers call)) end.

(** The counts are the numbers of holders [R], and nobody holds what is in the
    pool. *)
Record heap_ok (R : nat -> Z) (chunks : list dynamicMultiWriterChunk) (pool : list nat) : Prop := {
  hp_refs : forall c, R c = default 0 (ck_refs <$> chunks !! c);
  hp_range : forall c, 0 <= R c < 2 ^ 31;
  hp_pool : forall c, c ∈ pool -> (c < length chunks)%nat /\ R c = 0
}.

Record call_ok (mw : DynamicMultiWriter) (call : WriteCall) : Prop := {
  ca_new : wc_stage call = SNew -> wc_chunk call = None /\ wc_todo call = wc_subscribers call;
  ca_chunk : wc_stage call <> SNew -> 0 < asyncSubscribers (wc_todo call) -> exists c, wc_chunk call = Some c /\ dataOf (mw_chunks mw) c = wc_p call;
  ca_drop : wc_stage call = SDrop \/ wc_stage call = SRetry -> exists ref todo, wc_todo call = ref :: todo /\ sr_lossless ref = false;
  ca_todo : wc_todo call ⊆ wc_subscribers call;
  ca_end : forall n e, wc_stage call = SReturned n e -> wc_todo call = [];
  ca_few : len (wc_subscribers call) < 2 ^ 31;
  ca_ids : forall ref, ref ∈ wc_subscribers call -> map isDirect (mw_subs mw) !! sr_id ref = Some (sr_lossless ref)
}.

Record sub_ok (mw : DynamicMultiWriter) (calls : list WriteCall) (closers : list nat) (tr : list delivery) (s : nat) (sub : dynamicMultiWriterSubscriber) : Prop := {
  su_active : sb_active sub = total (activeIn s) calls;
  su_closed : sb_closed sub = true -> s ∉ map sr_id (mw_subscribers mw) /\ sb_active sub = 0;
  su_closing : sb_run sub = RClose -> s ∉ map sr_id (mw_subscribers mw);
  su_direct : isDirect sub = true -> sb_ch sub = [];
  su_room : len (sb_ch sub) <= dynamicMultiWriterBufferSize;
  su_data : sublist (givenTo s tr ++ map (dataOf (mw_chunks mw)) (waiting sub)) (queuedFor s tr)
}.

Record threads_ok (w : mwThreads) : Prop := {
  tk_heap : heap_ok (holders (mw_subs (mt_mw w)) (mt_calls w)) (mw_chunks (mt_mw w)) (mw_pool (mt_mw w));
  tk_calls : Forall (call_ok (mt_mw w)) (mt_calls w);
  tk_subs : forall s sub, mw_subs (mt_mw w) !! s = Some sub -> sub_ok (mt_mw w) (mt_calls w) (mt_closers w) (mt_trace w) s sub;
  tk_ids : NoDup (map sr_id (mw_subscribers (mt_mw w))) /\ forall ref, ref ∈ mw_subscribers (mt_mw w) -> map isDirect (mw_subs (mt_mw w)) !! sr_id ref = Some (sr_lossless ref);
  tk_closers : forall s, s ∈ mt_closers w -> (s < length (mw_subs (mt_mw w)))%nat /\ s ∉ map sr_id (mw_subscribers (mt_mw w));
  tk_trace : forall s, (length (mw_subs (mt_mw w)) <= s)%nat -> queuedFor s (mt_trace w) = [] /\ givenTo s (mt_trace w) = []
}.

(** ** Sums over lists *)

Section Totals.
Context {A : Type} (f : A -> Z).

Lemma total_app l1 l2 : total f (l1 ++ l2) = total f l1 + total f l2.
Proof. induction l1 as [|x l1 IH]; cbn; [done|]. fold (total f (l1 ++ l2)) (total f l1). lia. Qed.

Lemma total_one x : total f [x] = f x.
Proof. cbn. lia. Qed.

Lemma total_insert l i x y : l !! i = Some x -> total f (<[i := y]> l) = total f l - f x + f y.
Proof.
  intros H. rewrite <- (take_drop_middle l i x H) at 2. rewrite insert_take_drop by (by eapply lookup_lt_Some).
  rewrite !total_app. cbn. lia.
Qed.

Hypothesis f_nonneg : forall x, 0 <= f x.

Lemma total_nonneg l : 0 <= total f l.
Proof. induction l as [|x l IH]; cbn; [done|]. specialize (f_nonneg x). fold (total f l). lia. Qed.

Lemma total_in l x : x ∈ l -> f x <= total f l.
Proof.
  intros (i & H)%list_elem_of_lookup. pose proof (total_nonneg l) as _. rewrite <- (take_drop_middle l i x H), total_app. cbn.
  pose proof (total_nonneg (take i l)). pose proof (total_nonneg (drop (S i) l)). unfold total in *. lia.
Qed.
End Totals.

Lemma total_map_eq {A B} (g : A -> B) (f : B -> Z) l l' : map g l = map g l' -> total (fun x => f (g x)) l = total (fun x => f (g x)) l'.
Proof. revert l'. induction l as [|x l IH]; intros [|y l'] H; try done. injection H as H1 H2. cbn. rewrite H1. f_equal. by apply IH. Qed.

Lemma timesIn_nonneg c l : 0 <= timesIn c l.
Proof. apply total_nonneg. intros x. by case_decide. Qed.

Lemma timesIn_app c l1 l2 : timesIn c (l1 ++ l2) = timesIn c l1 + timesIn c l2.
Proof. apply total_app. Qed.

Lemma timesIn_one c c' : timesIn c [c'] = if decide (c' = c) then 1 else 0.
Proof. unfold timesIn. cbn. lia. Qed.

Lemma timesIn_in c l : c ∈ l -> 1 <= timesIn c l.
Proof.
  intros H. set (f := fun c' : nat => if decide (c' = c) then 1 else 0). assert (f c = 1) as E by (by unfold f; rewrite decide_True).
  change (1 <= total f l). rewrite <- E. apply total_in; [|done]. intros x. unfold f. by case_decide.
Qed.

Lemma heldByCall_nonneg c call : 0 <= heldByCall c call.
Proof. unfold heldByCall, asyncSubscribers. case_decide; lia. Qed.

Lemma activeIn_nonneg s call : 0 <= activeIn s call.
Proof. unfold activeIn. destruct (wc_stage call); (apply timesIn_nonneg || done). Qed.

Lemma holders_nonneg subs calls c : 0 <= holders subs calls c.
Proof. unfold holders. pose proof (total_nonneg (fun sub => timesIn c (waiting sub)) (fun sub => timesIn_nonneg _ _) subs). pose proof (total_nonneg (heldByCall c) (heldByCall_nonneg c) calls). lia. Qed.

Lemma holders_sub subs calls s sub sub' c : subs !! s = Some sub ->
  holders (<[s := sub']> subs) calls c = holders subs calls c - timesIn c (waiting sub) + timesIn c (waiting sub').
Proof. intros H. unfold holders. rewrite (total_insert _ _ _ sub) by done. lia. Qed.

Lemma holders_call subs calls i call call' c : calls !! i = Some call ->
  holders subs (<[i := call']> calls) c = holders subs calls c - heldByCall c call + heldByCall c call'.
Proof. intros H. unfold holders. rewrite (total_insert _ _ _ call) by done. lia. Qed.

Lemma waiting_held subs calls s sub c : subs !! s = Some sub -> c ∈ waiting sub -> 0 < holders subs calls c.
Proof.
  intros Hs Hc%timesIn_in. unfold holders. pose proof (total_nonneg (heldByCall c) (heldByCall_nonneg c) calls).
  pose proof (total_in (fun sub => timesIn c (waiting sub)) (fun sub => timesIn_nonneg _ _) subs sub (list_elem_of_lookup_2 _ _ _ Hs)). cbn in *. lia.
Qed.

Lemma call_held subs calls call c : call ∈ calls -> wc_chunk call = Some c -> 0 < asyncSubscribers (wc_todo call) -> 0 < holders subs calls c.
Proof.
  intros Hin Hc Hn. unfold holders. pose proof (total_nonneg (fun sub => timesIn c (waiting sub)) (fun sub => timesIn_nonneg _ _) subs).
  pose proof (total_in (heldByCall c) (heldByCall_nonneg c) calls call Hin) as H1. unfold heldByCall in H1 at 1. rewrite decide_True in H1 by done. lia.
Qed.

Lemma activeIn_running calls call s : call ∈ calls -> s ∈ map sr_id (wc_subscribers call) -> (forall n e, wc_stage call <> SReturned n e) -> 0 < total (activeIn s) calls.
Proof.
  intros Hin Hs%timesIn_in Hst. pose proof (total_in (activeIn s) (activeIn_nonneg s) calls call Hin) as H. unfold activeIn in H at 1.
  destruct (wc_stage call); try lia. by destruct (Hst n err).
Qed.

(** ** The heap of chunks *)

Lemma heap_ok_ext R R' chunks pool : (forall c, R' c = R c) -> heap_ok R chunks pool -> heap_ok R' chunks pool.
Proof. intros E [H1 H2 H3]. constructor; intros c; rewrite ?E; auto. Qed.

Lemma i32_small x : 0 <= x < 2 ^ 31 -> i32 x = x.
Proof. intros H. unfold i32. rewrite Z.mod_small; lia. Qed.

Definition agree (R : nat -> Z) (chunks chunks' : list dynamicMultiWriterChunk) : Prop := forall c, 0 < R c -> dataOf chunks' c = dataOf chunks c.

Lemma releaseChunk_spec mw R c : (forall c, 0 <= R c) -> heap_ok (fun c' => R c' + (if decide (c = c') then 1 else 0)) (mw_chunks mw) (mw_pool mw) ->
  exists chunks' pool', releaseChunk mw c = mkDMW (mw_subscribers mw) (mw_subs mw) chunks' pool' /\ heap_ok R chunks' pool' /\ agree R (mw_chunks mw) chunks'.
Proof.
  intros HR [H1 H2 H3]. pose proof (H1 c) as Hc. pose proof (H2 c) as Hc2. cbn in Hc, Hc2. rewrite decide_True in Hc, Hc2 by done. specialize (HR c) as HRc.
  unfold releaseChunk. destruct (mw_chunks mw !! c) as [k|] eqn:Ek; cbn in Hc; [|lia]. rewrite i32_small by lia.
  assert (ck_refs k - 1 = R c) as -> by lia. pose proof (lookup_lt_Some _ _ _ Ek) as Hlt.
  assert (forall d, forall c', R c' = default 0 (ck_refs <$> <[c := mkChunk (R c) d]> (mw_chunks mw) !! c')) as HE.
  { intros d c'. destruct (decide (c = c')) as [<- |Hne]; [by rewrite list_lookup_insert_eq by done|].
    rewrite list_lookup_insert_ne by done. specialize (H1 c'). cbn in H1. rewrite decide_False in H1 by done. lia. }
  assert (forall c', 0 <= R c' < 2 ^ 31) as Hr by (intros c'; specialize (H2 c'); specialize (HR c'); cbn in H2; case_decide; lia).
  destruct (Z.eqb_spec (R c) 0) as [E0|E0]; cbn [negb]; eexists _, _; (split; [reflexivity|]); split.
  - constructor; [done|done|]. intros c' [Hin|Hin%list_elem_of_singleton]%elem_of_app; rewrite length_insert; [|by subst]. destruct (H3 c' Hin) as [? Hz]. split; [done|]. specialize (HR c'). cbn in Hz. case_decide; lia.
  - intros c' Hp. unfold dataOf. rewrite list_lookup_insert_ne; [done|]. intros ->. lia.
  - constructor; [done|done|]. intros c' Hin; rewrite length_insert. destruct (H3 c' Hin) as [? Hz]. split; [done|]. specialize (HR c'). cbn in Hz. case_decide; lia.
  - intros c' Hp. unfold dataOf. destruct (decide (c = c')) as [<- |Hne]; [by rewrite list_lookup_insert_eq, Ek by done|]. by rewrite list_lookup_insert_ne.
Qed.

Lemma newChunk_spec mw R p n got mw' c : 0 < n < 2 ^ 31 -> heap_ok R (mw_chunks mw) (mw_pool mw) -> (forall c, got = Some c -> c ∈ mw_pool mw) -> newChunk mw p n got = (mw', c) ->
  exists chunks' pool', mw' = mkDMW (mw_subscribers mw) (mw_subs mw) chunks' pool' /\ heap_ok (fun c' => R c' + (if decide (c = c') then n else 0)) chunks' pool'
    /\ agree R (mw_chunks mw) chunks' /\ dataOf chunks' c = p.
Proof.
  intros Hn [H1 H2 H3] Hgot E. unfold newChunk in E. rewrite i32_small in E by lia. destruct got as [c0|]; injection E as <- <-; eexists _, _; (split; [reflexivity|]); conjs.
  - destruct (H3 c0 (Hgot c0 eq_refl)) as [Hlt Hz]. constructor.
    + intros c'. destruct (decide (c0 = c')) as [<- |Hne]; [by rewrite list_lookup_insert_eq, Hz by done|]. rewrite list_lookup_insert_ne by done. rewrite H1. lia.
    + intros c'. specialize (H2 c'). case_decide; subst; lia.
    + intros c' [Hne Hin]%list_elem_of_filter. rewrite length_insert, decide_False by done. destruct (H3 c' Hin). lia.
  - destruct (H3 c0 (Hgot c0 eq_refl)) as [Hlt Hz]. intros c' Hp. unfold dataOf. rewrite list_lookup_insert_ne; [done|]. intros ->. lia.
  - destruct (H3 c0 (Hgot c0 eq_refl)) as [Hlt Hz]. unfold dataOf. by rewrite list_lookup_insert_eq by done.
  - assert (R (length (mw_chunks mw)) = 0) as Hz by (by rewrite H1, lookup_ge_None_2 by done). constructor.
    + intros c'. destruct (decide (length (mw_chunks mw) = c')) as [<- |Hne]; [rewrite lookup_app_r, Nat.sub_diag by lia; cbn; lia|]. rewrite H1. destruct (decide (c' < length (mw_chunks mw))%nat).
      * rewrite lookup_app_l by done. lia.
      * rewrite !lookup_ge_None_2; [done|rewrite length_app; cbn; lia|lia].
    + intros c'. specialize (H2 c'). case_decide; subst; lia.
    + intros c' Hin. destruct (H3 c' Hin). rewrite length_app. cbn. rewrite decide_False by lia. lia.
  - intros c' Hp. unfold dataOf. destruct (decide (c' < length (mw_chunks mw))%nat); [by rewrite lookup_app_l|]. rewrite H1, lookup_ge_None_2 in Hp by lia. cbn in Hp. lia.
  - unfold dataOf. by rewrite lookup_app_r, Nat.sub_diag by lia.
Qed.

(** ** The invariant *)

Lemma queuedFor_app s tr ds : queuedFor s (tr ++ ds) = queuedFor s tr ++ queuedFor s ds.
Proof. apply omap_app. Qed.

Lemma givenTo_app s tr ds : givenTo s (tr ++ ds) = givenTo s tr ++ givenTo s ds.
Proof. apply omap_app. Qed.

Definition quiet (s : nat) (ds : list delivery) : Prop := queuedFor s ds = [] /\ givenTo s ds = [].

Lemma quiet_nil s : quiet s [].
Proof. done. Qed.

Lemma sub_ok_frame mw calls calls' closers tr ds s sub : sub_ok mw calls closers tr s sub -> total (activeIn s) calls' = total (activeIn s) calls -> quiet s ds ->
  sub_ok mw calls' closers (tr ++ ds) s sub.
Proof. intros [H1 H2 H3 H4 H4' H5] E [Q1 Q2]. constructor; try done; [by rewrite E|]. by rewrite queuedFor_app, givenTo_app, Q1, Q2, !app_nil_r. Qed.

Lemma call_ok_frame mw subs' chunks' pool' call : call_ok mw call -> map isDirect subs' = map isDirect (mw_subs mw) ->
  (forall c, wc_chunk call = Some c -> 0 < asyncSubscribers (wc_todo call) -> dataOf chunks' c = dataOf (mw_chunks mw) c) ->
  call_ok (mkDMW (mw_subscribers mw) subs' chunks' pool') call.
Proof.
  intros [H1 H2 H3 H4 H5 H6 H7] Hlen Hd. constructor; cbn [mw_subs mw_chunks]; try done; [|by rewrite Hlen].
  intros Hs Hn. destruct (H2 Hs Hn) as (c & Hc & E). exists c. split; [done|]. by rewrite Hd.
Qed.

(** What a step needs that does not attach or remove a subscriber: the new
    objects are all right for the old chunks, the counts are right, and what is
    still held has kept its data. *)
Lemma threads_update mw calls closers tr subs' chunks' pool' calls' ds : threads_ok (mkThreads mw calls closers tr) -> map isDirect subs' = map isDirect (mw_subs mw) ->
  Forall (call_ok mw) calls' -> (forall s sub, subs' !! s = Some sub -> sub_ok mw calls' closers (tr ++ ds) s sub) ->
  (forall s, (length (mw_subs mw) <= s)%nat -> quiet s ds) ->
  heap_ok (holders subs' calls') chunks' pool' -> agree (holders subs' calls') (mw_chunks mw) chunks' ->
  threads_ok (mkThreads (mkDMW (mw_subscribers mw) subs' chunks' pool') calls' closers (tr ++ ds)).
Proof.
  intros [K1 K2 K3 K4 K5 K6] Hmap Hcalls Hsubs Hq Hheap Hag. cbn [mt_mw mt_calls mt_closers mt_trace] in *.
  assert (length subs' = length (mw_subs mw)) as Hlen by (apply (f_equal length) in Hmap; by rewrite !length_map in Hmap).
  constructor; cbn [mt_mw mt_calls mt_closers mt_trace mw_subs mw_chunks mw_pool mw_subscribers]; rewrite ?Hmap, ?Hlen; try done.
  - apply Forall_forall. intros call Hin. apply call_ok_frame; [by eapply Forall_forall in Hcalls|done|]. intros c Hc Hn. apply Hag. by eapply call_held.
  - intros s sub Hs. destruct (Hsubs s sub Hs) as [H1 H2 H3 H4 H4' H5]. constructor; cbn [mw_subscribers mw_chunks]; try done.
    rewrite (list_fmap_ext _ (dataOf (mw_chunks mw)) (waiting sub)); [done|]. intros i c Hc. apply Hag. eapply waiting_held; [done|by eapply list_elem_of_lookup_2].
  - intros s Hs. destruct (Hq s Hs) as [Q1 Q2], (K6 s Hs) as [T1 T2]. by rewrite queuedFor_app, givenTo_app, Q1, Q2, T1, T2.
Qed.

Lemma threads_subs w s sub : threads_ok w -> mw_subs (mt_mw w) !! s = Some sub -> sub_ok (mt_mw w) (mt_calls w) (mt_closers w) (mt_trace w) s sub.
Proof. intros H. apply (tk_subs _ H). Qed.

Lemma isDirect_insert subs s sub sub' : subs !! s = Some sub -> isDirect sub' = isDirect sub -> map isDirect (<[s := sub']> subs) = map isDirect subs.
Proof. intros H E. pose proof (list_fmap_insert isDirect subs s sub') as X. rewrite E in X. etransitivity; [exact X|]. apply list_insert_id. rewrite list_lookup_fmap, H. done. Qed.

(** The case that one subscriber changes. *)
Lemma threads_update1 mw calls closers tr s sub sub' chunks' pool' calls' ds : threads_ok (mkThreads mw calls closers tr) -> mw_subs mw !! s = Some sub ->
  Forall (call_ok mw) calls' -> (forall s, total (activeIn s) calls' = total (activeIn s) calls) -> (forall s', s' <> s -> quiet s' ds) ->
  isDirect sub' = isDirect sub -> sub_ok mw calls closers (tr ++ ds) s sub' ->
  heap_ok (holders (<[s := sub']> (mw_subs mw)) calls') chunks' pool' -> agree (holders (<[s := sub']> (mw_subs mw)) calls') (mw_chunks mw) chunks' ->
  threads_ok (mkThreads (mkDMW (mw_subscribers mw) (<[s := sub']> (mw_subs mw)) chunks' pool') calls' closers (tr ++ ds)).
Proof.
  intros Hok Hs Hcalls Hact Hq Hd Hsub Hheap Hag. pose proof (lookup_lt_Some _ _ _ Hs) as Hlt.
  assert (forall s sub0, sub_ok mw calls closers (tr ++ ds) s sub0 -> sub_ok mw calls' closers (tr ++ ds) s sub0) as Hc.
  { intros s0 sub0 [H1 H2 H3 H4 H4' H5]. constructor; try done. by rewrite Hact. }
  apply (threads_update mw calls); try done; [by apply isDirect_insert with sub|..].
  - intros s0 sub0 H0. apply Hc. destruct (decide (s = s0)) as [<- |Hne]; [rewrite list_lookup_insert_eq in H0 by done; by injection H0 as <-|].
    rewrite list_lookup_insert_ne in H0 by done. apply sub_ok_frame with calls; [|done|by apply Hq]. by apply (threads_subs (mkThreads mw calls closers tr)).
  - intros s0 H0. apply Hq. lia.
Qed.

Lemma async_cons ref todo : asyncSubscribers (ref :: todo) = (if sr_lossless ref then 0 else 1) + asyncSubscribers todo.
Proof. unfold asyncSubscribers. rewrite filter_cons. case_decide as H; unfold isAsync in H; destruct (sr_lossless ref); cbn in *; tauto || lia. Qed.

Lemma async_nonneg todo : 0 <= asyncSubscribers todo.
Proof. unfold asyncSubscribers. lia. Qed.

Lemma active_call calls i call call' s : calls !! i = Some call -> activeIn s call' = activeIn s call -> total (activeIn s) (<[i := call']> calls) = total (activeIn s) calls.
Proof. intros H E. rewrite (total_insert _ _ _ call) by done. lia. Qed.

Definition running (call : WriteCall) : Prop := forall n e, wc_stage call <> SReturned n e.

Lemma activeIn_same call call' s : running call -> running call' -> wc_subscribers call' = wc_subscribers call -> activeIn s call' = activeIn s call.
Proof. unfold running, activeIn. intros H H' E. destruct (wc_stage call) eqn:E1; try (destruct (wc_stage call') eqn:E2; try (by rewrite E); by destruct (H' n err)). by destruct (H n err). Qed.

(** Replacing a call by its next turn. *)
Lemma nextTurn_ok mw call call' ref todo : call_ok mw call -> wc_todo call = ref :: todo -> wc_stage call <> SNew ->
  wc_stage call' = STurn -> wc_p call' = wc_p call -> wc_subscribers call' = wc_subscribers call -> wc_chunk call' = wc_chunk call -> wc_todo call' = todo -> call_ok mw call'.
Proof.
  intros [H1 H2 H3 H4 H5 H6 H7] Et Hs Es Ep Eu Ec Eo. constructor; rewrite ?Es, ?Eu, ?Ec, ?Ep, ?Eo; try done.
  - intros _ Hn. apply H2; [done|]. rewrite Et, async_cons. destruct (sr_lossless ref); lia.
  - by intros [|].
  - rewrite Et in H4. intros x Hx. apply H4. by right.
Qed.

(** A call in its loop reaches an open channel. *)
Lemma channel_open mw calls closers tr call ref todo : threads_ok (mkThreads mw calls closers tr) -> call ∈ calls -> running call -> wc_todo call = ref :: todo ->
  exists sub, mw_subs mw !! sr_id ref = Some sub /\ sb_closed sub = false /\ isDirect sub = sr_lossless ref.
Proof.
  intros Hok Hin Hr Et. destruct (proj1 (Forall_forall _ _) (tk_calls _ Hok) call Hin) as [_ _ _ H4 _ _ H7]. cbn [mt_mw] in *.
  assert (ref ∈ wc_subscribers call) as Href by (apply H4; rewrite Et; left). specialize (H7 ref Href). apply list_lookup_fmap_Some in H7 as (sub & Hd & Hsub).
  exists sub. split; [done|]. split; [|done]. destruct (sb_closed sub) eqn:Ec; [|done]. destruct (threads_subs _ _ _ Hok Hsub) as [Ha Hc _ _ _ _]. destruct (Hc Ec) as [_ H0].
  pose proof (activeIn_running calls call (sr_id ref) Hin (list_elem_of_fmap_2 sr_id _ _ Href) Hr). cbn [mt_calls] in Ha. lia.
Qed.

Lemma waiting_setCh_app sub c : waiting (setCh (sb_ch sub ++ [c]) sub) = waiting sub ++ [c].
Proof. unfold waiting. cbn. by rewrite app_assoc. Qed.

Lemma quiet_other s s' p : s' <> s -> quiet s' [Queued s p].
Proof. intros H. unfold quiet, queuedFor, givenTo. cbn. by rewrite decide_False. Qed.

Lemma send_ok mw calls closers tr i call ref todo c sub : threads_ok (mkThreads mw calls closers tr) -> calls !! i = Some call -> running call -> wc_stage call <> SNew ->
  wc_todo call = ref :: todo -> sr_lossless ref = false -> wc_chunk call = Some c -> mw_subs mw !! sr_id ref = Some sub -> isDirect sub = false -> len (sb_ch sub) < dynamicMultiWriterBufferSize ->
  threads_ok (mkThreads (setSubs mw (<[sr_id ref := setCh (sb_ch sub ++ [c]) sub]> (mw_subs mw))) (<[i := deliveredTurn todo call]> calls) closers (tr ++ [Queued (sr_id ref) (wc_p call)])).
Proof.
  intros Hok Hi Hr Hst Et El Ec Hsub Hnd Hroom. pose proof (list_elem_of_lookup_2 _ _ _ Hi) as Hin. pose proof (proj1 (Forall_forall _ _) (tk_calls _ Hok) call Hin) as Hcall. cbn [mt_mw] in Hcall.
  assert (forall c', holders (<[sr_id ref := setCh (sb_ch sub ++ [c]) sub]> (mw_subs mw)) (<[i := deliveredTurn todo call]> calls) c' = holders (mw_subs mw) calls c') as HE.
  { intros c'. rewrite (holders_call _ _ _ call), (holders_sub _ _ _ sub), waiting_setCh_app, timesIn_app, timesIn_one by done. unfold heldByCall. cbn [deliveredTurn wc_chunk wc_todo].
    rewrite Ec, Et, async_cons, El. destruct (decide (c = c')); [rewrite !decide_True by congruence|rewrite !decide_False by congruence]; lia. }
  apply (threads_update1 mw calls closers tr (sr_id ref) sub); try done.
  - apply Forall_insert; [apply Hok|]. by apply (nextTurn_ok mw call _ ref todo).
  - intros s. apply (active_call _ _ call); [done|]. by apply activeIn_same.
  - intros s' Hne. by apply quiet_other.
  - destruct (threads_subs _ _ _ Hok Hsub) as [H1 H2 H3 Hdir H4 H5]. cbn [mt_mw mt_calls mt_closers mt_trace] in *. constructor; cbn [setCh sb_active sb_closed sb_run sb_ch]; try done.
    + change (isDirect sub = true -> sb_ch sub ++ [c] = []). congruence.
    + rewrite length_app. cbn. lia.
    + rewrite waiting_setCh_app, queuedFor_app, givenTo_app, map_app. cbn. rewrite decide_True, app_nil_r, app_assoc by done.
      destruct (ca_chunk _ _ Hcall Hst) as (c1 & Ec1 & Ed); [rewrite Et, async_cons, El; pose proof (async_nonneg todo); lia|]. assert (c1 = c) as -> by congruence. rewrite Ed. by apply sublist_app.
  - apply heap_ok_ext with (holders (mw_subs mw) calls); [done|apply Hok].
Qed.

(** A release after which one subscriber or call holds the chunk no more. *)
Lemma heap_released mw R R' c : heap_ok R (mw_chunks mw) (mw_pool mw) -> (forall c', 0 <= R' c') -> (forall c', R c' = R' c' + (if decide (c = c') then 1 else 0)) ->
  exists chunks' pool', releaseChunk mw c = mkDMW (mw_subscribers mw) (mw_subs mw) chunks' pool' /\ heap_ok R' chunks' pool' /\ agree R' (mw_chunks mw) chunks'.
Proof. intros H H0 HE. apply releaseChunk_spec; [done|]. by apply heap_ok_ext with R. Qed.

(** Taking the oldest chunk of a channel without passing it on. *)
Lemma drop_ok mw calls closers tr s sub c ch : threads_ok (mkThreads mw calls closers tr) -> mw_subs mw !! s = Some sub -> sb_ch sub = c :: ch ->
  threads_ok (mkThreads (releaseChunk (setSubs mw (<[s := setCh ch sub]> (mw_subs mw))) c) calls closers tr).
Proof.
  intros Hok Hs Ech. destruct (heap_released (setSubs mw (<[s := setCh ch sub]> (mw_subs mw))) (holders (mw_subs mw) calls) (holders (<[s := setCh ch sub]> (mw_subs mw)) calls) c) as (chunks' & pool' & -> & Hh & Ha).
  - apply Hok.
  - intros c'. apply holders_nonneg.
  - intros c'. rewrite (holders_sub _ _ _ sub) by done. unfold waiting. cbn [setCh sb_ch sb_run]. rewrite Ech, !timesIn_app. change (c :: ch) with ([c] ++ ch). rewrite timesIn_app, timesIn_one. lia.
  - cbn [setSubs mw_subs mw_subscribers]. rewrite <- (app_nil_r tr). apply (threads_update1 mw calls closers tr s sub); try done; [apply Hok|].
    destruct (threads_subs _ _ _ Hok Hs) as [H1 H2 H3 Hdir H4 H5]. cbn [mt_mw mt_calls mt_closers mt_trace] in *. rewrite app_nil_r. constructor; cbn [setCh sb_active sb_closed sb_run sb_ch]; try done.
    + intros Hx. specialize (Hdir Hx). congruence.
    + rewrite Ech in H4. cbn in H4. lia.
    + etransitivity; [|exact H5]. unfold waiting. cbn [setCh sb_ch sb_run]. rewrite Ech, !map_app. apply sublist_app; [done|]. apply sublist_app; [done|]. cbn. by constructor.
Qed.

(** A call moves on and holds as much as before. *)
Lemma call_moves mw calls closers tr i call call' : threads_ok (mkThreads mw calls closers tr) -> calls !! i = Some call -> call_ok mw call' ->
  (forall s, activeIn s call' = activeIn s call) -> (forall c, heldByCall c call' = heldByCall c call) -> threads_ok (mkThreads mw (<[i := call']> calls) closers tr).
Proof.
  intros Hok Hi Hc Ha Hh. assert (forall c, holders (mw_subs mw) (<[i := call']> calls) c = holders (mw_subs mw) calls c) as HE by (intros c; rewrite (holders_call _ _ _ call), Hh by done; lia).
  assert (forall s, total (activeIn s) (<[i := call']> calls) = total (activeIn s) calls) as HA by (intros s; by apply (active_call _ _ call)).
  pose proof (threads_update mw calls closers tr (mw_subs mw) (mw_chunks mw) (mw_pool mw) (<[i := call']> calls) []) as H. rewrite app_nil_r in H. destruct mw. apply H; try done.
  - apply Forall_insert; [apply Hok|done].
  - intros s sub Hs. rewrite <- (app_nil_r tr). apply sub_ok_frame with calls; [by apply (threads_subs _ _ _ Hok)|done|done].
  - eapply heap_ok_ext; [exact HE|apply Hok].
Qed.

(** Taking a chunk for the subscribers that share it. *)
Lemma chunk_ok mw calls closers tr i call got mw' c : threads_ok (mkThreads mw calls closers tr) -> calls !! i = Some call -> wc_stage call = SNew -> (forall c, got = Some c -> c ∈ mw_pool mw) ->
  0 < asyncSubscribers (wc_subscribers call) -> newChunk mw (wc_p call) (asyncSubscribers (wc_subscribers call)) got = (mw', c) ->
  threads_ok (mkThreads mw' (<[i := withChunk c call]> calls) closers tr).
Proof.
  intros Hok Hi Hst Hgot Hn E. pose proof (list_elem_of_lookup_2 _ _ _ Hi) as Hin. pose proof (proj1 (Forall_forall _ _) (tk_calls _ Hok) call Hin) as Hcall. cbn [mt_mw] in Hcall.
  destruct (ca_new _ _ Hcall Hst) as [Ec Et]. pose proof (ca_few _ _ Hcall) as Hfew.
  assert (asyncSubscribers (wc_subscribers call) < 2 ^ 31) as Hb by (unfold asyncSubscribers; pose proof (length_filter (fun ref => isAsync ref) (wc_subscribers call)); lia).
  destruct (newChunk_spec mw _ _ _ _ _ _ (conj Hn Hb) (tk_heap _ Hok) Hgot E) as (chunks' & pool' & -> & Hh & Hag & Hd). cbn [mt_mw mt_calls] in *.
  assert (forall c', holders (mw_subs mw) (<[i := withChunk c call]> calls) c' = holders (mw_subs mw) calls c' + (if decide (c = c') then asyncSubscribers (wc_subscribers call) else 0)) as HE.
  { intros c'. rewrite (holders_call _ _ _ call) by done. unfold heldByCall. cbn [withChunk wc_chunk wc_todo]. rewrite Ec, Et. rewrite (decide_False (P := None = Some c')) by done. destruct (decide (c = c')); [rewrite decide_True by congruence|rewrite decide_False by congruence]; lia. }
  destruct Hok as [K1 K2 K3 K4 K5 K6]. cbn [mt_mw mt_calls mt_closers mt_trace] in *. constructor; cbn [mt_mw mt_calls mt_closers mt_trace mw_subs mw_chunks mw_pool mw_subscribers]; try done.
  - exact (heap_ok_ext _ _ _ _ HE Hh).
  - apply Forall_insert.
    + apply Forall_forall. intros call0 Hin0. apply call_ok_frame; [by eapply Forall_forall in K2|done|]. intros c0 Hc0 Hn0. apply Hag. by eapply call_held.
    + destruct Hcall as [_ _ _ A4 _ A6 A7]. constructor; cbn; try done; [|by intros [|]]. intros _ _. by exists c.
  - intros s sub Hs. destruct (K3 s sub Hs) as [H1 H2 H3 H4 H4' H5]. constructor; cbn [mw_subscribers mw_chunks]; try done.
    + rewrite (active_call _ _ call); [done|done|]. apply activeIn_same; [intros ? ?; congruence|intros ? ?; done|done].
    + rewrite (list_fmap_ext _ (dataOf (mw_chunks mw)) (waiting sub)); [done|]. intros j c0 Hc. apply Hag. eapply waiting_held; [done|by eapply list_elem_of_lookup_2].
Qed.

(** Giving up a chunk for one subscriber. *)
Lemma retry_ok mw calls closers tr i call ref todo c : threads_ok (mkThreads mw calls closers tr) -> calls !! i = Some call -> wc_stage call = SRetry ->
  wc_todo call = ref :: todo -> sr_lossless ref = false -> wc_chunk call = Some c ->
  threads_ok (mkThreads (releaseChunk mw c) (<[i := deliveredTurn todo call]> calls) closers tr).
Proof.
  intros Hok Hi Hst Et El Ec. pose proof (list_elem_of_lookup_2 _ _ _ Hi) as Hin. pose proof (proj1 (Forall_forall _ _) (tk_calls _ Hok) call Hin) as Hcall. cbn [mt_mw] in Hcall.
  destruct (heap_released mw (holders (mw_subs mw) calls) (holders (mw_subs mw) (<[i := deliveredTurn todo call]> calls)) c) as (chunks' & pool' & -> & Hh & Ha).
  - apply Hok.
  - intros c'. apply holders_nonneg.
  - intros c'. rewrite (holders_call _ _ _ call) by done. unfold heldByCall. cbn [deliveredTurn wc_chunk wc_todo]. rewrite Ec, Et, async_cons, El.
    destruct (decide (c = c')); [rewrite !decide_True by congruence|rewrite !decide_False by congruence]; lia.
  - rewrite <- (app_nil_r tr). apply (threads_update mw calls); try done.
    + apply Forall_insert; [apply Hok|]. apply (nextTurn_ok mw call _ ref todo); try done. congruence.
    + intros s sub Hs. apply sub_ok_frame with calls; [by apply (threads_subs _ _ _ Hok)| |done]. apply (active_call _ _ call); [done|]. apply activeIn_same; [intros ? ?; congruence|intros ? ?; done|done].
Qed.

(** Writing to a lossless subscriber. *)
Lemma direct_ok mw calls closers tr i call ref todo : threads_ok (mkThreads mw calls closers tr) -> calls !! i = Some call -> wc_stage call = STurn ->
  wc_todo call = ref :: todo -> sr_lossless ref = true ->
  threads_ok (mkThreads mw (<[i := deliveredTurn todo call]> calls) closers (tr ++ [Queued (sr_id ref) (wc_p call); Given (sr_id ref) (wc_p call)])).
Proof.
  intros Hok Hi Hst Et El. pose proof (list_elem_of_lookup_2 _ _ _ Hi) as Hin. pose proof (proj1 (Forall_forall _ _) (tk_calls _ Hok) call Hin) as Hcall. cbn [mt_mw] in Hcall.
  assert (running call) as Hr by (intros ? ?; congruence). destruct (channel_open _ _ _ _ _ _ _ Hok Hin Hr Et) as (sub & Hs & _ & Hd). rewrite El in Hd.
  assert (waiting sub = []) as Hw. { unfold waiting. rewrite (su_direct _ _ _ _ _ _ (threads_subs _ _ _ Hok Hs) Hd). apply bool_decide_eq_true_1 in Hd. by rewrite Hd. }
  assert (forall c, holders (mw_subs mw) (<[i := deliveredTurn todo call]> calls) c = holders (mw_subs mw) calls c) as HE.
  { intros c. rewrite (holders_call _ _ _ call) by done. unfold heldByCall. cbn [deliveredTurn wc_chunk wc_todo]. rewrite Et, async_cons, El. case_decide; lia. }
  pose proof (threads_update1 mw calls closers tr (sr_id ref) sub sub (mw_chunks mw) (mw_pool mw) (<[i := deliveredTurn todo call]> calls) [Queued (sr_id ref) (wc_p call); Given (sr_id ref) (wc_p call)]) as H.
  rewrite (list_insert_id (mw_subs mw) (sr_id ref) sub) in H by done. destruct mw. apply H; try done.
  - apply Forall_insert; [apply Hok|]. apply (nextTurn_ok _ call _ ref todo); try done. congruence.
  - intros s. apply (active_call _ _ call); [done|]. apply activeIn_same; [done|intros ? ?; done|done].
  - intros s' Hne. unfold quiet, queuedFor, givenTo. cbn. by rewrite !decide_False.
  - destruct (threads_subs _ _ _ Hok Hs) as [H1 H2 H3 H4 H4' H5]. cbn [mt_mw mt_calls mt_closers mt_trace] in *. constructor; try done.
    rewrite Hw in *. rewrite queuedFor_app, givenTo_app. cbn in *. rewrite decide_True by done. rewrite app_nil_r in *. by apply sublist_app.
  - eapply heap_ok_ext; [exact HE|apply Hok].
Qed.

(** ** Entering and leaving [Write] *)

Lemma addActives_lookup n refs subs s : addActives n refs subs !! s = addActive (n * timesIn s (map sr_id refs)) <$> subs !! s.
Proof.
  revert subs. unfold addActives. induction refs as [|ref refs IH]; intros subs; cbn [foldl map].
  - change (timesIn s []) with 0. rewrite Z.mul_0_r. destruct (subs !! s) as [[]|]; [|done]. cbn. unfold addActive. cbn. by rewrite Z.add_0_r.
  - rewrite IH. change (sr_id ref :: map sr_id refs) with ([sr_id ref] ++ map sr_id refs). rewrite timesIn_app, timesIn_one.
    destruct (decide (sr_id ref = s)) as [-> |Hne].
    + rewrite list_lookup_alter_eq. destruct (subs !! s) as [[]|]; [|done]. cbn. unfold addActive. cbn. do 2 f_equal. lia.
    + rewrite list_lookup_alter_ne by done. by rewrite Z.add_0_l.
Qed.

Lemma addActives_map {B} (g : dynamicMultiWriterSubscriber -> B) n refs subs : (forall m sub, g (addActive m sub) = g sub) -> map g (addActives n refs subs) = map g subs.
Proof. intros H. apply list_eq. intros s. rewrite !list_lookup_fmap, addActives_lookup. destruct (subs !! s); cbn; [|done]. by rewrite H. Qed.

Lemma addActives_holders n refs subs calls c : holders (addActives n refs subs) calls c = holders subs calls c.
Proof. unfold holders. f_equal. apply (total_map_eq waiting (timesIn c)). by apply addActives_map. Qed.

Lemma begin_ok mw calls closers tr p mw' refs : threads_ok (mkThreads mw calls closers tr) -> beginWrite mw = Some (mw', refs) -> len refs < 2 ^ 31 ->
  threads_ok (mkThreads mw' (calls ++ [newCall p refs]) closers tr).
Proof.
  intros Hok E Hfew. unfold beginWrite in E. assert (mw' = setSubs mw (addActives 1 (mw_subscribers mw) (mw_subs mw)) /\ refs = mw_subscribers mw) as [-> ->] by (destruct (mw_subscribers mw); [done|]; by injection E as <- <-).
  clear E. assert (forall c, holders (addActives 1 (mw_subscribers mw) (mw_subs mw)) (calls ++ [newCall p (mw_subscribers mw)]) c = holders (mw_subs mw) calls c) as HE.
  { intros c. rewrite addActives_holders. unfold holders. rewrite (total_app (heldByCall c)), total_one. unfold heldByCall at 2. cbn [newCall wc_chunk]. rewrite decide_False by done. lia. }
  rewrite <- (app_nil_r tr). unfold setSubs. apply (threads_update mw calls); try done.
  - by apply addActives_map.
  - apply Forall_app. split; [apply Hok|]. apply Forall_singleton. constructor; cbn; try done; [by intros [|]|apply Hok].
  - intros s sub Hs. rewrite addActives_lookup in Hs. apply fmap_Some in Hs as (sub0 & Hs0 & ->). destruct (threads_subs _ _ _ Hok Hs0) as [H1 H2 H3 H4 H4' H5]. cbn [mt_mw mt_calls mt_closers mt_trace] in *. rewrite app_nil_r.
    constructor; cbn [addActive sb_active sb_closed sb_run sb_ch]; try done.
    + rewrite total_app, total_one, H1. unfold activeIn at 3. cbn [newCall wc_stage wc_subscribers]. lia.
    + intros Hc. destruct (H2 Hc) as [Hn H0]. split; [done|]. assert (timesIn s (map sr_id (mw_subscribers mw)) = 0) as ->; [|lia].
      clear -Hn. unfold timesIn. induction (map sr_id (mw_subscribers mw)) as [|x l IH]; [done|]. cbn. apply not_elem_of_cons in Hn as [Hx Hn]. rewrite decide_False by done. by apply IH.
  - eapply heap_ok_ext; [exact HE|apply Hok].
Qed.

Lemma end_ok mw calls closers tr i call n e : threads_ok (mkThreads mw calls closers tr) -> calls !! i = Some call -> wc_stage call = STurn -> wc_todo call = [] ->
  threads_ok (mkThreads (setSubs mw (addActives (-1) (wc_subscribers call) (mw_subs mw))) (<[i := toStage (SReturned n e) call]> calls) closers tr).
Proof.
  intros Hok Hi Hst Et. pose proof (list_elem_of_lookup_2 _ _ _ Hi) as Hin. pose proof (proj1 (Forall_forall _ _) (tk_calls _ Hok) call Hin) as Hcall. cbn [mt_mw] in Hcall.
  assert (forall c, holders (addActives (-1) (wc_subscribers call) (mw_subs mw)) (<[i := toStage (SReturned n e) call]> calls) c = holders (mw_subs mw) calls c) as HE.
  { intros c. rewrite addActives_holders, (holders_call _ _ _ call) by done. change (heldByCall c (toStage (SReturned n e) call)) with (heldByCall c call). lia. }
  rewrite <- (app_nil_r tr). unfold setSubs. apply (threads_update mw calls); try done.
  - by apply addActives_map.
  - apply Forall_insert; [apply Hok|]. destruct Hcall as [A1 A2 A3 A4 A5 A6 A7]. constructor; cbn; try done; [|by intros [|]]. intros _. apply A2. congruence.
  - intros s sub Hs. rewrite addActives_lookup in Hs. apply fmap_Some in Hs as (sub0 & Hs0 & ->). destruct (threads_subs _ _ _ Hok Hs0) as [H1 H2 H3 H4 H4' H5]. cbn [mt_mw mt_calls mt_closers mt_trace] in *. rewrite app_nil_r.
    assert (sb_active sub0 + -1 * timesIn s (map sr_id (wc_subscribers call)) = total (activeIn s) (<[i := toStage (SReturned n e) call]> calls)) as Ha.
    { rewrite (total_insert _ _ _ call), H1 by done. unfold activeIn at 3 4. cbn [toStage wc_stage]. rewrite Hst. lia. }
    constructor; cbn [addActive sb_active sb_closed sb_run sb_ch]; try done.
    intros Hc. destruct (H2 Hc) as [Hn H0]. split; [done|]. pose proof (total_nonneg _ (activeIn_nonneg s) (<[i := toStage (SReturned n e) call]> calls)). pose proof (timesIn_nonneg s (map sr_id (wc_subscribers call))). lia.
  - eapply heap_ok_ext; [exact HE|apply Hok].
Qed.

(** ** Attaching and removing *)

Lemma attach_ok mw calls closers tr writer lossless : threads_ok (mkThreads mw calls closers tr) -> threads_ok (mkThreads (attach mw writer lossless) calls closers tr).
Proof.
  intros [K1 K2 K3 [K4 K4'] K5 K6]. cbn [mt_mw mt_calls mt_closers mt_trace] in *. set (n := length (mw_subs mw)).
  assert (forall ref, ref ∈ mw_subscribers mw -> (sr_id ref < n)%nat) as Hlt by (intros ref Hr; pose proof (lookup_lt_Some _ _ _ (K4' ref Hr)) as H; by rewrite length_map in H).
  assert (forall s, (s < n)%nat -> s ∉ map sr_id (mw_subscribers mw) -> s ∉ map sr_id (mw_subscribers mw ++ [mkSubRef n writer lossless])) as Hnot by (intros s Hs Hn; rewrite map_app, elem_of_app; cbn [map sr_id]; rewrite list_elem_of_singleton; intros [|]; [done|lia]).
  assert (forall ref b, map isDirect (mw_subs mw) !! sr_id ref = Some b -> map isDirect (mw_subs mw ++ [mkSub [] false 0 (if lossless then RNone else RReceive)]) !! sr_id ref = Some b) as Hmap by (intros ref b H; rewrite map_app; by apply lookup_app_l_Some).
  constructor; cbn [attach mt_mw mt_calls mt_closers mt_trace mw_subs mw_chunks mw_pool mw_subscribers]; fold n.
  - apply heap_ok_ext with (holders (mw_subs mw) calls); [|done]. intros c. unfold holders. rewrite (total_app (fun sub => timesIn c (waiting sub))). destruct lossless; cbn; lia.
  - eapply Forall_impl; [exact K2|]. intros call [A1 A2 A3 A4 A5 A6 A7]. constructor; cbn; try done. intros ref Hr. by apply Hmap, A7.
  - intros s sub Hs. apply lookup_app_Some in Hs as [Hs|[Hge Hs]].
    + destruct (K3 s sub Hs) as [H1 H2 H3 H4 H4' H5]. pose proof (lookup_lt_Some _ _ _ Hs). constructor; cbn [mw_subscribers mw_chunks]; try done; [intros Hc; destruct (H2 Hc); by split; [apply Hnot|]|intros Hc; by apply Hnot; [|apply H3]].
    + apply list_lookup_singleton_Some in Hs as [Hz <-]. assert (s = n) as -> by (fold n in Hge, Hz; lia). destruct (K6 n) as [Q1 Q2]; [done|]. constructor; cbn [sb_active sb_closed sb_run sb_ch mw_chunks]; try done; [|by destruct lossless|by rewrite Q1, Q2; destruct lossless].
      symmetry. clear -K2. induction K2 as [|call calls [_ _ _ _ _ _ A7] _ IH]; [done|]. cbn. fold (total (activeIn n) calls). rewrite IH, Z.add_0_r. unfold activeIn.
      assert (timesIn n (map sr_id (wc_subscribers call)) = 0) as E; [|by destruct (wc_stage call)]. clear IH. unfold timesIn. induction (wc_subscribers call) as [|ref refs IHr]; [done|]. cbn.
      rewrite decide_False, Z.add_0_l; [apply IHr; intros r Hr; apply A7; by right|]. intros E. pose proof (lookup_lt_Some _ _ _ (A7 ref (list_elem_of_here _ _))) as H. rewrite length_map in H. unfold n in E. lia.
  - split.
    + rewrite map_app. apply NoDup_app. split; [done|]. split; [|cbn; apply NoDup_singleton]. intros x (ref & -> & Hr)%list_elem_of_fmap. cbn. rewrite list_elem_of_singleton. specialize (Hlt ref Hr). lia.
    + intros ref [Hr| ->%list_elem_of_singleton]%elem_of_app; [by apply Hmap, K4'|]. cbn [sr_id sr_lossless]. rewrite map_app. cbn [map]. rewrite list_lookup_middle by (by rewrite length_map). by destruct lossless.
  - intros s Hs. destruct (K5 s Hs) as [H1 H2]. rewrite length_app. cbn. split; [lia|]. by apply Hnot.
  - intros s Hs. apply K6. rewrite length_app in Hs. cbn in Hs. lia.
Qed.

Lemma fewer_ok mw calls closers tr refs removed : threads_ok (mkThreads mw calls closers tr) -> mw_subscribers mw ≡ₚ removed ++ refs ->
  threads_ok (mkThreads (mkDMW refs (mw_subs mw) (mw_chunks mw) (mw_pool mw)) calls (map sr_id removed ++ closers) tr).
Proof.
  intros [K1 K2 K3 [K4 K4'] K5 K6] HP. cbn [mt_mw mt_calls mt_closers mt_trace] in *.
  assert (map sr_id (mw_subscribers mw) ≡ₚ map sr_id removed ++ map sr_id refs) as HP' by (rewrite <- map_app; by apply Permutation_map).
  assert (forall s, s ∉ map sr_id (mw_subscribers mw) -> s ∉ map sr_id refs) as Hnot by (intros s Hn Hin; apply Hn; rewrite HP'; apply elem_of_app; by right).
  assert (forall ref, ref ∈ mw_subscribers mw -> (sr_id ref < length (mw_subs mw))%nat) as Hlt by (intros ref Hr; pose proof (lookup_lt_Some _ _ _ (K4' ref Hr)) as H; by rewrite length_map in H).
  constructor; cbn [mt_mw mt_calls mt_closers mt_trace mw_subs mw_chunks mw_pool mw_subscribers]; try done.
  - eapply Forall_impl; [exact K2|]. intros call [A1 A2 A3 A4 A5 A6 A7]. by constructor.
  - intros s sub Hs. destruct (K3 s sub Hs) as [H1 H2 H3 H4 H4' H5]. constructor; cbn [mw_subscribers mw_chunks]; try done; [intros Hc; destruct (H2 Hc); split; [by apply Hnot|done]|intros Hc; by apply Hnot, H3].
  - rewrite HP' in K4. apply NoDup_app in K4 as (_ & _ & K4). split; [done|]. intros ref Hr. apply K4'. rewrite HP. apply elem_of_app. by right.
  - rewrite HP' in K4. apply NoDup_app in K4 as (_ & K4 & _). intros s [Hs|Hs]%elem_of_app; [|destruct (K5 s Hs); split; [done|by apply Hnot]]. split; [|by apply K4].
    apply list_elem_of_fmap in Hs as (ref & -> & Hr). apply Hlt. rewrite HP. apply elem_of_app. by left.
Qed.

Lemma closers_ok mw calls closers closers' tr : closers' ⊆ closers -> threads_ok (mkThreads mw calls closers tr) -> threads_ok (mkThreads mw calls closers' tr).
Proof. intros Hs [K1 K2 K3 K4 K5 K6]. constructor; try done; [intros s sub Hsub; destruct (K3 s sub Hsub); by constructor|]. intros s Hin. apply K5. by apply Hs. Qed.

Lemma removeSubscriber_spec mw s mw' found : removeSubscriber mw s = (mw', found) ->
  if found then exists ref rest, mw' = mkDMW rest (mw_subs mw) (mw_chunks mw) (mw_pool mw) /\ sr_id ref = s /\ mw_subscribers mw ≡ₚ ref :: rest else mw' = mw.
Proof.
  unfold removeSubscriber. destruct (list_find _ _) as [[i ref]|] eqn:E; intros [= <- <-]; [|done]. apply list_find_Some in E as (Hi & Hs & _).
  eexists ref, _. split; [done|]. split; [done|]. rewrite <- (take_drop_middle _ _ _ Hi) at 1. by rewrite Permutation_middle.
Qed.

Lemma detach_ok mw calls closers tr s mw' : threads_ok (mkThreads mw calls closers tr) -> removeSubscriber mw s = (mw', true) -> threads_ok (mkThreads mw' calls (s :: closers) tr).
Proof. intros Hok (ref & rest & -> & <- & HP)%removeSubscriber_spec. by apply (fewer_ok mw calls closers tr rest [ref]). Qed.

(** The goroutine of a subscriber moves on with the chunks it has. *)
Lemma sub_moves mw calls closers tr s sub sub' : threads_ok (mkThreads mw calls closers tr) -> mw_subs mw !! s = Some sub -> waiting sub' = waiting sub -> isDirect sub' = isDirect sub ->
  sb_active sub' = sb_active sub -> len (sb_ch sub') <= len (sb_ch sub) -> (sb_closed sub' = true -> sb_closed sub = true \/ s ∉ map sr_id (mw_subscribers mw) /\ sb_active sub = 0) ->
  (sb_run sub' = RClose -> sb_run sub = RClose \/ s ∉ map sr_id (mw_subscribers mw)) -> threads_ok (mkThreads (setSubs mw (<[s := sub']> (mw_subs mw))) calls closers tr).
Proof.
  intros Hok Hs Ew Ed Ea El Hcl Hrc. destruct (threads_subs _ _ _ Hok Hs) as [H1 H2 H3 H4 H4' H5]. cbn [mt_mw mt_calls mt_closers mt_trace] in *.
  rewrite <- (app_nil_r tr). unfold setSubs. apply (threads_update1 mw calls closers tr s sub); try done.
  - apply Hok.
  - rewrite app_nil_r. constructor; rewrite ?Ea, ?Ed, ?Ew; try done.
    + intros Hc. destruct (Hcl Hc); [by apply H2|done].
    + intros Hc. destruct (Hrc Hc); [by apply H3|done].
    + intros Hx. specialize (H4 Hx). rewrite H4 in El. destruct (sb_ch sub'); [done|]. cbn in El. lia.
    + lia.
  - apply heap_ok_ext with (holders (mw_subs mw) calls); [|apply Hok]. intros c. rewrite (holders_sub _ _ _ sub), Ew by done. lia.
Qed.

Lemma alter_insert_sub f (subs : list dynamicMultiWriterSubscriber) s sub : subs !! s = Some sub -> alter f s subs = <[s := f sub]> subs.
Proof.
  intros H. apply list_eq. intros s'. pose proof (lookup_lt_Some _ _ _ H). destruct (decide (s = s')) as [<- |Hne]; [by rewrite list_lookup_alter_eq, list_lookup_insert_eq, H by done|].
  by rewrite list_lookup_alter_ne, list_lookup_insert_ne.
Qed.

Lemma closeSub_ok mw calls closers tr s sub : threads_ok (mkThreads mw calls closers tr) -> mw_subs mw !! s = Some sub -> s ∉ map sr_id (mw_subscribers mw) -> sb_active sub = 0 ->
  threads_ok (mkThreads (closeSub mw s) calls closers tr).
Proof. intros Hok Hs Hn H0. unfold closeSub. rewrite (alter_insert_sub _ _ _ sub) by done. apply (sub_moves mw calls closers tr s sub); try done; [by right|by left]. Qed.

(** Writing a chunk ends: it is given to the writer or not. *)
Lemma written_ok mw calls closers tr s sub c run (ok : bool) : threads_ok (mkThreads mw calls closers tr) -> mw_subs mw !! s = Some sub -> sb_run sub = RWrite c -> inFlight run = [] -> run <> RNone -> run <> RClose ->
  threads_ok (mkThreads (releaseChunk (setSubs mw (<[s := setRun run sub]> (mw_subs mw))) c) calls closers (tr ++ if ok then [Given s (dataOf (mw_chunks mw) c)] else [])).
Proof.
  intros Hok Hs Er Ef Hn Hc. assert (waiting sub = c :: sb_ch sub) as Ew by (unfold waiting; by rewrite Er). assert (waiting (setRun run sub) = sb_ch sub) as Ew' by (unfold waiting; cbn; by rewrite Ef).
  destruct (heap_released (setSubs mw (<[s := setRun run sub]> (mw_subs mw))) (holders (mw_subs mw) calls) (holders (<[s := setRun run sub]> (mw_subs mw)) calls) c) as (chunks' & pool' & -> & Hh & Ha).
  - apply Hok.
  - intros c'. apply holders_nonneg.
  - intros c'. rewrite (holders_sub _ _ _ sub), Ew, Ew' by done. change (c :: sb_ch sub) with ([c] ++ sb_ch sub). rewrite timesIn_app, timesIn_one. lia.
  - cbn [setSubs mw_subs mw_subscribers]. apply (threads_update1 mw calls closers tr s sub); try done; [apply Hok|..].
    + intros s' Hne. destruct ok; [|done]. unfold quiet, queuedFor, givenTo. cbn. by rewrite decide_False.
    + unfold isDirect. cbn. rewrite Er. by rewrite !bool_decide_eq_false_2.
    + destruct (threads_subs _ _ _ Hok Hs) as [H1 H2 H3 H4 H4' H5]. cbn [mt_mw mt_calls mt_closers mt_trace] in *. constructor; cbn [setRun sb_active sb_closed sb_run sb_ch]; try done.
      * unfold isDirect. cbn. by rewrite bool_decide_eq_false_2.
      * rewrite Ew', queuedFor_app, givenTo_app. rewrite Ew in H5. destruct ok; cbn [queuedFor givenTo omap list_omap]; rewrite ?decide_True, ?app_nil_r by done; [by rewrite <- app_assoc|].
        etransitivity; [|exact H5]. apply sublist_app; [done|]. cbn. by constructor.
Qed.

Lemma run_ok mw calls closers tr s res mw' ds : threads_ok (mkThreads mw calls closers tr) -> runStep mw s res = Some (mw', ds) -> threads_ok (mkThreads mw' calls closers (tr ++ ds)).
Proof.
  intros Hok E. unfold runStep in E. destruct (mw_subs mw !! s) as [sub|] eqn:Hs; [|done]. cbv zeta in E.
  assert (forall run mw1, sb_run sub <> RNone -> run <> RNone -> inFlight run = inFlight (sb_run sub) -> threads_ok (mkThreads mw1 calls closers tr) -> mw_subs mw1 !! s = Some sub ->
    (run = RClose -> s ∉ map sr_id (mw_subscribers mw1)) -> threads_ok (mkThreads (setSubs mw1 (<[s := setRun run sub]> (mw_subs mw1))) calls closers tr)) as Hmove.
  { intros run mw1 Hn Hn' Hf Hok1 Hs1 Hc. apply (sub_moves mw1 calls closers tr s sub); try done; [unfold waiting; cbn; by rewrite Hf|unfold isDirect; cbn; by rewrite !bool_decide_eq_false_2|by left|cbn; intros ->; right; by apply Hc]. }
  destruct (sb_run sub) as [| |c| | | |] eqn:Er; try done.
  - destruct (sb_ch sub) as [|c ch] eqn:Ech.
    + destruct (sb_closed sub); [|done]. injection E as <- <-. rewrite app_nil_r. by apply Hmove.
    + injection E as <- <-. rewrite app_nil_r. apply (sub_moves mw calls closers tr s sub); try done.
      * unfold waiting. cbn. by rewrite Er, Ech.
      * unfold isDirect. cbn. rewrite Er. by rewrite !bool_decide_eq_false_2.
      * cbn. rewrite Ech. cbn. lia.
      * by left.
  - destruct res; injection E as <- <-; [by apply (written_ok mw calls closers tr s sub c RReceive true)|by apply (written_ok mw calls closers tr s sub c RFailed false)..].
  - destruct (removeSubscriber mw s) as [mw1 found] eqn:Erm. injection E as <- <-. rewrite app_nil_r. destruct found; [|apply removeSubscriber_spec in Erm as ->; by apply Hmove].
    pose proof (detach_ok _ _ _ _ _ _ Hok Erm) as Hok1. pose proof (tk_closers _ Hok1 s (list_elem_of_here _ _)) as [_ Hnot]. apply (closers_ok _ _ _ closers) in Hok1; [|intros x Hx; by right].
    apply Hmove; try done. apply removeSubscriber_spec in Erm as (ref & rest & -> & _). done.
  - destruct (Z.eqb_spec (sb_active sub) 0) as [E0|]; [|done]. injection E as <- <-. rewrite app_nil_r. pose proof (su_closing _ _ _ _ _ _ (threads_subs _ _ _ Hok Hs) Er) as Hnot. cbn [mt_mw] in Hnot.
    apply (closeSub_ok _ _ _ _ s (setRun RDrain sub)); try done; [by apply Hmove|]. cbn. by rewrite list_lookup_insert_eq by (by eapply lookup_lt_Some).
  - destruct (sb_ch sub) as [|c ch] eqn:Ech; injection E as <- <-; rewrite app_nil_r; [by apply Hmove|by apply (drop_ok mw calls closers tr s sub)].
Qed.

Lemma stage_ok mw calls closers tr i call stage ref todo : threads_ok (mkThreads mw calls closers tr) -> calls !! i = Some call -> running call -> wc_stage call <> SNew ->
  wc_todo call = ref :: todo -> sr_lossless ref = false -> stage = SDrop \/ stage = SRetry -> threads_ok (mkThreads mw (<[i := toStage stage call]> calls) closers tr).
Proof.
  intros Hok Hi Hr Hn Et El Hst. apply (call_moves _ _ _ _ _ call); try done.
  - destruct (proj1 (Forall_forall _ _) (tk_calls _ Hok) call (list_elem_of_lookup_2 _ _ _ Hi)) as [A1 A2 A3 A4 A5 A6 A7]. constructor; cbn; try done; [by destruct Hst; subst|intros _; by apply A2|by intros _; exists ref, todo|by destruct Hst; subst].
  - intros s. apply activeIn_same; [done| |done]. intros n e. cbn. by destruct Hst; subst.
Qed.

(** A step of a call of [Write] does not panic and keeps the invariant. *)
Lemma call_step_ok mw calls closers tr i call got res : threads_ok (mkThreads mw calls closers tr) -> calls !! i = Some call -> (forall c, got = Some c -> c ∈ mw_pool mw) ->
  returns (callStep mw call got res) (fun '(mw', call', ds) => threads_ok (mkThreads mw' (<[i := call']> calls) closers (tr ++ ds))).
Proof.
  intros Hok Hi Hgot. pose proof (list_elem_of_lookup_2 _ _ _ Hi) as Hin. pose proof (proj1 (Forall_forall _ _) (tk_calls _ Hok) call Hin) as Hcall. cbn [mt_mw] in Hcall. unfold returns, callStep.
  destruct (wc_stage call) as [| | | |n e] eqn:Est.
  - destruct (Z.ltb_spec 0 (asyncSubscribers (wc_subscribers call))).
    + destruct (newChunk _ _ _ _) as [mw' c] eqn:En. eexists (_, _, _). split; [done|]. rewrite app_nil_r. by eapply chunk_ok.
    + eexists (_, _, _). split; [done|]. rewrite app_nil_r. destruct (ca_new _ _ Hcall Est) as [Ec Et]. apply (call_moves _ _ _ _ _ call); try done.
      * destruct Hcall as [A1 A2 A3 A4 A5 A6 A7]. constructor; cbn; try done; [|by intros [|]]. intros _. rewrite Et. lia.
      * intros s. apply activeIn_same; [intros ? ?; congruence|intros ? ?; done|done].
  - assert (running call) as Hr by (intros ? ?; congruence). destruct (wc_todo call) as [|ref todo] eqn:Et.
    { destruct (writeResult mw call) as [n e]. eexists (_, _, _). split; [done|]. rewrite app_nil_r. by apply end_ok. }
    destruct (sr_lossless ref) eqn:El.
    { assert (forall err, threads_ok (mkThreads mw (<[i := failedTurn ref err todo call]> calls) closers tr)) as Hf.
      { intros err. apply (call_moves _ _ _ _ _ call); try done.
        - apply (nextTurn_ok mw call _ ref todo); try done. congruence.
        - intros s. apply activeIn_same; [done|intros ? ?; done|done].
        - intros c. unfold heldByCall. cbn. rewrite Et, async_cons, El. done. }
      destruct res; eexists (_, _, _); (split; [done|]); rewrite ?app_nil_r; [by apply direct_ok|apply Hf..]. }
    destruct (ca_chunk _ _ Hcall) as (c & Ec & _); [congruence|rewrite Et, async_cons, El; pose proof (async_nonneg todo); lia|]. rewrite Ec.
    destruct (channel_open _ _ _ _ _ _ _ Hok Hin Hr Et) as (sub & Hs & Hcl & Hd). unfold trySendChunk. rewrite Hs, Hcl. destruct (Z.ltb_spec (len (sb_ch sub)) dynamicMultiWriterBufferSize); cbn [mbind go_bind].
    + eexists (_, _, _). split; [done|]. apply send_ok; try done; congruence.
    + eexists (_, _, _). split; [done|]. rewrite app_nil_r. apply (stage_ok _ _ _ _ _ _ _ ref todo); try done; [congruence|by left].
  - destruct (ca_drop _ _ Hcall (or_introl Est)) as (ref & todo & Et & El). rewrite Et. assert (running call) as Hr by (intros ? ?; congruence).
    destruct (channel_open _ _ _ _ _ _ _ Hok Hin Hr Et) as (sub & Hs & Hcl & Hd). unfold dropQueued. rewrite Hs, Hcl.
    assert (threads_ok (mkThreads mw (<[i := toStage SRetry call]> calls) closers tr)) as Hok' by (apply (stage_ok _ _ _ _ _ _ _ ref todo); try done; [congruence|by right]).
    destruct (sb_ch sub) as [|c ch] eqn:Ech; cbn [mbind go_bind]; eexists (_, _, _); (split; [done|]); rewrite app_nil_r; [done|by apply (drop_ok mw _ closers tr _ sub)].
  - destruct (ca_drop _ _ Hcall (or_intror Est)) as (ref & todo & Et & El). rewrite Et. assert (running call) as Hr by (intros ? ?; congruence).
    destruct (ca_chunk _ _ Hcall) as (c & Ec & _); [congruence|rewrite Et, async_cons, El; pose proof (async_nonneg todo); lia|]. rewrite Ec.
    destruct (channel_open _ _ _ _ _ _ _ Hok Hin Hr Et) as (sub & Hs & Hcl & Hd). unfold trySendChunk. rewrite Hs, Hcl. destruct (Z.ltb_spec (len (sb_ch sub)) dynamicMultiWriterBufferSize); cbn [mbind go_bind].
    + eexists (_, _, _). split; [done|]. apply send_ok; try done; congruence.
    + eexists (_, _, _). split; [done|]. rewrite app_nil_r. by apply (retry_ok _ _ _ _ _ _ ref).
  - eexists (_, _, _). split; [done|]. rewrite app_nil_r. by rewrite list_insert_id.
Qed.

Lemma mwStep_ok w w' : mwStep w w' -> threads_ok w -> threads_ok w'.
Proof.
  intros Hs Hok. destruct Hs as [| | |mw calls closers tr s sub Hin Hsub H0|mw calls closers tr p mw' refs|mw calls closers tr i call got res mw' call' ds Hi Hg E| |subscribers subs chunks pool calls closers tr c].
  - by apply attach_ok.
  - by eapply detach_ok.
  - injection H as <- <-. by apply fewer_ok; [|rewrite app_nil_r].
  - apply (closeSub_ok _ _ _ _ s sub); try done. by apply (tk_closers _ Hok).
  - by eapply begin_ok.
  - destruct (call_step_ok _ _ _ _ _ _ got res Hok Hi Hg) as ([[? ?] ?] & E' & H). rewrite E in E'. by injection E' as <- <- <-.
  - by eapply run_ok.
  - destruct Hok as [[H1 H2 H3] K2 K3 K4 K5 K6]. cbn [mt_mw mt_calls mt_closers mt_trace mw_subs mw_chunks mw_pool mw_subscribers] in *. constructor; try done.
    + constructor; try done. intros c' [_ Hin]%list_elem_of_filter. by apply H3.
    + eapply Forall_impl; [exact K2|]. by intros call [].
    + intros s sub Hsub. by destruct (K3 s sub Hsub).
Qed.

Lemma freshThreads_ok : threads_ok freshThreads.
Proof.
  constructor; cbn [freshThreads NewDynamicMultiWriter mt_mw mt_calls mt_closers mt_trace mw_subs mw_chunks mw_pool mw_subscribers].
  - constructor; [done|done|]. intros c H. by apply not_elem_of_nil in H.
  - constructor.
  - done.
  - split; [constructor|]. intros ref H. by apply not_elem_of_nil in H.
  - intros s H. by apply not_elem_of_nil in H.
  - done.
Qed.

Lemma threads_reachable w : rtc mwStep freshThreads w -> threads_ok w.
Proof. intros H. pose proof freshThreads_ok as H0. induction H as [|w1 w2 w3 Hs _ IH]; [done|]. by apply IH, (mwStep_ok w1). Qed.

(** C11: However calls of [Write], the subscribers' goroutines, attaching,
    detaching and closing interleave: no call of [Write] panics, it never sends
    to a closed channel; every writer gets slices that were written while it was
    subscribed, unchanged, in the order they were queued and each at most once,
    though the chunks are reused; a chunk's count is the number of its holders,
    so that no chunk in the pool is still waited for or being written; and no
    more than 128 chunks wait for a subscriber. *)
Theorem chunks_are_never_reused_early w : rtc mwStep freshThreads w ->
  (forall i call got res, mt_calls w !! i = Some call -> (forall c, got = Some c -> c ∈ mw_pool (mt_mw w)) -> returns (callStep (mt_mw w) call got res) (fun _ => True))
  /\ (forall s sub, mw_subs (mt_mw w) !! s = Some sub -> len (sb_ch sub) <= dynamicMultiWriterBufferSize
        /\ sublist (givenTo s (mt_trace w) ++ map (dataOf (mw_chunks (mt_mw w))) (waiting sub)) (queuedFor s (mt_trace w)))
  /\ (forall c k, mw_chunks (mt_mw w) !! c = Some k -> ck_refs k = holders (mw_subs (mt_mw w)) (mt_calls w) c)
  /\ (forall c s sub, c ∈ mw_pool (mt_mw w) -> mw_subs (mt_mw w) !! s = Some sub -> c ∉ waiting sub).
Proof.
  intros Hok%threads_reachable. destruct w as [mw calls closers tr]. cbn [mt_mw mt_calls mt_trace] in *. conjs.
  - intros i call got res Hi Hg. destruct (call_step_ok _ _ _ _ _ _ got res Hok Hi Hg) as (r & E & _). by exists r.
  - intros s sub Hs. destruct (threads_subs _ _ _ Hok Hs) as [_ _ _ _ H4 H5]. by split.
  - intros c k Hk. pose proof (hp_refs _ _ _ (tk_heap _ Hok) c) as H. cbn [mt_mw mt_calls] in H. rewrite Hk in H. done.
  - intros c s sub Hp Hs Hw. pose proof (waiting_held _ calls _ _ _ Hs Hw). destruct (hp_pool _ _ _ (tk_heap _ Hok) c Hp) as [_ H0]. cbn [mt_mw mt_calls] in H0. lia.
Qed.

(** Two subscribers share a chunk; the first has written it. *)
Definition demoCall : WriteCall := mkCall [71] [mkSubRef 0 10 false; mkSubRef 1 11 false] (Some 0%nat) [] [] [] 2 STurn.
Definition demoThreads : mwThreads := mkThreads
  (mkDMW [mkSubRef 0 10 false; mkSubRef 1 11 false] [mkSub [] false 1 RReceive; mkSub [0%nat] false 1 RReceive] [mkChunk 1 [71]] [])
  [demoCall] [] [Queued 0 [71]; Queued 1 [71]; Given 0 [71]].

Lemma demoThreads_run : rtc mwStep freshThreads demoThreads.
Proof.
  eapply rtc_l; [apply (m_attach _ _ _ _ 10 false)|]. eapply rtc_l; [apply (m_attach _ _ _ _ 11 false)|].
  eapply rtc_l; [apply (m_begin _ _ _ _ [71]); [reflexivity|done]|].
  eapply rtc_l; [apply (m_call _ _ _ _ 0 (newCall [71] [mkSubRef 0 10 false; mkSubRef 1 11 false]) None Wrote); [done|done|vm_compute; reflexivity]|].
  eapply rtc_l; [eapply (m_call _ _ _ _ 0 _ None Wrote); [done|done|vm_compute; reflexivity]|].
  eapply rtc_l; [eapply (m_call _ _ _ _ 0 _ None Wrote); [done|done|vm_compute; reflexivity]|].
  eapply rtc_l; [apply (m_run _ _ _ _ 0 Wrote); vm_compute; reflexivity|]. eapply rtc_l; [apply (m_run _ _ _ _ 0 Wrote); vm_compute; reflexivity|].
  match goal with |- rtc _ ?a ?b => replace a with b; [constructor|vm_compute; reflexivity] end.
Qed.

Lemma chunks_are_never_reused_early_witness : sublist (givenTo 1 (mt_trace demoThreads) ++ [[71]]) (queuedFor 1 (mt_trace demoThreads)).
Proof. exact (proj2 (proj1 (proj2 (chunks_are_never_reused_early demoThreads demoThreads_run)) 1%nat (mkSub [0%nat] false 1 RReceive) eq_refl)). Defined.
