(* ===== verification/ProgramStore.v ===== *)
(** * The store of programs (internal/program: program.go, stored.go, sqlite_store.go)

    A program is an event with an ID.  The database keeps one row per ID; an
    undecided time is kept as 0, and of the revisions everything but the
    reception, which only orders tables within one process.  The types of the
    descriptors' details in the JSON column have the fields of the model's and
    are not repeated.  The table is a map by ID, and a query is what its SQL
    says. *)

From stdpp Require Import strings.
From S2P Require Import Prelude Epg.

Record Program := mkProgram {
  p_ID : Z;
  p_Event : Event
}.

#[export] Instance Program_eq_dec : EqDecision Program.
Proof. solve_decision. Defined.

Definition FromEvent (event : Event) : Program := mkProgram (ProgramID (e_Key event) (e_EventID event)) event.

Definition StartAtOrZero (p : Program) : Z := default 0 (e_StartAt (p_Event p)).
Definition DurationOrZero (p : Program) : Z := default 0 (e_DurationMS (p_Event p)).

(** ** Rows *)

Record storedEITRevision := mkStoredRevision { sv_Source : string; sv_TableID : Z; sv_Version : Z }.
#[export] Instance storedEITRevision_eq_dec : EqDecision storedEITRevision.
Proof. solve_decision. Defined.

Record storedEvent := mkStoredEvent {
  st_EITExtendedRevision : option storedEITRevision;
  st_EITRevision : option storedEITRevision;
  st_EITPresent : bool;
  st_EITFollowing : bool;
  st_EITSuspended : bool;
  st_Language : string;
  st_RunningStatus : Z;
  st_Genres : list Genre;
  st_Videos : list VideoComponent;
  st_Audios : list AudioComponent;
  st_Extended : list ExtendedBlock;
  st_Related : list RelatedEvent;
  st_Parental : list ParentalRating;
  st_Series : option Series
}.
#[export] Instance storedEvent_eq_dec : EqDecision storedEvent.
Proof. solve_decision. Defined.

Definition zeroStoredEvent : storedEvent := mkStoredEvent None None false false false "" 0 [] [] [] [] [] [] None.

(** A row without its ID. *)
Record programRow := mkRow {
  r_EventID : Z;
  r_ServiceID : Z;
  r_NetworkID : Z;
  r_StreamID : Z;
  r_StartAt : Z;
  r_Duration : Z;
  r_IsFree : Z;
  r_Name : option string;
  r_Description : option string;
  r_Event : option storedEvent
}.
#[export] Instance programRow_eq_dec : EqDecision programRow.
Proof. solve_decision. Defined.

Definition storeRevision (r : EITRevision) : storedEITRevision := mkStoredRevision (rv_Source r) (rv_TableID r) (rv_Version r).
Definition loadRevision (r : storedEITRevision) : EITRevision := mkRevision (sv_Source r) (sv_TableID r) (sv_Version r) 0.

Definition toStoredEvent (e : Event) : storedEvent :=
  mkStoredEvent (storeRevision <$> e_EITExtendedRevision e) (storeRevision <$> e_EITRevision e) (e_EITPresent e) (e_EITFollowing e) (e_EITSuspended e)
    (e_Language e) (e_RunningStatus e) (e_Genres e) (e_Videos e) (e_Audios e) (e_Extended e) (e_Related e) (e_Parental e) (e_Series e).

Definition nonEmpty (s : string) : option string := if bool_decide (s = EmptyString) then None else Some s.

Definition toUpsertProgramParams (p : Program) : programRow :=
  let e := p_Event p in
  mkRow (e_EventID e) (k_ServiceID (e_Key e)) (k_NetworkID (e_Key e)) (k_StreamID (e_Key e)) (StartAtOrZero p) (DurationOrZero p) (if e_FreeCA e then 0 else 1)
    (nonEmpty (e_Name e)) (nonEmpty (e_Description e)) (if bool_decide (toStoredEvent e = zeroStoredEvent) then None else Some (toStoredEvent e)).

Definition nonZero (x : Z) : option Z := if x =? 0 then None else Some x.

(** [applyTo] on an event that has none of these fields yet. *)
Definition applyTo (s : storedEvent) (e : Event) : Event :=
  mkEvent (loadRevision <$> st_EITExtendedRevision s) (loadRevision <$> st_EITRevision s) (st_EITPresent s) (st_EITFollowing s) (st_EITSuspended s) (e_Key e) (e_EventID e)
    (e_StartAt e) (e_DurationMS e) (st_RunningStatus s) (e_FreeCA e) (st_Language s) (e_Name e) (e_Description e)
    (st_Genres s) (st_Videos s) (st_Audios s) (st_Extended s) (st_Related s) (st_Parental s) (st_Series s).

Definition fromGenProgram (id : Z) (r : programRow) : Program :=
  let event := mkEvent None None false false false (mkServiceKey (u16 (r_NetworkID r)) (u16 (r_StreamID r)) (u16 (r_ServiceID r))) (u16 (r_EventID r))
    (nonZero (r_StartAt r)) (nonZero (r_Duration r)) 0 (r_IsFree r =? 0) "" (default EmptyString (r_Name r)) (default EmptyString (r_Description r)) [] [] [] [] [] [] None in
  mkProgram id (match r_Event r with None => event | Some s => applyTo s event end).

Definition sameProgram (a b : Program) : bool := bool_decide (p_ID a = p_ID b) && bool_decide (toUpsertProgramParams a = toUpsertProgramParams b).

(** ** The table *)

Abbreviation programRows := (gmap Z programRow).

Record Query := mkQuery {
  qy_ID : option Z;
  qy_NetworkID : option Z;
  qy_ServiceID : option Z;
  qy_EventID : option Z;
  qy_StartAt : option Z;
  qy_EndAt : option Z
}.

Definition cond (x : option Z) (test : Z -> bool) : bool := match x with None => true | Some v => test v end.

Definition matchesQuery (query : Query) (id : Z) (r : programRow) : bool :=
  cond (qy_ID query) (fun v => id =? v) && cond (qy_NetworkID query) (fun v => r_NetworkID r =? v) && cond (qy_ServiceID query) (fun v => r_ServiceID r =? v)
  && cond (qy_EventID query) (fun v => r_EventID r =? v) && cond (qy_StartAt query) (fun v => v <=? r_StartAt r + r_Duration r) && cond (qy_EndAt query) (fun v => r_StartAt r <=? v).

(** [ORDER BY start_at, id] *)
Definition inOrder (rows : list (Z * programRow)) : list (Z * programRow) := sortStable (fun r => r_StartAt r.2) (sortStable fst rows).

Definition storeList (rows : programRows) (query : Query) : list Program :=
  map (fun r => fromGenProgram r.1 r.2) (inOrder (map_to_list (filter (fun r => matchesQuery query r.1 r.2 = true) rows))).

Definition storeListByIDs (rows : programRows) (ids : list Z) : list Program :=
  match ids with [] => [] | _ => map (fun r => fromGenProgram r.1 r.2) (inOrder (map_to_list (filter (fun r => r.1 ∈ ids) rows))) end.

Definition ofServiceFrom (networkID serviceID from : Z) (r : programRow) : bool :=
  (r_NetworkID r =? networkID) && (r_ServiceID r =? serviceID) && ((from <=? r_StartAt r + r_Duration r) || (r_Duration r =? 0)).

Definition storeListByServiceFrom (rows : programRows) (networkID serviceID from : Z) : list Program :=
  map (fun r => fromGenProgram r.1 r.2) (inOrder (map_to_list (filter (fun r => ofServiceFrom networkID serviceID from r.2 = true) rows))).

Definition endedBefore (cutoff : Z) (r : programRow) : bool := r_StartAt r + r_Duration r <? cutoff.

Definition storeListEndedIDsBefore (rows : programRows) (cutoff : Z) : list Z :=
  sortStable (fun id => id) (map fst (map_to_list (filter (fun r => endedBefore cutoff r.2 = true) rows))).

Definition storeDeleteEndedBefore (rows : programRows) (cutoff : Z) : programRows := filter (fun r => endedBefore cutoff r.2 = false) rows.

Definition storeUpserts (rows : programRows) (programs : list Program) : programRows := foldl (fun rows p => <[p_ID p := toUpsertProgramParams p]> rows) rows programs.
Definition storeDeletes (rows : programRows) (removed : list Z) : programRows := foldl (fun rows id => delete id rows) rows removed.

Definition storeUpsertAndDelete (rows : programRows) (programs : list Program) (removed : list Z) : programRows := storeUpserts (storeDeletes rows removed) programs.

(** The upserts of programs that may be nil, which is dereferenced. *)
Fixpoint storeUpsertsMaybe (rows : programRows) (programs : list (option Program)) : go programRows :=
  match programs with
  | [] => Ret rows
  | None :: _ => Panic
  | Some p :: programs => storeUpsertsMaybe (<[p_ID p := toUpsertProgramParams p]> rows) programs
  end.

Definition storeReplaceServicePrograms (rows : programRows) (networkID serviceID from : Z) (programs : list (option Program)) : go programRows :=
  storeUpsertsMaybe (filter (fun r => ofServiceFrom networkID serviceID from r.2 = false) rows) programs.

(** ** Reading what was written *)

Definition ids_ok (e : Event) : Prop := key_ok (e_Key e) /\ 0 <= e_EventID e < 65536.

(** What is left of an event: no reception, and times that are not 0. *)
Definition settle (r : EITRevision) : EITRevision := mkRevision (rv_Source r) (rv_TableID r) (rv_Version r) 0.
Definition storedForm (p : Program) : Program :=
  let e := p_Event p in
  mkProgram (p_ID p) (mkEvent (settle <$> e_EITExtendedRevision e) (settle <$> e_EITRevision e) (e_EITPresent e) (e_EITFollowing e) (e_EITSuspended e) (e_Key e) (e_EventID e)
    (e_StartAt e ≫= nonZero) (e_DurationMS e ≫= nonZero) (e_RunningStatus e) (e_FreeCA e) (e_Language e) (e_Name e) (e_Description e)
    (e_Genres e) (e_Videos e) (e_Audios e) (e_Extended e) (e_Related e) (e_Parental e) (e_Series e)).

Lemma nonEmpty_default s : default EmptyString (nonEmpty s) = s.
Proof. unfold nonEmpty. by case_bool_decide. Qed.

Lemma nonZero_default x : nonZero (default 0 x) = (x ≫= nonZero).
Proof. by destruct x. Qed.

Lemma load_store (r : option EITRevision) : loadRevision <$> (storeRevision <$> r) = settle <$> r.
Proof. by destruct r. Qed.

Lemma read_back p : ids_ok (p_Event p) -> fromGenProgram (p_ID p) (toUpsertProgramParams p) = storedForm p.
Proof.
  destruct p as [id e]. intros ((Hn & Hs & Hv) & He). cbn [p_ID p_Event] in *. unfold fromGenProgram, toUpsertProgramParams, storedForm, StartAtOrZero, DurationOrZero.
  cbn [p_ID p_Event r_EventID r_ServiceID r_NetworkID r_StreamID r_StartAt r_Duration r_IsFree r_Name r_Description r_Event]. f_equal.
  rewrite !u16_small, !nonEmpty_default, !nonZero_default by done. assert ((if e_FreeCA e then 0 else 1) =? 0 = e_FreeCA e) as -> by (by destruct (e_FreeCA e)).
  destruct (e_Key e) as [n s v] eqn:Ek. cbn [k_NetworkID k_StreamID k_ServiceID]. case_bool_decide as Hz.
  - unfold toStoredEvent, zeroStoredEvent in Hz. injection Hz as H1 H2 H3 H4 H5 H6 H7 H8 H9 H10 H11 H12 H13 H14. rewrite <- !load_store, H1, H2, H3, H4, H5, H6, H7, H8, H9, H10, H11, H12, H13, H14. done.
  - unfold applyTo, toStoredEvent. cbn. by rewrite !load_store.
Qed.

Lemma stored_again p : toUpsertProgramParams (storedForm p) = toUpsertProgramParams p.
Proof.
  destruct p as [id e]. unfold toUpsertProgramParams, storedForm, StartAtOrZero, DurationOrZero, toStoredEvent.
  cbn [p_ID p_Event e_EITExtendedRevision e_EITRevision e_EITPresent e_EITFollowing e_EITSuspended e_Key e_EventID e_StartAt e_DurationMS e_RunningStatus e_FreeCA e_Language e_Name e_Description e_Genres e_Videos e_Audios e_Extended e_Related e_Parental e_Series].
  assert (forall x : option Z, default 0 (x ≫= nonZero) = default 0 x) as Hd by (intros [x|]; [cbn; unfold nonZero; destruct (Z.eqb_spec x 0); cbn; congruence|done]).
  assert (forall r : option EITRevision, storeRevision <$> (settle <$> r) = storeRevision <$> r) as Hr by (by intros []). by rewrite !Hd, !Hr.
Qed.

(** Reading a stored program back gives it in its stored form, which is
    stored as the same row: writing what was read changes nothing. *)
Theorem stored_programs_read_back p (Hp : ids_ok (p_Event p)) :
  fromGenProgram (p_ID p) (toUpsertProgramParams p) = storedForm p /\ toUpsertProgramParams (storedForm p) = toUpsertProgramParams p
  /\ storedForm (storedForm p) = storedForm p /\ forall q, ids_ok (p_Event q) -> sameProgram p q = true <-> storedForm p = storedForm q.
Proof.
  conjs; [by apply read_back|apply stored_again|..].
  - rewrite <- (read_back (storedForm p)) by done. rewrite stored_again. by apply (read_back p).
  - intros q Hq. unfold sameProgram. rewrite andb_true_iff, !bool_decide_eq_true. split.
    + intros [Hid Hrow]. by rewrite <- (read_back p), <- (read_back q), Hid, Hrow by done.
    + intros E. split; [exact (f_equal p_ID E)|]. by rewrite <- (stored_again p), <- (stored_again q), E.
Qed.

Definition demoProgram : Program := FromEvent (mkEvent None (Some (mkRevision "" 0x50 3 7)) false false false (mkServiceKey 4 16625 101) 500
  (Some 1700000000000) None 0 false "jpn" "News" "" [] [] [] [] [] [] None).

Lemma stored_programs_read_back_witness : ids_ok (p_Event demoProgram) /\ fromGenProgram (p_ID demoProgram) (toUpsertProgramParams demoProgram) = storedForm demoProgram.
Proof. assert (ids_ok (p_Event demoProgram)) as H by (unfold ids_ok, key_ok; cbn; lia). exact (conj H (proj1 (stored_programs_read_back demoProgram H))). Defined.
