(* ===== verification/ProgramManager.v ===== *)
(** * The program manager (internal/program: manager.go, eit.go, present_following.go, remove.go)

    The manager decides which of the broadcast information reaches the store.
    It remembers the revision of the table each program came from, so that a
    late table does not undo a newer one, removes programs that a moved program
    now overlaps, and queues an event for everything it changes.  A change is
    computed first; nothing is touched when a query or the transaction fails.

    [fault] says which operations of the database fail, and [order] is the order
    in which a map is ranged over.  Times are far below the range of [int64]. *)

From stdpp Require Import strings.
From S2P Require Import Prelude Epg ProgramStore.

Record eitState := mkEitState {
  es_revision : EITRevision;
  es_endAt : Z
}.

(** Service, source and table ID. *)
Abbreviation eitTable := (ServiceKey * string * Z)%type.

Inductive programEvent :=
  | ProgramCreated (p : Program)
  | ProgramUpdated (p : Program)
  | ProgramRemoved (id : Z).

Record ProgramManager := mkManager {
  pm_eit : gmap Z eitState;
  pm_eitExtended : gmap Z eitState;
  pm_eitTables : gmap eitTable EITRevision;
  pm_hasEvents : bool;
  pm_outbox : list programEvent
}.

Definition NewProgramManager (hasEvents : bool) : ProgramManager := mkManager ∅ ∅ ∅ hasEvents [].

Record PresentFollowingSnapshot := mkSnapshot {
  pf_ObservedAt : Z;
  pf_Service : ServiceKey;
  pf_Events : list Event
}.

(** ** Events *)

(** An operation hands its events over one by one; [pm_outbox] are those that
    have not reached the queue yet. *)
Definition enqueueProgramEvent (m : ProgramManager) (ev : programEvent) : ProgramManager :=
  if pm_hasEvents m then mkManager (pm_eit m) (pm_eitExtended m) (pm_eitTables m) true (pm_outbox m ++ [ev]) else m.

(** The queue and its timer.  A timer that was reset after it had fired fires
    again; once [flushEvents] has dropped it, it is an orphan.  [eq_started] are
    the calls of [flushEvents] that have not taken the lock, and [eq_flushing]
    what each of the others has yet to publish. *)
Record eventQueue := mkEventQueue {
  eq_queue : list programEvent;
  eq_timer : bool;
  eq_armed : bool;
  eq_orphans : nat;
  eq_started : nat;
  eq_flushing : list (list programEvent)
}.

Definition emptyQueue : eventQueue := mkEventQueue [] false false 0 0 [].

(** The timer is reset, or made when there is none; either way it is armed. *)
Definition enqueueEvent (q : eventQueue) (ev : programEvent) : eventQueue :=
  mkEventQueue (eq_queue q ++ [ev]) true true (eq_orphans q) (eq_started q) (eq_flushing q).

Definition timerFired (q : eventQueue) : eventQueue := mkEventQueue (eq_queue q) (eq_timer q) false (eq_orphans q) (S (eq_started q)) (eq_flushing q).
Definition orphanFired (q : eventQueue) : eventQueue := mkEventQueue (eq_queue q) (eq_timer q) (eq_armed q) (pred (eq_orphans q)) (S (eq_started q)) (eq_flushing q).

(** The part of [flushEvents] under the lock. *)
Definition flushEvents (q : eventQueue) : eventQueue :=
  mkEventQueue [] false false (if eq_armed q then S (eq_orphans q) else eq_orphans q) (pred (eq_started q)) (eq_flushing q ++ [eq_queue q]).

(** One turn of the loop of the [i]-th running call: the event it publishes. *)
Definition publishTurn (q : eventQueue) (i : nat) : option (programEvent * eventQueue) :=
  match eq_flushing q !! i with
  | Some (ev :: rest) => Some (ev, mkEventQueue (eq_queue q) (eq_timer q) (eq_armed q) (eq_orphans q) (eq_started q) (<[i := rest]> (eq_flushing q)))
  | _ => None
  end.

(** ** Which information counts (eit.go) *)

Definition tableOf (service : ServiceKey) (revision : EITRevision) : eitTable :=
  (service, if Other revision then rv_Source revision else EmptyString, rv_TableID revision).

Definition superseded (tables : gmap eitTable EITRevision) (p : Program) (revision : EITRevision) : bool :=
  match tables !! tableOf (e_Key (p_Event p)) revision with Some latest => negb (PreferTo revision latest) | None => false end.

Definition acceptEIT (m : ProgramManager) (p : Program) (tables : gmap eitTable EITRevision) (existing : option Program) : bool :=
  match e_EITRevision (p_Event p) with
  | None => true
  | Some revision =>
      if superseded tables p revision then false
      else match pm_eit m !! p_ID p with
      | Some previous => PreferTo revision (es_revision previous)
      | None =>
          match existing with
          | None => true
          | Some existing =>
              match e_EITRevision (p_Event existing) with
              | Some previous => PreferTo revision previous
              | None => negb (Other revision)
              end
          end
      end
  end.

Definition acceptExtended (m : ProgramManager) (p : Program) (revision : EITRevision) (tables : gmap eitTable EITRevision) (existing : option Program) : bool :=
  if superseded tables p revision then false
  else match pm_eitExtended m !! p_ID p with
  | Some previous => PreferTo revision (es_revision previous)
  | None =>
      match existing with
      | None => true
      | Some existing =>
          match e_EITExtendedRevision (p_Event existing) with
          | Some previous => PreferTo revision previous
          | None => negb (negb (bool_decide (e_Extended (p_Event existing) = [])) && Other revision)
          end
      end
  end.

Definition noteTable (tables : gmap eitTable EITRevision) (service : ServiceKey) (revision : EITRevision) : gmap eitTable EITRevision :=
  match tables !! tableOf service revision with
  | Some latest => if rv_Reception latest <? rv_Reception revision then <[tableOf service revision := revision]> tables else tables
  | None => <[tableOf service revision := revision]> tables
  end.

Definition recordOne (states : gmap Z eitState) (tables : gmap eitTable EITRevision) (p : Program) (revision : option EITRevision) : gmap Z eitState * gmap eitTable EITRevision :=
  match revision with
  | None => (states, tables)
  | Some revision =>
      let skip := match states !! p_ID p with
                  | Some previous => PreferTo (es_revision previous) revision && (rv_Reception revision <? rv_Reception (es_revision previous))
                  | None => false
                  end in
      if skip then (states, tables)
      else (<[p_ID p := mkEitState revision (StartAtOrZero p + DurationOrZero p)]> states, noteTable tables (e_Key (p_Event p)) revision)
  end.

Definition recordProgram (m : ProgramManager) (p : Program) : ProgramManager :=
  let '(eit, tables) := recordOne (pm_eit m) (pm_eitTables m) p (e_EITRevision (p_Event p)) in
  let '(extended, tables) := recordOne (pm_eitExtended m) tables p (e_EITExtendedRevision (p_Event p)) in
  mkManager eit extended tables (pm_hasEvents m) (pm_outbox m).

Definition recordEIT (m : ProgramManager) (programs : list Program) : ProgramManager := foldl recordProgram m programs.

(** ** Merging *)

Definition withExtended (e : Event) (blocks : list ExtendedBlock) (revision : option EITRevision) : Event :=
  mkEvent revision (e_EITRevision e) (e_EITPresent e) (e_EITFollowing e) (e_EITSuspended e) (e_Key e) (e_EventID e)
    (e_StartAt e) (e_DurationMS e) (e_RunningStatus e) (e_FreeCA e) (e_Language e) (e_Name e) (e_Description e) (e_Genres e) (e_Videos e) (e_Audios e)
    blocks (e_Related e) (e_Parental e) (e_Series e).

Definition withRevisions (e : Event) (revision extended : option EITRevision) : Event :=
  mkEvent extended revision (e_EITPresent e) (e_EITFollowing e) (e_EITSuspended e) (e_Key e) (e_EventID e)
    (e_StartAt e) (e_DurationMS e) (e_RunningStatus e) (e_FreeCA e) (e_Language e) (e_Name e) (e_Description e) (e_Genres e) (e_Videos e) (e_Audios e)
    (e_Extended e) (e_Related e) (e_Parental e) (e_Series e).

Definition withSlots (e : Event) (present following suspended : bool) : Event :=
  mkEvent (e_EITExtendedRevision e) (e_EITRevision e) present following suspended (e_Key e) (e_EventID e)
    (e_StartAt e) (e_DurationMS e) (e_RunningStatus e) (e_FreeCA e) (e_Language e) (e_Name e) (e_Description e) (e_Genres e) (e_Videos e) (e_Audios e)
    (e_Extended e) (e_Related e) (e_Parental e) (e_Series e).

Definition preferPending (previous : option Program) (incoming : Program) : Program :=
  match previous with
  | None => incoming
  | Some previous =>
      let preferred := match e_EITRevision (p_Event previous), e_EITRevision (p_Event incoming) with
                       | Some r, Some r' => if PreferTo r' r then incoming else previous
                       | _, _ => incoming
                       end in
      let extended := match e_EITExtendedRevision (p_Event previous), e_EITExtendedRevision (p_Event incoming) with
                      | Some _, None => previous
                      | Some r, Some r' => if PreferTo r' r then incoming else previous
                      | None, _ => incoming
                      end in
      match e_EITExtendedRevision (p_Event extended) with
      | None => preferred
      | Some r => mkProgram (p_ID preferred) (withExtended (p_Event preferred) (e_Extended (p_Event extended)) (Some r))
      end
  end.

Definition mergeUpsertProgram (existing : option Program) (incoming : Program) : Program :=
  match existing with
  | None => incoming
  | Some existing =>
      let x := p_Event existing in
      let e := p_Event incoming in
      let slots := negb (e_EITPresent e) && negb (e_EITFollowing e) in
      mkProgram (p_ID incoming)
        (mkEvent (orOption (e_EITExtendedRevision e) (e_EITExtendedRevision x)) (orOption (e_EITRevision e) (e_EITRevision x))
          (if slots then e_EITPresent x else e_EITPresent e) (if slots then e_EITFollowing x else e_EITFollowing e) (e_EITSuspended e) (e_Key e) (e_EventID e)
          (e_StartAt e) (e_DurationMS e) (e_RunningStatus e) (e_FreeCA e) (orString (e_Language e) (e_Language x)) (orString (e_Name e) (e_Name x)) (orString (e_Description e) (e_Description x))
          (orList (e_Genres e) (e_Genres x)) (orList (e_Videos e) (e_Videos x)) (orList (e_Audios e) (e_Audios x)) (orList (e_Extended e) (e_Extended x))
          (orList (e_Related e) (e_Related x)) (orList (e_Parental e) (e_Parental x)) (orOption (e_Series e) (e_Series x)))
  end.

Definition inSlot (p : Program) : bool := e_EITPresent (p_Event p) || e_EITFollowing (p_Event p).

(** ** Operations of the database *)

Inductive dbOp :=
  | OpList (query : Query)
  | OpListByIDs (ids : list Z)
  | OpListByServiceFrom (networkID serviceID from : Z)
  | OpListEnded (cutoff : Z)
  | OpUpsertAndDelete (programs : list Program) (removed : list Z)
  | OpDeleteEnded (cutoff : Z)
  | OpReplace (networkID serviceID from : Z) (programs : list (option Program)).

Section Manager.
Context (fault : dbOp -> option error) (order : list Z -> list Z).

Definition dbRun {A} (op : dbOp) (c : go A) : go A := match fault op with Some e => Err e | None => c end.
Definition dbTry {A} (op : dbOp) (v : A) : go A := dbRun op (Ret v).

Definition serviceQuery (key : ServiceKey) (startAt endAt : option Z) : Query := mkQuery None (Some (k_NetworkID key)) (Some (k_ServiceID key)) None startAt endAt.

(** ** Upserting *)

(** [current] are the IDs in the slots; the stored programs that left them lose
    their marks, or are retired when they have no duration. *)
Definition threeHours : Z := 10800000.

Definition reconcileOne (observedAt : Z) (current : gset Z) (acc : list Program * gset Z) (p : Program) : list Program * gset Z :=
  let '(programs, retired) := acc in
  let e := p_Event p in
  if bool_decide (p_ID p ∈ current) then (programs, retired)
  else
    let overdue := (0 <? observedAt) && match e_StartAt e with Some startAt => startAt <? observedAt - threeHours | None => false end in
    if (DurationOrZero p <=? 0) && (e_EITPresent e || e_EITSuspended e || overdue) then (programs, {[p_ID p]} ∪ retired)
    else if negb (inSlot p) then (programs, retired)
    else (programs ++ [mkProgram (p_ID p) (withSlots e false false false)], retired).

Definition reconcilePresentFollowing (rows : programRows) (programs : list Program) (snapshot : PresentFollowingSnapshot) : go (list Program * gset Z) :=
  let query := serviceQuery (pf_Service snapshot) None None in
  stored ← dbTry (OpList query) (storeList rows query);
  Ret (foldl (reconcileOne (pf_ObservedAt snapshot) (list_to_set (map p_ID programs))) (programs, ∅) stored).

Definition addPending (acc : gmap Z Program * list Z) (p : Program) : gmap Z Program * list Z :=
  let '(pending, ids) := acc in
  (<[p_ID p := preferPending (pending !! p_ID p) p]> pending, match pending !! p_ID p with None => ids ++ [p_ID p] | Some _ => ids end).

Definition programsByID (programs : list Program) : gmap Z Program := foldl (fun m p => <[p_ID p := p]> m) ∅ programs.

Definition noteRevision (known tables : gmap eitTable EITRevision) (service : ServiceKey) (revision : option EITRevision) : gmap eitTable EITRevision :=
  match revision with
  | None => tables
  | Some revision =>
      let key := tableOf service revision in
      let previous := match tables !! key with Some previous => Some previous | None => known !! key end in
      <[key := match previous with
               | Some previous => if rv_Reception previous <? rv_Reception revision then revision else previous
               | None => revision
               end]> tables
  end.

Definition tableRevisions (m : ProgramManager) (pending : gmap Z Program) (ids : list Z) : gmap eitTable EITRevision :=
  foldl (fun tables p => noteRevision (pm_eitTables m) (noteRevision (pm_eitTables m) tables (e_Key (p_Event p)) (e_EITRevision (p_Event p))) (e_Key (p_Event p)) (e_EITExtendedRevision (p_Event p)))
    ∅ (omap (fun id => pending !! id) (order ids)).

(** What becomes of the program with an update: the result, and whether it was
    accepted.  Nothing becomes of an update that is not accepted for a program
    that is not stored. *)
Definition decideBasic (m : ProgramManager) (tables : gmap eitTable EITRevision) (pf : bool) (existing : option Program) (p : Program) : option (Program * bool) :=
  if acceptEIT m p tables existing then
    match existing with
    | Some x => if negb pf && bool_decide (e_EITRevision (p_Event p) <> None) && inSlot x then Some (mergeUpsertProgram (Some p) x, true) else Some (mergeUpsertProgram existing p, true)
    | None => Some (mergeUpsertProgram None p, true)
    end
  else
    match existing with
    | None => None
    | Some x =>
        let after := mergeUpsertProgram (Some p) x in
        Some (mkProgram (p_ID after) (withRevisions (p_Event after) (e_EITRevision (p_Event x)) (e_EITExtendedRevision (p_Event x))), false)
    end.

Definition decideExtended (m : ProgramManager) (tables : gmap eitTable EITRevision) (existing : option Program) (p : Program) (r : Program * bool) : Program * bool :=
  let '(after, accepted) := r in
  match e_EITExtendedRevision (p_Event p) with
  | None => (after, accepted)
  | Some revision =>
      if acceptExtended m p revision tables existing then (mkProgram (p_ID after) (withExtended (p_Event after) (e_Extended (p_Event p)) (Some revision)), true)
      else match existing with
      | Some x => (mkProgram (p_ID after) (withExtended (p_Event after) (e_Extended (p_Event x)) (e_EITExtendedRevision (p_Event x))), accepted)
      | None => (mkProgram (p_ID after) (withExtended (p_Event after) [] None), accepted)
      end
  end.

Definition decideSlots (pf : bool) (existing : option Program) (p : Program) (r : Program * bool) : Program * bool :=
  let '(after, accepted) := r in
  if pf then
    let e := p_Event p in
    let suspended := e_EITFollowing e && match existing with Some x => e_EITPresent (p_Event x) || e_EITSuspended (p_Event x) | None => false end in
    (mkProgram (p_ID after) (withSlots (p_Event after) (e_EITPresent e) (e_EITFollowing e) suspended), accepted)
  else (after, accepted).

Definition decideOne (m : ProgramManager) (tables : gmap eitTable EITRevision) (pf : bool) (existing : option Program) (p : Program) : option (Program * bool) :=
  decideSlots pf existing p <$> (decideExtended m tables existing p <$> decideBasic m tables pf existing p).

(** The accepted programs, and an event for every program to write. *)
Definition decideAll (m : ProgramManager) (tables : gmap eitTable EITRevision) (pf : bool) (before pending : gmap Z Program) (acc : gmap Z Program * list programEvent) (id : Z)
    : gmap Z Program * list programEvent :=
  let '(accepted, events) := acc in
  match pending !! id with
  | None => acc
  | Some p =>
      match decideOne m tables pf (before !! id) p with
      | None => acc
      | Some (after, ok) =>
          let accepted := if (ok : bool) then <[id := after]> accepted else accepted in
          match before !! id with
          | None => (accepted, events ++ [ProgramCreated after])
          | Some existing => if sameProgram existing after then (accepted, events) else (accepted, events ++ [ProgramUpdated after])
          end
      end
  end.

Definition subject (ev : programEvent) : option Program := match ev with ProgramCreated p | ProgramUpdated p => Some p | ProgramRemoved _ => None end.

(** ** Overlaps *)

Record placing := mkPlacing {
  pl_removed : gset Z;
  pl_blocked : gset Z;
  pl_written : gmap (Z * Z) (gmap Z Program)
}.

Definition serviceOf (p : Program) : Z * Z := (k_NetworkID (e_Key (p_Event p)), k_ServiceID (e_Key (p_Event p))).

Definition previousRevision (m : ProgramManager) (other : Program) : option EITRevision :=
  match e_EITRevision (p_Event other) with Some r => Some r | None => es_revision <$> pm_eit m !! p_ID other end.

Definition isBlocked (m : ProgramManager) (p other : Program) : bool :=
  match e_EITRevision (p_Event p) with
  | None => false
  | Some revision => match previousRevision m other with None => Other revision | Some previous => negb (PreferTo revision previous) end
  end.

(** The programs that [p] removes; [None] when one of them keepsRow [p] out. *)
Fixpoint scanOverlaps (m : ProgramManager) (pending : gmap Z Program) (pf : bool) (p : Program) (others : list Program) : option (list Z) :=
  match others with
  | [] => Some []
  | other :: others =>
      let start := StartAtOrZero p in
      let finish := start + DurationOrZero p in
      let otherStart := StartAtOrZero other in
      if (p_ID other =? p_ID p) || negb (bool_decide (serviceOf other = serviceOf p)) || bool_decide (e_StartAt (p_Event other) = None) || (DurationOrZero other <=? 0)
      then scanOverlaps m pending pf p others
      else if pf && inSlot other && match pending !! p_ID other with Some slot => inSlot slot | None => false end then scanOverlaps m pending pf p others
      else if inSlot other && negb match pending !! p_ID p with Some p => e_EITPresent (p_Event p) | None => false end then scanOverlaps m pending pf p others
      else if (start <? otherStart + DurationOrZero other) && (otherStart <? finish) then
        if isBlocked m p other then None else (cons (p_ID other)) <$> scanOverlaps m pending pf p others
      else scanOverlaps m pending pf p others
  end.

Definition placeOne (m : ProgramManager) (rows : programRows) (pending before : gmap Z Program) (pf : bool) (pl : placing) (p : Program) : go placing :=
  let service := serviceOf p in
  let written := <[p_ID p := p]> (default ∅ (pl_written pl !! service)) in
  let removed := pl_removed pl ∖ {[p_ID p]} in
  let pl := mkPlacing removed (pl_blocked pl) (<[service := written]> (pl_written pl)) in
  let sameTime := match before !! p_ID p with Some old => (StartAtOrZero old =? StartAtOrZero p) && (DurationOrZero old =? DurationOrZero p) | None => false end in
  if sameTime then Ret pl
  else if bool_decide (e_StartAt (p_Event p) = None) || (DurationOrZero p <=? 0) then Ret pl
  else
    let query := serviceQuery (e_Key (p_Event p)) (Some (StartAtOrZero p)) (Some (StartAtOrZero p + DurationOrZero p)) in
    candidates ← dbTry (OpList query) (storeList rows query);
    let latest := written ∪ programsByID candidates in
    match scanOverlaps m pending pf p (omap (fun id => latest !! id) (order (map fst (map_to_list latest)))) with
    | None =>
        let written := match before !! p_ID p with Some old => <[p_ID p := old]> written | None => delete (p_ID p) written end in
        Ret (mkPlacing removed ({[p_ID p]} ∪ pl_blocked pl) (<[service := written]> (pl_written pl)))
    | Some overlaps => Ret (mkPlacing (removed ∪ list_to_set overlaps) (pl_blocked pl) (pl_written pl))
    end.

Fixpoint placeAll (m : ProgramManager) (rows : programRows) (pending before : gmap Z Program) (pf : bool) (pl : placing) (toWrite : list Program) : go placing :=
  match toWrite with
  | [] => Ret pl
  | p :: toWrite => pl ← placeOne m rows pending before pf pl p; placeAll m rows pending before pf pl toWrite
  end.

(** Neither removed nor kept out. *)
Definition isKept (pl : placing) (id : Z) : bool := negb (bool_decide (id ∈ pl_removed pl)) && negb (bool_decide (id ∈ pl_blocked pl)).
Definition keptEvent (pl : placing) (ev : programEvent) : bool := match subject ev with Some p => isKept pl (p_ID p) | None => false end.

Definition acceptedPrograms (accepted : gmap Z Program) : list Program := omap (fun id => accepted !! id) (order (map fst (map_to_list accepted))).

Definition upsertPrograms (m : ProgramManager) (rows : programRows) (programs : list Program) (pf : option PresentFollowingSnapshot) : go (ProgramManager * programRows) :=
  r ← match pf with None => Ret (programs, ∅) | Some snapshot => reconcilePresentFollowing rows programs snapshot end;
  let '(programs, retired) := r in
  let hasPf := bool_decide (pf <> None) in
  let '(pending, ids) := foldl addPending (∅, []) programs in
  existing ← dbTry (OpListByIDs ids) (storeListByIDs rows ids);
  let before := programsByID existing in
  let tables := tableRevisions m pending ids in
  let '(accepted, events) := foldl (decideAll m tables hasPf before pending) (∅, []) ids in
  let toWrite := omap subject events in
  if bool_decide (toWrite = []) && bool_decide (retired = ∅) then Ret (recordEIT m (acceptedPrograms accepted), rows)
  else
    pl ← placeAll m rows pending before hasPf (mkPlacing retired ∅ ∅) toWrite;
    let kept := filter (fun p => isKept pl (p_ID p) = true) toWrite in
    let removedIDs := order (elements (pl_removed pl)) in
    rows ← dbTry (OpUpsertAndDelete kept removedIDs) (storeUpsertAndDelete rows kept removedIDs);
    let m := recordEIT m (acceptedPrograms (filter (fun a => isKept pl a.1 = true) accepted)) in
    let m := foldl enqueueProgramEvent m (filter (fun ev => keptEvent pl ev = true) events) in
    Ret (foldl enqueueProgramEvent m (map ProgramRemoved removedIDs), rows).

(** The programs that are not nil. *)
Definition nonNil (programs : list (option Program)) : list Program := omap (fun p => p) programs.

Definition UpsertPrograms (m : ProgramManager) (rows : programRows) (programs : list (option Program)) : go (ProgramManager * programRows) :=
  upsertPrograms m rows (nonNil programs) None.

Definition UpsertEvents (m : ProgramManager) (rows : programRows) (events : list Event) : go (ProgramManager * programRows) :=
  match events with [] => Ret (m, rows) | _ => upsertPrograms m rows (map FromEvent events) None end.

Definition UpsertPresentFollowing (m : ProgramManager) (rows : programRows) (snapshot : PresentFollowingSnapshot) : go (ProgramManager * programRows) :=
  upsertPrograms m rows (map FromEvent (pf_Events snapshot)) (Some snapshot).

(** The first component is the manager when the rest fails. *)
Definition UpsertSchedule (m : ProgramManager) (rows : programRows) (service : ServiceKey) (revisions : list EITRevision) (events : list Event) : ProgramManager * go (ProgramManager * programRows) :=
  let m := mkManager (pm_eit m) (pm_eitExtended m) (foldl (fun tables r => noteTable tables service r) (pm_eitTables m) revisions) (pm_hasEvents m) (pm_outbox m) in
  (m, upsertPrograms m rows (map FromEvent events) None).

(** ** Removing *)

Definition forgetProgram (m : ProgramManager) (id : Z) : ProgramManager :=
  mkManager (delete id (pm_eit m)) (delete id (pm_eitExtended m)) (pm_eitTables m) (pm_hasEvents m) (pm_outbox m).

Definition RemovePrograms (m : ProgramManager) (rows : programRows) (ids : list Z) : go (ProgramManager * programRows) :=
  existing ← dbTry (OpListByIDs ids) (storeListByIDs rows ids);
  let removed := map p_ID existing in
  match removed with
  | [] => Ret (m, rows)
  | _ =>
      rows ← dbTry (OpUpsertAndDelete [] removed) (storeUpsertAndDelete rows [] removed);
      Ret (foldl (fun m id => enqueueProgramEvent (forgetProgram m id) (ProgramRemoved id)) m removed, rows)
  end.

Definition stillOn (cutoff : Z) (state : eitState) : bool := negb ((0 <? es_endAt state) && (es_endAt state <? cutoff)).

Definition DeleteEndedBefore (m : ProgramManager) (rows : programRows) (cutoff : Z) : go (ProgramManager * programRows) :=
  removed ← dbTry (OpListEnded cutoff) (storeListEndedIDsBefore rows cutoff);
  rows ← dbTry (OpDeleteEnded cutoff) (storeDeleteEndedBefore rows cutoff);
  let m := mkManager (filter (fun s => stillOn cutoff s.2 = true) (pm_eit m)) (filter (fun s => stillOn cutoff s.2 = true) (pm_eitExtended m)) (pm_eitTables m) (pm_hasEvents m) (pm_outbox m) in
  Ret (foldl enqueueProgramEvent m (map ProgramRemoved removed), rows).

Definition DeleteExpired (m : ProgramManager) (rows : programRows) (nowMS retentionDays : Z) : go (ProgramManager * programRows) :=
  if retentionDays <=? 0 then Ret (m, rows) else DeleteEndedBefore m rows (nowMS - retentionDays * 86400000).

Definition identicalServicePrograms (before : gmap Z Program) (incoming : list (option Program)) : bool :=
  let incoming := nonNil incoming in
  forallb (fun p => match before !! p_ID p with Some existing => sameProgram existing p | None => false end) incoming && (len incoming =? Z.of_nat (size before)).

(** The events of the new programs, and the programs that are left. *)
Fixpoint replaceEvents (before : gmap Z Program) (programs : list Program) : list programEvent * gmap Z Program :=
  match programs with
  | [] => ([], before)
  | p :: programs =>
      let '(events, rest) := replaceEvents (delete (p_ID p) before) programs in
      match before !! p_ID p with
      | None => (ProgramCreated p :: events, rest)
      | Some existing => if sameProgram existing p then (events, rest) else (ProgramUpdated p :: events, rest)
      end
  end.

Definition ReplaceServicePrograms (m : ProgramManager) (rows : programRows) (networkID serviceID from : Z) (programs : list (option Program)) : go (ProgramManager * programRows) :=
  beforeList ← dbTry (OpListByServiceFrom networkID serviceID from) (storeListByServiceFrom rows networkID serviceID from);
  let before := programsByID beforeList in
  if identicalServicePrograms before programs then Ret (m, rows)
  else
    rows ← dbRun (OpReplace networkID serviceID from programs) (storeReplaceServicePrograms rows networkID serviceID from programs);
    let m := foldl forgetProgram (foldl forgetProgram m (map p_ID beforeList)) (map p_ID (nonNil programs)) in
    let '(events, rest) := replaceEvents before (nonNil programs) in
    let m := foldl enqueueProgramEvent m events in
    Ret (foldl enqueueProgramEvent m (map ProgramRemoved (order (map fst (map_to_list rest)))), rows).
End Manager.

(** ** Facts about the store *)

Lemma storeDeletes_lookup rows ids id : storeDeletes rows ids !! id = if decide (id ∈ ids) then None else rows !! id.
Proof.
  revert rows. unfold storeDeletes. induction ids as [|x ids IH]; intros rows; cbn [foldl]; [by rewrite decide_False by apply not_elem_of_nil|].
  rewrite IH. destruct (decide (id ∈ ids)) as [H|H]; [by rewrite decide_True by (by right)|]. destruct (decide (id = x)) as [-> |Hne]; [by rewrite lookup_delete_eq, decide_True by left|].
  rewrite lookup_delete_ne by done. rewrite decide_False; [done|]. by intros [|]%elem_of_cons.
Qed.

Lemma storeDeletes_upserts rows programs ids : (forall p, p ∈ programs -> p_ID p ∉ ids) ->
  storeDeletes (storeUpserts rows programs) ids = storeUpserts (storeDeletes rows ids) programs.
Proof.
  revert rows. unfold storeUpserts. induction programs as [|p programs IH]; intros rows H; cbn [foldl]; [done|]. rewrite IH by (intros q Hq; apply H; by right). f_equal.
  apply map_eq. intros id. rewrite storeDeletes_lookup. destruct (decide (p_ID p = id)) as [<- |Hne]; [rewrite lookup_insert_eq, decide_False by (apply H; left); by rewrite lookup_insert_eq|].
  by rewrite !lookup_insert_ne, storeDeletes_lookup by done.
Qed.

Lemma inOrder_perm rows : inOrder rows ≡ₚ rows.
Proof. unfold inOrder. etransitivity; apply sortStable_spec. Qed.

Lemma programsByID_app l p : programsByID (l ++ [p]) = <[p_ID p := p]> (programsByID l).
Proof. unfold programsByID. by rewrite foldl_app. Qed.

Lemma programsByID_lookup l id : NoDup (map p_ID l) -> forall p, programsByID l !! id = Some p <-> p ∈ l /\ p_ID p = id.
Proof.
  induction l as [|q l IH] using rev_ind; intros Hnd p; [cbn; rewrite lookup_empty; split; [done|intros [H _]; by apply not_elem_of_nil in H]|].
  rewrite map_app in Hnd. apply NoDup_app in Hnd as (Hnd & Hdis & _). rewrite programsByID_app, elem_of_app, list_elem_of_singleton. destruct (decide (p_ID q = id)) as [<- |Hne].
  - rewrite lookup_insert_eq. split; [intros [= ->]; by split; [right|]|]. intros [[H| ->] E]; [|done]. exfalso. apply (Hdis (p_ID p)); [by apply list_elem_of_fmap_2|]. rewrite E. cbn. left.
  - rewrite lookup_insert_ne, IH by done. split; [intros []; by split; [left|]|]. intros [[H| ->] E]; [done|congruence].
Qed.

(** What a query gives, by ID. *)
Lemma programsByID_rows (rows : programRows) id : programsByID (map (fun r => fromGenProgram r.1 r.2) (inOrder (map_to_list rows))) !! id = fromGenProgram id <$> rows !! id.
Proof.
  set (l := map _ _). assert (NoDup (map p_ID l)) as Hnd.
  { unfold l. rewrite map_map. cbn. rewrite (Permutation_map fst (inOrder_perm (map_to_list rows))). apply NoDup_fst_map_to_list. }
  assert (forall p, p ∈ l /\ p_ID p = id <-> fromGenProgram id <$> rows !! id = Some p) as H.
  { intros p. unfold l. rewrite list_elem_of_fmap, fmap_Some. setoid_rewrite (inOrder_perm (map_to_list rows)). split.
    - intros [([id' r] & -> & Hr%elem_of_map_to_list) E]. cbn in *. subst id'. by exists r.
    - intros (r & Hr & ->). split; [|done]. exists (id, r). split; [done|]. by apply elem_of_map_to_list. }
  destruct (fromGenProgram id <$> rows !! id) as [p|] eqn:E.
  - apply programsByID_lookup; [done|]. by apply H.
  - destruct (programsByID l !! id) as [p|] eqn:E'; [|done]. apply programsByID_lookup in E'; [|done]. apply H in E'. congruence.
Qed.

Lemma before_lookup rows ids id : programsByID (storeListByIDs rows ids) !! id = if decide (id ∈ ids) then fromGenProgram id <$> rows !! id else None.
Proof.
  unfold storeListByIDs. destruct ids as [|x ids]; [by rewrite decide_False by apply not_elem_of_nil|]. rewrite programsByID_rows, map_lookup_filter.
  destruct (rows !! id) as [r|]; cbn; [|by case_decide]. repeat case_guard; repeat case_decide; naive_solver.
Qed.

(** ** Events and rows *)

Definition applyEvent (rows : programRows) (ev : programEvent) : programRows :=
  match ev with ProgramCreated p | ProgramUpdated p => <[p_ID p := toUpsertProgramParams p]> rows | ProgramRemoved id => delete id rows end.

Lemma apply_removed rows ids : foldl applyEvent rows (map ProgramRemoved ids) = storeDeletes rows ids.
Proof. revert rows. unfold storeDeletes. induction ids as [|id ids IH]; intros rows; [done|]. cbn. apply IH. Qed.

Lemma apply_written rows pl events : foldl applyEvent rows (filter (fun ev => keptEvent pl ev = true) events) = storeUpserts rows (filter (fun p => isKept pl (p_ID p) = true) (omap subject events)).
Proof.
  revert rows. unfold storeUpserts. induction events as [|ev events IH]; intros rows; [done|]. rewrite filter_cons. unfold keptEvent at 1.
  destruct ev as [p|p|id]; cbn [subject omap list_omap]; rewrite ?filter_cons; repeat case_decide; try done; cbn [foldl applyEvent]; apply IH.
Qed.

Lemma enqueue_all m evs : pm_hasEvents m = true -> pm_outbox (foldl enqueueProgramEvent m evs) = pm_outbox m ++ evs /\ pm_hasEvents (foldl enqueueProgramEvent m evs) = true.
Proof.
  revert m. induction evs as [|ev evs IH]; intros m H; [by rewrite app_nil_r|]. cbn [foldl]. unfold enqueueProgramEvent at 2 4. rewrite H. destruct (IH (mkManager (pm_eit m) (pm_eitExtended m) (pm_eitTables m) true (pm_outbox m ++ [ev])) eq_refl) as [-> ->].
  cbn. by rewrite <- app_assoc.
Qed.

Lemma recordEIT_queue m programs : pm_outbox (recordEIT m programs) = pm_outbox m /\ pm_hasEvents (recordEIT m programs) = pm_hasEvents m.
Proof.
  unfold recordEIT. revert m. induction programs as [|p programs IH]; intros m; [done|]. cbn [foldl]. destruct (IH (recordProgram m p)) as [-> ->]. unfold recordProgram.
  destruct (recordOne (pm_eit m) _ _ _) as [? ?]. by destruct (recordOne _ _ _ _).
Qed.

(** ** Identities *)

Definition program_ok (p : Program) : Prop := ids_ok (p_Event p).
Definition ident (p : Program) : Z * ServiceKey * Z := (p_ID p, e_Key (p_Event p), e_EventID (p_Event p)).

Lemma program_ok_ident p q : ident p = ident q -> program_ok q -> program_ok p.
Proof. unfold program_ok, ids_ok. intros [= E1 E2 E3]. by rewrite E2, E3. Qed.

Lemma fromGen_ok id r : p_ID (fromGenProgram id r) = id /\ program_ok (fromGenProgram id r).
Proof.
  split; [done|]. unfold program_ok, ids_ok, fromGenProgram, key_ok. cbn [p_Event]. destruct (r_Event r); cbn [applyTo e_Key e_EventID k_NetworkID k_StreamID k_ServiceID];
    pose proof (u16_range (r_NetworkID r)); pose proof (u16_range (r_StreamID r)); pose proof (u16_range (r_ServiceID r)); pose proof (u16_range (r_EventID r)); conjs; lia.
Qed.

Lemma merge_ident existing p : ident (mergeUpsertProgram existing p) = ident p.
Proof. by destruct existing. Qed.

Lemma preferPending_ident previous p : ident (preferPending previous p) = ident p \/ exists q, previous = Some q /\ ident (preferPending previous p) = ident q.
Proof.
  destruct previous as [q|]; [|by left]. unfold preferPending. cbv zeta.
  repeat case_match; first [left; reflexivity|right; exists q; split; reflexivity].
Qed.

Lemma decideOne_ident m tables pf existing p after ok : decideOne m tables pf existing p = Some (after, ok) -> ident after = ident p \/ exists x, existing = Some x /\ ident after = ident x.
Proof.
  unfold decideOne. intros H. apply fmap_Some in H as ([a2 o2] & H & E2). apply fmap_Some in H as ([a1 o1] & H & E1).
  assert (ident after = ident a2) as -> by (unfold decideSlots in E2; destruct pf; by injection E2 as -> ->).
  assert (ident a2 = ident a1) as -> by (unfold decideExtended in E1; repeat case_match; by injection E1 as -> ->).
  unfold decideBasic in H. destruct (acceptEIT m p tables existing); destruct existing as [x|]; try (destruct (_ && _ && _)); simplify_eq; rewrite ?merge_ident; eauto.
Qed.

(** What is known of the pending programs. *)
Lemma pending_spec programs pending ids : Forall program_ok programs -> foldl addPending (∅, []) programs = (pending, ids) ->
  forall id p, pending !! id = Some p -> p_ID p = id /\ program_ok p.
Proof.
  intros Hall. assert (forall acc, (forall id p, acc.1 !! id = Some p -> p_ID p = id /\ program_ok p) -> forall id p, (foldl addPending acc programs).1 !! id = Some p -> p_ID p = id /\ program_ok p) as H.
  { induction Hall as [|q programs Hq _ IH]; intros [pend l] Hacc; [done|]. cbn [foldl]. apply IH. intros id p. cbn [addPending fst]. destruct (decide (p_ID q = id)) as [<- |Hne]; [|rewrite lookup_insert_ne by done; apply Hacc].
    rewrite lookup_insert_eq. intros [= <-]. destruct (preferPending_ident (pend !! p_ID q) q) as [E|(x & Ex & E)].
    - split; [by injection E|by apply (program_ok_ident _ q)].
    - destruct (Hacc _ _ Ex). split; [injection E; congruence|by apply (program_ok_ident _ x)]. }
  intros E. specialize (H (∅, [])). rewrite E in H. apply H. cbn. intros id p. by rewrite lookup_empty.
Qed.

(** An event that says what happens to a program. *)
Definition event_true (rows : programRows) (ev : programEvent) : Prop :=
  match ev with
  | ProgramCreated p => program_ok p /\ rows !! p_ID p = None
  | ProgramUpdated p => program_ok p /\ is_Some (rows !! p_ID p)
  | ProgramRemoved _ => True
  end.

Lemma decideAll_events m tables pf rows pending ids : (forall id p, pending !! id = Some p -> p_ID p = id /\ program_ok p) ->
  Forall (event_true rows) (foldl (decideAll m tables pf (programsByID (storeListByIDs rows ids)) pending) (∅, []) ids).2.
Proof.
  intros Hp. set (before := programsByID (storeListByIDs rows ids)).
  assert (forall l acc, (forall id, id ∈ l -> id ∈ ids) -> Forall (event_true rows) acc.2 -> Forall (event_true rows) (foldl (decideAll m tables pf before pending) acc l).2) as H; [|by apply H].
  induction l as [|id l IH]; intros [accepted events] Hl Hacc; [done|]. cbn [foldl]. apply IH; [intros x Hx; apply Hl; by right|]. unfold decideAll. cbn [snd] in *.
  destruct (pending !! id) as [p|] eqn:Epend; [|done]. destruct (decideOne m tables pf (before !! id) p) as [[after ok]|] eqn:Ed; [|done].
  assert (before !! id = fromGenProgram id <$> rows !! id) as Eb by (unfold before; rewrite before_lookup; by rewrite decide_True by (apply Hl; left)).
  destruct (Hp _ _ Epend) as [Eid Hok]. assert (p_ID after = id /\ program_ok after) as [Ea Ha].
  { destruct (decideOne_ident _ _ _ _ _ _ _ Ed) as [E|(x & Ex & E)]; [split; [injection E; congruence|by apply (program_ok_ident _ p)]|].
    rewrite Eb in Ex. apply fmap_Some in Ex as (r & _ & ->). destruct (fromGen_ok id r). split; [injection E; congruence|by eapply program_ok_ident]. }
  rewrite Eb. destruct (rows !! id) as [r|] eqn:Er; cbn [fmap option_fmap option_map].
  - destruct (sameProgram (fromGenProgram id r) after); [done|]. apply Forall_app. split; [done|]. apply Forall_singleton. cbn. rewrite Ea, Er. by split.
  - apply Forall_app. split; [done|]. apply Forall_singleton. cbn. by rewrite Ea, Er.
Qed.

Section Mirror.
Context (fault : dbOp -> option error) (order : list Z -> list Z).
Hypothesis order_perm : forall l, order l ≡ₚ l.

Lemma wp_dbTry {A} op (v : A) (Q : A -> Prop) : Q v -> wp (dbTry fault op v) Q.
Proof. intros H. unfold dbTry, dbRun. by destruct (fault op). Qed.

Lemma placeAll_safe m rows pending before pf pl toWrite : wp (placeAll fault order m rows pending before pf pl toWrite) (fun _ => True).
Proof.
  revert pl. induction toWrite as [|p toWrite IH]; intros pl; [done|]. cbn [placeAll]. apply wp_bind. apply (wp_mono _ (fun _ => True)); [|intros pl' _; apply IH]. unfold placeOne. cbv zeta.
  destruct (match before !! p_ID p with Some _ => _ | None => _ end); [done|]. destruct (_ || _); [done|]. apply wp_bind, wp_dbTry. by destruct (scanOverlaps _ _ _ _ _).
Qed.

Lemma reconcile_ok rows programs snapshot : Forall program_ok programs -> wp (reconcilePresentFollowing fault rows programs snapshot) (fun r => Forall program_ok r.1).
Proof.
  intros Hp. unfold reconcilePresentFollowing. cbv zeta. apply wp_bind, wp_dbTry. apply wp_ret.
  assert (Forall program_ok (storeList rows (serviceQuery (pf_Service snapshot) None None))) as Hs.
  { unfold storeList. apply Forall_forall. intros p (r & -> & _)%list_elem_of_fmap. apply fromGen_ok. }
  revert Hs. generalize (storeList rows (serviceQuery (pf_Service snapshot) None None)) as stored. generalize (list_to_set (map p_ID programs) : gset Z) as current. intros current.
  generalize (∅ : gset Z) as retired. revert programs Hp. intros programs Hp retired stored Hs. revert programs Hp retired. induction Hs as [|p stored Hok _ IH]; intros programs Hp retired; [done|]. cbn [foldl].
  destruct (reconcileOne (pf_ObservedAt snapshot) current (programs, retired) p) as [programs' retired'] eqn:E. apply IH. unfold reconcileOne in E. cbv zeta in E.
  repeat case_match; simplify_eq; try done; (apply Forall_app; split; [done|]; by apply Forall_singleton).
Qed.

(** The events [evs] that were queued tell the change from [rows] to [rows']. *)
Definition announcedBy (m : ProgramManager) (rows : programRows) (m' : ProgramManager) (rows' : programRows) (evs : list programEvent) : Prop :=
  pm_hasEvents m' = pm_hasEvents m /\ (pm_hasEvents m = true -> pm_outbox m' = pm_outbox m ++ evs) /\ foldl applyEvent rows evs = rows'.

Lemma upsert_announced m rows programs pf : Forall program_ok programs ->
  wp (upsertPrograms fault order m rows programs pf) (fun '(m', rows') => exists evs, announcedBy m rows m' rows' evs /\ Forall (event_true rows) evs).
Proof.
  intros Hp. unfold upsertPrograms. apply wp_bind. eapply wp_mono with (P := fun r => Forall program_ok r.1); [destruct pf; [by apply reconcile_ok|by apply wp_ret]|].
  intros [programs' retired] Hp'. cbn [fst] in Hp'. destruct (foldl addPending (∅, []) programs') as [pending ids] eqn:Epend. apply wp_bind, wp_dbTry.
  destruct (foldl (decideAll _ _ _ _ _) (∅, []) ids) as [accepted events] eqn:Edec. pose proof (decideAll_events m (tableRevisions order m pending ids) (bool_decide (pf <> None)) rows pending ids (pending_spec _ _ _ Hp' Epend)) as Hev.
  rewrite Edec in Hev. cbn [snd] in Hev. case_match.
  - apply wp_ret. exists []. destruct (recordEIT_queue m (acceptedPrograms order accepted)) as [E1 E2]. split; [|done]. split; [done|]. by rewrite E1, app_nil_r.
  - apply wp_bind. eapply wp_mono; [apply placeAll_safe|]. intros pl _. apply wp_bind, wp_dbTry, wp_ret. set (removedIDs := order (elements (pl_removed pl))). set (kept := filter (fun ev => keptEvent pl ev = true) events).
    destruct (recordEIT_queue m (acceptedPrograms order (filter (fun a => isKept pl a.1 = true) accepted))) as [E1 E2]. set (m1 := recordEIT _ _) in *. exists (kept ++ map ProgramRemoved removedIDs). split; [split; [|split]|].
    + destruct (pm_hasEvents m) eqn:Eh; [by destruct (enqueue_all m1 kept E2) as [_ E3], (enqueue_all (foldl enqueueProgramEvent m1 kept) (map ProgramRemoved removedIDs) E3)|].
      assert (forall l m0, pm_hasEvents m0 = false -> foldl enqueueProgramEvent m0 l = m0) as Hoff by (induction l as [|ev l IHl]; intros m0 H0; [done|]; cbn [foldl]; unfold enqueueProgramEvent at 2; rewrite H0; by apply IHl). by rewrite !Hoff, E2 by (by rewrite ?Hoff, E2).
    + intros Eh. rewrite Eh in E2. destruct (enqueue_all m1 kept E2) as [E3 E4], (enqueue_all (foldl enqueueProgramEvent m1 kept) (map ProgramRemoved removedIDs) E4) as [E5 _]. by rewrite E5, E3, E1, app_assoc.
    + unfold kept. rewrite foldl_app, apply_removed, apply_written. unfold storeUpsertAndDelete. apply storeDeletes_upserts. intros p [Hk _]%list_elem_of_filter Hin. unfold removedIDs in Hin. rewrite order_perm in Hin.
      apply elem_of_elements in Hin. unfold isKept in Hk. rewrite bool_decide_eq_true_2 in Hk by done. done.
    + apply Forall_app. split; [apply Forall_forall; intros ev [_ Hin]%list_elem_of_filter; by eapply Forall_forall in Hin|]. apply Forall_forall. by intros ev (id & -> & _)%list_elem_of_fmap.
Qed.
End Mirror.

(** ** The other operations *)

Definition rows_ok (rows : programRows) : Prop := forall id r, rows !! id = Some r -> toUpsertProgramParams (fromGenProgram id r) = r.

Definition event_fine (ev : programEvent) : Prop := match subject ev with Some p => program_ok p | None => True end.

Lemma apply_rows_ok rows evs : rows_ok rows -> Forall event_fine evs -> rows_ok (foldl applyEvent rows evs).
Proof.
  intros Hr He. revert rows Hr. induction He as [|ev evs Hev _ IH]; intros rows Hr; [done|]. cbn [foldl]. apply IH.
  assert (forall p, program_ok p -> rows_ok (<[p_ID p := toUpsertProgramParams p]> rows)) as Hins.
  { intros p Hp id r. destruct (decide (p_ID p = id)) as [<- |Hne]; [rewrite lookup_insert_eq; intros [= <-]; by rewrite read_back, stored_again|rewrite lookup_insert_ne by done; apply Hr]. }
  destruct ev as [p|p|id]; cbn; [by apply Hins..|]. intros x r [_ H]%lookup_delete_Some. by apply Hr.
Qed.

Lemma removed_fine ids : Forall event_fine (map ProgramRemoved ids).
Proof. apply Forall_forall. by intros ev (id & -> & _)%list_elem_of_fmap. Qed.

Lemma forget_queue m ids : pm_outbox (foldl forgetProgram m ids) = pm_outbox m /\ pm_hasEvents (foldl forgetProgram m ids) = pm_hasEvents m.
Proof. revert m. induction ids as [|id ids IH]; intros m; [done|]. cbn [foldl]. by destruct (IH (forgetProgram m id)) as [-> ->]. Qed.

Lemma enqueue_hasEvents m evs : pm_hasEvents (foldl enqueueProgramEvent m evs) = pm_hasEvents m.
Proof. revert m. induction evs as [|ev evs IH]; intros m; [done|]. cbn [foldl]. rewrite IH. unfold enqueueProgramEvent. by destruct (pm_hasEvents m) eqn:E. Qed.

Lemma removing_queue m ids : let m' := foldl (fun m id => enqueueProgramEvent (forgetProgram m id) (ProgramRemoved id)) m ids in
  pm_hasEvents m' = pm_hasEvents m /\ (pm_hasEvents m = true -> pm_outbox m' = pm_outbox m ++ map ProgramRemoved ids).
Proof.
  revert m. induction ids as [|id ids IH]; intros m; cbv zeta; cbn [foldl map]; [by rewrite app_nil_r|]. destruct (IH (enqueueProgramEvent (forgetProgram m id) (ProgramRemoved id))) as [E1 E2].
  rewrite E1. unfold enqueueProgramEvent in *. cbn [forgetProgram pm_hasEvents pm_outbox pm_eit pm_eitExtended pm_eitTables] in *. destruct (pm_hasEvents m) eqn:E; cbn [pm_hasEvents pm_outbox] in *; [|by split].
  split; [done|]. intros _. rewrite E2 by done. by rewrite <- app_assoc.
Qed.

(** The events of a replacement, and the rows they lead to. *)
Lemma replace_events programs : forall before M N events rest, Forall program_ok programs -> replaceEvents before programs = (events, rest) ->
  (forall id, before !! id = None -> M !! id = N !! id) -> (forall id x, before !! id = Some x -> M !! id = Some (toUpsertProgramParams x) /\ N !! id = None) ->
  Forall event_fine events /\ storeDeletes (foldl applyEvent M events) (map fst (map_to_list rest)) = storeUpserts N programs.
Proof.
  induction programs as [|p programs IH]; intros before M N events rest Hp E Hout Hin; cbn [replaceEvents] in E.
  - injection E as <- <-. split; [done|]. cbn. apply map_eq. intros id. rewrite storeDeletes_lookup. destruct (before !! id) as [x|] eqn:Eb.
    + destruct (Hin _ _ Eb) as [_ ->]. rewrite decide_True; [done|]. apply list_elem_of_fmap. exists (id, x). split; [done|]. by apply elem_of_map_to_list.
    + rewrite decide_False; [by apply Hout|]. intros ([id' x] & -> & Hx%elem_of_map_to_list)%list_elem_of_fmap. cbn in Eb. congruence.
  - apply Forall_cons in Hp as [Hpp Hp]. destruct (replaceEvents (delete (p_ID p) before) programs) as [events' rest'] eqn:E'.
    assert (forall M', (forall id, id <> p_ID p -> M' !! id = M !! id) -> M' !! p_ID p = Some (toUpsertProgramParams p) ->
      Forall event_fine events' /\ storeDeletes (foldl applyEvent M' events') (map fst (map_to_list rest')) = storeUpserts (<[p_ID p := toUpsertProgramParams p]> N) programs) as Hstep.
    { intros M' Hne Heq. apply (IH (delete (p_ID p) before)); try done.
      - intros id Hid. destruct (decide (id = p_ID p)) as [-> |Hx]; [by rewrite lookup_insert_eq|]. rewrite lookup_insert_ne, Hne by done. apply Hout. by rewrite lookup_delete_ne in Hid.
      - intros id x [Hx Hb]%lookup_delete_Some. rewrite lookup_insert_ne, Hne by done. by apply Hin. }
    assert (Forall event_fine events' /\ storeDeletes (foldl applyEvent (<[p_ID p := toUpsertProgramParams p]> M) events') (map fst (map_to_list rest')) = storeUpserts (<[p_ID p := toUpsertProgramParams p]> N) programs) as [Hf Hset]
      by (apply Hstep; [intros id Hid; by rewrite lookup_insert_ne|by rewrite lookup_insert_eq]).
    destruct (before !! p_ID p) as [x|] eqn:Eb; [destruct (sameProgram x p) eqn:Es|]; injection E as <- <-.
    + unfold sameProgram in Es. rewrite andb_true_iff, !bool_decide_eq_true in Es. destruct Es as [_ Er]. destruct (Hin _ _ Eb) as [HM _]. apply Hstep; [done|]. by rewrite HM, Er.
    + split; [by constructor|]. exact Hset.
    + split; [by constructor|]. exact Hset.
Qed.

(** ** Any operation *)

Inductive programOp :=
  | DoUpsertPrograms (programs : list (option Program))
  | DoUpsertEvents (events : list Event)
  | DoPresentFollowing (snapshot : PresentFollowingSnapshot)
  | DoSchedule (service : ServiceKey) (revisions : list EITRevision) (events : list Event)
  | DoRemove (ids : list Z)
  | DoDeleteEnded (cutoff : Z)
  | DoDeleteExpired (nowMS retentionDays : Z)
  | DoReplace (networkID serviceID from : Z) (programs : list (option Program)).

(** The numbers are [uint16]s, and nothing is replaced by nil. *)
Definition programOp_ok (op : programOp) : Prop :=
  match op with
  | DoUpsertPrograms programs => Forall program_ok (nonNil programs)
  | DoUpsertEvents events => Forall ids_ok events
  | DoPresentFollowing snapshot => Forall ids_ok (pf_Events snapshot)
  | DoSchedule _ _ events => Forall ids_ok events
  | DoReplace _ _ _ programs => exists ps, programs = map Some ps /\ Forall program_ok ps
  | DoRemove _ | DoDeleteEnded _ | DoDeleteExpired _ _ => True
  end.

(** The manager if the operation fails, and what it returns. *)
Definition runProgramOp (fault : dbOp -> option error) (order : list Z -> list Z) (m : ProgramManager) (rows : programRows) (op : programOp) : ProgramManager * go (ProgramManager * programRows) :=
  match op with
  | DoUpsertPrograms programs => (m, UpsertPrograms fault order m rows programs)
  | DoUpsertEvents events => (m, UpsertEvents fault order m rows events)
  | DoPresentFollowing snapshot => (m, UpsertPresentFollowing fault order m rows snapshot)
  | DoSchedule service revisions events => UpsertSchedule fault order m rows service revisions events
  | DoRemove ids => (m, RemovePrograms fault m rows ids)
  | DoDeleteEnded cutoff => (m, DeleteEndedBefore fault m rows cutoff)
  | DoDeleteExpired nowMS days => (m, DeleteExpired fault m rows nowMS days)
  | DoReplace networkID serviceID from programs => (m, ReplaceServicePrograms fault order m rows networkID serviceID from programs)
  end.

Section Operations.
Context (fault : dbOp -> option error) (order : list Z -> list Z).
Hypothesis order_perm : forall l, order l ≡ₚ l.

(** An operation whose events tell what it does to the rows. *)
Definition tellsRows (m : ProgramManager) (rows : programRows) (r : ProgramManager * programRows) : Prop :=
  exists evs, announcedBy m rows r.1 r.2 evs /\ Forall event_fine evs.

Lemma tells_nothing m rows : tellsRows m rows (m, rows).
Proof. exists []. split; [|constructor]. split; [done|]. split; [by rewrite app_nil_r|done]. Qed.

Lemma upsert_tells m rows programs pf : Forall program_ok programs -> wp (upsertPrograms fault order m rows programs pf) (tellsRows m rows).
Proof.
  intros Hp. eapply wp_mono; [by apply upsert_announced|]. intros [m' rows'] (evs & Ha & Ht). exists evs. split; [done|]. eapply Forall_impl; [exact Ht|]. by intros [p|p|id]; cbn; [intros []..|].
Qed.

Lemma FromEvent_ok events : Forall ids_ok events -> Forall program_ok (map FromEvent events).
Proof. intros H. apply Forall_forall. intros p (e & -> & He)%list_elem_of_fmap. by eapply Forall_forall in H. Qed.

Lemma remove_tells m rows ids : wp (RemovePrograms fault m rows ids) (tellsRows m rows).
Proof.
  unfold RemovePrograms. apply wp_bind, wp_dbTry. cbv zeta. set (removed := map p_ID _). assert (removed = [] \/ removed <> []) as [->|Hne] by (destruct removed; auto); [apply wp_ret, tells_nothing|].
  assert (forall (A : Type) (x y : A), match removed with [] => x | _ => y end = y) as Hm by (by destruct removed). rewrite Hm. apply wp_bind, wp_dbTry, wp_ret. destruct (removing_queue m removed) as [E1 E2].
  exists (map ProgramRemoved removed). split; [|apply removed_fine]. split; [done|]. split; [done|]. apply apply_removed.
Qed.

Lemma deleteEnded_tells m rows cutoff : wp (DeleteEndedBefore fault m rows cutoff) (tellsRows m rows).
Proof.
  unfold DeleteEndedBefore. apply wp_bind, wp_dbTry, wp_bind, wp_dbTry, wp_ret. set (removed := storeListEndedIDsBefore rows cutoff). exists (map ProgramRemoved removed). split; [|apply removed_fine]. split; [|split].
  - cbn [fst]. by rewrite enqueue_hasEvents.
  - intros E. cbn [fst]. set (m1 := mkManager _ _ _ _ _). by destruct (enqueue_all m1 (map ProgramRemoved removed) E) as [-> _].
  - rewrite apply_removed. cbn [snd]. apply map_eq. intros id. rewrite storeDeletes_lookup. unfold storeDeleteEndedBefore. rewrite map_lookup_filter.
    assert (id ∈ removed <-> exists r, rows !! id = Some r /\ endedBefore cutoff r = true) as Hin.
    { unfold removed, storeListEndedIDsBefore. destruct (sortStable_spec (fun id : Z => id) (map fst (map_to_list (filter (fun r => endedBefore cutoff r.2 = true) rows)))) as [HP _]. rewrite (elem_of_Permutation_proper id _ _ HP), list_elem_of_fmap. split.
      - intros ([id' r] & -> & [Hr He]%elem_of_map_to_list%map_lookup_filter_Some). by exists r.
      - intros (r & Hr & He). exists (id, r). split; [done|]. by apply elem_of_map_to_list, map_lookup_filter_Some. }
    destruct (rows !! id) as [r|] eqn:Er; cbn; [|by case_decide]. destruct (decide (id ∈ removed)) as [Hi|Hi].
    + destruct (proj1 Hin Hi) as (r' & [= <-] & He). case_guard as Hg; [congruence|done].
    + case_guard as Hg; [done|]. exfalso. apply Hi, Hin. exists r. split; [done|]. by destruct (endedBefore cutoff r).
Qed.

Lemma nonNil_Some programs : nonNil (map Some programs) = programs.
Proof. unfold nonNil. induction programs as [|p programs IH]; [done|]. cbn. by f_equal. Qed.

Lemma upserts_Some rows programs : storeUpsertsMaybe rows (map Some programs) = Ret (storeUpserts rows programs).
Proof. revert rows. induction programs as [|p programs IH]; intros rows; [done|]. cbn [map storeUpsertsMaybe]. by rewrite IH. Qed.

Lemma replace_tells m rows networkID serviceID from programs : rows_ok rows -> Forall program_ok programs -> wp (ReplaceServicePrograms fault order m rows networkID serviceID from (map Some programs)) (tellsRows m rows).
Proof.
  intros Hr Hp. unfold ReplaceServicePrograms, storeReplaceServicePrograms. rewrite nonNil_Some, upserts_Some. apply wp_bind, wp_dbTry. cbv zeta. case_match; [apply wp_ret, tells_nothing|]. fold (dbTry fault (OpReplace networkID serviceID from (map Some programs)) (storeUpserts (filter (fun r => ofServiceFrom networkID serviceID from r.2 = false) rows) programs)). apply wp_bind, wp_dbTry. set (before := programsByID _).
  destruct (replaceEvents before programs) as [events rest] eqn:Ere. apply wp_ret. set (ids := map fst (map_to_list rest)). set (m1 := foldl forgetProgram (foldl forgetProgram m _) _).
  assert (pm_outbox m1 = pm_outbox m /\ pm_hasEvents m1 = pm_hasEvents m) as [E1 E2] by (unfold m1; by rewrite !(proj1 (forget_queue _ _)), !(proj2 (forget_queue _ _))).
  destruct (replace_events programs before rows (filter (fun r => ofServiceFrom networkID serviceID from r.2 = false) rows) events rest Hp Ere) as [Hf Hrows].
  { intros id Hb. unfold before, storeListByServiceFrom in Hb. rewrite programsByID_rows, map_lookup_filter in Hb. rewrite map_lookup_filter. destruct (rows !! id) as [r|]; [|done]. cbn in *.
    repeat case_guard; try done. by destruct (ofServiceFrom networkID serviceID from r). }
  { intros id x Hb. unfold before, storeListByServiceFrom in Hb. rewrite programsByID_rows, map_lookup_filter in Hb. rewrite map_lookup_filter. destruct (rows !! id) as [r|] eqn:Er; [|done]. cbn in *.
    repeat case_guard; try done; [congruence|]. cbn in Hb. injection Hb as <-. by rewrite (Hr id r Er). }
  exists (events ++ map ProgramRemoved (order ids)). split; [split; [|split]|].
  - cbn [fst]. by rewrite !enqueue_hasEvents, E2.
  - intros E. cbn [fst]. rewrite E in E2. destruct (enqueue_all m1 events E2) as [E3 E4]. destruct (enqueue_all (foldl enqueueProgramEvent m1 events) (map ProgramRemoved (order ids)) E4) as [E5 _]. by rewrite E5, E3, E1, app_assoc.
  - cbn [snd]. rewrite foldl_app, apply_removed. etransitivity; [|exact Hrows]. apply map_eq. intros id. fold ids. rewrite !storeDeletes_lookup. rewrite (decide_ext _ _ _ _ (elem_of_Permutation_proper id _ _ (order_perm ids))). done.
  - apply Forall_app. split; [done|apply removed_fine].
Qed.

Lemma op_tells m rows op : rows_ok rows -> programOp_ok op ->
  pm_outbox (runProgramOp fault order m rows op).1 = pm_outbox m /\ pm_hasEvents (runProgramOp fault order m rows op).1 = pm_hasEvents m /\ wp (runProgramOp fault order m rows op).2 (tellsRows m rows).
Proof.
  intros Hr Hop. destruct op as [programs|events|snapshot|service revisions events|ids|cutoff|nowMS days|networkID serviceID from programs]; cbn [runProgramOp fst snd programOp_ok] in *; (split; [done|]); (split; [done|]).
  - by apply upsert_tells.
  - unfold UpsertEvents. destruct events; [apply wp_ret, tells_nothing|]. by apply upsert_tells, FromEvent_ok.
  - by apply upsert_tells, FromEvent_ok.
  - cbn [UpsertSchedule snd]. eapply wp_mono; [by apply upsert_tells, FromEvent_ok|]. intros r (evs & (E1 & E2 & E3) & Hf). by exists evs.
  - apply remove_tells.
  - apply deleteEnded_tells.
  - unfold DeleteExpired. destruct (days <=? 0); [apply wp_ret, tells_nothing|apply deleteEnded_tells].
  - destruct Hop as (ps & -> & Hps). by apply replace_tells.
Qed.
End Operations.

(** ** The manager, its store and its publisher *)

(** [w_pending] are the events that the operation holding the lock of the
    manager has yet to enqueue.  Ghost state: everything enqueued so far, in
    order, and whether a flush took events while another one was publishing. *)
Record eventWorld := mkWorld {
  w_manager : ProgramManager;
  w_rows : programRows;
  w_pending : list programEvent;
  w_events : eventQueue;
  w_published : list programEvent;
  w_log : list programEvent;
  w_overlap : bool
}.

Definition newWorld : eventWorld := mkWorld (NewProgramManager true) ∅ [] emptyQueue [] [] false.

Definition takeOutbox (m : ProgramManager) : ProgramManager := mkManager (pm_eit m) (pm_eitExtended m) (pm_eitTables m) (pm_hasEvents m) [].

Definition isPublishing (q : eventQueue) : bool := existsb (fun batch => negb (bool_decide (batch = []))) (eq_flushing q).

(** Operations, the timer and the running flushes interleave.  Which operations
    of the database fail and in which order maps are ranged over may differ
    every time. *)
Inductive managerStep : eventWorld -> eventWorld -> Prop :=
  | g_done fault order m rows q published log overlap op m0 m' rows' : (forall l, order l ≡ₚ l) -> programOp_ok op -> runProgramOp fault order m rows op = (m0, Ret (m', rows')) ->
      managerStep (mkWorld m rows [] q published log overlap) (mkWorld (takeOutbox m') rows' (pm_outbox m') q published log overlap)
  | g_failed fault order m rows q published log overlap op m0 e : (forall l, order l ≡ₚ l) -> programOp_ok op -> runProgramOp fault order m rows op = (m0, Err e) ->
      managerStep (mkWorld m rows [] q published log overlap) (mkWorld m0 rows [] q published log overlap)
  | g_enqueue m rows ev pending q published log overlap :
      managerStep (mkWorld m rows (ev :: pending) q published log overlap) (mkWorld m rows pending (enqueueEvent q ev) published (log ++ [ev]) overlap)
  | g_fires m rows pending q published log overlap : eq_armed q = true ->
      managerStep (mkWorld m rows pending q published log overlap) (mkWorld m rows pending (timerFired q) published log overlap)
  | g_orphan m rows pending q published log overlap : (0 < eq_orphans q)%nat ->
      managerStep (mkWorld m rows pending q published log overlap) (mkWorld m rows pending (orphanFired q) published log overlap)
  | g_flush m rows pending q published log overlap : (0 < eq_started q)%nat ->
      managerStep (mkWorld m rows pending q published log overlap) (mkWorld m rows pending (flushEvents q) published log (overlap || negb (bool_decide (eq_queue q = [])) && isPublishing q))
  | g_publish m rows pending q q' published log overlap i ev : publishTurn q i = Some (ev, q') ->
      managerStep (mkWorld m rows pending q published log overlap) (mkWorld m rows pending q' (published ++ [ev]) log overlap).

(** What is on its way to the subscribers, in the order of the flushes. *)
Definition underway (q : eventQueue) : list programEvent := concat (eq_flushing q) ++ eq_queue q.

Record mirrored (s : eventWorld) : Prop := {
  mi_events : pm_hasEvents (w_manager s) = true /\ pm_outbox (w_manager s) = [];
  mi_rows : rows_ok (w_rows s);
  mi_log : foldl applyEvent ∅ (w_log s ++ w_pending s) = w_rows s;
  mi_once : w_published s ++ underway (w_events s) ≡ₚ w_log s;
  mi_order : w_overlap s = false -> w_published s ++ underway (w_events s) = w_log s /\ forall i j ev ev' l l', eq_flushing (w_events s) !! i = Some (ev :: l) -> eq_flushing (w_events s) !! j = Some (ev' :: l') -> i = j;
  mi_timer : eq_queue (w_events s) <> [] -> eq_timer (w_events s) = true /\ (eq_armed (w_events s) = true \/ (0 < eq_started (w_events s))%nat)
}.

(** A batch among the others. *)
Lemma concat_split {A} (ls : list (list A)) i l : ls !! i = Some l -> concat ls = concat (take i ls) ++ l ++ concat (drop (S i) ls).
Proof. intros H. rewrite <- (take_drop_middle ls i l H) at 1. by rewrite concat_app. Qed.

Lemma concat_insert {A} (ls : list (list A)) i l l' : ls !! i = Some l -> concat (<[i := l']> ls) = concat (take i ls) ++ l' ++ concat (drop (S i) ls).
Proof.
  intros H. assert (i < length ls)%nat as Hi by (by apply lookup_lt_Some in H). rewrite insert_take_drop by done. by rewrite concat_app.
Qed.

Lemma not_publishing q : isPublishing q = false -> concat (eq_flushing q) = [] /\ forall i ev l, eq_flushing q !! i <> Some (ev :: l).
Proof.
  unfold isPublishing. induction (eq_flushing q) as [|batch batches IH]; [done|]. cbn [existsb concat]. intros [Hb Hbs]%orb_false_iff. apply negb_false_iff, bool_decide_eq_true in Hb as ->. destruct (IH Hbs) as [-> H]. split; [done|]. intros [|i] ev l; [done|]. apply H.
Qed.

(** No other batch is left when one publishes alone. *)
Lemma alone_before (ls : list (list programEvent)) i ev l : ls !! i = Some (ev :: l) -> (forall j ev' l', ls !! j = Some (ev' :: l') -> j = i) -> concat (take i ls) = [].
Proof.
  intros Hi H. assert (forall k, (k <= i)%nat -> concat (take k ls) = []) as Hk; [|by apply Hk].
  induction k as [|k IH]; intros Hle; [done|]. destruct (ls !! k) as [b|] eqn:E; [|apply lookup_ge_None in E; apply lookup_lt_Some in Hi; lia]. rewrite (take_S_r _ _ b) by done. rewrite concat_app, IH by lia. destruct b as [|ev' l']; [done|]. specialize (H _ _ _ E). lia.
Qed.

Lemma publish_mirrored m rows pending q q' published log overlap i ev : publishTurn q i = Some (ev, q') -> mirrored (mkWorld m rows pending q published log overlap) -> mirrored (mkWorld m rows pending q' (published ++ [ev]) log overlap).
Proof.
  unfold publishTurn. destruct (eq_flushing q !! i) as [[|ev' rest]|] eqn:Ei; try done. intros [= -> <-] [M1 M2 M3 M4 M5 M6]. cbn [w_manager w_rows w_pending w_events w_published w_log w_overlap] in *. unfold underway in *. cbn [eq_flushing eq_queue eq_timer eq_armed eq_started] in *.
  rewrite (concat_split _ _ _ Ei) in M4. pose proof (concat_insert _ _ _ rest Ei) as Ec. constructor; cbn [w_manager w_rows w_pending w_events w_published w_log w_overlap eq_flushing eq_queue eq_timer eq_armed eq_started]; try done; unfold underway; cbn [eq_flushing eq_queue].
  - rewrite Ec, <- M4. rewrite <- !app_assoc. f_equiv. cbn [app]. apply Permutation_middle.
  - intros Ho. destruct (M5 Ho) as [E Hone]. assert (concat (take i (eq_flushing q)) = []) as Eb by (eapply alone_before; [exact Ei|]; intros j ev' l' Hj; by apply (Hone j i ev' ev l' rest)). rewrite (concat_split _ _ _ Ei), Eb in E. rewrite Ec, Eb. split; [rewrite <- E; by rewrite <- !app_assoc|].
    intros j k e1 e2 l1 l2 H1 H2. assert (forall x e l, <[i:=rest]> (eq_flushing q) !! x = Some (e :: l) -> x = i) as Hx; [|by rewrite (Hx _ _ _ H1), (Hx _ _ _ H2)]. intros x e l Hxl. destruct (decide (x = i)) as [|Hne]; [done|]. rewrite list_lookup_insert_ne in Hxl by done. by apply (Hone x i e ev l rest).
Qed.

Lemma flush_mirrored m rows pending q published log overlap : mirrored (mkWorld m rows pending q published log overlap) ->
  mirrored (mkWorld m rows pending (flushEvents q) published log (overlap || negb (bool_decide (eq_queue q = [])) && isPublishing q)).
Proof.
  intros [M1 M2 M3 M4 M5 M6]. cbn [w_manager w_rows w_pending w_events w_published w_log w_overlap] in *. constructor; cbn [w_manager w_rows w_pending w_events w_published w_log w_overlap]; try done; unfold underway, flushEvents in *; cbn [eq_flushing eq_queue eq_timer eq_armed eq_started].
  - by rewrite concat_app, app_nil_r; cbn [concat]; rewrite app_nil_r.
  - intros [Ho Hp]%orb_false_iff. destruct (M5 Ho) as [E Hone]. rewrite concat_app. cbn [concat]. rewrite !app_nil_r. split; [done|]. intros i j e1 e2 l1 l2.
    assert (forall x e l, (eq_flushing q ++ [eq_queue q]) !! x = Some (e :: l) -> (eq_flushing q !! x = Some (e :: l) /\ (eq_queue q = [] \/ False)) \/ x = length (eq_flushing q) /\ eq_queue q <> []) as Hx.
    { intros x e l [H|[H1 H2]]%lookup_app_Some.
      - left. split; [done|]. left. case_bool_decide as Hq; [done|]. cbn in Hp. destruct (not_publishing q Hp) as [_ Hn]. by apply Hn in H.
      - right. destruct (x - length (eq_flushing q))%nat as [|n] eqn:En; [|done]. cbn in H2. injection H2 as Eq. split; [lia|]. by rewrite Eq. }
    intros H1 H2. destruct (Hx _ _ _ H1) as [[H1' Hq1]|[-> Hq1]], (Hx _ _ _ H2) as [[H2' Hq2]|[-> Hq2]]; [by apply (Hone i j e1 e2 l1 l2)|naive_solver..|done].
Qed.

Lemma managerStep_mirrored s s' : managerStep s s' -> mirrored s -> mirrored s'.
Proof.
  intros [fault order m rows q published log overlap op m0 m' rows' Ho Hop E|fault order m rows q published log overlap op m0 e Ho Hop E|m rows ev pending q published log overlap|m rows pending q published log overlap Ha|m rows pending q published log overlap Hn|m rows pending q published log overlap Hs|m rows pending q q' published log overlap i ev E] H.
  - destruct H as [[M1 M1'] M2 M3 M4 M5 M6]. cbn [w_manager w_rows w_pending w_events w_published w_log w_overlap] in *. destruct (op_tells fault order Ho m rows op M2 Hop) as (_ & _ & Hwp). rewrite E in Hwp. cbn in Hwp. destruct Hwp as (evs & (E1 & E2 & E3) & Hf). cbn [fst snd] in *. rewrite M1 in E1. specialize (E2 M1). rewrite M1' in E2.
    constructor; cbn [w_manager w_rows w_pending w_events w_published w_log w_overlap takeOutbox pm_hasEvents pm_outbox]; try done; [rewrite <- E3; by apply apply_rows_ok|]. rewrite app_nil_r in M3. by rewrite E2, foldl_app, M3.
  - destruct H as [[M1 M1'] M2 M3 M4 M5 M6]. cbn [w_manager w_rows w_pending w_events w_published w_log w_overlap] in *. destruct (op_tells fault order Ho m rows op M2 Hop) as (E1 & E2 & _). rewrite E in E1, E2. cbn [fst] in *. constructor; cbn [w_manager w_rows w_pending w_events w_published w_log w_overlap]; try done. split; congruence.
  - destruct H as [M1 M2 M3 M4 M5 M6]. constructor; cbn [w_manager w_rows w_pending w_events w_published w_log w_overlap enqueueEvent eq_queue eq_flushing eq_timer eq_armed eq_started] in *; try done; unfold underway in *; cbn [eq_queue eq_flushing] in *.
    + by rewrite <- app_assoc.
    + rewrite <- M4. by rewrite <- !app_assoc.
    + intros Ho. destruct (M5 Ho) as [<- Hone]. split; [by rewrite <- !app_assoc|done].
    + intros _. split; [done|by left].
  - destruct H as [M1 M2 M3 M4 M5 M6]. constructor; cbn [w_manager w_rows w_pending w_events w_published w_log w_overlap timerFired eq_queue eq_flushing eq_timer eq_armed eq_started] in *; try done. intros Hq. split; [by apply M6|right; lia].
  - destruct H as [M1 M2 M3 M4 M5 M6]. constructor; cbn [w_manager w_rows w_pending w_events w_published w_log w_overlap orphanFired eq_queue eq_flushing eq_timer eq_armed eq_started] in *; try done. intros Hq. split; [by apply M6|right; lia].
  - by apply flush_mirrored.
  - by apply (publish_mirrored _ _ _ _ _ _ _ _ i ev E).
Qed.

Lemma mirrored_reachable s : rtc managerStep newWorld s -> mirrored s.
Proof.
  intros H. assert (mirrored newWorld) as H0. { by constructor. }
  induction H as [|s1 s2 s3 Hs _ IH]; [done|]. by apply IH, (managerStep_mirrored s1).
Qed.

(** C10: Whatever is upserted, replaced, removed or expires, whichever
    operations of the database fail, and however the timer and the flushes
    interleave with it: the events enqueued so far, and those the running
    operation still has to enqueue, applied in order to an empty table, give
    exactly the rows of the store.  Each of them is published once, or is being
    published, or is queued, and a flush is coming for what is queued.  As long
    as no flush took events while another was still publishing, they are
    published in the order in which they were enqueued, so that with nothing
    underway what was published gives the rows of the store.  No operation
    panics, provided no service's programs are replaced by nil. *)
Theorem events_mirror_the_store s : rtc managerStep newWorld s ->
  foldl applyEvent ∅ (w_log s ++ w_pending s) = w_rows s
  /\ w_published s ++ underway (w_events s) ≡ₚ w_log s
  /\ (eq_queue (w_events s) <> [] -> eq_timer (w_events s) = true /\ (eq_armed (w_events s) = true \/ (0 < eq_started (w_events s))%nat))
  /\ (w_overlap s = false -> w_published s ++ underway (w_events s) = w_log s /\ (w_pending s = [] -> underway (w_events s) = [] -> foldl applyEvent ∅ (w_published s) = w_rows s))
  /\ forall fault order op, (forall l, order l ≡ₚ l) -> programOp_ok op -> safe (runProgramOp fault order (w_manager s) (w_rows s) op).2.
Proof.
  intros [[M1 M1'] M2 M3 M4 M5 M6]%mirrored_reachable. split; [done|]. split; [done|]. split; [done|]. split.
  - intros Ho. destruct (M5 Ho) as [E _]. split; [done|]. intros Ep Eu. rewrite Eu, app_nil_r in E. by rewrite Ep, app_nil_r, <- E in M3.
  - intros fault order op Hord Hop. destruct (op_tells fault order Hord (w_manager s) (w_rows s) op M2 Hop) as (_ & _ & Hwp). by eapply wp_safe.
Qed.

Definition demoEvent (eventID startAt : Z) : Event := mkEvent None (Some (mkRevision "" 0x50 3 7)) false false false (mkServiceKey 4 16625 101) eventID
  (Some startAt) (Some 1800000) 0 false "jpn" "News" "" [] [] [] [] [] [] None.

Definition theRet {A} (d : A) (c : go A) : A := match c with Ret a => a | _ => d end.

(** An operation without faults. *)
Definition demoRun (s : ProgramManager * programRows) (op : programOp) : ProgramManager * programRows := theRet s (runProgramOp (fun _ => None) (fun l => l) s.1 s.2 op).2.

(** A second event takes the time of the first. *)
Definition demoStart : ProgramManager * programRows := (NewProgramManager true, ∅).
Definition demoFirst : ProgramManager * programRows := demoRun demoStart (DoUpsertEvents [demoEvent 500 1700000000000]).
Definition demoSecond : ProgramManager * programRows := demoRun (takeOutbox demoFirst.1, demoFirst.2) (DoUpsertEvents [demoEvent 501 1700000600000]).

(** The events of an operation in the queue. *)
Definition enqueued (q : eventQueue) (evs : list programEvent) : eventQueue := foldl enqueueEvent q evs.

Lemma enqueue_pending m rows pending q published log overlap : rtc managerStep (mkWorld m rows pending q published log overlap) (mkWorld m rows [] (enqueued q pending) published (log ++ pending) overlap).
Proof.
  revert q log. induction pending as [|ev pending IH]; intros q log; [rewrite app_nil_r; constructor|]. eapply rtc_l; [apply g_enqueue|]. specialize (IH (enqueueEvent q ev) (log ++ [ev])). by rewrite <- app_assoc in IH.
Qed.

Definition demoQueue : eventQueue := enqueued (enqueued emptyQueue (pm_outbox demoFirst.1)) (pm_outbox demoSecond.1).
Definition demoLog : list programEvent := pm_outbox demoFirst.1 ++ pm_outbox demoSecond.1.
Definition demoWorld : eventWorld := mkWorld (takeOutbox demoSecond.1) demoSecond.2 [] demoQueue [] demoLog false.

Lemma demoWorld_run : rtc managerStep newWorld demoWorld.
Proof.
  eapply rtc_l; [apply (g_done (fun _ => None) (fun l => l) (NewProgramManager true) ∅ emptyQueue [] [] false (DoUpsertEvents [demoEvent 500 1700000000000]) (NewProgramManager true) demoFirst.1 demoFirst.2); [done| |vm_compute; reflexivity]|].
  { cbn. repeat constructor; cbn; lia. }
  etransitivity; [apply enqueue_pending|]. eapply rtc_l; [apply (g_done (fun _ => None) (fun l => l) (takeOutbox demoFirst.1) demoFirst.2 _ [] _ false (DoUpsertEvents [demoEvent 501 1700000600000]) (takeOutbox demoFirst.1) demoSecond.1 demoSecond.2); [done| |vm_compute; reflexivity]|].
  { cbn. repeat constructor; cbn; lia. }
  apply enqueue_pending.
Qed.

Lemma events_mirror_the_store_witness : length demoLog = 3%nat /\ foldl applyEvent ∅ (demoLog ++ []) = demoSecond.2.
Proof. split; [vm_compute; reflexivity|]. exact (proj1 (events_mirror_the_store demoWorld demoWorld_run)). Defined.

(** ** Overlapping flushes *)

(** Two events an hour apart, of which the second is removed while the first
    flush is still publishing. *)
Definition racedOnce : ProgramManager * programRows := demoRun demoStart (DoUpsertEvents [demoEvent 500 1700000000000; demoEvent 501 1700003600000]).
Definition racedID : Z := ProgramID (mkServiceKey 4 16625 101) 501.
Definition racedTwice : ProgramManager * programRows := demoRun (takeOutbox racedOnce.1, racedOnce.2) (DoRemove [racedID]).

(** A batch takes ten milliseconds per event to publish and the next flush waits
    a second only: a flush can overtake another one, and then what was published
    last is not what the store has. *)
Lemma overlapping_flushes_reorder : exists s, rtc managerStep newWorld s /\ w_pending s = [] /\ underway (w_events s) = [] /\ is_Some (foldl applyEvent ∅ (w_published s) !! racedID) /\ w_rows s !! racedID = None.
Proof.
  set (a := FromEvent (demoEvent 500 1700000000000)). set (b := FromEvent (demoEvent 501 1700003600000)).
  exists (mkWorld (takeOutbox racedTwice.1) racedTwice.2 [] (mkEventQueue [] false false 0 0 [[]; []]) [ProgramCreated a; ProgramRemoved racedID; ProgramCreated b] [ProgramCreated a; ProgramCreated b; ProgramRemoved racedID] true).
  split; [|conjs; try reflexivity; vm_compute; eexists; reflexivity].
  eapply rtc_l; [apply (g_done (fun _ => None) (fun l => l) (NewProgramManager true) ∅ emptyQueue [] [] false (DoUpsertEvents [demoEvent 500 1700000000000; demoEvent 501 1700003600000]) (NewProgramManager true) racedOnce.1 racedOnce.2); [done| |vm_compute; reflexivity]|].
  { cbn. repeat constructor; cbn; lia. }
  etransitivity; [apply enqueue_pending|]. replace (pm_outbox racedOnce.1) with [ProgramCreated a; ProgramCreated b] by (vm_compute; reflexivity). cbn [app enqueued foldl].
  eapply rtc_l; [by apply g_fires|]. eapply rtc_l; [apply g_flush; cbn; lia|]. eapply rtc_l; [eapply g_publish with (i := 0%nat); reflexivity|].
  eapply rtc_l; [apply (g_done (fun _ => None) (fun l => l) (takeOutbox racedOnce.1) racedOnce.2 _ _ _ _ (DoRemove [racedID]) (takeOutbox racedOnce.1) racedTwice.1 racedTwice.2); [done|done|vm_compute; reflexivity]|].
  etransitivity; [apply enqueue_pending|]. replace (pm_outbox racedTwice.1) with [ProgramRemoved racedID] by (vm_compute; reflexivity). cbn [app enqueued foldl].
  eapply rtc_l; [by apply g_fires|]. eapply rtc_l; [apply g_flush; cbn; lia|]. eapply rtc_l; [eapply g_publish with (i := 1%nat); reflexivity|]. eapply rtc_l; [eapply g_publish with (i := 0%nat); reflexivity|]. apply rtc_refl.
Qed.

(** [ReplaceServicePrograms] skips nil, but the store dereferences it. *)
Lemma replacing_by_nil_panics m rows networkID serviceID from programs : None ∈ programs -> identicalServicePrograms (programsByID (storeListByServiceFrom rows networkID serviceID from)) programs = false ->
  ReplaceServicePrograms (fun _ => None) (fun l => l) m rows networkID serviceID from programs = Panic.
Proof.
  intros Hin Hd. unfold ReplaceServicePrograms, dbTry, dbRun. cbn [mbind go_bind]. rewrite Hd. unfold storeReplaceServicePrograms. generalize (filter (fun r => ofServiceFrom networkID serviceID from r.2 = false) rows) as M. clear Hd.
  assert (forall M, storeUpsertsMaybe M programs = Panic) as H; [|intros M; by rewrite H]. induction programs as [|[p|] programs IH]; intros M; [by apply not_elem_of_nil in Hin|cbn [storeUpsertsMaybe]; apply IH; by apply elem_of_cons in Hin as [|]|done].
Qed.

(** ** Late tables *)

(** A newer table of this program, or a better one, has been recorded. *)
Definition stale (m : ProgramManager) (p : Program) : Prop :=
  exists r state, e_EITRevision (p_Event p) = Some r /\ pm_eit m !! p_ID p = Some state /\ PreferTo r (es_revision state) = false.

(** [y] is [x] with what it lacks filled in from [p]; its times, its revision and
    its state are those of [x]. *)
Definition filledFrom (x p y : Event) : Prop :=
  (e_Key y = e_Key x /\ e_EventID y = e_EventID x /\ e_StartAt y = e_StartAt x /\ e_DurationMS y = e_DurationMS x /\ e_RunningStatus y = e_RunningStatus x /\ e_FreeCA y = e_FreeCA x
   /\ e_EITSuspended y = e_EITSuspended x /\ e_EITRevision y = e_EITRevision x)
  /\ (e_EITPresent y, e_EITFollowing y) = (if e_EITPresent x || e_EITFollowing x then (e_EITPresent x, e_EITFollowing x) else (e_EITPresent p, e_EITFollowing p))
  /\ e_Language y = orString (e_Language x) (e_Language p) /\ e_Name y = orString (e_Name x) (e_Name p) /\ e_Description y = orString (e_Description x) (e_Description p)
  /\ e_Genres y = orList (e_Genres x) (e_Genres p) /\ e_Videos y = orList (e_Videos x) (e_Videos p) /\ e_Audios y = orList (e_Audios x) (e_Audios p)
  /\ e_Related y = orList (e_Related x) (e_Related p) /\ e_Parental y = orList (e_Parental x) (e_Parental p) /\ e_Series y = orOption (e_Series x) (e_Series p).

(** The revision of an extended text that may replace the stored one. *)
Definition newerText (m : ProgramManager) (id : Z) (x : Event) (revision : EITRevision) : Prop :=
  match pm_eitExtended m !! id with
  | Some state => PreferTo revision (es_revision state) = true
  | None => match e_EITExtendedRevision x with Some previous => PreferTo revision previous = true | None => e_Extended x = [] \/ Other revision = false end
  end.

(** The extended text of [y]: that of [x], filled in from [q] if [x] has none, or
    that of [q] if its own table is the newer one. *)
Definition textFrom (m : ProgramManager) (id : Z) (x q y : Event) : Prop :=
  (e_EITExtendedRevision y = e_EITExtendedRevision x /\ (e_Extended y = e_Extended x \/ e_Extended x = [] /\ e_Extended y = e_Extended q))
  \/ exists revision, e_EITExtendedRevision q = Some revision /\ e_EITExtendedRevision y = Some revision /\ e_Extended y = e_Extended q /\ newerText m id x revision.

(** What some programs make of a stored event. *)
Definition lateFill (m : ProgramManager) (programs : list Program) (id : Z) (x y : Event) : Prop :=
  exists p q, p ∈ programs /\ q ∈ programs /\ p_ID p = id /\ p_ID q = id /\ filledFrom x (p_Event p) y /\ textFrom m id x (p_Event q) y.

(** A pending program is one of those given with the extended text of another. *)
Definition composed (m : ProgramManager) (programs : list Program) (id : Z) (p : Program) : Prop :=
  p_ID p = id /\ exists p0 q0, p0 ∈ programs /\ q0 ∈ programs /\ p_ID p0 = id /\ p_ID q0 = id /\ stale m p0 /\ p_Event p = withExtended (p_Event p0) (e_Extended (p_Event q0)) (e_EITExtendedRevision (p_Event q0)).

Lemma composed_self m programs p : p ∈ programs -> stale m p -> composed m programs (p_ID p) p.
Proof. intros Hin Hst. split; [done|]. exists p, p. conjs; try done. by destruct p as [id []]. Qed.

Lemma preferPending_composed m programs id previous p : composed m programs id previous -> composed m programs id p -> composed m programs id (preferPending (Some previous) p).
Proof.
  intros Hx Hp. unfold preferPending. cbv zeta.
  set (preferred := match e_EITRevision (p_Event previous) with Some _ => _ | None => _ end). assert (composed m programs id preferred) as Hpref by (unfold preferred; repeat case_match; done). clearbody preferred.
  set (extended := match e_EITExtendedRevision (p_Event previous) with Some _ => _ | None => _ end). assert (composed m programs id extended) as Hext by (unfold extended; repeat case_match; done). clearbody extended.
  destruct (e_EITExtendedRevision (p_Event extended)) as [r|] eqn:Er; [|done]. destruct Hpref as (Ep & p0 & q0 & H1 & H2 & H3 & H4 & H5 & E1), Hext as (Ee & p1 & q1 & G1 & G2 & G3 & G4 & G5 & E2).
  split; [done|]. exists p0, q1. conjs; try done. cbn [p_Event]. rewrite E1. rewrite E2 in Er. cbn in Er. rewrite E2. cbn. by rewrite Er.
Qed.

Lemma pending_composed m programs pending ids : Forall (stale m) programs -> foldl addPending (∅, []) programs = (pending, ids) -> forall id p, pending !! id = Some p -> composed m programs id p.
Proof.
  intros Hall. assert (forall l acc, (forall p, p ∈ l -> p ∈ programs) -> (forall id p, acc.1 !! id = Some p -> composed m programs id p) -> forall id p, (foldl addPending acc l).1 !! id = Some p -> composed m programs id p) as H.
  { induction l as [|q l IH]; intros [pend ids'] Hl Hacc; [done|]. cbn [foldl]. apply IH; [intros p Hp; apply Hl; by right|]. assert (q ∈ programs) as Hq by (apply Hl; left). assert (composed m programs (p_ID q) q) as Hself by (apply composed_self; [done|by eapply Forall_forall in Hall]).
    intros id p. cbn [addPending fst]. destruct (decide (p_ID q = id)) as [<- |Hne]; [|rewrite lookup_insert_ne by done; apply Hacc]. rewrite lookup_insert_eq. intros [= <-]. destruct (pend !! p_ID q) as [x|] eqn:Ex; [|done]. apply preferPending_composed; [by apply Hacc|done]. }
  intros E. specialize (H programs (∅, [])). rewrite E in H. apply H; [done|]. cbn. intros id p. by rewrite lookup_empty.
Qed.

Lemma composed_refused m programs id p tables existing : composed m programs id p -> acceptEIT m p tables existing = false.
Proof. intros (Eid & p0 & q0 & _ & _ & E0 & _ & (rev & state & Er & Es & Hp) & Ep). unfold acceptEIT. rewrite Ep, Eid. cbn [withExtended e_EITRevision]. rewrite Er. rewrite E0 in Es. rewrite Es. by destruct (superseded tables p rev). Qed.

Lemma acceptExtended_newer m p revision tables x : acceptExtended m p revision tables (Some x) = true -> newerText m (p_ID p) (p_Event x) revision.
Proof.
  unfold acceptExtended, newerText. destruct (superseded tables p revision); [done|]. destruct (pm_eitExtended m !! p_ID p) as [state|]; [done|]. destruct (e_EITExtendedRevision (p_Event x)) as [previous|]; [done|].
  intros H%negb_true_iff. apply andb_false_iff in H as [H|H]; [left|by right]. by apply negb_false_iff, bool_decide_eq_true in H.
Qed.

(** What a late table does to a stored program. *)
Lemma late_decision m programs tables id x p after ok : p_ID x = id -> composed m programs id p -> decideOne m tables false (Some x) p = Some (after, ok) -> p_ID after = id /\ lateFill m programs id (p_Event x) (p_Event after).
Proof.
  intros Ex Hc E. unfold decideOne, decideBasic in E. rewrite (composed_refused _ _ _ _ _ _ Hc) in E. destruct Hc as (Eid & p0 & q0 & H1 & H2 & H3 & H4 & _ & Ep). cbn [fmap option_fmap option_map decideSlots] in E.
  assert (forall y, filledFrom (p_Event x) (p_Event p0) y -> textFrom m id (p_Event x) (p_Event q0) y -> lateFill m programs id (p_Event x) y) as Hfill by (intros y Hy1 Hy2; exists p0, q0; by conjs).
  set (after0 := mkProgram _ _) in E. assert (forall blocks r, filledFrom (p_Event x) (p_Event p0) (withExtended (p_Event after0) blocks r)) as Hbasic.
  { intros blocks r. unfold after0, mergeUpsertProgram. cbn [p_Event p_ID]. rewrite Ep. unfold filledFrom, withExtended, withRevisions. cbn. conjs; try done. by destruct (e_EITPresent (p_Event x)), (e_EITFollowing (p_Event x)). }
  assert (p_Event after0 = withExtended (p_Event after0) (orList (e_Extended (p_Event x)) (e_Extended (p_Event q0))) (e_EITExtendedRevision (p_Event x))) as E0.
  { unfold after0, mergeUpsertProgram. cbn [p_Event p_ID]. rewrite Ep. done. }
  unfold decideExtended in E. rewrite Ep in E. cbn [withExtended e_EITExtendedRevision e_Extended] in E. destruct (e_EITExtendedRevision (p_Event q0)) as [r|] eqn:Eq; [destruct (acceptExtended m p r tables (Some x)) eqn:Ea|]; injection E as <- <-; (split; [done|]); cbn [p_Event].
  - apply Hfill; [apply Hbasic|]. right. exists r. apply acceptExtended_newer in Ea. rewrite Eid in Ea. done.
  - apply Hfill; [apply Hbasic|]. left. split; [done|by left].
  - rewrite E0. apply Hfill; [apply Hbasic|]. left. split; [done|]. cbn [withExtended e_Extended]. unfold orList. destruct (e_Extended (p_Event x)); [by right|by left].
Qed.

(** Programs to write that fill in what is stored. *)
Definition keepsRow (m : ProgramManager) (programs : list Program) (rows : programRows) (p : Program) : Prop :=
  exists r, rows !! p_ID p = Some r /\ StartAtOrZero p = r_StartAt r /\ DurationOrZero p = r_Duration r /\ lateFill m programs (p_ID p) (p_Event (fromGenProgram (p_ID p) r)) (p_Event p).

Lemma lateFill_times m programs id r y : lateFill m programs id (p_Event (fromGenProgram id r)) y -> default 0 (e_StartAt y) = r_StartAt r /\ default 0 (e_DurationMS y) = r_Duration r.
Proof.
  intros (p & q & _ & _ & _ & _ & ((_ & _ & -> & -> & _) & _) & _). assert (forall z, default 0 (nonZero z) = z) as Hz by (intros z; unfold nonZero; destruct (Z.eqb_spec z 0); cbn; congruence).
  unfold fromGenProgram. cbn [p_Event]. destruct (r_Event r); cbn [applyTo e_StartAt e_DurationMS]; by rewrite !Hz.
Qed.

Lemma late_events m programs tables rows pending ids : (forall id p, pending !! id = Some p -> composed m programs id p) ->
  Forall (fun p => keepsRow m programs rows p /\ p_ID p ∈ ids) (omap subject (foldl (decideAll m tables false (programsByID (storeListByIDs rows ids)) pending) (∅, []) ids).2).
Proof.
  intros Hp. set (before := programsByID (storeListByIDs rows ids)). set (P := fun p => keepsRow m programs rows p /\ p_ID p ∈ ids).
  assert (forall l acc, (forall id, id ∈ l -> id ∈ ids) -> Forall P (omap subject acc.2) -> Forall P (omap subject (foldl (decideAll m tables false before pending) acc l).2)) as H; [|by apply H].
  induction l as [|id l IH]; intros [accepted events] Hl Hacc; [done|]. cbn [foldl]. assert (id ∈ ids) as Hid by (apply Hl; left). apply IH; [intros x Hx; apply Hl; by right|]. unfold decideAll. cbn [snd] in *.
  destruct (pending !! id) as [p|] eqn:Epend; [|done]. pose proof (Hp _ _ Epend) as Hc.
  assert (before !! id = fromGenProgram id <$> rows !! id) as -> by (unfold before; rewrite before_lookup; by rewrite decide_True).
  destruct (rows !! id) as [r|] eqn:Er; cbn [fmap option_fmap option_map].
  - destruct (decideOne m tables false (Some (fromGenProgram id r)) p) as [[after ok]|] eqn:Ed; [|done]. destruct (late_decision _ _ _ id (fromGenProgram id r) _ _ _ eq_refl Hc Ed) as [E1 E2]. destruct (lateFill_times _ _ _ _ _ E2) as [T1 T2].
    destruct (sameProgram (fromGenProgram id r) after); [done|]. cbn [snd]. rewrite omap_app. apply Forall_app. split; [done|]. cbn. apply Forall_singleton. unfold P, keepsRow. rewrite E1. split; [|done]. by exists r.
  - assert (decideOne m tables false None p = None) as ->; [|done]. unfold decideOne, decideBasic. by rewrite (composed_refused _ _ _ _ _ _ Hc).
Qed.

Lemma keeps_placed fault order m programs rows pending ids pl toWrite : Forall (fun p => keepsRow m programs rows p /\ p_ID p ∈ ids) toWrite -> pl_removed pl = ∅ -> pl_blocked pl = ∅ ->
  wp (placeAll fault order m rows pending (programsByID (storeListByIDs rows ids)) false pl toWrite) (fun pl => pl_removed pl = ∅ /\ pl_blocked pl = ∅).
Proof.
  intros Hk. revert pl. induction Hk as [|p toWrite [(r & Hr & E1 & E2 & _) Hid] _ IH]; intros pl H1 H2; [by apply wp_ret|]. cbn [placeAll]. unfold placeOne. cbv zeta. rewrite before_lookup, decide_True by done.
  rewrite Hr. cbn [fmap option_fmap option_map]. assert (forall z, default 0 (nonZero z) = z) as Hz by (intros z; unfold nonZero; destruct (Z.eqb_spec z 0); cbn; congruence).
  assert (StartAtOrZero (fromGenProgram (p_ID p) r) = r_StartAt r /\ DurationOrZero (fromGenProgram (p_ID p) r) = r_Duration r) as [-> ->].
  { unfold StartAtOrZero, DurationOrZero, fromGenProgram. cbn [p_Event]. destruct (r_Event r); cbn [applyTo e_StartAt e_DurationMS]; by rewrite !Hz. }
  rewrite E1, E2, !Z.eqb_refl. cbn [andb mbind go_bind]. apply IH; cbn [pl_removed pl_blocked]; [rewrite H1; set_solver|done].
Qed.

(** The rows after late tables. *)
Definition onlyFilled (m : ProgramManager) (programs : list Program) (rows rows' : programRows) : Prop := forall id, match rows !! id with
  | None => rows' !! id = None
  | Some r => rows' !! id = Some r \/ exists y, rows' !! id = Some (toUpsertProgramParams (mkProgram id y)) /\ lateFill m programs id (p_Event (fromGenProgram id r)) y
  end.

Lemma onlyFilled_refl m programs rows : onlyFilled m programs rows rows.
Proof. intros id. destruct (rows !! id); [by left|done]. Qed.

Lemma keeps_upserts m programs rows toWrite : Forall (keepsRow m programs rows) toWrite -> onlyFilled m programs rows (storeUpserts rows toWrite).
Proof.
  intros Hk. unfold storeUpserts. assert (forall cur, onlyFilled m programs rows cur -> onlyFilled m programs rows (foldl (fun rows p => <[p_ID p := toUpsertProgramParams p]> rows) cur toWrite)) as H; [|apply H, onlyFilled_refl].
  induction Hk as [|p toWrite (r & Hr & _ & _ & Hfill) _ IH]; intros cur Hcur; [done|]. cbn [foldl]. apply IH. intros id. destruct (decide (p_ID p = id)) as [<- |Hne]; [|rewrite lookup_insert_ne by done; apply Hcur].
  rewrite Hr, lookup_insert_eq. right. exists (p_Event p). split; [by destruct p|done].
Qed.

(** C32: Late tables, programs upserted without a present/following snapshot of
    which a newer or better revision is recorded, only fill in what stored
    programs lack: no program appears and none is removed, and a program that
    changes keeps its times, revision, state and every other detail it has; only
    its extended text may be replaced, by one whose own table is newer. *)
Theorem late_tables_move_nothing fault order m rows programs : (forall l, order l ≡ₚ l) -> Forall (stale m) programs ->
  wp (upsertPrograms fault order m rows programs None) (fun '(m', rows') => onlyFilled m programs rows rows').
Proof.
  intros Ho Hst. unfold upsertPrograms. cbn [mbind go_bind]. destruct (foldl addPending (∅, []) programs) as [pending ids] eqn:Epend. apply wp_bind, wp_dbTry.
  destruct (foldl (decideAll _ _ _ _ _) (∅, []) ids) as [accepted events] eqn:Edec. rewrite bool_decide_eq_false_2 in Edec by (intros H; by apply H).
  pose proof (late_events m programs (tableRevisions order m pending ids) rows pending ids (pending_composed _ _ _ _ Hst Epend)) as Hk. rewrite Edec in Hk. cbn [snd] in Hk.
  case_match; [apply wp_ret, onlyFilled_refl|]. rewrite (bool_decide_eq_false_2 (None <> None)) by (intros H0; by apply H0). apply wp_bind. eapply wp_mono; [by apply (keeps_placed _ _ _ programs)|].
  intros pl [Hpr Hpb]. apply wp_bind, wp_dbTry, wp_ret. rewrite Hpr, elements_empty. assert (order [] = []) as -> by (by apply Permutation_nil_r, Ho). unfold storeUpsertAndDelete. cbn [storeDeletes foldl].
  apply keeps_upserts. apply Forall_forall. intros p [_ Hin]%list_elem_of_filter. by destruct (proj1 (Forall_forall _ _) Hk p Hin).
Qed.

(** The first event again, moved, from a table that another one has replaced. *)
Definition demoLate : Program := FromEvent (mkEvent None (Some (mkRevision "" 0x50 2 6)) false false false (mkServiceKey 4 16625 101) 500
  (Some 1700000900000) (Some 60000) 0 false "jpn" "Weather" "Rain" [] [] [] [] [] [] None).

Lemma late_tables_move_nothing_witness : Forall (stale demoFirst.1) [demoLate] /\
  wp (upsertPrograms (fun _ => None) (fun l => l) demoFirst.1 demoFirst.2 [demoLate] None) (fun '(m', rows') => onlyFilled demoFirst.1 [demoLate] demoFirst.2 rows').
Proof.
  assert (Forall (stale demoFirst.1) [demoLate]) as H.
  { constructor; [|constructor]. exists (mkRevision "" 0x50 2 6), (mkEitState (mkRevision "" 0x50 3 7) 1700001800000). split; [reflexivity|]. split; vm_compute; reflexivity. }
  exact (conj H (late_tables_move_nothing (fun _ => None) (fun l => l) demoFirst.1 demoFirst.2 [demoLate] (fun l => Permutation_refl l) H)).
Defined.
