(* ===== verification/PresentFollowing.v ===== *)
(** * Present and following events (internal/stream/presentfollowing/collector.go)

    The collector puts the two sections of a present/following table together:
    section 0 has the present event, section 1 the following one.  A snapshot is
    handed on only when both sections of one version have been seen, so that an
    event that is in neither has ended. *)

From stdpp Require Import strings.
From S2P Require Import Prelude Epg ProgramStore ProgramManager.

(** Service and table ID. *)
Abbreviation pfKey := (ServiceKey * Z)%type.

Record subtable := mkSubtable {
  sb_version : Z;
  sb_seen0 : bool;
  sb_seen1 : bool;
  sb_events0 : list Event;
  sb_events1 : list Event
}.

Abbreviation pfCollector := (gmap pfKey subtable).

(** An undefined event is left out; the others are marked. *)
Definition markEvents (section : Z) (events : list Event) : list Event :=
  e ← events;
  if bool_decide (e_StartAt e = None) && bool_decide (e_DurationMS e = None) then []
  else [withSlots e (section =? 0) (section =? 1) (e_EITSuspended e)].

Definition setSection (t : subtable) (section : Z) (events : list Event) : subtable :=
  if section =? 0 then mkSubtable (sb_version t) true (sb_seen1 t) (markEvents section events) (sb_events1 t)
  else mkSubtable (sb_version t) (sb_seen0 t) true (sb_events0 t) (markEvents section events).

Definition currentTable (c : pfCollector) (k : pfKey) (version : Z) : subtable :=
  match c !! k with
  | Some t => if sb_version t =? version then t else mkSubtable version false false [] []
  | None => mkSubtable version false false [] []
  end.

Definition ObservePF (c : pfCollector) (service : ServiceKey) (tableID version section last : Z) (events : list Event) (now : Z) : pfCollector * option PresentFollowingSnapshot :=
  if (1 <? section) || negb (last =? 1) then (c, None)
  else
    let k := (service, tableID) in
    let t := setSection (currentTable c k version) section events in
    let c := <[k := t]> c in
    if negb (sb_seen0 t) || negb (sb_seen1 t) then (c, None)
    else (c, Some (mkSnapshot now service (sb_events0 t ++ sb_events1 t))).

(** ** The specification *)

(** An observed section. *)
Record pfSection := mkPfSection {
  ps_service : ServiceKey;
  ps_tableID : Z;
  ps_version : Z;
  ps_section : Z;
  ps_last : Z;
  ps_events : list Event
}.

Definition section_ok (s : pfSection) : Prop := 0 <= ps_section s.

(** The sections of a table, the latest first. *)
Definition ofTable (k : pfKey) (history : list pfSection) : list pfSection :=
  filter (fun s => (ps_service s, ps_tableID s) = k /\ ps_section s <= 1 /\ ps_last s = 1) history.

(** The sections of the current version, the latest first. *)
Fixpoint sameVersion (version : Z) (sections : list pfSection) : list pfSection :=
  match sections with
  | [] => []
  | s :: sections => if ps_version s =? version then s :: sameVersion version sections else []
  end.

Definition currentVersion (sections : list pfSection) : list pfSection := match sections with [] => [] | s :: _ => sameVersion (ps_version s) sections end.

(** The events of the latest section of the given number. *)
Definition latestSection (n : Z) (sections : list pfSection) : option (list Event) := markEvents n ∘ ps_events ∘ snd <$> list_find (fun s => ps_section s = n) sections.

(** What is known of a table after a history: nothing, or the latest present
    and following section of its current version. *)
Definition pfState (k : pfKey) (history : list pfSection) : option (list Event) * option (list Event) :=
  let sections := currentVersion (ofTable k history) in (latestSection 0 sections, latestSection 1 sections).

(** ** The code and its specification *)

Definition observeSection (c : pfCollector) (s : pfSection) (now : Z) : pfCollector * option PresentFollowingSnapshot :=
  ObservePF c (ps_service s) (ps_tableID s) (ps_version s) (ps_section s) (ps_last s) (ps_events s) now.

(** A collector after a history, whose latest section comes first. *)
Fixpoint afterHistory (history : list pfSection) : pfCollector :=
  match history with [] => ∅ | s :: history => (observeSection (afterHistory history) s 0).1 end.

Definition seenEvents (seen : bool) (events : list Event) : option (list Event) := if seen then Some events else None.

Lemma latestSection_cons n s l : latestSection n (s :: l) = if decide (ps_section s = n) then Some (markEvents n (ps_events s)) else latestSection n l.
Proof. unfold latestSection. cbn [list_find]. case_decide; [done|]. by destruct (list_find (fun s => ps_section s = n) l) as [[]|]. Qed.

Definition subtable_ok (sections : list pfSection) (t : option subtable) : Prop :=
  match t with
  | None => sections = []
  | Some t => exists s rest, sections = s :: rest /\ sb_version t = ps_version s
      /\ latestSection 0 (currentVersion sections) = seenEvents (sb_seen0 t) (sb_events0 t) /\ latestSection 1 (currentVersion sections) = seenEvents (sb_seen1 t) (sb_events1 t)
  end.

Lemma ofTable_cons k s history : ofTable k (s :: history) = if decide ((ps_service s, ps_tableID s) = k /\ ps_section s <= 1 /\ ps_last s = 1) then s :: ofTable k history else ofTable k history.
Proof. unfold ofTable. by rewrite filter_cons. Qed.

Lemma observe_ok s sections t : section_ok s -> ps_section s <= 1 -> subtable_ok sections t ->
  subtable_ok (s :: sections) (Some (setSection (match t with Some t => if sb_version t =? ps_version s then t else mkSubtable (ps_version s) false false [] [] | None => mkSubtable (ps_version s) false false [] [] end) (ps_section s) (ps_events s))).
Proof.
  intros Hs H1 Ht. assert (ps_section s = 0 \/ ps_section s = 1) as Hsec by (unfold section_ok in Hs; lia). exists s, sections. split; [done|]. unfold currentVersion. cbn [sameVersion]. rewrite Z.eqb_refl, !latestSection_cons.
  assert (forall t0, sb_version t0 = ps_version s -> latestSection 0 (sameVersion (ps_version s) sections) = seenEvents (sb_seen0 t0) (sb_events0 t0) -> latestSection 1 (sameVersion (ps_version s) sections) = seenEvents (sb_seen1 t0) (sb_events1 t0) ->
    let t1 := setSection t0 (ps_section s) (ps_events s) in sb_version t1 = ps_version s
      /\ (if decide (ps_section s = 0) then Some (markEvents 0 (ps_events s)) else latestSection 0 (sameVersion (ps_version s) sections)) = seenEvents (sb_seen0 t1) (sb_events0 t1)
      /\ (if decide (ps_section s = 1) then Some (markEvents 1 (ps_events s)) else latestSection 1 (sameVersion (ps_version s) sections)) = seenEvents (sb_seen1 t1) (sb_events1 t1)) as Hset.
  { intros t0 Ev E0 E1. unfold setSection. destruct Hsec as [E|E]; rewrite E; cbn [Z.eqb sb_version sb_seen0 sb_seen1 sb_events0 sb_events1]; repeat (rewrite decide_True by done || rewrite decide_False by done); by rewrite ?E0, ?E1. }
  destruct t as [t|].
  - destruct Ht as (s0 & rest & -> & Ev & E0 & E1). unfold currentVersion in E0, E1. destruct (Z.eqb_spec (sb_version t) (ps_version s)) as [Eq|Hne].
    + apply Hset; [done|by rewrite <- Eq, Ev..].
    + assert (sameVersion (ps_version s) (s0 :: rest) = []) as En by (cbn [sameVersion]; destruct (Z.eqb_spec (ps_version s0) (ps_version s)); [congruence|done]). apply Hset; [done|by rewrite En..].
  - cbn in Ht. subst sections. by apply Hset.
Qed.

Lemma afterHistory_ok history k : Forall section_ok history -> subtable_ok (ofTable k history) (afterHistory history !! k).
Proof.
  induction 1 as [|s history Hs _ IH]; [done|]. cbn [afterHistory]. rewrite ofTable_cons. unfold observeSection, ObservePF. cbv zeta. destruct (Z.ltb_spec 1 (ps_section s)) as [H1|H1]; cbn [orb].
  { rewrite decide_False by lia. done. }
  destruct (Z.eqb_spec (ps_last s) 1) as [H2|H2]; cbn [negb]; [|by rewrite decide_False by tauto].
  assert (forall (b : bool) (x y : pfCollector * option PresentFollowingSnapshot), (if b then x else y).1 = if b then x.1 else y.1) as -> by (by intros []). cbn [fst].
  assert (forall (b : bool) (c : pfCollector), (if b then c else c) = c) as -> by (by intros []). destruct (decide ((ps_service s, ps_tableID s) = k)) as [<- |Hne].
  - rewrite lookup_insert_eq, decide_True by (split; [done|lia]). unfold currentTable. by apply observe_ok; [|lia|].
  - rewrite lookup_insert_ne by done. by rewrite decide_False by tauto.
Qed.

(** C33: After any history, observing a section of a present/following table
    hands on a snapshot exactly when both sections of its current version have
    been observed since the version came up, and the snapshot has the events of
    the latest of each, marked present and following. *)
Theorem snapshots_are_complete history s now (Hh : Forall section_ok (s :: history)) :
  (observeSection (afterHistory history) s now).2 =
    if decide (ps_section s <= 1 /\ ps_last s = 1) then
      match pfState (ps_service s, ps_tableID s) (s :: history) with
      | (Some present, Some following) => Some (mkSnapshot now (ps_service s) (present ++ following))
      | _ => None
      end
    else None.
Proof.
  pose proof (afterHistory_ok (s :: history) (ps_service s, ps_tableID s) Hh) as H. apply Forall_cons in Hh as [Hs _]. cbn [afterHistory] in H. unfold observeSection, ObservePF in *. cbv zeta in *.
  destruct (Z.ltb_spec 1 (ps_section s)) as [H1|H1]; cbn [orb] in *; [by rewrite decide_False by lia|]. destruct (Z.eqb_spec (ps_last s) 1) as [H2|H2]; cbn [negb] in *; [|by rewrite decide_False by tauto].
  rewrite decide_True by lia. set (t := setSection _ _ _) in *. unfold pfState. rewrite ofTable_cons, decide_True in * by (split; [done|lia]).
  assert (forall (b : bool) (x y : pfCollector * option PresentFollowingSnapshot), (if b then x else y).1 = if b then x.1 else y.1) as Hif by (by intros []). rewrite Hif in H. cbn [fst] in H.
  assert (forall (b : bool) (c : pfCollector), (if b then c else c) = c) as Hid by (by intros []). rewrite Hid, lookup_insert_eq in H. destruct H as (s0 & rest & [= <- <-] & _ & E0 & E1). rewrite E0, E1.
  destruct (sb_seen0 t), (sb_seen1 t); done.
Qed.

Definition demoPresent : Event := mkEvent None None false false false (mkServiceKey 4 16625 101) 500 (Some 1700000000000) (Some 1800000) 0 false "jpn" "News" "" [] [] [] [] [] [] None.
Definition demoPfSections : list pfSection := [mkPfSection (mkServiceKey 4 16625 101) 0x4e 3 1 1 []; mkPfSection (mkServiceKey 4 16625 101) 0x4e 3 0 1 [demoPresent]].

Lemma snapshots_are_complete_witness : (observeSection (afterHistory (tail demoPfSections)) (mkPfSection (mkServiceKey 4 16625 101) 0x4e 3 1 1 []) 9).2 = Some (mkSnapshot 9 (mkServiceKey 4 16625 101) [withSlots demoPresent true false false]).
Proof. rewrite snapshots_are_complete; [reflexivity|]. repeat constructor; unfold section_ok; cbn; lia. Defined.
