(* ===== verification/ProgramStream.v ===== *)
(** * Program streams (internal/stream/programstream/programstream.go)

    A program stream passes the packets of a service on while one event is on
    air.  [tracker] watches the present event: packets pass once it has been the
    requested one, and a timer cancels the stream when the event never comes,
    has ended, or has not been seen for a while.  Times are in nanoseconds.

    Time stands still while a goroutine that the timer started is running: the
    delays of the scheduler are not counted.  What happens at one instant still
    happens in any order. *)

From S2P Require Import Prelude.

Definition second : Z := 1000000000.
Definition eventEndGrace : Z := second.
Definition eventMissingFallback : Z := 180 * second.
Definition eventStaleAfter : Z := 10 * second.
Definition eventWatchInterval : Z := 3 * second.

(** [tr_timer] is when [stopTimer] fires; [tr_lastDetectedAt] is [None] for the
    zero time. *)
Record tracker := mkTracker {
  tr_eventID : Z;
  tr_lastDetectedAt : option Z;
  tr_ready : bool;
  tr_timer : option Z;
  tr_cancelled : bool
}.

Definition timeout (startAtMS durationMS now : Z) : Z :=
  let timeout := (startAtMS + durationMS) * 1000000 - now in
  let timeout := if durationMS =? 1 then timeout + eventMissingFallback else timeout in
  if timeout <? 0 then eventMissingFallback else timeout.

Definition newTracker (eventID timeout now : Z) : tracker :=
  mkTracker eventID None false (Some (now + if timeout <=? 0 then eventMissingFallback else timeout)) false.

Definition observePresent (g : tracker) (presentEventID now : Z) : tracker :=
  if presentEventID =? tr_eventID g then mkTracker (tr_eventID g) (Some now) true (Some (now + eventStaleAfter)) (tr_cancelled g)
  else if tr_ready g then mkTracker (tr_eventID g) None true (Some (now + eventEndGrace)) (tr_cancelled g)
  else g.

(** [closeIfStale] after it has read [last]. *)
Definition closeIfStale (g : tracker) (last : option Z) (now : Z) : tracker :=
  match last with
  | Some t =>
      if now - t <? eventStaleAfter then mkTracker (tr_eventID g) (tr_lastDetectedAt g) (tr_ready g) (Some (now + eventWatchInterval)) (tr_cancelled g)
      else mkTracker (tr_eventID g) (tr_lastDetectedAt g) (tr_ready g) (tr_timer g) true
  | None => mkTracker (tr_eventID g) (tr_lastDetectedAt g) (tr_ready g) (tr_timer g) true
  end.

(** One turn of [copyPackets]: what is written of a packet. *)
Definition copyPacket (g : tracker) (packet : bytes) : list bytes := if tr_ready g then [packet] else [].

(** The beginning of [Run]; an undecided time counts as 0. *)
Definition trackerFor (eventID : Z) (startAt durationMS : option Z) (now : Z) : tracker := newTracker eventID (timeout (default 0 startAt) (default 0 durationMS) now) now.

(** ** A running stream *)

(** [ps_closers] are the running calls of [closeIfStale], with what each has
    read; [ps_hand] is the packet [copyPackets] has read and not yet checked.
    Ghost state: when the last observation counted, the packets [copyPackets]
    has dealt with, and how many of them it had by the first detection. *)
Record programStream := mkStream {
  ps_now : Z;
  ps_tracker : tracker;
  ps_closers : list (option (option Z));
  ps_observedAt : Z;
  ps_hand : option bytes;
  ps_checked : list bytes;
  ps_before : nat;
  ps_written : list bytes
}.

Inductive programStep : programStream -> programStream -> Prop :=
  | p_tick now g at_ hand checked before written d : 0 < d -> (forall t, tr_timer g = Some t -> now + d <= t) ->
      programStep (mkStream now g [] at_ hand checked before written) (mkStream (now + d) g [] at_ hand checked before written)
  | p_fire now g closers at_ hand checked before written t : tr_timer g = Some t -> t <= now ->
      programStep (mkStream now g closers at_ hand checked before written)
        (mkStream now (mkTracker (tr_eventID g) (tr_lastDetectedAt g) (tr_ready g) None (tr_cancelled g)) (closers ++ [None]) at_ hand checked before written)
  | p_read now g closers at_ hand checked before written i : closers !! i = Some None ->
      programStep (mkStream now g closers at_ hand checked before written) (mkStream now g (<[i := Some (tr_lastDetectedAt g)]> closers) at_ hand checked before written)
  | p_act now g closers at_ hand checked before written i last : closers !! i = Some (Some last) ->
      programStep (mkStream now g closers at_ hand checked before written) (mkStream now (closeIfStale g last now) (delete i closers) at_ hand checked before written)
  | p_observe now g closers at_ hand checked before written id :
      programStep (mkStream now g closers at_ hand checked before written)
        (mkStream now (observePresent g id now) closers (if (id =? tr_eventID g) || tr_ready g then now else at_) hand checked (if tr_ready g then before else length checked) written)
  | p_next now g closers at_ checked before written packet :
      programStep (mkStream now g closers at_ None checked before written) (mkStream now g closers at_ (Some packet) checked before written)
  | p_check now g closers at_ checked before written packet :
      programStep (mkStream now g closers at_ (Some packet) checked before written) (mkStream now g closers at_ None (checked ++ [packet]) before (written ++ copyPacket g packet)).

Definition newStream (eventID : Z) (startAt durationMS : option Z) (now : Z) : programStream := mkStream now (trackerFor eventID startAt durationMS now) [] now None [] 0 [].

(** Until when the stream may stay open. *)
Definition openUntil (deadline : Z) (s : programStream) : Z :=
  match tr_lastDetectedAt (ps_tracker s) with
  | Some t => t + eventStaleAfter + eventWatchInterval
  | None => if tr_ready (ps_tracker s) then ps_observedAt s + eventWatchInterval else deadline
  end.

(** What a running call of [closeIfStale] has read is what is there, unless
    something was observed at this very instant. *)
Definition read_ok (now observedAt : Z) (g : tracker) (closer : option (option Z)) : Prop :=
  match closer with None => True | Some last => last = tr_lastDetectedAt g /\ (forall t, last = Some t -> t <= now) \/ observedAt = now /\ tr_ready g = true /\ (forall t, tr_lastDetectedAt g = Some t -> t = now) /\ (forall t, last = Some t -> t <= now) end.

Record programStream_ok (deadline : Z) (s : programStream) : Prop := {
  so_read : Forall (read_ok (ps_now s) (ps_observedAt s) (ps_tracker s)) (ps_closers s);
  so_last : forall t, tr_lastDetectedAt (ps_tracker s) = Some t -> t <= ps_now s /\ tr_ready (ps_tracker s) = true;
  so_time : tr_cancelled (ps_tracker s) = false -> ps_now s <= openUntil deadline s;
  so_timer : tr_cancelled (ps_tracker s) = false -> match tr_timer (ps_tracker s) with Some t => t <= openUntil deadline s | None => ps_closers s <> [] end;
  so_before : (ps_before s <= length (ps_checked s))%nat;
  so_written : ps_written s = if tr_ready (ps_tracker s) then drop (ps_before s) (ps_checked s) else []
}.

(** ** The invariant *)

Ltac clocks := unfold openUntil, eventStaleAfter, eventWatchInterval, eventEndGrace, second in *; cbn [ps_now ps_tracker ps_closers ps_observedAt ps_hand ps_checked ps_before ps_written tr_eventID tr_lastDetectedAt tr_ready tr_timer tr_cancelled] in *.

Lemma programStep_ok deadline s s' : programStep s s' -> programStream_ok deadline s -> programStream_ok deadline s'.
Proof.
  intros Hs [H1 H2 H3 H4 H5 H6]. destruct Hs as [now g at_ hand checked before written d Hd Ht|now g closers at_ hand checked before written t Ht Hle|now g closers at_ hand checked before written i Hi|now g closers at_ hand checked before written i last Hi|now g closers at_ hand checked before written id|now g closers at_ checked before written packet|now g closers at_ checked before written packet]; clocks.
  - constructor; clocks; try done.
    + intros t E. destruct (H2 t E). split; [lia|done].
    + intros Hc. specialize (H4 Hc). destruct (tr_timer g) as [t|]; [|done]. specialize (Ht t eq_refl). lia.
  - constructor; clocks; try done; [apply Forall_app; by split; [|apply Forall_singleton]|]. intros _. by destruct closers.
  - constructor; clocks; try done; [apply Forall_insert; [done|]; left; split; [done|]; intros t E; by destruct (H2 t E)|]. intros Hc. specialize (H4 Hc). destruct (tr_timer g); [done|]. intros E. apply H4. apply (f_equal length) in E. rewrite length_insert in E. by apply nil_length_inv.
  - pose proof (Forall_lookup_1 _ _ _ _ H1 Hi) as Hr. cbn in Hr. assert (forall timer c, Forall (read_ok now at_ (mkTracker (tr_eventID g) (tr_lastDetectedAt g) (tr_ready g) timer c)) (delete i closers)) as Hrest by (intros timer c; by apply (Forall_delete _ closers i) in H1).
    unfold closeIfStale. destruct last as [t|]; [destruct (Z.ltb_spec (now - t) eventStaleAfter) as [Hf|Hf]|]; (constructor; clocks; try done).
    intros Hc. destruct Hr as [[E Hl]|(E & Er & Hnow & Hl)].
    + rewrite <- E. specialize (Hl t eq_refl). lia.
    + specialize (Hl t eq_refl). destruct (tr_lastDetectedAt g) as [t'|]; [specialize (Hnow t' eq_refl)|rewrite Er]; lia.
  - assert (forall g', tr_ready g' = true -> (forall t, tr_lastDetectedAt g' = Some t -> t = now) -> Forall (read_ok now now g') closers) as Hc.
    { intros g' Hr Hl. eapply Forall_impl; [exact H1|]. intros [last|] Hx; [|done]. right. conjs; try done. destruct Hx as [[_ Hx]|(_ & _ & _ & Hx)]; exact Hx. }
    unfold observePresent. destruct (Z.eqb_spec id (tr_eventID g)) as [->|Hne]; cbn [orb].
    + constructor; clocks; try done; [by apply Hc; [|intros t [= <-]]|intros t [= <-]; split; [lia|done]|lia|lia|by destruct (tr_ready g)|]. rewrite H6. destruct (tr_ready g); [done|]. by rewrite drop_all.
    + destruct (tr_ready g) eqn:Er; [|constructor; clocks; rewrite ?Er; try done; by intros t E]. constructor; clocks; try done; [by apply Hc|lia..].
  - by constructor.
  - constructor; clocks; try done; [rewrite length_app; cbn; lia|]. rewrite H6. unfold copyPacket. destruct (tr_ready g); [|done]. by rewrite drop_app_le.
Qed.

Definition deadlineOf (startAt durationMS : option Z) (now : Z) : Z := now + let t := timeout (default 0 startAt) (default 0 durationMS) now in if t <=? 0 then eventMissingFallback else t.

Lemma newStream_ok eventID startAt durationMS now : programStream_ok (deadlineOf startAt durationMS now) (newStream eventID startAt durationMS now).
Proof.
  unfold newStream, trackerFor, newTracker, deadlineOf. cbv zeta. set (t := timeout _ _ _). constructor; clocks; try done. intros _. unfold eventMissingFallback, second. destruct (Z.leb_spec t 0); lia.
Qed.

Lemma stream_reachable eventID startAt durationMS now s : rtc programStep (newStream eventID startAt durationMS now) s -> programStream_ok (deadlineOf startAt durationMS now) s.
Proof. intros H. pose proof (newStream_ok eventID startAt durationMS now) as H0. induction H as [|s1 s2 s3 Hs _ IH]; [done|]. by apply IH, (programStep_ok _ s1). Qed.

(** C34: Packets pass exactly from the first one that is checked after the event
    was detected, which may have been read before.
    A stream that is still open is so for a reason: the event has yet to come
    before the deadline, was detected in the last thirteen seconds, or another
    event was observed in the last three.  And it is not cut within ten seconds
    of a detection, unless something else has been observed since; a detection
    at the very instant of the cut does not count. *)
Theorem the_event_is_followed eventID startAt durationMS start s : rtc programStep (newStream eventID startAt durationMS start) s ->
  ps_written s = (if tr_ready (ps_tracker s) then drop (ps_before s) (ps_checked s) else [])
  /\ (tr_cancelled (ps_tracker s) = false -> ps_now s <= openUntil (deadlineOf startAt durationMS start) s)
  /\ forall s' t, programStep s s' -> tr_cancelled (ps_tracker s) = false -> tr_cancelled (ps_tracker s') = true -> tr_lastDetectedAt (ps_tracker s) = Some t -> t = ps_now s \/ eventStaleAfter <= ps_now s - t.
Proof.
  intros [H1 H2 H3 H4 H5 H6]%stream_reachable. conjs; [done|done|]. intros s' t Hs Hc Hc' Ht.
  destruct Hs as [| | |now g closers at_ hand checked before written i last Hi|now g closers at_ hand checked before written id| |]; clocks; try congruence.
  - pose proof (Forall_lookup_1 _ _ _ _ H1 Hi) as Hr. cbn in Hr. destruct Hr as [[-> _]|(_ & _ & Hnow & _)]; [|left; by apply Hnow]. right. unfold closeIfStale in Hc'. rewrite Ht in Hc'.
    destruct (Z.ltb_spec (now - t) eventStaleAfter) as [Hf|Hf]; clocks; [congruence|lia].
  - unfold observePresent in Hc'. repeat case_match; clocks; congruence.
Qed.

(** An event that is on air. *)
Definition demoStream : programStream := mkStream 5000000000 (mkTracker 10 (Some 5000000000) true (Some 15000000000) false) [] 5000000000 None [[0]; [1]; [2]] 1 [[1]; [2]].

Lemma demoStream_run : rtc programStep (newStream 10 (Some 60000) (Some 1800000) 0) demoStream.
Proof.
  eapply rtc_l; [apply (p_tick _ _ _ _ _ _ _ 5000000000); [done|]; intros t [= <-]; vm_compute; discriminate|].
  eapply rtc_l; [apply (p_next _ _ _ _ _ _ _ [0])|]. eapply rtc_l; [apply p_check|]. eapply rtc_l; [apply (p_next _ _ _ _ _ _ _ [1])|].
  eapply rtc_l; [apply (p_observe _ _ _ _ _ _ _ _ 10)|]. eapply rtc_l; [apply p_check|]. eapply rtc_l; [apply (p_next _ _ _ _ _ _ _ [2])|]. eapply rtc_l; [apply p_check|].
  match goal with |- rtc _ ?a ?b => replace a with b; [constructor|vm_compute; reflexivity] end.
Qed.

Lemma the_event_is_followed_witness : ps_written demoStream = drop 1 (ps_checked demoStream).
Proof. exact (proj1 (the_event_is_followed 10 (Some 60000) (Some 1800000) 0 demoStream demoStream_run)). Defined.

(** After the event every section of the next event starts the grace period
    anew: while they come more often than once a second, the stream stays open. *)
Theorem frequent_sections_keep_the_stream_open eventID next now hand checked before written (n : nat) : next <> eventID ->
  let ended now := mkStream now (mkTracker eventID None true (Some (now + eventEndGrace)) false) [] now hand checked before written in
  rtc programStep (ended now) (ended (now + Z.of_nat n * 900000000)).
Proof.
  intros Hne ended. induction n as [|n IH]; [rewrite Z.add_0_r; constructor|]. etransitivity; [exact IH|]. set (t := now + Z.of_nat n * 900000000).
  eapply rtc_l; [apply (p_tick _ _ _ _ _ _ _ 900000000); [done|]; cbn; intros x [= <-]; unfold eventEndGrace, second; lia|].
  eapply rtc_l; [apply (p_observe _ _ _ _ _ _ _ _ next)|]. cbn. unfold observePresent. cbn. rewrite (proj2 (Z.eqb_neq next eventID) Hne). cbn. replace (now + Z.of_nat (S n) * 900000000) with (t + 900000000) by (unfold t; lia). constructor.
Qed.
