(* ===== verification/AribText.v ===== *)
(** * The decoder of broadcast texts (ts/aribstr/decode.go, table_key.go)

    [Decode] follows the code extension of ARIB STD-B24: four graphic sets are
    designated to G0 to G3, two of which are invoked for the lower and upper half
    of the code table, and control codes change both.  A string is the list of
    its code points.

    [jisTransform] is what the ISO-2022-JP decoder of golang.org/x/text makes of
    one character of JIS X 0208, [None] for an error. *)

From S2P Require Import Prelude AribTables.

Inductive aribGraphicSet :=
  | aribSetKanji
  | aribSetAlphanumeric
  | aribSetHiragana
  | aribSetKatakana
  | aribSetJISX0201Katakana
  | aribSetProportionalAlphanumeric
  | aribSetProportionalHiragana
  | aribSetProportionalKatakana
  | aribSetJISCompatibleKanjiPlane1
  | aribSetJISCompatibleKanjiPlane2
  | aribSetAdditionalSymbols
  | aribSetDRCS0
  | aribSetDRCS1Byte
  | aribSetMacro.

#[export] Instance aribGraphicSet_eq_dec : EqDecision aribGraphicSet.
Proof. solve_decision. Defined.

Record aribStringDecoder := mkDecoder {
  ad_g : list aribGraphicSet;
  ad_gl : Z;
  ad_gr : Z;
  ad_narrowAlnum : bool
}.

Definition RuneError : Z := 0xfffd.

Definition setG (d : aribStringDecoder) (i : Z) (set : aribGraphicSet) : aribStringDecoder := mkDecoder (<[Z.to_nat i := set]> (ad_g d)) (ad_gl d) (ad_gr d) (ad_narrowAlnum d).
Definition setGL (d : aribStringDecoder) (gl : Z) : aribStringDecoder := mkDecoder (ad_g d) gl (ad_gr d) (ad_narrowAlnum d).
Definition setGR (d : aribStringDecoder) (gr : Z) : aribStringDecoder := mkDecoder (ad_g d) (ad_gl d) gr (ad_narrowAlnum d).
Definition setNarrow (d : aribStringDecoder) (narrow : bool) : aribStringDecoder := mkDecoder (ad_g d) (ad_gl d) (ad_gr d) narrow.

(** ** Looking characters up *)

Definition aribRowCellKey (first second : Z) : Z := Z.lor (Z.shiftl first 8) second.
Definition aribPlaneRowCellKey (plane first second : Z) : Z := Z.lor (Z.lor (Z.shiftl plane 16) (Z.shiftl first 8)) second.
Definition aribValidRowCell (first second : Z) : bool := (0x21 <=? first) && (first <=? 0x7e) && (0x21 <=? second) && (second <=? 0x7e).

(** [sort.Search]: the least index in [\[i, j)] from which on the predicate holds,
    by halving the interval. *)
Fixpoint searchFuel (fuel : nat) (f : nat -> bool) (i j : nat) : nat :=
  match fuel with
  | O => i
  | S fuel => if (i <? j)%nat then let h := ((i + j) / 2)%nat in if f h then searchFuel fuel f i h else searchFuel fuel f (S h) j else i
  end.

Definition searchTable {A} (table : list A) (key : A -> Z) (k : Z) : option A :=
  match table !! searchFuel (S (length table)) (fun i => match table !! i with Some e => k <=? key e | None => true end) 0 (length table) with
  | Some e => if key e =? k then Some e else None
  | None => None
  end.

Definition table719Row (first : Z) : option (list Z) :=
  if first =? 0x75 then Some aribTable719Row75 else if first =? 0x76 then Some aribTable719Row76 else if first =? 0x7a then Some aribTable719Row7a
  else if first =? 0x7b then Some aribTable719Row7b else if first =? 0x7c then Some aribTable719Row7c else if first =? 0x7d then Some aribTable719Row7d
  else if first =? 0x7e then Some aribTable719Row7e else None.

Definition lookupARIBTable719AdditionalSymbol (first second : Z) : go (option (list Z)) :=
  if (second <? 0x21) || (0x7e <? second) then Ret None
  else
    match table719Row first with
    | None => Ret None
    | Some row => r ← idx row (second - 0x21); Ret (if r =? 0 then None else Some [r])
    end.

Definition lookupARIBTable721BMPKanjiPUA (plane first second : Z) : option (list Z) :=
  (fun e => [e.2]) <$> searchTable aribTable721BMPKanjiPUA fst (aribPlaneRowCellKey plane first second).

Definition lookupJISX0213Delta (key : Z) : option (list Z) := snd <$> searchTable jisX0213DeltaDecode fst key.

Definition jisX0213Plane1CellUndefined (key : Z) : bool := match searchTable jisX0213Plane1Undefined (fun k => k) key with Some _ => true | None => false end.

Definition aribHiraganaOverrides (b : Z) : option (list Z) :=
  if b =? 0x77 then Some [0x309d] else if b =? 0x78 then Some [0x309e] else if b =? 0x79 then Some [0x30fc] else if b =? 0x7a then Some [0x3002]
  else if b =? 0x7b then Some [0x300c] else if b =? 0x7c then Some [0x300d] else if b =? 0x7d then Some [0x3001] else if b =? 0x7e then Some [0x30fb] else None.

Definition aribKatakanaOverrides (b : Z) : option (list Z) :=
  if b =? 0x77 then Some [0x30fd] else if b =? 0x78 then Some [0x30fe] else if b =? 0x79 then Some [0x30fc] else if b =? 0x7a then Some [0x3002]
  else if b =? 0x7b then Some [0x300c] else if b =? 0x7c then Some [0x300d] else if b =? 0x7d then Some [0x3001] else if b =? 0x7e then Some [0x30fb] else None.

Definition aribJISX0208Overrides (key : Z) : option (list Z) :=
  if key =? 0x213d then Some [0x2014] else if key =? 0x2141 then Some [0x301c] else if key =? 0x215d then Some [0x2212] else None.

Section Decoder.
Context (jisTransform : Z -> Z -> option (list Z)).

Definition decodeJISX0208Pair (first second : Z) : option (list Z) :=
  match jisTransform first second with
  | None => None
  | Some s => if bool_decide (RuneError ∈ s) then None else Some s
  end.

Definition decodeJISX0208Graphic (first second : Z) : go (list Z) :=
  if negb (aribValidRowCell first second) then Ret [RuneError]
  else
    symbol ← (if (first =? 0x75) || (first =? 0x76) || (0x7a <=? first) then lookupARIBTable719AdditionalSymbol first second else Ret None);
    match symbol with
    | Some s => Ret s
    | None =>
        match aribJISX0208Overrides (aribRowCellKey first second) with
        | Some s => Ret s
        | None => match decodeJISX0208Pair first second with None | Some [] => Ret [RuneError] | Some s => Ret s end
        end
    end.

Definition lookupJISX0213 (plane first second : Z) : option (list Z) :=
  if negb (aribValidRowCell first second) then None
  else match lookupJISX0213Delta (aribPlaneRowCellKey plane first second) with
  | Some s => Some s
  | None =>
      if plane =? 1 then
        if jisX0213Plane1CellUndefined (aribRowCellKey first second) then None
        else match decodeJISX0208Pair first second with
        | None => None
        | Some s => if bool_decide (s = [RuneError]) then None else Some s
        end
      else None
  end.

Definition decodeARIBHiragana (b : Z) : go (list Z) := match aribHiraganaOverrides b with Some s => Ret s | None => decodeJISX0208Graphic 0x24 b end.
Definition decodeARIBKatakana (b : Z) : go (list Z) := match aribKatakanaOverrides b with Some s => Ret s | None => decodeJISX0208Graphic 0x25 b end.
Definition decodeARIBNarrowJISRoman (b : Z) : list Z := if (0x21 <=? b) && (b <=? 0x7e) then [b] else [RuneError].

Definition decodeARIBAdditionalSymbol (first second : Z) : go (list Z) :=
  symbol ← lookupARIBTable719AdditionalSymbol first second;
  match symbol with
  | Some s => Ret s
  | None => decodeJISX0208Graphic first second
  end.

Definition decodeARIBDRCS0 (first second : Z) : go (list Z) := symbol ← lookupARIBTable719AdditionalSymbol first second; Ret (default [RuneError] symbol).

Definition decodeARIBJISCompatibleKanji (plane first second : Z) : list Z :=
  match lookupARIBTable721BMPKanjiPUA plane first second with
  | Some s => s
  | None => default [RuneError] (lookupJISX0213 plane first second)
  end.

Definition normalizeGraphicByte (b : Z) (gr : bool) : Z := if gr then Z.land b 0x7f else b.

Definition decodeARIBAlnum (d : aribStringDecoder) (b : Z) : Z :=
  let narrow := ad_narrowAlnum d in
  if b =? 0x20 then 0x3000
  else if narrow && (0x21 <=? b) && (b <=? 0x7e) then b
  else if b =? 0x22 then 0x201d
  else if (0x30 <=? b) && (b <=? 0x39) then (if narrow then 0x30 else 0xff10) + (b - 0x30)
  else if (0x41 <=? b) && (b <=? 0x5a) then 0xff21 + (b - 0x41)
  else if (0x61 <=? b) && (b <=? 0x7a) then 0xff41 + (b - 0x61)
  else if (0x21 <=? b) && (b <=? 0x7e) then 0xff01 + (b - 0x21)
  else RuneError.

Definition decodeJISX0201Katakana (b : Z) : Z := if (0x21 <=? b) && (b <=? 0x5f) then 0xff61 + (b - 0x21) else RuneError.

(** A character of two bytes. *)
Definition decodePair (d : aribStringDecoder) (set : aribGraphicSet) (first second : Z) : go (list Z) :=
  let skips := bool_decide (set = aribSetAdditionalSymbols) || bool_decide (set = aribSetDRCS0) in
  if skips && ((second <? 0x21) || (0x7e <? second)) then Ret []
  else if bool_decide (set = aribSetKanji) && ad_narrowAlnum d && (first =? 0x21) && (second =? 0x21) then Ret [0x20]
  else if bool_decide (set = aribSetKanji) && ad_narrowAlnum d && (first =? 0x23) then Ret (decodeARIBNarrowJISRoman second)
  else match set with
  | aribSetAdditionalSymbols => decodeARIBAdditionalSymbol first second
  | aribSetDRCS0 => decodeARIBDRCS0 first second
  | aribSetJISCompatibleKanjiPlane1 => Ret (decodeARIBJISCompatibleKanji 1 first second)
  | aribSetJISCompatibleKanjiPlane2 => Ret (decodeARIBJISCompatibleKanji 2 first second)
  | _ => decodeJISX0208Graphic first second
  end.

(** The text of the character at [i], and where the next one starts. *)
Definition decodeGraphic (d : aribStringDecoder) (b : bytes) (i : Z) (set : aribGraphicSet) (gr : bool) : go (list Z * Z) :=
  x ← idx b i;
  let first := normalizeGraphicByte x gr in
  match set with
  | aribSetKanji | aribSetJISCompatibleKanjiPlane1 | aribSetJISCompatibleKanjiPlane2 | aribSetAdditionalSymbols | aribSetDRCS0 =>
      if len b <=? i + 1 then
        Ret (if bool_decide (set = aribSetAdditionalSymbols) || bool_decide (set = aribSetDRCS0) then [] else [RuneError], len b)
      else
        y ← idx b (i + 1);
        s ← decodePair d set first (normalizeGraphicByte y (0xa1 <=? y));
        Ret (s, i + 2)
  | aribSetAlphanumeric | aribSetProportionalAlphanumeric => Ret ([decodeARIBAlnum d first], i + 1)
  | aribSetHiragana | aribSetProportionalHiragana => s ← decodeARIBHiragana first; Ret (s, i + 1)
  | aribSetKatakana | aribSetProportionalKatakana => s ← decodeARIBKatakana first; Ret (s, i + 1)
  | aribSetJISX0201Katakana => Ret ([decodeJISX0201Katakana first], i + 1)
  | aribSetDRCS1Byte => Ret ([RuneError], i + 1)
  | aribSetMacro => Ret ([], i + 1)
  end.

(** ** Control codes *)

Definition designateGSet (final : Z) (multiByte : bool) : aribGraphicSet :=
  if final =? 0x42 then aribSetKanji else if final =? 0x4a then aribSetAlphanumeric else if final =? 0x30 then aribSetHiragana else if final =? 0x31 then aribSetKatakana
  else if final =? 0x36 then aribSetProportionalAlphanumeric else if final =? 0x37 then aribSetProportionalHiragana else if final =? 0x38 then aribSetProportionalKatakana
  else if final =? 0x39 then aribSetJISCompatibleKanjiPlane1 else if final =? 0x3a then aribSetJISCompatibleKanjiPlane2 else if final =? 0x49 then aribSetJISX0201Katakana
  else if final =? 0x3b then aribSetAdditionalSymbols else if final =? 0x40 then aribSetDRCS0 else if final =? 0x70 then aribSetMacro
  else if multiByte then aribSetKanji else aribSetAlphanumeric.

Definition designateDRCS1Byte (final : Z) : aribGraphicSet := aribSetDRCS1Byte.

Definition decodeEscape (d : aribStringDecoder) (b : bytes) (i : Z) : go (aribStringDecoder * Z) :=
  if len b <=? i + 1 then Ret (d, len b)
  else
    x ← idx b (i + 1);
    if x =? 0x6e then Ret (setGL d 2, i + 2)
    else if x =? 0x6f then Ret (setGL d 3, i + 2)
    else if x =? 0x7e then Ret (setGR d 1, i + 2)
    else if x =? 0x7d then Ret (setGR d 2, i + 2)
    else if x =? 0x7c then Ret (setGR d 3, i + 2)
    else if (0x28 <=? x) && (x <=? 0x2b) then
      if len b <=? i + 2 then Ret (d, len b)
      else
        y ← idx b (i + 2);
        if y =? 0x20 then
          if len b <=? i + 3 then Ret (d, len b) else z ← idx b (i + 3); Ret (setG d (x - 0x28) (designateDRCS1Byte z), i + 4)
        else Ret (setG d (x - 0x28) (designateGSet y false), i + 3)
    else if x =? 0x24 then
      if len b <=? i + 2 then Ret (d, len b)
      else
        y ← idx b (i + 2);
        if (0x28 <=? y) && (y <=? 0x2b) then
          if len b <=? i + 3 then Ret (d, len b) else z ← idx b (i + 3); Ret (setG d (y - 0x28) (designateGSet z true), i + 4)
        else Ret (setG d 0 (designateGSet y true), i + 3)
    else Ret (d, i + 2).

Definition singleShift (d : aribStringDecoder) (b : bytes) (i g : Z) : go (aribStringDecoder * list Z * Z) :=
  if len b <=? i + 1 then Ret (d, [RuneError], len b)
  else
    x ← idx b (i + 1);
    set ← idx (ad_g d) g;
    r ← decodeGraphic d b (i + 1) set (0xa1 <=? x);
    Ret (d, r.1, r.2).

Definition decodeC0 (d : aribStringDecoder) (b : bytes) (i : Z) : go (aribStringDecoder * list Z * Z) :=
  c ← idx b i;
  if c =? 0x0d then Ret (d, [0x0a], i + 1)
  else if c =? 0x0e then Ret (setGL d 1, [], i + 1)
  else if c =? 0x0f then Ret (setGL d 0, [], i + 1)
  else if c =? 0x16 then Ret (d, [], Z.min (i + 2) (len b))
  else if c =? 0x19 then singleShift d b i 2
  else if c =? 0x1b then r ← decodeEscape d b i; Ret (r.1, [], r.2)
  else if c =? 0x1c then Ret (d, [], Z.min (i + 3) (len b))
  else if c =? 0x1d then singleShift d b i 3
  else Ret (d, [], i + 1).

(** The end of a control sequence: the search for its final byte. *)
Fixpoint skipCSI (b : bytes) (rest : bytes) (j : Z) : Z :=
  match rest with
  | [] => len b
  | x :: rest => if (0x40 <=? x) && (x <=? 0x7e) then j + 1 else skipCSI b rest (j + 1)
  end.

Definition skipC1Control (d : aribStringDecoder) (b : bytes) (i : Z) : go (aribStringDecoder * Z) :=
  c ← idx b i;
  if c =? 0x89 then Ret (setNarrow d true, i + 1)
  else if c =? 0x8a then Ret (setNarrow d false, i + 1)
  else if (c =? 0x90) || (c =? 0x91) || (c =? 0x92) || (c =? 0x97) || (c =? 0x98) then Ret (d, Z.min (i + 2) (len b))
  else if c =? 0x9b then Ret (d, skipCSI b (drop (Z.to_nat (i + 1)) b) (i + 1))
  else if c =? 0x9d then Ret (d, Z.min (i + 3) (len b))
  else Ret (d, i + 1).

(** ** The loop *)

Definition decodeTurn (b : bytes) (s : aribStringDecoder * list Z * Z) : go (iteration (aribStringDecoder * list Z * Z) (list Z)) :=
  let '(d, out, i) := s in
  if len b <=? i then Ret (Break out)
  else
    c ← idx b i;
    if (c =? 0x20) || (c =? 0xa0) then Ret (Continue (d, out ++ [if ad_narrowAlnum d then 0x20 else 0x3000], i + 1))
    else if c <=? 0x1f then
      r ← decodeC0 d b i;
      let '(d, text, next) := r in
      Ret (Continue (d, out ++ text, if next <=? i then i + 1 else next))
    else if (0x80 <=? c) && (c <=? 0x9f) then r ← skipC1Control d b i; Ret (Continue (r.1, out, r.2))
    else
      set ← idx (ad_g d) (ad_gl d);
      if (c =? 0xfe) && (bool_decide (set = aribSetAlphanumeric) || bool_decide (set = aribSetProportionalAlphanumeric)) then Ret (Continue (d, out ++ [0x30fb], i + 1))
      else if (0x21 <=? c) && (c <=? 0x7e) then r ← decodeGraphic d b i set false; Ret (Continue (d, out ++ r.1, r.2))
      else if (0xa1 <=? c) && (c <=? 0xfe) then
        set ← idx (ad_g d) (ad_gr d);
        r ← decodeGraphic d b i set true;
        Ret (Continue (d, out ++ r.1, r.2))
      else Ret (Continue (d, out ++ [RuneError], i + 1)).

Definition newDecoder : aribStringDecoder := mkDecoder [aribSetKanji; aribSetAlphanumeric; aribSetHiragana; aribSetKatakana] 0 2 false.

Definition Decode (b : bytes) : go (list Z) := loop (S (length b)) (decodeTurn b) (newDecoder, [], 0).
End Decoder.

(** ** Binary search *)

Section Search.
Context {A : Type} (table : list A) (key : A -> Z).

(** The keys ascend. *)
Fixpoint ascending (l : list A) : bool :=
  match l with
  | x :: (y :: _) as l => (key x <? key y) && ascending l
  | _ => true
  end.

Lemma ascending_lt l : ascending l = true -> forall i j x y, (i < j)%nat -> l !! i = Some x -> l !! j = Some y -> key x < key y.
Proof.
  intros Hl. assert (forall l, ascending l = true -> forall x, head l = Some x -> forall j y, l !! S j = Some y -> key x < key y) as Hhead.
  { clear. induction l as [|a l IH]; [done|]. intros Hl x [= <-] j y Hy. destruct l as [|b l]; [done|]. cbn [ascending] in Hl. rewrite andb_true_iff, Z.ltb_lt in Hl. destruct Hl as [Hab Hl]. cbn in Hy.
    destruct j as [|j]; [by injection Hy as <-|]. specialize (IH Hl b eq_refl j y Hy). lia. }
  induction l as [|a l IH]; intros i j x y Hij Hi Hj; [done|]. destruct i as [|i].
  - injection Hi as <-. destruct j as [|j]; [lia|]. by apply (Hhead _ Hl a eq_refl j).
  - destruct j as [|j]; [lia|]. cbn in Hi, Hj. apply (IH ltac:(destruct l; [done|]; cbn [ascending] in Hl; by apply andb_true_iff in Hl as [_ ?]) i j); [lia|done|done].
Qed.

Lemma search_spec (f : nat -> bool) n : (forall i j, (i <= j < n)%nat -> f i = true -> f j = true) ->
  forall fuel i j, (i <= j <= n)%nat -> (j - i < fuel)%nat -> (forall k, (k < i)%nat -> f k = false) -> (forall k, (j <= k < n)%nat -> f k = true) ->
  let r := searchFuel fuel f i j in (i <= r <= j)%nat /\ (forall k, (k < r)%nat -> f k = false) /\ (forall k, (r <= k < n)%nat -> f k = true).
Proof.
  intros Hmono. induction fuel as [|fuel IH]; intros i j Hij Hf Hlo Hhi; [lia|]. cbn [searchFuel]. destruct (Nat.ltb_spec i j) as [Hlt|Hge]; [|assert (j = i) as -> by lia; cbv zeta; conjs; auto; lia].
  assert (i <= (i + j) / 2 < j)%nat as Hh by (split; [apply Nat.div_le_lower_bound; lia|apply Nat.div_lt_upper_bound; lia]). cbv zeta. destruct (f ((i + j) / 2)%nat) eqn:E.
  - destruct (IH i ((i + j) / 2)%nat) as (H1 & H2 & H3); [lia|lia|done|intros k Hk; apply (Hmono ((i + j) / 2)%nat k); [lia|done]|]. split; [lia|]. by split.
  - destruct (IH (S ((i + j) / 2)) j) as (H1 & H2 & H3); [lia|lia| |done|split; [lia|]; by split]. intros k Hk. destruct (f k) eqn:Ek; [|done]. rewrite (Hmono k ((i + j) / 2)%nat) in E; [done|lia|done].
Qed.

Hypothesis sorted : ascending table = true.

(** A lookup finds exactly the entries of the table. *)
Lemma searchTable_exact k e : searchTable table key k = Some e <-> e ∈ table /\ key e = k.
Proof.
  unfold searchTable. set (f := fun i => match table !! i with Some e => k <=? key e | None => true end).
  assert (forall i j, (i <= j < length table)%nat -> f i = true -> f j = true) as Hmono.
  { intros i j Hij. unfold f. destruct (lookup_lt_is_Some_2 table i ltac:(lia)) as [x Hx], (lookup_lt_is_Some_2 table j ltac:(lia)) as [y Hy]. rewrite Hx, Hy, !Z.leb_le. destruct (decide (i = j)) as [-> |Hne]; [congruence|].
    pose proof (ascending_lt table sorted i j x y ltac:(lia) Hx Hy). lia. }
  destruct (search_spec f (length table) Hmono (S (length table)) 0 (length table)) as (Hr & Hlo & Hhi); [lia..|]. set (r := searchFuel _ _ _ _) in *. split.
  - destruct (table !! r) as [x|] eqn:Ex; [|done]. destruct (Z.eqb_spec (key x) k) as [Ek|]; [|done]. intros [= <-]. split; [by eapply list_elem_of_lookup_2|done].
  - intros [(i & Hi)%list_elem_of_lookup Ek]. assert (f i = true) as Hfi by (unfold f; rewrite Hi; apply Z.leb_le; lia). pose proof (lookup_lt_Some _ _ _ Hi) as Hlt.
    assert (r <= i)%nat as Hri by (destruct (decide (r <= i)%nat); [done|]; rewrite Hlo in Hfi by lia; done). assert (r = i) as ->; [|by rewrite Hi, (proj2 (Z.eqb_eq _ _) Ek)].
    destruct (decide (r = i)) as [|Hne]; [done|]. assert (f r = true) as Hfr by (apply Hhi; lia). unfold f in Hfr. destruct (lookup_lt_is_Some_2 table r ltac:(lia)) as [x Hx]. rewrite Hx, Z.leb_le in Hfr.
    pose proof (ascending_lt table sorted r i x e ltac:(lia) Hx Hi). lia.
Qed.
End Search.

Lemma delta_ascending : ascending fst jisX0213DeltaDecode = true.
Proof. vm_compute. reflexivity. Qed.
Lemma pua_ascending : ascending fst aribTable721BMPKanjiPUA = true.
Proof. vm_compute. reflexivity. Qed.
Lemma undefined_ascending : ascending (fun k => k) jisX0213Plane1Undefined = true.
Proof. vm_compute. reflexivity. Qed.

(** C37: The tables of JIS X 0213 and of the reassigned kanji are in order, so
    that the binary searches find a character exactly when the table has it. *)
Theorem lookups_find_the_tables key s plane first second :
  (lookupJISX0213Delta key = Some s <-> (key, s) ∈ jisX0213DeltaDecode)
  /\ (lookupARIBTable721BMPKanjiPUA plane first second = Some s <-> exists r, s = [r] /\ (aribPlaneRowCellKey plane first second, r) ∈ aribTable721BMPKanjiPUA)
  /\ (jisX0213Plane1CellUndefined key = true <-> key ∈ jisX0213Plane1Undefined).
Proof.
  conjs.
  - unfold lookupJISX0213Delta. rewrite fmap_Some. split.
    + intros ([k x] & H & ->). apply searchTable_exact in H as [H E]; [|apply delta_ascending]. cbn in *. by subst.
    + intros H. exists (key, s). split; [|done]. by apply searchTable_exact; [apply delta_ascending|].
  - unfold lookupARIBTable721BMPKanjiPUA. rewrite fmap_Some. split.
    + intros ([k x] & H & ->). apply searchTable_exact in H as [H E]; [|apply pua_ascending]. cbn in *. exists x. by rewrite <- E.
    + intros (r & -> & H). exists (aribPlaneRowCellKey plane first second, r). split; [|done]. by apply searchTable_exact; [apply pua_ascending|].
  - unfold jisX0213Plane1CellUndefined. destruct (searchTable jisX0213Plane1Undefined (fun k => k) key) as [k|] eqn:E.
    + apply searchTable_exact in E as [H ->]; [done|apply undefined_ascending].
    + split; [done|]. intros H. assert (searchTable jisX0213Plane1Undefined (fun k => k) key = Some key) as X by (by apply searchTable_exact; [apply undefined_ascending|]). congruence.
Qed.

(** ** Decoding *)

(** A Unicode scalar value. *)
Definition isRune (r : Z) : bool := ((0 <=? r) && (r <? 0xd800)) || ((0xe000 <=? r) && (r <? 0x110000)).
Definition runes_ok (s : list Z) : Prop := Forall (fun r => isRune r = true) s.

Lemma isRune_iff r : isRune r = true <-> 0 <= r < 0xd800 \/ 0xe000 <= r < 0x110000.
Proof. unfold isRune. rewrite orb_true_iff, !andb_true_iff, !Z.leb_le, !Z.ltb_lt. lia. Qed.

Lemma runes_one r : 0 <= r < 0xd800 \/ 0xe000 <= r < 0x110000 -> runes_ok [r].
Proof. intros H. apply Forall_singleton. by apply isRune_iff. Qed.

Lemma runes_forallb s : forallb isRune s = true -> runes_ok s.
Proof. intros H. apply Forall_forall. intros r Hr. rewrite forallb_forall in H. by apply H, list_elem_of_In. Qed.

Lemma delta_runes : forallb (fun e => forallb isRune e.2) jisX0213DeltaDecode = true.
Proof. vm_compute. reflexivity. Qed.
Lemma pua_runes : forallb (fun e => isRune e.2) aribTable721BMPKanjiPUA = true.
Proof. vm_compute. reflexivity. Qed.

Definition row_ok (row : list Z) : bool := (len row =? 94) && forallb isRune row.

Lemma table719_rows first row : table719Row first = Some row -> length row = 94%nat /\ runes_ok row.
Proof.
  assert (forallb row_ok [aribTable719Row75; aribTable719Row76; aribTable719Row7a; aribTable719Row7b; aribTable719Row7c; aribTable719Row7d; aribTable719Row7e] = true) as H by (vm_compute; reflexivity).
  rewrite forallb_forall in H. intros E. assert (row_ok row = true) as Hr. { apply H. unfold table719Row in E. repeat case_match; simplify_eq; cbn; tauto. }
  unfold row_ok in Hr. rewrite andb_true_iff, Z.eqb_eq in Hr. destruct Hr as [Hl Hr]. split; [lia|by apply runes_forallb].
Qed.

Lemma lookup719_ok first second : wp (lookupARIBTable719AdditionalSymbol first second) (fun r => forall s, r = Some s -> runes_ok s).
Proof.
  unfold lookupARIBTable719AdditionalSymbol. destruct (_ || _) eqn:E; [by apply wp_ret|]. apply orb_false_iff in E as [E1%Z.ltb_ge E2%Z.ltb_ge]. destruct (table719Row first) as [row|] eqn:Er; [|by apply wp_ret].
  destruct (table719_rows _ _ Er) as [Hl Hr]. apply wp_bind. apply wp_idx; [lia|]. intros x Hx. apply wp_ret. destruct (x =? 0); [done|]. intros s [= <-]. apply Forall_singleton. by apply (Forall_lookup_1 _ _ _ _ Hr Hx).
Qed.

Lemma delta_ok key s : lookupJISX0213Delta key = Some s -> runes_ok s.
Proof.
  unfold lookupJISX0213Delta. intros ([k x] & H & ->)%fmap_Some. apply searchTable_exact in H as [H _]; [|apply delta_ascending]. pose proof delta_runes as Hd. rewrite forallb_forall in Hd. apply runes_forallb. by apply (Hd (k, x)), list_elem_of_In.
Qed.

Lemma pua_ok plane first second s : lookupARIBTable721BMPKanjiPUA plane first second = Some s -> runes_ok s.
Proof.
  unfold lookupARIBTable721BMPKanjiPUA. intros ([k x] & H & ->)%fmap_Some. apply searchTable_exact in H as [H _]; [|apply pua_ascending]. pose proof pua_runes as Hd. rewrite forallb_forall in Hd. apply Forall_singleton. by apply (Hd (k, x)), list_elem_of_In.
Qed.

Lemma runes_error : runes_ok [RuneError].
Proof. apply runes_one. unfold RuneError. lia. Qed.
Lemma runes_nil : runes_ok [].
Proof. constructor. Qed.
#[local] Hint Resolve runes_error runes_nil : core.

Section Texts.
Context (jisTransform : Z -> Z -> option (list Z)).
Hypothesis jis_runes : forall first second s, jisTransform first second = Some s -> runes_ok s.

Lemma pair_ok first second s : decodeJISX0208Pair jisTransform first second = Some s -> runes_ok s.
Proof. unfold decodeJISX0208Pair. destruct (jisTransform first second) as [t|] eqn:E; [|done]. case_bool_decide; [done|]. intros [= <-]. by apply (jis_runes first second). Qed.

Lemma graphic0208_ok first second : wp (decodeJISX0208Graphic jisTransform first second) runes_ok.
Proof.
  unfold decodeJISX0208Graphic. destruct (negb _); [by apply wp_ret|]. apply wp_bind. apply wp_mono with (P := fun r => forall s, r = Some s -> runes_ok s); [destruct (_ || _); [apply lookup719_ok|by apply wp_ret]|].
  intros [s|] Hs; [by apply wp_ret, Hs|]. destruct (aribJISX0208Overrides (aribRowCellKey first second)) as [s|] eqn:Eo.
  - apply wp_ret. unfold aribJISX0208Overrides in Eo. repeat case_match; simplify_eq; apply runes_one; lia.
  - destruct (decodeJISX0208Pair jisTransform first second) as [[|r s]|] eqn:Ep; apply wp_ret; [done|by eapply pair_ok|done].
Qed.

Lemma kana_ok b : wp (decodeARIBHiragana jisTransform b) runes_ok /\ wp (decodeARIBKatakana jisTransform b) runes_ok.
Proof.
  unfold decodeARIBHiragana, decodeARIBKatakana. split.
  - destruct (aribHiraganaOverrides b) as [s|] eqn:E; [|apply graphic0208_ok]. apply wp_ret. unfold aribHiraganaOverrides in E. repeat case_match; simplify_eq; apply runes_one; lia.
  - destruct (aribKatakanaOverrides b) as [s|] eqn:E; [|apply graphic0208_ok]. apply wp_ret. unfold aribKatakanaOverrides in E. repeat case_match; simplify_eq; apply runes_one; lia.
Qed.

Lemma kanji_ok plane first second : runes_ok (decodeARIBJISCompatibleKanji jisTransform plane first second).
Proof.
  unfold decodeARIBJISCompatibleKanji. destruct (lookupARIBTable721BMPKanjiPUA plane first second) eqn:E1; [by eapply pua_ok|]. destruct (lookupJISX0213 jisTransform plane first second) as [s|] eqn:E2; [|done]. cbn.
  unfold lookupJISX0213 in E2. destruct (negb _); [done|]. destruct (lookupJISX0213Delta _) as [t|] eqn:E3; [injection E2 as <-; by eapply delta_ok|]. destruct (plane =? 1); [|done]. destruct (jisX0213Plane1CellUndefined _); [done|].
  destruct (decodeJISX0208Pair jisTransform first second) as [t|] eqn:E4; [|done]. case_bool_decide; [done|]. injection E2 as <-. by eapply pair_ok.
Qed.

Lemma decodePair_ok d set first second : wp (decodePair jisTransform d set first second) runes_ok.
Proof.
  unfold decodePair. cbv zeta. destruct (_ && (_ || _)); [by apply wp_ret|]. destruct (_ && _ && _ && _); [apply wp_ret, runes_one; lia|]. destruct (_ && _ && _).
  - apply wp_ret. unfold decodeARIBNarrowJISRoman. destruct (_ && _) eqn:E; [|done]. apply andb_true_iff in E as [E1%Z.leb_le E2%Z.leb_le]. apply runes_one. lia.
  - destruct set; try apply graphic0208_ok; try (apply wp_ret, kanji_ok); (apply wp_bind; eapply wp_mono; [apply lookup719_ok|]; intros [s|] Hs); [by apply wp_ret, Hs|apply graphic0208_ok|by apply wp_ret, Hs|by apply wp_ret].
Qed.

Lemma alnum_ok d b : runes_ok [decodeARIBAlnum d b].
Proof. apply runes_one. unfold decodeARIBAlnum, RuneError. cbv zeta. repeat case_match; bools; lia. Qed.

Lemma decodeGraphic_ok d b i set gr : 0 <= i < len b -> wp (decodeGraphic jisTransform d b i set gr) (fun r => runes_ok r.1 /\ i < r.2 <= len b).
Proof.
  intros Hi. unfold decodeGraphic. apply wp_bind, wp_idx; [done|]. intros x Hx. cbv zeta.
  assert (forall s, runes_ok s -> wp (Ret (s, i + 1)) (fun r : list Z * Z => runes_ok r.1 /\ i < r.2 <= len b)) as H1 by (intros s Hs; apply wp_ret; cbn; split; [done|lia]).
  assert (forall first, wp (if len b <=? i + 1 then Ret (if bool_decide (set = aribSetAdditionalSymbols) || bool_decide (set = aribSetDRCS0) then [] else [RuneError], len b)
    else y ← idx b (i + 1); s ← decodePair jisTransform d set first (normalizeGraphicByte y (0xa1 <=? y)); Ret (s, i + 2)) (fun r => runes_ok r.1 /\ i < r.2 <= len b)) as H2.
  { intros first. destruct (Z.leb_spec (len b) (i + 1)); [apply wp_ret; cbn; split; [by case_match|lia]|]. apply wp_bind, wp_idx; [lia|]. intros y Hy. apply wp_bind. eapply wp_mono; [apply decodePair_ok|]. intros s Hs. apply wp_ret. cbn. split; [done|lia]. }
  destruct set; try apply H2; try (apply H1; first [done|apply alnum_ok|by constructor]).
  all: try (apply wp_bind; eapply wp_mono; [apply kana_ok|]; intros s Hs; by apply H1). apply H1, runes_one. unfold decodeJISX0201Katakana, RuneError. destruct (_ && _) eqn:E; [apply andb_true_iff in E as [E1%Z.leb_le E2%Z.leb_le]|]; lia.
Qed.

(** A decoder whose sets are designated and invoked. *)
Definition decoder_ok (d : aribStringDecoder) : Prop := length (ad_g d) = 4%nat /\ 0 <= ad_gl d < 4 /\ 0 <= ad_gr d < 4.

Lemma setG_ok d i set : decoder_ok d -> decoder_ok (setG d i set).
Proof. intros (H1 & H2 & H3). split; [|done]. cbn. by rewrite length_insert. Qed.

Lemma escape_ok d b i : decoder_ok d -> 0 <= i < len b -> wp (decodeEscape d b i) (fun r => decoder_ok r.1 /\ i < r.2 <= len b).
Proof.
  intros Hd Hi. pose proof Hd as (H1 & H2 & H3). assert (forall d' n, decoder_ok d' -> i < n <= len b -> wp (Ret (d', n)) (fun r : aribStringDecoder * Z => decoder_ok r.1 /\ i < r.2 <= len b)) as Hret by (intros d' n Hd' Hn; by apply wp_ret).
  unfold decodeEscape. destruct (Z.leb_spec (len b) (i + 1)); [by apply Hret; [|lia]|]. apply wp_bind, wp_idx; [lia|]. intros x Hx.
  destruct (x =? 0x6e); [by apply Hret; [unfold decoder_ok; cbn; lia|lia]|]. destruct (x =? 0x6f); [by apply Hret; [unfold decoder_ok; cbn; lia|lia]|]. destruct (x =? 0x7e); [by apply Hret; [unfold decoder_ok; cbn; lia|lia]|].
  destruct (x =? 0x7d); [by apply Hret; [unfold decoder_ok; cbn; lia|lia]|]. destruct (x =? 0x7c); [by apply Hret; [unfold decoder_ok; cbn; lia|lia]|]. destruct ((0x28 <=? x) && (x <=? 0x2b)).
  - destruct (Z.leb_spec (len b) (i + 2)); [by apply Hret; [|lia]|]. apply wp_bind, wp_idx; [lia|]. intros y Hy. destruct (y =? 0x20); [|by apply Hret; [apply setG_ok|lia]].
    destruct (Z.leb_spec (len b) (i + 3)); [by apply Hret; [|lia]|]. apply wp_bind, wp_idx; [lia|]. intros z Hz. by apply Hret; [apply setG_ok|lia].
  - destruct (x =? 0x24); [|by apply Hret; [|lia]]. destruct (Z.leb_spec (len b) (i + 2)); [by apply Hret; [|lia]|]. apply wp_bind, wp_idx; [lia|]. intros y Hy. destruct ((0x28 <=? y) && (y <=? 0x2b)); [|by apply Hret; [apply setG_ok|lia]].
    destruct (Z.leb_spec (len b) (i + 3)); [by apply Hret; [|lia]|]. apply wp_bind, wp_idx; [lia|]. intros z Hz. by apply Hret; [apply setG_ok|lia].
Qed.

Lemma shift_ok d b i g : decoder_ok d -> 0 <= g < 4 -> 0 <= i < len b -> wp (singleShift jisTransform d b i g) (fun r => decoder_ok r.1.1 /\ runes_ok r.1.2 /\ i < r.2 <= len b).
Proof.
  intros Hd Hg Hi. unfold singleShift. destruct (Z.leb_spec (len b) (i + 1)); [apply wp_ret; cbn; split; [done|]; split; [done|lia]|]. apply wp_bind, wp_idx; [lia|]. intros x Hx. destruct Hd as (H1 & H2 & H3). apply wp_bind, wp_idx; [lia|]. intros set Hset.
  apply wp_bind. eapply wp_mono; [apply decodeGraphic_ok; lia|]. intros [s n] [Hs Hn]. apply wp_ret. cbn in *. split; [done|]. split; [done|lia].
Qed.

Lemma c0_ok d b i : decoder_ok d -> 0 <= i < len b -> wp (decodeC0 jisTransform d b i) (fun r => decoder_ok r.1.1 /\ runes_ok r.1.2 /\ i < r.2 <= len b).
Proof.
  intros Hd Hi. pose proof Hd as (H1 & H2 & H3). assert (forall d' s n, decoder_ok d' -> runes_ok s -> i < n <= len b -> wp (Ret (d', s, n)) (fun r : aribStringDecoder * list Z * Z => decoder_ok r.1.1 /\ runes_ok r.1.2 /\ i < r.2 <= len b)) as Hret by (intros d' s n Hd' Hs Hn; by apply wp_ret).
  assert (runes_ok []) as Hnil by constructor. unfold decodeC0. apply wp_bind, wp_idx; [done|]. intros c Hc.
  destruct (c =? 0x0d); [apply Hret; [done|apply runes_one; lia|lia]|]. destruct (c =? 0x0e); [by apply Hret; [unfold decoder_ok; cbn; lia| |lia]|]. destruct (c =? 0x0f); [by apply Hret; [unfold decoder_ok; cbn; lia| |lia]|]. destruct (c =? 0x16); [by apply Hret; [| |lia]|].
  destruct (c =? 0x19); [by apply shift_ok; [|lia|]|]. destruct (c =? 0x1b); [apply wp_bind; eapply wp_mono; [by apply escape_ok|]; intros [d' n] [Hd' Hn]; by apply Hret|]. destruct (c =? 0x1c); [by apply Hret; [| |lia]|].
  destruct (c =? 0x1d); [by apply shift_ok; [|lia|]|]. by apply Hret; [| |lia].
Qed.

Lemma skipCSI_range b rest j : 0 <= j -> j + len rest = len b -> 0 < j -> j <= skipCSI b rest j <= len b.
Proof. revert j. induction rest as [|x rest IH]; intros j H0 Hl Hp; cbn [skipCSI]; [cbn in Hl; lia|]. cbn [length] in Hl. destruct (_ && _); [lia|]. specialize (IH (j + 1)). lia. Qed.

Lemma c1_ok d b i : decoder_ok d -> 0 <= i < len b -> wp (skipC1Control d b i) (fun r => decoder_ok r.1 /\ i < r.2 <= len b).
Proof.
  intros Hd Hi. pose proof Hd as (H1 & H2 & H3). assert (forall d' n, decoder_ok d' -> i < n <= len b -> wp (Ret (d', n)) (fun r : aribStringDecoder * Z => decoder_ok r.1 /\ i < r.2 <= len b)) as Hret by (intros d' n Hd' Hn; by apply wp_ret).
  unfold skipC1Control. apply wp_bind, wp_idx; [done|]. intros c Hc. destruct (c =? 0x89); [by apply Hret; [|lia]|]. destruct (c =? 0x8a); [by apply Hret; [|lia]|]. destruct (_ || _); [by apply Hret; [|lia]|].
  destruct (c =? 0x9b); [apply Hret; [done|]; pose proof (skipCSI_range b (drop (Z.to_nat (i + 1)) b) (i + 1)) as H; rewrite length_drop in H; lia|]. destruct (c =? 0x9d); by apply Hret; [|lia].
Qed.

Definition textTurn_ok (b : bytes) (s : aribStringDecoder * list Z * Z) : Prop := let '(d, out, i) := s in decoder_ok d /\ runes_ok out /\ 0 <= i <= len b.

Lemma decodeTurn_ok b s : textTurn_ok b s -> wp (decodeTurn jisTransform b s) (fun x =>
  match x with Continue s' => textTurn_ok b s' /\ 0 <= len b - s'.2 < len b - s.2 | Break r => runes_ok r end).
Proof.
  destruct s as [[d out] i]. intros (Hd & Ho & Hi). pose proof Hd as (H1 & H2 & H3). unfold decodeTurn. destruct (Z.leb_spec (len b) i); [by apply wp_ret|]. apply wp_bind, wp_idx; [lia|]. intros c Hc.
  assert (forall d' text n, decoder_ok d' -> runes_ok text -> i < n <= len b -> wp (Ret (Continue (d', out ++ text, n)))
    (fun x : iteration (aribStringDecoder * list Z * Z) (list Z) => match x with Continue s' => textTurn_ok b s' /\ 0 <= len b - s'.2 < len b - i | Break r => runes_ok r end)) as Hret.
  { intros d' text n Hd' Ht Hn. apply wp_ret. cbn. split; [|lia]. split; [done|]. split; [by apply Forall_app|lia]. }
  cbn [snd]. destruct ((c =? 0x20) || (c =? 0xa0)); [apply Hret; [done|destruct (ad_narrowAlnum d); apply runes_one; lia|lia]|]. destruct (c <=? 0x1f).
  { apply wp_bind. eapply wp_mono; [by apply c0_ok; [|lia]|]. intros [[d' text] n] (Hd' & Ht & Hn). cbn [fst snd] in *. destruct (Z.leb_spec n i); apply Hret; (done || lia). }
  destruct ((0x80 <=? c) && (c <=? 0x9f)).
  { apply wp_bind. eapply wp_mono; [by apply c1_ok; [|lia]|]. intros [d' n] (Hd' & Hn). cbn [fst snd] in *. pose proof (Hret d' [] n Hd' runes_nil Hn) as X. by rewrite app_nil_r in X. }
  apply wp_bind, wp_idx; [lia|]. intros set Hset. destruct (_ && _); [apply Hret; [done|apply runes_one; lia|lia]|]. destruct (_ && _).
  { apply wp_bind. eapply wp_mono; [apply decodeGraphic_ok; lia|]. intros [text n] [Ht Hn]. cbn [fst snd] in *. by apply Hret. }
  destruct (_ && _); [|by apply Hret; [| |lia]]. apply wp_bind, wp_idx; [lia|]. intros set' Hset'. apply wp_bind. eapply wp_mono; [apply decodeGraphic_ok; lia|]. intros [text n] [Ht Hn]. cbn [fst snd] in *. by apply Hret.
Qed.

Lemma decode_errorless b : errorless (Decode jisTransform b).
Proof.
  assert (forall f s, errorless (lookupARIBTable719AdditionalSymbol f s)) as E1 by (intros f s; unfold lookupARIBTable719AdditionalSymbol; destruct (_ || _); [done|]; destruct (table719Row f); [|done]; apply errorless_bind; [apply errorless_idx|done]).
  assert (forall f s, errorless (decodeJISX0208Graphic jisTransform f s)) as E2.
  { intros f s. unfold decodeJISX0208Graphic. destruct (negb _); [done|]. apply errorless_bind; [by destruct (_ || _)|]. intros [t|]; [done|]. destruct (aribJISX0208Overrides _); [done|]. by destruct (decodeJISX0208Pair _ _ _) as [[]|]. }
  assert (forall d set f s, errorless (decodePair jisTransform d set f s)) as E3.
  { intros d set f s. unfold decodePair. cbv zeta. destruct (_ && (_ || _)); [done|]. destruct (_ && _ && _ && _); [done|]. destruct (_ && _ && _); [done|]. destruct set; try done; (apply errorless_bind; [done|]); by intros [t|]. }
  assert (forall d i set gr, errorless (decodeGraphic jisTransform d b i set gr)) as E4.
  { intros d i set gr. unfold decodeGraphic. apply errorless_bind; [apply errorless_idx|]. intros x. cbv zeta.
    destruct set; try done; try (destruct (len b <=? i + 1); [done|]; apply errorless_bind; [apply errorless_idx|]; intros y; by apply errorless_bind);
      (apply errorless_bind; [|done]); [unfold decodeARIBHiragana; by destruct (aribHiraganaOverrides _)|unfold decodeARIBKatakana; by destruct (aribKatakanaOverrides _)|unfold decodeARIBHiragana; by destruct (aribHiraganaOverrides _)|unfold decodeARIBKatakana; by destruct (aribKatakanaOverrides _)]. }
  assert (forall d i, errorless (decodeEscape d b i)) as E5.
  { intros d i. unfold decodeEscape. repeat first [done|apply errorless_idx|apply errorless_bind; [apply errorless_idx|]; intros ?|case_match]. }
  assert (forall d i g, errorless (singleShift jisTransform d b i g)) as E6.
  { intros d i g. unfold singleShift. destruct (len b <=? i + 1); [done|]. apply errorless_bind; [apply errorless_idx|]. intros x. apply errorless_bind; [apply errorless_idx|]. intros set. by apply errorless_bind. }
  apply errorless_loop. intros [[d out] i]. unfold decodeTurn. destruct (len b <=? i); [done|]. apply errorless_bind; [apply errorless_idx|]. intros c. destruct (_ || _); [done|]. destruct (c <=? 0x1f).
  { apply errorless_bind; [|by intros [[]]]. unfold decodeC0. apply errorless_bind; [apply errorless_idx|]. intros x. repeat (destruct (x =? _); [first [done|apply E6|by apply errorless_bind]|]). done. }
  destruct (_ && _). { apply errorless_bind; [|done]. unfold skipC1Control. apply errorless_bind; [apply errorless_idx|]. intros x. by repeat case_match. }
  apply errorless_bind; [apply errorless_idx|]. intros set. destruct (_ && _); [done|]. destruct (_ && _); [by apply errorless_bind|]. destruct (_ && _); [|done]. apply errorless_bind; [apply errorless_idx|]. intros set'. by apply errorless_bind.
Qed.

Lemma wp_Decode b : wp (Decode jisTransform b) runes_ok.
Proof.
  apply (wp_loop (textTurn_ok b) (fun s => len b - s.2)); [apply decodeTurn_ok| |cbn; lia|cbn; lia].
  cbn. conjs; try done; (constructor || lia).
Qed.

(** C36: Every byte string decodes: the decoder ends, never reads out of range
    and never selects a graphic set that is not there, and what it returns is
    valid Unicode.  The hypothesis is that the ISO-2022-JP decoder returns valid
    Unicode. *)
Theorem every_text_decodes (b : bytes) : returns (Decode jisTransform b) runes_ok.
Proof. apply returns_wp; [apply decode_errorless|apply wp_Decode]. Qed.
End Texts.

Lemma every_text_decodes_witness : returns (Decode (fun _ _ => Some [0x4e9c]) [0x30; 0x21; 0x1b; 0x7c; 0xb1; 0x9b]) runes_ok.
Proof. apply (every_text_decodes (fun _ _ => Some [0x4e9c])). intros first second s [= <-]. apply runes_one. lia. Defined.

(** ** Plain texts *)

(** A text of printable ASCII, in the size of half-width letters. *)
Definition encodeASCII (s : list Z) : bytes := 0x89 :: 0x0e :: s.

Lemma ascii_turn jis pre c rest out : 0x20 <= c <= 0x7e ->
  let b := pre ++ c :: rest in let d := mkDecoder [aribSetKanji; aribSetAlphanumeric; aribSetHiragana; aribSetKatakana] 1 2 true in
  decodeTurn jis b (d, out, len pre) = Ret (Continue (d, out ++ [c], len pre + 1)).
Proof.
  intros Hc. cbv zeta. unfold decodeTurn. rewrite length_app. cbn [length]. destruct (Z.leb_spec (Z.of_nat (length pre + S (length rest))) (len pre)); [lia|].
  rewrite (idx_lookup _ _ c); [|lia|rewrite Nat2Z.id; by apply list_lookup_middle]. cbn [mbind go_bind]. destruct (Z.eqb_spec c 0x20) as [-> |]; [done|]. destruct (Z.eqb_spec c 0xa0); [lia|]. cbn [orb].
  destruct (Z.leb_spec c 0x1f); [lia|]. destruct (Z.leb_spec 0x80 c); [lia|]. cbn [andb]. change (idx (ad_g _) (ad_gl _)) with (Ret aribSetAlphanumeric). cbn [mbind go_bind]. destruct (Z.eqb_spec c 0xfe); [lia|]. cbn [andb].
  destruct (Z.leb_spec 0x21 c); [|lia]. destruct (Z.leb_spec c 0x7e); [|lia]. cbn [andb]. unfold decodeGraphic. rewrite (idx_lookup _ _ c); [|lia|rewrite Nat2Z.id; by apply list_lookup_middle]. cbn [mbind go_bind]. unfold normalizeGraphicByte, decodeARIBAlnum. cbn [ad_narrowAlnum andb].
  destruct (Z.eqb_spec c 0x20); [lia|]. destruct (Z.leb_spec 0x21 c); [|lia]. destruct (Z.leb_spec c 0x7e); [|lia]. done.
Qed.

Lemma ascii_loop jis s : Forall (fun c => 0x20 <= c <= 0x7e) s -> forall fuel pre out, (length s < fuel)%nat ->
  loop fuel (decodeTurn jis (pre ++ s)) (mkDecoder [aribSetKanji; aribSetAlphanumeric; aribSetHiragana; aribSetKatakana] 1 2 true, out, len pre) = Ret (out ++ s).
Proof.
  induction 1 as [|c s Hc _ IH]; intros fuel pre out Hf; (destruct fuel as [|fuel]; [cbn in Hf; lia|]); rewrite loop_S.
  - unfold decodeTurn. rewrite !app_nil_r. destruct (Z.leb_spec (len pre) (len pre)); [done|lia].
  - rewrite ascii_turn by done. cbn [mbind go_bind]. cbn [length] in Hf. specialize (IH fuel (pre ++ [c]) (out ++ [c]) ltac:(lia)). rewrite <- !app_assoc in IH. cbn [app] in IH. rewrite length_app in IH. cbn [length] in IH.
    replace (len pre + 1) with (Z.of_nat (length pre + 1)) by lia. exact IH.
Qed.

(** Printable ASCII comes back unchanged from its encoding in half-width
    letters, whatever the decoder of kanji does. *)
Theorem ascii_texts_survive jis (s : list Z) (Hs : Forall (fun c => 0x20 <= c <= 0x7e) s) : Decode jis (encodeASCII s) = Ret s.
Proof.
  assert (decodeTurn jis (encodeASCII s) (newDecoder, [], 0) = Ret (Continue (setNarrow newDecoder true, [], 1))) as E1.
  { unfold decodeTurn. assert (len (encodeASCII s) <=? 0 = false) as -> by (apply Z.leb_gt; cbn [encodeASCII length]; lia). reflexivity. }
  assert (decodeTurn jis (encodeASCII s) (setNarrow newDecoder true, [], 1) = Ret (Continue (setGL (setNarrow newDecoder true) 1, [], 2))) as E2.
  { unfold decodeTurn. assert (len (encodeASCII s) <=? 1 = false) as -> by (apply Z.leb_gt; cbn [encodeASCII length]; lia). reflexivity. }
  unfold Decode. rewrite loop_S, E1. cbn [mbind go_bind]. change (length (encodeASCII s)) with (S (S (length s))). rewrite loop_S, E2. cbn [mbind go_bind].
  exact (ascii_loop jis s Hs (S (length s)) [0x89; 0x0e] [] ltac:(lia)).
Qed.

Lemma ascii_texts_survive_witness : Decode (fun _ _ => None) (encodeASCII [78; 72; 75]) = Ret [78; 72; 75].
Proof. apply ascii_texts_survive. repeat constructor; lia. Defined.
