(* ===== verification/ModuleCache.v ===== *)
(** * The cache of carousel modules (internal/bml/cache/module_cache.go, internal/bml/store.go)

    [ModuleCache] keeps completed modules up to a number of bytes and forgets the
    least recently used ones.  [order] is the order in which the map is ranged
    over.  Copies of modules are values. *)

From stdpp Require Import strings.
From S2P Require Import Prelude Carousel.

Record ModuleVersionKey := mkVersionKey {
  vk_ChannelType : string;
  vk_ChannelID : string;
  vk_ServiceID : Z;
  vk_ComponentTag : Z;
  vk_DownloadID : Z;
  vk_ModuleID : Z;
  vk_Version : Z
}.

(** A version key and the size. *)
Record ModuleCacheKey := mkCacheKey {
  ck_VersionKey : ModuleVersionKey;
  ck_Size : Z
}.

#[export] Instance ModuleVersionKey_eq_dec : EqDecision ModuleVersionKey.
Proof. solve_decision. Defined.
#[export] Instance ModuleCacheKey_eq_dec : EqDecision ModuleCacheKey.
Proof. solve_decision. Defined.
#[export] Instance ModuleCacheKey_countable : Countable ModuleCacheKey.
Proof.
  refine (inj_countable' (fun k => let v := ck_VersionKey k in (vk_ChannelType v, vk_ChannelID v, vk_ServiceID v, vk_ComponentTag v, vk_DownloadID v, vk_ModuleID v, vk_Version v, ck_Size k))
    (fun '(a, b, c, d, e, f, g, h) => mkCacheKey (mkVersionKey a b c d e f g) h) _). by intros [[]].
Defined.

Definition DefaultModuleCacheBytes : Z := 128 * 1024 * 1024.

Record moduleCacheEntry := mkEntry {
  ce_module : DSMCCModule;
  ce_used : Z
}.

Record ModuleCache := mkModuleCache {
  mc_maxBytes : Z;
  mc_bytes : Z;
  mc_generation : Z;
  mc_entries : gmap ModuleCacheKey moduleCacheEntry
}.

Definition NewModuleCache (maxBytes : Z) : ModuleCache := mkModuleCache (if maxBytes =? 0 then DefaultModuleCacheBytes else maxBytes) 0 0 ∅.

Definition cacheGet (c : ModuleCache) (key : ModuleCacheKey) : ModuleCache * option DSMCCModule :=
  match mc_entries c !! key with
  | None => (c, None)
  | Some entry =>
      let generation := u64 (mc_generation c + 1) in
      (mkModuleCache (mc_maxBytes c) (mc_bytes c) generation (<[key := mkEntry (ce_module entry) generation]> (mc_entries c)), Some (ce_module entry))
  end.

Definition cacheHas (c : ModuleCache) (key : ModuleCacheKey) : bool := bool_decide (is_Some (mc_entries c !! key)).

Section Cache.
Context (order : list (ModuleCacheKey * moduleCacheEntry) -> list (ModuleCacheKey * moduleCacheEntry)).

(** The entries of a version; [None] when their sizes differ. *)
Fixpoint findVersion (key : ModuleVersionKey) (found : option moduleCacheEntry) (entries : list (ModuleCacheKey * moduleCacheEntry)) : option (option moduleCacheEntry) :=
  match entries with
  | [] => Some found
  | (k, candidate) :: entries =>
      if negb (bool_decide (ck_VersionKey k = key)) then findVersion key found entries
      else match found with
      | Some f => if negb (mod_Size (ce_module candidate) =? mod_Size (ce_module f)) then None else findVersion key (Some candidate) entries
      | None => findVersion key (Some candidate) entries
      end
  end.

(** The second pass over the map has an order [again] of its own. *)
Definition GetVersion (again : list (ModuleCacheKey * moduleCacheEntry) -> list (ModuleCacheKey * moduleCacheEntry)) (c : ModuleCache) (key : ModuleVersionKey) : ModuleCache * option DSMCCModule :=
  match findVersion key None (order (map_to_list (mc_entries c))) with
  | Some (Some found) =>
      let generation := u64 (mc_generation c + 1) in
      let entries := match list_find (fun e => ck_VersionKey e.1 = key /\ mod_Size (ce_module e.2) = mod_Size (ce_module found)) (again (map_to_list (mc_entries c))) with
                     | Some (_, (k, candidate)) => <[k := mkEntry (ce_module candidate) generation]> (mc_entries c)
                     | None => mc_entries c
                     end in
      (mkModuleCache (mc_maxBytes c) (mc_bytes c) generation entries, Some (ce_module found))
  | _ => (c, None)
  end.

(** The entry that was used the longest ago. *)
Definition olderOf (oldest : option (ModuleCacheKey * moduleCacheEntry)) (candidate : ModuleCacheKey * moduleCacheEntry) : option (ModuleCacheKey * moduleCacheEntry) :=
  match oldest with
  | None => Some candidate
  | Some o => if ce_used candidate.2 <? ce_used o.2 then Some candidate else Some o
  end.
Definition oldestEntry (entries : gmap ModuleCacheKey moduleCacheEntry) : option (ModuleCacheKey * moduleCacheEntry) := foldl olderOf None (order (map_to_list entries)).

Definition dataLen (e : moduleCacheEntry) : Z := len (mod_Data (ce_module e)).

Definition evictTurn (maxBytes : Z) (s : Z * gmap ModuleCacheKey moduleCacheEntry) : go (iteration (Z * gmap ModuleCacheKey moduleCacheEntry) (Z * gmap ModuleCacheKey moduleCacheEntry)) :=
  let '(bytes, entries) := s in
  if maxBytes <? bytes then
    match oldestEntry entries with
    | None => Ret (Break s)
    | Some (key, oldest) => Ret (Continue (u64 (bytes - dataLen oldest), delete key entries))
    end
  else Ret (Break s).

Definition cachePut (c : ModuleCache) (key : ModuleCacheKey) (module : DSMCCModule) : go (ModuleCache * bool) :=
  if mc_maxBytes c <? len (mod_Data module) then Ret (c, false)
  else
    let bytes := match mc_entries c !! key with Some old => u64 (mc_bytes c - dataLen old) | None => mc_bytes c end in
    let generation := u64 (mc_generation c + 1) in
    let entries := <[key := mkEntry module generation]> (mc_entries c) in
    r ← loop (S (S (size entries))) (evictTurn (mc_maxBytes c)) (u64 (bytes + len (mod_Data module)), entries);
    Ret (mkModuleCache (mc_maxBytes c) r.1 generation r.2, true).
End Cache.

(** ** The specification *)

(** The bytes of the entries. *)
Definition entriesBytes (entries : gmap ModuleCacheKey moduleCacheEntry) : Z := map_fold (fun _ e n => dataLen e + n) 0 entries.

(** The entries used after [t]. *)
Definition usedAfter (t : Z) (entries : gmap ModuleCacheKey moduleCacheEntry) : gmap ModuleCacheKey moduleCacheEntry := filter (fun e => t < ce_used e.2) entries.

(** The most recently used entries that fit, and as many of them as do: [t] is
    the age limit, and one entry more would be too much. *)
Definition mostRecent (maxBytes : Z) (entries kept : gmap ModuleCacheKey moduleCacheEntry) : Prop :=
  exists t, kept = usedAfter t entries /\ entriesBytes kept <= maxBytes
    /\ forall k e, entries !! k = Some e -> ce_used e <= t -> maxBytes < entriesBytes (usedAfter (ce_used e - 1) entries).

Record cache_ok (c : ModuleCache) : Prop := {
  co_bytes : mc_bytes c = entriesBytes (mc_entries c);
  co_max : mc_bytes c <= mc_maxBytes c < 2 ^ 63;
  co_used : forall k e, mc_entries c !! k = Some e -> 0 <= ce_used e <= mc_generation c;
  co_distinct : forall k e k' e', mc_entries c !! k = Some e -> mc_entries c !! k' = Some e' -> ce_used e = ce_used e' -> k = k'
}.

(** ** Bytes *)

Abbreviation moduleEntries := (gmap ModuleCacheKey moduleCacheEntry).

Lemma entriesBytes_insert (m : moduleEntries) k e : m !! k = None -> entriesBytes (<[k := e]> m) = dataLen e + entriesBytes m.
Proof. intros H. unfold entriesBytes. rewrite map_fold_insert_L; [done|intros; lia|done]. Qed.

Lemma entriesBytes_delete (m : moduleEntries) k e : m !! k = Some e -> entriesBytes (delete k m) = entriesBytes m - dataLen e.
Proof. intros H. unfold entriesBytes. rewrite (map_fold_delete_L _ _ k e m); [lia|intros; lia|done]. Qed.

Lemma entriesBytes_replace (m : moduleEntries) k e : entriesBytes (<[k := e]> m) = entriesBytes m - match m !! k with Some old => dataLen old | None => 0 end + dataLen e.
Proof. rewrite <- insert_delete_eq, entriesBytes_insert by apply lookup_delete_eq. destruct (m !! k) as [old|] eqn:E; [rewrite (entriesBytes_delete m k old) by done; lia|]. rewrite delete_id by done. lia. Qed.

Lemma entriesBytes_nonneg (m : moduleEntries) : 0 <= entriesBytes m.
Proof. induction m as [|k e m Hk IH] using map_ind; [done|]. rewrite entriesBytes_insert by done. unfold dataLen. lia. Qed.

(** Marking an entry as used does not change its bytes. *)
Lemma entriesBytes_touch (m : moduleEntries) k e used : m !! k = Some e -> entriesBytes (<[k := mkEntry (ce_module e) used]> m) = entriesBytes m.
Proof. intros H. rewrite entriesBytes_replace, H. unfold dataLen. cbn. lia. Qed.

Definition distinctUses (m : moduleEntries) : Prop := forall k e k' e', m !! k = Some e -> m !! k' = Some e' -> ce_used e = ce_used e' -> k = k'.

Section Lru.
Context (order : list (ModuleCacheKey * moduleCacheEntry) -> list (ModuleCacheKey * moduleCacheEntry)).
Hypothesis order_perm : forall l, order l ≡ₚ l.

Lemma oldest_fold l : forall acc r, foldl olderOf acc l = Some r -> (acc = Some r \/ r ∈ l) /\ (forall o, acc = Some o -> ce_used r.2 <= ce_used o.2) /\ forall x, x ∈ l -> ce_used r.2 <= ce_used x.2.
Proof.
  induction l as [|x l IH]; intros acc r H; cbn [foldl] in H.
  - subst acc. split; [by left|]. split; [intros o [= <-]; lia|]. intros x Hx. by apply not_elem_of_nil in Hx.
  - destruct (IH _ _ H) as (H1 & H2 & H3). unfold olderOf in *. destruct acc as [o|].
    + destruct (Z.ltb_spec (ce_used x.2) (ce_used o.2)).
      * specialize (H2 x eq_refl). split; [right; destruct H1 as [[= <-]|H1]; [left|by right]|]. split; [intros o' [= <-]; lia|]. intros y [->|Hy]%elem_of_cons; [done|by apply H3].
      * specialize (H2 o eq_refl). split; [destruct H1 as [H1|H1]; [by left|right; by right]|]. split; [intros o' [= <-]; lia|]. intros y [->|Hy]%elem_of_cons; [lia|by apply H3].
    + specialize (H2 x eq_refl). split; [right; destruct H1 as [[= <-]|H1]; [left|by right]|]. split; [done|]. intros y [->|Hy]%elem_of_cons; [done|by apply H3].
Qed.

Lemma oldest_some m : m <> ∅ -> exists k e, oldestEntry order m = Some (k, e) /\ m !! k = Some e /\ forall k' e', m !! k' = Some e' -> ce_used e <= ce_used e'.
Proof.
  intros Hm. unfold oldestEntry. destruct (foldl olderOf None (order (map_to_list m))) as [[k e]|] eqn:E.
  - destruct (oldest_fold _ _ _ E) as ([H|Hin] & _ & Hmin); [done|]. rewrite order_perm in Hin. exists k, e. split; [done|]. split; [by apply elem_of_map_to_list|]. intros k' e' H'. apply (Hmin (k', e')). rewrite order_perm. by apply elem_of_map_to_list.
  - exfalso. assert (forall l acc, acc <> None -> foldl olderOf acc l <> None) as Hn by (induction l as [|x l IH]; intros acc Ha; [done|]; cbn [foldl]; apply IH; destruct acc as [o|]; [|done]; cbn; by destruct (_ <? _)).
    destruct (order (map_to_list m)) as [|x l] eqn:El; [|by apply (Hn l (Some x)) in E]. apply Hm. apply map_to_list_empty_iff. apply Permutation_nil_r. rewrite <- El. symmetry. apply order_perm.
Qed.

(** ** Eviction *)

Definition evicting (maxBytes : Z) (entries : moduleEntries) (s : Z * moduleEntries) : Prop :=
  s.1 = entriesBytes s.2 /\ entriesBytes s.2 < 2 ^ 64 /\ exists t, s.2 = usedAfter t entries /\ forall k e, entries !! k = Some e -> ce_used e <= t -> maxBytes < entriesBytes (usedAfter (ce_used e - 1) entries).

Lemma usedAfter_lookup t (m : moduleEntries) k e : usedAfter t m !! k = Some e <-> m !! k = Some e /\ t < ce_used e.
Proof. unfold usedAfter. by rewrite map_lookup_filter_Some. Qed.

(** Removing the oldest entry moves the limit up to it. *)
Lemma evict_one t m k e : distinctUses m -> usedAfter t m !! k = Some e -> (forall k' e', usedAfter t m !! k' = Some e' -> ce_used e <= ce_used e') ->
  delete k (usedAfter t m) = usedAfter (ce_used e) m /\ usedAfter (ce_used e - 1) m = usedAfter t m.
Proof.
  intros Hd Hk Hmin. pose proof (proj1 (usedAfter_lookup _ _ _ _) Hk) as [Hmk Ht]. split; apply map_eq; intros k'; apply option_eq; intros e'.
  - rewrite lookup_delete_Some, !usedAfter_lookup. split.
    + intros [Hne [Hm' Ht']]. split; [done|]. pose proof (Hmin k' e' (proj2 (usedAfter_lookup _ _ _ _) (conj Hm' Ht'))) as Hle. destruct (decide (ce_used e = ce_used e')) as [E|]; [|lia]. by destruct (Hne (Hd _ _ _ _ Hmk Hm' E)).
    + intros [Hm' Hlt]. split; [intros <-; rewrite Hmk in Hm'; injection Hm' as <-; lia|]. split; [done|lia].
  - rewrite !usedAfter_lookup. split; [|intros [Hm' Ht']; split; [done|]; pose proof (Hmin k' e' (proj2 (usedAfter_lookup _ _ _ _) (conj Hm' Ht'))); lia]. intros [Hm' Hlt]. split; [done|lia].
Qed.

Lemma evict_ok maxBytes entries fuel s : distinctUses entries -> 0 <= maxBytes -> (size s.2 + 1 < fuel)%nat -> evicting maxBytes entries s ->
  returns (loop fuel (evictTurn order maxBytes) s) (fun r => r.1 = entriesBytes r.2 /\ mostRecent maxBytes entries r.2).
Proof.
  intros Hd H0. revert s. induction fuel as [|fuel IH]; intros [bytes cur] Hf (Hb & Hlt & t & Hc & Ht); cbn [fst snd] in *; [lia|]. rewrite loop_S. unfold evictTurn. destruct (Z.ltb_spec maxBytes bytes) as [Hover|Hfit].
  - destruct (oldest_some cur) as (k & e & -> & Hk & Hmin); [intros ->; unfold entriesBytes in Hb; rewrite map_fold_empty in Hb; lia|]. cbn [mbind go_bind]. rewrite Hc in Hk, Hmin. destruct (evict_one t entries k e Hd Hk Hmin) as [E1 E2]. rewrite <- Hc in *.
    pose proof (entriesBytes_delete _ _ _ Hk) as Hdel. pose proof (entriesBytes_nonneg (delete k cur)) as Hnn. rewrite u64_small by (unfold dataLen in *; lia). apply IH.
    + assert (size cur = S (size (delete k cur))) as Es by (rewrite <- (map_size_insert_None k e (delete k cur)) by apply lookup_delete_eq; by rewrite insert_delete_id). cbn. lia.
    + split; [cbn; lia|]. split; [cbn; unfold dataLen in *; lia|]. exists (ce_used e). split; [done|]. intros k' e' Hk' Hle. destruct (decide (ce_used e' <= t)) as [Hle'|Hgt]; [by apply (Ht k')|].
      assert (ce_used e' = ce_used e) as Ee. { assert (usedAfter t entries !! k' = Some e') as X by (apply usedAfter_lookup; split; [done|lia]). rewrite <- Hc in X. specialize (Hmin k' e' X). lia. } rewrite Ee, E2, <- Hb. done.
  - exists (bytes, cur). split; [done|]. cbn. split; [done|]. exists t. split; [done|]. split; [lia|done].
Qed.

(** Storing a module. *)
Lemma put_ok c key module : cache_ok c -> mc_generation c + 1 < 2 ^ 64 -> len (mod_Data module) < 2 ^ 63 -> 0 <= mc_generation c ->
  returns (cachePut order c key module) (fun '(c', ok) => ok = (len (mod_Data module) <=? mc_maxBytes c) /\ cache_ok c' /\ mc_generation c <= mc_generation c' <= mc_generation c + 1 /\ mc_maxBytes c' = mc_maxBytes c /\
    (if ok then mc_entries c' !! key = Some (mkEntry module (mc_generation c + 1)) /\ mostRecent (mc_maxBytes c) (<[key := mkEntry module (mc_generation c + 1)]> (mc_entries c)) (mc_entries c') else c' = c)).
Proof.
  intros [C1 C2 C3 C4] Hg Hl Hg0. unfold cachePut. destruct (Z.ltb_spec (mc_maxBytes c) (len (mod_Data module))) as [Hbig|Hfit].
  - exists (c, false). split; [done|]. split; [symmetry; apply Z.leb_gt; lia|]. split; [by constructor|]. split; [lia|done].
  - cbv zeta. rewrite (u64_small (mc_generation c + 1)) by lia. set (entry := mkEntry module (mc_generation c + 1)). set (entries := <[key := entry]> (mc_entries c)).
    pose proof (entriesBytes_replace (mc_entries c) key entry) as Eb. fold entries in Eb. assert (dataLen entry = len (mod_Data module)) as El by done. pose proof (entriesBytes_nonneg (delete key (mc_entries c))) as Hdn.
    assert (u64 (match mc_entries c !! key with Some old => u64 (mc_bytes c - dataLen old) | None => mc_bytes c end + len (mod_Data module)) = entriesBytes entries) as ->.
    { destruct (mc_entries c !! key) as [old|] eqn:Eo; [rewrite (entriesBytes_delete _ _ _ Eo) in Hdn; rewrite (u64_small (_ - _)) by (unfold dataLen in *; lia)|rewrite delete_id in Hdn by done]; rewrite u64_small; unfold dataLen in *; lia. }
    assert (forall k e, entries !! k = Some e -> 0 <= ce_used e <= mc_generation c + 1) as Hu.
    { intros k e. unfold entries. destruct (decide (key = k)) as [<- |Hne]; [rewrite lookup_insert_eq; intros [= <-]; cbn; lia|]. rewrite lookup_insert_ne by done. intros He. specialize (C3 _ _ He). lia. }
    assert (distinctUses entries) as Hd.
    { intros k e k' e'. unfold entries. destruct (decide (key = k)) as [<- |Hne], (decide (key = k')) as [<- |Hne']; rewrite ?lookup_insert_eq, ?lookup_insert_ne by done; try done; [intros [= <-] He' E|intros He [= <-] E|by apply C4].
      - specialize (C3 _ _ He'). cbn in E. lia.
      - specialize (C3 _ _ He). cbn in E. lia. }
    assert (entriesBytes entries < 2 ^ 64) as Hb64 by (destruct (mc_entries c !! key); unfold dataLen in *; lia).
    destruct (evict_ok (mc_maxBytes c) entries (S (S (size entries))) (entriesBytes entries, entries)) as (r & -> & Er & Hr); [done|pose proof (entriesBytes_nonneg (mc_entries c)); lia|cbn; lia| |].
    { split; [done|]. split; [done|]. exists (-1). split; [cbn; apply map_eq; intros k; apply option_eq; intros e; rewrite usedAfter_lookup; split; [intros He; split; [done|]; specialize (Hu _ _ He); lia|by intros []]|]. intros k e He Hle. specialize (Hu _ _ He). lia. }
    cbn [mbind go_bind]. exists (mkModuleCache (mc_maxBytes c) r.1 (mc_generation c + 1) r.2, true). split; [done|]. split; [symmetry; apply Z.leb_le; lia|]. destruct Hr as (t & Ek & Hmax & Hmin).
    assert (entries !! key = Some entry) as Hkey by (unfold entries; apply lookup_insert_eq). conjs; cbn [mc_generation mc_maxBytes mc_bytes mc_entries]; try lia.
    + constructor; cbn [mc_bytes mc_maxBytes mc_entries mc_generation]; [done|lia| |].
      * intros k e He. rewrite Ek in He. apply usedAfter_lookup in He as [He _]. by apply (Hu k).
      * intros k e k' e' He He'. rewrite Ek in He, He'. apply usedAfter_lookup in He as [He _], He' as [He' _]. by apply Hd.
    + rewrite Ek. apply usedAfter_lookup. split; [done|]. destruct (decide (t < ce_used entry)) as [|Hge]; [done|]. exfalso. specialize (Hmin key entry Hkey ltac:(lia)). assert (usedAfter (ce_used entry - 1) entries = {[key := entry]}) as E1.
      { apply map_eq. intros k. apply option_eq. intros e. rewrite usedAfter_lookup, lookup_singleton_Some. split; [|intros [<- <-]; split; [done|lia]]. intros [He Hlt]. cbn in Hlt. destruct (Hu _ _ He) as [_ Hle].
        assert (k = key) as -> by (apply (Hd k e key entry He Hkey); cbn; lia). split; [done|]. congruence. }
      rewrite E1 in Hmin. unfold entriesBytes in Hmin. rewrite map_fold_singleton in Hmin. lia.
    + exists t. by split.
Qed.
End Lru.

(** ** Looking modules up *)

Lemma touch_ok c key e : cache_ok c -> 0 <= mc_generation c -> mc_entries c !! key = Some e ->
  cache_ok (mkModuleCache (mc_maxBytes c) (mc_bytes c) (mc_generation c + 1) (<[key := mkEntry (ce_module e) (mc_generation c + 1)]> (mc_entries c))).
Proof.
  intros [C1 C2 C3 C4] Hg He. constructor; cbn [mc_bytes mc_maxBytes mc_entries mc_generation]; [by rewrite entriesBytes_touch|done| |].
  - intros k x. destruct (decide (key = k)) as [<- |Hne]; [rewrite lookup_insert_eq; intros [= <-]; cbn; lia|]. rewrite lookup_insert_ne by done. intros Hx. specialize (C3 _ _ Hx). lia.
  - intros k x k' x'. destruct (decide (key = k)) as [<- |Hne], (decide (key = k')) as [<- |Hne']; rewrite ?lookup_insert_eq, ?lookup_insert_ne by done; try done; [intros [= <-] Hx' E|intros Hx [= <-] E|by apply C4].
    + specialize (C3 _ _ Hx'). cbn in E. lia.
    + specialize (C3 _ _ Hx). cbn in E. lia.
Qed.

Lemma findVersion_spec key l : forall found f, findVersion key found l = Some (Some f) ->
  (found = Some f \/ exists k, (k, f) ∈ l /\ ck_VersionKey k = key) /\ (forall o, found = Some o -> mod_Size (ce_module o) = mod_Size (ce_module f))
  /\ forall k e, (k, e) ∈ l -> ck_VersionKey k = key -> mod_Size (ce_module e) = mod_Size (ce_module f).
Proof.
  induction l as [|[k e] l IH]; intros found f H; cbn [findVersion] in H.
  - injection H as ->. split; [by left|]. split; [by intros o [= <-]|]. intros k e Hin. by apply not_elem_of_nil in Hin.
  - case_bool_decide as Hv; cbn [negb] in H.
    + assert (findVersion key (Some e) l = Some (Some f) /\ forall o, found = Some o -> mod_Size (ce_module o) = mod_Size (ce_module e)) as [H' Ho].
      { destruct found as [o|]; [|done]. destruct (Z.eqb_spec (mod_Size (ce_module e)) (mod_Size (ce_module o))) as [E|]; [|done]. split; [done|]. intros o' [= <-]. done. }
      destruct (IH _ _ H') as (H1 & H2 & H3). split; [right; destruct H1 as [[= ->]|(k' & Hin & Hk')]; [exists k; split; [left|done]|exists k'; split; [by right|done]]|].
      split; [intros o Eo; rewrite (Ho _ Eo); by apply H2|]. intros k' e' [[= -> ->]|Hin]%elem_of_cons Hk'; [by apply H2|by apply (H3 k')].
    + destruct (IH _ _ H) as (H1 & H2 & H3). split; [destruct H1 as [|(k' & Hin & Hk')]; [by left|right; exists k'; split; [by right|done]]|]. split; [done|]. intros k' e' [[= -> ->]|Hin]%elem_of_cons Hk'; [done|by apply (H3 k')].
Qed.

Lemma getVersion_ok order again c key : (forall l, order l ≡ₚ l) -> (forall l, again l ≡ₚ l) -> cache_ok c -> 0 <= mc_generation c -> mc_generation c + 1 < 2 ^ 64 ->
  cache_ok (GetVersion order again c key).1 /\ mc_generation c <= mc_generation (GetVersion order again c key).1 <= mc_generation c + 1 /\ mc_maxBytes (GetVersion order again c key).1 = mc_maxBytes c
  /\ forall m, (GetVersion order again c key).2 = Some m -> exists k e, mc_entries c !! k = Some e /\ ck_VersionKey k = key /\ ce_module e = m
       /\ forall k' e', mc_entries c !! k' = Some e' -> ck_VersionKey k' = key -> mod_Size (ce_module e') = mod_Size m.
Proof.
  intros Ho Ha Hok Hg0 Hg. unfold GetVersion. destruct (findVersion key None (order (map_to_list (mc_entries c)))) as [[f|]|] eqn:Ef; cbn [fst snd]; [|conjs; [done|lia..|done]|conjs; [done|lia..|done]].
  destruct (findVersion_spec _ _ _ _ Ef) as ([?|(k & Hk & Ev)] & _ & Hall); [done|]. rewrite Ho in Hk. apply elem_of_map_to_list in Hk. rewrite u64_small by lia. cbn [mc_generation mc_maxBytes]. conjs; [|lia..|].
  - destruct (list_find _ _) as [[i [k' e']]|] eqn:El.
    + apply list_find_Some in El as (Hi & _ & _). apply list_elem_of_lookup_2 in Hi. rewrite Ha in Hi. apply elem_of_map_to_list in Hi. by apply touch_ok.
    + destruct Hok as [C1 C2 C3 C4]. constructor; cbn; try done. intros k' e' He'. specialize (C3 _ _ He'). lia.
  - intros m [= <-]. exists k, f. split; [done|]. split; [done|]. split; [done|]. intros k' e' Hk' Ev'. apply (Hall k'); [|done]. rewrite Ho. by apply elem_of_map_to_list.
Qed.

(** ** Any use of the cache *)

Inductive cacheStep : ModuleCache -> ModuleCache -> Prop :=
  | c_get c key : mc_generation c + 1 < 2 ^ 64 -> cacheStep c (cacheGet c key).1
  | c_getVersion order again c key : (forall l, order l ≡ₚ l) -> (forall l, again l ≡ₚ l) -> mc_generation c + 1 < 2 ^ 64 -> cacheStep c (GetVersion order again c key).1
  | c_put order c key module c' ok : (forall l, order l ≡ₚ l) -> mc_generation c + 1 < 2 ^ 64 -> len (mod_Data module) < 2 ^ 63 -> cachePut order c key module = Ret (c', ok) -> cacheStep c c'.

Lemma cacheStep_ok c c' : cacheStep c c' -> cache_ok c /\ 0 <= mc_generation c -> (cache_ok c' /\ 0 <= mc_generation c') /\ mc_maxBytes c' = mc_maxBytes c.
Proof.
  intros [c0 key Hg|order again c0 key Ho Ha Hg|order c0 key module c1 ok Ho Hg Hl E] [Hok H0].
  - unfold cacheGet. destruct (mc_entries c0 !! key) as [e|] eqn:Ee; [|done]. cbn [fst]. rewrite u64_small by lia. split; [|done]. split; [by apply touch_ok|cbn; lia].
  - destruct (getVersion_ok order again c0 key Ho Ha Hok H0 Hg) as (H1 & H2 & H3 & _). split; [split; [done|lia]|done].
  - destruct (put_ok order Ho c0 key module Hok Hg Hl H0) as ([c2 ok2] & E2 & _ & H1 & H2 & H3 & _). rewrite E in E2. injection E2 as <- <-. split; [split; [done|lia]|done].
Qed.

Lemma cache_reachable maxBytes c : 0 <= maxBytes < 2 ^ 63 -> rtc cacheStep (NewModuleCache maxBytes) c -> (cache_ok c /\ 0 <= mc_generation c) /\ mc_maxBytes c = mc_maxBytes (NewModuleCache maxBytes).
Proof.
  intros Hm H. assert (cache_ok (NewModuleCache maxBytes) /\ 0 <= mc_generation (NewModuleCache maxBytes)) as H0.
  { split; [|done]. constructor; cbn [NewModuleCache mc_bytes mc_entries mc_maxBytes mc_generation]; [done|unfold DefaultModuleCacheBytes; destruct (Z.eqb_spec maxBytes 0); lia|intros k e; by rewrite lookup_empty..]. }
  induction H as [|c1 c2 c3 Hs _ IH]; [done|]. destruct (cacheStep_ok _ _ Hs H0) as [H1 H2]. destruct (IH H1) as [H3 H4]. split; [done|]. congruence.
Qed.

(** C30: However the cache is used, it never holds more than its bytes, and it
    counts them exactly.  Storing a module that fits always succeeds, the module
    is in the cache afterwards, and what is left are the most recently used
    entries, as many of them as fit; a module that does not fit changes nothing.
    A lookup by version returns a module of that version, and none if entries of
    the version differ in size. *)
Theorem cache_keeps_the_most_recent maxBytes c order again (Ho : forall l, order l ≡ₚ l) (Ha : forall l, again l ≡ₚ l) : 0 <= maxBytes < 2 ^ 63 -> rtc cacheStep (NewModuleCache maxBytes) c -> mc_generation c + 1 < 2 ^ 64 ->
  mc_bytes c = entriesBytes (mc_entries c) /\ mc_bytes c <= mc_maxBytes c
  /\ (forall key module, len (mod_Data module) < 2 ^ 63 -> returns (cachePut order c key module) (fun '(c', ok) => ok = (len (mod_Data module) <=? mc_maxBytes c)
       /\ if ok then mc_entries c' !! key = Some (mkEntry module (mc_generation c + 1)) /\ mostRecent (mc_maxBytes c) (<[key := mkEntry module (mc_generation c + 1)]> (mc_entries c)) (mc_entries c') else c' = c))
  /\ (forall key m, (GetVersion order again c key).2 = Some m -> exists k e, mc_entries c !! k = Some e /\ ck_VersionKey k = key /\ ce_module e = m
       /\ forall k' e', mc_entries c !! k' = Some e' -> ck_VersionKey k' = key -> mod_Size (ce_module e') = mod_Size m).
Proof.
  intros Hm [[Hok H0] _]%cache_reachable Hg; [|done]. conjs.
  - by apply co_bytes.
  - by apply co_max.
  - intros key module Hl. destruct (put_ok order Ho c key module Hok Hg Hl H0) as ([c' ok] & E & H1 & _ & _ & _ & H2). exists (c', ok). by split.
  - intros key m. by apply (getVersion_ok order again c key Ho Ha Hok H0 Hg).
Qed.

Definition demoCacheKey (version : Z) : ModuleCacheKey := mkCacheKey (mkVersionKey "GR" "27" 1024 0x40 1 0 version) 3.
Definition demoModule (version : Z) : DSMCCModule := mkDSMCCModule 1 0 version 3 [] [1; 2; 3] 0.
Definition demoCache : ModuleCache := match cachePut (fun l => l) (NewModuleCache 5) (demoCacheKey 1) (demoModule 1) with Ret (c, _) => c | _ => NewModuleCache 5 end.

Lemma demoCache_run : rtc cacheStep (NewModuleCache 5) demoCache.
Proof.
  apply rtc_once. apply (c_put (fun l => l) _ (demoCacheKey 1) (demoModule 1) _ true).
  - intros l. apply Permutation_refl.
  - vm_compute; reflexivity.
  - vm_compute; reflexivity.
  - vm_cast_no_check (eq_refl (Ret (demoCache, true))).
Qed.

Lemma cache_keeps_the_most_recent_witness : mc_bytes demoCache = 3 /\ returns (cachePut (fun l => l) demoCache (demoCacheKey 2) (demoModule 2)) (fun '(c', ok) => ok = true
  /\ if ok then mc_entries c' !! demoCacheKey 2 = Some (mkEntry (demoModule 2) 2) /\ mostRecent 5 (<[demoCacheKey 2 := mkEntry (demoModule 2) 2]> (mc_entries demoCache)) (mc_entries c') else c' = demoCache).
Proof.
  split; [vm_compute; reflexivity|].
  exact (proj1 (proj2 (proj2 (cache_keeps_the_most_recent 5 demoCache (fun l => l) (fun l => l) (fun l => Permutation_refl l) (fun l => Permutation_refl l) ltac:(lia) demoCache_run ltac:(vm_compute; reflexivity)))) (demoCacheKey 2) (demoModule 2) ltac:(vm_compute; reflexivity)).
Defined.
