(* ===== verification/TextDescriptors.v ===== *)
(** * Descriptors that carry text (ts/aribstr.go, ts/sdt.go, ts/logo.go,
      ts/descriptors.go, ts/bit.go)

    The service, logo transmission, TS information and broadcaster name
    descriptors, which decode ARIB strings.  The decoder is [AribText.Decode];
    [jisTransform] is the ISO-2022-JP decoder of golang.org/x/text. *)

From S2P Require Import Prelude Crc Packet Section Psi Tables Descriptors AribTables AribText.

Definition DescriptorTagService : Z := 0x48.
Definition DescriptorTagBroadcasterName : Z := 0xd8.
Definition DescriptorTagLogoTransmission : Z := 0xcf.
Definition DescriptorTagTSInformation : Z := 0xcd.

Definition LogoTransmissionTypeCDTDirect : Z := 0x01.
Definition LogoTransmissionTypeCDTIndirect : Z := 0x02.
Definition LogoTransmissionTypeSimple : Z := 0x03.

Record ServiceDescriptor := mkServiceDescriptor {
  sd_ServiceType : Z;
  sd_ServiceProviderName : list Z;
  sd_ServiceName : list Z
}.

Record LogoDescriptor := mkLogoDescriptor {
  ld_TransmissionType : Z;
  ld_LogoID : Z;
  ld_LogoVersion : Z;
  ld_DownloadDataID : Z;
  ld_SimpleLogo : list Z
}.

Record TSInformationTransmissionType := mkTransmissionType {
  tt_TransmissionTypeInfo : Z;
  tt_ServiceIDs : list Z
}.

Record TSInformationDescriptor := mkTSInformationDescriptor {
  ti_RemoteControlKeyID : Z;
  ti_TSName : list Z;
  ti_TransmissionTypes : list TSInformationTransmissionType
}.

Section Texts.
Context (jisTransform : Z -> Z -> option (list Z)).

Definition DecodeARIBString (b : bytes) : go (list Z) := Decode jisTransform b.

Definition ParseServiceDescriptor (d : Descriptor) : go ServiceDescriptor :=
  tag ← Tag d;
  if negb (tag =? DescriptorTagService) then Err ErrUnexpectedTag
  else
    data ← Data d;
    if len data <? 3 then Err ErrInvalidSection
    else
      providerLen ← idx data 1;
      let providerStart := 2 in
      let providerEnd := providerStart + providerLen in
      if len data <=? providerEnd then Err ErrInvalidSection
      else
        nameLen ← idx data providerEnd;
        let nameStart := providerEnd + 1 in
        let nameEnd := nameStart + nameLen in
        if len data <? nameEnd then Err ErrInvalidSection
        else
          providerBytes ← slice data providerStart providerEnd;
          provider ← DecodeARIBString providerBytes;
          nameBytes ← slice data nameStart nameEnd;
          name ← DecodeARIBString nameBytes;
          kind ← idx data 0;
          Ret (mkServiceDescriptor kind provider name).

Definition ParseLogoTransmissionDescriptor (d : Descriptor) : go LogoDescriptor :=
  tag ← Tag d;
  if negb (tag =? DescriptorTagLogoTransmission) then Err ErrUnexpectedTag
  else
    data ← Data d;
    if len data <? 1 then Err ErrInvalidSection
    else
      kind ← idx data 0;
      if kind =? LogoTransmissionTypeCDTDirect then
        if len data <? 7 then Err ErrInvalidSection
        else
          d1 ← idx data 1; d2 ← idx data 2; d3 ← idx data 3; d4 ← idx data 4; downloadDataID ← read16 data 5;
          Ret (mkLogoDescriptor kind (Z.lor (Z.shiftl (Z.land d1 0x01) 8) d2) (Z.lor (Z.shiftl (Z.land d3 0x0f) 8) d4) downloadDataID [])
      else if kind =? LogoTransmissionTypeCDTIndirect then
        if len data <? 3 then Err ErrInvalidSection
        else
          d1 ← idx data 1; d2 ← idx data 2;
          Ret (mkLogoDescriptor kind (Z.lor (Z.shiftl (Z.land d1 0x01) 8) d2) 0 0 [])
      else if kind =? LogoTransmissionTypeSimple then
        text ← sliceFrom data 1;
        simpleLogo ← DecodeARIBString text;
        Ret (mkLogoDescriptor kind 0 0 0 simpleLogo)
      else Err ErrInvalidSection.

(** The first logo transmission descriptor that parses. *)
Fixpoint LogoDescriptorFromDescriptors (descriptors : list Descriptor) : go (option LogoDescriptor) :=
  match descriptors with
  | [] => Ret None
  | desc :: rest =>
      tag ← Tag desc;
      if negb (tag =? DescriptorTagLogoTransmission) then LogoDescriptorFromDescriptors rest
      else orElse (ParseLogoTransmissionDescriptor desc) (fun _ => LogoDescriptorFromDescriptors rest) (fun logo => Ret (Some logo))
  end.

(** [for range numServices] *)
Fixpoint serviceIDs (data : bytes) (n : nat) (off : Z) : go (list Z * Z) :=
  match n with
  | O => Ret ([], off)
  | S n =>
      id ← read16 data off;
      '(rest, off) ← serviceIDs data n (off + 2);
      Ret (id :: rest, off)
  end.

(** [for range transmissionTypeCount] *)
Fixpoint transmissionTypes (data : bytes) (n : nat) (off : Z) : go (list TSInformationTransmissionType) :=
  match n with
  | O => Ret []
  | S n =>
      if len data <? off + 2 then Err ErrInvalidSection
      else
        info ← idx data off;
        numServices ← idx data (off + 1);
        let off := off + 2 in
        if len data <? off + numServices * 2 then Err ErrInvalidSection
        else
          '(ids, off) ← serviceIDs data (Z.to_nat numServices) off;
          rest ← transmissionTypes data n off;
          Ret (mkTransmissionType info ids :: rest)
  end.

Definition ParseTSInformationDescriptor (d : Descriptor) : go TSInformationDescriptor :=
  bad ← truncatedDescriptor d;
  if (bad : bool) then Err ErrInvalidSection
  else
    tag ← Tag d;
    if negb (tag =? DescriptorTagTSInformation) then Err ErrUnexpectedTag
    else
      data ← Data d;
      if len data <? 2 then Err ErrInvalidSection
      else
        d1 ← idx data 1;
        let nameLen := Z.shiftr d1 2 in
        let transmissionTypeCount := Z.land d1 0x03 in
        let nameStart := 2 in
        let nameEnd := nameStart + nameLen in
        if len data <? nameEnd then Err ErrInvalidSection
        else
          nameBytes ← slice data nameStart nameEnd;
          name ← DecodeARIBString nameBytes;
          key ← idx data 0;
          types ← transmissionTypes data (Z.to_nat transmissionTypeCount) nameEnd;
          Ret (mkTSInformationDescriptor key name types).

Definition ParseBroadcasterNameDescriptor (d : Descriptor) : go (list Z) :=
  bad ← truncatedDescriptor d ||! (tag ← Tag d; Ret (negb (tag =? DescriptorTagBroadcasterName)));
  if (bad : bool) then Err ErrInvalidSection
  else
    data ← Data d;
    DecodeARIBString data.

(** ** They return *)

Hypothesis jisTransform_ok : forall first second s, jisTransform first second = Some s -> runes_ok s.

Lemma wp_DecodeARIBString b (Q : list Z -> Prop) : (forall s, runes_ok s -> Q s) -> wp (DecodeARIBString b) Q.
Proof. intros H. eapply wp_mono; [by apply wp_Decode|exact H]. Qed.

Ltac text_run := repeat first [descriptor_step|apply wp_DecodeARIBString; intros ? ?].

(** A parser that trusts the length byte, on a descriptor that was cut out. *)
Lemma ParseServiceDescriptor_safe d : descriptor_ok d -> safe (ParseServiceDescriptor d).
Proof. intros (Hd & H2 & Hl). unfold ParseServiceDescriptor, safe. cbv zeta. text_run. Qed.

Lemma ParseLogoTransmissionDescriptor_safe d : descriptor_ok d -> safe (ParseLogoTransmissionDescriptor d).
Proof. intros (Hd & H2 & Hl). unfold ParseLogoTransmissionDescriptor, safe. text_run. Qed.

Lemma LogoDescriptorFromDescriptors_safe ds : Forall descriptor_ok ds -> safe (LogoDescriptorFromDescriptors ds).
Proof.
  induction 1 as [|d ds Hd _ IH]; [done|]. unfold safe. cbn [LogoDescriptorFromDescriptors].
  apply wp_bind, wp_Tag; [destruct Hd as (_ & ? & _); lia|]. apply wp_if; intros _; [exact IH|].
  by apply (wp_orElse _ _ _ (fun _ => True)); [apply ParseLogoTransmissionDescriptor_safe|intros _; exact IH|].
Qed.

Lemma serviceIDs_spec data n off : bytes_ok data -> 0 <= off -> off + 2 * Z.of_nat n <= len data ->
  wp (serviceIDs data n off) (fun '(_, off') => off' = off + 2 * Z.of_nat n).
Proof.
  revert off. induction n as [|n IH]; intros off Hd Ho Hl; cbn [serviceIDs]; [apply wp_ret; lia|].
  descriptor_run. eapply wp_mono; [apply IH; [done|lia|lia]|]. intros [rest off'] ->. apply wp_ret. lia.
Qed.

Lemma transmissionTypes_safe data n off : bytes_ok data -> 0 <= off -> safe (transmissionTypes data n off).
Proof.
  revert off. induction n as [|n IH]; intros off Hd Ho; cbn [transmissionTypes]; [done|]. unfold safe. cbv zeta. descriptor_run.
  eapply wp_mono; [apply serviceIDs_spec; [done|lia|lia]|]. intros [ids off'] ->. apply wp_bind. eapply wp_mono; [apply IH; [done|lia]|]. done.
Qed.

Lemma ParseTSInformationDescriptor_safe d : bytes_ok d -> safe (ParseTSInformationDescriptor d).
Proof.
  intros Hd. unfold ParseTSInformationDescriptor, safe. cbv zeta. text_run.
  assert (0 <= Z.shiftr b 2 < 64) by (apply shiftr_range; lia). text_run.
  eapply wp_mono; [apply transmissionTypes_safe; [done|lia]|done].
Qed.

Lemma ParseBroadcasterNameDescriptor_safe d : bytes_ok d -> safe (ParseBroadcasterNameDescriptor d).
Proof. intros Hd. unfold ParseBroadcasterNameDescriptor, safe. text_run. Qed.

End Texts.
