(* ===== verification/Totality.v ===== *)
(** * No parser fails

    The parsers of the packages ts and mmt, gathered: on every byte string the
    section and table parsers and the descriptor parsers that check the length
    byte return a value or an error; the descriptor parsers that trust it do so
    on every descriptor a descriptor loop yields. *)

From S2P Require Import Prelude Crc Packet Section Psi Tables Calendar Eit Descriptors Dsmcc Detect Tlv IpFlow Mmtp MmtSi MmtTables MmtDescriptors AribTables AribText TextDescriptors.

Section Parsers.

(** The ISO-2022-JP decoder of golang.org/x/text, which returns valid Unicode. *)
Context (jisTransform : Z -> Z -> option (list Z)).

(** The parsers of a TS section or DSM-CC payload, and of a TS descriptor. *)
Definition ts_section_parsers_return (s : bytes) : Prop :=
  safe (ParseSectionHeader s) /\ safe (ParseDescriptors s) /\ safe (parseDescriptorsStrict s)
  /\ safe (ParsePAT s) /\ safe (ParsePMT s) /\ safe (ParseSDT s) /\ safe (ParseNIT s) /\ safe (ParseBIT s)
  /\ safe (ParseEIT s) /\ safe (ParseTOT s) /\ safe (ParseDSMCCDII s) /\ safe (ParseDSMCCDDB s)
  /\ safe (ParseDSMCCStream s) /\ safe (ParseCDT s) /\ safe (ParseSDTTCommonDataAnnouncements s)
  /\ safe (ParseLogoDataModule s) /\ (forall id size version, safe (Metadata (mkDSMCCModuleInfo id size version s)))
  /\ (forall cdt, cdt_DataModule cdt = s -> safe (ParseCDTLogoImage cdt)).

Definition ts_descriptor_parsers_return (d : bytes) : Prop :=
  safe (ParseDataComponentDescriptor d) /\ safe (ParseAdditionalAribBXMLInfo d)
  /\ safe (Descriptors.ParseServiceListDescriptor d) /\ safe (ParseTerrestrialDeliverySystemDescriptor d)
  /\ safe (ParseExtendedBroadcasterDescriptor d)
  /\ safe (ParseTSInformationDescriptor jisTransform d) /\ safe (ParseBroadcasterNameDescriptor jisTransform d).

(** The parsers that trust the length byte, on what the descriptor loop cut out. *)
Definition ts_cut_descriptor_parsers_return (b : bytes) : Prop := forall ds, ParseDescriptors b = Ret ds ->
  Forall (fun d => safe (ParseParentalRatings d) /\ safe (caPID d) /\ safe (ParseDSMCCGeneralEvent d)
    /\ safe (ParseDSMCCNPTReference d) /\ safe (ParseServiceDescriptor jisTransform d)
    /\ safe (ParseLogoTransmissionDescriptor jisTransform d)) ds
  /\ safe (LogoDescriptorFromDescriptors jisTransform ds).

(** The parsers of what a TLV stream carries, layer by layer. *)
Definition mmt_parsers_return (b : bytes) : Prop :=
  safe (ParseUDPPacket b) /\ safe (ParseMMTPPacket b) /\ safe (ParseSignalingPayload b) /\ safe (MessageSection b)
  /\ safe (ParsePAMessage b) /\ safe (ParsePLT b) /\ safe (ParseMPT b) /\ safe (ParseMHBIT b) /\ safe (ParseMHEIT b)
  /\ safe (ParseMHSDT b) /\ safe (ParseTLVNIT b) /\ safe (ParseMHTOT b) /\ safe (ParseMHCDT b)
  /\ (forall modules, concat modules = b -> safe (JoinLogoData modules)).

Definition mmt_descriptor_parsers_return (tag : Z) (b : bytes) : Prop :=
  let d := mkMDescriptor tag b in
  let t := mkTLVDescriptor tag b in
  (safe (ParseMHServiceDescriptor d) /\ safe (ParseMHShortEventDescriptor d) /\ safe (ParseVideoComponentDescriptor d)
   /\ safe (ParseMHAudioComponentDescriptor d))
  /\ safe (ParseMHExtendedEventDescriptor d) /\ safe (ParseMHEventGroupDescriptor d) /\ safe (ParseMHSeriesDescriptor d)
  /\ (safe (ParseMHContentDescriptor d) /\ safe (ParseMHParentalRatingDescriptor d) /\ safe (ParseMHStreamIdentifierDescriptor d))
  /\ safe (ParseIPDataFlowDescriptor d) /\ safe (ParseMHLogoTransmissionDescriptor d)
  /\ (safe (MmtDescriptors.ParseServiceListDescriptor t) /\ safe (ParseRemoteControlKeyDescriptor t)).

Hypothesis jis_runes : forall first second s, jisTransform first second = Some s -> runes_ok s.

Lemma ts_sections_safe s : bytes_ok s -> ts_section_parsers_return s.
Proof.
  intros Hs. destruct (table_parsers_total s Hs) as (? & ? & ? & ? & ? & ? & ?).
  destruct (dsmcc_parsers_total s Hs) as (? & ? & ? & ? & ? & ? & ? & _).
  destruct (ParseDescriptors_cut s Hs) as (ds & rest & _ & _ & _ & E1 & E2). unfold ts_section_parsers_return. conjs; try assumption.
  - rewrite ParseSectionHeader_eq. by destruct (_ || _).
  - by rewrite E1.
  - rewrite E2. by destruct (decide _).
  - intros cdt E. apply ParseCDTLogoImage_safe. by rewrite E.
Qed.

Lemma ts_descriptors_safe d : bytes_ok d -> ts_descriptor_parsers_return d.
Proof.
  intros Hd. destruct (descriptor_parsers_total d Hd) as (? & ? & ? & ? & ? & _). unfold ts_descriptor_parsers_return.
  conjs; try assumption; [by apply ParseTSInformationDescriptor_safe|by apply ParseBroadcasterNameDescriptor_safe].
Qed.

Lemma ts_cut_descriptors_safe b : bytes_ok b -> ts_cut_descriptor_parsers_return b.
Proof.
  intros Hb ds E. destruct (ParseDescriptors_cut b Hb) as (ds' & _ & _ & Hds & _ & E' & _). assert (ds' = ds) as -> by congruence.
  destruct (descriptor_parsers_total b Hb) as (_ & _ & _ & _ & _ & H1). destruct (dsmcc_parsers_total b Hb) as (_ & _ & _ & _ & _ & _ & _ & H2).
  pose proof (H1 b ds Hb E) as F1. pose proof (H2 ds E) as F2. split; [|by apply LogoDescriptorFromDescriptors_safe]. rewrite Forall_forall in *.
  intros d Hd. destruct (F1 d Hd), (F2 d Hd). conjs; try assumption; [apply ParseServiceDescriptor_safe|apply ParseLogoTransmissionDescriptor_safe]; auto.
Qed.

Lemma mmt_safe b : bytes_ok b -> mmt_parsers_return b.
Proof.
  intros Hb. unfold mmt_parsers_return. conjs.
  - eapply wp_safe. by apply ParseUDPPacket_ok.
  - eapply wp_safe. by apply ParseMMTPPacket_ok.
  - eapply wp_safe. by apply ParseSignalingPayload_ok.
  - eapply wp_safe. by apply MessageSection_ok.
  - eapply wp_safe. by apply ParsePAMessage_ok.
  - by apply ParsePLT_ok.
  - by apply ParseMPT_ok.
  - by apply ParseMHBIT_ok.
  - by apply ParseMHEIT_ok.
  - by apply ParseMHSDT_ok.
  - by apply ParseTLVNIT_ok.
  - by apply ParseMHTOT_ok.
  - by apply ParseMHCDT_safe.
  - intros modules <-. apply JoinLogoData_safe. clear -Hb. induction modules as [|m ms IH]; [constructor|]. apply Forall_app in Hb as [? ?]. constructor; auto.
Qed.

Lemma mmt_descriptors_safe tag b : bytes_ok b -> mmt_descriptor_parsers_return tag b.
Proof.
  intros Hb. unfold mmt_descriptor_parsers_return. cbv zeta.
  split; [by apply simple_descriptors_safe|]. split; [by apply ParseMHExtendedEventDescriptor_safe|].
  split; [by apply ParseMHEventGroupDescriptor_safe|]. split; [by apply ParseMHSeriesDescriptor_safe|].
  split; [by apply strided_descriptors_safe|]. split; [by apply ParseIPDataFlowDescriptor_safe|].
  split; [by apply ParseMHLogoTransmissionDescriptor_safe|by apply tlv_descriptors_safe].
Qed.

(** C38: no parser of the packages ts and mmt panics or loops.  On every byte
    string the section, table, DSM-CC, CDT, SDTT and logo module parsers of a
    transport stream, every layer of a TLV stream from the datagram to the
    tables, the MMT descriptor parsers and the TS descriptor parsers that check
    the length byte return a value or an error.  The TS parsers that trust the
    length byte (parental rating, CA, general event, NPT reference, service and
    logo transmission) do so on every descriptor a descriptor loop yields.  The
    hypothesis is that the ISO-2022-JP decoder returns valid Unicode. *)
Theorem parsers_return (b : bytes) (tag : Z) (Hb : bytes_ok b) :
  ts_section_parsers_return b /\ ts_descriptor_parsers_return b /\ ts_cut_descriptor_parsers_return b
  /\ mmt_parsers_return b /\ mmt_descriptor_parsers_return tag b.
Proof.
  split; [by apply ts_sections_safe|]. split; [by apply ts_descriptors_safe|]. split; [by apply ts_cut_descriptors_safe|].
  split; [by apply mmt_safe|by apply mmt_descriptors_safe].
Qed.
End Parsers.

Lemma parsers_return_witness :
  let jis : Z -> Z -> option (list Z) := fun _ _ => Some [0x4e9c] in
  let b := [0x48; 8; 1; 2; 0x30; 0x21; 3; 0x1b; 0x7c; 0xb1; 0x17; 0] in
  ts_section_parsers_return b /\ ts_descriptor_parsers_return jis b /\ ts_cut_descriptor_parsers_return jis b
  /\ mmt_parsers_return b /\ mmt_descriptor_parsers_return 0x8010 b.
Proof.
  intros jis b. apply parsers_return.
  - intros first second s [= <-]. apply runes_one. lia.
  - repeat constructor; unfold byte_ok; lia.
Defined.
