(* ===== verification/LogoPng.v ===== *)
(** * Logo images (internal/isdb/logo_png.go)

    Broadcast logos may be palette PNGs without a palette: the receiver is meant
    to know the colours.  [NormalizeARIBLogoPNG] walks over the chunks of the
    image and inserts the common fixed colours after the header.  The
    specification reads an image as a list of chunks. *)

From S2P Require Import Prelude Crc Mmtp Dsmcc.

Definition ErrInvalidLogoPNG : error := ErrOther 10.

Definition pngSignature : bytes := [0x89; 0x50; 0x4e; 0x47; 0x0d; 0x0a; 0x1a; 0x0a].
Definition pngChunkIHDR : bytes := [0x49; 0x48; 0x44; 0x52].
Definition pngChunkPLTE : bytes := [0x50; 0x4c; 0x54; 0x45].
Definition pngChunktRNS : bytes := [0x74; 0x52; 0x4e; 0x53].
Definition pngChunkIEND : bytes := [0x49; 0x45; 0x4e; 0x44].

(** ** The common fixed colours *)

Record color := mkColor { c_r : Z; c_g : Z; c_b : Z; c_a : Z }.

#[export] Instance color_eq_dec : EqDecision color.
Proof. solve_decision. Defined.

Definition compat : list color := [
  mkColor 0 0 0 255; mkColor 255 0 0 255; mkColor 0 255 0 255; mkColor 255 255 0 255; mkColor 0 0 255 255;
  mkColor 255 0 255 255; mkColor 0 255 255 255; mkColor 255 255 255 255; mkColor 170 0 0 255; mkColor 0 170 0 255;
  mkColor 170 170 0 255; mkColor 0 0 170 255; mkColor 170 0 170 255; mkColor 0 170 170 255; mkColor 170 170 170 255].

Definition colorRGB (c : color) : Z * Z * Z := (c_r c, c_g c, c_b c).
Definition compatRGB : list (Z * Z * Z) := map colorRGB compat.

Definition levels : list Z := [0; 85; 170; 255].

(** The colours of the grid of levels, but for those in [except]. *)
Definition gridColors (except : list (Z * Z * Z)) (alpha : Z) : list color :=
  r ← levels; g ← levels; b ← levels;
  if bool_decide ((r, g, b) ∈ except) then [] else [mkColor r g b alpha].

Definition fixedColors : list color :=
  take 8 compat ++ [mkColor 0 0 0 0] ++ drop 8 compat ++ gridColors compatRGB 255
  ++ map (fun c => mkColor (c_r c) (c_g c) (c_b c) 128) compat ++ gridColors (compatRGB ++ [(255, 255, 170)]) 128.

(** [buildARIBCommonFixedColorChunks] *)
Definition aribCommonFixedColorPLTE : bytes := c ← fixedColors; [c_r c; c_g c; c_b c].
Definition aribCommonFixedColortRNS : bytes := map c_a fixedColors.

(** ** Writing chunks *)

(** hash/crc32 with the IEEE polynomial, bit by bit. *)
Definition ieeeBit (x : Z) : Z := if Z.odd x then Z.lxor (Z.shiftr x 1) 0xedb88320 else Z.shiftr x 1.
Definition ieeeByte (crc b : Z) : Z := Nat.iter 8 ieeeBit (Z.lxor crc b).
Definition crc32IEEE (data : bytes) : Z := Z.lxor 0xffffffff (foldl ieeeByte 0xffffffff data).

Definition appendPNGChunk (dst chunkType chunkData : bytes) : bytes :=
  dst ++ be32 (u32 (len chunkData)) ++ chunkType ++ chunkData ++ be32 (crc32IEEE (chunkType ++ chunkData)).

(** ** Walking over the chunks *)

Record pngScan := mkScan {
  ps_pos : Z;
  ps_ihdrEnd : Z;
  ps_colorType : Z;
  ps_hasPLTE : bool
}.

Definition pngTurn (data : bytes) (s : pngScan) : go (iteration pngScan pngScan) :=
  let pos := ps_pos s in
  if len data <? pos + 12 then Err ErrInvalidLogoPNG
  else
    chunkLen ← read32 data pos;
    let chunkTypeStart := pos + 4 in
    let chunkDataStart := pos + 8 in
    let chunkDataEnd := chunkDataStart + chunkLen in
    let chunkEnd := chunkDataEnd + 4 in
    if (chunkLen <? 0) || (chunkDataEnd <? chunkDataStart) || (len data <? chunkEnd) then Err ErrInvalidLogoPNG
    else
      chunkType ← slice data chunkTypeStart chunkDataStart;
      if bool_decide (chunkType = pngChunkIHDR) then
        if negb (chunkLen =? 13) || negb (ps_ihdrEnd s =? -1) then Err ErrInvalidLogoPNG
        else colorType ← idx data (chunkDataStart + 9); Ret (Continue (mkScan chunkEnd chunkEnd colorType (ps_hasPLTE s)))
      else if bool_decide (chunkType = pngChunkPLTE) then Ret (Continue (mkScan chunkEnd (ps_ihdrEnd s) (ps_colorType s) true))
      else if bool_decide (chunkType = pngChunkIEND) then
        if negb (chunkEnd =? len data) then Err ErrInvalidLogoPNG else Ret (Break (mkScan chunkEnd (ps_ihdrEnd s) (ps_colorType s) (ps_hasPLTE s)))
      else Ret (Continue (mkScan chunkEnd (ps_ihdrEnd s) (ps_colorType s) (ps_hasPLTE s))).

Definition NormalizeARIBLogoPNG (data : bytes) : go bytes :=
  if negb (hasPrefix data pngSignature) then Err ErrInvalidLogoPNG
  else
    s ← loop (S (length data)) (pngTurn data) (mkScan (len pngSignature) (-1) 0xff false);
    if ps_ihdrEnd s =? -1 then Err ErrInvalidLogoPNG
    else if negb (ps_colorType s =? 3) || ps_hasPLTE s then Ret data
    else
      head ← sliceTo data (ps_ihdrEnd s);
      rest ← sliceFrom data (ps_ihdrEnd s);
      Ret (appendPNGChunk (appendPNGChunk head pngChunkPLTE aribCommonFixedColorPLTE) pngChunktRNS aribCommonFixedColortRNS ++ rest).

(** ** Images as lists of chunks *)

Record pngChunk := mkChunk { pc_type : bytes; pc_data : bytes; pc_crc : bytes }.

Definition chunkBytes (c : pngChunk) : bytes := be32 (len (pc_data c)) ++ pc_type c ++ pc_data c ++ pc_crc c.
Definition chunk_ok (c : pngChunk) : Prop := length (pc_type c) = 4%nat /\ length (pc_crc c) = 4%nat /\ len (pc_data c) < 2 ^ 32.
Definition hasType (ty : bytes) (c : pngChunk) : bool := bool_decide (pc_type c = ty).

(** One header of 13 bytes at most, and an end that is the end. *)
Fixpoint validChunks (seen : bool) (cs : list pngChunk) : bool :=
  match cs with
  | [] => false
  | c :: cs =>
      if hasType pngChunkIHDR c then (len (pc_data c) =? 13) && negb seen && validChunks true cs
      else if hasType pngChunkIEND c then match cs with [] => true | _ => false end
      else validChunks seen cs
  end.

Definition chunksBytes (cs : list pngChunk) : bytes := concat (map chunkBytes cs).

(** [data] is the image of the chunks [cs], with a header. *)
Definition isPNG (cs : list pngChunk) (data : bytes) : Prop :=
  Forall chunk_ok cs /\ validChunks false cs = true /\ existsb (hasType pngChunkIHDR) cs = true /\ data = pngSignature ++ chunksBytes cs.

Fixpoint colorTypeOf (cs : list pngChunk) : Z :=
  match cs with [] => 0xff | c :: cs => if hasType pngChunkIHDR c then byteAt (pc_data c) 9 else colorTypeOf cs end.

(** The chunk of some data, with its checksum. *)
Definition chunkOf (ty data : bytes) : pngChunk := mkChunk ty data (be32 (crc32IEEE (ty ++ data))).
Definition fixedPalette : list pngChunk := [chunkOf pngChunkPLTE aribCommonFixedColorPLTE; chunkOf pngChunktRNS aribCommonFixedColortRNS].

Fixpoint insertPalette (cs : list pngChunk) : list pngChunk :=
  match cs with [] => [] | c :: cs => if hasType pngChunkIHDR c then c :: fixedPalette ++ cs else c :: insertPalette cs end.

(** The image with a palette if its pixels need one. *)
Definition completedChunks (cs : list pngChunk) : list pngChunk :=
  if (colorTypeOf cs =? 3) && negb (existsb (hasType pngChunkPLTE) cs) then insertPalette cs else cs.

(** ** One chunk *)

Lemma chunkBytes_len c : chunk_ok c -> len (chunkBytes c) = len (pc_data c) + 12.
Proof. intros (H1 & H2 & _). unfold chunkBytes. rewrite !length_app, H1, H2. cbn [length be32]. lia. Qed.

Lemma slice_between {A} (pre mid post : list A) a b : a = len pre -> b = a + len mid -> slice (pre ++ mid ++ post) a b = Ret mid.
Proof.
  intros -> ->. unfold slice. rewrite !length_app. destruct (Z.leb_spec 0 (len pre)), (Z.leb_spec (len pre) (len pre + len mid)), (Z.leb_spec (len pre + len mid) (Z.of_nat (length pre + (length mid + length post)))); try lia. cbn [andb].
  f_equal. rewrite Nat2Z.id, drop_app_length, take_app_le by lia. apply take_ge. lia.
Qed.

Definition scanned (s : pngScan) (c : pngChunk) : pngScan :=
  let chunkEnd := ps_pos s + len (chunkBytes c) in
  if hasType pngChunkIHDR c then mkScan chunkEnd chunkEnd (byteAt (pc_data c) 9) (ps_hasPLTE s)
  else mkScan chunkEnd (ps_ihdrEnd s) (ps_colorType s) (hasType pngChunkPLTE c || ps_hasPLTE s).

Lemma turn_chunk pre c post s : chunk_ok c -> ps_pos s = len pre ->
  pngTurn (pre ++ chunkBytes c ++ post) s =
    if hasType pngChunkIHDR c then if negb (len (pc_data c) =? 13) || negb (ps_ihdrEnd s =? -1) then Err ErrInvalidLogoPNG else Ret (Continue (scanned s c))
    else if hasType pngChunkPLTE c then Ret (Continue (scanned s c))
    else if hasType pngChunkIEND c then match post with [] => Ret (Break (scanned s c)) | _ => Err ErrInvalidLogoPNG end
    else Ret (Continue (scanned s c)).
Proof.
  intros Hc Hp. pose proof (chunkBytes_len c Hc) as Hl. destruct Hc as (H1 & H2 & H3). set (data := pre ++ chunkBytes c ++ post).
  assert (len data = len pre + (len (pc_data c) + 12) + len post) as Hd by (unfold data; rewrite !length_app; lia).
  unfold pngTurn. cbv zeta. destruct (Z.ltb_spec (len data) (ps_pos s + 12)) as [|_]; [lia|].
  assert (read32 data (ps_pos s) = Ret (len (pc_data c))) as ->. { unfold data, chunkBytes. rewrite Hp, <- (app_assoc (be32 _)). apply read32_mid. lia. }
  cbn [mbind go_bind]. destruct (Z.ltb_spec (len (pc_data c)) 0) as [|_]; [lia|]. destruct (Z.ltb_spec (ps_pos s + 8 + len (pc_data c)) (ps_pos s + 8)) as [|_]; [lia|]. destruct (Z.ltb_spec (len data) (ps_pos s + 8 + len (pc_data c) + 4)) as [|_]; [lia|]. cbn [orb].
  assert (slice data (ps_pos s + 4) (ps_pos s + 8) = Ret (pc_type c)) as ->.
  { unfold data, chunkBytes. replace (pre ++ (be32 (len (pc_data c)) ++ pc_type c ++ pc_data c ++ pc_crc c) ++ post) with ((pre ++ be32 (len (pc_data c))) ++ pc_type c ++ (pc_data c ++ pc_crc c ++ post)) by (by rewrite <- !app_assoc). apply slice_between; rewrite ?length_app; cbn [length be32]; lia. }
  cbn [mbind go_bind]. replace (ps_pos s + 8 + len (pc_data c) + 4) with (ps_pos s + len (chunkBytes c)) by lia. unfold scanned, hasType.
  case_bool_decide as Hi.
  { destruct (Z.eqb_spec (len (pc_data c)) 13) as [E13|]; cbn [negb orb]; [|done]. destruct (ps_ihdrEnd s =? -1); cbn [negb]; [|done].
    rewrite idx_byteAt by lia. cbn [mbind go_bind]. do 3 f_equal. unfold byteAt. unfold data, chunkBytes. replace (pre ++ (be32 (len (pc_data c)) ++ pc_type c ++ pc_data c ++ pc_crc c) ++ post) with ((pre ++ be32 (len (pc_data c)) ++ pc_type c) ++ pc_data c ++ (pc_crc c ++ post)) by (by rewrite <- !app_assoc).
    rewrite lookup_app_r by (rewrite !length_app; cbn [length be32]; lia). rewrite lookup_app_l by (rewrite !length_app; cbn [length be32]; lia). do 2 f_equal. rewrite !length_app. cbn [length be32]. lia. }
  case_bool_decide as Hq; [done|]. case_bool_decide; [|done]. destruct post as [|x post]; [cbn [length] in Hd; by destruct (Z.eqb_spec (ps_pos s + len (chunkBytes c)) (len data)); [|lia]|].
  cbn [length] in Hd. by destruct (Z.eqb_spec (ps_pos s + len (chunkBytes c)) (len data)); [lia|].
Qed.

(** ** All chunks *)

Lemma chunksBytes_cons c cs : chunksBytes (c :: cs) = chunkBytes c ++ chunksBytes cs.
Proof. done. Qed.

Lemma chunksBytes_app cs cs' : chunksBytes (cs ++ cs') = chunksBytes cs ++ chunksBytes cs'.
Proof. unfold chunksBytes. by rewrite map_app, concat_app. Qed.

Lemma types_differ c : hasType pngChunkIHDR c = true -> hasType pngChunkPLTE c = false.
Proof. unfold hasType. intros ->%bool_decide_eq_true. done. Qed.

Lemma ends_differ c : hasType pngChunkIEND c = true -> hasType pngChunkPLTE c = false.
Proof. unfold hasType. intros ->%bool_decide_eq_true. done. Qed.

(** The walk over a valid list of chunks sees every one. *)
Lemma scan_valid cs : forall pre s fuel, Forall chunk_ok cs -> validChunks (negb (ps_ihdrEnd s =? -1)) cs = true -> ps_pos s = len pre -> (length cs <= fuel)%nat ->
  loop fuel (pngTurn (pre ++ chunksBytes cs)) s = Ret (foldl scanned s cs).
Proof.
  induction cs as [|c cs IH]; intros pre s fuel Hok Hv Hp Hf; [done|]. apply Forall_cons in Hok as [Hc Hok]. destruct fuel as [|fuel]; [cbn in Hf; lia|]. cbn [length] in Hf.
  rewrite loop_S, chunksBytes_cons, turn_chunk by done. cbn [validChunks] in Hv. pose proof (chunkBytes_len c Hc) as Hl.
  assert (ps_pos (scanned s c) = len (pre ++ chunkBytes c)) as Hpos by (unfold scanned; rewrite length_app; destruct (hasType pngChunkIHDR c); cbn; lia).
  assert (forall seen, negb (ps_ihdrEnd (scanned s c) =? -1) = seen -> validChunks seen cs = true -> loop fuel (pngTurn (pre ++ chunkBytes c ++ chunksBytes cs)) (scanned s c) = Ret (foldl scanned (scanned s c) cs)) as Hgo.
  { intros seen Es Hs. rewrite app_assoc. apply IH; [done|by rewrite Es|done|lia]. }
  destruct (hasType pngChunkIHDR c) eqn:Ei.
  - bools. destruct (Z.eqb_spec (len (pc_data c)) 13); [|lia]. destruct (Z.eqb_spec (ps_ihdrEnd s) (-1)); [|lia]. cbn [negb orb mbind go_bind foldl]. apply (Hgo true); [|done]. unfold scanned. rewrite Ei. cbn [ps_ihdrEnd]. apply negb_true_iff, Z.eqb_neq. lia.
  - assert (ps_ihdrEnd (scanned s c) = ps_ihdrEnd s) as Es by (unfold scanned; by rewrite Ei). destruct (hasType pngChunkPLTE c) eqn:Ep.
    + destruct (hasType pngChunkIEND c) eqn:Ee; [by rewrite (ends_differ c Ee) in Ep|]. cbn [mbind go_bind foldl]. apply (Hgo (negb (ps_ihdrEnd s =? -1))); [by rewrite Es|done].
    + destruct (hasType pngChunkIEND c); [|cbn [mbind go_bind foldl]; apply (Hgo (negb (ps_ihdrEnd s =? -1))); [by rewrite Es|done]]. destruct cs; [done|done].
Qed.

(** The first chunk of some bytes, if they are long enough for one. *)
Lemma first_chunk (rest : bytes) n : bytes_ok rest -> read32 rest 0 = Ret n -> n + 12 <= len rest -> exists c post, rest = chunkBytes c ++ post /\ chunk_ok c /\ len (pc_data c) = n.
Proof.
  intros Hb Hr Hn. assert (0 <= n < 2 ^ 32) as Hrange. { apply (wp_Ret_inv (read32 rest 0) (fun n => 0 <= n < 2 ^ 32)); [|done]. destruct (decide (3 < len rest)); [by apply wp_read32; [| |lia|]|]. exfalso. unfold read32, read16 in Hr. destruct (idx rest (0 + 2)) eqn:E1, (idx rest (0 + 2 + 1)) eqn:E2; try (destruct (idx rest 0), (idx rest (0 + 1)); done). apply idx_Ret_inv in E2. lia. }
  destruct rest as [|b0 [|b1 [|b2 [|b3 rest]]]]; cbn [length] in Hn; try lia. exists (mkChunk (take 4 rest) (take (Z.to_nat n) (drop 4 rest)) (take 4 (drop (Z.to_nat n + 4) rest))), (drop (Z.to_nat n + 8) rest).
  assert (length (take (Z.to_nat n) (drop 4 rest)) = Z.to_nat n) as Hl by (rewrite length_take, length_drop; lia).
  split; [|split; [|cbn [pc_data]; lia]].
  - unfold chunkBytes. cbn [pc_data pc_type pc_crc]. rewrite Hl, Z2Nat.id by lia. assert (be32 n = [b0; b1; b2; b3]) as ->.
    { unfold read32, read16 in Hr. rewrite !idx_byteAt in Hr by (cbn [length]; lia). cbn [mbind go_bind] in Hr. unfold byteAt in Hr. change (Z.to_nat 0) with 0%nat in Hr. change (Z.to_nat (0 + 1)) with 1%nat in Hr. change (Z.to_nat (0 + 2)) with 2%nat in Hr. change (Z.to_nat (0 + 2 + 1)) with 3%nat in Hr. cbn [lookup list_lookup default] in Hr. injection Hr as Hr.
      apply Forall_cons in Hb as [B0 Hb]. apply Forall_cons in Hb as [B1 Hb]. apply Forall_cons in Hb as [B2 Hb]. apply Forall_cons in Hb as [B3 Hb]. unfold byte_ok in *. rewrite !be_add in Hr by lia. rewrite lor_disjoint in Hr by lia. unfold be32, u8. rewrite !Z.shiftr_div_pow2 by lia. change (2 ^ 24) with 16777216. change (2 ^ 16) with 65536 in *. change (2 ^ 8) with 256. repeat f_equal; dmlia. }
    cbn [app]. do 4 f_equal. rewrite <- (take_drop 4 rest) at 1. rewrite <- !app_assoc. f_equal. rewrite <- (take_drop (Z.to_nat n) (drop 4 rest)) at 1. f_equal. rewrite drop_drop. rewrite <- (take_drop 4 (drop (4 + Z.to_nat n) rest)) at 1. rewrite drop_drop. replace (Z.to_nat n + 4)%nat with (4 + Z.to_nat n)%nat by lia. by replace (Z.to_nat n + 8)%nat with (4 + Z.to_nat n + 4)%nat by lia.
  - split; [cbn [pc_type]; rewrite length_take; lia|]. split; [cbn [pc_crc]; rewrite length_take, length_drop; lia|]. cbn [pc_data]. lia.
Qed.

(** Whatever the walk accepts is a list of chunks. *)
Lemma scan_accepts fuel : forall rest pre s, bytes_ok rest -> ps_pos s = len pre -> (length rest < fuel)%nat ->
  loop fuel (pngTurn (pre ++ rest)) s = Err ErrInvalidLogoPNG
  \/ exists cs, Forall chunk_ok cs /\ validChunks (negb (ps_ihdrEnd s =? -1)) cs = true /\ rest = chunksBytes cs.
Proof.
  induction fuel as [|fuel IH]; intros rest pre s Hb Hp Hf; [lia|]. rewrite loop_S. destruct (decide (len rest < 12)) as [Hs|Hs].
  { left. unfold pngTurn. rewrite length_app. by destruct (Z.ltb_spec (Z.of_nat (length pre + length rest)) (ps_pos s + 12)); [|lia]. }
  assert (exists n, read32 rest 0 = Ret n /\ read32 (pre ++ rest) (ps_pos s) = Ret n) as (n & Hn & Hn').
  { rewrite (read32_at rest) by lia. rewrite (read32_at (pre ++ rest)) by (rewrite ?length_app; lia). eexists. split; [done|]. unfold byteAt. rewrite Hp. rewrite !lookup_app_r by lia. repeat f_equal; lia. }
  destruct (decide (n + 12 <= len rest)) as [Hfit|Hfit].
  2:{ left. unfold pngTurn. cbv zeta. rewrite Hn', length_app. destruct (Z.ltb_spec (Z.of_nat (length pre + length rest)) (ps_pos s + 12)) as [|_]; [done|]. cbn [mbind go_bind]. destruct (Z.ltb_spec (Z.of_nat (length pre + length rest)) (ps_pos s + 8 + n + 4)) as [_|]; [|lia]. by rewrite orb_true_r. }
  destruct (first_chunk rest n Hb Hn Hfit) as (c & post & -> & Hc & Hcn). apply Forall_app in Hb as [_ Hb]. pose proof (chunkBytes_len c Hc) as Hl. rewrite length_app in Hf. rewrite turn_chunk by done.
  assert (ps_pos (scanned s c) = len (pre ++ chunkBytes c)) as Hpos by (unfold scanned; rewrite length_app; destruct (hasType pngChunkIHDR c); cbn; lia).
  assert (forall seen, negb (ps_ihdrEnd (scanned s c) =? -1) = seen -> (forall cs, validChunks seen cs = true -> validChunks (negb (ps_ihdrEnd s =? -1)) (c :: cs) = true) ->
    loop fuel (pngTurn (pre ++ chunkBytes c ++ post)) (scanned s c) = Err ErrInvalidLogoPNG \/ exists cs, Forall chunk_ok cs /\ validChunks (negb (ps_ihdrEnd s =? -1)) cs = true /\ chunkBytes c ++ post = chunksBytes cs) as Hgo.
  { intros seen Es Hv. rewrite app_assoc. destruct (IH post (pre ++ chunkBytes c) (scanned s c) Hb Hpos ltac:(lia)) as [->|(cs & H1 & H2 & ->)]; [by left|]. right. exists (c :: cs). split; [by constructor|]. split; [apply Hv; by rewrite <- Es|done]. }
  destruct (hasType pngChunkIHDR c) eqn:Ei.
  - destruct (Z.eqb_spec (len (pc_data c)) 13) as [E13|]; cbn [negb orb]; [|by left]. destruct (Z.eqb_spec (ps_ihdrEnd s) (-1)) as [E1|]; cbn [negb]; [|by left]. cbn [mbind go_bind]. apply (Hgo true).
    + unfold scanned. rewrite Ei. cbn [ps_ihdrEnd]. apply negb_true_iff, Z.eqb_neq. lia.
    + intros cs Hv. cbn [validChunks]. rewrite Ei, E13. done.
  - assert (ps_ihdrEnd (scanned s c) = ps_ihdrEnd s) as Es by (unfold scanned; by rewrite Ei). destruct (hasType pngChunkIEND c) eqn:Ee.
    + rewrite (ends_differ c Ee). destruct post as [|x post]; [|by left]. right. exists [c]. split; [by constructor|]. split; [cbn [validChunks]; by rewrite Ei, Ee|]. done.
    + assert (forall cs, validChunks (negb (ps_ihdrEnd s =? -1)) cs = true -> validChunks (negb (ps_ihdrEnd s =? -1)) (c :: cs) = true) as Hv by (intros cs Hv; cbn [validChunks]; by rewrite Ei, Ee).
      destruct (hasType pngChunkPLTE c); cbn [mbind go_bind]; (apply (Hgo (negb (ps_ihdrEnd s =? -1))); [by rewrite Es|done]).
Qed.

(** ** What the walk has seen *)

Lemma scanned_plte cs : forall s, ps_hasPLTE (foldl scanned s cs) = ps_hasPLTE s || existsb (hasType pngChunkPLTE) cs.
Proof.
  induction cs as [|c cs IH]; intros s; cbn [foldl existsb]; [by rewrite orb_false_r|]. rewrite IH. unfold scanned. destruct (hasType pngChunkIHDR c) eqn:E; [by rewrite (types_differ c E)|]. cbn. destruct (hasType pngChunkPLTE c), (ps_hasPLTE s); done.
Qed.

Lemma scanned_pos cs : forall s, ps_pos (foldl scanned s cs) = ps_pos s + len (chunksBytes cs).
Proof. induction cs as [|c cs IH]; intros s; cbn [foldl]; [cbn; lia|]. rewrite IH, chunksBytes_cons, length_app. unfold scanned. destruct (hasType pngChunkIHDR c); cbn; lia. Qed.

Lemma scanned_no_header cs : forall s, existsb (hasType pngChunkIHDR) cs = false -> ps_ihdrEnd (foldl scanned s cs) = ps_ihdrEnd s /\ ps_colorType (foldl scanned s cs) = ps_colorType s.
Proof. induction cs as [|c cs IH]; intros s; cbn [foldl existsb]; [done|]. intros [H1 H2]%orb_false_iff. destruct (IH (scanned s c) H2) as [-> ->]. unfold scanned. by rewrite H1. Qed.

Lemma valid_seen cs : validChunks true cs = true -> existsb (hasType pngChunkIHDR) cs = false.
Proof.
  induction cs as [|c cs IH]; [done|]. cbn [validChunks existsb]. destruct (hasType pngChunkIHDR c); [by rewrite andb_false_r|]. destruct (hasType pngChunkIEND c); [by destruct cs|]. done.
Qed.

(** The header of a valid image, and what is before and after it. *)
Lemma valid_split cs : validChunks false cs = true -> existsb (hasType pngChunkIHDR) cs = true -> exists before c after, cs = before ++ c :: after /\ hasType pngChunkIHDR c = true
  /\ existsb (hasType pngChunkIHDR) before = false /\ existsb (hasType pngChunkIHDR) after = false.
Proof.
  induction cs as [|c cs IH]; [done|]. cbn [validChunks existsb]. destruct (hasType pngChunkIHDR c) eqn:Ei.
  - intros H _. bools. exists [], c, cs. split; [done|]. split; [done|]. split; [done|]. by apply valid_seen.
  - cbn [orb]. intros Hv He. destruct (IH ltac:(destruct (hasType pngChunkIEND c); [by destruct cs|done]) He) as (before & c' & after & -> & H1 & H2 & H3). exists (c :: before), c', after. split; [done|]. split; [done|]. split; [cbn [existsb]; by rewrite Ei, H2|done].
Qed.

Lemma insertPalette_at before c after : existsb (hasType pngChunkIHDR) before = false -> hasType pngChunkIHDR c = true -> insertPalette (before ++ c :: after) = before ++ c :: fixedPalette ++ after.
Proof. intros Hb Hc. induction before as [|x before IH]; cbn [app insertPalette]; [by rewrite Hc|]. cbn [existsb] in Hb. apply orb_false_iff in Hb as [-> Hb]. by rewrite IH. Qed.

Lemma colorTypeOf_at before c after : existsb (hasType pngChunkIHDR) before = false -> hasType pngChunkIHDR c = true -> colorTypeOf (before ++ c :: after) = byteAt (pc_data c) 9.
Proof. intros Hb Hc. induction before as [|x before IH]; cbn [app colorTypeOf]; [by rewrite Hc|]. cbn [existsb] in Hb. apply orb_false_iff in Hb as [-> Hb]. by apply IH. Qed.

(** ** Inserting the palette *)

Lemma palette_size : length aribCommonFixedColorPLTE = 384%nat /\ length aribCommonFixedColortRNS = 128%nat /\ NoDup fixedColors.
Proof. split; [vm_compute; reflexivity|]. split; [vm_compute; reflexivity|]. apply (bool_decide_eq_true_1 (NoDup fixedColors)). vm_compute. reflexivity. Qed.

Lemma palette_ok : Forall chunk_ok fixedPalette.
Proof.
  destruct palette_size as (H1 & H2 & _). unfold fixedPalette. constructor; [split; [done|split; [done|cbn [chunkOf pc_data]; rewrite H1; lia]]|]. constructor; [split; [done|split; [done|cbn [chunkOf pc_data]; rewrite H2; lia]]|done].
Qed.

Lemma append_palette head : appendPNGChunk (appendPNGChunk head pngChunkPLTE aribCommonFixedColorPLTE) pngChunktRNS aribCommonFixedColortRNS = head ++ chunksBytes fixedPalette.
Proof.
  destruct palette_size as (H1 & H2 & _). unfold appendPNGChunk, chunksBytes, fixedPalette. cbn [map concat]. unfold chunkBytes, chunkOf. cbn [pc_type pc_data pc_crc].
  rewrite H1, H2. rewrite !u32_small by lia. rewrite app_nil_r. by rewrite <- !app_assoc.
Qed.

Lemma valid_insert before c after : hasType pngChunkIHDR c = true -> forall seen, validChunks seen (before ++ c :: fixedPalette ++ after) = validChunks seen (before ++ c :: after).
Proof.
  intros Hc. induction before as [|x before IH]; intros seen; cbn [app validChunks].
  - rewrite Hc. done.
  - rewrite !IH. destruct (hasType pngChunkIHDR x), (hasType pngChunkIEND x); [done..| |done]. by destruct before.
Qed.

Lemma completed_png cs data : isPNG cs data -> isPNG (completedChunks cs) (pngSignature ++ chunksBytes (completedChunks cs)) /\ completedChunks (completedChunks cs) = completedChunks cs
  /\ (colorTypeOf cs = 3 -> existsb (hasType pngChunkPLTE) (completedChunks cs) = true) /\ colorTypeOf (completedChunks cs) = colorTypeOf cs.
Proof.
  intros (Hok & Hv & Hi & _). unfold completedChunks at 1 2 4 5 6. destruct (Z.eqb_spec (colorTypeOf cs) 3) as [E3|E3]; cbn [andb].
  2:{ split; [by split|]. split; [|split; [done|]]; unfold completedChunks; by destruct (Z.eqb_spec (colorTypeOf cs) 3). }
  destruct (existsb (hasType pngChunkPLTE) cs) eqn:Ep; cbn [negb].
  { split; [by split|]. split; [|split; [done|]]; unfold completedChunks; by rewrite Ep, andb_false_r. }
  destruct (valid_split cs Hv Hi) as (before & c & after & -> & Hc & Hb & Ha). assert (completedChunks (before ++ c :: after) = before ++ c :: fixedPalette ++ after) as Ec.
  { unfold completedChunks. rewrite E3, Ep. cbn. by apply insertPalette_at. }
  assert (existsb (hasType pngChunkPLTE) (before ++ c :: fixedPalette ++ after) = true) as Hp. { rewrite existsb_app. cbn [existsb app fixedPalette]. replace (hasType pngChunkPLTE (chunkOf pngChunkPLTE aribCommonFixedColorPLTE)) with true by done. cbn [orb]. by rewrite !orb_true_r. }
  rewrite Ec, (insertPalette_at before c after Hb Hc). unfold isPNG. conjs.
  - apply Forall_app in Hok as [H1 H2]. apply Forall_cons in H2 as [H2 H3]. apply Forall_app. split; [done|]. constructor; [done|]. apply Forall_app. by split; [apply palette_ok|].
  - by rewrite valid_insert.
  - rewrite existsb_app. cbn [existsb]. rewrite Hc. cbn [orb]. apply orb_true_r.
  - done.
  - unfold completedChunks. by rewrite Hp, andb_false_r.
  - done.
  - by rewrite !colorTypeOf_at.
Qed.

Lemma hasPrefix_signature rest : hasPrefix (pngSignature ++ rest) pngSignature = true.
Proof. done. Qed.

Lemma chunksBytes_length cs : Forall chunk_ok cs -> (length cs <= length (chunksBytes cs))%nat.
Proof. induction 1 as [|c cs Hc _ IH]; [done|]. rewrite chunksBytes_cons, length_app. pose proof (chunkBytes_len c Hc). cbn [length]. lia. Qed.

Lemma normalize_png cs data : isPNG cs data -> NormalizeARIBLogoPNG data = Ret (pngSignature ++ chunksBytes (completedChunks cs)).
Proof.
  intros (Hok & Hv & Hi & ->). unfold NormalizeARIBLogoPNG. rewrite hasPrefix_signature. cbn [negb]. rewrite (scan_valid cs pngSignature) by (try done; rewrite length_app; pose proof (chunksBytes_length cs Hok); lia). cbn [mbind go_bind].
  destruct (valid_split cs Hv Hi) as (before & c & after & -> & Hc & Hb & Ha). set (s0 := mkScan (len pngSignature) (-1) 0xff false). set (s := foldl scanned s0 (before ++ c :: after)).
  assert (ps_ihdrEnd s = len (pngSignature ++ chunksBytes (before ++ [c])) /\ ps_colorType s = byteAt (pc_data c) 9) as [E1 E2].
  { unfold s. rewrite foldl_app. cbn [foldl]. destruct (scanned_no_header after (scanned (foldl scanned s0 before) c) Ha) as [-> ->]. unfold scanned at 1 3. rewrite Hc. cbn [ps_ihdrEnd ps_colorType]. split; [|done].
    rewrite scanned_pos, chunksBytes_app, chunksBytes_cons, !length_app. change (chunksBytes []) with (@nil Z). cbn [ps_pos s0 length]. lia. }
  rewrite E1, E2. destruct (Z.eqb_spec (len (pngSignature ++ chunksBytes (before ++ [c]))) (-1)) as [|_]; [lia|]. unfold s. rewrite scanned_plte. unfold completedChunks. rewrite (colorTypeOf_at before c after Hb Hc). cbn [ps_hasPLTE s0 orb].
  destruct (Z.eqb_spec (byteAt (pc_data c) 9) 3) as [E3|E3]; cbn [negb orb andb]; [|done]. destruct (existsb (hasType pngChunkPLTE) (before ++ c :: after)); cbn [negb]; [done|].
  assert (pngSignature ++ chunksBytes (before ++ c :: after) = (pngSignature ++ chunksBytes (before ++ [c])) ++ chunksBytes after) as Es. { rewrite <- app_assoc. f_equal. rewrite <- chunksBytes_app, <- app_assoc. done. }
  rewrite Es, slice_0, slice_from by (rewrite !length_app; lia). cbn [mbind go_bind]. rewrite Nat2Z.id, take_app_length, drop_app_length, append_palette, insertPalette_at by done. f_equal.
  rewrite <- !app_assoc. f_equal. rewrite <- !chunksBytes_app. f_equal. by rewrite <- !app_assoc.
Qed.

(** A logo is completed exactly.  The function returns on every input: data
    that is not a signature and a valid list of chunks is refused; an image is
    returned with its chunks unchanged and in order, and, if its pixels are
    palette indices and it has no palette, with the common fixed colours right
    after its header.  The result is a valid image that has a palette if it needs
    one, and completing it again changes nothing. *)
Theorem logos_are_completed (data : bytes) : bytes_ok data ->
  match NormalizeARIBLogoPNG data with
  | Ret out => exists cs, isPNG cs data /\ isPNG (completedChunks cs) out /\ (colorTypeOf (completedChunks cs) = 3 -> existsb (hasType pngChunkPLTE) (completedChunks cs) = true) /\ NormalizeARIBLogoPNG out = Ret out
  | Err e => e = ErrInvalidLogoPNG /\ forall cs, ~ isPNG cs data
  | _ => False
  end.
Proof.
  intros Hb. assert ((exists cs, isPNG cs data) \/ NormalizeARIBLogoPNG data = Err ErrInvalidLogoPNG) as [[cs Hcs]|HE].
  - unfold NormalizeARIBLogoPNG. destruct (hasPrefix data pngSignature) eqn:Ep; [|by right]. cbn [negb]. unfold hasPrefix in Ep. apply bool_decide_eq_true in Ep. assert (exists rest, data = pngSignature ++ rest) as [rest ->] by (exists (drop (length pngSignature) data); rewrite <- Ep at 1; symmetry; apply take_drop).
    apply Forall_app in Hb as [_ Hb]. assert (ps_ihdrEnd (mkScan (len pngSignature) (-1) 0xff false) = -1) as Ei by done.
    destruct (scan_accepts (S (length (pngSignature ++ rest))) rest pngSignature (mkScan (len pngSignature) (-1) 0xff false) Hb eq_refl ltac:(rewrite length_app; lia)) as [->|(cs & Hok & Hv & Er)]; [by right|]. cbn [ps_ihdrEnd] in Hv. destruct (existsb (hasType pngChunkIHDR) cs) eqn:Eh; [left; exists cs; split; [done|]; split; [done|]; split; [done|by rewrite Er]|].
    right. rewrite Er. rewrite (scan_valid cs pngSignature) by (try done; rewrite length_app; pose proof (chunksBytes_length cs Hok); lia). cbn [mbind go_bind]. destruct (scanned_no_header cs (mkScan (len pngSignature) (-1) 0xff false) Eh) as [-> _]. done.
  - rewrite (normalize_png cs data Hcs). exists cs. destruct (completed_png cs data Hcs) as (H1 & H2 & H3 & H4). split; [done|]. split; [done|]. split; [by rewrite H4|]. by rewrite (normalize_png _ _ H1), H2.
  - rewrite HE. split; [done|]. intros cs Hcs. by rewrite (normalize_png cs data Hcs) in HE.
Qed.

Definition demoLogo : bytes := pngSignature ++ be32 13 ++ pngChunkIHDR ++ [0; 0; 0; 1; 0; 0; 0; 1; 8; 3; 0; 0; 0] ++ [1; 2; 3; 4] ++ be32 0 ++ pngChunkIEND ++ be32 0xae426082.

Lemma logos_are_completed_witness : (exists out, NormalizeARIBLogoPNG demoLogo = Ret out /\ length out = (length demoLogo + 536)%nat)
  /\ match NormalizeARIBLogoPNG demoLogo with
  | Ret out => exists cs, isPNG cs demoLogo /\ isPNG (completedChunks cs) out /\ (colorTypeOf (completedChunks cs) = 3 -> existsb (hasType pngChunkPLTE) (completedChunks cs) = true) /\ NormalizeARIBLogoPNG out = Ret out
  | Err e => e = ErrInvalidLogoPNG /\ forall cs, ~ isPNG cs demoLogo
  | _ => False
  end.
Proof.
  split.
  - destruct (NormalizeARIBLogoPNG demoLogo) as [out|e| |] eqn:E; [exists out; split; [done|]|exfalso..]; vm_compute in E; [by injection E as <-|done..].
  - apply logos_are_completed. repeat (constructor; [unfold byte_ok; vm_compute; split; [discriminate|reflexivity]|]). constructor.
Defined.

(** The checksum of an empty end chunk, as every PNG ends. *)
Example crc32IEEE_of_IEND : crc32IEEE pngChunkIEND = 0xae426082.
Proof. vm_compute. reflexivity. Qed.
