(* ===== verification/EpgTopology.v ===== *)
(** * Where to gather the guide from (internal/epggather/topology.go, internal/service/service.go)

    [groupServices] divides the stored services into groups that are gathered
    together: by network where a remote server has the guide stored, by stream
    where it is received live.  [storedEPG] tells which channels have it stored;
    [order] is the order in which the map of groups is ranged over. *)

From stdpp Require Import strings.
From S2P Require Import Prelude Routes Epg.

Record EPGStatus := mkStatus {
  es_LastAttemptAt : option Z;
  es_LastSuccessAt : option Z;
  es_LastError : string;
  es_BasicUpdatedAt : option Z;
  es_ExtendedProbeAt : option Z;
  es_ExtendedObserved : bool;
  es_PartialAt : option Z
}.

(** A stored service, as far as this code reads it. *)
Record storedService := mkStored {
  sv_Id : string;
  sv_Key : ServiceKey;
  sv_RemoteControlKey : option Z;
  sv_EITSchedule : bool;
  sv_ChannelType : string;
  sv_ChannelId : string;
  sv_EPG : EPGStatus
}.

Record Candidate := mkCandidate { cd_Type : string; cd_Channel : string }.

#[export] Instance Candidate_eq_dec : EqDecision Candidate.
Proof. solve_decision. Defined.
#[export] Instance Candidate_countable : Countable Candidate.
Proof. refine (inj_countable' (fun c => (cd_Type c, cd_Channel c)) (fun '(a, b) => mkCandidate a b) _). by intros []. Defined.

Record GroupKey := mkGroupKey {
  gk_NetworkID : Z;
  gk_StreamID : Z;
  gk_Stored : bool;
  gk_Channel : Candidate
}.

#[export] Instance GroupKey_eq_dec : EqDecision GroupKey.
Proof. solve_decision. Defined.
#[export] Instance GroupKey_countable : Countable GroupKey.
Proof. refine (inj_countable' (fun k => (gk_NetworkID k, gk_StreamID k, gk_Stored k, gk_Channel k)) (fun '(a, b, c, d) => mkGroupKey a b c d) _). by intros []. Defined.

Record Group := mkGroup {
  gr_Candidates : list Candidate;
  gr_Services : list ServiceKey;
  gr_OldestSuccessAt : Z;
  gr_LastFailureAt : Z;
  gr_NextDueAt : Z
}.

Record ReceptionPolicy := mkPolicy {
  rp_RefreshInterval : Z;
  rp_ExtendedProbeInterval : Z;
  rp_UnknownExtendedIdle : Z
}.

(** [time.UnixMilli(ms).Add(d).UnixMilli()], with [d] in nanoseconds. *)
Definition addMillis (ms d : Z) : Z := (ms * 1000000 + d) / 1000000.

Section Topology.
Context (channels : list routedChannel) (storedEPG : string -> string -> bool) (policies : list ReceptionPolicy).

Definition candidateOf (svc : storedService) : Candidate := mkCandidate (sv_ChannelType svc) (sv_ChannelId svc).
Definition channelCandidate (ch : routedChannel) : Candidate := mkCandidate (ch_Type ch) (ch_Channel ch).

Definition enabledChannels : gset Candidate :=
  foldl (fun enabled ch => if negb (IsChannelDisabled ch) then {[channelCandidate ch]} ∪ enabled else enabled) ∅ channels.

Definition isStoredAt (c : Candidate) : bool := storedEPG (cd_Type c) (cd_Channel c).

(** Prefer the stored guide when a service is reachable through both paths. *)
Definition storedKeys (services : list storedService) : gset ServiceKey :=
  foldl (fun stored svc => if bool_decide (candidateOf svc ∈ enabledChannels) && isStoredAt (candidateOf svc) then {[sv_Key svc]} ∪ stored else stored) ∅ services.

Definition groupKeyOf (svc : storedService) : GroupKey :=
  let c := candidateOf svc in
  let key := sv_Key svc in
  if isStoredAt c then mkGroupKey (k_NetworkID key) 0 true (mkCandidate EmptyString EmptyString)
  else if k_StreamID key =? 0 then mkGroupKey (k_NetworkID key) (k_StreamID key) false c
  else mkGroupKey (k_NetworkID key) (k_StreamID key) false (mkCandidate EmptyString EmptyString).

Definition successOf (svc : storedService) : Z := default 0 (es_LastSuccessAt (sv_EPG svc)).

(** The time of an attempt that failed after the last success and was not partial. *)
Definition failureOf (svc : storedService) : option Z :=
  let epg := sv_EPG svc in
  match es_LastAttemptAt epg with
  | Some attempt =>
      if negb (bool_decide (es_LastError epg = EmptyString)) && (successOf svc <? attempt) && match es_PartialAt epg with None => true | Some partial => negb (partial =? attempt) end
      then Some attempt else None
  | None => None
  end.

(** When the service is due again under a policy. *)
Definition dueUnder (policy : ReceptionPolicy) (svc : storedService) : Z :=
  let epg := sv_EPG svc in
  match es_PartialAt epg, es_BasicUpdatedAt epg with
  | Some _, Some basic =>
      if negb (isStoredAt (candidateOf svc)) && negb (es_ExtendedObserved epg) then
        let due := addMillis basic (rp_RefreshInterval policy) in
        let probe := match es_ExtendedProbeAt epg with Some probe => addMillis probe (rp_ExtendedProbeInterval policy) | None => 0 end in
        Z.min due probe
      else addMillis (successOf svc) (rp_RefreshInterval policy)
  | _, _ => addMillis (successOf svc) (rp_RefreshInterval policy)
  end.

Definition dueOf (svc : storedService) : option Z :=
  match policies with
  | policy :: _ => if 0 <? rp_RefreshInterval policy then Some (dueUnder policy svc) else None
  | [] => None
  end.

Definition emptyGroup : Group := mkGroup [] [] 0 0 0.

(** A service that the group has not seen yet. *)
Definition noteService (g : Group) (svc : storedService) : Group :=
  let first := bool_decide (gr_Services g = []) in
  let lastFailure := match failureOf svc with Some attempt => Z.max (gr_LastFailureAt g) attempt | None => gr_LastFailureAt g end in
  let oldest := if first || (successOf svc <? gr_OldestSuccessAt g) then successOf svc else gr_OldestSuccessAt g in
  let next := match dueOf svc with Some due => if first || (due <? gr_NextDueAt g) then due else gr_NextDueAt g | None => gr_NextDueAt g end in
  mkGroup (gr_Candidates g) (gr_Services g ++ [sv_Key svc]) oldest lastFailure next.

Record grouping := mkGrouping {
  gp_groups : gmap GroupKey Group;
  gp_candidates : gmap GroupKey (gset Candidate);
  gp_seen : gmap GroupKey (gset ServiceKey)
}.

Definition eligible (stored : gset ServiceKey) (svc : storedService) : bool :=
  let c := candidateOf svc in
  sv_EITSchedule svc && bool_decide (c ∈ enabledChannels) && Bool.eqb (bool_decide (sv_Key svc ∈ stored)) (isStoredAt c).

Definition addService (stored : gset ServiceKey) (st : grouping) (svc : storedService) : grouping :=
  if negb (eligible stored svc) then st
  else
    let key := groupKeyOf svc in
    let st := match gp_groups st !! key with
              | None => mkGrouping (<[key := emptyGroup]> (gp_groups st)) (<[key := ∅]> (gp_candidates st)) (<[key := ∅]> (gp_seen st))
              | Some _ => st
              end in
    let st := mkGrouping (gp_groups st) (<[key := {[candidateOf svc]} ∪ default ∅ (gp_candidates st !! key)]> (gp_candidates st)) (gp_seen st) in
    let seen := default ∅ (gp_seen st !! key) in
    if bool_decide (sv_Key svc ∈ seen) then st
    else
      let group := default emptyGroup (gp_groups st !! key) in
      mkGrouping (<[key := noteService group svc]> (gp_groups st)) (gp_candidates st) (<[key := {[sv_Key svc]} ∪ seen]> (gp_seen st)).

Definition appendCandidate (c : Candidate) (g : Group) : Group :=
  mkGroup (gr_Candidates g ++ [c]) (gr_Services g) (gr_OldestSuccessAt g) (gr_LastFailureAt g) (gr_NextDueAt g).

Section Placing.
Context (order : list GroupKey -> list GroupKey).

Definition placeCandidate (c : Candidate) (st : gmap GroupKey Group * gmap GroupKey (gset Candidate)) (key : GroupKey) : gmap GroupKey Group * gmap GroupKey (gset Candidate) :=
  let waiting := default ∅ (st.2 !! key) in
  if bool_decide (c ∈ waiting) then (alter (appendCandidate c) key st.1, <[key := waiting ∖ {[c]}]> st.2) else st.

Definition placeChannel (st : gmap GroupKey Group * gmap GroupKey (gset Candidate)) (ch : routedChannel) : gmap GroupKey Group * gmap GroupKey (gset Candidate) :=
  foldl (placeCandidate (channelCandidate ch)) st (order (elements (dom st.1))).

Definition groupServices (services : list storedService) : gmap GroupKey Group :=
  let st := foldl (addService (storedKeys services)) (mkGrouping ∅ ∅ ∅) services in
  (foldl placeChannel (gp_groups st, gp_candidates st) channels).1.
End Placing.

(** ** The specification *)

Definition groupMembers (stored : gset ServiceKey) (gk : GroupKey) (services : list storedService) : list storedService :=
  filter (fun svc => eligible stored svc = true /\ groupKeyOf svc = gk) services.

(** The first element of every key, in order. *)
Fixpoint firstsFrom {A K} `{EqDecision K} (f : A -> K) (seen : list K) (l : list A) : list A :=
  match l with
  | [] => []
  | x :: l => if bool_decide (f x ∈ seen) then firstsFrom f seen l else x :: firstsFrom f (f x :: seen) l
  end.
Definition firstsBy {A K} `{EqDecision K} (f : A -> K) (l : list A) : list A := firstsFrom f [] l.

(** [n] is the least of the values of a list. *)
Definition leastOf {A} (f : A -> Z) (l : list A) (n : Z) : Prop := (exists x, x ∈ l /\ n = f x) /\ forall x, x ∈ l -> n <= f x.

(** The group of its members. *)
Definition describesGroup (ms : list storedService) (g : Group) : Prop :=
  let fs := firstsBy sv_Key ms in
  gr_Services g = map sv_Key fs
  /\ gr_Candidates g = firstsBy (fun c => c) (filter (fun c => c ∈ map candidateOf ms) (map channelCandidate channels))
  /\ leastOf successOf fs (gr_OldestSuccessAt g)
  /\ (gr_LastFailureAt g = 0 \/ exists svc, svc ∈ fs /\ failureOf svc = Some (gr_LastFailureAt g)) /\ (forall svc t, svc ∈ fs -> failureOf svc = Some t -> t <= gr_LastFailureAt g)
  /\ match policies with
     | policy :: _ => if 0 <? rp_RefreshInterval policy then leastOf (dueUnder policy) fs (gr_NextDueAt g) else gr_NextDueAt g = 0
     | [] => gr_NextDueAt g = 0
     end.
End Topology.

(** ** First elements *)

Section Firsts.
Context {A K : Type} `{EqDecision K} (f : A -> K).

Lemma firstsFrom_snoc l x : forall seen, firstsFrom f seen (l ++ [x]) = firstsFrom f seen l ++ if bool_decide (f x ∈ seen ++ map f l) then [] else [x].
Proof.
  induction l as [|y l IH]; intros seen; cbn [app firstsFrom map]; [rewrite app_nil_r; by case_bool_decide|]. case_bool_decide as Hy; rewrite IH; cbn [app].
  - f_equal. case_bool_decide as H1; case_bool_decide as H2; [done|exfalso; clear IH; rewrite ?elem_of_app, ?elem_of_cons, ?elem_of_app in *; destruct (decide (f x = f y)) as [E|]; [rewrite E in *|]; tauto..|done].
  - do 2 f_equal. case_bool_decide as H1; case_bool_decide as H2; [done|exfalso; clear IH; rewrite ?elem_of_app, ?elem_of_cons, ?elem_of_app in *; destruct (decide (f x = f y)) as [E|]; [rewrite E in *|]; tauto..|done].
Qed.

Lemma firstsBy_snoc l x : firstsBy f (l ++ [x]) = firstsBy f l ++ if bool_decide (f x ∈ map f l) then [] else [x].
Proof. apply firstsFrom_snoc. Qed.

Lemma firstsBy_keys l k : k ∈ map f (firstsBy f l) <-> k ∈ map f l.
Proof. induction l as [|x l IH] using rev_ind; [done|]. rewrite firstsBy_snoc, !map_app, !elem_of_app, IH. case_bool_decide; cbn [map]; set_solver. Qed.

Lemma firstsBy_sub l x : x ∈ firstsBy f l -> x ∈ l.
Proof. induction l as [|y l IH] using rev_ind; [done|]. rewrite firstsBy_snoc, !elem_of_app. case_bool_decide; set_solver. Qed.

Lemma firstsBy_NoDup l : NoDup (map f (firstsBy f l)).
Proof.
  induction l as [|x l IH] using rev_ind; [constructor|]. rewrite firstsBy_snoc, map_app. case_bool_decide as Hx; [by rewrite app_nil_r|]. apply NoDup_app. split; [done|]. split; [|apply NoDup_singleton]. intros k Hk. rewrite firstsBy_keys in Hk. set_solver.
Qed.
End Firsts.

(** ** The grouping of services *)

Section Correct.
Context (channels : list routedChannel) (storedEPG : string -> string -> bool) (policies : list ReceptionPolicy).

Abbreviation groupMembers' := (groupMembers channels storedEPG).
Abbreviation addService' := (addService channels storedEPG policies).
Abbreviation noteService' := (noteService storedEPG policies).

(** The state after some services, group by group. *)
Definition grouped (stored : gset ServiceKey) (services : list storedService) (st : grouping) : Prop :=
  forall gk, let ms := groupMembers' stored gk services in
    (is_Some (gp_groups st !! gk) <-> ms <> [])
    /\ default emptyGroup (gp_groups st !! gk) = foldl noteService' emptyGroup (firstsBy sv_Key ms)
    /\ (forall c, c ∈ (default ∅ (gp_candidates st !! gk) : gset Candidate) <-> c ∈ map candidateOf ms)
    /\ (forall k, k ∈ (default ∅ (gp_seen st !! gk) : gset ServiceKey) <-> k ∈ map sv_Key ms).

Lemma members_snoc stored gk services svc : groupMembers' stored gk (services ++ [svc]) = groupMembers' stored gk services ++ if bool_decide (eligible channels storedEPG stored svc = true /\ groupKeyOf storedEPG svc = gk) then [svc] else [].
Proof. unfold groupMembers. rewrite filter_app, filter_cons, filter_nil. f_equal. by case_bool_decide; case_decide. Qed.

(** A first service makes its group. *)
Definition opened (st : grouping) (key : GroupKey) : grouping :=
  match gp_groups st !! key with
  | None => mkGrouping (<[key := emptyGroup]> (gp_groups st)) (<[key := ∅]> (gp_candidates st)) (<[key := ∅]> (gp_seen st))
  | Some _ => st
  end.

Lemma opened_spec st key : (forall gk, gp_groups st !! gk = None -> default ∅ (gp_candidates st !! gk) = ∅ /\ default ∅ (gp_seen st !! gk) = ∅) -> forall gk,
  default emptyGroup (gp_groups (opened st key) !! gk) = default emptyGroup (gp_groups st !! gk)
  /\ default ∅ (gp_candidates (opened st key) !! gk) = default ∅ (gp_candidates st !! gk) /\ default ∅ (gp_seen (opened st key) !! gk) = default ∅ (gp_seen st !! gk)
  /\ (is_Some (gp_groups (opened st key) !! gk) <-> gk = key \/ is_Some (gp_groups st !! gk)).
Proof.
  intros Hn gk. unfold opened. destruct (gp_groups st !! key) as [g|] eqn:E.
  - conjs; try done. split; [by right|]. intros [-> |]; [by rewrite E|done].
  - cbn [gp_groups gp_candidates gp_seen]. destruct (decide (gk = key)) as [-> |Hne].
    + rewrite !lookup_insert_eq, E. destruct (Hn key E) as [-> ->]. cbn. split; [done|]. split; [done|]. split; [done|]. split; [by left|]. by intros _.
    + rewrite !lookup_insert_ne by done. conjs; try done. split; [by right|]. by intros [->|].
Qed.

Lemma addService_grouped stored services svc st : grouped stored services st -> grouped stored (services ++ [svc]) (addService' stored st svc).
Proof.
  intros H gk. cbv zeta. rewrite members_snoc. unfold addService. destruct (eligible channels storedEPG stored svc) eqn:El; cbn [negb].
  2:{ rewrite (bool_decide_eq_false_2 (false = true /\ _)) by naive_solver. rewrite app_nil_r. apply H. }
  set (key := groupKeyOf storedEPG svc). fold (opened st key).
  assert (forall gk', gp_groups st !! gk' = None -> default ∅ (gp_candidates st !! gk') = ∅ /\ default ∅ (gp_seen st !! gk') = ∅) as Hn.
  { intros gk' E. destruct (H gk') as (H1 & _ & H3 & H4). rewrite E in H1. assert (groupMembers' stored gk' services = []) as Em by (destruct (groupMembers' stored gk' services); [done|]; exfalso; destruct (proj2 H1 ltac:(done)); done). rewrite Em in H3, H4. split; apply set_eq; intros x; [rewrite H3|rewrite H4]; cbn; set_solver. }
  pose proof (opened_spec st key Hn gk) as (O1 & O2 & O3 & O4). pose proof (opened_spec st key Hn key) as (K1 & K2 & K3 & _).
  destruct (H gk) as (H1 & H2 & H3 & H4). destruct (decide (gk = key)) as [Ek|Hne].
  - subst gk. rewrite (bool_decide_eq_true_2 (true = true /\ key = key)) by done. cbn [gp_groups gp_candidates gp_seen]. rewrite firstsBy_snoc, !map_app.
    assert (is_Some (gp_groups (opened st key) !! key)) as Hsome by (apply O4; by left). assert (groupMembers' stored key services ++ [svc] <> []) as Hne by (by destruct (groupMembers' stored key services)). rewrite K3.
    case_bool_decide as Hin; cbn [gp_groups gp_candidates gp_seen]; rewrite ?lookup_insert_eq; cbn [default]; rewrite (bool_decide_ext _ (sv_Key svc ∈ (default ∅ (gp_seen st !! key) : gset ServiceKey))) by (symmetry; apply H4).
    + rewrite bool_decide_eq_true_2 by done. rewrite app_nil_r, O1, O3. split; [done|]. split; [done|]. split.
      * intros c. cbn [map id]. rewrite K2, elem_of_union, elem_of_singleton, H3, elem_of_app, list_elem_of_singleton. tauto.
      * intros k. cbn [map]. rewrite H4, elem_of_app, list_elem_of_singleton. rewrite H4 in Hin. split; [by left|]. by intros [?| ->].
    + rewrite bool_decide_eq_false_2 by done. rewrite K1, H2. split; [done|]. split; [by rewrite foldl_app|]. split.
      * intros c. cbn [map id]. rewrite K2, elem_of_union, elem_of_singleton, H3, elem_of_app, list_elem_of_singleton. tauto.
      * intros k. cbn [map id]. rewrite elem_of_union, elem_of_singleton, H4, elem_of_app, list_elem_of_singleton. tauto.
  - rewrite (bool_decide_eq_false_2 (true = true /\ key = gk)) by naive_solver. rewrite app_nil_r. cbn [gp_groups gp_candidates gp_seen]. case_bool_decide; cbn [gp_groups gp_candidates gp_seen]; rewrite ?lookup_insert_ne by done; rewrite O1, O2, O3, O4; (split; [rewrite <- H1; naive_solver|done]).
Qed.

Lemma services_grouped stored services : grouped stored services (foldl (addService' stored) (mkGrouping ∅ ∅ ∅) services).
Proof.
  induction services as [|svc services IH] using rev_ind.
  - intros gk. cbn. rewrite !lookup_empty. conjs; [split; [by intros []|done]|done|set_solver|set_solver].
  - rewrite foldl_app. cbn [foldl]. by apply addService_grouped.
Qed.

(** ** Times *)

(** The numbers of a group that has noted some services. *)
Lemma note_spec fs : let g := foldl noteService' emptyGroup fs in
  gr_Candidates g = [] /\ gr_Services g = map sv_Key fs
  /\ (fs = [] \/ leastOf successOf fs (gr_OldestSuccessAt g))
  /\ (gr_LastFailureAt g = 0 \/ exists svc, svc ∈ fs /\ failureOf svc = Some (gr_LastFailureAt g)) /\ (forall svc t, svc ∈ fs -> failureOf svc = Some t -> t <= gr_LastFailureAt g)
  /\ match policies with
     | policy :: _ => if 0 <? rp_RefreshInterval policy then fs = [] \/ leastOf (dueUnder storedEPG policy) fs (gr_NextDueAt g) else gr_NextDueAt g = 0
     | [] => gr_NextDueAt g = 0
     end.
Proof.
  cbv zeta. induction fs as [|svc fs IH] using rev_ind.
  { cbn. conjs; [done|done|by left|by left|by intros svc t ?%not_elem_of_nil|]. destruct policies as [|p l]; [done|]. destruct (0 <? _); [by left|done]. }
  rewrite foldl_app. cbn [foldl]. set (g := foldl noteService' emptyGroup fs) in *. destruct IH as (C1 & C2 & C3 & C4 & C5 & C6). unfold noteService. cbn [gr_Candidates gr_Services gr_OldestSuccessAt gr_LastFailureAt gr_NextDueAt].
  assert (bool_decide (gr_Services g = []) = bool_decide (fs = [])) as Ef by (apply bool_decide_ext; rewrite C2; split; [apply map_eq_nil|by intros ->]). rewrite Ef. clear Ef.
  assert (forall f n, fs = [] \/ leastOf f fs n -> leastOf f (fs ++ [svc]) (if bool_decide (fs = []) || (f svc <? n) then f svc else n)) as Hleast.
  { intros f n Hn. case_bool_decide as Hfs; cbn [orb]; [rewrite Hfs; split; [exists svc; split; [by apply list_elem_of_singleton|done]|intros x ->%list_elem_of_singleton; lia]|]. destruct Hn as [|[(x & Hx & ->) Hmin]]; [done|].
    destruct (Z.ltb_spec (f svc) (f x)); (split; [|intros y [Hy| ->%list_elem_of_singleton]%elem_of_app; [specialize (Hmin y Hy)|]; lia]); [exists svc; split; [set_solver|done]|exists x; split; [set_solver|done]]. }
  conjs; [done|by rewrite map_app, C2|right; by apply Hleast| | |].
  - destruct (failureOf svc) as [t|] eqn:Et; [|destruct C4 as [|(x & Hx & Ex)]; [by left|right; exists x; split; [set_solver|done]]]. destruct (Z.max_spec (gr_LastFailureAt g) t) as [[_ ->]|[_ ->]]; [right; exists svc; split; [set_solver|done]|]. destruct C4 as [|(x & Hx & Ex)]; [by left|right; exists x; split; [set_solver|done]].
  - intros x t [Hx| ->%list_elem_of_singleton]%elem_of_app Ht; [specialize (C5 x t Hx Ht); destruct (failureOf svc); lia|rewrite Ht; lia].
  - unfold dueOf. destruct policies as [|p l]; [done|]. destruct (0 <? rp_RefreshInterval p); [|done]. right. by apply Hleast.
Qed.

(** ** Candidates *)

Abbreviation placingState := (gmap GroupKey Group * gmap GroupKey (gset Candidate))%type.

Definition withCandidates (cs : list Candidate) (g : Group) : Group := mkGroup cs (gr_Services g) (gr_OldestSuccessAt g) (gr_LastFailureAt g) (gr_NextDueAt g).

(** One key is one step. *)
Lemma placeOne_other c (st : placingState) key gk : gk <> key -> (placeCandidate c st key).1 !! gk = st.1 !! gk /\ (placeCandidate c st key).2 !! gk = st.2 !! gk.
Proof. intros Hne. unfold placeCandidate. case_bool_decide; [|done]. cbn. by rewrite lookup_alter_ne, lookup_insert_ne. Qed.

Lemma placeOne_local c (st st' : placingState) key : st.1 !! key = st'.1 !! key -> st.2 !! key = st'.2 !! key -> (placeCandidate c st key).1 !! key = (placeCandidate c st' key).1 !! key /\ (placeCandidate c st key).2 !! key = (placeCandidate c st' key).2 !! key.
Proof. intros H1 H2. unfold placeCandidate. rewrite H2. case_bool_decide; [|done]. cbn. by rewrite !lookup_alter_eq, !lookup_insert_eq, H1. Qed.

Lemma placeAll_spec c keys : forall st : placingState, NoDup keys -> forall gk,
  let st' := foldl (placeCandidate c) st keys in let one := if bool_decide (gk ∈ keys) then placeCandidate c st gk else st in st'.1 !! gk = one.1 !! gk /\ st'.2 !! gk = one.2 !! gk.
Proof.
  induction keys as [|key keys IH]; intros st Hd gk; cbv zeta; cbn [foldl]; [done|]. apply NoDup_cons in Hd as [Hk Hd]. destruct (IH (placeCandidate c st key) Hd gk) as [-> ->]. clear IH. destruct (decide (gk = key)) as [-> |Hne].
  - rewrite bool_decide_eq_false_2 by done. by rewrite bool_decide_eq_true_2 by set_solver.
  - rewrite (bool_decide_ext (gk ∈ key :: keys) (gk ∈ keys)) by set_solver. destruct (placeOne_other c st key gk Hne) as [E1 E2]. case_bool_decide; [|by split]. by apply placeOne_local.
Qed.

Section Place.
Context (order : list GroupKey -> list GroupKey) (order_perm : forall l, order l ≡ₚ l).
Context (groups : gmap GroupKey Group) (waiting : GroupKey -> list Candidate).

(** The candidates placed after some channels. *)
Definition placed (cs : list Candidate) (st : placingState) : Prop := forall gk,
  st.1 !! gk = withCandidates (firstsBy (fun c => c) (filter (fun c => c ∈ waiting gk) cs)) <$> groups !! gk
  /\ (is_Some (groups !! gk) -> forall c, c ∈ (default ∅ (st.2 !! gk) : gset Candidate) <-> c ∈ waiting gk /\ c ∉ cs).

Lemma placeChannel_placed cs ch st : placed cs st -> placed (cs ++ [channelCandidate ch]) (placeChannel order st ch).
Proof.
  intros H gk. unfold placeChannel. set (c := channelCandidate ch). assert (NoDup (order (elements (dom st.1)))) as Hd by (rewrite order_perm; apply NoDup_elements).
  destruct (placeAll_spec c _ st Hd gk) as [-> ->]. rewrite (bool_decide_ext _ (is_Some (groups !! gk))) by (rewrite order_perm, elem_of_elements, elem_of_dom, (proj1 (H gk)); by rewrite fmap_is_Some).
  destruct (H gk) as [H1 H2]. rewrite filter_app, filter_cons, filter_nil. case_bool_decide as Hs.
  2:{ destruct (groups !! gk) as [g|]; [by destruct Hs|]. rewrite H1. split; [done|]. by intros []. }
  specialize (H2 Hs). unfold placeCandidate. case_bool_decide as Hw; rewrite H2 in Hw.
  - destruct Hw as [Hw Hc]. cbn [fst snd]. rewrite lookup_alter_eq, lookup_insert_eq, H1, decide_True by done. rewrite firstsBy_snoc. rewrite bool_decide_eq_false_2.
    2:{ intros (x & Hx & Hin)%list_elem_of_fmap. apply list_elem_of_filter in Hin as [_ Hin]. congruence. }
    split; [by destruct Hs as [g ->]|]. intros _ x. cbn [from_option]. unfold id. rewrite elem_of_difference, elem_of_singleton, H2, elem_of_app, list_elem_of_singleton. tauto.
  - rewrite H1. split.
    + f_equal. f_equal. destruct (decide (c ∈ waiting gk)) as [Hin|]; [|by rewrite app_nil_r]. rewrite firstsBy_snoc, bool_decide_eq_true_2; [by rewrite app_nil_r|]. apply list_elem_of_fmap. exists c. split; [done|]. apply list_elem_of_filter. split; [done|]. destruct (decide (c ∈ cs)); [done|]. exfalso. tauto.
    + intros _ x. rewrite H2, elem_of_app, list_elem_of_singleton. split; [|tauto]. intros [Hx Hn]. split; [done|]. intros [|E]; [done|subst x]. tauto.
Qed.

Lemma channels_placed chs st : (forall gk g, groups !! gk = Some g -> gr_Candidates g = []) -> st.1 = groups -> (forall gk c, c ∈ (default ∅ (st.2 !! gk) : gset Candidate) <-> c ∈ waiting gk) ->
  placed (map channelCandidate chs) (foldl (placeChannel order) st chs).
Proof.
  intros Hg H1 H2. induction chs as [|ch chs IH] using rev_ind.
  - intros gk. cbn [map foldl]. rewrite filter_nil. cbn [firstsBy firstsFrom]. rewrite H1. split.
    + destruct (groups !! gk) as [[cs l a b d]|] eqn:E; [|done]. cbn. unfold withCandidates. cbn. pose proof (Hg _ _ E) as Hc. cbn in Hc. by subst cs.
    + intros _ c. rewrite H2. split; [intros Hc; split; [done|by intros ?%not_elem_of_nil]|tauto].
  - rewrite map_app, foldl_app. cbn [map foldl]. by apply placeChannel_placed.
Qed.
End Place.

(** ** The groups *)

Lemma enabled_spec c : c ∈ enabledChannels channels <-> exists ch, ch ∈ channels /\ IsChannelDisabled ch = false /\ channelCandidate ch = c.
Proof.
  unfold enabledChannels. induction channels as [|ch chs IH] using rev_ind; [cbn; set_solver|]. rewrite foldl_app. cbn [foldl]. setoid_rewrite elem_of_app. setoid_rewrite list_elem_of_singleton. destruct (IsChannelDisabled ch) eqn:E; cbn [negb]; rewrite ?elem_of_union, ?elem_of_singleton, IH; clear IH.
  - split; [intros (x & ? & ? & ?); exists x; auto|]. intros (x & [?| ->] & ? & ?); [exists x; auto|congruence].
  - split; [intros [-> |(x & ? & ? & ?)]; [exists ch; auto|exists x; auto]|]. intros (x & [?| ->] & ? & <-); [right; exists x; auto|by left].
Qed.

Lemma stored_spec services k : k ∈ storedKeys channels storedEPG services <-> exists svc, svc ∈ services /\ sv_Key svc = k /\ candidateOf svc ∈ enabledChannels channels /\ isStoredAt storedEPG (candidateOf svc) = true.
Proof.
  unfold storedKeys. induction services as [|svc services IH] using rev_ind; [cbn; set_solver|]. rewrite foldl_app. cbn [foldl]. setoid_rewrite elem_of_app. setoid_rewrite list_elem_of_singleton.
  destruct (bool_decide (candidateOf svc ∈ enabledChannels channels) && isStoredAt storedEPG (candidateOf svc)) eqn:E; rewrite ?elem_of_union, ?elem_of_singleton, IH; clear IH.
  - apply andb_true_iff in E as [Ec%bool_decide_eq_true Es]. split; [intros [-> |(x & ? & ? & ? & ?)]; [exists svc; auto|exists x; auto]|]. intros (x & [?| ->] & <- & ? & ?); [right; exists x; auto|by left].
  - split; [intros (x & ? & ? & ? & ?); exists x; auto|]. intros (x & [?| ->] & ? & Hc & Hs); [exists x; auto|]. rewrite Hs, bool_decide_eq_true_2 in E by done. done.
Qed.

Lemma groupKeyOf_stored svc : gk_Stored (groupKeyOf storedEPG svc) = isStoredAt storedEPG (candidateOf svc) /\ gk_NetworkID (groupKeyOf storedEPG svc) = k_NetworkID (sv_Key svc).
Proof. unfold groupKeyOf. destruct (isStoredAt _ _); [done|]. by destruct (_ =? 0). Qed.

Lemma groups_exact order services : (forall l, order l ≡ₚ l) -> forall gk, let ms := groupMembers' (storedKeys channels storedEPG services) gk services in
  match groupServices channels storedEPG policies order services !! gk with
  | Some g => ms <> [] /\ describesGroup channels storedEPG policies ms g
  | None => ms = []
  end.
Proof.
  intros Ho gk. cbv zeta. set (stored := storedKeys channels storedEPG services). pose proof (services_grouped stored services) as Hg. unfold groupServices. fold stored. set (st := foldl (addService' stored) (mkGrouping ∅ ∅ ∅) services) in *.
  assert (forall gk g, gp_groups st !! gk = Some g -> gr_Candidates g = []) as Hc. { intros gk' g E. destruct (Hg gk') as (_ & E2 & _). rewrite E in E2. cbn [default] in E2. unfold id in E2. subst g. apply note_spec. }
  destruct (channels_placed order Ho (gp_groups st) (fun gk => map candidateOf (groupMembers' stored gk services)) channels (gp_groups st, gp_candidates st) Hc eq_refl (fun gk => proj1 (proj2 (proj2 (Hg gk)))) gk) as [-> _].
  destruct (Hg gk) as (E1 & E2 & _). set (ms := groupMembers' stored gk services) in *. destruct (gp_groups st !! gk) as [g|] eqn:E; cbn [fmap option_fmap option_map default] in *.
  - unfold id in E2. assert (ms <> []) as Hne by (apply E1; done). split; [done|]. destruct (note_spec (firstsBy sv_Key ms)) as (_ & C2 & C3 & C4 & C5 & C6). rewrite <- E2 in *. assert (firstsBy sv_Key ms <> []) as Hf. { destruct ms as [|x l]; [done|]. unfold firstsBy. cbn [firstsFrom]. done. }
    unfold describesGroup, withCandidates. cbn [gr_Services gr_Candidates gr_OldestSuccessAt gr_LastFailureAt gr_NextDueAt]. conjs; [done|done|by destruct C3|done|done|]. destruct policies as [|p l]; [done|]. destruct (0 <? _); [by destruct C6|done].
  - destruct ms; [done|]. exfalso. destruct (proj2 E1 ltac:(done)). done.
Qed.
End Correct.

Section Coverage.
Context (channels : list routedChannel) (storedEPG : string -> string -> bool) (policies : list ReceptionPolicy).

Lemma member_spec stored gk services svc : svc ∈ groupMembers channels storedEPG stored gk services <-> svc ∈ services /\ sv_EITSchedule svc = true /\ candidateOf svc ∈ enabledChannels channels
  /\ bool_decide (sv_Key svc ∈ stored) = isStoredAt storedEPG (candidateOf svc) /\ groupKeyOf storedEPG svc = gk.
Proof. unfold groupMembers, eligible. rewrite list_elem_of_filter, !andb_true_iff, bool_decide_eq_true, eqb_true_iff. tauto. Qed.

(** Every channel of a member is a candidate of the group. *)
Lemma member_candidate stored gk services g svc : describesGroup channels storedEPG policies (groupMembers channels storedEPG stored gk services) g -> svc ∈ groupMembers channels storedEPG stored gk services -> candidateOf svc ∈ gr_Candidates g.
Proof.
  intros (_ & -> & _) Hm. pose proof (firstsBy_keys (fun c : Candidate => c) (filter (fun c => c ∈ map candidateOf (groupMembers channels storedEPG stored gk services)) (map channelCandidate channels)) (candidateOf svc)) as Hk. rewrite !map_id in Hk. apply Hk, list_elem_of_filter. split; [by apply list_elem_of_fmap_2|].
  apply member_spec in Hm as (_ & _ & Hc & _). apply enabled_spec in Hc as (ch & Hch & _ & <-). by apply list_elem_of_fmap_2.
Qed.

(** A key of a group is the key of a member. *)
Lemma group_key stored gk services g k : describesGroup channels storedEPG policies (groupMembers channels storedEPG stored gk services) g -> k ∈ gr_Services g <-> exists svc, svc ∈ groupMembers channels storedEPG stored gk services /\ sv_Key svc = k.
Proof. intros (-> & _). rewrite firstsBy_keys. split; [intros (svc & -> & H)%list_elem_of_fmap; by exists svc|intros (svc & H & <-); by apply list_elem_of_fmap_2]. Qed.
End Coverage.

(** The groups are exactly those of the services whose guide can be gathered:
    a group lists every service once, in the order of the store, its candidates
    are the channels its services are received on, in the order of the
    configuration, its times are the least success, the latest failure and the
    earliest due time of its services.  A service is never gathered both from a
    stored guide and live, and from one group only unless its stream is unknown;
    every service with a schedule on an enabled channel is in a group, unless the
    server that stores its guide lists it without one. *)
Theorem grouping_is_exact channels storedEPG policies order services : (forall l, order l ≡ₚ l) ->
  let groups := groupServices channels storedEPG policies order services in
  let ms gk := groupMembers channels storedEPG (storedKeys channels storedEPG services) gk services in
  (forall gk, match groups !! gk with Some g => ms gk <> [] /\ describesGroup channels storedEPG policies (ms gk) g | None => ms gk = [] end)
  /\ (forall gk g, groups !! gk = Some g -> NoDup (gr_Services g) /\ forall svc, svc ∈ ms gk -> candidateOf svc ∈ gr_Candidates g)
  /\ (forall gk g gk' g' k, groups !! gk = Some g -> groups !! gk' = Some g' -> k ∈ gr_Services g -> k ∈ gr_Services g' -> gk_Stored gk = gk_Stored gk' /\ (gk_Stored gk = true \/ k_StreamID k <> 0 -> gk = gk'))
  /\ (forall svc, svc ∈ services -> sv_EITSchedule svc = true -> candidateOf svc ∈ enabledChannels channels ->
       (exists gk g, groups !! gk = Some g /\ sv_Key svc ∈ gr_Services g)
       \/ exists other, other ∈ services /\ sv_Key other = sv_Key svc /\ sv_EITSchedule other = false /\ isStoredAt storedEPG (candidateOf other) = true).
Proof.
  intros Ho groups ms. pose proof (groups_exact channels storedEPG policies order services Ho) as Hx. set (stored := storedKeys channels storedEPG services) in *.
  assert (forall gk g, groups !! gk = Some g -> describesGroup channels storedEPG policies (ms gk) g) as Hd. { intros gk g E. specialize (Hx gk). cbv zeta in Hx. fold groups in Hx. rewrite E in Hx. by destruct Hx. }
  conjs; [exact Hx| | |].
  - intros gk g E. split; [destruct (Hd _ _ E) as (-> & _); apply firstsBy_NoDup|]. intros svc Hs. apply (member_candidate channels storedEPG policies stored gk services); [by apply Hd|done].
  - intros gk g gk' g' k E E' Hk Hk'. apply (group_key channels storedEPG policies stored gk services) in Hk as (s & Hs & <-); [|by apply Hd]. apply (group_key channels storedEPG policies stored gk' services) in Hk' as (s' & Hs' & Ek); [|by apply Hd].
    apply member_spec in Hs as (_ & _ & _ & Hst & <-). apply member_spec in Hs' as (_ & _ & _ & Hst' & <-). rewrite Ek, Hst in Hst'. rewrite !(proj1 (groupKeyOf_stored storedEPG _)). split; [done|]. unfold groupKeyOf. rewrite <- Hst', Ek. destruct (isStoredAt storedEPG (candidateOf s)); [done|]. intros [?|Hne]; [done|]. by destruct (Z.eqb_spec (k_StreamID (sv_Key s)) 0).
  - intros svc Hin Hs Hc. assert (forall x, x ∈ services -> sv_EITSchedule x = true -> candidateOf x ∈ enabledChannels channels -> bool_decide (sv_Key x ∈ stored) = isStoredAt storedEPG (candidateOf x) -> exists gk g, groups !! gk = Some g /\ sv_Key x ∈ gr_Services g) as Hgo.
    { intros x Hx' Hxs Hxc Hxe. assert (x ∈ ms (groupKeyOf storedEPG x)) as Hm by (by apply member_spec). exists (groupKeyOf storedEPG x). specialize (Hx (groupKeyOf storedEPG x)). cbv zeta in Hx. fold groups stored in Hx. destruct (groups !! groupKeyOf storedEPG x) as [g|] eqn:E; [|change (ms (groupKeyOf storedEPG x) = []) in Hx; rewrite Hx in Hm; by apply not_elem_of_nil in Hm].
      exists g. split; [done|]. apply (group_key channels storedEPG policies stored (groupKeyOf storedEPG x) services); [by apply Hd|]. by exists x. }
    destruct (isStoredAt storedEPG (candidateOf svc)) eqn:Est.
    + left. apply Hgo; [done..|]. rewrite Est. apply bool_decide_eq_true, stored_spec. by exists svc.
    + destruct (decide (sv_Key svc ∈ stored)) as [Hk|Hk]; [|left; apply Hgo; [done..|]; by rewrite Est, bool_decide_eq_false_2]. pose proof Hk as (o & Ho1 & Ho2 & Ho3 & Ho4)%stored_spec. destruct (sv_EITSchedule o) eqn:Eo; [|right; by exists o]. left. rewrite <- Ho2 in Hk |- *. apply Hgo; [done..|]. by rewrite Ho4, bool_decide_eq_true_2.
Qed.

Definition demoStatus (success : Z) : EPGStatus := mkStatus None (Some success) EmptyString None None false None.
Definition demoStored (ch : string) (service success : Z) : storedService := mkStored EmptyString (mkServiceKey 4 16625 service) None true "BS" ch (demoStatus success).
Definition demoGroupChannel (ch : string) : routedChannel := mkRouted EmptyString "BS" ch None None EmptyString EmptyString None [].
Definition demoGroups : gmap GroupKey Group :=
  groupServices [demoGroupChannel "B"; demoGroupChannel "A"] (fun _ ch => bool_decide (ch = "B"%string)) [mkPolicy 1000000 0 0] (fun l => l) [demoStored "A" 101 7; demoStored "B" 101 7; demoStored "A" 102 5].

Lemma grouping_is_exact_witness :
  demoGroups !! mkGroupKey 4 0 true (mkCandidate EmptyString EmptyString) = Some (mkGroup [mkCandidate "BS" "B"] [mkServiceKey 4 16625 101] 7 0 8)
  /\ forall gk g gk' g' k, demoGroups !! gk = Some g -> demoGroups !! gk' = Some g' -> k ∈ gr_Services g -> k ∈ gr_Services g' -> gk_Stored gk = gk_Stored gk' /\ (gk_Stored gk = true \/ k_StreamID k <> 0 -> gk = gk').
Proof.
  split; [vm_compute; reflexivity|].
  exact (proj1 (proj2 (proj2 (grouping_is_exact [demoGroupChannel "B"; demoGroupChannel "A"] (fun _ ch => bool_decide (ch = "B"%string)) [mkPolicy 1000000 0 0] (fun l => l) [demoStored "A" 101 7; demoStored "B" 101 7; demoStored "A" 102 5] (fun l => Permutation_refl l))))).
Defined.
